(* ===== verification/_CoqProject ===== *)
-Q . S2P
Prelude.v
Float.v
Tiers.v
MemoryManager.v
CachePolicy.v
Bytes.v
ExpertIndex.v
ExpertStore.v
Transfer.v
ExpertManager.v
Residency.v
ManagerMethods.v
Registration.v
ManagerSystem.v
ManagerProperties.v
ExpertState.v
Scheduler.v
SchedulerInvariant.v
SchedulerProperties.v
Json.v
JsonGrammar.v
Tensor.v
KVCache.v
CudaKVCache.v
KVCacheManager.v
Sampling.v
Router.v
Session.v
Generation.v
MemoryPool.v
Prediction.v
Predictor.v
Decimal.v
Quantization.v
Manifest.v
ManifestJson.v
ManifestRoundtrip.v
SafeTensors.v
ExpertBudget.v
MemoryPressure.v
FloatBits.v
Int8Quantization.v
HostMemory.v
CpuTensorBackend.v
SampleHost.v
NewTensor.v
ArrayLoops.v
Ownership.v
Norm.v
Embedding.v
LMHead.v
Precision.v
ExpertMlp.v
WeightMap.v
MoERuntime.v
Rope.v
Attention.v
CpuAttention.v
