(* ===== verification/Prelude.v ===== *)
(** * HyperMoE engine: a verification development

    HyperMoE runs mixture-of-experts language models whose experts do not fit in device
    memory: experts live in a packed file (NVMe), in host memory or in device memory, and
    are moved between these tiers while tokens are generated.  This library models the
    part of the C++ program under [src/] that decides, accounts and computes, and proves
    what makes it correct.  Source paths below are relative to the repository.

    ** How the model reads

    The embedding is shallow.  A C++ class is a [Record] of its data members, a method a
    [Definition] of the same name whose steps follow the body.  A method that changes its
    object is a computation of the state monad [ST] below: it returns, throws (the state
    it leaves is kept, as a C++ exception keeps it) or runs out of fuel ([Diverge]);
    a function that only computes returns a [result].  Total correctness is stated with
    [wp m s Q E]: [m] from [s] returns with [Q] or throws with [E] and does not diverge.
    Exceptions carry their C++ class ([exn_kind]) and message.  Integers are [Z] with
    [wrap32] and [wrap64] written wherever the source can leave the width.  [float] and
    [double] are the binary32 and binary64 formats of the Standard Library ([Float],
    [FloatBits]).  Hash tables are finite maps; where the source walks one, the order is a
    parameter.  Functions of the C library ([exp], [erf], [pow], [log], [sin], ...),
    [operator new], device allocators and clocks are parameters or classes with laws.
    Commands of a compute backend and callbacks of clients may throw: in [Transfer] and
    [CudaKVCache] a parameter says which call does, and what the code does then is proved.

    ** The parts

    Placement of experts.
    - [Tiers], [MemoryManager]: tiers, element types, the expert record; the reservations
      of the two memory pools ([memory_manager.cpp]).
    - [CachePolicy]: the eviction policies LRU, LFU and Hybrid behind one class
      ([src/cache/], [lru_cache_policy.cpp]).
    - [Bytes], [ExpertIndex], [ExpertStore]: the packed expert file, its index, checksums
      and both ways of reading it ([src/storage/]).
    - [Transfer]: buffers, the transfer queue and its workers ([TransferManager.cpp]).
    - [ExpertManager], with its proofs in [Residency], [ManagerMethods], [Registration],
      [ManagerSystem], [ManagerProperties]: which tier each expert is in, evictions,
      leases, statistics ([expert_manager.cpp]).
    - [ExpertState], [Scheduler], [SchedulerInvariant], [SchedulerProperties]: the residency
      state machine and the scheduler with its worker threads ([src/scheduler/]).
    - [MemoryPressure], [ExpertBudget], [MemoryPool]: the pressure controller, the device
      budget of the experts, the device memory pool.
    - [Prediction], [Predictor]: statistics of routing decisions and the prefetches they
      lead to ([src/prediction/]).

    Models and files.
    - [Json], [JsonGrammar], [Decimal]: the JSON reader and its grammar, numbers as text.
    - [Quantization], [Manifest], [ManifestJson], [ManifestRoundtrip]: quantization
      parameters, the model manifest, its validation, its file.
    - [SafeTensors]: checkpoints of one or several shards ([src/importer/]).

    Computation.
    - [Tensor], [KVCache], [CudaKVCache], [KVCacheManager]: shapes, storage, views; key/value
      caches and their sessions.
    - [HostMemory], [CpuTensorBackend], [ExpertMlp]: host memory and its backend, the
      operations on CPU tensors, the expert's feed-forward network.
    - [SampleHost], [NewTensor], [ArrayLoops], [Ownership]: a host for the examples; tensors a
      function allocates and returns; loops over arrays of floats; functions that hold
      several tensors and give all of them back when they throw.
    - [Norm], [Embedding], [LMHead]: RMS normalization, the token embedding, the
      language-model head ([src/transformer/]).
    - [Int8Quantization], [Precision]: quantized rows, half-precision and bfloat16 weights
      ([src/tensor/quantization/], [src/tensor/precision/]).
    - [WeightMap], [MoERuntime]: where the projections of an expert are, and the execution of
      the experts of a routed batch ([ExpertWeightMap.cpp], [MoERuntime.cpp]).
    - [Rope], [Attention], [CpuAttention]: rotary positions; the loops over heads, tokens and
      keys with their reference; the whole attention on the CPU, from the checks to the
      output, with or without a cache ([src/transformer/position/], [src/transformer/attention/]).
    - [Router], [Sampling], [Session], [Generation]: routing of tokens, choice of the next
      token, sessions, the generation loop.

    They interact as in the program.  The expert manager is written against [CachePolicy]
    and [TransferService], the scheduler against the transfers and the states, the
    predictor calls the scheduler, the pressure controller the manager; generation runs
    over any model and any cache that keep the promises of a class, which the host and
    the device cache discharge.  The tensor operations work on views of buffers of one
    memory; a view is usable when its buffer is alive and its storage allocated.

    ** What is proved

    - Placement: the residency invariant along every run, exact accounting of bytes and
      leases, termination of the eviction recursion, evictions respecting leases,
      registration with rollback, LRU against its recency list, the pressure controller
      and budget bounds.
    - Concurrency: no interleaving of clients and workers loses a task or request,
      workers survive, transfers deliver or fail cleanly whatever the backend and the
      callbacks throw, shutdown resolves everything.
    - Files: round trips of the store and the manifest, the JSON reader against its
      grammar, what an opened checkpoint satisfies, corruption found by the checksum.
    - Computation: views stay inside their buffers, the operations compute the reference
      functions of the matrices their views hold and touch nothing else, normalization,
      embedding, head and the mixture of experts return new tensors that hold exactly what
      the formula with the roundings of the source gives, the router and the sampler
      choose what they should, by exactly the distribution asked for, caches refine their specification, the generation loop
      ends and releases its session.
    - Prediction: statistics are the counts of the trace, predictions are the best and are
      all suppressed or handed to the scheduler.

    ** Bounds and fuel

    The evictions of the expert manager recurse with a fuel computed from the number of
    resident experts, the worker loops with one computed from queue and pending tasks,
    the JSON parser with the length of the text, the growth of the device cache with 66
    doublings; in each case a theorem shows the fuel is enough, so [Diverge] never occurs.
    Loops over a range are folds over [seq].

    ** Not modelled

    - Failure of the allocations containers and strings make; failures of the operating
      system (permissions, full disks, failing maps), symbolic links.
    - Locks as such: a method that holds its object's mutex is one atomic step; where the
      source drops a lock half way the step is split there (a worker of the scheduler
      completes a task in four parts: under the lock, the callbacks, the publication and
      the promise).  Durations and profiling.
    - Contraction of products and sums into one rounding; payloads of NaNs.
    - The CUDA runtime, kernels, streams and the operations that only forward to them: the
      code that runs on the device has no semantics here.
    - Metrics, profiling, hardware detection, the validation against files of a reference
      implementation, the importer of Qwen checkpoints and its tokenizer, the
      command-line tools, benchmarks and tests.
    - The objects that wire the components together (transformer block, model runtimes). *)

From stdpp Require Export base gmap sets list strings pretty.
From stdpp Require Export fin_maps sorting.
From Stdlib Require Export ZArith Lia.

#[global] Open Scope Z_scope.

(** ** Machine-width integers

    [std::uint32_t], [std::uint64_t] and [std::size_t] (64-bit targets only, as
    the build requires) are integers of [Z] kept in range by reduction modulo
    the width.  [wrapN] is written at every operation of the source that can
    leave the range. *)

Definition u32_max : Z := 4294967295.
Definition u64_max : Z := 18446744073709551615.
Definition wrap32 (z : Z) : Z := z `mod` 4294967296.
Definition wrap64 (z : Z) : Z := z `mod` 18446744073709551616.

Definition is_u32 (z : Z) : Prop := 0 <= z <= u32_max.
Definition is_u64 (z : Z) : Prop := 0 <= z <= u64_max.

Lemma wrap64_small z : is_u64 z -> wrap64 z = z.
Proof. unfold is_u64, wrap64, u64_max. intros. apply Z.mod_small. lia. Qed.

Lemma wrap32_small z : is_u32 z -> wrap32 z = z.
Proof. unfold is_u32, wrap32, u32_max. intros. apply Z.mod_small. lia. Qed.

Lemma wrap64_u64 z : is_u64 (wrap64 z).
Proof.
  unfold is_u64, wrap64, u64_max.
  pose proof (Z.mod_pos_bound z 18446744073709551616). lia.
Qed.

Lemma wrap32_u32 z : is_u32 (wrap32 z).
Proof.
  unfold is_u32, wrap32, u32_max.
  pose proof (Z.mod_pos_bound z 4294967296). lia.
Qed.

(** The source's test that a product leaves the range: [a > max / b]. *)
Lemma mul_overflows a b : 0 < b -> (u64_max / b <? a) = (u64_max <? a * b).
Proof.
  intros Hb. pose proof (Z.mul_div_le u64_max b Hb). pose proof (Z.mul_succ_div_gt u64_max b Hb).
  destruct (Z.ltb_spec (u64_max / b) a), (Z.ltb_spec u64_max (a * b)); try done; nia.
Qed.

(** ** The packed (layer, expert) key

    Every component that indexes experts packs the two 32-bit identifiers in one
    64-bit key, [(layerId << 32) | id]. *)

Definition pack_key (layerId id : Z) : Z := Z.lor (Z.shiftl layerId 32) id.

(** A number below [2^k] shares no bit with a multiple of [2^k], so [|] and [^] add. *)
Lemma land_disjoint k l i : 0 <= k -> 0 <= i < 2 ^ k -> Z.land i (l * 2 ^ k) = 0.
Proof.
  intros Hk Hi. apply Z.bits_inj'. intros n Hn. rewrite Z.land_spec, Z.bits_0, andb_false_iff.
  destruct (decide (n < k)) as [Hlt|Hge].
  - right. by apply Z.mul_pow2_bits_low.
  - left. destruct (decide (i = 0)) as [->|Hnz]; [apply Z.bits_0|].
    apply Z.bits_above_log2; [lia|]. apply Z.log2_lt_pow2; [lia|].
    apply Z.lt_le_trans with (2 ^ k); [lia|]. apply Z.pow_le_mono_r; lia.
Qed.

Lemma lxor_add_disjoint k l i :
  0 <= k -> 0 <= i < 2 ^ k -> Z.lxor i (Z.shiftl l k) = i + l * 2 ^ k.
Proof.
  intros Hk Hi. rewrite Z.shiftl_mul_pow2 by done.
  symmetry. by apply Z.add_nocarry_lxor, land_disjoint.
Qed.

Lemma lor_add_disjoint k l i : 0 <= k -> 0 <= i < 2 ^ k -> Z.lor i (Z.shiftl l k) = i + l * 2 ^ k.
Proof.
  intros Hk Hi. rewrite <- lxor_add_disjoint by done. symmetry. apply Z.lxor_lor.
  rewrite Z.shiftl_mul_pow2 by done. by apply land_disjoint.
Qed.

Lemma lxor_bound k a b : 0 <= k -> 0 <= a < 2 ^ k -> 0 <= b < 2 ^ k -> 0 <= Z.lxor a b < 2 ^ k.
Proof.
  intros Hk Ha Hb.
  assert (Z.lxor a b = Z.lxor a b mod 2 ^ k) as ->; [|apply Z.mod_pos_bound; lia].
  rewrite <- !Z.land_ones by done. apply Z.bits_inj'. intros n Hn.
  rewrite Z.land_spec, Z.lxor_spec. destruct (decide (n < k)) as [Hlt|Hge].
  - by rewrite Z.ones_spec_low, andb_true_r by lia.
  - rewrite Z.ones_spec_high, andb_false_r by lia.
    rewrite <- (Z.mod_small a (2 ^ k)), <- (Z.mod_small b (2 ^ k)) by done.
    by rewrite !Z.mod_pow2_bits_high by lia.
Qed.

Lemma lxor_u32 a b : is_u32 a -> is_u32 b -> is_u32 (Z.lxor a b).
Proof.
  unfold is_u32, u32_max. intros. enough (0 <= Z.lxor a b < 2 ^ 32) by lia.
  apply lxor_bound; lia.
Qed.

Lemma pack_key_arith l i : is_u32 i -> pack_key l i = l * 4294967296 + i.
Proof.
  unfold is_u32, u32_max, pack_key. intros Hi. rewrite Z.lor_comm, lor_add_disjoint by lia. lia.
Qed.

Lemma pack_key_inj l i l' i' :
  is_u32 i -> is_u32 i' -> pack_key l i = pack_key l' i' -> l = l' /\ i = i'.
Proof.
  intros Hi Hi'. rewrite !pack_key_arith by done.
  unfold is_u32, u32_max in *. lia.
Qed.

(** Unpacking: [key >> 32] and the truncation to 32 bits. *)
Lemma pack_key_layer l i : is_u32 i -> Z.shiftr (pack_key l i) 32 = l.
Proof.
  intros Hi. rewrite pack_key_arith by done. rewrite Z.shiftr_div_pow2 by lia.
  change (2 ^ 32) with 4294967296. unfold is_u32, u32_max in Hi.
  rewrite Z.add_comm, Z.div_add by lia. rewrite Z.div_small; lia.
Qed.

Lemma pack_key_expert l i : is_u32 i -> wrap32 (pack_key l i) = i.
Proof.
  intros Hi. rewrite pack_key_arith by done. unfold wrap32, is_u32, u32_max in *.
  rewrite Z.add_comm, Z.mod_add by lia. apply Z.mod_small. lia.
Qed.

(** ** Exceptions and results

    A C++ function that may throw returns [result A].  [Diverge] is the result
    of a recursion that ran out of its fuel; no theorem of the development
    leaves it open: the total-correctness triples below exclude it.
    [UndefinedBehaviour] is no exception: it marks an operation the language leaves
    undefined, such as a division by zero. *)

Inductive exn_kind : Type :=
  | LogicError | InvalidArgument | OutOfRange
  | RuntimeError | OverflowError | StorageError | MetadataError
  | BadAlloc
  | UndefinedBehaviour.

#[global] Instance exn_kind_eq_dec : EqDecision exn_kind.
Proof. solve_decision. Defined.

Record exn : Type := Exn { kind_of : exn_kind; what : string }.

#[global] Instance exn_eq_dec : EqDecision exn.
Proof. solve_decision. Defined.

(** [catch (const std::runtime_error&)]: [std::overflow_error] and the storage
    layer's [StorageError] and the metadata layer's [MetadataError] derive from
    [std::runtime_error]; [std::bad_alloc]
    derives from neither, and the other kinds from [std::logic_error]. *)
Definition is_runtime_error (e : exn) : bool :=
  match kind_of e with
  | RuntimeError | OverflowError | StorageError | MetadataError => true
  | LogicError | InvalidArgument | OutOfRange | BadAlloc | UndefinedBehaviour => false
  end.

(** [catch (const std::out_of_range&)] *)
Definition is_out_of_range (e : exn) : bool :=
  match kind_of e with OutOfRange => true | _ => false end.

Inductive result (A : Type) : Type :=
  | Ok (a : A)
  | Throw (e : exn)
  | Diverge.
Arguments Ok {A} a.
Arguments Throw {A} e.
Arguments Diverge {A}.

Definition res_bind {A B} (m : result A) (k : A -> result B) : result B :=
  match m with Ok a => k a | Throw e => Throw e | Diverge => Diverge end.

(** [if (c) throw e;] *)
Definition throw_if (c : bool) (e : exn) : result unit :=
  if c then Throw e else Ok tt.

(** ** State and exceptions

    A method of a class is a function from the object's state to a result and
    the state it leaves, the state being kept when the method throws. *)

Definition ST (S A : Type) : Type := S -> result A * S.

Definition ret {S A} (a : A) : ST S A := fun s => (Ok a, s).
Definition throw {S A} (e : exn) : ST S A := fun s => (Throw e, s).
Definition diverge {S A} : ST S A := fun s => (Diverge, s).
Definition st_get {S} : ST S S := fun s => (Ok s, s).
Definition gets {S A} (f : S -> A) : ST S A := fun s => (Ok (f s), s).
Definition modify {S} (f : S -> S) : ST S unit := fun s => (Ok tt, f s).
Definition lift {S A} (r : result A) : ST S A := fun s => (r, s).
Definition st_bind {S A B} (m : ST S A) (k : A -> ST S B) : ST S B :=
  fun s => match m s with
           | (Ok a, s') => k a s'
           | (Throw e, s') => (Throw e, s')
           | (Diverge, s') => (Diverge, s')
           end.
(** [try { m } catch (...) { h }] for the exceptions [p] selects. *)
Definition try_catch {S A} (p : exn -> bool) (m : ST S A) (h : exn -> ST S A) : ST S A :=
  fun s => match m s with
           | (Throw e, s') => if p e then h e s' else (Throw e, s')
           | r => r
           end.

(** A method of a member object, run on the object that holds it. *)
Definition zoom {S T A} (get : S -> T) (put : T -> S -> S) (m : ST T A) : ST S A :=
  fun s => let '(r, t) := m (get s) in (r, put t s).

Declare Scope st_scope.
Delimit Scope st_scope with st.
Notation "x <- m ;; k" := (st_bind m (fun x => k%st))
  (at level 100, m at next level, right associativity) : st_scope.
Notation "' p <- m ;; k" := (st_bind m (fun x => match x with p => k%st end))
  (at level 100, p pattern, m at next level, right associativity) : st_scope.
Notation "m ;;; k" := (st_bind m (fun _ => k%st))
  (at level 100, right associativity) : st_scope.

Declare Scope res_scope.
Delimit Scope res_scope with res.
Notation "x <-? m ;; k" := (res_bind m (fun x => k%res))
  (at level 100, m at next level, right associativity) : res_scope.
Notation "m ;;? k" := (res_bind m (fun _ => k%res))
  (at level 100, right associativity) : res_scope.

(** *** Total-correctness predicate transformer *)

(** [wp m s Q E]: run from [s], [m] terminates, establishes [Q] when it returns
    and [E] when it throws. *)
Definition wp {S A} (m : ST S A) (s : S) (Q : A -> S -> Prop) (E : exn -> S -> Prop) : Prop :=
  match m s with
  | (Ok a, s') => Q a s'
  | (Throw e, s') => E e s'
  | (Diverge, _) => False
  end.

Section wp_rules.
Context {S A B : Type}.
Implicit Types (s : S) (E : exn -> S -> Prop).

Lemma wp_mono (m : ST S A) s (Q Q' : A -> S -> Prop) E E' :
  wp m s Q E ->
  (forall a s', Q a s' -> Q' a s') -> (forall e s', E e s' -> E' e s') ->
  wp m s Q' E'.
Proof. unfold wp. destruct (m s) as [[] ?]; naive_solver. Qed.

Lemma wp_bind (m : ST S A) (k : A -> ST S B) s Q E :
  wp m s (fun a s' => wp (k a) s' Q E) E -> wp (st_bind m k) s Q E.
Proof. unfold wp, st_bind. by destruct (m s) as [[] ?]. Qed.

Lemma wp_ret (a : A) s (Q : A -> S -> Prop) E : Q a s -> wp (ret a) s Q E.
Proof. done. Qed.

Lemma wp_throw e s (Q : A -> S -> Prop) E : E e s -> wp (throw e) s Q E.
Proof. done. Qed.

Lemma wp_gets (f : S -> A) s (Q : A -> S -> Prop) E : Q (f s) s -> wp (gets f) s Q E.
Proof. done. Qed.

Lemma wp_modify (f : S -> S) s (Q : unit -> S -> Prop) E : Q tt (f s) -> wp (modify f) s Q E.
Proof. done. Qed.

Lemma wp_get s (Q : S -> S -> Prop) E : Q s s -> wp st_get s Q E.
Proof. done. Qed.

Lemma wp_conj (m : ST S A) s (Q Q' : A -> S -> Prop) (E E' : exn -> S -> Prop) :
  wp m s Q E -> wp m s Q' E' -> wp m s (fun a s' => Q a s' /\ Q' a s') (fun e s' => E e s' /\ E' e s').
Proof. unfold wp. by destruct (m s) as [[| |] s']. Qed.

Lemma wp_try (p : exn -> bool) (m : ST S A) h s (Q : A -> S -> Prop) E :
  wp m s Q (fun e s' => if p e then wp (h e) s' Q E else E e s') ->
  wp (try_catch p m h) s Q E.
Proof. unfold wp, try_catch. destruct (m s) as [[|e|] ?]; [done| |done]. by destruct (p e). Qed.

Lemma wp_lift_throw_if (c : bool) e s (Q : unit -> S -> Prop) E :
  (c = true -> E e s) -> (c = false -> Q tt s) -> wp (lift (throw_if c e)) s Q E.
Proof. destruct c; unfold wp; cbn; auto. Qed.

Lemma wp_lift (r : result A) s (Q : A -> S -> Prop) E :
  match r with Ok a => Q a s | Throw e => E e s | Diverge => False end -> wp (lift r) s Q E.
Proof. done. Qed.

Lemma wp_zoom {T} (get : S -> T) (put : T -> S -> S) (m : ST T A) s (Q : A -> S -> Prop) E :
  wp m (get s) (fun a t => Q a (put t s)) (fun e t => E e (put t s)) -> wp (zoom get put m) s Q E.
Proof. unfold wp, zoom. by destruct (m (get s)) as [[] ?]. Qed.

(** A call whose outcome is known. *)
Lemma wp_run (m : ST S A) s r s' (Q : A -> S -> Prop) E :
  m s = (Ok r, s') -> Q r s' -> wp m s Q E.
Proof. unfold wp. by intros ->. Qed.

(** From a triple to the equations a caller sees. *)
Lemma wp_result (m : ST S A) s Q E :
  wp m s Q E ->
  (exists a s', m s = (Ok a, s') /\ Q a s') \/ (exists e s', m s = (Throw e, s') /\ E e s').
Proof. unfold wp. destruct (m s) as [[] ?]; naive_solver. Qed.

Lemma wp_ok (m : ST S A) s Q E a s' : wp m s Q E -> m s = (Ok a, s') -> Q a s'.
Proof. unfold wp. intros H Heq. by rewrite Heq in H. Qed.

Lemma wp_err (m : ST S A) s Q E e s' : wp m s Q E -> m s = (Throw e, s') -> E e s'.
Proof. unfold wp. intros H Heq. by rewrite Heq in H. Qed.

Lemma wp_total (m : ST S A) s Q E s' : wp m s Q E -> m s <> (Diverge, s').
Proof. unfold wp. intros H Heq. by rewrite Heq in H. Qed.
End wp_rules.

(** Rule induction over the runs of a component: what every step preserves, every
    run preserves. *)
Lemma rtc_preserves {A} (R : relation A) (I : A -> Prop) x y :
  (forall a b, R a b -> I a -> I b) -> rtc R x y -> I x -> I y.
Proof. intros HR Hxy. induction Hxy; eauto. Qed.

(** ** Lists *)

Lemma filter_id {A} (P : A -> Prop) `{!forall x, Decision (P x)} (l : list A) :
  (forall x, x ∈ l -> P x) -> filter P l = l.
Proof.
  induction l as [|x l IH]; intros Hl; [done|]. rewrite filter_cons, decide_True by (apply Hl; by left).
  by rewrite IH by (intros; apply Hl; by right).
Qed.

(** ** Maps *)

Lemma alter_as_insert {V} (f : V -> V) (m : gmap Z V) k v :
  m !! k = Some v -> alter f k m = <[k := f v]> m.
Proof.
  intros Hk. apply map_eq. intros j. destruct (decide (j = k)) as [->|Hne].
  - by rewrite lookup_alter_eq, lookup_insert_eq, Hk.
  - by rewrite lookup_alter_ne, lookup_insert_ne.
Qed.

(** ** Sums over a map *)

Definition map_sum {V} (f : V -> Z) (m : gmap Z V) : Z := map_fold (fun _ v acc => f v + acc) 0 m.

Section map_sum.
Context {V : Type} (f : V -> Z).
Implicit Types (m : gmap Z V) (k : Z) (v : V).

Lemma map_sum_empty : map_sum f ∅ = 0.
Proof. apply map_fold_empty. Qed.

Lemma map_sum_insert m k v : m !! k = None -> map_sum f (<[k := v]> m) = f v + map_sum f m.
Proof.
  intros Hk. unfold map_sum.
  rewrite (map_fold_insert_L (fun _ v acc => f v + acc) 0 k v m); [done| |done]. intros. lia.
Qed.

Lemma map_sum_delete m k v : m !! k = Some v -> map_sum f m = f v + map_sum f (delete k m).
Proof.
  intros Hk. rewrite <- (insert_delete_id m k v Hk) at 1.
  apply map_sum_insert, lookup_delete_eq.
Qed.

Lemma map_sum_update m k v v' :
  m !! k = Some v -> map_sum f (<[k := v']> m) = map_sum f m - f v + f v'.
Proof.
  intros Hk. rewrite (map_sum_delete m k v Hk).
  rewrite (map_sum_delete (<[k := v']> m) k v') by apply lookup_insert_eq.
  rewrite delete_insert_eq. lia.
Qed.

Lemma map_sum_nonneg m : map_Forall (fun _ v => 0 <= f v) m -> 0 <= map_sum f m.
Proof.
  induction m as [|k v m Hk IH] using map_ind; [by rewrite map_sum_empty|].
  intros [Hv Hm]%map_Forall_insert; [|done]. rewrite map_sum_insert by done. specialize (IH Hm). lia.
Qed.

Lemma map_sum_bound m c : (forall k v, m !! k = Some v -> f v <= c) -> map_sum f m <= c * Z.of_nat (size m).
Proof.
  induction m as [|k v m Hk IH] using map_ind; intros Hc; [rewrite map_sum_empty, map_size_empty; lia|].
  rewrite map_sum_insert, map_size_insert_None by done. pose proof (Hc k v (lookup_insert_eq m k v)).
  assert (map_sum f m <= c * Z.of_nat (size m)); [|lia]. apply IH. intros k' w Hw.
  apply (Hc k'). rewrite lookup_insert_ne; [done|congruence].
Qed.

(** Maps on the same keys, compared entry by entry. *)
Lemma map_sum_le m m' :
  (forall k, is_Some (m !! k) <-> is_Some (m' !! k)) ->
  (forall k v v', m !! k = Some v -> m' !! k = Some v' -> f v' <= f v) ->
  map_sum f m' <= map_sum f m.
Proof.
  revert m'. induction m as [|k v m Hk IH] using map_ind; intros m' Hdom Hle.
  - assert (m' = ∅) as ->; [|lia]. apply map_empty. intros k.
    destruct (m' !! k) eqn:Hk; [|done]. assert (is_Some ((∅ : gmap Z V) !! k)) as [? ?] by (apply Hdom; eauto).
    by rewrite lookup_empty in *.
  - assert (is_Some (m' !! k)) as [v' Hv'] by (apply Hdom; rewrite lookup_insert_eq; eauto).
    rewrite map_sum_insert, (map_sum_delete m' k v') by done.
    pose proof (Hle k v v' (lookup_insert_eq m k v) Hv').
    enough (map_sum f (delete k m') <= map_sum f m) by lia. apply IH.
    + intros k'. destruct (decide (k' = k)) as [->|Hne].
      * rewrite Hk, lookup_delete_eq. done.
      * rewrite lookup_delete_ne by done. rewrite <- Hdom, lookup_insert_ne by done. done.
    + intros k' w w' Hw Hw'. destruct (decide (k' = k)) as [->|Hne]; [by rewrite Hk in Hw|].
      rewrite lookup_delete_ne in Hw' by done. apply (Hle k'); [by rewrite lookup_insert_ne|done].
Qed.

Lemma map_sum_lt m m' k v v' :
  (forall k, is_Some (m !! k) <-> is_Some (m' !! k)) ->
  (forall k v v', m !! k = Some v -> m' !! k = Some v' -> f v' <= f v) ->
  m !! k = Some v -> m' !! k = Some v' -> f v' < f v -> map_sum f m' < map_sum f m.
Proof.
  intros Hdom Hle Hv Hv' Hlt. rewrite (map_sum_delete m k v), (map_sum_delete m' k v') by done.
  enough (map_sum f (delete k m') <= map_sum f (delete k m)) by lia. apply map_sum_le.
  - intros k'. destruct (decide (k' = k)) as [->|Hne]; [by rewrite !lookup_delete_eq|].
    by rewrite !lookup_delete_ne by done.
  - intros k' w w'. destruct (decide (k' = k)) as [->|Hne]; [by rewrite lookup_delete_eq|].
    rewrite !lookup_delete_ne by done. apply Hle.
Qed.

Lemma map_sum_union m1 m2 : m1 ##ₘ m2 -> map_sum f (m1 ∪ m2) = map_sum f m1 + map_sum f m2.
Proof.
  induction m1 as [|k v m Hk IH] using map_ind; intros Hd.
  - rewrite (left_id_L ∅ (∪)), map_sum_empty. lia.
  - apply map_disjoint_insert_l in Hd as [Hk2 Hd]. rewrite <- insert_union_l.
    rewrite !map_sum_insert by (done || (apply lookup_union_None; done)). rewrite IH by done. lia.
Qed.
End map_sum.

(** Two measures of one map; the second is smaller by [d] at one key at least. *)
Lemma map_sum_le_fun {V} (f g : V -> Z) (m : gmap Z V) :
  (forall k v, m !! k = Some v -> f v <= g v) -> map_sum f m <= map_sum g m.
Proof.
  induction m as [|k v m Hk IH] using map_ind; intros Hle; [by rewrite !map_sum_empty|].
  rewrite !map_sum_insert by done. pose proof (Hle k v (lookup_insert_eq m k v)).
  enough (map_sum f m <= map_sum g m) by lia. apply IH. intros k' w Hw. apply (Hle k').
  rewrite lookup_insert_ne; [done|congruence].
Qed.

Lemma map_sum_drop_fun {V} (f g : V -> Z) (m : gmap Z V) k v d :
  (forall k v, m !! k = Some v -> f v <= g v) -> m !! k = Some v -> f v + d <= g v ->
  map_sum f m + d <= map_sum g m.
Proof.
  intros Hle Hk Hd. rewrite (map_sum_delete f m k v), (map_sum_delete g m k v) by done.
  enough (map_sum f (delete k m) <= map_sum g (delete k m)) by lia.
  apply map_sum_le_fun. intros k' w [Hne Hw]%lookup_delete_Some. by apply (Hle k').
Qed.

Create HintDb hypermoe.

(** One step of symbolic execution of a method. *)
Ltac wp_step :=
  lazymatch goal with
  | |- wp (st_bind _ _) _ _ _ => apply wp_bind
  | |- wp (ret _) _ _ _ => apply wp_ret
  | |- wp (throw _) _ _ _ => apply wp_throw
  | |- wp (gets _) _ _ _ => apply wp_gets
  | |- wp (modify _) _ _ _ => apply wp_modify
  | |- wp st_get _ _ _ => apply wp_get
  | |- wp (try_catch _ _ _) _ _ _ => apply wp_try
  | |- wp (lift (throw_if _ _)) _ _ _ => apply wp_lift_throw_if; intros ?
  end; cbn beta.
Ltac wp_steps := repeat wp_step.

(** Case analysis on the innermost [match]/[if] of the goal. *)
Ltac case_goal :=
  match goal with
  | |- context [match ?x with _ => _ end] =>
      lazymatch x with context [match _ with _ => _ end] => fail | _ => destruct x eqn:? end
  end.

(** ** Minimum by a strict order

    The victim selection of every cache policy is a left-to-right scan that
    keeps the first minimal element. *)
Section scan_min.
Context {A : Type} (lt : A -> A -> bool).

Definition scan_min_step (best : option A) (x : A) : option A :=
  match best with
  | None => Some x
  | Some b => if lt x b then Some x else Some b
  end.
Definition scan_min (l : list A) : option A := foldl scan_min_step None l.

Lemma scan_min_from_Some b l : is_Some (foldl scan_min_step (Some b) l).
Proof.
  revert b. induction l as [|x l IH]; intros b; cbn; [eauto|].
  destruct (lt x b); apply IH.
Qed.

Lemma scan_min_None l : scan_min l = None <-> l = [].
Proof.
  split; [|by intros ->]. destruct l as [|x l]; [done|]. unfold scan_min. cbn.
  intros H. destruct (scan_min_from_Some x l). congruence.
Qed.

Lemma scan_min_elem_from b l m : foldl scan_min_step b l = Some m -> b = Some m \/ m ∈ l.
Proof.
  revert b. induction l as [|x l IH]; intros b; cbn; [auto|].
  intros [H|H]%IH; [|right; by right].
  destruct b as [b|]; cbn in H; [destruct (lt x b)|]; simplify_eq; set_solver.
Qed.

Lemma scan_min_elem l m : scan_min l = Some m -> m ∈ l.
Proof. by intros [?|?]%scan_min_elem_from. Qed.

(** [lt] is a strict total order on the members of the list. *)
Definition strict_total (P : A -> Prop) : Prop :=
  (forall x y z, P x -> P y -> P z -> lt x y = true -> lt y z = true -> lt x z = true) /\
  (forall x, P x -> lt x x = false) /\
  (forall x y, P x -> P y -> x = y \/ lt x y = true \/ lt y x = true).

Lemma scan_min_least_from (P : A -> Prop) b l m :
  strict_total P -> (forall x, x ∈ l -> P x) -> P b ->
  foldl scan_min_step (Some b) l = Some m ->
  P m /\ (forall x, x = b \/ x ∈ l -> x = m \/ lt m x = true).
Proof.
  intros (Htr & Hirr & Htot). revert b. induction l as [|x l IH]; intros b HP Hb; cbn.
  - intros [= <-]. split; [done|]. set_solver.
  - assert (P x) as Hx by set_solver.
    destruct (lt x b) eqn:Hlt; intros Hm; (apply IH in Hm as [HPm Hm]; [|set_solver|done]).
    + split; [done|]. intros y [->|Hy]; [|set_solver].
      destruct (Hm x) as [<-|Hmx]; [by left|right; done|right; eauto].
    + split; [done|]. intros y [->|[->|Hy]%elem_of_cons]; [by apply Hm; left| |by apply Hm; right].
      destruct (Htot x b Hx Hb) as [->|[?|Hbx]]; [by apply Hm; left|congruence|].
      destruct (Hm b) as [<-|Hmb]; [by left|right; done|right; eauto].
Qed.

Lemma scan_min_least (P : A -> Prop) l m :
  strict_total P -> (forall x, x ∈ l -> P x) -> scan_min l = Some m ->
  forall x, x ∈ l -> x = m \/ lt m x = true.
Proof.
  intros HT HP. destruct l as [|b l]; [done|]. unfold scan_min. cbn.
  intros Hm. eapply scan_min_least_from in Hm as [_ Hm]; [|done|set_solver|set_solver].
  set_solver.
Qed.

(** The order in which a container lists its elements does not matter. *)
Lemma scan_min_perm (P : A -> Prop) l l' :
  strict_total P -> (forall x, x ∈ l -> P x) -> l ≡ₚ l' -> scan_min l = scan_min l'.
Proof.
  intros HT HP Hperm.
  assert (forall x, x ∈ l' -> P x) as HP' by (intros x; rewrite <- Hperm; auto).
  destruct (scan_min l) as [m|] eqn:Hm; destruct (scan_min l') as [m'|] eqn:Hm'; [|exfalso..|done].
  - f_equal.
    assert (m ∈ l') by (rewrite <- Hperm; by apply scan_min_elem).
    assert (m' ∈ l) by (rewrite Hperm; by apply scan_min_elem).
    destruct (scan_min_least P l m HT HP Hm m') as [?|H1]; [done..|].
    destruct (scan_min_least P l' m' HT HP' Hm' m) as [?|H2]; [done..|].
    destruct HT as (Htr & Hirr & _). exfalso.
    assert (lt m m = false) as Hf by auto.
    assert (lt m m = true) as Ht by (apply (Htr m m' m); auto). congruence.
  - apply scan_min_None in Hm' as ->. apply Permutation_nil_r in Hperm as ->. done.
  - apply scan_min_None in Hm as ->. symmetry in Hperm. apply Permutation_nil_r in Hperm as ->. done.
Qed.
End scan_min.

(** A strict lexicographic order on a numeric key, ties broken by the identifier. *)
Definition key_lt (key : Z -> Z) (x y : Z) : bool :=
  (key x <? key y) || ((key x =? key y) && (x <? y)).

Lemma key_lt_strict_total key P : strict_total (key_lt key) P.
Proof.
  unfold strict_total, key_lt. split_and!; intros.
  - rewrite orb_true_iff, andb_true_iff, !Z.ltb_lt, Z.eqb_eq in *. lia.
  - rewrite orb_false_iff, andb_false_iff, !Z.ltb_ge, Z.eqb_neq. lia.
  - rewrite !orb_true_iff, !andb_true_iff, !Z.ltb_lt, !Z.eqb_eq. lia.
Qed.

(** ** Sorting by a strict order

    [std::stable_sort] keeps the order of elements neither of which goes before the
    other; [std::sort] and [std::partial_sort] are used by the source with orders that
    leave no such choice. *)
Section stable_sort.
Context {A : Type} (before : A -> A -> bool).

Fixpoint insert_sorted (x : A) (l : list A) : list A :=
  match l with
  | [] => [x]
  | y :: l => if before y x then y :: insert_sorted x l else x :: y :: l
  end.
Definition stable_sort (l : list A) : list A := foldr insert_sorted [] l.

(** What the standard asks of a comparison, on the members of the list. *)
Definition strict_weak (P : A -> Prop) : Prop :=
  (forall x y, P x -> P y -> before x y = true -> before y x = false) /\
  (forall x y z, P x -> P y -> P z -> before y x = false -> before z y = false -> before z x = false).

Definition not_after (x y : A) : Prop := before y x = false.

Lemma insert_sorted_perm x l : insert_sorted x l ≡ₚ x :: l.
Proof.
  induction l as [|y l IH]; cbn; [done|]. destruct (before y x); [|done].
  rewrite IH. apply perm_swap.
Qed.

Lemma stable_sort_perm l : stable_sort l ≡ₚ l.
Proof. induction l as [|x l IH]; cbn; [done|]. by rewrite insert_sorted_perm, IH. Qed.

Lemma stable_sort_length l : length (stable_sort l) = length l.
Proof. by rewrite stable_sort_perm. Qed.

Lemma insert_sorted_sorted P x l :
  strict_weak P -> P x -> Forall P l -> StronglySorted not_after l -> StronglySorted not_after (insert_sorted x l).
Proof.
  intros [Has Htr] Hx HP Hl. induction Hl as [|y l Hl IH Hy]; cbn; [by repeat constructor|].
  apply Forall_cons in HP as [HPy HP]. destruct (before y x) eqn:Hb.
  - constructor; [by apply IH|]. rewrite insert_sorted_perm. constructor; [|done]. by apply Has.
  - constructor; [by constructor|]. constructor; [done|].
    rewrite Forall_forall in Hy, HP |- *. intros z Hz. apply (Htr x y z); auto. by apply Hy.
Qed.

Lemma stable_sort_sorted P l :
  strict_weak P -> Forall P l -> StronglySorted not_after (stable_sort l).
Proof.
  intros HW. induction l as [|x l IH]; intros HP; cbn; [constructor|].
  apply Forall_cons in HP as [Hx HP]. apply (insert_sorted_sorted P); [done..| |by apply IH].
  by rewrite stable_sort_perm.
Qed.

Lemma strict_total_weak P : strict_total before P -> strict_weak P.
Proof.
  intros (Htr & Hirr & Htot). split.
  - intros x y Hx Hy Hb. destruct (before y x) eqn:Hb'; [|done].
    rewrite <- (Hirr x Hx). symmetry. eauto.
  - intros x y z Hx Hy Hz Hyx Hzy. destruct (before z x) eqn:Hb; [|done].
    destruct (Htot x y Hx Hy) as [->|[Hxy|?]]; [congruence| |congruence].
    assert (before z y = true) by eauto. congruence.
Qed.

(** In a sorted list, what stands first is not after what stands later. *)
Lemma sorted_lookup l i j x y :
  StronglySorted not_after l -> (i < j)%nat -> l !! i = Some x -> l !! j = Some y -> before y x = false.
Proof.
  intros Hl. revert i j. induction Hl as [|z l Hl IH Hz]; intros i j Hij Hi Hj; [done|].
  destruct i as [|i], j as [|j]; cbn in *; try lia.
  - simplify_eq. rewrite Forall_forall in Hz. apply Hz. by eapply list_elem_of_lookup_2.
  - apply (IH i j); [lia|done..].
Qed.

(** The selected prefix against the rest. *)
Lemma sorted_prefix l k x y :
  StronglySorted not_after l -> x ∈ take k l -> y ∈ drop k l -> before y x = false.
Proof.
  intros Hl [i Hi]%list_elem_of_lookup_1 [j Hj]%list_elem_of_lookup_1.
  apply lookup_take_Some in Hi as [Hi Hik]. rewrite lookup_drop in Hj.
  by apply (sorted_lookup l i (k + j)); [|lia|..].
Qed.

(** Sorting by distinct keys gives one order, whatever the order of the list was. *)
Lemma stable_sort_canonical P l l' :
  strict_weak P -> Forall P l -> (forall x y, x ∈ l -> y ∈ l -> before x y = false -> before y x = false -> x = y) ->
  l ≡ₚ l' -> stable_sort l = stable_sort l'.
Proof.
  intros HW HP Htot Hp. apply (StronglySorted_unique_strong not_after).
  - intros x y. rewrite !stable_sort_perm, <- Hp. intros Hx Hy H1 H2. by apply Htot.
  - by apply (stable_sort_sorted P).
  - apply (stable_sort_sorted P); [done|]. by rewrite <- Hp.
  - by rewrite !stable_sort_perm.
Qed.
End stable_sort.

Lemma stable_sort_fmap {A B} (f : A -> B) (before : A -> A -> bool) (before' : B -> B -> bool) l :
  (forall x y, before' (f x) (f y) = before x y) -> stable_sort before' (f <$> l) = f <$> stable_sort before l.
Proof.
  intros Hf. induction l as [|x l IH]; [done|]. rewrite fmap_cons. cbn [stable_sort foldr].
  fold (stable_sort before' (f <$> l)). fold (stable_sort before l). rewrite IH. generalize (stable_sort before l). clear IH.
  induction l0 as [|y l0 IH]; [done|]. cbn. rewrite Hf. destruct (before y x); [cbn; by rewrite IH|done].
Qed.

(** The scan keeps the first of the best, where several are best. *)
Lemma scan_min_first {A} (lt : A -> A -> bool) (P : A -> Prop) l m :
  strict_weak lt P -> Forall P l -> scan_min lt l = Some m ->
  exists l1 l2, l = l1 ++ m :: l2 /\
    Forall (fun x => lt m x = true) l1 /\ Forall (fun x => lt x m = false) l2.
Proof.
  intros [Has Htr]. revert m. induction l as [|x l IH] using rev_ind; intros m HP Hm; [done|].
  apply Forall_app in HP as [HP Hx]. apply Forall_cons in Hx as [Hx _].
  unfold scan_min in Hm. rewrite foldl_app in Hm. cbn in Hm. fold (scan_min lt l) in Hm.
  destruct (scan_min lt l) as [b|] eqn:Hb; cbn in Hm.
  - destruct (IH b HP eq_refl) as (l1 & l2 & -> & H1 & H2).
    apply Forall_app in HP as [HP1 [HPb HP2]%Forall_cons].
    destruct (lt x b) eqn:Hlt; injection Hm as <-.
    + exists (l1 ++ b :: l2), []. split; [done|]. split; [|done].
      assert (forall y, P y -> lt y b = false -> lt x y = true) as Hbeat.
      { intros y Hy Hyb. apply not_false_iff_true. intros Hxy.
        rewrite (Htr b y x HPb Hy Hx Hyb Hxy) in Hlt. done. }
      rewrite Forall_app, Forall_cons. rewrite !Forall_forall in *. split_and!; [|done|].
      * intros y Hy. apply Hbeat; [by apply HP1|]. apply Has; [done|by apply HP1|by apply H1].
      * intros y Hy. apply Hbeat; [by apply HP2|by apply H2].
    + exists l1, (l2 ++ [x]). rewrite <- app_assoc. split; [done|]. split; [done|].
      apply Forall_app. split; [done|]. by constructor.
  - apply scan_min_None in Hb as ->. injection Hm as <-. by exists [], [].
Qed.
