(* ===== verification/Float.v ===== *)
(** * IEEE-754 arithmetic of the scores

    [double] and [float] are the binary64 and binary32 formats of the Standard
    Library's [SpecFloat], whose operations are correctly rounded (to nearest,
    ties to even) and executable.  The model follows the source's expressions
    operation by operation, in the order C++ evaluates them, without
    contraction of a product and a sum into one operation.  [NaN] payloads are
    not represented. *)

From S2P Require Import Prelude.
From Stdlib Require Import SpecFloat.

Abbreviation f64 := spec_float (only parsing).
Abbreviation f32 := spec_float (only parsing).

(** ** Operations of [double] *)

Definition f64_add : f64 -> f64 -> f64 := SFadd 53 1024.
Definition f64_sub : f64 -> f64 -> f64 := SFsub 53 1024.
Definition f64_mul : f64 -> f64 -> f64 := SFmul 53 1024.
Definition f64_div : f64 -> f64 -> f64 := SFdiv 53 1024.
(** [static_cast<double>] of an integer. *)
Definition f64_of_Z (n : Z) : f64 := binary_normalize 53 1024 n 0 false.
(** The decimal literal [p/q], [p] and [q] below [2^53]: the correctly rounded
    quotient of two exact integers is the nearest [double]. *)
Definition f64_lit (p q : Z) : f64 := f64_div (f64_of_Z p) (f64_of_Z q).
Definition f64_zero : f64 := S754_zero false.
Definition f64_one : f64 := Eval vm_compute in f64_of_Z 1.
Definition f64_inf : f64 := S754_infinity false.

(** ** Operations of [float] *)

Definition f32_add : f32 -> f32 -> f32 := SFadd 24 128.
Definition f32_sub : f32 -> f32 -> f32 := SFsub 24 128.
Definition f32_mul : f32 -> f32 -> f32 := SFmul 24 128.
Definition f32_div : f32 -> f32 -> f32 := SFdiv 24 128.
Definition f32_of_Z (n : Z) : f32 := binary_normalize 24 128 n 0 false.
Definition f32_zero : f32 := S754_zero false.

(** Conversions between the two formats. *)
Definition f64_of_f32 (x : f32) : f64 :=
  match x with S754_finite s m e => binary_round 53 1024 s m e | _ => x end.
Definition f32_of_f64 (x : f64) : f32 :=
  match x with S754_finite s m e => binary_round 24 128 s m e | _ => x end.

(** ** Comparisons and classification, shared by both formats *)

Definition flt : spec_float -> spec_float -> bool := SFltb.
Definition fle : spec_float -> spec_float -> bool := SFleb.
Definition feq : spec_float -> spec_float -> bool := SFeqb.
Definition fgt (x y : spec_float) : bool := flt y x.
Definition fge (x y : spec_float) : bool := fle y x.
(** [!=] is true when an operand is a NaN. *)
Definition fne (x y : spec_float) : bool := negb (feq x y).

Definition is_nan (x : spec_float) : bool :=
  match x with S754_nan => true | _ => false end.
(** [std::isfinite] *)
Definition isfinite (x : spec_float) : bool :=
  match x with S754_zero _ | S754_finite _ _ _ => true | _ => false end.

(** [std::clamp], [std::max] and [std::min] as the standard defines them. *)
Definition fclamp (v lo hi : spec_float) : spec_float :=
  if flt v lo then lo else if flt hi v then hi else v.
Definition fmax (a b : spec_float) : spec_float := if flt a b then b else a.
Definition fmin (a b : spec_float) : spec_float := if flt b a then b else a.

#[global] Instance spec_float_eq_dec : EqDecision spec_float.
Proof. solve_decision. Defined.

(** ** The order of the non-NaN values *)

(** The numbers are ordered by class, then exponent, then mantissa. *)
Definition fkey (x : spec_float) : Z * Z * Z :=
  match x with
  | S754_infinity true => (-2, 0, 0)
  | S754_finite true m e => (-1, - e, Z.neg m)
  | S754_zero _ => (0, 0, 0)
  | S754_finite false m e => (1, e, Z.pos m)
  | S754_infinity false => (2, 0, 0)
  | S754_nan => (3, 0, 0)
  end.

Definition lex3 (x y : Z * Z * Z) : Prop :=
  let '(a, b, c) := x in let '(a', b', c') := y in
  a < a' \/ (a = a' /\ (b < b' \/ (b = b' /\ c < c'))).

Lemma SFcompare_fkey x y :
  is_nan x = false -> is_nan y = false ->
  (SFcompare x y = Some Lt /\ lex3 (fkey x) (fkey y)) \/
  (SFcompare x y = Some Eq /\ fkey x = fkey y) \/
  (SFcompare x y = Some Gt /\ lex3 (fkey y) (fkey x)).
Proof.
  destruct x as [[]|[]| |[] m e], y as [[]|[]| |[] m' e']; try done; intros _ _; cbn;
    try (left; split; [done|lia]); try (right; left; done); try (right; right; split; [done|lia]).
  all: change (Pos.compare_cont Eq m m') with (Pos.compare m m').
  all: destruct (Z.compare_spec e e'); destruct (Pos.compare_spec m m'); cbn; subst.
  all: try (left; split; [done|lia]); try (right; left; done); try (right; right; split; [done|lia]).
Qed.

Lemma flt_fkey x y :
  is_nan x = false -> is_nan y = false -> flt x y = true <-> lex3 (fkey x) (fkey y).
Proof.
  intros Hx Hy. unfold flt, SFltb.
  destruct (SFcompare_fkey x y Hx Hy) as [[-> ?]|[[-> Heq]|[-> Hgt]]]; split; try done.
  - rewrite Heq. unfold lex3. destruct (fkey y) as [[a b] c]. lia.
  - revert Hgt. unfold lex3. destruct (fkey x) as [[a b] c], (fkey y) as [[a' b'] c']. lia.
Qed.

Lemma feq_fkey x y :
  is_nan x = false -> is_nan y = false -> feq x y = true <-> fkey x = fkey y.
Proof.
  intros Hx Hy. unfold feq, SFeqb.
  destruct (SFcompare_fkey x y Hx Hy) as [[-> H]|[[-> Heq]|[-> H]]]; split; try done.
  all: intros Heq; rewrite Heq in H; unfold lex3 in H; destruct (fkey y) as [[a b] c]; lia.
Qed.

Lemma fle_flt_or_feq x y : fle x y = flt x y || feq x y.
Proof. unfold fle, flt, feq, SFleb, SFltb, SFeqb. by destruct (SFcompare x y) as [[]|]. Qed.

Lemma fle_fkey x y : is_nan x = false -> is_nan y = false ->
  fle x y = true <-> lex3 (fkey x) (fkey y) \/ fkey x = fkey y.
Proof. intros. by rewrite fle_flt_or_feq, orb_true_iff, flt_fkey, feq_fkey. Qed.

(** Comparing a score, ties broken by the identifier, is a strict total order
    on the identifiers whose score is a number. *)
Definition score_lt (score : Z -> spec_float) (x y : Z) : bool :=
  flt (score x) (score y) || (feq (score x) (score y) && (x <? y)).

Lemma score_lt_strict_total score :
  strict_total (score_lt score) (fun x => is_nan (score x) = false).
Proof.
  assert (forall x y, is_nan (score x) = false -> is_nan (score y) = false ->
    score_lt score x y = true <->
    lex3 (fkey (score x)) (fkey (score y)) \/ (fkey (score x) = fkey (score y) /\ x < y)) as Hs.
  { intros x y Hx Hy. unfold score_lt.
    by rewrite orb_true_iff, andb_true_iff, flt_fkey, feq_fkey, Z.ltb_lt by done. }
  unfold strict_total. split_and!.
  - intros x y z Hx Hy Hz. rewrite !Hs by done. unfold lex3.
    destruct (fkey (score x)) as [[a b] c], (fkey (score y)) as [[a' b'] c'],
      (fkey (score z)) as [[a'' b''] c''].
    intros [?|[[= -> -> ->] ?]] [?|[[= <- <- <-] ?]]; try lia. right. split; [done|lia].
  - intros x Hx. apply not_true_iff_false. rewrite Hs by done. unfold lex3.
    destruct (fkey (score x)) as [[a b] c]. lia.
  - intros x y Hx Hy. rewrite !Hs by done. unfold lex3.
    destruct (fkey (score x)) as [[a b] c], (fkey (score y)) as [[a' b'] c'].
    destruct (decide (a = a')), (decide (b = b')), (decide (c = c')); subst; try lia.
    destruct (Z.lt_total x y) as [?|[?|?]]; auto.
Qed.

(** Clamping a number between two ordered bounds. *)
Lemma fclamp_bounds v lo hi :
  is_nan v = false -> is_nan lo = false -> is_nan hi = false -> fle lo hi = true ->
  fle lo (fclamp v lo hi) = true /\ fle (fclamp v lo hi) hi = true.
Proof.
  intros Hv Hlo Hhi. unfold fclamp.
  destruct (flt v lo) eqn:H1; [rewrite !fle_fkey by done; auto|].
  destruct (flt hi v) eqn:H2; [rewrite !fle_fkey by done; auto|].
  apply not_true_iff_false in H1, H2. rewrite flt_fkey in H1, H2 by done.
  rewrite !fle_fkey by done. unfold lex3 in *.
  destruct (fkey v) as [[a b] c], (fkey lo) as [[a' b'] c'], (fkey hi) as [[a'' b''] c''].
  intros _. split.
  - destruct (decide (a = a')), (decide (b = b')), (decide (c = c')); subst; auto; left; lia.
  - destruct (decide (a = a'')), (decide (b = b'')), (decide (c = c'')); subst; auto; left; lia.
Qed.

(** ** Where a NaN can come from

    A correctly rounded result is a number with the sign of the exact one, so only
    [inf - inf], [0 * inf], [0 / 0] and [inf / inf] make a NaN. *)

Definition signed (s : bool) (x : spec_float) : Prop :=
  match x with
  | S754_zero s' | S754_infinity s' | S754_finite s' _ _ => s' = s
  | S754_nan => False
  end.

Lemma signed_not_nan s x : signed s x -> is_nan x = false.
Proof. by destruct x. Qed.

Lemma isfinite_not_nan x : isfinite x = true -> is_nan x = false.
Proof. by destruct x. Qed.

Lemma shr_1_nonneg r : 0 <= shr_m r -> 0 <= shr_m (shr_1 r).
Proof. destruct r as [[|[]|[]] ? ?]; cbn; lia. Qed.

Lemma iter_pos_shr_nonneg n r : 0 <= shr_m r -> 0 <= shr_m (iter_pos shr_1 n r).
Proof.
  revert r. induction n as [n IH|n IH|]; intros r Hr; cbn; [|auto|by apply shr_1_nonneg].
  apply IH, IH. by apply shr_1_nonneg.
Qed.

Lemma shr_fexp_nonneg prec emax m e l : 0 <= m -> 0 <= shr_m (fst (shr_fexp prec emax m e l)).
Proof.
  intros Hm. unfold shr_fexp, shr.
  assert (0 <= shr_m (shr_record_of_loc m l)) by (destruct l as [|[]]; done).
  destruct (fexp _ _ _ - e); cbn; [done| |done]. by apply iter_pos_shr_nonneg.
Qed.

Lemma round_nearest_even_nonneg m l : 0 <= m -> 0 <= round_nearest_even m l.
Proof. destruct l as [|[]]; cbn; [lia| |lia|lia]. destruct (Z.even m); lia. Qed.

Lemma binary_round_aux_signed prec emax s m e l :
  0 <= m -> signed s (binary_round_aux prec emax s m e l).
Proof.
  intros Hm. unfold binary_round_aux.
  pose proof (shr_fexp_nonneg prec emax m e l Hm) as H1. destruct (shr_fexp prec emax m e l) as [r1 e1].
  pose proof (round_nearest_even_nonneg _ (loc_of_shr_record r1) H1) as H2.
  pose proof (shr_fexp_nonneg prec emax _ e1 loc_Exact H2) as H3. cbn [fst] in *.
  destruct (shr_fexp _ _ _ e1 _) as [r2 e2]. cbn [fst] in H3.
  destruct (shr_m r2); [done| |lia]. by destruct (_ <=? _).
Qed.

Lemma binary_round_signed prec emax s m e : signed s (binary_round prec emax s m e).
Proof. unfold binary_round. destruct (shl_align _ _ _). by apply binary_round_aux_signed. Qed.

Lemma binary_normalize_number prec emax m e z : is_nan (binary_normalize prec emax m e z) = false.
Proof. destruct m; cbn; [done|..]; eapply signed_not_nan, binary_round_signed. Qed.

Lemma binary_normalize_nonneg prec emax m e : 0 <= m -> signed false (binary_normalize prec emax m e false).
Proof. destruct m; cbn; [done| |lia]. intros _. apply binary_round_signed. Qed.

(** A finite sum has finite operands. *)
Lemma f64_add_finite x y : isfinite (f64_add x y) = true -> isfinite x = true /\ isfinite y = true.
Proof. destruct x as [[]|[]| |], y as [[]|[]| |]; by cbn. Qed.

Lemma f64_add_zero x : signed false x -> f64_add x f64_zero = x.
Proof. by destruct x as [[]|[]| |[]]. Qed.

Lemma f64_add_nonneg x y : signed false x -> signed false y -> signed false (f64_add x y).
Proof.
  destruct x as [[]|[]| |[] m e], y as [[]|[]| |[] m' e']; cbn; try done.
  intros _ _. apply binary_normalize_nonneg. cbn. lia.
Qed.

Lemma SFdiv_core_nonneg prec emax m1 e1 m2 e2 q e l :
  0 < m1 -> 0 < m2 -> SFdiv_core_binary prec emax m1 e1 m2 e2 = (q, e, l) -> 0 <= q.
Proof.
  intros H1 H2. unfold SFdiv_core_binary.
  set (s := e1 - e2 - _). set (m := match s with 0 => m1 | Z.pos _ => Z.shiftl m1 s | Z.neg _ => 0 end).
  assert (0 <= m) as Hm by (unfold m; destruct s; [lia| |lia]; apply Z.shiftl_nonneg; lia).
  clearbody m. unfold Z.div_eucl. pose proof (Z_div_mod m m2 ltac:(lia)) as H.
  unfold Z.div_eucl in H. destruct (match m with 0 => _ | _ => _ end) as [q' r].
  intros [= <- _ _]. nia.
Qed.

Lemma f64_div_number x y :
  isfinite x = true -> isfinite y = true -> feq y f64_zero = false -> is_nan (f64_div x y) = false.
Proof.
  destruct x as [sx|sx| |sx mx ex], y as [sy|sy| |sy my ey]; try done. intros _ _ _. cbn.
  destruct (SFdiv_core_binary _ _ _ _ _ _) as [[q e] l] eqn:Hd.
  eapply signed_not_nan, binary_round_aux_signed. by eapply SFdiv_core_nonneg; [| |exact Hd].
Qed.

Lemma f32_of_f64_number x : is_nan x = false -> is_nan (f32_of_f64 x) = false.
Proof. destruct x; try done. intros _. eapply signed_not_nan, binary_round_signed. Qed.

(** The conversion to [double] is exact on the classes. *)
Lemma f64_of_f32_nan x : is_nan (f64_of_f32 x) = true -> is_nan x = true.
Proof.
  destruct x; try done. cbn. intros H. exfalso. revert H. rewrite (signed_not_nan s); [done|]. apply binary_round_signed.
Qed.

(** Ranking by a score, larger first, is a strict weak order where no score is a NaN. *)
Lemma fgt_strict_weak {A} (score : A -> spec_float) :
  strict_weak (fun x y => fgt (score x) (score y)) (fun x => is_nan (score x) = false).
Proof.
  unfold fgt. split.
  - intros x y Hx Hy. rewrite flt_fkey by done. intros H. apply not_true_iff_false. rewrite flt_fkey by done.
    revert H. unfold lex3. destruct (fkey (score x)) as [[a b] c], (fkey (score y)) as [[a' b'] c']. lia.
  - intros x y z Hx Hy Hz. rewrite <- !not_true_iff_false, !flt_fkey by done. unfold lex3.
    destruct (fkey (score x)) as [[a b] c], (fkey (score y)) as [[a' b'] c'], (fkey (score z)) as [[a'' b''] c''].
    lia.
Qed.

(** Quotients of numbers that are not negative. *)
Lemma f64_div_nonneg x y :
  signed false x -> signed false y -> is_nan (f64_div x y) = true \/ signed false (f64_div x y).
Proof.
  destruct x as [[]|[]| |[] mx ex], y as [[]|[]| |[] my ey]; try done; cbn; auto.
  intros _ _. right. destruct (SFdiv_core_binary _ _ _ _ _ _) as [[q e] l] eqn:Hd.
  apply binary_round_aux_signed. by eapply SFdiv_core_nonneg; [| |exact Hd].
Qed.

Lemma f64_div_zero y : fgt (f64_div f64_zero y) f64_zero = false.
Proof. by destruct y as [[]|[]| |[]]. Qed.

Lemma signed_positive x : signed false x -> fgt x f64_zero = false -> x = f64_zero.
Proof. by destruct x as [[]|[]| |[]]. Qed.

(** A quotient of integers that are not negative. *)
Lemma f64_of_Z_signed n : 0 <= n -> signed false (f64_of_Z n).
Proof. intros. by apply binary_normalize_nonneg. Qed.

(** [std::bit_cast<float>] of a 32-bit word. *)
Definition f32_of_bits (word : Z) : f32 :=
  let s := Z.odd (Z.shiftr word 31) in
  let exponent := Z.land (Z.shiftr word 23) 255 in
  let fraction := Z.land word 8388607 in
  if exponent =? 255 then (if fraction =? 0 then S754_infinity s else S754_nan)
  else if exponent =? 0
       then match fraction with Z.pos m => S754_finite s m (-149) | _ => S754_zero s end
       else match fraction + 8388608 with Z.pos m => S754_finite s m (exponent - 150) | _ => S754_nan end.
