(* ===== verification/Tiers.v ===== *)
(** * The data model shared by the runtime

    Memory tiers, quantisation formats, element types and the [Expert] record of
    [include/hypermoe/memory/memory_tier.hpp],
    [include/hypermoe/experts/expert.hpp] and [src/tensor/DType.hpp].  The wire
    codes of the enumerations are those the headers fix. *)

From S2P Require Import Prelude.

(** ** Memory tiers *)

Inductive MemoryTier : Type := Vram | Ram | PinnedRam | Nvme.

#[global] Instance MemoryTier_eq_dec : EqDecision MemoryTier.
Proof. solve_decision. Defined.

Definition tier_eqb (a b : MemoryTier) : bool := bool_decide (a = b).
#[global] Arguments tier_eqb : simpl never.

Lemma tier_eqb_true a b : tier_eqb a b = true <-> a = b.
Proof. apply bool_decide_eq_true. Qed.
Lemma tier_eqb_false a b : tier_eqb a b = false <-> a <> b.
Proof. apply bool_decide_eq_false. Qed.

(** Evaluate the comparisons of two known tiers. *)
Ltac tiers :=
  repeat match goal with
  | |- context [tier_eqb ?a ?b] =>
      let v := eval vm_compute in (tier_eqb a b) in
      lazymatch v with true => idtac | false => idtac end; change (tier_eqb a b) with v
  | H : context [tier_eqb ?a ?b] |- _ =>
      let v := eval vm_compute in (tier_eqb a b) in
      lazymatch v with true => idtac | false => idtac end; change (tier_eqb a b) with v in H
  end; cbn [andb orb negb eqb] in *.

Definition tier_toString (tier : MemoryTier) : string :=
  match tier with
  | Vram => "VRAM" | Ram => "RAM" | PinnedRam => "PINNED_RAM" | Nvme => "NVME"
  end.

(** ** Quantisation formats of expert payloads *)

Inductive QuantizationType : Type := Fp32 | Fp16 | Bf16 | Q4 | Q5 | Q6 | Int8 | Fp8.

#[global] Instance QuantizationType_eq_dec : EqDecision QuantizationType.
Proof. solve_decision. Defined.

Definition quantization_code (q : QuantizationType) : Z :=
  match q with
  | Fp32 => 0 | Fp16 => 1 | Bf16 => 2 | Q4 => 3 | Q5 => 4 | Q6 => 5 | Int8 => 6 | Fp8 => 7
  end.

(** [isValid(static_cast<QuantizationType>(code))]: the switch has a case for the
    codes 0 to 7 and no default. *)
Definition quantization_isValid (code : Z) : bool :=
  match code with
  | 0 | 1 | 2 | 3 | 4 | 5 | 6 | 7 => true
  | _ => false
  end.

Definition quantization_toString (q : QuantizationType) : string :=
  match q with
  | Fp32 => "FP32" | Fp16 => "FP16" | Bf16 => "BF16" | Q4 => "Q4"
  | Q5 => "Q5" | Q6 => "Q6" | Int8 => "INT8" | Fp8 => "FP8"
  end.

Lemma quantization_isValid_code code :
  quantization_isValid code = true <-> exists q, quantization_code q = code.
Proof.
  split.
  - destruct code as [|[[[p|p|]|[p|p|]|]|[[p|p|]|[p|p|]|]|]|p]; try done; intros _;
      first [by exists Fp32|by exists Fp16|by exists Bf16|by exists Q4
            |by exists Q5|by exists Q6|by exists Int8|by exists Fp8].
  - by intros [[] <-].
Qed.

(** ** Element types of tensors *)

Inductive DType : Type := FP32 | FP16 | BF16 | INT8.

#[global] Instance DType_eq_dec : EqDecision DType.
Proof. solve_decision. Defined.

Definition dtype_of_code (code : Z) : option DType :=
  match code with
  | 0 => Some FP32 | 1 => Some FP16 | 2 => Some BF16 | 3 => Some INT8 | _ => None
  end.

(** [tensor::isValid] and [tensor::sizeOf] on the code a file carries; [sizeOf]
    falls off its switch and returns 0 for an unknown code. *)
Definition dtype_isValid (code : Z) : bool :=
  match dtype_of_code code with Some _ => true | None => false end.
Definition dtype_sizeOf (d : DType) : Z :=
  match d with FP32 => 4 | FP16 => 2 | BF16 => 2 | INT8 => 1 end.
Definition dtype_sizeOf_code (code : Z) : Z :=
  match dtype_of_code code with Some d => dtype_sizeOf d | None => 0 end.
Lemma dtype_sizeOf_code_bounds code : dtype_isValid code = true -> 1 <= dtype_sizeOf_code code <= 4.
Proof.
  unfold dtype_isValid, dtype_sizeOf_code. destruct (dtype_of_code code) as [[]|]; cbn; [lia..|done].
Qed.
Definition dtype_toString (d : DType) : string :=
  match d with FP32 => "FP32" | FP16 => "FP16" | BF16 => "BF16" | INT8 => "INT8" end.

(** ** Experts *)

Record Expert : Type := mkExpert {
  ex_id : Z;
  ex_layer : Z;
  ex_sizeBytes : Z;
  ex_quantization : QuantizationType;
  ex_location : MemoryTier;
}.

Definition set_location (t : MemoryTier) (e : Expert) : Expert :=
  mkExpert (ex_id e) (ex_layer e) (ex_sizeBytes e) (ex_quantization e) t.

(** Identifiers and sizes that fit their C++ types. *)
Definition expert_wf (e : Expert) : Prop :=
  is_u32 (ex_id e) /\ is_u32 (ex_layer e) /\ is_u64 (ex_sizeBytes e).
