(* ===== verification/MemoryManager.v ===== *)
(** * The tier accounting of [MemoryManager]

    [include/hypermoe/memory/memory_manager.hpp] and
    [src/memory/vram_manager/memory_manager.cpp].  An allocation is a logical
    reservation: a token with a size, counted against the limit of its pool.
    There are two pools; [Ram] and [PinnedRam] share the second. *)

From S2P Require Import Prelude Tiers.

Record MemoryAllocation : Type := mkAllocation {
  al_id : Z;
  al_tier : MemoryTier;
  al_sizeBytes : Z;
  al_tag : string;
}.

Record TierUsage : Type := mkUsage { usedBytes : Z; limitBytes : Z }.

(** [limitBytes - usedBytes] on [std::size_t]. *)
Definition availableBytes (u : TierUsage) : Z := wrap64 (limitBytes u - usedBytes u).

Record MemoryManager : Type := mkMemory {
  vram_ : TierUsage;
  ram_ : TierUsage;
  nextId_ : Z;
  allocations_ : gmap Z MemoryAllocation;
}.

(** The constructor. *)
Definition newMemory (vramLimitBytes ramLimitBytes : Z) : MemoryManager :=
  mkMemory (mkUsage 0 vramLimitBytes) (mkUsage 0 ramLimitBytes) 1 ∅.

Definition usageFor (m : MemoryManager) (tier : MemoryTier) : TierUsage :=
  if tier_eqb tier Vram then vram_ m else ram_ m.

Definition set_usageFor (tier : MemoryTier) (u : TierUsage) (m : MemoryManager) : MemoryManager :=
  if tier_eqb tier Vram
  then mkMemory u (ram_ m) (nextId_ m) (allocations_ m)
  else mkMemory (vram_ m) u (nextId_ m) (allocations_ m).

(** [usedBytes += delta] on the pool of [tier]. *)
Definition add_used (tier : MemoryTier) (delta : Z) (m : MemoryManager) : MemoryManager :=
  set_usageFor tier
    (mkUsage (wrap64 (usedBytes (usageFor m tier) + delta)) (limitBytes (usageFor m tier))) m.

(** [unordered_map::emplace] leaves an existing entry unchanged. *)
Definition emplace {V} (k : Z) (v : V) (m : gmap Z V) : gmap Z V :=
  match m !! k with Some _ => m | None => <[k := v]> m end.

Definition set_allocations (f : gmap Z MemoryAllocation -> gmap Z MemoryAllocation)
    (m : MemoryManager) : MemoryManager :=
  mkMemory (vram_ m) (ram_ m) (nextId_ m) (f (allocations_ m)).

Definition allocate (tier : MemoryTier) (sizeBytes : Z) (tag : string)
    : ST MemoryManager (option MemoryAllocation) :=
  (lift (throw_if (tier_eqb tier Nvme)
     (Exn InvalidArgument "NVMe objects are owned by DiskStore, not MemoryManager")) ;;;
   lift (throw_if (sizeBytes =? 0)
     (Exn InvalidArgument "cannot allocate a zero-sized buffer")) ;;;
   m <- st_get ;;
   if availableBytes (usageFor m tier) <? sizeBytes then ret None
   else
     let allocation := mkAllocation (nextId_ m) tier sizeBytes tag in
     modify (fun m => mkMemory (vram_ m) (ram_ m) (wrap64 (nextId_ m + 1)) (allocations_ m)) ;;;
     modify (set_allocations (emplace (al_id allocation) allocation)) ;;;
     modify (add_used tier sizeBytes) ;;;
     ret (Some allocation))%st.

Definition release (id : Z) : ST MemoryManager bool :=
  (m <- st_get ;;
   match allocations_ m !! id with
   | None => ret false
   | Some a =>
       modify (add_used (al_tier a) (- al_sizeBytes a)) ;;;
       modify (set_allocations (delete id)) ;;;
       ret true
   end)%st.

Definition snapshot (m : MemoryManager) : TierUsage * TierUsage := (vram_ m, ram_ m).

Definition usage (m : MemoryManager) (tier : MemoryTier) : result TierUsage :=
  if tier_eqb tier Nvme
  then Throw (Exn InvalidArgument "NVMe capacity is managed by DiskStore")
  else Ok (usageFor m tier).

Definition contains (m : MemoryManager) (id : Z) : bool :=
  bool_decide (is_Some (allocations_ m !! id)).

(** ** The invariant *)

(** The pool an allocation of a tier is charged to. *)
Definition in_pool (vram : bool) (t : MemoryTier) : bool := eqb (tier_eqb t Vram) vram.

(** Bytes reserved in one pool. *)
Definition charged (vram : bool) (a : MemoryAllocation) : Z :=
  if in_pool vram (al_tier a) then al_sizeBytes a else 0.
Definition reserved (vram : bool) (allocs : gmap Z MemoryAllocation) : Z :=
  map_sum (charged vram) allocs.

Record mem_inv (m : MemoryManager) : Prop := MemInv {
  mi_vram : usedBytes (vram_ m) = reserved true (allocations_ m);
  mi_ram : usedBytes (ram_ m) = reserved false (allocations_ m);
  mi_vram_limit : usedBytes (vram_ m) <= limitBytes (vram_ m) <= u64_max;
  mi_ram_limit : usedBytes (ram_ m) <= limitBytes (ram_ m) <= u64_max;
  mi_next : 1 <= nextId_ m;
  mi_ids : map_Forall (fun k a => al_id a = k /\ 1 <= k < nextId_ m /\
                                  0 < al_sizeBytes a /\ al_tier a <> Nvme) (allocations_ m);
}.

(** The next identifier does not wrap. *)
Definition id_room (m : MemoryManager) (n : Z) : Prop := nextId_ m + n <= u64_max.

Lemma reserved_insert v allocs k a :
  allocs !! k = None -> reserved v (<[k := a]> allocs) = charged v a + reserved v allocs.
Proof. apply map_sum_insert. Qed.

Lemma reserved_delete v allocs k a :
  allocs !! k = Some a -> reserved v allocs = charged v a + reserved v (delete k allocs).
Proof. apply map_sum_delete. Qed.

Lemma reserved_nonneg v allocs :
  map_Forall (fun _ a => 0 < al_sizeBytes a) allocs -> 0 <= reserved v allocs.
Proof.
  intros Hs. apply map_sum_nonneg. intros k a Hk. specialize (Hs k a Hk). cbn in Hs.
  unfold charged. destruct (in_pool v (al_tier a)); lia.
Qed.

Lemma mi_sizes m : mem_inv m -> map_Forall (fun _ a => 0 < al_sizeBytes a) (allocations_ m).
Proof. intros Hm k a Hk. by destruct (mi_ids m Hm k a Hk) as (_&_&?&_). Qed.

(** Both pools at once: [usageFor] reads the pool [allocate] charges. *)
Lemma usageFor_inv m t :
  mem_inv m ->
  usedBytes (usageFor m t) = reserved (tier_eqb t Vram) (allocations_ m) /\
  0 <= usedBytes (usageFor m t) <= limitBytes (usageFor m t) /\
  limitBytes (usageFor m t) <= u64_max.
Proof.
  intros Hm. pose proof (mi_sizes m Hm) as Hs. destruct Hm. unfold usageFor.
  pose proof (reserved_nonneg true _ Hs). pose proof (reserved_nonneg false _ Hs).
  destruct (tier_eqb t Vram); lia.
Qed.

Lemma availableBytes_inv m t :
  mem_inv m ->
  availableBytes (usageFor m t) = limitBytes (usageFor m t) - usedBytes (usageFor m t).
Proof.
  intros Hm. apply (usageFor_inv m t) in Hm as (_&?&?).
  unfold availableBytes. apply wrap64_small. unfold is_u64, u64_max in *. lia.
Qed.

Lemma release_covered m k a :
  mem_inv m -> allocations_ m !! k = Some a ->
  0 < al_sizeBytes a <= usedBytes (usageFor m (al_tier a)).
Proof.
  intros Hm Hk. pose proof (mi_sizes m Hm) as Hs.
  destruct (usageFor_inv m (al_tier a) Hm) as (-> & _ & _).
  rewrite (reserved_delete _ _ _ _ Hk).
  assert (0 <= reserved (tier_eqb (al_tier a) Vram) (delete k (allocations_ m))).
  { apply reserved_nonneg. by apply map_Forall_delete. }
  specialize (Hs k a Hk). cbn in Hs. unfold charged, in_pool.
  rewrite eqb_reflx. lia.
Qed.

(** What [allocate] does when it succeeds, and what [release] does: the clients'
    view of the two operations. *)
Record allocated (m : MemoryManager) (tier : MemoryTier) (size : Z) (tag : string)
    (m' : MemoryManager) : Prop := Allocated {
  at_allocs : allocations_ m' =
    <[nextId_ m := mkAllocation (nextId_ m) tier size tag]> (allocations_ m);
  at_next : nextId_ m' = nextId_ m + 1;
  at_limit : forall t, limitBytes (usageFor m' t) = limitBytes (usageFor m t);
  at_used : forall t, usedBytes (usageFor m' t) =
    usedBytes (usageFor m t) + (if eqb (tier_eqb t Vram) (tier_eqb tier Vram) then size else 0);
}.

Record released (m : MemoryManager) (k : Z) (a : MemoryAllocation) (m' : MemoryManager) : Prop := Released {
  rl_allocs : allocations_ m' = delete k (allocations_ m);
  rl_next : nextId_ m' = nextId_ m;
  rl_limit : forall t, limitBytes (usageFor m' t) = limitBytes (usageFor m t);
  rl_used : forall t, usedBytes (usageFor m' t) =
    usedBytes (usageFor m t) -
      (if eqb (tier_eqb t Vram) (tier_eqb (al_tier a) Vram) then al_sizeBytes a else 0);
}.

Lemma usageFor_add_used m t t' delta :
  usageFor (add_used t delta m) t' =
    if eqb (tier_eqb t' Vram) (tier_eqb t Vram)
    then mkUsage (wrap64 (usedBytes (usageFor m t) + delta)) (limitBytes (usageFor m t))
    else usageFor m t'.
Proof.
  unfold usageFor, add_used, set_usageFor, usageFor.
  by destruct (tier_eqb t Vram), (tier_eqb t' Vram).
Qed.

Lemma fresh_id m : mem_inv m -> allocations_ m !! nextId_ m = None.
Proof.
  intros Hm. destruct (allocations_ m !! nextId_ m) eqn:Hk; [|done].
  destruct (mi_ids m Hm _ _ Hk) as (_&?&_). lia.
Qed.

(** Rebuild the invariant from the facts about the two pools. *)
Lemma mem_inv_intro m :
  (forall t, usedBytes (usageFor m t) = reserved (tier_eqb t Vram) (allocations_ m)) ->
  (forall t, usedBytes (usageFor m t) <= limitBytes (usageFor m t) <= u64_max) ->
  1 <= nextId_ m ->
  map_Forall (fun k a => al_id a = k /\ 1 <= k < nextId_ m /\
                         0 < al_sizeBytes a /\ al_tier a <> Nvme) (allocations_ m) ->
  mem_inv m.
Proof.
  intros Hu Hl Hn Hids.
  constructor; [apply (Hu Vram)|apply (Hu Ram)|apply (Hl Vram)|apply (Hl Ram)|done|done].
Qed.

Lemma allocated_inv m tier size tag m' :
  mem_inv m -> tier <> Nvme -> 0 < size <= availableBytes (usageFor m tier) ->
  allocated m tier size tag m' -> mem_inv m'.
Proof.
  intros Hm Ht Hs [Hallocs Hnext Hlim Hused].
  pose proof (fresh_id m Hm) as Hfresh. rewrite availableBytes_inv in Hs by done.
  apply mem_inv_intro.
  - intros t. rewrite Hused, Hallocs, reserved_insert by done.
    destruct (usageFor_inv m t Hm) as (-> & _). unfold charged, in_pool. cbn.
    by destruct (tier_eqb t Vram), (tier_eqb tier Vram); cbn; lia.
  - intros t. rewrite Hlim, Hused. pose proof (usageFor_inv m t Hm).
    destruct (eqb (tier_eqb t Vram) (tier_eqb tier Vram)) eqn:Heq; [|lia].
    apply eqb_prop in Heq. unfold usageFor in *. rewrite Heq in *. lia.
  - rewrite Hnext. pose proof (mi_next m Hm). lia.
  - rewrite Hallocs, Hnext. apply map_Forall_insert; [done|]. pose proof (mi_next m Hm).
    split; [cbn; split_and!; done || lia|].
    intros k a Hk. destruct (mi_ids m Hm k a Hk) as (?&?&?&?). split_and!; done || lia.
Qed.

Lemma released_inv m k a m' :
  mem_inv m -> allocations_ m !! k = Some a -> released m k a m' -> mem_inv m'.
Proof.
  intros Hm Hk [Hallocs Hnext Hlim Hused]. apply mem_inv_intro.
  - intros t. rewrite Hused, Hallocs. destruct (usageFor_inv m t Hm) as (-> & _).
    rewrite (reserved_delete _ _ _ _ Hk). unfold charged, in_pool.
    by destruct (tier_eqb t Vram), (tier_eqb (al_tier a) Vram); cbn; lia.
  - intros t. rewrite Hlim, Hused. pose proof (usageFor_inv m t Hm).
    pose proof (release_covered m k a Hm Hk). destruct (eqb _ _); lia.
  - rewrite Hnext. apply Hm.
  - rewrite Hallocs, Hnext. apply map_Forall_delete, Hm.
Qed.

(** ** Functional behaviour *)

Lemma allocate_spec m tier size tag :
  mem_inv m -> id_room m 1 -> is_u64 size ->
  wp (allocate tier size tag) m
    (fun r m' => match r with
       | Some a => a = mkAllocation (nextId_ m) tier size tag /\ tier <> Nvme /\
                   0 < size <= availableBytes (usageFor m tier) /\
                   allocated m tier size tag m' /\ mem_inv m'
       | None => m' = m /\ availableBytes (usageFor m tier) < size
       end)
    (fun e m' => m' = m /\ kind_of e = InvalidArgument /\ (tier = Nvme \/ size = 0)).
Proof.
  intros Hm Hroom Hsize. unfold allocate. wp_step.
  wp_step; [split_and!; [done..|left; by apply tier_eqb_true]|]. apply tier_eqb_false in H.
  wp_step. wp_step; [split_and!; [done..|right; by apply Z.eqb_eq]|].
  apply Z.eqb_neq in H0. wp_step. wp_step.
  destruct (Z.ltb_spec (availableBytes (usageFor m tier)) size) as [Hlt|Hge]; [by wp_step|].
  wp_steps. cbn [al_id].
  match goal with |- context [mem_inv ?s] => set (m' := s) end.
  unfold is_u64 in Hsize.
  assert (allocated m tier size tag m') as Hal.
  { subst m'. pose proof (usageFor_inv m tier Hm). rewrite availableBytes_inv in Hge by done.
    split.
    - pose proof (fresh_id m Hm) as Hfresh. unfold add_used, set_usageFor, set_allocations, emplace.
      destruct (tier_eqb tier Vram); cbn; by rewrite Hfresh.
    - unfold add_used, set_usageFor. destruct (tier_eqb tier Vram); cbn;
        (apply wrap64_small; unfold is_u64, id_room in *; pose proof (mi_next m Hm); lia).
    - intros t. rewrite usageFor_add_used. unfold usageFor.
      destruct (tier_eqb t Vram), (tier_eqb tier Vram); done.
    - intros t. rewrite usageFor_add_used. unfold usageFor in *.
      destruct (tier_eqb t Vram), (tier_eqb tier Vram); cbn in *; try lia;
        (rewrite wrap64_small; [done|unfold is_u64; lia]). }
  assert (mem_inv m') by (apply (allocated_inv m tier size tag); [done..|lia|done]).
  split_and!; done || lia.
Qed.

Lemma release_spec m k :
  mem_inv m ->
  wp (release k) m
    (fun r m' => match allocations_ m !! k with
       | Some a => r = true /\ released m k a m' /\ mem_inv m'
       | None => r = false /\ m' = m
       end)
    (fun _ _ => False).
Proof.
  intros Hm. unfold release. wp_steps. destruct (allocations_ m !! k) as [a|] eqn:Hk.
  - wp_steps. split; [done|]. match goal with |- context [mem_inv ?s] => set (m' := s) end.
    assert (released m k a m') as Hrel; [|split; [done|by eapply released_inv]].
    pose proof (release_covered m k a Hm Hk). pose proof (usageFor_inv m (al_tier a) Hm).
    subst m'. split.
    + unfold add_used, set_usageFor. by destruct (tier_eqb (al_tier a) Vram).
    + unfold add_used, set_usageFor. by destruct (tier_eqb (al_tier a) Vram).
    + intros t. pose proof (usageFor_add_used m (al_tier a) t (- al_sizeBytes a)) as Hu.
      unfold usageFor, set_allocations in *. cbn in *. rewrite Hu.
      by destruct (tier_eqb t Vram), (tier_eqb (al_tier a) Vram).
    + intros t. pose proof (usageFor_add_used m (al_tier a) t (- al_sizeBytes a)) as Hu.
      unfold usageFor, set_allocations in *. cbn in *. rewrite Hu.
      destruct (tier_eqb t Vram), (tier_eqb (al_tier a) Vram); cbn in *; try lia;
        (rewrite wrap64_small; [lia|unfold is_u64; lia]).
  - by wp_steps.
Qed.

(** ** Reachable states *)

Inductive mem_step : MemoryManager -> MemoryManager -> Prop :=
  | mem_step_allocate m tier size tag :
      id_room m 1 -> is_u64 size -> mem_step m (snd (allocate tier size tag m))
  | mem_step_release m id : mem_step m (snd (release id m)).

Lemma newMemory_inv v r : is_u64 v -> is_u64 r -> mem_inv (newMemory v r).
Proof.
  unfold is_u64. intros Hv Hr. apply mem_inv_intro; [| |cbn; lia|done].
  - intros t. unfold usageFor. by destruct (tier_eqb t Vram).
  - intros t. unfold usageFor. destruct (tier_eqb t Vram); cbn; lia.
Qed.

Lemma mem_step_inv m m' :
  mem_step m m' -> mem_inv m ->
  mem_inv m' /\ forall t, limitBytes (usageFor m' t) = limitBytes (usageFor m t).
Proof.
  intros [m0 tier size tag Hroom Hsize|m0 id] Hm.
  - destruct (wp_result _ _ _ _ (allocate_spec m0 tier size tag Hm Hroom Hsize))
      as [(r & s' & -> & Hr)|(e & s' & -> & -> & _)]; cbn; [|done].
    destruct r; [|by destruct Hr as [-> _]]. destruct Hr as (_&_&_&Hal&?).
    split; [done|apply Hal].
  - destruct (wp_result _ _ _ _ (release_spec m0 id Hm)) as [(r & s' & -> & Hr)|(e & s' & _ & [])].
    cbn. destruct (allocations_ m0 !! id); [|by destruct Hr as [_ ->]].
    destruct Hr as (_&Hrl&?). split; [done|apply Hrl].
Qed.

Lemma usage_back m m1 m2 tier size tag k t :
  allocated m tier size tag m1 -> released m1 k (mkAllocation k tier size tag) m2 ->
  usageFor m2 t = usageFor m t.
Proof.
  intros Hal Hrel.
  pose proof (at_used _ _ _ _ _ Hal t). pose proof (at_limit _ _ _ _ _ Hal t).
  pose proof (rl_used _ _ _ _ Hrel t) as Hu. pose proof (rl_limit _ _ _ _ Hrel t). cbn in Hu.
  destruct (usageFor m2 t), (usageFor m t). cbn in *. f_equal; [|lia].
  destruct (eqb _ _); lia.
Qed.

(** Whatever sequence of allocations and releases the program performs, the
    bytes counted as used in each pool are exactly the bytes of the live
    allocations charged to it, and never exceed the pool's limit. *)
Theorem memory_accounting (v r : Z) (m : MemoryManager) :
  is_u64 v -> is_u64 r -> rtc mem_step (newMemory v r) m ->
  usedBytes (vram_ m) = reserved true (allocations_ m) /\
  usedBytes (ram_ m) = reserved false (allocations_ m) /\
  usedBytes (vram_ m) <= v /\ usedBytes (ram_ m) <= r.
Proof.
  intros Hv Hr Hsteps.
  assert (mem_inv m /\ limitBytes (vram_ m) = v /\ limitBytes (ram_ m) = r) as (Hm & <- & <-).
  { refine (rtc_preserves mem_step
      (fun m => mem_inv m /\ limitBytes (vram_ m) = v /\ limitBytes (ram_ m) = r) _ _ _ Hsteps _).
    - intros m1 m2 Hstep (Hm1 & <- & <-). destruct (mem_step_inv m1 m2 Hstep Hm1) as [? Hlim].
      split_and!; [done|apply (Hlim Vram)|apply (Hlim Ram)].
    - split; [by apply newMemory_inv|done]. }
  destruct Hm. split_and!; done || lia.
Qed.

Lemma memory_accounting_witness :
  let m := snd (release 1 (snd (allocate Vram 60 "b" (snd (allocate Ram 50 "a" (newMemory 100 70)))))) in
  usedBytes (vram_ m) = 60 /\ usedBytes (ram_ m) = 0 /\ usedBytes (vram_ m) <= 100.
Proof.
  intros m.
  assert (rtc mem_step (newMemory 100 70) m) as Hrun.
  { eapply rtc_l; [apply (mem_step_allocate _ Ram 50 "a"); unfold id_room, is_u64, u64_max; cbn; lia|].
    eapply rtc_l; [apply (mem_step_allocate _ Vram 60 "b"); [|unfold is_u64, u64_max; lia]|].
    { vm_compute. discriminate. }
    eapply rtc_l; [apply (mem_step_release _ 1)|apply rtc_refl]. }
  assert (is_u64 100 /\ is_u64 70) as [H1 H2] by (unfold is_u64, u64_max; lia).
  destruct (memory_accounting 100 70 m H1 H2 Hrun) as (_ & _ & Hv & _).
  split_and!; [reflexivity|reflexivity|exact Hv].
Defined.

(** on a valid request, allocation is decided by the capacity alone, and
    releasing the token gives back exactly what was taken. *)
Theorem allocate_release_roundtrip (m : MemoryManager) (tier : MemoryTier) (size : Z) (tag : string) :
  mem_inv m -> id_room m 1 -> is_u64 size -> size <> 0 -> tier <> Nvme ->
  (limitBytes (usageFor m tier) - usedBytes (usageFor m tier) < size /\
   allocate tier size tag m = (Ok None, m)) \/
  (size <= limitBytes (usageFor m tier) - usedBytes (usageFor m tier) /\
   exists m1 m2, allocate tier size tag m = (Ok (Some (mkAllocation (nextId_ m) tier size tag)), m1) /\
     contains m1 (nextId_ m) = true /\
     release (nextId_ m) m1 = (Ok true, m2) /\
     allocations_ m2 = allocations_ m /\ vram_ m2 = vram_ m /\ ram_ m2 = ram_ m).
Proof.
  intros Hm Hroom Hsize Hnz Ht. rewrite <- availableBytes_inv by done.
  destruct (wp_result _ _ _ _ (allocate_spec m tier size tag Hm Hroom Hsize))
    as [(r & m1 & Heq & Hr)|(e & m1 & _ & _ & _ & [?|?])]; [|done..].
  destruct r as [a|]; [right|left; by destruct Hr as [-> ?]].
  destruct Hr as (-> & _ & ? & Hal & Hm1). split; [lia|].
  pose proof (at_allocs _ _ _ _ _ Hal) as Hallocs.
  destruct (wp_result _ _ _ _ (release_spec m1 (nextId_ m) Hm1)) as [(r & m2 & Heq2 & Hr)|(e & ? & _ & [])].
  rewrite Hallocs, lookup_insert_eq in Hr. destruct Hr as (-> & Hrel & _).
  exists m1, m2. split_and!; [done| |done|..].
  - unfold contains. rewrite Hallocs, lookup_insert_eq. done.
  - rewrite (rl_allocs _ _ _ _ Hrel), Hallocs. apply delete_insert_id, fresh_id, Hm.
  - apply (usage_back m m1 m2 tier size tag _ Vram Hal Hrel).
  - apply (usage_back m m1 m2 tier size tag _ Ram Hal Hrel).
Qed.

Lemma allocate_release_roundtrip_witness :
  exists m1 m2, allocate Vram 60 "b" (newMemory 100 70) = (Ok (Some (mkAllocation 1 Vram 60 "b")), m1) /\
    release 1 m1 = (Ok true, m2) /\ usedBytes (vram_ m1) = 60 /\ vram_ m2 = mkUsage 0 100.
Proof.
  assert (is_u64 100 /\ is_u64 70 /\ is_u64 60) as (H1 & H2 & H3) by (unfold is_u64, u64_max; lia).
  destruct (allocate_release_roundtrip (newMemory 100 70) Vram 60 "b") as [[H _]|(_ & m1 & m2 & Ha & _ & Hr & _ & Hv & _)];
    [by apply newMemory_inv|unfold id_room, u64_max; cbn; lia|done|done|done|by vm_compute in H|].
  exists m1, m2. split_and!; [exact Ha|exact Hr| |exact Hv].
  vm_compute in Ha. injection Ha as <-. reflexivity.
Defined.
