(* ===== verification/CachePolicy.v ===== *)
(** * Cache policies

    The [CachePolicy] interface of [include/hypermoe/experts/cache_policy.hpp]
    as a type class, the contract its clients rely on, and the three policies of
    the source: LRU ([src/experts/expert_cache/lru_cache_policy.cpp]), LFU
    ([src/cache/LFUPolicy.cpp]) and Hybrid ([src/cache/HybridPolicy.cpp]). *)

From S2P Require Import Prelude Float Tiers.

(** ** The interface *)

Class CachePolicy (P : Type) := {
  onAccess : Z -> P -> P;
  onResident : Z -> MemoryTier -> P -> P;
  onEvict : Z -> MemoryTier -> P -> P;
  setLayerProbability : Z -> f64 -> P -> P;
  setPrefetchConfidence : Z -> f64 -> P -> P;
  residencyScore : P -> Z -> option f64;
  selectVictim : P -> MemoryTier -> list Z -> gset Z -> option Z;
}.

(** What [ExpertManager] relies on: a victim is an admissible candidate, and
    there is one whenever some candidate is admissible. *)
Class CachePolicyLaws (P : Type) `{CachePolicy P} : Prop := {
  selectVictim_admissible p t cs ex v :
    selectVictim p t cs ex = Some v -> v ∈ cs /\ v ∉ ex;
  selectVictim_available p t cs ex c :
    c ∈ cs -> c ∉ ex -> is_Some (selectVictim p t cs ex);
}.

(** The candidates the scan does not skip. *)
Definition admissible (cs : list Z) (ex : gset Z) : list Z := filter (fun c => c ∉ ex) cs.

Lemma elem_of_admissible c cs ex : c ∈ admissible cs ex <-> c ∈ cs /\ c ∉ ex.
Proof. unfold admissible. rewrite list_elem_of_filter. tauto. Qed.

(** A selection that is a scan of the admissible candidates satisfies the laws. *)
Lemma scan_min_admissible lt cs ex v :
  scan_min lt (admissible cs ex) = Some v -> v ∈ cs /\ v ∉ ex.
Proof. intros Hv. by apply elem_of_admissible, (scan_min_elem lt). Qed.

Lemma scan_min_available lt cs ex c :
  c ∈ cs -> c ∉ ex -> is_Some (scan_min lt (admissible cs ex)).
Proof.
  intros Hc Hex. destruct (scan_min lt (admissible cs ex)) eqn:Heq; [eauto|].
  apply scan_min_None in Heq. assert (c ∈ admissible cs ex) as Hin by by apply elem_of_admissible.
  rewrite Heq in Hin. by apply not_elem_of_nil in Hin.
Qed.

(** The loops of the source carry the best candidate and copies of its keys, and
    test exclusion inside the loop; [scan_loop] is their common shape. *)
Section scan_loop.
Context {K : Type} (keys : Z -> K) (better : Z -> K -> Z -> K -> bool) (k0 : K).

Definition scan_loop (ex : gset Z) (cs : list Z) : option Z * K :=
  foldl (fun '(victim, best) id =>
    if bool_decide (id ∈ ex) then (victim, best)
    else match victim with
         | None => (Some id, keys id)
         | Some v => if better id (keys id) v best then (Some id, keys id) else (victim, best)
         end) (None, k0) cs.

Lemma scan_loop_scan_min ex cs :
  fst (scan_loop ex cs) =
    scan_min (fun x y => better x (keys x) y (keys y)) (admissible cs ex).
Proof.
  unfold scan_loop, scan_min.
  assert (forall acc, acc = (None, k0) \/ (exists v, acc = (Some v, keys v)) ->
    fst (foldl (fun '(victim, best) id =>
      if bool_decide (id ∈ ex) then (victim, best)
      else match victim with
           | None => (Some id, keys id)
           | Some v => if better id (keys id) v best then (Some id, keys id) else (victim, best)
           end) acc cs) =
    foldl (scan_min_step (fun x y => better x (keys x) y (keys y))) (fst acc) (admissible cs ex))
    as Hgen; [|apply Hgen; by left].
  induction cs as [|c cs IH]; intros acc Hacc; [done|].
  unfold admissible. rewrite filter_cons. cbn [foldl].
  destruct Hacc as [->|[v ->]]; destruct (decide (c ∉ ex)) as [Hc|Hc];
    [rewrite (bool_decide_eq_false_2 _ Hc)|rewrite (bool_decide_eq_true_2 (c ∈ ex)) by by apply dec_stable
    |rewrite (bool_decide_eq_false_2 _ Hc)|rewrite (bool_decide_eq_true_2 (c ∈ ex)) by by apply dec_stable]; cbn;
    try (rewrite IH by eauto; done).
  destruct (better c (keys c) v (keys v)); rewrite IH by eauto; done.
Qed.
End scan_loop.

(** ** LRU *)

Module Lru.
Record state : Type := mkState { clock_ : Z; lastAccess_ : gmap Z Z }.
Definition empty : state := mkState 0 ∅.

Definition onAccess (id : Z) (p : state) : state :=
  let c := wrap64 (clock_ p + 1) in mkState c (<[id := c]> (lastAccess_ p)).

Definition onResident (id : Z) (_ : MemoryTier) (p : state) : state :=
  match lastAccess_ p !! id with
  | Some _ => p
  | None => let c := wrap64 (clock_ p + 1) in mkState c (<[id := c]> (lastAccess_ p))
  end.

Definition stamp (p : state) (id : Z) : Z := default 0 (lastAccess_ p !! id).

Definition selectVictim (p : state) (_ : MemoryTier) (candidates : list Z) (excluded : gset Z)
    : option Z :=
  fst (scan_loop (stamp p)
    (fun id stamp v oldest => (stamp <? oldest) || ((stamp =? oldest) && (id <? v)))
    u64_max excluded candidates).

#[export] Instance policy : CachePolicy state := {
  onAccess := onAccess;
  onResident := onResident;
  onEvict _ _ p := p;
  setLayerProbability _ _ p := p;
  setPrefetchConfidence _ _ p := p;
  residencyScore _ _ := None;
  selectVictim := selectVictim;
}.

Lemma lru_selectVictim_scan p t cs ex :
  selectVictim p t cs ex = scan_min (key_lt (stamp p)) (admissible cs ex).
Proof. unfold selectVictim. by rewrite scan_loop_scan_min. Qed.

#[export] Instance laws : CachePolicyLaws state.
Proof.
  split; intros *; cbn; rewrite lru_selectVictim_scan;
    eauto using scan_min_admissible, scan_min_available.
Qed.
End Lru.

(** ** LFU *)

Module Lfu.
Record state : Type := mkState {
  clock_ : Z; frequency_ : gmap Z Z; lastAccess_ : gmap Z Z }.
Definition empty : state := mkState 0 ∅ ∅.

Definition count (m : gmap Z Z) (id : Z) : Z := default 0 (m !! id).

Definition onAccess (id : Z) (p : state) : state :=
  let f := <[id := wrap64 (count (frequency_ p) id + 1)]> (frequency_ p) in
  let c := wrap64 (clock_ p + 1) in
  mkState c f (<[id := c]> (lastAccess_ p)).

Definition onResident (id : Z) (_ : MemoryTier) (p : state) : state :=
  let f := match frequency_ p !! id with
           | Some _ => frequency_ p | None => <[id := 0]> (frequency_ p) end in
  match lastAccess_ p !! id with
  | Some _ => mkState (clock_ p) f (lastAccess_ p)
  | None => let c := wrap64 (clock_ p + 1) in mkState c f (<[id := c]> (lastAccess_ p))
  end.

Definition keys (p : state) (id : Z) : Z * Z :=
  (count (frequency_ p) id, count (lastAccess_ p) id).

Definition better (id : Z) (k : Z * Z) (v : Z) (best : Z * Z) : bool :=
  let '(frequency, recency) := k in
  let '(minimumFrequency, oldest) := best in
  (frequency <? minimumFrequency) ||
  ((frequency =? minimumFrequency) && (recency <? oldest)) ||
  ((frequency =? minimumFrequency) && (recency =? oldest) && (id <? v)).

Definition selectVictim (p : state) (_ : MemoryTier) (candidates : list Z) (excluded : gset Z)
    : option Z :=
  fst (scan_loop (keys p) better (u64_max, u64_max) excluded candidates).

#[export] Instance policy : CachePolicy state := {
  onAccess := onAccess;
  onResident := onResident;
  onEvict _ _ p := p;
  setLayerProbability _ _ p := p;
  setPrefetchConfidence _ _ p := p;
  residencyScore _ _ := None;
  selectVictim := selectVictim;
}.

Definition order (p : state) (x y : Z) : bool := better x (keys p x) y (keys p y).

Lemma lfu_order_true p x y :
  order p x y = true <->
  count (frequency_ p) x < count (frequency_ p) y \/
  (count (frequency_ p) x = count (frequency_ p) y /\
   (count (lastAccess_ p) x < count (lastAccess_ p) y \/
    (count (lastAccess_ p) x = count (lastAccess_ p) y /\ x < y))).
Proof.
  unfold order, better, keys.
  rewrite !orb_true_iff, !andb_true_iff, !Z.ltb_lt, !Z.eqb_eq. tauto.
Qed.

Lemma lfu_order_strict_total p P : strict_total (order p) P.
Proof.
  split_and!.
  - intros x y z _ _ _. rewrite !lfu_order_true. lia.
  - intros x _. apply not_true_iff_false. rewrite lfu_order_true. lia.
  - intros x y _ _. rewrite !lfu_order_true. lia.
Qed.

Lemma lfu_selectVictim_scan p t cs ex :
  selectVictim p t cs ex = scan_min (order p) (admissible cs ex).
Proof. unfold selectVictim. by rewrite scan_loop_scan_min. Qed.

#[export] Instance laws : CachePolicyLaws state.
Proof.
  split; intros *; cbn; rewrite lfu_selectVictim_scan;
    eauto using scan_min_admissible, scan_min_available.
Qed.
End Lfu.

(** ** Hybrid

    [std::exp2] is the C library's, whose result is implementation-defined; it is
    a parameter of the age-aware mode. *)

Module Hybrid.
Section hybrid.
Context (exp2 : f64 -> f64).

Record state : Type := mkState {
  clock_ : Z;
  maximumFrequency_ : Z;
  ageAware_ : bool;
  observationWindow_ : Z;
  decayedFrequency_ : gmap Z f64;
  predictionUpdated_ : gmap Z Z;
  frequency_ : gmap Z Z;
  lastAccess_ : gmap Z Z;
  layerProbability_ : gmap Z f64;
  prefetchConfidence_ : gmap Z f64;
}.

(** The constructor. *)
Definition make (ageAware : bool) (observationWindow : Z) : result state :=
  (throw_if (observationWindow =? 0)
     (Exn InvalidArgument "hybrid residency observation window must be nonzero") ;;?
   Ok (mkState 0 0 ageAware observationWindow ∅ ∅ ∅ ∅ ∅ ∅))%res.

Definition lookupOrZero (values : gmap Z f64) (id : Z) : f64 :=
  match values !! id with Some v => v | None => f64_zero end.

(** [std::exp2(-static_cast<double>(age) / static_cast<double>(observationWindow_))] *)
Definition decay_of (p : state) (age : Z) : f64 :=
  exp2 (f64_div (SpecFloat.SFopp (f64_of_Z age)) (f64_of_Z (observationWindow_ p))).

Definition onAccess (id : Z) (p : state) : state :=
  let decayed :=
    if ageAware_ p then
      let age := match lastAccess_ p !! id with
                 | None => 0
                 | Some previous => wrap64 (clock_ p + 1 - previous)
                 end in
      let count := lookupOrZero (decayedFrequency_ p) id in
      <[id := f64_add (f64_mul count (decay_of p age)) f64_one]> (decayedFrequency_ p)
    else decayedFrequency_ p in
  let value := wrap64 (default 0 (frequency_ p !! id) + 1) in
  let c := wrap64 (clock_ p + 1) in
  mkState c (Z.max (maximumFrequency_ p) value) (ageAware_ p) (observationWindow_ p)
    decayed (predictionUpdated_ p) (<[id := value]> (frequency_ p))
    (<[id := c]> (lastAccess_ p)) (layerProbability_ p) (prefetchConfidence_ p).

Definition onResident (id : Z) (_ : MemoryTier) (p : state) : state :=
  let f := match frequency_ p !! id with
           | Some _ => frequency_ p | None => <[id := 0]> (frequency_ p) end in
  let '(c, l) :=
    match lastAccess_ p !! id with
    | Some _ => (clock_ p, lastAccess_ p)
    | None => let c := wrap64 (clock_ p + 1) in (c, <[id := c]> (lastAccess_ p))
    end in
  mkState c (maximumFrequency_ p) (ageAware_ p) (observationWindow_ p)
    (decayedFrequency_ p) (predictionUpdated_ p) f l
    (layerProbability_ p) (prefetchConfidence_ p).

Definition setLayerProbability (id : Z) (probability : f64) (p : state) : state :=
  mkState (clock_ p) (maximumFrequency_ p) (ageAware_ p) (observationWindow_ p)
    (decayedFrequency_ p) (<[id := clock_ p]> (predictionUpdated_ p)) (frequency_ p)
    (lastAccess_ p) (<[id := fclamp probability f64_zero f64_one]> (layerProbability_ p))
    (prefetchConfidence_ p).

Definition setPrefetchConfidence (id : Z) (confidence : f64) (p : state) : state :=
  mkState (clock_ p) (maximumFrequency_ p) (ageAware_ p) (observationWindow_ p)
    (decayedFrequency_ p) (<[id := clock_ p]> (predictionUpdated_ p)) (frequency_ p)
    (lastAccess_ p) (layerProbability_ p)
    (<[id := fclamp confidence f64_zero f64_one]> (prefetchConfidence_ p)).

Definition normalizedFrequency (p : state) (id : Z) : f64 :=
  if maximumFrequency_ p =? 0 then f64_zero
  else match frequency_ p !! id with
       | None => f64_zero
       | Some v => f64_div (f64_of_Z v) (f64_of_Z (maximumFrequency_ p))
       end.

Definition normalizedRecency (p : state) (id : Z) : f64 :=
  if clock_ p =? 0 then f64_zero
  else match lastAccess_ p !! id with
       | None => f64_zero
       | Some v => f64_div (f64_of_Z v) (f64_of_Z (clock_ p))
       end.

Definition score (p : state) (id : Z) : f64 :=
  if ageAware_ p then
    let decay updated := decay_of p (wrap64 (clock_ p - updated)) in
    let recency := match lastAccess_ p !! id, decayedFrequency_ p !! id with
                   | Some access, Some _ => decay access
                   | _, _ => f64_zero
                   end in
    let frequency := match decayedFrequency_ p !! id with
                     | None => f64_zero
                     | Some count => f64_mul count recency
                     end in
    let predictionDecay := match predictionUpdated_ p !! id with
                           | None => f64_zero
                           | Some updated => decay updated
                           end in
    f64_add
      (f64_add
        (f64_div (f64_mul (f64_lit 4 10) frequency) (f64_add frequency (f64_of_Z 8)))
        (f64_mul (f64_lit 3 10) recency))
      (f64_mul (f64_mul (f64_mul (f64_lit 3 10) (lookupOrZero (layerProbability_ p) id))
                        (lookupOrZero (prefetchConfidence_ p) id)) predictionDecay)
  else
    f64_add
      (f64_add
        (f64_add (f64_mul (f64_lit 4 10) (normalizedFrequency p id))
                 (f64_mul (f64_lit 3 10) (normalizedRecency p id)))
        (f64_mul (f64_lit 2 10) (lookupOrZero (layerProbability_ p) id)))
      (f64_mul (f64_lit 1 10) (lookupOrZero (prefetchConfidence_ p) id)).

Definition selectVictim (p : state) (_ : MemoryTier) (candidates : list Z) (excluded : gset Z)
    : option Z :=
  fst (scan_loop (score p)
    (fun id candidateScore v minimumScore =>
       flt candidateScore minimumScore || (feq candidateScore minimumScore && (id <? v)))
    f64_inf excluded candidates).

#[export] Instance policy : CachePolicy state := {
  onAccess := onAccess;
  onResident := onResident;
  onEvict _ _ p := p;
  setLayerProbability := setLayerProbability;
  setPrefetchConfidence := setPrefetchConfidence;
  residencyScore p id := Some (score p id);
  selectVictim := selectVictim;
}.

Lemma hybrid_selectVictim_scan p t cs ex :
  selectVictim p t cs ex = scan_min (score_lt (score p)) (admissible cs ex).
Proof. unfold selectVictim. by rewrite scan_loop_scan_min. Qed.

#[export] Instance laws : CachePolicyLaws state.
Proof.
  split; intros *; cbn; rewrite hybrid_selectVictim_scan;
    eauto using scan_min_admissible, scan_min_available.
Qed.
End hybrid.
End Hybrid.

(** ** What each policy evicts *)

(** the LFU victim is the least admissible candidate by frequency, then by last
    access, then by identifier, and the order in which the candidates are listed,
    which [std::unordered_map] does not fix, has no influence. *)
Theorem lfu_victim_least (p : Lfu.state) (t : MemoryTier) (cs cs' : list Z) (ex : gset Z) :
  cs ≡ₚ cs' ->
  Lfu.selectVictim p t cs ex = Lfu.selectVictim p t cs' ex /\
  (forall v, Lfu.selectVictim p t cs ex = Some v ->
   forall c, c ∈ cs -> c ∉ ex -> c = v \/ Lfu.order p v c = true).
Proof.
  intros Hperm. rewrite !Lfu.lfu_selectVictim_scan. split.
  - apply (scan_min_perm _ (fun _ => True)); [apply Lfu.lfu_order_strict_total|done|].
    unfold admissible. by rewrite Hperm.
  - intros v Hv c Hc Hex.
    apply (scan_min_least _ (fun _ => True) _ _ (Lfu.lfu_order_strict_total p _)
             ltac:(done) Hv c), elem_of_admissible. done.
Qed.

Lemma lfu_victim_least_witness :
  let p := Lfu.onAccess 3 (Lfu.onAccess 2 (Lfu.onAccess 3 (Lfu.onAccess 1 Lfu.empty))) in
  Lfu.selectVictim p Vram [3; 2; 1] ∅ = Lfu.selectVictim p Vram [1; 2; 3] ∅ /\
  Lfu.selectVictim p Vram [3; 2; 1] ∅ = Some 1.
Proof.
  intros p. split; [|reflexivity].
  apply (lfu_victim_least p Vram [3; 2; 1] [1; 2; 3] ∅). vm_compute.
  apply (Permutation_rev [3; 2; 1]).
Defined.

(** The Hybrid victim is the admissible candidate of least score, ties going to
    the smaller identifier, whatever the order of the candidates, as long as no
    score is a NaN. *)
Theorem hybrid_victim_least (exp2 : f64 -> f64) (p : Hybrid.state) (t : MemoryTier)
    (cs cs' : list Z) (ex : gset Z) :
  (forall c, c ∈ cs -> is_nan (Hybrid.score exp2 p c) = false) ->
  cs ≡ₚ cs' ->
  Hybrid.selectVictim exp2 p t cs ex = Hybrid.selectVictim exp2 p t cs' ex /\
  (forall v, Hybrid.selectVictim exp2 p t cs ex = Some v ->
   forall c, c ∈ cs -> c ∉ ex -> c = v \/ score_lt (Hybrid.score exp2 p) v c = true).
Proof.
  intros Hnan Hperm. rewrite !Hybrid.hybrid_selectVictim_scan.
  assert (forall c, c ∈ admissible cs ex -> is_nan (Hybrid.score exp2 p c) = false) as Hadm.
  { intros c [Hc _]%elem_of_admissible. auto. }
  split.
  - eapply scan_min_perm; [apply score_lt_strict_total|exact Hadm|].
    unfold admissible. by rewrite Hperm.
  - intros v Hv c Hc Hex. eapply scan_min_least;
      [apply score_lt_strict_total|exact Hadm|done|by apply elem_of_admissible].
Qed.

(** Three experts, one of them accessed twice; the age-aware mode is off. *)
Definition sample_hybrid : Hybrid.state :=
  foldl (fun p id => Hybrid.onAccess (fun _ => f64_one) id p)
    (Hybrid.mkState 0 0 false 128 ∅ ∅ ∅ ∅ ∅ ∅) [1; 3; 2; 3].

Lemma hybrid_victim_least_witness :
  Hybrid.selectVictim (fun _ => f64_one) sample_hybrid Vram [3; 2; 1] ∅ = Some 1 /\
  score_lt (Hybrid.score (fun _ => f64_one) sample_hybrid) 1 3 = true.
Proof.
  assert (Hybrid.selectVictim (fun _ => f64_one) sample_hybrid Vram [3; 2; 1] ∅ = Some 1) as Hv
    by (vm_compute; reflexivity).
  split; [exact Hv|].
  destruct (hybrid_victim_least (fun _ => f64_one) sample_hybrid Vram [3; 2; 1] [3; 2; 1] ∅)
    as [_ H].
  - intros c Hc. repeat (apply elem_of_cons in Hc as [->|Hc]; [vm_compute; reflexivity|]).
    exfalso. exact (not_elem_of_nil _ Hc).
  - reflexivity.
  - assert (3 ∈ [3; 2; 1]) as H3 by left.
    destruct (H 1 Hv 3 H3 (not_elem_of_empty 3)) as [H13|H13]; [discriminate H13|exact H13].
Defined.

(** *** LRU implements a recency list

    The abstract policy keeps the experts it knows from the most to the least
    recently touched; its victim is the last admissible one. *)

Definition touch (id : Z) (l : list Z) : list Z := id :: filter (fun x => x ≠ id) l.

Inductive lru_event : Type := Accessed (id : Z) | Entered (id : Z) (tier : MemoryTier).

Definition spec_event (l : list Z) (e : lru_event) : list Z :=
  match e with
  | Accessed id => touch id l
  | Entered id _ => if bool_decide (id ∈ l) then l else id :: l
  end.
Definition spec_victim (l : list Z) (cs : list Z) (ex : gset Z) : option Z :=
  last (filter (fun x => x ∈ cs /\ x ∉ ex) l).

Definition impl_event (p : Lru.state) (e : lru_event) : Lru.state :=
  match e with
  | Accessed id => Lru.onAccess id p
  | Entered id t => Lru.onResident id t p
  end.

(** The recency list lists the tracked experts by decreasing stamp. *)
Record lru_rel (p : Lru.state) (l : list Z) : Prop := LruRel {
  lr_dom x : x ∈ l <-> is_Some (Lru.lastAccess_ p !! x);
  lr_sorted : StronglySorted (fun x y => Lru.stamp p y < Lru.stamp p x) l;
  lr_clock x : x ∈ l -> Lru.stamp p x <= Lru.clock_ p;
  lr_clock_pos : 0 <= Lru.clock_ p;
}.

Lemma StronglySorted_filter {A} (R : A -> A -> Prop) (P : A -> Prop) `{!forall x, Decision (P x)} l :
  StronglySorted R l -> StronglySorted R (filter P l).
Proof.
  induction 1 as [|x l Hl IH Hx]; [constructor|]. rewrite filter_cons.
  destruct (decide (P x)); [|done]. constructor; [done|].
  rewrite Forall_forall in *. intros y [_ Hy]%list_elem_of_filter. auto.
Qed.

Lemma StronglySorted_impl_in {A} (R R' : A -> A -> Prop) l :
  (forall x y, x ∈ l -> y ∈ l -> R x y -> R' x y) -> StronglySorted R l -> StronglySorted R' l.
Proof.
  induction l as [|a l IH]; intros HR Hs; [constructor|].
  apply StronglySorted_inv in Hs as [Hs Ha]. constructor.
  - apply IH; [|done]. intros; apply HR; [by right..|done].
  - rewrite Forall_forall in *. intros y Hy. apply HR; [by left|by right|auto].
Qed.

(** Stamping [id] with a fresh clock puts it in front of any list it is not in. *)
Lemma lru_rel_stamp p l id :
  StronglySorted (fun x y => Lru.stamp p y < Lru.stamp p x) l ->
  (forall x, x ∈ l -> Lru.stamp p x <= Lru.clock_ p) -> 0 <= Lru.clock_ p < u64_max -> id ∉ l ->
  (forall x, x ∈ l \/ x = id <-> is_Some (<[id := Lru.clock_ p + 1]> (Lru.lastAccess_ p) !! x)) ->
  lru_rel (Lru.mkState (wrap64 (Lru.clock_ p + 1))
             (<[id := wrap64 (Lru.clock_ p + 1)]> (Lru.lastAccess_ p))) (id :: l).
Proof.
  intros Hs Hc Hclk Hid Hdom. rewrite wrap64_small by (unfold is_u64; lia).
  assert (forall x, x ∈ l -> Lru.stamp (Lru.mkState (Lru.clock_ p + 1)
    (<[id:=Lru.clock_ p + 1]> (Lru.lastAccess_ p))) x = Lru.stamp p x) as Hold.
  { intros x Hx. unfold Lru.stamp. cbn. rewrite lookup_insert_ne; [done|]. by intros ->. }
  assert (Lru.stamp (Lru.mkState (Lru.clock_ p + 1)
    (<[id:=Lru.clock_ p + 1]> (Lru.lastAccess_ p))) id = Lru.clock_ p + 1) as Hnew.
  { unfold Lru.stamp. cbn. by rewrite lookup_insert_eq. }
  constructor; cbn [Lru.clock_ Lru.lastAccess_].
  - intros x. rewrite <- Hdom, elem_of_cons. tauto.
  - constructor.
    + revert Hs. apply StronglySorted_impl_in. intros x y Hx Hy. by rewrite !Hold.
    + rewrite Forall_forall. intros x Hx. rewrite Hold, Hnew by done. specialize (Hc x Hx). lia.
  - intros x [->|Hx]%elem_of_cons; [rewrite Hnew; lia|]. rewrite Hold by done.
    specialize (Hc x Hx). lia.
  - lia.
Qed.

Lemma lru_rel_event p l e :
  lru_rel p l -> Lru.clock_ p < u64_max -> lru_rel (impl_event p e) (spec_event l e).
Proof.
  intros [Hdom Hs Hc Hp] Hclk. destruct e as [id|id t]; cbn.
  - unfold Lru.onAccess, touch. apply lru_rel_stamp.
    + by apply StronglySorted_filter.
    + intros x [_ Hx]%list_elem_of_filter. auto.
    + lia.
    + rewrite list_elem_of_filter. tauto.
    + intros x. rewrite list_elem_of_filter, Hdom. destruct (decide (id = x)) as [->|Hne].
      * rewrite lookup_insert_eq. naive_solver.
      * rewrite lookup_insert_ne by done. naive_solver.
  - unfold Lru.onResident. destruct (Lru.lastAccess_ p !! id) eqn:Hid.
    + rewrite bool_decide_eq_true_2 by (rewrite Hdom; eauto). by constructor.
    + rewrite bool_decide_eq_false_2 by (rewrite Hdom, Hid; by intros [? ?]).
      apply lru_rel_stamp; [done..|lia|rewrite Hdom, Hid; by intros [? ?]|].
      intros x. rewrite Hdom. destruct (decide (id = x)) as [->|Hne].
      * rewrite lookup_insert_eq. naive_solver.
      * rewrite lookup_insert_ne by done. naive_solver.
Qed.

Lemma last_least {A} (R : A -> A -> Prop) l m :
  StronglySorted R l -> last l = Some m -> forall x, x ∈ l -> x = m \/ R x m.
Proof.
  induction 1 as [|a l Hl IH Ha]; [done|]. intros Hm x Hx.
  destruct l as [|b l].
  - cbn in Hm. set_solver.
  - change (last (b :: l) = Some m) in Hm. rewrite Forall_forall in Ha.
    apply elem_of_cons in Hx as [->|Hx]; [|auto].
    right. apply Ha. by apply last_Some_elem_of.
Qed.

Lemma lru_rel_victim p l t cs ex :
  lru_rel p l -> (forall c, c ∈ cs -> c ∈ l) ->
  Lru.selectVictim p t cs ex = spec_victim l cs ex.
Proof.
  intros [Hdom Hs Hc Hp] Hcs. rewrite Lru.lru_selectVictim_scan. unfold spec_victim.
  set (f := filter _ l).
  assert (forall x, x ∈ f <-> x ∈ admissible cs ex) as Hf.
  { intros x. unfold f. rewrite list_elem_of_filter, elem_of_admissible. naive_solver. }
  apply (StronglySorted_filter _ (fun x => x ∈ cs /\ x ∉ ex)) in Hs. fold f in Hs.
  destruct (scan_min (key_lt (Lru.stamp p)) (admissible cs ex)) as [v|] eqn:Hv.
  - pose proof (scan_min_elem _ _ _ Hv) as Hin. apply Hf in Hin.
    destruct (last f) as [m|] eqn:Hm; [|apply last_None in Hm; rewrite Hm in Hin; set_solver].
    destruct (last_least _ _ _ Hs Hm v Hin) as [->|Hlt]; [done|]. exfalso.
    assert (m ∈ admissible cs ex) as Hma by (by apply Hf, last_Some_elem_of).
    destruct (scan_min_least _ (fun _ => True) _ _ (key_lt_strict_total _ _) ltac:(done) Hv m Hma)
      as [->|Hk]; [lia|].
    unfold key_lt in Hk. rewrite orb_true_iff, andb_true_iff, !Z.ltb_lt, Z.eqb_eq in Hk. lia.
  - apply scan_min_None in Hv. destruct (last f) as [m|] eqn:Hm; [|done].
    apply last_Some_elem_of, Hf in Hm. rewrite Hv in Hm. set_solver.
Qed.

(** The LRU policy, clocks and maps, refines the recency list: after any
    sequence of accesses and admissions that does not exhaust the 64-bit clock,
    its victim among tracked candidates is the least recently touched one. *)
Theorem lru_refines_recency_list (trace : list lru_event) (t : MemoryTier) (cs : list Z) (ex : gset Z) :
  Z.of_nat (length trace) < u64_max ->
  let l := foldl spec_event [] trace in
  (forall c, c ∈ cs -> c ∈ l) ->
  Lru.selectVictim (foldl impl_event Lru.empty trace) t cs ex = spec_victim l cs ex.
Proof.
  intros Hlen l Hcs. apply lru_rel_victim; [|done]. unfold l.
  assert (forall p l0, lru_rel p l0 -> Lru.clock_ p + Z.of_nat (length trace) < u64_max ->
    lru_rel (foldl impl_event p trace) (foldl spec_event l0 trace)) as Hgen.
  { clear. induction trace as [|e trace IH]; intros p l0 Hrel Hclk; [done|]. cbn in *.
    apply IH; [apply lru_rel_event; [done|lia]|].
    destruct e as [id|id t]; cbn; [|unfold Lru.onResident; destruct (_ !! _); cbn; [lia|]];
      rewrite wrap64_small; unfold is_u64; destruct Hrel; lia. }
  apply Hgen; [|cbn; lia]. constructor; [|constructor|done|cbn; lia].
  intros x. cbn. rewrite lookup_empty. split; [set_solver|]. by intros [? ?].
Qed.

Lemma lru_refines_recency_list_witness :
  Lru.selectVictim (foldl impl_event Lru.empty
    [Accessed 7; Entered 5 Ram; Accessed 9; Accessed 7]) Vram [5; 7; 9] {[5]} = Some 9.
Proof.
  rewrite (lru_refines_recency_list [Accessed 7; Entered 5 Ram; Accessed 9; Accessed 7] Vram [5; 7; 9] {[5]}).
  - vm_compute. reflexivity.
  - vm_compute. reflexivity.
  - vm_compute. intros c Hc. repeat (apply elem_of_cons in Hc as [->|Hc]; [set_solver|]).
    by apply not_elem_of_nil in Hc.
Defined.
