(* ===== verification/Bytes.v ===== *)
(** * Little-endian integers and byte streams

    [writeLittleEndian] and [readLittleEndian] of [src/storage/ExpertIndex.cpp],
    on bytes held as integers below 256.  The reader is a method of the stream,
    whose state is the bytes not yet read. *)

From S2P Require Import Prelude.

Definition is_byte (b : Z) : Prop := 0 <= b < 256.

Lemma byte_u32 b : is_byte b -> is_u32 b.
Proof. unfold is_byte, is_u32, u32_max. lia. Qed.

(** [bytes[index] = (value >> (index * 8)) & 0xff] *)
Definition le_bytes (n : nat) (value : Z) : list Z :=
  (fun index => Z.land (Z.shiftr value (Z.of_nat index * 8)) 255) <$> seq 0 n.

(** [value |= bytes[index] << (index * 8)], [index] from [0] *)
Definition le_value_from (index : nat) (value : Z) (bytes : list Z) : Z * nat :=
  foldl (fun '(value, index) byte =>
    (Z.lor value (Z.shiftl byte (Z.of_nat index * 8)), S index)) (value, index) bytes.
Definition le_value (bytes : list Z) : Z := fst (le_value_from 0 0 bytes).

(** The stream: reading [n] bytes or throwing. *)
Definition read_bytes (n : nat) (e : exn) : ST (list Z) (list Z) :=
  fun input =>
    if bool_decide (n <= length input)%nat then (Ok (take n input), drop n input)
    else (Throw e, []).

Definition readLittleEndian (n : nat) : ST (list Z) Z :=
  (bytes <- read_bytes n (Exn StorageError "truncated expert index") ;;
   ret (le_value bytes))%st.

(** ** The codec is a bijection *)

(** The positional value of a byte list. *)
Fixpoint horner (bytes : list Z) : Z :=
  match bytes with [] => 0 | b :: bs => b + 256 * horner bs end.

Lemma horner_bounds bytes :
  Forall is_byte bytes -> 0 <= horner bytes < 2 ^ (8 * Z.of_nat (length bytes)).
Proof.
  induction 1 as [|b bs Hb _ IH]; [done|]. cbn [horner length].
  replace (8 * Z.of_nat (S (length bs))) with (8 + 8 * Z.of_nat (length bs)) by lia.
  rewrite Z.pow_add_r by lia. change (2 ^ 8) with 256. unfold is_byte in Hb. nia.
Qed.

Lemma le_value_from_horner bytes index value :
  Forall is_byte bytes -> 0 <= value < 2 ^ (Z.of_nat index * 8) ->
  fst (le_value_from index value bytes) = value + horner bytes * 2 ^ (Z.of_nat index * 8).
Proof.
  intros Hbs. revert index value. induction Hbs as [|b bs Hb _ IH]; intros index value Hv.
  - unfold le_value_from. cbn. lia.
  - unfold le_value_from. cbn [foldl]. change (foldl _ ?p bs) with (le_value_from (snd p) (fst p) bs).
    cbn [fst snd]. rewrite lor_add_disjoint by lia.
    assert (2 ^ (Z.of_nat (S index) * 8) = 256 * 2 ^ (Z.of_nat index * 8)) as Hp.
    { replace (Z.of_nat (S index) * 8) with (8 + Z.of_nat index * 8) by lia.
      rewrite Z.pow_add_r by lia. done. }
    unfold is_byte in Hb. rewrite IH; [|rewrite Hp; nia]. cbn [horner]. rewrite Hp. lia.
Qed.

Lemma le_value_horner bytes : Forall is_byte bytes -> le_value bytes = horner bytes.
Proof. intros H. unfold le_value. rewrite le_value_from_horner by (done || cbn; lia). cbn. lia. Qed.

Lemma le_bytes_S n v : le_bytes (S n) v = (v `mod` 256) :: le_bytes n (v / 256).
Proof.
  unfold le_bytes. cbn [seq fmap list_fmap]. f_equal.
  - change 255 with (Z.ones 8). rewrite Z.land_ones by lia. by rewrite Z.shiftr_0_r.
  - rewrite <- seq_shift, <- list_fmap_compose. apply list_fmap_ext. intros i x Hx. cbn.
    f_equal. change 256 with (2 ^ 8). rewrite <- Z.shiftr_div_pow2 by lia.
    rewrite Z.shiftr_shiftr by lia. f_equal. lia.
Qed.

Lemma length_le_bytes n v : length (le_bytes n v) = n.
Proof. unfold le_bytes. by rewrite length_fmap, length_seq. Qed.

Lemma le_bytes_bytes n v : Forall is_byte (le_bytes n v).
Proof.
  unfold le_bytes. apply Forall_fmap, Forall_true. intros i. unfold is_byte, compose.
  change 255 with (Z.ones 8). rewrite Z.land_ones by lia. apply Z.mod_pos_bound. done.
Qed.

Lemma horner_le_bytes n v : horner (le_bytes n v) = v `mod` 2 ^ (8 * Z.of_nat n).
Proof.
  revert v. induction n as [|n IH]; intros v; [cbn; by rewrite Z.mod_1_r|].
  rewrite le_bytes_S. cbn [horner]. rewrite IH.
  replace (8 * Z.of_nat (S n)) with (8 + 8 * Z.of_nat n) by lia.
  rewrite Z.pow_add_r by lia. change (2 ^ 8) with 256.
  rewrite Z.rem_mul_r by lia. done.
Qed.

Lemma le_value_le_bytes n v : 0 <= v < 2 ^ (8 * Z.of_nat n) -> le_value (le_bytes n v) = v.
Proof.
  intros Hv. rewrite le_value_horner by apply le_bytes_bytes. rewrite horner_le_bytes.
  by apply Z.mod_small.
Qed.

Lemma le_bytes_horner bytes : Forall is_byte bytes -> le_bytes (length bytes) (horner bytes) = bytes.
Proof.
  induction 1 as [|b bs Hb Hbs IH]; [done|]. cbn [length horner]. rewrite le_bytes_S.
  unfold is_byte in Hb. rewrite (Z.mul_comm 256), Z.mod_add, Z.div_add, Z.mod_small by lia.
  rewrite Z.div_small, Z.add_0_l by lia. by rewrite IH.
Qed.

Lemma le_bytes_le_value n bytes :
  Forall is_byte bytes -> length bytes = n -> le_bytes n (le_value bytes) = bytes.
Proof. intros Hb <-. rewrite le_value_horner by done. by apply le_bytes_horner. Qed.

(** Reading back what was written, with the rest of the stream untouched. *)
Lemma read_bytes_app bs rest n e :
  length bs = n -> read_bytes n e (bs ++ rest) = (Ok bs, rest).
Proof.
  intros <-. unfold read_bytes. rewrite bool_decide_eq_true_2 by (rewrite length_app; lia).
  by rewrite take_app_length, drop_app_length.
Qed.

Lemma readLittleEndian_app n v rest :
  0 <= v < 2 ^ (8 * Z.of_nat n) -> readLittleEndian n (le_bytes n v ++ rest) = (Ok v, rest).
Proof.
  intros Hv. unfold readLittleEndian, st_bind.
  rewrite read_bytes_app by apply length_le_bytes. unfold ret. by rewrite le_value_le_bytes.
Qed.

(** A successful read: what was consumed is the encoding of the value read. *)
Lemma readLittleEndian_Ok n input v rest :
  Forall is_byte input -> readLittleEndian n input = (Ok v, rest) ->
  input = le_bytes n v ++ rest /\ 0 <= v < 2 ^ (8 * Z.of_nat n) /\ Forall is_byte rest.
Proof.
  intros Hin. unfold readLittleEndian, st_bind, read_bytes.
  case_bool_decide as Hlen; [|done]. unfold ret. intros [= <- <-].
  assert (length (take n input) = n) as Hl by (rewrite length_take; lia).
  assert (Forall is_byte (take n input)) as Ht by by apply Forall_take.
  rewrite le_bytes_le_value by done. rewrite take_drop. split; [done|].
  rewrite le_value_horner by done. pose proof (horner_bounds _ Ht) as Hb. rewrite Hl in Hb.
  split; [done|by apply Forall_drop].
Qed.

(** The reader as a triple: the value is in range, the rest is still bytes. *)
Lemma wp_readLittleEndian n input Q E :
  Forall is_byte input ->
  (forall v rest, 0 <= v < 2 ^ (8 * Z.of_nat n) -> Forall is_byte rest -> Q v rest) ->
  (forall rest, E (Exn StorageError "truncated expert index") rest) ->
  wp (readLittleEndian n) input Q E.
Proof.
  intros Hin HQ HE. unfold wp. destruct (readLittleEndian n input) as [r rest] eqn:Hr.
  destruct r as [v|e|].
  - apply readLittleEndian_Ok in Hr as (_ & Hv & Hrest); auto.
  - unfold readLittleEndian, st_bind, read_bytes in Hr.
    case_bool_decide; [done|]. injection Hr as <- <-. apply HE.
  - unfold readLittleEndian, st_bind, read_bytes in Hr. by case_bool_decide.
Qed.
