(* ===== verification/ExpertIndex.v ===== *)
(** * The expert index file

    [src/storage/ExpertIndex.hpp] and [src/storage/ExpertIndex.cpp]: the binary
    index of an expert store, its validation and lookups, its writer and its
    reader.  A file is the list of its bytes; opening it and the size the file
    system reports come with it. *)

From S2P Require Import Prelude Tiers Bytes.

(** ** Records *)

Record ExpertRecord : Type := mkRecord {
  er_layer_id : Z;
  er_expert_id : Z;
  er_offset : Z;
  er_size : Z;
  er_quantization_type : Z;
  er_checksum : Z;
}.

Inductive ProjectionType : Type := Gate | Up | Down.
Definition projection_code (t : ProjectionType) : Z :=
  match t with Gate => 0 | Up => 1 | Down => 2 end.

(** The projection type is kept as its wire code: the enumeration has a fixed
    underlying type, so any 32-bit code is a value of it until it is validated. *)
Record ProjectionRecord : Type := mkProjection {
  pr_layer_id : Z;
  pr_expert_id : Z;
  pr_projection_type : Z;
  pr_dtype : Z;
  pr_rank : Z;
  pr_reserved : Z;
  pr_offset : Z;
  pr_size : Z;
  pr_shape : list Z;  (* [std::array<std::uint64_t, 4>] *)
  pr_checksum : Z;
  pr_trailing_reserved : Z;
}.

#[global] Instance ExpertRecord_eq_dec : EqDecision ExpertRecord.
Proof. solve_decision. Defined.
#[global] Instance ProjectionRecord_eq_dec : EqDecision ProjectionRecord.
Proof. solve_decision. Defined.

Record ExpertIndex : Type := mkIndex {
  records_ : list ExpertRecord;
  projections_ : list ProjectionRecord;
  lookup_ : gmap Z nat;
  projectionLookup_ : gmap Z (list Z);
}.

Definition storage_error {A} (msg : string) : result A := Throw (Exn StorageError msg).

(** ** Construction and validation *)

Definition find_in (records : list ExpertRecord) (lookup : gmap Z nat) (layerId expertId : Z)
    : option ExpertRecord :=
  match lookup !! pack_key layerId expertId with
  | None => None
  | Some index => records !! index
  end.

(** First loop of [rebuildLookup]. *)
Fixpoint rebuild_records (index : nat) (records : list ExpertRecord) (lookup : gmap Z nat)
    : result (gmap Z nat) :=
  match records with
  | [] => Ok lookup
  | record :: rest =>
      if (er_size record =? 0) || negb (quantization_isValid (er_quantization_type record)) then
        storage_error "expert index contains an invalid size or quantization code"
      else if u64_max - er_size record <? er_offset record then
        storage_error "expert index record range overflows"
      else
        let k := pack_key (er_layer_id record) (er_expert_id record) in
        match lookup !! k with
        | Some _ => storage_error "expert index contains a duplicate layer/expert key"
        | None => rebuild_records (S index) rest (<[k := index]> lookup)
        end
  end.

(** The product of the declared dimensions, with its overflow check. *)
Fixpoint shape_elements (dimensions : list Z) (elements : Z) : result Z :=
  match dimensions with
  | [] => Ok elements
  | d :: rest =>
      if d =? 0 then storage_error "projection record contains a zero dimension"
      else if u64_max / d <? elements then storage_error "projection shape size overflows"
      else shape_elements rest (elements * d)
  end.

Definition absent_positions : list Z := [u64_max; u64_max; u64_max].

(** The body of the second loop of [rebuildLookup]. *)
Definition rebuild_projection (records : list ExpertRecord) (lookup : gmap Z nat)
    (projectionIndex : nat) (projection : ProjectionRecord) (plookup : gmap Z (list Z))
    : result (gmap Z (list Z)) :=
  if (pr_size projection =? 0) || (pr_rank projection =? 0) || (4 <? pr_rank projection) ||
     negb (dtype_isValid (pr_dtype projection)) ||
     negb (pr_reserved projection =? 0) || negb (pr_trailing_reserved projection =? 0) ||
     (projection_code Down <? pr_projection_type projection)
  then storage_error "expert index contains an invalid projection record"
  else
    match find_in records lookup (pr_layer_id projection) (pr_expert_id projection) with
    | None => storage_error "projection record escapes its expert payload"
    | Some expert =>
        if (pr_offset projection <? er_offset expert) ||
           (u64_max - pr_size projection <? pr_offset projection) ||
           (er_offset expert + er_size expert <? pr_offset projection + pr_size projection)
        then storage_error "projection record escapes its expert payload"
        else
          let identity := pack_key (pr_layer_id projection) (pr_expert_id projection) in
          let found := default absent_positions (plookup !! identity) in
          let slot := Z.to_nat (pr_projection_type projection) in
          if negb (default u64_max (found !! slot) =? u64_max)
          then storage_error "expert index contains a duplicate projection record"
          else
            let rank := Z.to_nat (pr_rank projection) in
            (elements <-? shape_elements (take rank (pr_shape projection)) 1 ;;
             if existsb (fun d => negb (d =? 0)) (drop rank (pr_shape projection))
             then storage_error "projection has dimensions beyond its declared rank"
             else
               let elementBytes := dtype_sizeOf_code (pr_dtype projection) in
               if (u64_max / elementBytes <? elements) ||
                  negb (wrap64 (elements * elementBytes) =? pr_size projection)
               then storage_error "projection shape and dtype do not match its size"
               else Ok (<[identity := <[slot := Z.of_nat projectionIndex]> found]> plookup))%res
    end.

Fixpoint rebuild_projections (records : list ExpertRecord) (lookup : gmap Z nat)
    (projectionIndex : nat) (projections : list ProjectionRecord) (plookup : gmap Z (list Z))
    : result (gmap Z (list Z)) :=
  match projections with
  | [] => Ok plookup
  | projection :: rest =>
      (plookup' <-? rebuild_projection records lookup projectionIndex projection plookup ;;
       rebuild_projections records lookup (S projectionIndex) rest plookup')%res
  end.

(** The constructor: [rebuildLookup] on the two vectors. *)
Definition make (records : list ExpertRecord) (projections : list ProjectionRecord)
    : result ExpertIndex :=
  (lookup <-? rebuild_records 0 records ∅ ;;
   plookup <-? rebuild_projections records lookup 0 projections ∅ ;;
   Ok (mkIndex records projections lookup plookup))%res.

Definition find (ix : ExpertIndex) (layerId expertId : Z) : option ExpertRecord :=
  find_in (records_ ix) (lookup_ ix) layerId expertId.

Definition findProjection (ix : ExpertIndex) (layerId expertId : Z) (type : ProjectionType)
    : option ProjectionRecord :=
  match projectionLookup_ ix !! pack_key layerId expertId with
  | None => None
  | Some found =>
      match found !! Z.to_nat (projection_code type) with
      | None => None
      | Some position =>
          if position =? u64_max then None else projections_ ix !! Z.to_nat position
      end
  end.

(** ** Writing *)

(** ['H','M','O','E','I','D','X','\0'] *)
Definition kMagic : list Z := [72; 77; 79; 69; 73; 68; 88; 0].
Definition kEndianMarker : Z := 16909060.
Definition kHeaderSize : Z := 32.
Definition serializedRecordSize : Z := 32.
Definition serializedProjectionRecordSize : Z := 80.
Definition legacyFormatVersion : Z := 1.
Definition formatVersion : Z := 2.

Definition save_record (record : ExpertRecord) : list Z :=
  le_bytes 4 (er_layer_id record) ++ le_bytes 4 (er_expert_id record) ++
  le_bytes 8 (er_offset record) ++ le_bytes 8 (er_size record) ++
  le_bytes 4 (er_quantization_type record) ++ le_bytes 4 (er_checksum record).

Definition save_projection (record : ProjectionRecord) : list Z :=
  le_bytes 4 (pr_layer_id record) ++ le_bytes 4 (pr_expert_id record) ++
  le_bytes 4 (pr_projection_type record) ++ le_bytes 4 (pr_dtype record) ++
  le_bytes 4 (pr_rank record) ++ le_bytes 4 (pr_reserved record) ++
  le_bytes 8 (pr_offset record) ++ le_bytes 8 (pr_size record) ++
  (pr_shape record ≫= le_bytes 8) ++
  le_bytes 4 (pr_checksum record) ++ le_bytes 4 (pr_trailing_reserved record).

(** The bytes [save] writes. *)
Definition save (ix : ExpertIndex) : list Z :=
  kMagic ++
  le_bytes 4 (if bool_decide (projections_ ix = []) then legacyFormatVersion else formatVersion) ++
  le_bytes 4 kEndianMarker ++
  le_bytes 4 serializedRecordSize ++
  le_bytes 4 (if bool_decide (projections_ ix = []) then 0 else serializedProjectionRecordSize) ++
  le_bytes 8 (Z.of_nat (length (records_ ix))) ++
  (records_ ix ≫= save_record) ++
  (if bool_decide (projections_ ix = []) then []
   else le_bytes 8 (Z.of_nat (length (projections_ ix))) ++ (projections_ ix ≫= save_projection)).

(** ** Reading *)

Fixpoint read_many {A} (n : nat) (read : ST (list Z) A) : ST (list Z) (list A) :=
  match n with
  | O => ret []
  | S n => (x <- read ;; xs <- read_many n read ;; ret (x :: xs))%st
  end.

Definition read_record : ST (list Z) ExpertRecord :=
  (layer <- readLittleEndian 4 ;; expert <- readLittleEndian 4 ;;
   offset <- readLittleEndian 8 ;; size <- readLittleEndian 8 ;;
   quantization <- readLittleEndian 4 ;; checksum <- readLittleEndian 4 ;;
   ret (mkRecord layer expert offset size quantization checksum))%st.

Definition read_projection : ST (list Z) ProjectionRecord :=
  (layer <- readLittleEndian 4 ;; expert <- readLittleEndian 4 ;;
   type <- readLittleEndian 4 ;; dtype <- readLittleEndian 4 ;;
   rank <- readLittleEndian 4 ;; reserved <- readLittleEndian 4 ;;
   offset <- readLittleEndian 8 ;; size <- readLittleEndian 8 ;;
   shape <- read_many 4 (readLittleEndian 8) ;;
   checksum <- readLittleEndian 4 ;; trailing <- readLittleEndian 4 ;;
   ret (mkProjection layer expert type dtype rank reserved offset size shape checksum trailing))%st.

Definition streamsize_max : Z := 9223372036854775807.
Definition size_mismatch : exn :=
  Exn StorageError "expert index size does not match its record count".
Definition projection_size_invalid : exn :=
  Exn StorageError "expert projection index size is invalid".

Definition load_projections (fileSize baseSize version : Z) : ST (list Z) (list ProjectionRecord) :=
  if version =? formatVersion then
    (projectionCount <- readLittleEndian 8 ;;
     lift (throw_if (u64_max - 8 <? baseSize) projection_size_invalid) ;;;
     let projectionBase := baseSize + 8 in
     lift (throw_if
       ((u64_max <? projectionCount) ||
        ((u64_max - projectionBase) / serializedProjectionRecordSize <? projectionCount) ||
        negb (fileSize =? wrap64 (projectionBase +
                                  projectionCount * serializedProjectionRecordSize)))
       projection_size_invalid) ;;;
     read_many (Z.to_nat projectionCount) read_projection)%st
  else ret [].

Definition load_stream (path : string) (fileSize : Z) : ST (list Z) ExpertIndex :=
  (magic <- read_bytes 8 (Exn StorageError ("invalid expert index magic: " +:+ path)) ;;
   lift (throw_if (negb (bool_decide (magic = kMagic)))
     (Exn StorageError ("invalid expert index magic: " +:+ path))) ;;;
   version <- readLittleEndian 4 ;;
   endian <- readLittleEndian 4 ;;
   recordSize <- readLittleEndian 4 ;;
   extensionRecordSize <- readLittleEndian 4 ;;
   count <- readLittleEndian 8 ;;
   lift (throw_if (negb (version =? legacyFormatVersion) && negb (version =? formatVersion))
     (Exn StorageError "unsupported expert index version")) ;;;
   lift (throw_if (negb (endian =? kEndianMarker))
     (Exn StorageError "invalid expert index endian marker")) ;;;
   lift (throw_if (negb (recordSize =? serializedRecordSize) ||
                   ((version =? legacyFormatVersion) && negb (extensionRecordSize =? 0)) ||
                   ((version =? formatVersion) &&
                    negb (extensionRecordSize =? serializedProjectionRecordSize)))
     (Exn StorageError "unsupported expert index record size")) ;;;
   lift (throw_if ((u64_max <? count) || (streamsize_max / serializedRecordSize <? count))
     (Exn StorageError "expert index record count is too large")) ;;;
   lift (throw_if ((u64_max - kHeaderSize) / serializedRecordSize <? count) size_mismatch) ;;;
   let baseSize := wrap64 (kHeaderSize + count * serializedRecordSize) in
   lift (throw_if ((fileSize <? baseSize) ||
                   ((version =? legacyFormatVersion) && negb (fileSize =? baseSize)))
     size_mismatch) ;;;
   records <- read_many (Z.to_nat count) read_record ;;
   projections <- load_projections fileSize baseSize version ;;
   rest <- st_get ;;
   lift (throw_if (negb (bool_decide (rest = [])))
     (Exn StorageError "expert index contains trailing data")) ;;;
   lift (make records projections))%st.

(** [ExpertIndex::load]: [None] is a path that cannot be opened. *)
Definition load (path : string) (file : option (list Z)) : result ExpertIndex :=
  match file with
  | None => Throw (Exn StorageError ("cannot open expert index: " +:+ path))
  | Some bytes => fst (load_stream path (Z.of_nat (length bytes)) bytes)
  end.

(** ** Round trip *)

Definition record_wf (r : ExpertRecord) : Prop :=
  is_u32 (er_layer_id r) /\ is_u32 (er_expert_id r) /\ is_u64 (er_offset r) /\
  is_u64 (er_size r) /\ is_u32 (er_quantization_type r) /\ is_u32 (er_checksum r).

Definition projection_wf (r : ProjectionRecord) : Prop :=
  is_u32 (pr_layer_id r) /\ is_u32 (pr_expert_id r) /\ is_u32 (pr_projection_type r) /\
  is_u32 (pr_dtype r) /\ is_u32 (pr_rank r) /\ is_u32 (pr_reserved r) /\
  is_u64 (pr_offset r) /\ is_u64 (pr_size r) /\
  length (pr_shape r) = 4%nat /\ Forall is_u64 (pr_shape r) /\
  is_u32 (pr_checksum r) /\ is_u32 (pr_trailing_reserved r).

Lemma st_bind_run {S A B} (m : ST S A) (k : A -> ST S B) s a s' :
  m s = (Ok a, s') -> st_bind m k s = k a s'.
Proof. unfold st_bind. by intros ->. Qed.

Lemma throw_if_run {S B} c e (k : unit -> ST S B) s :
  c = false -> st_bind (lift (throw_if c e)) k s = k tt s.
Proof. by intros ->. Qed.

(** Symbolic execution of the reader on a written stream. *)
Ltac read_step :=
  erewrite st_bind_run;
  [|apply readLittleEndian_app; unfold is_u32, u32_max, is_u64, u64_max in *; cbn; lia]; cbn beta.

Lemma read_many_app {A} (read : ST (list Z) A) (save : A -> list Z) xs rest :
  (forall x rest, x ∈ xs -> read (save x ++ rest) = (Ok x, rest)) ->
  read_many (length xs) read ((xs ≫= save) ++ rest) = (Ok xs, rest).
Proof.
  induction xs as [|x xs IH]; intros Hx; [done|].
  cbn [length read_many mbind list_bind]. rewrite <- app_assoc.
  erewrite st_bind_run by (apply Hx; by left). cbn beta.
  erewrite st_bind_run; [done|]. apply IH. intros; apply Hx. by right.
Qed.

Lemma read_record_save r rest : record_wf r -> read_record (save_record r ++ rest) = (Ok r, rest).
Proof.
  intros (?&?&?&?&?&?). unfold read_record, save_record. rewrite <- !app_assoc.
  repeat read_step. by destruct r.
Qed.

Lemma read_projection_save r rest :
  projection_wf r -> read_projection (save_projection r ++ rest) = (Ok r, rest).
Proof.
  intros (?&?&?&?&?&?&?&?&Hlen&Hshape&?&?). unfold read_projection, save_projection.
  rewrite <- !app_assoc. do 8 read_step.
  erewrite st_bind_run; cbn beta.
  2: { pose proof (read_many_app (readLittleEndian 8) (le_bytes 8) (pr_shape r)) as Hm.
       rewrite Hlen in Hm. apply Hm. intros d ? Hd. rewrite Forall_forall in Hshape.
       specialize (Hshape d Hd). apply readLittleEndian_app.
       unfold is_u64, u64_max in Hshape. cbn. lia. }
  repeat read_step. by destruct r.
Qed.

Lemma length_bind_const {A B} (f : A -> list B) n xs :
  (forall x, x ∈ xs -> length (f x) = n) -> length (xs ≫= f) = (n * length xs)%nat.
Proof.
  induction xs as [|x xs IH]; intros Hx; [cbn; lia|]. cbn [mbind list_bind length].
  rewrite length_app, Hx by by left. rewrite IH by (intros; apply Hx; by right). lia.
Qed.

Lemma length_save_record r : length (save_record r) = 32%nat.
Proof. unfold save_record. by rewrite !length_app, !length_le_bytes. Qed.

Lemma length_save_projection r :
  length (pr_shape r) = 4%nat -> length (save_projection r) = 80%nat.
Proof.
  intros Hs. unfold save_projection. rewrite !length_app, !length_le_bytes.
  rewrite (length_bind_const _ 8), Hs by (intros; apply length_le_bytes). done.
Qed.

Lemma length_save ix :
  Forall projection_wf (projections_ ix) ->
  length (save ix) = (32 + 32 * length (records_ ix) +
    if bool_decide (projections_ ix = []) then 0 else 8 + 80 * length (projections_ ix))%nat.
Proof.
  intros Hp. unfold save. rewrite !length_app, !length_le_bytes.
  rewrite (length_bind_const save_record 32) by (intros; apply length_save_record).
  case_bool_decide; [cbn; lia|]. rewrite length_app, length_le_bytes.
  rewrite (length_bind_const save_projection 80); [cbn; lia|].
  intros x Hx. rewrite Forall_forall in Hp. apply length_save_projection. by apply Hp.
Qed.

Lemma wrap64_id z : 0 <= z <= u64_max -> wrap64 z = z.
Proof. apply wrap64_small. Qed.

Lemma load_projections_save fileSize baseSize ps rest :
  ps <> [] -> Forall projection_wf ps ->
  fileSize = baseSize + 8 + 80 * Z.of_nat (length ps) -> 0 <= baseSize -> fileSize <= u64_max ->
  load_projections fileSize baseSize formatVersion
    (le_bytes 8 (Z.of_nat (length ps)) ++ (ps ≫= save_projection) ++ rest) = (Ok ps, rest).
Proof.
  intros Hne Hwf Hsize Hb Hmax. unfold load_projections, formatVersion.
  cbn [Z.eqb Pos.eqb]. unfold serializedProjectionRecordSize.
  read_step. rewrite throw_if_run by lia.
  rewrite throw_if_run.
  - rewrite Nat2Z.id. apply read_many_app. intros x r Hx. apply read_projection_save.
    rewrite Forall_forall in Hwf. auto.
  - rewrite wrap64_id by lia.
    assert (Z.of_nat (length ps) <= (u64_max - (baseSize + 8)) / 80) by (apply Z.div_le_lower_bound; lia).
    rewrite !orb_false_iff, !Z.ltb_ge, negb_false_iff, Z.eqb_eq. lia.
Qed.

(** The size of the file fits the limits the reader checks. *)
Definition index_fits (ix : ExpertIndex) : Prop :=
  Z.of_nat (length (save ix)) <= streamsize_max.

Lemma load_save (path : string) (records : list ExpertRecord)
    (projections : list ProjectionRecord) (ix : ExpertIndex) :
  make records projections = Ok ix ->
  Forall record_wf records -> Forall projection_wf projections -> index_fits ix ->
  load path (Some (save ix)) = Ok ix.
Proof.
  intros Hmake Hr Hp Hfits.
  assert (records_ ix = records /\ projections_ ix = projections) as [Hre Hpe].
  { unfold make in Hmake. destruct (rebuild_records _ _ _); [|done..]. cbn in Hmake.
    destruct (rebuild_projections _ _ _ _ _); [|done..]. cbn in Hmake. by simplify_eq. }
  unfold index_fits in Hfits. unfold load. pose proof (length_save ix) as Hlen.
  rewrite Hpe in Hlen. specialize (Hlen Hp). rewrite Hre in Hlen. rewrite Hlen in *.
  unfold save. rewrite Hre, Hpe. unfold load_stream.
  erewrite st_bind_run by by apply read_bytes_app. cbn beta.
  rewrite throw_if_run by by vm_compute.
  assert (Z.of_nat (length records) <= 288230376151711743) as Hn.
  { unfold streamsize_max in Hfits. case_bool_decide; lia. }
  unfold serializedRecordSize, legacyFormatVersion, formatVersion, kHeaderSize, kEndianMarker,
    serializedProjectionRecordSize, streamsize_max in *.
  erewrite st_bind_run by (apply readLittleEndian_app; case_bool_decide; cbn; lia). cbn beta.
  erewrite st_bind_run by (apply readLittleEndian_app; cbn; lia). cbn beta.
  erewrite st_bind_run by (apply readLittleEndian_app; cbn; lia). cbn beta.
  erewrite st_bind_run by (apply readLittleEndian_app; case_bool_decide; cbn; lia). cbn beta.
  erewrite st_bind_run by (apply readLittleEndian_app; cbn; lia). cbn beta.
  rewrite throw_if_run by (by case_bool_decide). rewrite throw_if_run by done.
  rewrite throw_if_run by (by case_bool_decide).
  rewrite throw_if_run.
  2: { change (9223372036854775807 / 32) with 288230376151711743.
       rewrite orb_false_iff, !Z.ltb_ge. unfold u64_max. lia. }
  rewrite throw_if_run.
  2: { change ((u64_max - 32) / 32) with 576460752303423486. rewrite Z.ltb_ge. lia. }
  rewrite wrap64_id by (unfold u64_max; lia).
  rewrite throw_if_run.
  2: { case_bool_decide; cbn [Z.eqb Pos.eqb andb];
         rewrite orb_false_iff, Z.ltb_ge, ?negb_false_iff, ?Z.eqb_eq; split; done || lia. }
  rewrite Nat2Z.id. erewrite st_bind_run; cbn beta.
  2: { apply read_many_app. intros x ? Hx. apply read_record_save. rewrite Forall_forall in Hr. auto. }
  erewrite (st_bind_run _ _ _ projections []); cbn beta.
  - by rewrite Hmake.
  - case_bool_decide as Hnil; [by rewrite Hnil|].
    rewrite <- (app_nil_r (_ ≫= _)). apply load_projections_save; [done..| | |]; unfold u64_max; lia.
Qed.

(** An index that was built from in-range records is read back from the bytes
    [save] writes: same records, same projections, same lookup tables. *)
Theorem index_roundtrip (path : string) (records : list ExpertRecord)
    (projections : list ProjectionRecord) (ix : ExpertIndex) :
  make records projections = Ok ix ->
  Forall record_wf records -> Forall projection_wf projections -> index_fits ix ->
  load path (Some (save ix)) = Ok ix.
Proof. apply load_save. Qed.

Definition sample_record : ExpertRecord := mkRecord 1 2 4096 64 1 305419896.
Definition sample_projection : ProjectionRecord :=
  mkProjection 1 2 0 0 2 0 4096 24 [2; 3; 0; 0] 7 0.

Lemma index_roundtrip_witness :
  exists ix, make [sample_record] [sample_projection] = Ok ix /\
    load "experts.idx" (Some (save ix)) = Ok ix.
Proof.
  destruct (make [sample_record] [sample_projection]) as [ix|e|] eqn:Hmake;
    [|vm_compute in Hmake; discriminate Hmake..].
  exists ix. split; [reflexivity|].
  apply (index_roundtrip "experts.idx" [sample_record] [sample_projection] ix Hmake).
  - repeat constructor; discriminate.
  - repeat constructor; discriminate.
  - vm_compute in Hmake. injection Hmake as <-. vm_compute. discriminate.
Defined.

(** ** What the validated index promises *)

Lemma res_bind_Ok {A B} (m : result A) (k : A -> result B) b :
  res_bind m k = Ok b -> exists a, m = Ok a /\ k a = Ok b.
Proof. destruct m; cbn; naive_solver. Qed.

Lemma make_Ok records projections ix :
  make records projections = Ok ix ->
  rebuild_records 0 records ∅ = Ok (lookup_ ix) /\
  rebuild_projections records (lookup_ ix) 0 projections ∅ = Ok (projectionLookup_ ix) /\
  records_ ix = records /\ projections_ ix = projections.
Proof.
  unfold make. intros (lookup & H1 & H2)%res_bind_Ok. apply res_bind_Ok in H2 as (pl & H2 & H3).
  by simplify_eq/=.
Qed.

(** Validation either accepts or raises [StorageError]. *)
Definition storage_only {A} (r : result A) : Prop :=
  match r with Ok _ => True | Throw e => kind_of e = StorageError | Diverge => False end.

Lemma storage_only_bind {A B} (m : result A) (k : A -> result B) :
  storage_only m -> (forall a, storage_only (k a)) -> storage_only (res_bind m k).
Proof. destruct m; cbn; auto. Qed.

Lemma rebuild_records_storage n rs lookup : storage_only (rebuild_records n rs lookup).
Proof.
  revert n lookup. induction rs as [|r rs IH]; intros n lookup; [done|]. cbn.
  repeat (case_goal; try done).
Qed.

Lemma shape_elements_storage dims e : storage_only (shape_elements dims e).
Proof. revert e. induction dims as [|d dims IH]; intros e; cbn; [done|]. repeat (case_goal; try done). Qed.

Lemma rebuild_projections_storage rs lookup n ps pl :
  storage_only (rebuild_projections rs lookup n ps pl).
Proof.
  revert n pl. induction ps as [|p ps IH]; intros n pl; [done|]. cbn.
  apply storage_only_bind; [|auto]. unfold rebuild_projection.
  case_goal; [done|]. case_goal; [|done]. case_goal; [done|]. case_goal; [done|].
  apply storage_only_bind; [apply shape_elements_storage|]. intros n'.
  repeat (case_goal; try done).
Qed.

Lemma make_storage rs ps : storage_only (make rs ps).
Proof.
  unfold make. apply storage_only_bind; [apply rebuild_records_storage|]. intros lookup.
  apply storage_only_bind; [apply rebuild_projections_storage|done].
Qed.

Definition record_key (r : ExpertRecord) : Z := pack_key (er_layer_id r) (er_expert_id r).
Definition projection_key (p : ProjectionRecord) : Z := pack_key (pr_layer_id p) (pr_expert_id p).

(** The lookup table lists exactly the positions scanned so far, under their own keys. *)
Definition lookup_inv (done : list ExpertRecord) (lookup : gmap Z nat) : Prop :=
  forall k i, lookup !! k = Some i <-> exists r, done !! i = Some r /\ record_key r = k.

Lemma rebuild_records_inv done records lookup lookup' :
  lookup_inv done lookup ->
  rebuild_records (length done) records lookup = Ok lookup' ->
  lookup_inv (done ++ records) lookup' /\
  Forall (fun r => 0 < er_size r \/ er_size r < 0) records /\
  Forall (fun r => er_offset r + er_size r <= u64_max) records /\
  Forall (fun r => quantization_isValid (er_quantization_type r) = true) records.
Proof.
  revert done lookup. induction records as [|r records IH]; intros done lookup Hinv; cbn.
  - intros [= <-]. by rewrite app_nil_r.
  - destruct (er_size r =? 0) eqn:Hs; [done|].
    destruct (quantization_isValid (er_quantization_type r)) eqn:Hq; [|done]. cbn.
    destruct (Z.ltb_spec (u64_max - er_size r) (er_offset r)) as [|Ho]; [done|].
    change (pack_key (er_layer_id r) (er_expert_id r)) with (record_key r).
    destruct (lookup !! record_key r) eqn:Hl; [done|]. intros Hrest.
    specialize (IH (done ++ [r]) (<[record_key r := length done]> lookup)).
    rewrite length_app in IH. cbn in IH. rewrite Nat.add_1_r in IH.
    rewrite <- app_assoc in IH. destruct IH as (H1 & H2 & H3 & H4); [|done|].
    + intros k i. destruct (decide (k = record_key r)) as [->|Hne].
      * rewrite lookup_insert_eq. split.
        -- intros [= <-]. exists r. rewrite lookup_app_r, Nat.sub_diag by lia. done.
        -- intros (r' & Hr' & Hk). apply lookup_app_Some in Hr' as [Hr'|[Hge Hr']].
           ++ assert (lookup !! record_key r = Some i) by (apply Hinv; eauto). congruence.
           ++ destruct (i - length done)%nat eqn:Hi; [|done]. f_equal. lia.
      * rewrite lookup_insert_ne by done. rewrite (Hinv k i). split.
        -- intros (r' & Hr' & Hk). exists r'. split; [by apply lookup_app_l_Some|done].
        -- intros (r' & Hr' & Hk). apply lookup_app_Some in Hr' as [Hr'|[Hge Hr']]; [eauto|].
           destruct (i - length done)%nat eqn:Hi; [|done]. simplify_eq/=.
    + split; [done|]. repeat split; constructor; try done. apply Z.eqb_neq in Hs. lia. lia.
Qed.

Lemma make_lookup_inv records projections ix :
  make records projections = Ok ix -> lookup_inv records (lookup_ ix).
Proof.
  intros (H & _)%make_Ok. apply (rebuild_records_inv []) in H as [H _]; [done|].
  intros k i. rewrite lookup_empty. split; [done|]. intros (? & ? & _). done.
Qed.

Lemma find_iff (records : list ExpertRecord) (projections : list ProjectionRecord)
    (ix : ExpertIndex) (layerId expertId : Z) (r : ExpertRecord) :
  make records projections = Ok ix -> Forall record_wf records -> is_u32 expertId ->
  find ix layerId expertId = Some r <->
  r ∈ records_ ix /\ er_layer_id r = layerId /\ er_expert_id r = expertId.
Proof.
  intros Hmake Hwf He. pose proof (make_lookup_inv _ _ _ Hmake) as Hinv.
  apply make_Ok in Hmake as (_ & _ & Hrec & _). rewrite Forall_forall in Hwf.
  unfold find, find_in. rewrite Hrec. split.
  - destruct (lookup_ ix !! _) as [i|] eqn:Hl; [|done]. intros Hr.
    apply Hinv in Hl as (r' & Hr' & Hk). rewrite Hr in Hr'. injection Hr' as <-.
    assert (r ∈ records) as Hin by (eapply list_elem_of_lookup_2; eassumption).
    split; [done|]. destruct (Hwf r Hin) as (_ & Hl2 & _). exact (pack_key_inj _ _ _ _ Hl2 He Hk).
  - intros (Hin & <- & <-). apply list_elem_of_lookup_1 in Hin as [i Hi].
    assert (lookup_ ix !! record_key r = Some i) as Hl by (apply Hinv; eauto).
    unfold record_key in Hl. by rewrite Hl.
Qed.

(** [find] is a correct lookup: it returns the record stored under the two
    identifiers, and nothing when there is none; in particular the identifiers of
    a validated index are unique. *)
Theorem find_correct (records : list ExpertRecord) (projections : list ProjectionRecord)
    (ix : ExpertIndex) (layerId expertId : Z) (r : ExpertRecord) :
  make records projections = Ok ix -> Forall record_wf records -> is_u32 expertId ->
  find ix layerId expertId = Some r <->
  r ∈ records_ ix /\ er_layer_id r = layerId /\ er_expert_id r = expertId.
Proof. apply find_iff. Qed.

Lemma find_correct_witness :
  exists ix, make [sample_record] [sample_projection] = Ok ix /\
    find ix 1 2 = Some sample_record.
Proof.
  destruct (make [sample_record] [sample_projection]) as [ix|e|] eqn:Hmake;
    [|vm_compute in Hmake; discriminate Hmake..].
  exists ix. split; [reflexivity|].
  apply (find_correct [sample_record] [sample_projection] ix 1 2 sample_record Hmake).
  - repeat constructor; discriminate.
  - split; discriminate.
  - vm_compute in Hmake. injection Hmake as <-. split; [left|split; reflexivity].
Defined.

(** *** Projections *)

(** The number of elements [rank] dimensions declare. *)
Definition dims_product (dims : list Z) : Z := foldr Z.mul 1 dims.

Lemma mul_le_of_div a b m : 0 < b -> a <= m / b -> a * b <= m.
Proof.
  intros Hb Ha. apply Z.le_trans with (m / b * b); [by apply Z.mul_le_mono_pos_r|].
  rewrite Z.mul_comm. by apply Z.mul_div_le.
Qed.

Lemma existsb_nonzero_false ds :
  existsb (fun d => negb (d =? 0)) ds = false -> Forall (fun d => d = 0) ds.
Proof.
  induction ds as [|d ds IH]; cbn; [done|]. rewrite orb_false_iff, negb_false_iff, Z.eqb_eq.
  intros [? ?]. constructor; auto.
Qed.

Lemma shape_elements_Ok dims e n :
  0 <= e -> Forall is_u64 dims -> shape_elements dims e = Ok n ->
  n = e * dims_product dims /\ Forall (fun d => 0 < d) dims /\ (e <= u64_max -> 0 <= n <= u64_max).
Proof.
  intros He Hd. revert e He. induction Hd as [|d dims Hd _ IH]; intros e He; cbn.
  - intros [= <-]. split; [lia|split; [constructor|lia]].
  - unfold is_u64 in Hd. destruct (Z.eqb_spec d 0) as [|Hnz]; [done|].
    destruct (Z.ltb_spec (u64_max / d) e) as [|Hle]; [done|]. intros H.
    assert (e * d <= u64_max) as Hm by (apply mul_le_of_div; lia || done).
    apply IH in H as (Hn & Hp & Hb); [|nia]. split; [by rewrite Z.mul_assoc|split; [constructor; [lia|done]|]].
    intros _. by apply Hb.
Qed.

(** What the body of the validation loop establishes of a projection it accepts. *)
Definition projection_fits (r : ExpertRecord) (p : ProjectionRecord) : Prop :=
  er_offset r <= pr_offset p /\
  pr_offset p + pr_size p <= er_offset r + er_size r /\
  0 < pr_size p /\
  1 <= pr_rank p <= 4 /\
  pr_size p = dims_product (take (Z.to_nat (pr_rank p)) (pr_shape p)) *
              dtype_sizeOf_code (pr_dtype p) /\
  Forall (fun d => d = 0) (drop (Z.to_nat (pr_rank p)) (pr_shape p)).

Lemma rebuild_projection_Ok records lookup i p pl pl' :
  projection_wf p ->
  rebuild_projection records lookup i p pl = Ok pl' ->
  0 <= pr_projection_type p <= 2 /\
  (exists r, find_in records lookup (pr_layer_id p) (pr_expert_id p) = Some r /\
             projection_fits r p) /\
  let found := default absent_positions (pl !! projection_key p) in
  let slot := Z.to_nat (pr_projection_type p) in
  default u64_max (found !! slot) = u64_max /\
  pl' = <[projection_key p := <[slot := Z.of_nat i]> found]> pl.
Proof.
  intros (_&_&Ht&_&Hk&_&Ho&Hs&Hlen&Hsh&_) H. unfold rebuild_projection in H.
  repeat match type of H with
    | (if ?c then _ else _) = _ => destruct c eqn:?; [done|]
    | match ?m with None => _ | Some _ => _ end = _ => destruct m as [r|] eqn:?; [|done]
    end.
  apply res_bind_Ok in H as (n & Hn & H).
  repeat match type of H with (if ?c then _ else _) = _ => destruct c eqn:?; [done|] end.
  apply shape_elements_Ok in Hn as (Hn & Hpos & Hb); [|done|by apply Forall_take].
  rewrite !orb_false_iff, ?Z.ltb_ge, ?Z.eqb_neq, ?negb_false_iff in *.
  unfold is_u32, is_u64 in *. cbn in *. split; [lia|]. split.
  - exists r. split; [done|]. destruct Heqb3 as [Hmul Hw].
    destruct Heqb as ((((((H1 & H2) & H3) & Hd) & _) & _) & _).
    apply dtype_sizeOf_code_bounds in Hd. apply Z.eqb_eq in Hw.
    apply mul_le_of_div in Hmul; [|lia..].
    rewrite wrap64_small in Hw by (unfold is_u64, u64_max in *; nia).
    unfold projection_fits. rewrite <- Hw, Hn. repeat split; try lia.
    by apply existsb_nonzero_false.
  - injection H as <-. split; [by apply Z.eqb_eq|done].
Qed.

(** The projection table lists exactly the positions scanned so far, each in the slot of its type. *)
Definition slot_entry (done : list ProjectionRecord) (k : Z) (slot : nat) (v : Z) : Prop :=
  exists i p, v = Z.of_nat i /\ done !! i = Some p /\
              projection_key p = k /\ Z.to_nat (pr_projection_type p) = slot.

Definition plookup_inv (done : list ProjectionRecord) (pl : gmap Z (list Z)) : Prop :=
  (forall k found, pl !! k = Some found -> length found = 3%nat /\
     forall slot v, found !! slot = Some v -> v = u64_max \/ slot_entry done k slot v) /\
  (forall i p, done !! i = Some p ->
     exists found, pl !! projection_key p = Some found /\
                   found !! Z.to_nat (pr_projection_type p) = Some (Z.of_nat i)).

Lemma slot_entry_app done p k slot v : slot_entry done k slot v -> slot_entry (done ++ [p]) k slot v.
Proof. intros (i & q & ? & ? & ? & ?). exists i, q. split_and!; auto using lookup_app_l_Some. Qed.

Lemma absent_lookup slot v : absent_positions !! slot = Some v -> v = u64_max.
Proof. do 3 (destruct slot as [|slot]; [by intros [= <-]|]). done. Qed.

Lemma plookup_inv_insert done p pl :
  plookup_inv done pl -> Z.of_nat (length done) < u64_max -> 0 <= pr_projection_type p <= 2 ->
  let found := default absent_positions (pl !! projection_key p) in
  let slot := Z.to_nat (pr_projection_type p) in
  default u64_max (found !! slot) = u64_max ->
  plookup_inv (done ++ [p]) (<[projection_key p := <[slot := Z.of_nat (length done)]> found]> pl).
Proof.
  intros [Hinv1 Hinv2] Hn Ht found slot Hfree.
  assert (length found = 3%nat /\ forall s v, found !! s = Some v -> v = u64_max \/
            slot_entry done (projection_key p) s v) as [Hlen Hfound].
  { unfold found. destruct (pl !! projection_key p) eqn:Hl; cbn; [by apply Hinv1|].
    split; [done|]. intros s v ?%absent_lookup. by left. }
  assert (slot < length found)%nat as Hslot by lia.
  split.
  - intros k f Hk. apply lookup_insert_Some in Hk as [[<- <-]|[Hne Hk]].
    + rewrite length_insert. split; [done|]. intros s v Hs.
      apply list_lookup_insert_Some in Hs as [(<- & Hv & _)|[_ Hs]].
      * right. exists (length done), p. by rewrite lookup_app_r, Nat.sub_diag by lia.
      * destruct (Hfound _ _ Hs); auto using slot_entry_app.
    + apply Hinv1 in Hk as [? Hk]. split; [done|]. intros s v Hs.
      destruct (Hk s v Hs); auto using slot_entry_app.
  - intros i q Hi. apply lookup_app_Some in Hi as [Hi|[Hge Hi]].
    + destruct (Hinv2 i q Hi) as (f & Hf & Hs).
      destruct (decide (projection_key q = projection_key p)) as [Heq|Hne].
      * rewrite Heq, lookup_insert_eq. eexists. split; [done|].
        rewrite Heq in Hf. unfold found in *. rewrite Hf in *. cbn in *.
        rewrite list_lookup_insert_ne; [done|]. fold slot. intros Hs'.
        rewrite <- Hs' in Hs. rewrite Hs in Hfree. cbn in Hfree.
        apply lookup_lt_Some in Hi. lia.
      * rewrite lookup_insert_ne by done. eauto.
    + destruct (i - length done)%nat eqn:Hd; [|done]. injection Hi as <-.
      rewrite lookup_insert_eq. eexists. split; [done|].
      replace (Z.of_nat i) with (Z.of_nat (length done)) by lia.
      by apply list_lookup_insert_eq.
Qed.

Lemma rebuild_projections_inv records lookup done ps pl pl' :
  plookup_inv done pl -> Forall projection_wf ps ->
  Z.of_nat (length done + length ps) < u64_max ->
  rebuild_projections records lookup (length done) ps pl = Ok pl' ->
  plookup_inv (done ++ ps) pl' /\
  Forall (fun p => 0 <= pr_projection_type p <= 2 /\ exists r,
    find_in records lookup (pr_layer_id p) (pr_expert_id p) = Some r /\ projection_fits r p) ps.
Proof.
  intros Hinv Hwf. revert done pl Hinv. induction Hwf as [|p ps Hp _ IH]; intros done pl Hinv Hn; cbn.
  - intros [= <-]. by rewrite app_nil_r.
  - cbn in Hn. intros (pl1 & H1 & H2)%res_bind_Ok.
    apply rebuild_projection_Ok in H1 as (Ht & Hr & Hfree & ->); [|done].
    specialize (IH (done ++ [p])). rewrite length_app, <- app_assoc in IH. cbn in IH.
    replace (length done + 1)%nat with (S (length done)) in IH by lia.
    edestruct IH as [? ?]; [|lia|exact H2|by split; [|constructor]].
    apply plookup_inv_insert; [done|lia|done..].
Qed.

Lemma make_projections_inv records projections ix :
  make records projections = Ok ix -> Forall projection_wf projections ->
  Z.of_nat (length projections) < u64_max ->
  plookup_inv (projections_ ix) (projectionLookup_ ix) /\
  Forall (fun p => 0 <= pr_projection_type p <= 2 /\ exists r,
    find ix (pr_layer_id p) (pr_expert_id p) = Some r /\ projection_fits r p) (projections_ ix).
Proof.
  intros (_ & H & Hrec & Hpr)%make_Ok Hwf Hn. unfold find. rewrite Hrec, Hpr.
  eapply (rebuild_projections_inv _ _ []) in H; [done| |done..].
  split; [|done]. intros k f. by rewrite lookup_empty.
Qed.

(** Every projection of a validated index lies inside the payload of its own
    expert and its size is the product of its declared dimensions and the width
    of its element type, without overflow. *)
Theorem projections_validated (records : list ExpertRecord) (projections : list ProjectionRecord)
    (ix : ExpertIndex) (p : ProjectionRecord) :
  make records projections = Ok ix -> Forall projection_wf projections ->
  Z.of_nat (length projections) < u64_max -> p ∈ projections_ ix ->
  exists r, find ix (pr_layer_id p) (pr_expert_id p) = Some r /\ projection_fits r p.
Proof.
  intros Hmake Hwf Hn Hp. destruct (make_projections_inv _ _ _ Hmake Hwf Hn) as [_ H].
  rewrite Forall_forall in H. by destruct (H p Hp).
Qed.

(** [findProjection] returns exactly the projection stored under the two
    identifiers and the type. *)
Theorem findProjection_correct (records : list ExpertRecord) (projections : list ProjectionRecord)
    (ix : ExpertIndex) (layerId expertId : Z) (type : ProjectionType) (p : ProjectionRecord) :
  make records projections = Ok ix -> Forall projection_wf projections ->
  Z.of_nat (length projections) < u64_max -> is_u32 expertId ->
  findProjection ix layerId expertId type = Some p <->
  p ∈ projections_ ix /\ pr_layer_id p = layerId /\ pr_expert_id p = expertId /\
  pr_projection_type p = projection_code type.
Proof.
  intros Hmake Hwf Hn He. destruct (make_projections_inv _ _ _ Hmake Hwf Hn) as [[H1 H2] Hall].
  apply make_Ok in Hmake as (_ & _ & _ & Hpr). rewrite <- Hpr in Hwf, Hn.
  rewrite Forall_forall in Hwf, Hall. unfold findProjection. split.
  - destruct (projectionLookup_ ix !! _) as [found|] eqn:Hf; [|done].
    apply H1 in Hf as [_ Hf]. destruct (found !! _) as [v|] eqn:Hv; [|done].
    destruct (Z.eqb_spec v u64_max) as [|Hne]; [done|]. intros Hp.
    apply Hf in Hv as [|(i & q & -> & Hq & Hk & Ht)]; [done|].
    rewrite Nat2Z.id, Hq in Hp. injection Hp as ->.
    assert (p ∈ projections_ ix) as Hin by (eapply list_elem_of_lookup_2; eassumption).
    destruct (Hwf p Hin) as (_ & Hp2 & _). destruct (Hall p Hin) as [Hty _].
    destruct (pack_key_inj _ _ _ _ Hp2 He Hk) as [? ?]. split_and!; [done..|].
    destruct type; cbn in *; lia.
  - intros (Hin & <- & <- & Ht). apply list_elem_of_lookup_1 in Hin as [i Hi].
    destruct (H2 i p Hi) as (found & Hf & Hs). unfold projection_key in Hf.
    rewrite Hf, <- Ht, Hs. apply lookup_lt_Some in Hi as Hlt.
    destruct (Z.eqb_spec (Z.of_nat i) u64_max); [lia|]. by rewrite Nat2Z.id.
Qed.

Lemma projections_validated_witness :
  exists ix, make [sample_record] [sample_projection] = Ok ix /\
    exists r, find ix 1 2 = Some r /\ projection_fits r sample_projection.
Proof.
  destruct (make [sample_record] [sample_projection]) as [ix|e|] eqn:Hmake;
    [|vm_compute in Hmake; discriminate Hmake..].
  exists ix. split; [reflexivity|].
  apply (projections_validated [sample_record] [sample_projection] ix sample_projection Hmake).
  - repeat constructor; discriminate.
  - reflexivity.
  - vm_compute in Hmake. injection Hmake as <-. left.
Defined.

Lemma findProjection_correct_witness :
  exists ix, make [sample_record] [sample_projection] = Ok ix /\
    findProjection ix 1 2 Gate = Some sample_projection.
Proof.
  destruct (make [sample_record] [sample_projection]) as [ix|e|] eqn:Hmake;
    [|vm_compute in Hmake; discriminate Hmake..].
  exists ix. split; [reflexivity|].
  apply (findProjection_correct [sample_record] [sample_projection] ix 1 2 Gate sample_projection Hmake).
  - repeat constructor; discriminate.
  - reflexivity.
  - split; discriminate.
  - vm_compute in Hmake. injection Hmake as <-. split; [left|split; [|split]; reflexivity].
Defined.

(** ** Reading arbitrary bytes *)

Definition bytes_left {A} (P : A -> Prop) (a : A) (rest : list Z) : Prop := P a /\ Forall is_byte rest.
Definition storage_error_only (e : exn) (_ : list Z) : Prop := kind_of e = StorageError.

Ltac wp_read := wp_step; apply wp_readLittleEndian; [assumption| |done]; intros ????; cbn beta.

Lemma wp_read_many {A} n (read : ST (list Z) A) P input :
  (forall input, Forall is_byte input -> wp read input (bytes_left P) storage_error_only) ->
  Forall is_byte input ->
  wp (read_many n read) input (bytes_left (fun xs => length xs = n /\ Forall P xs)) storage_error_only.
Proof.
  intros Hread. revert input. induction n as [|n IH]; intros input Hin; cbn; [by repeat split|].
  wp_step. eapply wp_mono; [by apply Hread| |done]. intros x rest [Hx Hrest]. cbn beta.
  wp_step. eapply wp_mono; [by apply IH| |done]. intros xs rest' [[Hl Hxs] Hrest']. cbn beta.
  wp_step. split; [|done]. split; [by rewrite <- Hl|by constructor].
Qed.

Lemma wp_read_record input :
  Forall is_byte input -> wp read_record input (bytes_left record_wf) storage_error_only.
Proof.
  intros Hin. unfold read_record. do 6 wp_read. wp_step. split; [|done].
  unfold record_wf, is_u32, is_u64, u32_max, u64_max in *. cbn in *. lia.
Qed.

Lemma wp_read_projection input :
  Forall is_byte input -> wp read_projection input (bytes_left projection_wf) storage_error_only.
Proof.
  intros Hin. unfold read_projection. do 8 wp_read. wp_step.
  eapply wp_mono; [apply (wp_read_many 4 _ is_u64); [|done]| |done].
  { intros i Hi. apply wp_readLittleEndian; [done| |done]. intros v' r' Hv' ?.
    split; [|done]. unfold is_u64, u64_max. cbn in Hv'. lia. }
  intros shape rest' [[Hlen Hu] Hrest']. cbn beta. do 2 wp_read. wp_step. split; [|done].
  unfold projection_wf, is_u32, is_u64, u32_max, u64_max in *. cbn in *. split_and!; done || lia.
Qed.

Lemma wp_load_projections fileSize baseSize version input :
  Forall is_byte input ->
  wp (load_projections fileSize baseSize version) input (bytes_left (Forall projection_wf)) storage_error_only.
Proof.
  intros Hin. unfold load_projections. case_goal; [|by split].
  wp_read. wp_step. wp_step; [done|]. cbv zeta. wp_step. wp_step; [done|].
  eapply wp_mono; [apply wp_read_many; [apply wp_read_projection|done]| |done].
  by intros xs rest' [[_ ?] ?].
Qed.

(** Any byte string either is refused with a [StorageError] or is decoded into
    records in range that pass the validation of the constructor. *)
Lemma wp_load_stream path fileSize input :
  Forall is_byte input ->
  wp (load_stream path fileSize) input
    (fun ix _ => exists rs ps, make rs ps = Ok ix /\ Forall record_wf rs /\ Forall projection_wf ps)
    storage_error_only.
Proof.
  intros Hin. unfold load_stream. wp_step.
  assert (wp (read_bytes 8 (Exn StorageError ("invalid expert index magic: " +:+ path))) input
    (fun _ rest => Forall is_byte rest) storage_error_only) as Hmagic.
  { unfold wp, read_bytes. case_bool_decide; [by apply Forall_drop|done]. }
  eapply wp_mono; [exact Hmagic| |done]. intros magic rest Hrest. cbn beta.
  wp_step. wp_step; [done|]. do 5 wp_read.
  do 5 (wp_step; wp_step; [done|]). cbv zeta. wp_step; wp_step; [done|]. wp_step.
  eapply wp_mono; [apply wp_read_many; [apply wp_read_record|done]| |done].
  intros rs rest' [Hrs Hrest']. cbn. wp_step.
  eapply wp_mono; [by apply wp_load_projections| |done].
  intros ps rest'' [Hps Hrest'']. cbn. wp_step. wp_step. wp_step. wp_step; [done|].
  apply wp_lift. pose proof (make_storage rs ps). destruct (make rs ps) eqn:Hmake; try done.
  destruct Hrs. eauto.
Qed.

Lemma load_inv path file ix :
  Forall is_byte file -> load path (Some file) = Ok ix ->
  exists rs ps, make rs ps = Ok ix /\ Forall record_wf rs /\ Forall projection_wf ps.
Proof.
  intros Hf Hload. pose proof (wp_load_stream path (Z.of_nat (length file)) file Hf) as H.
  unfold load in Hload. unfold wp in H. destruct (load_stream _ _ _) as [r rest]. cbn in Hload. by subst.
Qed.

(** No file makes the reader crash or loop: it raises a [StorageError] or
    returns an index every record of which is in range and passed validation. *)
Theorem load_robust (path : string) (file : list Z) :
  Forall is_byte file ->
  (exists msg, load path (Some file) = storage_error msg) \/
  (exists ix, load path (Some file) = Ok ix /\ Forall record_wf (records_ ix) /\
     Forall (fun r => er_size r <> 0 /\ er_offset r + er_size r <= u64_max /\
                      quantization_isValid (er_quantization_type r) = true) (records_ ix)).
Proof.
  intros Hf. pose proof (wp_load_stream path (Z.of_nat (length file)) file Hf) as H.
  unfold load. unfold wp in H. destruct (load_stream _ _ _) as [[ix|[k msg]|] rest]; [right|left|done].
  - destruct H as (rs & ps & Hmake & Hrs & _). exists ix. split; [done|].
    apply make_Ok in Hmake as (Hreb & _ & -> & _). split; [done|].
    apply (rebuild_records_inv []) in Hreb as (_ & H1 & H2 & H3).
    + rewrite !Forall_forall in *. intros r Hr. specialize (H1 r Hr). split_and!; auto. lia.
    + intros k i. rewrite lookup_empty. split; [done|]. by intros (? & ? & _).
  - exists msg. cbn. unfold storage_error_only in H. cbn in H. by rewrite H.
Qed.

Lemma load_robust_witness :
  exists msg, load "experts.idx" (Some [72; 77; 79; 69; 73; 68; 88; 1]) = storage_error msg.
Proof.
  destruct (load_robust "experts.idx" [72; 77; 79; 69; 73; 68; 88; 1]) as [H|(ix & H & _)].
  - repeat constructor; discriminate || reflexivity.
  - exact H.
  - vm_compute in H. discriminate H.
Defined.
