(* ===== verification/ExpertStore.v ===== *)
(** * The expert store and its loader

    [src/storage/ExpertStore.cpp], [src/storage/MappedFile.cpp] and
    [src/storage/DiskLoader.cpp]: the packed data file, its layout, its
    checksums, and the two ways of reading an expert back.  A model directory is
    the contents of the files the store reads and writes; the operating system's
    own failures (permissions, a full disk, a failing [mmap]) are not modelled. *)

From S2P Require Import Prelude Tiers Bytes ExpertIndex.

Record Directory : Type := mkDirectory {
  experts_bin : option (list Z);
  experts_index : option (list Z);
  metadata_json : option string;
  manifest_json : option string;
}.

Record ExpertBlob : Type := mkBlob {
  eb_layerId : Z;
  eb_expertId : Z;
  eb_quantizationType : Z;
  eb_data : list Z;
}.

Record ExpertStore : Type := mkStore {
  dataFile_ : option (list Z);  (* the file at [dataPath_], reopened by range reads *)
  index_ : ExpertIndex;
  mappedData_ : list Z;
  metadataJson_ : string;
}.

(** ** The checksum *)

(** One bit of the loop: [(crc >> 1) ^ (0xedb88320 & (0 - (crc & 1)))]. *)
Definition crc_bit (crc : Z) : Z :=
  let mask := wrap32 (0 - Z.land crc 1) in
  Z.lxor (Z.shiftr crc 1) (Z.land 3988292384 mask).

#[local] Arguments crc_bit : simpl never.

Definition crc_byte (crc byte : Z) : Z :=
  Nat.iter 8 crc_bit (Z.lxor crc byte).

Definition crc32 (bytes : list Z) : Z :=
  Z.lxor (foldl crc_byte 4294967295 bytes) 4294967295.

(** The check value of the CRC-32 of the standards. *)
Example crc32_check : crc32 [49; 50; 51; 52; 53; 54; 55; 56; 57] = 3421780262.
Proof. reflexivity. Qed.

(** ** Writing a store *)

Definition kAlignment : Z := 4096.

(** [& ~(kAlignment - 1)] on 64 bits *)
Definition alignUp (value : Z) : result Z :=
  if u64_max - (kAlignment - 1) <? value
  then storage_error "expert data offset overflow"
  else Ok (Z.land (wrap64 (value + kAlignment - 1)) (Z.lxor u64_max (kAlignment - 1))).

Definition append_data (bytes : list Z) : ST Directory unit :=
  modify (fun d => mkDirectory ((fun file => file ++ bytes) <$> experts_bin d)
                     (experts_index d) (metadata_json d) (manifest_json d)).

(** The loop of [create]. *)
Fixpoint write_experts (experts : list ExpertBlob) (records : list ExpertRecord) (cursor : Z)
    : ST Directory (list ExpertRecord) :=
  match experts with
  | [] => ret records
  | expert :: rest =>
      (lift (throw_if (bool_decide (eb_data expert = []))
         (Exn StorageError "cannot store an empty expert")) ;;;
       offset <- lift (alignUp cursor) ;;
       let padding := offset - cursor in
       (if padding =? 0 then ret tt else append_data (replicate (Z.to_nat padding) 0)) ;;;
       lift (throw_if (streamsize_max <? Z.of_nat (length (eb_data expert)))
         (Exn StorageError "expert is too large for stream I/O")) ;;;
       append_data (eb_data expert) ;;;
       let record := mkRecord (eb_layerId expert) (eb_expertId expert) offset
                       (Z.of_nat (length (eb_data expert))) (eb_quantizationType expert)
                       (crc32 (eb_data expert)) in
       write_experts rest (records ++ [record])
         (wrap64 (offset + Z.of_nat (length (eb_data expert)))))%st
  end.

Definition create (experts : list ExpertBlob) (metadataJson : string) : ST Directory unit :=
  (lift (throw_if (bool_decide (experts = []))
     (Exn StorageError "cannot create an expert store without experts")) ;;;
   lift (throw_if (String.eqb metadataJson "")
     (Exn StorageError "metadata JSON must not be empty")) ;;;
   d <- st_get ;;
   lift (throw_if (bool_decide (is_Some (experts_bin d)) || bool_decide (is_Some (experts_index d)) ||
                   bool_decide (is_Some (metadata_json d)))
     (Exn StorageError "refusing to overwrite an existing expert store")) ;;;
   modify (fun d => mkDirectory (Some []) (experts_index d) (metadata_json d) (manifest_json d)) ;;;
   records <- write_experts experts [] 0 ;;
   index <- lift (make records []) ;;
   modify (fun d => mkDirectory (experts_bin d) (Some (save index)) (metadata_json d) (manifest_json d)) ;;;
   modify (fun d => mkDirectory (experts_bin d) (experts_index d) (Some metadataJson) (manifest_json d)))%st.

(** ** Opening a store *)

(** [MappedFile::open]: an empty file cannot be mapped. *)
Definition map_file (file : option (list Z)) : result (list Z) :=
  match file with
  | None => storage_error "cannot open mapped file"
  | Some [] => storage_error "invalid mapped file size"
  | Some bytes => Ok bytes
  end.

(** [MappedFile::view] on an open file *)
Definition view (data : list Z) (offset length : Z) : result (list Z) :=
  let size := Z.of_nat (List.length data) in
  if (size <? offset) || (size - offset <? length)
  then storage_error "mapped file range is out of bounds"
  else Ok (take (Z.to_nat length) (drop (Z.to_nat offset) data)).

Definition readTextFile (file : option string) : result string :=
  match file with Some text => Ok text | None => storage_error "cannot open model metadata" end.

Definition readStoreMetadata (d : Directory) : result string :=
  match metadata_json d with
  | Some text => readTextFile (Some text)
  | None => readTextFile (manifest_json d)
  end.

(** The bounds loop of the constructor. *)
Fixpoint check_records (size : Z) (records : list ExpertRecord) : result unit :=
  match records with
  | [] => Ok tt
  | record :: rest =>
      if (size <? er_offset record) || (size - er_offset record <? er_size record)
      then storage_error "expert index references data outside experts.bin"
      else check_records size rest
  end.

Definition open (d : Directory) : result ExpertStore :=
  (index <-? load "experts.index" (experts_index d) ;;
   mapped <-? map_file (experts_bin d) ;;
   metadata <-? readStoreMetadata d ;;
   throw_if (String.eqb metadata "") (Exn StorageError "model metadata manifest is empty") ;;?
   check_records (Z.of_nat (length mapped)) (records_ index) ;;?
   Ok (mkStore (experts_bin d) index mapped metadata))%res.

(** ** Reading *)

Definition requireRecord (s : ExpertStore) (layerId expertId : Z) : result ExpertRecord :=
  match find (index_ s) layerId expertId with
  | None => storage_error "expert is not present in the index"
  | Some record => Ok record
  end.

Definition validate (bytes : list Z) (record : ExpertRecord) : result unit :=
  throw_if (negb (crc32 bytes =? er_checksum record))
    (Exn StorageError "expert checksum mismatch: data is corrupted").

Definition mappedExpert (s : ExpertStore) (layerId expertId : Z) (validateChecksum : bool)
    : result (list Z) :=
  (record <-? requireRecord s layerId expertId ;;
   bytes <-? view (mappedData_ s) (er_offset record) (er_size record) ;;
   (if validateChecksum then validate bytes record else Ok tt) ;;?
   Ok bytes)%res.

Definition mappedProjection (s : ExpertStore) (layerId expertId : Z) (type : ProjectionType)
    (validateChecksum : bool) : result (list Z) :=
  match findProjection (index_ s) layerId expertId type with
  | None => storage_error "expert projection is not present in the index"
  | Some record =>
      (bytes <-? view (mappedData_ s) (pr_offset record) (pr_size record) ;;
       throw_if (validateChecksum && negb (crc32 bytes =? pr_checksum record))
         (Exn StorageError "expert projection checksum mismatch: data is corrupted") ;;?
       Ok bytes)%res
  end.

Definition readExpert (s : ExpertStore) (layerId expertId : Z) (validateChecksum : bool)
    : result (list Z) :=
  (record <-? requireRecord s layerId expertId ;;
   match dataFile_ s with
   | None => storage_error "cannot open expert data file for range read"
   | Some file =>
       throw_if ((streamsize_max <? er_offset record) || (streamsize_max <? er_size record))
         (Exn StorageError "expert range is too large for stream I/O") ;;?
       let bytes := take (Z.to_nat (er_size record)) (drop (Z.to_nat (er_offset record)) file) in
       throw_if (Z.of_nat (length bytes) <? er_size record)
         (Exn StorageError "short range read from experts.bin") ;;?
       (if validateChecksum then validate bytes record else Ok tt) ;;?
       Ok bytes
   end)%res.

(** ** [DiskLoader] *)

Inductive DiskReadMode : Type := MemoryMap | RangeRead.

Record LoadedExpert : Type := mkLoaded { le_record : ExpertRecord; le_data : list Z }.

Definition load_expert (s : ExpertStore) (mode : DiskReadMode) (layerId expertId : Z)
    : result LoadedExpert :=
  match find (index_ s) layerId expertId with
  | None => storage_error "requested expert does not exist"
  | Some record =>
      match mode with
      | RangeRead => (bytes <-? readExpert s layerId expertId true ;; Ok (mkLoaded record bytes))%res
      | MemoryMap => (bytes <-? mappedExpert s layerId expertId true ;; Ok (mkLoaded record bytes))%res
      end
  end.

(** ** What the checksum detects *)

Lemma crc_bit_alt c :
  crc_bit c = Z.lxor (Z.shiftr c 1) (if Z.odd c then 3988292384 else 0).
Proof.
  unfold crc_bit. f_equal. change 1 with (Z.ones 1) at 1. rewrite Z.land_ones by lia.
  change (2 ^ 1) with 2. rewrite Zmod_odd. by destruct (Z.odd c).
Qed.

Lemma crc_bit_u32 c : is_u32 c -> is_u32 (crc_bit c).
Proof.
  unfold is_u32, u32_max. intros Hc. rewrite crc_bit_alt.
  enough (0 <= Z.lxor (Z.shiftr c 1) (if Z.odd c then 3988292384 else 0) < 2 ^ 32) by lia.
  apply lxor_bound; [lia| |destruct (Z.odd c); lia].
  rewrite Z.shiftr_div_pow2 by lia. change (2 ^ 1) with 2.
  change (2 ^ 32) with 4294967296. split; [apply Z.div_pos; lia|].
  apply Z.div_lt_upper_bound; lia.
Qed.

(** The generator has bit 31 set, so the bit shifted out can be read off the result. *)
Lemma crc_bit_inj a b : is_u32 a -> is_u32 b -> crc_bit a = crc_bit b -> a = b.
Proof.
  unfold is_u32, u32_max. intros Ha Hb. rewrite !crc_bit_alt. intros Heq.
  assert (forall c, 0 <= c <= 4294967295 ->
    Z.testbit (Z.lxor (Z.shiftr c 1) (if Z.odd c then 3988292384 else 0)) 31 = Z.odd c) as Htop.
  { intros c Hc. rewrite Z.lxor_spec, Z.shiftr_spec by lia.
    replace (Z.testbit c (31 + 1)) with false; [by destruct (Z.odd c)|].
    destruct (decide (c = 0)) as [->|]; [done|].
    symmetry. apply Z.bits_above_log2; [lia|].
    apply Z.log2_lt_pow2; [lia|]. change (2 ^ (31 + 1)) with 4294967296. lia. }
  pose proof (Htop a Ha) as Hodd. rewrite Heq, Htop in Hodd by done. rewrite Hodd in Heq.
  apply (f_equal (fun z => Z.lxor z (if Z.odd a then 3988292384 else 0))) in Heq.
  rewrite !Z.lxor_assoc, Z.lxor_nilpotent, !Z.lxor_0_r in Heq.
  rewrite !Z.shiftr_div_pow2 in Heq by lia. change (2 ^ 1) with 2 in Heq.
  rewrite (Zdiv2_odd_eqn a), (Zdiv2_odd_eqn b), Hodd, !Z.div2_div, Heq. done.
Qed.

Lemma crc_bit_lxor a b : crc_bit (Z.lxor a b) = Z.lxor (crc_bit a) (crc_bit b).
Proof.
  rewrite !crc_bit_alt, Z.shiftr_lxor. rewrite <- !Z.bit0_odd, Z.lxor_spec.
  destruct (Z.testbit a 0), (Z.testbit b 0); cbn [xorb];
    rewrite ?Z.lxor_0_r, ?(Z.lxor_assoc (Z.shiftr a 1)).
  - rewrite (Z.lxor_comm 3988292384), Z.lxor_assoc, Z.lxor_nilpotent, Z.lxor_0_r. done.
  - by rewrite (Z.lxor_comm (Z.shiftr b 1)).
  - done.
  - done.
Qed.

Lemma crc_bit_double x : crc_bit (2 * x) = x.
Proof.
  rewrite crc_bit_alt, Z.odd_mul. cbn [Z.odd andb]. rewrite Z.lxor_0_r.
  rewrite Z.shiftr_div_pow2 by lia. change (2 ^ 1) with 2. rewrite Z.mul_comm. by apply Z.div_mul.
Qed.

Section iterate.
Implicit Types n : nat.

Lemma crc_iter_u32 n c : is_u32 c -> is_u32 (Nat.iter n crc_bit c).
Proof. intros Hc. induction n; [done|]. rewrite Nat.iter_succ. by apply crc_bit_u32. Qed.

Lemma crc_iter_inj n a b :
  is_u32 a -> is_u32 b -> Nat.iter n crc_bit a = Nat.iter n crc_bit b -> a = b.
Proof.
  intros Ha Hb. induction n as [|n IH]; [done|]. rewrite !Nat.iter_succ.
  intros H%crc_bit_inj; [auto|by apply crc_iter_u32..].
Qed.

Lemma crc_iter_lxor n a b :
  Nat.iter n crc_bit (Z.lxor a b) = Z.lxor (Nat.iter n crc_bit a) (Nat.iter n crc_bit b).
Proof. induction n as [|n IH]; [done|]. by rewrite !Nat.iter_succ, IH, crc_bit_lxor. Qed.

Lemma crc_iter_shiftl n x : Nat.iter n crc_bit (Z.shiftl x (Z.of_nat n)) = x.
Proof.
  revert x. induction n as [|n IH]; intros x; [apply Z.shiftl_0_r|].
  replace (Z.shiftl x (Z.of_nat (S n))) with (Z.shiftl (2 * x) (Z.of_nat n)).
  - by rewrite Nat.iter_succ, IH, crc_bit_double.
  - rewrite !Z.shiftl_mul_pow2 by lia. rewrite Nat2Z.inj_succ, Z.pow_succ_r by lia. lia.
Qed.
End iterate.

(** Feeding a block is one shift-register run on the register xored with the block. *)
Lemma crc_block n s bs :
  Forall is_byte bs ->
  foldl crc_byte (Nat.iter n crc_bit s) bs =
  Nat.iter (8 * length bs + n) crc_bit (Z.lxor s (Z.shiftl (horner bs) (Z.of_nat n))).
Proof.
  intros Hbs. revert n s. induction Hbs as [|b bs Hb Hbs IH]; intros n s.
  - cbn. by rewrite Z.shiftl_0_l, Z.lxor_0_r.
  - cbn [foldl]. unfold crc_byte at 2.
    rewrite <- (crc_iter_shiftl n b) at 1. rewrite <- crc_iter_lxor, <- Nat.iter_add, IH.
    replace (8 * length bs + (8 + n))%nat with (8 * length (b :: bs) + n)%nat by (cbn; lia).
    f_equal. rewrite Z.lxor_assoc. f_equal. cbn [horner].
    replace (b + 256 * horner bs) with (Z.lxor b (Z.shiftl (horner bs) 8)).
    + rewrite Z.shiftl_lxor, Z.shiftl_shiftl by lia. do 2 f_equal. lia.
    + rewrite lxor_add_disjoint; [lia..|exact Hb].
Qed.

Lemma crc_fold_u32 s bs : is_u32 s -> Forall is_byte bs -> is_u32 (foldl crc_byte s bs).
Proof.
  intros Hs Hbs. revert s Hs. induction Hbs as [|b bs Hb _ IH]; intros s Hs; [done|]. cbn [foldl].
  apply IH. unfold crc_byte. apply crc_iter_u32, lxor_u32; [done|].
  by apply byte_u32.
Qed.

Lemma crc_fold_inj s s' bs :
  is_u32 s -> is_u32 s' -> Forall is_byte bs ->
  foldl crc_byte s bs = foldl crc_byte s' bs -> s = s'.
Proof.
  intros Hs Hs' Hbs. revert s s' Hs Hs'. induction Hbs as [|b bs Hb _ IH]; intros s s' Hs Hs'; [done|].
  cbn [foldl].
  assert (forall x, is_u32 x -> is_u32 (Z.lxor x b)) as Hx by auto using lxor_u32, byte_u32.
  unfold crc_byte at 2 4. intros H%IH; [|by apply crc_iter_u32, Hx..]. apply crc_iter_inj in H; [|by apply Hx..].
  apply (f_equal (fun z => Z.lxor z b)) in H.
  by rewrite !Z.lxor_assoc, Z.lxor_nilpotent, !Z.lxor_0_r in H.
Qed.

(** Two blocks of at most four bytes that drive a register to the same state are equal. *)
Lemma crc_block_inj s x y :
  is_u32 s -> Forall is_byte x -> Forall is_byte y -> length x = length y -> (length x <= 4)%nat ->
  foldl crc_byte s x = foldl crc_byte s y -> x = y.
Proof.
  intros Hs Hx Hy Hlen H4. change s with (Nat.iter 0 crc_bit s). rewrite !crc_block by done.
  cbn [Nat.iter]. rewrite <- Hlen, !Z.shiftl_0_r.
  assert (forall z, Forall is_byte z -> length z = length x ->
            0 <= horner z < 2 ^ 32 /\ is_u32 (Z.lxor s (horner z))) as Hb.
  { intros z Hz Hl. pose proof (horner_bounds z Hz) as Hh. rewrite Hl in Hh.
    assert (2 ^ (8 * Z.of_nat (length x)) <= 2 ^ 32) by (apply Z.pow_le_mono_r; lia).
    split; [lia|]. apply lxor_u32; [done|]. unfold is_u32, u32_max. lia. }
  intros H%crc_iter_inj; [|by apply Hb..].
  apply (f_equal (fun z => Z.lxor s z)) in H.
  rewrite <- !Z.lxor_assoc, Z.lxor_nilpotent, !Z.lxor_0_l in H.
  by rewrite <- (le_bytes_horner x), <- (le_bytes_horner y), Hlen, H by done.
Qed.

Lemma crc32_burst pre x y post :
  Forall is_byte (pre ++ x ++ post) -> Forall is_byte y ->
  length x = length y -> (length x <= 4)%nat ->
  crc32 (pre ++ x ++ post) = crc32 (pre ++ y ++ post) -> x = y.
Proof.
  rewrite !Forall_app. intros (Hpre & Hx & Hpost) Hy Hlen H4. unfold crc32. intros H.
  apply (f_equal (fun z => Z.lxor z 4294967295)) in H.
  rewrite !Z.lxor_assoc, Z.lxor_nilpotent, !Z.lxor_0_r, !foldl_app in H.
  assert (is_u32 (foldl crc_byte 4294967295 pre)) as Hs by (by apply crc_fold_u32).
  apply crc_fold_inj in H; [by apply crc_block_inj in H|by apply crc_fold_u32..|done].
Qed.

(** Corruption is detected: a payload that differs from the one the record was
    made for in at most four consecutive bytes is refused. *)
Theorem corruption_detected (record : ExpertRecord) (pre x y post : list Z) :
  Forall is_byte (pre ++ x ++ post) -> Forall is_byte y ->
  length x = length y -> (length x <= 4)%nat -> x <> y ->
  validate (pre ++ x ++ post) record = Ok tt ->
  validate (pre ++ y ++ post) record =
    storage_error "expert checksum mismatch: data is corrupted".
Proof.
  intros Hb Hy Hlen H4 Hne. unfold validate, throw_if.
  destruct (Z.eqb_spec (crc32 (pre ++ x ++ post)) (er_checksum record)) as [Hx|]; [|done].
  destruct (Z.eqb_spec (crc32 (pre ++ y ++ post)) (er_checksum record)) as [Hy'|]; [|done].
  exfalso. apply Hne, (crc32_burst pre x y post); congruence || done.
Qed.

Lemma corruption_detected_witness :
  let record := mkRecord 0 0 0 4 0 (crc32 [1; 2; 3; 4]) in
  validate [1; 2; 3; 4] record = Ok tt /\
  validate [1; 7; 9; 4] record = storage_error "expert checksum mismatch: data is corrupted".
Proof.
  intros record. split; [reflexivity|].
  apply (corruption_detected record [1] [2; 3] [7; 9] [4]).
  - repeat constructor; discriminate || reflexivity.
  - repeat constructor; discriminate || reflexivity.
  - reflexivity.
  - cbn. lia.
  - discriminate.
  - reflexivity.
Defined.

(** ** The layout of a written store *)

Lemma alignUp_Ok cursor offset :
  0 <= cursor -> alignUp cursor = Ok offset ->
  offset `mod` kAlignment = 0 /\ cursor <= offset < cursor + kAlignment.
Proof.
  unfold alignUp, kAlignment. intros Hc.
  destruct (Z.ltb_spec (u64_max - (4096 - 1)) cursor) as [|Hle]; [done|]. intros [= <-].
  rewrite wrap64_small by (unfold is_u64; lia).
  replace (cursor + 4096 - 1) with (cursor + 4095) by lia.
  assert (Z.land (cursor + 4095) (Z.lxor u64_max (4096 - 1)) =
          (cursor + 4095) / 4096 * 4096) as ->.
  { change 4096 with (2 ^ 12) at 2 3. rewrite <- Z.shiftr_div_pow2, <- Z.shiftl_mul_pow2 by lia.
    rewrite <- Z.ldiff_ones_r by lia. unfold u64_max in *.
    apply Z.bits_inj'. intros n Hn. rewrite Z.land_spec, Z.ldiff_spec.
    destruct (decide (n < 64)) as [Hlt|Hge].
    - change (Z.lxor 18446744073709551615 (4096 - 1)) with (Z.ldiff (Z.ones 64) (Z.ones 12)).
      rewrite Z.ldiff_spec, (Z.ones_spec_low 64) by lia. done.
    - rewrite (Z.bits_above_log2 (cursor + 4095)); [done|lia|].
      destruct (decide (cursor + 4095 = 0)) as [->|]; [cbn; lia|].
      apply Z.lt_le_trans with 64; [|lia]. apply Z.log2_lt_pow2; [lia|].
      change (2 ^ 64) with 18446744073709551616. lia. }
  split; [by apply Z.mod_mul|].
  pose proof (Z.div_mod (cursor + 4095) 4096). pose proof (Z.mod_pos_bound (cursor + 4095) 4096). lia.
Qed.

(** A record describes a payload of the data file. *)
Definition describes (file : list Z) (r : ExpertRecord) (b : ExpertBlob) : Prop :=
  er_layer_id r = eb_layerId b /\ er_expert_id r = eb_expertId b /\
  er_quantization_type r = eb_quantizationType b /\ er_checksum r = crc32 (eb_data b) /\
  er_size r = Z.of_nat (length (eb_data b)) /\ 0 < er_size r /\
  0 <= er_offset r /\ er_offset r `mod` kAlignment = 0 /\
  er_offset r + er_size r <= Z.of_nat (length file) /\
  take (length (eb_data b)) (drop (Z.to_nat (er_offset r)) file) = eb_data b.

Lemma describes_app file ext r b : describes file r b -> describes (file ++ ext) r b.
Proof.
  intros (?&?&?&?&Hs&?&?&?&Hin&Hd). unfold describes. rewrite length_app.
  split_and!; [done..|lia|]. rewrite <- Hd at 2. rewrite drop_app_le by lia.
  rewrite take_app_le; [done|]. rewrite length_drop. lia.
Qed.

(** Payloads follow one another without overlapping. *)
Definition after (r r' : ExpertRecord) : Prop := er_offset r + er_size r <= er_offset r'.

Definition layout (file : list Z) (rs : list ExpertRecord) (bs : list ExpertBlob) : Prop :=
  Forall2 (describes file) rs bs /\ StronglySorted after rs.

(** Room for the payloads and their padding in a file of [off_t] size. *)
Definition blobs_size (bs : list ExpertBlob) : Z :=
  foldr (fun b acc => Z.of_nat (length (eb_data b)) + kAlignment + acc) 0 bs.

Lemma blobs_size_cons b bs :
  blobs_size (b :: bs) = Z.of_nat (length (eb_data b)) + 4096 + blobs_size bs.
Proof. done. Qed.

Lemma blobs_size_length bs : 4096 * Z.of_nat (length bs) <= blobs_size bs.
Proof. induction bs as [|b bs IH]; [done|]. rewrite blobs_size_cons. cbn [length]. lia. Qed.

Definition same_others (d d' : Directory) : Prop :=
  experts_index d' = experts_index d /\ metadata_json d' = metadata_json d /\
  manifest_json d' = manifest_json d.

Lemma append_data_run bytes d :
  append_data bytes d =
  (Ok tt, mkDirectory ((fun file => file ++ bytes) <$> experts_bin d)
            (experts_index d) (metadata_json d) (manifest_json d)).
Proof. done. Qed.

Lemma write_experts_spec experts records cursor d file bs :
  experts_bin d = Some file -> cursor = Z.of_nat (length file) ->
  layout file records bs ->
  Z.of_nat (length file) + blobs_size experts <= streamsize_max ->
  wp (write_experts experts records cursor) d
    (fun rs d' => exists file', experts_bin d' = Some file' /\ same_others d d' /\
       layout file' rs (bs ++ experts) /\
       Z.of_nat (length file') <= Z.of_nat (length file) + blobs_size experts)
    (fun e d' => kind_of e = StorageError).
Proof.
  revert records cursor d file bs. induction experts as [|b experts IH];
    intros records cursor d file bs Hd Hc [Hdesc Hsort] Hfit; cbn [write_experts].
  - wp_steps. exists file. rewrite app_nil_r. cbn. split_and!; try done. lia.
  - rewrite blobs_size_cons in Hfit |- *.
    pose proof (blobs_size_length experts) as Hnn.
    wp_step. wp_step; [done|]. apply bool_decide_eq_false in H as Hne.
    assert (0 < Z.of_nat (length (eb_data b))) as Hpos by (destruct (eb_data b); cbn in *; [done|lia]).
    wp_step. apply wp_lift. destruct (alignUp cursor) as [offset|e|] eqn:Hal.
    2: { unfold alignUp in Hal. destruct (_ <? _); [|done]. by injection Hal as <-. }
    2: { unfold alignUp in Hal. by destruct (_ <? _). }
    apply alignUp_Ok in Hal as [Hmod Hoff]; [|lia].
    set (pad := replicate (Z.to_nat (offset - cursor)) 0).
    set (file1 := file ++ pad).
    assert (Z.of_nat (length file1) = offset) as Hl1.
    { unfold file1, pad. rewrite length_app, length_replicate. lia. }
    wp_step.
    apply (wp_run _ _ tt (mkDirectory (Some file1) (experts_index d) (metadata_json d) (manifest_json d))).
    { destruct (Z.eqb_spec (offset - cursor) 0) as [Hz|].
      - unfold file1, pad. rewrite Hz. cbn. rewrite app_nil_r, <- Hd. by destruct d.
      - rewrite append_data_run, Hd. done. }
    wp_step. wp_step; [done|]. wp_step. eapply wp_run; [apply append_data_run|]. cbn.
    set (r := mkRecord _ _ _ _ _ _). unfold streamsize_max, kAlignment in *.
    rewrite wrap64_small by (unfold is_u64, u64_max; lia).
    eapply wp_mono; [eapply (IH _ _ _ (file1 ++ eb_data b) (bs ++ [b]))|..]; cbn.
    + done.
    + rewrite length_app. lia.
    + split.
      * apply Forall2_app.
        -- eapply Forall2_impl; [exact Hdesc|]. intros. unfold file1. by do 2 apply describes_app.
        -- constructor; [|constructor]. unfold describes, r. cbn. rewrite length_app.
           split_and!; try done; try lia.
           replace (Z.to_nat offset) with (length file1) by lia.
           by rewrite drop_app_length, firstn_all.
      * apply StronglySorted_app_2; [|done|by repeat constructor].
        intros r1 r2 H1 H2. apply list_elem_of_singleton in H2 as ->.
        apply list_elem_of_lookup_1 in H1 as [i H1].
        destruct (Forall2_lookup_l _ _ _ _ _ Hdesc H1) as (b1 & _ & Hb1).
        unfold describes, after, r in *. cbn. lia.
    + rewrite length_app. lia.
    + intros rs d' (file' & Hd' & Hs' & Hlay & Hlen). exists file'. cbn in *.
      rewrite length_app in Hlen. rewrite <- app_assoc in Hlay.
      split_and!; try done; try apply Hs'. lia.
    + done.
Qed.

Definition blob_wf (b : ExpertBlob) : Prop :=
  is_u32 (eb_layerId b) /\ is_u32 (eb_expertId b) /\ is_u32 (eb_quantizationType b) /\
  Forall is_byte (eb_data b).

Lemma crc32_u32 bs : Forall is_byte bs -> is_u32 (crc32 bs).
Proof. intros Hb. unfold crc32. apply lxor_u32; [by apply crc_fold_u32|done]. Qed.

Lemma describes_wf file r b :
  Z.of_nat (length file) <= streamsize_max -> blob_wf b -> describes file r b -> record_wf r.
Proof.
  intros Hf (?&?&?&Hb) (Hl&He&Hq&Hc&Hs&?&?&_&?&_). unfold record_wf.
  rewrite Hl, He, Hq, Hc. pose proof (crc32_u32 _ Hb).
  unfold is_u64, u64_max, streamsize_max in *. split_and!; try done; lia.
Qed.

Lemma Forall2_describes_l file rs bs r :
  Forall2 (describes file) rs bs -> r ∈ rs -> exists b, b ∈ bs /\ describes file r b.
Proof.
  intros H [i Hi]%list_elem_of_lookup_1. destruct (Forall2_lookup_l _ _ _ _ _ H Hi) as (b & Hb & Hd).
  exists b. split; [by eapply list_elem_of_lookup_2|done].
Qed.

Lemma check_records_Ok size rs :
  Forall (fun r => er_offset r + er_size r <= size /\ 0 < er_size r) rs -> check_records size rs = Ok tt.
Proof.
  induction 1 as [|r rs [Hr ?] _ IH]; [done|]. cbn.
  destruct (Z.ltb_spec size (er_offset r)); [lia|].
  destruct (Z.ltb_spec (size - er_offset r) (er_size r)); [lia|]. done.
Qed.

Lemma check_records_inv size rs :
  check_records size rs = Ok tt -> Forall (fun r => er_offset r + er_size r <= size) rs.
Proof.
  induction rs as [|r rs IH]; cbn; [done|].
  destruct (Z.ltb_spec size (er_offset r)); [done|].
  destruct (Z.ltb_spec (size - er_offset r) (er_size r)); [done|]. cbn.
  intros ?%IH. constructor; [lia|done].
Qed.

(** What a successful [create] leaves in the directory. *)
Lemma create_spec experts metadataJson d :
  blobs_size experts <= streamsize_max ->
  wp (create experts metadataJson) d
    (fun _ d' => exists file rs ix,
       d' = mkDirectory (Some file) (Some (save ix)) (Some metadataJson) (manifest_json d) /\
       make rs [] = Ok ix /\ layout file rs experts /\ experts <> [] /\ metadataJson <> "" /\
       Z.of_nat (length file) <= streamsize_max)
    (fun e d' => kind_of e = StorageError).
Proof.
  intros Hfit. unfold create. wp_step. wp_step; [done|]. apply bool_decide_eq_false in H as Hne.
  wp_step. wp_step; [done|]. apply String.eqb_neq in H0 as Hm.
  wp_step. wp_step. wp_step. wp_step; [done|]. wp_step. wp_step. wp_step.
  eapply wp_mono; [eapply (write_experts_spec _ _ _ _ [] [])|..]; cbn.
  - done.
  - done.
  - split; constructor.
  - lia.
  - intros rs d' (file & Hd' & (Hi & Hj & Hk) & Hlay & Hlen). wp_step. apply wp_lift.
    pose proof (make_storage rs []) as Hst. destruct (make rs []) as [ix|e|] eqn:Hmake; try done.
    wp_steps. exists file, rs, ix. rewrite Hd'. cbn in Hk. rewrite Hk. split_and!; try done. lia.
  - done.
Qed.

Lemma make_lookup_find rs ix r :
  make rs [] = Ok ix -> Forall record_wf rs -> r ∈ rs ->
  find ix (er_layer_id r) (er_expert_id r) = Some r.
Proof.
  intros Hmake Hwf Hr. apply make_Ok in Hmake as Hrecs. destruct Hrecs as (_ & _ & Hrec & _).
  rewrite Forall_forall in Hwf. destruct (Hwf r Hr) as (_ & ? & _).
  apply (find_iff _ _ _ _ _ r Hmake); [by apply Forall_forall|done|]. by rewrite Hrec.
Qed.

(** Reading the payload of a record that lies inside the file, either way. *)
Lemma read_described s r b file mode :
  find (index_ s) (er_layer_id r) (er_expert_id r) = Some r -> describes file r b ->
  dataFile_ s = Some file -> mappedData_ s = file -> Z.of_nat (length file) <= streamsize_max ->
  load_expert s mode (er_layer_id r) (er_expert_id r) = Ok (mkLoaded r (eb_data b)).
Proof.
  intros Hfind (_&_&_&Hc&Hs&Hpos&Ho&_&Hin&Hd) Hfile Hmap Hmax. unfold load_expert. rewrite Hfind.
  assert (validate (eb_data b) r = Ok tt) as Hval.
  { unfold validate. by rewrite Hc, Z.eqb_refl. }
  replace (length (eb_data b)) with (Z.to_nat (er_size r)) in Hd by lia.
  destruct mode.
  - unfold mappedExpert, requireRecord. rewrite Hfind. cbn. unfold view. rewrite Hmap.
    destruct (Z.ltb_spec (Z.of_nat (length file)) (er_offset r)); [lia|].
    destruct (Z.ltb_spec (Z.of_nat (length file) - er_offset r) (er_size r)); [lia|].
    cbn. by rewrite Hd, Hval.
  - unfold readExpert, requireRecord. rewrite Hfind, Hfile. cbn. rewrite Hd.
    destruct (Z.ltb_spec streamsize_max (er_offset r)); [lia|].
    destruct (Z.ltb_spec streamsize_max (er_size r)); [lia|]. cbn.
    destruct (Z.ltb_spec (Z.of_nat (length (eb_data b))) (er_size r)); [lia|]. cbn. by rewrite Hval.
Qed.

Lemma layout_wf file rs bs :
  Z.of_nat (length file) <= streamsize_max -> Forall blob_wf bs -> layout file rs bs ->
  Forall record_wf rs /\ length rs = length bs.
Proof.
  intros Hf Hbs [Hd _]. split; [|by eapply Forall2_length].
  apply Forall_forall. intros r (b & Hb & Hrb)%(Forall2_describes_l _ _ _ _ Hd).
  rewrite Forall_forall in Hbs. eapply describes_wf; eauto.
Qed.

(** Opening the directory [create] left. *)
Lemma open_created file rs ix bs metadataJson manifest :
  make rs [] = Ok ix -> layout file rs bs -> Forall blob_wf bs -> bs <> [] -> metadataJson <> "" ->
  blobs_size bs <= streamsize_max -> Z.of_nat (length file) <= streamsize_max ->
  open (mkDirectory (Some file) (Some (save ix)) (Some metadataJson) manifest) =
  Ok (mkStore (Some file) ix file metadataJson).
Proof.
  intros Hmake Hlay Hwf Hne Hm Hfit Hf.
  destruct (layout_wf file rs bs Hf Hwf Hlay) as [Hrs Hlen]. destruct Hlay as [Hd _].
  apply make_Ok in Hmake as Hrecs. destruct Hrecs as (_ & _ & Hrec & Hproj).
  unfold open. cbn [experts_index experts_bin metadata_json manifest_json].
  rewrite (load_save _ rs [] ix); [|done..|constructor|].
  2: { unfold index_fits. rewrite length_save by by rewrite Hproj. rewrite Hrec, Hproj, Hlen.
       pose proof (blobs_size_length bs). unfold streamsize_max in *.
       rewrite bool_decide_eq_true_2 by done. lia. }
  cbn [res_bind]. assert (map_file (Some file) = Ok file) as ->.
  { destruct file as [|x file]; [|done]. destruct Hd as [|r b ? ? Hrb]; [done|].
    destruct Hrb as (_&_&_&_&_&?&?&_&?&_). cbn in *. lia. }
  cbn. apply String.eqb_neq in Hm as ->. cbn. rewrite Hrec, check_records_Ok; [done|].
  apply Forall_forall. intros r (b & Hb & Hrb)%(Forall2_describes_l _ _ _ _ Hd).
  unfold describes in Hrb. lia.
Qed.

(** C37: a store that was created from a list of experts opens, and reading any of
    them back, by mapping or by range read, returns its bytes. *)
Theorem store_roundtrip (experts : list ExpertBlob) (metadataJson : string) (d d' : Directory) :
  Forall blob_wf experts -> blobs_size experts <= streamsize_max ->
  create experts metadataJson d = (Ok tt, d') ->
  exists s, open d' = Ok s /\ metadataJson_ s = metadataJson /\
    forall b mode, b ∈ experts -> exists r,
      load_expert s mode (eb_layerId b) (eb_expertId b) = Ok (mkLoaded r (eb_data b)).
Proof.
  intros Hwf Hfit Hc.
  destruct (wp_ok _ _ _ _ _ _ (create_spec experts metadataJson d Hfit) Hc)
    as (file & rs & ix & -> & Hmake & Hlay & Hne & Hm & Hf).
  eexists. split; [by eapply open_created|]. split; [done|]. intros b mode Hb.
  destruct (layout_wf file rs experts Hf Hwf Hlay) as [Hrs _]. destruct Hlay as [Hd _].
  apply list_elem_of_lookup_1 in Hb as [i Hb].
  destruct (Forall2_lookup_r _ _ _ _ _ Hd Hb) as (r & Hr & Hrb).
  apply list_elem_of_lookup_2 in Hr. exists r.
  destruct Hrb as (Hl & He & Hrest) eqn:Heq. rewrite <- Hl, <- He.
  apply (read_described _ r b file); cbn; [|done..]. by eapply make_lookup_find.
Qed.

(** The payloads of a created store are page-aligned, lie inside the data
    file, and no two of them overlap. *)
Theorem store_layout (experts : list ExpertBlob) (metadataJson : string) (d d' : Directory)
    (s : ExpertStore) :
  Forall blob_wf experts -> blobs_size experts <= streamsize_max ->
  create experts metadataJson d = (Ok tt, d') -> open d' = Ok s ->
  Forall (fun r => er_offset r `mod` kAlignment = 0 /\
                   er_offset r + er_size r <= Z.of_nat (length (mappedData_ s))) (records_ (index_ s)) /\
  StronglySorted after (records_ (index_ s)).
Proof.
  intros Hwf Hfit Hc.
  destruct (wp_ok _ _ _ _ _ _ (create_spec experts metadataJson d Hfit) Hc)
    as (file & rs & ix & -> & Hmake & Hlay & Hne & Hm & Hf).
  rewrite (open_created file rs ix experts) by done. intros [= <-]. cbn.
  apply make_Ok in Hmake as (_ & _ & -> & _). destruct Hlay as [Hd Hs]. split; [|done].
  apply Forall_forall. intros r (b & _ & Hb)%(Forall2_describes_l _ _ _ _ Hd).
  unfold describes in Hb. tauto.
Qed.

Lemma view_inside data o n :
  0 <= o -> 0 <= n -> o + n <= Z.of_nat (length data) ->
  view data o n = Ok (take (Z.to_nat n) (drop (Z.to_nat o) data)).
Proof.
  intros. unfold view. destruct (Z.ltb_spec (Z.of_nat (length data)) o); [lia|].
  by destruct (Z.ltb_spec (Z.of_nat (length data) - o) n); [lia|].
Qed.

Lemma open_inv d s :
  open d = Ok s ->
  load "experts.index" (experts_index d) = Ok (index_ s) /\
  dataFile_ s = Some (mappedData_ s) /\ mappedData_ s <> [] /\ metadataJson_ s <> "" /\
  Forall (fun r => er_offset r + er_size r <= Z.of_nat (length (mappedData_ s))) (records_ (index_ s)).
Proof.
  unfold open. intros (ix & Hix & H)%res_bind_Ok. apply res_bind_Ok in H as (m & Hm & H).
  apply res_bind_Ok in H as (t & Ht & H). apply res_bind_Ok in H as ([] & Hne & H).
  apply res_bind_Ok in H as ([] & Hc & H). injection H as <-. cbn.
  assert (experts_bin d = Some m /\ m <> []) as [-> ?].
  { unfold map_file in Hm. destruct (experts_bin d) as [[|]|]; by simplify_eq. }
  split_and!; try done; [|by apply check_records_inv].
  intros ->. done.
Qed.

(** On an opened store the two reading modes are the same function: same
    bytes, same errors. *)
Theorem read_modes_agree (d : Directory) (s : ExpertStore) (layerId expertId : Z) :
  (forall file, experts_index d = Some file -> Forall is_byte file) ->
  open d = Ok s -> Z.of_nat (length (mappedData_ s)) <= streamsize_max ->
  load_expert s MemoryMap layerId expertId = load_expert s RangeRead layerId expertId.
Proof.
  intros Hbytes Hopen Hmax. destruct (open_inv d s Hopen) as (Hload & Hfile & _ & _ & Hin).
  destruct (experts_index d) as [file|]; [|done].
  apply load_inv in Hload as (rs & ps & Hmake & Hrs & _); [|by apply Hbytes].
  apply make_Ok in Hmake as Hrecs. destruct Hrecs as (_ & _ & Hrec & _).
  unfold load_expert. destruct (find (index_ s) layerId expertId) as [r|] eqn:Hfind; [|done].
  assert (r ∈ rs) as Hr.
  { rewrite <- Hrec. unfold find, find_in in Hfind. destruct (_ !! _); [|done].
    by eapply list_elem_of_lookup_2. }
  rewrite Hrec, Forall_forall in Hin. specialize (Hin r Hr).
  rewrite Forall_forall in Hrs. destruct (Hrs r Hr) as (_ & _ & Ho & Hs & _).
  unfold is_u64 in *. unfold mappedExpert, readExpert, requireRecord. rewrite Hfind, Hfile. cbn.
  rewrite view_inside by lia. cbn.
  destruct (Z.ltb_spec streamsize_max (er_offset r)); [lia|].
  destruct (Z.ltb_spec streamsize_max (er_size r)); [lia|]. cbn.
  rewrite length_take, length_drop.
  match goal with |- context [Z.of_nat ?a <? er_size r] =>
    destruct (Z.ltb_spec (Z.of_nat a) (er_size r)); [lia|] end.
  done.
Qed.

Definition sample_blobs : list ExpertBlob := [mkBlob 0 1 6 [1; 2; 3]; mkBlob 0 2 6 [4; 5]].
Definition empty_directory : Directory := mkDirectory None None None None.
Definition sample_directory : Directory := snd (create sample_blobs "{}" empty_directory).

Lemma sample_blobs_wf : Forall blob_wf sample_blobs /\ blobs_size sample_blobs <= streamsize_max.
Proof. split; [repeat constructor; discriminate || reflexivity|vm_compute; discriminate]. Qed.

Lemma store_roundtrip_witness :
  exists s, open sample_directory = Ok s /\
    exists r, load_expert s RangeRead 0 2 = Ok (mkLoaded r [4; 5]).
Proof.
  destruct sample_blobs_wf as [Hwf Hfit].
  destruct (store_roundtrip sample_blobs "{}" empty_directory sample_directory Hwf Hfit) as (s & Hs & _ & H).
  - vm_compute. reflexivity.
  - exists s. split; [exact Hs|]. apply (H (mkBlob 0 2 6 [4; 5]) RangeRead). right. left.
Defined.

Lemma store_layout_witness :
  exists s, open sample_directory = Ok s /\ StronglySorted after (records_ (index_ s)).
Proof.
  destruct sample_blobs_wf as [Hwf Hfit].
  destruct (open sample_directory) as [s| |] eqn:Hs; [|vm_compute in Hs; discriminate Hs..].
  exists s. split; [reflexivity|].
  apply (store_layout sample_blobs "{}" empty_directory sample_directory s Hwf Hfit); [|exact Hs].
  vm_compute. reflexivity.
Defined.

Lemma read_modes_agree_witness :
  exists s, open sample_directory = Ok s /\
    load_expert s MemoryMap 0 1 = load_expert s RangeRead 0 1.
Proof.
  destruct (open sample_directory) as [s| |] eqn:Hs; [|vm_compute in Hs; discriminate Hs..].
  exists s. split; [reflexivity|]. apply (read_modes_agree sample_directory s 0 1); [|exact Hs|].
  - intros file Hfile. vm_compute in Hfile. injection Hfile as <-.
    repeat constructor; discriminate || reflexivity.
  - vm_compute in Hs. injection Hs as <-. vm_compute. discriminate.
Defined.
