(* ===== verification/Transfer.v ===== *)
(** * Buffers and the transfer manager

    [src/backend/Backend.hpp], [src/memory/PinnedBuffer.cpp] and
    [src/memory/TransferManager.cpp]: the buffers that hold expert weights in the
    three resident tiers, the transfer requests, what a worker does with one, and
    the queue shared by the workers.  A buffer has an address, so that pointer
    comparisons of the source can be stated.  What a worker calls behind an interface
    (allocations, the compute backend, the client's callback) returns or throws: the
    model takes the outcome of every such call as a parameter.  The streams and events
    a worker holds are counted; durations and bandwidths are left out. *)

From S2P Require Import Prelude Tiers Bytes ExpertIndex ExpertStore.

(** ** Buffers *)

Inductive BackendKind : Type := Cpu | Cuda.
#[global] Instance BackendKind_eq_dec : EqDecision BackendKind.
Proof. solve_decision. Defined.

Record ComputeBackend : Type := mkBackend {
  be_identity : Z;
  be_kind : BackendKind;
  be_deviceOrdinal : Z;
  be_isAvailable : bool;
  be_supportsPinnedMemory : bool;
}.

(** [std::shared_ptr<const std::vector<std::byte>>] *)
Record HostBuffer : Type := mkHost { hb_address : Z; hb_bytes : list Z }.
(** [std::shared_ptr<PinnedBuffer>] *)
Record PinnedBuffer : Type := mkPinned { pb_address : Z; pb_bytes : list Z; pb_pinned : bool }.
(** [std::shared_ptr<backend::DeviceBuffer>]; [db_data] is [data_ != nullptr]. *)
Record DeviceBuffer : Type := mkDevice {
  db_address : Z;
  db_backend : option ComputeBackend;
  db_data : bool;
  db_bytes : list Z;
}.

Definition host_size (b : HostBuffer) : Z := Z.of_nat (length (hb_bytes b)).
Definition pinned_size (b : PinnedBuffer) : Z := Z.of_nat (length (pb_bytes b)).
Definition device_size (b : DeviceBuffer) : Z := Z.of_nat (length (db_bytes b)).

(** ** Requests and results *)

Record TransferRequest : Type := mkRequest {
  tr_layerId : Z;
  tr_expertId : Z;
  tr_destination : MemoryTier;
  tr_priority : Z;
  tr_source : MemoryTier;
  tr_hostBuffer : option HostBuffer;
  tr_sourcePinnedBuffer : option PinnedBuffer;
  tr_sourceDeviceBuffer : option DeviceBuffer;
  tr_callback : option Z;
}.

Inductive TransferStatus : Type := Completed | Cancelled.
#[global] Instance TransferStatus_eq_dec : EqDecision TransferStatus.
Proof. solve_decision. Defined.

Record TransferResult : Type := mkResult {
  rs_status : TransferStatus;
  rs_record : ExpertRecord;
  rs_buffer : option HostBuffer;
  rs_pinnedBuffer : option PinnedBuffer;
  rs_deviceBuffer : option DeviceBuffer;
  rs_source : MemoryTier;
  rs_destination : MemoryTier;
  rs_usedPinnedMemory : bool;
  rs_nvmeBytes : Z;
  rs_ramToVramBytes : Z;
  rs_completionOrder : Z;
  rs_cudaTransfer : bool;
}.

Definition no_record : ExpertRecord := mkRecord 0 0 0 0 0 0.

Definition cancelledResult : TransferResult :=
  mkResult Cancelled no_record None None None Nvme Ram false 0 0 0 false.

(** What [ExpertManager] uses of the manager: submitting a request and waiting for
    its future.  The client's thread resumes with a result or an exception; the
    service owns its state and draws the addresses of new buffers from a counter. *)
Class TransferService (T : Type) := {
  submit_and_wait : TransferRequest -> ST (T * Z) TransferResult;
}.

(** The future of a submitted request becomes ready. *)
Class TransferServiceLaws (T : Type) `{TransferService T} : Prop := {
  submit_and_wait_total r s s' : submit_and_wait r s <> (Diverge, s');
}.

(** ** The work of one task *)

(** The calls of a worker that leave this code: they may throw. *)
Inductive ExternalCall : Type :=
  | AllocateHost (size : Z) | AllocatePinned (size : Z) | AllocateDevice (size : Z)
  | CreateStream | CreateEvent
  | CopyToDevice (size : Z) | CopyFromDevice (size : Z) | RecordEvent | WaitEvent
  | Callback (c : Z) (r : TransferResult).

Record TransferState : Type := mkTransferState {
  heap_ : Z;                                  (* next buffer address *)
  nextCompletion_ : Z;
  callbacks_ : list (Z * TransferResult);     (* callbacks made, in order *)
  calls_ : Z;                                 (* external calls made *)
  streams_ : Z;                               (* streams created by workers and not destroyed *)
  events_ : Z;                                (* events, likewise *)
}.

Definition newTransferState (heap : Z) : TransferState := mkTransferState heap 0 [] 0 0 0.

Definition fresh_address : ST TransferState Z :=
  (s <- st_get ;;
   modify (fun s => mkTransferState (heap_ s + 1) (nextCompletion_ s) (callbacks_ s) (calls_ s) (streams_ s) (events_ s)) ;;;
   ret (heap_ s))%st.

Definition add_handles (streams events : Z) (s : TransferState) : TransferState :=
  mkTransferState (heap_ s) (nextCompletion_ s) (callbacks_ s) (calls_ s) (streams_ s + streams) (events_ s + events).
Definition add_callback (c : Z) (r : TransferResult) (s : TransferState) : TransferState :=
  mkTransferState (heap_ s) (nextCompletion_ s) (callbacks_ s ++ [(c, r)]) (calls_ s) (streams_ s) (events_ s).

(** [cleanup] runs whether [m] returns or throws. *)
Definition finally {A} (cleanup : TransferState -> TransferState) (m : ST TransferState A) : ST TransferState A :=
  fun s => let '(r, s') := m s in (r, cleanup s').

(** [nextCompletion_.fetch_add(1)] *)
Definition next_completion : ST TransferState Z :=
  (s <- st_get ;;
   modify (fun s => mkTransferState (heap_ s) (wrap64 (nextCompletion_ s + 1)) (callbacks_ s) (calls_ s) (streams_ s) (events_ s)) ;;;
   ret (nextCompletion_ s))%st.

(** The buffer the data comes from, once the source stage is over. *)
Inductive Source : Type :=
  | FromHost (b : HostBuffer)
  | FromPinned (b : PinnedBuffer)
  | FromDevice (b : DeviceBuffer).

Section worker.
Context (store : ExpertStore) (mode : DiskReadMode) (backend : ComputeBackend).
(** [external c n = Some e]: the call [c] throws [e] when it is the [n]-th of the worker. *)
Context (external : ExternalCall -> Z -> option exn).

Definition call (c : ExternalCall) : ST TransferState unit :=
  (s <- st_get ;;
   modify (fun s => mkTransferState (heap_ s) (nextCompletion_ s) (callbacks_ s) (calls_ s + 1) (streams_ s) (events_ s)) ;;;
   match external c (calls_ s) with Some e => throw e | None => ret tt end)%st.

Definition is_cuda : bool := bool_decide (be_kind backend = Cuda).

Definition new_host (bytes : list Z) : ST TransferState HostBuffer :=
  (call (AllocateHost (Z.of_nat (length bytes))) ;;; a <- fresh_address ;; ret (mkHost a bytes))%st.

(** [PinnedBuffer(size, backend)], then filled from [bytes] *)
Definition new_pinned (size : Z) (bytes : list Z) : ST TransferState PinnedBuffer :=
  (lift (throw_if (size =? 0) (Exn InvalidArgument "PinnedBuffer size must be nonzero")) ;;;
   call (AllocatePinned size) ;;;
   a <- fresh_address ;;
   ret (mkPinned a (take (Z.to_nat size) bytes) (be_supportsPinnedMemory backend)))%st.

(** The pool of a CUDA backend, or a buffer of its own; then filled from [bytes] *)
Definition new_device (size : Z) (bytes : list Z) : ST TransferState DeviceBuffer :=
  (lift (throw_if (size =? 0) (Exn InvalidArgument
     (if is_cuda then "memory-pool allocation must be nonzero" else "DeviceBuffer size must be nonzero"))) ;;;
   call (AllocateDevice size) ;;;
   a <- fresh_address ;;
   ret (mkDevice a (Some backend) true (take (Z.to_nat size) bytes)))%st.

(** The copy commands of a transfer: on the shared stream of a CUDA backend, or on a
    stream of the task's own, and with an event; both are destroyed when the commands
    are done, and by the handler of the [try] block when one of them throws. *)
Definition on_stream {A} (commands : ST TransferState A) : ST TransferState A :=
  let with_event := (call CreateEvent ;;; modify (add_handles 0 1) ;;; finally (add_handles 0 (-1)) commands)%st in
  if is_cuda then with_event
  else (call CreateStream ;;; modify (add_handles 1 0) ;;; finally (add_handles (-1) 0) with_event)%st.

Definition run_callback (callback : option Z) (r : TransferResult) : ST TransferState unit :=
  match callback with
  | None => ret tt
  | Some c => (modify (add_callback c r) ;;; call (Callback c r))%st
  end.

(** Set the completion order, call back, return. *)
Definition complete (callback : option Z) (r : TransferResult) : ST TransferState TransferResult :=
  (order <- next_completion ;;
   let r := mkResult (rs_status r) (rs_record r) (rs_buffer r) (rs_pinnedBuffer r)
              (rs_deviceBuffer r) (rs_source r) (rs_destination r) (rs_usedPinnedMemory r)
              (rs_nvmeBytes r) (rs_ramToVramBytes r) order (rs_cudaTransfer r) in
   run_callback callback r ;;;
   ret r)%st.

(** The first half of the [try] block: load or check the source. *)
Definition source_stage (request : TransferRequest) : ST TransferState (ExpertRecord * Source) :=
  match tr_source request with
  | Nvme =>
      (loaded <- lift (load_expert store mode (tr_layerId request) (tr_expertId request)) ;;
       buffer <- new_host (le_data loaded) ;;
       ret (le_record loaded, FromHost buffer))%st
  | source =>
      match find (index_ store) (tr_layerId request) (tr_expertId request) with
      | None => throw (Exn StorageError "transfer expert is not indexed")
      | Some record =>
          match source with
          | PinnedRam =>
              match tr_sourcePinnedBuffer request with
              | Some b =>
                  if pinned_size b =? er_size record then ret (record, FromPinned b)
                  else throw (Exn InvalidArgument "pinned source buffer size mismatch")
              | None => throw (Exn InvalidArgument "pinned source buffer size mismatch")
              end
          | Vram =>
              match tr_sourceDeviceBuffer request with
              | Some b =>
                  if negb (device_size b =? er_size record)
                  then throw (Exn InvalidArgument "device source buffer size mismatch")
                  else if bool_decide (be_identity <$> db_backend b = Some (be_identity backend))
                  then ret (record, FromDevice b)
                  else throw (Exn InvalidArgument "device source belongs to another backend")
              | None => throw (Exn InvalidArgument "device source buffer size mismatch")
              end
          | _ =>
              match tr_hostBuffer request with
              | Some b =>
                  if host_size b =? er_size record then ret (record, FromHost b)
                  else throw (Exn InvalidArgument "RAM source buffer size mismatch")
              | None => throw (Exn InvalidArgument "RAM source buffer size mismatch")
              end
          end
      end
  end.

(** The second half: move the data to the destination tier.  [cancelled] is what
    the last test of the flag reads. *)
Definition destination_stage (request : TransferRequest) (record : ExpertRecord)
    (source : Source) (cancelled : bool) : ST TransferState TransferResult :=
  let nvmeBytes := if tier_eqb (tr_source request) Nvme then er_size record else 0 in
  let result buffer pinned device used toVram cuda :=
    mkResult Completed record buffer pinned device (tr_source request) (tr_destination request)
      used nvmeBytes toVram 0 cuda in
  let finish r :=
    if cancelled then ret cancelledResult else complete (tr_callback request) r in
  let download size := (call (CopyFromDevice size) ;;; call RecordEvent ;;; call WaitEvent)%st in
  match tr_destination request with
  | Ram =>
      match source with
      | FromDevice d =>
          (pinned <- new_pinned (er_size record) (db_bytes d) ;;
           buffer <- on_stream (download (pinned_size pinned) ;;; new_host (pb_bytes pinned)) ;;
           finish (result (Some buffer) None None (pb_pinned pinned) 0 is_cuda))%st
      | FromHost b => finish (result (Some b) None None false 0 false)
      | FromPinned p =>
          (buffer <- new_host (pb_bytes p) ;;
           finish (result (Some buffer) None None false 0 false))%st
      end
  | PinnedRam =>
      let store bytes commands cuda :=
        (pinned <- new_pinned (er_size record) bytes ;;
         commands pinned ;;;
         finish (result None (Some pinned) None (pb_pinned pinned) 0 cuda))%st in
      match source with
      | FromDevice d => store (db_bytes d) (fun pinned => on_stream (download (pinned_size pinned))) is_cuda
      | FromPinned p => store (pb_bytes p) (fun _ => ret tt) false
      | FromHost b => store (hb_bytes b) (fun _ => ret tt) false
      end
  | Vram =>
      let upload staging :=
        (device <- new_device (er_size record) (pb_bytes staging) ;;
         on_stream (call (CopyToDevice (pinned_size staging)) ;;; call RecordEvent ;;; call WaitEvent) ;;;
         finish (result None None (Some device) (pb_pinned staging) (er_size record) is_cuda))%st in
      match source with
      | FromDevice d => complete (tr_callback request) (result None None (Some d) false 0 false)
      | FromPinned p => upload p
      | FromHost b => (staging <- new_pinned (er_size record) (hb_bytes b) ;; upload staging)%st
      end
  | Nvme => throw (Exn InvalidArgument "transfer destination cannot be NVMe")
  end.

(** A task from the moment it is popped to its promise: the value set, or the exception
    the handler of the [try] block hands over.  The three booleans are what the three
    tests of the cancellation flag read. *)
Definition processTask (request : TransferRequest) (cancelled0 cancelled1 cancelled2 : bool)
    : ST TransferState TransferResult :=
  if cancelled0 then ret cancelledResult
  else
    (' (record, source) <- source_stage request ;;
     if cancelled1 then ret cancelledResult
     else destination_stage request record source cancelled2)%st.
End worker.

(** ** The queue *)

Record Task : Type := mkTask { tk_request : TransferRequest; tk_sequence : Z }.

Record TransferManager : Type := mkTransferManager {
  tm_tasks : list Task;                        (* the priority queue *)
  tm_running : list Task;                      (* popped, promise not yet set *)
  tm_cancelled : gset Z;                       (* tasks whose flag is set *)
  tm_flagged : gset Z;                         (* those whose flag [shutdown] set, under the lock *)
  tm_promises : gmap Z (result TransferResult);
  tm_nextSequence : Z;
  tm_stopping : bool;
  tm_state : TransferState;
}.

Definition newTransferManager (heap : Z) : TransferManager :=
  mkTransferManager [] [] ∅ ∅ ∅ 0 false (newTransferState heap).

(** The constructor: [deviceFound] is whether the CUDA runtime knows the device of a
    CUDA backend. *)
Definition constructTransferManager (loader : bool) (backend : option ComputeBackend) (workerCount : Z)
    (deviceFound : bool) (heap : Z) : result TransferManager :=
  (throw_if (negb loader) (Exn InvalidArgument "TransferManager requires a DiskLoader") ;;?
   throw_if (workerCount =? 0) (Exn InvalidArgument "TransferManager requires at least one worker") ;;?
   match backend with
   | Some b =>
       throw_if (negb (be_isAvailable b)) (Exn InvalidArgument "TransferManager requires an available backend") ;;?
       throw_if (bool_decide (be_kind b = Cuda) && negb deviceFound)
         (Exn RuntimeError "CUDA backend has no matching runtime device") ;;?
       Ok (newTransferManager heap)
   | None => Throw (Exn InvalidArgument "TransferManager requires an available backend")
   end)%res.

(** [HigherPriority(left, right)]: [left] comes after [right]. *)
Definition HigherPriority (left right : Task) : bool :=
  if negb (tr_priority (tk_request left) =? tr_priority (tk_request right))
  then tr_priority (tk_request left) <? tr_priority (tk_request right)
  else tk_sequence right <? tk_sequence left.

(** [tasks_.top()]: no other task comes before it. *)
Definition top (tasks : list Task) : option Task := scan_min (fun a b => HigherPriority b a) tasks.

Definition remove_task (t : Task) (tasks : list Task) : list Task :=
  filter (fun u => tk_sequence u <> tk_sequence t) tasks.

Definition submit (request : TransferRequest) : ST TransferManager Z :=
  (lift (throw_if (tier_eqb (tr_destination request) Nvme)
     (Exn InvalidArgument "a load destination cannot be NVMe")) ;;;
   m <- st_get ;;
   lift (throw_if (tm_stopping m) (Exn RuntimeError "TransferManager is shutting down")) ;;;
   modify (fun m => mkTransferManager (tm_tasks m ++ [mkTask request (tm_nextSequence m)])
     (tm_running m) (tm_cancelled m) (tm_flagged m) (tm_promises m) (wrap64 (tm_nextSequence m + 1))
     (tm_stopping m) (tm_state m)) ;;;
   ret (tm_nextSequence m))%st.

(** [TransferHandle::cancel] *)
Definition cancel (sequence : Z) (m : TransferManager) : TransferManager :=
  mkTransferManager (tm_tasks m) (tm_running m) ({[sequence]} ∪ tm_cancelled m) (tm_flagged m) (tm_promises m)
    (tm_nextSequence m) (tm_stopping m) (tm_state m).

Definition pending (m : TransferManager) : nat := length (tm_tasks m).

(** The locked part of [shutdown]; joining the workers is what the steps below do. *)
Definition shutdown (m : TransferManager) : TransferManager :=
  if tm_stopping m then m
  else mkTransferManager (tm_tasks m) (tm_running m)
         (list_to_set (tk_sequence <$> tm_tasks m) ∪ tm_cancelled m)
         (list_to_set (tk_sequence <$> tm_tasks m) ∪ tm_flagged m) (tm_promises m)
         (tm_nextSequence m) true (tm_state m).

(** The locked part of [workerLoop]: [None] when the worker sleeps or leaves. *)
Definition pop (m : TransferManager) : option (Task * TransferManager) :=
  match top (tm_tasks m) with
  | None => None
  | Some t => Some (t, mkTransferManager (remove_task t (tm_tasks m)) (t :: tm_running m)
                         (tm_cancelled m) (tm_flagged m) (tm_promises m) (tm_nextSequence m) (tm_stopping m)
                         (tm_state m))
  end.

Section manager.
Context (store : ExpertStore) (mode : DiskReadMode) (backend : ComputeBackend).
Context (external : ExternalCall -> Z -> option exn).

(** A worker finishes a task it popped: the promise is set. *)
Definition finish_task (t : Task) (c0 c1 c2 : bool) (m : TransferManager) : TransferManager :=
  let '(outcome, st) := processTask store mode backend external (tk_request t) c0 c1 c2 (tm_state m) in
  mkTransferManager (tm_tasks m) (remove_task t (tm_running m)) (tm_cancelled m) (tm_flagged m)
    (<[tk_sequence t := outcome]> (tm_promises m)) (tm_nextSequence m) (tm_stopping m) st.

(** Steps of the program: a client's call, or a worker's.  Flags are only ever set, and
    a task is not seen cancelled before someone cancels it; a flag that [shutdown] sets
    under the lock is seen by the worker that pops the task under it later, while
    [cancel] does not synchronize with the worker. *)
Inductive client_step : TransferManager -> TransferManager -> Prop :=
  | step_submit m request :
      tm_nextSequence m < u64_max -> client_step m (snd (submit request m))
  | step_cancel m q : q < tm_nextSequence m -> client_step m (cancel q m)
  | step_shutdown m : client_step m (shutdown m).

Inductive worker_step : TransferManager -> TransferManager -> Prop :=
  | step_pop m t m' : pop m = Some (t, m') -> worker_step m m'
  | step_finish m t (c0 c1 c2 : bool) :
      t ∈ tm_running m ->
      (c0 = true -> c1 = true) -> (c1 = true -> c2 = true) ->
      (c2 = true -> tk_sequence t ∈ tm_cancelled m) ->
      (tk_sequence t ∈ tm_flagged m -> c0 = true) ->
      worker_step m (finish_task t c0 c1 c2 m).

Definition tm_step (m m' : TransferManager) : Prop := client_step m m' \/ worker_step m m'.

(** [workerLoop] of one worker that runs without interleaving until it would sleep
    or leave; the fuel is the number of tasks it may take. *)
Fixpoint workerLoop (fuel : nat) (m : TransferManager) : TransferManager :=
  match fuel with
  | O => m
  | S fuel =>
      match pop m with
      | None => m
      | Some (t, m') =>
          let c := bool_decide (tk_sequence t ∈ tm_cancelled m') in
          workerLoop fuel (finish_task t c c c m')
      end
  end.
End manager.

(** ** What a task delivers *)

(** The bytes the request is about, and the bytes a result delivers. *)
Definition source_bytes (store : ExpertStore) (mode : DiskReadMode) (r : TransferRequest)
    : option (list Z) :=
  match tr_source r with
  | Nvme => match load_expert store mode (tr_layerId r) (tr_expertId r) with
            | Ok l => Some (le_data l) | _ => None end
  | Ram => hb_bytes <$> tr_hostBuffer r
  | PinnedRam => pb_bytes <$> tr_sourcePinnedBuffer r
  | Vram => db_bytes <$> tr_sourceDeviceBuffer r
  end.

Definition result_bytes (r : TransferResult) : option (list Z) :=
  match rs_destination r with
  | Ram => hb_bytes <$> rs_buffer r
  | PinnedRam => pb_bytes <$> rs_pinnedBuffer r
  | Vram => db_bytes <$> rs_deviceBuffer r
  | Nvme => None
  end.

(** A completed transfer delivers the bytes [bytes] of [record] to the requested tier. *)
Definition delivers (request : TransferRequest) (record : ExpertRecord) (bytes : list Z)
    (r : TransferResult) : Prop :=
  rs_destination r = tr_destination request /\ rs_source r = tr_source request /\
  rs_record r = record /\ result_bytes r = Some bytes /\
  Z.of_nat (length bytes) = er_size record /\
  rs_nvmeBytes r = (if tier_eqb (tr_source request) Nvme then er_size record else 0).

(** The streams and events a task creates are destroyed. *)
Definition same_handles (s s' : TransferState) : Prop := streams_ s' = streams_ s /\ events_ s' = events_ s.

(** The only effects of a task besides its result. *)
Definition completes (request : TransferRequest) (r : TransferResult) (s s' : TransferState) : Prop :=
  heap_ s <= heap_ s' /\
  match rs_status r with
  | Completed => rs_completionOrder r = nextCompletion_ s /\
                 nextCompletion_ s' = wrap64 (nextCompletion_ s + 1) /\
                 callbacks_ s' = callbacks_ s ++
                   match tr_callback request with Some c => [(c, r)] | None => [] end
  | Cancelled => nextCompletion_ s' = nextCompletion_ s /\ callbacks_ s' = callbacks_ s
  end.

Definition quiet (s s' : TransferState) : Prop :=
  heap_ s <= heap_ s' /\ nextCompletion_ s' = nextCompletion_ s /\ callbacks_ s' = callbacks_ s /\ calls_ s <= calls_ s'.

Lemma load_expert_size s mode l e x :
  Forall record_wf (records_ (index_ s)) -> load_expert s mode l e = Ok x ->
  find (index_ s) l e = Some (le_record x) /\ Z.of_nat (length (le_data x)) = er_size (le_record x).
Proof.
  intros Hwf. unfold load_expert. destruct (find (index_ s) l e) as [r|] eqn:Hf; [|done].
  assert (is_u64 (er_offset r) /\ is_u64 (er_size r)) as [Ho Hs].
  { unfold find, find_in in Hf. destruct (_ !! _); [|done].
    rewrite Forall_forall in Hwf. apply list_elem_of_lookup_2, Hwf in Hf. unfold record_wf in Hf. tauto. }
  unfold is_u64 in *. destruct mode; intros (bytes & Hb & [= <-])%res_bind_Ok; cbn; split; [done| |done|].
  - unfold mappedExpert, requireRecord in Hb. rewrite Hf in Hb. cbn in Hb.
    apply res_bind_Ok in Hb as (b & Hv & Hb). apply res_bind_Ok in Hb as ([] & _ & [= <-]).
    unfold view in Hv. destruct (Z.ltb_spec (Z.of_nat (length (mappedData_ s))) (er_offset r)); [done|].
    destruct (Z.ltb_spec (Z.of_nat (length (mappedData_ s)) - er_offset r) (er_size r)); [done|].
    cbn in Hv. injection Hv as <-. rewrite length_take, length_drop. lia.
  - unfold readExpert, requireRecord in Hb. rewrite Hf in Hb. cbn in Hb.
    destruct (dataFile_ s) as [file|]; [|done].
    apply res_bind_Ok in Hb as ([] & _ & Hb). apply res_bind_Ok in Hb as ([] & Hshort & Hb).
    apply res_bind_Ok in Hb as ([] & _ & [= <-]). unfold throw_if in Hshort.
    revert Hshort. rewrite length_take.
    match goal with |- context [?a <? ?b] => destruct (Z.ltb_spec a b); [done|lia] end.
Qed.

Definition src_bytes (s : Source) : list Z :=
  match s with FromHost b => hb_bytes b | FromPinned b => pb_bytes b | FromDevice b => db_bytes b end.

Section worker_spec.
Context (store : ExpertStore) (mode : DiskReadMode) (backend : ComputeBackend).
Context (external : ExternalCall -> Z -> option exn).
Hypothesis Hwf : Forall record_wf (records_ (index_ store)).

(** One of the calls made between [s] and [s'] threw [e]. *)
Definition call_threw (e : exn) (s s' : TransferState) : Prop :=
  exists c n, calls_ s <= n < calls_ s' /\ external c n = Some e.
(** Why a transfer can be refused, with nothing to show for it. *)
Definition transfer_error (e : exn) (s s' : TransferState) : Prop :=
  quiet s s' /\ (kind_of e = StorageError \/ kind_of e = InvalidArgument \/ call_threw e s s').

(** A part of a task before its completion, seen from the start [s0] of the task. *)
Definition part {A} (m : ST TransferState A) (s0 s : TransferState) (P : A -> Prop) : Prop :=
  wp m s (fun a s' => quiet s0 s' /\ same_handles s s' /\ P a)
    (fun e s' => transfer_error e s0 s' /\ same_handles s s').

Lemma quiet_refl s : quiet s s.
Proof. unfold quiet. split_and!; done || lia. Qed.
#[local] Hint Resolve quiet_refl : core.

Lemma part_bind {A B} (m : ST TransferState A) (k : A -> ST TransferState B) s0 s P (Q : B -> Prop) :
  part m s0 s P -> (forall a s1, quiet s0 s1 -> P a -> part (k a) s0 s1 Q) -> part (st_bind m k) s0 s Q.
Proof.
  intros Hm Hk. unfold part. wp_step. eapply wp_mono; [exact Hm| |done]. intros a s1 (Hq & [H1 H2] & Ha).
  eapply wp_mono; [by apply Hk|..]; unfold same_handles; cbn; intros ? s2; rewrite H1, H2; tauto.
Qed.

Lemma part_call c s0 s : quiet s0 s -> part (call external c) s0 s (fun _ => True).
Proof.
  intros (? & ? & ? & ?). unfold part, call. wp_steps.
  destruct (external c (calls_ s)) as [e|] eqn:He; wp_step; (split; [|done]); [|unfold quiet; cbn; split_and!; done || lia].
  split; [unfold quiet; cbn; split_and!; done || lia|]. right. right. exists c, (calls_ s). cbn. split; [lia|done].
Qed.

Lemma part_refuse {A} msg s0 s (P : A -> Prop) : quiet s0 s -> part (throw (Exn InvalidArgument msg)) s0 s P.
Proof. intros Hq. unfold part. wp_step. split; [|done]. split; [done|]. by right; left. Qed.

Lemma part_throw_if c msg s0 s : quiet s0 s -> part (lift (throw_if c (Exn InvalidArgument msg))) s0 s (fun _ => c = false).
Proof. intros Hq. unfold part. apply wp_lift. destruct c; [|done]. split; [|done]. split; [done|]. by right; left. Qed.

Lemma part_address s0 s : quiet s0 s -> part fresh_address s0 s (fun _ => True).
Proof. intros (? & ? & ? & ?). unfold part, fresh_address. wp_steps. unfold quiet. cbn. split; [split_and!; done || lia|done]. Qed.

Lemma part_ret {A} (a : A) s0 s (P : A -> Prop) : quiet s0 s -> P a -> part (ret a) s0 s P.
Proof. intros Hq Ha. unfold part. by wp_step. Qed.

Lemma part_handles {A} ds de (m : ST TransferState A) s0 s P : (forall s1, quiet s0 s1 -> part m s0 s1 P) -> quiet s0 s ->
  part (modify (add_handles ds de) ;;; finally (add_handles (- ds) (- de)) m)%st s0 s P.
Proof.
  intros Hm Hq. unfold part. wp_step. wp_step. unfold wp, finally. specialize (Hm (add_handles ds de s) Hq). unfold part, wp in Hm.
  destruct (m _) as [[a|e|] s1]; [| |done]; destruct Hm as (H1 & [H2 H3] & H4) || destruct Hm as (H1 & [H2 H3]);
    cbn in H2, H3; unfold same_handles; cbn; (split; [exact H1|]); [split; [lia|done]|lia].
Qed.

Lemma part_on_stream {A} (commands : ST TransferState A) s0 s P : (forall s1, quiet s0 s1 -> part commands s0 s1 P) -> quiet s0 s ->
  part (on_stream backend external commands) s0 s P.
Proof.
  intros Hm Hq. unfold on_stream.
  assert (forall s1, quiet s0 s1 -> part (call external CreateEvent ;;; modify (add_handles 0 1) ;;; finally (add_handles 0 (-1)) commands)%st s0 s1 P) as He.
  { intros s1 H1. eapply part_bind; [by apply part_call|]. intros _ s2 H2 _. by apply (part_handles 0 1). }
  destruct (is_cuda backend); [by apply He|]. eapply part_bind; [by apply part_call|]. intros _ s1 H1 _. by apply (part_handles 1 0).
Qed.

Lemma part_new_host bytes s0 s : quiet s0 s -> part (new_host external bytes) s0 s (fun b => hb_bytes b = bytes).
Proof.
  intros Hq. eapply part_bind; [by apply part_call|]. intros _ s1 H1 _. eapply part_bind; [by apply part_address|].
  intros a s2 H2 _. by apply part_ret.
Qed.

Lemma part_new_pinned size bytes s0 s : quiet s0 s -> Z.of_nat (length bytes) = size ->
  part (new_pinned backend external size bytes) s0 s (fun b => pb_bytes b = bytes).
Proof.
  intros Hq Hlen. eapply part_bind; [by apply part_throw_if|]. intros _ s1 H1 _. eapply part_bind; [by apply part_call|].
  intros _ s2 H2 _. eapply part_bind; [by apply part_address|]. intros a s3 H3 _. apply part_ret; [done|].
  cbn. by rewrite firstn_all2 by lia.
Qed.

Lemma part_new_device size bytes s0 s : quiet s0 s -> Z.of_nat (length bytes) = size ->
  part (new_device backend external size bytes) s0 s (fun b => db_bytes b = bytes).
Proof.
  intros Hq Hlen. eapply part_bind; [by apply part_throw_if|]. intros _ s1 H1 _. eapply part_bind; [by apply part_call|].
  intros _ s2 H2 _. eapply part_bind; [by apply part_address|]. intros a s3 H3 _. apply part_ret; [done|].
  cbn. by rewrite firstn_all2 by lia.
Qed.

(** Three commands on a stream. *)
Lemma part_commands c s0 s : quiet s0 s -> part (call external c ;;; call external RecordEvent ;;; call external WaitEvent)%st s0 s (fun _ => True).
Proof.
  intros Hq. do 2 (eapply part_bind; [by apply part_call|]; intros _ ? ? _). by apply part_call.
Qed.

Lemma load_expert_storage l e : storage_only (load_expert store mode l e).
Proof.
  unfold load_expert. destruct (find _ _ _) as [r|]; [|done].
  assert (forall b r', storage_only (validate b r')) as Hv.
  { intros. unfold validate, throw_if. by case_goal. }
  destruct mode; (apply storage_only_bind; [|done]).
  - unfold mappedExpert, requireRecord. apply storage_only_bind; [by case_goal|]. intros r'.
    apply storage_only_bind; [unfold view; by case_goal|]. intros b.
    by apply storage_only_bind.
  - unfold readExpert, requireRecord. apply storage_only_bind; [by case_goal|]. intros r'.
    case_goal; [|done]. unfold throw_if.
    apply storage_only_bind; [by case_goal|]. intros _.
    apply storage_only_bind; [by case_goal|]. intros _. by apply storage_only_bind.
Qed.

(** What the first half hands to the second. *)
Definition sourced (request : TransferRequest) (x : ExpertRecord * Source) : Prop :=
  find (index_ store) (tr_layerId request) (tr_expertId request) = Some x.1 /\
  source_bytes store mode request = Some (src_bytes x.2) /\
  Z.of_nat (length (src_bytes x.2)) = er_size x.1.

Lemma source_stage_spec request s : part (source_stage store mode backend external request) s s (sourced request).
Proof.
  unfold source_stage, sourced, source_bytes.
  assert (forall l e msg, find (index_ store) l e = None ->
    part (A := ExpertRecord * Source) (throw (Exn StorageError msg)) s s (sourced request)) as Hth.
  { intros. unfold part. wp_step. split; [|done]. split; [done|by left]. }
  destruct (tr_source request) eqn:Hsrc.
  4: { pose proof (load_expert_storage (tr_layerId request) (tr_expertId request)) as Hst.
       apply (part_bind _ _ _ _ (fun x => load_expert store mode (tr_layerId request) (tr_expertId request) = Ok x)).
       - unfold part. apply wp_lift. destruct (load_expert _ _ _ _) as [x|e|]; [done| |done]. split; [|done]. split; [done|by left].
       - intros x s1 H1 Hl. rewrite Hl. apply load_expert_size in Hl as [Hf Hlen]; [|done].
         eapply part_bind; [by apply part_new_host|]. intros b s2 H2 Hb. apply part_ret; [done|]. cbn. by rewrite Hb. }
  all: unfold sourced, source_bytes in Hth; destruct (find _ _ _) as [r|] eqn:Hf; [|unfold part; wp_step; split; [|done]; split; [done|by left]].
  - destruct (tr_sourceDeviceBuffer request) as [b|]; [|by apply part_refuse].
    destruct (Z.eqb_spec (device_size b) (er_size r)); cbn [negb]; [|by apply part_refuse].
    case_bool_decide; [|by apply part_refuse]. by apply part_ret.
  - destruct (tr_hostBuffer request) as [b|]; [|by apply part_refuse].
    destruct (Z.eqb_spec (host_size b) (er_size r)); [|by apply part_refuse]. by apply part_ret.
  - destruct (tr_sourcePinnedBuffer request) as [b|]; [|by apply part_refuse].
    destruct (Z.eqb_spec (pinned_size b) (er_size r)); [|by apply part_refuse]. by apply part_ret.
Qed.

(** What a task may leave: a delivery, or nothing because it was cancelled. *)
Definition task_outcome (request : TransferRequest) (record : ExpertRecord) (bytes : list Z)
    (cancelled : bool) (s : TransferState) (r : TransferResult) (s' : TransferState) : Prop :=
  completes request r s s' /\
  match rs_status r with
  | Completed => delivers request record bytes r
  | Cancelled => r = cancelledResult /\ cancelled = true
  end.
(** How it can fail: refused, or at the very end by the callback. *)
Definition task_failed (request : TransferRequest) (record : ExpertRecord) (bytes : list Z)
    (s : TransferState) (e : exn) (s' : TransferState) : Prop :=
  transfer_error e s s' \/
  exists c r n, tr_callback request = Some c /\ external (Callback c r) n = Some e /\ calls_ s <= n < calls_ s' /\
    rs_status r = Completed /\ completes request r s s' /\ delivers request record bytes r.

Section task.
Variables (request : TransferRequest) (record : ExpertRecord) (bytes : list Z) (cancelled : bool) (s0 : TransferState).

(** The end of a task. *)
Definition ended (m : ST TransferState TransferResult) (s : TransferState) : Prop :=
  wp m s (fun r s' => task_outcome request record bytes cancelled s0 r s' /\ same_handles s s')
    (fun e s' => task_failed request record bytes s0 e s' /\ same_handles s s').

Lemma ended_bind {A} (m : ST TransferState A) (k : A -> ST TransferState TransferResult) s P :
  part m s0 s P -> (forall a s1, quiet s0 s1 -> P a -> ended (k a) s1) -> ended (st_bind m k) s.
Proof.
  intros Hm Hk. unfold ended. wp_step. eapply wp_mono; [exact Hm| |].
  - intros a s1 (Hq & [H1 H2] & Ha).
    eapply wp_mono; [by apply Hk|..]; unfold same_handles; cbn; intros ? s2; rewrite H1, H2; tauto.
  - intros e s1 [He Hs]. split; [by left|done].
Qed.

Lemma complete_spec r s : quiet s0 s -> rs_status r = Completed -> delivers request record bytes r ->
  ended (complete external (tr_callback request) r) s.
Proof.
  intros (Hh & Hn & Hc & Hk) Hst Hd. unfold ended, complete, next_completion. wp_steps.
  unfold run_callback. destruct (tr_callback request) as [c|] eqn:Hcb.
  - unfold call. wp_steps. cbn [calls_ add_callback]. set (r' := mkResult _ _ _ _ _ _ _ _ _ _ _ _).
    destruct (external _ _) as [e|] eqn:He; wp_steps; (split; [|done]).
    + right. exists c, r', (calls_ s). split_and!; try done; try (cbn; lia).
      unfold completes. cbn. rewrite Hst, Hcb. cbn. rewrite Hn, Hc. split_and!; done || lia.
    + split; [|cbn; by rewrite Hst]. unfold completes. cbn. rewrite Hst, Hcb. cbn. rewrite Hn, Hc. split_and!; done || lia.
  - wp_steps. split; [|done]. split; [|cbn; by rewrite Hst]. unfold completes. cbn. rewrite Hst, Hcb. cbn.
    rewrite Hn, Hc, app_nil_r. split_and!; done || lia.
Qed.

Lemma finish_spec r s : quiet s0 s -> rs_status r = Completed -> delivers request record bytes r ->
  ended (if cancelled then ret cancelledResult else complete external (tr_callback request) r) s.
Proof.
  intros Hq Hst Hd. destruct cancelled eqn:Hc; [|by apply complete_spec]. unfold ended. wp_step. split; [|done].
  split; [|by rewrite Hc]. destruct Hq as (? & ? & ? & ?). by unfold completes.
Qed.
End task.

Lemma destination_stage_spec request record src cancelled s0 s :
  quiet s0 s -> Z.of_nat (length (src_bytes src)) = er_size record ->
  ended request record (src_bytes src) cancelled s0 (destination_stage backend external request record src cancelled) s.
Proof.
  intros Hq Hlen. unfold destination_stage. destruct (tr_destination request) eqn:Hdst.
  - assert (forall p s1, quiet s0 s1 -> pb_bytes p = src_bytes src -> ended request record (src_bytes src) cancelled s0
      (device <- new_device backend external (er_size record) (pb_bytes p) ;;
       on_stream backend external (call external (CopyToDevice (pinned_size p)) ;;; call external RecordEvent ;;; call external WaitEvent) ;;;
       if cancelled then ret cancelledResult
       else complete external (tr_callback request)
         (mkResult Completed record None None (Some device) (tr_source request) Vram
           (pb_pinned p) (if tier_eqb (tr_source request) Nvme then er_size record else 0)
           (er_size record) 0 (is_cuda backend)))%st s1) as Hup.
    { intros p s1 Hq1 Hp. eapply ended_bind; [by apply part_new_device; [|rewrite Hp]|]. intros d s2 H2 Hd.
      eapply ended_bind; [apply part_on_stream; [intros; by apply part_commands|done]|]. intros _ s3 H3 _.
      apply finish_spec; [done|done|]. unfold delivers, result_bytes. cbn. by rewrite Hd, Hp, Hdst. }
    destruct src as [b|p|d].
    + eapply ended_bind; [by apply part_new_pinned|]. intros p s1 Hq1 Hp. by apply Hup.
    + by apply Hup.
    + apply complete_spec; [done|done|]. unfold delivers, result_bytes. cbn. by rewrite Hdst.
  - destruct src as [b|p|d].
    + apply finish_spec; [done|done|]. unfold delivers. by rewrite Hdst.
    + eapply ended_bind; [by apply part_new_host|]. intros b s1 Hq1 Hb.
      apply finish_spec; [done|done|]. unfold delivers, result_bytes. cbn. by rewrite Hb, Hdst.
    + eapply ended_bind; [by apply part_new_pinned|]. intros p s1 Hq1 Hp.
      eapply ended_bind; [apply part_on_stream; [|done]|].
      { intros s2 H2. eapply part_bind; [by apply part_commands|]. intros _ s3 H3 _. by apply part_new_host. }
      intros b s2 Hq2 Hb. apply finish_spec; [done|done|]. unfold delivers, result_bytes. cbn. by rewrite Hb, Hp, Hdst.
  - assert (forall (bytes : list Z) (commands : PinnedBuffer -> ST TransferState unit) (cuda : bool), bytes = src_bytes src ->
      (forall p s1, quiet s0 s1 -> part (commands p) s0 s1 (fun _ => True)) -> ended request record (src_bytes src) cancelled s0
      (pinned <- new_pinned backend external (er_size record) bytes ;;
       commands pinned ;;;
       if cancelled then ret cancelledResult
       else complete external (tr_callback request)
         (mkResult Completed record None (Some pinned) None (tr_source request) PinnedRam
           (pb_pinned pinned) (if tier_eqb (tr_source request) Nvme then er_size record else 0)
           0 0 cuda))%st s) as Hpin.
    { intros bytes commands cuda -> Hcm. eapply ended_bind; [by apply part_new_pinned|]. intros p s1 Hq1 Hp.
      eapply ended_bind; [by apply Hcm|]. intros _ s2 Hq2 _. apply finish_spec; [done|done|].
      unfold delivers, result_bytes. cbn. by rewrite Hp, Hdst. }
    destruct src; apply (Hpin _ (fun _ => _)) || apply Hpin; try done; intros p' s1 H1; try (by apply part_ret).
    apply part_on_stream; [intros; by apply part_commands|done].
  - unfold ended. wp_step. split; [|done]. left. split; [done|]. by right; left.
Qed.

Lemma processTask_spec request c0 c1 c2 s :
  wp (processTask store mode backend external request c0 c1 c2) s
    (fun r s' => same_handles s s' /\ ((c0 = false /\ exists record bytes,
         find (index_ store) (tr_layerId request) (tr_expertId request) = Some record /\
         source_bytes store mode request = Some bytes /\
         task_outcome request record bytes (c1 || c2) s r s') \/
       (c0 = true /\ r = cancelledResult /\ s' = s)))
    (fun e s' => same_handles s s' /\ c0 = false /\ (transfer_error e s s' \/ exists record bytes,
       find (index_ store) (tr_layerId request) (tr_expertId request) = Some record /\
       source_bytes store mode request = Some bytes /\ task_failed request record bytes s e s')).
Proof.
  unfold processTask. destruct c0; [wp_step; split; [done|by right]|].
  wp_step. eapply wp_mono; [apply source_stage_spec| |by intros e s' [? ?]; split_and!; [..|left]].
  intros [record src] s1 (Hq & [H1 H2] & Hf & Hb & Hlen). cbn in Hf, Hb, Hlen. cbn beta iota.
  destruct c1; cbn [orb].
  - wp_step. split; [done|]. left. split; [done|]. exists record, (src_bytes src). destruct Hq as (? & ? & ? & ?). split_and!; try done.
  - eapply wp_mono; [by apply (destination_stage_spec request record src c2 s s1)|..]; unfold same_handles; rewrite H1, H2.
    + intros r s' [Ho Hs]. split; [done|]. left. eauto 6.
    + intros e s' [Ho Hs]. split; [done|]. split; [done|]. right. eauto 6.
Qed.
End worker_spec.

(** C35: a worker always resolves the task it popped.  A task nobody cancels either is
    refused, with a storage or argument error or because an allocation or a command of
    the backend threw, and then makes no callback and consumes no completion number; or
    it completes: the destination buffer holds exactly the source's bytes, one completion
    number is consumed and the callback is made once, with the delivered result, which
    also becomes the future's unless the callback throws: then the future gets what the
    callback threw.  A cancelled outcome is only possible when the flag was set, and then
    nothing is delivered.  Every stream and event the task created is destroyed. *)
Theorem transfer_delivers (store : ExpertStore) (mode : DiskReadMode) (backend : ComputeBackend)
    (external : ExternalCall -> Z -> option exn) (request : TransferRequest) (c0 c1 c2 : bool) (s : TransferState) :
  Forall record_wf (records_ (index_ store)) ->
  match processTask store mode backend external request c0 c1 c2 s with
  | (Ok r, s') =>
      same_handles s s' /\ completes request r s s' /\
      match rs_status r with
      | Completed => exists record bytes,
          find (index_ store) (tr_layerId request) (tr_expertId request) = Some record /\
          source_bytes store mode request = Some bytes /\ delivers request record bytes r
      | Cancelled => r = cancelledResult /\ c0 || c1 || c2 = true
      end
  | (Throw e, s') =>
      same_handles s s' /\ c0 = false /\
      (quiet s s' /\ (kind_of e = StorageError \/ kind_of e = InvalidArgument \/ call_threw external e s s') \/
       exists record bytes c r n,
         find (index_ store) (tr_layerId request) (tr_expertId request) = Some record /\
         source_bytes store mode request = Some bytes /\ delivers request record bytes r /\
         tr_callback request = Some c /\ external (Callback c r) n = Some e /\ calls_ s <= n < calls_ s' /\
         rs_status r = Completed /\ completes request r s s')
  | (Diverge, _) => False
  end.
Proof.
  intros Hwf.
  destruct (wp_result _ _ _ _ (processTask_spec store mode backend external Hwf request c0 c1 c2 s))
    as [(r & s' & -> & Hs & H)|(e & s' & -> & Hs & Hc & H)]; (split; [done|]).
  - destruct H as [(-> & record & bytes & Hf & Hb & Hc & Ho)|(-> & -> & ->)].
    + split; [done|]. destruct (rs_status r); [eauto|done].
    + split; [|done]. unfold completes. cbn. split_and!; done || lia.
  - split; [done|]. destruct H as [H|(record & bytes & Hf & Hb & [H|(c & r & n & ? & ? & ? & ? & ? & ?)])]; [by left..|].
    right. by exists record, bytes, c, r, n.
Qed.

Definition sample_store : result ExpertStore := open sample_directory.
Definition cpu_backend : ComputeBackend := mkBackend 7 Cpu 0 true false.

(** Nothing throws; the callback throws. *)
Definition no_faults (c : ExternalCall) (n : Z) : option exn := None.
Definition bad_callback (c : ExternalCall) (n : Z) : option exn :=
  match c with Callback _ _ => Some (Exn RuntimeError "callback") | _ => None end.
Definition sample_transfer : TransferRequest := mkRequest 0 1 Vram 0 Nvme None None None (Some 5).

Lemma transfer_delivers_witness :
  exists st, sample_store = Ok st /\
    (exists r s', processTask st MemoryMap cpu_backend no_faults sample_transfer false false false (newTransferState 0) = (Ok r, s') /\
      rs_status r = Completed /\ completes sample_transfer r (newTransferState 0) s') /\
    (exists s', processTask st MemoryMap cpu_backend bad_callback sample_transfer false false false (newTransferState 0) =
       (Throw (Exn RuntimeError "callback"), s') /\ same_handles (newTransferState 0) s' /\ length (callbacks_ s') = 1%nat).
Proof.
  destruct sample_store as [st| |] eqn:Hst; [|vm_compute in Hst; discriminate Hst..].
  exists st. split; [reflexivity|].
  assert (Forall record_wf (records_ (index_ st))) as Hwf.
  { vm_compute in Hst. injection Hst as <-. repeat constructor; discriminate. }
  split.
  - pose proof (transfer_delivers st MemoryMap cpu_backend no_faults sample_transfer false false false (newTransferState 0) Hwf) as H.
    destruct (processTask _ _ _ _ _ _ _ _) as [[r|e|] s'] eqn:Hp.
    + exists r, s'. split; [reflexivity|]. split; [|exact (proj1 (proj2 H))].
      vm_compute in Hst. injection Hst as <-. vm_compute in Hp. injection Hp as <- _. reflexivity.
    + vm_compute in Hst. injection Hst as <-. vm_compute in Hp. discriminate Hp.
    + destruct H.
  - pose proof (transfer_delivers st MemoryMap cpu_backend bad_callback sample_transfer false false false (newTransferState 0) Hwf) as H.
    destruct (processTask _ _ _ _ _ _ _ _) as [[r|e|] s'] eqn:Hp.
    + vm_compute in Hst. injection Hst as <-. vm_compute in Hp. discriminate Hp.
    + exists s'. destruct H as [H _]. vm_compute in Hst. injection Hst as <-. vm_compute in Hp. injection Hp as <- <-.
      split; [reflexivity|]. split; [exact H|reflexivity].
    + destruct H.
Defined.

(** ** The queue and the promises *)

Definition seqs (ts : list Task) : list Z := tk_sequence <$> ts.

Record tm_inv (m : TransferManager) : Prop := TmInv {
  ti_nodup : NoDup (seqs (tm_tasks m ++ tm_running m));
  ti_where : forall q, (q ∈ seqs (tm_tasks m ++ tm_running m) \/ is_Some (tm_promises m !! q)) <->
                       0 <= q < tm_nextSequence m;
  ti_once : forall q, q ∈ seqs (tm_tasks m ++ tm_running m) -> tm_promises m !! q = None;
  ti_cancelled : forall q r, tm_promises m !! q = Some (Ok r) -> rs_status r = Cancelled ->
                             q ∈ tm_cancelled m;
  ti_resolved : forall q, tm_promises m !! q <> Some Diverge;
  ti_stopping : tm_stopping m = true -> forall t, t ∈ tm_tasks m -> tk_sequence t ∈ tm_flagged m;
  ti_flags : forall q, q ∈ tm_cancelled m -> q < tm_nextSequence m;
  ti_flagged : forall q, q ∈ tm_flagged m -> q ∈ tm_cancelled m /\
                 (tm_promises m !! q = None \/ tm_promises m !! q = Some (Ok cancelledResult));
  ti_next : 0 <= tm_nextSequence m <= u64_max;
}.

Lemma higher_total tasks :
  NoDup (seqs tasks) -> strict_total (fun a b => HigherPriority b a) (fun t => t ∈ tasks).
Proof.
  intros Hnd. unfold HigherPriority. split_and!.
  - intros x y z _ _ _.
    destruct (Z.eqb_spec (tr_priority (tk_request y)) (tr_priority (tk_request x))),
      (Z.eqb_spec (tr_priority (tk_request z)) (tr_priority (tk_request y))),
      (Z.eqb_spec (tr_priority (tk_request z)) (tr_priority (tk_request x)));
      cbn [negb]; rewrite !Z.ltb_lt; lia.
  - intros x _. rewrite Z.eqb_refl. cbn [negb]. apply Z.ltb_irrefl.
  - intros x y Hx Hy.
    destruct (Z.eqb_spec (tr_priority (tk_request y)) (tr_priority (tk_request x)));
    destruct (Z.eqb_spec (tr_priority (tk_request x)) (tr_priority (tk_request y)));
      cbn [negb]; rewrite !Z.ltb_lt; try lia.
    destruct (decide (tk_sequence x = tk_sequence y)) as [Heq|]; [|lia]. left.
    apply list_elem_of_lookup_1 in Hx as [i Hi]. apply list_elem_of_lookup_1 in Hy as [j Hj].
    assert (i = j) as ->.
    { apply (NoDup_lookup _ _ _ (tk_sequence x) Hnd); unfold seqs; rewrite list_lookup_fmap.
      - by rewrite Hi.
      - by rewrite Hj, Heq. }
    congruence.
Qed.

Lemma remove_task_perm t ts :
  NoDup (seqs ts) -> t ∈ ts -> ts ≡ₚ t :: remove_task t ts.
Proof.
  intros Hnd Ht. induction ts as [|u ts IH]; [by apply not_elem_of_nil in Ht|].
  cbn in Hnd. apply NoDup_cons in Hnd as [Hu Hnd]. unfold remove_task. rewrite filter_cons.
  apply elem_of_cons in Ht as [->|Ht].
  - rewrite decide_False by naive_solver. constructor.
    assert (filter (fun v => tk_sequence v <> tk_sequence u) ts = ts) as ->; [|done].
    apply filter_id. intros v Hv Heq. apply Hu. rewrite <- Heq. by apply list_elem_of_fmap_2.
  - rewrite decide_True.
    + rewrite (IH Hnd Ht) at 1. apply perm_swap.
    + intros Heq. apply Hu. rewrite Heq. by apply list_elem_of_fmap_2.
Qed.

Lemma top_elem ts t : top ts = Some t -> t ∈ ts.
Proof. apply scan_min_elem. Qed.

Lemma pop_inv m t m' :
  tm_inv m -> pop m = Some (t, m') ->
  tm_inv m' /\ t ∈ tm_running m' /\ tm_tasks m ≡ₚ t :: tm_tasks m' /\
  tm_running m' = t :: tm_running m /\ tm_promises m' = tm_promises m /\
  tm_cancelled m' = tm_cancelled m /\ tm_flagged m' = tm_flagged m /\ tm_nextSequence m' = tm_nextSequence m /\
  tm_stopping m' = tm_stopping m.
Proof.
  intros Hm. unfold pop. destruct (top (tm_tasks m)) as [u|] eqn:Htop; [|done]. intros [= <- <-].
  apply top_elem in Htop. destruct Hm as [Hnd Hw Ho Hc Hr Hs Hf Hg Hn].
  assert (tm_tasks m ≡ₚ u :: remove_task u (tm_tasks m)) as Hp.
  { apply remove_task_perm; [|done]. unfold seqs in *. rewrite fmap_app in Hnd.
    by apply NoDup_app in Hnd as [? _]. }
  assert (tm_tasks m ++ tm_running m ≡ₚ remove_task u (tm_tasks m) ++ u :: tm_running m) as Hpp.
  { rewrite Hp at 1. cbn. by rewrite Permutation_middle. }
  assert (forall q, q ∈ seqs (remove_task u (tm_tasks m) ++ u :: tm_running m) <->
                    q ∈ seqs (tm_tasks m ++ tm_running m)) as Hel.
  { intros q. unfold seqs. by rewrite Hpp. }
  split; [|split_and!; done || by left].
  split; cbn.
  - unfold seqs. by rewrite <- Hpp.
  - intros q. rewrite Hel. apply Hw.
  - intros q. rewrite Hel. apply Ho.
  - done.
  - done.
  - intros Hst t Ht. apply Hs; [done|]. rewrite Hp. by right.
  - done.
  - done.
  - done.
Qed.

Lemma submit_inv m request : tm_inv m -> tm_nextSequence m < u64_max -> tm_inv (snd (submit request m)).
Proof.
  intros Hm Hlt. unfold submit.
  destruct (tier_eqb (tr_destination request) Nvme); [done|]. cbn.
  destruct (tm_stopping m) eqn:Hst; [done|]. cbn. destruct Hm as [Hnd Hw Ho Hc Hr Hs Hf Hg Hn].
  rewrite wrap64_small by (unfold is_u64; lia).
  set (t := mkTask request (tm_nextSequence m)).
  assert ((tm_tasks m ++ [t]) ++ tm_running m ≡ₚ t :: (tm_tasks m ++ tm_running m)) as Hpp.
  { rewrite <- app_assoc. cbn. by rewrite Permutation_middle. }
  assert (forall q, q ∈ seqs ((tm_tasks m ++ [t]) ++ tm_running m) <->
                    q = tm_nextSequence m \/ q ∈ seqs (tm_tasks m ++ tm_running m)) as Hel.
  { intros q. unfold seqs. rewrite Hpp. cbn. apply elem_of_cons. }
  split; cbn.
  - unfold seqs. rewrite Hpp. cbn. apply NoDup_cons. split; [|done].
    intros Hin. assert (0 <= tm_nextSequence m < tm_nextSequence m); [|lia]. apply Hw. by left.
  - intros q. rewrite Hel. specialize (Hw q).
    assert (q = tm_nextSequence m \/ 0 <= q < tm_nextSequence m <-> 0 <= q < tm_nextSequence m + 1) by lia.
    tauto.
  - intros q. rewrite Hel. intros [->|Hin]; [|by apply Ho].
    destruct (tm_promises m !! tm_nextSequence m) eqn:Hp; [|done].
    assert (0 <= tm_nextSequence m < tm_nextSequence m); [|lia]. apply Hw. by right.
  - done.
  - done.
  - by rewrite ?Hst.
  - intros q Hq. apply Hf in Hq. lia.
  - done.
  - lia.
Qed.

Section queue_spec.
Context (store : ExpertStore) (mode : DiskReadMode) (backend : ComputeBackend).
Context (external : ExternalCall -> Z -> option exn).
Hypothesis Hwf : Forall record_wf (records_ (index_ store)).
Notation finish_task := (finish_task store mode backend external).
Notation worker_step := (worker_step store mode backend external).
Notation tm_step := (tm_step store mode backend external).

Lemma finish_inv m t (c0 c1 c2 : bool) :
  tm_inv m -> t ∈ tm_running m ->
  (c0 || c1 || c2 = true -> tk_sequence t ∈ tm_cancelled m) -> (tk_sequence t ∈ tm_flagged m -> c0 = true) ->
  tm_inv (finish_task t c0 c1 c2 m) /\
  is_Some (tm_promises (finish_task t c0 c1 c2 m) !! tk_sequence t).
Proof.
  intros [Hnd Hw Ho Hc Hr Hs Hf Hg Hn] Ht Hflag Hseen. unfold Transfer.finish_task.
  destruct (processTask store mode backend external (tk_request t) c0 c1 c2 (tm_state m)) as [o st] eqn:Hp.
  pose proof (processTask_spec store mode backend external Hwf (tk_request t) c0 c1 c2 (tm_state m)) as Hspec.
  unfold wp in Hspec. rewrite Hp in Hspec.
  assert (tm_running m ≡ₚ t :: remove_task t (tm_running m)) as Hperm.
  { apply remove_task_perm; [|done]. unfold seqs in *. rewrite fmap_app in Hnd.
    by apply NoDup_app in Hnd as (_ & _ & ?). }
  assert (tm_tasks m ++ tm_running m ≡ₚ t :: (tm_tasks m ++ remove_task t (tm_running m))) as Hpp.
  { rewrite Hperm at 1. by rewrite Permutation_middle. }
  assert (forall q, q ∈ seqs (tm_tasks m ++ tm_running m) <->
            q = tk_sequence t \/ q ∈ seqs (tm_tasks m ++ remove_task t (tm_running m))) as Hel.
  { intros q. unfold seqs. rewrite Hpp. cbn. apply elem_of_cons. }
  unfold seqs in Hnd. rewrite Hpp in Hnd. cbn in Hnd. apply NoDup_cons in Hnd as [Hnt Hnd].
  split; [split; cbn|cbn; rewrite lookup_insert_eq; eauto].
  - done.
  - intros q. rewrite <- Hw, Hel. destruct (decide (q = tk_sequence t)) as [->|Hne].
    + rewrite lookup_insert_eq. split; [by left; left|]. intros _. right. eauto.
    + rewrite lookup_insert_ne by done. tauto.
  - intros q Hq. rewrite lookup_insert_ne by (intros <-; done). apply Ho. rewrite Hel. by right.
  - intros q r. destruct (decide (q = tk_sequence t)) as [->|Hne].
    + rewrite lookup_insert_eq. intros [= ->] Hcan. apply Hflag.
      destruct Hspec as [_ [(-> & record & bytes & _ & _ & _ & H)|(-> & _ & _)]]; [|done].
      rewrite Hcan in H. by destruct H.
    + rewrite lookup_insert_ne by done. apply Hc.
  - intros q. destruct (decide (q = tk_sequence t)) as [->|Hne].
    + rewrite lookup_insert_eq. intros [= ->]. done.
    + rewrite lookup_insert_ne by done. apply Hr.
  - done.
  - done.
  - intros q Hq. destruct (Hg q Hq) as [Hcq Hpq]. split; [done|]. destruct (decide (q = tk_sequence t)) as [->|Hne].
    + rewrite lookup_insert_eq. right. rewrite (Hseen Hq) in Hp. cbn in Hp. by injection Hp as <- _.
    + by rewrite lookup_insert_ne.
  - done.
Qed.

Lemma cancel_inv m q : tm_inv m -> q < tm_nextSequence m -> tm_inv (cancel q m).
Proof.
  intros [] Hq. split; cbn; try done; [set_solver..|]. intros x Hx. destruct (ti_flagged0 x Hx). set_solver.
Qed.

Lemma shutdown_inv m : tm_inv m -> tm_inv (shutdown m).
Proof.
  intros Hm. unfold shutdown. destruct (tm_stopping m) eqn:Hst; [done|].
  destruct Hm as [Hnd Hw Ho Hc Hr Hs Hf Hg Hn].
  assert (forall q, q ∈ (list_to_set (tk_sequence <$> tm_tasks m) : gset Z) -> q ∈ seqs (tm_tasks m ++ tm_running m)) as Hq.
  { intros q Hq%elem_of_list_to_set. unfold seqs. rewrite fmap_app. apply elem_of_app. by left. }
  split; cbn; try done.
  - intros q r Hp Hcan. apply elem_of_union. right. eauto.
  - intros _ t Ht. apply elem_of_union. left. apply elem_of_list_to_set. by apply list_elem_of_fmap_2.
  - intros q [H|H]%elem_of_union; [|auto].
    assert (0 <= q < tm_nextSequence m); [|lia]. apply Hw. left. auto.
  - intros q [H|H]%elem_of_union; [|destruct (Hg q H)]; (split; [set_solver|]); [left; auto|done].
Qed.

Lemma client_step_inv m m' : client_step m m' -> tm_inv m -> tm_inv m'.
Proof. intros [m0 r Hlt|m0 q Hq|m0] Hm; [by apply submit_inv|by apply cancel_inv|by apply shutdown_inv]. Qed.

Lemma worker_step_inv m m' : worker_step m m' -> tm_inv m -> tm_inv m'.
Proof.
  intros [m0 t m1 Hpop|m0 t c0 c1 c2 Ht H01 H12 H2 H3] Hm; [by apply pop_inv in Hpop as [? _]|].
  apply finish_inv; [done|done| |done]. destruct c0, c1, c2; cbn; auto.
Qed.

Lemma tm_step_inv m m' : tm_step m m' -> tm_inv m -> tm_inv m'.
Proof. intros [H|H]; [by apply client_step_inv|by apply worker_step_inv]. Qed.

Lemma newTransferManager_inv heap : tm_inv (newTransferManager heap).
Proof.
  split; cbn; try done; [constructor|].
  intros q. rewrite lookup_empty. split; [|lia].
  intros [H|[? H]]; [by apply not_elem_of_nil in H|done].
Qed.

Lemma reachable_tm_inv heap m : rtc tm_step (newTransferManager heap) m -> tm_inv m.
Proof. intros Hrun. exact (rtc_preserves _ tm_inv _ _ tm_step_inv Hrun (newTransferManager_inv heap)). Qed.

(** *** Draining a stopped manager *)

(** Parts of workers' iterations still to run. *)
Definition todo (m : TransferManager) : nat := 2 * length (tm_tasks m) + length (tm_running m).

Lemma worker_step_todo m m' : tm_inv m -> worker_step m m' -> (todo m' < todo m)%nat.
Proof.
  intros Hm Hs. revert Hm. destruct Hs as [m0 t m1 Hpop|m0 t c0 c1 c2 Ht _ _ _ _]; intros Hm; unfold todo.
  - destruct (pop_inv m0 t m1 Hm Hpop) as (_ & _ & Hp%Permutation_length & -> & _). cbn in *. lia.
  - unfold Transfer.finish_task. destruct (processTask _ _ _ _ _ _ _ _) as [o st]. cbn.
    assert (tm_running m0 ≡ₚ t :: remove_task t (tm_running m0)) as Hp%Permutation_length; [|cbn in *; lia].
    apply remove_task_perm; [|done]. pose proof (ti_nodup m0 Hm) as H. unfold seqs in *. rewrite fmap_app in H.
    by apply NoDup_app in H as (_ & _ & ?).
Qed.

Lemma worker_can_step m : tm_inv m -> todo m <> 0%nat -> exists m', worker_step m m'.
Proof.
  intros Hm Ht. destruct (tm_running m) as [|t ts] eqn:Hr.
  - destruct (top (tm_tasks m)) as [t|] eqn:Htop.
    + eexists. eapply step_pop. unfold pop. by rewrite Htop.
    + apply scan_min_None in Htop. unfold todo in Ht. by rewrite Hr, Htop in Ht.
  - eexists. apply (step_finish _ _ _ _ m t (bool_decide (tk_sequence t ∈ tm_cancelled m))
      (bool_decide (tk_sequence t ∈ tm_cancelled m)) (bool_decide (tk_sequence t ∈ tm_cancelled m))); [|done|done|apply bool_decide_eq_true|].
    + rewrite Hr. by left.
    + intros Hf. apply bool_decide_eq_true. by destruct (ti_flagged m Hm _ Hf).
Qed.

(** What no step changes once [m] is stopped. *)
Record drained (m m' : TransferManager) : Prop := Drained {
  dr_inv : tm_inv m';
  dr_stopping : tm_stopping m' = true;
  dr_next : tm_nextSequence m' = tm_nextSequence m;
  dr_flagged : forall q, q ∈ seqs (tm_tasks m) -> q ∈ tm_flagged m';
  dr_kept : forall q r, tm_promises m !! q = Some r -> tm_promises m' !! q = Some r;
}.

Lemma shutdown_drained m : tm_inv m -> drained m (shutdown m).
Proof.
  intros Hm. pose proof (shutdown_inv m Hm) as Hi. revert Hi. unfold shutdown. destruct (tm_stopping m) eqn:Hst; intros Hi.
  - split; try done. intros q (t & -> & Ht)%list_elem_of_fmap. by apply (ti_stopping m Hm).
  - split; try done. intros q Hq. cbn. apply elem_of_union. left. by apply elem_of_list_to_set.
Qed.

Lemma client_drained m m1 m2 : client_step m1 m2 -> drained m m1 -> drained m m2 /\ todo m2 = todo m1.
Proof.
  intros Hs [Hi Hst Hn Hf Hk]. pose proof (client_step_inv _ _ Hs Hi) as Hi2. destruct Hs as [m1 r Hlt|m1 q Hq|m1].
  - assert (snd (submit r m1) = m1) as He.
    { unfold submit. destruct (tier_eqb (tr_destination r) Nvme); [done|]. cbn. by rewrite Hst. }
    rewrite He in *. by split.
  - by split; [split|].
  - assert (shutdown m1 = m1) as He by (unfold shutdown; by rewrite Hst). rewrite He in *. by split.
Qed.

Lemma worker_drained m m1 m2 : worker_step m1 m2 -> drained m m1 -> drained m m2.
Proof.
  intros Hs [Hi Hst Hn Hf Hk]. pose proof (worker_step_inv _ _ Hs Hi) as Hi2. destruct Hs as [m1 t m2 Hpop|m1 t c0 c1 c2 Ht H01 H12 H2 H3].
  - destruct (pop_inv m1 t m2 Hi Hpop) as (_ & _ & _ & _ & Hp & _ & Hg & Hx & Hy). split; try congruence; intros; rewrite ?Hg, ?Hp; auto.
  - revert Hi2. unfold Transfer.finish_task. destruct (processTask _ _ _ _ _ _ _ _) as [o st]. intros Hi2. split; cbn in *; try done.
    intros q r Hq. rewrite lookup_insert_ne; [auto|]. intros <-. apply Hk in Hq.
    assert (tm_promises m1 !! tk_sequence t = None); [|congruence]. apply (ti_once m1 Hi). unfold seqs. rewrite fmap_app.
    apply elem_of_app. right. by apply list_elem_of_fmap_2.
Qed.

Lemma step_drained m m1 m2 : tm_step m1 m2 -> drained m m1 -> drained m m2.
Proof. intros [Hs|Hs] Hd; [by eapply client_drained|by eapply worker_drained]. Qed.

Lemma drained_run m m' : tm_inv m -> rtc tm_step (shutdown m) m' -> drained m m'.
Proof. intros Hm Hrun. exact (rtc_preserves _ (drained m) _ _ (step_drained m) Hrun (shutdown_drained m Hm)). Qed.

Lemma workerLoop_steps fuel m : tm_inv m -> rtc tm_step m (workerLoop store mode backend external fuel m).
Proof.
  revert m. induction fuel as [|fuel IH]; intros m Hm; cbn; [apply rtc_refl|].
  destruct (pop m) as [[t m1]|] eqn:Hpop; [|apply rtc_refl]. destruct (pop_inv m t m1 Hm Hpop) as (Hm1 & Ht & _).
  assert (worker_step m1 (finish_task t (bool_decide (tk_sequence t ∈ tm_cancelled m1)) (bool_decide (tk_sequence t ∈ tm_cancelled m1))
    (bool_decide (tk_sequence t ∈ tm_cancelled m1)) m1)) as Hs.
  { constructor; [done|done|done|apply bool_decide_eq_true|]. intros Hf. apply bool_decide_eq_true. by destruct (ti_flagged m1 Hm1 _ Hf). }
  eapply rtc_l; [right; by eapply step_pop|]. eapply rtc_l; [by right|]. apply IH. by eapply worker_step_inv.
Qed.
End queue_spec.

(** C6: no task is lost and no promise is set twice: in every reachable state each
    submitted task is in exactly one of the queue, the workers' hands and the
    resolved promises; and only a task whose flag was set can resolve as cancelled. *)
Theorem no_task_lost (store : ExpertStore) (mode : DiskReadMode) (backend : ComputeBackend)
    (external : ExternalCall -> Z -> option exn) (heap : Z) (m : TransferManager) :
  Forall record_wf (records_ (index_ store)) ->
  rtc (tm_step store mode backend external) (newTransferManager heap) m ->
  NoDup (seqs (tm_tasks m ++ tm_running m)) /\
  (forall q, 0 <= q < tm_nextSequence m <->
     (q ∈ seqs (tm_tasks m ++ tm_running m) \/ is_Some (tm_promises m !! q))) /\
  (forall q, q ∈ seqs (tm_tasks m ++ tm_running m) -> tm_promises m !! q = None) /\
  (forall q r, tm_promises m !! q = Some (Ok r) -> rs_status r = Cancelled -> q ∈ tm_cancelled m).
Proof.
  intros Hwf Hrun. destruct (reachable_tm_inv store mode backend external Hwf heap m Hrun) as [Hnd Hw Ho Hc _ _ _ _ _].
  by split_and!.
Qed.

(** Workers take the task of highest priority, and first come first served
    among equals. *)
Theorem pop_highest_priority (m m' : TransferManager) (t : Task) :
  tm_inv m -> pop m = Some (t, m') ->
  t ∈ tm_tasks m /\
  forall u, u ∈ tm_tasks m -> u = t \/
    tr_priority (tk_request u) < tr_priority (tk_request t) \/
    (tr_priority (tk_request u) = tr_priority (tk_request t) /\ tk_sequence t < tk_sequence u).
Proof.
  intros Hm. unfold pop. destruct (top (tm_tasks m)) as [v|] eqn:Htop; [|done]. intros [= <- <-].
  split; [by apply top_elem|]. intros u Hu.
  assert (NoDup (seqs (tm_tasks m))) as Hnd.
  { pose proof (ti_nodup m Hm) as H. unfold seqs in *. rewrite fmap_app in H.
    by apply NoDup_app in H as [? _]. }
  destruct (scan_min_least _ _ _ _ (higher_total _ Hnd) (fun _ H => H) Htop u Hu) as [->|Hlt];
    [by left|right].
  unfold HigherPriority in Hlt.
  destruct (Z.eqb_spec (tr_priority (tk_request u)) (tr_priority (tk_request v)));
    cbn [negb] in Hlt; apply Z.ltb_lt in Hlt; lia.
Qed.

(** C40: shutting down terminates and strands nobody.  Stop the manager in any reachable
    state, with tasks in the queue and in workers' hands, and let clients and workers run
    on, interleaved in any way: every part of a worker's iteration leaves one part less
    to run and no client adds one; as long as a task is open some worker can go on; and
    when nothing is left to run, every submitted task's future is ready.  The futures of
    the tasks that were pending become ready as cancelled, and those that were ready
    keep their result. *)
Theorem shutdown_resolves_all (store : ExpertStore) (mode : DiskReadMode) (backend : ComputeBackend)
    (external : ExternalCall -> Z -> option exn) (heap : Z) (m m' : TransferManager) :
  Forall record_wf (records_ (index_ store)) ->
  rtc (tm_step store mode backend external) (newTransferManager heap) m ->
  rtc (tm_step store mode backend external) (shutdown m) m' ->
  (forall m2, worker_step store mode backend external m' m2 -> (todo m2 < todo m')%nat) /\
  (forall m2, client_step m' m2 -> todo m2 = todo m') /\
  (todo m' <> 0%nat -> exists m2, worker_step store mode backend external m' m2) /\
  (todo m' = 0%nat -> forall q, 0 <= q < tm_nextSequence m -> is_Some (tm_promises m' !! q)) /\
  (forall q, q ∈ seqs (tm_tasks m) -> tm_promises m' !! q = None \/ tm_promises m' !! q = Some (Ok cancelledResult)) /\
  (forall q r, tm_promises m !! q = Some r -> tm_promises m' !! q = Some r).
Proof.
  intros Hwf Hreach Hrun. pose proof (reachable_tm_inv store mode backend external Hwf heap m Hreach) as Hm.
  pose proof (drained_run store mode backend external Hwf m m' Hm Hrun) as Hd. pose proof Hd as [Hi Hst Hn Hf Hk]. split_and!.
  - intros m2. by apply worker_step_todo.
  - intros m2 Hs. by eapply client_drained.
  - by apply worker_can_step.
  - intros Ht q Hq. rewrite <- Hn in Hq. apply (ti_where m' Hi) in Hq as [Hq|Hq]; [|done]. unfold todo in Ht.
    assert (tm_tasks m' = [] /\ tm_running m' = []) as [E1 E2] by (split; apply nil_length_inv; lia).
    rewrite E1, E2 in Hq. by apply not_elem_of_nil in Hq.
  - intros q Hq. by apply (ti_flagged m' Hi), Hf.
  - done.
Qed.

Definition request_of (e priority : Z) : TransferRequest :=
  mkRequest 0 e Ram priority Nvme None None None None.
Definition two_tasks : TransferManager :=
  snd (submit (request_of 2 300) (snd (submit (request_of 1 0) (newTransferManager 0)))).

Lemma two_tasks_inv : tm_inv two_tasks.
Proof.
  apply submit_inv; [apply submit_inv; [apply newTransferManager_inv|]|]; vm_compute; reflexivity.
Qed.

Lemma two_tasks_reachable st : rtc (tm_step st MemoryMap cpu_backend no_faults) (newTransferManager 0) two_tasks.
Proof.
  eapply rtc_l; [left; apply (step_submit _ (request_of 1 0)); vm_compute; reflexivity|].
  eapply rtc_l; [left; apply (step_submit _ (request_of 2 300)); vm_compute; reflexivity|].
  apply rtc_refl.
Qed.

Lemma no_task_lost_witness :
  exists st, sample_store = Ok st /\ NoDup (seqs (tm_tasks two_tasks ++ tm_running two_tasks)).
Proof.
  destruct sample_store as [st| |] eqn:Hst; [|vm_compute in Hst; discriminate Hst..].
  exists st. split; [reflexivity|].
  apply (no_task_lost st MemoryMap cpu_backend no_faults 0 two_tasks).
  - vm_compute in Hst. injection Hst as <-. repeat constructor; discriminate.
  - apply two_tasks_reachable.
Defined.

Lemma pop_highest_priority_witness :
  exists t m', pop two_tasks = Some (t, m') /\ tk_sequence t = 1 /\ t ∈ tm_tasks two_tasks.
Proof.
  destruct (pop two_tasks) as [[t m']|] eqn:Hpop; [|vm_compute in Hpop; discriminate Hpop].
  exists t, m'. split; [reflexivity|]. split.
  - vm_compute in Hpop. injection Hpop as <- _. reflexivity.
  - apply (pop_highest_priority two_tasks m' t two_tasks_inv Hpop).
Defined.

(** The first task is in a worker's hands when the manager is stopped. *)
Definition one_running : TransferManager := match pop two_tasks with Some (_, m) => m | None => two_tasks end.

Lemma shutdown_resolves_all_witness :
  exists st, sample_store = Ok st /\ todo (shutdown one_running) = 3%nat /\ tm_running one_running <> [] /\
    (exists m2, worker_step st MemoryMap cpu_backend no_faults (shutdown one_running) m2) /\
    tm_promises (shutdown one_running) !! 0 = None.
Proof.
  destruct sample_store as [st| |] eqn:Hst; [|vm_compute in Hst; discriminate Hst..].
  exists st. split; [reflexivity|].
  destruct (shutdown_resolves_all st MemoryMap cpu_backend no_faults 0 one_running (shutdown one_running)) as (_ & _ & H & _).
  - vm_compute in Hst. injection Hst as <-. repeat constructor; discriminate.
  - eapply rtc_r; [apply two_tasks_reachable|]. right. apply (step_pop _ _ _ _ _ (mkTask (request_of 2 300) 1)). vm_compute. reflexivity.
  - apply rtc_refl.
  - split; [vm_compute; reflexivity|]. split; [discriminate|]. split; [apply H; vm_compute; discriminate|vm_compute; reflexivity].
Defined.

(** ** A service with an idle worker

    The composition of [submit], one worker that takes the task at once, and
    [future.get()]: an implementation of the interface the expert manager uses. *)
Record InlineService : Type := mkInline {
  in_store : ExpertStore;
  in_wf : Forall record_wf (records_ (index_ in_store));
  in_mode : DiskReadMode;
  in_backend : ComputeBackend;
  in_external : ExternalCall -> Z -> option exn;
  in_state : TransferState;
}.

Definition set_heap (heap : Z) (s : TransferState) : TransferState :=
  mkTransferState heap (nextCompletion_ s) (callbacks_ s) (calls_ s) (streams_ s) (events_ s).

Definition inline_submit (request : TransferRequest) : ST (InlineService * Z) TransferResult :=
  fun '(service, heap) =>
    if tier_eqb (tr_destination request) Nvme
    then (Throw (Exn InvalidArgument "a load destination cannot be NVMe"), (service, heap))
    else
      let '(r, st) := processTask (in_store service) (in_mode service) (in_backend service) (in_external service) request
                        false false false (set_heap heap (in_state service)) in
      (r, (mkInline (in_store service) (in_wf service) (in_mode service) (in_backend service) (in_external service) st, heap_ st)).

#[global] Instance inline_service : TransferService InlineService := {
  submit_and_wait := inline_submit;
}.

#[global] Instance inline_laws : TransferServiceLaws InlineService.
Proof.
  split. intros r [service heap] s'. change (inline_submit r (service, heap) <> (Diverge, s')). unfold inline_submit. destruct (tier_eqb _ _); [done|].
  pose proof (processTask_spec (in_store service) (in_mode service) (in_backend service) (in_external service) (in_wf service) r
    false false false (set_heap heap (in_state service))) as Hw.
  unfold wp in Hw. destruct (processTask _ _ _ _ _ _ _ _ _) as [[r0|e|] st];
    [intros Heq%(f_equal fst); discriminate Heq..|done].
Qed.
