(* ===== verification/ExpertManager.v ===== *)
(** * The expert manager

    [include/hypermoe/experts/expert_manager.hpp] and
    [src/experts/expert_manager/expert_manager.cpp]: which tier each expert is in,
    the eviction that makes room for a promotion, leases, and the statistics.  The
    manager is written against the [CachePolicy] and [TransferService] interfaces;
    its mutex makes every method atomic, so a run of the program is a sequence of
    method calls.  Lease counters are shared cells, because a lease outlives the
    call that made it. *)

From S2P Require Import Prelude Float Tiers MemoryManager CachePolicy.
From S2P Require Import Bytes ExpertIndex ExpertStore Transfer.

(** ** State *)

Record ManagedExpert : Type := mkManaged {
  metadata : Expert;
  policyId : Z;
  allocation : option MemoryAllocation;
  weights : option HostBuffer;
  deviceWeights : option DeviceBuffer;
  residencyLeases : Z;  (* address of the shared counter *)
  usageCount : Z;
  lastUsed : Z;
  predictionProbability : f64;
  prefetchConfidence : f64;
}.

Record ExpertManagerStats : Type := mkStats {
  st_requests : Z;
  st_vramHits : Z;
  st_ramHits : Z;
  st_nvmeLoads : Z;
  st_vramEvictions : Z;
  st_ramEvictions : Z;
  st_nvmeBytesRead : Z;
  st_simulatedLoadingLatencyMs : f64;
  st_vramPromotions : Z;
}.

Definition zero_stats : ExpertManagerStats := mkStats 0 0 0 0 0 0 0 f64_zero 0.

Definition vramHitRate (s : ExpertManagerStats) : f64 :=
  if st_requests s =? 0 then f64_zero
  else f64_div (f64_of_Z (st_vramHits s)) (f64_of_Z (st_requests s)).

Inductive RequestSource : Type := VramHit | RamHit | NvmeLoad.

Record ExpertRequestResult : Type := mkRequestResult {
  rr_expert : Expert;
  rr_source : RequestSource;
  rr_simulatedLatencyMs : f64;
}.

Record ExpertResidencyInfo : Type := mkInfo {
  ri_layerId : Z;
  ri_expertId : Z;
  ri_location : MemoryTier;
  ri_sizeBytes : Z;
  ri_usageCount : Z;
  ri_lastUsed : Z;
  ri_predictionProbability : f64;
  ri_prefetchConfidence : f64;
  ri_residencyScore : f64;
  ri_hot : bool;
}.

(** The handle a client holds; an empty lease has no counter. *)
Record ExpertResidencyLease : Type := mkLease {
  leaseCount_ : option Z;
  ls_deviceBuffer_ : option DeviceBuffer;
  ls_hostBuffer_ : option HostBuffer;
}.

Definition empty_lease : ExpertResidencyLease := mkLease None None None.

(** [operator bool] *)
Definition lease_valid (l : ExpertResidencyLease) : bool :=
  bool_decide (is_Some (leaseCount_ l)) &&
  (bool_decide (is_Some (ls_deviceBuffer_ l)) || bool_decide (is_Some (ls_hostBuffer_ l))).

Record ExpertManager (P T : Type) : Type := mkManager {
  memory_ : MemoryManager;
  policy_ : P;
  transfers_ : option T;
  experts_ : gmap Z ManagedExpert;
  policyExperts_ : gmap Z Z;
  legacyExperts_ : gmap Z (list Z);
  nextPolicyId_ : Z;
  accessClock_ : Z;
  stats_ : ExpertManagerStats;
  cells_ : gmap Z Z;   (* the lease counters *)
  nextCell_ : Z;
  buffers_ : Z;        (* next address of a host buffer *)
}.
#[global] Arguments mkManager {P T}.
#[global] Arguments memory_ {P T}.
#[global] Arguments policy_ {P T}.
#[global] Arguments transfers_ {P T}.
#[global] Arguments experts_ {P T}.
#[global] Arguments policyExperts_ {P T}.
#[global] Arguments legacyExperts_ {P T}.
#[global] Arguments nextPolicyId_ {P T}.
#[global] Arguments accessClock_ {P T}.
#[global] Arguments stats_ {P T}.
#[global] Arguments cells_ {P T}.
#[global] Arguments nextCell_ {P T}.
#[global] Arguments buffers_ {P T}.

(** ** Simulated latencies *)

Definition kNvmeBaseLatencyMs : f64 := f64_lit 18 100.
Definition kNvmeBytesPerMs : f64 :=
  f64_mul (f64_mul (f64_lit 25 10) (f64_of_Z 1024)) (f64_of_Z 1024).
Definition kPcieBaseLatencyMs : f64 := f64_lit 3 100.
Definition kPcieBytesPerMs : f64 :=
  f64_mul (f64_mul (f64_of_Z 12) (f64_of_Z 1024)) (f64_of_Z 1024).
Definition nvmeLatency (bytes : Z) : f64 :=
  f64_add kNvmeBaseLatencyMs (f64_div (f64_of_Z bytes) kNvmeBytesPerMs).
Definition pcieLatency (bytes : Z) : f64 :=
  f64_add kPcieBaseLatencyMs (f64_div (f64_of_Z bytes) kPcieBytesPerMs).

(** ** Statistics counters *)

Definition add_vramEviction (s : ExpertManagerStats) : ExpertManagerStats :=
  mkStats (st_requests s) (st_vramHits s) (st_ramHits s) (st_nvmeLoads s)
    (wrap64 (st_vramEvictions s + 1)) (st_ramEvictions s) (st_nvmeBytesRead s)
    (st_simulatedLoadingLatencyMs s) (st_vramPromotions s).
Definition add_ramEviction (s : ExpertManagerStats) : ExpertManagerStats :=
  mkStats (st_requests s) (st_vramHits s) (st_ramHits s) (st_nvmeLoads s)
    (st_vramEvictions s) (wrap64 (st_ramEvictions s + 1)) (st_nvmeBytesRead s)
    (st_simulatedLoadingLatencyMs s) (st_vramPromotions s).
Definition add_vramPromotion (s : ExpertManagerStats) : ExpertManagerStats :=
  mkStats (st_requests s) (st_vramHits s) (st_ramHits s) (st_nvmeLoads s)
    (st_vramEvictions s) (st_ramEvictions s) (st_nvmeBytesRead s)
    (st_simulatedLoadingLatencyMs s) (wrap64 (st_vramPromotions s + 1)).

(** The counters [requestExpert] updates. *)
Definition add_request (source : RequestSource) (size : Z) (latency : f64)
    (s : ExpertManagerStats) : ExpertManagerStats :=
  mkStats (wrap64 (st_requests s + 1))
    (match source with VramHit => wrap64 (st_vramHits s + 1) | _ => st_vramHits s end)
    (match source with RamHit => wrap64 (st_ramHits s + 1) | _ => st_ramHits s end)
    (match source with NvmeLoad => wrap64 (st_nvmeLoads s + 1) | _ => st_nvmeLoads s end)
    (st_vramEvictions s) (st_ramEvictions s)
    (match source with NvmeLoad => wrap64 (st_nvmeBytesRead s + size) | _ => st_nvmeBytesRead s end)
    (f64_add (st_simulatedLoadingLatencyMs s) latency) (st_vramPromotions s).

(** ** Updates of an entry *)

(** The four assignments that end every move. *)
Definition set_residency (location : MemoryTier) (a : option MemoryAllocation)
    (w : option HostBuffer) (d : option DeviceBuffer) (m : ManagedExpert) : ManagedExpert :=
  mkManaged (set_location location (metadata m)) (policyId m) a w d (residencyLeases m)
    (usageCount m) (lastUsed m) (predictionProbability m) (prefetchConfidence m).

Definition set_access (clock : Z) (m : ManagedExpert) : ManagedExpert :=
  mkManaged (metadata m) (policyId m) (allocation m) (weights m) (deviceWeights m)
    (residencyLeases m) (wrap64 (usageCount m + 1)) clock
    (predictionProbability m) (prefetchConfidence m).

Definition set_prediction (probability confidence : f64) (m : ManagedExpert) : ManagedExpert :=
  mkManaged (metadata m) (policyId m) (allocation m) (weights m) (deviceWeights m)
    (residencyLeases m) (usageCount m) (lastUsed m) probability confidence.

Definition location (m : ManagedExpert) : MemoryTier := ex_location (metadata m).
Definition sizeBytes (m : ManagedExpert) : Z := ex_sizeBytes (metadata m).

Section manager.
Context {P T : Type} `{CachePolicy P} `{TransferService T}.

Notation EM := (ExpertManager P T).

(** ** Access to the parts of the state *)

Definition with_experts (f : gmap Z ManagedExpert -> gmap Z ManagedExpert) (s : EM) : EM :=
  mkManager (memory_ s) (policy_ s) (transfers_ s) (f (experts_ s)) (policyExperts_ s)
    (legacyExperts_ s) (nextPolicyId_ s) (accessClock_ s) (stats_ s) (cells_ s) (nextCell_ s)
    (buffers_ s).
Definition with_stats (f : ExpertManagerStats -> ExpertManagerStats) (s : EM) : EM :=
  mkManager (memory_ s) (policy_ s) (transfers_ s) (experts_ s) (policyExperts_ s)
    (legacyExperts_ s) (nextPolicyId_ s) (accessClock_ s) (f (stats_ s)) (cells_ s) (nextCell_ s)
    (buffers_ s).
Definition with_policy (f : P -> P) (s : EM) : EM :=
  mkManager (memory_ s) (f (policy_ s)) (transfers_ s) (experts_ s) (policyExperts_ s)
    (legacyExperts_ s) (nextPolicyId_ s) (accessClock_ s) (stats_ s) (cells_ s) (nextCell_ s)
    (buffers_ s).
Definition with_cells (f : gmap Z Z -> gmap Z Z) (s : EM) : EM :=
  mkManager (memory_ s) (policy_ s) (transfers_ s) (experts_ s) (policyExperts_ s)
    (legacyExperts_ s) (nextPolicyId_ s) (accessClock_ s) (stats_ s) (f (cells_ s)) (nextCell_ s)
    (buffers_ s).
Definition set_memory (m : MemoryManager) (s : EM) : EM :=
  mkManager m (policy_ s) (transfers_ s) (experts_ s) (policyExperts_ s)
    (legacyExperts_ s) (nextPolicyId_ s) (accessClock_ s) (stats_ s) (cells_ s) (nextCell_ s)
    (buffers_ s).
Definition set_transfers (t : option T) (b : Z) (s : EM) : EM :=
  mkManager (memory_ s) (policy_ s) t (experts_ s) (policyExperts_ s)
    (legacyExperts_ s) (nextPolicyId_ s) (accessClock_ s) (stats_ s) (cells_ s) (nextCell_ s) b.
(** The three identity maps and the policy identifier counter. *)
Definition set_identities (pe : gmap Z Z) (le : gmap Z (list Z)) (next : Z) (s : EM) : EM :=
  mkManager (memory_ s) (policy_ s) (transfers_ s) (experts_ s) pe le next
    (accessClock_ s) (stats_ s) (cells_ s) (nextCell_ s) (buffers_ s).
Definition set_clock (c : Z) (s : EM) : EM :=
  mkManager (memory_ s) (policy_ s) (transfers_ s) (experts_ s) (policyExperts_ s)
    (legacyExperts_ s) (nextPolicyId_ s) c (stats_ s) (cells_ s) (nextCell_ s) (buffers_ s).
Definition new_cell (s : EM) : EM :=
  mkManager (memory_ s) (policy_ s) (transfers_ s) (experts_ s) (policyExperts_ s)
    (legacyExperts_ s) (nextPolicyId_ s) (accessClock_ s) (stats_ s)
    (<[nextCell_ s := 0]> (cells_ s)) (nextCell_ s + 1) (buffers_ s).

(** A call of the memory manager. *)
Definition on_memory {A} (m : ST MemoryManager A) : ST EM A :=
  fun s => let '(r, m') := m (memory_ s) in (r, set_memory m' s).

Definition leases (s : EM) (m : ManagedExpert) : Z := default 0 (cells_ s !! residencyLeases m).

(** [requireExpertLocked]: the reference it returns is the key of the entry. *)
Definition requireExpertLocked (layerId id : Z) : ST EM Z :=
  (s <- st_get ;;
   match experts_ s !! pack_key layerId id with
   | None => throw (Exn OutOfRange "unknown expert id")
   | Some _ => ret (pack_key layerId id)
   end)%st.

(** Reading through a reference: entries are erased only by [registerExpert]'s
    rollback, so a reference never dangles (the totality theorems check it). *)
Definition deref (k : Z) : ST EM ManagedExpert :=
  (s <- st_get ;; match experts_ s !! k with Some m => ret m | None => diverge end)%st.

Definition update (k : Z) (f : ManagedExpert -> ManagedExpert) : ST EM unit :=
  modify (with_experts (alter f k)).

Definition allocation_tag (layerId id : Z) : string :=
  "expert:" +:+ pretty layerId +:+ ":" +:+ pretty id.

(** ** Moving an expert *)

(** The unpinned part of [candidatesLocked] is in the policy's scan; a candidate is
    in the tier and unleased. *)
Definition candidatesLocked (tier : MemoryTier) (s : EM) : list Z :=
  (fun kv => policyId kv.2) <$>
  filter (fun kv : Z * ManagedExpert => location kv.2 = tier /\ leases s kv.2 = 0)
    (map_to_list (experts_ s)).

(** [if (managed.allocation && !memory_.release(id)) { release(new); throw }] *)
Definition release_source (k : Z) (new : option MemoryAllocation) (message : string) : ST EM unit :=
  (managed <- deref k ;;
   match allocation managed with
   | None => ret tt
   | Some a =>
       released <- on_memory (release (al_id a)) ;;
       if released then ret tt
       else
         (match new with
          | Some b => (_ <- on_memory (release (al_id b)) ;; ret tt)%st
          | None => ret tt
          end ;;;
          throw (Exn LogicError message))%st
   end)%st.

Definition reserve (layerId id : Z) (tier : MemoryTier) (size : Z) (message : string)
    : ST EM MemoryAllocation :=
  (a <- on_memory (allocate tier size (allocation_tag layerId id)) ;;
   match a with None => throw (Exn RuntimeError message) | Some a => ret a end)%st.

Definition unreserve (a : MemoryAllocation) : ST EM unit :=
  (_ <- on_memory (release (al_id a)) ;; ret tt)%st.

(** [transfers_->submit(request).future().get()] *)
Definition transfer (t : T) (request : TransferRequest) : ST EM TransferResult :=
  fun s => let '(r, (t', b')) := submit_and_wait request (t, buffers_ s) in
           (r, set_transfers (Some t') b' s).

(** The checks on a disk load. *)
Definition loaded_buffer (r : TransferResult) (size : Z) : result HostBuffer :=
  match rs_status r, rs_buffer r with
  | Completed, Some b =>
      if host_size b =? size then Ok b
      else Throw (Exn RuntimeError "expert index size does not match registered metadata")
  | _, _ => Throw (Exn RuntimeError "expert disk transfer was cancelled")
  end.

Definition disk_request (layer id : Z) : TransferRequest :=
  mkRequest layer id Ram 0 Nvme None None None None.

(** The direct load from disk to host memory, after room was made. *)
Definition load_to_ram (k layerId id : Z) (t : T) : ST EM unit :=
  (managed <- deref k ;;
   a <- reserve layerId id Ram (sizeBytes managed) "memory reservation failed after eviction" ;;
   loaded <- transfer t (disk_request (ex_layer (metadata managed)) id) ;;
   buffer <- try_catch (fun _ => true) (lift (loaded_buffer loaded (sizeBytes managed)))
               (fun e => (unreserve a ;;; throw e)%st) ;;
   release_source k (Some a) "expert owns an unknown source allocation" ;;;
   update k (set_residency Ram (Some a) (Some buffer) None) ;;;
   modify (with_policy (onResident (policyId managed) Ram)))%st.

(** Dropping to NVMe. *)
Definition drop_to_nvme (k : Z) (source : MemoryTier) : ST EM unit :=
  (managed <- deref k ;;
   release_source k None "expert owns an unknown memory allocation" ;;;
   match source with
   | Vram => modify (with_stats add_vramEviction)
   | Ram => modify (with_stats add_ramEviction)
   | _ => ret tt
   end ;;;
   modify (with_policy (onEvict (policyId managed) source)) ;;;
   update k (set_residency Nvme None None None))%st.

(** The [try] block: the buffers the expert has at its destination. *)
Definition destination_buffers (managed : ManagedExpert) (id : Z) (source destination : MemoryTier)
    : ST EM (option HostBuffer * option DeviceBuffer) :=
  (s <- st_get ;;
   match transfers_ s, source, destination with
   | Some t, Nvme, _ =>
       loaded <- transfer t (disk_request (ex_layer (metadata managed)) id) ;;
       buffer <- lift (loaded_buffer loaded (sizeBytes managed)) ;;
       ret (Some buffer, None)
   | Some t, Ram, Vram =>
       transferred <- transfer t (mkRequest (ex_layer (metadata managed)) id Vram 0 Ram
                                    (weights managed) None None None) ;;
       match rs_status transferred, rs_deviceBuffer transferred with
       | Completed, Some d => ret (None, Some d)
       | _, _ => throw (Exn RuntimeError "expert device transfer was cancelled")
       end
   | Some t, Vram, Ram =>
       transferred <- transfer t (mkRequest (ex_layer (metadata managed)) id Ram 0 Vram
                                    None None (deviceWeights managed) None) ;;
       match rs_status transferred, rs_buffer transferred with
       | Completed, Some b => ret (Some b, None)
       | _, _ => throw (Exn RuntimeError "expert device download was cancelled")
       end
   | _, _, _ =>
       match tier_eqb source Nvme, weights managed with
       | false, Some w =>
           modify (fun s => set_transfers (transfers_ s) (buffers_ s + 1) s) ;;;
           ret (Some (mkHost (buffers_ s) (hb_bytes w)), deviceWeights managed)
       | _, w => ret (w, deviceWeights managed)
       end
   end)%st.

(** The general move to a memory tier, after room was made. *)
Definition promote (k layerId id : Z) (source destination : MemoryTier) : ST EM unit :=
  (managed <- deref k ;;
   a <- reserve layerId id destination (sizeBytes managed) "memory reservation failed after eviction" ;;
   ' (w, d) <- try_catch (fun _ => true) (destination_buffers managed id source destination)
                (fun e => (unreserve a ;;; throw e)%st) ;;
   release_source k (Some a) "expert owns an unknown source allocation" ;;;
   (if tier_eqb source Vram then modify (with_stats add_vramEviction) else ret tt) ;;;
   (if tier_eqb source Nvme then ret tt
    else modify (with_policy (onEvict (policyId managed) source))) ;;;
   update k (set_residency destination (Some a) w d) ;;;
   (if tier_eqb destination Vram then modify (with_stats add_vramPromotion) else ret tt) ;;;
   modify (with_policy (onResident (policyId managed) destination)))%st.

(** The head of [makeRoomLocked]; [loop] is its [while]. *)
Definition makeRoom_with (loop : MemoryTier -> Z -> gset Z -> ST EM unit)
    (tier : MemoryTier) (requiredBytes : Z) (pinned : gset Z) : ST EM unit :=
  if tier_eqb tier Nvme then ret tt
  else
    (s <- st_get ;;
     u <- lift (usage (memory_ s) tier) ;;
     lift (throw_if (limitBytes u <? requiredBytes)
       (Exn RuntimeError "expert is larger than destination tier capacity")) ;;;
     loop tier requiredBytes pinned)%st.

(** Looking a victim up by its policy identifier. *)
Definition victim_metadata (victim : Z) : ST EM Expert :=
  (s <- st_get ;;
   match policyExperts_ s !! victim with
   | None => throw (Exn LogicError "cache policy selected an unknown expert")
   | Some k =>
       match experts_ s !! k with
       | None => throw (Exn OutOfRange "unordered_map::at")
       | Some m => ret (metadata m)
       end
   end)%st.

(** Demoting a victim: to RAM when it leaves VRAM and RAM can take it, else to NVMe. *)
Definition demote_with (move : Z -> Z -> MemoryTier -> gset Z -> ST EM unit)
    (tier : MemoryTier) (victim : Expert) (pinned : gset Z) : ST EM unit :=
  if tier_eqb tier Vram then
    try_catch is_runtime_error
      (move (ex_layer victim) (ex_id victim) Ram pinned)
      (fun _ => move (ex_layer victim) (ex_id victim) Nvme pinned)
  else move (ex_layer victim) (ex_id victim) Nvme pinned.

(** [moveExpertLocked] and the [while] of [makeRoomLocked] call each other. *)
Fixpoint moveExpertLocked (fuel : nat) (layerId id : Z) (destination : MemoryTier)
    (pinned : gset Z) {struct fuel} : ST EM unit :=
  match fuel with
  | O => diverge
  | S fuel =>
      (k <- requireExpertLocked layerId id ;;
       managed <- deref k ;;
       s <- st_get ;;
       let source := location managed in
       if tier_eqb source destination then ret tt
       else
         (lift (throw_if (negb (leases s managed =? 0))
            (Exn LogicError "cannot move expert while a residency lease is active")) ;;;
          match source, destination, transfers_ s with
          | Nvme, Vram, _ =>
              moveExpertLocked fuel layerId id Ram pinned ;;;
              moveExpertLocked fuel layerId id Vram pinned
          | Nvme, Ram, Some _ =>
              makeRoom_with (makeRoomLoop fuel) destination (sizeBytes managed) pinned ;;;
              s <- st_get ;;
              match transfers_ s with
              | Some t => load_to_ram k layerId id t
              | None => diverge
              end
          | _, Nvme, _ => drop_to_nvme k source
          | _, _, _ =>
              makeRoom_with (makeRoomLoop fuel) destination (sizeBytes managed) pinned ;;;
              promote k layerId id source destination
          end))%st
  end
with makeRoomLoop (fuel : nat) (tier : MemoryTier) (requiredBytes : Z) (pinned : gset Z)
    {struct fuel} : ST EM unit :=
  match fuel with
  | O => diverge
  | S fuel =>
      (s <- st_get ;;
       u <- lift (usage (memory_ s) tier) ;;
       if availableBytes u <? requiredBytes then
         match selectVictim (policy_ s) tier (candidatesLocked tier s) pinned with
         | None => throw (Exn RuntimeError "no evictable expert can satisfy memory request")
         | Some victim =>
             expert <- victim_metadata victim ;;
             demote_with (moveExpertLocked fuel) tier expert ({[victim]} ∪ pinned) ;;;
             makeRoomLoop fuel tier requiredBytes pinned
         end
       else ret tt)%st
  end.

(** Two levels of recursion per resident expert cover every run. *)
Definition move_fuel (s : EM) : nat := 2 * size (experts_ s) + 10.

Definition move (layerId id : Z) (destination : MemoryTier) (pinned : gset Z) : ST EM unit :=
  fun s => moveExpertLocked (move_fuel s) layerId id destination pinned s.
Definition makeRoomLocked (tier : MemoryTier) (requiredBytes : Z) (pinned : gset Z) : ST EM unit :=
  fun s => makeRoom_with (makeRoomLoop (move_fuel s)) tier requiredBytes pinned s.

(** ** Registration *)

Definition remove_key (k : Z) (ks : list Z) : list Z := filter (fun x => x <> k) ks.

(** [legacyExperts_[id].push_back(key)] *)
Definition legacy_push (id k : Z) (le : gmap Z (list Z)) : gmap Z (list Z) :=
  <[id := default [] (le !! id) ++ [k]]> le.

(** [legacy.erase(remove(...)); if (legacy.empty()) legacyExperts_.erase(id)] *)
Definition legacy_remove (id k : Z) (le : gmap Z (list Z)) : gmap Z (list Z) :=
  match le !! id with
  | None => le
  | Some ks => match remove_key k ks with [] => delete id le | ks' => <[id := ks']> le end
  end.

(** The handler of the [try] around the initial placement. *)
Definition rollback_registration (k id policyId : Z) : ST EM unit :=
  (inserted <- deref k ;;
   match allocation inserted with
   | Some a => unreserve a
   | None => ret tt
   end ;;;
   modify (with_experts (delete k)) ;;;
   modify (fun s => set_identities (delete policyId (policyExperts_ s))
                      (legacy_remove id k (legacyExperts_ s)) (nextPolicyId_ s) s))%st.

Definition registerExpert (expert : Expert) : ST EM unit :=
  (lift (throw_if (ex_sizeBytes expert =? 0)
     (Exn InvalidArgument "expert size must be greater than zero")) ;;;
   s <- st_get ;;
   let expertKey := pack_key (ex_layer expert) (ex_id expert) in
   lift (throw_if (bool_decide (is_Some (experts_ s !! expertKey)))
     (Exn InvalidArgument "duplicate layer/expert id")) ;;;
   lift (throw_if (u32_max <? nextPolicyId_ s)
     (Exn OverflowError "cache policy expert ID space exhausted")) ;;;
   let policyId := wrap32 (nextPolicyId_ s) in
   modify (fun s => set_identities (policyExperts_ s) (legacyExperts_ s)
                      (wrap64 (nextPolicyId_ s + 1)) s) ;;;
   c <- gets nextCell_ ;;
   modify new_cell ;;;
   modify (with_experts (emplace expertKey
     (mkManaged (set_location Nvme expert) policyId None None None c 0 0 f64_zero f64_zero))) ;;;
   modify (fun s => set_identities (emplace policyId expertKey (policyExperts_ s))
                      (legacy_push (ex_id expert) expertKey (legacyExperts_ s)) (nextPolicyId_ s) s) ;;;
   if tier_eqb (ex_location expert) Nvme then ret tt
   else
     try_catch (fun _ => true)
       (move (ex_layer expert) (ex_id expert) (ex_location expert) {[policyId]})
       (fun e => (rollback_registration expertKey (ex_id expert) policyId ;;; throw e)%st))%st.

(** ** Requests and moves *)

Definition resolveLegacyLayer (id : Z) : ST EM Z :=
  (s <- st_get ;;
   match legacyExperts_ s !! id with
   | None | Some [] => throw (Exn OutOfRange "unknown expert id")
   | Some [k] =>
       match experts_ s !! k with
       | None => throw (Exn OutOfRange "unordered_map::at")
       | Some m => ret (ex_layer (metadata m))
       end
   | Some _ =>
       throw (Exn LogicError "expert id is ambiguous across layers; use the layer-aware API")
   end)%st.

Definition recordAccessLocked (k : Z) : ST EM unit :=
  (managed <- deref k ;;
   s <- st_get ;;
   let clock := wrap64 (accessClock_ s + 1) in
   modify (set_clock clock) ;;;
   update k (set_access clock) ;;;
   modify (with_policy (onAccess (policyId managed))))%st.

Definition request_source (tier : MemoryTier) : RequestSource :=
  match tier with Vram => VramHit | Ram => RamHit | _ => NvmeLoad end.
Definition simulated_latency (source : RequestSource) (size : Z) : f64 :=
  match source with
  | VramHit => f64_zero
  | RamHit => pcieLatency size
  | NvmeLoad => f64_add (nvmeLatency size) (pcieLatency size)
  end.

(** [elapsedMs] is what the steady clock measures around the move. *)
Definition requestExpert (elapsedMs : f64) (layerId id : Z) : ST EM ExpertRequestResult :=
  (k <- requireExpertLocked layerId id ;;
   managed <- deref k ;;
   let sourceTier := location managed in
   let size := sizeBytes managed in
   let source := request_source sourceTier in
   move layerId id Vram {[policyId managed]} ;;;
   s <- st_get ;;
   let latency :=
     if bool_decide (is_Some (transfers_ s)) && negb (tier_eqb sourceTier Vram)
     then elapsedMs else simulated_latency source size in
   recordAccessLocked k ;;;
   modify (with_stats (add_request source size latency)) ;;;
   k' <- requireExpertLocked layerId id ;;
   after <- deref k' ;;
   ret (mkRequestResult (metadata after) source latency))%st.

Definition requestExpert_legacy (elapsedMs : f64) (id : Z) : ST EM ExpertRequestResult :=
  (layer <- resolveLegacyLayer id ;; requestExpert elapsedMs layer id)%st.

Definition moveExpert (layerId id : Z) (destination : MemoryTier) : ST EM unit :=
  (k <- requireExpertLocked layerId id ;;
   managed <- deref k ;;
   move layerId id destination {[policyId managed]})%st.

Definition moveExpert_legacy (id : Z) (destination : MemoryTier) : ST EM unit :=
  (layer <- resolveLegacyLayer id ;; moveExpert layer id destination)%st.

(** The [while] of [evictUntilWithin]; every iteration demotes an expert
    of the tier, which [move_fuel] of them bound. *)
Fixpoint evict_loop (fuel : nat) (tier : MemoryTier) (maximumUsedBytes evicted : Z) : ST EM Z :=
  match fuel with
  | O => diverge
  | S fuel =>
      (s <- st_get ;;
       u <- lift (usage (memory_ s) tier) ;;
       if maximumUsedBytes <? usedBytes u then
         match selectVictim (policy_ s) tier (candidatesLocked tier s) ∅ with
         | None => ret evicted
         | Some victim =>
             expert <- victim_metadata victim ;;
             demote_with move tier expert {[victim]} ;;;
             evict_loop fuel tier maximumUsedBytes (wrap64 (evicted + 1))
         end
       else ret evicted)%st
  end.

Definition evictUntilWithin (tier : MemoryTier) (maximumUsedBytes : Z) : ST EM Z :=
  (lift (throw_if (tier_eqb tier Nvme)
     (Exn InvalidArgument "NVMe does not use MemoryManager capacity")) ;;;
   s <- st_get ;;
   evict_loop (move_fuel s) tier maximumUsedBytes 0)%st.

(** ** Queries *)

Definition findExpert (layerId id : Z) (s : EM) : option Expert :=
  metadata <$> experts_ s !! pack_key layerId id.

Definition findExpert_legacy (id : Z) : ST EM (option Expert) :=
  try_catch is_out_of_range
    (layer <- resolveLegacyLayer id ;; gets (findExpert layer id))%st
    (fun _ => ret None).

Definition residentWeights (layerId id : Z) : ST EM (option HostBuffer) :=
  (k <- requireExpertLocked layerId id ;; m <- deref k ;; ret (weights m))%st.
Definition residentDeviceWeights (layerId id : Z) : ST EM (option DeviceBuffer) :=
  (k <- requireExpertLocked layerId id ;; m <- deref k ;; ret (deviceWeights m))%st.

Definition memorySnapshot (s : EM) : TierUsage * TierUsage := snapshot (memory_ s).
Definition expertCount (s : EM) : Z := Z.of_nat (size (experts_ s)).

(** ** Adoption of buffers loaded elsewhere *)

Definition prepareResidency (layerId id : Z) (destination : MemoryTier) : ST EM unit :=
  (lift (throw_if (negb (tier_eqb destination Ram) && negb (tier_eqb destination Vram))
     (Exn InvalidArgument "expert preparation requires RAM or VRAM")) ;;;
   k <- requireExpertLocked layerId id ;;
   m <- deref k ;;
   if tier_eqb (location m) destination then ret tt
   else makeRoomLocked destination (sizeBytes m) {[policyId m]})%st.

Definition adoptDeviceWeights (layerId id : Z) (buffer : option DeviceBuffer) : ST EM unit :=
  match buffer with
  | None => throw (Exn InvalidArgument "adopted expert buffer is unavailable")
  | Some b =>
      (lift (throw_if (negb (db_data b) ||
                       negb (default false (be_isAvailable <$> db_backend b)))
         (Exn InvalidArgument "adopted expert buffer is unavailable")) ;;;
       k <- requireExpertLocked layerId id ;;
       m <- deref k ;;
       lift (throw_if (negb (device_size b =? sizeBytes m))
         (Exn InvalidArgument "adopted expert buffer size does not match metadata")) ;;;
       if tier_eqb (location m) Vram then
         lift (throw_if (negb (bool_decide (db_address <$> deviceWeights m = Some (db_address b))))
           (Exn LogicError "expert already owns a different device buffer")) ;;;
         recordAccessLocked k
       else
         makeRoomLocked Vram (sizeBytes m) {[policyId m]} ;;;
         a <- reserve layerId id Vram (sizeBytes m) "failed reserving adopted expert memory" ;;
         release_source k (Some a) "expert owns an unknown source allocation" ;;;
         m <- deref k ;;
         (if tier_eqb (location m) Nvme then ret tt
          else modify (with_policy (onEvict (policyId m) (location m)))) ;;;
         update k (set_residency Vram (Some a) None (Some b)) ;;;
         modify (with_stats add_vramPromotion) ;;;
         modify (with_policy (onResident (policyId m) Vram)) ;;;
         recordAccessLocked k)%st
  end.

Definition adoptHostWeights (layerId id : Z) (buffer : option HostBuffer) : ST EM unit :=
  match buffer with
  | None => throw (Exn InvalidArgument "adopted host expert buffer is unavailable")
  | Some b =>
      (lift (throw_if (host_size b =? 0)
         (Exn InvalidArgument "adopted host expert buffer is unavailable")) ;;;
       k <- requireExpertLocked layerId id ;;
       m <- deref k ;;
       lift (throw_if (negb (host_size b =? sizeBytes m))
         (Exn InvalidArgument "adopted host expert buffer size does not match metadata")) ;;;
       s <- st_get ;;
       lift (throw_if (negb (leases s m =? 0))
         (Exn LogicError "cannot adopt host expert weights while a residency lease is active")) ;;;
       if tier_eqb (location m) Ram then
         lift (throw_if (negb (bool_decide (hb_address <$> weights m = Some (hb_address b))))
           (Exn LogicError "expert already owns a different host buffer")) ;;;
         recordAccessLocked k
       else
         makeRoomLocked Ram (sizeBytes m) {[policyId m]} ;;;
         a <- reserve layerId id Ram (sizeBytes m) "failed reserving adopted expert host memory" ;;
         release_source k (Some a) "expert owns an unknown source allocation" ;;;
         m <- deref k ;;
         (if tier_eqb (location m) Vram then modify (with_stats add_vramEviction) else ret tt) ;;;
         (if tier_eqb (location m) Nvme then ret tt
          else modify (with_policy (onEvict (policyId m) (location m)))) ;;;
         update k (set_residency Ram (Some a) (Some b) None) ;;;
         modify (with_policy (onResident (policyId m) Ram)) ;;;
         recordAccessLocked k)%st
  end.

(** ** Leases *)

(** [residencyLeases->fetch_add(1)] *)
Definition take_lease (m : ManagedExpert) : ST EM unit :=
  modify (with_cells (alter (fun c => wrap64 (c + 1)) (residencyLeases m))).

Definition acquireResidentExpert (layerId id : Z) : ST EM ExpertResidencyLease :=
  (k <- requireExpertLocked layerId id ;;
   m <- deref k ;;
   (if negb (tier_eqb (location m) Vram) || bool_decide (deviceWeights m = None)
    then move layerId id Vram {[policyId m]} else ret tt) ;;;
   m <- deref k ;;
   lift (throw_if (negb (tier_eqb (location m) Vram) || bool_decide (deviceWeights m = None))
     (Exn LogicError "expert does not own a resident device buffer")) ;;;
   take_lease m ;;;
   ret (mkLease (Some (residencyLeases m)) (deviceWeights m) None))%st.

Definition acquireHostExpert (layerId id : Z) : ST EM ExpertResidencyLease :=
  (k <- requireExpertLocked layerId id ;;
   m <- deref k ;;
   (if tier_eqb (location m) Nvme || tier_eqb (location m) Vram
    then move layerId id Ram {[policyId m]} else ret tt) ;;;
   m <- deref k ;;
   lift (throw_if (negb (tier_eqb (location m) Ram) || bool_decide (weights m = None))
     (Exn LogicError "expert does not own a resident host buffer")) ;;;
   take_lease m ;;;
   ret (mkLease (Some (residencyLeases m)) None (weights m)))%st.

(** [ExpertResidencyLease::reset], run by the destructor as well: the counter is
    decremented and the handle is left empty. *)
Definition lease_reset (l : ExpertResidencyLease) : ST EM ExpertResidencyLease :=
  (match leaseCount_ l with
   | Some c => modify (with_cells (alter (fun n => wrap64 (n - 1)) c))
   | None => ret tt
   end ;;;
   ret empty_lease)%st.

(** Move assignment from a different handle: (the new left side, the emptied right side). *)
Definition lease_move_assign (l other : ExpertResidencyLease)
    : ST EM (ExpertResidencyLease * ExpertResidencyLease) :=
  (_ <- lease_reset l ;; ret (other, empty_lease))%st.

(** ** Predictions and scores *)

Definition updatePrediction (layerId id : Z) (probability confidence : f64) : ST EM unit :=
  (lift (throw_if (negb (isfinite probability) || negb (isfinite confidence))
     (Exn InvalidArgument "expert prediction values must be finite")) ;;;
   k <- requireExpertLocked layerId id ;;
   let p := fclamp probability f64_zero f64_one in
   let c := fclamp confidence f64_zero f64_one in
   update k (set_prediction p c) ;;;
   m <- deref k ;;
   modify (with_policy (setLayerProbability (policyId m) p)) ;;;
   modify (with_policy (setPrefetchConfidence (policyId m) c)))%st.

Definition residencyScoreLocked (s : EM) (m : ManagedExpert) (maximumUsage : Z) : f64 :=
  match residencyScore (policy_ s) (policyId m) with
  | Some score => score
  | None =>
      let frequency := if maximumUsage =? 0 then f64_zero
                       else f64_div (f64_of_Z (usageCount m)) (f64_of_Z maximumUsage) in
      let recency := if accessClock_ s =? 0 then f64_zero
                     else f64_div (f64_of_Z (lastUsed m)) (f64_of_Z (accessClock_ s)) in
      f64_add (f64_add (f64_add (f64_mul (f64_lit 4 10) frequency)
                                (f64_mul (f64_lit 3 10) recency))
                       (f64_mul (f64_lit 2 10) (predictionProbability m)))
              (f64_mul (f64_lit 1 10) (prefetchConfidence m))
  end.

Definition maximum_usage (s : EM) : Z :=
  map_fold (fun _ m acc => Z.max acc (usageCount m)) 0 (experts_ s).

Definition residency_info (s : EM) (maximumUsage : Z) (m : ManagedExpert) : ExpertResidencyInfo :=
  let score := residencyScoreLocked s m maximumUsage in
  mkInfo (ex_layer (metadata m)) (ex_id (metadata m)) (location m) (sizeBytes m)
    (usageCount m) (lastUsed m) (predictionProbability m) (prefetchConfidence m)
    score (fge score (f64_lit 60 100)).

(** The comparison [std::sort] is given, as the order "not after". *)
Definition info_le (a b : ExpertResidencyInfo) : Prop :=
  ri_layerId a < ri_layerId b \/ (ri_layerId a = ri_layerId b /\ ri_expertId a <= ri_expertId b).
#[local] Instance info_le_dec : RelDecision info_le.
Proof. unfold info_le. intros a b. apply _. Defined.

Definition residencySnapshot (s : EM) : list ExpertResidencyInfo :=
  merge_sort info_le
    ((fun kv => residency_info s (maximum_usage s) kv.2) <$> map_to_list (experts_ s)).

Definition residencyScoreOf (layerId id : Z) : ST EM f64 :=
  (k <- requireExpertLocked layerId id ;;
   m <- deref k ;;
   s <- st_get ;;
   ret (residencyScoreLocked s m (maximum_usage s)))%st.

(** The constructors: the policy and the transfer manager are given. *)
Definition newExpertManager (memory : MemoryManager) (policy : P) (transfers : option T) : EM :=
  mkManager memory policy transfers ∅ ∅ ∅ 0 0 zero_stats ∅ 0 0.
End manager.
