(* ===== verification/Residency.v ===== *)
(** * The residency invariant

    What every method of [ExpertManager] keeps true, and the specifications of the
    internal moves: each resident expert owns its own allocation of the right size
    in the right pool, internal evictions touch only unpinned and unleased experts
    and only move them down, and the mutual recursion of the two internal methods
    terminates within its fuel. *)

From S2P Require Import Prelude Float Tiers MemoryManager CachePolicy.
From S2P Require Import Bytes ExpertIndex ExpertStore Transfer ExpertManager.

(** ** The invariant *)

(** What an entry owns: nothing on NVMe, else its own live reservation. *)
Definition owns (mm : MemoryManager) (m : ManagedExpert) : Prop :=
  match location m with
  | Nvme => allocation m = None /\ weights m = None /\ deviceWeights m = None
  | t => exists a, allocation m = Some a /\ allocations_ mm !! al_id a = Some a /\
                   al_tier a = t /\ al_sizeBytes a = sizeBytes m
  end.

(** Bytes an entry contributes to a pool. *)
Definition resident_bytes (vram : bool) (m : ManagedExpert) : Z :=
  match location m with
  | Nvme => 0
  | t => if in_pool vram t then sizeBytes m else 0
  end.

(** The weight of an entry in the bound of the recursion: an unpinned expert can
    still be demoted twice from VRAM and once from the other tiers. *)
Definition depth_weight (pinned : gset Z) (m : ManagedExpert) : Z :=
  if decide (policyId m ∈ pinned) then 0
  else match location m with Vram => 2 | Nvme => 0 | _ => 1 end.

Definition in_vram (m : ManagedExpert) : Z := if tier_eqb (location m) Vram then 1 else 0.

(** One entry's residency fields changed, and nothing else of it. *)
Definition relocation (m m' : ManagedExpert) : Prop :=
  exists l a w d, m' = set_residency l a w d m.

(** Evictions go down. *)
Definition lower (t t' : MemoryTier) : Prop :=
  match t, t' with
  | Vram, Ram | Vram, Nvme | Ram, Nvme | PinnedRam, Nvme => True
  | _, _ => False
  end.

Lemma lower_trans t1 t2 t3 : lower t1 t2 -> lower t2 t3 -> lower t1 t3.
Proof. by destruct t1, t2, t3. Qed.

Lemma relocation_refl m : relocation m m.
Proof.
  exists (location m), (allocation m), (weights m), (deviceWeights m).
  unfold set_residency, location, set_location. by destruct m as [[]].
Qed.

Lemma relocation_trans m1 m2 m3 : relocation m1 m2 -> relocation m2 m3 -> relocation m1 m3.
Proof.
  intros (l & a & w & d & ->) (l' & a' & w' & d' & ->). by exists l', a', w', d'.
Qed.

(** What a relocation keeps. *)
Lemma relocation_keeps m m' :
  relocation m m' ->
  policyId m' = policyId m /\ residencyLeases m' = residencyLeases m /\
  sizeBytes m' = sizeBytes m /\ ex_layer (metadata m') = ex_layer (metadata m) /\
  ex_id (metadata m') = ex_id (metadata m) /\ usageCount m' = usageCount m /\
  lastUsed m' = lastUsed m.
Proof. by intros (l & a & w & d & ->). Qed.

Section residency.
Context {P T : Type}.
Notation EM := (ExpertManager P T).

Definition used (vram : bool) (s : EM) : Z :=
  usedBytes (if vram then vram_ (memory_ s) else ram_ (memory_ s)).
Definition resident (vram : bool) (s : EM) : Z := map_sum (resident_bytes vram) (experts_ s).
(** Bytes reserved in a pool for something else than a resident expert. *)
Definition foreign (vram : bool) (s : EM) : Z := used vram s - resident vram s.

Definition depth (pinned : gset Z) (s : EM) : Z := map_sum (depth_weight pinned) (experts_ s).

(** Allocation identifiers the next moves may consume. *)
Definition id_budget (s : EM) : Z := nextId_ (memory_ s) + map_sum in_vram (experts_ s).

Definition has_expert (s : EM) (id k : Z) : Prop :=
  exists m, experts_ s !! k = Some m /\ ex_id (metadata m) = id.

Record entry_inv (s : EM) (k : Z) (m : ManagedExpert) : Prop := EntryInv {
  en_key : k = pack_key (ex_layer (metadata m)) (ex_id (metadata m));
  en_wf : expert_wf (metadata m);
  en_size : 0 < sizeBytes m;
  en_policy : policyExperts_ s !! policyId m = Some k;
  en_cell : is_Some (cells_ s !! residencyLeases m);
  en_owns : owns (memory_ s) m;
}.

Record em_inv (s : EM) : Prop := EmInv {
  ei_memory : mem_inv (memory_ s);
  ei_entries : map_Forall (entry_inv s) (experts_ s);
  ei_distinct : forall k1 k2 m1 m2 a1 a2,
    experts_ s !! k1 = Some m1 -> experts_ s !! k2 = Some m2 ->
    allocation m1 = Some a1 -> allocation m2 = Some a2 -> al_id a1 = al_id a2 -> k1 = k2;
  ei_own_cells : forall k1 k2 m1 m2,
    experts_ s !! k1 = Some m1 -> experts_ s !! k2 = Some m2 ->
    residencyLeases m1 = residencyLeases m2 -> k1 = k2;
  ei_cells : forall c, is_Some (cells_ s !! c) -> c < nextCell_ s;
  ei_policy : forall p k, policyExperts_ s !! p = Some k ->
    0 <= p < nextPolicyId_ s /\ exists m, experts_ s !! k = Some m /\ policyId m = p;
  ei_next : 0 <= nextPolicyId_ s <= u32_max + 1;
  ei_legacy : forall id, NoDup (default [] (legacyExperts_ s !! id)) /\
    legacyExperts_ s !! id <> Some [] /\
    forall k, k ∈ default [] (legacyExperts_ s !! id) <-> has_expert s id k;
  ei_foreign : forall v, 0 <= foreign v s;
}.

(** ** Relations between the states of a run *)

(** Everything the internal moves leave alone. *)
Record same_static (s s' : EM) : Prop := SameStatic {
  ss_policyExperts : policyExperts_ s' = policyExperts_ s;
  ss_legacy : legacyExperts_ s' = legacyExperts_ s;
  ss_next : nextPolicyId_ s' = nextPolicyId_ s;
  ss_clock : accessClock_ s' = accessClock_ s;
  ss_cells : cells_ s' = cells_ s;
  ss_nextCell : nextCell_ s' = nextCell_ s;
  ss_transfers : transfers_ s' = None <-> transfers_ s = None;
  ss_requests : st_requests (stats_ s') = st_requests (stats_ s);
  ss_vramHits : st_vramHits (stats_ s') = st_vramHits (stats_ s);
  ss_ramHits : st_ramHits (stats_ s') = st_ramHits (stats_ s);
  ss_nvmeLoads : st_nvmeLoads (stats_ s') = st_nvmeLoads (stats_ s);
  ss_nvmeBytes : st_nvmeBytesRead (stats_ s') = st_nvmeBytesRead (stats_ s);
  ss_latency : st_simulatedLoadingLatencyMs (stats_ s') = st_simulatedLoadingLatencyMs (stats_ s);
}.

(** What may happen to one entry during an internal move of the expert at [x] (if
    any) with the pinned set [pinned]. *)
Definition entry_step (pinned : gset Z) (is_x : Prop) (count : Z) (m m' : ManagedExpert) : Prop :=
  m' = m \/
  (count = 0 /\ relocation m m' /\
   (is_x \/ (policyId m ∉ pinned /\ lower (location m) (location m')))).

Record frame (pinned : gset Z) (x : option Z) (s s' : EM) : Prop := Frame {
  fr_static : same_static s s';
  fr_none : forall k, experts_ s !! k = None -> experts_ s' !! k = None;
  fr_entry : forall k m, experts_ s !! k = Some m ->
    exists m', experts_ s' !! k = Some m' /\ entry_step pinned (x = Some k) (leases s m) m m';
  fr_limits : forall t, limitBytes (usageFor (memory_ s') t) = limitBytes (usageFor (memory_ s) t);
  fr_foreign : forall v, foreign v s <= foreign v s';
  fr_no_leak : transfers_ s = None -> forall v, foreign v s' = foreign v s;
}.

Lemma same_static_refl s : same_static s s.
Proof. done. Qed.

Lemma same_static_trans s1 s2 s3 : same_static s1 s2 -> same_static s2 s3 -> same_static s1 s3.
Proof. intros [] []. split; congruence || tauto. Qed.

Lemma frame_refl pinned x s : frame pinned x s s.
Proof. split; try done. intros k m Hk. exists m. split; [done|by left]. Qed.

Lemma leases_static s s' m m' :
  same_static s s' -> relocation m m' -> leases s' m' = leases s m.
Proof.
  intros Hs Hr. destruct (relocation_keeps _ _ Hr) as (_ & Hc & _). unfold leases.
  by rewrite Hc, (ss_cells _ _ Hs).
Qed.

Lemma entry_step_relocation pinned is_x c m m' : entry_step pinned is_x c m m' -> relocation m m'.
Proof. intros [->|(_ & ? & _)]; [apply relocation_refl|done]. Qed.

Lemma frame_trans pinned x s1 s2 s3 :
  frame pinned x s1 s2 -> frame pinned x s2 s3 -> frame pinned x s1 s3.
Proof.
  intros [Ha1 Hb1 Hc1 Hd1 He1 Hf1] [Ha2 Hb2 Hc2 Hd2 He2 Hf2]. split.
  - by eapply same_static_trans.
  - auto.
  - intros k m Hk. destruct (Hc1 k m Hk) as (m2 & Hk2 & Hs1).
    destruct (Hc2 k m2 Hk2) as (m3 & Hk3 & Hs2). exists m3. split; [done|].
    pose proof (entry_step_relocation _ _ _ _ _ Hs1) as Hr.
    rewrite (leases_static s1 s2 m m2 Ha1 Hr) in Hs2.
    destruct (relocation_keeps _ _ Hr) as (Hp & _).
    destruct Hs1 as [->|(H0 & _ & H1)]; [done|]. destruct Hs2 as [->|(_ & Hr2 & H2)].
    + right. auto.
    + right. split; [done|]. split; [by eapply relocation_trans|]. rewrite Hp in H2.
      destruct H1 as [?|[? ?]]; [by left|]. destruct H2 as [?|[? ?]]; [by left|right].
      split; [done|by eapply lower_trans].
  - intros t. by rewrite Hd2, Hd1.
  - intros v. etrans; eauto.
  - intros Hn v. rewrite Hf2, Hf1; [done..|]. by apply Ha1.
Qed.

(** More pins and no exemption make a stronger frame. *)
Lemma frame_weaken pinned pinned' x x' s s' :
  frame pinned' x' s s' -> pinned ⊆ pinned' ->
  (forall k m, x' = Some k -> experts_ s !! k = Some m ->
    x = Some k \/
    (policyId m ∉ pinned /\ forall m', experts_ s' !! k = Some m' -> m' = m \/ lower (location m) (location m'))) ->
  frame pinned x s s'.
Proof.
  intros [Ha Hb Hc Hd He Hf] Hsub Hx. split; try done.
  intros k m Hk. destruct (Hc k m Hk) as (m' & Hk' & Hs). exists m'. split; [done|].
  destruct Hs as [->|(H0 & Hr & [Hk0|[Hnp Hlow]])]; [by left|..].
  - destruct (Hx k m Hk0 Hk) as [?|[Hnp Hlow]]; [right; auto|].
    destruct (Hlow m' Hk') as [->|?]; [by left|right; auto].
  - right. split; [done|]. split; [done|]. right. split; [set_solver|done].
Qed.

Lemma frame_lookup pinned x s s' k m :
  frame pinned x s s' -> experts_ s !! k = Some m -> exists m', experts_ s' !! k = Some m' /\ relocation m m'.
Proof.
  intros Hf Hk. destruct (fr_entry _ _ _ _ Hf k m Hk) as (m' & ? & Hs).
  exists m'. split; [done|by eapply entry_step_relocation].
Qed.

Lemma frame_pinned pinned x s s' k m :
  frame pinned x s s' -> experts_ s !! k = Some m -> policyId m ∈ pinned -> x <> Some k ->
  experts_ s' !! k = Some m.
Proof.
  intros Hf Hk Hp Hx. destruct (fr_entry _ _ _ _ Hf k m Hk) as (m' & Hk' & [->|(_ & _ & [?|[? _]])]); done.
Qed.

Lemma frame_dom pinned x s s' k :
  frame pinned x s s' -> is_Some (experts_ s !! k) <-> is_Some (experts_ s' !! k).
Proof.
  intros Hf. destruct (experts_ s !! k) as [m|] eqn:Hk.
  - destruct (frame_lookup _ _ _ _ _ _ Hf Hk) as (m' & -> & _). split; eauto.
  - rewrite (fr_none _ _ _ _ Hf k Hk). done.
Qed.

(** *** One expert changed tier *)

Definition pool_used (vram : bool) (mm : MemoryManager) : Z :=
  usedBytes (if vram then vram_ mm else ram_ mm).

Record relocated (k : Z) (m m' : ManagedExpert) (s s' : EM) : Prop := Relocated {
  rc_static : same_static s s';
  rc_old : experts_ s !! k = Some m;
  rc_new : experts_ s' = <[k := m']> (experts_ s);
  rc_same : relocation m m';
  rc_memory : mem_inv (memory_ s');
  rc_owns : owns (memory_ s') m';
  rc_fresh : forall a, allocation m' = Some a -> nextId_ (memory_ s) <= al_id a;
  rc_allocs : forall aid a, allocations_ (memory_ s) !! aid = Some a ->
    (forall b, allocation m = Some b -> al_id b <> aid) -> allocations_ (memory_ s') !! aid = Some a;
  rc_limits : forall t, limitBytes (usageFor (memory_ s') t) = limitBytes (usageFor (memory_ s) t);
  rc_used : forall v, used v s' - resident_bytes v m' = used v s - resident_bytes v m;
  rc_nextId : nextId_ (memory_ s) <= nextId_ (memory_ s') <=
              nextId_ (memory_ s) + (if tier_eqb (location m') Nvme then 0 else 1);
}.

(** *** Nothing moved (a failed move gives back what it reserved, or leaks it) *)
Record idle (s s' : EM) : Prop := Idle {
  id_static : same_static s s';
  id_experts : experts_ s' = experts_ s;
  id_memory : mem_inv (memory_ s');
  id_allocs : forall aid a, allocations_ (memory_ s) !! aid = Some a -> allocations_ (memory_ s') !! aid = Some a;
  id_limits : forall t, limitBytes (usageFor (memory_ s') t) = limitBytes (usageFor (memory_ s) t);
  id_used : forall v, used v s <= used v s';
  id_no_leak : transfers_ s = None -> forall v, used v s' = used v s;
  id_nextId : nextId_ (memory_ s) <= nextId_ (memory_ s') <= nextId_ (memory_ s) + 1;
}.

Lemma owns_mono mm mm' m :
  (forall a, allocation m = Some a -> allocations_ mm !! al_id a = Some a ->
             allocations_ mm' !! al_id a = Some a) ->
  owns mm m -> owns mm' m.
Proof. unfold owns. intros Hmono. destruct (location m); naive_solver. Qed.

Lemma owns_live mm m a : owns mm m -> allocation m = Some a -> allocations_ mm !! al_id a = Some a.
Proof. unfold owns. destruct (location m); naive_solver. Qed.

Lemma entry_inv_step s s' k m m' :
  same_static s s' -> relocation m m' -> owns (memory_ s') m' -> entry_inv s k m -> entry_inv s' k m'.
Proof.
  intros Hs (l & a & w & d & ->) Ho []. split; try done.
  - by rewrite (ss_policyExperts _ _ Hs).
  - by rewrite (ss_cells _ _ Hs).
Qed.

Lemma has_expert_relocation s s' k m m' id k' :
  experts_ s !! k = Some m -> experts_ s' = <[k := m']> (experts_ s) -> relocation m m' ->
  has_expert s' id k' <-> has_expert s id k'.
Proof.
  intros Hk Hnew Hr. destruct (relocation_keeps _ _ Hr) as (_ & _ & _ & _ & He & _).
  unfold has_expert. rewrite Hnew. destruct (decide (k' = k)) as [->|Hne].
  - rewrite lookup_insert_eq. split.
    + intros (x & [= <-] & <-). exists m. done.
    + intros (x & Hx & <-). exists m'. rewrite Hk in Hx. injection Hx as <-. done.
  - by rewrite lookup_insert_ne.
Qed.

Lemma resident_relocated k m m' s s' v :
  relocated k m m' s s' -> foreign v s' = foreign v s.
Proof.
  intros Hr. unfold foreign, resident. rewrite (rc_new _ _ _ _ _ Hr).
  rewrite (map_sum_update _ _ _ _ _ (rc_old _ _ _ _ _ Hr)). pose proof (rc_used _ _ _ _ _ Hr v). lia.
Qed.

Lemma relocated_inv k m m' s s' : em_inv s -> relocated k m m' s s' -> em_inv s'.
Proof.
  intros Hs Hr. pose proof Hr as Hr'. destruct Hr' as [Hst Hold Hnew Hsame Hmem Howns Hfresh Hallocs _ _ _].
  destruct (relocation_keeps _ _ Hsame) as (Hp & Hc & _).
  assert (forall k' x, experts_ s' !! k' = Some x ->
    (k' = k /\ x = m') \/ (k' <> k /\ experts_ s !! k' = Some x)) as Hlook.
  { intros k' x. rewrite Hnew. rewrite lookup_insert_Some. naive_solver. }
  assert (forall k' x a, k' <> k -> experts_ s !! k' = Some x -> allocation x = Some a ->
    al_id a < nextId_ (memory_ s) /\ forall b, allocation m = Some b -> al_id b <> al_id a) as Hother.
  { intros k' x a Hne Hx Ha. pose proof (owns_live _ _ _ (en_owns _ _ _ (ei_entries s Hs _ _ Hx)) Ha) as Hl.
    destruct (mi_ids _ (ei_memory s Hs) _ _ Hl) as (_ & ? & _). split; [lia|].
    intros b Hb Heq. apply Hne. by apply (ei_distinct s Hs k' k x m a b). }
  split.
  - done.
  - intros k' x Hx. destruct (Hlook k' x Hx) as [[-> ->]|[Hne Hx0]].
    + eapply entry_inv_step; [done..|by apply Hs].
    + apply (entry_inv_step s s' k' x x); [done|apply relocation_refl| |by apply Hs].
      eapply owns_mono; [|apply (ei_entries s Hs _ _ Hx0)]. intros a Ha Hl.
      apply Hallocs; [done|]. by apply (Hother k' x a).
  - intros k1 k2 m1 m2 a1 a2 Hk1 Hk2 Ha1 Ha2 Heq.
    destruct (Hlook _ _ Hk1) as [[-> ->]|[Hne1 Hx1]], (Hlook _ _ Hk2) as [[-> ->]|[Hne2 Hx2]]; [done|..].
    + apply Hfresh in Ha1. apply (Hother k2 m2 a2) in Ha2; [|done..]. lia.
    + apply Hfresh in Ha2. apply (Hother k1 m1 a1) in Ha1; [|done..]. lia.
    + by eapply (ei_distinct s Hs).
  - intros k1 k2 m1 m2 Hk1 Hk2 Heq.
    destruct (Hlook _ _ Hk1) as [[-> ->]|[Hne1 Hx1]], (Hlook _ _ Hk2) as [[-> ->]|[Hne2 Hx2]]; [done|..];
      rewrite ?Hc in Heq; by eapply (ei_own_cells s Hs).
  - intros c. rewrite (ss_cells _ _ Hst), (ss_nextCell _ _ Hst). apply Hs.
  - intros p k'. rewrite (ss_policyExperts _ _ Hst), (ss_next _ _ Hst). intros Hpk.
    destruct (ei_policy s Hs p k' Hpk) as (? & x & Hx & Hpx). split; [done|].
    rewrite Hnew. destruct (decide (k' = k)) as [->|Hne].
    + exists m'. rewrite lookup_insert_eq. split; [done|]. rewrite Hp. congruence.
    + exists x. by rewrite lookup_insert_ne.
  - rewrite (ss_next _ _ Hst). apply Hs.
  - intros id. rewrite (ss_legacy _ _ Hst). destruct (ei_legacy s Hs id) as (? & ? & Hl).
    split; [done|]. split; [done|]. intros k'. rewrite Hl. symmetry.
    by eapply has_expert_relocation.
  - intros v. rewrite (resident_relocated k m m' s s' v Hr). apply Hs.
Qed.

Lemma relocated_frame pinned k m m' s s' :
  relocated k m m' s s' -> leases s m = 0 -> frame pinned (Some k) s s'.
Proof.
  intros Hr H0. pose proof (fun v => resident_relocated k m m' s s' v Hr) as Hf.
  destruct Hr as [Hst Hold Hnew Hsame _ _ _ _ Hlim _ _]. split; try done.
  - intros k' Hk'. rewrite Hnew, lookup_insert_ne; [done|]. intros ->. congruence.
  - intros k' x Hx. rewrite Hnew. destruct (decide (k' = k)) as [->|Hne].
    + exists m'. rewrite lookup_insert_eq. split; [done|]. right.
      assert (x = m) as -> by congruence. auto.
    + exists x. rewrite lookup_insert_ne by done. split; [done|by left].
  - intros v. rewrite Hf. done.
Qed.

Lemma relocated_id_budget k m m' s s' :
  relocated k m m' s s' ->
  id_budget s' <= id_budget s + (if tier_eqb (location m') Nvme then 0 else 1) - in_vram m + in_vram m'.
Proof.
  intros Hr. unfold id_budget. rewrite (rc_new _ _ _ _ _ Hr).
  rewrite (map_sum_update _ _ _ _ _ (rc_old _ _ _ _ _ Hr)). pose proof (rc_nextId _ _ _ _ _ Hr). lia.
Qed.

Lemma idle_inv s s' : em_inv s -> idle s s' -> em_inv s'.
Proof.
  intros Hs [Hst Hex Hmem Hallocs Hlim Hused _ _]. destruct Hs. split; try done.
  - rewrite Hex. intros k m Hk. apply (entry_inv_step s s' k m m); [done|apply relocation_refl| |auto].
    eapply owns_mono; [|exact (en_owns _ _ _ (ei_entries0 _ _ Hk))]. auto.
  - by rewrite Hex.
  - by rewrite Hex.
  - intros c. rewrite (ss_cells _ _ Hst), (ss_nextCell _ _ Hst). auto.
  - intros p k. rewrite Hex, (ss_policyExperts _ _ Hst), (ss_next _ _ Hst). apply ei_policy0.
  - by rewrite (ss_next _ _ Hst).
  - intros id. rewrite (ss_legacy _ _ Hst). unfold has_expert. rewrite Hex. apply ei_legacy0.
  - intros v. specialize (ei_foreign0 v). specialize (Hused v). unfold foreign, resident in *.
    rewrite Hex. lia.
Qed.

Lemma idle_frame pinned x s s' : idle s s' -> frame pinned x s s'.
Proof.
  intros [Hst Hex _ _ Hlim Hused Hleak _]. split; try done.
  - by rewrite Hex.
  - intros k m Hk. exists m. rewrite Hex. split; [done|by left].
  - intros v. unfold foreign, resident. rewrite Hex. specialize (Hused v). lia.
  - intros Hn v. unfold foreign, resident. by rewrite Hex, Hleak.
Qed.

Lemma idle_refl s : em_inv s -> idle s s.
Proof. intros []. split; try done; lia. Qed.

Lemma idle_id_budget s s' : idle s s' -> id_budget s' <= id_budget s + 1.
Proof. intros Hi. unfold id_budget. rewrite (id_experts _ _ Hi). pose proof (id_nextId _ _ Hi). lia. Qed.
End residency.

(** Chains of updates that keep the static part. *)
Ltac static :=
  repeat match goal with Hst : same_static _ _ |- _ => destruct Hst end;
  split; cbn in *; solve [congruence | tauto].

(** ** The building blocks of a move *)

Section steps.
Context {P T : Type} `{CachePolicy P} `{!TransferService T} `{!TransferServiceLaws T}.
Notation EM := (ExpertManager P T).

Lemma wp_on_memory {A} (m : ST MemoryManager A) (s : EM) Q E :
  wp m (memory_ s) (fun a mm => Q a (set_memory mm s)) (fun e mm => E e (set_memory mm s)) ->
  wp (on_memory m) s Q E.
Proof. unfold wp, on_memory. by destruct (m (memory_ s)) as [[] ?]. Qed.

Lemma wp_deref (k : Z) (s : EM) m Q E :
  experts_ s !! k = Some m -> Q m s -> wp (deref k) s Q E.
Proof. intros Hk HQ. unfold deref. wp_step. wp_step. by rewrite Hk. Qed.

Lemma wp_require (layerId id : Z) (s : EM) Q E :
  (forall m, experts_ s !! pack_key layerId id = Some m -> Q (pack_key layerId id) s) ->
  (experts_ s !! pack_key layerId id = None -> E (Exn OutOfRange "unknown expert id") s) ->
  wp (requireExpertLocked layerId id) s Q E.
Proof.
  intros HQ HE. unfold requireExpertLocked. wp_step. wp_step.
  destruct (experts_ s !! pack_key layerId id); wp_step; eauto.
Qed.

Lemma used_pool (s : EM) v : used v s = usedBytes (usageFor (memory_ s) (if v then Vram else Ram)).
Proof. unfold used, usageFor. by destruct v. Qed.

Definition allocated_bytes (vram : bool) (tier : MemoryTier) (size : Z) : Z :=
  if in_pool vram tier then size else 0.

Lemma allocated_used (s : EM) tier size tag mm v :
  allocated (memory_ s) tier size tag mm ->
  used v (set_memory mm s) = used v s + allocated_bytes v tier size.
Proof.
  intros Ha. rewrite !used_pool. cbn. rewrite (at_used _ _ _ _ _ Ha). unfold allocated_bytes, in_pool.
  by destruct v, (tier_eqb tier Vram).
Qed.

Lemma released_used (s : EM) k a mm v :
  released (memory_ s) k a mm ->
  used v (set_memory mm s) = used v s - allocated_bytes v (al_tier a) (al_sizeBytes a).
Proof.
  intros Ha. rewrite !used_pool. cbn. rewrite (rl_used _ _ _ _ Ha). unfold allocated_bytes, in_pool.
  by destruct v, (tier_eqb (al_tier a) Vram).
Qed.

Lemma wp_reserve layerId id tier size msg (s : EM) Q E :
  mem_inv (memory_ s) -> id_room (memory_ s) 1 -> is_u64 size -> 0 < size -> tier <> Nvme ->
  (forall mm, let a := mkAllocation (nextId_ (memory_ s)) tier size (allocation_tag layerId id) in
     allocated (memory_ s) tier size (allocation_tag layerId id) mm -> mem_inv mm ->
     size <= availableBytes (usageFor (memory_ s) tier) -> Q a (set_memory mm s)) ->
  (availableBytes (usageFor (memory_ s) tier) < size -> E (Exn RuntimeError msg) s) ->
  wp (reserve layerId id tier size msg) s Q E.
Proof.
  intros Hm Hroom Hsize Hpos Ht HQ HE. unfold reserve. wp_step. apply wp_on_memory.
  eapply wp_mono; [by apply allocate_spec|..].
  - intros [a|] mm; cbn beta iota.
    + intros (-> & _ & ? & Hal & Hmm). wp_step. apply HQ; [done|done|lia].
    + intros [-> Hlt]. wp_step. assert (set_memory (memory_ s) s = s) as -> by by destruct s. auto.
  - intros e mm (_ & _ & [?|?]); [done|lia].
Qed.

Lemma wp_unreserve a (s : EM) Q E :
  mem_inv (memory_ s) -> allocations_ (memory_ s) !! al_id a = Some a ->
  (forall mm, released (memory_ s) (al_id a) a mm -> mem_inv mm -> Q tt (set_memory mm s)) ->
  wp (unreserve a) s Q E.
Proof.
  intros Hm Hl HQ. unfold unreserve. wp_step. apply wp_on_memory.
  eapply wp_mono; [by apply release_spec|..].
  - intros r mm. cbn beta. rewrite Hl. intros (-> & Hr & Hmm). wp_step. auto.
  - done.
Qed.

(** Releasing the source allocation of an entry that owns one, or has none. *)
Definition source_released (s : EM) (m : ManagedExpert) (mm : MemoryManager) : Prop :=
  match allocation m with
  | None => mm = memory_ s
  | Some a => released (memory_ s) (al_id a) a mm
  end.

Lemma wp_release_source k new msg (s : EM) m Q E :
  mem_inv (memory_ s) -> experts_ s !! k = Some m ->
  (forall a, allocation m = Some a -> allocations_ (memory_ s) !! al_id a = Some a) ->
  (forall mm, source_released s m mm -> mem_inv mm -> Q tt (set_memory mm s)) ->
  wp (release_source k new msg) s Q E.
Proof.
  intros Hm Hk Hl HQ. unfold release_source. wp_step. eapply wp_deref; [done|].
  unfold source_released in HQ. destruct (allocation m) as [a|] eqn:Ha.
  - wp_step. apply wp_on_memory. eapply wp_mono; [by apply release_spec|..].
    + intros r mm. cbn beta. rewrite (Hl a eq_refl). intros (-> & Hr & Hmm). wp_step. auto.
    + done.
  - wp_step. replace s with (set_memory (memory_ s) s) by by destruct s. auto.
Qed.

(** A transfer changes only the service's state and the address counter. *)
Definition quiet_transfer (s s' : EM) : Prop :=
  exists t b, s' = set_transfers t b s /\ (t = None <-> transfers_ s = None).

Lemma wp_transfer t request (s : EM) Q E :
  transfers_ s = Some t ->
  (forall r s', quiet_transfer s s' -> Q r s') -> (forall e s', quiet_transfer s s' -> E e s') ->
  wp (transfer t request) s Q E.
Proof.
  intros Ht HQ HE. unfold wp, transfer.
  destruct (submit_and_wait request (t, buffers_ s)) as [r [t' b']] eqn:Hr.
  assert (quiet_transfer s (set_transfers (Some t') b' s)) as Hq.
  { exists (Some t'), b'. by rewrite Ht. }
  destruct r; [by apply HQ|by apply HE|].
  exfalso. by eapply (submit_and_wait_total request (t, buffers_ s)).
Qed.

Lemma quiet_transfer_trans s1 s2 s3 : quiet_transfer s1 s2 -> quiet_transfer s2 s3 -> quiet_transfer s1 s3.
Proof. intros (t & b & -> & H1) (t' & b' & -> & H2). exists t', b'. split; [done|]. cbn in H2. by rewrite H2. Qed.

Lemma quiet_transfer_refl s : quiet_transfer s s.
Proof. exists (transfers_ s), (buffers_ s). by destruct s. Qed.

Lemma loaded_buffer_not_diverge r size : loaded_buffer r size <> Diverge.
Proof. unfold loaded_buffer. by repeat case_goal. Qed.

Lemma wp_destination_buffers m id source destination (s : EM) Q E :
  (forall wd s', quiet_transfer s s' -> Q wd s') ->
  (forall e s', transfers_ s <> None -> quiet_transfer s s' -> E e s') ->
  wp (destination_buffers m id source destination) s Q E.
Proof.
  intros HQ HE. unfold destination_buffers. wp_step. wp_step.
  assert (wp (match tier_eqb source Nvme, weights m with
              | false, Some w =>
                  (modify (fun s => set_transfers (transfers_ s) (buffers_ s + 1) s) ;;;
                   ret (Some (mkHost (buffers_ s) (hb_bytes w)), deviceWeights m))%st
              | _, w => ret (w, deviceWeights m)
              end) s Q E) as Hcopy.
  { destruct (tier_eqb source Nvme), (weights m); wp_steps; apply HQ;
      try apply quiet_transfer_refl. by exists (transfers_ s), (buffers_ s + 1). }
  destruct (transfers_ s) as [t|] eqn:Ht; [|done].
  destruct source, destination; try exact Hcopy;
    (wp_step; apply (wp_transfer t); [done| |intros; by apply HE]); intros r s' Hq; cbn beta.
  1-2: repeat case_goal; wp_step; auto.
  all: wp_step; apply wp_lift; pose proof (loaded_buffer_not_diverge r (sizeBytes m));
    destruct (loaded_buffer r (sizeBytes m)); [wp_step; auto|by apply HE|done].
Qed.

(** *** The three ways an entry changes tier *)

Lemma resident_bytes_tier v m :
  location m <> Nvme -> resident_bytes v m = allocated_bytes v (location m) (sizeBytes m).
Proof. unfold resident_bytes, allocated_bytes. by destruct (location m). Qed.

(** The allocation an entry owns is live, in its tier and of its size. *)
Lemma owns_allocation (s : EM) k m :
  em_inv s -> experts_ s !! k = Some m ->
  match allocation m with
  | None => location m = Nvme
  | Some a => location m <> Nvme /\ allocations_ (memory_ s) !! al_id a = Some a /\
              al_tier a = location m /\ al_sizeBytes a = sizeBytes m
  end.
Proof.
  intros Hs Hk. pose proof (en_owns _ _ _ (ei_entries s Hs k m Hk)) as Ho. unfold owns in Ho.
  destruct (location m) eqn:Hl; try (destruct Ho as (a & -> & ? & ? & ?); done).
  by destruct Ho as (-> & _).
Qed.

Lemma resident_bytes_Nvme v m : location m = Nvme -> resident_bytes v m = 0.
Proof. unfold resident_bytes. by intros ->. Qed.

(** Dropping: the reservation is released, nothing is reserved. *)
Lemma relocated_drop (s s' : EM) k m mm :
  em_inv s -> experts_ s !! k = Some m ->
  source_released s m mm -> mem_inv mm -> memory_ s' = mm ->
  experts_ s' = <[k := set_residency Nvme None None None m]> (experts_ s) -> same_static s s' ->
  relocated k m (set_residency Nvme None None None m) s s'.
Proof.
  intros Hs Hk Hrel Hmm Hmem Hex Hst. pose proof (owns_allocation s k m Hs Hk) as Ho.
  unfold source_released in Hrel. assert (location (set_residency Nvme None None None m) = Nvme) as Hloc by done.
  split; try done.
  - by exists Nvme, None, None, None.
  - by rewrite Hmem.
  - rewrite Hmem. destruct (allocation m) as [a|] eqn:Ha.
    + intros aid b Hb Hne. rewrite (rl_allocs _ _ _ _ Hrel), lookup_delete_ne; [done|].
      intros Heq. by apply (Hne a).
    + by subst mm.
  - intros t. rewrite Hmem. destruct (allocation m); [apply Hrel|by subst mm].
  - intros v. rewrite (resident_bytes_Nvme v (set_residency _ _ _ _ _) Hloc).
    destruct (allocation m) as [a|].
    + destruct Ho as (Hn & _ & Ht & Hsz). rewrite resident_bytes_tier, <- Ht, <- Hsz by done.
      pose proof (released_used s _ a mm v Hrel). unfold used in *. rewrite Hmem. cbn in *. lia.
    + rewrite resident_bytes_Nvme by done. unfold used. rewrite Hmem, Hrel. lia.
  - rewrite Hmem. destruct (allocation m); [rewrite (rl_next _ _ _ _ Hrel)|subst mm]; destruct (tier_eqb _ _); lia.
Qed.

(** Moving: a new reservation, then the old one released. *)
Lemma relocated_move (s s' : EM) k m tier tag mm1 mm2 w d :
  em_inv s -> experts_ s !! k = Some m -> tier <> Nvme ->
  let a := mkAllocation (nextId_ (memory_ s)) tier (sizeBytes m) tag in
  allocated (memory_ s) tier (sizeBytes m) tag mm1 -> mem_inv mm1 ->
  (match allocation m with None => mm2 = mm1 | Some b => released mm1 (al_id b) b mm2 end) ->
  mem_inv mm2 -> memory_ s' = mm2 ->
  experts_ s' = <[k := set_residency tier (Some a) w d m]> (experts_ s) -> same_static s s' ->
  relocated k m (set_residency tier (Some a) w d m) s s'.
Proof.
  intros Hs Hk Ht a Hal Hm1 Hrel Hm2 Hmem Hex Hst. pose proof (owns_allocation s k m Hs Hk) as Ho.
  pose proof (fresh_id _ (ei_memory s Hs)) as Hfresh.
  assert (forall b, allocation m = Some b -> al_id b <> nextId_ (memory_ s)) as Hne.
  { intros b Hb Heq. rewrite Hb in Ho. destruct Ho as (_ & Hl & _). rewrite Heq in Hl. congruence. }
  split; try done.
  - by exists tier, (Some a), w, d.
  - by rewrite Hmem.
  - unfold owns. cbn. assert (allocations_ (memory_ s') !! nextId_ (memory_ s) = Some a) as Hla.
    { rewrite Hmem. destruct (allocation m) as [b|] eqn:Hb.
      - rewrite (rl_allocs _ _ _ _ Hrel), lookup_delete_ne by by apply Hne.
        by rewrite (at_allocs _ _ _ _ _ Hal), lookup_insert_eq.
      - subst mm2. by rewrite (at_allocs _ _ _ _ _ Hal), lookup_insert_eq. }
    destruct tier; [| | |done]; by exists a.
  - intros b [= <-]. cbn. lia.
  - rewrite Hmem. intros aid b Hb Hnb.
    assert (allocations_ mm1 !! aid = Some b) as Hb1.
    { rewrite (at_allocs _ _ _ _ _ Hal), lookup_insert_ne; [done|congruence]. }
    destruct (allocation m) as [c|]; [|by subst mm2].
    rewrite (rl_allocs _ _ _ _ Hrel), lookup_delete_ne; [done|]. by apply Hnb.
  - intros t. rewrite Hmem, <- (at_limit _ _ _ _ _ Hal t). destruct (allocation m); [apply Hrel|by subst mm2].
  - intros v. assert (resident_bytes v (set_residency tier (Some a) w d m) = allocated_bytes v tier (sizeBytes m)) as ->.
    { by rewrite resident_bytes_tier. }
    pose proof (allocated_used s _ _ _ mm1 v Hal) as Hu1.
    assert (used v s' = used v (set_memory mm2 s)) as -> by (unfold used; by rewrite Hmem).
    destruct (allocation m) as [c|].
    + destruct Ho as (Hn & _ & Hct & Hcs). rewrite resident_bytes_tier, <- Hct, <- Hcs by done.
      pose proof (released_used (set_memory mm1 s) _ c mm2 v Hrel) as Hu2.
      unfold used in *. cbn in *. rewrite <- Hcs in Hu1. lia.
    + rewrite resident_bytes_Nvme by done. subst mm2. lia.
  - rewrite Hmem. pose proof (at_next _ _ _ _ _ Hal) as Hn1.
    assert (nextId_ mm2 = nextId_ mm1) as ->.
    { destruct (allocation m); [by apply Hrel|by subst mm2]. }
    assert (tier_eqb (location (set_residency tier (Some a) w d m)) Nvme = false) as ->; [|lia].
    by apply tier_eqb_false.
Qed.

(** *** Attempts that fail *)

Lemma idle_reserved (s s' : EM) tier size tag mm :
  em_inv s -> tier <> Nvme -> 0 < size -> allocated (memory_ s) tier size tag mm -> mem_inv mm ->
  transfers_ s <> None ->
  memory_ s' = mm -> experts_ s' = experts_ s -> same_static s s' -> idle s s'.
Proof.
  intros Hs Ht Hsize Hal Hmm Htr Hmem Hex Hst. split; try done.
  - by rewrite Hmem.
  - intros aid b Hb. rewrite Hmem, (at_allocs _ _ _ _ _ Hal), lookup_insert_ne; [done|].
    intros <-. by rewrite (fresh_id _ (ei_memory s Hs)) in Hb.
  - intros t. rewrite Hmem. apply Hal.
  - intros v. pose proof (allocated_used s _ _ _ mm v Hal) as Hu. unfold used in *. rewrite Hmem.
    cbn in Hu. rewrite Hu. unfold allocated_bytes. destruct (in_pool v tier); lia.
  - rewrite Hmem, (at_next _ _ _ _ _ Hal). lia.
Qed.

Lemma idle_returned (s s' : EM) tier size tag mm1 mm2 :
  em_inv s -> allocated (memory_ s) tier size tag mm1 ->
  released mm1 (nextId_ (memory_ s)) (mkAllocation (nextId_ (memory_ s)) tier size tag) mm2 ->
  mem_inv mm2 -> memory_ s' = mm2 -> experts_ s' = experts_ s -> same_static s s' -> idle s s'.
Proof.
  intros Hs Hal Hrel Hmm Hmem Hex Hst.
  assert (forall v, used v s' = used v s) as Hu.
  { intros v. pose proof (allocated_used s _ _ _ mm1 v Hal) as H1.
    pose proof (released_used (set_memory mm1 s) _ _ mm2 v Hrel) as H2.
    unfold used in *. rewrite Hmem. cbn in *. lia. }
  split; try done.
  - by rewrite Hmem.
  - intros aid b Hb. assert (nextId_ (memory_ s) <> aid) as Hne.
    { intros <-. by rewrite (fresh_id _ (ei_memory s Hs)) in Hb. }
    by rewrite Hmem, (rl_allocs _ _ _ _ Hrel), lookup_delete_ne, (at_allocs _ _ _ _ _ Hal), lookup_insert_ne.
  - intros t. rewrite Hmem, (rl_limit _ _ _ _ Hrel). apply Hal.
  - intros v. rewrite Hu. lia.
  - rewrite Hmem, (rl_next _ _ _ _ Hrel), (at_next _ _ _ _ _ Hal). lia.
Qed.

(** *** Bookkeeping: statistics of moves and policy notifications *)

Definition books (s s' : EM) : Prop :=
  memory_ s' = memory_ s /\ experts_ s' = experts_ s /\ same_static s s'.

Lemma books_refl s : books s s.
Proof. done. Qed.

Lemma books_trans s1 s2 s3 : books s1 s2 -> books s2 s3 -> books s1 s3.
Proof.
  intros (H1 & H2 & H3) (H4 & H5 & H6). split_and!; [congruence..|by eapply same_static_trans].
Qed.

Lemma books_stats (s : EM) f :
  f = add_vramEviction \/ f = add_ramEviction \/ f = add_vramPromotion -> books s (with_stats f s).
Proof. intros [ -> | [ -> | -> ] ]; split_and!; done. Qed.

Lemma books_policy (s : EM) f : books s (with_policy f s).
Proof. split_and!; done. Qed.

Lemma books_quiet (s s' : EM) : quiet_transfer s s' -> books s s'.
Proof. intros (t & b & -> & Ht). split_and!; done. Qed.

(** An optional update of the books. *)
Lemma wp_book (c : bool) f g (s : EM) Q E :
  books s (f s) -> books s (g s) -> (forall s', books s s' -> Q tt s') ->
  wp (if c then modify f else modify g) s Q E.
Proof. intros Hf Hg HQ. destruct c; wp_step; auto. Qed.

Lemma wp_book_if (c : bool) f (s : EM) Q E :
  books s (f s) -> (forall s', books s s' -> Q tt s') -> wp (if c then modify f else ret tt) s Q E.
Proof. intros Hf HQ. destruct c; wp_step; auto using books_refl. Qed.

Lemma wp_book_unless (c : bool) f (s : EM) Q E :
  books s (f s) -> (forall s', books s s' -> Q tt s') -> wp (if c then ret tt else modify f) s Q E.
Proof. intros Hf HQ. destruct c; wp_step; auto using books_refl. Qed.

#[local] Hint Resolve books_refl books_policy : hypermoe.
#[local] Hint Extern 1 (books _ (with_stats _ _)) => apply books_stats; tauto : hypermoe.

(** *** Their specifications *)

Lemma drop_spec k m (s : EM) :
  em_inv s -> experts_ s !! k = Some m -> location m <> Nvme ->
  wp (drop_to_nvme k (location m)) s
    (fun _ s' => relocated k m (set_residency Nvme None None None m) s s') (fun _ _ => False).
Proof.
  intros Hs Hk Hn. unfold drop_to_nvme. wp_step. eapply wp_deref; [done|]. wp_step.
  apply (wp_release_source k None _ s m); [apply Hs|done| |].
  { intros a Ha. pose proof (owns_allocation s k m Hs Hk) as Ho. rewrite Ha in Ho. tauto. }
  intros mm Hrel Hmm. set (s1 := set_memory mm s). wp_step.
  assert (forall Q E, (forall s2, books s1 s2 -> Q tt s2) ->
    wp (match location m with
        | Vram => modify (with_stats add_vramEviction)
        | Ram => modify (with_stats add_ramEviction)
        | _ => ret tt
        end) s1 Q E) as Hstats.
  { intros Q E HQ. destruct (location m); wp_step; apply HQ; auto with hypermoe. }
  apply Hstats. intros s2 (Hm2 & He2 & Hst2). wp_steps. unfold update. wp_step.
  apply (relocated_drop s _ k m mm); try done; [|static].
  cbn. rewrite He2. by apply alter_as_insert.
Qed.

(** Both kinds of promotion end the same way once the new buffers are known; the
    state they reach from [s] has the reservation and differs in the service's state. *)
Definition reserved_state (s s1 : EM) (mm : MemoryManager) : Prop :=
  memory_ s1 = mm /\ experts_ s1 = experts_ s /\ same_static s s1.

Lemma reserved_quiet (s s1 : EM) mm :
  quiet_transfer (set_memory mm s) s1 -> reserved_state s s1 mm.
Proof. intros (t & b & -> & Ht). split_and!; try done. Qed.

Lemma id_budget_room (s : EM) n : em_inv s -> id_budget s + n <= u64_max -> id_room (memory_ s) n.
Proof.
  intros Hs. unfold id_budget, id_room.
  assert (0 <= map_sum in_vram (experts_ s)); [|lia].
  apply map_sum_nonneg. intros k m _. unfold in_vram. by destruct (tier_eqb _ _).
Qed.

Definition move_failed (s s' : EM) (destination : MemoryTier) (size : Z) : Prop :=
  idle s s' /\
  (availableBytes (usageFor (memory_ s) destination) < size \/ transfers_ s <> None).

Lemma promote_spec k layerId id destination m (s : EM) :
  em_inv s -> experts_ s !! k = Some m -> destination <> Nvme -> location m <> destination ->
  id_budget s + 1 <= u64_max ->
  wp (promote k layerId id (location m) destination) s
    (fun _ s' => exists m', relocated k m m' s s' /\ location m' = destination)
    (fun _ s' => move_failed s s' destination (sizeBytes m)).
Proof.
  intros Hs Hk Hd Hne Hroom. apply id_budget_room in Hroom; [|done].
  pose proof (ei_entries s Hs k m Hk) as Hen.
  unfold promote. wp_step. eapply wp_deref; [done|]. wp_step.
  apply wp_reserve; [apply Hs|done|apply Hen|apply Hen|done| |].
  2: { intros Hlt. split; [by apply idle_refl|by left]. }
  intros mm1 a Hal Hm1 Hfit. wp_step. wp_step.
  assert (allocations_ mm1 !! al_id a = Some a) as Hla.
  { by rewrite (at_allocs _ _ _ _ _ Hal), lookup_insert_eq. }
  apply wp_destination_buffers.
  2: { intros e s1 Htr Hq%reserved_quiet. destruct Hq as (Hmem & Hex & Hst). wp_step.
       apply wp_unreserve; [by rewrite Hmem|by rewrite Hmem|]. intros mm2 Hrel Hm2. wp_step.
       rewrite Hmem in Hrel. split; [|right; exact Htr].
       eapply (idle_returned s _ _ _ _ mm1 mm2); try done. static. }
  intros [w d] s1 Hq%reserved_quiet. destruct Hq as (Hmem & Hex & Hst). wp_step.
  assert (experts_ s1 !! k = Some m) as Hk1 by by rewrite Hex.
  apply (wp_release_source k _ _ s1 m); [by rewrite Hmem|done| |].
  { intros b Hb. rewrite Hmem, (at_allocs _ _ _ _ _ Hal). pose proof (owns_allocation s k m Hs Hk) as Ho.
    rewrite Hb in Ho. destruct Ho as (_ & Hl & _). rewrite lookup_insert_ne; [done|].
    intros Heq. rewrite <- Heq, (fresh_id _ (ei_memory s Hs)) in Hl. done. }
  intros mm2 Hrel Hm2. unfold source_released in Hrel. rewrite Hmem in Hrel.
  set (s2 := set_memory mm2 s1).
  wp_step. apply wp_book_if; [auto with hypermoe|]. intros s3 Hb3.
  wp_step. apply wp_book_unless; [auto with hypermoe|]. intros s4 Hb4.
  destruct (books_trans _ _ _ Hb3 Hb4) as (Hm4 & He4 & Hst4).
  wp_step. unfold update. wp_step. wp_step.
  apply wp_book_if; [auto with hypermoe|]. intros s5 Hb5. wp_step.
  destruct (books_trans _ _ _ Hb5 (books_policy s5 (onResident (policyId m) destination))) as (Hm6 & He6 & Hst6).
  exists (set_residency destination (Some a) w d m). split; [|done].
  apply (relocated_move s _ k m destination (allocation_tag layerId id) mm1 mm2); try done.
  - rewrite Hm6. cbn. by rewrite Hm4.
  - rewrite He6. cbn. rewrite He4. cbn. rewrite Hex. by apply alter_as_insert.
  - static.
Qed.

Lemma load_to_ram_spec k layerId id t m (s : EM) :
  em_inv s -> experts_ s !! k = Some m -> location m = Nvme -> transfers_ s = Some t ->
  id_budget s + 1 <= u64_max ->
  wp (load_to_ram k layerId id t) s
    (fun _ s' => exists m', relocated k m m' s s' /\ location m' = Ram)
    (fun _ s' => move_failed s s' Ram (sizeBytes m)).
Proof.
  intros Hs Hk Hl Ht Hroom. apply id_budget_room in Hroom; [|done].
  pose proof (ei_entries s Hs k m Hk) as Hen.
  assert (transfers_ s <> None) as Htr by by rewrite Ht.
  unfold load_to_ram. wp_step. eapply wp_deref; [done|]. wp_step.
  apply wp_reserve; [apply Hs|done|apply Hen|apply Hen|done| |].
  2: { intros Hlt. split; [by apply idle_refl|by left]. }
  intros mm1 a Hal Hm1 Hfit. wp_step.
  assert (allocations_ mm1 !! al_id a = Some a) as Hla.
  { by rewrite (at_allocs _ _ _ _ _ Hal), lookup_insert_eq. }
  apply (wp_transfer t); [done| |].
  2: { intros e s1 Hq%reserved_quiet. destruct Hq as (Hmem & Hex & Hst).
       split; [|by right]. eapply (idle_reserved s _ Ram _ _ mm1); try done. apply Hen. }
  intros r s1 Hq%reserved_quiet. destruct Hq as (Hmem & Hex & Hst). wp_step. wp_step. apply wp_lift.
  destruct (loaded_buffer r (sizeBytes m)) as [b|e|] eqn:Hload.
  2: { wp_step. apply wp_unreserve; [by rewrite Hmem|by rewrite Hmem|]. intros mm2 Hrel Hm2. wp_step.
       rewrite Hmem in Hrel. split; [|by right].
       eapply (idle_returned s _ _ _ _ mm1 mm2); try done. static. }
  2: { by apply loaded_buffer_not_diverge in Hload. }
  assert (experts_ s1 !! k = Some m) as Hk1 by by rewrite Hex.
  wp_step. apply (wp_release_source k _ _ s1 m); [by rewrite Hmem|done| |].
  { intros c Hc. pose proof (owns_allocation s k m Hs Hk) as Ho. rewrite Hc in Ho. by destruct Ho. }
  intros mm2 Hrel Hm2. unfold source_released in Hrel. rewrite Hmem in Hrel.
  wp_step. unfold update. wp_step. wp_step.
  exists (set_residency Ram (Some a) (Some b) None m). split; [|done].
  apply (relocated_move s _ k m Ram (allocation_tag layerId id) mm1 mm2); try done; [|static].
  cbn. rewrite Hex. by apply alter_as_insert.
Qed.
End steps.

(** ** The recursion *)

Section recursion.
Context {P T : Type} `{HP : CachePolicy P} `{HL : !CachePolicyLaws P}.
Context `{HT : !TransferService T} `{HTL : !TransferServiceLaws T}.
Notation EM := (ExpertManager P T).

(** A tier cannot give [required] bytes: everything left in it is pinned or leased. *)
Definition blocked (pinned : gset Z) (tier : MemoryTier) (required : Z) (s : EM) : Prop :=
  availableBytes (usageFor (memory_ s) tier) < required /\
  forall k m, experts_ s !! k = Some m -> location m = tier -> leases s m = 0 -> policyId m ∈ pinned.

Definition no_room (pinned : gset Z) (tier : MemoryTier) (required : Z) (s : EM) : Prop :=
  limitBytes (usageFor (memory_ s) tier) < required \/ blocked pinned tier required s.

Definition settled (pinned : gset Z) (s s' : EM) : Prop :=
  em_inv s' /\ frame pinned None s s' /\ id_budget s' <= id_budget s.

(** A failed attempt may have consumed one more identifier. *)
Definition settled_err (pinned : gset Z) (s s' : EM) : Prop :=
  em_inv s' /\ frame pinned None s s' /\ id_budget s' <= id_budget s + 1.

(** How much of the identifier budget a move may use. *)
Definition move_cost (m : ManagedExpert) (destination : MemoryTier) : Z :=
  match location m, destination with
  | Vram, Vram | Ram, Ram | PinnedRam, PinnedRam | Nvme, Nvme => 0
  | _, Nvme => - in_vram m
  | Nvme, Vram => 3
  | _, Vram => 2
  | Vram, _ => 0
  | _, _ => 1
  end.

Definition move_need (pinned : gset Z) (m : ManagedExpert) (destination : MemoryTier) (s : EM) : Z :=
  if tier_eqb (location m) destination || tier_eqb destination Nvme then 1
  else if tier_eqb (location m) Nvme && tier_eqb destination Vram then depth pinned s + 4
  else depth pinned s + 3.

Definition move_ok (k : Z) (m : ManagedExpert) (destination : MemoryTier) (pinned : gset Z)
    (s s' : EM) : Prop :=
  em_inv s' /\ frame pinned (Some k) s s' /\
  id_budget s' <= id_budget s + move_cost m destination /\
  exists m', experts_ s' !! k = Some m' /\ relocation m m' /\ location m' = destination.

(** The tiers a move needs room in. *)
Definition needs_tier (k : Z) (m : ManagedExpert) (destination tier : MemoryTier) (s : EM) : Prop :=
  tier = destination \/
  (location m = Nvme /\ destination = Vram /\ tier = Ram /\ experts_ s !! k = Some m).

Definition move_error (k : Z) (m : ManagedExpert) (destination : MemoryTier) (pinned : gset Z)
    (e : exn) (s s' : EM) : Prop :=
  (e = Exn LogicError "cannot move expert while a residency lease is active" /\ s' = s /\
   leases s m <> 0 /\ location m <> destination) \/
  transfers_ s <> None \/
  (is_runtime_error e = true /\ exists tier, tier <> Nvme /\ needs_tier k m destination tier s' /\
     no_room pinned tier (sizeBytes m) s').

Definition move_bad (k : Z) (m : ManagedExpert) (destination : MemoryTier) (pinned : gset Z)
    (e : exn) (s s' : EM) : Prop :=
  em_inv s' /\ frame pinned (Some k) s s' /\
  id_budget s' <= id_budget s + (if tier_eqb (location m) Nvme then 2 else 1) /\
  (exists m', experts_ s' !! k = Some m' /\ relocation m m' /\
     (m' = m \/ (location m = Nvme /\ destination = Vram /\ location m' = Ram))) /\
  destination <> Nvme /\
  move_error k m destination pinned e s s'.

Definition room_error (pinned : gset Z) (tier : MemoryTier) (required : Z) (e : exn) (s s' : EM) : Prop :=
  transfers_ s <> None \/ (is_runtime_error e = true /\ no_room pinned tier required s').

Definition move_spec (n : nat) : Prop :=
  forall layerId id destination pinned (s : EM) m,
    let k := pack_key layerId id in
    em_inv s -> experts_ s !! k = Some m -> policyId m ∈ pinned ->
    (destination = Nvme -> leases s m = 0) ->
    (destination = Nvme \/ id_budget s + 1 + move_cost m destination <= u64_max) ->
    move_need pinned m destination s <= Z.of_nat n ->
    wp (moveExpertLocked n layerId id destination pinned) s
      (fun _ s' => move_ok k m destination pinned s s')
      (fun e s' => move_bad k m destination pinned e s s').

Definition loop_spec (n : nat) : Prop :=
  forall tier required pinned (s : EM),
    em_inv s -> tier <> Nvme -> id_budget s + 1 <= u64_max ->
    depth pinned s + 2 <= Z.of_nat n ->
    wp (makeRoomLoop n tier required pinned) s
      (fun _ s' => settled pinned s s' /\
         required <= availableBytes (usageFor (memory_ s') tier))
      (fun e s' => settled_err pinned s s' /\ room_error pinned tier required e s s').

(** *** Facts about depth *)

Lemma depth_weight_nonneg pinned m : 0 <= depth_weight pinned m.
Proof. unfold depth_weight. case_decide; [lia|]. destruct (location m); lia. Qed.

Lemma depth_nonneg pinned (s : EM) : 0 <= depth pinned s.
Proof. apply map_sum_nonneg. intros k m _. apply depth_weight_nonneg. Qed.

Lemma entry_step_depth pinned c m m' :
  entry_step pinned False c m m' -> depth_weight pinned m' <= depth_weight pinned m.
Proof.
  intros [->|(_ & Hr & [?|[Hp Hl]])]; [done..|].
  destruct (relocation_keeps _ _ Hr) as (Hpid & _). unfold depth_weight. rewrite Hpid.
  case_decide; [lia|]. destruct (location m), (location m'); done || lia.
Qed.

Lemma frame_entries pinned (s s' : EM) k m m' :
  frame pinned None s s' -> experts_ s !! k = Some m -> experts_ s' !! k = Some m' ->
  entry_step pinned False (leases s m) m m'.
Proof.
  intros Hf Hk Hk'. destruct (fr_entry _ _ _ _ Hf k m Hk) as (m2 & Hk2 & Hs).
  rewrite Hk' in Hk2. injection Hk2 as <-.
  destruct Hs as [->|(? & ? & [?|?])]; [by left|done|right; auto].
Qed.

Lemma frame_depth pinned (s s' : EM) : frame pinned None s s' -> depth pinned s' <= depth pinned s.
Proof.
  intros Hf. apply map_sum_le; [intros; by eapply frame_dom|].
  intros k m m' Hk Hk'. eapply entry_step_depth, frame_entries; eauto.
Qed.

Lemma frame_depth_lt pinned (s s' : EM) k m m' :
  frame pinned None s s' -> experts_ s !! k = Some m -> experts_ s' !! k = Some m' ->
  policyId m ∉ pinned -> lower (location m) (location m') -> relocation m m' ->
  depth pinned s' + 1 <= depth pinned s.
Proof.
  intros Hf Hk Hk' Hp Hl Hr. enough (depth pinned s' < depth pinned s) by lia.
  apply (map_sum_lt _ _ _ k m m'); [intros; by eapply frame_dom| |done|done|].
  - intros k0 m0 m0' H0 H0'. eapply entry_step_depth, frame_entries; eauto.
  - destruct (relocation_keeps _ _ Hr) as (Hpid & _). unfold depth_weight. rewrite Hpid.
    rewrite !decide_False by done. destruct (location m), (location m'); done || lia.
Qed.

(** Pinning a victim takes its weight off. *)
Lemma depth_pin pinned (s : EM) k m :
  experts_ s !! k = Some m -> policyId m ∉ pinned ->
  depth ({[policyId m]} ∪ pinned) s + depth_weight pinned m <= depth pinned s.
Proof.
  intros Hk Hp. unfold depth.
  assert (forall x, depth_weight ({[policyId m]} ∪ pinned) x <= depth_weight pinned x) as Hle.
  { intros x. unfold depth_weight. pose proof (depth_weight_nonneg pinned x) as Hnn.
    unfold depth_weight in Hnn. destruct (decide (policyId x ∈ pinned)) as [Hx|Hx].
    - rewrite decide_True by set_solver. lia.
    - case_decide; [|lia]. lia. }
  apply (map_sum_drop_fun _ _ _ k m); [intros; apply Hle|done|].
  unfold depth_weight at 1. rewrite decide_True by set_solver. lia.
Qed.

(** *** Victims *)

Lemma victim_candidate (s : EM) tier pinned v :
  em_inv s -> selectVictim (policy_ s) tier (candidatesLocked tier s) pinned = Some v ->
  v ∉ pinned /\ exists k m, experts_ s !! k = Some m /\ policyId m = v /\
    location m = tier /\ leases s m = 0 /\ policyExperts_ s !! v = Some k /\
    k = pack_key (ex_layer (metadata m)) (ex_id (metadata m)).
Proof.
  intros Hs Hv. apply selectVictim_admissible in Hv as [Hc Hp]. split; [done|].
  unfold candidatesLocked in Hc. apply list_elem_of_fmap in Hc as ([k m] & -> & Hc).
  apply list_elem_of_filter in Hc as [[Hl Hz] Hc]. apply elem_of_map_to_list in Hc.
  exists k, m. pose proof (ei_entries s Hs k m Hc) as []. done.
Qed.

Lemma no_victim (s : EM) tier pinned :
  selectVictim (policy_ s) tier (candidatesLocked tier s) pinned = None ->
  forall k m, experts_ s !! k = Some m -> location m = tier -> leases s m = 0 -> policyId m ∈ pinned.
Proof.
  intros Hnone k m Hk Hl Hz. apply dec_stable. intros Hp.
  destruct (selectVictim_available (policy_ s) tier (candidatesLocked tier s) pinned (policyId m)) as [v Hv];
    [|done|congruence].
  unfold candidatesLocked. apply list_elem_of_fmap. exists (k, m). split; [done|].
  apply list_elem_of_filter. split; [done|]. by apply elem_of_map_to_list.
Qed.

Lemma wp_usage (s : EM) tier Q E :
  tier <> Nvme -> Q (usageFor (memory_ s) tier) s -> wp (lift (usage (memory_ s) tier)) s Q E.
Proof.
  intros Ht HQ. apply wp_lift. unfold usage. rewrite (proj2 (tier_eqb_false tier Nvme) Ht). done.
Qed.

Lemma wp_victim (s : EM) v k m Q E :
  policyExperts_ s !! v = Some k -> experts_ s !! k = Some m -> Q (metadata m) s ->
  wp (victim_metadata v) s Q E.
Proof. intros Hv Hk HQ. unfold victim_metadata. wp_step. wp_step. rewrite Hv, Hk. by wp_step. Qed.

Lemma settled_refl pinned (s : EM) : em_inv s -> settled pinned s s.
Proof. intros. split_and!; [done|apply frame_refl|lia]. Qed.

Lemma settled_trans pinned (s1 s2 s3 : EM) : settled pinned s1 s2 -> settled pinned s2 s3 -> settled pinned s1 s3.
Proof. intros (? & ? & ?) (? & ? & ?). split_and!; [done|by eapply frame_trans|lia]. Qed.

Lemma settled_settled_err pinned (s s' : EM) : settled pinned s s' -> settled_err pinned s s'.
Proof. intros (? & ? & ?). split_and!; done || lia. Qed.

Lemma settled_err_trans pinned (s1 s2 s3 : EM) :
  settled pinned s1 s2 -> settled_err pinned s2 s3 -> settled_err pinned s1 s3.
Proof. intros (? & ? & ?) (? & ? & ?). split_and!; [done|by eapply frame_trans|lia]. Qed.

Lemma frame_transfers pinned x (s s' : EM) : frame pinned x s s' -> transfers_ s' <> None -> transfers_ s <> None.
Proof. intros Hf. pose proof (ss_transfers _ _ (fr_static _ _ _ _ Hf)). tauto. Qed.

Lemma frame_leases pinned x (s s' : EM) m : frame pinned x s s' -> leases s' m = leases s m.
Proof. intros Hf. apply leases_static; [apply Hf|apply relocation_refl]. Qed.

(** The victim's own move seen from outside: its pins are those of the caller. *)
Lemma frame_victim pinned (s s' : EM) k m m' :
  frame ({[policyId m]} ∪ pinned) (Some k) s s' -> experts_ s !! k = Some m ->
  experts_ s' !! k = Some m' -> policyId m ∉ pinned ->
  m' = m \/ lower (location m) (location m') -> frame pinned None s s'.
Proof.
  intros Hf Hk Hk' Hp Hm'. eapply (frame_weaken pinned _ None); [exact Hf|set_solver|].
  intros k0 m0 [= <-] H0. right. rewrite Hk in H0. injection H0 as <-. split; [done|].
  intros m2 H2. rewrite Hk' in H2. by injection H2 as <-.
Qed.

(** The head of [makeRoomLocked] on top of its loop. *)
Lemma makeRoom_with_spec n tier required pinned (s : EM) :
  loop_spec n -> em_inv s -> tier <> Nvme -> id_budget s + 1 <= u64_max ->
  depth pinned s + 2 <= Z.of_nat n ->
  wp (makeRoom_with (makeRoomLoop n) tier required pinned) s
    (fun _ s' => settled pinned s s' /\
       required <= availableBytes (usageFor (memory_ s') tier))
    (fun e s' => settled_err pinned s s' /\ room_error pinned tier required e s s').
Proof.
  intros Hloop Hs Ht Hroom Hn. unfold makeRoom_with. rewrite (proj2 (tier_eqb_false tier Nvme) Ht).
  wp_step. wp_step. wp_step. apply wp_usage; [done|]. wp_step.
  wp_step; [|by apply Hloop].
  split; [by apply settled_settled_err, settled_refl|]. right. split; [done|]. left. by apply Z.ltb_lt.
Qed.

(** *** Demoting a victim *)

Lemma demote_nvme n pinned (s : EM) k m :
  move_spec n -> em_inv s -> experts_ s !! k = Some m -> policyId m ∉ pinned ->
  leases s m = 0 -> location m <> Nvme -> (1 <= n)%nat ->
  wp (moveExpertLocked n (ex_layer (metadata m)) (ex_id (metadata m)) Nvme ({[policyId m]} ∪ pinned)) s
    (fun _ s' => em_inv s' /\ frame pinned None s s' /\ id_budget s' <= id_budget s - in_vram m /\
                 depth pinned s' + 1 <= depth pinned s)
    (fun _ _ => False).
Proof.
  intros Hmove Hs Hk Hp Hz Hl Hn. pose proof (en_key _ _ _ (ei_entries s Hs k m Hk)) as Hkey.
  eapply wp_mono; [apply (Hmove _ _ _ _ s m); [done|by rewrite <- Hkey|set_solver|done|by left|]|..].
  - unfold move_need. assert (tier_eqb Nvme Nvme = true) as -> by by apply tier_eqb_true.
    rewrite orb_true_r. lia.
  - rewrite <- Hkey. intros _ s' (Hs' & Hf & Hb & m' & Hk' & Hr & Hl').
    assert (lower (location m) (location m')) as Hlow by (rewrite Hl'; by destruct (location m)).
    pose proof (frame_victim pinned s s' k m m' Hf Hk Hk' Hp (or_intror Hlow)) as Hf'.
    split_and!; [done..| |by eapply frame_depth_lt].
    unfold move_cost in Hb. destruct (location m) eqn:Hloc; try done; unfold in_vram in *; rewrite Hloc in *; lia.
  - rewrite <- Hkey. by intros e s' (_ & _ & _ & _ & ? & _).
Qed.

Lemma demote_spec n tier pinned (s : EM) k m :
  move_spec n -> em_inv s -> experts_ s !! k = Some m -> policyId m ∉ pinned ->
  location m = tier -> leases s m = 0 -> tier <> Nvme ->
  id_budget s + 1 <= u64_max -> depth pinned s + 1 <= Z.of_nat n ->
  wp (demote_with (moveExpertLocked n) tier (metadata m) ({[policyId m]} ∪ pinned)) s
    (fun _ s' => settled pinned s s' /\ depth pinned s' + 1 <= depth pinned s)
    (fun e s' => settled_err pinned s s' /\ transfers_ s <> None /\ tier = Vram /\ is_runtime_error e = false).
Proof.
  intros Hmove Hs Hk Hp Hl Hz Ht Hroom Hn.
  pose proof (depth_pin pinned s k m Hk Hp) as Hpin. pose proof (depth_nonneg ({[policyId m]} ∪ pinned) s) as Hnn.
  assert (1 <= depth_weight pinned m) as Hw.
  { unfold depth_weight. rewrite decide_False by done. destruct (location m); lia || congruence. }
  unfold demote_with. destruct (tier_eqb tier Vram) eqn:Hv.
  2: { eapply wp_mono; [apply (demote_nvme n pinned s k m); try done; [congruence|lia]| |done].
       intros _ s' (? & ? & Hb & ?). split; [|done]. split_and!; [done..|].
       unfold in_vram in Hb. destruct (tier_eqb (location m) Vram); lia. }
  apply tier_eqb_true in Hv as ->.
  assert (depth_weight pinned m = 2) as Hw2.
  { unfold depth_weight. by rewrite decide_False, Hl. }
  pose proof (en_key _ _ _ (ei_entries s Hs k m Hk)) as Hkey.
  apply wp_try. eapply wp_mono;
    [apply (Hmove _ _ Ram _ s m); [done|by rewrite <- Hkey|set_solver|done|right|]|..].
  - unfold move_cost. rewrite Hl. lia.
  - unfold move_need. rewrite Hl. tiers. lia.
  - rewrite <- Hkey. intros _ s' (Hs' & Hf & Hb & m' & Hk' & Hr & Hl').
    assert (lower (location m) (location m')) as Hlow by by rewrite Hl', Hl.
    pose proof (frame_victim pinned s s' k m m' Hf Hk Hk' Hp (or_intror Hlow)) as Hf'.
    unfold move_cost in Hb. rewrite Hl in Hb.
    split; [split_and!; [done..|lia]|by eapply frame_depth_lt].
  - rewrite <- Hkey. intros e s1 (Hs1 & Hf & Hb & (m' & Hk' & Hr & Hm') & _ & Herr).
    assert (m' = m) as -> by (destruct Hm' as [?|(? & _)]; congruence).
    rewrite Hl in Hb. tiers.
    pose proof (frame_victim pinned s s1 k m m Hf Hk Hk' Hp (or_introl eq_refl)) as Hf1.
    destruct (is_runtime_error e) eqn:He.
    + eapply wp_mono; [apply (demote_nvme n pinned s1 k m); try done| |done].
      * rewrite (frame_leases pinned None s s1 m Hf1). done.
      * by rewrite Hl.
      * lia.
      * intros _ s2 (Hs2 & Hf2 & Hb2 & Hd2). unfold in_vram in Hb2. rewrite Hl in Hb2. tiers.
        pose proof (frame_depth pinned s s1 Hf1).
        split; [split_and!; [done|by eapply frame_trans|lia]|lia].
    + split; [split_and!; [done..|lia]|]. split; [|done]. destruct Herr as [(_ & _ & ? & _)|[?|(? & _)]]; congruence.
Qed.

Lemma loop_step n : move_spec n -> loop_spec n -> loop_spec (S n).
Proof.
  intros Hmove Hloop tier required pinned s Hs Ht Hroom Hn. cbn [makeRoomLoop].
  wp_step. wp_step. wp_step. apply wp_usage; [done|].
  destruct (Z.ltb_spec (availableBytes (usageFor (memory_ s) tier)) required) as [Hlt|Hge].
  2: { wp_step. split; [by apply settled_refl|done]. }
  destruct (selectVictim (policy_ s) tier (candidatesLocked tier s) pinned) as [v|] eqn:Hv.
  2: { wp_step. split; [by apply settled_settled_err, settled_refl|]. right. split; [done|].
       right. split; [done|]. by eapply no_victim. }
  destruct (victim_candidate s tier pinned v Hs Hv) as (Hp & k & m & Hk & <- & Hl & Hz & Hpe & _).
  wp_step. eapply wp_victim; [done..|]. wp_step.
  eapply wp_mono; [apply (demote_spec n tier pinned s k m); try done; lia|..].
  - intros _ s1 [Hset Hd]. pose proof Hset as (Hs1 & Hf1 & Hb1).
    eapply wp_mono; [apply Hloop; [done|done|lia|lia]|..].
    + intros _ s2 [Hset2 ?]. split; [by eapply settled_trans|done].
    + intros e s2 [Hset2 Herr]. split; [by eapply settled_err_trans|].
      destruct Herr as [Htr|?]; [left; by eapply frame_transfers|by right].
  - intros e s1 (Hset & Htr & _). split; [done|by left].
Qed.

(** *** One move *)

Lemma frame_exempt pinned x (s s' : EM) : frame pinned None s s' -> frame pinned x s s'.
Proof. intros Hf. by eapply frame_weaken; [exact Hf|done|]. Qed.

Lemma frame_depth_exempt pinned (s s' : EM) k m :
  frame pinned (Some k) s s' -> experts_ s !! k = Some m -> policyId m ∈ pinned ->
  depth pinned s' <= depth pinned s.
Proof.
  intros Hf Hk Hp. apply map_sum_le; [intros; by eapply frame_dom|].
  intros k' x x' Hx Hx'. destruct (fr_entry _ _ _ _ Hf k' x Hx) as (y & Hy & Hstep).
  rewrite Hx' in Hy. injection Hy as <-.
  destruct Hstep as [->|(Hz & Hr & [[= ->]|Hlow])]; [done|..].
  - rewrite Hk in Hx. injection Hx as <-. destruct (relocation_keeps _ _ Hr) as (Hpid & _).
    unfold depth_weight. by rewrite Hpid, !decide_True.
  - eapply entry_step_depth. right. eauto.
Qed.

(** The outcome of the step that follows a successful [makeRoomLocked]. *)
Lemma after_room_ok pinned (s s1 s2 : EM) k m m' :
  settled pinned s s1 -> experts_ s !! k = Some m -> leases s m = 0 -> location m' <> Nvme ->
  relocated k m m' s1 s2 -> location m <> location m' ->
  id_budget s2 <= id_budget s + move_cost m (location m') ->
  move_ok k m (location m') pinned s s2.
Proof.
  intros (Hs1 & Hf1 & Hb1) Hk Hz Hn Hr Hne Hb.
  assert (leases s1 m = 0) as Hz1 by by rewrite (frame_leases _ _ _ _ m Hf1).
  split_and!.
  - by eapply relocated_inv.
  - eapply frame_trans; [by apply frame_exempt|]. by eapply relocated_frame.
  - done.
  - exists m'. split; [|split; [apply Hr|done]]. rewrite (rc_new _ _ _ _ _ Hr). apply lookup_insert_eq.
Qed.

Lemma relocated_cost (s1 s2 : EM) k m m' b :
  relocated k m m' s1 s2 -> location m' <> Nvme -> location m <> location m' ->
  id_budget s1 <= b -> (location m = Nvme -> location m' <> Vram) ->
  id_budget s2 <= b + move_cost m (location m').
Proof.
  intros Hr Hn Hne Hb Hnv. pose proof (relocated_id_budget _ _ _ _ _ Hr) as Hc.
  unfold move_cost, in_vram in *. destruct (location m), (location m'); tiers; try done; lia.
Qed.

Lemma after_room_bad pinned (s s1 s2 : EM) k m destination e :
  settled pinned s s1 -> experts_ s !! k = Some m -> policyId m ∈ pinned -> destination <> Nvme ->
  sizeBytes m <= availableBytes (usageFor (memory_ s1) destination) ->
  move_failed s1 s2 destination (sizeBytes m) ->
  move_bad k m destination pinned e s s2.
Proof.
  intros (Hs1 & Hf1 & Hb1) Hk Hp Hd Hroom [Hi Herr].
  assert (experts_ s1 !! k = Some m) as Hk1 by by eapply frame_pinned.
  pose proof (idle_id_budget _ _ Hi) as Hb2. split_and!.
  - by eapply idle_inv.
  - eapply frame_trans; [by apply frame_exempt|by apply idle_frame].
  - destruct (tier_eqb _ _); lia.
  - exists m. rewrite (id_experts _ _ Hi). split; [done|]. split; [apply relocation_refl|by left].
  - done.
  - right. left. destruct Herr as [?|Htr]; [lia|]. by eapply frame_transfers.
Qed.

Lemma room_bad pinned (s s1 : EM) k m destination tier e :
  settled_err pinned s s1 -> experts_ s !! k = Some m -> policyId m ∈ pinned -> destination <> Nvme ->
  tier <> Nvme -> needs_tier k m destination tier s1 -> room_error pinned tier (sizeBytes m) e s s1 ->
  move_bad k m destination pinned e s s1.
Proof.
  intros (Hs1 & Hf1 & Hb1) Hk Hp Hd Ht Hneed Herr.
  assert (experts_ s1 !! k = Some m) as Hk1 by by eapply frame_pinned.
  split_and!; [done|by apply frame_exempt|destruct (tier_eqb _ _); lia| |done|].
  - exists m. split; [done|]. split; [apply relocation_refl|by left].
  - destruct Herr as [?|[? ?]]; [right; by left|right; right]. eauto.
Qed.

Lemma move_general n layerId id destination pinned (s : EM) k m :
  loop_spec n -> em_inv s -> experts_ s !! k = Some m -> policyId m ∈ pinned -> leases s m = 0 ->
  destination <> Nvme -> location m <> destination -> (location m = Nvme -> destination <> Vram) ->
  id_budget s + 1 <= u64_max -> depth pinned s + 2 <= Z.of_nat n ->
  wp (makeRoom_with (makeRoomLoop n) destination (sizeBytes m) pinned ;;;
      promote k layerId id (location m) destination)%st s
    (fun _ s' => move_ok k m destination pinned s s')
    (fun e s' => move_bad k m destination pinned e s s').
Proof.
  intros Hloop Hs Hk Hp Hz Hd Hne Hnv Hroom Hn. wp_step.
  eapply wp_mono; [by apply makeRoom_with_spec|..].
  - intros _ s1 [Hset Hav]. pose proof Hset as (Hs1 & Hf1 & Hb1).
    assert (experts_ s1 !! k = Some m) as Hk1 by by eapply frame_pinned.
    eapply wp_mono; [apply (promote_spec k layerId id destination m s1); try done; lia|..].
    + intros _ s2 (m' & Hr & <-). eapply after_room_ok; eauto. eapply relocated_cost; eauto.
    + intros e s2 Hfail. by eapply after_room_bad.
  - intros e s1 [Hset Herr]. eapply room_bad; eauto. by left.
Qed.

Lemma move_load n layerId id pinned (s : EM) k m :
  loop_spec n -> em_inv s -> experts_ s !! k = Some m -> policyId m ∈ pinned -> leases s m = 0 ->
  location m = Nvme -> transfers_ s <> None ->
  id_budget s + 1 <= u64_max -> depth pinned s + 2 <= Z.of_nat n ->
  wp (makeRoom_with (makeRoomLoop n) Ram (sizeBytes m) pinned ;;;
      s <- st_get ;;
      match transfers_ s with
      | Some t => load_to_ram k layerId id t
      | None => diverge
      end)%st s
    (fun _ s' => move_ok k m Ram pinned s s')
    (fun e s' => move_bad k m Ram pinned e s s').
Proof.
  intros Hloop Hs Hk Hp Hz Hl Htr Hroom Hn. wp_step.
  eapply wp_mono; [by apply makeRoom_with_spec|..].
  - intros _ s1 [Hset Hav]. pose proof Hset as (Hs1 & Hf1 & Hb1). wp_step. wp_step.
    assert (experts_ s1 !! k = Some m) as Hk1 by by eapply frame_pinned.
    destruct (transfers_ s1) as [t|] eqn:Ht.
    2: { by apply (ss_transfers _ _ (fr_static _ _ _ _ Hf1)) in Ht. }
    eapply wp_mono; [apply (load_to_ram_spec k layerId id t m s1); try done; lia|..].
    + intros _ s2 (m' & Hr & Hl'). rewrite <- Hl'.
      apply (after_room_ok pinned s s1 s2 k m m'); rewrite ?Hl, ?Hl'; try done.
      rewrite <- Hl'. apply (relocated_cost s1 s2 k m m'); rewrite ?Hl, ?Hl'; done.
    + intros e s2 Hfail. by eapply after_room_bad.
  - intros e s1 [Hset Herr]. apply (room_bad pinned s s1 k m Ram Ram e); try done. by left.
Qed.

(** Loading to VRAM stages through RAM. *)
Lemma move_staged n layerId id pinned (s : EM) m :
  let k := pack_key layerId id in
  move_spec n -> em_inv s -> experts_ s !! k = Some m -> policyId m ∈ pinned -> leases s m = 0 ->
  location m = Nvme -> id_budget s + 4 <= u64_max -> depth pinned s + 3 <= Z.of_nat n ->
  wp (moveExpertLocked n layerId id Ram pinned ;;; moveExpertLocked n layerId id Vram pinned)%st s
    (fun _ s' => move_ok k m Vram pinned s s')
    (fun e s' => move_bad k m Vram pinned e s s').
Proof.
  intros k Hmove Hs Hk Hp Hz Hl Hroom Hn. wp_step.
  eapply wp_mono; [apply (Hmove layerId id Ram pinned s m); try done|..].
  - right. unfold move_cost. rewrite Hl. lia.
  - unfold move_need. rewrite Hl. tiers. lia.
  - intros _ s1 (Hs1 & Hf1 & Hb1 & m1 & Hk1 & Hr1 & Hl1). fold k in Hf1, Hk1.
    destruct (relocation_keeps _ _ Hr1) as (Hpid & _ & Hsize & _).
    pose proof (frame_depth_exempt pinned s s1 k m Hf1 Hk Hp) as Hd.
    assert (leases s1 m1 = 0) as Hz1.
    { rewrite <- Hz. by apply leases_static; [apply Hf1|]. }
    unfold move_cost in Hb1. rewrite Hl in Hb1.
    eapply wp_mono; [apply (Hmove layerId id Vram pinned s1 m1); try done|..].
    + by rewrite Hpid.
    + right. unfold move_cost. rewrite Hl1. lia.
    + unfold move_need. rewrite Hl1. tiers. lia.
    + intros _ s2 (Hs2 & Hf2 & Hb2 & m2 & Hk2 & Hr2 & Hl2). fold k in Hf2, Hk2.
      unfold move_cost in Hb2. rewrite Hl1 in Hb2. split_and!; [done|by eapply frame_trans| |].
      * unfold move_cost. rewrite Hl. lia.
      * exists m2. split; [done|]. split; [by eapply relocation_trans|done].
    + intros e s2 (Hs2 & Hf2 & Hb2 & (m2 & Hk2 & Hr2 & Hm2) & _ & Herr). fold k in Hf2, Hk2.
      rewrite Hl1 in Hb2. tiers. split_and!; [done|by eapply frame_trans| | |done|].
      * rewrite Hl. tiers. lia.
      * exists m2. split; [done|]. split; [by eapply relocation_trans|]. right.
        split; [done|]. split; [done|]. destruct Hm2 as [->|(? & _)]; congruence.
      * destruct Herr as [(_ & _ & ? & _)|[Htr|(He & t & Ht & Hneed & Hno)]]; [done|..].
        -- right. left. by eapply frame_transfers.
        -- right. right. split; [done|]. exists t. rewrite Hsize in Hno. split; [done|]. split; [|done].
           destruct Hneed as [->|(? & _)]; [by left|congruence].
  - intros e s1 (Hs1 & Hf1 & Hb1 & (m1 & Hk1 & Hr1 & Hm1) & _ & Herr). split_and!; try done.
    + exists m1. split; [done|]. split; [done|]. destruct Hm1 as [->|(_ & ? & _)]; [by left|done].
    + destruct Herr as [(_ & _ & ? & _)|[Htr|(He & t & Ht & Hneed & Hno)]]; [done|..].
      * right. by left.
      * right. right. split; [done|]. exists t. split; [done|]. split; [|done].
        destruct Hneed as [->|(_ & ? & _)]; [right|done].
        split_and!; [done..|]. destruct Hm1 as [->|(_ & ? & _)]; done.
Qed.

(** The branches of [moveExpertLocked] past its guards. *)
Definition dispatch (n : nat) (k layerId id : Z) (m : ManagedExpert) (destination : MemoryTier)
    (pinned : gset Z) (transfers : option T) : ST EM unit :=
  match location m, destination, transfers with
  | Nvme, Vram, _ =>
      (moveExpertLocked n layerId id Ram pinned ;;; moveExpertLocked n layerId id Vram pinned)%st
  | Nvme, Ram, Some _ =>
      (makeRoom_with (makeRoomLoop n) destination (sizeBytes m) pinned ;;;
       s <- st_get ;;
       match transfers_ s with Some t => load_to_ram k layerId id t | None => diverge end)%st
  | _, Nvme, _ => drop_to_nvme k (location m)
  | _, _, _ =>
      (makeRoom_with (makeRoomLoop n) destination (sizeBytes m) pinned ;;;
       promote k layerId id (location m) destination)%st
  end.

Lemma moveExpertLocked_S n layerId id destination pinned :
  moveExpertLocked (S n) layerId id destination pinned =
  (k <- requireExpertLocked layerId id ;;
   m <- deref k ;;
   s <- st_get ;;
   if tier_eqb (location m) destination then ret tt
   else
     (lift (throw_if (negb (leases s m =? 0))
        (Exn LogicError "cannot move expert while a residency lease is active")) ;;;
      dispatch n k layerId id m destination pinned (transfers_ s)))%st.
Proof. reflexivity. Qed.

(** A move to NVMe only drops the expert. *)
Lemma nvme_drop n layerId id pinned (s : EM) m :
  let k := pack_key layerId id in
  em_inv s -> experts_ s !! k = Some m -> location m <> Nvme -> leases s m = 0 ->
  wp (moveExpertLocked (S n) layerId id Nvme pinned) s
    (fun _ s' => relocated k m (set_residency Nvme None None None m) s s') (fun _ _ => False).
Proof.
  intros k Hs Hk Hl Hz. rewrite moveExpertLocked_S. wp_step. apply wp_require; fold k; [|congruence].
  intros m0 Hm0. wp_step. eapply wp_deref; [done|]. assert (m0 = m) as -> by (fold k in Hm0; congruence).
  wp_step. wp_step. rewrite (proj2 (tier_eqb_false _ _) Hl). rewrite Hz. wp_step. wp_step; [done|].
  assert (dispatch n k layerId id m Nvme pinned (transfers_ s) = drop_to_nvme k (location m)) as -> by (unfold dispatch; by destruct (location m)).
  by apply drop_spec.
Qed.

Lemma dispatch_general n k layerId id m destination pinned transfers :
  destination <> Nvme -> ~ (location m = Nvme /\ destination = Vram) ->
  ~ (location m = Nvme /\ destination = Ram /\ transfers <> None) ->
  dispatch n k layerId id m destination pinned transfers =
  (makeRoom_with (makeRoomLoop n) destination (sizeBytes m) pinned ;;;
   promote k layerId id (location m) destination)%st.
Proof.
  unfold dispatch. intros. destruct (location m), destination, transfers; try done; exfalso; naive_solver.
Qed.

Lemma dispatch_spec n layerId id destination pinned (s : EM) m :
  let k := pack_key layerId id in
  move_spec n -> loop_spec n -> em_inv s -> experts_ s !! k = Some m -> policyId m ∈ pinned ->
  leases s m = 0 -> location m <> destination ->
  (destination = Nvme \/ id_budget s + 1 + move_cost m destination <= u64_max) ->
  move_need pinned m destination s <= Z.of_nat (S n) ->
  wp (dispatch n k layerId id m destination pinned (transfers_ s)) s
    (fun _ s' => move_ok k m destination pinned s s')
    (fun e s' => move_bad k m destination pinned e s s').
Proof.
  intros k Hmove Hloop Hs Hk Hp Hz Hne Hroom Hn.
  destruct (decide (destination = Nvme)) as [->|Hd].
  { assert (dispatch n k layerId id m Nvme pinned (transfers_ s) = drop_to_nvme k (location m)) as ->
      by (unfold dispatch; by destruct (location m)).
    eapply wp_mono; [by apply drop_spec| |done].
    intros ? s' Hr. cbn beta in Hr. split_and!.
    - by eapply relocated_inv.
    - by eapply relocated_frame.
    - pose proof (relocated_id_budget _ _ _ _ _ Hr) as Hb. unfold move_cost, in_vram in *.
      cbn in Hb. tiers. destruct (location m); tiers; lia || done.
    - eexists. split; [rewrite (rc_new _ _ _ _ _ Hr); apply lookup_insert_eq|].
      split; [apply Hr|done]. }
  destruct Hroom as [?|Hroom]; [done|].
  apply tier_eqb_false in Hne as Hsame. apply tier_eqb_false in Hd as Hdn.
  assert (depth pinned s + 3 <= Z.of_nat (S n)) as Hn3.
  { unfold move_need in Hn. rewrite Hsame, Hdn in Hn. cbn [orb] in Hn. destruct (_ && _); lia. }
  assert (id_budget s + 1 <= u64_max) as Hroom1.
  { unfold move_cost, in_vram in Hroom. destruct (location m), destination; done || lia. }
  destruct (decide (location m = Nvme /\ destination = Vram)) as [[Hl ->]|Hstage].
  { unfold dispatch. rewrite Hl. unfold move_need in Hn. rewrite Hl in Hn.
    unfold move_cost in Hroom. rewrite Hl in Hroom. tiers. apply move_staged; done || lia. }
  destruct (decide (location m = Nvme /\ destination = Ram /\ transfers_ s <> None)) as [(Hl & -> & Htr)|Hload].
  { unfold dispatch. rewrite Hl. destruct (transfers_ s) as [t|] eqn:Ht; [|done].
    apply move_load; try done; [by rewrite Ht|lia]. }
  rewrite dispatch_general by done. apply move_general; try done; try lia. intros Hl ->. naive_solver.
Qed.

Lemma move_step n : move_spec n -> loop_spec n -> move_spec (S n).
Proof.
  intros Hmove Hloop layerId id destination pinned s m k Hs Hk Hp Hz Hroom Hn.
  rewrite moveExpertLocked_S. wp_step. apply wp_require.
  2: { intros Hnone. fold k in Hnone. congruence. }
  intros m0 Hm0. fold k. fold k in Hm0. wp_step. eapply wp_deref; [done|]. wp_step. wp_step.
  assert (m0 = m) as -> by congruence.
  destruct (tier_eqb (location m) destination) eqn:Hsame.
  { apply tier_eqb_true in Hsame as <-. wp_step. split_and!; [done|apply frame_refl| |].
    - unfold move_cost. destruct (location m); lia.
    - exists m. split; [done|]. split; [apply relocation_refl|done]. }
  apply tier_eqb_false in Hsame as Hne. wp_step. wp_step.
  - apply negb_true_iff, Z.eqb_neq in H.
    split_and!; [done|apply frame_refl|destruct (tier_eqb (location m) Nvme); lia| |naive_solver|].
    + exists m. split; [done|]. split; [apply relocation_refl|by left].
    + left. done.
  - apply negb_false_iff, Z.eqb_eq in H. by apply dispatch_spec.
Qed.

Lemma recursion_spec n : move_spec n /\ loop_spec n.
Proof.
  induction n as [|n [Hm Hl]].
  - split.
    + intros layerId id destination pinned s m k _ _ _ _ _ Hn. exfalso. revert Hn. unfold move_need.
      pose proof (depth_nonneg pinned s). repeat case_match; lia.
    + intros tier required pinned s _ _ _ Hn. pose proof (depth_nonneg pinned s). lia.
  - split; [by apply move_step|by apply loop_step].
Qed.
End recursion.
