(* ===== verification/ManagerMethods.v ===== *)
(** * The public methods of the expert manager

    Specifications of the methods of [ExpertManager] on top of the residency
    invariant: every method terminates, preserves the invariant whether it
    returns or throws, and does what its caller expects. *)

From S2P Require Import Prelude Float Tiers MemoryManager CachePolicy.
From S2P Require Import Bytes ExpertIndex ExpertStore Transfer ExpertManager Residency.

Section methods.
Context {P T : Type} `{HP : CachePolicy P} `{HL : !CachePolicyLaws P}.
Context `{HT : !TransferService T} `{HTL : !TransferServiceLaws T}.
Notation EM := (ExpertManager P T).

(** Room for the identifiers one call may consume: the memory manager numbers its
    allocations on 64 bits and never reuses a number. *)
Definition id_space (s : EM) : Prop := id_budget s + 5 <= u64_max.

(** ** Updates that touch no residency *)

Definition hard_same (m m' : ManagedExpert) : Prop :=
  metadata m' = metadata m /\ policyId m' = policyId m /\ allocation m' = allocation m /\
  weights m' = weights m /\ deviceWeights m' = deviceWeights m /\
  residencyLeases m' = residencyLeases m.

Record soft (s s' : EM) : Prop := Soft {
  so_memory : memory_ s' = memory_ s;
  so_policy : policyExperts_ s' = policyExperts_ s;
  so_legacy : legacyExperts_ s' = legacyExperts_ s;
  so_next : nextPolicyId_ s' = nextPolicyId_ s;
  so_nextCell : nextCell_ s' = nextCell_ s;
  so_cells : forall c, is_Some (cells_ s' !! c) <-> is_Some (cells_ s !! c);
  so_transfers : transfers_ s' = transfers_ s;
  so_entry : forall k, option_relation hard_same (fun _ => False) (fun _ => False)
               (experts_ s !! k) (experts_ s' !! k);
}.

Lemma hard_same_refl m : hard_same m m.
Proof. done. Qed.

Lemma soft_some (s s' : EM) k m :
  soft s s' -> experts_ s !! k = Some m -> exists m', experts_ s' !! k = Some m' /\ hard_same m m'.
Proof.
  intros Hs Hk. pose proof (so_entry _ _ Hs k) as He. rewrite Hk in He.
  destruct (experts_ s' !! k); [eauto|done].
Qed.

Lemma soft_some_inv (s s' : EM) k m' :
  soft s s' -> experts_ s' !! k = Some m' -> exists m, experts_ s !! k = Some m /\ hard_same m m'.
Proof.
  intros Hs Hk. pose proof (so_entry _ _ Hs k) as He. rewrite Hk in He.
  destruct (experts_ s !! k); [eauto|done].
Qed.

Lemma hard_owns mm m m' : hard_same m m' -> owns mm m -> owns mm m'.
Proof.
  intros (Hm & _ & Ha & Hw & Hd & _). unfold owns, location, sizeBytes. by rewrite Hm, Ha, Hw, Hd.
Qed.

(** A sum that reads only the residency fields is the same. *)
Lemma soft_sum (f : ManagedExpert -> Z) (s s' : EM) :
  (forall m m', hard_same m m' -> f m' = f m) -> soft s s' ->
  map_sum f (experts_ s') = map_sum f (experts_ s).
Proof.
  intros Hf Hs.
  assert (forall k, is_Some (experts_ s !! k) <-> is_Some (experts_ s' !! k)) as Hdom.
  { intros k. pose proof (so_entry _ _ Hs k) as He.
    destruct (experts_ s !! k), (experts_ s' !! k); try done; split; eauto. }
  assert (forall k m m', experts_ s !! k = Some m -> experts_ s' !! k = Some m' -> f m' = f m) as Heq.
  { intros k m m' Hk Hk'. destruct (soft_some s s' k m Hs Hk) as (x & Hx & Hh).
    rewrite Hk' in Hx. injection Hx as <-. auto. }
  apply Z.le_antisymm; apply map_sum_le.
  - done.
  - intros k m m' Hk Hk'. by rewrite (Heq k m m').
  - intros k. by rewrite Hdom.
  - intros k m m' Hk Hk'. by rewrite (Heq k m' m).
Qed.

Lemma soft_inv (s s' : EM) : em_inv s -> soft s s' -> em_inv s'.
Proof.
  intros Hs Hso. pose proof Hso as [Hmem Hpol Hleg Hnext Hnc Hcells Htr _]. destruct Hs. split.
  - by rewrite Hmem.
  - intros k m' Hk'. destruct (soft_some_inv s s' k m' Hso Hk') as (m & Hk & Hh).
    pose proof (ei_entries k m Hk) as [].
    pose proof (hard_owns (memory_ s) m m' Hh) as Ho. destruct Hh as (Hm & Hp & Ha & Hw & Hd & Hc).
    split; unfold sizeBytes in *; rewrite ?Hm, ?Hp, ?Hc, ?Hpol, ?Hmem, ?Hcells; auto.
  - intros k1 k2 m1 m2 a1 a2 H1 H2.
    destruct (soft_some_inv s s' k1 m1 Hso H1) as (x1 & Hx1 & (_ & _ & -> & _)).
    destruct (soft_some_inv s s' k2 m2 Hso H2) as (x2 & Hx2 & (_ & _ & -> & _)). eauto.
  - intros k1 k2 m1 m2 H1 H2.
    destruct (soft_some_inv s s' k1 m1 Hso H1) as (x1 & Hx1 & (_ & _ & _ & _ & _ & ->)).
    destruct (soft_some_inv s s' k2 m2 Hso H2) as (x2 & Hx2 & (_ & _ & _ & _ & _ & ->)). eauto.
  - intros c. rewrite Hcells, Hnc. auto.
  - intros p k. rewrite Hpol, Hnext. intros Hpk. destruct (ei_policy p k Hpk) as (? & m & Hk & <-).
    split; [done|]. destruct (soft_some s s' k m Hso Hk) as (m' & Hk' & (_ & Hp & _)). eauto.
  - by rewrite Hnext.
  - intros id. rewrite Hleg. destruct (ei_legacy id) as (? & ? & Hl). split; [done|]. split; [done|].
    intros k. rewrite Hl. unfold has_expert. split.
    + intros (m & Hk & <-). destruct (soft_some s s' k m Hso Hk) as (m' & Hk' & (Hm & _)).
      exists m'. by rewrite Hm.
    + intros (m' & Hk' & <-). destruct (soft_some_inv s s' k m' Hso Hk') as (m & Hk & (Hm & _)).
      exists m. by rewrite Hm.
  - intros v. unfold foreign, resident, used. rewrite Hmem, (soft_sum _ s s'); [apply ei_foreign| |done].
    intros m m' (Hm & _). unfold resident_bytes, location, sizeBytes. by rewrite Hm.
Qed.

Lemma soft_refl s : soft s s.
Proof. split; try done. intros k. by destruct (experts_ s !! k). Qed.

Lemma soft_books (s s' : EM) :
  memory_ s' = memory_ s -> policyExperts_ s' = policyExperts_ s -> legacyExperts_ s' = legacyExperts_ s ->
  nextPolicyId_ s' = nextPolicyId_ s -> nextCell_ s' = nextCell_ s -> cells_ s' = cells_ s ->
  transfers_ s' = transfers_ s -> experts_ s' = experts_ s -> soft s s'.
Proof.
  intros ? ? ? ? ? Hc ? He. split; try done.
  - by rewrite Hc.
  - rewrite He. intros k. by destruct (experts_ s !! k).
Qed.

Lemma soft_update (s s' : EM) k f :
  memory_ s' = memory_ s -> policyExperts_ s' = policyExperts_ s -> legacyExperts_ s' = legacyExperts_ s ->
  nextPolicyId_ s' = nextPolicyId_ s -> nextCell_ s' = nextCell_ s -> cells_ s' = cells_ s ->
  transfers_ s' = transfers_ s ->
  experts_ s' = alter f k (experts_ s) -> (forall m, hard_same m (f m)) -> soft s s'.
Proof.
  intros ? ? ? ? ? Hc ? He Hf. split; try done.
  - by rewrite Hc.
  - intros k'. rewrite He. destruct (decide (k' = k)) as [->|Hne].
    + rewrite lookup_alter_eq. destruct (experts_ s !! k); cbn; [apply Hf|done].
    + rewrite lookup_alter_ne by done. by destruct (experts_ s !! k').
Qed.

(** ** Recording an access *)

Definition accessed (s : EM) (k : Z) (m : ManagedExpert) (s' : EM) : Prop :=
  soft s s' /\ stats_ s' = stats_ s /\ cells_ s' = cells_ s /\
  accessClock_ s' = wrap64 (accessClock_ s + 1) /\
  experts_ s' = <[k := set_access (wrap64 (accessClock_ s + 1)) m]> (experts_ s).

Lemma recordAccess_spec k m (s : EM) Q E :
  experts_ s !! k = Some m -> (forall s', accessed s k m s' -> Q tt s') ->
  wp (recordAccessLocked k) s Q E.
Proof.
  intros Hk HQ. unfold recordAccessLocked. wp_step. eapply wp_deref; [done|]. wp_step. wp_step.
  cbv zeta. wp_step. wp_step. wp_step. unfold update. wp_step. wp_step. apply HQ. split_and!; try done.
  - by eapply (soft_update _ _ k (set_access (wrap64 (accessClock_ s + 1)))).
  - cbn. by apply alter_as_insert.
Qed.

(** ** A move requested by a client *)

Lemma depth_bound pinned (s : EM) : depth pinned s <= 2 * Z.of_nat (size (experts_ s)).
Proof.
  apply map_sum_bound. intros k m _. unfold depth_weight. case_decide; [lia|]. destruct (location m); lia.
Qed.

Lemma move_same layerId id pinned (s : EM) m :
  experts_ s !! pack_key layerId id = Some m ->
  move layerId id (location m) pinned s = (Ok tt, s).
Proof.
  intros Hk. unfold move, move_fuel. rewrite Nat.add_comm.
  change (10 + 2 * size (experts_ s))%nat with (S (9 + 2 * size (experts_ s))).
  rewrite moveExpertLocked_S. unfold st_bind, requireExpertLocked, deref, st_get, ret. cbn.
  rewrite Hk. cbn. rewrite Hk. by rewrite (proj2 (tier_eqb_true (location m) (location m)) eq_refl).
Qed.

Lemma move_public layerId id destination (s : EM) m :
  let k := pack_key layerId id in
  em_inv s -> experts_ s !! k = Some m -> (destination = Nvme -> leases s m = 0) -> id_space s ->
  wp (move layerId id destination {[policyId m]}) s
    (fun _ s' => move_ok k m destination {[policyId m]} s s')
    (fun e s' => location m <> destination /\ move_bad k m destination {[policyId m]} e s s').
Proof.
  intros k Hs Hk Hz Hroom. destruct (decide (location m = destination)) as [<-|Hne].
  { unfold wp. rewrite (move_same layerId id _ s m Hk). split_and!; [done|apply frame_refl| |].
    - unfold move_cost. destruct (location m); lia.
    - exists m. split_and!; [done|apply relocation_refl|done]. }
  apply (wp_mono _ _ (fun _ s' => move_ok k m destination {[policyId m]} s s') _
           (fun e s' => move_bad k m destination {[policyId m]} e s s')); [|done..]. unfold wp, move.
  apply (proj1 (recursion_spec (move_fuel s)) layerId id destination {[policyId m]} s m);
    [done|done|set_solver|done| |].
  - right. unfold id_space in Hroom. unfold move_cost, in_vram.
    destruct (location m), destination; tiers; lia.
  - unfold move_need, move_fuel. pose proof (depth_bound {[policyId m]} s).
    repeat case_match; lia.
Qed.

Lemma move_leased layerId id destination pinned (s : EM) m :
  let k := pack_key layerId id in
  experts_ s !! k = Some m -> leases s m <> 0 -> location m <> destination ->
  move layerId id destination pinned s =
  (Throw (Exn LogicError "cannot move expert while a residency lease is active"), s).
Proof.
  intros k Hk Hz Hne. unfold move, move_fuel. rewrite Nat.add_comm.
  change (10 + 2 * size (experts_ s))%nat with (S (9 + 2 * size (experts_ s))).
  rewrite moveExpertLocked_S. unfold st_bind, requireExpertLocked, deref, st_get, ret. cbn.
  fold k. rewrite Hk. cbn. rewrite Hk.
  rewrite (proj2 (tier_eqb_false _ _) Hne). unfold lift, throw_if.
  by rewrite (proj2 (Z.eqb_neq _ _) Hz).
Qed.

(** ** What a method call may change *)

(** A leased expert keeps everything that makes it resident. *)
Definition leased_kept (s s' : EM) : Prop :=
  forall k m, experts_ s !! k = Some m -> leases s m <> 0 ->
    exists m', experts_ s' !! k = Some m' /\ hard_same m m'.

Record call (ids : Z) (s s' : EM) : Prop := Call {
  ca_inv : em_inv s';
  ca_cells : cells_ s' = cells_ s;
  ca_leased : leased_kept s s';
  ca_limits : forall t, limitBytes (usageFor (memory_ s') t) = limitBytes (usageFor (memory_ s) t);
  ca_budget : id_budget s' <= id_budget s + ids;
}.

Lemma hard_same_trans m1 m2 m3 : hard_same m1 m2 -> hard_same m2 m3 -> hard_same m1 m3.
Proof. unfold hard_same. intuition congruence. Qed.

Lemma hard_leases (s s' : EM) m m' :
  cells_ s' = cells_ s -> hard_same m m' -> leases s' m' = leases s m.
Proof. intros Hc (_ & _ & _ & _ & _ & Hr). unfold leases. by rewrite Hc, Hr. Qed.

Lemma call_refl n s : em_inv s -> 0 <= n -> call n s s.
Proof. intros Hs. split; try done; [|lia]. intros k m Hk _. eauto using hard_same_refl. Qed.

Lemma call_trans n1 n2 s1 s2 s3 : call n1 s1 s2 -> call n2 s2 s3 -> call (n1 + n2) s1 s3.
Proof.
  intros [H1 H2 H3 Hl1 Hb1] [H4 H5 H6 Hl2 Hb2].
  split; [done|congruence| |intros; by rewrite Hl2, Hl1|lia]. intros k m Hk Hz.
  destruct (H3 k m Hk Hz) as (m2 & Hk2 & Hh2).
  destruct (H6 k m2 Hk2) as (m3 & Hk3 & Hh3); [by rewrite (hard_leases s1 s2 m)|].
  eauto using hard_same_trans.
Qed.

Lemma call_frame n pinned x s s' :
  em_inv s' -> frame pinned x s s' -> id_budget s' <= id_budget s + n -> call n s s'.
Proof.
  intros Hs Hf Hb. split; [done|by apply Hf| |apply Hf|done]. intros k m Hk Hz.
  destruct (fr_entry _ _ _ _ Hf k m Hk) as (m' & Hk' & Hstep). exists m'. split; [done|].
  by destruct Hstep as [->|(? & _)].
Qed.

Lemma soft_budget (s s' : EM) : soft s s' -> id_budget s' = id_budget s.
Proof.
  intros Hso. unfold id_budget. rewrite (so_memory _ _ Hso). f_equal. apply soft_sum; [|done].
  intros m m' (Hm & _). unfold in_vram, location. by rewrite Hm.
Qed.

Lemma call_soft s s' : em_inv s -> soft s s' -> cells_ s' = cells_ s -> call 0 s s'.
Proof.
  intros Hs Hso Hc. split; [by eapply soft_inv|done| | |].
  - intros k m Hk _. by eapply soft_some.
  - intros t. by rewrite (so_memory _ _ Hso).
  - rewrite (soft_budget s s') by done. lia.
Qed.

(** The budgets of a move, as one bound. *)
Lemma move_ok_call k m destination pinned (s s' : EM) :
  move_ok k m destination pinned s s' -> call 3 s s'.
Proof.
  intros (Hs & Hf & Hb & _). eapply call_frame; [done..|]. etrans; [exact Hb|].
  unfold move_cost, in_vram. destruct (location m), destination; tiers; lia.
Qed.

Lemma move_bad_call k m destination pinned e (s s' : EM) :
  move_bad k m destination pinned e s s' -> call 3 s s'.
Proof.
  intros (Hs & Hf & Hb & _). eapply call_frame; [done..|]. destruct (tier_eqb _ _); lia.
Qed.

(** *** Counters of requests *)

(** What only a completed request moves; evictions and promotions are counted by the moves
    they are made by, whatever the call that needs the room comes to. *)
Definition counters (s : EM) : Z * Z * Z * Z * Z * f64 :=
  (st_requests (stats_ s), st_vramHits (stats_ s), st_ramHits (stats_ s),
   st_nvmeLoads (stats_ s), st_nvmeBytesRead (stats_ s), st_simulatedLoadingLatencyMs (stats_ s)).

Lemma counters_frame pinned x s s' : frame pinned x s s' -> counters s' = counters s.
Proof. intros Hf. destruct (fr_static _ _ _ _ Hf). unfold counters. congruence. Qed.

(** ** Requests *)

Definition unknown_expert : exn := Exn OutOfRange "unknown expert id".

Definition counted (source : RequestSource) (size : Z) (s s' : EM) : Prop :=
  st_requests (stats_ s') = wrap64 (st_requests (stats_ s) + 1) /\
  st_vramHits (stats_ s') =
    (match source with VramHit => wrap64 (st_vramHits (stats_ s) + 1) | _ => st_vramHits (stats_ s) end) /\
  st_ramHits (stats_ s') =
    (match source with RamHit => wrap64 (st_ramHits (stats_ s) + 1) | _ => st_ramHits (stats_ s) end) /\
  st_nvmeLoads (stats_ s') =
    (match source with NvmeLoad => wrap64 (st_nvmeLoads (stats_ s) + 1) | _ => st_nvmeLoads (stats_ s) end) /\
  st_nvmeBytesRead (stats_ s') =
    (match source with NvmeLoad => wrap64 (st_nvmeBytesRead (stats_ s) + size)
     | _ => st_nvmeBytesRead (stats_ s) end).

Record requested (k : Z) (m : ManagedExpert) (r : ExpertRequestResult) (s s' : EM) : Prop := Requested {
  rq_call : call 3 s s';
  rq_source : rr_source r = request_source (location m);
  rq_expert : rr_expert r = set_location Vram (metadata m);
  rq_entry : exists m', experts_ s' !! k = Some m' /\ metadata m' = rr_expert r /\
    usageCount m' = wrap64 (usageCount m + 1) /\ lastUsed m' = accessClock_ s' /\
    residencyLeases m' = residencyLeases m;
  rq_clock : accessClock_ s' = wrap64 (accessClock_ s + 1);
  rq_counted : counted (request_source (location m)) (sizeBytes m) s s';
  rq_latency : st_simulatedLoadingLatencyMs (stats_ s') = f64_add (st_simulatedLoadingLatencyMs (stats_ s)) (rr_simulatedLatencyMs r);
}.

Lemma relocation_metadata m m' : relocation m m' -> metadata m' = set_location (location m') (metadata m).
Proof. by intros (l & a & w & d & ->). Qed.

Lemma request_spec elapsed layerId id (s : EM) :
  let k := pack_key layerId id in
  em_inv s -> id_space s ->
  wp (requestExpert elapsed layerId id) s
    (fun r s' => exists m, experts_ s !! k = Some m /\ requested k m r s s')
    (fun e s' => call 3 s s' /\ counters s' = counters s /\
       ((experts_ s !! k = None /\ e = unknown_expert /\ s' = s) \/
        exists m, experts_ s !! k = Some m /\
          location m <> Vram /\ move_bad k m Vram {[policyId m]} e s s')).
Proof.
  intros k Hs Hroom. unfold requestExpert. wp_step. apply wp_require.
  2: { intros Hk. split; [by apply call_refl|]. split; [done|by left]. }
  fold k. intros m Hk. wp_step. eapply wp_deref; [done|]. cbv zeta. wp_step.
  eapply wp_mono; [by apply move_public|..].
  2: { intros e s' [Hnv Hbad]. fold k in Hbad. pose proof Hbad as (Hs' & Hf & _).
       split; [by eapply move_bad_call|]. split; [by eapply counters_frame|]. right. eauto. }
  intros ? s1 Hok. cbn beta in Hok. pose proof (move_ok_call _ _ _ _ _ _ Hok) as Hcall.
  destruct Hok as (Hs1 & Hf1 & _ & m1 & Hk1 & Hr1 & Hl1). fold k in Hf1, Hk1. wp_step. wp_step.
  wp_step. eapply recordAccess_spec; [done|]. intros s2 (Hso & Hst & Hc & Hck & Hex).
  wp_step. wp_step. wp_step. apply wp_require; fold k.
  2: { cbn. by rewrite Hex, lookup_insert_eq. }
  intros m2 Hk2. wp_step. eapply wp_deref; [done|]. wp_step.
  cbn in Hk2. rewrite Hex, lookup_insert_eq in Hk2. injection Hk2 as <-.
  destruct (relocation_keeps _ _ Hr1) as (_ & Hcell & _ & _ & _ & Hu & Hlu).
  exists m. split; [done|]. destruct (fr_static _ _ _ _ Hf1) as [_ _ _ Hck1 _ _ _ E1 E2 E3 E4 E5 E6]. split.
  - apply (call_trans 3 0 s s1); [done|].
    apply (call_trans 0 0 s1 s2); [by apply call_soft|].
    apply call_soft; [by eapply soft_inv|by apply soft_books|done].
  - done.
  - cbn. rewrite <- Hl1. by apply relocation_metadata.
  - eexists. split; [cbn; rewrite Hex; apply lookup_insert_eq|].
    split; [done|]. cbn. rewrite Hu, Hck, Hck1. done.
  - cbn. by rewrite Hck, Hck1.
  - unfold counted. cbn. rewrite Hst, E1, E2, E3, E4, E5. done.
  - cbn. by rewrite Hst, E6.
Qed.

(** ** Moves *)

Lemma moveExpert_spec layerId id destination (s : EM) :
  let k := pack_key layerId id in
  em_inv s -> id_space s ->
  wp (moveExpert layerId id destination) s
    (fun _ s' => call 3 s s' /\ counters s' = counters s /\ exists m m',
       experts_ s !! k = Some m /\ experts_ s' !! k = Some m' /\ relocation m m' /\ location m' = destination)
    (fun e s' => call 3 s s' /\ counters s' = counters s).
Proof.
  intros k Hs Hroom. unfold moveExpert. wp_step. apply wp_require.
  2: { intros Hk. split; [by apply call_refl|done]. }
  fold k. intros m Hk. wp_step. eapply wp_deref; [done|].
  destruct (decide (leases s m <> 0 /\ location m <> destination)) as [[Hz Hne]|Hok].
  - unfold wp. rewrite (move_leased layerId id destination _ s m Hk Hz Hne).
    split; [by apply call_refl|done].
  - destruct (decide (location m = destination)) as [<-|Hne].
    + unfold wp, move, move_fuel. rewrite Nat.add_comm.
      change (10 + 2 * size (experts_ s))%nat with (S (9 + 2 * size (experts_ s))).
      rewrite moveExpertLocked_S. unfold st_bind, requireExpertLocked, deref, st_get, ret. cbn.
      fold k. rewrite Hk. cbn. rewrite Hk.
      rewrite (proj2 (tier_eqb_true (location m) (location m)) eq_refl).
      split; [by apply call_refl|]. split; [done|]. exists m, m. split_and!; try done. apply relocation_refl.
    + eapply wp_mono; [apply move_public; [done|done| |done]|..].
      * intros _. apply dec_stable. intros Hz. apply Hok. by split.
      * intros ? s' Hmv. cbn beta in Hmv. split; [by eapply move_ok_call|].
        destruct Hmv as (Hs' & Hf & _ & m' & Hk' & Hr & Hl). fold k in Hk'.
        split; [by eapply counters_frame|]. eauto 7.
      * intros e s' [_ Hbad]. split; [by eapply move_bad_call|]. destruct Hbad as (_ & Hf & _).
        by eapply counters_frame.
Qed.

(** ** Eviction on demand *)

(** Only demotions of unleased experts happened. *)
Definition demoted (s s' : EM) : Prop := em_inv s' /\ frame ∅ None s s'.

Lemma size_frame pinned x (s s' : EM) : frame pinned x s s' -> size (experts_ s') = size (experts_ s).
Proof.
  intros Hf. rewrite <- !size_dom. f_equal. apply set_eq. intros k. rewrite !elem_of_dom.
  symmetry. by eapply frame_dom.
Qed.

(** The fuel of a move does not change between the attempts of one demotion. *)
Lemma wp_demote_move tier victim pinned (s : EM) Q E :
  (tier = Vram -> forall e s1,
     move (ex_layer victim) (ex_id victim) Ram pinned s = (Throw e, s1) -> size (experts_ s1) = size (experts_ s)) ->
  wp (demote_with (moveExpertLocked (move_fuel s)) tier victim pinned) s Q E ->
  wp (demote_with move tier victim pinned) s Q E.
Proof.
  unfold demote_with. destruct (tier_eqb tier Vram) eqn:Ht; [|done]. apply tier_eqb_true in Ht as ->.
  intros Hsize. unfold wp, try_catch. unfold move at 1.
  destruct (moveExpertLocked (move_fuel s) _ _ Ram _ s) as [[?|e|] s1] eqn:Hm; [done| |done].
  specialize (Hsize eq_refl e s1 Hm). destruct (is_runtime_error e); [|done].
  unfold move, move_fuel. by rewrite Hsize.
Qed.

Lemma move_fuel_S (s : EM) : exists n, move_fuel s = S (S n).
Proof. exists (8 + 2 * size (experts_ s))%nat. unfold move_fuel. lia. Qed.

(** A victim leaves VRAM for RAM, or for NVMe when that fails for lack of room; from the
    other tiers it is dropped, which cannot fail. *)
Lemma evict_down tier (s : EM) k m :
  em_inv s -> id_space s -> experts_ s !! k = Some m -> location m = tier -> leases s m = 0 ->
  tier <> Nvme ->
  wp (demote_with move tier (metadata m) {[policyId m]}) s
    (fun _ s' => settled ∅ s s' /\ depth ∅ s' + 1 <= depth ∅ s)
    (fun e s' => settled_err ∅ s s' /\ transfers_ s <> None /\ tier = Vram /\ is_runtime_error e = false).
Proof.
  intros Hs Hroom Hk Hl Hz Ht. pose proof (depth_bound ∅ s) as Hb. unfold id_space in Hroom.
  pose proof (en_key _ _ _ (ei_entries s Hs k m Hk)) as Hkey.
  apply wp_demote_move.
  - intros -> e s1 Hm. assert (id_space s) as Hids by (unfold id_space; lia).
    pose proof (move_public (ex_layer (metadata m)) (ex_id (metadata m)) Ram s m Hs) as Hw.
    cbv zeta in Hw. rewrite <- Hkey in Hw. specialize (Hw Hk ltac:(done) Hids). unfold wp in Hw.
    rewrite Hm in Hw. destruct Hw as (_ & _ & Hf & _). by eapply size_frame.
  - rewrite <- (right_id_L ∅ (∪) {[policyId m]}).
    apply (demote_spec (move_fuel s) tier ∅ s k m); try done.
    + apply recursion_spec.
    + lia.
    + unfold move_fuel. lia.
Qed.

Lemma evict_one tier (s : EM) k m :
  em_inv s -> id_space s -> experts_ s !! k = Some m -> location m = tier -> leases s m = 0 ->
  tier <> Nvme ->
  wp (demote_with move tier (metadata m) {[policyId m]}) s
    (fun _ s' => (settled ∅ s s' /\ depth ∅ s' + 1 <= depth ∅ s) /\ (tier <> Vram -> forall v, foreign v s' = foreign v s))
    (fun e s' => (settled_err ∅ s s' /\ transfers_ s <> None /\ tier = Vram /\ is_runtime_error e = false) /\ True).
Proof.
  intros Hs Hroom Hk Hl Hz Ht. pose proof (evict_down tier s k m Hs Hroom Hk Hl Hz Ht) as Hd.
  destruct (decide (tier = Vram)) as [Hv|Hv]; [by eapply wp_mono; [exact Hd|by intros|by intros]|].
  apply wp_conj; [exact Hd|]. pose proof (en_key _ _ _ (ei_entries s Hs k m Hk)) as Hkey.
  unfold demote_with. rewrite (proj2 (tier_eqb_false _ _) Hv). destruct (move_fuel_S s) as [n Hn]. unfold move, wp. rewrite Hn.
  eapply wp_mono; [apply (nvme_drop (S n) _ _ _ s m Hs); [by rewrite <- Hkey|congruence|done]| |done].
  intros u s' Hr Hnv v. apply (resident_relocated _ _ _ _ _ v Hr).
Qed.

(** The tier is within the bound, or nothing in it can leave. *)
Definition evicted_within (tier : MemoryTier) (maximum : Z) (s : EM) : Prop :=
  usedBytes (usageFor (memory_ s) tier) <= maximum \/
  forall k m, experts_ s !! k = Some m -> location m = tier -> leases s m <> 0.

Lemma evict_loop_spec n tier maximum count (s : EM) :
  em_inv s -> id_space s -> tier <> Nvme -> depth ∅ s + 1 <= Z.of_nat n ->
  wp (evict_loop n tier maximum count) s
    (fun _ s' => settled ∅ s s' /\ evicted_within tier maximum s' /\ (tier <> Vram -> forall v, foreign v s' = foreign v s))
    (fun e s' => settled_err ∅ s s' /\ transfers_ s <> None /\ tier = Vram /\ is_runtime_error e = false).
Proof.
  revert count s. induction n as [|n IH]; intros count s Hs Hroom Ht Hn.
  { pose proof (depth_nonneg ∅ s). lia. }
  cbn [evict_loop]. wp_step. wp_step. wp_step. apply wp_usage; [done|].
  destruct (Z.ltb_spec maximum (usedBytes (usageFor (memory_ s) tier))) as [Hlt|Hge].
  2: { wp_step. split; [by apply settled_refl|]. split; [by left|done]. }
  destruct (selectVictim (policy_ s) tier (candidatesLocked tier s) ∅) as [v|] eqn:Hv.
  2: { wp_step. split; [by apply settled_refl|]. split; [|done]. right. intros k m Hk Hl Hz.
       exact (not_elem_of_empty _ (no_victim s tier ∅ Hv k m Hk Hl Hz)). }
  destruct (victim_candidate s tier ∅ v Hs Hv) as (Hp & k & m & Hk & <- & Hl & Hz & Hpe & _).
  wp_step. eapply wp_victim; [done..|]. wp_step.
  eapply wp_mono; [apply (evict_one tier s k m); done| |by intros ? ? [? _]].
  intros _ s1 [[Hset Hd] Hfor]. pose proof Hset as (Hs1 & Hf1 & Hb1).
  eapply wp_mono; [apply IH; [done|unfold id_space in *; lia|done|lia]|..].
  - intros _ s2 (Hset2 & ? & Hfor2). split; [by eapply settled_trans|]. split; [done|]. intros Hnv w. by rewrite Hfor2, Hfor.
  - intros e s2 (Hset2 & Htr & ?). split; [by eapply settled_err_trans|]. split; [by eapply frame_transfers|done].
Qed.

Lemma evict_spec tier maximum (s : EM) :
  em_inv s -> id_space s ->
  wp (evictUntilWithin tier maximum) s
    (fun _ s' => tier <> Nvme /\ settled ∅ s s' /\ evicted_within tier maximum s' /\ (tier <> Vram -> forall v, foreign v s' = foreign v s))
    (fun e s' => settled_err ∅ s s' /\ (tier = Nvme /\ s' = s \/ tier = Vram /\ transfers_ s <> None /\ is_runtime_error e = false)).
Proof.
  intros Hs Hroom. unfold evictUntilWithin. wp_step. wp_step.
  - apply tier_eqb_true in H as ->. split; [by apply settled_settled_err, settled_refl|by left].
  - apply tier_eqb_false in H. wp_step. wp_step. eapply wp_mono; [apply evict_loop_spec; try done|..].
    + unfold move_fuel. pose proof (depth_bound ∅ s). lia.
    + intros ? s' (? & ? & ?). done.
    + intros e s' (? & ? & ? & ?). split; [done|by right].
Qed.

(** ** Room made on behalf of a client *)

Lemma makeRoom_spec tier required pinned (s : EM) :
  em_inv s -> id_space s -> tier <> Nvme ->
  wp (makeRoomLocked tier required pinned) s
    (fun _ s' => settled pinned s s' /\ required <= availableBytes (usageFor (memory_ s') tier))
    (fun e s' => settled_err pinned s s' /\ room_error pinned tier required e s s').
Proof.
  intros Hs Hroom Ht. unfold wp, makeRoomLocked. apply makeRoom_with_spec; try done.
  - apply recursion_spec.
  - unfold id_space in Hroom. lia.
  - unfold move_fuel. pose proof (depth_bound pinned s). lia.
Qed.

Lemma prepare_spec layerId id destination (s : EM) :
  let k := pack_key layerId id in
  em_inv s -> id_space s ->
  wp (prepareResidency layerId id destination) s
    (fun _ s' => (destination = Ram \/ destination = Vram) /\ exists m,
       experts_ s !! k = Some m /\ settled {[policyId m]} s s' /\ experts_ s' !! k = Some m /\
       (location m = destination \/ sizeBytes m <= availableBytes (usageFor (memory_ s') destination)))
    (fun e s' => settled_err ∅ s s').
Proof.
  intros k Hs Hroom. unfold prepareResidency. wp_step. wp_step.
  { by apply settled_settled_err, settled_refl. }
  assert (destination = Ram \/ destination = Vram) as Hd.
  { destruct destination; revert H; tiers; intros; auto; done. }
  wp_step. apply wp_require; fold k.
  2: { intros _. by apply settled_settled_err, settled_refl. }
  intros m Hk. fold k in Hk. wp_step. eapply wp_deref; [done|].
  destruct (tier_eqb (location m) destination) eqn:Hl.
  { wp_step. apply tier_eqb_true in Hl. split; [done|]. exists m. split_and!; auto using settled_refl. }
  eapply wp_mono; [apply makeRoom_spec; [done|done|by destruct Hd; subst]|..].
  - intros _ s' [Hset Hav]. split; [done|]. exists m. split_and!; auto.
    apply (frame_pinned {[policyId m]} None s s'); [apply Hset|done|set_solver|done].
  - intros e s' [(Hs' & Hf & Hb) _]. split_and!; [done| |done]. by eapply frame_weaken.
Qed.

(** ** Adoption *)

(** What an adoption leaves behind: the entry owns a reservation in its tier and
    exactly the adopted buffers; nothing unleased but lower experts moved besides. *)
Record adopted (k : Z) (m : ManagedExpert) (tier : MemoryTier)
    (w : option HostBuffer) (d : option DeviceBuffer) (s s' : EM) : Prop := Adopted {
  ad_inv : em_inv s';
  ad_cells : cells_ s' = cells_ s;
  ad_entry : exists m', experts_ s' !! k = Some m' /\ location m' = tier /\
    weights m' = w /\ deviceWeights m' = d /\ policyId m' = policyId m /\
    residencyLeases m' = residencyLeases m /\ sizeBytes m' = sizeBytes m /\
    usageCount m' = wrap64 (usageCount m + 1);
  ad_others : forall k' x, k' <> k -> experts_ s !! k' = Some x -> leases s x <> 0 ->
    experts_ s' !! k' = Some x;
  ad_counters : counters s' = counters s;
  ad_limits : forall t, limitBytes (usageFor (memory_ s') t) = limitBytes (usageFor (memory_ s) t);
  ad_budget : id_budget s' <= id_budget s + 2;
}.

Lemma counters_static (s s' : EM) : same_static s s' -> counters s' = counters s.
Proof. intros []. unfold counters. congruence. Qed.

Lemma accessed_inv s k m s' : em_inv s -> accessed s k m s' -> em_inv s'.
Proof. intros Hs [Hso _]. by eapply soft_inv. Qed.

Lemma wp_take_over layerId id tier k m msg1 msg2 (K : MemoryAllocation -> ST EM unit) (s : EM) Q E :
  em_inv s -> experts_ s !! k = Some m -> tier <> Nvme -> id_budget s + 1 <= u64_max ->
  sizeBytes m <= availableBytes (usageFor (memory_ s) tier) ->
  (forall a mm,
     (forall s' w d, memory_ s' = mm ->
        experts_ s' = <[k := set_residency tier (Some a) w d m]> (experts_ s) -> same_static s s' ->
        relocated k m (set_residency tier (Some a) w d m) s s') ->
     wp (K a) (set_memory mm s) Q E) ->
  wp (a <- reserve layerId id tier (sizeBytes m) msg1 ;; release_source k (Some a) msg2 ;;; K a)%st s Q E.
Proof.
  intros Hs Hk Ht Hroom Hav HK. apply id_budget_room in Hroom; [|done].
  pose proof (ei_entries s Hs k m Hk) as Hen. pose proof (owns_allocation s k m Hs Hk) as Ho.
  wp_step. apply wp_reserve; [apply Hs|done|apply Hen|apply Hen|done| |lia].
  intros mm1 a Hal Hm1 Hfit. wp_step. apply (wp_release_source k _ _ (set_memory mm1 s) m); [done|done| |].
  { intros b Hb. rewrite Hb in Ho. destruct Ho as (_ & Hl & _). cbn.
    rewrite (at_allocs _ _ _ _ _ Hal), lookup_insert_ne; [done|].
    intros Heq. rewrite <- Heq, (fresh_id _ (ei_memory s Hs)) in Hl. done. }
  intros mm2 Hrel Hm2. unfold source_released in Hrel. cbn in Hrel. apply (HK a mm2).
  intros s' w d Hmem Hex Hst. by apply (relocated_move s s' k m tier (allocation_tag layerId id) mm1 mm2).
Qed.

Lemma adopted_intro k m tier w d (s s1 s2 s3 : EM) a :
  settled {[policyId m]} s s1 -> experts_ s !! k = Some m ->
  relocated k m (set_residency tier a w d m) s1 s2 ->
  accessed s2 k (set_residency tier a w d m) s3 ->
  adopted k m tier w d s s3.
Proof.
  intros (Hs1 & Hf1 & Hb1) Hk Hr (Hso & Hst & Hc & _ & Hex). split.
  - eapply soft_inv; [by eapply relocated_inv|done].
  - rewrite Hc, (ss_cells _ _ (rc_static _ _ _ _ _ Hr)). apply Hf1.
  - eexists. rewrite Hex, lookup_insert_eq. done.
  - intros k' x Hne Hx Hz. rewrite Hex, (rc_new _ _ _ _ _ Hr), !lookup_insert_ne by done.
    destruct (fr_entry _ _ _ _ Hf1 k' x Hx) as (x' & Hx' & [->|(? & _)]); done.
  - transitivity (counters s2); [unfold counters; by rewrite Hst|].
    rewrite (counters_static _ _ (rc_static _ _ _ _ _ Hr)). by eapply counters_frame.
  - intros t. rewrite (so_memory _ _ Hso), (rc_limits _ _ _ _ _ Hr). apply Hf1.
  - rewrite (soft_budget _ _ Hso). pose proof (relocated_id_budget _ _ _ _ _ Hr) as Hb.
    unfold in_vram in Hb. repeat case_match; lia.
Qed.

(** The failures of an adoption change nothing but what [makeRoomLocked] evicted. *)
Lemma adoptDevice_spec layerId id buffer (s : EM) :
  let k := pack_key layerId id in
  em_inv s -> id_space s ->
  wp (adoptDeviceWeights layerId id buffer) s
    (fun _ s' => exists b m, buffer = Some b /\ experts_ s !! k = Some m /\
       device_size b = sizeBytes m /\
       if tier_eqb (location m) Vram
       then db_address <$> deviceWeights m = Some (db_address b) /\ accessed s k m s'
       else adopted k m Vram None (Some b) s s')
    (fun _ s' => settled_err ∅ s s').
Proof.
  intros k Hs Hroom. assert (settled_err ∅ s s) as Hrefl by by apply settled_settled_err, settled_refl.
  unfold adoptDeviceWeights. destruct buffer as [b|]; [|by wp_step].
  wp_step. wp_step; [done|]. wp_step. apply wp_require; fold k; [|done].
  intros m Hk. fold k in Hk. wp_step. eapply wp_deref; [done|]. wp_step. wp_step; [done|].
  assert (device_size b = sizeBytes m) as Hsize.
  { by apply Z.eqb_eq, negb_false_iff. }
  destruct (tier_eqb (location m) Vram) eqn:Hl.
  - wp_step. wp_step; [done|]. eapply recordAccess_spec; [done|]. intros s' Ha. exists b, m.
    rewrite Hl. split_and!; try done. by eapply bool_decide_eq_true_1, negb_false_iff.
  - wp_step. eapply wp_mono; [apply makeRoom_spec; done|..].
    2: { intros e s' [(Hs' & Hf & Hb) _]. split_and!; [done| |done]. by eapply frame_weaken. }
    intros _ s1 [Hset Hav]. pose proof Hset as (Hs1 & Hf1 & Hb1).
    assert (experts_ s1 !! k = Some m) as Hk1.
    { apply (frame_pinned {[policyId m]} None s s1); [done|done|set_solver|done]. }
    apply wp_take_over; [done|done|done|unfold id_space in Hroom; lia|done|].
    intros a mm Hrel. wp_step. eapply wp_deref; [done|]. wp_step.
    apply wp_book_unless; [apply books_policy|]. intros s2 Hb2.
    wp_step. unfold update. wp_step. wp_step. wp_step. wp_step. wp_step.
    set (s3 := with_policy _ _).
    assert (relocated k m (set_residency Vram (Some a) None (Some b) m) s1 s3) as Hr.
    { destruct Hb2 as (Hm2 & He2 & Hst2). apply Hrel; cbn.
      - by rewrite Hm2.
      - rewrite He2. by apply alter_as_insert.
      - static. }
    eapply recordAccess_spec; [rewrite (rc_new _ _ _ _ _ Hr); apply lookup_insert_eq|].
    intros s4 Ha. exists b, m. rewrite Hl. split_and!; try done. by eapply adopted_intro.
Qed.

Lemma adoptHost_spec layerId id buffer (s : EM) :
  let k := pack_key layerId id in
  em_inv s -> id_space s ->
  wp (adoptHostWeights layerId id buffer) s
    (fun _ s' => exists b m, buffer = Some b /\ experts_ s !! k = Some m /\
       host_size b = sizeBytes m /\ leases s m = 0 /\
       if tier_eqb (location m) Ram
       then hb_address <$> weights m = Some (hb_address b) /\ accessed s k m s'
       else adopted k m Ram (Some b) None s s')
    (fun _ s' => settled_err ∅ s s').
Proof.
  intros k Hs Hroom. assert (settled_err ∅ s s) as Hrefl by by apply settled_settled_err, settled_refl.
  unfold adoptHostWeights. destruct buffer as [b|]; [|by wp_step].
  wp_step. wp_step; [done|]. wp_step. apply wp_require; fold k; [|done].
  intros m Hk. fold k in Hk. wp_step. eapply wp_deref; [done|]. wp_step. wp_step; [done|].
  assert (host_size b = sizeBytes m) as Hsize.
  { by apply Z.eqb_eq, negb_false_iff. }
  wp_step. wp_step. wp_step. wp_step; [done|].
  assert (leases s m = 0) as Hz. { by apply Z.eqb_eq, negb_false_iff. }
  destruct (tier_eqb (location m) Ram) eqn:Hl.
  - wp_step. wp_step; [done|]. eapply recordAccess_spec; [done|]. intros s' Ha. exists b, m.
    rewrite Hl. split_and!; try done. by eapply bool_decide_eq_true_1, negb_false_iff.
  - wp_step. eapply wp_mono; [apply makeRoom_spec; done|..].
    2: { intros e s' [(Hs' & Hf & Hb) _]. split_and!; [done| |done]. by eapply frame_weaken. }
    intros _ s1 [Hset Hav]. pose proof Hset as (Hs1 & Hf1 & Hb1).
    assert (experts_ s1 !! k = Some m) as Hk1.
    { apply (frame_pinned {[policyId m]} None s s1); [done|done|set_solver|done]. }
    apply wp_take_over; [done|done|done|unfold id_space in Hroom; lia|done|].
    intros a mm Hrel. wp_step. eapply wp_deref; [done|]. wp_step.
    apply wp_book_if; [apply books_stats; auto|]. intros s2 Hb2. wp_step.
    apply wp_book_unless; [apply books_policy|]. intros s2' Hb2'. pose proof (books_trans _ _ _ Hb2 Hb2') as Hb2''.
    wp_step. unfold update. wp_step. wp_step. wp_step.
    set (s3 := with_policy _ _).
    assert (relocated k m (set_residency Ram (Some a) (Some b) None m) s1 s3) as Hr.
    { destruct Hb2'' as (Hm2 & He2 & Hst2). apply Hrel; cbn.
      - by rewrite Hm2.
      - rewrite He2. by apply alter_as_insert.
      - static. }
    eapply recordAccess_spec; [rewrite (rc_new _ _ _ _ _ Hr); apply lookup_insert_eq|].
    intros s4 Ha. exists b, m. rewrite Hl. split_and!; try done. by eapply adopted_intro.
Qed.

(** ** Leases *)

Lemma take_lease_soft (s : EM) c f : soft s (with_cells (alter f c) s).
Proof.
  split; try done; [|intros k; cbn; by destruct (experts_ s !! k)].
  intros c'. cbn. destruct (decide (c' = c)) as [->|Hne].
  - rewrite lookup_alter_eq. destruct (cells_ s !! c); cbn; split; intros []; eauto; done.
  - by rewrite lookup_alter_ne.
Qed.

(** What a successful acquisition returns: the counter of the expert, taken once
    more, and the buffer the expert owns in the tier. *)
Record acquired (k : Z) (tier : MemoryTier) (l : ExpertResidencyLease) (s s' : EM) : Prop := Acquired {
  aq_entry : exists m m', experts_ s !! k = Some m /\ experts_ s' !! k = Some m' /\
    relocation m m' /\ location m' = tier /\ leaseCount_ l = Some (residencyLeases m') /\
    (if tier_eqb tier Vram
     then is_Some (ls_deviceBuffer_ l) /\ ls_deviceBuffer_ l = deviceWeights m' /\ ls_hostBuffer_ l = None
     else is_Some (ls_hostBuffer_ l) /\ ls_hostBuffer_ l = weights m' /\ ls_deviceBuffer_ l = None);
  aq_step : exists s1 c, call 3 s s1 /\ leaseCount_ l = Some c /\
    s' = with_cells (alter (fun n => wrap64 (n + 1)) c) s1;
  aq_counters : counters s' = counters s;
}.

(** A move that a lease does not forbid, or that is not needed. *)
Lemma move_or_stay layerId id destination (s : EM) m :
  let k := pack_key layerId id in
  em_inv s -> id_space s -> experts_ s !! k = Some m -> destination <> Nvme ->
  wp (move layerId id destination {[policyId m]}) s
    (fun _ s' => call 3 s s' /\ counters s' = counters s /\
       exists m', experts_ s' !! k = Some m' /\ relocation m m' /\ location m' = destination)
    (fun _ s' => call 3 s s' /\ counters s' = counters s).
Proof.
  intros k Hs Hroom Hk Hd. eapply wp_mono; [apply move_public; done|..].
  - intros ? s' Hok. cbn beta in Hok. split; [by eapply move_ok_call|].
    destruct Hok as (_ & Hf & _ & He). split; [by eapply counters_frame|done].
  - intros e s' [_ Hbad]. split; [by eapply move_bad_call|].
    destruct Hbad as (_ & Hf & _). by eapply counters_frame.
Qed.

Lemma acquireResident_spec layerId id (s : EM) :
  em_inv s -> id_space s ->
  wp (acquireResidentExpert layerId id) s
    (fun l s' => acquired (pack_key layerId id) Vram l s s')
    (fun _ s' => call 3 s s' /\ counters s' = counters s).
Proof.
  intros Hs Hroom. assert (call 3 s s /\ counters s = counters s) as Hrefl by by split; [apply call_refl|].
  unfold acquireResidentExpert. wp_step. apply wp_require; [|done].
  intros m Hk. wp_step. eapply wp_deref; [done|]. wp_step.
  assert (wp (if negb (tier_eqb (location m) Vram) || bool_decide (deviceWeights m = None)
              then move layerId id Vram {[policyId m]} else ret tt) s
    (fun _ s' => call 3 s s' /\ counters s' = counters s /\
       exists m', experts_ s' !! pack_key layerId id = Some m' /\ relocation m m' /\ location m' = Vram)
    (fun _ s' => call 3 s s' /\ counters s' = counters s)) as Hm.
  { destruct (negb _ || _) eqn:Hb; [by apply move_or_stay|]. wp_step.
    apply orb_false_iff in Hb as [Hb _]. apply negb_false_iff, tier_eqb_true in Hb.
    destruct Hrefl. split_and!; try done. exists m. split_and!; [done|apply relocation_refl|done]. }
  eapply wp_mono; [exact Hm| |done]. intros _ s1 (Hc & Hcn & m1 & Hk1 & Hr1 & Hl1).
  wp_step. eapply wp_deref; [done|]. wp_step. wp_step; [done|].
  apply orb_false_iff in H as [_ Hd]. apply bool_decide_eq_false in Hd.
  wp_step. unfold take_lease. wp_step. wp_step. split.
  - exists m, m1. split_and!; try done. rewrite (proj2 (tier_eqb_true Vram Vram) eq_refl). cbn.
    split_and!; try done. destruct (deviceWeights m1); [eauto|done].
  - exists s1, (residencyLeases m1). done.
  - done.
Qed.

Lemma acquireHost_spec layerId id (s : EM) :
  em_inv s -> id_space s ->
  wp (acquireHostExpert layerId id) s
    (fun l s' => acquired (pack_key layerId id) Ram l s s')
    (fun _ s' => call 3 s s' /\ counters s' = counters s).
Proof.
  intros Hs Hroom. assert (call 3 s s /\ counters s = counters s) as Hrefl by by split; [apply call_refl|].
  unfold acquireHostExpert. wp_step. apply wp_require; [|done].
  intros m Hk. wp_step. eapply wp_deref; [done|]. wp_step.
  assert (wp (if tier_eqb (location m) Nvme || tier_eqb (location m) Vram
              then move layerId id Ram {[policyId m]} else ret tt) s
    (fun _ s' => call 3 s s' /\ counters s' = counters s /\
       exists m', experts_ s' !! pack_key layerId id = Some m' /\ relocation m m' /\
                  (location m' = Ram \/ location m' = PinnedRam))
    (fun _ s' => call 3 s s' /\ counters s' = counters s)) as Hm.
  { destruct (tier_eqb (location m) Nvme || _) eqn:Hb.
    - eapply wp_mono; [by apply move_or_stay| |done].
      intros _ s' (? & ? & m' & ? & ? & ?). eauto 8.
    - wp_step. destruct Hrefl. split_and!; try done. exists m. split_and!; [done|apply relocation_refl|].
      destruct (location m); revert Hb; tiers; try done; auto. }
  eapply wp_mono; [exact Hm| |done]. intros _ s1 (Hc & Hcn & m1 & Hk1 & Hr1 & Hl1).
  wp_step. eapply wp_deref; [done|]. wp_step. wp_step; [done|].
  apply orb_false_iff in H as [Hl Hd]. apply bool_decide_eq_false in Hd.
  apply negb_false_iff, tier_eqb_true in Hl.
  wp_step. unfold take_lease. wp_step. wp_step. split.
  - exists m, m1. split_and!; try done. rewrite (proj2 (tier_eqb_false Ram Vram)) by done. cbn.
    split_and!; try done. destruct (weights m1); [eauto|done].
  - exists s1, (residencyLeases m1). done.
  - done.
Qed.

(** ** Predictions *)

Lemma predict_spec layerId id p c (s : EM) :
  em_inv s ->
  wp (updatePrediction layerId id p c) s
    (fun _ s' => isfinite p = true /\ isfinite c = true /\ call 0 s s' /\
       exists m, experts_ s !! pack_key layerId id = Some m /\
         experts_ s' !! pack_key layerId id =
           Some (set_prediction (fclamp p f64_zero f64_one) (fclamp c f64_zero f64_one) m))
    (fun _ s' => s' = s).
Proof.
  intros Hs. unfold updatePrediction. wp_step. wp_step; [done|].
  apply orb_false_iff in H as [Hp Hc]. apply negb_false_iff in Hp, Hc.
  wp_step. apply wp_require; [|done]. intros m Hk. cbv zeta. wp_step. unfold update. wp_step. wp_step.
  eapply wp_deref. { cbn. by rewrite lookup_alter_eq, Hk. }
  wp_step. wp_step. wp_step. split_and!; try done.
  - apply call_soft; [done| |done]. by eapply (soft_update _ _ (pack_key layerId id) (set_prediction _ _)).
  - exists m. split; [done|]. cbn. by rewrite lookup_alter_eq, Hk.
Qed.
End methods.
