(* ===== verification/Registration.v ===== *)
(** * Registration of experts

    [ExpertManager::registerExpert]: a new expert enters the three identity maps
    and is placed in its initial tier; a placement that fails is rolled back. *)

From S2P Require Import Prelude Float Tiers MemoryManager CachePolicy.
From S2P Require Import Bytes ExpertIndex ExpertStore Transfer ExpertManager Residency ManagerMethods.

(** ** The list of layers of a legacy identifier *)

Lemma legacy_push_lookup id k le id' :
  default [] (legacy_push id k le !! id') =
  (if decide (id' = id) then default [] (le !! id) ++ [k] else default [] (le !! id')).
Proof.
  unfold legacy_push. case_decide as Hd; [subst; by rewrite lookup_insert_eq|].
  by rewrite lookup_insert_ne.
Qed.

Lemma legacy_remove_lookup id k le id' :
  default [] (legacy_remove id k le !! id') =
  (if decide (id' = id) then remove_key k (default [] (le !! id)) else default [] (le !! id')).
Proof.
  unfold legacy_remove. destruct (le !! id) as [ks|] eqn:Hl.
  - destruct (remove_key k ks) as [|k1 ks1] eqn:Hr; case_decide as Hd; subst; cbn;
      rewrite ?lookup_delete_eq, ?lookup_insert_eq, ?Hr; try done.
    + by rewrite lookup_delete_ne.
    + by rewrite lookup_insert_ne.
  - case_decide as Hd; subst; [|done]. by rewrite Hl.
Qed.

Lemma legacy_remove_nonempty id k le id' :
  (forall i, le !! i <> Some []) -> legacy_remove id k le !! id' <> Some [].
Proof.
  intros Hle. unfold legacy_remove. destruct (le !! id) as [ks|] eqn:Hl; [|apply Hle].
  destruct (remove_key k ks) as [|k1 ks1] eqn:Hr; destruct (decide (id' = id)) as [->|Hne].
  - by rewrite lookup_delete_eq.
  - rewrite lookup_delete_ne by done. apply Hle.
  - by rewrite lookup_insert_eq.
  - rewrite lookup_insert_ne by done. apply Hle.
Qed.

Lemma remove_key_elem k ks x : x ∈ remove_key k ks <-> x ∈ ks /\ x <> k.
Proof. unfold remove_key. rewrite list_elem_of_filter. tauto. Qed.

(** Removing what was pushed last restores the map. *)
Lemma legacy_push_remove id k le :
  k ∉ default [] (le !! id) -> le !! id <> Some [] ->
  legacy_remove id k (legacy_push id k le) = le.
Proof.
  intros Hk Hne. unfold legacy_remove, legacy_push. rewrite lookup_insert_eq.
  assert (remove_key k (default [] (le !! id) ++ [k]) = default [] (le !! id)) as ->.
  { unfold remove_key. rewrite filter_app, filter_cons_False by tauto. rewrite filter_nil, app_nil_r.
    apply filter_id. intros x Hx ->. done. }
  destruct (le !! id) as [[|k1 ks]|] eqn:Hl; cbn; [done|..].
  - rewrite insert_insert_eq. by apply insert_id.
  - rewrite delete_insert_eq. by apply delete_id.
Qed.

Section registration.
Context {P T : Type} `{HP : CachePolicy P} `{HL : !CachePolicyLaws P}.
Context `{HT : !TransferService T} `{HTL : !TransferServiceLaws T}.
Notation EM := (ExpertManager P T).

Definition new_entry (expert : Expert) (policy cell : Z) : ManagedExpert :=
  mkManaged (set_location Nvme expert) policy None None None cell 0 0 f64_zero f64_zero.

(** The state after the maps were extended and before the initial placement. *)
Record entered (expert : Expert) (s s' : EM) : Prop := Entered {
  et_memory : memory_ s' = memory_ s;
  et_experts : experts_ s' = <[pack_key (ex_layer expert) (ex_id expert) :=
                 new_entry expert (nextPolicyId_ s) (nextCell_ s)]> (experts_ s);
  et_policy : policyExperts_ s' =
    <[nextPolicyId_ s := pack_key (ex_layer expert) (ex_id expert)]> (policyExperts_ s);
  et_legacy : legacyExperts_ s' =
    legacy_push (ex_id expert) (pack_key (ex_layer expert) (ex_id expert)) (legacyExperts_ s);
  et_next : nextPolicyId_ s' = nextPolicyId_ s + 1;
  et_cells : cells_ s' = <[nextCell_ s := 0]> (cells_ s);
  et_nextCell : nextCell_ s' = nextCell_ s + 1;
  et_transfers : transfers_ s' = transfers_ s;
  et_counters : counters s' = counters s;
}.

Lemma insert_inv expert (s s' : EM) :
  em_inv s -> expert_wf expert -> 0 < ex_sizeBytes expert -> nextPolicyId_ s <= u32_max ->
  experts_ s !! pack_key (ex_layer expert) (ex_id expert) = None -> entered expert s s' -> em_inv s'.
Proof.
  intros Hs Hwf Hpos Hnext Hfresh [Hmem Hex Hpol Hleg Hnp Hcells Hnc _ _].
  set (k := pack_key (ex_layer expert) (ex_id expert)) in *. set (m := new_entry expert _ _) in *.
  pose proof (ei_next s Hs) as Hn0.
  assert (policyExperts_ s !! nextPolicyId_ s = None) as Hpnone.
  { destruct (policyExperts_ s !! nextPolicyId_ s) eqn:Hp; [|done].
    apply (ei_policy s Hs) in Hp as [? _]. lia. }
  assert (cells_ s !! nextCell_ s = None) as Hcnone.
  { destruct (cells_ s !! nextCell_ s) eqn:Hp; [|done].
    pose proof (ei_cells s Hs (nextCell_ s) ltac:(by eexists)). lia. }
  assert (forall k' x, experts_ s' !! k' = Some x ->
    (k' = k /\ x = m) \/ (k' <> k /\ experts_ s !! k' = Some x)) as Hlook.
  { intros k' x. rewrite Hex, lookup_insert_Some. naive_solver. }
  split.
  - rewrite Hmem. apply Hs.
  - intros k' x Hx. destruct (Hlook _ _ Hx) as [[-> ->]|[Hne Hx0]].
    + split; try done; cbn.
      * by rewrite Hpol, lookup_insert_eq.
      * rewrite Hcells, lookup_insert_eq. by eexists.
    + destruct (ei_entries s Hs k' x Hx0) as [? ? ? Hpk [c Hc] ?]. split; try done.
      * rewrite Hpol, lookup_insert_ne; [done|congruence].
      * rewrite Hcells, lookup_insert_ne; [by eexists|congruence].
      * by rewrite Hmem.
  - intros k1 k2 m1 m2 a1 a2 H1 H2 Ha1 Ha2.
    destruct (Hlook _ _ H1) as [[-> ->]|[? Hx1]], (Hlook _ _ H2) as [[-> ->]|[? Hx2]]; try done.
    by eapply (ei_distinct s Hs).
  - intros k1 k2 m1 m2 H1 H2 Heq.
    assert (forall k' x, experts_ s !! k' = Some x -> residencyLeases x <> nextCell_ s) as Hnew.
    { intros k' x Hx Heq'. pose proof (en_cell _ _ _ (ei_entries s Hs _ _ Hx)) as [c Hc]. congruence. }
    destruct (Hlook _ _ H1) as [[-> ->]|[? Hx1]], (Hlook _ _ H2) as [[-> ->]|[? Hx2]]; try done.
    + exfalso. by apply (Hnew _ _ Hx2).
    + exfalso. by apply (Hnew _ _ Hx1).
    + by eapply (ei_own_cells s Hs).
  - intros c. rewrite Hcells, Hnc, lookup_insert_is_Some'. intros [->|Hc]; [lia|].
    apply (ei_cells s Hs) in Hc. lia.
  - intros p k'. rewrite Hpol, Hnp, lookup_insert_Some. intros [[<- <-]|[Hne Hp]].
    + split; [lia|]. exists m. by rewrite Hex, lookup_insert_eq.
    + apply (ei_policy s Hs) in Hp as (? & x & Hx & Hpx). split; [lia|]. exists x.
      rewrite Hex, lookup_insert_ne; [done|]. intros ->. congruence.
  - rewrite Hnp. lia.
  - intros id. destruct (ei_legacy s Hs id) as (Hnd & Hnn & Hl). rewrite Hleg. split.
    { rewrite legacy_push_lookup. case_decide as Hd; [|done]. subst id. apply NoDup_app. split; [done|].
      split; [|apply NoDup_singleton]. intros x Hx ->%list_elem_of_singleton. apply Hl in Hx as (y & Hy & _).
      congruence. }
    split.
    { unfold legacy_push. destruct (decide (id = ex_id expert)) as [->|Hne].
      - rewrite lookup_insert_eq. by destruct (default [] _).
      - by rewrite lookup_insert_ne. }
    intros k'. rewrite legacy_push_lookup. unfold has_expert. rewrite Hex.
    destruct (decide (k' = k)) as [->|Hne].
    + rewrite lookup_insert_eq. case_decide as Hd.
      * subst id. split; [|set_solver]. intros _. by exists m.
      * rewrite Hl. split; [intros (x & Hx & _); congruence|]. intros (x & [= <-] & Hid). cbn in Hid. congruence.
    + rewrite lookup_insert_ne by done. case_decide as Hd; [|apply Hl]. subst id.
      rewrite elem_of_app, list_elem_of_singleton, Hl. unfold has_expert. naive_solver.
  - intros v. pose proof (ei_foreign s Hs v) as Hf. unfold foreign, resident, used in *. rewrite Hmem, Hex.
    rewrite map_sum_insert by done. assert (resident_bytes v m = 0) as -> by done. lia.
Qed.

(** The state after an entry was erased. *)
Record erased (k : Z) (m : ManagedExpert) (s s' : EM) : Prop := Erased {
  er_memory : source_released s m (memory_ s');
  er_meminv : mem_inv (memory_ s');
  er_experts : experts_ s' = delete k (experts_ s);
  er_policy : policyExperts_ s' = delete (policyId m) (policyExperts_ s);
  er_legacy : legacyExperts_ s' = legacy_remove (ex_id (metadata m)) k (legacyExperts_ s);
  er_next : nextPolicyId_ s' = nextPolicyId_ s;
  er_cells : cells_ s' = cells_ s;
  er_nextCell : nextCell_ s' = nextCell_ s;
  er_counters : counters s' = counters s;
}.

(** Other reservations survive, and the pools lose exactly the entry's bytes. *)
Lemma erased_memory k m (s s' : EM) :
  em_inv s -> experts_ s !! k = Some m -> erased k m s s' ->
  (forall k' x a, k' <> k -> experts_ s !! k' = Some x -> allocation x = Some a ->
     allocations_ (memory_ s') !! al_id a = Some a) /\
  (forall v, used v s' = used v s - resident_bytes v m) /\
  (forall t, limitBytes (usageFor (memory_ s') t) = limitBytes (usageFor (memory_ s) t)) /\
  nextId_ (memory_ s') = nextId_ (memory_ s).
Proof.
  intros Hs Hk He. pose proof (er_memory _ _ _ _ He) as Hrel. unfold source_released in Hrel.
  pose proof (owns_allocation s k m Hs Hk) as Ho.
  assert (forall k' x a, experts_ s !! k' = Some x -> allocation x = Some a ->
    allocations_ (memory_ s) !! al_id a = Some a) as Hlive.
  { intros k' x a Hx Ha. pose proof (owns_allocation s k' x Hs Hx) as Hx'. rewrite Ha in Hx'. by destruct Hx' as (_ & ? & _). }
  destruct (allocation m) as [b|] eqn:Hb.
  - destruct Ho as (Hn & Hl & Ht & Hsz). split_and!.
    + intros k' x a Hne Hx Ha. rewrite (rl_allocs _ _ _ _ Hrel), lookup_delete_ne; [by eapply Hlive|].
      intros Heq. apply Hne. by eapply (ei_distinct s Hs k' k x m a b).
    + intros v. rewrite resident_bytes_tier, <- Ht, <- Hsz by done. apply (released_used s _ b _ v Hrel).
    + apply Hrel.
    + apply Hrel.
  - rewrite Hrel. split_and!; try done.
    + intros k' x a _. apply Hlive.
    + intros v. rewrite resident_bytes_Nvme by done. unfold used. rewrite Hrel. lia.
Qed.

Lemma erase_inv k m (s s' : EM) :
  em_inv s -> experts_ s !! k = Some m -> erased k m s s' -> em_inv s'.
Proof.
  intros Hs Hk He. destruct (erased_memory k m s s' Hs Hk He) as (Hlive & Hused & _ & _).
  destruct He as [_ Hmem Hex Hpol Hleg Hnp Hcells Hnc _].
  assert (forall k' x, experts_ s' !! k' = Some x -> k' <> k /\ experts_ s !! k' = Some x) as Hlook.
  { intros k' x. rewrite Hex, lookup_delete_Some. naive_solver. }
  assert (forall k' x, k' <> k -> experts_ s !! k' = Some x -> policyId x <> policyId m) as Hpid.
  { intros k' x Hne Hx Heq. pose proof (en_policy _ _ _ (ei_entries s Hs _ _ Hx)).
    pose proof (en_policy _ _ _ (ei_entries s Hs _ _ Hk)). congruence. }
  split.
  - done.
  - intros k' x Hx. destruct (Hlook _ _ Hx) as [Hne Hx0].
    destruct (ei_entries s Hs k' x Hx0) as [? ? ? Hp ? Ho]. split; try done.
    + rewrite Hpol, lookup_delete_ne; [done|]. intros Heq. by apply (Hpid k' x).
    + by rewrite Hcells.
    + eapply owns_mono; [|exact Ho]. intros a Ha _. by eapply Hlive.
  - intros k1 k2 m1 m2 a1 a2 H1 H2. apply Hlook in H1 as [? H1], H2 as [? H2]. by eapply (ei_distinct s Hs).
  - intros k1 k2 m1 m2 H1 H2. apply Hlook in H1 as [? H1], H2 as [? H2]. by eapply (ei_own_cells s Hs).
  - intros c. rewrite Hcells, Hnc. apply Hs.
  - intros p k'. rewrite Hpol, Hnp, lookup_delete_Some. intros [Hne Hp].
    apply (ei_policy s Hs) in Hp as (? & x & Hx & Hpx). split; [done|]. exists x.
    rewrite Hex, lookup_delete_ne; [done|]. intros <-. congruence.
  - rewrite Hnp. apply Hs.
  - intros id. destruct (ei_legacy s Hs id) as (Hnd & Hnn & Hl). rewrite Hleg. split.
    { rewrite legacy_remove_lookup. case_decide; [|done]. subst id. by apply NoDup_filter. }
    split; [apply legacy_remove_nonempty; intros i; apply (ei_legacy s Hs i)|].
    intros k'. rewrite legacy_remove_lookup. unfold has_expert. rewrite Hex.
    destruct (decide (k' = k)) as [->|Hne].
    + rewrite lookup_delete_eq. split; [|naive_solver]. case_decide as Hd.
      * rewrite remove_key_elem. tauto.
      * rewrite Hl. intros (x & Hx & Hid). congruence.
    + rewrite lookup_delete_ne by done. case_decide as Hd; [|apply Hl]. subst id.
      rewrite remove_key_elem, Hl. unfold has_expert. naive_solver.
  - intros v. pose proof (ei_foreign s Hs v) as Hf. unfold foreign, resident in *. rewrite Hex.
    pose proof (map_sum_delete (resident_bytes v) (experts_ s) k m Hk). rewrite Hused. lia.
Qed.

(** ** The method *)

Record registered (expert : Expert) (s s' : EM) : Prop := Registered {
  rg_new : experts_ s !! pack_key (ex_layer expert) (ex_id expert) = None;
  rg_call : em_inv s' /\ id_budget s' <= id_budget s + 3 /\
    (forall t, limitBytes (usageFor (memory_ s') t) = limitBytes (usageFor (memory_ s) t));
  rg_entry : exists m, experts_ s' !! pack_key (ex_layer expert) (ex_id expert) = Some m /\
    metadata m = expert /\ leases s' m = 0 /\ usageCount m = 0 /\ policyId m = nextPolicyId_ s;
  rg_cells : cells_ s' = <[nextCell_ s := 0]> (cells_ s);
  rg_leased : leased_kept s s';
  rg_counters : counters s' = counters s;
}.

(** A registration that fails leaves the identity maps as they were. *)
Record unregistered (expert : Expert) (s s' : EM) : Prop := Unregistered {
  ur_inv : em_inv s' /\ id_budget s' <= id_budget s + 3 /\
    (forall t, limitBytes (usageFor (memory_ s') t) = limitBytes (usageFor (memory_ s) t));
  ur_policy : policyExperts_ s' = policyExperts_ s;
  ur_legacy : legacyExperts_ s' = legacyExperts_ s;
  ur_entries : forall k, is_Some (experts_ s' !! k) <-> is_Some (experts_ s !! k);
  ur_moved : forall k m, experts_ s !! k = Some m -> exists m', experts_ s' !! k = Some m' /\
    (m' = m \/ (leases s m = 0 /\ relocation m m' /\ lower (location m) (location m')));
  ur_cells : cells_ s' = cells_ s \/ cells_ s' = <[nextCell_ s := 0]> (cells_ s);
  ur_leased : leased_kept s s';
  ur_counters : counters s' = counters s;
  ur_no_leak : transfers_ s = None -> forall v, foreign v s' = foreign v s;
}.

Lemma entered_budget expert (s s' : EM) :
  experts_ s !! pack_key (ex_layer expert) (ex_id expert) = None -> entered expert s s' ->
  id_budget s' = id_budget s /\ forall v, foreign v s' = foreign v s.
Proof.
  intros Hn [Hmem Hex _ _ _ _ _ _ _]. unfold id_budget, foreign, resident, used. rewrite Hmem, Hex.
  split; [|intros v]; rewrite map_sum_insert by done.
  - assert (in_vram (new_entry expert (nextPolicyId_ s) (nextCell_ s)) = 0) as -> by done. lia.
  - assert (resident_bytes v (new_entry expert (nextPolicyId_ s) (nextCell_ s)) = 0) as -> by done. lia.
Qed.

Lemma entered_leases expert (s s' : EM) k m :
  em_inv s -> entered expert s s' -> experts_ s !! k = Some m -> leases s' m = leases s m.
Proof.
  intros Hs He Hk. unfold leases. rewrite (et_cells _ _ _ He).
  pose proof (en_cell _ _ _ (ei_entries s Hs k m Hk)) as Hc. pose proof (ei_cells s Hs _ Hc).
  rewrite lookup_insert_ne; [done|lia].
Qed.

Lemma entered_kept expert (s s1 s' : EM) :
  em_inv s -> entered expert s s1 -> experts_ s !! pack_key (ex_layer expert) (ex_id expert) = None ->
  leased_kept s1 s' -> leased_kept s s'.
Proof.
  intros Hs He Hn Hkept k m Hk Hz. apply Hkept.
  - rewrite (et_experts _ _ _ He), lookup_insert_ne; [done|congruence].
  - by rewrite (entered_leases expert s s1 k m).
Qed.

Lemma rollback_spec k m (s : EM) :
  em_inv s -> experts_ s !! k = Some m ->
  wp (rollback_registration k (ex_id (metadata m)) (policyId m)) s
    (fun _ s' => erased k m s s' /\ transfers_ s' = transfers_ s) (fun _ _ => False).
Proof.
  intros Hs Hk. unfold rollback_registration. wp_step. eapply wp_deref; [done|]. wp_step.
  apply (wp_mono _ s (fun _ s' => exists mm, s' = set_memory mm s /\ source_released s m mm /\ mem_inv mm)
           _ (fun _ _ => False)); [| |done].
  - pose proof (owns_allocation s k m Hs Hk) as Ho. unfold source_released. destruct (allocation m) as [a|].
    + apply wp_unreserve; [apply Hs|by destruct Ho as (_ & ? & _)|]. eauto.
    + wp_step. exists (memory_ s). split_and!; [by destruct s|done|apply Hs].
  - intros _ s1 (mm & -> & Hrel & Hmm). wp_step. wp_step. wp_step. split; done.
Qed.

Lemma unregistered_erased expert (s s1 s2 s3 : EM) m :
  em_inv s -> entered expert s s1 -> experts_ s !! pack_key (ex_layer expert) (ex_id expert) = None ->
  call 3 s1 s2 -> frame {[nextPolicyId_ s]} (Some (pack_key (ex_layer expert) (ex_id expert))) s1 s2 ->
  experts_ s2 !! pack_key (ex_layer expert) (ex_id expert) = Some m ->
  relocation (new_entry expert (nextPolicyId_ s) (nextCell_ s)) m ->
  erased (pack_key (ex_layer expert) (ex_id expert)) m s2 s3 ->
  unregistered expert s s3.
Proof.
  intros Hs He Hn Hcall Hf Hm Hrel Her. pose proof (ca_inv _ _ _ Hcall) as Hs2.
  destruct (relocation_keeps _ _ Hrel) as (Hpid & _ & _ & _ & Hid & _). cbn in Hpid, Hid.
  set (k := pack_key (ex_layer expert) (ex_id expert)) in *.
  destruct (erased_memory k m s2 s3 Hs2 Hm Her) as (_ & Hused & Hlim & Hnext).
  destruct (entered_budget expert s s1 Hn He) as [Hb1 Hfor1].
  destruct (fr_static _ _ _ _ Hf) as [Hpol Hleg Hnp _ Hcells Hnc Htr _ _ _ _ _].
  assert (forall v, foreign v s3 = foreign v s2) as Hfor3.
  { intros v. unfold foreign, resident. rewrite (er_experts _ _ _ _ Her), Hused.
    rewrite (map_sum_delete (resident_bytes v) (experts_ s2) k m Hm). lia. }
  split.
  - split; [by eapply erase_inv|]. split.
    + pose proof (ca_budget _ _ _ Hcall). unfold id_budget in *. rewrite (er_experts _ _ _ _ Her), Hnext.
      pose proof (map_sum_delete in_vram (experts_ s2) k m Hm).
      assert (0 <= in_vram m) by (unfold in_vram; by destruct (tier_eqb _ _)). lia.
    + intros t. rewrite Hlim, (ca_limits _ _ _ Hcall). by rewrite (et_memory _ _ _ He).
  - rewrite (er_policy _ _ _ _ Her), Hpol, (et_policy _ _ _ He), Hpid, delete_insert_eq.
    apply delete_id. destruct (policyExperts_ s !! nextPolicyId_ s) eqn:Hp; [|done].
    apply (ei_policy s Hs) in Hp as [? _]. lia.
  - rewrite (er_legacy _ _ _ _ Her), Hleg, (et_legacy _ _ _ He), Hid.
    destruct (ei_legacy s Hs (ex_id expert)) as (_ & Hnn & Hl). apply legacy_push_remove; [|done].
    intros Hin. apply Hl in Hin as (x & Hx & _). fold k in Hx. congruence.
  - intros k'. rewrite (er_experts _ _ _ _ Her). destruct (decide (k' = k)) as [->|Hne].
    + rewrite lookup_delete_eq, Hn. done.
    + rewrite lookup_delete_ne by done. rewrite <- (frame_dom _ _ _ _ k' Hf), (et_experts _ _ _ He).
      by rewrite lookup_insert_ne.
  - intros k' x Hx. assert (k' <> k) as Hne by congruence.
    assert (experts_ s1 !! k' = Some x) as Hx1 by (rewrite (et_experts _ _ _ He); by rewrite lookup_insert_ne).
    destruct (fr_entry _ _ _ _ Hf k' x Hx1) as (x' & Hx' & Hstep). exists x'.
    rewrite (er_experts _ _ _ _ Her), lookup_delete_ne by done. split; [done|].
    destruct Hstep as [->|(Hz & Hr & [[= ?]|[_ Hlow]])]; [by left|congruence|right].
    by rewrite (entered_leases expert s s1 k' x) in Hz.
  - right. by rewrite (er_cells _ _ _ _ Her), Hcells, (et_cells _ _ _ He).
  - intros k' x Hx Hz. assert (k' <> k) as Hne by congruence.
    destruct (entered_kept expert s s1 s2 Hs He Hn (ca_leased _ _ _ Hcall) k' x Hx Hz) as (x' & Hx' & ?).
    exists x'. rewrite (er_experts _ _ _ _ Her), lookup_delete_ne; done.
  - rewrite (er_counters _ _ _ _ Her), (counters_frame _ _ _ _ Hf). by apply He.
  - intros Hno v. rewrite Hfor3, <- Hfor1. apply Hf. by rewrite (et_transfers _ _ _ He).
Qed.

Lemma register_spec expert (s : EM) :
  em_inv s -> expert_wf expert -> id_space s ->
  wp (registerExpert expert) s
    (fun _ s' => registered expert s s')
    (fun _ s' => unregistered expert s s').
Proof.
  intros Hs Hwf Hroom. set (k := pack_key (ex_layer expert) (ex_id expert)).
  assert (unregistered expert s s) as Hrefl.
  { split; try done; [split; [done|split; [lia|done]]|by eauto|by left|]. intros k' m' Hm' _. eauto using hard_same_refl. }
  unfold registerExpert. wp_step. wp_step; [done|]. apply Z.eqb_neq in H.
  wp_step. wp_step. cbv zeta. fold k. wp_step. wp_step; [done|]. apply bool_decide_eq_false in H0.
  wp_step. wp_step; [done|]. apply Z.ltb_ge in H1.
  assert (experts_ s !! k = None) as Hn by by apply eq_None_not_Some.
  assert (0 < ex_sizeBytes expert) as Hpos by (destruct Hwf as (_ & _ & ? & _); lia).
  pose proof (ei_next s Hs) as Hnp.
  rewrite (wrap32_small (nextPolicyId_ s)) by (unfold is_u32, u32_max in *; lia).
  do 10 wp_step. set (s1 := set_identities (emplace _ _ _) _ _ _).
  assert (entered expert s s1) as He.
  { split; try done; cbn; fold k.
    - unfold emplace. by rewrite Hn.
    - unfold emplace. destruct (policyExperts_ s !! nextPolicyId_ s) eqn:Hp; [|done].
      apply (ei_policy s Hs) in Hp as [? _]. lia.
    - apply wrap64_small. unfold is_u64, u32_max, u64_max in *. lia. }
  assert (em_inv s1) as Hs1 by by eapply insert_inv.
  destruct (entered_budget expert s s1 Hn He) as [Hb1 Hfor1].
  set (m := new_entry expert (nextPolicyId_ s) (nextCell_ s)).
  assert (experts_ s1 !! k = Some m) as Hk1 by by rewrite (et_experts _ _ _ He), lookup_insert_eq.
  assert (leases s1 m = 0) as Hz1. { unfold leases. by rewrite (et_cells _ _ _ He), lookup_insert_eq. }
  destruct (tier_eqb (ex_location expert) Nvme) eqn:Hl.
  - apply tier_eqb_true in Hl. wp_step. split; try done.
    + split; [done|]. split; [lia|]. intros t. by rewrite (et_memory _ _ _ He).
    + exists m. fold k. split_and!; try done. unfold m, new_entry, set_location. cbn. rewrite <- Hl. by destruct expert.
    + apply (entered_kept expert s s1); [done|done|done|]. intros k' m' Hm' _. eauto using hard_same_refl.
  - apply tier_eqb_false in Hl. apply wp_try.
    eapply wp_mono; [apply (move_public (ex_layer expert) (ex_id expert) (ex_location expert) s1 m); [done|done|done|]|..].
    { unfold id_space in *. lia. }
    + intros ? s2 Hok. cbn beta in Hok. pose proof (move_ok_call _ _ _ _ _ _ Hok) as Hc. fold k in Hok, Hc.
      destruct Hok as (Hs2 & Hf2 & _ & m2 & Hk2 & Hr2 & Hl2). destruct (relocation_keeps _ _ Hr2) as (Hp & Hcell & _ & _ & _ & Hu & _).
      pose proof (ca_budget _ _ _ Hc). split; try done.
      * split; [done|]. split; [lia|]. intros t. rewrite (ca_limits _ _ _ Hc). by rewrite (et_memory _ _ _ He).
      * exists m2. fold k. split_and!; try done.
        -- rewrite (relocation_metadata _ _ Hr2), Hl2. by destruct expert.
        -- rewrite <- Hz1. unfold leases. by rewrite Hcell, (ca_cells _ _ _ Hc).
      * rewrite (ca_cells _ _ _ Hc). by apply He.
      * eapply entered_kept; [done|done|done|]. apply Hc.
      * rewrite (counters_frame _ _ _ _ Hf2). by apply He.
    + intros e s2 [_ Hbad]. pose proof (move_bad_call _ _ _ _ _ _ _ Hbad) as Hc. fold k in Hbad, Hc.
      destruct Hbad as (Hs2 & Hf2 & _ & (m2 & Hk2 & Hr2 & _) & _). wp_step.
      destruct (relocation_keeps _ _ Hr2) as (Hp & _ & _ & _ & Hid & _).
      pose proof (rollback_spec k m2 s2 Hs2 Hk2) as Hrb. rewrite Hp, Hid in Hrb.
      eapply wp_mono; [exact Hrb| |done]. intros ? s3 [Her _]. wp_step.
      by eapply unregistered_erased.
Qed.
End registration.
