(* ===== verification/ManagerSystem.v ===== *)
(** * Runs of the expert manager

    The program sees the manager through method calls and lease handles: a run is a
    sequence of operations on a manager and the handles that are out.  Every run
    terminates, keeps the residency invariant and the pool limits, counts its
    leases exactly, and never moves an expert under a lease. *)

From S2P Require Import Prelude Float Tiers MemoryManager CachePolicy.
From S2P Require Import Bytes ExpertIndex ExpertStore Transfer ExpertManager Residency.
From S2P Require Import ManagerMethods Registration.

(** ** Counting handles *)

Definition holds (c : Z) (l : ExpertResidencyLease) : Z :=
  if decide (leaseCount_ l = Some c) then 1 else 0.

Fixpoint held (c : Z) (hs : list ExpertResidencyLease) : Z :=
  match hs with [] => 0 | l :: hs => holds c l + held c hs end.

Lemma holds_bounds c l : 0 <= holds c l <= 1.
Proof. unfold holds. case_decide; lia. Qed.

Lemma held_bounds c hs : 0 <= held c hs <= Z.of_nat (length hs).
Proof. induction hs as [|l hs IH]; cbn [held length]; pose proof (holds_bounds c); [lia|]. pose proof (H l). lia. Qed.

Lemma held_app c hs l : held c (hs ++ [l]) = held c hs + holds c l.
Proof. induction hs as [|l' hs IH]; cbn; lia. Qed.

Lemma held_insert c hs i l l' :
  hs !! i = Some l -> held c (<[i := l']> hs) = held c hs - holds c l + holds c l'.
Proof.
  revert i. induction hs as [|l0 hs IH]; intros [|i] Hi; try done; cbn in *.
  - injection Hi as ->. lia.
  - change (holds c l0 + held c (<[i := l']> hs) = holds c l0 + held c hs - holds c l + holds c l').
    rewrite (IH i) by done. lia.
Qed.

Lemma held_zero c hs : (forall l, l ∈ hs -> leaseCount_ l <> Some c) -> held c hs = 0.
Proof.
  induction hs as [|l hs IH]; intros Hl; [done|]. cbn. rewrite IH; [|set_solver].
  unfold holds. rewrite decide_False; [done|]. set_solver.
Qed.

Lemma held_pos c hs l : l ∈ hs -> leaseCount_ l = Some c -> 0 < held c hs.
Proof.
  induction hs as [|l0 hs IH]; intros Hl Hc; [by apply not_elem_of_nil in Hl|]. cbn.
  pose proof (held_bounds c hs). pose proof (holds_bounds c l0).
  apply elem_of_cons in Hl as [<-|Hl].
  - unfold holds. rewrite decide_True by done. lia.
  - specialize (IH Hl Hc). lia.
Qed.

Section system.
Context {P T : Type} `{HP : CachePolicy P} `{HL : !CachePolicyLaws P}.
Context `{HT : !TransferService T} `{HTL : !TransferServiceLaws T}.
Notation EM := (ExpertManager P T).

Record World : Type := mkWorld {
  manager : EM;
  handles : list ExpertResidencyLease;
}.

(** ** Operations *)

Inductive op : Type :=
  | OpRegister (expert : Expert)
  | OpRequest (elapsedMs : f64) (layerId id : Z)
  | OpMove (layerId id : Z) (destination : MemoryTier)
  | OpEvict (tier : MemoryTier) (maximumUsedBytes : Z)
  | OpPrepare (layerId id : Z) (destination : MemoryTier)
  | OpAdoptDevice (layerId id : Z) (buffer : option DeviceBuffer)
  | OpAdoptHost (layerId id : Z) (buffer : option HostBuffer)
  | OpPredict (layerId id : Z) (probability confidence : f64)
  | OpAcquireDevice (layerId id : Z)
  | OpAcquireHost (layerId id : Z)
  | OpReset (i : nat)
  | OpAssign (i j : nat).

(** The value a call returns is of no interest here; an exception reaches the caller. *)
Definition call_method {A} (m : ST EM A) (w : World) : option World :=
  match m (manager w) with
  | (Ok _, s) | (Throw _, s) => Some (mkWorld s (handles w))
  | (Diverge, _) => None
  end.

Definition call_acquire (m : ST EM ExpertResidencyLease) (w : World) : option World :=
  match m (manager w) with
  | (Ok l, s) => Some (mkWorld s (handles w ++ [l]))
  | (Throw _, s) => Some (mkWorld s (handles w))
  | (Diverge, _) => None
  end.

Definition perform (o : op) (w : World) : option World :=
  match o with
  | OpRegister expert => call_method (registerExpert expert) w
  | OpRequest elapsed layerId id => call_method (requestExpert elapsed layerId id) w
  | OpMove layerId id destination => call_method (moveExpert layerId id destination) w
  | OpEvict tier maximum => call_method (evictUntilWithin tier maximum) w
  | OpPrepare layerId id destination => call_method (prepareResidency layerId id destination) w
  | OpAdoptDevice layerId id buffer => call_method (adoptDeviceWeights layerId id buffer) w
  | OpAdoptHost layerId id buffer => call_method (adoptHostWeights layerId id buffer) w
  | OpPredict layerId id p c => call_method (updatePrediction layerId id p c) w
  | OpAcquireDevice layerId id => call_acquire (acquireResidentExpert layerId id) w
  | OpAcquireHost layerId id => call_acquire (acquireHostExpert layerId id) w
  | OpReset i =>
      match handles w !! i with
      | None => Some w
      | Some l =>
          match lease_reset l (manager w) with
          | (Ok l', s) => Some (mkWorld s (<[i := l']> (handles w)))
          | _ => None
          end
      end
  | OpAssign i j =>
      match handles w !! i, handles w !! j with
      | Some l, Some other =>
          if decide (i = j) then Some w
          else
            match lease_move_assign l other (manager w) with
            | (Ok (l', other'), s) => Some (mkWorld s (<[j := other']> (<[i := l']> (handles w))))
            | _ => None
            end
      | _, _ => Some w
      end
  end.

Fixpoint run (ops : list op) (w : World) : option World :=
  match ops with
  | [] => Some w
  | o :: ops => match perform o w with Some w' => run ops w' | None => None end
  end.

Definition op_wf (o : op) : Prop :=
  match o with OpRegister expert => expert_wf expert | _ => True end.

(** Adopting a device buffer is the one operation that disregards leases. *)
Definition respects_leases (o : op) (w : World) : Prop :=
  match o with
  | OpAdoptDevice layerId id _ =>
      forall m, experts_ (manager w) !! pack_key layerId id = Some m -> leases (manager w) m = 0
  | _ => True
  end.

Fixpoint careful (ops : list op) (w : World) : Prop :=
  match ops with
  | [] => True
  | o :: ops => respects_leases o w /\ forall w', perform o w = Some w' -> careful ops w'
  end.

(** ** The invariant of a run *)

Record world_inv (n : nat) (w : World) : Prop := WorldInv {
  wi_manager : em_inv (manager w);
  wi_count : forall c v, cells_ (manager w) !! c = Some v -> v = held c (handles w);
  wi_cells : forall l c, l ∈ handles w -> leaseCount_ l = Some c -> is_Some (cells_ (manager w) !! c);
  wi_budget : id_budget (manager w) <= 1 + 3 * Z.of_nat n;
  wi_handles : (length (handles w) <= n)%nat;
}.

(** What a handle out in the program guarantees. *)
Definition guarantee (s : EM) (l : ExpertResidencyLease) : Prop :=
  forall c, leaseCount_ l = Some c -> exists k m,
    experts_ s !! k = Some m /\ residencyLeases m = c /\
    (forall d, ls_deviceBuffer_ l = Some d -> location m = Vram /\ deviceWeights m = Some d) /\
    (forall b, ls_hostBuffer_ l = Some b -> location m = Ram /\ weights m = Some b).

Definition guaranteed (w : World) : Prop := forall l, l ∈ handles w -> guarantee (manager w) l.

(** ** What a method call that takes no lease does *)

Record ordinary (s s' : EM) : Prop := Ordinary {
  or_inv : em_inv s';
  or_cells : cells_ s' = cells_ s \/ cells_ s' = <[nextCell_ s := 0]> (cells_ s);
  or_limits : forall t, limitBytes (usageFor (memory_ s') t) = limitBytes (usageFor (memory_ s) t);
  or_budget : id_budget s' <= id_budget s + 3;
}.

Lemma call_ordinary n s s' : n <= 3 -> call n s s' -> ordinary s s'.
Proof. intros Hn []. split; try done; [by left|lia]. Qed.

Lemma settled_err_call pinned (s s' : EM) : settled_err pinned s s' -> call 1 s s'.
Proof. intros (Hs & Hf & Hb). by eapply call_frame. Qed.

Lemma settled_call pinned (s s' : EM) : settled pinned s s' -> call 1 s s'.
Proof. intros. by eapply settled_err_call, settled_settled_err. Qed.

Lemma accessed_call (s s' : EM) k m : em_inv s -> accessed s k m s' -> call 0 s s'.
Proof. intros Hs (Hso & _ & Hc & _). by apply call_soft. Qed.

Lemma adopted_ordinary k m tier w d (s s' : EM) : adopted k m tier w d s s' -> ordinary s s'.
Proof. intros []. split; try done; [by left|lia]. Qed.

Lemma adopted_kept k m tier w d (s s' : EM) :
  adopted k m tier w d s s' -> experts_ s !! k = Some m -> leases s m = 0 -> leased_kept s s'.
Proof.
  intros Ha Hk Hz k' x Hx Hlx. exists x. split; [|apply hard_same_refl].
  apply (ad_others _ _ _ _ _ _ _ Ha); [|done|done]. intros ->. congruence.
Qed.

Definition calm (kept : Prop) (s s' : EM) : Prop := ordinary s s' /\ (kept -> leased_kept s s').

Lemma call_calm kept n s s' : n <= 3 -> call n s s' -> calm kept s s'.
Proof. intros Hn Hc. split; [by eapply call_ordinary|]. intros _. apply Hc. Qed.

(** Every call but the acquisitions and the handles' own operations. *)
Definition calm_method {A} (kept : Prop) (m : ST EM A) (s : EM) : Prop :=
  wp m s (fun _ s' => calm kept s s') (fun _ s' => calm kept s s').

Lemma calm_of {A} kept (m : ST EM A) s (Q : A -> EM -> Prop) E :
  wp m s Q E -> (forall a s', Q a s' -> calm kept s s') -> (forall e s', E e s' -> calm kept s s') ->
  calm_method kept m s.
Proof. intros. by eapply wp_mono. Qed.

Lemma calm_register expert (s : EM) :
  em_inv s -> id_space s -> expert_wf expert -> calm_method True (registerExpert expert) s.
Proof.
  intros Hs Hr Hwf. eapply calm_of; [by apply register_spec|..].
  - intros _ s' [_ (? & ? & ?) _ ? ? _]. split; [|done]. split; [done|by right|done|done].
  - intros _ s' [(? & ? & ?) _ _ _ _ ? ? _ _]. by split; [split|].
Qed.

Lemma calm_request elapsed layerId id (s : EM) :
  em_inv s -> id_space s -> calm_method True (requestExpert elapsed layerId id) s.
Proof.
  intros Hs Hr. eapply calm_of; [by apply request_spec|..].
  - intros r s' (m & _ & Hq). by eapply call_calm, Hq.
  - intros e s' [Hc _]. by eapply call_calm.
Qed.

Lemma calm_move layerId id destination (s : EM) :
  em_inv s -> id_space s -> calm_method True (moveExpert layerId id destination) s.
Proof.
  intros Hs Hr. eapply calm_of; [by apply moveExpert_spec|..]; intros ? s' [Hc _]; by eapply call_calm.
Qed.

Lemma calm_evict tier maximum (s : EM) :
  em_inv s -> id_space s -> calm_method True (evictUntilWithin tier maximum) s.
Proof.
  intros Hs Hr. eapply calm_of; [by apply evict_spec|..].
  - intros _ s' (_ & Hset & _). by eapply (call_calm _ 1), settled_call.
  - intros e s' [Hset _]. by eapply (call_calm _ 1), settled_err_call.
Qed.

Lemma calm_prepare layerId id destination (s : EM) :
  em_inv s -> id_space s -> calm_method True (prepareResidency layerId id destination) s.
Proof.
  intros Hs Hr. eapply calm_of; [by apply prepare_spec|..].
  - intros _ s' (_ & m & _ & Hset & _). by eapply (call_calm _ 1), settled_call.
  - intros e s' Hset. apply (call_calm _ 1); [done|]. exact (settled_err_call _ _ _ Hset).
Qed.

Lemma calm_adoptDevice layerId id buffer (s : EM) :
  em_inv s -> id_space s ->
  calm_method (forall m, experts_ s !! pack_key layerId id = Some m -> leases s m = 0)
    (adoptDeviceWeights layerId id buffer) s.
Proof.
  intros Hs Hr. eapply calm_of; [by apply adoptDevice_spec|..].
  - intros _ s' (b & m & _ & Hk & _ & Hc). destruct (tier_eqb (location m) Vram).
    + destruct Hc as [_ Hc]. apply (call_calm _ 0); [done|]. eapply accessed_call; [done|exact Hc].
    + split; [by eapply adopted_ordinary|]. intros Hz. exact (adopted_kept _ _ _ _ _ _ _ Hc Hk (Hz m Hk)).
  - intros e s' Hset. apply (call_calm _ 1); [done|]. exact (settled_err_call _ _ _ Hset).
Qed.

Lemma calm_adoptHost layerId id buffer (s : EM) :
  em_inv s -> id_space s -> calm_method True (adoptHostWeights layerId id buffer) s.
Proof.
  intros Hs Hr. eapply calm_of; [by apply adoptHost_spec|..].
  - intros _ s' (b & m & _ & Hk & _ & Hz & Hc). destruct (tier_eqb (location m) Ram).
    + destruct Hc as [_ Hc]. apply (call_calm _ 0); [done|]. eapply accessed_call; [done|exact Hc].
    + split; [by eapply adopted_ordinary|]. intros _. exact (adopted_kept _ _ _ _ _ _ _ Hc Hk Hz).
  - intros e s' Hset. apply (call_calm _ 1); [done|]. exact (settled_err_call _ _ _ Hset).
Qed.

Lemma calm_predict layerId id p c (s : EM) :
  em_inv s -> calm_method True (updatePrediction layerId id p c) s.
Proof.
  intros Hs. eapply calm_of; [by apply predict_spec|..].
  - intros _ s' (_ & _ & Hc & _). exact (call_calm _ 0 _ _ ltac:(done) Hc).
  - intros e s' ->. apply (call_calm _ 0); [done|]. apply call_refl; [done|lia].
Qed.

(** ** One step of a run *)

Definition step_ok (n : nat) (o : op) (w : World) : Prop :=
  exists w', perform o w = Some w' /\ world_inv (S n) w' /\
    (forall t, limitBytes (usageFor (memory_ (manager w')) t) = limitBytes (usageFor (memory_ (manager w)) t)) /\
    (respects_leases o w -> guaranteed w -> guaranteed w').

Lemma guarantee_kept n (w : World) s' l :
  world_inv n w -> leased_kept (manager w) s' -> l ∈ handles w -> guarantee (manager w) l -> guarantee s' l.
Proof.
  intros Hw Hkept Hl Hg c Hc. destruct (Hg c Hc) as (k & m & Hk & Hm & Hd & Hb).
  destruct (wi_cells _ _ Hw l c Hl Hc) as [v Hv]. pose proof (wi_count _ _ Hw c v Hv) as ->.
  destruct (Hkept k m Hk) as (m' & Hk' & (Hmd & _ & _ & Hwt & Hdw & Hres)).
  { unfold leases. rewrite Hm, Hv. cbn. pose proof (held_pos c _ l Hl Hc). lia. }
  exists k, m'. rewrite Hwt, Hdw, Hres. unfold location. by rewrite Hmd.
Qed.

Lemma ordinary_world n (w : World) s' :
  world_inv n w -> ordinary (manager w) s' -> world_inv (S n) (mkWorld s' (handles w)).
Proof.
  intros Hw [Hs' Hc _ Hb]. destruct Hw as [Hs Hcount Hcells Hbud Hlen].
  assert (cells_ (manager w) !! nextCell_ (manager w) = None) as Hfresh.
  { apply eq_None_not_Some. intros Hsome. apply (ei_cells _ Hs) in Hsome. lia. }
  split; cbn; [done| | |lia|lia].
  - intros c v. destruct Hc as [ -> | -> ]; [apply Hcount|]. rewrite lookup_insert_Some.
    intros [[<- <-]|[_ Hv]]; [|by apply Hcount]. symmetry. apply held_zero. intros l Hl Hlc.
    destruct (Hcells l _ Hl Hlc) as [v Hv]. congruence.
  - intros l c Hl Hlc. destruct (Hcells l c Hl Hlc) as [v Hv]. destruct Hc as [ -> | -> ]; [by eexists|].
    rewrite lookup_insert_ne; [by eexists|congruence].
Qed.

Lemma method_step {A} n o (m : ST EM A) (w : World) :
  perform o w = call_method m w -> world_inv n w ->
  calm_method (respects_leases o w) m (manager w) -> step_ok n o w.
Proof.
  intros Ho Hw Hm. unfold step_ok. rewrite Ho. unfold call_method. unfold calm_method, wp in Hm.
  assert (forall s', calm (respects_leases o w) (manager w) s' -> exists w',
    Some (mkWorld s' (handles w)) = Some w' /\ world_inv (S n) w' /\
    (forall t, limitBytes (usageFor (memory_ (manager w')) t) = limitBytes (usageFor (memory_ (manager w)) t)) /\
    (respects_leases o w -> guaranteed w -> guaranteed w')) as Hgen.
  { intros s' [Hor Hkept]. eexists. split; [done|]. split; [by apply ordinary_world|]. split; [apply Hor|].
    intros Hresp Hg l Hl. eapply guarantee_kept; eauto. }
  destruct (m (manager w)) as [[a|e|] s']; auto. done.
Qed.

(** Changing a counter. *)
Lemma cells_budget (s : EM) f : id_budget (with_cells f s) = id_budget s.
Proof. done. Qed.

Lemma guarantee_cells (s : EM) f l : guarantee (with_cells f s) l <-> guarantee s l.
Proof. done. Qed.

Lemma acquire_step n o (m : ST EM ExpertResidencyLease) k tier (w : World) :
  perform o w = call_acquire m w -> world_inv n w -> 3 * Z.of_nat n + 6 <= u64_max ->
  tier = Vram \/ tier = Ram ->
  wp m (manager w) (fun l s' => acquired k tier l (manager w) s') (fun _ s' => call 3 (manager w) s') ->
  step_ok n o w.
Proof.
  intros Ho Hw Hn Ht Hm. unfold step_ok. rewrite Ho. unfold call_acquire. unfold wp in Hm.
  destruct (m (manager w)) as [[l|e|] s']; [|..|done].
  2: { eexists. split; [done|]. split; [by eapply ordinary_world, call_ordinary|]. split; [apply Hm|].
       intros _ Hg l Hl. eapply guarantee_kept; eauto. apply Hm. }
  destruct Hm as [(m0 & m' & Hk & Hk' & Hr & Hl & Hlc & Hbuf) (s1 & c & Hcall & Hc & ->) _].
  assert (c = residencyLeases m') as -> by congruence. cbn in Hk'.
  pose proof (ordinary_world n w s1 Hw (call_ordinary 3 _ _ ltac:(done) Hcall)) as [Hs1 Hcount Hcells Hbud Hlen].
  cbn in *. eexists. split; [done|]. split; [|split; [apply Hcall|]].
  - pose proof (take_lease_soft s1 (residencyLeases m') (fun n => wrap64 (n + 1))) as Hso. split; cbn.
    + by eapply soft_inv.
    + intros c v. rewrite held_app. unfold holds. rewrite Hlc. destruct (decide (c = residencyLeases m')) as [->|Hne].
      * rewrite lookup_alter_eq, decide_True by done. intros (x & Hx & ->)%fmap_Some.
        apply Hcount in Hx as ->. pose proof (held_bounds (residencyLeases m') (handles w)).
        apply wrap64_small. unfold is_u64. pose proof (wi_handles _ _ Hw). lia.
      * rewrite lookup_alter_ne by done. rewrite decide_False by congruence. intros Hv. rewrite (Hcount _ _ Hv). lia.
    + intros l' c Hl' Hc'. apply (so_cells _ _ Hso). apply elem_of_app in Hl' as [Hl'|Hl'].
      * by eapply Hcells.
      * apply list_elem_of_singleton in Hl' as ->. assert (c = residencyLeases m') as -> by congruence.
        exact (en_cell _ _ _ (ei_entries _ Hs1 _ _ Hk')).
    + done.
    + rewrite length_app. cbn. pose proof (wi_handles _ _ Hw). lia.
  - intros _ Hg l' Hl'. cbn. apply guarantee_cells. apply elem_of_app in Hl' as [Hl'|Hl'].
    + eapply guarantee_kept; eauto. apply Hcall.
    + apply list_elem_of_singleton in Hl' as ->. intros c' Hc'. exists k, m'. split; [done|].
      split; [congruence|]. destruct Ht as [ -> | -> ]; tiers; cbn in Hbuf;
        destruct Hbuf as (_ & Hb1 & Hb2); split; intros ? Hx; rewrite ?Hx in *; (done || split; congruence).
Qed.

(** Giving one handle back: the handles that remain are among the old ones. *)
Definition returned (w : World) (l : ExpertResidencyLease) : EM :=
  match leaseCount_ l with
  | Some c => with_cells (alter (fun n => wrap64 (n - 1)) c) (manager w)
  | None => manager w
  end.

Lemma lease_reset_run l (s : EM) (w : World) :
  s = manager w -> lease_reset l s = (Ok empty_lease, returned w l).
Proof. intros ->. unfold lease_reset, returned. by destruct (leaseCount_ l). Qed.

Lemma returned_soft (w : World) l : soft (manager w) (returned w l).
Proof. unfold returned. destruct (leaseCount_ l); [apply take_lease_soft|apply soft_refl]. Qed.

Lemma returned_guarantee (w : World) l l' : guarantee (manager w) l' -> guarantee (returned w l) l'.
Proof. unfold returned. by destruct (leaseCount_ l). Qed.

Lemma return_step n o (w : World) hs l :
  world_inv n w -> 3 * Z.of_nat n + 6 <= u64_max -> l ∈ handles w ->
  perform o w = Some (mkWorld (returned w l) hs) ->
  (forall c, held c hs = held c (handles w) - holds c l) ->
  (forall l', l' ∈ hs -> leaseCount_ l' = None \/ l' ∈ handles w) -> length hs = length (handles w) ->
  step_ok n o w.
Proof.
  intros Hw Hn Hl Ho Hheld Hsub Hlen. pose proof (returned_soft w l) as Hso. destruct Hw as [Hs Hcount Hcells Hbud Hh].
  eexists. split; [exact Ho|]. split; [|split].
  - split; cbn.
    + by eapply soft_inv.
    + intros c v Hv. rewrite Hheld. unfold returned, holds in *. destruct (leaseCount_ l) as [c'|] eqn:Hc.
      2: { rewrite decide_False by done. rewrite (Hcount _ _ Hv). lia. }
      cbn in Hv. destruct (decide (c = c')) as [->|Hne].
      * rewrite decide_True by done. rewrite lookup_alter_eq in Hv. apply fmap_Some in Hv as (x & Hx & ->).
        apply Hcount in Hx as ->. pose proof (held_bounds c' (handles w)). pose proof (held_pos c' _ l Hl Hc).
        apply wrap64_small. unfold is_u64. lia.
      * rewrite decide_False by congruence. rewrite lookup_alter_ne in Hv by done. rewrite (Hcount _ _ Hv). lia.
    + intros l' c Hl' Hc. destruct (Hsub l' Hl') as [?|Hin]; [congruence|]. apply (so_cells _ _ Hso). by eapply Hcells.
    + rewrite (soft_budget _ _ Hso). lia.
    + lia.
  - intros t. cbn. by rewrite (so_memory _ _ Hso).
  - intros _ Hg l' Hl'. cbn. destruct (Hsub l' Hl') as [Hnone|Hin].
    + intros c Hc. congruence.
    + by apply returned_guarantee, Hg.
Qed.

Lemma stay_step n o (w : World) : world_inv n w -> perform o w = Some w -> step_ok n o w.
Proof.
  intros [? ? ? ? ?] Ho. exists w. split; [done|]. split; [|done]. split; try done; lia.
Qed.

Lemma elem_of_insert_or (hs : list ExpertResidencyLease) i l l' : l' ∈ <[i := l]> hs -> l' = l \/ l' ∈ hs.
Proof.
  intros Hl. apply list_elem_of_lookup in Hl as [j Hj]. apply list_lookup_insert_Some in Hj as [(_ & -> & _)|[_ Hj]].
  - by left.
  - right. by eapply list_elem_of_lookup_2.
Qed.

Lemma perform_spec n o (w : World) :
  world_inv n w -> op_wf o -> 3 * Z.of_nat n + 6 <= u64_max -> step_ok n o w.
Proof.
  intros Hw Hwf Hn. pose proof (wi_manager _ _ Hw) as Hs. pose proof (wi_budget _ _ Hw) as Hb.
  assert (id_space (manager w)) as Hr by (unfold id_space; lia).
  destruct o as [expert|el l i|l i t|tier mx|l i t|l i b|l i b|l i p c|l i|l i|i|i j].
  - by eapply method_step, calm_register.
  - by eapply method_step, calm_request.
  - by eapply method_step, calm_move.
  - by eapply method_step, calm_evict.
  - by eapply method_step, calm_prepare.
  - by eapply method_step, calm_adoptDevice.
  - by eapply method_step, calm_adoptHost.
  - by eapply method_step, calm_predict.
  - eapply (acquire_step n _ _ (pack_key l i) Vram); try done; [by left|].
    eapply wp_mono; [by apply acquireResident_spec|done|]. by intros ? ? [].
  - eapply (acquire_step n _ _ (pack_key l i) Ram); try done; [by right|].
    eapply wp_mono; [by apply acquireHost_spec|done|]. by intros ? ? [].
  - destruct (handles w !! i) as [l|] eqn:Hi; [|apply stay_step; [done|]; cbn; by rewrite Hi].
    eapply (return_step n _ w (<[i := empty_lease]> (handles w)) l); try done.
    + by eapply list_elem_of_lookup_2.
    + cbn. rewrite Hi. by rewrite (lease_reset_run l _ w).
    + intros c. rewrite (held_insert c _ i l) by done. assert (holds c empty_lease = 0) as -> by done. lia.
    + intros l' [->|?]%elem_of_insert_or; auto.
    + by rewrite length_insert.
  - destruct (handles w !! i) as [l|] eqn:Hi; [|apply stay_step; [done|]; cbn; by rewrite Hi].
    destruct (handles w !! j) as [other|] eqn:Hj; [|apply stay_step; [done|]; cbn; by rewrite Hi, Hj].
    destruct (decide (i = j)) as [->|Hne];
      [apply stay_step; [done|]; cbn; rewrite Hi; by rewrite decide_True|].
    eapply (return_step n _ w (<[j := empty_lease]> (<[i := other]> (handles w))) l); try done.
    + by eapply list_elem_of_lookup_2.
    + cbn. rewrite Hi, Hj, decide_False by done. unfold lease_move_assign, st_bind.
      by rewrite (lease_reset_run l _ w).
    + intros c. rewrite (held_insert c _ j other), (held_insert c _ i l); [|done|by rewrite list_lookup_insert_ne].
      assert (holds c empty_lease = 0) as -> by done. lia.
    + intros l' [->|[->|?]%elem_of_insert_or]%elem_of_insert_or; auto. right. by eapply list_elem_of_lookup_2.
    + by rewrite !length_insert.
Qed.

(** ** Runs *)

Lemma run_spec ops : forall n (w : World),
  world_inv n w -> Forall op_wf ops -> 3 * Z.of_nat (n + length ops) + 6 <= u64_max ->
  exists w', run ops w = Some w' /\ world_inv (n + length ops) w' /\
    (forall t, limitBytes (usageFor (memory_ (manager w')) t) = limitBytes (usageFor (memory_ (manager w)) t)) /\
    (careful ops w -> guaranteed w -> guaranteed w').
Proof.
  induction ops as [|o ops IH]; intros n w Hw Hwf Hn; cbn [run length] in *.
  - exists w. rewrite Nat.add_0_r. done.
  - apply Forall_cons in Hwf as [Ho Hops].
    destruct (perform_spec n o w Hw Ho ltac:(lia)) as (w1 & Hp & Hw1 & Hl1 & Hg1). rewrite Hp.
    destruct (IH (S n) w1 Hw1 Hops ltac:(lia)) as (w2 & Hr & Hw2 & Hl2 & Hg2).
    exists w2. split; [done|]. split; [by rewrite Nat.add_succ_r|]. split; [intros t; by rewrite Hl2|].
    intros [Hc Hcs] Hg. apply Hg2; [by apply Hcs|]. by apply Hg1.
Qed.

(** The program starts with an empty manager and no handle out. *)
Definition start (memory : MemoryManager) (policy : P) (transfers : option T) : World :=
  mkWorld (newExpertManager memory policy transfers) [].
End system.
