(* ===== verification/ManagerProperties.v ===== *)
(** * What the expert manager promises

    The properties of the expert manager, stated on its methods and its runs. *)

From S2P Require Import Prelude Float Tiers MemoryManager CachePolicy.
From S2P Require Import Bytes ExpertIndex ExpertStore Transfer ExpertManager Residency.
From S2P Require Import ManagerMethods Registration ManagerSystem.

(** ** Consequences of the invariant *)

Section budgets.
Context {P T : Type}.
Notation EM := (ExpertManager P T).

Lemma resident_nonneg v (s : EM) : em_inv s -> 0 <= resident v s.
Proof.
  intros Hs. apply map_sum_nonneg. intros k m Hk.
  pose proof (en_size _ _ _ (ei_entries s Hs k m Hk)) as Hp. unfold resident_bytes. repeat case_match; lia.
Qed.

(** Experts fit in the used part of their pool, and the pool in its limit. *)
Definition within_budget (s : EM) (vramLimit ramLimit : Z) : Prop :=
  resident true s <= usedBytes (vram_ (memory_ s)) <= vramLimit /\
  resident false s <= usedBytes (ram_ (memory_ s)) <= ramLimit.

Lemma within_budget_inv (s : EM) : em_inv s ->
  within_budget s (limitBytes (vram_ (memory_ s))) (limitBytes (ram_ (memory_ s))).
Proof.
  intros Hs. destruct (ei_memory s Hs). pose proof (ei_foreign s Hs true) as H1. pose proof (ei_foreign s Hs false) as H2.
  unfold foreign, used in *. unfold within_budget. lia.
Qed.

(** No two experts share a reservation. *)
Definition exclusive (s : EM) : Prop :=
  forall k1 k2 m1 m2 a1 a2, experts_ s !! k1 = Some m1 -> experts_ s !! k2 = Some m2 ->
    allocation m1 = Some a1 -> allocation m2 = Some a2 -> al_id a1 = al_id a2 -> k1 = k2.

Lemma start_inv (v r : Z) (policy : P) (transfers : option T) :
  is_u64 v -> is_u64 r -> world_inv 0 (start (newMemory v r) policy transfers).
Proof.
  intros Hv Hr. pose proof (newMemory_inv v r Hv Hr) as Hm. split; cbn; try done.
  - split; cbn; try done.
    + intros c [x Hx]. done.
    + intros id. rewrite lookup_empty. cbn. split; [constructor|]. split; [done|]. intros k.
      split; [intros Hin; by apply not_elem_of_nil in Hin|]. intros (m & Hk & _). done.
    + intros b. unfold foreign, resident, used. cbn. rewrite map_sum_empty. by destruct b.
  - intros l c Hl. by apply not_elem_of_nil in Hl.
Qed.

Lemma start_guaranteed (v r : Z) (policy : P) (transfers : option T) :
  guaranteed (start (newMemory v r) policy transfers).
Proof. intros l Hl. by apply not_elem_of_nil in Hl. Qed.
End budgets.

(** ** Runs *)

(** C1: every sequence of calls and lease operations runs to its end, whatever the
    cache policy and the transfer service do (evictions recurse: [moveExpertLocked]
    makes room, which moves other experts): no call diverges, the bytes of the
    resident experts stay within the used part of each pool and the pools within
    their limits, each expert out of NVMe owns a live reservation of its size in its
    own tier, and no two experts share one. *)
Theorem manager_runs {P T : Type} `{CachePolicy P, !CachePolicyLaws P, !TransferService T, !TransferServiceLaws T}
    (v r : Z) (policy : P) (transfers : option T) (ops : list op) :
  is_u64 v -> is_u64 r -> Forall op_wf ops -> 3 * Z.of_nat (length ops) + 6 <= u64_max ->
  exists w, run ops (start (newMemory v r) policy transfers) = Some w /\
    within_budget (manager w) v r /\
    map_Forall (fun _ m => owns (memory_ (manager w)) m) (experts_ (manager w)) /\
    exclusive (manager w).
Proof.
  intros Hv Hr Hwf Hn.
  destruct (run_spec ops 0 _ (start_inv v r policy transfers Hv Hr) Hwf Hn) as (w & Hrun & Hw & Hlim & _).
  pose proof (wi_manager _ _ Hw) as Hs. exists w. split; [done|]. split; [|split].
  - pose proof (within_budget_inv _ Hs) as Hb.
    pose proof (Hlim Vram) as Hl1. pose proof (Hlim Ram) as Hl2. 
    change (limitBytes (vram_ (memory_ (manager w))) = v) in Hl1.
    change (limitBytes (ram_ (memory_ (manager w))) = r) in Hl2. by rewrite Hl1, Hl2 in Hb.
  - intros k m Hk. apply (ei_entries _ Hs k m Hk).
  - exact (ei_distinct _ Hs).
Qed.

(** C33: at every point of a run, the lease counter of an expert is the number of
    handles out on it: acquiring adds one, resetting, destroying or overwriting a
    handle takes one away, and moving a handle changes nothing. *)
Theorem lease_counts {P T : Type} `{CachePolicy P, !CachePolicyLaws P, !TransferService T, !TransferServiceLaws T}
    (v r : Z) (policy : P) (transfers : option T) (ops : list op) (w : World) (k : Z) (m : ManagedExpert) :
  is_u64 v -> is_u64 r -> Forall op_wf ops -> 3 * Z.of_nat (length ops) + 6 <= u64_max ->
  run ops (start (newMemory v r) policy transfers) = Some w -> experts_ (manager w) !! k = Some m ->
  leases (manager w) m = held (residencyLeases m) (handles w).
Proof.
  intros Hv Hr Hwf Hn Hrun Hk.
  destruct (run_spec ops 0 _ (start_inv v r policy transfers Hv Hr) Hwf Hn) as (w' & Hrun' & Hw & _).
  assert (w' = w) as -> by congruence.
  destruct (en_cell _ _ _ (ei_entries _ (wi_manager _ _ Hw) k m Hk)) as [c Hc].
  unfold leases. rewrite Hc. exact (wi_count _ _ Hw _ _ Hc).
Qed.

(** C2: as long as nobody adopts a device buffer for an expert under a lease, a
    handle that is out denotes an expert that is still in the handle's tier and
    still owns the very buffer the handle views, whatever was registered,
    requested, moved, evicted or adopted since. *)
Theorem leased_experts_stay {P T : Type} `{CachePolicy P, !CachePolicyLaws P, !TransferService T, !TransferServiceLaws T}
    (v r : Z) (policy : P) (transfers : option T) (ops : list op) (w : World) (l : ExpertResidencyLease) (c : Z) :
  is_u64 v -> is_u64 r -> Forall op_wf ops -> 3 * Z.of_nat (length ops) + 6 <= u64_max ->
  careful ops (start (newMemory v r) policy transfers) ->
  run ops (start (newMemory v r) policy transfers) = Some w ->
  l ∈ handles w -> leaseCount_ l = Some c ->
  exists k m, experts_ (manager w) !! k = Some m /\ residencyLeases m = c /\
    (forall d, ls_deviceBuffer_ l = Some d -> location m = Vram /\ deviceWeights m = Some d) /\
    (forall b, ls_hostBuffer_ l = Some b -> location m = Ram /\ weights m = Some b).
Proof.
  intros Hv Hr Hwf Hn Hc Hrun Hl Hlc.
  destruct (run_spec ops 0 _ (start_inv v r policy transfers Hv Hr) Hwf Hn) as (w' & Hrun' & _ & _ & Hg).
  assert (w' = w) as -> by congruence. exact (Hg Hc (start_guaranteed v r policy transfers) l Hl c Hlc).
Qed.

(** *** A run *)

#[local] Existing Instance Lru.policy.
#[local] Existing Instance Lru.laws.

Definition sample_expert (id : Z) (tier : MemoryTier) : Expert := mkExpert id 0 60 Fp32 tier.
Definition sample_buffer : HostBuffer := mkHost 900 (replicate 60 7).

(** Two experts compete for the VRAM; one is adopted in RAM, leased, and requested. *)
Definition sample_ops : list op :=
  [OpRegister (sample_expert 1 Nvme); OpRegister (sample_expert 2 Nvme);
   OpRequest f64_zero 0 1; OpRequest f64_zero 0 2;
   OpMove 0 1 Nvme; OpAdoptHost 0 1 (Some sample_buffer); OpAcquireHost 0 1;
   OpRequest f64_zero 0 1; OpEvict Ram 0].

Definition sample_start : World (P := Lru.state) (T := InlineService) :=
  start (newMemory 100 200) Lru.empty None.

Lemma sample_ops_wf : Forall op_wf sample_ops.
Proof. repeat constructor; vm_compute; discriminate. Qed.

Lemma sample_limits : is_u64 100 /\ is_u64 200 /\ 3 * Z.of_nat (length sample_ops) + 6 <= u64_max.
Proof. unfold is_u64, u64_max. cbn. lia. Qed.

Lemma manager_runs_witness :
  exists w, run sample_ops sample_start = Some w /\ within_budget (manager w) 100 200 /\
    resident true (manager w) = 60 /\ resident false (manager w) = 60.
Proof.
  destruct sample_limits as (Hv & Hr & Hn).
  destruct (manager_runs 100 200 Lru.empty (None : option InlineService) sample_ops Hv Hr sample_ops_wf Hn)
    as (w & Hrun & Hb & _).
  exists w. split; [exact Hrun|]. split; [exact Hb|]. vm_compute in Hrun. injection Hrun as <-.
  split; vm_compute; reflexivity.
Defined.

Lemma lease_counts_witness :
  exists w m, run sample_ops sample_start = Some w /\ experts_ (manager w) !! 1 = Some m /\
    leases (manager w) m = held (residencyLeases m) (handles w) /\ leases (manager w) m = 1.
Proof.
  destruct sample_limits as (Hv & Hr & Hn).
  destruct (run sample_ops sample_start) as [w|] eqn:Hrun; [|vm_compute in Hrun; discriminate Hrun].
  destruct (experts_ (manager w) !! 1) as [m|] eqn:Hk.
  2: { vm_compute in Hrun. injection Hrun as <-. vm_compute in Hk. discriminate Hk. }
  exists w, m. split; [reflexivity|]. split; [exact Hk|]. split.
  - exact (lease_counts 100 200 Lru.empty (None : option InlineService) sample_ops w 1 m Hv Hr sample_ops_wf Hn Hrun Hk).
  - vm_compute in Hrun. injection Hrun as <-. vm_compute in Hk. injection Hk as <-. vm_compute. reflexivity.
Defined.

Lemma sample_careful : careful sample_ops sample_start.
Proof. repeat (split; [exact I|intros ? _]). exact I. Qed.

Lemma leased_experts_stay_witness :
  exists w l, run sample_ops sample_start = Some w /\ handles w = [l] /\ leaseCount_ l = Some 0 /\
    exists k m, experts_ (manager w) !! k = Some m /\ residencyLeases m = 0 /\
      location m = Ram /\ weights m = Some sample_buffer.
Proof.
  destruct sample_limits as (Hv & Hr & Hn).
  destruct (run sample_ops sample_start) as [w|] eqn:Hrun; [|vm_compute in Hrun; discriminate Hrun].
  destruct (handles w) as [|l [|]] eqn:Hh;
    [vm_compute in Hrun; injection Hrun as <-; vm_compute in Hh; discriminate Hh| |
     vm_compute in Hrun; injection Hrun as <-; vm_compute in Hh; discriminate Hh].
  assert (l = mkLease (Some 0) None (Some sample_buffer)) as Hl.
  { vm_compute in Hrun. injection Hrun as <-. vm_compute in Hh. injection Hh as <-. vm_compute. reflexivity. }
  assert (l ∈ handles w) as Hin. { rewrite Hh. left. }
  assert (leaseCount_ l = Some 0) as Hc. { rewrite Hl. reflexivity. }
  destruct (leased_experts_stay 100 200 Lru.empty (None : option InlineService) sample_ops w l 0
              Hv Hr sample_ops_wf Hn sample_careful Hrun Hin Hc) as (k & m & Hk & Hm & _ & Hb).
  exists w, l. split; [reflexivity|]. split; [exact Hh|]. split; [exact Hc|]. exists k, m.
  split; [exact Hk|]. split; [exact Hm|]. apply Hb. rewrite Hl. reflexivity.
Defined.

(** ** Requests *)


Section room.
Context {P T : Type}.
Notation EM := (ExpertManager P T).

Definition pool_of (tier : MemoryTier) : bool := tier_eqb tier Vram.

(** Nothing but the expert itself holds its tier: the tier has room. *)
Lemma room_available (s s' : EM) k m m' tier :
  em_inv s -> em_inv s' -> frame {[policyId m]} (Some k) s s' -> transfers_ s = None ->
  experts_ s !! k = Some m -> experts_ s' !! k = Some m' -> location m' <> tier -> location m' <> PinnedRam ->
  tier = Vram \/ tier = Ram ->
  map_Forall (fun _ x => leases s x = 0 /\ location x <> PinnedRam) (experts_ s) ->
  sizeBytes m <= limitBytes (usageFor (memory_ s) tier) - foreign (pool_of tier) s ->
  ~ no_room {[policyId m]} tier (sizeBytes m) s'.
Proof.
  intros Hs Hs' Hf Htr Hk Hk' Hl' Hnp Htier Hall Hfit.
  pose proof (fr_no_leak _ _ _ _ Hf Htr (pool_of tier)) as Hfor.
  pose proof (fr_limits _ _ _ _ Hf tier) as Hlim. pose proof (ei_foreign s Hs (pool_of tier)) as Hf0.
  intros [Hlt|[Hlt Hpin]]; [lia|].
  assert (resident (pool_of tier) s' <= 0 * Z.of_nat (size (experts_ s'))) as Hres.
  { apply map_sum_bound. intros k2 x Hx. destruct (decide (k2 = k)) as [->|Hne].
    - rewrite Hk' in Hx. injection Hx as <-. unfold resident_bytes, in_pool, pool_of.
      destruct Htier as [ -> | -> ]; destruct (location m'); tiers; done || lia.
    - assert (exists y, experts_ s !! k2 = Some y) as [y Hy].
      { apply (frame_dom _ _ _ _ k2 Hf). by eexists. }
      destruct (Hall k2 y Hy) as [Hz Hy'].
      destruct (fr_entry _ _ _ _ Hf k2 y Hy) as (x2 & Hx2 & Hstep).
      assert (x2 = x) as -> by congruence.
      assert (policyId x <> policyId m) as Hpid.
      { intros Heq. pose proof (en_policy _ _ _ (ei_entries s' Hs' _ _ Hx)) as H1.
        pose proof (en_policy _ _ _ (ei_entries s' Hs' _ _ Hk')) as H2.
        destruct (frame_lookup _ _ _ _ _ _ Hf Hk) as (m2 & Hm2 & Hr2).
        assert (m2 = m') as -> by congruence. destruct (relocation_keeps _ _ Hr2) as (Hp2 & _). congruence. }
      assert (leases s' x = 0) as Hzx.
      { rewrite <- Hz. apply leases_static; [apply Hf|]. by eapply entry_step_relocation. }
      assert (location x <> tier) as Hlx.
      { intros Heq. apply Hpid. specialize (Hpin k2 x Hx Heq Hzx). set_solver. }
      assert (location x <> PinnedRam) as Hpx.
      { destruct Hstep as [->|(_ & _ & [[= ->]|[_ Hlow]])]; [done|done|].
        intros Heq. rewrite Heq in Hlow. by destruct (location y). }
      unfold resident_bytes, in_pool, pool_of.
      destruct Htier as [ -> | -> ]; destruct (location x); tiers; done || lia. }
  rewrite (availableBytes_inv _ tier (ei_memory s' Hs')) in Hlt.
  unfold foreign, used, usageFor, pool_of in *. destruct (tier_eqb tier Vram); lia.
Qed.
End room.

(** Without a transfer service, when nothing is leased or in pinned memory, an
    expert that fits in the VRAM (and, from NVMe, in the RAM it is staged through)
    is always brought to VRAM: evictions can always make enough room. *)
Theorem request_granted {P T : Type} `{CachePolicy P, !CachePolicyLaws P, !TransferService T, !TransferServiceLaws T}
    (elapsed : f64) (layerId id : Z) (s : ExpertManager P T) (m : ManagedExpert) :
  em_inv s -> id_space s -> transfers_ s = None ->
  experts_ s !! pack_key layerId id = Some m ->
  map_Forall (fun _ x => leases s x = 0 /\ location x <> PinnedRam) (experts_ s) ->
  sizeBytes m <= limitBytes (usageFor (memory_ s) Vram) - foreign true s ->
  (location m = Nvme -> sizeBytes m <= limitBytes (usageFor (memory_ s) Ram) - foreign false s) ->
  exists r s', requestExpert elapsed layerId id s = (Ok r, s') /\
    rr_expert r = set_location Vram (metadata m).
Proof.
  intros Hs Hr Htr Hk Hall Hvram Hram.
  destruct (wp_result _ _ _ _ (request_spec elapsed layerId id s Hs Hr))
    as [(r & s' & -> & m0 & Hk0 & Hq)|(e & s' & _ & _ & _ & [(Hn & _)|(m0 & Hk0 & Hnv & Hbad)])].
  - assert (m0 = m) as -> by congruence. exists r, s'. split; [done|apply Hq].
  - congruence.
  - assert (m0 = m) as -> by congruence. exfalso.
    destruct Hbad as (Hs' & Hf & _ & (m' & Hk' & _ & Hm') & _ & Herr).
    destruct (Hall _ _ Hk) as [Hz Hnp].
    destruct Herr as [(_ & _ & ? & _)|[?|(_ & tier & Ht & Hneed & Hno)]]; [done..|].
    destruct Hneed as [->|(Hl & _ & -> & Hk2)].
    + revert Hno. apply (room_available s s' _ m m' Vram Hs Hs' Hf Htr Hk Hk'); [| |by left|done|exact Hvram].
      * destruct Hm' as [->|(_ & _ & ->)]; done.
      * destruct Hm' as [->|(_ & _ & ->)]; done.
    + assert (m' = m) as -> by congruence. revert Hno.
      apply (room_available s s' _ m m Ram Hs Hs' Hf Htr Hk Hk2);
        [by rewrite Hl|done|by right|done|exact (Hram Hl)].
Qed.

(** ** Evictions *)

(** [evictUntilWithin] ends with the tier within the bound unless everything
    still in it is under a lease; it only ever moves unleased experts, and only
    down; and without a transfer service it fails on NVMe alone. *)
Theorem evict_until_within {P T : Type} `{CachePolicy P, !CachePolicyLaws P, !TransferService T, !TransferServiceLaws T}
    (tier : MemoryTier) (maximum : Z) (s : ExpertManager P T) :
  em_inv s -> id_space s ->
  match evictUntilWithin tier maximum s with
  | (Ok _, s') => tier <> Nvme /\ evicted_within tier maximum s'
  | (Throw _, s') => tier = Nvme \/ transfers_ s <> None
  | (Diverge, _) => False
  end /\
  (let s' := snd (evictUntilWithin tier maximum s) in
   em_inv s' /\ forall k m, experts_ s !! k = Some m ->
     exists m', experts_ s' !! k = Some m' /\
       (m' = m \/ (leases s m = 0 /\ lower (location m) (location m')))).
Proof.
  intros Hs Hr.
  assert (forall s', settled_err ∅ s s' -> em_inv s' /\ forall k m, experts_ s !! k = Some m ->
     exists m', experts_ s' !! k = Some m' /\
       (m' = m \/ (leases s m = 0 /\ lower (location m) (location m')))) as Hdown.
  { intros s' (Hs' & Hf & _). split; [done|]. intros k m Hk.
    destruct (fr_entry _ _ _ _ Hf k m Hk) as (m' & Hk' & Hstep). exists m'. split; [done|].
    destruct Hstep as [->|(? & _ & [?|[_ ?]])]; auto; done. }
  destruct (wp_result _ _ _ _ (evict_spec tier maximum s Hs Hr))
    as [(r & s' & -> & Ht & Hset & Hw & _)|(e & s' & -> & Hset & Ht)]; cbn.
  - split; [done|]. by apply Hdown, settled_settled_err.
  - split; [|by apply Hdown]. destruct Ht as [[? _]|(_ & ? & _)]; auto.
Qed.

(** [prepareResidency] makes the room it was asked for, or throws; the expert
    itself does not move. *)
Theorem prepare_residency {P T : Type} `{CachePolicy P, !CachePolicyLaws P, !TransferService T, !TransferServiceLaws T}
    (layerId id : Z) (destination : MemoryTier) (s : ExpertManager P T) :
  let k := pack_key layerId id in
  em_inv s -> id_space s ->
  match prepareResidency layerId id destination s with
  | (Ok _, s') => exists m, experts_ s !! k = Some m /\ experts_ s' !! k = Some m /\ em_inv s' /\
      (location m = destination \/ sizeBytes m <= availableBytes (usageFor (memory_ s') destination))
  | (Throw _, s') => em_inv s' /\ leased_kept s s'
  | (Diverge, _) => False
  end.
Proof.
  intros k Hs Hr. destruct (wp_result _ _ _ _ (prepare_spec layerId id destination s Hs Hr))
    as [(r & s' & -> & _ & m & Hk & Hset & Hk' & Hav)|(e & s' & -> & Hset)].
  - exists m. split_and!; try done. apply Hset.
  - pose proof (settled_err_call _ _ _ Hset) as Hc. split; apply Hc.
Qed.

(** ** Registration *)

(** C36: a registration either enters the expert under a fresh policy identifier, in
    the tier it was declared in, or throws and leaves the identity maps exactly as
    they were: nothing can be looked up that could not before.  What the attempt to
    place the expert did to the others stays: an expert is as it was, or was under no
    lease and moved down, and only its residency changed.  Without a transfer service no
    byte stays reserved that none of these experts owns. *)
Theorem register_expert {P T : Type} `{CachePolicy P, !CachePolicyLaws P, !TransferService T, !TransferServiceLaws T}
    (expert : Expert) (s : ExpertManager P T) :
  let k := pack_key (ex_layer expert) (ex_id expert) in
  em_inv s -> expert_wf expert -> id_space s ->
  match registerExpert expert s with
  | (Ok _, s') => em_inv s' /\ experts_ s !! k = None /\ leased_kept s s' /\
      exists m, experts_ s' !! k = Some m /\ metadata m = expert /\ leases s' m = 0 /\
        usageCount m = 0 /\ policyExperts_ s !! policyId m = None
  | (Throw _, s') => em_inv s' /\ leased_kept s s' /\
      policyExperts_ s' = policyExperts_ s /\ legacyExperts_ s' = legacyExperts_ s /\
      (forall k', is_Some (experts_ s' !! k') <-> is_Some (experts_ s !! k')) /\
      (forall k' m, experts_ s !! k' = Some m -> exists m', experts_ s' !! k' = Some m' /\
         (m' = m \/ (leases s m = 0 /\ relocation m m' /\ lower (location m) (location m')))) /\
      (transfers_ s = None -> forall v, foreign v s' = foreign v s)
  | (Diverge, _) => False
  end.
Proof.
  intros k Hs Hwf Hr. destruct (wp_result _ _ _ _ (register_spec expert s Hs Hwf Hr))
    as [(r & s' & -> & [Hn (Hi & _) (m & Hm & Hmd & Hz & Hu & Hp) _ Hkept _])
       |(e & s' & -> & [(Hi & _) Hpol Hleg Hent Hmoved _ Hkept _ Hleak])].
  - split_and!; try done. exists m. split_and!; try done. rewrite Hp.
    destruct (policyExperts_ s !! nextPolicyId_ s) eqn:Hx; [|done]. apply (ei_policy s Hs) in Hx as [? _]. lia.
  - split_and!; done.
Qed.

(** ** Leases and adoption *)

(** Both acquisitions, by the tier they acquire in. *)
Definition acquire {P T : Type} `{CachePolicy P, !TransferService T} (device : bool) (layerId id : Z)
    : ST (ExpertManager P T) ExpertResidencyLease :=
  if device then acquireResidentExpert layerId id else acquireHostExpert layerId id.

(** An acquired lease is valid, views the buffer the expert owns in the tier it
    was acquired in, and adds one to the expert's counter; a failed acquisition
    takes no lease. *)
Theorem acquire_expert {P T : Type} `{CachePolicy P, !CachePolicyLaws P, !TransferService T, !TransferServiceLaws T}
    (device : bool) (layerId id : Z) (s : ExpertManager P T) :
  let k := pack_key layerId id in
  em_inv s -> id_space s ->
  match acquire device layerId id s with
  | (Ok l, s') => lease_valid l = true /\ exists m m', experts_ s !! k = Some m /\ experts_ s' !! k = Some m' /\
      em_inv s' /\ leaseCount_ l = Some (residencyLeases m') /\ leases s' m' = wrap64 (leases s m + 1) /\
      (if device then location m' = Vram /\ ls_deviceBuffer_ l = deviceWeights m' /\ ls_hostBuffer_ l = None
       else location m' = Ram /\ ls_hostBuffer_ l = weights m' /\ ls_deviceBuffer_ l = None)
  | (Throw _, s') => em_inv s' /\ cells_ s' = cells_ s
  | (Diverge, _) => False
  end.
Proof.
  intros k Hs Hr.
  assert (wp (acquire device layerId id) s
    (fun l s' => acquired k (if device then Vram else Ram) l s s') (fun _ s' => call 3 s s')) as Hw.
  { unfold acquire. destruct device.
    - eapply wp_mono; [by apply acquireResident_spec|done|]. by intros ? ? [].
    - eapply wp_mono; [by apply acquireHost_spec|done|]. by intros ? ? []. }
  destruct (wp_result _ _ _ _ Hw) as [(l & s' & -> & Ha)|(e & s' & -> & Hc)]; [|split; apply Hc].
  destruct Ha as [(m & m' & Hk & Hk' & Hrel & Hl & Hlc & Hbuf) (s1 & c & Hc & Hcc & ->) _].
  assert (c = residencyLeases m') as -> by congruence. destruct (relocation_keeps _ _ Hrel) as (_ & Hcell & _).
  split.
  - unfold lease_valid. rewrite Hlc. destruct device; tiers; cbn in Hbuf; destruct Hbuf as ([x Hx] & _);
      rewrite Hx; [done|]. by destruct (ls_deviceBuffer_ l).
  - exists m, m'. split_and!; try done.
    + eapply soft_inv; [apply Hc|apply take_lease_soft].
    + unfold leases. cbn. rewrite lookup_alter_eq, (ca_cells _ _ _ Hc), Hcell.
      destruct (en_cell _ _ _ (ei_entries s Hs k m Hk)) as [v ->]. done.
    + destruct device; tiers; cbn in Hbuf; by destruct Hbuf as (_ & ? & ?).
Qed.

(** Adopting host weights puts exactly the given buffer in RAM under a
    reservation of the expert's size, with no device copy left, and refuses an
    expert under a lease or a buffer of the wrong size; adopting again the buffer
    the expert already owns only counts as an access. *)
Theorem adopt_host_weights {P T : Type} `{CachePolicy P, !CachePolicyLaws P, !TransferService T, !TransferServiceLaws T}
    (layerId id : Z) (buffer : option HostBuffer) (s : ExpertManager P T) :
  let k := pack_key layerId id in
  em_inv s -> id_space s ->
  match adoptHostWeights layerId id buffer s with
  | (Ok _, s') => em_inv s' /\ leased_kept s s' /\ exists b m m', buffer = Some b /\
      experts_ s !! k = Some m /\ experts_ s' !! k = Some m' /\ host_size b = sizeBytes m /\
      leases s m = 0 /\ location m' = Ram /\ hb_address <$> weights m' = Some (hb_address b) /\
      (location m <> Ram -> weights m' = Some b /\ deviceWeights m' = None) /\
      usageCount m' = wrap64 (usageCount m + 1)
  | (Throw _, s') => em_inv s' /\ leased_kept s s'
  | (Diverge, _) => False
  end.
Proof.
  intros k Hs Hr. destruct (wp_result _ _ _ _ (adoptHost_spec layerId id buffer s Hs Hr))
    as [(r & s' & -> & b & m & -> & Hk & Hsz & Hz & Hc)|(e & s' & -> & Hset)].
  2: { pose proof (settled_err_call _ _ _ Hset) as Hc. split; apply Hc. }
  destruct (tier_eqb (location m) Ram) eqn:Hl.
  - apply tier_eqb_true in Hl. destruct Hc as [Hb Ha]. pose proof (accessed_call s s' _ m Hs Ha) as Hcall.
    destruct Ha as (_ & _ & _ & _ & Hex). split; [apply Hcall|]. split; [apply Hcall|].
    exists b, m. eexists. split; [done|]. split; [done|]. split; [rewrite Hex; apply lookup_insert_eq|].
    split_and!; done.
  - apply tier_eqb_false in Hl. split; [apply Hc|]. split; [exact (adopted_kept _ _ _ _ _ _ _ Hc Hk Hz)|].
    destruct (ad_entry _ _ _ _ _ _ _ Hc) as (m' & Hk' & Hl' & Hw & Hd & _ & _ & _ & Hu).
    exists b, m, m'. rewrite Hw, Hd. split_and!; done.
Qed.

(** Adopting a device buffer puts exactly that buffer in VRAM under a
    reservation of the expert's size, and counts a promotion's access; unlike every
    other operation it does not look at the expert's own leases, so only the other
    experts' leases are kept. *)
Theorem adopt_device_weights {P T : Type} `{CachePolicy P, !CachePolicyLaws P, !TransferService T, !TransferServiceLaws T}
    (layerId id : Z) (buffer : option DeviceBuffer) (s : ExpertManager P T) :
  let k := pack_key layerId id in
  em_inv s -> id_space s ->
  match adoptDeviceWeights layerId id buffer s with
  | (Ok _, s') => em_inv s' /\ exists b m m', buffer = Some b /\
      experts_ s !! k = Some m /\ experts_ s' !! k = Some m' /\ device_size b = sizeBytes m /\
      location m' = Vram /\ db_address <$> deviceWeights m' = Some (db_address b) /\
      (location m <> Vram -> weights m' = None /\ deviceWeights m' = Some b) /\
      (forall k' x, k' <> k -> experts_ s !! k' = Some x -> leases s x <> 0 -> experts_ s' !! k' = Some x)
  | (Throw _, s') => em_inv s' /\ leased_kept s s'
  | (Diverge, _) => False
  end.
Proof.
  intros k Hs Hr. destruct (wp_result _ _ _ _ (adoptDevice_spec layerId id buffer s Hs Hr))
    as [(r & s' & -> & b & m & -> & Hk & Hsz & Hc)|(e & s' & -> & Hset)].
  2: { pose proof (settled_err_call _ _ _ Hset) as Hc. split; apply Hc. }
  destruct (tier_eqb (location m) Vram) eqn:Hl.
  - apply tier_eqb_true in Hl. destruct Hc as [Hb Ha]. pose proof (accessed_call s s' _ m Hs Ha) as Hcall.
    destruct Ha as (_ & _ & _ & _ & Hex). split; [apply Hcall|].
    exists b, m. eexists. split; [done|]. split; [done|]. split; [rewrite Hex; apply lookup_insert_eq|].
    split_and!; try done. intros k' x Hne Hx _. by rewrite Hex, lookup_insert_ne.
  - apply tier_eqb_false in Hl. split; [apply Hc|].
    destruct (ad_entry _ _ _ _ _ _ _ Hc) as (m' & Hk' & Hl' & Hw & Hd & _).
    exists b, m, m'. rewrite Hw, Hd. split_and!; try done. apply Hc.
Qed.

Lemma wp_move_fuel {P T : Type} `{CachePolicy P, !TransferService T} layerId id destination pinned
    (s : ExpertManager P T) n Q E :
  move_fuel s = n -> wp (moveExpertLocked n layerId id destination pinned) s Q E ->
  wp (move layerId id destination pinned) s Q E.
Proof. by intros <-. Qed.

(** when the transfer service throws while a cold expert is loaded to RAM, the
    exception leaves the manager with the reservation made for the expert and no
    owner for it: the bytes are lost to the pool until the program ends. *)
Theorem failed_load_leaks {P T : Type} `{CachePolicy P, !CachePolicyLaws P, !TransferService T, !TransferServiceLaws T}
    (layerId id : Z) (s : ExpertManager P T) (m : ManagedExpert) (t t' : T) (b' : Z) (e : exn) :
  let k := pack_key layerId id in
  em_inv s -> id_space s -> experts_ s !! k = Some m -> location m = Nvme -> leases s m = 0 ->
  transfers_ s = Some t -> sizeBytes m <= availableBytes (usageFor (memory_ s) Ram) ->
  submit_and_wait (disk_request (ex_layer (metadata m)) id) (t, buffers_ s) = (Throw e, (t', b')) ->
  exists s', moveExpert layerId id Ram s = (Throw e, s') /\ experts_ s' = experts_ s /\
    foreign false s' = foreign false s + sizeBytes m.
Proof.
  intros k Hs Hr Hk Hl Hz Ht Hav Hfail. pose proof (ei_entries s Hs k m Hk) as Hen.
  pose proof Hr as Hroom. unfold id_space in Hroom.
  assert (id_room (memory_ s) 1) as Hids by (apply id_budget_room; [done|lia]).
  enough (wp (moveExpert layerId id Ram) s (fun _ _ => False) (fun e' s' => e' = e /\ experts_ s' = experts_ s /\
    foreign false s' = foreign false s + sizeBytes m)) as Hw.
  { destruct (wp_result _ _ _ _ Hw) as [(? & ? & _ & [])|(e' & s' & -> & -> & ?)]. by exists s'. }
  unfold moveExpert. wp_step. apply wp_require; fold k; [|congruence]. intros m0 Hm0.
  wp_step. eapply wp_deref; [done|]. assert (m0 = m) as -> by (fold k in Hm0; congruence). clear Hm0.
  destruct (move_fuel_S s) as [n Hn]. eapply wp_move_fuel; [exact Hn|].
  rewrite moveExpertLocked_S. wp_step. apply wp_require; fold k; [|congruence]. intros m0 Hm0.
  wp_step. eapply wp_deref; [done|]. assert (m0 = m) as -> by (fold k in Hm0; congruence). clear Hm0.
  wp_step. wp_step. rewrite Hl, (proj2 (tier_eqb_false Nvme Ram)) by done. rewrite Hz. wp_step. wp_step; [done|].
  unfold dispatch. rewrite Hl, Ht.
  (* there is room already *)
  wp_step. unfold makeRoom_with. rewrite (proj2 (tier_eqb_false Ram Nvme)) by done.
  wp_step. wp_step. wp_step. apply wp_usage; [done|]. wp_step.
  pose proof (availableBytes_inv _ Ram (ei_memory s Hs)) as Hae. pose proof (usageFor_inv _ Ram (ei_memory s Hs)) as Hu.
  wp_step; [exfalso; match goal with Hlt : (_ <? _) = true |- _ => apply Z.ltb_lt in Hlt; lia end|].
  cbn [makeRoomLoop]. wp_step. wp_step. wp_step. apply wp_usage; [done|].
  rewrite (proj2 (Z.ltb_ge _ _) Hav). wp_step. wp_step. wp_step. rewrite Ht.
  (* the load *)
  unfold load_to_ram. wp_step. eapply wp_deref; [done|]. wp_step.
  apply wp_reserve; [apply Hs|done|apply Hen|apply Hen|done| |lia].
  intros mm a Hal Hmm Hfit. wp_step. unfold wp, transfer. cbn [buffers_ set_memory].
  rewrite Hfail. cbn. split_and!; try done.
  pose proof (allocated_used s _ _ _ mm false Hal) as Hused. unfold allocated_bytes, in_pool in Hused. tiers.
  unfold foreign, used, resident in *. cbn in *. lia.
Qed.

(** a device buffer can be adopted for an expert whose host copy is leased: the
    handle stays out, but the expert leaves RAM and its host buffer is dropped. *)
Theorem device_adoption_ignores_leases :
  exists w l m,
    run [OpRegister (sample_expert 1 Nvme); OpAdoptHost 0 1 (Some sample_buffer); OpAcquireHost 0 1;
         OpAdoptDevice 0 1 (Some (mkDevice 901 (Some cpu_backend) true (replicate 60 7)))] sample_start = Some w /\
    handles w = [l] /\ experts_ (manager w) !! 1 = Some m /\
    leaseCount_ l = Some (residencyLeases m) /\ ls_hostBuffer_ l = Some sample_buffer /\
    leases (manager w) m = 1 /\ location m = Vram /\ weights m = None.
Proof.
  eexists _, _, _. split; [vm_compute; reflexivity|]. split; [reflexivity|].
  split; [vm_compute; reflexivity|]. split; [reflexivity|]. split; [reflexivity|].
  split; [vm_compute; reflexivity|]. split; reflexivity.
Qed.

(** ** The hypotheses hold on a run *)

Definition reached (ops : list op) : World (P := Lru.state) (T := InlineService) :=
  default sample_start (run ops sample_start).

Lemma reached_inv ops :
  Forall op_wf ops -> (length ops <= 100)%nat ->
  em_inv (manager (reached ops)) /\ id_space (manager (reached ops)).
Proof.
  intros Hwf Hn. destruct sample_limits as (Hv & Hr & _).
  assert (3 * Z.of_nat (0 + length ops) + 6 <= u64_max) as Hlen by (unfold u64_max; lia).
  destruct (run_spec ops 0 _ (start_inv 100 200 Lru.empty (None : option InlineService) Hv Hr) Hwf Hlen)
    as (w & Hrun & Hw & _).
  unfold reached. unfold sample_start. rewrite Hrun. cbn. destruct Hw. split; [done|].
  unfold id_space, u64_max in *. lia.
Qed.

Definition registered2 : list op :=
  [OpRegister (sample_expert 1 Nvme); OpRegister (sample_expert 2 Nvme); OpRequest f64_zero 0 1].

Lemma registered2_inv : em_inv (manager (reached registered2)) /\ id_space (manager (reached registered2)).
Proof. apply reached_inv; [repeat constructor; vm_compute; discriminate|vm_compute; lia]. Qed.


Lemma request_granted_witness :
  exists m r s', experts_ (manager (reached registered2)) !! 2 = Some m /\
    requestExpert f64_zero 0 2 (manager (reached registered2)) = (Ok r, s') /\
    rr_expert r = set_location Vram (metadata m).
Proof.
  destruct registered2_inv as [Hs Hr].
  destruct (experts_ (manager (reached registered2)) !! 2) as [m|] eqn:Hk; [|vm_compute in Hk; discriminate Hk].
  assert (sizeBytes m = 60) as Hsize. { vm_compute in Hk. injection Hk as <-. reflexivity. }
  destruct (request_granted f64_zero 0 2 (manager (reached registered2)) m Hs Hr) as (r & s' & Hrun & Hex).
  - vm_compute. reflexivity.
  - exact Hk.
  - apply (bool_decide_unpack _). vm_compute. exact I.
  - rewrite Hsize. vm_compute. discriminate.
  - intros _. rewrite Hsize. vm_compute. discriminate.
  - exists m, r, s'. split; [reflexivity|]. split; [exact Hrun|exact Hex].
Defined.

Lemma evict_until_within_witness :
  exists n s', evictUntilWithin Vram 10 (manager (reached registered2)) = (Ok n, s') /\ n = 1 /\
    em_inv s' /\ usedBytes (vram_ (memory_ s')) = 0.
Proof.
  destruct registered2_inv as [Hs Hr].
  pose proof (evict_until_within Vram 10 (manager (reached registered2)) Hs Hr) as [_ [Hs' _]]. revert Hs'.
  destruct (evictUntilWithin Vram 10 (manager (reached registered2))) as [[n|e|] s'] eqn:Hrun; intros Hs';
    [|vm_compute in Hrun; discriminate Hrun..].
  exists n, s'. split; [reflexivity|]. vm_compute in Hrun. injection Hrun as <- <-.
  split; [reflexivity|]. split; [exact Hs'|vm_compute; reflexivity].
Defined.

Lemma prepare_residency_witness :
  exists s', prepareResidency 0 2 Vram (manager (reached registered2)) = (Ok tt, s') /\
    exists m, experts_ s' !! 2 = Some m /\ (location m = Vram \/ sizeBytes m <= availableBytes (usageFor (memory_ s') Vram)).
Proof.
  destruct registered2_inv as [Hs Hr]. pose proof (prepare_residency 0 2 Vram _ Hs Hr) as Hw. revert Hw.
  destruct (prepareResidency 0 2 Vram (manager (reached registered2))) as [[[]|e|] s'] eqn:Hrun; intros Hw;
    [|vm_compute in Hrun; discriminate Hrun..].
  exists s'. split; [reflexivity|]. destruct Hw as (m & _ & Hk & _ & Hav). exists m. split; [exact Hk|exact Hav].
Defined.

(** A third expert declared in VRAM, larger than it: the registration is rolled back. *)
Lemma register_expert_witness :
  exists e s', registerExpert (mkExpert 3 0 150 Fp32 Vram) (manager (reached registered2)) = (Throw e, s') /\
    em_inv s' /\ policyExperts_ s' = policyExperts_ (manager (reached registered2)) /\
    forall v, foreign v s' = foreign v (manager (reached registered2)).
Proof.
  destruct registered2_inv as [Hs Hr].
  assert (expert_wf (mkExpert 3 0 150 Fp32 Vram)) as Hwf by (repeat constructor; vm_compute; discriminate).
  pose proof (register_expert (mkExpert 3 0 150 Fp32 Vram) _ Hs Hwf Hr) as Hw. revert Hw.
  destruct (registerExpert (mkExpert 3 0 150 Fp32 Vram) (manager (reached registered2))) as [[r|e|] s'] eqn:Hrun; intros Hw;
    [vm_compute in Hrun; discriminate Hrun| |vm_compute in Hrun; discriminate Hrun].
  exists e, s'. split; [reflexivity|]. destruct Hw as (Hs' & _ & Hpol & _ & _ & _ & Hleak).
  split; [exact Hs'|]. split; [exact Hpol|]. apply Hleak. vm_compute. reflexivity.
Defined.

Definition adopted1 : list op := [OpRegister (sample_expert 1 Nvme); OpAdoptHost 0 1 (Some sample_buffer)].

Lemma adopted1_inv : em_inv (manager (reached adopted1)) /\ id_space (manager (reached adopted1)).
Proof. apply reached_inv; [repeat constructor; vm_compute; discriminate|vm_compute; lia]. Qed.

Lemma acquire_expert_witness :
  exists l s', acquire false 0 1 (manager (reached adopted1)) = (Ok l, s') /\ lease_valid l = true /\
    ls_hostBuffer_ l = Some sample_buffer.
Proof.
  destruct adopted1_inv as [Hs Hr]. pose proof (acquire_expert false 0 1 _ Hs Hr) as Hw. revert Hw.
  destruct (acquire false 0 1 (manager (reached adopted1))) as [[l|e|] s'] eqn:Hrun; intros Hw;
    [|vm_compute in Hrun; discriminate Hrun..].
  exists l, s'. split; [reflexivity|]. split; [exact (proj1 Hw)|].
  vm_compute in Hrun. injection Hrun as <- _. vm_compute. reflexivity.
Defined.

Lemma adopt_host_weights_witness :
  exists s' m', adoptHostWeights 0 1 (Some sample_buffer) (manager (reached registered2)) = (Ok tt, s') /\
    experts_ s' !! 1 = Some m' /\ location m' = Ram /\ hb_address <$> weights m' = Some 900.
Proof.
  destruct registered2_inv as [Hs Hr]. pose proof (adopt_host_weights 0 1 (Some sample_buffer) _ Hs Hr) as Hw. revert Hw.
  destruct (adoptHostWeights 0 1 (Some sample_buffer) (manager (reached registered2))) as [[[]|e|] s'] eqn:Hrun; intros Hw;
    [|vm_compute in Hrun; discriminate Hrun..].
  destruct Hw as (_ & _ & b & m & m' & Hb & _ & Hk' & _ & _ & Hl & Ha & _). exists s', m'.
  split; [reflexivity|]. split; [exact Hk'|]. split; [exact Hl|]. injection Hb as <-. exact Ha.
Defined.

Definition sample_device : DeviceBuffer := mkDevice 901 (Some cpu_backend) true (replicate 60 7).

Lemma adopt_device_weights_witness :
  exists s' m', adoptDeviceWeights 0 1 (Some sample_device) (manager (reached adopted1)) = (Ok tt, s') /\
    experts_ s' !! 1 = Some m' /\ location m' = Vram /\ db_address <$> deviceWeights m' = Some 901.
Proof.
  destruct adopted1_inv as [Hs Hr]. pose proof (adopt_device_weights 0 1 (Some sample_device) _ Hs Hr) as Hw. revert Hw.
  destruct (adoptDeviceWeights 0 1 (Some sample_device) (manager (reached adopted1))) as [[[]|e|] s'] eqn:Hrun; intros Hw;
    [|vm_compute in Hrun; discriminate Hrun..].
  destruct Hw as (_ & b & m & m' & Hb & _ & Hk' & _ & Hl & Ha & _). exists s', m'.
  split; [reflexivity|]. split; [exact Hk'|]. split; [exact Hl|]. injection Hb as <-. exact Ha.
Defined.

(** A service on a store that does not hold the expert. *)
Definition empty_service : InlineService :=
  mkInline (mkStore None (mkIndex [] [] ∅ ∅) [] "") (Forall_nil_2 _) MemoryMap cpu_backend no_faults (newTransferState 0).

Definition cold_start : World (P := Lru.state) (T := InlineService) :=
  default (start (newMemory 100 200) Lru.empty (Some empty_service))
    (run [OpRegister (sample_expert 1 Nvme)] (start (newMemory 100 200) Lru.empty (Some empty_service))).

Lemma cold_inv : em_inv (manager cold_start) /\ id_space (manager cold_start).
Proof.
  destruct sample_limits as (Hv & Hr & _).
  assert (Forall op_wf [OpRegister (sample_expert 1 Nvme)]) as Hwf by (repeat constructor; vm_compute; discriminate).
  destruct (run_spec _ 0 _ (start_inv 100 200 Lru.empty (Some empty_service) Hv Hr) Hwf) as (w & Hrun & Hw & _);
    [vm_compute; discriminate|].
  unfold cold_start. rewrite Hrun. cbn. destruct Hw. split; [done|]. unfold id_space, u64_max in *. cbn in *. lia.
Qed.

Lemma failed_load_leaks_witness :
  exists e s', moveExpert 0 1 Ram (manager cold_start) = (Throw e, s') /\
    foreign false s' = foreign false (manager cold_start) + 60.
Proof.
  destruct cold_inv as [Hs Hr].
  destruct (experts_ (manager cold_start) !! 1) as [m|] eqn:Hk; [|vm_compute in Hk; discriminate Hk].
  assert (m = new_entry (sample_expert 1 Nvme) 0 0) as ->. { vm_compute in Hk. injection Hk as <-. reflexivity. }
  destruct (submit_and_wait (disk_request 0 1) (empty_service, buffers_ (manager cold_start))) as [[r|e|] [t' b']] eqn:Hsub;
    [vm_compute in Hsub; discriminate Hsub| |vm_compute in Hsub; discriminate Hsub].
  destruct (failed_load_leaks 0 1 (manager cold_start) _ empty_service t' b' e Hs Hr Hk) as (s' & Hm & _ & Hf).
  - reflexivity.
  - vm_compute. reflexivity.
  - vm_compute. reflexivity.
  - vm_compute. discriminate.
  - exact Hsub.
  - exists e, s'. split; [exact Hm|exact Hf].
Defined.
