(* ===== verification/ExpertState.v ===== *)
(** * The residency state machine

    [src/scheduler/ExpertState.hpp] and [ExpertState.cpp]: the lifecycle of each
    expert the scheduler knows.  A method locks the machine, checks the state it
    may leave, and writes the new one; [now] is what [steady_clock::now()] reads. *)

From S2P Require Import Prelude Tiers.

Inductive ExpertLifecycleState : Type :=
  | Requested | Queued | Loading | Ready | InUse | Evicting | Failed.

#[global] Instance ExpertLifecycleState_eq_dec : EqDecision ExpertLifecycleState.
Proof. solve_decision. Defined.

Definition lifecycle_toString (state : ExpertLifecycleState) : string :=
  match state with
  | Requested => "REQUESTED" | Queued => "QUEUED" | Loading => "LOADING" | Ready => "READY"
  | InUse => "IN_USE" | Evicting => "EVICTING" | Failed => "FAILED"
  end.

Record ExpertState : Type := mkState {
  es_layerId : Z;
  es_id : Z;
  es_currentLocation : MemoryTier;
  es_targetLocation : MemoryTier;
  es_state : ExpertLifecycleState;
  es_lastUsed : Z;
  es_usageCount : Z;
}.

Definition set_lifecycle (st : ExpertLifecycleState) (e : ExpertState) : ExpertState :=
  mkState (es_layerId e) (es_id e) (es_currentLocation e) (es_targetLocation e) st (es_lastUsed e) (es_usageCount e).
Definition set_target (t : MemoryTier) (st : ExpertLifecycleState) (e : ExpertState) : ExpertState :=
  mkState (es_layerId e) (es_id e) (es_currentLocation e) t st (es_lastUsed e) (es_usageCount e).
Definition settle (location : MemoryTier) (lastUsed : Z) (e : ExpertState) : ExpertState :=
  mkState (es_layerId e) (es_id e) location location Ready lastUsed (es_usageCount e).

(** [expert.state != a && expert.state != b && ...] *)
Definition is_state (allowed : list ExpertLifecycleState) (e : ExpertState) : bool :=
  bool_decide (es_state e ∈ allowed).

Module StateMachine.
Notation t := (gmap Z ExpertState) (only parsing).

(** Look the expert up, check its state, write the new entry. *)
Definition transition (layerId id : Z) (allowed : list ExpertLifecycleState) (message : string)
    (f : ExpertState -> ExpertState) : ST t unit :=
  (states <- st_get ;;
   match states !! pack_key layerId id with
   | None => throw (Exn OutOfRange "expert state is not registered")
   | Some expert =>
       lift (throw_if (negb (is_state allowed expert)) (Exn LogicError message)) ;;;
       modify (<[pack_key layerId id := f expert]>)
   end)%st.

Definition any_state : list ExpertLifecycleState :=
  [Requested; Queued; Loading; Ready; InUse; Evicting; Failed].

Definition registerExpert (layerId id : Z) (location : MemoryTier) (now : Z) : ST t unit :=
  (states <- st_get ;;
   lift (throw_if (bool_decide (is_Some (states !! pack_key layerId id)))
     (Exn InvalidArgument "expert state is already registered")) ;;;
   modify (<[pack_key layerId id := mkState layerId id location location Ready now 0]>))%st.

Definition request (layerId id : Z) (target : MemoryTier) : ST t unit :=
  transition layerId id [Ready; Failed] "expert cannot be requested during its current transition"
    (set_target target Requested).

Definition markQueued (layerId id : Z) : ST t unit :=
  transition layerId id [Requested] "only a requested expert can become queued" (set_lifecycle Queued).

Definition markLoading (layerId id : Z) : ST t unit :=
  transition layerId id [Queued] "only a queued expert can start loading" (set_lifecycle Loading).

Definition markReady (layerId id : Z) (location : MemoryTier) (now : Z) : ST t unit :=
  transition layerId id [Loading; Evicting; Requested] "expert cannot become ready from its current state"
    (settle location now).

Definition acquire (layerId id : Z) (now : Z) : ST t unit :=
  transition layerId id [Ready] "only a ready expert can enter use"
    (fun e => mkState (es_layerId e) (es_id e) (es_currentLocation e) (es_targetLocation e) InUse now
                (wrap64 (es_usageCount e + 1))).

Definition release (layerId id : Z) (now : Z) : ST t unit :=
  transition layerId id [InUse] "only an in-use expert can be released"
    (fun e => mkState (es_layerId e) (es_id e) (es_currentLocation e) (es_targetLocation e) Ready now
                (es_usageCount e)).

Definition beginEviction (layerId id : Z) (target : MemoryTier) : ST t unit :=
  transition layerId id [Ready] "only a ready expert can be evicted" (set_target target Evicting).

Definition markFailed (layerId id : Z) : ST t unit :=
  transition layerId id any_state "" (set_lifecycle Failed).

Definition reconcile (layerId id : Z) (location : MemoryTier) : ST t unit :=
  transition layerId id [Requested; Ready; Failed] "cannot reconcile an active expert"
    (fun e => settle location (es_lastUsed e) e).

Definition snapshot (layerId id : Z) (states : t) : result ExpertState :=
  match states !! pack_key layerId id with
  | None => Throw (Exn OutOfRange "expert state is not registered")
  | Some e => Ok e
  end.

(** [snapshots] lists the entries in the order of the hash table, which the model
    leaves to the map. *)
Definition snapshots (states : t) : list ExpertState := (map_to_list states).*2.

(** ** Runs *)

Inductive step : t -> t -> Prop :=
  | step_register s l i loc now : is_u32 l -> is_u32 i -> step s (snd (registerExpert l i loc now s))
  | step_request s l i target : step s (snd (request l i target s))
  | step_markQueued s l i : step s (snd (markQueued l i s))
  | step_markLoading s l i : step s (snd (markLoading l i s))
  | step_markReady s l i loc now : step s (snd (markReady l i loc now s))
  | step_acquire s l i now : step s (snd (acquire l i now s))
  | step_release s l i now : step s (snd (release l i now s))
  | step_beginEviction s l i target : step s (snd (beginEviction l i target s))
  | step_markFailed s l i : step s (snd (markFailed l i s))
  | step_reconcile s l i loc : step s (snd (reconcile l i loc s)).

(** ** The specification: the lifecycle graph *)

Inductive edge : ExpertLifecycleState -> ExpertLifecycleState -> Prop :=
  | edge_request_ready : edge Ready Requested
  | edge_request_failed : edge Failed Requested
  | edge_queue : edge Requested Queued
  | edge_load : edge Queued Loading
  | edge_loaded : edge Loading Ready
  | edge_evicted : edge Evicting Ready
  | edge_skip : edge Requested Ready
  | edge_acquire : edge Ready InUse
  | edge_release : edge InUse Ready
  | edge_evict : edge Ready Evicting
  | edge_fail st : edge st Failed
  | edge_reconcile_ready : edge Ready Ready
  | edge_reconcile_failed : edge Failed Ready.

(** An expert at rest is where it was last told to be. *)
Definition entry_ok (k : Z) (e : ExpertState) : Prop :=
  k = pack_key (es_layerId e) (es_id e) /\ is_u32 (es_layerId e) /\ is_u32 (es_id e) /\
  (es_state e = Ready \/ es_state e = InUse -> es_currentLocation e = es_targetLocation e).

Definition sm_inv (s : t) : Prop := map_Forall entry_ok s.

(** One entry follows one edge, or nothing changed. *)
Definition moved (s s' : t) : Prop :=
  s' = s \/
  (exists k e e', s !! k = Some e /\ s' = <[k := e']> s /\ edge (es_state e) (es_state e') /\
     es_layerId e' = es_layerId e /\ es_id e' = es_id e) \/
  (exists l i loc now, s !! pack_key l i = None /\
     s' = <[pack_key l i := mkState l i loc loc Ready now 0]> s).

Lemma wp_transition l i allowed msg f (s : t) (Q : unit -> t -> Prop) E :
  (forall e, s !! pack_key l i = Some e -> es_state e ∈ allowed -> Q tt (<[pack_key l i := f e]> s)) ->
  (s !! pack_key l i = None -> E (Exn OutOfRange "expert state is not registered") s) ->
  (forall e, s !! pack_key l i = Some e -> es_state e ∉ allowed -> E (Exn LogicError msg) s) ->
  wp (transition l i allowed msg f) s Q E.
Proof.
  intros HQ Hn HE. unfold transition. wp_step. wp_step.
  destruct (s !! pack_key l i) as [e|] eqn:He; [|wp_step; auto].
  wp_step. unfold is_state. wp_step.
  - apply negb_true_iff, bool_decide_eq_false in H. eauto.
  - apply negb_false_iff, bool_decide_eq_true in H. wp_step. eauto.
Qed.

(** What a transition does, whatever its guard. *)
Lemma transition_snd l i allowed msg f (s : t) :
  snd (transition l i allowed msg f s) = s \/
  exists e, s !! pack_key l i = Some e /\ es_state e ∈ allowed /\
    snd (transition l i allowed msg f s) = <[pack_key l i := f e]> s.
Proof.
  assert (wp (transition l i allowed msg f) s
    (fun _ s' => exists e, s !! pack_key l i = Some e /\ es_state e ∈ allowed /\ s' = <[pack_key l i := f e]> s)
    (fun _ s' => s' = s)) as Hw by (apply wp_transition; eauto).
  destruct (wp_result _ _ _ _ Hw) as [(a & s' & -> & Ha)|(e & s' & -> & He)]; cbn; [right|by left].
  destruct Ha as (x & ? & ? & ->). eauto.
Qed.

Lemma transition_moved l i allowed msg f (s : t) :
  (forall e, s !! pack_key l i = Some e -> es_state e ∈ allowed ->
     edge (es_state e) (es_state (f e)) /\ es_layerId (f e) = es_layerId e /\ es_id (f e) = es_id e) ->
  moved s (snd (transition l i allowed msg f s)).
Proof.
  intros Hf. destruct (transition_snd l i allowed msg f s) as [->|(e & He & Ha & ->)]; [by left|right; left].
  destruct (Hf e He Ha) as (? & ? & ?). exists (pack_key l i), e, (f e). done.
Qed.

Lemma transition_inv l i allowed msg f (s : t) :
  sm_inv s ->
  (forall e, s !! pack_key l i = Some e -> es_state e ∈ allowed -> entry_ok (pack_key l i) e -> entry_ok (pack_key l i) (f e)) ->
  sm_inv (snd (transition l i allowed msg f s)).
Proof.
  intros Hs Hf. destruct (transition_snd l i allowed msg f s) as [->|(e & He & Ha & ->)]; [done|].
  apply map_Forall_insert_2; [|done]. auto.
Qed.

(** Case analysis on a membership in a literal list. *)
Ltac in_list H :=
  rewrite ?elem_of_cons, ?elem_of_nil in H; destruct_or? H; try done; try rewrite H.

Lemma register_snd l i loc now (s : t) :
  snd (registerExpert l i loc now s) = s \/
  (s !! pack_key l i = None /\
   snd (registerExpert l i loc now s) = <[pack_key l i := mkState l i loc loc Ready now 0]> s).
Proof.
  unfold registerExpert, st_bind, st_get, lift, throw_if, modify. cbn.
  destruct (s !! pack_key l i) eqn:Hk; cbn; [by left|by right].
Qed.

Lemma step_moved s s' : step s s' -> moved s s'.
Proof.
  intros [s0 l i loc now Hl Hi| | | | | | | | | ].
  { destruct (register_snd l i loc now s0) as [->|[Hn ->]]; [by left|]. right. right. eauto 6. }
  all: unfold request, markQueued, markLoading, markReady, acquire, release, beginEviction, markFailed, reconcile;
    apply transition_moved; intros e He Ha; cbn; unfold any_state in *; in_list Ha;
    (split; [once constructor|split; reflexivity]).
Qed.

Lemma step_inv s s' : step s s' -> sm_inv s -> sm_inv s'.
Proof.
  intros [s0 l i loc now Hl Hi| | | | | | | | | ] Hs.
  { destruct (register_snd l i loc now s0) as [->|[Hn ->]]; [done|]. by apply map_Forall_insert_2. }
  all: unfold request, markQueued, markLoading, markReady, acquire, release, beginEviction, markFailed, reconcile;
    apply transition_inv; [done|]; intros e He Ha (? & ? & ? & Hl);
    (split; [done|]); (split; [done|]); (split; [done|]); cbn;
    first [done | intros [?|?]; discriminate | intros _; apply Hl; in_list Ha; auto].
Qed.
End StateMachine.

(** ** What the lifecycle guarantees *)

Lemma step_entry s s' k e :
  StateMachine.step s s' -> s !! k = Some e -> exists e', s' !! k = Some e' /\
    (e' = e \/ StateMachine.edge (es_state e) (es_state e')).
Proof.
  intros Hstep Hk. destruct (StateMachine.step_moved s s' Hstep)
    as [->|[(k0 & x & x' & Hx & -> & He & _)|(l & i & loc & now & Hn & ->)]]; [by eauto|..].
  - destruct (decide (k = k0)) as [->|Hne].
    + assert (x = e) as -> by congruence. exists x'. rewrite lookup_insert_eq. auto.
    + exists e. rewrite lookup_insert_ne by done. auto.
  - exists e. rewrite lookup_insert_ne; [auto|]. congruence.
Qed.

(** Whatever calls are made, experts stay registered under their own key, one
    call moves at most one expert along one edge of the lifecycle graph, and an
    expert that is ready or in use is at the location it was last sent to. *)
Theorem lifecycle_safe (s s' : StateMachine.t) :
  rtc StateMachine.step ∅ s -> StateMachine.step s s' ->
  StateMachine.moved s s' /\ map_Forall StateMachine.entry_ok s'.
Proof.
  intros Hrun Hstep. split; [by apply StateMachine.step_moved|].
  eapply StateMachine.step_inv; [done|].
  eapply (rtc_preserves _ StateMachine.sm_inv _ _ StateMachine.step_inv Hrun), map_Forall_empty.
Qed.

(** nothing but a release or a failure takes an expert out of use, and neither
    changes where it is: a request, an eviction or a reconciliation of an expert in
    use is refused. *)
Theorem in_use_stays (s s' : StateMachine.t) (k : Z) (e : ExpertState) :
  StateMachine.step s s' -> s !! k = Some e -> es_state e = InUse ->
  exists e', s' !! k = Some e' /\ es_currentLocation e' = es_currentLocation e /\
    es_targetLocation e' = es_targetLocation e /\ es_usageCount e' = es_usageCount e /\
    (e' = e \/ es_state e' = Ready \/ es_state e' = Failed).
Proof.
  intros [s0 l i loc now Hl Hi| | | | | | | | | ] Hk Hu.
  { destruct (StateMachine.register_snd l i loc now s0) as [->|[Hn ->]]; [by eauto 8|].
    exists e. rewrite lookup_insert_ne by congruence. auto 8. }
  all: unfold StateMachine.request, StateMachine.markQueued, StateMachine.markLoading, StateMachine.markReady,
    StateMachine.acquire, StateMachine.release, StateMachine.beginEviction, StateMachine.markFailed, StateMachine.reconcile;
    match goal with |- context [StateMachine.transition ?l ?i ?al ?m ?f ?s] =>
      destruct (StateMachine.transition_snd l i al m f s) as [->|(x & Hx & Ha & ->)] end; [by eauto 8|];
    match goal with |- context [<[?j := _]> _] => destruct (decide (k = j)) as [->|Hne] end;
    [assert (x = e) as -> by congruence; rewrite Hu in Ha; eexists; rewrite lookup_insert_eq; split; [done|];
     cbn; first [by auto 6|exfalso; set_solver]
    |exists e; rewrite lookup_insert_ne by done; by auto 8].
Qed.

Definition one_ready : StateMachine.t := snd (StateMachine.registerExpert 0 1 Ram 5 ∅).

Lemma lifecycle_safe_witness :
  StateMachine.moved one_ready (snd (StateMachine.acquire 0 1 6 one_ready)) /\
  map_Forall StateMachine.entry_ok (snd (StateMachine.acquire 0 1 6 one_ready)).
Proof.
  apply lifecycle_safe.
  - eapply rtc_l; [apply (StateMachine.step_register ∅ 0 1 Ram 5); unfold is_u32, u32_max; lia|apply rtc_refl].
  - apply StateMachine.step_acquire.
Defined.

Lemma in_use_stays_witness :
  exists e e', snd (StateMachine.acquire 0 1 6 one_ready) !! 1 = Some e /\
    snd (StateMachine.beginEviction 0 1 Nvme (snd (StateMachine.acquire 0 1 6 one_ready))) !! 1 = Some e' /\
    es_currentLocation e' = Ram.
Proof.
  destruct (snd (StateMachine.acquire 0 1 6 one_ready) !! 1) as [e|] eqn:He; [|vm_compute in He; discriminate He].
  assert (e = mkState 0 1 Ram Ram InUse 6 1) as Heq by (vm_compute in He; injection He as <-; reflexivity).
  destruct (in_use_stays _ _ 1 e (StateMachine.step_beginEviction _ 0 1 Nvme) He) as (e' & Hk & Hl & _).
  - rewrite Heq. reflexivity.
  - exists e, e'. split; [reflexivity|]. split; [exact Hk|]. rewrite Hl, Heq. reflexivity.
Defined.
