(* ===== verification/Scheduler.v ===== *)
(** * The scheduler

    [src/scheduler/Scheduler.hpp], [Scheduler.cpp], [RuntimeEvent.*] and
    [Prefetcher.*].  Clients schedule moves of experts; a request for an expert that
    already has a pending task joins it; worker threads take the most urgent live
    entry, drive the state machine through the transfer, and set the task's future.
    Tasks are shared objects ([std::shared_ptr<Task>]): they live in a store and the
    queue, the pending table and the handles hold their addresses. *)

From S2P Require Import Prelude Float Tiers MemoryManager Bytes ExpertIndex ExpertStore Transfer ExpertState.

(** ** Runtime events *)

Inductive RuntimeEventType : Type :=
  | ExpertRequested | TransferStarted | TransferCompleted | ExpertReady | CacheEvicted
  | TransferFailed | CudaTransferStarted | CudaTransferCompleted | CudaKernelStarted | CudaKernelCompleted.

Definition event_toString (type : RuntimeEventType) : string :=
  match type with
  | ExpertRequested => "EXPERT_REQUESTED" | TransferStarted => "TRANSFER_STARTED"
  | TransferCompleted => "TRANSFER_COMPLETED" | ExpertReady => "EXPERT_READY"
  | CacheEvicted => "CACHE_EVICTED" | TransferFailed => "TRANSFER_FAILED"
  | CudaTransferStarted => "CUDA_TRANSFER_STARTED" | CudaTransferCompleted => "CUDA_TRANSFER_COMPLETED"
  | CudaKernelStarted => "CUDA_KERNEL_STARTED" | CudaKernelCompleted => "CUDA_KERNEL_COMPLETED"
  end.

Record RuntimeEvent : Type := mkEvent {
  ev_type : RuntimeEventType;
  ev_expertId : Z;
  ev_layerId : Z;
  ev_source : MemoryTier;
  ev_destination : MemoryTier;
  ev_message : string;
}.

(** A callback is the number of a client function; what the bus calls is logged.
    An exception of a subscriber is swallowed, so a call has no other effect here. *)
Record RuntimeEventBus : Type := mkBus {
  subscribers_ : gmap Z Z;
  nextId_ : Z;
  delivered_ : list (Z * RuntimeEvent);
}.

Definition newEventBus : RuntimeEventBus := mkBus ∅ 1 [].

Definition subscribe (callback : option Z) : ST RuntimeEventBus Z :=
  match callback with
  | None => throw (Exn InvalidArgument "event callback must be callable")
  | Some c =>
      (b <- st_get ;;
       modify (fun b => mkBus (emplace (nextId_ b) c (subscribers_ b)) (wrap64 (nextId_ b + 1)) (delivered_ b)) ;;;
       ret (nextId_ b))%st
  end.

Definition unsubscribe (id : Z) : ST RuntimeEventBus bool :=
  (b <- st_get ;;
   modify (fun b => mkBus (delete id (subscribers_ b)) (nextId_ b) (delivered_ b)) ;;;
   ret (bool_decide (is_Some (subscribers_ b !! id))))%st.

Definition publish_event (event : RuntimeEvent) (b : RuntimeEventBus) : RuntimeEventBus :=
  mkBus (subscribers_ b) (nextId_ b)
    (delivered_ b ++ ((fun kv => (kv.2, event)) <$> map_to_list (subscribers_ b))).

(** ** Requests, results, tasks *)

Inductive TransferPriority : Type :=
  | BackgroundMaintenance | CacheWarming | PredictedNextLayer | ActiveInference.

#[global] Instance TransferPriority_eq_dec : EqDecision TransferPriority.
Proof. solve_decision. Defined.

(** [static_cast<int>(priority)] *)
Definition priority_code (p : TransferPriority) : Z :=
  match p with
  | BackgroundMaintenance => 100 | CacheWarming => 200
  | PredictedNextLayer => 300 | ActiveInference => 400
  end.

Record ScheduleRequest : Type := mkSchedule {
  sr_layerId : Z;
  sr_expertId : Z;
  sr_source : MemoryTier;
  sr_destination : MemoryTier;
  sr_priority : TransferPriority;
  sr_hostBuffer : option HostBuffer;
  sr_pinnedBuffer : option PinnedBuffer;
  sr_deviceBuffer : option DeviceBuffer;
  sr_eviction : bool;
  sr_priorityScore : f64;
}.

Definition request_key (r : ScheduleRequest) : Z := pack_key (sr_layerId r) (sr_expertId r).

Record ScheduleResult : Type := mkScheduleResult {
  sx_success : bool;
  sx_cancelled : bool;
  sx_transfer : TransferResult;
  sx_state : ExpertState;
  sx_error : string;
}.

(** [ExpertState{}] *)
Definition default_state : ExpertState := mkState 0 0 Nvme Nvme Ready 0 0.

Record ScheduleTask : Type := mkScheduleTask {
  sk_request : ScheduleRequest;
  sk_callbacks : list Z;
  sk_promise : option ScheduleResult;
  sk_cancelled : bool;
  sk_generation : Z;
  sk_started : bool;
  sk_completed : bool;
  sk_prefetchRequest : bool;
  sk_activeConsumer : bool;
}.

Record QueueEntry : Type := mkEntry {
  qe_task : Z;
  qe_priority : TransferPriority;
  qe_sequence : Z;
  qe_generation : Z;
  qe_priorityScore : f64;
}.

(** The counters of the profiler the scheduler touches. *)
Record PrefetchMetrics : Type := mkMetrics {
  mt_prefetchRequests : Z;
  mt_prefetchHits : Z;
  mt_prefetchMisses : Z;
  mt_prefetchUseful : Z;
  mt_prefetchWasted : Z;
  mt_prefetchLate : Z;
  mt_transferQueueDepth : Z;
  mt_peakTransferQueueDepth : Z;
  mt_nvmeReads : Z;
  mt_nvmeBytes : Z;
  mt_ramToVramBytes : Z;
  mt_queueWaitSamples : Z;
}.

(** What a client holds: the shared future of a task, or a future that is ready. *)
Inductive ScheduleHandle : Type :=
  | HTask (t : Z)
  | HReady (r : ScheduleResult).

Record Scheduler : Type := mkScheduler {
  transfers_cuda : bool;   (* [transfers_->backendKind() == Cuda] *)
  prefetchDestination_ : MemoryTier;
  maximumPrefetchBytes_ : Z;
  profiler_ : option PrefetchMetrics;
  states_ : gmap Z ExpertState;
  events_ : RuntimeEventBus;
  tasks_ : gmap Z ScheduleTask;  (* the tasks made so far, by address *)
  nextTask_ : Z;
  queue_ : list QueueEntry;
  pendingByExpert_ : gmap Z Z;
  residentTransfers_ : gmap Z TransferResult;
  prefetchedReady_ : gset Z;
  nextSequence_ : Z;
  stopping_ : bool;
  called_ : list (Z * ScheduleResult);  (* completion callbacks made, in order *)
}.

(** The constructor; its workers are the steps of the system below. *)
Definition newScheduler (cuda : bool) (profiler : option PrefetchMetrics) (workerCount : Z)
    (prefetchDestination : MemoryTier) (maximumPrefetchBytes : Z) : result Scheduler :=
  (throw_if (workerCount =? 0) (Exn InvalidArgument "Scheduler requires a worker") ;;?
   throw_if ((negb (tier_eqb prefetchDestination Ram) && negb (tier_eqb prefetchDestination Vram)) ||
             (maximumPrefetchBytes =? 0))
     (Exn InvalidArgument "invalid scheduler prefetch budget or tier") ;;?
   Ok (mkScheduler cuda prefetchDestination maximumPrefetchBytes profiler ∅ newEventBus ∅ 0 [] ∅ ∅ ∅ 0 false []))%res.

(** ** Access to the parts of the state *)

Definition set_states (x : gmap Z ExpertState) (s : Scheduler) : Scheduler :=
  mkScheduler (transfers_cuda s) (prefetchDestination_ s) (maximumPrefetchBytes_ s) (profiler_ s) x (events_ s)
    (tasks_ s) (nextTask_ s) (queue_ s) (pendingByExpert_ s) (residentTransfers_ s) (prefetchedReady_ s)
    (nextSequence_ s) (stopping_ s) (called_ s).
Definition with_events (f : RuntimeEventBus -> RuntimeEventBus) (s : Scheduler) : Scheduler :=
  mkScheduler (transfers_cuda s) (prefetchDestination_ s) (maximumPrefetchBytes_ s) (profiler_ s) (states_ s) (f (events_ s))
    (tasks_ s) (nextTask_ s) (queue_ s) (pendingByExpert_ s) (residentTransfers_ s) (prefetchedReady_ s)
    (nextSequence_ s) (stopping_ s) (called_ s).
Definition with_metrics (f : PrefetchMetrics -> PrefetchMetrics) (s : Scheduler) : Scheduler :=
  mkScheduler (transfers_cuda s) (prefetchDestination_ s) (maximumPrefetchBytes_ s) (f <$> profiler_ s) (states_ s) (events_ s)
    (tasks_ s) (nextTask_ s) (queue_ s) (pendingByExpert_ s) (residentTransfers_ s) (prefetchedReady_ s)
    (nextSequence_ s) (stopping_ s) (called_ s).
Definition with_tasks (f : gmap Z ScheduleTask -> gmap Z ScheduleTask) (s : Scheduler) : Scheduler :=
  mkScheduler (transfers_cuda s) (prefetchDestination_ s) (maximumPrefetchBytes_ s) (profiler_ s) (states_ s) (events_ s)
    (f (tasks_ s)) (nextTask_ s) (queue_ s) (pendingByExpert_ s) (residentTransfers_ s) (prefetchedReady_ s)
    (nextSequence_ s) (stopping_ s) (called_ s).
Definition set_queue (q : list QueueEntry) (s : Scheduler) : Scheduler :=
  mkScheduler (transfers_cuda s) (prefetchDestination_ s) (maximumPrefetchBytes_ s) (profiler_ s) (states_ s) (events_ s)
    (tasks_ s) (nextTask_ s) q (pendingByExpert_ s) (residentTransfers_ s) (prefetchedReady_ s)
    (nextSequence_ s) (stopping_ s) (called_ s).
Definition with_pending (f : gmap Z Z -> gmap Z Z) (s : Scheduler) : Scheduler :=
  mkScheduler (transfers_cuda s) (prefetchDestination_ s) (maximumPrefetchBytes_ s) (profiler_ s) (states_ s) (events_ s)
    (tasks_ s) (nextTask_ s) (queue_ s) (f (pendingByExpert_ s)) (residentTransfers_ s) (prefetchedReady_ s)
    (nextSequence_ s) (stopping_ s) (called_ s).
Definition with_resident (f : gmap Z TransferResult -> gmap Z TransferResult) (s : Scheduler) : Scheduler :=
  mkScheduler (transfers_cuda s) (prefetchDestination_ s) (maximumPrefetchBytes_ s) (profiler_ s) (states_ s) (events_ s)
    (tasks_ s) (nextTask_ s) (queue_ s) (pendingByExpert_ s) (f (residentTransfers_ s)) (prefetchedReady_ s)
    (nextSequence_ s) (stopping_ s) (called_ s).
Definition with_prefetched (f : gset Z -> gset Z) (s : Scheduler) : Scheduler :=
  mkScheduler (transfers_cuda s) (prefetchDestination_ s) (maximumPrefetchBytes_ s) (profiler_ s) (states_ s) (events_ s)
    (tasks_ s) (nextTask_ s) (queue_ s) (pendingByExpert_ s) (residentTransfers_ s) (f (prefetchedReady_ s))
    (nextSequence_ s) (stopping_ s) (called_ s).
Definition add_called (c : list (Z * ScheduleResult)) (s : Scheduler) : Scheduler :=
  mkScheduler (transfers_cuda s) (prefetchDestination_ s) (maximumPrefetchBytes_ s) (profiler_ s) (states_ s) (events_ s)
    (tasks_ s) (nextTask_ s) (queue_ s) (pendingByExpert_ s) (residentTransfers_ s) (prefetchedReady_ s)
    (nextSequence_ s) (stopping_ s) (called_ s ++ c).
(** A new task, and its queue entry's number. *)
Definition allocate_task (task : ScheduleTask) (s : Scheduler) : Scheduler :=
  mkScheduler (transfers_cuda s) (prefetchDestination_ s) (maximumPrefetchBytes_ s) (profiler_ s) (states_ s) (events_ s)
    (<[nextTask_ s := task]> (tasks_ s)) (nextTask_ s + 1) (queue_ s) (pendingByExpert_ s) (residentTransfers_ s)
    (prefetchedReady_ s) (nextSequence_ s) (stopping_ s) (called_ s).
Definition push (t : Z) (task : ScheduleTask) (s : Scheduler) : Scheduler :=
  mkScheduler (transfers_cuda s) (prefetchDestination_ s) (maximumPrefetchBytes_ s) (profiler_ s) (states_ s) (events_ s)
    (tasks_ s) (nextTask_ s)
    (queue_ s ++ [mkEntry t (sr_priority (sk_request task)) (nextSequence_ s) (sk_generation task)
                    (sr_priorityScore (sk_request task))])
    (pendingByExpert_ s) (residentTransfers_ s) (prefetchedReady_ s)
    (wrap64 (nextSequence_ s + 1)) (stopping_ s) (called_ s).
Definition set_stopping (s : Scheduler) : Scheduler :=
  mkScheduler (transfers_cuda s) (prefetchDestination_ s) (maximumPrefetchBytes_ s) (profiler_ s) (states_ s) (events_ s)
    (tasks_ s) (nextTask_ s) (queue_ s) (pendingByExpert_ s) (residentTransfers_ s) (prefetchedReady_ s)
    (nextSequence_ s) true (called_ s).

(** A call of the state machine. *)
Definition on_states {A} (m : ST (gmap Z ExpertState) A) : ST Scheduler A :=
  fun s => let '(r, st) := m (states_ s) in (r, set_states st s).

(** Reading through a task pointer. *)
Definition deref_task (t : Z) : ST Scheduler ScheduleTask :=
  (s <- st_get ;; match tasks_ s !! t with Some task => ret task | None => diverge end)%st.

(** [if (profiler_) profiler_->...] *)
Definition profile (f : PrefetchMetrics -> PrefetchMetrics) : ST Scheduler unit := modify (with_metrics f).

(** ** The profiler's counters *)

Definition recordPrefetchRequest (m : PrefetchMetrics) : PrefetchMetrics :=
  mkMetrics (wrap64 (mt_prefetchRequests m + 1)) (mt_prefetchHits m) (mt_prefetchMisses m) (mt_prefetchUseful m)
    (mt_prefetchWasted m) (mt_prefetchLate m) (mt_transferQueueDepth m) (mt_peakTransferQueueDepth m)
    (mt_nvmeReads m) (mt_nvmeBytes m) (mt_ramToVramBytes m) (mt_queueWaitSamples m).
Definition recordPrefetchHit (m : PrefetchMetrics) : PrefetchMetrics :=
  mkMetrics (mt_prefetchRequests m) (wrap64 (mt_prefetchHits m + 1)) (mt_prefetchMisses m) (mt_prefetchUseful m)
    (mt_prefetchWasted m) (mt_prefetchLate m) (mt_transferQueueDepth m) (mt_peakTransferQueueDepth m)
    (mt_nvmeReads m) (mt_nvmeBytes m) (mt_ramToVramBytes m) (mt_queueWaitSamples m).
Definition recordPrefetchMiss (m : PrefetchMetrics) : PrefetchMetrics :=
  mkMetrics (mt_prefetchRequests m) (mt_prefetchHits m) (wrap64 (mt_prefetchMisses m + 1)) (mt_prefetchUseful m)
    (mt_prefetchWasted m) (mt_prefetchLate m) (mt_transferQueueDepth m) (mt_peakTransferQueueDepth m)
    (mt_nvmeReads m) (mt_nvmeBytes m) (mt_ramToVramBytes m) (mt_queueWaitSamples m).
Definition recordPrefetchUseful (m : PrefetchMetrics) : PrefetchMetrics :=
  mkMetrics (mt_prefetchRequests m) (mt_prefetchHits m) (mt_prefetchMisses m) (wrap64 (mt_prefetchUseful m + 1))
    (mt_prefetchWasted m) (mt_prefetchLate m) (mt_transferQueueDepth m) (mt_peakTransferQueueDepth m)
    (mt_nvmeReads m) (mt_nvmeBytes m) (mt_ramToVramBytes m) (mt_queueWaitSamples m).
Definition recordPrefetchWasted (count : Z) (m : PrefetchMetrics) : PrefetchMetrics :=
  mkMetrics (mt_prefetchRequests m) (mt_prefetchHits m) (mt_prefetchMisses m) (mt_prefetchUseful m)
    (wrap64 (mt_prefetchWasted m + count)) (mt_prefetchLate m) (mt_transferQueueDepth m) (mt_peakTransferQueueDepth m)
    (mt_nvmeReads m) (mt_nvmeBytes m) (mt_ramToVramBytes m) (mt_queueWaitSamples m).
Definition recordPrefetchLate (m : PrefetchMetrics) : PrefetchMetrics :=
  mkMetrics (mt_prefetchRequests m) (mt_prefetchHits m) (mt_prefetchMisses m) (mt_prefetchUseful m)
    (mt_prefetchWasted m) (wrap64 (mt_prefetchLate m + 1)) (mt_transferQueueDepth m) (mt_peakTransferQueueDepth m)
    (mt_nvmeReads m) (mt_nvmeBytes m) (mt_ramToVramBytes m) (mt_queueWaitSamples m).
Definition observeTransferQueueDepth (depth : Z) (m : PrefetchMetrics) : PrefetchMetrics :=
  mkMetrics (mt_prefetchRequests m) (mt_prefetchHits m) (mt_prefetchMisses m) (mt_prefetchUseful m)
    (mt_prefetchWasted m) (mt_prefetchLate m) depth (Z.max (mt_peakTransferQueueDepth m) depth)
    (mt_nvmeReads m) (mt_nvmeBytes m) (mt_ramToVramBytes m) (mt_queueWaitSamples m).
Definition recordNvmeRead (bytes : Z) (m : PrefetchMetrics) : PrefetchMetrics :=
  mkMetrics (mt_prefetchRequests m) (mt_prefetchHits m) (mt_prefetchMisses m) (mt_prefetchUseful m)
    (mt_prefetchWasted m) (mt_prefetchLate m) (mt_transferQueueDepth m) (mt_peakTransferQueueDepth m)
    (wrap64 (mt_nvmeReads m + 1)) (wrap64 (mt_nvmeBytes m + bytes)) (mt_ramToVramBytes m) (mt_queueWaitSamples m).
Definition recordRamToVram (bytes : Z) (m : PrefetchMetrics) : PrefetchMetrics :=
  mkMetrics (mt_prefetchRequests m) (mt_prefetchHits m) (mt_prefetchMisses m) (mt_prefetchUseful m)
    (mt_prefetchWasted m) (mt_prefetchLate m) (mt_transferQueueDepth m) (mt_peakTransferQueueDepth m)
    (mt_nvmeReads m) (mt_nvmeBytes m) (wrap64 (mt_ramToVramBytes m + bytes)) (mt_queueWaitSamples m).
Definition recordQueueWait (m : PrefetchMetrics) : PrefetchMetrics :=
  mkMetrics (mt_prefetchRequests m) (mt_prefetchHits m) (mt_prefetchMisses m) (mt_prefetchUseful m)
    (mt_prefetchWasted m) (mt_prefetchLate m) (mt_transferQueueDepth m) (mt_peakTransferQueueDepth m)
    (mt_nvmeReads m) (mt_nvmeBytes m) (mt_ramToVramBytes m) (wrap64 (mt_queueWaitSamples m + 1)).

(** ** Updates of a task *)

Definition join_callback (callback : option Z) (active : bool) (task : ScheduleTask) : ScheduleTask :=
  mkScheduleTask (sk_request task)
    (match callback with Some c => sk_callbacks task ++ [c] | None => sk_callbacks task end)
    (sk_promise task) (sk_cancelled task) (sk_generation task) (sk_started task) (sk_completed task)
    (sk_prefetchRequest task) (active || sk_activeConsumer task).
Definition set_active (task : ScheduleTask) : ScheduleTask := join_callback None true task.

Definition set_urgency (priority : TransferPriority) (score : f64) (r : ScheduleRequest) : ScheduleRequest :=
  mkSchedule (sr_layerId r) (sr_expertId r) (sr_source r) (sr_destination r) priority (sr_hostBuffer r)
    (sr_pinnedBuffer r) (sr_deviceBuffer r) (sr_eviction r) score.

(** The priority raised, the score raised, and a new generation. *)
Definition promote_task (higher : bool) (request : ScheduleRequest) (task : ScheduleTask) : ScheduleTask :=
  mkScheduleTask
    (set_urgency (if higher then sr_priority request else sr_priority (sk_request task))
       (fmax (sr_priorityScore (sk_request task)) (sr_priorityScore request)) (sk_request task))
    (sk_callbacks task) (sk_promise task) (sk_cancelled task) (wrap64 (sk_generation task + 1))
    (sk_started task) (sk_completed task) (sk_prefetchRequest task) (sk_activeConsumer task).

Definition set_started (task : ScheduleTask) : ScheduleTask :=
  mkScheduleTask (sk_request task) (sk_callbacks task) (sk_promise task) (sk_cancelled task) (sk_generation task)
    true (sk_completed task) (sk_prefetchRequest task) (sk_activeConsumer task).
Definition set_cancelled (task : ScheduleTask) : ScheduleTask :=
  mkScheduleTask (sk_request task) (sk_callbacks task) (sk_promise task) true (sk_generation task)
    (sk_started task) (sk_completed task) (sk_prefetchRequest task) (sk_activeConsumer task).
(** [completed = true] *)
Definition set_completed (task : ScheduleTask) : ScheduleTask :=
  mkScheduleTask (sk_request task) (sk_callbacks task) (sk_promise task) (sk_cancelled task) (sk_generation task)
    (sk_started task) true (sk_prefetchRequest task) (sk_activeConsumer task).
(** [promise.set_value(result)] *)
Definition set_promise (r : ScheduleResult) (task : ScheduleTask) : ScheduleTask :=
  mkScheduleTask (sk_request task) (sk_callbacks task) (Some r) (sk_cancelled task) (sk_generation task)
    (sk_started task) (sk_completed task) (sk_prefetchRequest task) (sk_activeConsumer task).

(** ** Clients *)

Definition publish (type : RuntimeEventType) (request : ScheduleRequest) (message : string) : ST Scheduler unit :=
  modify (with_events (publish_event (mkEvent type (sr_expertId request) (sr_layerId request)
    (sr_source request) (sr_destination request) message))).

(** [currentLocation == destination && state == Ready] *)
Definition already_there (st : ExpertState) (destination : MemoryTier) : bool :=
  tier_eqb (es_currentLocation st) destination && is_state [Ready] st.

(** The profiler's share of [schedule]; the early consumption of a finished prefetch
    is part of it. *)
Definition record_schedule (request : ScheduleRequest) (initial : ExpertState) (existing : option Z)
    : ST Scheduler unit :=
  (s <- st_get ;;
   match profiler_ s with
   | None => ret tt
   | Some _ =>
       (if bool_decide (sr_priority request = PredictedNextLayer) then profile recordPrefetchRequest else ret tt) ;;;
       if bool_decide (sr_priority request = ActiveInference) then
         let k := request_key request in
         let erased := bool_decide (k ∈ prefetchedReady_ s) in
         modify (with_prefetched (fun x => x ∖ {[k]})) ;;;
         if erased && already_there initial (sr_destination request) then
           profile recordPrefetchHit ;;; profile recordPrefetchUseful
         else
           match existing with
           | None => ret tt
           | Some t =>
               task <- deref_task t ;;
               if sk_prefetchRequest task then
                 if already_there initial (sr_destination request) then
                   modify (with_tasks (alter set_active t)) ;;;
                   profile recordPrefetchHit ;;; profile recordPrefetchUseful
                 else profile recordPrefetchMiss ;;; profile recordPrefetchLate
               else ret tt
           end
       else ret tt
   end)%st.

Definition readyResult (request : ScheduleRequest) (callback : option Z) : ST Scheduler ScheduleHandle :=
  (s <- st_get ;;
   state <- lift (StateMachine.snapshot (sr_layerId request) (sr_expertId request) (states_ s)) ;;
   let result := mkScheduleResult true false
                   (default cancelledResult (residentTransfers_ s !! request_key request)) state "" in
   match callback with Some c => modify (add_called [(c, result)]) | None => ret tt end ;;;
   publish ExpertReady request "" ;;;
   ret (HReady result))%st.

(** A request for an expert that has a pending task. *)
Definition join_task (t : Z) (request : ScheduleRequest) (callback : option Z) : ST Scheduler ScheduleHandle :=
  (task0 <- deref_task t ;;
   lift (throw_if (negb (tier_eqb (sr_destination (sk_request task0)) (sr_destination request)))
     (Exn LogicError "expert already has a different pending target")) ;;;
   modify (with_tasks (alter (join_callback callback (bool_decide (sr_priority request = ActiveInference))) t)) ;;;
   task <- deref_task t ;;
   let higher := priority_code (sr_priority (sk_request task)) <? priority_code (sr_priority request) in
   let better := bool_decide (sr_priority request = sr_priority (sk_request task)) &&
                 flt (sr_priorityScore (sk_request task)) (sr_priorityScore request) in
   (if (higher || better) && negb (sk_started task) then
      modify (with_tasks (alter (promote_task higher request) t)) ;;;
      modify (push t (promote_task higher request task))
    else ret tt) ;;;
   ret (HTask t))%st.

Definition new_task (request : ScheduleRequest) (callback : option Z) : ScheduleTask :=
  mkScheduleTask request (match callback with Some c => [c] | None => [] end) None false 0 false false
    (bool_decide (sr_priority request = PredictedNextLayer))
    (bool_decide (sr_priority request = ActiveInference)).

(** The first request for an expert. *)
Definition start_task (request : ScheduleRequest) (callback : option Z) : ST Scheduler ScheduleHandle :=
  ((if sr_eviction request
    then on_states (StateMachine.beginEviction (sr_layerId request) (sr_expertId request) (sr_destination request))
    else
      on_states (StateMachine.request (sr_layerId request) (sr_expertId request) (sr_destination request)) ;;;
      on_states (StateMachine.markQueued (sr_layerId request) (sr_expertId request))) ;;;
   t <- gets nextTask_ ;;
   modify (allocate_task (new_task request callback)) ;;;
   modify (with_pending (<[request_key request := t]>)) ;;;
   modify (push t (new_task request callback)) ;;;
   s <- st_get ;;
   profile (observeTransferQueueDepth (Z.of_nat (length (queue_ s)))) ;;;
   ret (HTask t))%st.

(** [schedule]: what runs under the lock, and [readyResult] right after it. *)
Definition schedule (request : ScheduleRequest) (callback : option Z) : ST Scheduler ScheduleHandle :=
  (publish ExpertRequested request "" ;;;
   s <- st_get ;;
   lift (throw_if (stopping_ s) (Exn RuntimeError "Scheduler is shutting down")) ;;;
   let k := request_key request in
   initial <- lift (StateMachine.snapshot (sr_layerId request) (sr_expertId request) (states_ s)) ;;
   let existing := pendingByExpert_ s !! k in
   record_schedule request initial existing ;;;
   match existing with
   | None =>
       if negb (sr_eviction request) && tier_eqb (es_currentLocation initial) (sr_destination request) &&
          is_state [Ready; InUse] initial
       then
         (if bool_decide (sr_priority request = PredictedNextLayer)
          then modify (with_prefetched (fun x => {[k]} ∪ x)) else ret tt) ;;;
         readyResult request callback
       else start_task request callback
   | Some t => join_task t request callback
   end)%st.

(** *** Prefetching *)

Record PredictedExpertRequest : Type := mkPrediction {
  pr_layerId : Z;
  pr_expertId : Z;
  pr_confidence : f64;
  pr_probability : f64;
}.

Definition prefetch_request (destination : MemoryTier) (p : PredictedExpertRequest) : ScheduleRequest :=
  mkSchedule (pr_layerId p) (pr_expertId p) Nvme destination PredictedNextLayer None None None false
    (fclamp (f64_add (f64_mul (f64_lit 7 10) (pr_probability p)) (f64_mul (f64_lit 3 10) (pr_confidence p)))
       f64_zero f64_one).

Definition prefetch (p : PredictedExpertRequest) (callback : option Z) : ST Scheduler ScheduleHandle :=
  (s <- st_get ;; schedule (prefetch_request (prefetchDestination_ s) p) callback)%st.

(** The handles of all predictions; an exception loses them. *)
Fixpoint prefetch_all (predictions : list PredictedExpertRequest) (callback : option Z)
    : ST Scheduler (list ScheduleHandle) :=
  match predictions with
  | [] => ret []
  | p :: ps =>
      (h <- prefetch p callback ;; hs <- prefetch_all ps callback ;; ret (h :: hs))%st
  end.

Definition registerExpert (layerId id : Z) (location : MemoryTier) (now : Z) : ST Scheduler unit :=
  on_states (StateMachine.registerExpert layerId id location now).
Definition acquire (layerId id now : Z) : ST Scheduler unit := on_states (StateMachine.acquire layerId id now).
Definition release (layerId id now : Z) : ST Scheduler unit := on_states (StateMachine.release layerId id now).
Definition state (layerId id : Z) (s : Scheduler) : result ExpertState :=
  StateMachine.snapshot layerId id (states_ s).
Definition pending (s : Scheduler) : Z := Z.of_nat (size (pendingByExpert_ s)).
(** [ScheduleHandle::cancel] of a task's handle. *)
Definition cancel (t : Z) : ST Scheduler unit := modify (with_tasks (alter set_cancelled t)).

(** Unpacking a key. *)
Definition key_layer (k : Z) : Z := Z.shiftr k 32.
Definition key_expert (k : Z) : Z := wrap32 k.

Fixpoint expire_loop (layerId : Z) (keys : list Z) (wasted : Z) : ST Scheduler Z :=
  match keys with
  | [] => ret wasted
  | k :: ks =>
      if key_layer k <? layerId then
        (modify (with_resident (delete k)) ;;;
         on_states (StateMachine.reconcile (key_layer k) (key_expert k) Nvme) ;;;
         modify (with_prefetched (fun x => x ∖ {[k]})) ;;;
         expire_loop layerId ks (wrap64 (wasted + 1)))%st
      else expire_loop layerId ks wasted
  end.

Definition expirePrefetchesBefore (layerId : Z) : ST Scheduler unit :=
  (s <- st_get ;;
   wasted <- expire_loop layerId (elements (prefetchedReady_ s)) 0 ;;
   if wasted =? 0 then ret tt else profile (recordPrefetchWasted wasted))%st.

Definition cachedTransfer (layerId id : Z) (s : Scheduler) : option TransferResult :=
  match pendingByExpert_ s !! pack_key layerId id with
  | Some _ => None
  | None => residentTransfers_ s !! pack_key layerId id
  end.

Definition acknowledgeResidency (layerId id : Z) (location : MemoryTier) : ST Scheduler unit :=
  (s <- st_get ;;
   let k := pack_key layerId id in
   lift (throw_if (bool_decide (is_Some (pendingByExpert_ s !! k)))
     (Exn LogicError "cannot adopt a pending scheduler transfer")) ;;;
   modify (with_resident (delete k)) ;;;
   modify (with_prefetched (fun x => x ∖ {[k]})) ;;;
   (if bool_decide (k ∈ prefetchedReady_ s)
    then profile recordPrefetchHit ;;; profile recordPrefetchUseful else ret tt) ;;;
   on_states (StateMachine.reconcile layerId id location))%st.

Definition reconcileResidency (layerId id : Z) (location : MemoryTier) : ST Scheduler unit :=
  (s <- st_get ;;
   let k := pack_key layerId id in
   if bool_decide (pendingByExpert_ s !! k = None) && bool_decide (residentTransfers_ s !! k = None)
   then on_states (StateMachine.reconcile layerId id location) else ret tt)%st.

(** The locked part of [shutdown]: every pending task's flag is raised. *)
Definition shutdown (s : Scheduler) : Scheduler :=
  if stopping_ s then s
  else set_stopping (with_tasks (map_imap (fun t task =>
         Some (if bool_decide (t ∈ (map_to_list (pendingByExpert_ s)).*2)
               then set_cancelled task else task))) s).

(** ** Workers *)

(** [HigherPriority(left, right)]: [left] comes after [right]. *)
Definition HigherPriority (left right : QueueEntry) : bool :=
  if bool_decide (qe_priority left <> qe_priority right)
  then priority_code (qe_priority left) <? priority_code (qe_priority right)
  else if negb (feq (qe_priorityScore left) (qe_priorityScore right))
       then flt (qe_priorityScore left) (qe_priorityScore right)
       else qe_sequence right <? qe_sequence left.

(** [queue_.top()], and the queue after [pop()]. *)
Definition top (q : list QueueEntry) : option QueueEntry := scan_min (fun a b => HigherPriority b a) q.
Definition drop_entry (e : QueueEntry) (q : list QueueEntry) : list QueueEntry :=
  filter (fun x => qe_sequence x <> qe_sequence e) q.

(** An entry that still speaks for its task. *)
Definition live (e : QueueEntry) (task : ScheduleTask) : bool :=
  negb (sk_completed task) && negb (sk_started task) && (qe_generation e =? sk_generation task).

(** The locked loop of a worker: stale entries are dropped, the first live one is taken. *)
Fixpoint take_live (fuel : nat) : ST Scheduler (option Z) :=
  match fuel with
  | O => diverge
  | S fuel =>
      (s <- st_get ;;
       match top (queue_ s) with
       | None => ret None
       | Some e =>
           modify (set_queue (drop_entry e (queue_ s))) ;;;
           task <- deref_task (qe_task e) ;;
           if live e task then
             modify (with_tasks (alter set_started (qe_task e))) ;;; ret (Some (qe_task e))
           else take_live fuel
       end)%st
  end.

Definition take_task : ST Scheduler (option Z) := fun s => take_live (S (length (queue_ s))) s.

(** [complete] gives up the lock half way, so it has four parts: a failure is written to
    the state machine; the task is closed under the lock; its callbacks are made and a
    failure is published, without a lock; the promise is set.  Clients and other workers
    run in between. *)
Definition complete_failed (t : Z) (result : ScheduleResult) : ST Scheduler ScheduleResult :=
  (if sx_success result then ret result
   else
     task <- deref_task t ;;
     on_states (StateMachine.markFailed (sr_layerId (sk_request task)) (sr_expertId (sk_request task))) ;;;
     s <- st_get ;;
     st <- lift (StateMachine.snapshot (sr_layerId (sk_request task)) (sr_expertId (sk_request task)) (states_ s)) ;;
     ret (mkScheduleResult (sx_success result) (sx_cancelled result) (sx_transfer result) st (sx_error result)))%st.

(** The locked part: the callbacks to make, or nothing when the task was closed before. *)
Definition complete_close (t : Z) (result : ScheduleResult) : ST Scheduler (option (list Z)) :=
  (task <- deref_task t ;;
   if sk_completed task then ret None
   else
     modify (with_tasks (alter set_completed t)) ;;;
     modify (with_pending (fun pending =>
       if bool_decide (pending !! request_key (sk_request task) = Some t)
       then delete (request_key (sk_request task)) pending else pending)) ;;;
     s <- st_get ;;
     profile (observeTransferQueueDepth (Z.of_nat (size (pendingByExpert_ s)))) ;;;
     ret (Some (sk_callbacks task)))%st.

(** One callback; what it throws is swallowed, what it calls are steps of a client. *)
Definition complete_notify (c : Z) (result : ScheduleResult) : ST Scheduler unit := modify (add_called [(c, result)]).

Definition complete_publish (t : Z) (result : ScheduleResult) : ST Scheduler unit :=
  (task <- deref_task t ;;
   if sx_success result then ret tt else publish TransferFailed (sk_request task) (sx_error result))%st.

Definition complete_settle (t : Z) (result : ScheduleResult) : ST Scheduler unit :=
  modify (with_tasks (alter (set_promise result) t)).

Definition failed_result (cancelled : bool) (error : string) : ScheduleResult :=
  mkScheduleResult false cancelled cancelledResult default_state error.

(** Where a worker is with the task in its hands. *)
Inductive Phase : Type :=
  | Taken                          (* popped *)
  | Submitted                      (* the transfer was submitted *)
  | Arrived (r : TransferResult)   (* the expert was marked ready *)
  | Stored (r : TransferResult)    (* the resident table was updated *)
  | Closing (r : ScheduleResult)   (* inside [complete], before its lock *)
  | Notifying (r : ScheduleResult) (callbacks : list Z)   (* after the lock, these callbacks to make *)
  | Settling (r : ScheduleResult). (* before the promise is set *)

(** From the pop to the submission.  [markLoading] runs outside the [try] block: an
    exception here would leave the thread. *)
Definition begin_task (t : Z) : ST Scheduler Phase :=
  (task <- deref_task t ;;
   profile recordQueueWait ;;;
   if sk_cancelled task then
     result <- complete_failed t (failed_result true "schedule request cancelled before transfer") ;;
     ret (Closing result)
   else
     (if sr_eviction (sk_request task) then ret tt
      else on_states (StateMachine.markLoading (sr_layerId (sk_request task)) (sr_expertId (sk_request task)))) ;;;
     publish TransferStarted (sk_request task) "" ;;;
     s <- st_get ;;
     (if transfers_cuda s && (tier_eqb (sr_source (sk_request task)) Vram ||
                              tier_eqb (sr_destination (sk_request task)) Vram)
      then publish CudaTransferStarted (sk_request task) "" else ret tt) ;;;
     ret Submitted)%st.

(** The request handed to the transfer manager. *)
Definition transfer_of (task : ScheduleTask) : TransferRequest :=
  mkRequest (sr_layerId (sk_request task)) (sr_expertId (sk_request task)) (sr_destination (sk_request task))
    (priority_code (sr_priority (sk_request task))) (sr_source (sk_request task)) (sr_hostBuffer (sk_request task))
    (sr_pinnedBuffer (sk_request task)) (sr_deviceBuffer (sk_request task)) None.

(** The handlers of the [try] block. *)
Definition catching (t : Z) (m : ST Scheduler Phase) : ST Scheduler Phase :=
  try_catch (fun _ => true) m
    (fun e => (result <- complete_failed t (failed_result false (what e)) ;; ret (Closing result))%st).

(** The outcome of the transfer ([handle.future().get()]). *)
Definition receive (t : Z) (outcome : result TransferResult) (now : Z) : ST Scheduler Phase :=
  catching t
    (task <- deref_task t ;;
     transferred <- lift outcome ;;
     match rs_status transferred with
     | Cancelled =>
         result <- complete_failed t (failed_result true "transfer cancelled") ;; ret (Closing result)
     | Completed =>
         on_states (StateMachine.markReady (sr_layerId (sk_request task)) (sr_expertId (sk_request task))
                      (sr_destination (sk_request task)) now) ;;;
         (if rs_nvmeBytes transferred =? 0 then ret tt else profile (recordNvmeRead (rs_nvmeBytes transferred))) ;;;
         (if rs_ramToVramBytes transferred =? 0 then ret tt
          else profile (recordRamToVram (rs_ramToVramBytes transferred))) ;;;
         ret (Arrived transferred)
     end)%st.

(** Bounding the speculative cache: the candidates in the order of their keys. *)
Fixpoint bound_loop (own : Z) (candidates : list Z) (cachedBytes : Z) : ST Scheduler unit :=
  match candidates with
  | [] => ret tt
  | c :: cs =>
      (s <- st_get ;;
       match residentTransfers_ s !! c with
       | None => bound_loop own cs cachedBytes
       | Some found =>
           let bytes := er_size (rs_record found) in
           if wrap64 (maximumPrefetchBytes_ s - cachedBytes) <? bytes then
             modify (with_resident (delete c)) ;;;
             modify (with_prefetched (fun x => x ∖ {[c]})) ;;;
             (if c =? own then ret tt
              else on_states (StateMachine.reconcile (key_layer c) (key_expert c) Nvme)) ;;;
             profile (recordPrefetchWasted 1) ;;;
             bound_loop own cs cachedBytes
           else bound_loop own cs (wrap64 (cachedBytes + bytes))
       end)%st
  end.

Definition store (t : Z) (transferred : TransferResult) : ST Scheduler Phase :=
  catching t
    (task <- deref_task t ;;
     let k := request_key (sk_request task) in
     modify (with_resident (if tier_eqb (sr_destination (sk_request task)) Nvme
                            then delete k else <[k := transferred]>)) ;;;
     (if sk_prefetchRequest task && negb (sk_activeConsumer task) then
        modify (with_prefetched (fun x => {[k]} ∪ x)) ;;;
        s <- st_get ;;
        bound_loop k (merge_sort Z.le (elements (prefetchedReady_ s))) 0
      else ret tt) ;;;
     ret (Stored transferred))%st.

Definition finish (t : Z) (transferred : TransferResult) : ST Scheduler Phase :=
  catching t
    (task <- deref_task t ;;
     publish TransferCompleted (sk_request task) "" ;;;
     (if rs_cudaTransfer transferred then publish CudaTransferCompleted (sk_request task) "" else ret tt) ;;;
     (if sr_eviction (sk_request task) then publish CacheEvicted (sk_request task) "" else ret tt) ;;;
     publish ExpertReady (sk_request task) "" ;;;
     s <- st_get ;;
     st <- lift (StateMachine.snapshot (sr_layerId (sk_request task)) (sr_expertId (sk_request task)) (states_ s)) ;;
     ret (Closing (mkScheduleResult true false transferred st "")))%st.

(** ** The system: clients and workers *)

Record System : Type := mkSystem {
  sched : Scheduler;
  hands : gmap Z Phase;   (* the tasks workers are busy with *)
}.

(** One part of a worker's iteration. *)
Definition advance (t : Z) (outcome : result TransferResult) (now : Z) (phase : Phase) : ST Scheduler (option Phase) :=
  match phase with
  | Taken => (p <- begin_task t ;; ret (Some p))%st
  | Submitted => (p <- receive t outcome now ;; ret (Some p))%st
  | Arrived r => (p <- store t r ;; ret (Some p))%st
  | Stored r => (p <- finish t r ;; ret (Some p))%st
  | Closing r => (callbacks <- complete_close t r ;; ret (Notifying r <$> callbacks))%st
  | Notifying r (c :: cs) => (complete_notify c r ;;; ret (Some (Notifying r cs)))%st
  | Notifying r [] => (complete_publish t r ;;; ret (Some (Settling r)))%st
  | Settling r => (complete_settle t r ;;; ret None)%st
  end.

(** A worker step succeeds with the next phase; an exception that leaves it ends the
    program, so the system does not step. *)
Definition work (t : Z) (outcome : result TransferResult) (now : Z) (y : System) : option System :=
  match hands y !! t with
  | None => None
  | Some phase =>
      match advance t outcome now phase (sched y) with
      | (Ok (Some p), s) => Some (mkSystem s (<[t := p]> (hands y)))
      | (Ok None, s) => Some (mkSystem s (delete t (hands y)))
      | _ => None
      end
  end.

Definition pick (y : System) : option System :=
  match take_task (sched y) with
  | (Ok (Some t), s) => Some (mkSystem s (<[t := Taken]> (hands y)))
  | (Ok None, s) => Some (mkSystem s (hands y))
  | _ => None
  end.
