(* ===== verification/SchedulerInvariant.v ===== *)
(** * The invariant of the scheduler

    No interleaving of clients and workers loses a request: every task that is not
    completed is in the pending table under its expert, and either has a live entry
    in the queue or is in the hands of exactly one worker; the state machine is in
    the state the task's phase calls for, so that no worker dies of an unexpected
    transition. *)

From S2P Require Import Prelude Float Tiers MemoryManager Bytes ExpertIndex ExpertStore Transfer ExpertState Scheduler.

(** ** The system's steps *)

Definition request_wf (r : ScheduleRequest) : Prop := is_u32 (sr_layerId r) /\ is_u32 (sr_expertId r).

(** The 64-bit entry numbers do not wrap. *)
Definition seq_room (s : Scheduler) : Prop := nextSequence_ s < u64_max.

Inductive sys_step : System -> System -> Prop :=
  | sys_schedule s h r c : request_wf r -> seq_room s -> sys_step (mkSystem s h) (mkSystem (snd (schedule r c s)) h)
  | sys_register s h l i loc now : is_u32 l -> is_u32 i ->
      sys_step (mkSystem s h) (mkSystem (snd (registerExpert l i loc now s)) h)
  | sys_acquire s h l i now : sys_step (mkSystem s h) (mkSystem (snd (acquire l i now s)) h)
  | sys_release s h l i now : sys_step (mkSystem s h) (mkSystem (snd (release l i now s)) h)
  | sys_cancel s h t : sys_step (mkSystem s h) (mkSystem (snd (cancel t s)) h)
  | sys_expire s h l : sys_step (mkSystem s h) (mkSystem (snd (expirePrefetchesBefore l s)) h)
  | sys_acknowledge s h l i loc : sys_step (mkSystem s h) (mkSystem (snd (acknowledgeResidency l i loc s)) h)
  | sys_reconcile s h l i loc : sys_step (mkSystem s h) (mkSystem (snd (reconcileResidency l i loc s)) h)
  | sys_shutdown s h : sys_step (mkSystem s h) (mkSystem (shutdown s) h)
  | sys_pick y y' : pick y = Some y' -> sys_step y y'
  | sys_work y y' t outcome now : outcome <> Diverge -> work t outcome now y = Some y' -> sys_step y y'.

(** ** Calls that leave the tasks' fate alone *)

(** The states a pending task holds its expert in. *)
Definition busy (st : ExpertLifecycleState) : Prop := st = Queued \/ st = Loading \/ st = Evicting.

(** Every busy expert is left alone, the expert [x] apart. *)
Record calm_states (x : option Z) (st st' : gmap Z ExpertState) : Prop := CalmStates {
  cs_busy : forall k e, Some k <> x -> st !! k = Some e -> busy (es_state e) -> st' !! k = Some e;
  cs_known : forall k, is_Some (st !! k) -> is_Some (st' !! k);
  cs_inv : StateMachine.sm_inv st -> StateMachine.sm_inv st';
}.

Record task_soft (a b : ScheduleTask) : Prop := TaskSoft {
  ts_request : sk_request b = sk_request a;
  ts_promise : sk_promise b = sk_promise a;
  ts_generation : sk_generation b = sk_generation a;
  ts_started : sk_started b = sk_started a;
  ts_completed : sk_completed b = sk_completed a;
  ts_cancelled : sk_cancelled a = true -> sk_cancelled b = true;
  ts_callbacks : sk_callbacks b = sk_callbacks a;
}.

Record calm (x : option Z) (s s' : Scheduler) : Prop := Calm {
  ca_states : calm_states x (states_ s) (states_ s');
  ca_tasks : forall t, option_relation task_soft (fun _ => False) (fun _ => False) (tasks_ s !! t) (tasks_ s' !! t);
  ca_nextTask : nextTask_ s' = nextTask_ s;
  ca_queue : queue_ s' = queue_ s;
  ca_pending : pendingByExpert_ s' = pendingByExpert_ s;
  ca_nextSequence : nextSequence_ s' = nextSequence_ s;
  ca_stopping : stopping_ s' = stopping_ s;
}.

Lemma calm_states_refl x st : calm_states x st st.
Proof. done. Qed.

Lemma calm_states_trans x a b c : calm_states x a b -> calm_states x b c -> calm_states x a c.
Proof. intros [] []. split; eauto. Qed.

Lemma task_soft_refl a : task_soft a a.
Proof. done. Qed.

Lemma task_soft_trans a b c : task_soft a b -> task_soft b c -> task_soft a c.
Proof. intros [] []. split; (congruence || auto). Qed.

Lemma option_soft_refl (o : option ScheduleTask) : option_relation task_soft (fun _ => False) (fun _ => False) o o.
Proof. by destruct o. Qed.

Lemma calm_refl x s : calm x s s.
Proof. split; try done. intros t. apply option_soft_refl. Qed.

Lemma calm_trans x a b c : calm x a b -> calm x b c -> calm x a c.
Proof.
  intros [H1 H2 ? ? ? ? ?] [H3 H4 ? ? ? ? ?]. split; try congruence; [by eapply calm_states_trans|].
  intros t. specialize (H2 t). specialize (H4 t).
  destruct (tasks_ a !! t), (tasks_ b !! t), (tasks_ c !! t); cbn in *; try done. by eapply task_soft_trans.
Qed.

(** Updates of the other fields, and of one task within its fate. *)
Lemma calm_quiet x s s' :
  states_ s' = states_ s -> tasks_ s' = tasks_ s -> nextTask_ s' = nextTask_ s -> queue_ s' = queue_ s ->
  pendingByExpert_ s' = pendingByExpert_ s -> nextSequence_ s' = nextSequence_ s -> stopping_ s' = stopping_ s ->
  calm x s s'.
Proof. intros Hst Ht ? ? ? ? ?. split; try done; [by rewrite Hst|]. intros t. rewrite Ht. apply option_soft_refl. Qed.

Lemma calm_task x s f t : (forall task, task_soft task (f task)) -> calm x s (with_tasks (alter f t) s).
Proof.
  intros Hf. split; try done. intros t'. cbn. destruct (decide (t' = t)) as [->|Hne].
  - rewrite lookup_alter_eq. destruct (tasks_ s !! t); cbn; [apply Hf|done].
  - rewrite lookup_alter_ne by done. apply option_soft_refl.
Qed.

Lemma calm_set_states x s st : calm_states x (states_ s) st -> calm x s (set_states st s).
Proof. intros Hst. split; try done. intros t. apply option_soft_refl. Qed.

(** ** A calculus of calm calls *)

Definition calm_call {A} (x : option Z) (m : ST Scheduler A) : Prop :=
  forall s, wp m s (fun _ s' => calm x s s') (fun _ s' => calm x s s').

Lemma calm_call_ret {A} x (a : A) : calm_call x (ret a).
Proof. intros s. wp_step. apply calm_refl. Qed.

Lemma calm_call_throw {A} x e : calm_call x (throw (A := A) e).
Proof. intros s. wp_step. apply calm_refl. Qed.

Lemma calm_call_get x : calm_call x st_get.
Proof. intros s. wp_step. apply calm_refl. Qed.

Lemma calm_call_lift {A} x (r : result A) : r <> Diverge -> calm_call x (lift r).
Proof. intros Hr s. apply wp_lift. destruct r; [apply calm_refl..|done]. Qed.

Lemma calm_call_throw_if x c e : calm_call x (lift (throw_if c e)).
Proof. apply calm_call_lift. by destruct c. Qed.

Lemma calm_call_bind {A B} x (m : ST Scheduler A) (k : A -> ST Scheduler B) :
  calm_call x m -> (forall a, calm_call x (k a)) -> calm_call x (st_bind m k).
Proof.
  intros Hm Hk s. wp_step. eapply wp_mono; [apply Hm|..].
  - intros a s1 H1. eapply wp_mono; [apply Hk|..]; intros ? s2 H2; exact (calm_trans _ _ _ _ H1 H2).
  - done.
Qed.

Lemma calm_call_if {A} x (c : bool) (a b : ST Scheduler A) :
  calm_call x a -> calm_call x b -> calm_call x (if c then a else b).
Proof. intros. by destruct c. Qed.

Lemma calm_call_modify x f : (forall s, calm x s (f s)) -> calm_call x (modify f).
Proof. intros Hf s. wp_step. apply Hf. Qed.

Lemma calm_call_quiet x f :
  (forall s, states_ (f s) = states_ s /\ tasks_ (f s) = tasks_ s /\ nextTask_ (f s) = nextTask_ s /\
     queue_ (f s) = queue_ s /\ pendingByExpert_ (f s) = pendingByExpert_ s /\
     nextSequence_ (f s) = nextSequence_ s /\ stopping_ (f s) = stopping_ s) -> calm_call x (modify f).
Proof. intros Hf. apply calm_call_modify. intros s. destruct (Hf s) as (? & ? & ? & ? & ? & ? & ?). by apply calm_quiet. Qed.

(** A transition that starts from no busy state. *)
Lemma transition_calm x l i allowed msg f :
  (Some (pack_key l i) <> x -> forall st, busy st -> st ∉ allowed) ->
  (forall k e, StateMachine.entry_ok k e -> es_state e ∈ allowed -> StateMachine.entry_ok k (f e)) ->
  forall st, calm_states x st (snd (StateMachine.transition l i allowed msg f st)).
Proof.
  intros Hb Hf st. destruct (StateMachine.transition_snd l i allowed msg f st) as [->|(e & He & Ha & ->)];
    [apply calm_states_refl|]. split.
  - intros k y Hne Hk Hy. rewrite lookup_insert_ne; [done|]. intros <-. assert (y = e) as -> by congruence.
    by apply (Hb Hne (es_state e)).
  - intros k Hk. rewrite lookup_insert_is_Some'. by right.
  - intros Hs. apply map_Forall_insert_2; [|done]. apply Hf; [|done]. by apply (Hs (pack_key l i) e).
Qed.

Lemma transition_not_diverge l i allowed msg f st st' :
  StateMachine.transition l i allowed msg f st <> (Diverge, st').
Proof.
  unfold StateMachine.transition, st_bind, st_get, lift, throw_if, modify, throw.
  destruct (st !! _); [|done]. by destruct (negb _).
Qed.

Lemma calm_call_transition x l i allowed msg f :
  (Some (pack_key l i) <> x -> forall st, busy st -> st ∉ allowed) ->
  (forall k e, StateMachine.entry_ok k e -> es_state e ∈ allowed -> StateMachine.entry_ok k (f e)) ->
  calm_call x (on_states (StateMachine.transition l i allowed msg f)).
Proof.
  intros Hb Hf s. unfold wp, on_states.
  pose proof (transition_calm x l i allowed msg f Hb Hf (states_ s)) as Hc.
  pose proof (transition_not_diverge l i allowed msg f (states_ s)) as Hd.
  destruct (StateMachine.transition l i allowed msg f (states_ s)) as [[| |] st]; cbn in *;
    [by apply calm_set_states..|]. by destruct (Hd st).
Qed.

Lemma not_busy_list (l : list ExpertLifecycleState) :
  Queued ∉ l -> Loading ∉ l -> Evicting ∉ l -> forall st, busy st -> st ∉ l.
Proof. intros ? ? ? st [ -> | [ -> | -> ] ]; done. Qed.

(** Membership in a literal list of states. *)
Ltac not_in := apply (bool_decide_unpack _); vm_compute; exact I.

Lemma entry_settle k e loc now : StateMachine.entry_ok k e -> StateMachine.entry_ok k (settle loc now e).
Proof. intros (? & ? & ? & ?). split; [done|]. split; [done|]. by split. Qed.

Lemma calm_reconcile x l i loc : calm_call x (on_states (StateMachine.reconcile l i loc)).
Proof.
  unfold acquire, release, StateMachine.acquire, StateMachine.release, StateMachine.reconcile.
  apply calm_call_transition; [intros _; apply not_busy_list; not_in|]. intros k e He _. by apply entry_settle.
Qed.

Lemma calm_acquire x l i now : calm_call x (acquire l i now).
Proof.
  unfold acquire, release, StateMachine.acquire, StateMachine.release, StateMachine.reconcile.
  apply calm_call_transition; [intros _; apply not_busy_list; not_in|].
  intros k e (? & ? & ? & Hl) Ha. split; [done|]. split; [done|]. split; [done|]. cbn. intros _. apply Hl. left.
  revert Ha. rewrite elem_of_cons, elem_of_nil. tauto.
Qed.

Lemma calm_release x l i now : calm_call x (release l i now).
Proof.
  unfold acquire, release, StateMachine.acquire, StateMachine.release, StateMachine.reconcile.
  apply calm_call_transition; [intros _; apply not_busy_list; not_in|].
  intros k e (? & ? & ? & Hl) Ha. split; [done|]. split; [done|]. split; [done|]. cbn. intros _. apply Hl. right.
  revert Ha. rewrite elem_of_cons, elem_of_nil. tauto.
Qed.

Lemma calm_publish x type r msg : calm_call x (publish type r msg).
Proof. by apply calm_call_quiet. Qed.

Lemma calm_profile x f : calm_call x (profile f).
Proof. by apply calm_call_quiet. Qed.

Lemma calm_resident x f : calm_call x (modify (with_resident f)).
Proof. by apply calm_call_quiet. Qed.

Lemma calm_prefetched x f : calm_call x (modify (with_prefetched f)).
Proof. by apply calm_call_quiet. Qed.

Lemma calm_add_called x c : calm_call x (modify (add_called c)).
Proof. by apply calm_call_quiet. Qed.

Create HintDb calm.
#[export] Hint Resolve calm_call_ret calm_call_throw calm_call_get calm_call_throw_if calm_reconcile calm_acquire
  calm_release calm_publish calm_profile calm_resident calm_prefetched calm_add_called : calm.

(** Splits a calm call along its structure. *)
Ltac calm_steps :=
  repeat first
    [ progress auto with calm
    | apply calm_call_bind; [|intros ?]
    | apply calm_call_if
    | match goal with |- calm_call _ (match ?x with _ => _ end) => destruct x end ].

Lemma calm_registerExpert x l i loc now : is_u32 l -> is_u32 i -> calm_call x (registerExpert l i loc now).
Proof.
  intros Hl Hi s. unfold wp, registerExpert, on_states, StateMachine.registerExpert, st_bind, st_get, lift, throw_if, modify.
  case_bool_decide as Hd; cbn; [by apply calm_set_states|]. apply calm_set_states.
  assert (states_ s !! pack_key l i = None) as Hn by by apply eq_None_not_Some. split.
  - intros k e _ Hk _. rewrite lookup_insert_ne; [done|congruence].
  - intros k Hk. rewrite lookup_insert_is_Some'. by right.
  - intros Hs. by apply map_Forall_insert_2.
Qed.

Lemma calm_cancel x t : calm_call x (cancel t).
Proof. apply calm_call_modify. intros s. apply calm_task. intros task. by split. Qed.

Lemma calm_expire_loop x l ks wasted : calm_call x (expire_loop l ks wasted).
Proof. revert wasted. induction ks as [|k ks IH]; intros wasted; cbn [expire_loop]; calm_steps. Qed.

Lemma calm_expire x l : calm_call x (expirePrefetchesBefore l).
Proof. unfold expirePrefetchesBefore. calm_steps; apply calm_expire_loop. Qed.

Lemma calm_acknowledge x l i loc : calm_call x (acknowledgeResidency l i loc).
Proof. unfold acknowledgeResidency. calm_steps. Qed.

Lemma calm_reconcileResidency x l i loc : calm_call x (reconcileResidency l i loc).
Proof. unfold reconcileResidency. calm_steps. Qed.

Lemma calm_bound_loop x own cs bytes : calm_call x (bound_loop own cs bytes).
Proof.
  revert bytes. induction cs as [|c cs IH]; intros bytes; cbn [bound_loop]; [calm_steps|].
  apply calm_call_bind; [calm_steps|]. intros s. destruct (residentTransfers_ s !! c); [|apply IH]. calm_steps.
Qed.

Lemma calm_deref t s Q E :
  is_Some (tasks_ s !! t) -> (forall task, tasks_ s !! t = Some task -> Q task s) -> wp (deref_task t) s Q E.
Proof. intros [task Ht] HQ. unfold deref_task. wp_step. wp_step. rewrite Ht. wp_step. auto. Qed.

Lemma calm_known x s s' t : calm x s s' -> is_Some (tasks_ s !! t) -> is_Some (tasks_ s' !! t).
Proof.
  intros Hc [task Ht]. pose proof (ca_tasks _ _ _ Hc t) as H. rewrite Ht in H.
  destruct (tasks_ s' !! t); [by eexists|done].
Qed.

Lemma calm_set_active x t : calm_call x (modify (with_tasks (alter set_active t))).
Proof. apply calm_call_modify. intros s. apply calm_task. intros task. by split. Qed.
#[export] Hint Resolve calm_set_active calm_cancel : calm.

Lemma wp_calm_call {A} x (m : ST Scheduler A) s0 s :
  calm_call x m -> calm x s0 s -> wp m s (fun _ s' => calm x s0 s') (fun _ s' => calm x s0 s').
Proof. intros Hm Hc. eapply wp_mono; [apply Hm|..]; intros ? s' H; exact (calm_trans _ _ _ _ Hc H). Qed.

Lemma calm_record request initial existing s :
  (forall t, existing = Some t -> is_Some (tasks_ s !! t)) ->
  wp (record_schedule request initial existing) s (fun _ s' => calm None s s') (fun _ s' => calm None s s').
Proof.
  intros He. unfold record_schedule. wp_step. wp_step. destruct (profiler_ s); [|wp_step; apply calm_refl].
  wp_step. apply (wp_mono _ _ (fun _ s' => calm None s s') _ (fun _ s' => calm None s s')); [|intros _ s1 H1|done].
  { apply (wp_calm_call _ _ s s); [calm_steps|apply calm_refl]. }
  case_bool_decide; [|wp_step; done]. wp_step. wp_step.
  set (s2 := with_prefetched _ s1). assert (calm None s s2) as H2 by (eapply calm_trans; [exact H1|by apply calm_quiet]).
  destruct (_ && _); [apply wp_calm_call; [calm_steps|done]|].
  destruct existing as [t|]; [|wp_step; done]. wp_step.
  apply calm_deref; [eapply calm_known; [exact H2|by apply He]|]. intros task _.
  apply wp_calm_call; [calm_steps|done].
Qed.

Lemma snapshot_not_diverge l i st : StateMachine.snapshot l i st <> Diverge.
Proof. unfold StateMachine.snapshot. by destruct (st !! _). Qed.

Lemma calm_ready x request callback : calm_call x (readyResult request callback).
Proof.
  unfold readyResult. apply calm_call_bind; [calm_steps|]. intros s.
  apply calm_call_bind; [apply calm_call_lift, snapshot_not_diverge|]. intros st. calm_steps.
Qed.

(** ** The invariant *)

(** The state an expert is in while its task waits, and while its transfer runs. *)
Definition waiting_state (eviction : bool) : ExpertLifecycleState := if eviction then Evicting else Queued.
Definition running_state (eviction : bool) : ExpertLifecycleState := if eviction then Evicting else Loading.

Definition expert_in (st : gmap Z ExpertState) (task : ScheduleTask) (l : ExpertLifecycleState) : Prop :=
  exists e, st !! request_key (sk_request task) = Some e /\ es_state e = l.

Definition phase_ok (st : gmap Z ExpertState) (task : ScheduleTask) (p : Phase) : Prop :=
  match p with
  | Taken => expert_in st task (waiting_state (sr_eviction (sk_request task)))
  | Submitted => expert_in st task (running_state (sr_eviction (sk_request task)))
  | Notifying _ cs => exists made, sk_callbacks task = made ++ cs
  | _ => True
  end.

(** Past the lock of [complete]: the task is closed, its promise is still to be set. *)
Definition after_close (p : Phase) : bool := match p with Notifying _ _ | Settling _ => true | _ => false end.

(** The fate of a task: waiting with a live entry, in one worker's hands, or done. *)
Definition fate (y : System) (t : Z) (task : ScheduleTask) : Prop :=
  if sk_started task then
    match hands y !! t with
    | Some p => sk_completed task = after_close p /\ sk_promise task = None /\ phase_ok (states_ (sched y)) task p
    | None => sk_completed task = true /\ is_Some (sk_promise task)
    end
  else sk_completed task = false /\ sk_promise task = None /\ hands y !! t = None /\
       (exists e, e ∈ queue_ (sched y) /\ qe_task e = t /\ qe_generation e = sk_generation task) /\
       expert_in (states_ (sched y)) task (waiting_state (sr_eviction (sk_request task))).

Record task_inv (y : System) (t : Z) (task : ScheduleTask) : Prop := TaskInv {
  tv_bound : 0 <= t < nextTask_ (sched y);
  tv_wf : request_wf (sk_request task);
  tv_known : is_Some (states_ (sched y) !! request_key (sk_request task));
  tv_generation : 0 <= sk_generation task <= nextSequence_ (sched y);
  tv_pending : sk_completed task = false <-> pendingByExpert_ (sched y) !! request_key (sk_request task) = Some t;
  tv_fate : fate y t task;
  tv_stopping : stopping_ (sched y) = true -> sk_completed task = false -> sk_cancelled task = true;
}.

Definition entry_inv (y : System) (e : QueueEntry) : Prop :=
  0 <= qe_sequence e < nextSequence_ (sched y) /\
  exists task, tasks_ (sched y) !! qe_task e = Some task /\ qe_generation e <= sk_generation task.

Record sys_inv (y : System) : Prop := SysInv {
  sy_states : StateMachine.sm_inv (states_ (sched y));
  sy_tasks : map_Forall (task_inv y) (tasks_ (sched y));
  sy_pending : forall k t, pendingByExpert_ (sched y) !! k = Some t ->
    exists task, tasks_ (sched y) !! t = Some task /\ request_key (sk_request task) = k;
  sy_queue : Forall (entry_inv y) (queue_ (sched y));
  sy_nodup : NoDup (qe_sequence <$> queue_ (sched y));
  sy_hands : forall t, is_Some (hands y !! t) -> is_Some (tasks_ (sched y) !! t);
  sy_sequence : 0 <= nextSequence_ (sched y) <= u64_max;
  sy_nextTask : 0 <= nextTask_ (sched y);
}.

Lemma running_busy b : busy (running_state b).
Proof. destruct b; unfold busy; auto. Qed.
Lemma waiting_busy b : busy (waiting_state b).
Proof. destruct b; unfold busy; auto. Qed.

Lemma calm_weaken x s s' : calm None s s' -> calm x s s'.
Proof. intros [[Hb Hk Hi] ? ? ? ? ? ?]. split; try done. split; [|done|done]. intros k e _. by apply Hb. Qed.

Lemma expert_in_calm x st st' task task' l :
  calm_states x st st' -> Some (request_key (sk_request task)) <> x -> busy l ->
  sk_request task' = sk_request task -> expert_in st task l -> expert_in st' task' l.
Proof.
  intros Hc Hx Hb Hr (e & He & Hl). exists e. rewrite Hr. split; [|done].
  apply (cs_busy _ _ _ Hc); [done|done|by rewrite Hl].
Qed.

Lemma calm_some x (s s' : Scheduler) t task' :
  calm x s s' -> tasks_ s' !! t = Some task' -> exists task, tasks_ s !! t = Some task /\ task_soft task task'.
Proof.
  intros Hc Ht. pose proof (ca_tasks _ _ _ Hc t) as H. rewrite Ht in H.
  destruct (tasks_ s !! t) as [task|]; [eauto|done].
Qed.

Lemma calm_some_back x (s s' : Scheduler) t task :
  calm x s s' -> tasks_ s !! t = Some task -> exists task', tasks_ s' !! t = Some task' /\ task_soft task task'.
Proof.
  intros Hc Ht. pose proof (ca_tasks _ _ _ Hc t) as H. rewrite Ht in H.
  destruct (tasks_ s' !! t) as [task'|]; [eauto|done].
Qed.

(** The fate of a task whose expert is not [x] survives. *)
Lemma fate_calm x s s' h h' t task task' :
  calm x s s' -> task_soft task task' -> h' !! t = h !! t ->
  (sk_completed task = false -> Some (request_key (sk_request task)) <> x) ->
  fate (mkSystem s h) t task -> fate (mkSystem s' h') t task'.
Proof.
  intros [Hcs _ _ Hq _ _ _] [Hr Hpr Hg Hsa Hco _ Hcb] Hh Hx. unfold fate. cbn. rewrite Hco, Hsa, Hq, Hg, Hh, Hpr.
  destruct (sk_started task).
  - destruct (h !! t) as [p|]; [|done]. intros (Hc & Hp & Hok). split; [done|]. split; [done|].
    destruct p; try done; cbn in *; [| |by rewrite Hcb]; specialize (Hx Hc); rewrite Hr;
      (eapply expert_in_calm; [done|done| |done|done]); auto using running_busy, waiting_busy.
  - intros (Hc & Hp & Hn & He & Hin). split_and!; [done..|]. rewrite Hr.
    eapply expert_in_calm; [done|auto|apply waiting_busy|done|done].
Qed.

(** The invariant after calm calls, given the fates. *)
Lemma calm_core x (s s' : Scheduler) h h' :
  sys_inv (mkSystem s h) -> calm x s s' ->
  (forall t, is_Some (h' !! t) -> is_Some (tasks_ s !! t)) ->
  (forall t task task', tasks_ s !! t = Some task -> task_soft task task' ->
     fate (mkSystem s h) t task -> fate (mkSystem s' h') t task') ->
  sys_inv (mkSystem s' h').
Proof.
  intros [Hst Hta Hpe Hqu Hnd Hha Hse Hnt] Hc Hh Hf. cbn in *. pose proof Hc as [Hcs _ Hn Hq Hp Hs Hstop].
  split; cbn; rewrite ?Hq, ?Hs, ?Hn; try done.
  - by apply (cs_inv _ _ _ Hcs).
  - intros t task' Ht. destruct (calm_some _ s s' t task' Hc Ht) as (task & Hk & Hsoft).
    pose proof Hsoft as [Hr Hpr Hg Hsa Hco Hca _]. destruct (Hta t task Hk) as [? ? ? ? ? Hfate ?]. cbn in *.
    split; cbn; rewrite ?Hr, ?Hg, ?Hco, ?Hp, ?Hs, ?Hn, ?Hstop; auto.
    + by apply (cs_known _ _ _ Hcs).
    + by eapply Hf.
  - intros k t Hk. rewrite Hp in Hk. destruct (Hpe k t Hk) as (task & Ht & Hr).
    destruct (calm_some_back _ s s' t task Hc Ht) as (task' & Ht' & Hsoft). exists task'. split; [done|].
    by rewrite (ts_request _ _ Hsoft).
  - eapply Forall_impl; [exact Hqu|]. intros e (Hb & task & Ht & Hg). cbn in *. split; cbn; [by rewrite Hs|].
    destruct (calm_some_back _ s s' _ task Hc Ht) as (task' & Ht' & Hsoft). exists task'. split; [done|].
    by rewrite (ts_generation _ _ Hsoft).
  - intros t Ht. eapply calm_known; [done|auto].
Qed.

Lemma calm_inv (s s' : Scheduler) h : sys_inv (mkSystem s h) -> calm None s s' -> sys_inv (mkSystem s' h).
Proof.
  intros Hy Hc. eapply calm_core; [done|done|apply (sy_hands _ Hy)|].
  intros t task task' _ Hsoft. by eapply fate_calm.
Qed.

Lemma sys_task s h t task : sys_inv (mkSystem s h) -> tasks_ s !! t = Some task -> task_inv (mkSystem s h) t task.
Proof. intros Hy Ht. exact (sy_tasks _ Hy t task Ht). Qed.

(** A task in a worker's hands is running. *)
Lemma in_hand s h t p task :
  sys_inv (mkSystem s h) -> h !! t = Some p -> tasks_ s !! t = Some task ->
  sk_completed task = after_close p /\ sk_started task = true /\ sk_promise task = None /\ phase_ok (states_ s) task p.
Proof.
  intros Hy Hp Ht. pose proof (tv_fate _ _ _ (sys_task _ _ _ _ Hy Ht)) as Hf. unfold fate in Hf. cbn in Hf. rewrite Hp in Hf.
  destruct (sk_started task); [tauto|]. destruct Hf as (_ & _ & ? & _). congruence.
Qed.

(** A promise is set only for a closed task that no worker holds. *)
Lemma promise_done s h t task r :
  sys_inv (mkSystem s h) -> tasks_ s !! t = Some task -> sk_promise task = Some r -> sk_completed task = true /\ h !! t = None.
Proof.
  intros Hy Ht Hr. pose proof (tv_fate _ _ _ (sys_task _ _ _ _ Hy Ht)) as Hf. unfold fate in Hf. cbn in Hf. rewrite Hr in Hf.
  destruct (sk_started task); [|by destruct Hf as (_ & ? & _)]. destruct (h !! t); [by destruct Hf as (_ & ? & _)|by destruct Hf].
Qed.

(** Two open tasks are not about the same expert. *)
Lemma open_key s h t u task task' :
  sys_inv (mkSystem s h) -> tasks_ s !! t = Some task -> tasks_ s !! u = Some task' ->
  sk_completed task = false -> sk_completed task' = false ->
  request_key (sk_request task) = request_key (sk_request task') -> t = u.
Proof.
  intros Hy Ht Hu Hc Hc' Hk. apply (tv_pending _ _ _ (sys_task _ _ _ _ Hy Ht)) in Hc.
  apply (tv_pending _ _ _ (sys_task _ _ _ _ Hy Hu)) in Hc'. cbn in *. congruence.
Qed.

(** A worker moves its task to its next phase; only its expert may change its state, and
    only while the task is open. *)
Lemma own_inv x s s' h t task p p' :
  sys_inv (mkSystem s h) -> h !! t = Some p -> tasks_ s !! t = Some task -> calm x s s' ->
  x = None \/ (x = Some (request_key (sk_request task)) /\ after_close p = false) -> after_close p' = after_close p ->
  (forall task', task_soft task task' -> phase_ok (states_ s') task' p') ->
  sys_inv (mkSystem s' (<[t := p']> h)).
Proof.
  intros Hy Hp Ht Hc Hx Hac Hok. destruct (in_hand _ _ _ _ _ Hy Hp Ht) as (Hco & Hsa & Hpr & _).
  eapply calm_core; [done|done| |].
  - intros u [q Hq]. destruct (decide (u = t)) as [->|Hne]; [by eexists|].
    rewrite lookup_insert_ne in Hq by done. by apply (sy_hands _ Hy); eexists.
  - intros u z z' Hu Hsoft Hf. destruct (decide (u = t)) as [->|Hne].
    + assert (z = task) as -> by congruence. unfold fate. cbn.
      rewrite (ts_completed _ _ Hsoft), (ts_started _ _ Hsoft), (ts_promise _ _ Hsoft), Hco, Hsa, lookup_insert_eq, Hac. auto.
    + eapply fate_calm; [done|done|by rewrite lookup_insert_ne| |done].
      intros Hz Heq. destruct Hx as [->|[-> Hbc]]; [done|]. injection Heq as Heq. destruct Hne. eapply open_key; [exact Hy|done..| |done]. congruence.
Qed.

(** *** One task changed *)

Record focus (y y' : System) (t k : Z) : Prop := Focus {
  fo_states : forall k', k' <> k -> states_ (sched y') !! k' = states_ (sched y) !! k';
  fo_known : is_Some (states_ (sched y) !! k) -> is_Some (states_ (sched y') !! k);
  fo_sm : StateMachine.sm_inv (states_ (sched y'));
  fo_tasks : forall u, u <> t -> tasks_ (sched y') !! u = tasks_ (sched y) !! u;
  fo_key : forall task, tasks_ (sched y) !! t = Some task -> request_key (sk_request task) = k;
  fo_nextTask : nextTask_ (sched y) <= nextTask_ (sched y');
  fo_queue : forall e, qe_task e <> t -> e ∈ queue_ (sched y') <-> e ∈ queue_ (sched y);
  fo_hands : forall u, u <> t -> hands y' !! u = hands y !! u;
  fo_pending : forall k', k' <> k -> pendingByExpert_ (sched y') !! k' = pendingByExpert_ (sched y) !! k';
  fo_sequence : nextSequence_ (sched y) <= nextSequence_ (sched y') <= u64_max;
  fo_stopping : stopping_ (sched y') = stopping_ (sched y);
  fo_own : pendingByExpert_ (sched y) !! k = Some t \/ pendingByExpert_ (sched y) !! k = None;
  fo_own' : pendingByExpert_ (sched y') !! k = Some t \/ pendingByExpert_ (sched y') !! k = None;
}.

Lemma focus_other y y' t k u task :
  sys_inv y -> focus y y' t k -> u <> t -> tasks_ (sched y) !! u = Some task -> task_inv y' u task.
Proof.
  intros Hy Hf Hne Hu. destruct (sy_tasks y Hy u task Hu) as [Hb Hwf Hkn Hg Hp Hfate Hst].
  assert (sk_completed task = false -> request_key (sk_request task) <> k) as Hk.
  { intros Hc Heq. apply Hp in Hc. rewrite Heq in Hc. destruct (fo_own _ _ _ _ Hf); congruence. }
  assert (sk_completed task = false -> forall l, expert_in (states_ (sched y)) task l -> expert_in (states_ (sched y')) task l) as Hin.
  { intros Hc l (e & He & Hl). exists e. rewrite (fo_states _ _ _ _ Hf) by auto. done. }
  pose proof (fo_nextTask _ _ _ _ Hf). pose proof (fo_sequence _ _ _ _ Hf). split; try done; try lia.
  - destruct (decide (request_key (sk_request task) = k)) as [Heq|Hnk].
    + rewrite Heq. apply (fo_known _ _ _ _ Hf). by rewrite <- Heq.
    + by rewrite (fo_states _ _ _ _ Hf).
  - destruct (decide (request_key (sk_request task) = k)) as [Heq|Hnk].
    + rewrite Heq. split; [intros Hc; by destruct (Hk Hc)|]. intros Hc. destruct (fo_own' _ _ _ _ Hf); congruence.
    + by rewrite (fo_pending _ _ _ _ Hf).
  - unfold fate in *. rewrite (fo_hands _ _ _ _ Hf) by done. destruct (sk_started task).
    + destruct (hands y !! u) as [p|]; [|done]. destruct Hfate as (Hc & Hpr & Hok). split; [done|]. split; [done|].
      destruct p; cbn in *; auto.
    + destruct Hfate as (Hc & Hpr & Hh & (e & He & Het & Heg) & ?). split_and!; [done..| |by auto].
      exists e. split; [|done]. apply (fo_queue _ _ _ _ Hf); [congruence|done].
  - by rewrite (fo_stopping _ _ _ _ Hf).
Qed.

Lemma focus_inv y y' t k task' :
  sys_inv y -> focus y y' t k -> tasks_ (sched y') !! t = Some task' -> task_inv y' t task' ->
  request_key (sk_request task') = k ->
  (forall e, e ∈ queue_ (sched y') -> qe_task e = t ->
     0 <= qe_sequence e < nextSequence_ (sched y') /\ qe_generation e <= sk_generation task') ->
  NoDup (qe_sequence <$> queue_ (sched y')) -> sys_inv y'.
Proof.
  intros Hy Hf Ht Hti Hk Hq Hnd. pose proof (fo_sequence _ _ _ _ Hf). pose proof (sy_sequence y Hy).
  pose proof (fo_nextTask _ _ _ _ Hf). pose proof (sy_nextTask y Hy).
  split; try done; try lia.
  - by apply (fo_sm _ _ _ _ Hf).
  - intros u task Hu. destruct (decide (u = t)) as [->|Hne]; [by assert (task = task') as -> by congruence|].
    rewrite (fo_tasks _ _ _ _ Hf) in Hu by done. by eapply focus_other.
  - intros k' u Hu. destruct (decide (k' = k)) as [->|Hnk].
    + assert (u = t) as -> by (destruct (fo_own' _ _ _ _ Hf); congruence). eauto.
    + rewrite (fo_pending _ _ _ _ Hf) in Hu by done. destruct (sy_pending y Hy k' u Hu) as (task & Hx & Hxk).
      destruct (decide (u = t)) as [->|Hne].
      * pose proof (fo_key _ _ _ _ Hf task Hx). congruence.
      * exists task. by rewrite (fo_tasks _ _ _ _ Hf).
  - apply Forall_forall. intros e He. destruct (decide (qe_task e = t)) as [Het|Hne].
    + destruct (Hq e He Het). split; [done|]. exists task'. by rewrite Het.
    + apply (fo_queue _ _ _ _ Hf) in He; [|done].
      pose proof (sy_queue y Hy) as Hall. rewrite Forall_forall in Hall.
      destruct (Hall e He) as (Hb & task & Hx & Hg). split; [lia|]. exists task. by rewrite (fo_tasks _ _ _ _ Hf).
  - intros u Hu. destruct (decide (u = t)) as [->|Hne]; [by eexists|].
    rewrite (fo_tasks _ _ _ _ Hf) by done. apply (sy_hands y Hy). by rewrite <- (fo_hands _ _ _ _ Hf).
Qed.

(** *** Scheduling *)

Lemma set_states_id s : set_states (states_ s) s = s.
Proof. by destruct s. Qed.

Lemma wp_on_states {A} (m : ST (gmap Z ExpertState) A) s Q E :
  wp m (states_ s) (fun a st => Q a (set_states st s)) (fun e st => E e (set_states st s)) ->
  wp (on_states m) s Q E.
Proof. unfold wp, on_states. destruct (m (states_ s)) as [[| |] st]; done. Qed.

(** The entry of [k] was rewritten, and now is in state [l]. *)
Record rewritten (s s' : Scheduler) (k : Z) (l : ExpertLifecycleState) : Prop := Rewritten {
  rw_same : s' = set_states (states_ s') s;
  rw_others : forall k', k' <> k -> states_ s' !! k' = states_ s !! k';
  rw_entry : exists e, states_ s' !! k = Some e /\ es_state e = l;
  rw_sm : StateMachine.sm_inv (states_ s');
}.

Lemma entry_rewritten s k l e e' :
  StateMachine.sm_inv (states_ s) -> states_ s !! k = Some e -> es_state e' = l ->
  es_layerId e' = es_layerId e -> es_id e' = es_id e ->
  (l = Ready \/ l = InUse -> es_currentLocation e' = es_targetLocation e') ->
  rewritten s (set_states (<[k := e']> (states_ s)) s) k l.
Proof.
  intros Hs He Hl Hll Hi Hr. split; [done| | |].
  - intros k' Hne. cbn. by rewrite lookup_insert_ne.
  - exists e'. cbn. by rewrite lookup_insert_eq.
  - apply map_Forall_insert_2; [|done]. destruct (Hs k e He) as (? & ? & ? & _).
    split; [by rewrite Hll, Hi|]. rewrite Hll, Hi. split; [done|]. split; [done|]. rewrite Hl. done.
Qed.

(** A transition, seen from the scheduler. *)
Lemma wp_moves (l i : Z) allowed msg f (st : ExpertLifecycleState) s (Q : unit -> Scheduler -> Prop) E :
  StateMachine.sm_inv (states_ s) ->
  (forall e, es_state (f e) = st /\ es_layerId (f e) = es_layerId e /\ es_id (f e) = es_id e /\
     (st = Ready \/ st = InUse -> es_currentLocation (f e) = es_targetLocation (f e))) ->
  (forall e s', states_ s !! pack_key l i = Some e -> es_state e ∈ allowed ->
     rewritten s s' (pack_key l i) st -> Q tt s') ->
  (states_ s !! pack_key l i = None \/
   (exists e, states_ s !! pack_key l i = Some e /\ es_state e ∉ allowed) -> forall x, E x s) ->
  wp (on_states (StateMachine.transition l i allowed msg f)) s Q E.
Proof.
  intros Hs Hf HQ HE. apply wp_on_states, StateMachine.wp_transition.
  - intros e He Ha. destruct (Hf e) as (? & ? & ? & ?). eapply HQ; [done|done|]. by eapply entry_rewritten.
  - intros Hn. rewrite set_states_id. apply HE. by left.
  - intros e He Ha. rewrite set_states_id. apply HE. right. eauto.
Qed.

Lemma wp_enter (eviction : bool) l i dest s (Q : unit -> Scheduler -> Prop) E :
  StateMachine.sm_inv (states_ s) ->
  (forall s', rewritten s s' (pack_key l i) (waiting_state eviction) -> Q tt s') -> (forall x, E x s) ->
  wp (if eviction then on_states (StateMachine.beginEviction l i dest)
      else (on_states (StateMachine.request l i dest) ;;; on_states (StateMachine.markQueued l i))%st) s Q E.
Proof.
  intros Hs HQ HE. destruct eviction.
  - unfold StateMachine.beginEviction. apply (wp_moves _ _ _ _ _ Evicting); [done| |by eauto|by auto].
    intros e. split_and!; try done. intros [?|?]; discriminate.
  - wp_step. unfold StateMachine.request. apply (wp_moves _ _ _ _ _ Requested); [done| | |by auto].
    { intros e. split_and!; try done. intros [?|?]; discriminate. }
    intros e s1 He _ [Hsame Hoth (e1 & He1 & Hst1) Hsm]. unfold StateMachine.markQueued.
    apply (wp_moves _ _ _ _ _ Queued); [done| | |].
    { intros x. split_and!; try done. intros [?|?]; discriminate. }
    + intros x s2 Hx _ [Hsame2 Hoth2 He2 Hsm2]. apply HQ. split; [|intros k' Hk'; by rewrite Hoth2, Hoth|done|done].
      rewrite Hsame2 at 1. rewrite Hsame. done.
    + intros [Hn|(x & Hx & Ha)]; [congruence|]. exfalso. apply Ha. assert (x = e1) as -> by congruence.
      rewrite Hst1. by apply list_elem_of_singleton.
Qed.

Lemma fresh_task y : sys_inv y ->
  tasks_ (sched y) !! nextTask_ (sched y) = None /\ hands y !! nextTask_ (sched y) = None /\
  (forall e, e ∈ queue_ (sched y) -> qe_task e <> nextTask_ (sched y)) /\
  (forall k, pendingByExpert_ (sched y) !! k <> Some (nextTask_ (sched y))).
Proof.
  intros Hy. assert (tasks_ (sched y) !! nextTask_ (sched y) = None) as Hn.
  { apply eq_None_not_Some. intros [task Ht]. pose proof (tv_bound _ _ _ (sy_tasks y Hy _ task Ht)). lia. }
  split; [done|]. split; [|split].
  - apply eq_None_not_Some. intros Hh. apply (sy_hands y Hy) in Hh. rewrite Hn in Hh. by apply is_Some_None in Hh.
  - intros e He Heq. pose proof (sy_queue y Hy) as Hall. rewrite Forall_forall in Hall.
    destruct (Hall e He) as (_ & task & Ht & _). congruence.
  - intros k Hk. destruct (sy_pending y Hy k _ Hk) as (task & Ht & _). congruence.
Qed.

Lemma sequence_fresh y : sys_inv y -> nextSequence_ (sched y) ∉ qe_sequence <$> queue_ (sched y).
Proof.
  intros Hy Hin. apply list_elem_of_fmap in Hin as (e & Heq & He). pose proof (sy_queue y Hy) as Hall.
  rewrite Forall_forall in Hall. destruct (Hall e He) as [Hb _]. lia.
Qed.

Lemma NoDup_snoc {A} (l : list A) x : NoDup l -> x ∉ l -> NoDup (l ++ [x]).
Proof.
  intros Hl Hx. apply NoDup_app. split; [done|]. split; [|apply NoDup_singleton].
  intros y Hy ->%list_elem_of_singleton. done.
Qed.

Lemma enqueue_inv s s1 h request callback :
  sys_inv (mkSystem s h) -> request_wf request -> seq_room s -> stopping_ s = false ->
  pendingByExpert_ s !! request_key request = None ->
  rewritten s s1 (request_key request) (waiting_state (sr_eviction request)) ->
  sys_inv (mkSystem (push (nextTask_ s) (new_task request callback)
    (with_pending (<[request_key request := nextTask_ s]>) (allocate_task (new_task request callback) s1))) h).
Proof.
  intros Hy Hwf Hroom Hstop Hpend [Hsame Hoth Hent Hsm].
  destruct (fresh_task _ Hy) as (Hn & Hh & Hq & Hp). pose proof (sequence_fresh _ Hy) as Hseq.
  pose proof (sy_sequence _ Hy) as Hs. pose proof (sy_nextTask _ Hy) as Ht. cbn in *.
  unfold seq_room in Hroom. set (k := request_key request) in *. set (task := new_task request callback).
  assert (tasks_ s1 = tasks_ s /\ nextTask_ s1 = nextTask_ s /\ queue_ s1 = queue_ s /\
    pendingByExpert_ s1 = pendingByExpert_ s /\ nextSequence_ s1 = nextSequence_ s /\ stopping_ s1 = stopping_ s)
    as (Et & En & Eq & Ep & Es & Eo) by (rewrite Hsame; done).
  assert (wrap64 (nextSequence_ s1 + 1) = nextSequence_ s + 1) as Hw by (rewrite Es; apply wrap64_small; unfold is_u64; lia).
  eapply (focus_inv (mkSystem s h) _ (nextTask_ s) k task); [done|split| | |done| |]; cbn; rewrite ?Et, ?En, ?Eq, ?Ep, ?Hw, ?Eo.
  - done.
  - intros _. by destruct Hent as (e & -> & _).
  - done.
  - intros u Hu. by rewrite lookup_insert_ne.
  - intros x Hx. congruence.
  - lia.
  - intros e He. rewrite elem_of_app, list_elem_of_singleton. split; [|by left]. intros [?| ->]; [done|]. by destruct He.
  - done.
  - intros k' Hk'. by rewrite lookup_insert_ne.
  - lia.
  - done.
  - by right.
  - left. by rewrite lookup_insert_eq.
  - by rewrite lookup_insert_eq.
  - split; cbn; rewrite ?En, ?Ep, ?Hw, ?Eo, ?Hstop; try done; try lia.
    + destruct Hent as (e & He & _). by exists e.
    + split; [intros _|done]. by rewrite lookup_insert_eq.
    + unfold fate. cbn. split_and!; [done..| |by destruct Hent as (e & ? & ?); exists e].
      eexists. rewrite elem_of_app, list_elem_of_singleton. split; [by right|]. done.
  - intros e He Het. apply elem_of_app in He as [He|He]; [by destruct (Hq e He)|].
    apply list_elem_of_singleton in He as ->. cbn. rewrite Es. lia.
  - rewrite fmap_app. cbn. apply NoDup_snoc; [apply (sy_nodup _ Hy)|]. by rewrite Es.
Qed.

Lemma promote_inv s h t task higher request :
  sys_inv (mkSystem s h) -> seq_room s -> tasks_ s !! t = Some task ->
  sk_started task = false -> sk_completed task = false ->
  sys_inv (mkSystem (push t (promote_task higher request task) (with_tasks (alter (promote_task higher request) t) s)) h).
Proof.
  intros Hy Hroom Ht Hsa Hco. pose proof (sys_task _ _ _ _ Hy Ht) as [Hb Hwf Hkn Hg Hpend Hf Hst].
  pose proof (sequence_fresh _ Hy) as Hseq. pose proof (sy_sequence _ Hy) as Hs. pose proof (sy_nextTask _ Hy) as Hnt.
  unfold seq_room in Hroom. cbn in *. unfold fate in Hf. rewrite Hsa in Hf. cbn in Hf.
  destruct Hf as (_ & Hpr & Hh & _ & Hin). pose proof (proj1 Hpend Hco) as Hown.
  assert (wrap64 (nextSequence_ s + 1) = nextSequence_ s + 1) as Hw by (apply wrap64_small; unfold is_u64; lia).
  assert (wrap64 (sk_generation task + 1) = sk_generation task + 1) as Hwg by (apply wrap64_small; unfold is_u64; lia).
  eapply (focus_inv (mkSystem s h) _ t (request_key (sk_request task)) (promote_task higher request task));
    [done|split| | |done| |]; cbn; rewrite ?Hw.
  - done.
  - done.
  - apply (sy_states _ Hy).
  - intros u Hu. by rewrite lookup_alter_ne.
  - intros x Hx. congruence.
  - lia.
  - intros e He. rewrite elem_of_app, list_elem_of_singleton. split; [|by left]. intros [?| ->]; [done|]. by destruct He.
  - done.
  - done.
  - lia.
  - done.
  - by left.
  - by left.
  - by rewrite lookup_alter_eq, Ht.
  - split; cbn; rewrite ?Hw, ?Hwg; try done; try lia.
    unfold fate. cbn. rewrite Hsa. split_and!; [done..| |done].
    eexists. rewrite elem_of_app, list_elem_of_singleton. split; [by right|]. done.
  - intros e He Het. apply elem_of_app in He as [He|He].
    + pose proof (sy_queue _ Hy) as Hall. rewrite Forall_forall in Hall.
      destruct (Hall e He) as (Hb' & x & Hx & Hgx). cbn in *. assert (x = task) as -> by congruence. lia.
    + apply list_elem_of_singleton in He as ->. cbn. lia.
  - rewrite fmap_app. cbn. apply NoDup_snoc; [apply (sy_nodup _ Hy)|done].
Qed.

(** A joined request adds its callback. *)
Lemma join_inv s h t task callback active :
  sys_inv (mkSystem s h) -> tasks_ s !! t = Some task -> sk_completed task = false ->
  sys_inv (mkSystem (with_tasks (alter (join_callback callback active) t) s) h).
Proof.
  intros Hy Ht Hco. pose proof (sys_task _ _ _ _ Hy Ht) as [Hb Hwf Hkn Hg Hpend Hf Hst].
  pose proof (sy_sequence _ Hy) as Hs. pose proof (proj1 Hpend Hco) as Hown. cbn in *.
  eapply (focus_inv (mkSystem s h) _ t (request_key (sk_request task)) (join_callback callback active task));
    [done|split| | |done| |]; cbn; try done; try lia.
  - apply (sy_states _ Hy).
  - intros u Hu. by rewrite lookup_alter_ne.
  - intros x Hx. congruence.
  - by left.
  - by left.
  - by rewrite lookup_alter_eq, Ht.
  - split; cbn; try done. unfold fate in *. cbn in *. destruct (sk_started task); [|done].
    destruct (h !! t) as [p|]; [|done]. destruct Hf as (Hc & Hpr & Hok). split; [done|]. split; [done|]. rewrite Hco in Hc. by destruct p.
  - intros e He Het. pose proof (sy_queue _ Hy) as Hall. rewrite Forall_forall in Hall.
    destruct (Hall e He) as (Hb' & x & Hx & Hgx). cbn in *. assert (x = task) as -> by congruence. done.
  - apply (sy_nodup _ Hy).
Qed.

(** No call of a client touches a promise. *)
Definition kept (s s' : Scheduler) : Prop :=
  forall t task, tasks_ s !! t = Some task -> exists task', tasks_ s' !! t = Some task' /\
    sk_promise task' = sk_promise task /\ sk_completed task' = sk_completed task.

Lemma kept_refl s : kept s s.
Proof. intros t task Ht. by exists task. Qed.

Lemma kept_trans a b c : kept a b -> kept b c -> kept a c.
Proof.
  intros H1 H2 t task Ht. destruct (H1 t task Ht) as (u & Hu & ? & ?). destruct (H2 t u Hu) as (v & ? & ? & ?).
  exists v. split; [done|]. split; congruence.
Qed.

Lemma kept_soft s s' :
  (forall t, option_relation task_soft (fun _ => False) (fun _ => False) (tasks_ s !! t) (tasks_ s' !! t)) -> kept s s'.
Proof.
  intros H t task Ht. specialize (H t). rewrite Ht in H. destruct (tasks_ s' !! t) as [task'|]; [|done].
  exists task'. split; [done|]. split; [apply (ts_promise _ _ H)|apply (ts_completed _ _ H)].
Qed.

Lemma kept_calm x s s' : calm x s s' -> kept s s'.
Proof. intros Hc. apply kept_soft. apply (ca_tasks _ _ _ Hc). Qed.

(** What a call leaves behind whether it returns or throws. *)
Definition leaves (h : gmap Z Phase) (s s' : Scheduler) : Prop := sys_inv (mkSystem s' h) /\ kept s s'.
Definition keeps {A} (h : gmap Z Phase) (m : ST Scheduler A) (s : Scheduler) : Prop :=
  wp m s (fun _ s' => leaves h s s') (fun _ s' => leaves h s s').

Lemma leaves_calm h s s' : sys_inv (mkSystem s h) -> calm None s s' -> leaves h s s'.
Proof. intros Hy Hc. split; [exact (calm_inv _ _ _ Hy Hc)|by eapply kept_calm]. Qed.

Lemma leaves_trans h s s1 s2 : kept s s1 -> leaves h s1 s2 -> leaves h s s2.
Proof. intros H [? ?]. split; [done|by eapply kept_trans]. Qed.

Lemma keeps_calm {A} h (m : ST Scheduler A) s :
  sys_inv (mkSystem s h) -> wp m s (fun _ s' => calm None s s') (fun _ s' => calm None s s') -> keeps h m s.
Proof. intros Hy Hm. eapply wp_mono; [exact Hm|..]; intros ? s' Hc; exact (leaves_calm _ _ _ Hy Hc). Qed.

Lemma keeps_from {A} h (m : ST Scheduler A) s s1 :
  kept s s1 -> keeps h m s1 -> wp m s1 (fun _ s' => leaves h s s') (fun _ s' => leaves h s s').
Proof. intros Hk Hm. eapply wp_mono; [exact Hm|..]; intros ? s' Hl; exact (leaves_trans _ _ _ _ Hk Hl). Qed.

Lemma keeps_snd {A} h (m : ST Scheduler A) s : keeps h m s -> leaves h s (snd (m s)).
Proof. unfold keeps, wp. by destruct (m s) as [[| |] s']. Qed.

Lemma pending_task s h k t :
  sys_inv (mkSystem s h) -> pendingByExpert_ s !! k = Some t ->
  exists task, tasks_ s !! t = Some task /\ request_key (sk_request task) = k /\ sk_completed task = false.
Proof.
  intros Hy Hp. destruct (sy_pending _ Hy k t Hp) as (task & Ht & Hk). exists task. split_and!; [done|done|].
  apply (tv_pending _ _ _ (sys_task _ _ _ _ Hy Ht)). cbn. by rewrite Hk.
Qed.

Lemma kept_alter f t s :
  (forall task, sk_promise (f task) = sk_promise task /\ sk_completed (f task) = sk_completed task) ->
  kept s (with_tasks (alter f t) s).
Proof.
  intros Hf u task Hu. cbn. destruct (decide (u = t)) as [->|Hne].
  - rewrite lookup_alter_eq, Hu. exists (f task). split; [done|]. apply Hf.
  - rewrite lookup_alter_ne by done. by exists task.
Qed.

Lemma join_keeps t request callback s h :
  sys_inv (mkSystem s h) -> seq_room s -> pendingByExpert_ s !! request_key request = Some t ->
  keeps h (join_task t request callback) s.
Proof.
  intros Hy Hroom Hp. destruct (pending_task _ _ _ _ Hy Hp) as (task0 & Ht0 & _ & Hc0).
  unfold keeps, join_task. wp_step. apply calm_deref; [by eexists|]. intros task1 Ht1.
  assert (task1 = task0) as -> by congruence. wp_step. wp_step; [by split; [|apply kept_refl]|]. wp_step. wp_step.
  set (s1 := with_tasks _ s).
  assert (leaves h s s1) as [Hy1 Hk1].
  { split; [by eapply join_inv|]. by apply (kept_alter (join_callback _ _)). }
  assert (tasks_ s1 !! t = Some (join_callback callback (bool_decide (sr_priority request = ActiveInference)) task0))
    as Ht2 by (cbn; by rewrite lookup_alter_eq, Ht0).
  wp_step. apply calm_deref; [by eexists|]. intros task Ht. assert (task = _) as -> by (rewrite Ht2 in Ht; by injection Ht).
  wp_step. destruct (_ && _) eqn:Hcond; [|by repeat wp_step].
  apply andb_true_iff in Hcond as [_ Hns]. apply negb_true_iff in Hns.
  wp_step. wp_step. wp_step. wp_step. split; [by apply promote_inv|]. eapply kept_trans; [exact Hk1|].
  by apply (kept_alter (promote_task _ request) t s1).
Qed.

Lemma start_keeps request callback s h :
  sys_inv (mkSystem s h) -> request_wf request -> seq_room s -> stopping_ s = false ->
  pendingByExpert_ s !! request_key request = None -> keeps h (start_task request callback) s.
Proof.
  intros Hy Hwf Hroom Hstop Hp. unfold keeps, start_task. wp_step.
  apply wp_enter; [apply (sy_states _ Hy)| |by intros _; split; [|apply kept_refl]].
  intros s1 Hr. pose proof (enqueue_inv s s1 h request callback Hy Hwf Hroom Hstop Hp Hr) as Hi.
  assert (nextTask_ s1 = nextTask_ s) as En by (rewrite (rw_same _ _ _ _ Hr); done).
  assert (tasks_ s1 = tasks_ s) as Et by (rewrite (rw_same _ _ _ _ Hr); done).
  wp_step. wp_step. wp_step. wp_step. wp_step. wp_step. wp_step. wp_step. wp_step. wp_step. rewrite En.
  wp_step. unfold profile. wp_step. wp_step. eapply leaves_trans; [|apply leaves_calm; [exact Hi|by apply calm_quiet]].
  intros t task Ht. cbn. rewrite En, Et, lookup_insert_ne; [by exists task|]. intros Heq.
  destruct (fresh_task _ Hy) as [Hn _]. cbn in Hn. congruence.
Qed.

Lemma schedule_keeps request callback s h :
  sys_inv (mkSystem s h) -> request_wf request -> seq_room s -> keeps h (schedule request callback) s.
Proof.
  intros Hy Hwf Hroom. unfold keeps, schedule. unfold publish at 1. wp_step. wp_step.
  set (s1 := with_events _ s).
  assert (leaves h s s1) as [Hy1 Hk1] by (apply leaves_calm; [done|by apply calm_quiet]).
  wp_step. wp_step. wp_step. wp_step; [done|]. apply wp_bind, wp_lift. destruct (StateMachine.snapshot _ _ _) as [initial| |] eqn:Hsn;
    [|done|by destruct (snapshot_not_diverge _ _ _ Hsn)].
  wp_step. eapply wp_mono; [apply calm_record| |].
  { intros t Ht. destruct (pending_task _ _ _ _ Hy1 Ht) as (task & ? & _). by eexists. }
  - intros u s2 Hc2. cbn beta in Hc2. clear u. pose proof (calm_inv _ _ _ Hy1 Hc2) as Hy2.
    pose proof (kept_trans _ _ _ Hk1 (kept_calm _ _ _ Hc2)) as Hk2. apply (keeps_from h _ s s2 Hk2).
    assert (pendingByExpert_ s2 = pendingByExpert_ s1) as Ep by apply (ca_pending _ _ _ Hc2).
    assert (seq_room s2) as Hroom2 by (unfold seq_room; by rewrite (ca_nextSequence _ _ _ Hc2)).
    assert (stopping_ s2 = false) as Hst2.
    { rewrite (ca_stopping _ _ _ Hc2). by destruct (stopping_ s1). }
    destruct (pendingByExpert_ s1 !! request_key request) as [t|] eqn:Hp.
    + apply join_keeps; [done|done|by rewrite Ep].
    + destruct (_ && _); [|apply start_keeps; try done; by rewrite Ep].
      apply (keeps_calm h _ s2 Hy2). destruct (bool_decide _).
      * wp_step. wp_step. eapply wp_calm_call; [apply calm_ready|by apply calm_quiet].
      * wp_step. wp_step. apply calm_ready.
  - intros x s2 Hc2. cbn beta in Hc2. eapply leaves_trans; [exact Hk1|]. exact (leaves_calm _ _ _ Hy1 Hc2).
Qed.

(** A call takes at most one sequence number. *)
Definition sequence_after (s s' : Scheduler) : Prop := nextSequence_ s' <= nextSequence_ s + 1.

Lemma sequence_calm s s' : calm None s s' -> sequence_after s s'.
Proof. intros Hc. unfold sequence_after. rewrite (ca_nextSequence _ _ _ Hc). lia. Qed.

Lemma sequence_push t task s : nextSequence_ s < u64_max -> 0 <= nextSequence_ s -> sequence_after s (push t task s).
Proof. intros H1 H2. unfold sequence_after. cbn. rewrite wrap64_small by (unfold is_u64; lia). lia. Qed.

Lemma join_sequence t request callback s h :
  sys_inv (mkSystem s h) -> seq_room s -> pendingByExpert_ s !! request_key request = Some t ->
  wp (join_task t request callback) s (fun _ s' => sequence_after s s') (fun _ s' => sequence_after s s').
Proof.
  intros Hy Hroom Hp. destruct (pending_task _ _ _ _ Hy Hp) as (task0 & Ht0 & _).
  pose proof (sy_sequence _ Hy) as Hs. cbn in Hs. unfold seq_room in Hroom.
  assert (sequence_after s s) as Hrefl by (unfold sequence_after; lia).
  unfold join_task. wp_step. apply calm_deref; [by eexists|]. intros task1 Ht1.
  wp_step. wp_step; [done|]. wp_step. wp_step. wp_step. apply calm_deref.
  { eexists. cbn. by rewrite lookup_alter_eq, Ht0. }
  intros task Ht. wp_step. destruct (_ && _); [|wp_steps; exact Hrefl]. wp_steps. exact (sequence_push t task s Hroom (proj1 Hs)).
Qed.

Lemma start_sequence request callback s h :
  sys_inv (mkSystem s h) -> seq_room s ->
  wp (start_task request callback) s (fun _ s' => sequence_after s s') (fun _ s' => sequence_after s s').
Proof.
  intros Hy Hroom. pose proof (sy_sequence _ Hy) as Hs. cbn in Hs. unfold seq_room in Hroom.
  unfold start_task. wp_step. apply wp_enter; [apply (sy_states _ Hy)| |by intros _; unfold sequence_after; lia].
  intros s1 Hr. assert (nextSequence_ s1 = nextSequence_ s) as En by (rewrite (rw_same _ _ _ _ Hr); done).
  unfold profile. wp_steps. unfold sequence_after. cbn. rewrite En, wrap64_small by (unfold is_u64; lia). lia.
Qed.

Lemma schedule_sequence request callback s h :
  sys_inv (mkSystem s h) -> seq_room s ->
  wp (schedule request callback) s (fun _ s' => sequence_after s s') (fun _ s' => sequence_after s s').
Proof.
  intros Hy Hroom. assert (sequence_after s s) as Hrefl by (unfold sequence_after; lia).
  unfold schedule. unfold publish at 1. wp_step. wp_step.
  set (s1 := with_events _ s). assert (leaves h s s1) as [Hy1 Hk1] by (apply leaves_calm; [done|by apply calm_quiet]).
  wp_step. wp_step. wp_step. wp_step; [done|]. apply wp_bind, wp_lift. destruct (StateMachine.snapshot _ _ _) as [initial| |] eqn:Hsn;
    [|done|by destruct (snapshot_not_diverge _ _ _ Hsn)].
  wp_step. eapply wp_mono; [apply calm_record| |].
  { intros t Ht. destruct (pending_task _ _ _ _ Hy1 Ht) as (task & ? & _). by eexists. }
  2:{ intros x s2 Hc2. cbn beta in Hc2. exact (sequence_calm _ _ Hc2). }
  intros u s2 Hc2. cbn beta in Hc2. clear u. pose proof (calm_inv _ _ _ Hy1 Hc2) as Hy2.
  assert (nextSequence_ s2 = nextSequence_ s) as Hn by (rewrite (ca_nextSequence _ _ _ Hc2); done).
  assert (seq_room s2) as Hroom2 by (unfold seq_room; by rewrite Hn).
  assert (forall s3, sequence_after s2 s3 -> sequence_after s s3) as Hafter by (unfold sequence_after; intros; lia).
  destruct (pendingByExpert_ s1 !! request_key request) as [t|] eqn:Hp.
  - eapply wp_mono; [apply (join_sequence t _ _ _ h Hy2 Hroom2); rewrite (ca_pending _ _ _ Hc2); exact Hp|..]; intros ? s3 H3; by apply Hafter.
  - destruct (_ && _).
    + assert (forall s3, calm None s2 s3 -> sequence_after s s3) as Hcalm by (intros s3 H3; apply Hafter, sequence_calm, H3).
      apply (wp_mono _ _ (fun _ s3 => calm None s2 s3) _ (fun _ s3 => calm None s2 s3));
        [|by intros ? s3 H3; apply Hcalm..].
      destruct (bool_decide _); wp_step; wp_step; [eapply wp_calm_call; [apply calm_ready|by apply calm_quiet]|apply calm_ready].
    + eapply wp_mono; [eapply start_sequence; [exact Hy2|done]|..]; intros ? s3 H3; by apply Hafter.
Qed.

(** The bookkeeping of the profiler leaves the states and cannot fail. *)
Lemma record_states request initial existing s :
  (forall t, existing = Some t -> is_Some (tasks_ s !! t)) ->
  wp (record_schedule request initial existing) s (fun _ s' => states_ s' = states_ s) (fun _ _ => False).
Proof.
  intros He. unfold record_schedule, profile. wp_step. wp_step. destruct (profiler_ s); [|by wp_step]. wp_step.
  apply (wp_mono _ _ (fun _ s' => states_ s' = states_ s /\ tasks_ s' = tasks_ s) _ (fun _ _ => False)); [by case_bool_decide; wp_step| |done].
  intros _ s1 [H1 H2]. case_bool_decide; [|by wp_step]. wp_steps. destruct (_ && _); [by wp_steps|].
  destruct existing as [t|]; [|by wp_steps]. wp_step. apply calm_deref; [by cbn; rewrite H2; apply He|]. intros task _.
  destruct (sk_prefetchRequest task); [|by wp_steps]. destruct (already_there _ _); by wp_steps.
Qed.

(** A transition of a registered expert is refused as a logic error only. *)
Lemma wp_known l i allowed msg f s (Q : unit -> Scheduler -> Prop) (E : exn -> Scheduler -> Prop) :
  is_Some (states_ s !! pack_key l i) -> (forall s', is_Some (states_ s' !! pack_key l i) -> Q tt s') -> E (Exn LogicError msg) s ->
  wp (on_states (StateMachine.transition l i allowed msg f)) s Q E.
Proof.
  intros [e He] HQ HE. apply wp_on_states, StateMachine.wp_transition.
  - intros e' _ _. apply HQ. cbn. rewrite lookup_insert_eq. by eexists.
  - intros Hn. congruence.
  - intros _ _ _. by rewrite set_states_id.
Qed.

(** A request is refused as out of range exactly when its expert was never registered. *)
Lemma schedule_known request callback s h :
  sys_inv (mkSystem s h) ->
  wp (schedule request callback) s (fun _ _ => is_Some (states_ s !! request_key request))
    (fun e _ => is_out_of_range e = true -> states_ s !! request_key request = None).
Proof.
  intros Hy. unfold schedule. unfold publish at 1. wp_step. wp_step. set (s1 := with_events _ s).
  assert (leaves h s s1) as [Hy1 _] by (apply leaves_calm; [done|by apply calm_quiet]).
  wp_step. wp_step. wp_step. wp_step; [done|]. apply wp_bind, wp_lift. unfold StateMachine.snapshot. fold (request_key request).
  change (states_ s1) with (states_ s). destruct (states_ s !! request_key request) as [initial|] eqn:Hk; [|done].
  wp_step. assert (forall t, pendingByExpert_ s1 !! request_key request = Some t -> is_Some (tasks_ s1 !! t)) as Hpt.
  { intros t Ht. destruct (pending_task _ _ _ _ Hy1 Ht) as (task & ? & _). by eexists. }
  eapply wp_mono; [apply (wp_conj _ _ _ _ _ _ (calm_record request initial _ s1 Hpt) (record_states request initial _ s1 Hpt))| |by intros ? ? [_ []]].
  intros u s2 [Hc2 Hs2]. cbn beta in Hc2. change (states_ s1) with (states_ s) in Hs2. pose proof (calm_inv _ _ _ Hy1 Hc2) as Hy2.
  destruct (pendingByExpert_ s1 !! request_key request) as [t|] eqn:Hp.
  - destruct (Hpt t eq_refl) as [task0 Ht0]. destruct (calm_known _ _ _ t Hc2 (Hpt t eq_refl)) as [task1 Ht1].
    unfold join_task. wp_step. apply calm_deref; [by eexists|]. intros task2 _. wp_step. wp_step; [done|]. wp_step. wp_step. wp_step.
    apply calm_deref; [eexists; cbn; by rewrite lookup_alter_eq, Ht1|]. intros task _. wp_step. destruct (_ && _); by wp_steps.
  - destruct (_ && _).
    + wp_step. apply (wp_mono _ _ (fun _ s3 => states_ s3 = states_ s) _ (fun _ _ => False)); [by case_bool_decide; wp_step| |done].
      intros _ s3 H3. unfold readyResult, publish. wp_step. wp_step. wp_step. apply wp_lift. unfold StateMachine.snapshot.
      fold (request_key request). rewrite H3, Hk. wp_step. destruct callback; by wp_steps.
    + unfold start_task, profile. wp_step. unfold StateMachine.beginEviction, StateMachine.request, StateMachine.markQueued.
      assert (is_Some (states_ s2 !! request_key request)) as Hsome by (rewrite Hs2, Hk; by eexists).
      destruct (sr_eviction request); [|wp_step]; (eapply wp_known; [exact Hsome| |done]); intros s3 Hs3; [by wp_steps|].
      eapply wp_known; [exact Hs3| |done]. intros s4 _. by wp_steps.
Qed.

Lemma shutdown_keeps_inv s h : sys_inv (mkSystem s h) -> sys_inv (mkSystem (shutdown s) h).
Proof.
  intros Hy. unfold shutdown. destruct (stopping_ s) eqn:Hstop; [done|].
  set (flag := fun t task => if bool_decide (t ∈ (map_to_list (pendingByExpert_ s)).*2) then set_cancelled task else task).
  set (s1 := with_tasks (map_imap (fun t task => Some (flag t task))) s).
  assert (forall t, tasks_ s1 !! t = flag t <$> tasks_ s !! t) as Hl.
  { intros t. cbn. rewrite map_lookup_imap. by destruct (tasks_ s !! t). }
  assert (forall t task, task_soft task (flag t task)) as Hsoft.
  { intros t task. unfold flag. case_bool_decide; by split. }
  assert (sys_inv (mkSystem s1 h)) as Hy1.
  { apply (calm_inv s s1 h Hy). split; try done. intros t. rewrite Hl. destruct (tasks_ s !! t); cbn; [apply Hsoft|done]. }
  destruct Hy1 as [Hst Hta Hpe Hqu Hnd Hha Hse Hnt]. split; try done.
  intros t task Ht. destruct (Hta t task Ht) as [? ? ? ? Hpend ? _]. split; try done.
  intros _ Hc. apply Hpend in Hc. cbn in Hc, Ht. rewrite Hl in Ht. apply fmap_Some in Ht as (x & Hx & ->).
  unfold flag in *. case_bool_decide as Hin; [done|]. destruct Hin.
  apply list_elem_of_fmap. exists (request_key (sk_request x), t). split; [done|]. by apply elem_of_map_to_list.
Qed.

(** *** Taking a task *)

Lemma nodup_image {A B} (f : A -> B) (l : list A) x y :
  NoDup (f <$> l) -> x ∈ l -> y ∈ l -> f x = f y -> x = y.
Proof.
  induction l as [|a l IH]; [by intros _ ?%not_elem_of_nil|]. cbn. rewrite NoDup_cons, !elem_of_cons.
  intros [Ha Hl] [->|Hx] [->|Hy] Heq; [done| | |auto]; destruct Ha.
  - rewrite Heq. by apply list_elem_of_fmap_2.
  - rewrite <- Heq. by apply list_elem_of_fmap_2.
Qed.

Lemma elem_of_drop e x q : x ∈ drop_entry e q <-> qe_sequence x <> qe_sequence e /\ x ∈ q.
Proof. unfold drop_entry. by rewrite list_elem_of_filter. Qed.

Lemma drop_nodup e q : NoDup (qe_sequence <$> q) -> NoDup (qe_sequence <$> drop_entry e q).
Proof. intros Hq. eapply sublist_NoDup; [exact Hq|]. by apply fmap_sublist, sublist_filter. Qed.

Lemma drop_shorter e q : e ∈ q -> (length (drop_entry e q) < length q)%nat.
Proof. intros He. unfold drop_entry. apply length_filter_lt with e; [done|]. intros Hne. by apply Hne. Qed.

(** A stale entry may go. *)
Lemma drop_inv s h e :
  sys_inv (mkSystem s h) -> e ∈ queue_ s ->
  (forall task, tasks_ s !! qe_task e = Some task -> live e task = false) ->
  sys_inv (mkSystem (set_queue (drop_entry e (queue_ s)) s) h).
Proof.
  intros Hy He Hstale. destruct Hy as [Hst Hta Hpe Hqu Hnd Hha Hse Hnt]. cbn in *. split; cbn; try done.
  - intros t task Ht. destruct (Hta t task Ht) as [? ? ? ? ? Hf ?]. split; try done.
    unfold fate in *. cbn in *. destruct (sk_started task) eqn:Hsa; [done|].
    destruct Hf as (Hco & Hpr & Hh & (x & Hx & Hxt & Hxg) & Hin). split_and!; [done..| |done]. exists x. split; [|done]. apply elem_of_drop. split; [|done]. intros Heq.
    assert (x = e) as -> by by apply (nodup_image qe_sequence (queue_ s)). subst t. specialize (Hstale task Ht). unfold live in Hstale.
    rewrite Hco, Hsa, Hxg, Z.eqb_refl in Hstale. discriminate.
  - apply Forall_forall. intros x [_ Hx]%elem_of_drop. rewrite Forall_forall in Hqu. exact (Hqu x Hx).
  - by apply drop_nodup.
Qed.

Lemma live_open e task : live e task = true ->
  sk_completed task = false /\ sk_started task = false /\ qe_generation e = sk_generation task.
Proof.
  unfold live. rewrite !andb_true_iff, !negb_true_iff, Z.eqb_eq. tauto.
Qed.

(** The first live entry puts its task in a worker's hands. *)
Lemma take_inv s h e task :
  sys_inv (mkSystem s h) -> e ∈ queue_ s -> tasks_ s !! qe_task e = Some task -> live e task = true ->
  sys_inv (mkSystem (with_tasks (alter set_started (qe_task e)) (set_queue (drop_entry e (queue_ s)) s))
             (<[qe_task e := Taken]> h)).
Proof.
  intros Hy He Ht (Hco & Hsa & Hg)%live_open. pose proof (sys_task _ _ _ _ Hy Ht) as [Hb Hwf Hkn Hgb Hpend Hf Hst].
  cbn in *. unfold fate in Hf. rewrite Hsa in Hf. destruct Hf as (_ & Hpr & Hh & _ & Hin). cbn in Hin.
  pose proof (proj1 Hpend Hco) as Hown. pose proof (sy_sequence _ Hy) as Hs. cbn in Hs.
  eapply (focus_inv (mkSystem s h) _ (qe_task e) (request_key (sk_request task)) (set_started task));
    [done|split| | |done| |]; cbn; try done; try lia.
  - apply (sy_states _ Hy).
  - intros u Hu. by rewrite lookup_alter_ne.
  - intros x Hx. congruence.
  - intros x Hx. rewrite elem_of_drop. split; [by intros []|]. intros Hxq. split; [|done]. intros Heq. destruct Hx.
    f_equal. by apply (nodup_image qe_sequence (queue_ s)); [apply (sy_nodup _ Hy)|..].
  - intros u Hu. by rewrite lookup_insert_ne.
  - by left.
  - by left.
  - by rewrite lookup_alter_eq, Ht.
  - split; cbn; try done. unfold fate. cbn. rewrite lookup_insert_eq. done.
  - intros x [_ Hx]%elem_of_drop Hxt. pose proof (sy_queue _ Hy) as Hall. rewrite Forall_forall in Hall.
    destruct (Hall x Hx) as (? & y & Hy' & ?). cbn in *. assert (y = task) as -> by congruence. done.
  - apply drop_nodup, (sy_nodup _ Hy).
Qed.

(** What a worker finds: entries of the queue, no live one passed over. *)
Record found (s : Scheduler) (q : list QueueEntry) (e : QueueEntry) : Prop := Found {
  fd_sub : forall x, x ∈ q -> x ∈ queue_ s;
  fd_live : forall x task, x ∈ queue_ s -> tasks_ s !! qe_task x = Some task -> live x task = true -> x ∈ q;
  fd_top : top q = Some e;
  fd_task : exists task, tasks_ s !! qe_task e = Some task /\ live e task = true;
  fd_nodup : NoDup (qe_sequence <$> q);
}.

Definition no_live (s : Scheduler) : Prop :=
  forall x task, x ∈ queue_ s -> tasks_ s !! qe_task x = Some task -> live x task = false.

Lemma top_queued q e : top q = Some e -> e ∈ q.
Proof. apply scan_min_elem. Qed.

Lemma take_live_spec fuel s h :
  sys_inv (mkSystem s h) -> (length (queue_ s) < fuel)%nat ->
  wp (take_live fuel) s
    (fun r s' => match r with
       | Some t => exists q e, found s q e /\ qe_task e = t /\ tasks_ s' = alter set_started t (tasks_ s) /\
           sys_inv (mkSystem s' (<[t := Taken]> h))
       | None => no_live s /\ tasks_ s' = tasks_ s /\ sys_inv (mkSystem s' h)
       end) (fun _ _ => False).
Proof.
  revert s. induction fuel as [|fuel IH]; intros s Hy Hl; [lia|]. cbn [take_live]. wp_step. wp_step.
  destruct (top (queue_ s)) as [e|] eqn:He.
  2:{ wp_step. split; [|done]. apply scan_min_None in He. intros x task Hx. rewrite He in Hx. by apply not_elem_of_nil in Hx. }
  pose proof (top_queued _ _ He) as Hin. wp_step. wp_step. wp_step.
  pose proof (sy_queue _ Hy) as Hall. rewrite Forall_forall in Hall. destruct (Hall e Hin) as (_ & task & Ht & _). cbn in Ht.
  apply calm_deref; [by eexists|]. intros task' Ht'. cbn in Ht'. assert (task' = task) as -> by congruence.
  destruct (live e task) eqn:Hlive.
  - wp_step. wp_step. wp_step. exists (queue_ s), e. split_and!; [split; try done; [by eauto|apply (sy_nodup _ Hy)]|done|done|].
    by eapply take_inv.
  - assert (forall x, tasks_ s !! qe_task e = Some x -> live e x = false) as Hstale by (intros; congruence).
    pose proof (drop_inv _ _ _ Hy Hin Hstale) as Hy1. pose proof (drop_shorter _ _ Hin).
    eapply wp_mono; [apply (IH _ Hy1); cbn; lia| |done]. intros r s' Hr. cbn beta in Hr.
    assert (forall x y, x ∈ queue_ s -> tasks_ s !! qe_task x = Some y -> live x y = true -> x ∈ drop_entry e (queue_ s)) as Hkeep.
    { intros x y Hx Hy' Hly. apply elem_of_drop. split; [|done]. intros Heq.
      assert (x = e) as -> by (apply (nodup_image qe_sequence (queue_ s)); [apply (sy_nodup _ Hy)|done..]). congruence. }
    destruct r as [t|].
    + destruct Hr as (q & e' & [H1 H2 H3 H4 H5] & ? & ? & ?). cbn in *. exists q, e'. split_and!; [split|done..]; [|eauto|done|done|done].
      intros x Hx. by apply H1, elem_of_drop in Hx as [_ ?].
    + destruct Hr as (Hno & ? & ?). split; [|done]. intros x y Hx Hy'. destruct (live x y) eqn:Hly; [|done].
      rewrite <- Hly. apply Hno; [by eapply Hkeep|done].
Qed.

(** ** The phases of a worker *)

(** The parts left to do in a phase of a task. *)
Definition phase_rank (task : ScheduleTask) (p : Phase) : Z :=
  let callbacks := Z.of_nat (length (sk_callbacks task)) in
  match p with
  | Taken => callbacks + 7 | Submitted => callbacks + 6 | Arrived _ => callbacks + 5 | Stored _ => callbacks + 4
  | Closing _ => callbacks + 3 | Notifying _ cs => Z.of_nat (length cs) + 2 | Settling _ => 1
  end.

Definition own_key (task : ScheduleTask) : Z :=
  pack_key (sr_layerId (sk_request task)) (sr_expertId (sk_request task)).

Lemma calm_markReady l i loc now : calm_call (Some (pack_key l i)) (on_states (StateMachine.markReady l i loc now)).
Proof. unfold StateMachine.markReady. apply calm_call_transition; [done|]. intros k e He _. by apply entry_settle. Qed.

Lemma calm_markFailed l i : calm_call (Some (pack_key l i)) (on_states (StateMachine.markFailed l i)).
Proof.
  unfold StateMachine.markFailed. apply calm_call_transition; [done|]. intros k e (? & ? & ? & _) _. split; [done|]. split; [done|]. split; [done|].
  cbn. intros [?|?]; discriminate.
Qed.

Section worker.
Context (s0 : Scheduler) (t : Z) (task : ScheduleTask).
Context (Htask : tasks_ s0 !! t = Some task) (Hknown : is_Some (states_ s0 !! own_key task)).

Notation x := (Some (own_key task)).

Lemma wp_own_deref s Q E :
  calm x s0 s -> (forall task', tasks_ s !! t = Some task' -> task_soft task task' -> Q task' s) -> wp (deref_task t) s Q E.
Proof.
  intros Hc HQ. destruct (calm_some_back _ _ _ _ _ Hc Htask) as (task' & Ht' & Hsoft).
  apply calm_deref; [by eexists|]. intros y Hy. assert (y = task') as -> by congruence. auto.
Qed.

Lemma own_entry s : calm x s0 s -> exists e, states_ s !! own_key task = Some e.
Proof. intros Hc. exact (cs_known _ _ _ (ca_states _ _ _ Hc) _ Hknown). Qed.

(** Failing the task succeeds. *)
Lemma wp_complete_failed result s :
  calm x s0 s -> sx_success result = false ->
  wp (complete_failed t result) s (fun r s' => calm x s0 s' /\ sx_success r = false) (fun _ _ => False).
Proof.
  intros Hc Hr. unfold complete_failed. rewrite Hr. wp_step. apply wp_own_deref; [done|]. intros task' Ht' Hsoft.
  rewrite (ts_request _ _ Hsoft). wp_step.
  apply (wp_mono _ _ (fun _ s' => calm x s0 s') _ (fun _ s' => False)); [| |done].
  - destruct (own_entry s Hc) as [e He]. unfold StateMachine.markFailed. apply wp_on_states, StateMachine.wp_transition.
    + intros e' He' _. pose proof (calm_markFailed (sr_layerId (sk_request task)) (sr_expertId (sk_request task)) s) as Hm.
      eapply calm_trans; [exact Hc|]. revert Hm. unfold wp, on_states, StateMachine.markFailed, StateMachine.transition,
        st_bind, st_get, lift, throw_if, modify. rewrite He'.
      unfold is_state. rewrite bool_decide_true; [done|]. destruct (es_state e'); apply (bool_decide_unpack _); vm_compute; exact I.
    + intros Hn. fold (own_key task) in Hn. congruence.
    + intros e' _ Hn. apply Hn. destruct (es_state e'); apply (bool_decide_unpack _); vm_compute; exact I.
  - intros u s1 Hc1. clear u. cbn beta in Hc1. wp_step. wp_step. wp_step. apply wp_lift.
    destruct (own_entry s1 Hc1) as [e He]. unfold StateMachine.snapshot. fold (own_key task). rewrite He. wp_step. done.
Qed.

Lemma wp_closing cancelled error s (G : Phase -> Scheduler -> Prop) :
  calm x s0 s -> (forall r s', sx_success r = false -> G (Closing r) s') ->
  wp (result <- complete_failed t (failed_result cancelled error) ;; ret (Closing result))%st s
    (fun p s' => calm x s0 s' /\ G p s') (fun _ _ => False).
Proof.
  intros Hc HG. wp_step. eapply wp_mono; [by apply wp_complete_failed| |done].
  intros r s' [? ?]. cbn beta. wp_step. auto.
Qed.

Lemma wp_catching m s (G : Phase -> Scheduler -> Prop) :
  (forall r s', sx_success r = false -> G (Closing r) s') ->
  wp m s (fun p s' => calm x s0 s' /\ G p s') (fun _ s' => calm x s0 s') ->
  wp (catching t m) s (fun p s' => calm x s0 s' /\ G p s') (fun _ _ => False).
Proof.
  intros HG Hm. unfold catching. wp_step. eapply wp_mono; [exact Hm|done|]. intros e s' Hc. cbn beta in *.
  by apply wp_closing.
Qed.
End worker.

(** What an unfinished part of an iteration leaves. *)
Definition part_done (s : Scheduler) (task : ScheduleTask) (p p' : Phase) (s' : Scheduler) : Prop :=
  calm (Some (own_key task)) s s' /\ phase_rank task p' < phase_rank task p /\ after_close p' = false /\
  forall task', task_soft task task' -> phase_ok (states_ s') task' p'.

Lemma wp_begin s t task :
  tasks_ s !! t = Some task -> is_Some (states_ s !! own_key task) ->
  phase_ok (states_ s) task Taken ->
  wp (begin_task t) s (part_done s task Taken) (fun _ _ => False).
Proof.
  intros Ht Hk Hok. unfold begin_task. wp_step. apply calm_deref; [by eexists|]. intros y Hy.
  assert (y = task) as -> by congruence. wp_step. unfold profile. wp_step.
  set (s1 := with_metrics _ s). assert (calm (Some (own_key task)) s s1) as Hc1 by by apply calm_quiet.
  destruct (sk_cancelled task).
  { apply (wp_closing s t task Ht Hk true _ s1); [done|]. intros r s' _. split; [cbn; lia|done]. }
  wp_step. destruct Hok as (e & He & Hst). change (request_key (sk_request task)) with (own_key task) in He.
  apply (wp_mono _ _ (fun _ s2 => calm (Some (own_key task)) s s2 /\
           expert_in (states_ s2) task (running_state (sr_eviction (sk_request task)))) _ (fun _ _ => False)).
  - destruct (sr_eviction (sk_request task)) eqn:Hev.
    + wp_step. split; [done|]. by exists e.
    + unfold StateMachine.markLoading. apply wp_on_states, StateMachine.wp_transition.
      * intros e' He' _. split; [|exists (set_lifecycle Loading e'); split; [apply lookup_insert_eq|done]].
        eapply calm_trans; [exact Hc1|]. apply calm_set_states. split.
        -- intros k z Hne Hz _. rewrite lookup_insert_ne; [done|]. intros Heq. apply Hne. by f_equal.
        -- intros k Hz. rewrite lookup_insert_is_Some'. by right.
        -- intros Hsm. apply map_Forall_insert_2; [|done]. destruct (Hsm _ _ He') as (? & ? & ? & _).
           split; [done|]. split; [done|]. split; [done|]. cbn. intros [?|?]; discriminate.
      * intros Hn. change (states_ s !! own_key task = None) in Hn. congruence.
      * intros e' He' Hn. change (states_ s !! own_key task = Some e') in He'. assert (e' = e) as -> by congruence.
        apply Hn. rewrite Hst. by left.
  - intros u s2 [Hc2 Hin]. clear u. wp_step. unfold publish. wp_step. wp_step. wp_step. wp_step.
    apply (wp_mono _ _ (fun _ s3 => calm (Some (own_key task)) s s3 /\ states_ s3 = states_ s2) _ (fun _ _ => False)).
    + destruct (_ && _); wp_step; (split; [eapply calm_trans; [exact Hc2|by apply calm_quiet]|done]).
    + intros u s3 [Hc3 Hs3]. clear u. wp_step. split; [done|]. split; [cbn; lia|]. split; [done|]. intros task' Hsoft. cbn.
      destruct Hin as (e' & He' & Hl'). exists e'. by rewrite Hs3, (ts_request _ _ Hsoft).
    + done.
  - done.
Qed.

(** A calm call in front. *)
Lemma wp_calm_bind {A B} x (m : ST Scheduler A) (k : A -> ST Scheduler B) s0 s Q E :
  calm_call x m -> calm x s0 s -> (forall a s', calm x s0 s' -> wp (k a) s' Q E) ->
  (forall e s', calm x s0 s' -> E e s') -> wp (st_bind m k) s Q E.
Proof. intros Hm Hc HQ HE. apply wp_bind. eapply wp_mono; [by eapply wp_calm_call|exact HQ|exact HE]. Qed.

Section phases.
Context (s : Scheduler) (t : Z) (task : ScheduleTask).
Context (Ht : tasks_ s !! t = Some task) (Hk : is_Some (states_ s !! own_key task)).

Lemma part_done_closing p r s' : phase_rank task (Closing r) < phase_rank task p ->
  phase_rank task (Closing r) < phase_rank task p /\ after_close (Closing r) = false /\
  forall y, task_soft task y -> phase_ok (states_ s') y (Closing r).
Proof. by split. Qed.

Lemma wp_receive outcome now :
  outcome <> Diverge -> wp (receive t outcome now) s (part_done s task Submitted) (fun _ _ => False).
Proof.
  intros Ho. apply (wp_catching s t task Ht Hk); [intros; apply part_done_closing; cbn; lia|]. wp_step.
  apply (wp_own_deref s t task Ht s); [apply calm_refl|].
  intros task' _ Hsoft. wp_step. apply wp_lift. destruct outcome as [r|e|]; [|apply calm_refl|done].
  destruct (rs_status r).
  - rewrite (ts_request _ _ Hsoft). eapply wp_calm_bind; [apply calm_markReady|apply calm_refl| |by intros].
    intros _ s1 Hc1. eapply wp_calm_bind; [calm_steps|exact Hc1| |by intros].
    intros _ s2 Hc2. eapply wp_calm_bind; [calm_steps|exact Hc2| |by intros].
    intros _ s3 Hc3. wp_step. split; [done|]. split; [cbn; lia|]. done.
  - eapply wp_mono; [apply (wp_closing s t task Ht Hk true _ s
      (fun p s' => phase_rank task p < phase_rank task Submitted /\ after_close p = false /\ forall y, task_soft task y -> phase_ok (states_ s') y p));
      [apply calm_refl|intros; apply part_done_closing; cbn; lia]|by intros|by intros].
Qed.

Lemma wp_store r : wp (store t r) s (part_done s task (Arrived r)) (fun _ _ => False).
Proof.
  apply (wp_catching s t task Ht Hk); [intros; apply part_done_closing; cbn; lia|]. wp_step.
  apply (wp_own_deref s t task Ht s); [apply calm_refl|]. intros task' _ Hsoft.
  eapply wp_calm_bind; [calm_steps|apply calm_refl| |by intros]. intros _ s1 Hc1.
  eapply wp_calm_bind; [calm_steps; apply calm_bound_loop|exact Hc1| |by intros].
  intros _ s2 Hc2. wp_step. split; [done|]. split; [cbn; lia|]. done.
Qed.

Lemma wp_finish r : wp (finish t r) s (part_done s task (Stored r)) (fun _ _ => False).
Proof.
  apply (wp_catching s t task Ht Hk); [intros; apply part_done_closing; cbn; lia|]. wp_step.
  apply (wp_own_deref s t task Ht s); [apply calm_refl|]. intros task' _ Hsoft.
  eapply wp_calm_bind; [calm_steps|apply calm_refl| |by intros]. intros _ s1 Hc1.
  eapply wp_calm_bind; [calm_steps|exact Hc1| |by intros]. intros _ s2 Hc2.
  eapply wp_calm_bind; [calm_steps|exact Hc2| |by intros]. intros _ s3 Hc3.
  eapply wp_calm_bind; [calm_steps|exact Hc3| |by intros]. intros _ s4 Hc4.
  wp_step. wp_step. wp_step. apply wp_lift.
  pose proof (snapshot_not_diverge (sr_layerId (sk_request task')) (sr_expertId (sk_request task')) (states_ s4)).
  destruct (StateMachine.snapshot _ _ _); [|done|done]. wp_step. split; [done|]. split; [cbn; lia|]. done.
Qed.
End phases.

(** The locked part of [complete]. *)
Lemma close_inv s h t task r p :
  sys_inv (mkSystem s h) -> h !! t = Some p -> after_close p = false -> tasks_ s !! t = Some task ->
  sys_inv (mkSystem (with_pending (fun pending =>
      if bool_decide (pending !! request_key (sk_request task) = Some t)
      then delete (request_key (sk_request task)) pending else pending)
    (with_tasks (alter set_completed t) s)) (<[t := Notifying r (sk_callbacks task)]> h)).
Proof.
  intros Hy Hp Hbc Ht. destruct (in_hand _ _ _ _ _ Hy Hp Ht) as (Hco & Hsa & Hpr & _). rewrite Hbc in Hco.
  pose proof (sys_task _ _ _ _ Hy Ht) as [Hb Hwf Hkn Hgb Hpend Hf Hst]. pose proof (sy_sequence _ Hy) as Hs. cbn in *.
  pose proof (proj1 Hpend Hco) as Hown.
  eapply (focus_inv (mkSystem s h) _ t (request_key (sk_request task)) (set_completed task));
    [done|split| | |done| |]; cbn; try done; try lia; rewrite ?bool_decide_true by done.
  - apply (sy_states _ Hy).
  - intros u Hu. by rewrite lookup_alter_ne.
  - intros x Hx. congruence.
  - intros u Hu. by rewrite lookup_insert_ne.
  - intros k' Hk'. by rewrite lookup_delete_ne.
  - by left.
  - right. by rewrite lookup_delete_eq.
  - by rewrite lookup_alter_eq, Ht.
  - split; cbn; try done; rewrite ?bool_decide_true by done.
    + split; [done|]. by rewrite lookup_delete_eq.
    + unfold fate. cbn. rewrite lookup_insert_eq, Hsa. split; [done|]. split; [done|]. by exists [].
  - intros x Hx Hxt. pose proof (sy_queue _ Hy) as Hall. rewrite Forall_forall in Hall.
    destruct (Hall x Hx) as (? & y & Hy' & ?). cbn in *. assert (y = task) as -> by congruence. done.
  - apply (sy_nodup _ Hy).
Qed.

(** The promise is set, and the worker lets go of the task.  The expert may have a new
    task by now. *)
Lemma settle_inv s h t task r p :
  sys_inv (mkSystem s h) -> h !! t = Some p -> after_close p = true -> tasks_ s !! t = Some task ->
  sys_inv (mkSystem (with_tasks (alter (set_promise r) t) s) (delete t h)).
Proof.
  intros Hy Hp Hac Ht. destruct (in_hand _ _ _ _ _ Hy Hp Ht) as (Hco & Hsa & Hpr & _). rewrite Hac in Hco.
  destruct Hy as [Hst Hta Hpe Hqu Hnd Hha Hse Hnt]. cbn in *. split; cbn; try done.
  - intros u x Hu. destruct (decide (u = t)) as [->|Hne].
    + rewrite lookup_alter_eq, Ht in Hu. injection Hu as <-. destruct (Hta t task Ht) as [? ? ? ? ? _ ?]. split; try done.
      unfold fate. cbn. rewrite lookup_delete_eq, Hsa. split; [done|by eexists].
    + rewrite lookup_alter_ne in Hu by done. destruct (Hta u x Hu) as [? ? ? ? ? Hf ?]. split; try done.
      unfold fate in *. cbn in *. by rewrite lookup_delete_ne.
  - intros k u Hk. destruct (Hpe k u Hk) as (x & Hx & Hxk). destruct (decide (u = t)) as [->|Hne].
    + exists (set_promise r x). by rewrite lookup_alter_eq, Hx.
    + exists x. by rewrite lookup_alter_ne.
  - eapply Forall_impl; [exact Hqu|]. intros e (Hb & x & Hx & Hg). cbn in *. split; [done|]. cbn.
    destruct (decide (qe_task e = t)) as [Heq|Hne]; [exists (set_promise r x)|exists x]; rewrite ?Heq in *;
      by rewrite ?lookup_alter_eq, ?lookup_alter_ne, ?Hx.
  - intros u Hu. apply lookup_alter_is_Some, Hha. by apply lookup_delete_is_Some in Hu as [_ ?].
Qed.

Definition others_soft (s s' : Scheduler) (t : Z) : Prop :=
  forall u, u <> t -> option_relation task_soft (fun _ => False) (fun _ => False) (tasks_ s !! u) (tasks_ s' !! u).

(** One part of an iteration: the worker survives, the invariant is kept, and its
    task is closer to its end. *)
Record worked (y y' : System) (t : Z) (p : Phase) : Prop := Worked {
  wk_inv : sys_inv y';
  wk_tasks : others_soft (sched y) (sched y') t;
  wk_hands : forall u, u <> t -> hands y' !! u = hands y !! u;
  wk_own : exists task', tasks_ (sched y') !! t = Some task' /\
    match hands y' !! t with
    | Some p' => phase_rank task' p' < phase_rank task' p
    | None => exists r, p = Settling r /\ sk_promise task' = Some r
    end /\ sk_callbacks <$> tasks_ (sched y) !! t = Some (sk_callbacks task');
}.

(** A part that ends with a phase. *)
Lemma part_worked x (m : ST Scheduler Phase) s h t task p :
  sys_inv (mkSystem s h) -> h !! t = Some p -> tasks_ s !! t = Some task ->
  x = None \/ (x = Some (request_key (sk_request task)) /\ after_close p = false) ->
  wp m s (fun p' s' => calm x s s' /\ phase_rank task p' < phase_rank task p /\ after_close p' = after_close p /\
    forall task', task_soft task task' -> phase_ok (states_ s') task' p') (fun _ _ => False) ->
  exists p' s', m s = (Ok p', s') /\ worked (mkSystem s h) (mkSystem s' (<[t := p']> h)) t p.
Proof.
  intros Hy Hp Ht Hx Hm. destruct (wp_result _ _ _ _ Hm) as [(p' & s' & Heq & Hc & Hr & Hac & Hok)|(e & s' & _ & [])].
  exists p', s'. split; [done|]. destruct (calm_some_back _ _ _ _ _ Hc Ht) as (task' & Ht' & Hsoft). split; cbn.
  - eapply own_inv; [exact Hy|exact Hp|exact Ht|exact Hc|exact Hx|exact Hac|exact Hok].
  - intros u _. apply (ca_tasks _ _ _ Hc).
  - intros u Hu. by rewrite lookup_insert_ne.
  - exists task'. rewrite lookup_insert_eq, Ht. cbn. split; [done|]. unfold phase_rank in *. by rewrite (ts_callbacks _ _ Hsoft).
Qed.

Lemma wp_close s h t task r :
  sys_inv (mkSystem s h) -> h !! t = Some (Closing r) -> tasks_ s !! t = Some task ->
  wp (complete_close t r) s (fun cs s' => cs = Some (sk_callbacks task) /\
      worked (mkSystem s h) (mkSystem s' (<[t := Notifying r (sk_callbacks task)]> h)) t (Closing r)) (fun _ _ => False).
Proof.
  intros Hy Hp Ht. destruct (in_hand _ _ _ _ _ Hy Hp Ht) as (Hco & _).
  unfold complete_close. wp_step. apply calm_deref; [by eexists|]. intros y Hy'. assert (y = task) as -> by congruence.
  rewrite Hco. cbn [after_close]. wp_step. wp_step. wp_step. wp_step. pose proof (close_inv s h t task r _ Hy Hp eq_refl Ht) as Hi.
  set (s1 := with_pending _ _) in *. wp_step. wp_step. wp_step. unfold profile. wp_step. wp_step. split; [done|].
  assert (tasks_ s1 = alter set_completed t (tasks_ s)) as Et by done. split; cbn.
  - eapply calm_inv; [exact Hi|by apply calm_quiet].
  - intros u Hu. cbn. rewrite lookup_alter_ne by done. apply option_soft_refl.
  - intros u Hu. by rewrite lookup_insert_ne.
  - exists (set_completed task). rewrite lookup_alter_eq, lookup_insert_eq, Ht. cbn. split; [done|]. split; [lia|done].
Qed.

Lemma settle_worked s h t task r :
  sys_inv (mkSystem s h) -> h !! t = Some (Settling r) -> tasks_ s !! t = Some task ->
  worked (mkSystem s h) (mkSystem (with_tasks (alter (set_promise r) t) s) (delete t h)) t (Settling r).
Proof.
  intros Hy Hp Ht. split; cbn.
  - by eapply settle_inv.
  - intros u Hu. cbn. rewrite lookup_alter_ne by done. apply option_soft_refl.
  - intros u Hu. by rewrite lookup_delete_ne.
  - exists (set_promise r task). rewrite lookup_alter_eq, lookup_delete_eq, Ht. cbn. split; [done|]. split; [by exists r|done].
Qed.

Lemma bind_phase (m : ST Scheduler unit) (p : Phase) s :
  (m ;;; ret (Some p))%st s = (p' <- (m ;;; ret p) ;; ret (Some p'))%st s.
Proof. unfold st_bind, ret. by destruct (m s) as [[| |] s']. Qed.

Lemma work_spec y t p outcome now :
  sys_inv y -> hands y !! t = Some p -> outcome <> Diverge ->
  exists y', work t outcome now y = Some y' /\ worked y y' t p.
Proof.
  destruct y as [s h]. intros Hy Hp Ho. cbn in Hp. destruct (sy_hands _ Hy t) as [task Ht]; [by eexists|]. cbn in Ht.
  destruct (in_hand _ _ _ _ _ Hy Hp Ht) as (Hco & Hsa & _ & Hok).
  assert (is_Some (states_ s !! own_key task)) as Hk by exact (tv_known _ _ _ (sys_task _ _ _ _ Hy Ht)).
  unfold work. cbn [hands sched]. rewrite Hp.
  assert (forall x (m : ST Scheduler Phase), x = None \/ (x = Some (request_key (sk_request task)) /\ after_close p = false) ->
    wp m s (fun p' s' => calm x s s' /\ phase_rank task p' < phase_rank task p /\ after_close p' = after_close p /\
      forall task', task_soft task task' -> phase_ok (states_ s') task' p') (fun _ _ => False) ->
    exists y', match ((p' <- m ;; ret (Some p'))%st : ST Scheduler (option Phase)) s with
      | (Ok (Some p'), s') => Some (mkSystem s' (<[t := p']> h))
      | (Ok None, s') => Some (mkSystem s' (delete t h)) | _ => None end = Some y' /\ worked (mkSystem s h) y' t p) as Hpart.
  { intros x m Hx Hm. destruct (part_worked x m s h t task p Hy Hp Ht Hx Hm) as (p' & s' & Heq & Hw).
    exists (mkSystem s' (<[t := p']> h)). unfold st_bind. rewrite Heq. by split. }
  destruct p as [ | |r|r|r|r [|c cs]|r]; cbn [advance].
  - eapply Hpart; [by right|]. by apply wp_begin.
  - eapply Hpart; [by right|]. by apply wp_receive.
  - eapply Hpart; [by right|]. by apply wp_store.
  - eapply Hpart; [by right|]. by apply wp_finish.
  - destruct (wp_result _ _ _ _ (wp_close s h t task r Hy Hp Ht)) as [(cs & s' & Heq & -> & Hw)|(e & s' & _ & [])].
    eexists. unfold st_bind. rewrite Heq. by split.
  - rewrite bind_phase. apply (Hpart None (complete_publish t r ;;; ret (Settling r))%st); [by left|]. unfold complete_publish. wp_step. wp_step.
    apply calm_deref; [by eexists|]. intros y _. unfold publish.
    destruct (sx_success r); wp_steps; (split; [by apply calm_quiet|done]).
  - rewrite bind_phase. apply (Hpart None (complete_notify c r ;;; ret (Notifying r cs))%st); [by left|]. unfold complete_notify. wp_steps.
    split; [by apply calm_quiet|]. split; [cbn; lia|]. split; [done|]. intros task' Hsoft.
    destruct Hok as [made Hok]. exists (made ++ [c]). by rewrite (ts_callbacks _ _ Hsoft), Hok, <- app_assoc.
  - eexists. split; [reflexivity|]. by eapply settle_worked.
Qed.
