(* ===== verification/SchedulerProperties.v ===== *)
(** * Properties of the scheduler

    Runs of clients and workers over [SchedulerInvariant]: no request is lost,
    workers survive, futures settle once, the most urgent request goes first, a
    request joins the pending one, and the workers empty the queue. *)

From S2P Require Import Prelude Float Tiers MemoryManager Bytes ExpertIndex ExpertStore Transfer.
From S2P Require Import ExpertState Scheduler SchedulerInvariant.

(** ** Reachable states *)

Definition started (s : Scheduler) : Prop :=
  exists cuda profiler workers dest bytes, newScheduler cuda profiler workers dest bytes = Ok s.

Definition reachable (y : System) : Prop := exists s, started s /\ rtc sys_step (mkSystem s ∅) y.

Lemma started_inv s : started s -> sys_inv (mkSystem s ∅).
Proof.
  intros (cuda & profiler & workers & dest & bytes & Hn). unfold newScheduler, res_bind, throw_if in Hn.
  destruct (workers =? 0); [done|]. destruct (_ || _); [done|]. injection Hn as <-.
  split; cbn; try done; try lia.
  - constructor.
  - intros t [p Hp]. by rewrite lookup_empty in Hp.
Qed.

(** A step keeps the invariant, and the promises that were set. *)
Definition settled (y y' : System) : Prop :=
  forall t task r, tasks_ (sched y) !! t = Some task -> sk_promise task = Some r ->
    exists task', tasks_ (sched y') !! t = Some task' /\ sk_promise task' = Some r.

Lemma settled_kept s s' h h' : kept s s' -> settled (mkSystem s h) (mkSystem s' h').
Proof. intros Hk t task r Ht Hr. destruct (Hk t task Ht) as (task' & ? & ? & _). exists task'. split; [done|congruence]. Qed.

Lemma calm_call_leaves {A} (m : ST Scheduler A) s h :
  calm_call None m -> sys_inv (mkSystem s h) -> leaves h s (snd (m s)).
Proof. intros Hm Hy. apply keeps_snd, keeps_calm; [done|apply Hm]. Qed.

Lemma shutdown_kept s : kept s (shutdown s).
Proof.
  unfold shutdown. destruct (stopping_ s); [apply kept_refl|]. intros t task Ht. cbn.
  rewrite map_lookup_imap, Ht. cbn. eexists. split; [done|]. by case_bool_decide.
Qed.

Lemma worked_settled y y' t p : sys_inv y -> hands y !! t = Some p -> worked y y' t p -> settled y y'.
Proof.
  destruct y as [s h]. intros Hy Hp Hw u task r Hu Hr. destruct (decide (u = t)) as [->|Hne].
  - destruct (promise_done _ _ _ _ _ Hy Hu Hr) as [_ Hn]. cbn in Hp. congruence.
  - pose proof (wk_tasks _ _ _ _ Hw u Hne) as H. cbn in H, Hu. rewrite Hu in H. destruct (tasks_ (sched y') !! u) as [task'|]; [|done].
    exists task'. split; [done|]. by rewrite (ts_promise _ _ H).
Qed.

(** A [pick] is the locked loop, run to its end. *)
Lemma pick_spec y y' : sys_inv y -> pick y = Some y' ->
  sys_inv y' /\ settled y y' /\
  ((hands y' = hands y /\ no_live (sched y) /\ tasks_ (sched y') = tasks_ (sched y)) \/
   exists t q e, found (sched y) q e /\ qe_task e = t /\ hands y' = <[t := Taken]> (hands y) /\
     tasks_ (sched y') = alter set_started t (tasks_ (sched y))).
Proof.
  destruct y as [s h]. intros Hy Hpick. unfold pick, take_task in Hpick. cbn [sched hands] in Hpick.
  destruct (wp_result _ _ _ _ (take_live_spec (S (length (queue_ s))) s h Hy ltac:(lia))) as [(r & s' & Heq & Hr)|(e & s' & _ & [])].
  rewrite Heq in Hpick. destruct r as [t|]; injection Hpick as <-.
  - destruct Hr as (q & e & Hf & He & Ht & Hi). split; [done|]. split; [|right; by exists t, q, e].
    intros u task x Hu Hx. cbn in *. rewrite Ht. destruct (decide (u = t)) as [->|Hne].
    + rewrite lookup_alter_eq, Hu. eexists. by split.
    + rewrite lookup_alter_ne by done. by exists task.
  - destruct Hr as (Hno & Ht & Hi). split; [done|]. split; [|by left]. intros u task x Hu Hx. cbn in *. rewrite Ht. by exists task.
Qed.

Lemma pick_total y : sys_inv y -> exists y', pick y = Some y'.
Proof.
  destruct y as [s h]. intros Hy. unfold pick, take_task. cbn [sched hands].
  destruct (wp_result _ _ _ _ (take_live_spec (S (length (queue_ s))) s h Hy ltac:(lia))) as [(r & s' & Heq & Hr)|(e & s' & _ & [])].
  rewrite Heq. destruct r; eauto.
Qed.

Lemma sys_step_spec y y' : sys_step y y' -> sys_inv y -> sys_inv y' /\ settled y y'.
Proof.
  intros Hstep Hy.
  assert (forall s s' h, leaves h s s' -> sys_inv (mkSystem s' h) /\ settled (mkSystem s h) (mkSystem s' h)) as Hl.
  { intros s s' h [? ?]. split; [done|by apply settled_kept]. }
  destruct Hstep as [s h r c ? ?|s h l i loc now ? ?|s h l i now|s h l i now|s h t|s h l|s h l i loc|s h l i loc|s h|y y' Hp|y y' t o now Ho Hw].
  - apply Hl, keeps_snd. by apply schedule_keeps.
  - apply Hl, calm_call_leaves; [by apply calm_registerExpert|done].
  - apply Hl, calm_call_leaves; [apply calm_acquire|done].
  - apply Hl, calm_call_leaves; [apply calm_release|done].
  - apply Hl, calm_call_leaves; [apply calm_cancel|done].
  - apply Hl, calm_call_leaves; [apply calm_expire|done].
  - apply Hl, calm_call_leaves; [apply calm_acknowledge|done].
  - apply Hl, calm_call_leaves; [apply calm_reconcileResidency|done].
  - split; [by apply shutdown_keeps_inv|]. apply settled_kept, shutdown_kept.
  - destruct (pick_spec y y' Hy Hp) as (? & ? & _). done.
  - destruct (hands y !! t) as [p|] eqn:Hh; [|unfold work in Hw; by rewrite Hh in Hw].
    destruct (work_spec y t p o now Hy Hh Ho) as (y1 & Hy1 & Hwk). assert (y1 = y') as -> by congruence.
    split; [apply (wk_inv _ _ _ _ Hwk)|by eapply worked_settled].
Qed.

Lemma reachable_inv y : reachable y -> sys_inv y.
Proof.
  intros (s & Hs & Hrun). pose proof (started_inv s Hs) as Hi.
  exact (rtc_preserves _ sys_inv _ _ (fun a b Hab Ha => proj1 (sys_step_spec a b Hab Ha)) Hrun Hi).
Qed.

(** ** A worker run to the end of the queue *)

(** What is left to do for a task, and all there is to do for it. *)
Definition task_weight (hands : gmap Z Phase) (t : Z) (task : ScheduleTask) : Z :=
  if sk_started task then match hands !! t with Some p => phase_rank task p | None => 0 end
  else Z.of_nat (length (sk_callbacks task)) + 8.
Definition task_parts (task : ScheduleTask) : nat := 8 + length (sk_callbacks task).
Definition all_parts (s : Scheduler) : Z := map_sum (fun n => n) ((fun task => Z.of_nat (task_parts task)) <$> tasks_ s).

Definition weights (y : System) : gmap Z Z :=
  map_imap (fun t task => Some (task_weight (hands y) t task)) (tasks_ (sched y)).
Definition weight (y : System) : Z := map_sum (fun w => w) (weights y).

Lemma weights_lookup y t : weights y !! t = task_weight (hands y) t <$> tasks_ (sched y) !! t.
Proof. unfold weights. rewrite map_lookup_imap. by destruct (tasks_ (sched y) !! t). Qed.

Lemma task_weight_bounds y t task : sys_inv y -> tasks_ (sched y) !! t = Some task ->
  0 <= task_weight (hands y) t task <= Z.of_nat (task_parts task).
Proof.
  intros Hy Ht. pose proof (tv_fate _ _ _ (sy_tasks y Hy t task Ht)) as Hf. unfold fate in Hf. unfold task_weight, task_parts.
  destruct (sk_started task); [|lia]. destruct (hands y !! t) as [[ | | | | |r cs|]|]; cbn in *; try lia.
  destruct Hf as (_ & _ & made & ->). rewrite length_app. lia.
Qed.

Lemma weight_bounds y : sys_inv y -> 0 <= weight y <= all_parts (sched y).
Proof.
  intros Hy. unfold weight, all_parts. split.
  - apply map_sum_nonneg. intros t w Hw. rewrite weights_lookup in Hw. apply fmap_Some in Hw as (task & Ht & ->).
    by apply task_weight_bounds.
  - apply map_sum_le; intros t; [by rewrite weights_lookup, lookup_fmap, !fmap_is_Some|]. intros v v'.
    rewrite weights_lookup, lookup_fmap. destruct (tasks_ (sched y) !! t) as [task|] eqn:Ht; [|done]. cbn. intros [= <-] [= <-].
    by apply task_weight_bounds.
Qed.

(** Only the task [t] changed its weight. *)
Lemma weight_drops y y' t task task' :
  (forall u, u <> t -> is_Some (tasks_ (sched y) !! u) <-> is_Some (tasks_ (sched y') !! u)) ->
  (forall u a b, u <> t -> tasks_ (sched y) !! u = Some a -> tasks_ (sched y') !! u = Some b ->
     task_weight (hands y') u b = task_weight (hands y) u a) ->
  tasks_ (sched y) !! t = Some task -> tasks_ (sched y') !! t = Some task' ->
  task_weight (hands y') t task' < task_weight (hands y) t task -> weight y' < weight y.
Proof.
  intros Hdom Heq Ht Ht' Hlt.
  apply (map_sum_lt _ _ _ t (task_weight (hands y) t task) (task_weight (hands y') t task')).
  - intros u. rewrite !weights_lookup, !fmap_is_Some. destruct (decide (u = t)) as [->|Hne]; [|auto].
    rewrite Ht, Ht'. split; by eexists.
  - intros u v v'. rewrite !weights_lookup, !fmap_Some. intros (a & Ha & ->) (b & Hb & ->).
    destruct (decide (u = t)) as [->|Hne]; [|by rewrite (Heq u a b)].
    assert (a = task) as -> by congruence. assert (b = task') as -> by congruence. lia.
  - by rewrite weights_lookup, Ht.
  - by rewrite weights_lookup, Ht'.
  - done.
Qed.

Lemma worked_weight y y' t p : sys_inv y -> hands y !! t = Some p -> worked y y' t p -> weight y' < weight y.
Proof.
  destruct y as [s h]. intros Hy Hp Hw. destruct (sy_hands _ Hy t) as [task Ht]; [by eexists|]. cbn in Hp, Ht.
  destruct (in_hand _ _ _ _ _ Hy Hp Ht) as (_ & Hsa & _). destruct (wk_own _ _ _ _ Hw) as (task' & Ht' & Hown & Hcb).
  cbn in Hcb. rewrite Ht in Hcb. injection Hcb as Hcb. eapply (weight_drops _ _ t); [| |exact Ht|exact Ht'|].
  - intros u Hu. pose proof (wk_tasks _ _ _ _ Hw u Hu) as H1. cbn in *.
    destruct (tasks_ s !! u), (tasks_ (sched y') !! u); cbn in H1; try done; split; intros _; by eexists.
  - intros u a b Hu Ha Hb. pose proof (wk_tasks _ _ _ _ Hw u Hu) as H1. cbn in H1, Ha. rewrite Ha, Hb in H1. cbn in H1.
    unfold task_weight, phase_rank. by rewrite (ts_started _ _ H1), (ts_callbacks _ _ H1), (wk_hands _ _ _ _ Hw u Hu).
  - assert (forall q, phase_rank task' q = phase_rank task q) as Hr by (intros q; unfold phase_rank; by rewrite Hcb).
    cbn. unfold task_weight at 2. rewrite Hsa, Hp. assert (sys_inv (mkSystem (sched y') (hands y'))) as Hy' by (destruct y'; apply (wk_inv _ _ _ _ Hw)).
    destruct (hands y' !! t) as [p'|] eqn:Hp'.
    + destruct (in_hand _ _ _ _ _ Hy' Hp' Ht') as (_ & Hsa' & _). unfold task_weight. rewrite Hp', Hsa', !Hr in *. lia.
    + destruct Hown as (r & -> & Hpr). pose proof (tv_fate _ _ _ (sys_task _ _ _ _ Hy' Ht')) as Hf. unfold fate in Hf. cbn in Hf.
      unfold task_weight. rewrite Hp'. destruct (sk_started task'); [cbn; lia|]. destruct Hf as (_ & Hn & _). congruence.
Qed.

Lemma taken_weight y y' t q e : sys_inv y ->
  found (sched y) q e -> qe_task e = t -> hands y' = <[t := Taken]> (hands y) ->
  tasks_ (sched y') = alter set_started t (tasks_ (sched y)) -> weight y' < weight y.
Proof.
  intros Hy [_ _ _ (task & Ht & (Hco & Hsa & _)%live_open) _] <- Hh Hta.
  eapply (weight_drops _ _ (qe_task e)); [| |exact Ht|by rewrite Hta, lookup_alter_eq, Ht|].
  - intros u Hu. by rewrite Hta, lookup_alter_ne.
  - intros u a b Hu Ha Hb. rewrite Hta, lookup_alter_ne in Hb by done. assert (b = a) as -> by congruence.
    unfold task_weight. by rewrite Hh, lookup_insert_ne.
  - rewrite Hh. unfold task_weight. cbn [sk_started set_started]. rewrite Hsa, lookup_insert_eq. cbn. lia.
Qed.

(** [workerLoop] of one worker that is not interleaved: a task in hand is worked on,
    else the next one is taken; with nothing in hand and no live entry it waits.
    [outcome] is what each transfer gives. *)
Fixpoint workerLoop (outcome : Z -> result TransferResult) (now : Z) (fuel : nat) (y : System) : System :=
  match fuel with
  | O => y
  | S fuel =>
      match map_to_list (hands y) with
      | (t, _) :: _ =>
          match work t (outcome t) now y with
          | Some y' => workerLoop outcome now fuel y'
          | None => y
          end
      | [] =>
          match pick y with
          | Some y' => if bool_decide (hands y' = ∅) then y' else workerLoop outcome now fuel y'
          | None => y
          end
      end
  end.

Lemma quiescent_refl y : settled y y.
Proof. intros t task r Ht Hr. by exists task. Qed.

Lemma quiescent_trans a b c : settled a b -> settled b c -> settled a c.
Proof. intros H1 H2 t task r Ht Hr. destruct (H1 t task r Ht Hr) as (u & Hu & Hur). by apply (H2 t u r). Qed.

Definition same_tasks (y y' : System) : Prop :=
  forall t, is_Some (tasks_ (sched y) !! t) -> is_Some (tasks_ (sched y') !! t).

Lemma worked_same y y' t p : worked y y' t p -> same_tasks y y'.
Proof.
  intros Hw u Hu. destruct (decide (u = t)) as [->|Hne].
  - destruct (wk_own _ _ _ _ Hw) as (task' & Ht' & _). by eexists.
  - pose proof (wk_tasks _ _ _ _ Hw u Hne) as H. destruct Hu as [a Ha]. rewrite Ha in H.
    destruct (tasks_ (sched y') !! u); [by eexists|done].
Qed.

Lemma workerLoop_spec outcome now fuel y :
  (forall t, outcome t <> Diverge) -> sys_inv y -> weight y < Z.of_nat fuel ->
  let y' := workerLoop outcome now fuel y in
  sys_inv y' /\ settled y y' /\ same_tasks y y' /\ hands y' = ∅ /\
  forall t task, tasks_ (sched y') !! t = Some task -> sk_completed task = true /\ is_Some (sk_promise task).
Proof.
  intros Ho. revert y. induction fuel as [|fuel IH]; intros y Hy Hw; [pose proof (weight_bounds y Hy); lia|].
  cbn [workerLoop]. destruct (map_to_list (hands y)) as [|[t p] l] eqn:Hl.
  - apply map_to_list_empty_iff in Hl. destruct (pick_total y Hy) as [y' Hp]. rewrite Hp.
    destruct (pick_spec y y' Hy Hp) as (Hy' & Hset & [(Hh & Hno & Ht)|(t & q & e & Hf & He & Hh & Ht)]).
    + rewrite bool_decide_true by congruence. split; [done|]. split; [done|]. split; [|split; [congruence|]].
      { intros t. by rewrite Ht. }
      intros t task Hta. rewrite Ht in Hta. pose proof (tv_fate _ _ _ (sy_tasks y Hy t task Hta)) as Hfa. unfold fate in Hfa.
      rewrite Hl, lookup_empty in Hfa. destruct (sk_started task) eqn:Hsa; [done|exfalso].
      destruct Hfa as (Hco & _ & _ & (e & He & <- & Hg) & _). pose proof (Hno e task He Hta) as Hlv. unfold live in Hlv.
      by rewrite Hco, Hsa, Hg, Z.eqb_refl in Hlv.
    + rewrite bool_decide_false by (rewrite Hh; apply insert_non_empty).
      pose proof (taken_weight y y' t q e Hy Hf He Hh Ht).
      destruct (IH y' Hy' ltac:(lia)) as (H1 & H2 & H3 & H4). split; [done|]. split; [by eapply quiescent_trans|].
      split; [|done]. intros u Hu. apply H3. rewrite Ht. by apply lookup_alter_is_Some.
  - assert (hands y !! t = Some p) as Hp by (apply elem_of_map_to_list; rewrite Hl; by left).
    destruct (work_spec y t p (outcome t) now Hy Hp (Ho t)) as (y' & Heq & Hwk). rewrite Heq.
    pose proof (worked_weight y y' t p Hy Hp Hwk).
    destruct (IH y' (wk_inv _ _ _ _ Hwk) ltac:(lia)) as (H1 & H2 & H3 & H4). split; [done|].
    split; [eapply quiescent_trans; [by eapply worked_settled|done]|]. split; [|done].
    intros u Hu. apply H3. by apply (worked_same _ _ _ _ Hwk).
Qed.

(** ** The properties *)

(** C3: no request is lost.  In every reachable state of clients and workers, a task
    is pending under its expert exactly when it is not completed, so an expert has at
    most one open task.  A task no worker has taken waits: it is open, its promise is
    not set, and it has a live entry in the queue.  A task in a worker's hands has no
    promise either; it is completed when the worker is past the lock of [complete], with
    callbacks still to make, a failure to publish, or the promise to set, and open
    before.  A task that was taken and is in no worker's hands is completed and its
    promise is set.  And no step changes a promise that was set. *)
Theorem no_request_lost (y : System) :
  reachable y ->
  (forall t task, tasks_ (sched y) !! t = Some task ->
     (sk_completed task = false <-> pendingByExpert_ (sched y) !! request_key (sk_request task) = Some t) /\
     if sk_started task then
       match hands y !! t with
       | Some p => sk_promise task = None /\
           match p with
           | Notifying r cs => sk_completed task = true /\ exists made, sk_callbacks task = made ++ cs
           | Settling r => sk_completed task = true
           | _ => sk_completed task = false
           end
       | None => sk_completed task = true /\ is_Some (sk_promise task)
       end
     else sk_completed task = false /\ sk_promise task = None /\ hands y !! t = None /\
       exists e, e ∈ queue_ (sched y) /\ qe_task e = t /\ live e task = true) /\
  (forall y', sys_step y y' -> settled y y').
Proof.
  intros Hr. pose proof (reachable_inv y Hr) as Hy. split; [|intros y' Hs; apply (sys_step_spec y y' Hs Hy)].
  intros t task Ht. destruct (sy_tasks y Hy t task Ht) as [_ _ _ _ Hp Hf _]. split; [done|]. unfold fate in Hf.
  destruct (sk_started task) eqn:Hsa.
  - destruct (hands y !! t) as [p|]; [|done]. destruct Hf as (Hc & Hpr & Hok). split; [done|]. by destruct p.
  - destruct Hf as (Hc & Hpr & Hh & (e & He & Het & Hg) & _). split_and!; [done..|]. exists e. split_and!; [done..|].
    unfold live. by rewrite Hc, Hsa, Hg, Z.eqb_refl.
Qed.

(** C4: workers survive: whatever clients did to the task and to the state machine,
    no exception leaves a worker's thread, in particular not the transitions made
    outside its [try] block; each part of its iteration ends, and brings the task
    closer to the end, which is that its promise is set. *)
Theorem workers_survive (y : System) (t : Z) (p : Phase) (outcome : result TransferResult) (now : Z) :
  reachable y -> hands y !! t = Some p -> outcome <> Diverge ->
  exists y' task', work t outcome now y = Some y' /\ tasks_ (sched y') !! t = Some task' /\
    match hands y' !! t with
    | Some p' => phase_rank task' p' < phase_rank task' p
    | None => exists r, p = Settling r /\ sk_promise task' = Some r
    end.
Proof.
  intros Hr Hp Ho. destruct (work_spec y t p outcome now (reachable_inv y Hr) Hp Ho) as (y' & Heq & Hw).
  destruct (wk_own _ _ _ _ Hw) as (task' & Ht' & Hown & _). by exists y', task'.
Qed.

(** C5: every request is answered: from any reachable state, one worker that runs on,
    whatever the transfers give, ends within eight parts and one part per callback for
    each task, with nothing pending and every future ready; futures that were ready keep
    their result. *)
Theorem requests_resolved (y : System) (outcome : Z -> result TransferResult) (now : Z) :
  reachable y -> (forall t, outcome t <> Diverge) ->
  let y' := workerLoop outcome now (S (Z.to_nat (all_parts (sched y)))) y in
  pending (sched y') = 0 /\
  forall t task, tasks_ (sched y) !! t = Some task -> exists task' r,
    tasks_ (sched y') !! t = Some task' /\ sk_promise task' = Some r /\
    forall r0, sk_promise task = Some r0 -> r = r0.
Proof.
  intros Hr Ho. pose proof (reachable_inv y Hr) as Hy. pose proof (weight_bounds y Hy).
  destruct (workerLoop_spec outcome now (S (Z.to_nat (all_parts (sched y)))) y Ho Hy ltac:(lia)) as (Hy' & Hset & Hsame & _ & Hdone).
  cbn zeta. set (y' := workerLoop _ _ _ y) in *. split.
  - unfold pending. destruct (decide (pendingByExpert_ (sched y') = ∅)) as [->|Hne]; [done|].
    exfalso. apply map_choose in Hne as (k & t & Hk). destruct (sy_pending y' Hy' k t Hk) as (task & Ht & Hkey).
    destruct (Hdone t task Ht) as [Hc _]. pose proof (tv_pending _ _ _ (sy_tasks y' Hy' t task Ht)) as Hp. rewrite Hkey in Hp.
    apply Hp in Hk. congruence.
  - intros t task Ht. destruct (Hsame t) as [task' Ht']; [by eexists|].
    destruct (Hdone t task' Ht') as [_ [r Hr']].
    exists task', r. split; [done|]. split; [done|]. intros r0 Hr0. destruct (Hset t task r0 Ht Hr0) as (x & Hx & Hxr).
    congruence.
Qed.

(** *** The order of the queue *)

Lemma priority_code_inj p q : priority_code p = priority_code q -> p = q.
Proof. by destruct p, q. Qed.

Lemma before_iff a b :
  is_nan (qe_priorityScore a) = false -> is_nan (qe_priorityScore b) = false ->
  HigherPriority b a = true <->
  priority_code (qe_priority b) < priority_code (qe_priority a) \/
  (priority_code (qe_priority b) = priority_code (qe_priority a) /\
   (lex3 (fkey (qe_priorityScore b)) (fkey (qe_priorityScore a)) \/
    (fkey (qe_priorityScore b) = fkey (qe_priorityScore a) /\ qe_sequence a < qe_sequence b))).
Proof.
  intros Ha Hb. unfold HigherPriority. case_bool_decide as Hp.
  - rewrite Z.ltb_lt. split; [auto|]. intros [?|[Heq _]]; [done|]. by apply priority_code_inj in Heq.
  - rewrite Hp. destruct (feq (qe_priorityScore b) (qe_priorityScore a)) eqn:Hf; cbn [negb].
    + apply feq_fkey in Hf; [|done..]. rewrite Z.ltb_lt, Hf. split; [auto|].
      unfold lex3.
      destruct (fkey (qe_priorityScore a)) as [[u v] w]. lia.
    + apply not_true_iff_false in Hf. rewrite feq_fkey in Hf by done. rewrite flt_fkey by done. split; [auto|].
      intros [?|[_ [Hl|[? _]]]]; [lia|done|done].
Qed.

Lemma urgent_total (q : list QueueEntry) :
  NoDup (qe_sequence <$> q) ->
  strict_total (fun a b => HigherPriority b a) (fun e => e ∈ q /\ is_nan (qe_priorityScore e) = false).
Proof.
  intros Hnd. unfold strict_total. split_and!.
  - intros x y z [_ Hx] [_ Hy] [_ Hz]. rewrite !before_iff by done. unfold lex3.
    destruct (fkey (qe_priorityScore x)) as [[a b] c], (fkey (qe_priorityScore y)) as [[a' b'] c'],
      (fkey (qe_priorityScore z)) as [[a'' b''] c''].
    intros [?|[? [?|[[= ? ? ?] ?]]]] [?|[? [?|[[= ? ? ?] ?]]]]; subst; try lia.
    right. split; [lia|]. right. split; [done|lia].
  - intros x [_ Hx]. apply not_true_iff_false. rewrite before_iff by done. unfold lex3.
    destruct (fkey (qe_priorityScore x)) as [[a b] c]. lia.
  - intros x y [Hxq Hx] [Hyq Hy]. rewrite !before_iff by done. unfold lex3.
    destruct (fkey (qe_priorityScore x)) as [[a b] c], (fkey (qe_priorityScore y)) as [[a' b'] c'].
    destruct (decide (qe_sequence x = qe_sequence y)) as [Heq|Hne].
    { left. by apply (nodup_image qe_sequence q). }
    destruct (decide (a = a')), (decide (b = b')), (decide (c = c')); subst; try lia.
    destruct (Z.lt_total (qe_sequence x) (qe_sequence y)) as [?|[?|?]]; [|done|];
      destruct (Z.lt_total (priority_code (qe_priority x)) (priority_code (qe_priority y))) as [?|[?|?]]; try lia;
      right; [left|right]; right; (split; [lia|]); right; (split; [done|lia]).
Qed.

(** A worker that takes a task takes the most urgent one: the task has a live entry
    in the queue, and every other live entry has a lower priority, or the same
    priority and a lower score, or both the same and was made later. *)
Theorem most_urgent_first (y y' : System) (t : Z) :
  reachable y -> Forall (fun e => is_nan (qe_priorityScore e) = false) (queue_ (sched y)) ->
  pick y = Some y' -> hands y' <> hands y -> hands y' !! t = Some Taken -> hands y !! t = None ->
  exists e task, e ∈ queue_ (sched y) /\ qe_task e = t /\ tasks_ (sched y) !! t = Some task /\ live e task = true /\
    forall x other, x ∈ queue_ (sched y) -> tasks_ (sched y) !! qe_task x = Some other -> live x other = true ->
      x = e \/ HigherPriority x e = true.
Proof.
  intros Hr Hnan Hp Hch Ht Hn. pose proof (reachable_inv y Hr) as Hy. rewrite Forall_forall in Hnan.
  destruct (pick_spec y y' Hy Hp) as (_ & _ & [(? & _)|(u & q & e & Hf & He & Hh & _)]); [done|].
  assert (u = t) as -> by (destruct (decide (u = t)); [done|]; rewrite Hh, lookup_insert_ne in Ht by done; congruence).
  destruct Hf as [Hsub Hlive Htop (task & Htask & Hlv) Hnd]. rewrite He in Htask. exists e, task.
  pose proof (top_queued _ _ Htop) as Hin. split; [by apply Hsub|]. split; [done|]. split; [done|]. split; [done|].
  intros x other Hx Hox Hlx. pose proof (Hlive x other Hx Hox Hlx) as Hxq.
  apply (scan_min_least (fun a b => HigherPriority b a) _ q e (urgent_total q Hnd)); [|done|done].
  intros z Hz. split; [done|]. apply Hnan. by apply Hsub.
Qed.

(** *** Joining *)

Definition same_callbacks (s s' : Scheduler) : Prop :=
  forall t, sk_callbacks <$> tasks_ s' !! t = sk_callbacks <$> tasks_ s !! t.

Lemma record_callbacks request initial existing s :
  (forall t, existing = Some t -> is_Some (tasks_ s !! t)) ->
  wp (record_schedule request initial existing) s (fun _ s' => same_callbacks s s') (fun _ _ => False).
Proof.
  intros He. unfold record_schedule, profile. wp_step. wp_step. destruct (profiler_ s); [|by wp_step].
  wp_step. apply (wp_mono _ _ (fun _ s1 => tasks_ s1 = tasks_ s) _ (fun _ _ => False)); [case_bool_decide; by wp_step|intros u s1 H1; clear u|done].
  case_bool_decide; [|wp_step; intros t; by rewrite H1]. wp_step. wp_step.
  destruct (_ && _); [wp_step; wp_step; wp_step; intros t; cbn; by rewrite H1|].
  destruct existing as [t|]; [|wp_step; intros t; cbn; by rewrite H1].
  wp_step. apply calm_deref; [cbn; rewrite H1; by apply He|]. intros task Ht. cbn in Ht. rewrite H1 in Ht.
  destruct (sk_prefetchRequest task); [|wp_step; intros u; cbn; by rewrite H1].
  destruct (already_there _ _); wp_steps; intros u; cbn; rewrite H1; [|done].
  destruct (decide (u = t)) as [->|Hne]; [by rewrite lookup_alter_eq, Ht|by rewrite lookup_alter_ne].
Qed.

(** A request for an expert that has an open task starts no second transfer: it
    gets the future of that task when it asks for the same destination, its
    callback is made after the earlier ones, and the task's priority becomes the
    greater of the two unless a worker already has it; a request for another
    destination is refused, and leaves the task as it was. *)
Theorem schedule_joins (y : System) (r : ScheduleRequest) (c : option Z) (t : Z) (task : ScheduleTask) :
  reachable y -> stopping_ (sched y) = false ->
  pendingByExpert_ (sched y) !! request_key r = Some t -> tasks_ (sched y) !! t = Some task ->
  exists s' task', snd (schedule r c (sched y)) = s' /\ tasks_ s' !! t = Some task' /\
    pendingByExpert_ s' = pendingByExpert_ (sched y) /\ nextTask_ s' = nextTask_ (sched y) /\
    if tier_eqb (sr_destination (sk_request task)) (sr_destination r)
    then fst (schedule r c (sched y)) = Ok (HTask t) /\
         sk_callbacks task' = sk_callbacks task ++ (match c with Some c => [c] | None => [] end) /\
         priority_code (sr_priority (sk_request task')) =
           (if sk_started task then priority_code (sr_priority (sk_request task))
            else Z.max (priority_code (sr_priority (sk_request task))) (priority_code (sr_priority r)))
    else fst (schedule r c (sched y)) = Throw (Exn LogicError "expert already has a different pending target") /\
         sk_callbacks task' = sk_callbacks task /\ sk_request task' = sk_request task /\
         queue_ s' = queue_ (sched y).
Proof.
  intros Hr Hstop Hp Ht. pose proof (reachable_inv y Hr) as Hy.
  set (Q := fun (o : result ScheduleHandle) (s' : Scheduler) => exists task', tasks_ s' !! t = Some task' /\
    pendingByExpert_ s' = pendingByExpert_ (sched y) /\ nextTask_ s' = nextTask_ (sched y) /\
    if tier_eqb (sr_destination (sk_request task)) (sr_destination r)
    then o = Ok (HTask t) /\
         sk_callbacks task' = sk_callbacks task ++ (match c with Some c => [c] | None => [] end) /\
         priority_code (sr_priority (sk_request task')) =
           (if sk_started task then priority_code (sr_priority (sk_request task))
            else Z.max (priority_code (sr_priority (sk_request task))) (priority_code (sr_priority r)))
    else o = Throw (Exn LogicError "expert already has a different pending target") /\
         sk_callbacks task' = sk_callbacks task /\ sk_request task' = sk_request task /\
         queue_ s' = queue_ (sched y)).
  assert (wp (schedule r c) (sched y) (fun a s' => Q (Ok a) s') (fun e s' => Q (Throw e) s')) as Hw.
  2:{ destruct (wp_result _ _ _ _ Hw) as [(a & s' & -> & (task' & ?))|(e & s' & -> & (task' & ?))]; by exists s', task'. }
  unfold schedule. unfold publish at 1. wp_step. wp_step. set (s1 := with_events _ _).
  wp_step. wp_step. wp_step. wp_step; [cbn in *; congruence|]. apply wp_bind, wp_lift.
  destruct (tv_known _ _ _ (sy_tasks y Hy t task Ht)) as [e He].
  assert (request_key (sk_request task) = request_key r) as Hkey.
  { destruct (sy_pending y Hy _ t Hp) as (task0 & Ht0 & Hk0). assert (task0 = task) as -> by congruence. done. }
  rewrite Hkey in He. unfold StateMachine.snapshot. change (pack_key _ _) with (request_key r). cbn [states_ s1 with_events].
  rewrite He. cbn [pendingByExpert_ s1 with_events]. rewrite Hp. wp_step.
  assert (forall u, Some t = Some u -> is_Some (tasks_ s1 !! u)) as Hex by (intros u [= <-]; by exists task).
  pose proof (calm_record r e (Some t) s1 Hex) as Hc. pose proof (record_callbacks r e (Some t) s1 Hex) as Hcb.
  eapply wp_mono; [apply (wp_conj _ _ _ _ _ _ Hc Hcb)| |by intros ? ? [_ []]].
  intros u s2 [Hc2 Hcb2]. clear u. destruct (calm_some_back _ _ _ t task Hc2 Ht) as (task2 & Ht2 & [Hreq _ _ Hsa _ _ _]).
  specialize (Hcb2 t). rewrite Ht2 in Hcb2. cbn in Hcb2. rewrite Ht in Hcb2. injection Hcb2 as Hcb2.
  pose proof (ca_pending _ _ _ Hc2) as Ep. pose proof (ca_nextTask _ _ _ Hc2) as En. pose proof (ca_queue _ _ _ Hc2) as Eq.
  unfold join_task. wp_step. apply calm_deref; [by eexists|]. intros x Hx. assert (x = task2) as -> by congruence.
  wp_step. wp_step; rewrite Hreq in *.
  - exists task2. apply negb_true_iff in H0. rewrite H0. done.
  - apply negb_false_iff in H0. wp_step. wp_step. set (s3 := with_tasks _ s2).
    set (j := join_callback c (bool_decide (sr_priority r = ActiveInference)) task2).
    assert (tasks_ s3 !! t = Some j) as Hj by (cbn; by rewrite lookup_alter_eq, Ht2).
    wp_step. apply calm_deref; [by eexists|]. intros z Hz. assert (z = j) as -> by congruence.
    assert (sk_callbacks j = sk_callbacks task ++ (match c with Some c => [c] | None => [] end)) as Hcj.
    { unfold j. cbn. rewrite Hcb2. destruct c; [done|by rewrite app_nil_r]. }
    assert (sk_request j = sk_request task) as Hrj by (unfold j; cbn; done).
    assert (sk_started j = sk_started task) as Hsj by (unfold j; cbn; done).
    clearbody j.
    wp_step. destruct (_ && _) eqn:Hcond.
    + apply andb_true_iff in Hcond as [Hcond Hns]. apply negb_true_iff in Hns.
      wp_step. wp_step. wp_step. wp_step. eexists. split; [cbn in Hj |- *; rewrite lookup_alter_eq, Hj; done|].
      split; [done|]. split; [done|]. rewrite H0. split; [done|]. split; [done|]. rewrite Hsj in Hns. rewrite Hns. cbn.
      rewrite Hrj in *. apply orb_true_iff in Hcond as [Hh|Hb].
      * rewrite Hh. apply Z.ltb_lt in Hh. cbn. lia.
      * apply andb_true_iff in Hb as [Hb _]. apply bool_decide_eq_true in Hb. rewrite Hb.
        by destruct (_ <? _); cbn; rewrite ?Hb; lia.
    + wp_step. wp_step. exists j. split; [done|]. split; [done|]. split; [done|]. rewrite H0. split; [done|]. split; [done|].
      rewrite Hrj. destruct (sk_started task) eqn:Hst; [done|]. rewrite Hrj, Hsj in Hcond. cbn in Hcond.
      rewrite andb_true_r in Hcond. apply orb_false_iff in Hcond as [Hcond _]. apply Z.ltb_ge in Hcond. lia.
Qed.

(** *** A concrete run

    Two experts are registered; the first is prefetched, the second requested for
    inference, then the first requested again. *)

Definition sample_request (id : Z) (p : TransferPriority) : ScheduleRequest :=
  mkSchedule 0 id Nvme Vram p None None None false f64_zero.

Definition sample0 : Scheduler := match newScheduler false None 1 Vram 1000 with Ok s => s | _ => mkScheduler false Nvme 0 None ∅ newEventBus ∅ 0 [] ∅ ∅ ∅ 0 false [] end.
Definition sample1 : Scheduler := snd (registerExpert 0 2 Nvme 0 (snd (registerExpert 0 1 Nvme 0 sample0))).
Definition sample2 : Scheduler := snd (schedule (sample_request 1 PredictedNextLayer) None sample1).
Definition sample3 : Scheduler := snd (schedule (sample_request 2 ActiveInference) (Some 7) sample2).
Definition sample_failure : result TransferResult := Throw (Exn StorageError "requested expert does not exist").

Lemma reachable_step y y' : reachable y -> sys_step y y' -> reachable y'.
Proof. intros (s & Hs & Hrun) Hstep. exists s. split; [done|]. by eapply rtc_r. Qed.

Lemma sample0_reachable : reachable (mkSystem sample0 ∅).
Proof. exists sample0. split; [|apply rtc_refl]. by exists false, None, 1, Vram, 1000. Qed.

Lemma sample_wf id p : is_u32 id -> request_wf (sample_request id p).
Proof. intros Hid. split; [unfold is_u32, u32_max; cbn; lia|exact Hid]. Qed.

Lemma sample3_reachable : reachable (mkSystem sample3 ∅).
Proof.
  assert (is_u32 0 /\ is_u32 1 /\ is_u32 2) as (H0 & H1 & H2) by (unfold is_u32, u32_max; lia).
  assert (seq_room sample1) as R1 by (vm_compute; reflexivity).
  assert (seq_room sample2) as R2 by (vm_compute; reflexivity).
  pose proof (reachable_step _ _ sample0_reachable (sys_register _ _ 0 1 Nvme 0 H0 H1)) as Ha.
  pose proof (reachable_step _ _ Ha (sys_register _ _ 0 2 Nvme 0 H0 H2)) as Hb.
  pose proof (reachable_step _ _ Hb (sys_schedule _ _ (sample_request 1 PredictedNextLayer) None (sample_wf 1 _ H1) R1)) as Hc.
  exact (reachable_step _ _ Hc (sys_schedule _ _ (sample_request 2 ActiveInference) (Some 7) (sample_wf 2 _ H2) R2)).
Qed.

Definition sample4 : System := match pick (mkSystem sample3 ∅) with Some y => y | None => mkSystem sample3 ∅ end.

Lemma sample4_reachable : reachable sample4.
Proof.
  apply (reachable_step _ _ sample3_reachable), sys_pick. vm_compute. reflexivity.
Qed.

Lemma no_request_lost_witness :
  reachable sample4 /\ (forall y', sys_step sample4 y' -> settled sample4 y') /\ is_Some (hands sample4 !! 1).
Proof.
  split; [exact sample4_reachable|]. destruct (no_request_lost sample4 sample4_reachable) as [_ H].
  split; [exact H|]. exists Taken. vm_compute. reflexivity.
Defined.

Lemma workers_survive_witness :
  exists y', work 1 sample_failure 0 sample4 = Some y'.
Proof.
  assert (hands sample4 !! 1 = Some Taken) as Hh by (vm_compute; reflexivity).
  assert (sample_failure <> Diverge) as Ho by discriminate.
  destruct (workers_survive sample4 1 Taken sample_failure 0 sample4_reachable Hh Ho) as (y' & task' & H & _).
  exists y'. exact H.
Defined.

Lemma requests_resolved_witness :
  pending (sched (workerLoop (fun _ => sample_failure) 0 (S (Z.to_nat (all_parts (sched sample4)))) sample4)) = 0.
Proof.
  assert (forall t : Z, (fun _ : Z => sample_failure) t <> Diverge) as Ho by discriminate.
  destruct (requests_resolved sample4 (fun _ => sample_failure) 0 sample4_reachable Ho) as [H _].
  exact H.
Defined.

Lemma sample4_pick :
  pick (mkSystem sample3 ∅) = Some sample4 /\ hands sample4 !! 1 = Some Taken /\ hands sample4 <> ∅ /\
  Forall (fun e => is_nan (qe_priorityScore e) = false) (queue_ sample3).
Proof.
  assert (hands sample4 !! 1 = Some Taken) as H by (vm_compute; reflexivity).
  split; [vm_compute; reflexivity|]. split; [exact H|]. split; [|apply (bool_decide_unpack _); vm_compute; exact I].
  intros He. rewrite He in H. discriminate H.
Qed.

Lemma most_urgent_first_witness :
  exists e task, e ∈ queue_ sample3 /\ qe_task e = 1 /\ tasks_ sample3 !! 1 = Some task /\ live e task = true.
Proof.
  destruct sample4_pick as (Hp & Hh & Hne & Hnan).
  destruct (most_urgent_first (mkSystem sample3 ∅) sample4 1 sample3_reachable Hnan Hp Hne Hh (lookup_empty 1))
    as (e & task & He & Het & Ht & Hl & _).
  exists e, task. split; [exact He|]. split; [exact Het|]. split; [exact Ht|exact Hl].
Defined.

Lemma sample3_joined : exists task, tasks_ sample3 !! 0 = Some task /\ sr_destination (sk_request task) = Vram.
Proof.
  assert ((fun k => sr_destination (sk_request k)) <$> tasks_ sample3 !! 0 = Some Vram) as Hd by (vm_compute; reflexivity).
  apply fmap_Some in Hd as (task & Ht & Hd). by exists task.
Qed.

Lemma sample3_facts : stopping_ sample3 = false /\
  pendingByExpert_ sample3 !! request_key (sample_request 1 ActiveInference) = Some 0.
Proof. split; vm_compute; reflexivity. Qed.

Lemma schedule_joins_witness :
  fst (schedule (sample_request 1 ActiveInference) (Some 9) sample3) = Ok (HTask 0).
Proof.
  destruct sample3_joined as (task & Ht & Hv). destruct sample3_facts as [Hs Hp].
  destruct (schedule_joins (mkSystem sample3 ∅) (sample_request 1 ActiveInference) (Some 9) 0 task
    sample3_reachable Hs Hp Ht) as (s' & task' & _ & _ & _ & _ & H).
  rewrite Hv in H. destruct H as [H _]. exact H.
Defined.
