(* ===== verification/Json.v ===== *)
(** * The JSON reader

    [src/models/metadata/JsonValue.hpp] and [JsonValue.cpp]: the values, the
    recursive-descent parser with its nesting limit of 128 and the typed
    accessors. *)

From Stdlib Require Import String Ascii.
From S2P Require Import Prelude.

#[local] Open Scope string_scope.
#[local] Open Scope Z_scope.

Notation text := (list ascii).
Definition txt : string -> text := list_ascii_of_string.

(** ** Values

    [std::map<std::string, JsonValue>] is the list of its entries in key order. *)

Inductive JsonValue : Type :=
  | JNull
  | JBool (value : bool)
  | JNumber (number : string)
  | JString (value : string)
  | JArray (value : list JsonValue)
  | JObject (value : list (string * JsonValue)).

(** [std::map::emplace]: the entry in its place and whether it was inserted. *)
Fixpoint emplace_key (key : string) (v : JsonValue) (object : list (string * JsonValue))
    : list (string * JsonValue) * bool :=
  match object with
  | [] => ([(key, v)], true)
  | (k, w) :: rest =>
      match String.compare key k with
      | Lt => ((key, v) :: (k, w) :: rest, true)
      | Eq => ((k, w) :: rest, false)
      | Gt => let '(rest', inserted) := emplace_key key v rest in ((k, w) :: rest', inserted)
      end
  end.

(** [std::map::find] *)
Fixpoint find_key (key : string) (object : list (string * JsonValue)) : option JsonValue :=
  match object with
  | [] => None
  | (k, w) :: rest => if String.eqb key k then Some w else find_key key rest
  end.

(** ** Characters *)

Definition code (c : ascii) : Z := Z.of_N (N_of_ascii c).
Definition char_of (z : Z) : ascii := ascii_of_N (Z.to_N z).

(** [std::isspace] in the "C" locale: tab, line feed, vertical tab, form feed,
    carriage return and space. *)
Definition is_space (c : ascii) : bool := (code c =? 32) || ((9 <=? code c) && (code c <=? 13)).
Definition is_digit (c : ascii) : bool := (48 <=? code c) && (code c <=? 57).

Definition quote : ascii := "034"%char.
Definition backslash : ascii := "\"%char.
Definition is_char (expected : ascii) (c : ascii) : bool := Ascii.eqb c expected.

(** The longest prefix of characters satisfying [p]. *)
Fixpoint prefix_length (p : ascii -> bool) (l : text) : nat :=
  match l with c :: rest => if p c then S (prefix_length p rest) else O | [] => O end.

(** The hexadecimal digit of a character. *)
Definition hex_value (c : ascii) : option Z :=
  if (48 <=? code c) && (code c <=? 57) then Some (code c - 48)
  else if (97 <=? code c) && (code c <=? 102) then Some (code c - 97 + 10)
  else if (65 <=? code c) && (code c <=? 70) then Some (code c - 65 + 10)
  else None.

Definition appendUtf8 (codePoint : Z) : text :=
  if codePoint <=? 127 then [char_of codePoint]
  else if codePoint <=? 2047 then
    [char_of (Z.lor 192 (Z.shiftr codePoint 6)); char_of (Z.lor 128 (Z.land codePoint 63))]
  else if codePoint <=? 65535 then
    [char_of (Z.lor 224 (Z.shiftr codePoint 12));
     char_of (Z.lor 128 (Z.land (Z.shiftr codePoint 6) 63));
     char_of (Z.lor 128 (Z.land codePoint 63))]
  else
    [char_of (Z.lor 240 (Z.shiftr codePoint 18));
     char_of (Z.lor 128 (Z.land (Z.shiftr codePoint 12) 63));
     char_of (Z.lor 128 (Z.land (Z.shiftr codePoint 6) 63));
     char_of (Z.lor 128 (Z.land codePoint 63))].

(** The simple escapes: the character after the backslash and what it stands for. *)
Definition simple_escape (c : ascii) : option ascii :=
  if is_char quote c then Some quote
  else if is_char backslash c then Some backslash
  else if is_char "/"%char c then Some "/"%char
  else if is_char "b"%char c then Some (char_of 8)
  else if is_char "f"%char c then Some (char_of 12)
  else if is_char "n"%char c then Some (char_of 10)
  else if is_char "r"%char c then Some (char_of 13)
  else if is_char "t"%char c then Some (char_of 9)
  else None.

(** ** The parser

    The state of [Parser]: [position_] and the text from it on. *)

Record cursor : Type := mkCursor { position_ : Z; rest_ : text }.

Definition fail {A} (message : string) : ST cursor A :=
  (c <- st_get ;;
   throw (Exn MetadataError (message ++ " at byte " ++ pretty (position_ c))))%st.

(** [position_ += n] *)
Definition advance (n : nat) : ST cursor unit :=
  modify (fun c => mkCursor (position_ c + Z.of_nat n) (drop n (rest_ c))).

(** [while (position_ < size && p(text_[position_])) ++position_;] *)
Definition skip_while (p : ascii -> bool) : ST cursor unit :=
  (c <- st_get ;; advance (prefix_length p (rest_ c)))%st.

Definition skipWhitespace : ST cursor unit := skip_while is_space.

(** [position_ < size && text_[position_] == expected] *)
Definition looking_at (p : ascii -> bool) (c : cursor) : bool :=
  match rest_ c with x :: _ => p x | [] => false end.

Definition consume (expected : ascii) : ST cursor bool :=
  (skipWhitespace ;;;
   here <- gets (looking_at (is_char expected)) ;;
   if here then advance 1 ;;; ret true else ret false)%st.

Definition parseLiteral (literal : string) : ST cursor unit :=
  (c <- st_get ;;
   if bool_decide (take (String.length literal) (rest_ c) = txt literal)
   then advance (String.length literal)
   else fail "invalid JSON literal")%st.

(** The loop of [parseHexQuad]. *)
Fixpoint hex_loop (count : nat) (value : Z) : ST cursor Z :=
  match count with
  | O => ret value
  | S count =>
      (c <- st_get ;;
       match rest_ c with
       | [] => fail "truncated Unicode escape"
       | character :: _ =>
           advance 1 ;;;
           match hex_value character with
           | Some digit => hex_loop count (Z.lor (wrap32 (Z.shiftl value 4)) digit)
           | None => fail "invalid Unicode escape"
           end
       end)%st
  end.

Definition parseHexQuad : ST cursor Z :=
  (c <- st_get ;;
   if (length (rest_ c) <? 4)%nat then fail "truncated Unicode escape" else hex_loop 4 0)%st.

(** The [u] case of an escape. *)
Definition parse_unicode : ST cursor text :=
  (codePoint <- parseHexQuad ;;
   if (55296 <=? codePoint) && (codePoint <=? 56319) then
     c <- st_get ;;
     match rest_ c with
     | b :: u :: _ =>
         if is_char backslash b && is_char "u"%char u then
           advance 2 ;;;
           low <- parseHexQuad ;;
           if (low <? 56320) || (57343 <? low) then fail "invalid low Unicode surrogate"
           else ret (appendUtf8 (65536 + Z.shiftl (codePoint - 55296) 10 + (low - 56320)))
         else fail "missing low Unicode surrogate"
     | _ => fail "missing low Unicode surrogate"
     end
   else if (56320 <=? codePoint) && (codePoint <=? 57343) then
     fail "unexpected low Unicode surrogate"
   else ret (appendUtf8 codePoint))%st.

(** What one escape, the backslash consumed, adds to the output. *)
Definition parse_escape : ST cursor text :=
  (c <- st_get ;;
   match rest_ c with
   | [] => fail "truncated string escape"
   | e :: _ =>
       advance 1 ;;;
       match simple_escape e with
       | Some out => ret [out]
       | None => if is_char "u"%char e then parse_unicode else fail "invalid string escape"
       end
   end)%st.

(** The loop of [parseString]; every iteration consumes a character. *)
Fixpoint string_loop (fuel : nat) (output : text) : ST cursor string :=
  match fuel with
  | O => diverge
  | S fuel =>
      (c <- st_get ;;
       match rest_ c with
       | [] => fail "unterminated string"
       | character :: _ =>
           advance 1 ;;;
           if is_char quote character then ret (string_of_list_ascii output)
           else if code character <? 32 then fail "control character in string"
           else if negb (is_char backslash character) then
             string_loop fuel (app output [character])
           else out <- parse_escape ;; string_loop fuel (app output out)
       end)%st
  end.

Definition parseString : ST cursor string :=
  (opened <- consume quote ;;
   if negb opened then fail "expected string"
   else c <- st_get ;; string_loop (S (length (rest_ c))) [])%st.

(** The digits of a number before its fraction and exponent. *)
Definition parse_integer : ST cursor unit :=
  (minus <- gets (looking_at (is_char "-"%char)) ;;
   (if minus then advance 1 else ret tt) ;;;
   c <- st_get ;;
   match rest_ c with
   | [] => fail "truncated number"
   | d :: _ =>
       if is_char "0"%char d then advance 1
       else if (code d <? 49) || (57 <? code d) then fail "invalid number"
       else skip_while is_digit
   end)%st.

(** A nonempty run of digits. *)
Definition parse_digits (message : string) : ST cursor unit :=
  (start <- gets position_ ;;
   skip_while is_digit ;;;
   end' <- gets position_ ;;
   if end' =? start then fail message else ret tt)%st.

Definition parse_fraction : ST cursor unit :=
  (dot <- gets (looking_at (is_char "."%char)) ;;
   if dot then advance 1 ;;; parse_digits "invalid number fraction" else ret tt)%st.

Definition is_exponent (c : ascii) : bool := is_char "e"%char c || is_char "E"%char c.
Definition is_sign (c : ascii) : bool := is_char "+"%char c || is_char "-"%char c.

Definition parse_exponent : ST cursor unit :=
  (e <- gets (looking_at is_exponent) ;;
   if e then
     advance 1 ;;;
     sign <- gets (looking_at is_sign) ;;
     (if sign then advance 1 else ret tt) ;;;
     parse_digits "invalid number exponent"
   else ret tt)%st.

Definition parseNumber : ST cursor string :=
  (start <- st_get ;;
   parse_integer ;;;
   parse_fraction ;;;
   parse_exponent ;;;
   end' <- gets position_ ;;
   ret (string_of_list_ascii (take (Z.to_nat (end' - position_ start)) (rest_ start))))%st.

(** The loops of [parseArray] and [parseObject] around the parser [value] of what
    they hold. *)
Section containers.
Variable value : ST cursor JsonValue.

Fixpoint array_loop (fuel : nat) (array : list JsonValue) : ST cursor (list JsonValue) :=
  match fuel with
  | O => diverge
  | S fuel =>
      (v <- value ;;
       closed <- consume "]"%char ;;
       if closed then ret (app array [v])
       else
         comma <- consume ","%char ;;
         if negb comma then fail "expected comma in array"
         else array_loop fuel (app array [v]))%st
  end.

Definition parseArray : ST cursor (list JsonValue) :=
  (opened <- consume "["%char ;;
   if negb opened then fail "expected array"
   else
     closed <- consume "]"%char ;;
     if closed then ret []
     else c <- st_get ;; array_loop (S (length (rest_ c))) [])%st.

Fixpoint object_loop (fuel : nat) (object : list (string * JsonValue))
    : ST cursor (list (string * JsonValue)) :=
  match fuel with
  | O => diverge
  | S fuel =>
      (skipWhitespace ;;;
       quoted <- gets (looking_at (is_char quote)) ;;
       if negb quoted then fail "expected object key"
       else
         key <- parseString ;;
         colon <- consume ":"%char ;;
         if negb colon then fail "expected colon after object key"
         else
           v <- value ;;
           let '(object, inserted) := emplace_key key v object in
           if negb inserted then fail "duplicate object key"
           else
             closed <- consume "}"%char ;;
             if closed then ret object
             else
               comma <- consume ","%char ;;
               if negb comma then fail "expected comma in object"
               else object_loop fuel object)%st
  end.

Definition parseObject : ST cursor (list (string * JsonValue)) :=
  (opened <- consume "{"%char ;;
   if negb opened then fail "expected object"
   else
     closed <- consume "}"%char ;;
     if closed then ret []
     else c <- st_get ;; object_loop (S (length (rest_ c))) [])%st.
End containers.

(** The nesting limit bounds the recursion: [fuel] is what is left of it. *)
Fixpoint parseValue (fuel : nat) (depth : Z) : ST cursor JsonValue :=
  match fuel with
  | O => diverge
  | S fuel =>
      (if 128 <? depth then fail "JSON nesting limit exceeded"
       else
         skipWhitespace ;;;
         c <- st_get ;;
         match rest_ c with
         | [] => fail "unexpected end of input"
         | x :: _ =>
             if is_char "n"%char x then parseLiteral "null" ;;; ret JNull
             else if is_char "t"%char x then parseLiteral "true" ;;; ret (JBool true)
             else if is_char "f"%char x then parseLiteral "false" ;;; ret (JBool false)
             else if is_char quote x then s <- parseString ;; ret (JString s)
             else if is_char "["%char x then
               l <- parseArray (parseValue fuel (depth + 1)) ;; ret (JArray l)
             else if is_char "{"%char x then
               o <- parseObject (parseValue fuel (depth + 1)) ;; ret (JObject o)
             else if is_char "-"%char x || is_digit x then
               s <- parseNumber ;; ret (JNumber s)
             else fail "unexpected JSON token"
         end)%st
  end.

(** [Parser::parse] *)
Definition parse : ST cursor JsonValue :=
  (result <- parseValue 130 0 ;;
   skipWhitespace ;;;
   c <- st_get ;;
   match rest_ c with [] => ret result | _ => fail "unexpected trailing input" end)%st.

Definition parseJson (input : string) : result JsonValue := fst (parse (mkCursor 0 (txt input))).

(** ** Accessors *)

Definition wrong_type {A} (name : string) : result A :=
  Throw (Exn MetadataError ("JSON value is not " ++ name)).

(** [std::from_chars] into a [std::uint64_t], accepted when it consumes the whole
    text. *)
Fixpoint decimal (value : Z) (l : text) : option Z :=
  match l with
  | [] => Some value
  | c :: rest => if is_digit c then decimal (value * 10 + (code c - 48)) rest else None
  end.
Definition from_chars_u64 (t : string) : option Z :=
  match txt t with
  | [] => None
  | l => match decimal 0 l with
         | Some n => if n <=? u64_max then Some n else None
         | None => None
         end
  end.

Definition asString (v : JsonValue) : result string :=
  match v with JString s => Ok s | _ => wrong_type "a string" end.
Definition asArray (v : JsonValue) : result (list JsonValue) :=
  match v with JArray l => Ok l | _ => wrong_type "an array" end.
Definition asObject (v : JsonValue) : result (list (string * JsonValue)) :=
  match v with JObject o => Ok o | _ => wrong_type "an object" end.

Definition asBool (v : JsonValue) : result bool :=
  match v with
  | JString t =>
      if String.eqb t "true" then Ok true
      else if String.eqb t "false" then Ok false
      else Throw (Exn MetadataError "JSON value is not a boolean")
  | JBool b => Ok b
  | _ => wrong_type "a boolean"
  end.

Definition asUInt64 (v : JsonValue) : result Z :=
  let parsed t := match from_chars_u64 t with
                  | Some n => Ok n
                  | None => Throw (Exn MetadataError "JSON value is not an unsigned 64-bit integer")
                  end in
  match v with
  | JString t => parsed t
  | JNumber t => parsed t
  | _ => wrong_type "an unsigned integer"
  end.

Definition require (key : string) (v : JsonValue) : result JsonValue :=
  (object <-? asObject v ;;
   match find_key key object with
   | Some w => Ok w
   | None => Throw (Exn MetadataError ("missing JSON field: " ++ key))
   end)%res.

Definition find (key : string) (v : JsonValue) : option JsonValue :=
  match v with JObject o => find_key key o | _ => None end.

(** [escapeJson] of [src/models/ModelManifest.cpp], which writes what this parser
    reads. *)
Definition hex_digit (d : Z) : ascii := char_of (if d <? 10 then 48 + d else 97 + (d - 10)).
Definition escape_char (c : ascii) : text :=
  if is_char quote c then [backslash; quote]
  else if is_char backslash c then [backslash; backslash]
  else if code c =? 8 then txt "\b"
  else if code c =? 12 then txt "\f"
  else if code c =? 10 then txt "\n"
  else if code c =? 13 then txt "\r"
  else if code c =? 9 then txt "\t"
  else if code c <? 32 then
    app (txt "\u00") [hex_digit (Z.shiftr (code c) 4); hex_digit (Z.land (code c) 15)]
  else [c].
Definition escapeJson (value : string) : text := flat_map escape_char (txt value).
