(* ===== verification/JsonGrammar.v ===== *)
(** * The grammar of the JSON reader

    The language [parseJson] accepts, as an inductive grammar that does not
    mention the parser, and the proof that the parser decides it: it always ends,
    with the value of the text or a [MetadataError]. *)

From Stdlib Require Import String Ascii OrderedTypeEx.
From S2P Require Import Prelude Json.

#[local] Open Scope Z_scope.

(** ** The grammar *)

Definition spaces (w : text) : Prop := Forall (fun c => is_space c = true) w.
Definition digits (w : text) : Prop := Forall (fun c => is_digit c = true) w.

Definition hex_quad (q : text) (n : Z) : Prop :=
  exists a b c d va vb vc vd, q = [a; b; c; d] /\
    hex_value a = Some va /\ hex_value b = Some vb /\ hex_value c = Some vc /\
    hex_value d = Some vd /\ n = va * 4096 + vb * 256 + vc * 16 + vd.

Definition surrogate (n : Z) : Prop := 55296 <= n <= 57343.

(** The inside of a string literal and the characters it denotes. *)
Inductive Chars : text -> text -> Prop :=
  | C_nil : Chars [] []
  | C_plain c t s :
      32 <= code c -> c <> quote -> c <> backslash -> Chars t s -> Chars (c :: t) (c :: s)
  | C_escape e x t s :
      simple_escape e = Some x -> Chars t s -> Chars (backslash :: e :: t) (x :: s)
  | C_unicode q n t s :
      hex_quad q n -> ~ surrogate n -> Chars t s ->
      Chars (backslash :: "u"%char :: app q t) (app (appendUtf8 n) s)
  | C_pair q hi q' lo t s :
      hex_quad q hi -> 55296 <= hi <= 56319 -> hex_quad q' lo -> 56320 <= lo <= 57343 ->
      Chars t s ->
      Chars (backslash :: "u"%char :: app q (backslash :: "u"%char :: app q' t))
            (app (appendUtf8 (65536 + (hi - 55296) * 1024 + (lo - 56320))) s).

Inductive Literal : text -> string -> Prop :=
  | L_string t s : Chars t s -> Literal (quote :: app t [quote]) (string_of_list_ascii s).

Inductive Integer : text -> Prop :=
  | I_zero : Integer ["0"%char]
  | I_pos d ds : 49 <= code d <= 57 -> digits ds -> Integer (d :: ds).
Inductive Sign : text -> Prop :=
  | S_none : Sign []
  | S_minus : Sign ["-"%char].
Inductive Fraction : text -> Prop :=
  | F_none : Fraction []
  | F_some ds : digits ds -> ds <> [] -> Fraction ("."%char :: ds).
Inductive Exponent : text -> Prop :=
  | X_none : Exponent []
  | X_plain e ds : is_exponent e = true -> digits ds -> ds <> [] -> Exponent (e :: ds)
  | X_signed e s ds : is_exponent e = true -> is_sign s = true -> digits ds -> ds <> [] ->
      Exponent (e :: s :: ds).
Inductive Number : text -> Prop :=
  | N_number m i f e : Sign m -> Integer i -> Fraction f -> Exponent e ->
      Number (app m (app i (app f e))).

(** The entries of an object, in the order of the text. *)
Definition object_of (members : list (string * JsonValue)) : list (string * JsonValue) :=
  foldl (fun object '(k, v) => fst (emplace_key k v object)) [] members.

(** [Value d t v]: the text [t] denotes [v] under [d] containers. *)
Inductive Value : Z -> text -> JsonValue -> Prop :=
  | V_null d : d <= 128 -> Value d (txt "null") JNull
  | V_true d : d <= 128 -> Value d (txt "true") (JBool true)
  | V_false d : d <= 128 -> Value d (txt "false") (JBool false)
  | V_number d t : d <= 128 -> Number t -> Value d t (JNumber (string_of_list_ascii t))
  | V_string d t s : d <= 128 -> Literal t s -> Value d t (JString s)
  | V_empty_array d w : d <= 128 -> spaces w -> Value d ("["%char :: app w ["]"%char]) (JArray [])
  | V_array d t l : d <= 128 -> Elements (d + 1) t l ->
      Value d ("["%char :: app t ["]"%char]) (JArray l)
  | V_empty_object d w : d <= 128 -> spaces w ->
      Value d ("{"%char :: app w ["}"%char]) (JObject [])
  | V_object d t members : d <= 128 -> Members (d + 1) t members -> NoDup members.*1 ->
      Value d ("{"%char :: app t ["}"%char]) (JObject (object_of members))
with Elements : Z -> text -> list JsonValue -> Prop :=
  | E_last d w t w' v : spaces w -> Value d t v -> spaces w' ->
      Elements d (app w (app t w')) [v]
  | E_more d w t w' v ts l : spaces w -> Value d t v -> spaces w' -> Elements d ts l ->
      Elements d (app w (app t (app w' (","%char :: ts)))) (v :: l)
with Members : Z -> text -> list (string * JsonValue) -> Prop :=
  | M_last d m k v w : Member d m k v -> spaces w -> Members d (app m w) [(k, v)]
  | M_more d m k v w ts l : Member d m k v -> spaces w -> Members d ts l ->
      Members d (app m (app w (","%char :: ts))) ((k, v) :: l)
with Member : Z -> text -> string -> JsonValue -> Prop :=
  | Mem d w1 tk k w2 w3 t v : spaces w1 -> Literal tk k -> spaces w2 -> spaces w3 -> Value d t v ->
      Member d (app w1 (app tk (app w2 (":"%char :: app w3 t)))) k v.

Inductive Document : text -> JsonValue -> Prop :=
  | D_doc w t w' v : spaces w -> Value 0 t v -> spaces w' -> Document (app w (app t w')) v.

Scheme Value_ind' := Minimality for Value Sort Prop
  with Elements_ind' := Minimality for Elements Sort Prop
  with Members_ind' := Minimality for Members Sort Prop
  with Member_ind' := Minimality for Member Sort Prop.
Combined Scheme grammar_ind from Value_ind', Elements_ind', Members_ind', Member_ind'.

(** ** The entries of an object *)

Definition key_before (a b : string * JsonValue) : Prop := String.compare (fst a) (fst b) = Lt.
Definition sorted_keys (object : list (string * JsonValue)) : Prop := StronglySorted key_before object.

Lemma compare_trans a b c :
  String.compare a b = Lt -> String.compare b c = Lt -> String.compare a c = Lt.
Proof.
  intros H1%String_as_OT.cmp_lt H2%String_as_OT.cmp_lt.
  apply String_as_OT.cmp_lt. by eapply String_as_OT.lt_trans.
Qed.

Lemma compare_refl a : String.compare a a = Eq.
Proof. by apply String_as_OT.cmp_eq. Qed.

Lemma compare_gt a b : String.compare a b = Gt -> String.compare b a = Lt.
Proof. intros H. rewrite String.compare_antisym, H. done. Qed.

Lemma emplace_key_spec k v object :
  sorted_keys object ->
  let '(object', inserted) := emplace_key k v object in
  sorted_keys object' /\
  (if inserted then k ∉ object.*1 /\ object' ≡ₚ (k, v) :: object
   else k ∈ object.*1 /\ object' = object).
Proof.
  induction 1 as [|[k' v'] rest Hs IH Hall]; cbn.
  - split; [repeat constructor|]. split; [set_solver|done].
  - destruct (String.compare k k') eqn:Hc.
    + apply String_as_OT.cmp_eq in Hc as ->. split; [by constructor|]. split; [set_solver|done].
    + split.
      * constructor; [by constructor|]. constructor; [done|]. eapply Forall_impl; [exact Hall|].
        intros [k2 v2]. apply compare_trans. done.
      * split; [|done]. intros [->|Hin]%elem_of_cons.
        { assert (String.compare k' k' = Eq) by (apply compare_refl). congruence. }
        apply list_elem_of_fmap in Hin as ([k2 v2] & -> & Hin). rewrite Forall_forall in Hall.
        assert (String.compare k2 k2 = Lt) by (eapply compare_trans; [exact Hc|by apply (Hall (k2, v2))]).
        assert (String.compare k2 k2 = Eq) by (apply compare_refl). congruence.
    + destruct (emplace_key k v rest) as [rest' inserted]. destruct IH as [Hs' Hspec].
      apply compare_gt in Hc. destruct inserted; destruct Hspec as [Hin Hperm].
      * split.
        { constructor; [done|]. rewrite Forall_forall. intros [k2 v2] H2. rewrite Hperm in H2.
          apply elem_of_cons in H2 as [[= -> ->]|H2]; [done|].
          rewrite Forall_forall in Hall. by apply Hall. }
        split; [|rewrite Hperm; by constructor].
        intros [->|?]%elem_of_cons; [|done].
        assert (String.compare k' k' = Eq) by (apply compare_refl). congruence.
      * subst rest'. split; [by constructor|]. split; [|done]. by right.
Qed.

Lemma emplace_key_inserted k v object :
  sorted_keys object -> snd (emplace_key k v object) = bool_decide (k ∉ object.*1).
Proof.
  intros H%(emplace_key_spec k v). destruct (emplace_key k v object) as [o []]; cbn; symmetry.
  - apply bool_decide_true, H.
  - apply bool_decide_false. intros Hn. by apply Hn, H.
Qed.

Definition put (object : list (string * JsonValue)) (m : string * JsonValue) :=
  let '(k, v) := m in fst (emplace_key k v object).

Lemma puts_sorted members object : sorted_keys object -> sorted_keys (foldl put object members).
Proof.
  revert object. induction members as [|[k v] members IH]; intros object H; [done|]. apply IH.
  apply (emplace_key_spec k v) in H. cbn. destruct (emplace_key k v object). apply H.
Qed.

Lemma puts_perm members object :
  sorted_keys object -> NoDup (object.*1 ++ members.*1) ->
  foldl put object members ≡ₚ object ++ members.
Proof.
  revert object. induction members as [|[k v] members IH]; intros object H Hnd; cbn;
    [by rewrite app_nil_r|].
  pose proof (emplace_key_spec k v _ H) as Hp. pose proof (emplace_key_inserted k v _ H) as Hi.
  cbn in Hnd. apply NoDup_app in Hnd as (Hn1 & Hd & Hn2).
  assert (k ∉ object.*1) as Hk by (intros Hk; apply (Hd k Hk); by left).
  rewrite bool_decide_true in Hi by done.
  destruct (emplace_key k v object) as [o ins]. cbn in Hi. subst ins. destruct Hp as (Hs & _ & Hp). cbn.
  apply NoDup_cons in Hn2 as [Hk2 Hn2]. rewrite IH.
  - rewrite Hp. cbn. by rewrite Permutation_middle.
  - done.
  - rewrite Hp. cbn. apply NoDup_cons. split; [set_solver|]. apply NoDup_app. set_solver.
Qed.

Lemma object_of_puts members : object_of members = foldl put [] members.
Proof. reflexivity. Qed.

Lemma object_of_keys members : NoDup members.*1 -> (object_of members).*1 ≡ₚ members.*1.
Proof. intros H. rewrite object_of_puts, puts_perm; [done|constructor|done]. Qed.

Lemma object_of_sorted members : sorted_keys (object_of members).
Proof. apply (puts_sorted members []). constructor. Qed.

Lemma object_of_snoc members k v :
  object_of (members ++ [(k, v)]) = fst (emplace_key k v (object_of members)).
Proof. unfold object_of. by rewrite foldl_app. Qed.

(** A key whose entry is new is a key the members did not have. *)
Lemma emplace_key_new members k v :
  NoDup members.*1 -> snd (emplace_key k v (object_of members)) = true <-> NoDup ((members ++ [(k, v)]).*1).
Proof.
  intros Hnd. rewrite emplace_key_inserted, bool_decide_eq_true, object_of_keys by
    (done || apply object_of_sorted).
  rewrite fmap_app. cbn. rewrite NoDup_app, NoDup_cons. split.
  - intros Hk. split_and!; [done|set_solver| |]; [set_solver|constructor].
  - set_solver.
Qed.

(** Looking a key up in the object is looking it up in the text. *)
Lemma find_key_spec object k v :
  NoDup object.*1 -> find_key k object = Some v <-> (k, v) ∈ object.
Proof.
  induction object as [|[k' v'] object IH]; cbn; intros Hnd; [set_solver|].
  apply NoDup_cons in Hnd as [Hk Hnd]. destruct (String.eqb_spec k k') as [->|Hne].
  - split; [intros [= ->]; by left|]. intros [[= ->]|Hin]%elem_of_cons; [done|].
    exfalso. apply Hk. apply list_elem_of_fmap. by exists (k', v).
  - rewrite IH by done. set_solver.
Qed.

(** ** Soundness and totality

    Every parser ends; it returns having consumed a text of its category, or
    throws a [MetadataError]. *)

Definition eats (c : cursor) (t : text) (c' : cursor) : Prop :=
  rest_ c = t ++ rest_ c' /\ position_ c' = position_ c + Z.of_nat (length t).

Definition fails : exn -> cursor -> Prop := fun e _ => kind_of e = MetadataError.

Lemma eats_nil c : eats c [] c.
Proof. split; [done|]. cbn. lia. Qed.

Lemma eats_app c t c' u c'' : eats c t c' -> eats c' u c'' -> eats c (t ++ u) c''.
Proof.
  intros [H1 H2] [H3 H4]. split; [by rewrite H1, H3, app_assoc|]. rewrite length_app. lia.
Qed.

Lemma eats_length c t c' : eats c t c' -> (length (rest_ c') + length t = length (rest_ c))%nat.
Proof. intros [-> _]. rewrite length_app. lia. Qed.

Lemma wp_fail {A} m c (Q : A -> cursor -> Prop) : wp (fail m) c Q fails.
Proof. unfold fail. wp_steps. done. Qed.

Lemma wp_advance t u c (Q : unit -> cursor -> Prop) E :
  rest_ c = t ++ u -> (forall c', eats c t c' -> rest_ c' = u -> Q tt c') -> wp (advance (length t)) c Q E.
Proof.
  intros Hr HQ. unfold advance. wp_steps. rewrite Hr, drop_app_length. apply HQ; [|done].
  split; [done|]. done.
Qed.

(** One character, when the text starts with it. *)
Lemma wp_advance1 x u c (Q : unit -> cursor -> Prop) E :
  rest_ c = x :: u -> (forall c', eats c [x] c' -> rest_ c' = u -> Q tt c') -> wp (advance 1) c Q E.
Proof. apply (wp_advance [x]). Qed.

Lemma prefix_length_spec p l :
  exists t u, l = t ++ u /\ prefix_length p l = length t /\ Forall (fun c => p c = true) t /\
    match u with x :: _ => p x = false | [] => True end.
Proof.
  induction l as [|x l (t & u & -> & Hn & Ht & Hu)]; cbn; [by exists [], []|].
  destruct (p x) eqn:Hx; [|by exists [], (x :: t ++ u)].
  exists (x :: t), u. cbn. rewrite Hn. split_and!; [done|done|by constructor|done].
Qed.

Lemma wp_skip_while p c (Q : unit -> cursor -> Prop) E :
  (forall t c', eats c t c' -> Forall (fun x => p x = true) t -> looking_at p c' = false -> Q tt c') ->
  wp (skip_while p) c Q E.
Proof.
  intros HQ. unfold skip_while. wp_steps.
  destruct (prefix_length_spec p (rest_ c)) as (t & u & Hr & Hn & Ht & Hu). rewrite Hn.
  apply (wp_advance t u); [done|]. intros c' Hc' Hu'. apply (HQ t); [done|done|].
  unfold looking_at. rewrite Hu'. by destruct u.
Qed.

Lemma wp_consume x c (Q : bool -> cursor -> Prop) E :
  (forall w c', spaces w -> eats c (w ++ [x]) c' -> Q true c') ->
  (forall w c', spaces w -> eats c w c' -> Q false c') ->
  wp (consume x) c Q E.
Proof.
  intros Ht Hf. unfold consume, skipWhitespace. wp_step. apply wp_skip_while.
  intros w c' He Hw _. wp_steps. destruct (looking_at (is_char x) c') eqn:Hl; [|wp_steps; by apply (Hf w)].
  unfold looking_at in Hl. destruct (rest_ c') as [|y u] eqn:Hr; [done|].
  apply Ascii.eqb_eq in Hl as ->. wp_step. apply (wp_advance1 x u); [done|].
  intros c'' He' _. wp_steps. apply (Ht w); [done|]. by eapply eats_app.
Qed.

(** What was eaten, up to the grouping of the concatenations. *)
Ltac eats_by E := repeat rewrite <- app_assoc in E; repeat rewrite <- app_assoc; exact E.

(** Skipping an optional character. *)
Lemma wp_optional p c (Q : unit -> cursor -> Prop) E :
  (forall c', eats c [] c' -> Q tt c') ->
  (forall x c', eats c [x] c' -> p x = true -> Q tt c') ->
  wp (if looking_at p c then advance 1 else ret tt) c Q E.
Proof.
  intros Hf Ht. destruct (looking_at p c) eqn:Hl; [|wp_steps; apply Hf, eats_nil].
  unfold looking_at in Hl. destruct (rest_ c) as [|y u] eqn:Hr; [done|].
  apply (wp_advance1 y u); [done|]. intros c' He _. by apply (Ht y).
Qed.

Lemma wp_parseLiteral l c (Q : unit -> cursor -> Prop) :
  (forall c', eats c (txt l) c' -> Q tt c') -> wp (parseLiteral l) c Q fails.
Proof.
  intros HQ. unfold parseLiteral. wp_steps. case_bool_decide as Hl; [|apply wp_fail].
  assert (length (txt l) = String.length l) as Hn.
  { clear. unfold txt. induction l; cbn; congruence. }
  rewrite <- Hn. apply (wp_advance (txt l) (drop (String.length l) (rest_ c))).
  - by rewrite <- Hl, take_drop.
  - intros c' He _. by apply HQ.
Qed.

(** *** Strings *)

Lemma hex_value_bounds c v : hex_value c = Some v -> 0 <= v < 16.
Proof. unfold hex_value. repeat case_match; intros [= <-]; rewrite andb_true_iff, !Z.leb_le in *; lia. Qed.

(** [value <<= 4; value |= digit] *)
Lemma hex_step v d : 0 <= v < 16777216 -> 0 <= d < 16 -> Z.lor (wrap32 (Z.shiftl v 4)) d = v * 16 + d.
Proof.
  intros Hv Hd. rewrite Z.shiftl_mul_pow2, wrap32_small by (unfold is_u32, u32_max; lia).
  rewrite Z.lor_comm, <- Z.shiftl_mul_pow2, lor_add_disjoint by lia. lia.
Qed.

Lemma wp_hex_loop k v c (Q : Z -> cursor -> Prop) :
  0 <= v < 16777216 ->
  (forall x d c', hex_value x = Some d -> eats c [x] c' -> wp (hex_loop k (v * 16 + d)) c' Q fails) ->
  wp (hex_loop (S k) v) c Q fails.
Proof.
  intros Hv HQ. cbn [hex_loop]. wp_steps. destruct (rest_ c) as [|x u] eqn:Hr; [apply wp_fail|].
  wp_step. apply (wp_advance1 x u); [done|]. intros c' He _.
  destruct (hex_value x) as [d|] eqn:Hd; [|apply wp_fail].
  rewrite hex_step by (done || by eapply hex_value_bounds). by eapply HQ.
Qed.

Lemma wp_parseHexQuad c (Q : Z -> cursor -> Prop) :
  (forall q n c', hex_quad q n -> eats c q c' -> Q n c') -> wp parseHexQuad c Q fails.
Proof.
  intros HQ. unfold parseHexQuad. wp_steps. case_match; [apply wp_fail|].
  apply wp_hex_loop; [lia|]. intros x1 d1 c1 V1 E1. pose proof (hex_value_bounds _ _ V1) as B1.
  apply wp_hex_loop; [lia|]. intros x2 d2 c2 V2 E2. pose proof (hex_value_bounds _ _ V2) as B2.
  apply wp_hex_loop; [lia|]. intros x3 d3 c3 V3 E3. pose proof (hex_value_bounds _ _ V3) as B3.
  apply wp_hex_loop; [lia|]. intros x4 d4 c4 V4 E4. cbn [hex_loop]. wp_steps.
  apply (HQ [x1; x2; x3; x4]).
  - exists x1, x2, x3, x4, d1, d2, d3, d4. split_and!; try done. lia.
  - change [x1; x2; x3; x4] with ([x1] ++ [x2] ++ [x3] ++ [x4]). by repeat (eapply eats_app; [eassumption|]).
Qed.

(** What one escape denotes. *)
Inductive Escape : text -> text -> Prop :=
  | Es_simple e x : simple_escape e = Some x -> Escape [e] [x]
  | Es_unicode q n : hex_quad q n -> ~ surrogate n -> Escape ("u"%char :: q) (appendUtf8 n)
  | Es_pair q hi q' lo :
      hex_quad q hi -> 55296 <= hi <= 56319 -> hex_quad q' lo -> 56320 <= lo <= 57343 ->
      Escape ("u"%char :: q ++ backslash :: "u"%char :: q')
             (appendUtf8 (65536 + (hi - 55296) * 1024 + (lo - 56320))).

Lemma escape_chars e out t s : Escape e out -> Chars t s -> Chars (backslash :: e ++ t) (out ++ s).
Proof.
  destruct 1 as [| |q hi q' lo Hq Hhi Hq' Hlo]; intros; cbn; [by constructor|by constructor|].
  rewrite <- app_assoc. cbn. by apply C_pair.
Qed.

Lemma wp_parse_unicode c0 c (Q : text -> cursor -> Prop) :
  eats c0 ["u"%char] c ->
  (forall e out c', Escape e out -> eats c0 e c' -> Q out c') -> wp parse_unicode c Q fails.
Proof.
  intros Hu HQ. unfold parse_unicode. wp_step. apply wp_parseHexQuad. intros q n c1 Hq E1.
  destruct ((55296 <=? n) && (n <=? 56319)) eqn:Hhi.
  - rewrite andb_true_iff, !Z.leb_le in Hhi. wp_steps.
    destruct (rest_ c1) as [|b [|u r]] eqn:Hr; [apply wp_fail..|].
    destruct (is_char backslash b && is_char "u" u) eqn:Hbu; [|apply wp_fail].
    apply andb_true_iff in Hbu as [->%Ascii.eqb_eq ->%Ascii.eqb_eq]. wp_step.
    apply (wp_advance [backslash; "u"%char] r); [done|]. intros c2 E2 _. wp_step.
    apply wp_parseHexQuad. intros q' lo c3 Hq' E3.
    destruct ((lo <? 56320) || (57343 <? lo)) eqn:Hlo; [apply wp_fail|].
    rewrite orb_false_iff, !Z.ltb_ge in Hlo. wp_steps.
    rewrite Z.shiftl_mul_pow2 by lia. change (2 ^ 10) with 1024.
    eapply HQ; [by apply (Es_pair q n q' lo)|].
    change ("u"%char :: q ++ _) with (["u"%char] ++ q ++ [backslash; "u"%char] ++ q').
    by repeat (eapply eats_app; [eassumption|]).
  - destruct ((56320 <=? n) && (n <=? 57343)) eqn:Hlo; [apply wp_fail|].
    rewrite !andb_false_iff, !Z.leb_gt in *. wp_steps. eapply HQ; [apply (Es_unicode q n Hq)|].
    + unfold surrogate. lia.
    + by apply (eats_app _ ["u"%char] c).
Qed.

Lemma wp_parse_escape c (Q : text -> cursor -> Prop) :
  (forall e out c', Escape e out -> eats c e c' -> Q out c') -> wp parse_escape c Q fails.
Proof.
  intros HQ. unfold parse_escape. wp_steps. destruct (rest_ c) as [|e u] eqn:Hr; [apply wp_fail|].
  wp_step. apply (wp_advance1 e u); [done|]. intros c' He _.
  destruct (simple_escape e) as [x|] eqn:Hs; [wp_steps; by eapply HQ; [constructor|]|].
  destruct (is_char "u" e) eqn:Hu; [|apply wp_fail]. apply Ascii.eqb_eq in Hu as ->.
  by apply (wp_parse_unicode c).
Qed.

Lemma wp_string_loop fuel output c (Q : string -> cursor -> Prop) :
  (length (rest_ c) < fuel)%nat ->
  (forall t s c', Chars t s -> eats c (t ++ [quote]) c' -> Q (string_of_list_ascii (output ++ s)) c') ->
  wp (string_loop fuel output) c Q fails.
Proof.
  revert output c. induction fuel as [|fuel IH]; intros output c Hf HQ; [lia|]. cbn [string_loop].
  wp_steps. destruct (rest_ c) as [|x u] eqn:Hr; [apply wp_fail|].
  wp_step. apply (wp_advance1 x u); [done|]. intros c' He Hu.
  destruct (is_char quote x) eqn:Hq.
  { apply Ascii.eqb_eq in Hq as ->. wp_steps. rewrite <- (app_nil_r output).
    apply (HQ []); [constructor|done]. }
  apply Ascii.eqb_neq in Hq. destruct (code x <? 32) eqn:Hc; [apply wp_fail|]. apply Z.ltb_ge in Hc.
  destruct (is_char backslash x) eqn:Hb; cbn.
  - apply Ascii.eqb_eq in Hb as ->. wp_step. apply wp_parse_escape. intros e out c2 Hesc E2.
    apply IH; [apply eats_length in E2; subst u; cbn in Hf; lia|]. intros t s c3 Hts E3.
    rewrite <- app_assoc. apply (HQ (backslash :: e ++ t)); [by apply escape_chars|].
    change ((_ :: e ++ t) ++ [quote]) with (([backslash] ++ e ++ t) ++ [quote]). rewrite <- !app_assoc.
    by repeat (eapply eats_app; [eassumption|]).
  - apply Ascii.eqb_neq in Hb. apply IH; [subst u; cbn in Hf; lia|]. intros t s c3 Hts E3.
    rewrite <- app_assoc. apply (HQ (x :: t)); [by constructor|]. by apply (eats_app c [x] c').
Qed.

Lemma wp_parseString c (Q : string -> cursor -> Prop) :
  (forall w t s c', spaces w -> Literal t s -> eats c (w ++ t) c' -> Q s c') -> wp parseString c Q fails.
Proof.
  intros HQ. unfold parseString. wp_step. apply wp_consume; intros w c' Hw He; cbn [negb]; [|apply wp_fail].
  wp_steps. apply wp_string_loop; [lia|]. intros t s c2 Hts E2. cbn.
  apply (HQ w (quote :: t ++ [quote])); [done|by constructor|].
  change (quote :: t ++ [quote]) with ([quote] ++ t ++ [quote]). rewrite app_assoc.
  by eapply eats_app.
Qed.

(** *** Numbers *)

Lemma wp_parse_digits m c0 t0 c (Q : unit -> cursor -> Prop) :
  eats c0 t0 c ->
  (forall ds c', digits ds -> ds <> [] -> eats c0 (t0 ++ ds) c' -> Q tt c') -> wp (parse_digits m) c Q fails.
Proof.
  intros H0 HQ. unfold parse_digits. wp_steps. apply wp_skip_while. intros ds c' He Hd _. wp_steps.
  destruct (Z.eqb_spec (position_ c') (position_ c)) as [Hp|Hp]; [apply wp_fail|]. wp_steps.
  apply (HQ ds); [done| |by eapply eats_app]. intros ->. apply Hp. destruct He as [_ ->]. cbn. lia.
Qed.

Lemma wp_parse_integer c (Q : unit -> cursor -> Prop) :
  (forall m i c', Sign m -> Integer i -> eats c (m ++ i) c' -> Q tt c') -> wp parse_integer c Q fails.
Proof.
  intros HQ. unfold parse_integer.
  assert (forall m c1, Sign m -> eats c m c1 -> wp
    (c <- st_get ;; match rest_ c with
     | [] => fail "truncated number"
     | d :: _ => if is_char "0" d then advance 1
                 else if (code d <? 49) || (57 <? code d) then fail "invalid number"
                 else skip_while is_digit
     end)%st c1 Q fails) as Hrest.
  { intros m c1 Hm E1. wp_steps. destruct (rest_ c1) as [|d u] eqn:Hr; [apply wp_fail|].
    destruct (is_char "0" d) eqn:Hz.
    - apply Ascii.eqb_eq in Hz as ->. apply (wp_advance1 "0"%char u); [done|]. intros c2 E2 _.
      eapply HQ; [done|constructor|by eapply eats_app].
    - destruct ((code d <? 49) || (57 <? code d)) eqn:Hd; [apply wp_fail|].
      rewrite orb_false_iff, !Z.ltb_ge in Hd. apply wp_skip_while. intros ds c2 E2 Hds Hl.
      destruct ds as [|d' ds].
      + exfalso. destruct E2 as [E2 _]. unfold looking_at in Hl. cbn in E2. rewrite <- E2, Hr in Hl.
        unfold is_digit in Hl. rewrite andb_false_iff, !Z.leb_gt in Hl. lia.
      + assert (d' = d) as -> by (destruct E2 as [E2 _]; rewrite Hr in E2; by injection E2).
        eapply HQ; [done| |by eapply eats_app]. apply Forall_cons in Hds as [_ Hds]. by constructor. }
  wp_steps. apply (wp_optional (is_char "-")).
  - intros c1 E1. apply (Hrest []); [constructor|done].
  - intros x c1 E1 Hx. apply Ascii.eqb_eq in Hx as ->. apply (Hrest ["-"%char]); [constructor|done].
Qed.

Lemma wp_parse_fraction c0 t0 c (Q : unit -> cursor -> Prop) :
  eats c0 t0 c ->
  (forall f c', Fraction f -> eats c0 (t0 ++ f) c' -> Q tt c') -> wp parse_fraction c Q fails.
Proof.
  intros H0 HQ. unfold parse_fraction. wp_steps. destruct (looking_at (is_char ".") c) eqn:Hl.
  - unfold looking_at in Hl. destruct (rest_ c) as [|x u] eqn:Hr; [done|].
    apply Ascii.eqb_eq in Hl as ->. wp_step. apply (wp_advance1 "."%char u); [done|]. intros c1 E1 _.
    apply (wp_parse_digits _ c0 (t0 ++ ["."%char])); [by eapply eats_app|]. intros ds c2 Hd Hn E2.
    apply (HQ ("."%char :: ds)); [by constructor|]. eats_by E2.
  - wp_steps. apply (HQ []); [constructor|]. by rewrite app_nil_r.
Qed.

Lemma wp_parse_exponent c0 t0 c (Q : unit -> cursor -> Prop) :
  eats c0 t0 c ->
  (forall f c', Exponent f -> eats c0 (t0 ++ f) c' -> Q tt c') -> wp parse_exponent c Q fails.
Proof.
  intros H0 HQ. unfold parse_exponent. wp_steps. destruct (looking_at is_exponent c) eqn:Hl.
  - unfold looking_at in Hl. destruct (rest_ c) as [|x u] eqn:Hr; [done|].
    wp_step. apply (wp_advance1 x u); [done|]. intros c1 E1 _. wp_steps. apply (wp_optional is_sign).
    + intros c2 E2. apply (wp_parse_digits _ c0 (t0 ++ [x])).
      { rewrite <- (app_nil_r [x]), app_assoc. eapply eats_app; [|done]. by eapply eats_app. }
      intros ds c3 Hd Hn E3. apply (HQ (x :: ds)); [by constructor|]. eats_by E3.
    + intros y c2 E2 Hy. apply (wp_parse_digits _ c0 (t0 ++ [x; y])).
      { change [x; y] with ([x] ++ [y]). rewrite app_assoc. eapply eats_app; [|done]. by eapply eats_app. }
      intros ds c3 Hd Hn E3. apply (HQ (x :: y :: ds)); [by constructor|]. eats_by E3.
  - wp_steps. apply (HQ []); [constructor|]. by rewrite app_nil_r.
Qed.

Lemma wp_parseNumber c (Q : string -> cursor -> Prop) :
  (forall t c', Number t -> eats c t c' -> Q (string_of_list_ascii t) c') -> wp parseNumber c Q fails.
Proof.
  intros HQ. unfold parseNumber. wp_steps. apply wp_parse_integer. intros m i c1 Hm Hi E1. wp_step.
  apply (wp_parse_fraction c (m ++ i)); [done|]. intros f c2 Hf E2. wp_step.
  apply (wp_parse_exponent c ((m ++ i) ++ f)); [done|]. intros e c3 He E3. wp_steps.
  assert (Z.to_nat (position_ c3 - position_ c) = length (((m ++ i) ++ f) ++ e)) as ->.
  { destruct E3 as [_ ->]. lia. }
  rewrite (proj1 E3), take_app_length. apply HQ; [|done]. rewrite <- !app_assoc. by constructor.
Qed.

(** *** Containers *)

(** What is asked of the parser of what a container holds. *)
Definition value_sound (d : Z) (value : ST cursor JsonValue) : Prop :=
  forall c (Q : JsonValue -> cursor -> Prop),
    (forall w t v c', spaces w -> Value d t v -> eats c (w ++ t) c' -> Q v c') -> wp value c Q fails.

Lemma elements_spaces d w t l : spaces w -> Elements d t l -> Elements d (w ++ t) l.
Proof.
  intros Hw []; rewrite app_assoc; constructor; try done; by apply Forall_app.
Qed.

Lemma members_spaces d w t l : spaces w -> Members d t l -> Members d (w ++ t) l.
Proof.
  assert (forall d m k v, spaces w -> Member d m k v -> Member d (w ++ m) k v) as Hm.
  { intros ???? Hw []. rewrite app_assoc. constructor; try done. by apply Forall_app. }
  intros Hw []; rewrite app_assoc; constructor; auto.
Qed.

Section containers.
Variable d : Z.
Variable value : ST cursor JsonValue.
Hypothesis Hvalue : value_sound d value.

Lemma wp_array_loop fuel array c (Q : list JsonValue -> cursor -> Prop) :
  (length (rest_ c) < fuel)%nat ->
  (forall t l c', Elements d t l -> eats c (t ++ ["]"%char]) c' -> Q (array ++ l) c') ->
  wp (array_loop value fuel array) c Q fails.
Proof.
  revert array c. induction fuel as [|fuel IH]; intros array c Hf HQ; [lia|]. cbn [array_loop].
  wp_step. apply Hvalue. intros w t v c1 Hw Hv E1. wp_step.
  apply wp_consume; intros w' c2 Hw' E2.
  - wp_steps. apply (HQ (w ++ t ++ w')); [by constructor|].
    rewrite <- !app_assoc. rewrite app_assoc. by eapply eats_app.
  - cbn [negb]. wp_step. apply wp_consume; intros w2 c3 Hw2 E3; cbn [negb]; [|apply wp_fail].
    assert (eats c ((w ++ t) ++ w' ++ w2 ++ [","%char]) c3) as E by
      (eapply eats_app; [done|]; by eapply eats_app).
    apply IH; [apply eats_length in E; rewrite !length_app in E; cbn in E; lia|].
    intros ts l c4 Hts E4. rewrite <- app_assoc.
    apply (HQ (w ++ t ++ (w' ++ w2) ++ ","%char :: ts)); [constructor; try done; by apply Forall_app|].
    pose proof (eats_app _ _ _ _ _ E E4) as E5. eats_by E5.
Qed.

Lemma wp_parseArray c (Q : list JsonValue -> cursor -> Prop) :
  (forall w w' c', spaces w -> spaces w' -> eats c (w ++ "["%char :: w' ++ ["]"%char]) c' -> Q [] c') ->
  (forall w t l c', spaces w -> Elements d t l -> eats c (w ++ "["%char :: t ++ ["]"%char]) c' -> Q l c') ->
  wp (parseArray value) c Q fails.
Proof.
  intros H0 H1. unfold parseArray. wp_step.
  apply wp_consume; intros w c1 Hw E1; cbn [negb]; [|apply wp_fail]. wp_step.
  apply wp_consume; intros w' c2 Hw' E2.
  - wp_steps. apply (H0 w w'); [done..|]. pose proof (eats_app _ _ _ _ _ E1 E2) as E.
    eats_by E.
  - wp_steps. apply wp_array_loop; [lia|]. intros t l c3 Hl E3. cbn.
    apply (H1 w (w' ++ t)); [done| |].
    + by apply elements_spaces.
    + pose proof (eats_app _ _ _ _ _ (eats_app _ _ _ _ _ E1 E2) E3) as E.
      eats_by E.
Qed.

Lemma wp_object_loop fuel members c (Q : list (string * JsonValue) -> cursor -> Prop) :
  (length (rest_ c) < fuel)%nat -> NoDup members.*1 ->
  (forall t l c', Members d t l -> NoDup ((members ++ l).*1) -> eats c (t ++ ["}"%char]) c' ->
     Q (object_of (members ++ l)) c') ->
  wp (object_loop value fuel (object_of members)) c Q fails.
Proof.
  revert members c. induction fuel as [|fuel IH]; intros members c Hf Hnd HQ; [lia|]. cbn [object_loop].
  wp_step. apply wp_skip_while. intros w c0 E0 Hw _. wp_steps.
  destruct (looking_at (is_char quote) c0); cbn [negb]; [|apply wp_fail]. wp_step.
  apply wp_parseString. intros w1 tk k c1 Hw1 Hk E1. wp_step.
  apply wp_consume; intros w2 c2 Hw2 E2; cbn [negb]; [|apply wp_fail]. wp_step.
  apply Hvalue. intros w3 t v c3 Hw3 Hv E3.
  assert (eats c ((w ++ w1) ++ tk ++ w2 ++ ":"%char :: w3 ++ t) c3) as E.
  { pose proof (eats_app _ _ _ _ _ (eats_app _ _ _ _ _ E0 E1) (eats_app _ _ _ _ _ E2 E3)) as E.
    eats_by E. }
  assert (Member d ((w ++ w1) ++ tk ++ w2 ++ ":"%char :: w3 ++ t) k v) as Hm by
    (constructor; try done; by apply Forall_app).
  clear E0 E1 E2 E3. set (m := (w ++ w1) ++ _) in *. clearbody m.
  destruct (emplace_key k v (object_of members)) as [o inserted] eqn:He.
  assert (inserted = snd (emplace_key k v (object_of members))) as Hi by by rewrite He.
  destruct inserted; cbn [negb]; [|apply wp_fail].
  symmetry in Hi. apply emplace_key_new in Hi as Hnd'; [|done].
  assert (o = object_of (members ++ [(k, v)])) as -> by (by rewrite object_of_snoc, He). clear Hi He.
  wp_step. apply wp_consume; intros w4 c4 Hw4 E4.
  - wp_steps. apply (HQ (m ++ w4)); [by constructor|done|]. rewrite <- app_assoc. by eapply eats_app.
  - wp_step. apply wp_consume; intros w5 c5 Hw5 E5; cbn [negb]; [|apply wp_fail].
    assert (eats c (m ++ w4 ++ w5 ++ [","%char]) c5) as E6 by
      (eapply eats_app; [done|]; by eapply eats_app).
    apply IH; [apply eats_length in E6; rewrite !length_app in E6; cbn in E6; lia|done|].
    intros ts l c6 Hts Hl E7. rewrite <- app_assoc in Hl |- *.
    apply (HQ (m ++ (w4 ++ w5) ++ ","%char :: ts)); [constructor; try done; by apply Forall_app|done|].
    pose proof (eats_app _ _ _ _ _ E6 E7) as E8. eats_by E8.
Qed.

Lemma wp_parseObject c (Q : list (string * JsonValue) -> cursor -> Prop) :
  (forall w w' c', spaces w -> spaces w' -> eats c (w ++ "{"%char :: w' ++ ["}"%char]) c' -> Q [] c') ->
  (forall w t l c', spaces w -> Members d t l -> NoDup l.*1 ->
     eats c (w ++ "{"%char :: t ++ ["}"%char]) c' -> Q (object_of l) c') ->
  wp (parseObject value) c Q fails.
Proof.
  intros H0 H1. unfold parseObject. wp_step.
  apply wp_consume; intros w c1 Hw E1; cbn [negb]; [|apply wp_fail]. wp_step.
  apply wp_consume; intros w' c2 Hw' E2.
  - wp_steps. apply (H0 w w'); [done..|]. pose proof (eats_app _ _ _ _ _ E1 E2) as E.
    eats_by E.
  - wp_steps. apply (wp_object_loop _ []); [lia|constructor|]. intros t l c3 Hl Hnd E3. cbn.
    apply (H1 w (w' ++ t)); [done|by apply members_spaces|done|].
    pose proof (eats_app _ _ _ _ _ (eats_app _ _ _ _ _ E1 E2) E3) as E.
    eats_by E.
Qed.
End containers.

Lemma wp_parseValue fuel d : Z.of_nat fuel + d = 130 -> 0 <= d <= 129 -> value_sound d (parseValue fuel d).
Proof.
  revert d. induction fuel as [|fuel IH]; intros d Hf Hd c Q HQ; [lia|]. cbn [parseValue].
  destruct (Z.ltb_spec 128 d) as [Hlt|Hle]; [apply wp_fail|].
  assert (value_sound (d + 1) (parseValue fuel (d + 1))) as Hv by (apply IH; lia).
  wp_step. apply wp_skip_while. intros w c1 E1 Hw _. wp_steps.
  assert (forall t v c', Value d t v -> eats c1 t c' -> Q v c') as HV.
  { intros t v c' H E. apply (HQ w t); [done|done|]. by eapply eats_app. }
  assert (forall w2 t v c', spaces w2 -> Value d t v -> eats c1 (w2 ++ t) c' -> Q v c') as HV2.
  { intros w2 t v c' Hw2 H E. apply (HQ (w ++ w2) t); [by apply Forall_app|done|].
    rewrite <- app_assoc. by eapply eats_app. }
  destruct (rest_ c1) as [|x u] eqn:Hr; [apply wp_fail|].
  repeat (case_match; [first
    [ wp_step; apply wp_parseLiteral; intros c2 E2; wp_steps; eapply HV; [by constructor|done]
    | wp_step; apply wp_parseString; intros w2 t s c2 Hw2 Hs E2; wp_steps; eapply HV2; [..|done]; [done|by constructor]
    | wp_step; apply (wp_parseArray (d + 1) _ Hv);
        [ intros w1 w2 c2 Hw1 Hw2 E2; wp_steps; eapply HV2; [..|done]; [done|by constructor]
        | intros w1 t l c2 Hw1 Hl E2; wp_steps; eapply HV2; [..|done]; [done|by constructor] ]
    | wp_step; apply (wp_parseObject (d + 1) _ Hv);
        [ intros w1 w2 c2 Hw1 Hw2 E2; wp_steps; eapply HV2; [..|done]; [done|by constructor]
        | intros w1 t l c2 Hw1 Hl Hnd E2; wp_steps; eapply HV2; [..|done]; [done|by constructor] ]
    | wp_step; apply wp_parseNumber; intros t c2 Ht E2; wp_steps; eapply HV; [by constructor|done] ]|]).
  apply wp_fail.
Qed.

Lemma wp_parse c :
  wp parse c (fun v c' => rest_ c' = [] /\ Document (rest_ c) v) fails.
Proof.
  unfold parse. wp_step. apply (wp_parseValue 130 0); [lia..|]. intros w t v c1 Hw Hv E1. wp_step.
  apply wp_skip_while. intros w' c2 E2 Hw' _. wp_steps.
  destruct (rest_ c2) eqn:Hr; [|apply wp_fail]. wp_steps. split; [done|].
  rewrite (proj1 E1), (proj1 E2), Hr, app_nil_r, <- app_assoc. by constructor.
Qed.

(** ** Completeness

    On a text of the grammar followed by something that cannot extend it, a parser
    consumes exactly that text and returns its meaning. *)

Definition stops (p : ascii -> bool) (rest : text) : Prop :=
  match rest with x :: _ => p x = false | [] => True end.

(** What can follow a value. *)
Definition closes (x : ascii) : bool :=
  is_space x || is_char "," x || is_char "]" x || is_char "}" x.
Definition follow (rest : text) : Prop :=
  match rest with x :: _ => closes x = true | [] => True end.

Lemma ascii_forall (p : ascii -> bool) :
  forallb (fun n => p (ascii_of_nat n)) (seq 0 256) = true -> forall x, p x = true.
Proof.
  rewrite forallb_forall. intros H x. rewrite <- (ascii_nat_embedding x). apply H, in_seq.
  pose proof (nat_ascii_bounded x). lia.
Qed.

Lemma follow_stops rest p :
  follow rest -> forallb (fun n => negb (closes (ascii_of_nat n)) || negb (p (ascii_of_nat n))) (seq 0 256) = true ->
  stops p rest.
Proof.
  destruct rest as [|x rest]; cbn; intros Hf Hp; [done|].
  pose proof (ascii_forall (fun x => negb (closes x) || negb (p x)) Hp x) as H. cbn in H.
  rewrite Hf in H. by apply negb_true_iff in H.
Qed.

(** A fact about each character a test admits. *)
Lemma char_case (p q : ascii -> bool) x :
  p x = true -> forallb (fun n => negb (p (ascii_of_nat n)) || q (ascii_of_nat n)) (seq 0 256) = true ->
  q x = true.
Proof.
  intros Hx H. pose proof (ascii_forall (fun x => negb (p x) || q x) H x) as Hq. cbn in Hq.
  by rewrite Hx in Hq.
Qed.

Lemma prefix_length_exact p t rest :
  Forall (fun c => p c = true) t -> stops p rest -> prefix_length p (t ++ rest) = length t.
Proof.
  intros Ht Hs. induction Ht as [|x t Hx _ IH]; cbn.
  - destruct rest; cbn in *; [done|by rewrite Hs].
  - by rewrite Hx, IH.
Qed.

Lemma do_skip_while p t rest c (Q : unit -> cursor -> Prop) E :
  rest_ c = t ++ rest -> Forall (fun c => p c = true) t -> stops p rest ->
  (forall c', eats c t c' -> rest_ c' = rest -> Q tt c') -> wp (skip_while p) c Q E.
Proof.
  intros Hr Ht Hs HQ. unfold skip_while. wp_steps. rewrite Hr, prefix_length_exact by done.
  by apply (wp_advance t rest).
Qed.

(** The text without its leading spaces. *)
Definition strip (l : text) : text := drop (prefix_length is_space l) l.

Lemma strip_spaces w l : spaces w -> strip (w ++ l) = strip l.
Proof. induction 1 as [|x w Hx _ IH]; [done|]. unfold strip in *. cbn. rewrite Hx. exact IH. Qed.

Lemma strip_char x l : is_space x = false -> strip (x :: l) = x :: l.
Proof. intros Hx. unfold strip. cbn. by rewrite Hx. Qed.

Lemma strip_head l : stops is_space (strip l).
Proof.
  induction l as [|x l IH]; [done|]. unfold strip in *. cbn. by destruct (is_space x) eqn:Hx.
Qed.

Lemma strip_strip l : strip (strip l) = strip l.
Proof. pose proof (strip_head l) as H. destruct (strip l); [done|]. by apply strip_char. Qed.

Lemma strip_length l : (length (strip l) <= length l)%nat.
Proof. unfold strip. rewrite length_drop. lia. Qed.

Lemma do_skipWhitespace c (Q : unit -> cursor -> Prop) E :
  (forall c', rest_ c' = strip (rest_ c) -> Q tt c') -> wp skipWhitespace c Q E.
Proof. intros HQ. unfold skipWhitespace, skip_while, advance. wp_steps. by apply HQ. Qed.

Lemma do_consume x y rest c (Q : bool -> cursor -> Prop) E :
  strip (rest_ c) = y :: rest ->
  (forall c', y = x -> rest_ c' = rest -> Q true c') ->
  (forall c', y <> x -> rest_ c' = y :: rest -> Q false c') -> wp (consume x) c Q E.
Proof.
  intros Hr Ht Hf. unfold consume. wp_step.
  apply do_skipWhitespace. intros c' Hc'. rewrite Hr in Hc'. wp_steps.
  unfold looking_at. rewrite Hc'. destruct (is_char x y) eqn:Hx.
  - apply Ascii.eqb_eq in Hx. wp_step. apply (wp_advance1 y rest); [done|]. intros c2 _ Hc2.
    wp_steps. by apply Ht.
  - apply Ascii.eqb_neq in Hx. wp_steps. by apply Hf.
Qed.

Lemma do_consume_it x rest c (Q : bool -> cursor -> Prop) E :
  strip (rest_ c) = x :: rest -> (forall c', rest_ c' = rest -> Q true c') -> wp (consume x) c Q E.
Proof. intros Hr HQ. apply (do_consume x x rest); auto. done. Qed.

Lemma do_consume_not x y rest c (Q : bool -> cursor -> Prop) E :
  strip (rest_ c) = y :: rest -> y <> x -> (forall c', rest_ c' = y :: rest -> Q false c') ->
  wp (consume x) c Q E.
Proof. intros Hr Hne HQ. apply (do_consume x y rest); auto. done. Qed.

Lemma do_parseLiteral l rest c (Q : unit -> cursor -> Prop) E :
  rest_ c = txt l ++ rest -> (forall c', rest_ c' = rest -> Q tt c') -> wp (parseLiteral l) c Q E.
Proof.
  intros Hr HQ. unfold parseLiteral. wp_steps.
  assert (String.length l = length (txt l)) as Hn.
  { clear. unfold txt. induction l; cbn; congruence. }
  rewrite Hn, Hr, take_app_length, bool_decide_true by done.
  apply (wp_advance _ rest); [done|]. auto.
Qed.

Lemma is_char_ne x y : y <> x -> is_char x y = false.
Proof. apply Ascii.eqb_neq. Qed.

(** *** Strings *)

Lemma do_hex_loop k v x d rest c (Q : Z -> cursor -> Prop) E :
  rest_ c = x :: rest -> hex_value x = Some d -> 0 <= v < 16777216 ->
  (forall c', rest_ c' = rest -> wp (hex_loop k (v * 16 + d)) c' Q E) ->
  wp (hex_loop (S k) v) c Q E.
Proof.
  intros Hr Hd Hv HQ. cbn [hex_loop]. wp_steps. rewrite Hr. wp_step.
  apply (wp_advance1 x rest); [done|]. intros c' _ Hc'. rewrite Hd, hex_step by
    (done || by eapply hex_value_bounds). by apply HQ.
Qed.

Lemma do_parseHexQuad q n rest c (Q : Z -> cursor -> Prop) E :
  rest_ c = q ++ rest -> hex_quad q n -> (forall c', rest_ c' = rest -> Q n c') ->
  wp parseHexQuad c Q E.
Proof.
  intros Hr (a & b & g & h & va & vb & vg & vh & -> & Ha & Hb & Hg & Hh & Hn) HQ.
  unfold parseHexQuad. wp_steps. rewrite Hr. cbn [app length Nat.ltb Nat.leb].
  pose proof (hex_value_bounds _ _ Ha). pose proof (hex_value_bounds _ _ Hb).
  pose proof (hex_value_bounds _ _ Hg).
  eapply do_hex_loop; [done|done|lia|]. intros c1 R1. eapply do_hex_loop; [done|done|lia|]. intros c2 R2.
  eapply do_hex_loop; [done|done|lia|]. intros c3 R3. eapply do_hex_loop; [done|done|lia|]. intros c4 R4.
  cbn [hex_loop]. wp_steps. replace (_ * 16 + vh) with n by lia. by apply HQ.
Qed.

Lemma hex_quad_bounds q n : hex_quad q n -> 0 <= n < 65536.
Proof.
  intros (a & b & g & h & va & vb & vg & vh & _ & Ha & Hb & Hg & Hh & ->).
  pose proof (hex_value_bounds _ _ Ha). pose proof (hex_value_bounds _ _ Hb).
  pose proof (hex_value_bounds _ _ Hg). pose proof (hex_value_bounds _ _ Hh). lia.
Qed.

Lemma do_parse_escape e out rest c (Q : text -> cursor -> Prop) E :
  rest_ c = e ++ rest -> Escape e out -> (forall c', rest_ c' = rest -> Q out c') ->
  wp parse_escape c Q E.
Proof.
  intros Hr He HQ. unfold parse_escape. wp_steps. rewrite Hr. destruct He as [e x Hx|q n Hq Hn|q hi q' lo Hq Hhi Hq' Hlo].
  - cbn [app]. wp_step. apply (wp_advance1 e rest); [done|]. intros c' _ Hc'. rewrite Hx. wp_steps. by apply HQ.
  - cbn [app]. wp_step. apply (wp_advance1 "u"%char (q ++ rest)); [done|]. intros c1 _ H1. cbn.
    unfold parse_unicode. wp_step. eapply do_parseHexQuad; [done..|]. intros c2 H2. unfold surrogate in Hn.
    destruct (_ && _) eqn:Hs; [rewrite andb_true_iff, !Z.leb_le in Hs; lia|].
    destruct ((56320 <=? n) && _) eqn:Hs'; [rewrite andb_true_iff, !Z.leb_le in Hs'; lia|]. wp_steps. by apply HQ.
  - cbn [app] in *. wp_step. eapply (wp_advance1 "u"%char); [done|]. intros c1 _ H1.
    rewrite <- app_assoc in H1. cbn. unfold parse_unicode. wp_step.
    eapply do_parseHexQuad; [done..|]. intros c2 H2.
    destruct ((55296 <=? hi) && _) eqn:Hs; [|rewrite andb_false_iff, !Z.leb_gt in Hs; lia].
    wp_steps. rewrite H2. cbn [app is_char Ascii.eqb eqb andb]. cbn. wp_step.
    eapply (wp_advance [backslash; "u"%char]); [exact H2|]. intros c3 _ H3. wp_step.
    eapply do_parseHexQuad; [done..|]. intros c4 H4.
    destruct ((lo <? 56320) || _) eqn:Hs'; [rewrite orb_true_iff, !Z.ltb_lt in Hs'; lia|].
    wp_steps. rewrite Z.shiftl_mul_pow2 by lia. change (2 ^ 10) with 1024. by apply HQ.
Qed.

Lemma do_string_loop t s : Chars t s -> forall fuel output rest c (Q : string -> cursor -> Prop) E,
  (length (rest_ c) < fuel)%nat -> rest_ c = t ++ quote :: rest ->
  (forall c', rest_ c' = rest -> Q (string_of_list_ascii (output ++ s)) c') ->
  wp (string_loop fuel output) c Q E.
Proof.
  assert (forall e out t s, Escape e out ->
    (forall fuel output rest c (Q : string -> cursor -> Prop) E,
      (length (rest_ c) < fuel)%nat -> rest_ c = t ++ quote :: rest ->
      (forall c', rest_ c' = rest -> Q (string_of_list_ascii (output ++ s)) c') ->
      wp (string_loop fuel output) c Q E) ->
    forall fuel output rest c (Q : string -> cursor -> Prop) E,
      (length (rest_ c) < fuel)%nat -> rest_ c = backslash :: e ++ t ++ quote :: rest ->
      (forall c', rest_ c' = rest -> Q (string_of_list_ascii (output ++ out ++ s)) c') ->
      wp (string_loop fuel output) c Q E) as Hesc.
  { intros e out t' s' He IH fuel output rest c Q E Hf Hr HQ. destruct fuel as [|fuel]; [lia|].
    cbn [string_loop]. wp_steps. rewrite Hr. wp_step. eapply (wp_advance1 backslash); [done|].
    intros c1 _ H1. change (is_char quote backslash) with false. change (code backslash <? 32) with false.
    change (is_char backslash backslash) with true. cbn [negb]. wp_step. eapply do_parse_escape; [done..|]. intros c2 H2.
    apply (IH _ _ rest); [|done|].
    - rewrite H2. rewrite Hr in Hf. cbn in Hf. rewrite !length_app in *. lia.
    - intros c3 H3. rewrite <- app_assoc. auto. }
  induction 1 as [|x t s Hc Hq Hb _ IH|e x t s Hx _ IH|q n t s Hq Hn _ IH|q hi q' lo t s Hq Hhi Hq' Hlo _ IH];
    intros fuel output rest c Q E Hf Hr HQ.
  - destruct fuel as [|fuel]; [lia|]. cbn [string_loop]. wp_steps. rewrite Hr. cbn [app]. wp_step.
    eapply (wp_advance1 quote); [done|]. intros c1 _ H1. change (is_char quote quote) with true. cbn [negb]. wp_steps. rewrite <- (app_nil_r output).
    by apply HQ.
  - destruct fuel as [|fuel]; [lia|]. cbn [string_loop]. wp_steps. rewrite Hr. cbn [app]. wp_step.
    eapply (wp_advance1 x); [done|]. intros c1 _ H1.
    rewrite !is_char_ne by done.
    rewrite (proj2 (Z.ltb_ge _ _)) by done. cbn [negb].
    apply (IH _ _ rest); [|done|].
    + rewrite Hr in Hf. rewrite H1. apply Nat.succ_lt_mono, Hf.
    + intros c' Hc'. rewrite <- app_assoc. by apply HQ.
  - eapply (Hesc [e] [x] t s); [by apply Es_simple|exact IH|exact Hf|exact Hr|exact HQ].
  - eapply (Hesc ("u"%char :: q) (appendUtf8 n) t s); [by apply Es_unicode|exact IH|exact Hf| |exact HQ].
    rewrite Hr. cbn. by rewrite <- app_assoc.
  - eapply (Hesc ("u"%char :: q ++ backslash :: "u"%char :: q')); [by apply Es_pair|exact IH|exact Hf| |exact HQ].
    rewrite Hr. cbn. rewrite <- !app_assoc. cbn. by rewrite <- app_assoc.
Qed.

Lemma do_parseString t s rest c (Q : string -> cursor -> Prop) E :
  strip (rest_ c) = t ++ rest -> Literal t s -> (forall c', rest_ c' = rest -> Q s c') ->
  wp parseString c Q E.
Proof.
  intros Hr Hl HQ. destruct Hl as [t' s' Hs]. unfold parseString. wp_step.
  change ((quote :: t' ++ [quote]) ++ rest) with (quote :: (t' ++ [quote]) ++ rest) in Hr.
  rewrite <- (app_assoc t') in Hr.
  eapply do_consume_it; [done|]. intros c1 H1. cbn [negb]. wp_steps.
  eapply do_string_loop; [done|lia|done|]. exact HQ.
Qed.

(** *** Numbers *)

Lemma do_parse_digits m ds rest c (Q : unit -> cursor -> Prop) E :
  rest_ c = ds ++ rest -> digits ds -> ds <> [] -> stops is_digit rest ->
  (forall c', eats c ds c' -> rest_ c' = rest -> Q tt c') -> wp (parse_digits m) c Q E.
Proof.
  intros Hr Hd Hn Hs HQ. unfold parse_digits. wp_steps. apply (do_skip_while _ ds rest); [done..|].
  intros c' He Hc'. wp_steps. destruct (Z.eqb_spec (position_ c') (position_ c)) as [Hp|_]; [|by apply HQ].
  destruct He as [_ He]. destruct ds; [done|]. cbn in He. lia.
Qed.

Lemma digit_not p d ds : digits (d :: ds) ->
  forallb (fun n => negb (is_digit (ascii_of_nat n)) || negb (p (ascii_of_nat n))) (seq 0 256) = true ->
  p d = false.
Proof. intros [Hd _]%Forall_cons H. apply negb_true_iff. exact (char_case _ (fun x => negb (p x)) d Hd H). Qed.

Lemma integer_first i : Integer i -> exists d ds, i = d :: ds /\ is_digit d = true /\ digits (d :: ds).
Proof.
  destruct 1 as [|d ds Hd Hds]; [exists "0"%char, []; split_and!; [done..|by repeat constructor]|].
  assert (is_digit d = true) by (unfold is_digit; rewrite andb_true_iff, !Z.leb_le; lia).
  exists d, ds. split_and!; [done..|by constructor].
Qed.

Lemma do_parse_integer m i rest c (Q : unit -> cursor -> Prop) E :
  rest_ c = m ++ i ++ rest -> Sign m -> Integer i -> stops is_digit rest ->
  (forall c', eats c (m ++ i) c' -> rest_ c' = rest -> Q tt c') -> wp parse_integer c Q E.
Proof.
  intros Hr Hm Hi Hs HQ. unfold parse_integer.
  assert (forall c1, eats c m c1 -> rest_ c1 = i ++ rest -> wp
    (c <- st_get ;; match rest_ c with
     | [] => fail "truncated number"
     | d :: _ => if is_char "0" d then advance 1
                 else if (code d <? 49) || (57 <? code d) then fail "invalid number"
                 else skip_while is_digit
     end)%st c1 Q E) as Hrest.
  { intros c1 E1 H1. wp_steps. rewrite H1. destruct Hi as [|d ds Hd Hds]; cbn [app].
    - apply (wp_advance1 "0"%char rest); [done|]. intros c2 E2 H2. apply HQ; [by eapply eats_app|done].
    - rewrite is_char_ne by (intros ->; change (code "0") with 48 in Hd; lia).
      destruct ((code d <? 49) || (57 <? code d)) eqn:Hb; [rewrite orb_true_iff, !Z.ltb_lt in Hb; lia|].
      apply (do_skip_while _ (d :: ds) rest); [done| |done|].
      + constructor; [|done]. unfold is_digit. rewrite andb_true_iff, !Z.leb_le. lia.
      + intros c2 E2 H2. apply HQ; [by eapply eats_app|done]. }
  wp_steps. unfold looking_at. rewrite Hr. destruct Hm; cbn [app] in *.
  - destruct (integer_first i Hi) as (d & ds & Heq & _ & Hd). rewrite Heq. cbn [app].
    rewrite (digit_not (is_char "-") d ds Hd) by (vm_compute; reflexivity). wp_steps.
    apply (Hrest c); [apply eats_nil|by rewrite Hr, Heq].
  - apply (wp_advance1 "-"%char (i ++ rest)); [done|]. intros c1 E1 H1. by apply Hrest.
Qed.

Lemma do_parse_fraction f rest c (Q : unit -> cursor -> Prop) E :
  rest_ c = f ++ rest -> Fraction f -> stops is_digit rest -> stops (is_char ".") rest ->
  (forall c', eats c f c' -> rest_ c' = rest -> Q tt c') -> wp parse_fraction c Q E.
Proof.
  intros Hr Hf Hs Hdot HQ. unfold parse_fraction. wp_steps. unfold looking_at. rewrite Hr.
  destruct Hf as [|ds Hds Hn]; cbn [app] in *.
  - assert (match rest with x :: _ => is_char "." x | [] => false end = false) as -> by by destruct rest.
    wp_steps. apply HQ; [apply eats_nil|done].
  - change (is_char "." ".") with true. cbn match. wp_step.
    apply (wp_advance1 "."%char (ds ++ rest)); [done|]. intros c1 E1 H1.
    apply (do_parse_digits _ ds rest); [done..|]. intros c2 E2 H2. apply HQ; [|done].
    by apply (eats_app c ["."%char] c1).
Qed.

Lemma do_parse_exponent e rest c (Q : unit -> cursor -> Prop) E :
  rest_ c = e ++ rest -> Exponent e -> stops is_digit rest -> stops is_exponent rest ->
  (forall c', eats c e c' -> rest_ c' = rest -> Q tt c') -> wp parse_exponent c Q E.
Proof.
  intros Hr He Hs Hx HQ. unfold parse_exponent. wp_steps. unfold looking_at at 1. rewrite Hr.
  destruct He as [|x ds Hex Hds Hn|x y ds Hex Hy Hds Hn]; cbn [app] in *.
  - assert (match rest with x :: _ => is_exponent x | [] => false end = false) as -> by by destruct rest.
    wp_steps. apply HQ; [apply eats_nil|done].
  - rewrite Hex. wp_step. apply (wp_advance1 x (ds ++ rest)); [done|]. intros c1 E1 H1. wp_steps.
    unfold looking_at. rewrite H1. destruct ds as [|d ds]; [done|]. cbn [app].
    rewrite (digit_not is_sign d ds Hds) by (vm_compute; reflexivity). wp_steps.
    apply (do_parse_digits _ (d :: ds) rest); [done..|]. intros c2 E2 H2. apply HQ; [|done].
    by apply (eats_app c [x] c1).
  - rewrite Hex. wp_step. apply (wp_advance1 x (y :: ds ++ rest)); [done|]. intros c1 E1 H1. wp_steps.
    unfold looking_at. rewrite H1, Hy. apply (wp_advance1 y (ds ++ rest)); [done|]. intros c2 E2 H2.
    apply (do_parse_digits _ ds rest); [done..|]. intros c3 E3 H3. apply HQ; [|done].
    apply (eats_app c [x] c1); [done|]. by apply (eats_app c1 [y] c2).
Qed.

Lemma exponent_stops p e rest :
  Exponent e -> stops p rest ->
  forallb (fun n => negb (is_exponent (ascii_of_nat n)) || negb (p (ascii_of_nat n))) (seq 0 256) = true ->
  stops p (e ++ rest).
Proof.
  intros He Hs H. destruct He as [|x ds Hx Hds Hn|x y ds Hx Hy Hds Hn]; [done|..]; cbn;
    apply negb_true_iff; exact (char_case _ (fun x => negb (p x)) x Hx H).
Qed.

Lemma do_parseNumber t rest c (Q : string -> cursor -> Prop) E :
  rest_ c = t ++ rest -> Number t -> follow rest ->
  (forall c', rest_ c' = rest -> Q (string_of_list_ascii t) c') -> wp parseNumber c Q E.
Proof.
  intros Hr Ht Hf HQ. destruct Ht as [m i f e Hm Hi Hfr He].
  assert (stops is_digit rest) as Hs1 by (by apply follow_stops; [|vm_compute]).
  assert (stops is_exponent rest) as Hs2 by (by apply follow_stops; [|vm_compute]).
  assert (stops (is_char ".") rest) as Hs3 by (by apply follow_stops; [|vm_compute]).
  assert (stops is_digit (e ++ rest)) as Hs4 by (by apply exponent_stops; [..|vm_compute]).
  assert (stops (is_char ".") (e ++ rest)) as Hs5 by (by apply exponent_stops; [..|vm_compute]).
  assert (stops is_digit (f ++ e ++ rest)) as Hs6 by (by destruct Hfr).
  assert (rest_ c = m ++ i ++ f ++ e ++ rest) as Hr' by (rewrite Hr; by repeat rewrite <- app_assoc).
  unfold parseNumber. wp_steps. eapply do_parse_integer; [done..|]. intros c1 E1 H1. wp_step.
  eapply do_parse_fraction; [done..|]. intros c2 E2 H2. wp_step.
  eapply do_parse_exponent; [done..|]. intros c3 E3 H3. wp_steps.
  assert (eats c (m ++ i ++ f ++ e) c3) as Eall.
  { pose proof (eats_app _ _ _ _ _ E1 (eats_app _ _ _ _ _ E2 E3)) as Ea. eats_by Ea. }
  replace (Z.to_nat _) with (length (m ++ i ++ f ++ e)) by (destruct Eall as [_ ->]; lia).
  rewrite Hr, take_app_length. by apply HQ.
Qed.

(** *** Values *)

(** The first character of a value. *)
Lemma value_first d t v : Value d t v -> exists x u, t = x :: u /\ is_space x = false /\ x <> "]"%char.
Proof.
  destruct 1 as [| | |d t _ [m i f e Hm Hi _ _]|d t s _ [t' s' _]| | | |]; try (eexists _, _; split_and!; done).
  destruct (integer_first i Hi) as (x & ds & -> & Hx & Hd). destruct Hm; cbn; eexists _, _; split_and!; try done.
  - exact (digit_not is_space x ds Hd ltac:(vm_compute; reflexivity)).
  - intros ->. done.
Qed.

Lemma value_strip d t v rest : Value d t v -> strip (t ++ rest) = t ++ rest.
Proof. intros (x & u & -> & Hx & _)%value_first. by apply strip_char. Qed.

Lemma literal_strip t s rest : Literal t s -> strip (t ++ rest) = t ++ rest.
Proof. by intros []. Qed.

Lemma closes_follow w x rest : spaces w -> closes x = true -> follow (w ++ x :: rest).
Proof. intros [|y w' Hy _] Hx; cbn; [done|]. unfold closes. by rewrite Hy. Qed.

Lemma elements_first d t l rest :
  Elements d t l -> exists x u, strip (t ++ rest) = x :: u /\ x <> "]"%char.
Proof.
  destruct 1 as [d w t w' v Hw Hv _|d w t w' v ts l Hw Hv _ _];
    destruct (value_first _ _ _ Hv) as (x & u & -> & Hx & Hne); exists x; eexists;
    rewrite <- app_assoc, strip_spaces by done; (split; [by apply strip_char|done]).
Qed.

Lemma members_first d t l rest :
  Members d t l -> exists u, strip (t ++ rest) = quote :: u.
Proof.
  destruct 1 as [d m k v w [d' w1 tk k' w2 w3 tv v' Hw1 [tk' k'' _] _ _ _] _
                |d m k v w ts l [d' w1 tk k' w2 w3 tv v' Hw1 [tk' k'' _] _ _ _] _ _];
    eexists; rewrite <- !app_assoc, strip_spaces by done; by apply strip_char.
Qed.

Definition value_complete (d : Z) (t : text) (v : JsonValue) : Prop :=
  forall fuel rest c (Q : JsonValue -> cursor -> Prop) E,
    0 <= d -> Z.of_nat fuel + d = 130 -> follow rest -> strip (rest_ c) = t ++ rest ->
    (forall c', rest_ c' = rest -> Q v c') -> wp (parseValue fuel d) c Q E.

Definition elements_complete (d : Z) (t : text) (l : list JsonValue) : Prop :=
  forall fuel n array rest c (Q : list JsonValue -> cursor -> Prop) E,
    0 <= d -> Z.of_nat fuel + d = 130 -> (length (rest_ c) < n)%nat ->
    strip (rest_ c) = strip (t ++ "]"%char :: rest) ->
    (forall c', rest_ c' = rest -> Q (array ++ l) c') -> wp (array_loop (parseValue fuel d) n array) c Q E.

Definition members_complete (d : Z) (t : text) (l : list (string * JsonValue)) : Prop :=
  forall fuel n members rest c (Q : list (string * JsonValue) -> cursor -> Prop) E,
    0 <= d -> Z.of_nat fuel + d = 130 -> (length (rest_ c) < n)%nat -> NoDup (members ++ l).*1 ->
    strip (rest_ c) = strip (t ++ "}"%char :: rest) ->
    (forall c', rest_ c' = rest -> Q (object_of (members ++ l)) c') ->
    wp (object_loop (parseValue fuel d) n (object_of members)) c Q E.

Definition member_complete (d : Z) (t : text) (k : string) (v : JsonValue) : Prop :=
  exists w1 tk w2 w3 tv, t = w1 ++ tk ++ w2 ++ ":"%char :: w3 ++ tv /\
    spaces w1 /\ spaces w2 /\ spaces w3 /\ Literal tk k /\ Value d tv v /\ value_complete d tv v.

(** The dispatch of [parseValue] on a known first character. *)
Ltac known_char :=
  repeat match goal with
  | |- context [is_char ?a ?b] =>
      let r := eval vm_compute in (is_char a b) in
      lazymatch r with true => idtac | false => idtac end; change (is_char a b) with r
  end; cbn match.

Ltac enter_value Hr :=
  match goal with |- wp (parseValue ?fuel _) ?c _ _ =>
    destruct fuel as [|fuel]; [lia|]; cbn [parseValue];
    rewrite (proj2 (Z.ltb_ge _ _)) by lia; wp_step; apply do_skipWhitespace;
    let c1 := fresh "c1" in let H1 := fresh "H1" in
    intros c1 H1; rewrite Hr in H1; wp_steps; rewrite H1; cbn [app txt list_ascii_of_string] end.

Lemma do_literal_value d l v :
  d <= 128 -> (v, l) ∈ [(JNull, "null"%string); (JBool true, "true"%string); (JBool false, "false"%string)] ->
  value_complete d (txt l) v.
Proof.
  intros Hd Hl fuel rest c Q E H0 Hf Hfo Hr HQ. rewrite !elem_of_cons, elem_of_nil in Hl.
  destruct Hl as [[= -> ->]|[[= -> ->]|[[= -> ->]|[]]]]; enter_value Hr; known_char; wp_step;
    (eapply do_parseLiteral; [exact H1|]); intros c2 H2; wp_steps; by apply HQ.
Qed.

Lemma do_number_value d t : d <= 128 -> Number t -> value_complete d t (JNumber (string_of_list_ascii t)).
Proof.
  intros Hd Ht fuel rest c Q E H0 Hf Hfo Hr HQ. enter_value Hr.
  assert (wp (s <- parseNumber;; ret (JNumber s))%st c1 Q E) as Hnum.
  { wp_step. eapply do_parseNumber; [done..|]. intros c2 H2. wp_steps. by apply HQ. }
  destruct Ht as [m i f e Hm Hi Hfr He].
  destruct (integer_first i Hi) as (y & ds & Hi' & Hy & Hds). destruct Hm; cbn [app].
  - rewrite Hi'. cbn [app].
    repeat match goal with |- context [is_char ?a y] =>
      rewrite (digit_not (is_char a) y ds Hds) by (vm_compute; reflexivity) end.
    rewrite Hy. cbn. exact Hnum.
  - known_char. exact Hnum.
Qed.

Lemma do_string_value d t s : d <= 128 -> Literal t s -> value_complete d t (JString s).
Proof.
  intros Hd Ht fuel rest c Q E H0 Hf Hfo Hr HQ. enter_value Hr. destruct Ht as [t s Hs]. cbn [app].
  known_char. wp_step. eapply do_parseString; [|by constructor|].
  - rewrite H1. by apply strip_char.
  - intros c2 H2. wp_steps. by apply HQ.
Qed.

(** Entering a container: its opening character, then the test for an empty one. *)
Lemma do_array_value d body l :
  d <= 128 ->
  (forall fuel c rest (Q : list JsonValue -> cursor -> Prop) E, 0 <= d -> Z.of_nat fuel + (d + 1) = 130 ->
     rest_ c = body ++ "]"%char :: rest -> (forall c', rest_ c' = rest -> Q l c') ->
     wp (closed <- consume "]"%char ;;
         if closed then ret []
         else c <- st_get ;; array_loop (parseValue fuel (d + 1)) (S (length (rest_ c))) [])%st c Q E) ->
  value_complete d ("["%char :: body ++ ["]"%char]) (JArray l).
Proof.
  intros Hd Hbody fuel rest c Q E H0 Hf Hfo Hr HQ. enter_value Hr. known_char. wp_step.
  unfold parseArray. wp_step. eapply do_consume_it; [rewrite H1; by apply strip_char|].
  intros c2 H2. cbn [negb]. rewrite <- (app_assoc body) in H2.
  eapply Hbody; [lia|lia|exact H2|]. intros c3 H3. wp_steps. by apply HQ.
Qed.

Lemma do_object_value d body o :
  d <= 128 ->
  (forall fuel c rest (Q : list (string * JsonValue) -> cursor -> Prop) E, 0 <= d -> Z.of_nat fuel + (d + 1) = 130 ->
     rest_ c = body ++ "}"%char :: rest -> (forall c', rest_ c' = rest -> Q o c') ->
     wp (closed <- consume "}"%char ;;
         if closed then ret []
         else c <- st_get ;; object_loop (parseValue fuel (d + 1)) (S (length (rest_ c))) [])%st c Q E) ->
  value_complete d ("{"%char :: body ++ ["}"%char]) (JObject o).
Proof.
  intros Hd Hbody fuel rest c Q E H0 Hf Hfo Hr HQ. enter_value Hr. known_char. wp_step.
  unfold parseObject. wp_step. eapply do_consume_it; [rewrite H1; by apply strip_char|].
  intros c2 H2. cbn [negb]. rewrite <- (app_assoc body) in H2.
  eapply Hbody; [lia|lia|exact H2|]. intros c3 H3. wp_steps. by apply HQ.
Qed.

Lemma do_empty_array d w : d <= 128 -> spaces w -> value_complete d ("["%char :: w ++ ["]"%char]) (JArray []).
Proof.
  intros Hd Hw. apply do_array_value; [done|]. intros fuel c rest Q E H0 Hf Hr HQ. wp_step.
  eapply do_consume_it; [by rewrite Hr, strip_spaces by done|]. intros c1 H1. wp_steps. by apply HQ.
Qed.

Lemma do_empty_object d w : d <= 128 -> spaces w -> value_complete d ("{"%char :: w ++ ["}"%char]) (JObject []).
Proof.
  intros Hd Hw. apply do_object_value; [done|]. intros fuel c rest Q E H0 Hf Hr HQ. wp_step.
  eapply do_consume_it; [by rewrite Hr, strip_spaces by done|]. intros c1 H1. wp_steps. by apply HQ.
Qed.

Lemma do_elements d t l : d <= 128 -> Elements (d + 1) t l -> elements_complete (d + 1) t l ->
  value_complete d ("["%char :: t ++ ["]"%char]) (JArray l).
Proof.
  intros Hd Hl Hc. apply do_array_value; [done|]. intros fuel c rest Q E H0 Hf Hr HQ. wp_step.
  destruct (elements_first _ _ _ ("]"%char :: rest) Hl) as (x & u & Hx & Hne).
  eapply do_consume_not; [by rewrite Hr|done|]. intros c1 H1. wp_steps.
  eapply Hc; [lia|lia|lia| |exact HQ]. by rewrite H1, <- Hx, strip_strip.
Qed.

Lemma do_members d t l : d <= 128 -> Members (d + 1) t l -> members_complete (d + 1) t l -> NoDup l.*1 ->
  value_complete d ("{"%char :: t ++ ["}"%char]) (JObject (object_of l)).
Proof.
  intros Hd Hl Hc Hnd. apply do_object_value; [done|]. intros fuel c rest Q E H0 Hf Hr HQ. wp_step.
  destruct (members_first _ _ _ ("}"%char :: rest) Hl) as (u & Hx).
  eapply do_consume_not; [by rewrite Hr|done|]. intros c1 H1. wp_steps.
  eapply (Hc _ _ []); [lia|lia|lia|done| |exact HQ]. by rewrite H1, <- Hx, strip_strip.
Qed.

Lemma do_last d w t w' v :
  spaces w -> Value d t v -> value_complete d t v -> spaces w' ->
  elements_complete d (w ++ t ++ w') [v].
Proof.
  intros Hw Hv Hc Hw' fuel n array rest c Q E H0 Hf Hn Hr HQ. destruct n as [|n]; [lia|].
  cbn [array_loop]. wp_step. repeat rewrite <- app_assoc in Hr.
  rewrite strip_spaces, (value_strip d t v) in Hr by done.
  eapply Hc; [done|done| |exact Hr|]; [by apply closes_follow|]. intros c1 H1. wp_step.
  eapply do_consume_it; [by rewrite H1, strip_spaces|]. intros c2 H2. wp_steps. by apply HQ.
Qed.

(** A separated item leaves a shorter text. *)
Lemma shorter_after (c c' : cursor) (t w u : text) x n :
  strip (rest_ c) = t ++ w ++ x :: u -> rest_ c' = u -> (length (rest_ c) < S n)%nat ->
  (length (rest_ c') < n)%nat.
Proof.
  intros Hr -> Hn. pose proof (strip_length (rest_ c)) as Hl. rewrite Hr, !length_app in Hl.
  cbn [length] in Hl. lia.
Qed.

Lemma do_more d w t w' v ts l :
  spaces w -> Value d t v -> value_complete d t v -> spaces w' -> elements_complete d ts l ->
  elements_complete d (w ++ t ++ w' ++ ","%char :: ts) (v :: l).
Proof.
  intros Hw Hv Hc Hw' Hts fuel n array rest c Q E H0 Hf Hn Hr HQ. destruct n as [|n]; [lia|].
  cbn [array_loop]. wp_step. repeat rewrite <- app_assoc in Hr.
  rewrite strip_spaces, (value_strip d t v) in Hr by done.
  eapply Hc; [done|done| |exact Hr|]; [by apply closes_follow|]. intros c1 H1. wp_step.
  assert (strip (rest_ c1) = ","%char :: ts ++ "]"%char :: rest) as H1' by (rewrite H1, strip_spaces; done).
  eapply do_consume_not; [exact H1'|done|]. intros c2 H2. wp_step.
  eapply do_consume_it; [by rewrite H2, <- H1', strip_strip|]. intros c3 H3. cbn [negb].
  eapply Hts; [done|done| |by rewrite H3|].
  - by eapply shorter_after.
  - intros c4 H4. rewrite <- app_assoc. by apply HQ.
Qed.

(** One member of an object, up to the end of its value. *)
Lemma do_member d t k v : member_complete d t k v ->
  forall fuel n members u c (Q : list (string * JsonValue) -> cursor -> Prop) E,
    0 <= d -> Z.of_nat fuel + d = 130 -> NoDup (members ++ [(k, v)]).*1 -> follow u ->
    strip (rest_ c) = strip (t ++ u) ->
    (forall c', rest_ c' = u -> (length u <= length (rest_ c))%nat ->
       wp (closed <- consume "}"%char ;;
           if closed then ret (object_of (members ++ [(k, v)]))
           else comma <- consume ","%char ;;
                if negb comma then fail "expected comma in object"
                else object_loop (parseValue fuel d) n (object_of (members ++ [(k, v)])))%st c' Q E) ->
    wp (object_loop (parseValue fuel d) (S n) (object_of members)) c Q E.
Proof.
  intros (w1 & tk & w2 & w3 & tv & -> & Hw1 & Hw2 & Hw3 & Hk & Hv & Hc) fuel n members u c Q E H0 Hf Hnd Hfo Hr Hrest.
  cbn [object_loop]. wp_step. apply do_skipWhitespace. intros c1 H1.
  repeat (rewrite <- app_assoc in Hr; cbn [app] in Hr). rewrite strip_spaces, (literal_strip tk k) in Hr by done.
  assert (length u <= length (rest_ c))%nat as Hlen.
  { pose proof (strip_length (rest_ c)) as Hl. rewrite Hr, !length_app in Hl. cbn [length] in Hl.
    rewrite !length_app in Hl. lia. }
  rewrite Hr in H1. wp_steps.
  assert (looking_at (is_char quote) c1 = true) as -> by (unfold looking_at; rewrite H1; by destruct Hk).
  cbn [negb]. wp_step. eapply do_parseString; [rewrite H1; by eapply literal_strip|done|].
  intros c2 H2. wp_step. eapply do_consume_it; [by rewrite H2, strip_spaces|]. intros c3 H3. cbn [negb].
  wp_step. eapply Hc; [done|done|exact Hfo| |].
  { rewrite H3, strip_spaces by done. by eapply value_strip. }
  intros c4 H4. pose proof Hnd as Hnew. apply emplace_key_new in Hnew;
    [|rewrite fmap_app in Hnd; by apply NoDup_app in Hnd as [? _]].
  destruct (emplace_key k v (object_of members)) as [o inserted] eqn:He. cbn in Hnew. subst inserted.
  assert (o = object_of (members ++ [(k, v)])) as -> by (by rewrite object_of_snoc, He).
  cbn [negb]. by apply Hrest.
Qed.

Lemma do_last_member d m k v w :
  member_complete d m k v -> spaces w -> members_complete d (m ++ w) [(k, v)].
Proof.
  intros Hm Hw fuel n members rest c Q E H0 Hf Hn Hnd Hr HQ. destruct n as [|n]; [lia|].
  rewrite <- app_assoc in Hr. eapply (do_member d m k v); [done|done|done|done| |exact Hr|].
  { by apply closes_follow. }
  intros c1 H1 _. wp_step. eapply do_consume_it; [by rewrite H1, strip_spaces|]. intros c2 H2. wp_steps.
  by apply HQ.
Qed.

Lemma do_more_members d m k v w ts l :
  member_complete d m k v -> spaces w -> members_complete d ts l ->
  members_complete d (m ++ w ++ ","%char :: ts) ((k, v) :: l).
Proof.
  intros Hm Hw Hts fuel n members rest c Q E H0 Hf Hn Hnd Hr HQ. destruct n as [|n]; [lia|].
  repeat rewrite <- app_assoc in Hr.
  rewrite (app_assoc members [(k, v)] l : members ++ (k, v) :: l = _) in Hnd, HQ.
  eapply (do_member d m k v); [done|done|done| | |exact Hr|].
  { rewrite fmap_app in Hnd. by apply NoDup_app in Hnd as [? _]. }
  { by apply closes_follow. }
  intros c1 H1 Hlen. wp_step.
  assert (strip (rest_ c1) = ","%char :: ts ++ "}"%char :: rest) as H1' by (rewrite H1, strip_spaces; done).
  eapply do_consume_not; [exact H1'|done|]. intros c2 H2. wp_step.
  eapply do_consume_it; [by rewrite H2, <- H1', strip_strip|]. intros c3 H3. cbn [negb].
  eapply Hts; [done|done| |done|by rewrite H3|exact HQ].
  rewrite H3. rewrite length_app in Hlen. cbn [app length] in Hlen. lia.
Qed.

Lemma grammar_complete :
  (forall d t v, Value d t v -> value_complete d t v) /\
  (forall d t l, Elements d t l -> elements_complete d t l) /\
  (forall d t l, Members d t l -> members_complete d t l) /\
  (forall d t k v, Member d t k v -> member_complete d t k v).
Proof.
  apply (grammar_ind value_complete elements_complete members_complete member_complete).
  - intros d Hd. apply (do_literal_value d "null"); set_solver.
  - intros d Hd. apply (do_literal_value d "true"); set_solver.
  - intros d Hd. apply (do_literal_value d "false"); set_solver.
  - apply do_number_value.
  - apply do_string_value.
  - apply do_empty_array.
  - apply do_elements.
  - apply do_empty_object.
  - intros. by apply do_members.
  - intros. by apply do_last.
  - intros. by apply do_more.
  - intros. by apply do_last_member.
  - intros. by apply do_more_members.
  - intros d w1 tk k w2 w3 t v Hw1 Hk Hw2 Hw3 Hv Hc. by exists w1, tk, w2, w3, t.
Qed.

Lemma do_parse t v c : Document t v -> rest_ c = t -> wp parse c (fun v' _ => v' = v) (fun _ _ => False).
Proof.
  intros Hd Hr. destruct Hd as [w t w' v Hw Hv Hw']. unfold parse. wp_step.
  assert (follow w') as Hfo.
  { destruct Hw' as [|y w' Hy _]; [done|]. cbn. unfold closes. by rewrite Hy. }
  eapply (proj1 grammar_complete); [exact Hv|lia|lia|exact Hfo| |].
  { rewrite Hr, strip_spaces by done. by eapply value_strip. }
  intros c1 H1. wp_step. apply do_skipWhitespace. intros c2 H2. wp_steps.
  rewrite H1 in H2. rewrite <- (app_nil_r w'), strip_spaces in H2 by done. cbn in H2. rewrite H2. done.
Qed.

Lemma parseJson_parse input r c' : parse (mkCursor 0 (txt input)) = (r, c') -> parseJson input = r.
Proof. intros H. exact (f_equal fst H). Qed.

Lemma parseJson_sound input :
  (exists v, parseJson input = Ok v /\ Document (txt input) v) \/
  (exists e, parseJson input = Throw e /\ kind_of e = MetadataError).
Proof.
  destruct (wp_result _ _ _ _ (wp_parse (mkCursor 0 (txt input)))) as [(v & c' & Hp & _ & Hd)|(e & c' & Hp & He)].
  - left. exists v. split; [by eapply parseJson_parse|done].
  - right. exists e. split; [by eapply parseJson_parse|done].
Qed.

Lemma parseJson_complete input v : Document (txt input) v -> parseJson input = Ok v.
Proof.
  intros Hd. destruct (wp_result _ _ _ _ (do_parse _ _ (mkCursor 0 (txt input)) Hd eq_refl))
    as [(v' & c' & Hp & ->)|(e & c' & Hp & [])].
  by eapply parseJson_parse.
Qed.

(** C7: [parseJson] decides its grammar.  On every input it ends, either with the
    value the grammar gives the whole text - and every text of the grammar is
    accepted with its value - or with a [MetadataError]; it never crashes,
    recurses past the nesting limit or loops. *)
Theorem parse_iff_document input :
  (forall v, parseJson input = Ok v <-> Document (txt input) v) /\
  parseJson input <> Diverge /\
  (forall e, parseJson input = Throw e -> kind_of e = MetadataError).
Proof.
  destruct (parseJson_sound input) as [(v & Hp & Hv)|(e & Hp & He)]; rewrite Hp; (split_and!; [|done|]).
  - intros v'. split; [by intros [= <-]|]. intros Hd. rewrite <- Hp. by apply parseJson_complete.
  - done.
  - intros v. split; [done|]. intros Hd%parseJson_complete. congruence.
  - by intros e' [= <-].
Qed.

(** ** What is written is read back *)

(** How [escapeJson] writes one character. *)
Definition escape_ok (c : ascii) : bool :=
  match escape_char c with
  | [x] => is_char c x && (32 <=? code c) && negb (is_char quote c) && negb (is_char backslash c)
  | [b; e] => is_char backslash b && bool_decide (simple_escape e = Some c)
  | [b; u; h1; h2; h3; h4] =>
      is_char backslash b && is_char "u" u &&
      match hex_value h1, hex_value h2, hex_value h3, hex_value h4 with
      | Some v1, Some v2, Some v3, Some v4 =>
          let n := v1 * 4096 + v2 * 256 + v3 * 16 + v4 in
          (n <? 55296) && bool_decide (appendUtf8 n = [c])
      | _, _, _, _ => false
      end
  | _ => false
  end.

Lemma escape_char_ok c : escape_ok c = true.
Proof. apply ascii_forall. vm_compute. reflexivity. Qed.

Lemma escape_char_chars c t s : Chars t s -> Chars (escape_char c ++ t) (c :: s).
Proof.
  intros Hts. pose proof (escape_char_ok c) as H. unfold escape_ok in H.
  destruct (escape_char c) as [|x [|e [|h1 [|h2 [|h3 [|h4 [|]]]]]]]; try discriminate H.
  - rewrite !andb_true_iff, !negb_true_iff, Z.leb_le in H. destruct H as [[[->%Ascii.eqb_eq H1] H2] H3].
    apply Ascii.eqb_neq in H2, H3. by constructor.
  - apply andb_true_iff in H as [->%Ascii.eqb_eq He%bool_decide_eq_true]. by constructor.
  - apply andb_true_iff in H as [[->%Ascii.eqb_eq ->%Ascii.eqb_eq]%andb_true_iff H].
    destruct (hex_value h1) as [v1|] eqn:H1, (hex_value h2) as [v2|] eqn:H2, (hex_value h3) as [v3|] eqn:H3,
      (hex_value h4) as [v4|] eqn:H4; try discriminate H.
    apply andb_true_iff in H as [Hn%Z.ltb_lt Hc%bool_decide_eq_true].
    change (c :: s) with ([c] ++ s). rewrite <- Hc.
    apply (C_unicode [h1; h2; h3; h4]); [by exists h1, h2, h3, h4, v1, v2, v3, v4|unfold surrogate; lia|done].
Qed.

Lemma escapeJson_chars s : Chars (escapeJson s) (txt s).
Proof.
  unfold escapeJson. induction (txt s) as [|c l IH]; [constructor|]. by apply escape_char_chars.
Qed.

(** Reading a decimal number back. *)
Lemma digit_code (d : N) : (d < 10)%N -> is_digit (pretty_N_char d) = true /\ code (pretty_N_char d) - 48 = Z.of_N d.
Proof.
  intros Hd. assert (d ∈ [0; 1; 2; 3; 4; 5; 6; 7; 8; 9]%N) as H by set_solver by lia.
  repeat (apply elem_of_cons in H as [->|H]; [by vm_compute|]). by apply elem_of_nil in H.
Qed.

Lemma decimal_pretty (x : N) (s : string) :
  decimal 0 (txt (pretty_N_go x s)) = decimal (Z.of_N x) (txt s).
Proof.
  revert s. induction x as [x IH] using (well_founded_induction N.lt_wf_0). intros s.
  destruct (decide (0 < x)%N) as [Hx|Hx].
  - rewrite pretty_N_go_step by done. rewrite IH by (apply N.div_lt; lia). cbn [txt list_ascii_of_string decimal].
    destruct (digit_code (x `mod` 10)) as [-> ->]; [by apply N.mod_lt|].
    f_equal. rewrite N2Z.inj_div, N2Z.inj_mod. pose proof (Z.div_mod (Z.of_N x) 10). lia.
  - assert (x = 0)%N as -> by lia. by rewrite pretty_N_go_0.
Qed.

Lemma digit_pos_code (d : N) : (0 < d < 10)%N -> 49 <= code (pretty_N_char d) <= 57.
Proof. intros Hd. destruct (digit_code d) as [_ H]; [lia|]. lia. Qed.

Lemma pretty_digits (x : N) (s : string) :
  (0 < x)%N -> exists d ds, txt (pretty_N_go x s) = d :: ds ++ txt s /\ 49 <= code d <= 57 /\ digits ds.
Proof.
  revert s. induction x as [x IH] using (well_founded_induction N.lt_wf_0). intros s Hx.
  rewrite pretty_N_go_step by done. destruct (decide (0 < x `div` 10)%N) as [Hd|Hd].
  - destruct (IH (x `div` 10)%N ltac:(apply N.div_lt; lia) (String (pretty_N_char (x `mod` 10)) s) Hd)
      as (d & ds & -> & Hcode & Hds).
    exists d, (ds ++ [pretty_N_char (x `mod` 10)]). rewrite <- app_assoc. split_and!; [done|lia|lia|].
    apply Forall_app. split; [done|]. constructor; [|constructor]. apply digit_code. by apply N.mod_lt.
  - assert (x `div` 10 = 0)%N as Hz by (apply N.le_0_r, N.nlt_ge; exact Hd). rewrite Hz, pretty_N_go_0.
    assert (x `mod` 10 = x)%N as Hm by (pose proof (N.div_mod x 10 ltac:(done)) as Hdm; rewrite Hz in Hdm; lia).
    assert (x < 10)%N by (rewrite <- Hm; by apply N.mod_lt). rewrite Hm.
    exists (pretty_N_char x), []. split_and!; [done|apply digit_pos_code; lia..|constructor].
Qed.

Lemma pretty_nonneg n : 0 <= n -> pretty n = if decide (n = 0) then "0"%string else pretty_N_go (Z.to_N n) "".
Proof. destruct n; [done|done|lia]. Qed.

Lemma pretty_number n : 0 <= n -> Number (txt (pretty n)).
Proof.
  intros Hn. rewrite pretty_nonneg by done.
  assert (forall i, Integer i -> Number i) as HN.
  { intros i Hi. rewrite <- (app_nil_r i). apply (N_number [] i [] []); [constructor|done|constructor..]. }
  apply HN. case_decide as Hz; [constructor|].
  destruct (pretty_digits (Z.to_N n) "") as (d & ds & -> & Hd & Hds); [lia|].
  cbn. rewrite app_nil_r. by constructor.
Qed.

Lemma from_chars_pretty n : is_u64 n -> from_chars_u64 (pretty n) = Some n.
Proof.
  intros [Hn Hmax]. unfold from_chars_u64. rewrite pretty_nonneg by done. case_decide as Hz; [by subst|].
  destruct (pretty_digits (Z.to_N n) "") as (d & ds & Heq & _); [lia|]. pose proof (decimal_pretty (Z.to_N n) "") as Hd.
  rewrite Heq in Hd |- *. rewrite Hd. cbn [txt list_ascii_of_string decimal].
  rewrite Z2N.id by done. by rewrite (proj2 (Z.leb_le n u64_max)).
Qed.

Lemma txt_of s : string_of_list_ascii (txt s) = s.
Proof. apply string_of_list_ascii_of_string. Qed.
Lemma of_txt l : txt (string_of_list_ascii l) = l.
Proof. apply list_ascii_of_string_of_list_ascii. Qed.

Lemma document_value t v : Value 0 t v -> Document t v.
Proof. intros Hv. rewrite <- (app_nil_r t). by apply (D_doc [] t []); [constructor|..|constructor]. Qed.

(** Whatever string [escapeJson] writes between quotes, and whatever unsigned
    number is written in decimal, the reader reads back. *)
Theorem written_values_read_back s n (Hn : is_u64 n) :
  parseJson (string_of_list_ascii (quote :: escapeJson s ++ [quote])) = Ok (JString s) /\
  parseJson (pretty n) = Ok (JNumber (pretty n)) /\
  asUInt64 (JNumber (pretty n)) = Ok n /\ asUInt64 (JString (pretty n)) = Ok n.
Proof.
  split_and!.
  - apply parseJson_complete, document_value. rewrite of_txt. apply V_string; [done|].
    pose proof (L_string _ _ (escapeJson_chars s)) as H. by rewrite txt_of in H.
  - apply parseJson_complete, document_value. rewrite <- (txt_of (pretty n)) at 2.
    apply V_number; [done|]. by apply pretty_number, Hn.
  - unfold asUInt64. by rewrite from_chars_pretty.
  - unfold asUInt64. by rewrite from_chars_pretty.
Qed.

Lemma written_values_read_back_witness :
  is_u64 1024 /\
  parseJson (string_of_list_ascii (quote :: escapeJson "a\b" ++ [quote])) = Ok (JString "a\b") /\
  parseJson "1024" = Ok (JNumber "1024") /\
  asUInt64 (JNumber "1024") = Ok 1024 /\ asUInt64 (JString "1024") = Ok 1024.
Proof.
  assert (is_u64 1024) as H by (unfold is_u64, u64_max; lia).
  split; [exact H|]. exact (written_values_read_back "a\b" 1024 H).
Defined.
