(* ===== verification/Tensor.v ===== *)
(** * Shapes, tensors and tensor views

    [src/tensor/Shape.cpp], [Tensor.cpp] and [TensorView.cpp].  Addresses are
    integers, an owner ([std::shared_ptr<void>]) is an identity, and a view holds
    the identity of an owner it does not keep alive: its methods take the owners
    that still are. *)

From S2P Require Import Prelude Tiers.

(** ** Shapes *)

Record Shape : Type := mkShape {
  dimensions : list Z;
  strides : list Z;
  elementCount : Z;
  storageElementCount : Z;
}.

#[global] Instance Shape_eq_dec : EqDecision Shape.
Proof. solve_decision. Defined.

(** [Shape() = default] *)
Definition scalarShape : Shape := mkShape [] [] 1 1.

Definition rank (s : Shape) : nat := length (dimensions s).

(** [validateAndCount] *)
Fixpoint count_loop (elementCount : Z) (dims : list Z) : result Z :=
  match dims with
  | [] => Ok elementCount
  | dimension :: dims =>
      (throw_if (dimension =? 0) (Exn InvalidArgument "tensor dimensions must be nonzero") ;;?
       throw_if (u64_max / dimension <? elementCount)
         (Exn OverflowError "tensor element count overflow") ;;?
       count_loop (wrap64 (elementCount * dimension)) dims)%res
  end.
Definition validateAndCount (dims : list Z) : result Z := count_loop 1 dims.

(** The loop of [makeContiguousStrides], from the last index to the first: the
    strides and the running product. *)
Definition stride_step (dimension : Z) (acc : list Z * Z) : list Z * Z :=
  let '(ss, stride) := acc in (stride :: ss, wrap64 (stride * dimension)).
Definition makeContiguousStrides (dims : list Z) : list Z := fst (foldr stride_step ([], 1) dims).

Definition contiguousShape (dims : list Z) : result Shape :=
  (count <-? validateAndCount dims ;;
   Ok (mkShape dims (makeContiguousStrides dims) count count))%res.

(** The storage span of [Shape(dimensions, strides)]. *)
Fixpoint span_loop (storage : Z) (l : list (Z * Z)) : result Z :=
  match l with
  | [] => Ok storage
  | (dimension, stride) :: l =>
      let distance := wrap64 (dimension - 1) in
      (throw_if (negb (distance =? 0) && ((u64_max - storage) / distance <? stride))
         (Exn OverflowError "strided tensor storage span overflow") ;;?
       span_loop (wrap64 (storage + wrap64 (distance * stride))) l)%res
  end.

Definition stridedShape (dims ss : list Z) : result Shape :=
  (count <-? validateAndCount dims ;;
   throw_if (negb (length ss =? length dims)%nat)
     (Exn InvalidArgument "shape dimensions and strides must have equal rank") ;;?
   throw_if (existsb (fun stride => (stride =? 0) && (1 <? count)) ss)
     (Exn InvalidArgument "non-scalar tensor strides must be nonzero") ;;?
   storage <-? span_loop 1 (zip dims ss) ;;
   Ok (mkShape dims ss count storage))%res.

(** The loop of [isContiguous], from the last index: whether every stride so far was
    the expected one, and the next expected. *)
Definition contiguous_step (p : Z * Z) (acc : bool * Z) : bool * Z :=
  let '(dimension, stride) := p in
  let '(ok, expected) := acc in
  if ok && (stride =? expected) then (true, wrap64 (expected * dimension)) else (false, expected).
Definition shape_isContiguous (s : Shape) : bool :=
  fst (foldr contiguous_step (true, 1) (zip (dimensions s) (strides s))).

(** *** What a shape means *)

Definition product (l : list Z) : Z := foldr Z.mul 1 l.

(** A multi-index within the dimensions, and the element it addresses. *)
Definition in_shape (s : Shape) (index : list Z) : Prop :=
  Forall2 (fun i d => 0 <= i < d) index (dimensions s).
Fixpoint offset_of (index ss : list Z) : Z :=
  match index, ss with
  | i :: index, s :: ss => i * s + offset_of index ss
  | _, _ => 0
  end.

(** The invariant of the class. *)
Record shape_wf (s : Shape) : Prop := ShapeWf {
  sw_rank : length (strides s) = length (dimensions s);
  sw_dims : Forall (fun d => 1 <= d) (dimensions s);
  sw_strides : Forall (fun d => 0 <= d) (strides s);
  sw_count : elementCount s = product (dimensions s) /\ elementCount s <= u64_max;
  sw_storage : 1 <= storageElementCount s <= u64_max;
  sw_span : forall index, in_shape s index -> 0 <= offset_of index (strides s) < storageElementCount s;
}.

Lemma product_pos l : Forall (fun d => 1 <= d) l -> 1 <= product l.
Proof. unfold product. induction 1 as [|d l Hd _ IH]; cbn; [lia|nia]. Qed.

Lemma count_loop_spec dims count :
  1 <= count <= u64_max -> Forall is_u64 dims ->
  match count_loop count dims with
  | Ok n => Forall (fun d => 1 <= d) dims /\ n = count * product dims /\ n <= u64_max
  | Throw e => Forall (fun d => 1 <= d) dims -> u64_max < count * product dims
  | Diverge => False
  end.
Proof.
  revert count. induction dims as [|d dims IH]; intros count Hc Hd; cbn.
  - split_and!; [constructor|unfold product; cbn; lia|lia].
  - apply Forall_cons in Hd as [Hd Hds]. unfold is_u64 in Hd.
    destruct (Z.eqb_spec d 0) as [->|Hd0]; cbn; [intros [? _]%Forall_cons; lia|].
    destruct (Z.ltb_spec (u64_max / d) count) as [Hlt|Hle]; cbn.
    + intros [_ Hds']%Forall_cons. pose proof (product_pos _ Hds').
      assert (u64_max < count * d) by (apply Z.div_lt_upper_bound in Hlt || idtac; pose proof (Z.mul_succ_div_gt u64_max d); nia).
      unfold product in *. nia.
    + assert (count * d <= u64_max) by (pose proof (Z.mul_div_le u64_max d); nia).
      rewrite wrap64_small by (unfold is_u64; nia).
      specialize (IH (count * d) ltac:(nia) Hds). destruct (count_loop (count * d) dims) as [n|e|].
      * destruct IH as (H1 & H2 & H3). split_and!; [constructor; [lia|done]| |done].
        unfold product in *. cbn. nia.
      * intros [_ Hds']%Forall_cons. specialize (IH Hds'). unfold product in *. cbn. nia.
      * done.
Qed.

(** *** Row-major strides *)

Fixpoint row_major (dims : list Z) : list Z :=
  match dims with [] => [] | _ :: dims => product dims :: row_major dims end.

Lemma row_major_length dims : length (row_major dims) = length dims.
Proof. induction dims; cbn; congruence. Qed.

Lemma row_major_pos dims : Forall (fun d => 1 <= d) dims -> Forall (fun s => 0 <= s) (row_major dims).
Proof.
  induction 1 as [|d dims Hd Hds IH]; cbn; constructor; [|done]. pose proof (product_pos _ Hds). lia.
Qed.

Lemma stride_fold dims :
  Forall (fun d => 1 <= d) dims -> product dims <= u64_max ->
  foldr stride_step ([], 1) dims = (row_major dims, product dims).
Proof.
  induction 1 as [|d dims Hd Hds IH]; intros Hp; [done|]. pose proof (product_pos _ Hds).
  cbn in Hp |- *. unfold product in *. rewrite IH by nia. cbn. f_equal.
  rewrite wrap64_small by (unfold is_u64; nia). lia.
Qed.

Lemma offset_row_major dims index :
  Forall2 (fun i d => 0 <= i < d) index dims -> 0 <= offset_of index (row_major dims) < product dims.
Proof.
  induction 1 as [|i d index dims Hi _ IH]; cbn; [unfold product; cbn; lia|].
  unfold product in *. cbn. nia.
Qed.

(** The last element of a strided shape bounds the others. *)
Definition span (l : list (Z * Z)) : Z := foldr (fun '(d, s) acc => (d - 1) * s + acc) 0 l.

Lemma span_nonneg l : Forall (fun p => 1 <= fst p /\ 0 <= snd p) l -> 0 <= span l.
Proof. unfold span. induction 1 as [|[d s] l [Hd Hs] _ IH]; cbn in *; nia. Qed.

Lemma offset_span index dims ss :
  Forall2 (fun i d => 0 <= i < d) index dims -> length ss = length dims -> Forall (fun s => 0 <= s) ss ->
  0 <= offset_of index ss <= span (zip dims ss).
Proof.
  unfold span. intros H. revert ss. induction H as [|i d index dims Hi _ IH]; intros [|s ss] Hl Hs; try done.
  cbn in *. apply Forall_cons in Hs as [Hs Hss]. specialize (IH ss ltac:(lia) Hss). nia.
Qed.

Lemma span_loop_spec l storage :
  1 <= storage <= u64_max -> Forall (fun p => 1 <= fst p <= u64_max /\ is_u64 (snd p)) l ->
  match span_loop storage l with
  | Ok n => n = storage + span l /\ n <= u64_max
  | Throw e => u64_max < storage + span l
  | Diverge => False
  end.
Proof.
  revert storage. induction l as [|[d s] l IH]; intros storage Hst Hl; cbn; [unfold span; cbn; lia|].
  apply Forall_cons in Hl as [[Hd Hs] Hl]. unfold is_u64 in Hs. cbn in Hd, Hs.
  assert (0 <= span l) as Hnn.
  { apply span_nonneg. eapply Forall_impl; [exact Hl|]. intros [? ?]. unfold is_u64. cbn. lia. }
  rewrite (wrap64_small (d - 1)) by (unfold is_u64; lia).
  destruct (negb (d - 1 =? 0) && ((u64_max - storage) / (d - 1) <? s)) eqn:Hg; cbn.
  - apply andb_true_iff in Hg as [H1 H2]. apply negb_true_iff, Z.eqb_neq in H1. apply Z.ltb_lt in H2.
    pose proof (Z.mul_succ_div_gt (u64_max - storage) (d - 1) ltac:(lia)).
    unfold span in *. cbn. nia.
  - assert ((d - 1) * s <= u64_max - storage) as Hb.
    { apply andb_false_iff in Hg as [H1|H2].
      - apply negb_false_iff, Z.eqb_eq in H1. rewrite H1. lia.
      - apply Z.ltb_ge in H2. destruct (decide (d = 1)) as [->|Hne]; [lia|].
        pose proof (Z.mul_div_le (u64_max - storage) (d - 1)). nia. }
    rewrite (wrap64_small ((d - 1) * s)) by (unfold is_u64; nia).
    rewrite wrap64_small by (unfold is_u64; nia).
    specialize (IH (storage + (d - 1) * s) ltac:(nia) Hl).
    destruct (span_loop _ l) as [n|e|]; [|unfold span in *; cbn; lia|done].
    unfold span in *. cbn. lia.
Qed.

(** *** The constructors establish the invariant *)

Lemma contiguousShape_spec dims :
  Forall is_u64 dims ->
  match contiguousShape dims with
  | Ok s => shape_wf s /\ dimensions s = dims /\ strides s = row_major dims /\
            storageElementCount s = elementCount s /\ elementCount s = product dims
  | Throw e => Forall (fun d => 1 <= d) dims -> u64_max < product dims
  | Diverge => False
  end.
Proof.
  intros Hd. unfold contiguousShape, validateAndCount.
  pose proof (count_loop_spec dims 1 ltac:(unfold u64_max; lia) Hd) as H.
  destruct (count_loop 1 dims) as [n|e|]; cbn; [|rewrite Z.mul_1_l in H; done|done].
  destruct H as (Hpos & Hn & Hmax). rewrite Z.mul_1_l in Hn. pose proof (product_pos _ Hpos).
  unfold makeContiguousStrides. rewrite stride_fold by (done || lia). cbn. split_and!; try done.
  constructor; cbn; [by rewrite row_major_length|done|by apply row_major_pos|by split|lia|].
  intros index Hi. rewrite Hn. by apply offset_row_major.
Qed.

(** A shape without empty dimensions is refused only when its size overflows. *)
Lemma contiguousShape_overflow dims e : Forall (fun d => 1 <= d) dims -> contiguousShape dims = Throw e -> kind_of e = OverflowError.
Proof.
  intros Hd. unfold contiguousShape, validateAndCount.
  assert (forall n e, count_loop n dims = Throw e -> kind_of e = OverflowError) as H.
  { clear e. induction Hd as [|d dims Hd _ IH]; intros n e; cbn; [done|].
    destruct (Z.eqb_spec d 0); [lia|]. cbn. destruct (_ <? n); cbn; [by intros [= <-]|]. apply IH. }
  destruct (count_loop 1 dims) as [n|e'|] eqn:Hc; cbn; try done. intros [= <-]. by eapply H.
Qed.

Lemma stridedShape_spec dims ss :
  Forall is_u64 dims -> Forall is_u64 ss ->
  match stridedShape dims ss with
  | Ok s => shape_wf s /\ dimensions s = dims /\ strides s = ss /\ storageElementCount s = 1 + span (zip dims ss)
  | Throw e => ~ (Forall (fun d => 1 <= d) dims /\ product dims <= u64_max /\ length ss = length dims /\
                  Forall (fun s => 1 <= s) ss /\ 1 + span (zip dims ss) <= u64_max)
  | Diverge => False
  end.
Proof.
  intros Hd Hs. unfold stridedShape, validateAndCount.
  pose proof (count_loop_spec dims 1 ltac:(unfold u64_max; lia) Hd) as H.
  destruct (count_loop 1 dims) as [n|e|]; cbn;
    [|intros (Hp & Hmax & _); rewrite Z.mul_1_l in H; specialize (H Hp); lia|done].
  destruct H as (Hpos & Hn & Hmax). rewrite Z.mul_1_l in Hn. pose proof (product_pos _ Hpos).
  destruct (Nat.eqb_spec (length ss) (length dims)) as [Hl|Hl]; cbn; [|by intros (_ & _ & ? & _)].
  destruct (existsb _ ss) eqn:He; cbn.
  { apply existsb_exists in He as (s & Hin & Hz). apply andb_true_iff in Hz as [Hz%Z.eqb_eq _].
    intros (_ & _ & _ & Hpos' & _). rewrite Forall_forall in Hpos'.
    specialize (Hpos' s ltac:(by apply list_elem_of_In)). lia. }
  assert (Forall (fun p => 1 <= fst p <= u64_max /\ is_u64 (snd p)) (zip dims ss)) as Hz.
  { apply Forall_forall. intros [d s] Hin.
    pose proof (elem_of_zip_l _ _ _ _ Hin) as Hi1. pose proof (elem_of_zip_r _ _ _ _ Hin) as Hi2.
    rewrite Forall_forall in Hd, Hpos, Hs. specialize (Hd d Hi1). specialize (Hpos d Hi1).
    unfold is_u64 in *. cbn. split; [lia|]. by apply Hs. }
  pose proof (span_loop_spec (zip dims ss) 1 ltac:(unfold u64_max; lia) Hz) as Hsp.
  destruct (span_loop 1 (zip dims ss)) as [m|e|]; cbn; [|intros (_ & _ & _ & _ & ?); lia|done].
  destruct Hsp as [Hm Hmm]. split_and!; try done.
  assert (Forall (fun s => 0 <= s) ss) as Hss by (eapply Forall_impl; [exact Hs|unfold is_u64; lia]).
  assert (0 <= span (zip dims ss)).
  { apply span_nonneg. eapply Forall_impl; [exact Hz|]. intros [? ?]. unfold is_u64. cbn. lia. }
  constructor; cbn; [done|done|done|by split|lia|]. intros index Hi.
  pose proof (offset_span index dims ss Hi Hl Hss). lia.
Qed.

Lemma scalarShape_wf : shape_wf scalarShape.
Proof.
  constructor; cbn; [done|constructor|constructor|split; [done|unfold u64_max; lia]|unfold u64_max; lia|].
  intros index H. inversion H. cbn. lia.
Qed.

(** [isContiguous] says the strides are the row-major ones. *)
Lemma contiguous_fold dims ss :
  Forall (fun d => 1 <= d) dims -> product dims <= u64_max -> length ss = length dims ->
  let r := foldr contiguous_step (true, 1) (zip dims ss) in
  if bool_decide (ss = row_major dims) then r = (true, product dims) else fst r = false.
Proof.
  intros Hd. revert ss. induction Hd as [|d dims Hd Hds IH]; intros [|s ss] Hp Hl; try done; cbn in Hp, Hl |- *.
  pose proof (product_pos _ Hds). specialize (IH ss ltac:(unfold product in *; nia) ltac:(lia)). cbn in IH.
  destruct (foldr contiguous_step (true, 1) (zip dims ss)) as [ok expected].
  destruct (decide (ss = row_major dims)) as [->|Hne].
  - rewrite bool_decide_true in IH by done. injection IH as -> ->. cbn.
    destruct (Z.eqb_spec s (product dims)) as [->|Hs].
    + rewrite bool_decide_true by done. cbn. f_equal. unfold product in *. cbn.
      rewrite wrap64_small by (unfold is_u64; nia). lia.
    + rewrite bool_decide_false by congruence. done.
  - rewrite bool_decide_false in IH by done. cbn in IH. subst ok. cbn.
    rewrite bool_decide_false by congruence. done.
Qed.

Lemma isContiguous_spec s : shape_wf s -> shape_isContiguous s = true <-> strides s = row_major (dimensions s).
Proof.
  intros []. unfold shape_isContiguous. destruct sw_count0 as [Hc Hm].
  pose proof (contiguous_fold (dimensions s) (strides s) sw_dims0 ltac:(lia) sw_rank0) as H. cbn in H.
  case_bool_decide as Hs; [rewrite H; by cbn|]. rewrite H. done.
Qed.

(** The elements of a contiguous shape fill its storage from the start. *)
Lemma contiguous_count s :
  shape_wf s -> shape_isContiguous s = true -> elementCount s <= storageElementCount s.
Proof.
  intros Hwf Hc. apply isContiguous_spec in Hc; [|done]. destruct Hwf.
  destruct sw_count0 as [Hn _]. rewrite Hn.
  pose proof (sw_span0 ((fun d => d - 1) <$> dimensions s)) as H. rewrite Hc in H.
  assert (offset_of ((fun d => d - 1) <$> dimensions s) (row_major (dimensions s)) = product (dimensions s) - 1) as Ho.
  { clear -sw_dims0. induction sw_dims0 as [|d dims Hd _ IH]; cbn; [done|]. unfold product in *. cbn. nia. }
  rewrite Ho in H. assert (in_shape s ((fun d => d - 1) <$> dimensions s)) as Hin; [|specialize (H Hin); lia].
  unfold in_shape. clear -sw_dims0. induction sw_dims0; cbn; constructor; [lia|done].
Qed.

(** ** Devices *)

Inductive DeviceType : Type := CPU | CUDA.
#[global] Instance DeviceType_eq_dec : EqDecision DeviceType.
Proof. solve_decision. Defined.

Record Device : Type := mkDevice { type : DeviceType; ordinal : Z }.
#[global] Instance Device_eq_dec : EqDecision Device.
Proof. solve_decision. Defined.
Definition cpu : Device := mkDevice CPU 0.

(** [alignmentOf]; the alignment of every element type is its size. *)
Definition alignmentOf (d : DType) : Z :=
  match d with FP32 => 4 | FP16 => 2 | BF16 => 2 | INT8 => 1 end.

(** [std::shared_ptr<backend::DeviceBuffer>]: the identity of the buffer, its
    [data_] and [size_], and the kind and ordinal of its backend. *)
Record DeviceBuffer : Type := mkBuffer {
  bu_owner : Z;
  bu_data : Z;
  bu_size : Z;
  bu_backend : option (DeviceType * Z);
}.

(** The device the metadata names is the one of the backend. *)
Definition device_matches (device : Device) (backend : DeviceType * Z) : bool :=
  let '(kind, backend_ordinal) := backend in
  match type device with
  | CPU => bool_decide (kind = CPU)
  | CUDA => bool_decide (kind = CUDA) && (backend_ordinal =? ordinal device)
  end.

Definition requiredBytes (message : string) (s : Shape) (d : DType) : result Z :=
  (throw_if (u64_max / dtype_sizeOf d <? storageElementCount s) (Exn OverflowError message) ;;?
   Ok (wrap64 (storageElementCount s * dtype_sizeOf d)))%res.
Definition logicalBytes (message : string) (s : Shape) (d : DType) : result Z :=
  (throw_if (u64_max / dtype_sizeOf d <? elementCount s) (Exn OverflowError message) ;;?
   Ok (wrap64 (elementCount s * dtype_sizeOf d)))%res.

(** ** Tensors *)

Record Tensor : Type := mkTensor {
  te_shape : Shape;
  te_dtype : DType;
  te_device : Device;
  te_data : Z;
  te_bytes : Z;
  te_storageBytes : Z;
  te_owner : option Z;
}.

Definition validateStorageMetadata (d : DType) (device : Device) (data : Z) : result unit :=
  (throw_if (ordinal device <? 0) (Exn InvalidArgument "tensor device metadata is invalid") ;;?
   throw_if (bool_decide (type device = CPU) && negb (ordinal device =? 0))
     (Exn InvalidArgument "CPU tensors must use device ordinal zero") ;;?
   throw_if (negb (data =? 0) && negb (data mod alignmentOf d =? 0))
     (Exn InvalidArgument "tensor storage is not aligned for its dtype"))%res.

(** [Tensor::fromStorage] *)
Definition fromStorage (s : Shape) (d : DType) (device : Device) (data storageBytes : Z)
    (owner : option Z) : result Tensor :=
  (bytes <-? logicalBytes "tensor byte size overflow" s d ;;
   validateStorageMetadata d device data ;;?
   throw_if ((data =? 0) || bool_decide (owner = None))
     (Exn InvalidArgument "tensor storage and owner must be present") ;;?
   required <-? requiredBytes "tensor byte size overflow" s d ;;
   throw_if (storageBytes <? required)
     (Exn InvalidArgument "tensor storage is smaller than its metadata requires") ;;?
   Ok (mkTensor s d device data bytes storageBytes owner))%res.

Definition tensor_fromDeviceBuffer (s : Shape) (d : DType) (device : Device)
    (buffer : option DeviceBuffer) : result Tensor :=
  match buffer with
  | Some b =>
      match bu_backend b with
      | Some backend =>
          (throw_if (bu_data b =? 0) (Exn InvalidArgument "tensor device buffer is empty") ;;?
           validateStorageMetadata d device (bu_data b) ;;?
           throw_if (negb (device_matches device backend))
             (Exn InvalidArgument "tensor device metadata does not match its buffer") ;;?
           fromStorage s d device (bu_data b) (bu_size b) (Some (bu_owner b)))%res
      | None => Throw (Exn InvalidArgument "tensor device buffer is empty")
      end
  | None => Throw (Exn InvalidArgument "tensor device buffer is empty")
  end.

Definition tensor_valid (t : Tensor) : bool :=
  negb (te_data t =? 0) && bool_decide (is_Some (te_owner t)) && negb (te_bytes t =? 0).

(** [Tensor::reshape] *)
Definition tensor_reshape (t : Tensor) (s : Shape) : result Tensor :=
  (throw_if (negb (tensor_valid t)) (Exn LogicError "cannot reshape an empty tensor") ;;?
   throw_if (negb (shape_isContiguous (te_shape t)) || negb (shape_isContiguous s))
     (Exn InvalidArgument "reshape currently requires contiguous tensors") ;;?
   throw_if (negb (elementCount s =? elementCount (te_shape t)))
     (Exn InvalidArgument "reshape must preserve the element count") ;;?
   fromStorage s (te_dtype t) (te_device t) (te_data t) (te_storageBytes t) (te_owner t))%res.

(** ** Views *)

Record TensorView : Type := mkView {
  shape_ : Shape;
  dtype_ : DType;
  device_ : Device;
  data_ : Z;
  mutableData_ : Z;
  bytes_ : Z;
  storageBytes_ : Z;
  lifetime_ : option Z;
}.

(** [TensorView() = default] *)
Definition emptyView : TensorView := mkView scalarShape FP32 cpu 0 0 0 0 None.

(** [TensorView(Tensor&)] and [TensorView(const Tensor&)] *)
Definition viewOf (writable : bool) (t : Tensor) : TensorView :=
  mkView (te_shape t) (te_dtype t) (te_device t) (te_data t) (if writable then te_data t else 0)
    (te_bytes t) (te_storageBytes t) (te_owner t).

Section views.
(** The owners that are alive. *)
Variable alive : gset Z.

(** [lifetime_.expired()] *)
Definition expired (owner : option Z) : bool :=
  match owner with Some o => negb (bool_decide (o ∈ alive)) | None => true end.

Definition view_validateDevice (device : Device) : result unit :=
  (throw_if (ordinal device <? 0) (Exn InvalidArgument "tensor view device metadata is invalid") ;;?
   throw_if (bool_decide (type device = CPU) && negb (ordinal device =? 0))
     (Exn InvalidArgument "CPU tensor views must use device ordinal zero"))%res.

(** The private constructor. *)
Definition makeView (s : Shape) (d : DType) (device : Device) (data mutableData storageBytes : Z)
    (lifetime : option Z) : result TensorView :=
  (bytes <-? logicalBytes "tensor view byte size overflow" s d ;;
   view_validateDevice device ;;?
   throw_if ((data =? 0) || expired lifetime)
     (Exn InvalidArgument "tensor view storage must be alive") ;;?
   throw_if ((alignmentOf d =? 0) || negb (data mod alignmentOf d =? 0))
     (Exn InvalidArgument "tensor view storage is not aligned for its dtype") ;;?
   required <-? requiredBytes "tensor view storage size overflow" s d ;;
   throw_if (storageBytes <? required)
     (Exn InvalidArgument "tensor view storage is smaller than its metadata requires") ;;?
   Ok (mkView s d device data mutableData bytes storageBytes lifetime))%res.

Definition view_fromDeviceBuffer (s : Shape) (d : DType) (device : Device)
    (buffer : option DeviceBuffer) (writable : bool) : result TensorView :=
  match buffer with
  | Some b =>
      (throw_if (bu_data b =? 0) (Exn InvalidArgument "tensor view buffer is empty") ;;?
       view_validateDevice device ;;?
       match bu_backend b with
       | Some backend =>
           throw_if (negb (device_matches device backend))
             (Exn InvalidArgument "tensor view device metadata does not match its buffer") ;;?
           makeView s d device (bu_data b) (if writable then bu_data b else 0) (bu_size b)
             (Some (bu_owner b))
       | None => Throw (Exn InvalidArgument "tensor view buffer has no backend")
       end)%res
  | None => Throw (Exn InvalidArgument "tensor view buffer is empty")
  end.

(** The host buffer is a [std::vector<std::byte>]: its address and its size. *)
Definition view_fromHostBuffer (s : Shape) (d : DType) (buffer : option DeviceBuffer)
    (writable : bool) : result TensorView :=
  match buffer with
  | Some b =>
      (throw_if (bu_size b =? 0) (Exn InvalidArgument "tensor view host buffer is empty") ;;?
       makeView s d cpu (bu_data b) (if writable then bu_data b else 0) (bu_size b)
         (Some (bu_owner b)))%res
  | None => Throw (Exn InvalidArgument "tensor view host buffer is empty")
  end.

(** [data()], [mutableData()], [writable()], [valid()] *)
Definition view_data (v : TensorView) : Z := if expired (lifetime_ v) then 0 else data_ v.
Definition view_mutableData (v : TensorView) : Z := if expired (lifetime_ v) then 0 else mutableData_ v.
Definition view_writable (v : TensorView) : bool := negb (mutableData_ v =? 0) && negb (expired (lifetime_ v)).
Definition view_valid (v : TensorView) : bool :=
  negb (data_ v =? 0) && negb (bytes_ v =? 0) && negb (expired (lifetime_ v)).
Definition view_isContiguous (v : TensorView) : bool := shape_isContiguous (shape_ v).

Definition view_reshape (v : TensorView) (s : Shape) : result TensorView :=
  (throw_if (negb (view_valid v)) (Exn LogicError "cannot reshape an invalid tensor view") ;;?
   throw_if (negb (view_isContiguous v) || negb (shape_isContiguous s))
     (Exn InvalidArgument "reshape currently requires contiguous tensor views") ;;?
   throw_if (negb (elementCount s =? elementCount (shape_ v)))
     (Exn InvalidArgument "reshape must preserve the element count") ;;?
   makeView s (dtype_ v) (device_ v) (data_ v) (mutableData_ v) (storageBytes_ v) (lifetime_ v))%res.

Definition sliceBytes (v : TensorView) (offsetBytes : Z) (s : Shape) (d : DType) : result TensorView :=
  (throw_if (negb (view_valid v)) (Exn LogicError "cannot slice an invalid tensor view") ;;?
   throw_if (negb (offsetBytes mod dtype_sizeOf d =? 0))
     (Exn InvalidArgument "tensor view slice offset is not element-aligned") ;;?
   throw_if (storageBytes_ v <? offsetBytes)
     (Exn OutOfRange "tensor view slice offset exceeds storage") ;;?
   sliceStorageBytes <-? requiredBytes "tensor view storage size overflow" s d ;;
   throw_if (storageBytes_ v - offsetBytes <? sliceStorageBytes)
     (Exn OutOfRange "tensor view slice exceeds storage") ;;?
   makeView s d (device_ v) (data_ v + offsetBytes)
     (if mutableData_ v =? 0 then 0 else mutableData_ v + offsetBytes)
     sliceStorageBytes (lifetime_ v))%res.
End views.

(** ** Views stay inside the storage of their owner *)

(** The views a client can make of one buffer: the view of a tensor on it, a view of
    it, and whatever slices and reshapes give; owners may die in between. *)
Inductive view_on (b : DeviceBuffer) : TensorView -> Prop :=
  | on_tensor w s d device t :
      shape_wf s -> tensor_fromDeviceBuffer s d device (Some b) = Ok t -> view_on b (viewOf w t)
  | on_reshaped w s d device t s' t' :
      shape_wf s -> tensor_fromDeviceBuffer s d device (Some b) = Ok t ->
      shape_wf s' -> tensor_reshape t s' = Ok t' -> view_on b (viewOf w t')
  | on_device alive s d device w v :
      shape_wf s -> view_fromDeviceBuffer alive s d device (Some b) w = Ok v -> view_on b v
  | on_host alive s d w v :
      shape_wf s -> view_fromHostBuffer alive s d (Some b) w = Ok v -> view_on b v
  | on_reshape alive v s v' :
      view_on b v -> shape_wf s -> view_reshape alive v s = Ok v' -> view_on b v'
  | on_slice alive v offset s d v' :
      view_on b v -> 0 <= offset -> shape_wf s -> sliceBytes alive v offset s d = Ok v' -> view_on b v'.

(** The address of an element. *)
Definition element_address (v : TensorView) (index : list Z) : Z :=
  data_ v + offset_of index (strides (shape_ v)) * dtype_sizeOf (dtype_ v).

Record view_wf (b : DeviceBuffer) (v : TensorView) : Prop := ViewWf {
  vw_shape : shape_wf (shape_ v);
  vw_owner : lifetime_ v = Some (bu_owner b);
  vw_aligned : data_ v mod dtype_sizeOf (dtype_ v) = 0;
  vw_base : bu_data b <= data_ v;
  vw_end : data_ v + storageBytes_ v <= bu_data b + bu_size b;
  vw_room : storageElementCount (shape_ v) * dtype_sizeOf (dtype_ v) <= storageBytes_ v;
  vw_mutable : mutableData_ v = 0 \/ mutableData_ v = data_ v;
  vw_bytes : bytes_ v = elementCount (shape_ v) * dtype_sizeOf (dtype_ v);
}.

Lemma dtype_sizeOf_pos d : 1 <= dtype_sizeOf d <= 4.
Proof. destruct d; cbn; lia. Qed.

Lemma alignmentOf_size d : alignmentOf d = dtype_sizeOf d.
Proof. by destruct d. Qed.

Lemma throw_if_ok c e u : throw_if c e = Ok u -> c = false.
Proof. by destruct c. Qed.

Lemma bytes_exact n d : 0 <= n -> (u64_max / dtype_sizeOf d <? n) = false -> wrap64 (n * dtype_sizeOf d) = n * dtype_sizeOf d.
Proof.
  intros Hn H%Z.ltb_ge. pose proof (dtype_sizeOf_pos d). pose proof (Z.mul_div_le u64_max (dtype_sizeOf d)).
  apply wrap64_small. unfold is_u64. nia.
Qed.

Lemma requiredBytes_spec m s d r :
  shape_wf s -> requiredBytes m s d = Ok r -> r = storageElementCount s * dtype_sizeOf d.
Proof.
  intros [] H. unfold requiredBytes in H. destruct (u64_max / dtype_sizeOf d <? _) eqn:Hc; [done|].
  cbn in H. injection H as <-. apply bytes_exact; [lia|done].
Qed.

Lemma logicalBytes_spec m s d r :
  shape_wf s -> logicalBytes m s d = Ok r -> r = elementCount s * dtype_sizeOf d.
Proof.
  intros [] H. unfold logicalBytes in H. destruct (u64_max / dtype_sizeOf d <? _) eqn:Hc; [done|].
  cbn in H. injection H as <-. apply bytes_exact; [|done]. destruct sw_count0 as [-> _].
  pose proof (product_pos _ sw_dims0). lia.
Qed.

(** Peel a computation that returned: each guard was false, each call returned. *)
Ltac returned H :=
  repeat match type of H with
  | res_bind (throw_if ?c ?e) _ = Ok _ =>
      let G := fresh "G" in destruct c eqn:G; [discriminate H|]; cbn [throw_if res_bind] in H
  | res_bind ?m _ = Ok _ =>
      let R := fresh "R" in destruct m eqn:R; [|discriminate H|discriminate H]; cbn [res_bind] in H
  end.

Lemma fromStorage_spec s d device data size owner t :
  shape_wf s -> fromStorage s d device data size owner = Ok t ->
  t = mkTensor s d device data (elementCount s * dtype_sizeOf d) size owner /\
  is_Some owner /\ data <> 0 /\ data mod dtype_sizeOf d = 0 /\ storageElementCount s * dtype_sizeOf d <= size.
Proof.
  intros Hs H. unfold fromStorage in H. returned H. injection H as <-.
  apply logicalBytes_spec in R as ->; [|done]. apply requiredBytes_spec in R1 as ->; [|done].
  apply orb_false_iff in G as [G G']. apply bool_decide_eq_false in G'. apply Z.eqb_neq in G. apply Z.ltb_ge in G0.
  unfold validateStorageMetadata in R0. returned R0. apply throw_if_ok in R0.
  rewrite (proj2 (Z.eqb_neq _ _) G), alignmentOf_size in R0. cbn in R0. apply negb_false_iff, Z.eqb_eq in R0.
  split_and!; [done| |done..]. by apply not_eq_None_Some.
Qed.

Lemma makeView_spec alive s d device data m size owner v :
  shape_wf s -> makeView alive s d device data m size owner = Ok v ->
  v = mkView s d device data m (elementCount s * dtype_sizeOf d) size owner /\
  expired alive owner = false /\ data mod dtype_sizeOf d = 0 /\ storageElementCount s * dtype_sizeOf d <= size.
Proof.
  intros Hs H. unfold makeView in H. returned H. injection H as <-.
  apply logicalBytes_spec in R as ->; [|done]. apply requiredBytes_spec in R1 as ->; [|done].
  apply orb_false_iff in G as [_ G]. apply orb_false_iff in G0 as [_ G0]. apply Z.ltb_ge in G1.
  rewrite alignmentOf_size in G0. apply negb_false_iff, Z.eqb_eq in G0. done.
Qed.

Lemma tensor_fromDeviceBuffer_spec s d device b t :
  shape_wf s -> tensor_fromDeviceBuffer s d device (Some b) = Ok t ->
  t = mkTensor s d device (bu_data b) (elementCount s * dtype_sizeOf d) (bu_size b) (Some (bu_owner b)) /\
  bu_data b mod dtype_sizeOf d = 0 /\ storageElementCount s * dtype_sizeOf d <= bu_size b.
Proof.
  intros Hs H. cbn in H. destruct (bu_backend b); [|done]. returned H.
  apply fromStorage_spec in H as (-> & _ & _ & ? & ?); [|done]. done.
Qed.

Lemma view_on_wf b v : view_on b v -> view_wf b v.
Proof.
  induction 1 as [w s d device t Hs H|w s d device t s' t' Hs H Hs' H'|alive s d device w v Hs H
                 |alive s d w v Hs H|alive v s v' _ IH Hs H|alive v offset s d v' _ IH Ho Hs H].
  - apply tensor_fromDeviceBuffer_spec in H as (-> & Ha & Hr); [|done].
    constructor; cbn; try done; try lia. by destruct w; [right|left].
  - apply tensor_fromDeviceBuffer_spec in H as (-> & Ha & Hr); [|done].
    unfold tensor_reshape in H'. returned H'. apply fromStorage_spec in H' as (-> & _ & _ & Ha' & Hr'); [|done].
    constructor; cbn in *; try done; try lia. by destruct w; [right|left].
  - cbn in H. returned H. destruct (bu_backend b); [|done]. returned H.
    apply makeView_spec in H as (-> & _ & Ha & Hr); [|done].
    constructor; cbn; try done; try lia. by destruct w; [right|left].
  - cbn in H. returned H. apply makeView_spec in H as (-> & _ & Ha & Hr); [|done].
    constructor; cbn; try done; try lia. by destruct w; [right|left].
  - unfold view_reshape in H. returned H. apply makeView_spec in H as (-> & _ & Ha & Hr); [|done].
    destruct IH. by constructor.
  - unfold sliceBytes in H. returned H. apply makeView_spec in H as (-> & _ & Ha & Hr); [|done].
    apply requiredBytes_spec in R as ->; [|done]. apply Z.ltb_ge in G1, G2. destruct IH.
    constructor; cbn; try done; try lia.
    destruct (Z.eqb_spec (mutableData_ v) 0) as [|Hm]; [by left|right]. destruct vw_mutable0; lia.
Qed.

Lemma view_bytes_in_storage b v :
  view_wf b v -> view_isContiguous v = true -> bytes_ v <= storageBytes_ v.
Proof.
  intros [] Hc. apply contiguous_count in Hc; [|done]. rewrite vw_bytes0. pose proof (dtype_sizeOf_pos (dtype_ v)). nia.
Qed.

(** C32: Every element of every view made of a buffer - through tensors, views,
    slices and reshapes, in any order and whatever owners died in between - lies inside
    the buffer and is aligned for its type; a contiguous view's [bytes()] from its
    base do too, so the copies that use them stay in bounds. *)
Theorem view_elements_in_buffer b v index
    (Hv : view_on b v) (Hi : in_shape (shape_ v) index) :
  bu_data b <= element_address v index /\
  element_address v index + dtype_sizeOf (dtype_ v) <= bu_data b + bu_size b /\
  element_address v index mod alignmentOf (dtype_ v) = 0 /\
  (view_isContiguous v = true -> data_ v + bytes_ v <= bu_data b + bu_size b).
Proof.
  apply view_on_wf in Hv as Hwf. pose proof (view_bytes_in_storage b v Hwf) as Hb.
  destruct Hwf. destruct vw_shape0. specialize (sw_span0 index Hi).
  pose proof (dtype_sizeOf_pos (dtype_ v)). unfold element_address. split_and!; [nia|nia| |].
  - change (alignmentOf (dtype_ v)) with (dtype_sizeOf (dtype_ v)). by rewrite Z.mod_add by lia.
  - intros Hc. specialize (Hb Hc). lia.
Qed.

(** Building a shape: the contiguous constructor accepts exactly the nonzero
    dimensions whose product fits a [std::size_t] and gives them row-major strides;
    the strided one rejects every layout whose span overflows; and the indices of
    what they return address elements below [storageElementCount]. *)
Theorem shape_constructors dims ss (Hd : Forall is_u64 dims) (Hs : Forall is_u64 ss) :
  ((exists s, contiguousShape dims = Ok s) <->
     Forall (fun d => 1 <= d) dims /\ product dims <= u64_max) /\
  (forall s, contiguousShape dims = Ok s ->
     shape_wf s /\ dimensions s = dims /\ elementCount s = product dims /\
     storageElementCount s = product dims /\ shape_isContiguous s = true) /\
  (forall s, stridedShape dims ss = Ok s ->
     shape_wf s /\ dimensions s = dims /\ strides s = ss /\
     storageElementCount s = 1 + span (zip dims ss)) /\
  contiguousShape dims <> Diverge /\ stridedShape dims ss <> Diverge.
Proof.
  pose proof (contiguousShape_spec dims Hd) as H1. pose proof (stridedShape_spec dims ss Hd Hs) as H2.
  split_and!.
  - destruct (contiguousShape dims) as [s|e|] eqn:Hc; [|split; [by intros []|intros [? ?]; exfalso; specialize (H1 ltac:(done)); lia]|done].
    destruct H1 as (Hwf & <- & _ & Hst & <-). split; [intros _|by eexists].
    split; [apply Hwf|]. apply Hwf.
  - intros s Hc. rewrite Hc in H1. destruct H1 as (Hwf & <- & Hstr & Hst & Hcnt). split_and!; try done; [congruence|].
    by apply isContiguous_spec.
  - intros s Hc. rewrite Hc in H2. done.
  - intros Hc. by rewrite Hc in H1.
  - intros Hc. by rewrite Hc in H2.
Qed.

(** Witnesses. *)
Definition sample_buffer : DeviceBuffer := mkBuffer 7 4096 96 (Some (CPU, 0)).
Definition sample_shape : Shape := mkShape [2; 3; 4] [12; 4; 1] 24 24.
Definition sample_row : Shape := mkShape [3; 4] [4; 1] 12 12.
Definition sample_tensor : Tensor := mkTensor sample_shape FP32 cpu 4096 96 96 (Some 7).
Definition sample_slice : TensorView := mkView sample_row FP32 cpu 4144 4144 48 48 (Some 7).

Lemma contiguousShape_wf dims s : Forall is_u64 dims -> contiguousShape dims = Ok s -> shape_wf s.
Proof. intros Hd Hc. pose proof (contiguousShape_spec dims Hd) as H. rewrite Hc in H. apply H. Qed.

Lemma small_u64 l : forallb (fun d => (0 <=? d) && (d <? 1000)) l = true -> Forall is_u64 l.
Proof.
  rewrite forallb_forall. intros H. apply Forall_forall. intros d Hd%list_elem_of_In%H.
  rewrite andb_true_iff, Z.leb_le, Z.ltb_lt in Hd. unfold is_u64, u64_max. lia.
Qed.

Lemma sample_shape_wf : shape_wf sample_shape /\ shape_wf sample_row.
Proof.
  split.
  - apply (contiguousShape_wf [2; 3; 4]); [apply small_u64|]; vm_compute; reflexivity.
  - apply (contiguousShape_wf [3; 4]); [apply small_u64|]; vm_compute; reflexivity.
Qed.

Lemma sample_tensor_built :
  tensor_fromDeviceBuffer sample_shape FP32 cpu (Some sample_buffer) = Ok sample_tensor.
Proof. vm_compute. reflexivity. Qed.

Lemma sample_slice_built : sliceBytes {[7]} (viewOf true sample_tensor) 48 sample_row FP32 = Ok sample_slice.
Proof. vm_compute. reflexivity. Qed.

Lemma sample_strided_built :
  contiguousShape [2; 3] = Ok (mkShape [2; 3] [3; 1] 6 6) /\
  stridedShape [2; 3] [3; 1] = Ok (mkShape [2; 3] [3; 1] 6 6).
Proof. vm_compute. by split. Qed.

Lemma sample_slice_on : view_on sample_buffer sample_slice.
Proof.
  apply (on_slice _ {[7]} (viewOf true sample_tensor) 48 sample_row FP32).
  - apply (on_tensor _ true sample_shape FP32 cpu sample_tensor); [apply sample_shape_wf|apply sample_tensor_built].
  - lia.
  - apply sample_shape_wf.
  - apply sample_slice_built.
Qed.

Lemma view_elements_in_buffer_witness :
  view_on sample_buffer sample_slice /\ in_shape (shape_ sample_slice) [2; 1] /\
  element_address sample_slice [2; 1] = 4180 /\
  4096 <= element_address sample_slice [2; 1].
Proof.
  assert (in_shape (shape_ sample_slice) [2; 1]) as Hi by (repeat constructor; done).
  split; [exact sample_slice_on|]. split; [exact Hi|]. split; [reflexivity|].
  exact (proj1 (view_elements_in_buffer sample_buffer sample_slice [2; 1] sample_slice_on Hi)).
Defined.

Lemma shape_constructors_witness :
  Forall is_u64 [2; 3] /\ Forall is_u64 [3; 1] /\
  (exists s, contiguousShape [2; 3] = Ok s) /\ stridedShape [2; 3] [3; 1] = Ok (mkShape [2; 3] [3; 1] 6 6).
Proof.
  assert (Forall is_u64 [2; 3]) as H1 by (by apply small_u64).
  assert (Forall is_u64 [3; 1]) as H2 by (by apply small_u64).
  split; [exact H1|]. split; [exact H2|]. split; [|apply sample_strided_built].
  apply (proj1 (shape_constructors [2; 3] [3; 1] H1 H2)). split; [repeat constructor; lia|done].
Defined.
