(* ===== verification/KVCache.v ===== *)
(** * The key/value caches of a session

    [src/runtime/cache/KVCache.cpp] (host) and [CudaKVCache.cpp] (device).  A float
    is its 32-bit word.  The device cache keeps its rows in tensors that grow by
    doubling; it refines the host cache, which keeps them in vectors. *)

From S2P Require Import Prelude Tiers Tensor.

(** ** Sizes *)

Definition checkedCacheBytes (layers sequence heads dimension : Z) : result Z :=
  (throw_if ((layers =? 0) || (sequence =? 0) || (heads =? 0) || (dimension =? 0) ||
             (u64_max / dimension <? heads))
     (Exn InvalidArgument "KV cache dimensions must be nonzero") ;;?
   let values := wrap64 (heads * dimension) in
   throw_if (u64_max / 8 <? values)
     (Exn OverflowError "KV cache per-token storage overflows") ;;?
   let perToken := wrap64 (8 + wrap64 (2 * values * 4)) in
   throw_if (perToken =? 0) (Exn UndefinedBehaviour "division by zero") ;;?
   throw_if ((u64_max / perToken <? sequence) ||
             (u64_max / wrap64 (sequence * perToken) <? layers))
     (Exn OverflowError "KV cache maximum storage overflows") ;;?
   Ok (wrap64 (wrap64 (layers * sequence) * perToken)))%res.

(** ** The host cache *)

Record LayerStorage : Type := mkLayer { positions : list Z; keys : list Z; values : list Z }.
Definition emptyLayer : LayerStorage := mkLayer [] [] [].

Record KVCache : Type := mkKVCache {
  maximumSequenceLength_ : Z;
  keyValueHeads_ : Z;
  headDimension_ : Z;
  layers_ : list LayerStorage;
}.

Record KVCacheSnapshot : Type := mkSnapshot {
  sn_positions : list Z;
  sn_keys : list Z;
  sn_values : list Z;
  sn_keyValueHeads : Z;
  sn_headDimension : Z;
}.

Definition newKVCache (layerCount maximumSequenceLength keyValueHeads headDimension : Z) : result KVCache :=
  (checkedCacheBytes layerCount maximumSequenceLength keyValueHeads headDimension ;;?
   Ok (mkKVCache maximumSequenceLength keyValueHeads headDimension
         (replicate (Z.to_nat layerCount) emptyLayer)))%res.

Definition set_layers (f : list LayerStorage -> list LayerStorage) (c : KVCache) : KVCache :=
  mkKVCache (maximumSequenceLength_ c) (keyValueHeads_ c) (headDimension_ c) (f (layers_ c)).

(** What a [memcpy] of [bytes()] bytes from [data()] reads, in words. *)
Definition contents (mem : Z -> Z) (v : TensorView) : list Z :=
  (fun i => mem (data_ v + 4 * Z.of_nat i)) <$> seq 0 (Z.to_nat (bytes_ v / 4)).

(** The dimension of a shape at an index. *)
Definition dim (v : TensorView) (i : nat) : Z := nth i (dimensions (shape_ v)) 0.

(** [firstPosition + token], for each appended token. *)
Definition positions_from (first count : Z) : list Z :=
  (fun token => wrap64 (first + Z.of_nat token)) <$> seq 0 (Z.to_nat count).

Section caches.
Variable alive : gset Z.
Variable mem : Z -> Z.

(** What both caches ask of the metadata of the two views. *)
Definition views_match (ks vs : TensorView) : bool :=
  view_valid alive ks && view_valid alive vs &&
  bool_decide (dtype_ ks = FP32) && bool_decide (dtype_ vs = FP32) &&
  view_isContiguous ks && view_isContiguous vs &&
  bool_decide (shape_ ks = shape_ vs) && (rank (shape_ ks) =? 3)%nat.

Definition kv_append (layer firstPosition : Z) (ks vs : TensorView) : ST KVCache unit :=
  (c <- st_get ;;
   lift (throw_if (expired alive (lifetime_ ks) || expired alive (lifetime_ vs) ||
                   (Z.of_nat (length (layers_ c)) <=? layer) ||
                   negb (bool_decide (device_ ks = cpu)) || negb (bool_decide (device_ vs = cpu)) ||
                   negb (views_match ks vs))
     (Exn InvalidArgument "KV cache append requires matching CPU FP32 tensors")) ;;;
   lift (throw_if ((dim ks 0 =? 0) || negb (dim ks 1 =? keyValueHeads_ c) ||
                   negb (dim ks 2 =? headDimension_ c))
     (Exn InvalidArgument "KV cache tensor shape is incompatible")) ;;;
   match layers_ c !! Z.to_nat layer with
   | None => throw (Exn OutOfRange "vector index")
   | Some storage =>
       let tokens := Z.of_nat (length (positions storage)) in
       lift (throw_if (negb (firstPosition =? tokens) ||
                       (wrap64 (maximumSequenceLength_ c - tokens) <? dim ks 0))
         (Exn InvalidArgument "KV cache append must be contiguous and within sequence capacity")) ;;;
       lift (throw_if (u64_max - elementCount (shape_ ks) <? Z.of_nat (length (keys storage)))
         (Exn OverflowError "KV cache element count overflows")) ;;;
       modify (set_layers (insert (Z.to_nat layer)
         (mkLayer (positions storage ++ positions_from firstPosition (dim ks 0))
                  (keys storage ++ contents mem ks) (values storage ++ contents mem vs))))
   end)%st.

Definition kv_layer (message : string) (layer : Z) (c : KVCache) : result LayerStorage :=
  match layers_ c !! Z.to_nat layer with
  | Some storage => Ok storage
  | None => Throw (Exn OutOfRange message)
  end.

Definition kv_snapshot (layer : Z) (c : KVCache) : result KVCacheSnapshot :=
  (storage <-? kv_layer "KV cache layer is invalid" layer c ;;
   Ok (mkSnapshot (positions storage) (keys storage) (values storage)
         (keyValueHeads_ c) (headDimension_ c)))%res.

Definition kv_tokenCount (layer : Z) (c : KVCache) : result Z :=
  (storage <-? kv_layer "KV cache layer is invalid" layer c ;;
   Ok (Z.of_nat (length (positions storage))))%res.

Definition layer_bytes (l : LayerStorage) : Z :=
  Z.of_nat (length (positions l)) * 8 + Z.of_nat (length (keys l) + length (values l)) * 4.
Definition kv_memoryUsageBytes (c : KVCache) : Z :=
  foldl (fun result l => wrap64 (result + layer_bytes l)) 0 (layers_ c).

Definition kv_maximumMemoryUsageBytes (c : KVCache) : result Z :=
  checkedCacheBytes (Z.of_nat (length (layers_ c))) (maximumSequenceLength_ c)
    (keyValueHeads_ c) (headDimension_ c).

Definition kv_clear (layer : Z) : ST KVCache unit :=
  (c <- st_get ;;
   lift (kv_layer "KV cache layer is invalid" layer c) ;;;
   modify (set_layers (insert (Z.to_nat layer) emptyLayer)))%st.

Definition kv_reset : ST KVCache unit :=
  modify (set_layers (fmap (fun _ => emptyLayer))).
End caches.

(** ** The invariant of the host cache *)

(** Elements of one token. *)
Definition row (c : KVCache) : Z := keyValueHeads_ c * headDimension_ c.

Record layer_wf (c : KVCache) (l : LayerStorage) : Prop := LayerWf {
  lw_positions : positions l = Z.of_nat <$> seq 0 (length (positions l));
  lw_tokens : Z.of_nat (length (positions l)) <= maximumSequenceLength_ c;
  lw_keys : Z.of_nat (length (keys l)) = Z.of_nat (length (positions l)) * row c;
  lw_values : Z.of_nat (length (values l)) = Z.of_nat (length (positions l)) * row c;
}.

(** The bytes a full session takes. *)
Definition session_bytes (layers sequence heads dimension : Z) : Z :=
  layers * sequence * (8 + 8 * (heads * dimension)).

Record cache_wf (c : KVCache) : Prop := CacheWf {
  cw_dims : 1 <= maximumSequenceLength_ c /\ 1 <= keyValueHeads_ c /\ 1 <= headDimension_ c;
  cw_bytes : session_bytes (Z.of_nat (length (layers_ c))) (maximumSequenceLength_ c)
               (keyValueHeads_ c) (headDimension_ c) <= u64_max;
  cw_layers : Forall (layer_wf c) (layers_ c);
  cw_some : layers_ c <> [];
}.

Lemma checkedCacheBytes_spec layers sequence heads dimension :
  is_u64 layers -> is_u64 sequence -> is_u64 heads -> is_u64 dimension ->
  match checkedCacheBytes layers sequence heads dimension with
  | Ok n => 1 <= layers /\ 1 <= sequence /\ 1 <= heads /\ 1 <= dimension /\
            n = session_bytes layers sequence heads dimension /\ n <= u64_max
  | Throw e => ~ (1 <= layers /\ 1 <= sequence /\ 1 <= heads /\ 1 <= dimension /\
                  session_bytes layers sequence heads dimension <= u64_max)
  | Diverge => False
  end.
Proof.
  unfold is_u64, session_bytes. intros Hl Hs Hh Hd. unfold checkedCacheBytes.
  destruct (Z.eqb_spec layers 0); [cbn; lia|]. destruct (Z.eqb_spec sequence 0); [cbn; lia|].
  destruct (Z.eqb_spec heads 0); [cbn; lia|]. destruct (Z.eqb_spec dimension 0); [cbn; lia|].
  cbn [orb]. rewrite mul_overflows by lia. set (row := heads * dimension).
  assert (1 <= row) by (subst row; nia).
  assert (8 + 8 * row <= layers * sequence * (8 + 8 * row)) as Hbig.
  { assert (1 <= layers * sequence) by nia. nia. }
  destruct (Z.ltb_spec u64_max row); cbn [throw_if res_bind]; [lia|].
  rewrite (wrap64_small row) by (unfold is_u64; lia).
  assert (u64_max / 8 * 8 + 7 = u64_max) as Hdiv by (vm_compute; reflexivity).
  destruct (Z.ltb_spec (u64_max / 8) row); cbn [throw_if res_bind]; [lia|].
  rewrite (wrap64_small (2 * row * 4)) by (unfold is_u64; lia).
  destruct (decide (8 + 2 * row * 4 <= u64_max)) as [Hp|Hp].
  - rewrite (wrap64_small (8 + 2 * row * 4)) by (unfold is_u64; lia).
    set (per := 8 + 2 * row * 4) in *. destruct (Z.eqb_spec per 0); [lia|]. cbn [throw_if res_bind].
    rewrite mul_overflows by lia.
    destruct (Z.ltb_spec u64_max (sequence * per)); cbn [orb throw_if res_bind].
    { intros (_ & _ & _ & _ & Hmax). subst per. nia. }
    rewrite (wrap64_small (sequence * per)) by (unfold is_u64; nia). rewrite mul_overflows by nia.
    destruct (Z.ltb_spec u64_max (layers * (sequence * per))); cbn [throw_if res_bind].
    { intros (_ & _ & _ & _ & Hmax). subst per. nia. }
    rewrite (wrap64_small (layers * sequence)) by (unfold is_u64; nia).
    rewrite wrap64_small by (unfold is_u64; nia). subst per. split_and!; try lia.
  - assert (8 + 2 * row * 4 = 18446744073709551616) as -> by (unfold u64_max in *; lia).
    assert (wrap64 18446744073709551616 = 0) as -> by reflexivity. cbn. nia.
Qed.

(** The guard on [2 * values * sizeof(float)] leaves no room for the position: one
    size passes it for which [perToken] wraps to zero and is divided by. *)
Theorem checked_bytes_divides_by_zero :
  checkedCacheBytes 1 1 1 2305843009213693951 = Throw (Exn UndefinedBehaviour "division by zero").
Proof. vm_compute. reflexivity. Qed.

Lemma positions_from_seq n k :
  0 <= k -> Z.of_nat n + k <= u64_max ->
  positions_from (Z.of_nat n) k = Z.of_nat <$> seq n (Z.to_nat k).
Proof.
  intros Hk Hmax. unfold positions_from.
  replace (seq n (Z.to_nat k)) with (Nat.add n <$> seq 0 (Z.to_nat k)) by (rewrite fmap_add_seq; f_equal; lia).
  rewrite <- list_fmap_compose.
  apply list_fmap_ext. intros i x Hi. apply list_elem_of_lookup_2, elem_of_seq in Hi. cbn.
  rewrite wrap64_small by (unfold is_u64; lia). lia.
Qed.

Lemma positions_from_length first k : length (positions_from first k) = Z.to_nat k.
Proof. unfold positions_from. by rewrite length_fmap, length_seq. Qed.

(** The shape of what is appended. *)
Definition rows_of (c : KVCache) (ks vs : TensorView) (k : Z) : Prop :=
  dimensions (shape_ ks) = [k; keyValueHeads_ c; headDimension_ c] /\ shape_ vs = shape_ ks /\
  (exists b, view_wf b ks) /\ (exists b, view_wf b vs) /\ dtype_ ks = FP32 /\ dtype_ vs = FP32.

Lemma contents_length mem c ks vs k :
  rows_of c ks vs k ->
  1 <= k /\ elementCount (shape_ ks) = k * row c /\
  Z.of_nat (length (contents mem ks)) = k * row c /\ Z.of_nat (length (contents mem vs)) = k * row c.
Proof.
  intros (Hd & Hs & [b Hk] & [b' Hv] & H1 & H2). unfold contents, row. rewrite !length_fmap, !length_seq.
  rewrite (vw_bytes _ _ Hk), (vw_bytes _ _ Hv), Hs, H1, H2. cbn [dtype_sizeOf].
  destruct (vw_shape _ _ Hk) as [_ Hdims _ [Hc _] _ _]. pose proof (product_pos _ Hdims) as Hp.
  rewrite Hd in Hdims, Hp, Hc. rewrite Hc. unfold product in *. cbn [foldr] in *. rewrite !Z.div_mul by done.
  apply Forall_cons in Hdims as [? _]. split_and!; lia.
Qed.

(** When a call is accepted. *)
Definition accepts (alive : gset Z) (c : KVCache) (layer first : Z) (ks vs : TensorView) : Prop :=
  expired alive (lifetime_ ks) = false /\ expired alive (lifetime_ vs) = false /\
  device_ ks = cpu /\ device_ vs = cpu /\ views_match alive ks vs = true /\
  dim ks 1 = keyValueHeads_ c /\ dim ks 2 = headDimension_ c /\
  exists l, layers_ c !! Z.to_nat layer = Some l /\
    first = Z.of_nat (length (positions l)) /\ first + dim ks 0 <= maximumSequenceLength_ c.

Definition appended (mem : Z -> Z) (l : LayerStorage) (ks vs : TensorView) : LayerStorage :=
  mkLayer (Z.of_nat <$> seq 0 (length (positions l) + Z.to_nat (dim ks 0)))
          (keys l ++ contents mem ks) (values l ++ contents mem vs).

Lemma views_match_spec alive ks vs :
  views_match alive ks vs = true ->
  dtype_ ks = FP32 /\ dtype_ vs = FP32 /\ shape_ vs = shape_ ks /\ rank (shape_ ks) = 3%nat /\
  view_valid alive ks = true /\ view_valid alive vs = true.
Proof.
  unfold views_match. rewrite !andb_true_iff, !bool_decide_eq_true, Nat.eqb_eq. naive_solver.
Qed.

Lemma dim_list s : length (dimensions s) = 3%nat ->
  dimensions s = [nth 0 (dimensions s) 0; nth 1 (dimensions s) 0; nth 2 (dimensions s) 0].
Proof. by destruct (dimensions s) as [|a [|b [|d [|]]]]. Qed.

Lemma accepts_rows alive c layer first ks vs b b' :
  accepts alive c layer first ks vs -> view_wf b ks -> view_wf b' vs -> rows_of c ks vs (dim ks 0).
Proof.
  intros (_ & _ & _ & _ & Hm & H1 & H2 & _) Hk Hv. apply views_match_spec in Hm as (Hd1 & Hd2 & Hs & Hr & _).
  split_and!; try done; [|by eexists|by eexists].
  unfold dim in *. rewrite (dim_list _ Hr) at 1. by rewrite H1, H2.
Qed.

Lemma session_bytes_layers n sequence heads dimension :
  1 <= n -> 1 <= sequence -> 1 <= heads -> 1 <= dimension ->
  sequence <= session_bytes n sequence heads dimension /\
  sequence * (heads * dimension) <= session_bytes n sequence heads dimension.
Proof. unfold session_bytes. intros. assert (1 <= heads * dimension) by nia. assert (sequence <= n * sequence) by nia. nia. Qed.

Lemma cache_layers_pos c : cache_wf c -> 1 <= Z.of_nat (length (layers_ c)).
Proof. intros []. destruct (layers_ c); [done|]. cbn. lia. Qed.

Lemma appended_wf mem c l ks vs b b' :
  cache_wf c -> layer_wf c l -> rows_of c ks vs (dim ks 0) -> view_wf b ks -> view_wf b' vs ->
  Z.of_nat (length (positions l)) + dim ks 0 <= maximumSequenceLength_ c ->
  layer_wf c (appended mem l ks vs).
Proof.
  intros Hc [] Hr Hk Hv Hmax. destruct (contents_length mem _ _ _ _ Hr) as (H1 & _ & H2 & H3).
  constructor; unfold appended; cbn; rewrite ?length_fmap, ?length_seq, ?length_app; [done|lia|nia|nia].
Qed.

(** Sums over the layers. *)
Definition total (f : LayerStorage -> Z) (ls : list LayerStorage) : Z := foldr (fun l acc => f l + acc) 0 ls.

Lemma total_bound f ls b : Forall (fun l => 0 <= f l <= b) ls -> 0 <= total f ls <= b * Z.of_nat (length ls).
Proof. unfold total. induction 1 as [|l ls Hl _ IH]; cbn; [lia|]. lia. Qed.

Lemma usage_total ls acc :
  Forall (fun l => 0 <= layer_bytes l) ls -> 0 <= acc -> acc + total layer_bytes ls <= u64_max ->
  foldl (fun result l => wrap64 (result + layer_bytes l)) acc ls = acc + total layer_bytes ls.
Proof.
  unfold total. revert acc. induction ls as [|l ls IH]; intros acc Hl Hacc Hmax; cbn in *; [lia|].
  apply Forall_cons in Hl as [Hl Hls].
  assert (0 <= foldr (fun l acc => layer_bytes l + acc) 0 ls).
  { clear -Hls. induction Hls; cbn; lia. }
  rewrite wrap64_small by (unfold is_u64; lia). rewrite IH by (done || lia). lia.
Qed.

Lemma layer_bytes_bound c l :
  cache_wf c -> layer_wf c l ->
  0 <= layer_bytes l <= maximumSequenceLength_ c * (8 + 8 * (keyValueHeads_ c * headDimension_ c)).
Proof.
  intros [(H1 & H2 & H3) _ _ _] []. unfold layer_bytes, row in *. rewrite Nat2Z.inj_add, lw_keys0, lw_values0.
  assert (1 <= keyValueHeads_ c * headDimension_ c) by nia. nia.
Qed.

(** The memory a cache uses never exceeds what its session reserves. *)
Lemma usage_bound c :
  cache_wf c ->
  kv_memoryUsageBytes c = total layer_bytes (layers_ c) /\
  0 <= kv_memoryUsageBytes c <=
    session_bytes (Z.of_nat (length (layers_ c))) (maximumSequenceLength_ c) (keyValueHeads_ c) (headDimension_ c).
Proof.
  intros Hc. assert (Forall (fun l => 0 <= layer_bytes l <=
    maximumSequenceLength_ c * (8 + 8 * (keyValueHeads_ c * headDimension_ c))) (layers_ c)) as Hb.
  { eapply Forall_impl; [apply Hc|]. intros l. by apply layer_bytes_bound. }
  pose proof (total_bound _ _ _ Hb) as Ht. pose proof (cw_bytes _ Hc) as Hmax.
  unfold session_bytes in *. unfold kv_memoryUsageBytes. rewrite usage_total; [split; [done|lia]| |lia|lia].
  eapply Forall_impl; [exact Hb|]. cbn. lia.
Qed.

Lemma newKVCache_wf layers sequence heads dimension c :
  is_u64 layers -> is_u64 sequence -> is_u64 heads -> is_u64 dimension ->
  newKVCache layers sequence heads dimension = Ok c -> cache_wf c.
Proof.
  intros H1 H2 H3 H4 H. unfold newKVCache in H.
  pose proof (checkedCacheBytes_spec layers sequence heads dimension H1 H2 H3 H4) as Hs.
  destruct (checkedCacheBytes _ _ _ _) as [n|e|]; [|done|done]. injection H as <-.
  destruct Hs as (? & ? & ? & ? & -> & Hmax). unfold is_u64 in *.
  constructor; cbn [maximumSequenceLength_ keyValueHeads_ headDimension_ layers_].
  - lia.
  - rewrite length_replicate, Z2Nat.id by lia. done.
  - apply Forall_replicate. constructor; cbn; lia || done.
  - destruct (Z.to_nat layers) eqn:Hn; [lia|done].
Qed.

(** ** What the operations do *)

Lemma layer_wf_set f c l : layer_wf c l -> layer_wf (set_layers f c) l.
Proof. intros []. by constructor. Qed.

Lemma set_layer_wf c L l : cache_wf c -> layer_wf c l -> cache_wf (set_layers (insert L l) c).
Proof.
  intros [] Hl. constructor; cbn [set_layers layers_ maximumSequenceLength_ keyValueHeads_ headDimension_].
  - done.
  - by rewrite length_insert.
  - apply Forall_insert; [|by apply layer_wf_set]. eapply Forall_impl; [done|]. apply layer_wf_set.
  - intros Hn. apply (f_equal length) in Hn. rewrite length_insert in Hn.
    destruct (layers_ c); [by apply cw_some0|done].
Qed.

Lemma emptyLayer_wf c : cache_wf c -> layer_wf c emptyLayer.
Proof. intros [(? & ? & ?) _ _ _]. constructor; cbn; lia || done. Qed.

Lemma reset_wf c : cache_wf c -> cache_wf (set_layers (fmap (fun _ => emptyLayer)) c).
Proof.
  intros Hc. pose proof (emptyLayer_wf c Hc) as He. destruct Hc.
  constructor; cbn [set_layers layers_ maximumSequenceLength_ keyValueHeads_ headDimension_].
  - done.
  - by rewrite length_fmap.
  - apply Forall_fmap, Forall_true. intros ?. cbn. by apply layer_wf_set.
  - by intros ?%fmap_nil_inv.
Qed.

Section append.
Variables (alive : gset Z) (mem : Z -> Z) (c : KVCache) (layer first : Z) (ks vs : TensorView) (b b' : DeviceBuffer).
Hypotheses (Hc : cache_wf c) (Hlayer : 0 <= layer) (Hks : view_wf b ks) (Hvs : view_wf b' vs).

Lemma dim_pos : views_match alive ks vs = true -> 1 <= dim ks 0 /\ 1 <= dim ks 1 /\ 1 <= dim ks 2.
Proof.
  intros (_ & _ & _ & Hr & _)%views_match_spec. pose proof (sw_dims _ (vw_shape _ _ Hks)) as Hd.
  unfold dim. rewrite (dim_list _ Hr) in Hd. repeat apply Forall_cons in Hd as [? Hd]. lia.
Qed.

Lemma wp_kv_append :
  wp (kv_append alive mem layer first ks vs) c
    (fun _ c' => accepts alive c layer first ks vs /\ cache_wf c' /\
       exists l, layers_ c !! Z.to_nat layer = Some l /\
         c' = set_layers (insert (Z.to_nat layer) (appended mem l ks vs)) c)
    (fun e c' => ~ accepts alive c layer first ks vs /\ c' = c /\ kind_of e = InvalidArgument).
Proof.
  unfold kv_append. wp_step. wp_step. wp_step. wp_step.
  { split; [|done]. intros (H1 & H2 & H3 & H4 & H5 & _ & _ & l & Hl & _).
    rewrite H1, H2, H3, H4, H5, !bool_decide_true in H by done. cbn in H. rewrite !orb_false_r in H.
    apply Z.leb_le in H. apply lookup_lt_Some in Hl. lia. }
  rewrite !orb_false_iff, !negb_false_iff, !bool_decide_eq_true, Z.leb_gt in H.
  destruct H as (((((Ha1 & Ha2) & Hl) & Hd1) & Hd2) & Hm). destruct (dim_pos Hm) as (Hp0 & Hp1 & Hp2).
  wp_step. wp_step.
  { split; [|done]. intros (_ & _ & _ & _ & _ & H1 & H2 & _). rewrite H1, H2, !Z.eqb_refl in H.
    cbn in H. rewrite !orb_false_r in H. apply Z.eqb_eq in H. lia. }
  rewrite !orb_false_iff, !negb_false_iff, !Z.eqb_eq in H. destruct H as ((_ & Hd3) & Hd4).
  destruct (lookup_lt_is_Some_2 (layers_ c) (Z.to_nat layer) ltac:(lia)) as [l Hlk]. rewrite Hlk.
  pose proof (proj1 (Forall_lookup _ _) (cw_layers _ Hc) _ _ Hlk) as Hlw.
  pose proof (lw_tokens _ _ Hlw) as Htok. destruct (cw_dims _ Hc) as (Hq1 & Hq2 & Hq3).
  pose proof (cw_bytes _ Hc) as Hmax. pose proof (cache_layers_pos _ Hc) as Hn.
  destruct (session_bytes_layers _ _ _ _ Hn Hq1 Hq2 Hq3) as [Hb1 Hb2].
  rewrite (wrap64_small (maximumSequenceLength_ c - _)) by (unfold is_u64; lia).
  assert (accepts alive c layer first ks vs <->
          first = Z.of_nat (length (positions l)) /\ first + dim ks 0 <= maximumSequenceLength_ c) as Hacc.
  { split; [|intros [? ?]; repeat (split; [done|]); by exists l].
    intros (_ & _ & _ & _ & _ & _ & _ & l' & Hl' & ?). by simplify_eq. }
  wp_step. wp_step.
  { split; [|done]. intros [-> Hle]%Hacc. rewrite Z.eqb_refl in H. cbn in H. apply Z.ltb_lt in H. lia. }
  rewrite orb_false_iff, negb_false_iff, Z.eqb_eq, Z.ltb_ge in H. destruct H as [-> Hle].
  assert (accepts alive c layer (Z.of_nat (length (positions l))) ks vs) as Hok by (apply Hacc; lia).
  pose proof (accepts_rows _ _ _ _ _ _ _ _ Hok Hks Hvs) as Hrows.
  destruct (contents_length mem _ _ _ _ Hrows) as (_ & Hcnt & Hl1 & Hl2).
  wp_step. wp_step.
  { exfalso. apply Z.ltb_lt in H. rewrite Hcnt, (lw_keys _ _ Hlw) in H. unfold row in H. nia. }
  wp_steps. split; [done|].
  assert (positions l ++ positions_from (Z.of_nat (length (positions l))) (dim ks 0) =
          Z.of_nat <$> seq 0 (length (positions l) + Z.to_nat (dim ks 0))) as ->.
  { rewrite seq_app, fmap_app, <- (lw_positions _ _ Hlw). f_equal. apply positions_from_seq; lia. }
  split; [|by exists l]. apply set_layer_wf; [done|].
  apply (appended_wf mem c l ks vs b b'); done || lia.
Qed.
End append.

(** Appending to the host cache, on every branch: accepted exactly when the views
    are alive CPU FP32 tensors of one shape, the layer exists and the rows start at
    its token count and fit; then the rows are added behind the layer's, the positions
    stay [0..n) and nothing else moves; refused with [std::invalid_argument] otherwise,
    the cache being unchanged. *)
Theorem host_append alive mem c layer first ks vs b b'
    (Hc : cache_wf c) (Hlayer : 0 <= layer) (Hks : view_wf b ks) (Hvs : view_wf b' vs) :
  (accepts alive c layer first ks vs /\
   exists l c', layers_ c !! Z.to_nat layer = Some l /\
     kv_append alive mem layer first ks vs c = (Ok tt, c') /\ cache_wf c' /\
     c' = set_layers (insert (Z.to_nat layer) (appended mem l ks vs)) c /\
     kv_snapshot layer c' = Ok (mkSnapshot (Z.of_nat <$> seq 0 (length (positions l) + Z.to_nat (dim ks 0)))
       (keys l ++ contents mem ks) (values l ++ contents mem vs) (keyValueHeads_ c) (headDimension_ c))) \/
  (~ accepts alive c layer first ks vs /\
   exists e, kv_append alive mem layer first ks vs c = (Throw e, c) /\ kind_of e = InvalidArgument).
Proof.
  destruct (wp_result _ _ _ _ (wp_kv_append alive mem c layer first ks vs b b' Hc Hlayer Hks Hvs))
    as [([] & c' & Hr & Ha & Hwf & l & Hl & Heq)|(e & c' & Hr & Hn & -> & He)]; [left|right; split; [done|by exists e]].
  split; [done|]. exists l, c'. split_and!; try done. subst c'. unfold kv_snapshot, kv_layer. cbn.
  rewrite list_lookup_insert_eq by (by eapply lookup_lt_Some). done.
Qed.

(** Witness: two rows of a cache of two layers, four tokens, one head of two values. *)
Definition sample_rows : Shape := mkShape [2; 1; 2] [2; 2; 1] 4 4.
Definition sample_view (owner data : Z) : TensorView := mkView sample_rows FP32 cpu data 0 16 16 (Some owner).
Definition sample_storage (owner data : Z) : DeviceBuffer := mkBuffer owner data 16 (Some (CPU, 0)).
Definition sample_cache : KVCache := mkKVCache 4 1 2 [emptyLayer; emptyLayer].
Definition sample_alive : gset Z := {[1; 2]}.

Lemma sample_rows_wf : shape_wf sample_rows.
Proof. apply (contiguousShape_wf [2; 1; 2]); [apply small_u64|]; vm_compute; reflexivity. Qed.

Lemma sample_view_wf : view_wf (sample_storage 1 4096) (sample_view 1 4096) /\
  view_wf (sample_storage 2 8192) (sample_view 2 8192).
Proof.
  split; apply view_on_wf;
    (apply (on_host _ sample_alive sample_rows FP32 false); [apply sample_rows_wf|vm_compute; reflexivity]).
Qed.

Lemma sample_cache_new : newKVCache 2 4 1 2 = Ok sample_cache.
Proof. vm_compute. reflexivity. Qed.

Lemma sample_cache_wf : cache_wf sample_cache.
Proof. apply (newKVCache_wf 2 4 1 2); [unfold is_u64, u64_max; lia..|]. apply sample_cache_new. Qed.

Lemma sample_append :
  kv_append sample_alive id 1 0 (sample_view 1 4096) (sample_view 2 8192) sample_cache =
  (Ok tt, mkKVCache 4 1 2 [emptyLayer;
     mkLayer [0; 1] [4096; 4100; 4104; 4108] [8192; 8196; 8200; 8204]]).
Proof. vm_compute. reflexivity. Qed.

Lemma host_append_witness :
  cache_wf sample_cache /\
  kv_append sample_alive id 1 0 (sample_view 1 4096) (sample_view 2 8192) sample_cache =
    (Ok tt, mkKVCache 4 1 2 [emptyLayer;
       mkLayer [0; 1] [4096; 4100; 4104; 4108] [8192; 8196; 8200; 8204]]) /\
  accepts sample_alive sample_cache 1 0 (sample_view 1 4096) (sample_view 2 8192).
Proof.
  split; [exact sample_cache_wf|]. split; [exact sample_append|].
  destruct (host_append sample_alive id sample_cache 1 0 (sample_view 1 4096) (sample_view 2 8192) _ _
    sample_cache_wf ltac:(lia) (proj1 sample_view_wf) (proj2 sample_view_wf)) as [[H _]|[_ (e & H & _)]];
    [exact H|rewrite sample_append in H; discriminate H].
Defined.
