(* ===== verification/CudaKVCache.v ===== *)
(** * The key/value cache on a device

    [src/runtime/cache/CudaKVCache.cpp].  The rows of a layer are kept in two tensors
    of a capacity that grows by doubling, never past the sequence limit.  The backend
    allocates tensors whose contents it does not define, and may refuse; its copies may
    throw too, before the destination is written or after. *)

From S2P Require Import Prelude Tiers Tensor KVCache.

Record LayerTensors : Type := mkTensors {
  lt_keys : list Z;
  lt_values : list Z;
  lt_tokens : Z;
  lt_capacity : Z;
  lt_firstPosition : Z;
}.
Definition emptyTensors : LayerTensors := mkTensors [] [] 0 0 0.

Record CudaKVCache : Type := mkCuda {
  cu_maximumSequenceLength : Z;
  cu_keyValueHeads : Z;
  cu_headDimension : Z;
  cu_layers : list LayerTensors;
}.

(** The backend is available and a CUDA device, or the constructor refuses it. *)
Definition newCudaKVCache (usable : bool) (layers maximumSequence heads dimension : Z) : result CudaKVCache :=
  (throw_if (negb usable) (Exn InvalidArgument "CUDA KV cache requires an available CUDA backend") ;;?
   newKVCache layers maximumSequence heads dimension ;;?
   Ok (mkCuda maximumSequence heads dimension (replicate (Z.to_nat layers) emptyTensors)))%res.

Definition set_tensors (L : nat) (l : LayerTensors) (c : CudaKVCache) : CudaKVCache :=
  mkCuda (cu_maximumSequenceLength c) (cu_keyValueHeads c) (cu_headDimension c) (<[L := l]> (cu_layers c)).

(** [while (capacity < required) capacity = capacity > max / 2 ? max : capacity * 2;] *)
Fixpoint grow (fuel : nat) (maximum capacity required : Z) : result Z :=
  match fuel with
  | O => Diverge
  | S fuel =>
      if capacity <? required
      then grow fuel maximum (if maximum / 2 <? capacity then maximum else wrap64 (capacity * 2)) required
      else Ok capacity
  end.

(** [source.sliceBytes(0, logical)] of so many elements. *)
Definition first_elements (count : Z) (source : list Z) : list Z := take (Z.to_nat count) source.

(** The copies the cache asks of its backend: the old rows into grown tensors, the new rows
    behind them, and the rows into the tensors of a snapshot. *)
Inductive CopyCall := MoveKeys | MoveValues | WriteKeys | WriteValues | ReadKeys | ReadValues.

Definition set_keys (l : list Z) (s : LayerTensors) : LayerTensors :=
  mkTensors l (lt_values s) (lt_tokens s) (lt_capacity s) (lt_firstPosition s).
Definition set_values (l : list Z) (s : LayerTensors) : LayerTensors :=
  mkTensors (lt_keys s) l (lt_tokens s) (lt_capacity s) (lt_firstPosition s).
Definition set_tokens (first tokens : Z) (s : LayerTensors) : LayerTensors :=
  mkTensors (lt_keys s) (lt_values s) tokens (lt_capacity s) (if lt_tokens s =? 0 then first else lt_firstPosition s).

(** [layers_[L]], for an [L] that is in range. *)
Definition tensors_at (L : nat) (c : CudaKVCache) : LayerTensors := default emptyTensors (cu_layers c !! L).

Section device.
Variables (alive : gset Z) (mem : Z -> Z).
(** [backend_->allocateTensor], the keys' and the values' call. *)
Variable allocateTensor : bool -> Z -> result (list Z).
(** [backend_->copyTensor]: what the copy of a source over a destination range leaves in
    it, and the exception if the copy throws. *)
Variable copyTensor : CopyCall -> list Z -> list Z -> option exn * list Z.

(** [copyTensor(source, destination.sliceBytes(offset, ...))], in words: the slice
    refuses a range that leaves the destination. *)
Definition copy_into (call : CopyCall) (offset : Z) (source : list Z) : ST (list Z) unit := fun destination =>
  let '(n, o) := (length source, Z.to_nat offset) in
  if Z.of_nat (length destination) <? offset + Z.of_nat n
  then (Throw (Exn OutOfRange "tensor view slice exceeds storage"), destination)
  else let '(error, range) := copyTensor call source (take n (drop o destination)) in
       (match error with None => Ok tt | Some e => Throw e end,
        take o destination ++ range ++ drop (o + n) destination).

(** A copy into a tensor that only the caller holds: it is dropped when the copy throws. *)
Definition copied (call : CopyCall) (source destination : list Z) : result (list Z) :=
  match copy_into call 0 source destination with
  | (Ok _, destination) => Ok destination
  | (Throw e, _) => Throw e
  | (Diverge, _) => Diverge
  end.

(** The growth of a layer that cannot hold [required] tokens. *)
Definition expand (c : CudaKVCache) (storage : LayerTensors) (required : Z) : result LayerTensors :=
  let row := cu_keyValueHeads c * cu_headDimension c in
  (capacity <-? grow 66 (cu_maximumSequenceLength c) (Z.max 1 (lt_capacity storage)) required ;;
   expandedKeys <-? allocateTensor true (capacity * row) ;;
   expandedValues <-? allocateTensor false (capacity * row) ;;
   expandedKeys <-? (if lt_tokens storage =? 0 then Ok expandedKeys
     else copied MoveKeys (first_elements (lt_tokens storage * row) (lt_keys storage)) expandedKeys) ;;
   expandedValues <-? (if lt_tokens storage =? 0 then Ok expandedValues
     else copied MoveValues (first_elements (lt_tokens storage * row) (lt_values storage)) expandedValues) ;;
   Ok (mkTensors expandedKeys expandedValues (lt_tokens storage) capacity (lt_firstPosition storage)))%res.

(** The new rows, behind the old ones, and then the tokens. *)
Definition write_rows (L : nat) (offset first required : Z) (ks vs : TensorView) : ST CudaKVCache unit :=
  (zoom (fun c => lt_keys (tensors_at L c)) (fun l c => set_tensors L (set_keys l (tensors_at L c)) c)
     (copy_into WriteKeys offset (contents mem ks)) ;;;
   zoom (fun c => lt_values (tensors_at L c)) (fun l c => set_tensors L (set_values l (tensors_at L c)) c)
     (copy_into WriteValues offset (contents mem vs)) ;;;
   modify (fun c => set_tensors L (set_tokens first required (tensors_at L c)) c))%st.

Definition cuda_append (layer first : Z) (ks vs : TensorView) : ST CudaKVCache unit :=
  (c <- st_get ;;
   lift (throw_if ((Z.of_nat (length (cu_layers c)) <=? layer) || negb (views_match alive ks vs) ||
                   negb (dim ks 1 =? cu_keyValueHeads c) || negb (dim ks 2 =? cu_headDimension c))
     (Exn InvalidArgument "CUDA KV cache append metadata is incompatible")) ;;;
   match cu_layers c !! Z.to_nat layer with
   | None => throw (Exn OutOfRange "vector index")
   | Some storage =>
       let incoming := dim ks 0 in
       lift (throw_if (negb (first =? lt_tokens storage) ||
                       (wrap64 (cu_maximumSequenceLength c - lt_tokens storage) <? incoming))
         (Exn InvalidArgument "CUDA KV cache append exceeds contiguous capacity")) ;;;
       let required := wrap64 (lt_tokens storage + incoming) in
       let L := Z.to_nat layer in
       (if lt_capacity storage <? required
        then storage <- lift (expand c storage required) ;; modify (set_tensors L storage)
        else ret tt) ;;;
       let offset := lt_tokens storage * cu_keyValueHeads c * cu_headDimension c in
       write_rows L offset first required ks vs
   end)%st.

Definition cuda_layer (layer : Z) (c : CudaKVCache) : result LayerTensors :=
  match cu_layers c !! Z.to_nat layer with
  | Some storage => Ok storage
  | None => Throw (Exn OutOfRange "CUDA KV cache layer is invalid")
  end.

(** The tensors [cpu.allocateTensor] makes for a snapshot. *)
Variable hostTensor : bool -> Z -> result (list Z).
Definition cuda_snapshot (layer : Z) (c : CudaKVCache) : result KVCacheSnapshot :=
  let row := cu_keyValueHeads c * cu_headDimension c in
  (storage <-? cuda_layer layer c ;;
   if lt_tokens storage =? 0 then Ok (mkSnapshot [] [] [] (cu_keyValueHeads c) (cu_headDimension c))
   else hostKeys <-? hostTensor true (lt_tokens storage * row) ;;
        hostValues <-? hostTensor false (lt_tokens storage * row) ;;
        hostKeys <-? copied ReadKeys (first_elements (lt_tokens storage * row) (lt_keys storage)) hostKeys ;;
        hostValues <-? copied ReadValues (first_elements (lt_tokens storage * row) (lt_values storage)) hostValues ;;
        Ok (mkSnapshot (positions_from (lt_firstPosition storage) (lt_tokens storage))
              hostKeys hostValues (cu_keyValueHeads c) (cu_headDimension c)))%res.
End device.

(** [deviceSnapshot]: the rows, their count and the first position. *)
Definition cuda_deviceSnapshot (layer : Z) (c : CudaKVCache) : result (list Z * list Z * Z * Z) :=
  let row := cu_keyValueHeads c * cu_headDimension c in
  (storage <-? cuda_layer layer c ;;
   if lt_tokens storage =? 0 then Throw (Exn LogicError "CUDA KV cache layer has no device snapshot")
   else Ok (first_elements (lt_tokens storage * row) (lt_keys storage),
            first_elements (lt_tokens storage * row) (lt_values storage),
            lt_tokens storage, lt_firstPosition storage))%res.

Definition cuda_tokenCount (layer : Z) (c : CudaKVCache) : result Z :=
  (storage <-? cuda_layer layer c ;; Ok (lt_tokens storage))%res.

Definition tensors_bytes (l : LayerTensors) : Z :=
  4 * Z.of_nat (length (lt_keys l)) + 4 * Z.of_nat (length (lt_values l)) + lt_tokens l * 8.
Fixpoint usage_loop (bytes : Z) (ls : list LayerTensors) : result Z :=
  match ls with
  | [] => Ok bytes
  | l :: ls =>
      (throw_if (u64_max - tensors_bytes l <? bytes)
         (Exn OverflowError "CUDA KV cache byte accounting overflows") ;;?
       usage_loop (wrap64 (bytes + tensors_bytes l)) ls)%res
  end.
Definition cuda_memoryUsageBytes (c : CudaKVCache) : result Z := usage_loop 0 (cu_layers c).

Definition cuda_maximumMemoryUsageBytes (c : CudaKVCache) : result Z :=
  (sizing <-? newKVCache (Z.of_nat (length (cu_layers c))) (cu_maximumSequenceLength c)
                (cu_keyValueHeads c) (cu_headDimension c) ;;
   kv_maximumMemoryUsageBytes sizing)%res.

Definition cuda_clear (layer : Z) : ST CudaKVCache unit :=
  (c <- st_get ;;
   lift (cuda_layer layer c) ;;;
   modify (set_tensors (Z.to_nat layer) emptyTensors))%st.

Definition cuda_reset : ST CudaKVCache unit :=
  modify (fun c => mkCuda (cu_maximumSequenceLength c) (cu_keyValueHeads c) (cu_headDimension c)
                     ((fun _ => emptyTensors) <$> cu_layers c)).

(** ** The growth loop *)

(** It ends, at a capacity that holds what is required and stays within the limit. *)
Lemma grow_spec k maximum capacity required :
  1 <= capacity <= maximum -> required <= maximum <= u64_max -> required <= capacity * 2 ^ Z.of_nat k ->
  exists n, grow (S k) maximum capacity required = Ok n /\ required <= n /\ capacity <= n <= maximum.
Proof.
  revert capacity. induction k as [|k IH]; intros capacity Hc Hr Hb; cbn [grow].
  - destruct (Z.ltb_spec capacity required); [cbn in Hb; lia|]. exists capacity. split; [done|lia].
  - destruct (Z.ltb_spec capacity required) as [Hlt|]; [|exists capacity; split; [done|lia]].
    rewrite Nat2Z.inj_succ, Z.pow_succ_r in Hb by lia.
    destruct (Z.ltb_spec (maximum / 2) capacity) as [Hbig|Hsmall].
    + destruct (IH maximum) as (n & Hn & ?); [lia|lia|assert (1 <= 2 ^ Z.of_nat k) by (pose proof (Z.pow_pos_nonneg 2 (Z.of_nat k)); lia); nia|].
      exists n. split; [exact Hn|lia].
    + pose proof (Z.mul_div_le maximum 2 ltac:(lia)).
      rewrite wrap64_small by (unfold is_u64; lia).
      destruct (IH (capacity * 2)) as (n & Hn & ?); [lia|lia|nia|]. exists n. split; [exact Hn|lia].
Qed.

Lemma grow_enough maximum capacity required :
  0 <= capacity <= maximum -> 1 <= required <= maximum -> maximum <= u64_max ->
  exists n, grow 66 maximum (Z.max 1 capacity) required = Ok n /\ required <= n <= maximum.
Proof.
  intros Hc Hr Hm. destruct (grow_spec 65 maximum (Z.max 1 capacity) required) as (n & Hn & ?).
  - lia.
  - lia.
  - assert (2 ^ Z.of_nat 65 = 36893488147419103232) as -> by reflexivity. unfold u64_max in *. nia.
  - exists n. split; [done|lia].
Qed.

(** ** It refines the host cache *)

(** A device layer and the host layer it stands for. *)
Record layer_rel (row maximum : Z) (d : LayerTensors) (h : LayerStorage) : Prop := LayerRel {
  lr_tokens : lt_tokens d = Z.of_nat (length (positions h));
  lr_capacity : lt_tokens d <= lt_capacity d <= maximum;
  lr_keys_length : Z.of_nat (length (lt_keys d)) = lt_capacity d * row;
  lr_values_length : Z.of_nat (length (lt_values d)) = lt_capacity d * row;
  lr_keys : first_elements (lt_tokens d * row) (lt_keys d) = keys h;
  lr_values : first_elements (lt_tokens d * row) (lt_values d) = values h;
  lr_first : lt_firstPosition d = 0;
}.

Record cache_rel (d : CudaKVCache) (h : KVCache) : Prop := CacheRel {
  cr_wf : cache_wf h;
  cr_maximum : cu_maximumSequenceLength d = maximumSequenceLength_ h;
  cr_heads : cu_keyValueHeads d = keyValueHeads_ h;
  cr_dimension : cu_headDimension d = headDimension_ h;
  cr_layers : Forall2 (layer_rel (row h) (maximumSequenceLength_ h)) (cu_layers d) (layers_ h);
}.

(** What the backend promises of a tensor it allocates. *)
Definition allocates (allocateTensor : bool -> Z -> result (list Z)) : Prop :=
  forall b n, match allocateTensor b n with
              | Ok l => 0 <= n -> Z.of_nat (length l) = n
              | Throw _ => True
              | Diverge => False
              end.

(** What it promises of a copy: the destination keeps its size, and holds the source when
    the copy does not throw. *)
Definition copies (copyTensor : CopyCall -> list Z -> list Z -> option exn * list Z) : Prop :=
  forall call source range, length range = length source ->
    length (copyTensor call source range).2 = length source /\
    ((copyTensor call source range).1 = None -> (copyTensor call source range).2 = source).

Definition copy_throws (copyTensor : CopyCall -> list Z -> list Z -> option exn * list Z) (e : exn) : Prop :=
  exists call source range, (copyTensor call source range).1 = Some e.
Definition allocation_throws (allocateTensor : bool -> Z -> result (list Z)) (e : exn) : Prop :=
  exists k n, allocateTensor k n = Throw e.

Section copying.
Variable copyTensor : CopyCall -> list Z -> list Z -> option exn * list Z.
Hypothesis Hcopy : copies copyTensor.

(** A copy behind the first [offset] words leaves them, even when it throws. *)
Lemma copy_into_end call offset source destination :
  0 <= offset -> offset + Z.of_nat (length source) <= Z.of_nat (length destination) ->
  wp (copy_into copyTensor call offset source) destination
    (fun _ l => length l = length destination /\
       take (Z.to_nat offset + length source) l = take (Z.to_nat offset) destination ++ source)
    (fun e l => length l = length destination /\ take (Z.to_nat offset) l = take (Z.to_nat offset) destination /\
       copy_throws copyTensor e).
Proof.
  intros H0 H. unfold wp, copy_into. destruct (Z.ltb_spec (Z.of_nat (length destination)) (offset + Z.of_nat (length source))); [lia|].
  set (range := take (length source) (drop (Z.to_nat offset) destination)).
  assert (length range = length source) as Hr by (unfold range; rewrite length_take, length_drop; lia).
  destruct (Hcopy call source range Hr) as [Hl Hs]. destruct (copyTensor call source range) as [error l] eqn:He.
  cbn [fst snd] in Hl, Hs. assert (forall x : list Z, length x = length source ->
    length (take (Z.to_nat offset) destination ++ x ++ drop (Z.to_nat offset + length source) destination) = length destination) as Hlen
    by (intros x Hx; rewrite !length_app, length_take, length_drop; lia).
  destruct error as [e|].
  - split; [by apply Hlen|]. split; [|by exists call, source, range; rewrite He]. apply take_app_length'. rewrite length_take. lia.
  - specialize (Hs eq_refl) as ->. split; [by apply Hlen|]. rewrite app_assoc, take_app_length'; [done|]. rewrite length_app, length_take. lia.
Qed.

Lemma copied_spec call source destination :
  Z.of_nat (length source) <= Z.of_nat (length destination) ->
  match copied copyTensor call source destination with
  | Ok l => length l = length destination /\ take (length source) l = source
  | Throw e => copy_throws copyTensor e
  | Diverge => False
  end.
Proof.
  intros H. pose proof (copy_into_end call 0 source destination ltac:(lia) ltac:(lia)) as Hw. unfold wp, copied in *.
  destruct (copy_into copyTensor call 0 source destination) as [[|e|] l]; [exact Hw|apply Hw|done].
Qed.
End copying.

Section refinement.
Variables (alive : gset Z) (mem : Z -> Z) (allocateTensor : bool -> Z -> result (list Z)).
Variable copyTensor : CopyCall -> list Z -> list Z -> option exn * list Z.
Hypotheses (Halloc : allocates allocateTensor) (Hcopy : copies copyTensor).
Variables (d : CudaKVCache) (h : KVCache).
Hypothesis Hrel : cache_rel d h.

Lemma rel_row : cu_keyValueHeads d * cu_headDimension d = row h /\ 1 <= row h.
Proof.
  destruct Hrel. rewrite cr_heads0, cr_dimension0. split; [done|].
  destruct (cw_dims _ cr_wf0) as (_ & ? & ?). unfold row. nia.
Qed.

Lemma rel_maximum : maximumSequenceLength_ h <= u64_max.
Proof.
  destruct (cw_dims _ (cr_wf _ _ Hrel)) as (H1 & H2 & H3). pose proof (cw_bytes _ (cr_wf _ _ Hrel)).
  destruct (session_bytes_layers _ _ _ _ (cache_layers_pos _ (cr_wf _ _ Hrel)) H1 H2 H3). lia.
Qed.

(** The old rows at the front of the new tensor. *)
Lemma moved_rows call tokens r capacity old new :
  0 <= tokens <= capacity -> 1 <= r -> tokens * r <= Z.of_nat (length old) ->
  Z.of_nat (length new) = capacity * r ->
  match (if tokens =? 0 then Ok new else copied copyTensor call (first_elements (tokens * r) old) new) with
  | Ok l => Z.of_nat (length l) = capacity * r /\ first_elements (tokens * r) l = first_elements (tokens * r) old
  | Throw e => copy_throws copyTensor e
  | Diverge => False
  end.
Proof.
  intros Ht Hr Hold Hnew. unfold first_elements. destruct (Z.eqb_spec tokens 0) as [->|Hne]; [by rewrite Z.mul_0_l|].
  assert (length (take (Z.to_nat (tokens * r)) old) = Z.to_nat (tokens * r)) as Hlen by (rewrite length_take; nia).
  pose proof (copied_spec copyTensor Hcopy call (take (Z.to_nat (tokens * r)) old) new ltac:(nia)) as Hc.
  destruct (copied _ _ _ _) as [l|e|]; [|done..]. rewrite Hlen in Hc. destruct Hc as [-> ?]. done.
Qed.

(** What a call to the backend may throw. *)
Definition backend_throws (e : exn) : Prop := allocation_throws allocateTensor e \/ copy_throws copyTensor e.

Lemma expand_spec l hl required :
  layer_rel (row h) (maximumSequenceLength_ h) l hl -> 1 <= required <= maximumSequenceLength_ h ->
  lt_tokens l <= required ->
  match expand allocateTensor copyTensor d l required with
  | Ok l' => layer_rel (row h) (maximumSequenceLength_ h) l' hl /\ required <= lt_capacity l'
  | Throw e => backend_throws e
  | Diverge => False
  end.
Proof.
  intros Hl Hreq Htok. destruct Hl. pose proof rel_maximum as Hmax. destruct rel_row as [Hrow Hrow1].
  unfold expand. rewrite Hrow, (cr_maximum _ _ Hrel).
  destruct (grow_enough (maximumSequenceLength_ h) (lt_capacity l) required) as (n & -> & Hn); [lia..|]. cbn [res_bind].
  pose proof (Halloc true (n * row h)) as Ha. pose proof (Halloc false (n * row h)) as Hb.
  destruct (allocateTensor true (n * row h)) as [ks|e|] eqn:Hka; cbn [res_bind]; [|by left; exists true, (n * row h)|done].
  destruct (allocateTensor false (n * row h)) as [vs|e|] eqn:Hva; cbn [res_bind]; [|by left; exists false, (n * row h)|done].
  pose proof (moved_rows MoveKeys (lt_tokens l) (row h) n (lt_keys l) ks ltac:(lia) ltac:(done) ltac:(nia) ltac:(apply Ha; nia)) as Hk.
  pose proof (moved_rows MoveValues (lt_tokens l) (row h) n (lt_values l) vs ltac:(lia) ltac:(done) ltac:(nia) ltac:(apply Hb; nia)) as Hv.
  destruct (if lt_tokens l =? 0 then Ok ks else _) as [ks'|e|]; cbn [res_bind]; [|by right|done].
  destruct (if lt_tokens l =? 0 then Ok vs else _) as [vs'|e|]; cbn [res_bind]; [|by right|done].
  destruct Hk as [Hk1 Hk2], Hv as [Hv1 Hv2]. split; [|cbn; lia]. constructor; cbn; try done; [lia|congruence|congruence].
Qed.

(** Writing the new rows behind the old ones. *)
Lemma written_rows call tokens r capacity incoming new old :
  0 <= tokens -> 1 <= r -> 0 <= incoming -> tokens + incoming <= capacity ->
  Z.of_nat (length old) = capacity * r -> Z.of_nat (length new) = incoming * r ->
  wp (copy_into copyTensor call (tokens * r) new) old
    (fun _ l => Z.of_nat (length l) = capacity * r /\ first_elements (tokens * r) l = first_elements (tokens * r) old /\
       first_elements ((tokens + incoming) * r) l = first_elements (tokens * r) old ++ new)
    (fun e l => Z.of_nat (length l) = capacity * r /\ first_elements (tokens * r) l = first_elements (tokens * r) old /\ copy_throws copyTensor e).
Proof.
  intros Ht Hr Hi Hc Hold Hnew. unfold first_elements.
  assert (Z.to_nat (tokens * r) <= length old)%nat as Hle by nia.
  eapply wp_mono; [apply (copy_into_end copyTensor Hcopy); nia| |].
  - intros _ l [Hlen Htake]. split; [by rewrite Hlen|]. replace (Z.to_nat ((tokens + incoming) * r)) with (Z.to_nat (tokens * r) + length new)%nat by nia.
    split; [|exact Htake]. apply (f_equal (take (Z.to_nat (tokens * r)))) in Htake. rewrite take_take, Nat.min_l in Htake by lia.
    rewrite Htake. apply take_app_length'. rewrite length_take. lia.
  - intros e l (Hlen & Htake & He). by rewrite Hlen.
Qed.
End refinement.

(** The host view of the same metadata. *)
Definition on_host (v : TensorView) : TensorView :=
  mkView (shape_ v) (dtype_ v) cpu (data_ v) (mutableData_ v) (bytes_ v) (storageBytes_ v) (lifetime_ v).

Lemma on_host_wf b v : view_wf b v -> view_wf b (on_host v).
Proof. intros []. by constructor. Qed.

Lemma set_tensors_twice L l l' c : set_tensors L l (set_tensors L l' c) = set_tensors L l c.
Proof. unfold set_tensors. cbn. by rewrite list_insert_insert_eq. Qed.

Lemma set_tensors_rel d h L l hl mem ks vs :
  cache_rel d h -> cache_wf (set_layers (insert L (appended mem hl ks vs)) h) ->
  layer_rel (row h) (maximumSequenceLength_ h) l (appended mem hl ks vs) ->
  cache_rel (set_tensors L l d) (set_layers (insert L (appended mem hl ks vs)) h).
Proof.
  intros [] Hwf Hl. constructor; cbn; try done. by apply Forall2_insert.
Qed.

(** Other tensors for a layer that stand for the same rows. *)
Lemma set_tensors_same d h L l hl :
  cache_rel d h -> layers_ h !! L = Some hl -> layer_rel (row h) (maximumSequenceLength_ h) l hl -> cache_rel (set_tensors L l d) h.
Proof.
  intros [] Hhl Hl. constructor; cbn; try done. rewrite <- (list_insert_id (layers_ h) L hl Hhl). by apply Forall2_insert.
Qed.

Lemma tensors_at_set d L l : (L < length (cu_layers d))%nat -> tensors_at L (set_tensors L l d) = l.
Proof. intros HL. unfold tensors_at, set_tensors. cbn. by rewrite list_lookup_insert_eq. Qed.

(** Only the tensors of one layer differ. *)
Definition layer_only (L : nat) (d d' : CudaKVCache) : Prop := exists l, d' = set_tensors L l d.

Section append.
Variables (alive : gset Z) (mem : Z -> Z) (allocateTensor : bool -> Z -> result (list Z)).
Variable copyTensor : CopyCall -> list Z -> list Z -> option exn * list Z.
Hypotheses (Halloc : allocates allocateTensor) (Hcopy : copies copyTensor).
Variables (d : CudaKVCache) (h : KVCache) (layer first : Z) (ks vs : TensorView) (b b' : DeviceBuffer).
Hypotheses (Hrel : cache_rel d h) (Hlayer : 0 <= layer) (Hks : view_wf b ks) (Hvs : view_wf b' vs).

(** The host accepts exactly when the device's own guards let the call through. *)
Lemma device_guards l hl :
  views_match alive ks vs = true -> dim ks 1 = cu_keyValueHeads d -> dim ks 2 = cu_headDimension d ->
  cu_layers d !! Z.to_nat layer = Some l -> layers_ h !! Z.to_nat layer = Some hl -> lt_tokens l = Z.of_nat (length (positions hl)) ->
  accepts alive h layer first (on_host ks) (on_host vs) <->
  first = lt_tokens l /\ first + dim ks 0 <= cu_maximumSequenceLength d.
Proof.
  intros Hm H1 H2 Hl Hhl Ht. destruct Hrel. rewrite cr_maximum0, Ht.
  assert (expired alive (lifetime_ ks) = false /\ expired alive (lifetime_ vs) = false) as [He1 He2].
  { apply views_match_spec in Hm as (_ & _ & _ & _ & Hv1 & Hv2). unfold view_valid in Hv1, Hv2.
    rewrite !andb_true_iff, !negb_true_iff in *. naive_solver. }
  unfold accepts. split.
  - intros (_ & _ & _ & _ & _ & _ & _ & l' & Hl' & ?). by simplify_eq.
  - intros [? ?]. split_and!; try done; [exact (eq_trans H1 cr_heads0)|exact (eq_trans H2 cr_dimension0)|].
    by exists hl.
Qed.

Lemma write_spec L d1 l hl :
  cache_rel d1 h -> cu_layers d1 !! L = Some l -> layers_ h !! L = Some hl ->
  rows_of h (on_host ks) (on_host vs) (dim ks 0) -> lt_tokens l + dim ks 0 <= lt_capacity l ->
  cache_wf (set_layers (insert L (appended mem hl (on_host ks) (on_host vs))) h) ->
  let offset := lt_tokens l * cu_keyValueHeads d * cu_headDimension d in
  wp (write_rows mem copyTensor L offset (lt_tokens l) (lt_tokens l + dim ks 0) ks vs) d1
    (fun _ d' => cache_rel d' (set_layers (insert L (appended mem hl (on_host ks) (on_host vs))) h))
    (fun e d' => cache_rel d' h /\ layer_only L d1 d' /\ backend_throws allocateTensor copyTensor e).
Proof.
  intros Hrel1 Hlk Hhl Hrows Hfit Hwf offset. pose proof (lookup_lt_Some _ _ _ Hlk) as HL.
  destruct (Forall2_lookup_lr _ _ _ _ _ _ (cr_layers _ _ Hrel1) Hlk Hhl) as [].
  destruct (rel_row _ _ Hrel) as [Hrow Hrow1]. destruct (contents_length mem _ _ _ _ Hrows) as (Hp & _ & Hl1 & Hl2).
  assert (offset = lt_tokens l * row h) as -> by (unfold offset; by rewrite <- Z.mul_assoc, Hrow).
  assert (tensors_at L d1 = l) as Hat by (unfold tensors_at; by rewrite Hlk).
  unfold write_rows. wp_step. apply wp_zoom. rewrite Hat.
  eapply wp_mono; [apply (written_rows copyTensor Hcopy WriteKeys (lt_tokens l) (row h) (lt_capacity l) (dim ks 0)); (lia || done || exact Hl1)| |].
  2:{ intros e k (Hk1 & Hk2 & He). split; [|split; [by eexists|by right]]. apply (set_tensors_same _ _ _ _ hl); [done..|].
      constructor; cbn; congruence || done. }
  intros _ k (Hk1 & Hk2 & Hk3). wp_step. apply wp_zoom. rewrite tensors_at_set by done. cbn [lt_values set_keys].
  eapply wp_mono; [apply (written_rows copyTensor Hcopy WriteValues (lt_tokens l) (row h) (lt_capacity l) (dim ks 0)); (lia || done || exact Hl2)| |].
  2:{ intros e v (Hv1 & Hv2 & He). rewrite set_tensors_twice. split; [|split; [by eexists|by right]].
      apply (set_tensors_same _ _ _ _ hl); [done..|]. constructor; cbn; congruence || done. }
  intros _ v (Hv1 & Hv2 & Hv3). wp_step. rewrite !set_tensors_twice, tensors_at_set by exact HL.
  apply set_tensors_rel; [done..|]. constructor; cbn; try done.
  - rewrite length_fmap, length_seq. change (dim (on_host ks) 0) with (dim ks 0). lia.
  - lia.
  - rewrite Hk3. by f_equal.
  - rewrite Hv3. by f_equal.
  - by destruct (Z.eqb_spec (lt_tokens l) 0).
Qed.

Definition appended_to (first : Z) (d' : CudaKVCache) : Prop :=
  accepts alive h layer first (on_host ks) (on_host vs) /\
  forall hl, layers_ h !! Z.to_nat layer = Some hl ->
    cache_rel d' (set_layers (insert (Z.to_nat layer) (appended mem hl (on_host ks) (on_host vs))) h).
Definition append_failed (first : Z) (e : exn) (d' : CudaKVCache) : Prop :=
  d' = d /\ ~ accepts alive h layer first (on_host ks) (on_host vs) /\ kind_of e = InvalidArgument \/
  accepts alive h layer first (on_host ks) (on_host vs) /\ cache_rel d' h /\ layer_only (Z.to_nat layer) d d' /\
  backend_throws allocateTensor copyTensor e.

Lemma wp_cuda_append :
  wp (cuda_append alive mem allocateTensor copyTensor layer first ks vs) d (fun _ => appended_to first) (append_failed first).
Proof.
  pose proof (cr_wf _ _ Hrel) as Hwf. destruct (rel_row _ _ Hrel) as [Hrow Hrow1].
  pose proof (rel_maximum _ _ Hrel) as Hmax. pose proof (Forall2_length _ _ _ (cr_layers _ _ Hrel)) as Hlen.
  unfold cuda_append. wp_step. wp_step. wp_step. wp_step.
  { left. split; [done|]. split; [|done]. intros (H1 & H2 & H3 & H4 & H5 & H6 & H7 & hl & Hl & _).
    rewrite <- (cr_heads _ _ Hrel) in H6. rewrite <- (cr_dimension _ _ Hrel) in H7.
    change (views_match alive ks vs = true) in H5. change (dim ks 1 = cu_keyValueHeads d) in H6.
    change (dim ks 2 = cu_headDimension d) in H7. rewrite H5, H6, H7, !Z.eqb_refl in H.
    cbn in H. rewrite !orb_false_r in H. apply Z.leb_le in H. apply lookup_lt_Some in Hl. lia. }
  rewrite !orb_false_iff, !negb_false_iff, !Z.eqb_eq, Z.leb_gt in H. destruct H as (((Hl & Hm) & Hd1) & Hd2).
  destruct (lookup_lt_is_Some_2 (cu_layers d) (Z.to_nat layer) ltac:(lia)) as [l Hlk]. rewrite Hlk.
  destruct (Forall2_lookup_l _ _ _ _ _ (cr_layers _ _ Hrel) Hlk) as (hl & Hhl & Hlr).
  pose proof (device_guards l hl Hm Hd1 Hd2 Hlk Hhl (lr_tokens _ _ _ _ Hlr)) as Hacc.
  destruct (dim_pos _ _ _ _ Hks Hm) as (Hp0 & _ & _). pose proof (lr_capacity _ _ _ _ Hlr) as Hcap.
  pose proof (lr_tokens _ _ _ _ Hlr) as Htok. rewrite (cr_maximum _ _ Hrel) in Hacc |- *.
  rewrite (wrap64_small (_ - _)) by (unfold is_u64; lia). wp_step. wp_step.
  { left. split; [done|]. split; [|done]. intros [-> ?]%Hacc. rewrite Z.eqb_refl in H. cbn in H.
    apply Z.ltb_lt in H. lia. }
  rewrite orb_false_iff, negb_false_iff, Z.eqb_eq, Z.ltb_ge in H. destruct H as [-> Hfit].
  assert (accepts alive h layer (lt_tokens l) (on_host ks) (on_host vs)) as Hok by (apply Hacc; lia).
  rewrite wrap64_small by (unfold is_u64; lia). clear Hacc.
  destruct (wp_result _ _ _ _ (wp_kv_append alive mem h layer (lt_tokens l) (on_host ks) (on_host vs) b b' Hwf Hlayer
    (on_host_wf _ _ Hks) (on_host_wf _ _ Hvs))) as [(? & ? & _ & _ & Hwf' & hl' & Hhl' & ->)|(? & ? & _ & Hn & _)];
    [|done]. assert (hl' = hl) as -> by congruence. clear Hhl'.
  pose proof (accepts_rows _ _ _ _ _ _ _ _ Hok (on_host_wf _ _ Hks) (on_host_wf _ _ Hvs)) as Hrows.
  assert (forall d1 l1, cache_rel d1 h -> cu_layers d1 !! Z.to_nat layer = Some l1 -> lt_tokens l1 = lt_tokens l ->
    layer_only (Z.to_nat layer) d d1 -> lt_tokens l + dim ks 0 <= lt_capacity l1 ->
    wp (write_rows mem copyTensor (Z.to_nat layer) (lt_tokens l * cu_keyValueHeads d * cu_headDimension d) (lt_tokens l) (lt_tokens l + dim ks 0) ks vs) d1
      (fun _ => appended_to (lt_tokens l)) (append_failed (lt_tokens l))) as Hwrite.
  { intros d1 l1 Hr1 Hlk1 Ht1 [l0 Hd0] Hc1. rewrite <- Ht1 in Hc1. pose proof (write_spec (Z.to_nat layer) d1 l1 hl Hr1 Hlk1 Hhl Hrows Hc1 Hwf') as Hw.
    cbv zeta in Hw. rewrite Ht1 in Hw. eapply wp_mono; [exact Hw| |].
    - intros u d' Hd'. split; [done|]. intros hl2 Hhl2. assert (hl2 = hl) as -> by congruence. exact Hd'.
    - intros e d' (Hr' & [l2 ->] & He). right. split; [exact Hok|]. split; [exact Hr'|]. split; [|exact He].
      exists l2. by rewrite Hd0, set_tensors_twice. }
  wp_step. destruct (Z.ltb_spec (lt_capacity l) (lt_tokens l + dim ks 0)) as [Hgrow|Hroom].
  - wp_step. apply wp_lift.
    pose proof (expand_spec allocateTensor copyTensor Halloc Hcopy d h Hrel l hl (lt_tokens l + dim ks 0) Hlr ltac:(lia) ltac:(lia)) as He.
    destruct (expand _ _ _ _ _) as [l'|e|]; [| |done].
    2:{ right. split; [done|]. split; [exact Hrel|]. split; [|exact He]. exists l. unfold set_tensors. rewrite list_insert_id by done. by destruct d. }
    destruct He as [Hlr' Hroom]. wp_step. apply (Hwrite _ l').
    + by apply (set_tensors_same _ _ _ _ hl).
    + cbn. by rewrite list_lookup_insert_eq by (by eapply lookup_lt_Some).
    + rewrite (lr_tokens _ _ _ _ Hlr'). done.
    + by eexists.
    + done.
  - wp_step. apply (Hwrite d l); try done. exists l. unfold set_tensors. rewrite list_insert_id by done. by destruct d.
Qed.
End append.

(** The device reports what the host does, unless a copy or an allocation fails. *)
Definition snapshot_as (allocateTensor : bool -> Z -> result (list Z)) copyTensor (device host : result KVCacheSnapshot) : Prop :=
  match device with
  | Ok s => host = Ok s
  | Throw e => backend_throws allocateTensor copyTensor e \/ exists e', host = Throw e' /\ kind_of e' = kind_of e
  | Diverge => False
  end.

Lemma snapshot_agrees hostTensor copyTensor d h layer :
  allocates hostTensor -> copies copyTensor -> cache_rel d h ->
  snapshot_as hostTensor copyTensor (cuda_snapshot copyTensor hostTensor layer d) (kv_snapshot layer h).
Proof.
  intros Hhost Hcopy Hrel. unfold snapshot_as, kv_snapshot, kv_layer, cuda_snapshot, cuda_layer.
  destruct (layers_ h !! Z.to_nat layer) as [hl|] eqn:Hhl.
  2: { apply lookup_ge_None in Hhl. rewrite <- (Forall2_length _ _ _ (cr_layers _ _ Hrel)) in Hhl.
       rewrite (lookup_ge_None_2 _ _ Hhl). cbn. right. by eexists. }
  destruct (Forall2_lookup_r _ _ _ _ _ (cr_layers _ _ Hrel) Hhl) as (l & -> & Hl). cbn [res_bind].
  pose proof (proj1 (Forall_lookup _ _) (cw_layers _ (cr_wf _ _ Hrel)) _ _ Hhl) as Hw.
  destruct (rel_row _ _ Hrel) as [Hrow Hrow1]. rewrite Hrow, (cr_heads _ _ Hrel), (cr_dimension _ _ Hrel).
  pose proof (lw_positions _ _ Hw) as Hpos. pose proof (lw_tokens _ _ Hw) as Htok.
  pose proof (lw_keys _ _ Hw) as Hkl. pose proof (lw_values _ _ Hw) as Hvl. destruct Hl.
  rewrite lr_first0. destruct (Z.eqb_spec (lt_tokens l) 0) as [Hz|Hz].
  { destruct hl as [[|] [|] [|]]; cbn in *; try lia. done. }
  rewrite lr_keys0, lr_values0. pose proof (rel_maximum _ _ Hrel) as Hmax.
  pose proof (Hhost true (lt_tokens l * row h)) as Ha. pose proof (Hhost false (lt_tokens l * row h)) as Hb.
  destruct (hostTensor true _) as [ks|e|] eqn:Hk; cbn [res_bind]; [|by left; left; eexists _, _|done].
  destruct (hostTensor false _) as [vs|e|] eqn:Hv; cbn [res_bind]; [|by left; left; eexists _, _|done].
  specialize (Ha ltac:(nia)). specialize (Hb ltac:(nia)).
  pose proof (copied_spec copyTensor Hcopy ReadKeys (keys hl) ks ltac:(nia)) as Hck.
  destruct (copied _ _ _ ks) as [ks'|e|]; cbn [res_bind]; [|by left; right|done].
  pose proof (copied_spec copyTensor Hcopy ReadValues (values hl) vs ltac:(nia)) as Hcv.
  destruct (copied _ _ _ vs) as [vs'|e|]; cbn [res_bind]; [|by left; right|done].
  destruct Hck as [Hk1 Hk2], Hcv as [Hv1 Hv2].
  rewrite take_ge in Hk2, Hv2 by nia. subst ks' vs'. change 0 with (Z.of_nat 0). rewrite lr_tokens0.
  rewrite positions_from_seq, Nat2Z.id, <- Hpos by lia. done.
Qed.

Lemma empty_rel row maximum : 0 <= maximum -> layer_rel row maximum emptyTensors emptyLayer.
Proof. intros. constructor; cbn; lia || done. Qed.

Lemma reset_rel d h : cache_rel d h -> cache_rel (snd (cuda_reset d)) (snd (kv_reset h)).
Proof.
  intros []. constructor; cbn; try done; [by apply reset_wf|].
  apply Forall2_fmap. eapply Forall2_impl; [done|]. intros ? ? _. apply empty_rel.
  destruct (cw_dims _ cr_wf0). lia.
Qed.

Lemma clear_rel d h layer :
  cache_rel d h ->
  (fst (kv_clear layer h) = Ok tt /\ fst (cuda_clear layer d) = Ok tt \/
   exists e e', fst (kv_clear layer h) = Throw e /\ fst (cuda_clear layer d) = Throw e' /\ kind_of e' = kind_of e) /\
  cache_rel (snd (cuda_clear layer d)) (snd (kv_clear layer h)).
Proof.
  intros Hrel. unfold kv_clear, cuda_clear, kv_layer, cuda_layer, st_bind, st_get, lift, modify. cbn.
  destruct (layers_ h !! Z.to_nat layer) as [hl|] eqn:Hhl; cbn.
  - destruct (Forall2_lookup_r _ _ _ _ _ (cr_layers _ _ Hrel) Hhl) as (l & Hl & _). rewrite Hl. cbn.
    split; [by left|]. destruct Hrel. constructor; cbn; try done.
    + apply set_layer_wf; [done|by apply emptyLayer_wf].
    + apply Forall2_insert; [done|]. apply empty_rel. destruct (cw_dims _ cr_wf0). lia.
  - apply lookup_ge_None in Hhl. rewrite <- (Forall2_length _ _ _ (cr_layers _ _ Hrel)) in Hhl.
    rewrite (lookup_ge_None_2 _ _ Hhl). cbn. split; [right; by eexists _, _|done].
Qed.

Lemma new_rel usable layers sequence heads dimension d :
  is_u64 layers -> is_u64 sequence -> is_u64 heads -> is_u64 dimension ->
  newCudaKVCache usable layers sequence heads dimension = Ok d ->
  exists h, newKVCache layers sequence heads dimension = Ok h /\ cache_rel d h.
Proof.
  intros H1 H2 H3 H4 H. unfold newCudaKVCache in H. destruct usable; [|done]. cbn in H.
  destruct (newKVCache layers sequence heads dimension) as [h| |] eqn:Hn; [|done|done]. injection H as <-.
  exists h. split; [done|]. pose proof (newKVCache_wf _ _ _ _ _ H1 H2 H3 H4 Hn) as Hwf.
  unfold newKVCache in Hn. destruct (checkedCacheBytes _ _ _ _); [|done|done]. injection Hn as <-.
  constructor; cbn; try done. destruct (cw_dims _ Hwf) as [Hd _]. cbn in Hd.
  apply Forall2_replicate. apply empty_rel. lia.
Qed.

(** The memory of the device tensors stays within the reservation of the session. *)
Lemma cuda_usage_bound d h :
  cache_rel d h ->
  exists n, cuda_memoryUsageBytes d = Ok n /\
    0 <= n <= session_bytes (Z.of_nat (length (layers_ h))) (maximumSequenceLength_ h) (keyValueHeads_ h) (headDimension_ h).
Proof.
  intros Hrel. destruct (rel_row _ _ Hrel) as [_ Hrow1]. pose proof (cw_bytes _ (cr_wf _ _ Hrel)) as Hmax.
  assert (forall ls bytes, Forall (fun l => 0 <= tensors_bytes l <= maximumSequenceLength_ h * (8 + 8 * row h)) ls ->
    0 <= bytes -> bytes + Z.of_nat (length ls) * (maximumSequenceLength_ h * (8 + 8 * row h)) <= u64_max ->
    exists n, usage_loop bytes ls = Ok n /\
      bytes <= n <= bytes + Z.of_nat (length ls) * (maximumSequenceLength_ h * (8 + 8 * row h))) as Hloop.
  { induction ls as [|l ls IH]; intros bytes Hls Hb Hm; cbn [usage_loop]; [exists bytes; split; [done|cbn; lia]|].
    apply Forall_cons in Hls as [Hl Hls]. cbn [length] in *. rewrite Nat2Z.inj_succ, Z.mul_succ_l in *.
    assert (0 <= Z.of_nat (length ls) * (maximumSequenceLength_ h * (8 + 8 * row h))) by nia.
    destruct (Z.ltb_spec (u64_max - tensors_bytes l) bytes); [lia|]. cbn [throw_if res_bind].
    rewrite wrap64_small by (unfold is_u64; lia).
    destruct (IH (bytes + tensors_bytes l) Hls) as (n & -> & ?); [lia|lia|]. exists n. split; [done|lia]. }
  destruct (Hloop (cu_layers d) 0) as (n & Hn & ?).
  - apply Forall_forall. intros l [i Hi]%list_elem_of_lookup_1.
    destruct (Forall2_lookup_l _ _ _ _ _ (cr_layers _ _ Hrel) Hi) as (hl & _ & []).
    unfold tensors_bytes. destruct (cw_dims _ (cr_wf _ _ Hrel)) as (? & _). nia.
  - lia.
  - rewrite (Forall2_length _ _ _ (cr_layers _ _ Hrel)). unfold session_bytes in Hmax. unfold row. lia.
  - exists n. split; [exact Hn|]. rewrite (Forall2_length _ _ _ (cr_layers _ _ Hrel)) in *.
    unfold session_bytes, row in *. lia.
Qed.

(** C23: The device cache refines the host cache.  From related caches, an append of the same
    rows that returns on the device is accepted by the host and leaves related caches; if
    the host refuses it the device refuses it too, with both caches unchanged; and if the
    host accepts it the device fails only with what its backend throws from an allocation
    or a copy.  Such a failure may leave grown tensors and part of the new rows behind in
    the tensors of the layer, but no token: the device cache still stands for the host
    cache before the append.  A snapshot of the device that returns is the host's, and
    fails otherwise like the host or with what an allocation or a copy throws. *)
Theorem device_cache_refines alive mem allocateTensor copyTensor hostTensor d h layer first ks vs b b'
    (Halloc : allocates allocateTensor) (Hcopy : copies copyTensor) (Hhost : allocates hostTensor)
    (Hrel : cache_rel d h) (Hlayer : 0 <= layer) (Hks : view_wf b ks) (Hvs : view_wf b' vs) :
  let host := kv_append alive mem layer first (on_host ks) (on_host vs) h in
  let device := cuda_append alive mem allocateTensor copyTensor layer first ks vs d in
  (fst device = Ok tt /\ fst host = Ok tt /\ cache_rel (snd device) (snd host) \/
   snd device = d /\ snd host = h /\ (exists e e', fst device = Throw e /\ fst host = Throw e' /\
      kind_of e = InvalidArgument /\ kind_of e' = InvalidArgument) \/
   fst host = Ok tt /\ cache_rel (snd device) h /\ layer_only (Z.to_nat layer) d (snd device) /\
      exists e, fst device = Throw e /\ backend_throws allocateTensor copyTensor e) /\
  (forall layer, snapshot_as hostTensor copyTensor (cuda_snapshot copyTensor hostTensor layer d) (kv_snapshot layer h)).
Proof.
  cbv zeta. split; [|intros l; by apply snapshot_agrees].
  pose proof (wp_result _ _ _ _ (wp_kv_append alive mem h layer first (on_host ks) (on_host vs) b b'
    (cr_wf _ _ Hrel) Hlayer (on_host_wf _ _ Hks) (on_host_wf _ _ Hvs))) as Hh.
  destruct (wp_result _ _ _ _ (wp_cuda_append alive mem allocateTensor copyTensor Halloc Hcopy d h layer first ks vs b b'
    Hrel Hlayer Hks Hvs)) as [([] & d' & -> & Ha & Hd)|(e & d' & -> & Hd)];
    destruct Hh as [([] & h' & -> & Ha' & Hwf & hl & Hl & ->)|(e' & h' & -> & Hn & -> & Hk)].
  - left. cbn. auto.
  - done.
  - right. right. destruct Hd as [(_ & ? & _)|(_ & Hr & Ho & He)]; [done|]. cbn. split_and!; [done..|]. by exists e.
  - destruct Hd as [(-> & _ & Hk')|[? _]]; [|done]. right. left. cbn. split_and!; [done..|]. by exists e, e'.
Qed.

Definition sample_alloc (b : bool) (n : Z) : result (list Z) := Ok (replicate (Z.to_nat n) 99).
Definition sample_device : CudaKVCache := mkCuda 4 1 2 [emptyTensors; emptyTensors].

Lemma sample_alloc_ok : allocates sample_alloc.
Proof. intros b n Hn. rewrite length_replicate. lia. Qed.

Lemma sample_rel : cache_rel sample_device sample_cache.
Proof.
  destruct (new_rel true 2 4 1 2 sample_device) as (h & Hh & Hrel); [unfold is_u64, u64_max; lia..| |].
  - vm_compute. reflexivity.
  - rewrite sample_cache_new in Hh. injection Hh as <-. exact Hrel.
Qed.

(** Copies that work, and copies whose write of the values fails half way. *)
Definition sample_copy (call : CopyCall) (source range : list Z) : option exn * list Z := (None, source).
Definition lost_device : exn := Exn RuntimeError "cudaMemcpyAsync failed".
Definition faulty_copy (call : CopyCall) (source range : list Z) : option exn * list Z :=
  match call with WriteValues => (Some lost_device, range) | _ => (None, source) end.

Lemma sample_copy_ok : copies sample_copy.
Proof. by intros call source range H. Qed.
Lemma faulty_copy_ok : copies faulty_copy.
Proof. intros call source range H. by destruct call. Qed.

Definition sample_device_append copyTensor : result unit * CudaKVCache :=
  cuda_append sample_alive id sample_alloc copyTensor 1 0 (sample_view 1 4096) (sample_view 2 8192) sample_device.

Lemma sample_device_appended :
  sample_device_append sample_copy =
  (Ok tt, mkCuda 4 1 2 [emptyTensors; mkTensors [4096; 4100; 4104; 4108] [8192; 8196; 8200; 8204] 2 2 0]).
Proof. vm_compute. reflexivity. Qed.

(** The capacity has grown and the keys are written, but there is no token. *)
Lemma sample_device_failed :
  sample_device_append faulty_copy =
  (Throw lost_device, mkCuda 4 1 2 [emptyTensors; mkTensors [4096; 4100; 4104; 4108] [99; 99; 99; 99] 0 2 0]).
Proof. vm_compute. reflexivity. Qed.

Lemma device_cache_refines_witness :
  cache_rel (snd (sample_device_append faulty_copy)) sample_cache /\
  fst (kv_append sample_alive id 1 0 (on_host (sample_view 1 4096)) (on_host (sample_view 2 8192)) sample_cache) = Ok tt.
Proof.
  split.
  - destruct (device_cache_refines sample_alive id sample_alloc faulty_copy sample_alloc sample_device sample_cache 1 0
      (sample_view 1 4096) (sample_view 2 8192) _ _ sample_alloc_ok faulty_copy_ok sample_alloc_ok sample_rel ltac:(lia)
      (proj1 sample_view_wf) (proj2 sample_view_wf)) as [[(H & _)|[(H & _)|(_ & H & _)]] _];
      [|change (snd (sample_device_append faulty_copy) = sample_device) in H|exact H].
    + change (fst (sample_device_append faulty_copy) = Ok tt) in H. rewrite sample_device_failed in H. discriminate H.
    + rewrite H. exact sample_rel.
  - destruct (device_cache_refines sample_alive id sample_alloc sample_copy sample_alloc sample_device sample_cache 1 0
      (sample_view 1 4096) (sample_view 2 8192) _ _ sample_alloc_ok sample_copy_ok sample_alloc_ok sample_rel ltac:(lia)
      (proj1 sample_view_wf) (proj2 sample_view_wf)) as [[(_ & H & _)|[(_ & _ & e & e' & H & _)|(H & _)]] _];
      [exact H| |exact H].
    change (fst (sample_device_append sample_copy) = Throw e) in H. rewrite sample_device_appended in H. discriminate H.
Defined.
