(* ===== verification/KVCacheManager.v ===== *)
(** * The sessions of [KVCacheManager]

    [src/runtime/cache/KVCacheManager.cpp]: sessions are admitted against a byte
    budget, each reserving what a full cache would take.  The manager is written
    against the interface [KVCacheBase]; the host and the device cache implement it. *)

From S2P Require Import Prelude Tiers Tensor KVCache CudaKVCache.

(** ** The interface of a cache *)

Class KVCacheBase (C : Type) : Type := {
  (** [std::make_shared<...>(layerCount_, ...)] *)
  create : result C;
  memoryUsageBytes : C -> result Z;
  tokenCount : Z -> C -> result Z;
  maximumSequenceLength : C -> Z;
}.

(** What the manager relies on: a cache that was created, whatever its client did with
    it since, uses no more than a session reserves. *)
Class KVCacheLaws (C : Type) `{KVCacheBase C} (bytesPerSession : Z) : Type := {
  cache_ok : C -> Prop;
  create_ok : exists c, create = Ok c /\ cache_ok c;
  usage_ok c : cache_ok c -> exists n, memoryUsageBytes c = Ok n /\ 0 <= n <= bytesPerSession;
}.

(** ** The manager *)

Section manager.
Context {C : Type} `{!KVCacheBase C}.

Record KVCacheManager : Type := mkManager {
  km_memoryLimitBytes : Z;
  km_bytesPerSession : Z;
  km_peakCommittedBytes : Z;
  km_reservedBytes : Z;
  km_nextSessionId : Z;
  km_sessions : gmap Z C;
}.

Record KVCacheManagerStats : Type := mkStats {
  st_activeSessions : Z;
  st_committedBytes : Z;
  st_reservedBytes : Z;
  st_peakCommittedBytes : Z;
  st_memoryLimitBytes : Z;
}.

(** The constructor; [backend] tells of a backend whether it is an available CUDA one. *)
Definition newManager (layerCount maximumSequenceLength keyValueHeads headDimension memoryLimitBytes : Z)
    (backend : option bool) : result KVCacheManager :=
  (throw_if (bool_decide (backend = Some false))
     (Exn InvalidArgument "KV cache manager device backend must be available CUDA") ;;?
   prototype <-? newKVCache layerCount maximumSequenceLength keyValueHeads headDimension ;;
   bytesPerSession <-? kv_maximumMemoryUsageBytes prototype ;;
   throw_if ((memoryLimitBytes =? 0) || (memoryLimitBytes <? bytesPerSession))
     (Exn InvalidArgument "KV cache memory limit cannot hold one maximum-length session") ;;?
   Ok (mkManager memoryLimitBytes bytesPerSession 0 0 1 ∅))%res.

Definition set_nextSessionId (n : Z) (m : KVCacheManager) : KVCacheManager :=
  mkManager (km_memoryLimitBytes m) (km_bytesPerSession m) (km_peakCommittedBytes m)
    (km_reservedBytes m) n (km_sessions m).
Definition set_reservedBytes (n : Z) (m : KVCacheManager) : KVCacheManager :=
  mkManager (km_memoryLimitBytes m) (km_bytesPerSession m) (km_peakCommittedBytes m)
    n (km_nextSessionId m) (km_sessions m).
Definition set_sessions (f : gmap Z C -> gmap Z C) (m : KVCacheManager) : KVCacheManager :=
  mkManager (km_memoryLimitBytes m) (km_bytesPerSession m) (km_peakCommittedBytes m)
    (km_reservedBytes m) (km_nextSessionId m) (f (km_sessions m)).
Definition set_peakCommittedBytes (n : Z) (m : KVCacheManager) : KVCacheManager :=
  mkManager (km_memoryLimitBytes m) (km_bytesPerSession m) n
    (km_reservedBytes m) (km_nextSessionId m) (km_sessions m).

Definition allocateSession : ST KVCacheManager (Z * C * Z) :=
  (m <- st_get ;;
   lift (throw_if (wrap64 (km_memoryLimitBytes m - km_bytesPerSession m) <? km_reservedBytes m)
     (Exn RuntimeError "KV cache memory limit is exhausted")) ;;;
   lift (throw_if (km_nextSessionId m =? 0)
     (Exn OverflowError "KV cache session ID space is exhausted")) ;;;
   let sessionId := km_nextSessionId m in
   modify (set_nextSessionId (wrap64 (sessionId + 1))) ;;;
   cache <- lift create ;;
   lift (throw_if (bool_decide (is_Some (km_sessions m !! sessionId)))
     (Exn LogicError "KV cache session ID collision")) ;;;
   modify (set_sessions (insert sessionId cache)) ;;;
   modify (fun m => set_reservedBytes (wrap64 (km_reservedBytes m + km_bytesPerSession m)) m) ;;;
   ret (sessionId, cache, km_bytesPerSession m))%st.

Definition releaseSession (sessionId : Z) : ST KVCacheManager unit :=
  (m <- st_get ;;
   lift (throw_if (bool_decide (km_sessions m !! sessionId = None))
     (Exn OutOfRange "KV cache session is not active")) ;;;
   modify (set_sessions (delete sessionId)) ;;;
   modify (fun m => set_reservedBytes (wrap64 (km_reservedBytes m - km_bytesPerSession m)) m))%st.

(** The sum over the sessions, in the order of the container. *)
Fixpoint committed_loop (committed : Z) (caches : list C) : result Z :=
  match caches with
  | [] => Ok committed
  | cache :: caches =>
      (bytes <-? memoryUsageBytes cache ;;
       throw_if (u64_max - bytes <? committed)
         (Exn OverflowError "KV cache committed-byte accounting overflows") ;;?
       committed_loop (wrap64 (committed + bytes)) caches)%res
  end.

Definition manager_stats : ST KVCacheManager KVCacheManagerStats :=
  (m <- st_get ;;
   committed <- lift (committed_loop 0 (map_to_list (km_sessions m)).*2) ;;
   (if km_peakCommittedBytes m <? committed then modify (set_peakCommittedBytes committed) else ret tt) ;;;
   peak <- gets km_peakCommittedBytes ;;
   ret (mkStats (Z.of_nat (size (km_sessions m))) committed (km_reservedBytes m) peak
          (km_memoryLimitBytes m)))%st.

(** ** The budget *)

Context (bytes : Z) `{!KVCacheLaws C bytes}.

(** A session's client holds the cache itself: what it does to it happens in the map. *)
Inductive manager_step : KVCacheManager -> KVCacheManager -> Prop :=
  | ms_allocate m : manager_step m (snd (allocateSession m))
  | ms_release m id : manager_step m (snd (releaseSession id m))
  | ms_stats m : manager_step m (snd (manager_stats m))
  | ms_client m id c c' :
      km_sessions m !! id = Some c -> cache_ok c' ->
      manager_step m (set_sessions (insert id c') m).

Record manager_inv (m : KVCacheManager) : Prop := ManagerInv {
  km_bytes : km_bytesPerSession m = bytes /\ 1 <= bytes <= km_memoryLimitBytes m;
  km_limit : km_memoryLimitBytes m <= u64_max;
  km_reserved : km_reservedBytes m = Z.of_nat (size (km_sessions m)) * bytes;
  km_budget : km_reservedBytes m <= km_memoryLimitBytes m;
  km_caches : map_Forall (fun _ c => cache_ok c) (km_sessions m);
  km_ids : km_nextSessionId m = 0 \/
    (1 <= km_nextSessionId m <= u64_max /\ forall id, is_Some (km_sessions m !! id) -> 1 <= id < km_nextSessionId m);
}.

Definition new_manager_inv m := manager_inv m /\ km_sessions m = ∅.

Lemma committed_loop_spec caches committed :
  Forall cache_ok caches -> 0 <= committed ->
  committed + Z.of_nat (length caches) * bytes <= u64_max ->
  exists n, committed_loop committed caches = Ok n /\ committed <= n <= committed + Z.of_nat (length caches) * bytes.
Proof.
  intros Hc. revert committed. induction Hc as [|c caches Hc Hcs IH]; intros committed H0 Hm; cbn [committed_loop].
  - exists committed. split; [done|]. cbn. lia.
  - destruct (usage_ok c Hc) as (n & -> & Hn). cbn [res_bind length] in *.
    rewrite Nat2Z.inj_succ, Z.mul_succ_l in *. assert (0 <= Z.of_nat (length caches) * bytes) by nia.
    destruct (Z.ltb_spec (u64_max - n) committed); [lia|]. cbn [throw_if res_bind].
    rewrite wrap64_small by (unfold is_u64; lia).
    destruct (IH (committed + n)) as (r & -> & ?); [lia|lia|]. exists r. split; [done|lia].
Qed.

Lemma sessions_committed m :
  manager_inv m ->
  exists n, committed_loop 0 (map_to_list (km_sessions m)).*2 = Ok n /\ 0 <= n <= km_reservedBytes m.
Proof.
  intros []. destruct (committed_loop_spec (map_to_list (km_sessions m)).*2 0) as (n & -> & Hn).
  - apply Forall_fmap, Forall_forall. intros [id c] Hin%elem_of_map_to_list. by eapply km_caches0.
  - lia.
  - rewrite length_fmap, length_map_to_list. lia.
  - exists n. split; [done|]. rewrite length_fmap, length_map_to_list in Hn. lia.
Qed.

(** Admission: room in the budget, and an identifier left. *)
Lemma wp_allocateSession m :
  manager_inv m ->
  wp allocateSession m
    (fun '(id, c, reserved) m' => manager_inv m' /\ km_sessions m !! id = None /\
       km_sessions m' = <[id := c]> (km_sessions m) /\ reserved = bytes /\
       km_reservedBytes m' = km_reservedBytes m + bytes /\ cache_ok c /\ 1 <= id)
    (fun e m' => m' = m /\ (kind_of e = RuntimeError /\ km_memoryLimitBytes m < km_reservedBytes m + bytes \/
                            kind_of e = OverflowError /\ km_nextSessionId m = 0)).
Proof.
  intros []. destruct km_bytes0 as [Hb Hb']. unfold allocateSession. wp_step. wp_step. wp_step.
  rewrite Hb, wrap64_small by (unfold is_u64; lia). wp_step.
  { split; [done|left]. split; [done|]. apply Z.ltb_lt in H. lia. }
  apply Z.ltb_ge in H. wp_step. wp_step; [split; [done|right]; split; [done|by apply Z.eqb_eq]|].
  apply Z.eqb_neq in H0. destruct km_ids0 as [|[Hid Hids]]; [done|].
  wp_steps. apply wp_lift. destruct create_ok as (c & -> & Hc).
  assert (km_sessions m !! km_nextSessionId m = None) as Hnone.
  { destruct (km_sessions m !! km_nextSessionId m) eqn:Hs; [|done].
    destruct (Hids (km_nextSessionId m)); [by eexists|lia]. }
  rewrite Hnone. wp_step. wp_step; [done|]. wp_steps. cbn.
  rewrite Hb, (wrap64_small (km_reservedBytes m + bytes)) by (unfold is_u64; nia).
  split; [|by split_and!; try done; lia]. constructor; cbn.
  - done.
  - done.
  - rewrite map_size_insert_None by done. lia.
  - lia.
  - by apply map_Forall_insert_2.
  - destruct (decide (km_nextSessionId m = u64_max)) as [->|Hne]; [left; reflexivity|right].
    rewrite wrap64_small by (unfold is_u64; lia). split; [lia|].
    intros id. destruct (decide (id = km_nextSessionId m)) as [->|Hni]; [lia|].
    rewrite lookup_insert_ne by done. intros Hs%Hids. lia.
Qed.

Lemma wp_releaseSession m id :
  manager_inv m ->
  wp (releaseSession id) m
    (fun _ m' => manager_inv m' /\ is_Some (km_sessions m !! id) /\ km_sessions m' = delete id (km_sessions m) /\
       km_reservedBytes m' = km_reservedBytes m - bytes)
    (fun e m' => m' = m /\ km_sessions m !! id = None /\ kind_of e = OutOfRange).
Proof.
  intros []. destruct km_bytes0 as [Hb Hb']. unfold releaseSession. wp_step. wp_step. wp_step. wp_step.
  { apply bool_decide_eq_true in H. done. }
  apply bool_decide_eq_false in H. destruct (km_sessions m !! id) as [c|] eqn:Hc; [|done].
  assert (size (km_sessions m) = S (size (delete id (km_sessions m)))) as Hsize.
  { rewrite <- (insert_delete_id _ _ _ Hc) at 1. by rewrite map_size_insert_None by apply lookup_delete_eq. }
  wp_steps. cbn. rewrite Hb, wrap64_small by (unfold is_u64; nia).
  split; [|split; [by eexists|done]]. constructor; cbn; try done; [nia|lia|by apply map_Forall_delete|].
  destruct km_ids0 as [|[Hid Hids]]; [by left|right]. split; [done|].
  intros i [_ Hs]%lookup_delete_is_Some. by apply Hids.
Qed.

Lemma wp_manager_stats m :
  manager_inv m ->
  wp manager_stats m
    (fun st m' => manager_inv m' /\ km_sessions m' = km_sessions m /\
       st_activeSessions st = Z.of_nat (size (km_sessions m)) /\
       st_reservedBytes st = st_activeSessions st * bytes /\
       committed_loop 0 (map_to_list (km_sessions m)).*2 = Ok (st_committedBytes st) /\
       0 <= st_committedBytes st <= st_reservedBytes st /\ st_reservedBytes st <= st_memoryLimitBytes st /\
       st_peakCommittedBytes st = Z.max (km_peakCommittedBytes m) (st_committedBytes st))
    (fun _ _ => False).
Proof.
  intros Hinv. destruct (sessions_committed m Hinv) as (n & Hn & Hr). unfold manager_stats.
  wp_step. wp_step. wp_step. rewrite Hn. apply wp_lift. wp_step.
  assert (forall p, manager_inv (set_peakCommittedBytes p m)) as Hset by (destruct Hinv; by constructor).
  destruct Hinv. destruct (Z.ltb_spec (km_peakCommittedBytes m) n); wp_steps; cbn.
  - split; [apply Hset|]. split_and!; try done; lia.
  - split; [by constructor|]. split_and!; try done; lia.
Qed.

Lemma manager_step_inv m m' : manager_step m m' -> manager_inv m -> manager_inv m'.
Proof.
  intros [m1|m1 id|m1|m1 id c c' Hc Hok] Hinv.
  - destruct (wp_result _ _ _ _ (wp_allocateSession m1 Hinv)) as [([[i c] r] & m2 & -> & Hi & _)|(e & m2 & -> & -> & _)]; done.
  - destruct (wp_result _ _ _ _ (wp_releaseSession m1 id Hinv)) as [(u & m2 & -> & Hi & _)|(e & m2 & -> & -> & _)]; done.
  - destruct (wp_result _ _ _ _ (wp_manager_stats m1 Hinv)) as [(u & m2 & -> & Hi & _)|(e & m2 & -> & [])]; done.
  - assert (size (<[id := c']> (km_sessions m1)) = size (km_sessions m1)) as Hsize by (by rewrite map_size_insert_Some by (by eexists)).
    destruct Hinv. constructor; cbn; rewrite ?Hsize; try done; [by apply map_Forall_insert_2|].
    destruct km_ids0 as [|[Hid Hids]]; [by left|right]. split; [done|].
    intros i. destruct (decide (i = id)) as [->|Hne]; [intros _; apply Hids; by eexists|].
    rewrite lookup_insert_ne by done. apply Hids.
Qed.

(** C25: In every reachable state of a session manager, whatever its clients do with
    their caches, the reservation is the sessions times the size of a full one and
    within the limit, and what the caches use is within the reservation: [stats] never
    throws and reports it; a session is admitted exactly when a full cache still fits
    (and an identifier is left), under an identifier no session has; releasing gives
    its reservation back. *)
Theorem session_budget m0 m
    (Hinit : manager_inv m0) (Hrun : rtc manager_step m0 m) :
  (exists st m', manager_stats m = (Ok st, m') /\
     0 <= st_committedBytes st <= st_reservedBytes st /\
     st_reservedBytes st = st_activeSessions st * bytes /\
     st_reservedBytes st <= st_memoryLimitBytes st /\
     committed_loop 0 (map_to_list (km_sessions m)).*2 = Ok (st_committedBytes st)) /\
  ((exists id c m', allocateSession m = (Ok (id, c, bytes), m') /\ km_sessions m !! id = None /\
      km_sessions m' = <[id := c]> (km_sessions m) /\
      exists m'', releaseSession id m' = (Ok tt, m'') /\
        km_sessions m'' = km_sessions m /\ km_reservedBytes m'' = km_reservedBytes m) \/
   (exists e, allocateSession m = (Throw e, m) /\
      (km_memoryLimitBytes m < km_reservedBytes m + bytes \/ km_nextSessionId m = 0))).
Proof.
  assert (manager_inv m) as Hinv by (eapply rtc_preserves; [exact manager_step_inv|exact Hrun|exact Hinit]).
  split.
  - destruct (wp_result _ _ _ _ (wp_manager_stats m Hinv)) as [(st & m' & Hst & _ & _ & Ha & Hr & Hc & Hb & Hl & _)|(e & m2 & _ & [])].
    by exists st, m'.
  - destruct (wp_result _ _ _ _ (wp_allocateSession m Hinv)) as [([[i c] r] & m' & Hr & Hi & Hnone & Hs & -> & Hres & _)|(e & m' & Hr & -> & He)].
    + left. exists i, c, m'. split_and!; [done..|].
      destruct (wp_result _ _ _ _ (wp_releaseSession m' i Hi)) as [([] & m2 & Hr2 & _ & _ & Hs2 & Hres2)|(e & m2 & _ & _ & Hn & _)].
      * exists m2. split_and!; [done| |lia]. by rewrite Hs2, Hs, delete_insert_eq, delete_id.
      * rewrite Hs, lookup_insert_eq in Hn. done.
    + right. exists e. split; [done|]. destruct He as [[_ ?]|[_ ?]]; auto.
Qed.
End manager.
#[global] Arguments KVCacheManager C : clear implicits.

(** ** The two caches implement the interface *)

Section implementations.
Variables layers sequence heads dimension : Z.
Hypotheses (Hl : is_u64 layers) (Hs : is_u64 sequence) (Hh : is_u64 heads) (Hd : is_u64 dimension).

Definition hostCache : KVCacheBase KVCache :=
  {| create := newKVCache layers sequence heads dimension;
     memoryUsageBytes := fun c => Ok (kv_memoryUsageBytes c);
     tokenCount := kv_tokenCount;
     maximumSequenceLength := maximumSequenceLength_ |}.

Definition deviceCache : KVCacheBase CudaKVCache :=
  {| create := newCudaKVCache true layers sequence heads dimension;
     memoryUsageBytes := cuda_memoryUsageBytes;
     tokenCount := cuda_tokenCount;
     maximumSequenceLength := cu_maximumSequenceLength |}.

(** A cache of these dimensions. *)
Definition host_ok (c : KVCache) : Prop :=
  cache_wf c /\ Z.of_nat (length (layers_ c)) = layers /\ maximumSequenceLength_ c = sequence /\
  keyValueHeads_ c = heads /\ headDimension_ c = dimension.
Definition device_ok (d : CudaKVCache) : Prop := exists h, cache_rel d h /\ host_ok h.

(** The prototype of the manager's constructor was built. *)
Variables (prototype : KVCache) (bytes : Z).
Hypotheses (Hproto : newKVCache layers sequence heads dimension = Ok prototype)
           (Hbytes : kv_maximumMemoryUsageBytes prototype = Ok bytes).

Lemma prototype_ok : host_ok prototype.
Proof.
  split; [by apply (newKVCache_wf layers sequence heads dimension)|]. unfold newKVCache in Hproto.
  destruct (checkedCacheBytes _ _ _ _); [|done|done]. cbn in Hproto. injection Hproto as <-. cbn.
  rewrite length_replicate, Z2Nat.id by (unfold is_u64 in Hl; lia). done.
Qed.

Lemma bytes_session : bytes = session_bytes layers sequence heads dimension.
Proof.
  destruct prototype_ok as (_ & Hpl & Hps & Hph & Hpd). unfold kv_maximumMemoryUsageBytes in Hbytes.
  rewrite Hpl, Hps, Hph, Hpd in Hbytes.
  pose proof (checkedCacheBytes_spec layers sequence heads dimension Hl Hs Hh Hd) as H.
  rewrite Hbytes in H. apply H.
Qed.

Lemma host_ok_usage c : host_ok c -> 0 <= kv_memoryUsageBytes c <= bytes.
Proof.
  intros (Hwf & Hcl & Hcs & Hch & Hcd). destruct (usage_bound c Hwf) as [_ H].
  by rewrite Hcl, Hcs, Hch, Hcd, <- bytes_session in H.
Qed.

Lemma device_ok_usage d : device_ok d -> exists n, cuda_memoryUsageBytes d = Ok n /\ 0 <= n <= bytes.
Proof.
  intros (h & Hrel & _ & Hcl & Hcs & Hch & Hcd). destruct (cuda_usage_bound d h Hrel) as (n & Hn & H).
  rewrite Hcl, Hcs, Hch, Hcd, <- bytes_session in H. by exists n.
Qed.

Lemma device_created : exists d, newCudaKVCache true layers sequence heads dimension = Ok d /\ device_ok d.
Proof.
  destruct (newCudaKVCache true layers sequence heads dimension) as [d|e|] eqn:Hd'.
  - exists d. split; [done|]. destruct (new_rel _ _ _ _ _ _ Hl Hs Hh Hd Hd') as (h & Hh' & Hrel).
    exists h. split; [done|]. rewrite Hproto in Hh'. injection Hh' as <-. exact prototype_ok.
  - unfold newCudaKVCache in Hd'. rewrite Hproto in Hd'. done.
  - unfold newCudaKVCache in Hd'. rewrite Hproto in Hd'. done.
Qed.

Definition hostCache_laws : @KVCacheLaws KVCache hostCache bytes :=
  @Build_KVCacheLaws KVCache hostCache bytes host_ok
    (ex_intro _ prototype (conj Hproto prototype_ok))
    (fun c Hc => ex_intro _ (kv_memoryUsageBytes c) (conj eq_refl (host_ok_usage c Hc))).

Definition deviceCache_laws : @KVCacheLaws CudaKVCache deviceCache bytes :=
  @Build_KVCacheLaws CudaKVCache deviceCache bytes device_ok device_created device_ok_usage.
End implementations.

(** The constructor establishes the invariant, for either kind of cache. *)
Lemma newManager_inv {C} `{!KVCacheBase C} layers sequence heads dimension limit backend (m : KVCacheManager C) bytes
    `{!KVCacheLaws C bytes} :
  is_u64 layers -> is_u64 sequence -> is_u64 heads -> is_u64 dimension -> is_u64 limit ->
  newManager layers sequence heads dimension limit backend = Ok m ->
  km_bytesPerSession m = bytes -> manager_inv bytes m.
Proof.
  intros Hl Hs Hh Hd Hlim H Hb. unfold newManager in H. returned H. injection H as <-. cbn in Hb. subst bytes.
  apply orb_false_iff in G0 as [G0 G1]. apply Z.eqb_neq in G0. apply Z.ltb_ge in G1.
  pose proof (prototype_ok layers sequence heads dimension Hl Hs Hh Hd a a0 R R0) as Hok.
  pose proof (bytes_session layers sequence heads dimension Hl Hs Hh Hd a a0 R R0) as Hbs.
  destruct Hok as (Hwf & Hcl & Hcs & Hch & Hcd). destruct (cw_dims _ Hwf) as (? & ? & ?).
  pose proof (cache_layers_pos _ Hwf) as Hpos.
  destruct (session_bytes_layers _ _ _ _ Hpos H H0 H1) as [Hb1 _]. rewrite Hcl, Hcs, Hch, Hcd, <- Hbs in Hb1.
  unfold is_u64 in Hlim. constructor; cbn; rewrite ?map_size_empty.
  - split; [done|]. lia.
  - lia.
  - lia.
  - lia.
  - apply map_Forall_empty.
  - right. split; [unfold u64_max; lia|]. intros id. rewrite lookup_empty. by intros [? ?].
Qed.

(** Witness: a budget of two sessions of the sample host cache. *)
Definition sample_manager : KVCacheManager KVCache := mkManager 400 192 0 0 1 ∅.

Lemma sample_manager_new : newManager 2 4 1 2 400 None = Ok sample_manager.
Proof. vm_compute. reflexivity. Qed.

Lemma sample_bytes : kv_maximumMemoryUsageBytes sample_cache = Ok 192.
Proof. vm_compute. reflexivity. Qed.

Lemma two : is_u64 2 /\ is_u64 4 /\ is_u64 1 /\ is_u64 400.
Proof. unfold is_u64, u64_max. lia. Qed.

#[local] Instance sample_hostCache : KVCacheBase KVCache := hostCache 2 4 1 2.
#[local] Instance sample_laws : KVCacheLaws KVCache 192 :=
  hostCache_laws 2 4 1 2 (proj1 two) (proj1 (proj2 two)) (proj1 (proj2 (proj2 two))) (proj1 two)
    sample_cache 192 sample_cache_new sample_bytes.

Lemma sample_manager_inv : manager_inv 192 sample_manager.
Proof.
  destruct two as (H2 & H4 & H1 & H400).
  by apply (newManager_inv 2 4 1 2 400 None); [..|apply sample_manager_new|].
Qed.

Definition sample_session : KVCacheManager KVCache := mkManager 400 192 0 192 2 {[1 := sample_cache]}.

Lemma sample_allocated : allocateSession sample_manager = (Ok (1, sample_cache, 192), sample_session).
Proof. vm_compute. reflexivity. Qed.

Lemma sample_run : rtc (manager_step 192) sample_manager sample_session.
Proof.
  apply rtc_once. pose proof (ms_allocate 192 sample_manager) as H. by rewrite sample_allocated in H.
Qed.

Lemma session_budget_witness :
  manager_inv 192 sample_manager /\ rtc (manager_step 192) sample_manager sample_session /\
  exists st m', manager_stats sample_session = (Ok st, m') /\
    0 <= st_committedBytes st <= st_reservedBytes st.
Proof.
  split; [exact sample_manager_inv|]. split; [exact sample_run|].
  destruct (session_budget 192 sample_manager sample_session sample_manager_inv sample_run)
    as [(st & m' & H1 & H2 & _) _].
  exists st, m'. split; [exact H1|exact H2].
Defined.
