(* ===== verification/Sampling.v ===== *)
(** * Choosing a token from the logits

    [src/generation/LogitsProcessor.cpp] (temperature, top-k, top-p) and
    [Sampler.cpp] (greedy and seeded stochastic sampling).  A logit is a binary32
    number; [std::exp] is the C library's and a parameter, of which the contract
    uses that it is not negative.  [std::mt19937_64] is the standard's engine. *)

From S2P Require Import Prelude Float.
From Stdlib Require Import SpecFloat.

(** ** The random engine of the standard *)

Module Mt19937_64.
Definition n : nat := 312.
Definition m : nat := 156.
Definition upper : Z := 18446744071562067968.
Definition lower : Z := 2147483647.

Fixpoint seed_loop (count : nat) (i previous : Z) : list Z :=
  match count with
  | O => []
  | S count =>
      let x := wrap64 (6364136223846793005 * Z.lxor previous (Z.shiftr previous 62) + i) in
      x :: seed_loop count (i + 1) x
  end.
Definition seeded (value : Z) : list Z := wrap64 value :: seed_loop (n - 1) 1 (wrap64 value).

Definition tempered (z : Z) : Z :=
  let z := Z.lxor z (Z.land (Z.shiftr z 29) 6148914691236517205) in
  let z := Z.lxor z (Z.land (wrap64 (Z.shiftl z 17)) 8202884508482404352) in
  let z := Z.lxor z (Z.land (wrap64 (Z.shiftl z 37)) 18444473444759240704) in
  Z.lxor z (Z.shiftr z 43).

(** The state is the last [n] words of the recurrence. *)
Definition next (state : list Z) : Z * list Z :=
  let y := Z.lor (Z.land (nth 0 state 0) upper) (Z.land (nth 1 state 0) lower) in
  let x := Z.lxor (Z.lxor (nth m state 0) (Z.shiftr y 1)) (if Z.odd y then 13043109905998158313 else 0) in
  (tempered x, drop 1 state ++ [x]).
End Mt19937_64.

(** ** The configuration *)

Inductive SamplingStrategy : Type := Greedy | Stochastic.
#[global] Instance SamplingStrategy_eq_dec : EqDecision SamplingStrategy.
Proof. solve_decision. Defined.

Record SamplingConfig : Type := mkSampling {
  strategy : SamplingStrategy;
  temperature : f32;
  topK : Z;
  topP : f32;
  seed : Z;
}.

Definition f32_one : f32 := Eval vm_compute in f32_of_Z 1.

(** The strategy is an enumerator of its type. *)
Definition sampling_validate (c : SamplingConfig) (vocabularySize : Z) : result unit :=
  throw_if ((vocabularySize =? 0) || negb (isfinite (temperature c)) || fle (temperature c) f32_zero ||
            (negb (topK c =? 0) && (vocabularySize <? topK c)) || negb (isfinite (topP c)) ||
            fle (topP c) f32_zero || fgt (topP c) f32_one)
    (Exn InvalidArgument "sampling configuration is invalid").

Definition check_finite (logits : list f32) : result unit :=
  throw_if (existsb (fun value => negb (isfinite value)) logits)
    (Exn InvalidArgument "sampler requires finite logits").

(** ** The distribution *)

Section processor.
Variable exp : f64 -> f64.

Definition logit (logits : list f32) (index : nat) : f32 := nth index logits f32_zero.
Definition greater (logits : list f32) (left right : nat) : bool := fgt (logit logits left) (logit logits right).

Definition ranking (logits : list f32) : list nat := stable_sort (greater logits) (seq 0 (length logits)).

Definition retained_count (c : SamplingConfig) (logits : list f32) : nat :=
  if topK c =? 0 then length logits else Z.to_nat (topK c).

Definition scale_of (c : SamplingConfig) : f64 :=
  match strategy c with Stochastic => f64_of_f32 (temperature c) | Greedy => f64_one end.

(** The loop over the retained ranks: the unnormalised values and their total. *)
Definition exp_step (value : nat -> f64) (acc : list f64 * f64) (index : nat) : list f64 * f64 :=
  let p := exp (value index) in (<[index := p]> acc.1, f64_add acc.2 p).

Definition softmax (c : SamplingConfig) (logits : list f32) (ranks : list nat) : result (list f64) :=
  let scale := scale_of c in
  let maximum := f64_div (f64_of_f32 (logit logits (nth 0 ranks 0%nat))) scale in
  let value index := f64_sub (f64_div (f64_of_f32 (logit logits index)) scale) maximum in
  let '(values, total) := foldl (exp_step value) (replicate (length logits) f64_zero, f64_zero) ranks in
  (throw_if (negb (isfinite total) || fle total f64_zero)
     (Exn RuntimeError "logits softmax normalization failed") ;;?
   Ok ((fun p => f64_div p total) <$> values))%res.

(** The smallest number of ranks whose probabilities reach [topP]. *)
Fixpoint keep_loop (bound : f64) (probabilities : list f64) (ranks : list nat) (cumulative : f64) (keep : nat) : nat :=
  match ranks with
  | [] => keep
  | index :: ranks =>
      let cumulative := f64_add cumulative (nth index probabilities f64_zero) in
      if fge cumulative bound then S keep else keep_loop bound probabilities ranks cumulative (S keep)
  end.

Definition zero_out (probabilities : list f64) (ranks : list nat) : list f64 :=
  foldl (fun l index => <[index := f64_zero]> l) probabilities ranks.

Definition nucleus (c : SamplingConfig) (probabilities : list f64) (ranks : list nat) : list f64 :=
  if flt (topP c) f32_one then
    let keep := Nat.max 1 (keep_loop (f64_of_f32 (topP c)) probabilities ranks f64_zero 0) in
    let kept := zero_out probabilities (drop keep ranks) in
    let keptTotal := foldl f64_add f64_zero kept in
    (fun p => f64_div p keptTotal) <$> kept
  else probabilities.

Definition probabilities (logits : list f32) (c : SamplingConfig) : result (list f64) :=
  (sampling_validate c (Z.of_nat (length logits)) ;;?
   check_finite logits ;;?
   let ranks := take (retained_count c logits) (ranking logits) in
   p <-? softmax c logits ranks ;;
   Ok (nucleus c p ranks))%res.

(** ** The sampler *)

Record Sampler : Type := mkSampler { config_ : SamplingConfig; random_ : list Z }.
Definition newSampler (c : SamplingConfig) : Sampler := mkSampler c (Mt19937_64.seeded (seed c)).

(** [static_cast<double>(random_() >> 11U) / denominator] *)
Definition draw : ST Sampler f64 :=
  fun s => let '(word, state) := Mt19937_64.next (random_ s) in
           (Ok (f64_div (f64_of_Z (Z.shiftr word 11)) (f64_of_Z 9007199254740992)), mkSampler (config_ s) state).

(** [std::max_element]: the first of the largest. *)
Definition argmax (logits : list f32) : nat :=
  default 0%nat (scan_min (greater logits) (seq 0 (length logits))).

Fixpoint select_loop (u cumulative : f64) (last index : nat) (probabilities : list f64) : nat :=
  match probabilities with
  | [] => last
  | p :: probabilities =>
      let last := if fgt p f64_zero then index else last in
      let cumulative := f64_add cumulative p in
      if flt u cumulative then index else select_loop u cumulative last (S index) probabilities
  end.

Definition sample (logits : list f32) : ST Sampler Z :=
  (c <- gets config_ ;;
   lift (sampling_validate c (Z.of_nat (length logits))) ;;;
   lift (throw_if (u32_max <? Z.of_nat (length logits))
     (Exn InvalidArgument "sampler vocabulary exceeds token ID range")) ;;;
   match strategy c with
   | Greedy => lift (check_finite logits) ;;; ret (wrap32 (Z.of_nat (argmax logits)))
   | Stochastic =>
       p <- lift (probabilities logits c) ;;
       u <- draw ;;
       ret (wrap32 (Z.of_nat (select_loop u f64_zero 0 0 p)))
   end)%st.
End processor.

(** ** The ranking *)

Lemma ranking_perm logits : ranking logits ≡ₚ seq 0 (length logits).
Proof. apply stable_sort_perm. Qed.

Lemma ranking_nodup logits : NoDup (ranking logits).
Proof. rewrite ranking_perm. apply NoDup_seq. Qed.

Lemma ranking_lookup_lt logits r i : ranking logits !! r = Some i -> (i < length logits)%nat.
Proof.
  intros Hr%list_elem_of_lookup_2. rewrite ranking_perm, elem_of_seq in Hr. lia.
Qed.

Lemma logit_finite logits i :
  Forall (fun x => isfinite x = true) logits -> is_nan (logit logits i) = false.
Proof.
  intros Hf. unfold logit. destruct (nth_in_or_default i logits f32_zero) as [Hin| ->]; [|done].
  apply isfinite_not_nan. rewrite List.Forall_forall in Hf. by apply Hf.
Qed.

Lemma ranking_sorted logits :
  Forall (fun x => isfinite x = true) logits -> StronglySorted (not_after (greater logits)) (ranking logits).
Proof.
  intros Hf. apply (stable_sort_sorted _ (fun i => is_nan (logit logits i) = false)).
  - apply (fgt_strict_weak (logit logits)).
  - apply Forall_forall. intros i _. by apply logit_finite.
Qed.

(** Fewer tokens than its rank have a larger logit. *)
Lemma ranking_count logits r i :
  Forall (fun x => isfinite x = true) logits -> ranking logits !! r = Some i ->
  (length (filter (fun j => greater logits j i = true) (seq 0 (length logits))) <= r)%nat.
Proof.
  intros Hf Hr. etrans; [|apply (firstn_le_length r (ranking logits))].
  apply submseteq_length, NoDup_submseteq; [apply NoDup_filter, NoDup_seq|].
  intros j [Hj Hin]%list_elem_of_filter. rewrite <- ranking_perm in Hin.
  apply list_elem_of_lookup_1 in Hin as [r' Hr']. apply list_elem_of_lookup. exists r'.
  rewrite lookup_take_lt; [done|]. destruct (decide (r' < r)%nat) as [|Hge]; [done|exfalso].
  destruct (decide (r' = r)) as [->|Hne].
  - simplify_eq. pose proof (proj1 (fgt_strict_weak (logit logits)) i i
      (logit_finite logits i Hf) (logit_finite logits i Hf) Hj) as Hj'. unfold greater in Hj. congruence.
  - pose proof (sorted_lookup _ _ r r' i j (ranking_sorted logits Hf) ltac:(lia) Hr Hr'). congruence.
Qed.

(** ** The probabilities *)

Section contract.
Variable exp : f64 -> f64.

(** [std::exp] of anything is not negative. *)
Hypothesis exp_range : forall x, is_nan (exp x) = true \/ signed false (exp x).

Definition weight (x : f64) : Prop := is_nan x = true \/ signed false x.

Lemma length_exp_fold value ranks acc :
  length (foldl (exp_step exp value) acc ranks).1 = length acc.1.
Proof.
  revert acc. induction ranks as [|i ranks IH]; intros acc; [done|]. cbn. rewrite IH. cbn. by rewrite length_insert.
Qed.

Lemma exp_fold_other value ranks acc i :
  i ∉ ranks -> nth i (foldl (exp_step exp value) acc ranks).1 f64_zero = nth i acc.1 f64_zero.
Proof.
  revert acc. induction ranks as [|j ranks IH]; intros acc Hi; [done|]. apply not_elem_of_cons in Hi as [Hne Hi].
  cbn. rewrite IH by done. cbn. by rewrite !nth_lookup, list_lookup_insert_ne.
Qed.

Lemma exp_fold_finite value ranks acc :
  isfinite (foldl (exp_step exp value) acc ranks).2 = true -> isfinite acc.2 = true.
Proof.
  revert acc. induction ranks as [|i ranks IH]; intros acc Hf; [done|]. cbn in Hf.
  apply IH in Hf. by apply f64_add_finite in Hf as [Hf _].
Qed.

Lemma exp_fold_signed value ranks acc :
  isfinite (foldl (exp_step exp value) acc ranks).2 = true -> Forall (signed false) acc.1 ->
  Forall (signed false) (foldl (exp_step exp value) acc ranks).1.
Proof.
  revert acc. induction ranks as [|i ranks IH]; intros acc Hf Hs; [done|]. cbn in *.
  apply IH; [done|]. apply exp_fold_finite in Hf. cbn in Hf. apply f64_add_finite in Hf as [_ Hf].
  apply Forall_insert; [done|]. destruct (exp_range (value i)) as [Hn|]; [|done].
  apply isfinite_not_nan in Hf. congruence.
Qed.

Lemma length_zero_out p ranks : length (zero_out p ranks) = length p.
Proof.
  unfold zero_out. revert p. induction ranks as [|i ranks IH]; intros p; [done|]. cbn.
  by rewrite IH, length_insert.
Qed.

Lemma zero_out_other p ranks i : i ∉ ranks -> nth i (zero_out p ranks) f64_zero = nth i p f64_zero.
Proof.
  unfold zero_out. revert p. induction ranks as [|j ranks IH]; intros p Hi; [done|].
  apply not_elem_of_cons in Hi as [Hne Hi]. cbn. rewrite IH by done.
  by rewrite !nth_lookup, list_lookup_insert_ne.
Qed.

Lemma zero_out_in p ranks i : i ∈ ranks -> nth i (zero_out p ranks) f64_zero = f64_zero.
Proof.
  unfold zero_out. revert p. induction ranks as [|j ranks IH]; intros p Hi; [by apply not_elem_of_nil in Hi|].
  cbn. destruct (decide (i ∈ ranks)) as [|Hni]; [by apply IH|].
  apply elem_of_cons in Hi as [->|?]; [|done]. fold (zero_out (<[j:=f64_zero]> p) ranks).
  rewrite zero_out_other by done. rewrite nth_lookup. destruct (decide (j < length p)%nat) as [Hl|Hl].
  - by rewrite list_lookup_insert_eq.
  - by rewrite list_insert_ge, lookup_ge_None_2 by lia.
Qed.

Lemma zero_out_weight p ranks : Forall weight p -> Forall weight (zero_out p ranks).
Proof.
  unfold zero_out. revert p. induction ranks as [|i ranks IH]; intros p Hp; [done|].
  cbn. apply IH, Forall_insert; [done|by right].
Qed.

(** What the sampler cannot choose. *)
Definition positive (p : list f64) (i : nat) : Prop := fgt (nth i p f64_zero) f64_zero = true.

Lemma positive_lt p i : positive p i -> (i < length p)%nat.
Proof.
  unfold positive. intros H. destruct (decide (i < length p)%nat); [done|].
  rewrite nth_overflow in H by lia. done.
Qed.

Lemma quotient_weight x y : weight x -> weight y -> weight (f64_div x y).
Proof.
  intros [Hx|Hx] [Hy|Hy]; [left..|by apply f64_div_nonneg].
  - by destruct x.
  - by destruct x.
  - destruct y; try done. by destruct x.
Qed.

Lemma fold_add_weight l acc : weight acc -> Forall weight l -> weight (foldl f64_add acc l).
Proof.
  intros Hacc Hl. revert acc Hacc. induction Hl as [|x l Hx Hl IH]; intros acc Hacc; [done|].
  cbn. apply IH. destruct Hacc as [Ha|Ha], Hx as [Hx|Hx].
  1-3: left; destruct acc as [[]|[]| |], x as [[]|[]| |]; done.
  right. by apply f64_add_nonneg.
Qed.

Lemma not_positive_div x y : weight x -> fgt x f64_zero = false -> fgt (f64_div x y) f64_zero = false.
Proof.
  intros [Hx|Hx] Hp; [by destruct x|]. rewrite (signed_positive x) by done. apply f64_div_zero.
Qed.

Lemma weight_nth p i : Forall weight p -> weight (nth i p f64_zero).
Proof.
  intros Hp. destruct (nth_in_or_default i p f64_zero) as [Hin| ->]; [|by right].
  rewrite List.Forall_forall in Hp. by apply Hp.
Qed.

Lemma nth_quotients p total i :
  nth i ((fun x => f64_div x total) <$> p) f64_zero =
    (if decide (i < length p)%nat then f64_div (nth i p f64_zero) total else f64_zero).
Proof.
  rewrite !nth_lookup, list_lookup_fmap. destruct (decide _) as [H|H].
  - by destruct (lookup_lt_is_Some_2 p i H) as [x ->].
  - by rewrite lookup_ge_None_2 by lia.
Qed.

Lemma quotients_positive p total i :
  Forall weight p -> positive ((fun x => f64_div x total) <$> p) i -> positive p i.
Proof.
  unfold positive. intros Hw. rewrite nth_quotients. destruct (decide _); [|done].
  intros H. apply not_false_iff_true. intros Hn.
  rewrite not_positive_div in H; [done| |done]. by apply weight_nth.
Qed.

Lemma softmax_spec c logits ranks q :
  softmax exp c logits ranks = Ok q ->
  length q = length logits /\ Forall weight q /\ forall i, positive q i -> i ∈ ranks.
Proof.
  unfold softmax. set (value := fun index : nat => _).
  pose proof (length_exp_fold value ranks (replicate (length logits) f64_zero, f64_zero)) as Hl.
  pose proof (exp_fold_signed value ranks (replicate (length logits) f64_zero, f64_zero)) as Hs.
  pose proof (exp_fold_other value ranks (replicate (length logits) f64_zero, f64_zero)) as Ho.
  destruct (foldl _ _ _) as [values total]. cbn [fst snd] in *. rewrite length_replicate in Hl.
  destruct (isfinite total) eqn:Hf; [|done]. destruct (fle total f64_zero) eqn:Hle; [done|]. cbn.
  intros [= <-]. assert (Forall (signed false) values) as Hsv.
  { apply Hs; [done|]. apply Forall_replicate. done. }
  assert (Forall weight values) as Hw by (eapply Forall_impl; [exact Hsv|]; by right).
  split; [by rewrite length_fmap|]. split.
  - apply Forall_fmap. eapply Forall_impl; [exact Hw|]. intros x Hx. apply quotient_weight; [done|].
    destruct total as [[]|[]| |[]]; try done; by right.
  - intros i Hp%quotients_positive; [|done]. destruct (decide (i ∈ ranks)) as [|Hni]; [done|exfalso].
    unfold positive in Hp. rewrite Ho, nth_lookup in Hp by done.
    destruct (replicate (length logits) f64_zero !! i) as [x|] eqn:Hx; [|done].
    apply lookup_replicate in Hx as [-> _]. done.
Qed.

(** The exponent of a token: its scaled logit less the scaled largest. *)
Definition exponent (c : SamplingConfig) (logits : list f32) (ranks : list nat) (i : nat) : f64 :=
  f64_sub (f64_div (f64_of_f32 (logit logits i)) (scale_of c))
    (f64_div (f64_of_f32 (logit logits (nth 0 ranks 0%nat))) (scale_of c)).

(** The softmax over the retained ranks; the other tokens have no weight. *)
Definition softmax_total (c : SamplingConfig) (logits : list f32) (ranks : list nat) : f64 :=
  foldl (fun total i => f64_add total (exp (exponent c logits ranks i))) f64_zero ranks.
Definition softmax_of (c : SamplingConfig) (logits : list f32) (ranks : list nat) (i : nat) : f64 :=
  f64_div (if decide (i ∈ ranks) then exp (exponent c logits ranks i) else f64_zero) (softmax_total c logits ranks).

Lemma exp_fold_total value ranks acc :
  (foldl (exp_step exp value) acc ranks).2 = foldl (fun total i => f64_add total (exp (value i))) acc.2 ranks.
Proof. revert acc. induction ranks as [|i ranks IH]; intros acc; [done|]. cbn. by rewrite IH. Qed.

Lemma exp_fold_in value ranks acc i : i ∈ ranks -> (i < length acc.1)%nat ->
  nth i (foldl (exp_step exp value) acc ranks).1 f64_zero = exp (value i).
Proof.
  revert acc. induction ranks as [|j ranks IH]; intros acc Hi Hl; [by apply not_elem_of_nil in Hi|]. cbn [foldl].
  destruct (decide (i ∈ ranks)) as [Hin|Hni]; [apply IH; [done|]; cbn; by rewrite length_insert|].
  apply elem_of_cons in Hi as [->|?]; [|done]. rewrite exp_fold_other by done. cbn. by rewrite nth_lookup, list_lookup_insert_eq.
Qed.

Lemma nth_list_eq (p : list f64) (f : nat -> f64) n :
  length p = n -> (forall i, (i < n)%nat -> nth i p f64_zero = f i) -> p = f <$> seq 0 n.
Proof.
  intros <- H. apply list_eq. intros i. rewrite list_lookup_fmap. destruct (decide (i < length p)%nat) as [Hi|Hi].
  - rewrite (proj2 (lookup_seq 0 (length p) i i)) by lia. cbn. rewrite <- (H i Hi).
    destruct (lookup_lt_is_Some_2 p i Hi) as [x Hx]. by rewrite Hx, (nth_lookup_Some _ _ _ _ Hx).
  - rewrite !lookup_ge_None_2 by (rewrite ?length_seq; lia). done.
Qed.

Lemma softmax_exact c logits ranks q :
  (forall i, i ∈ ranks -> (i < length logits)%nat) -> softmax exp c logits ranks = Ok q ->
  isfinite (softmax_total c logits ranks) = true /\ fle (softmax_total c logits ranks) f64_zero = false /\
  q = softmax_of c logits ranks <$> seq 0 (length logits).
Proof.
  intros Hr. unfold softmax. fold (exponent c logits ranks). set (start := (replicate (length logits) f64_zero, f64_zero)).
  pose proof (length_exp_fold (exponent c logits ranks) ranks start) as Hl.
  pose proof (exp_fold_total (exponent c logits ranks) ranks start) as Ht. fold (softmax_total c logits ranks) in Ht.
  pose proof (fun i => exp_fold_in (exponent c logits ranks) ranks start i) as Hin.
  pose proof (fun i => exp_fold_other (exponent c logits ranks) ranks start i) as Hout.
  destruct (foldl (exp_step exp (exponent c logits ranks)) start ranks) as [values total]. subst start.
  cbn [fst snd] in *. rewrite length_replicate in *. unfold softmax_total in *. cbn [snd] in Ht. rewrite <- Ht.
  destruct (isfinite total) eqn:Hf; [|done]. destruct (fle total f64_zero) eqn:Hle; [done|]. cbn. intros [= <-]. split_and!; [done..|].
  apply nth_list_eq; [by rewrite length_fmap|]. intros i Hi. rewrite nth_quotients, decide_True by lia. unfold softmax_of, softmax_total. rewrite <- Ht.
  f_equal. destruct (decide (i ∈ ranks)) as [Hi'|Hi']; [by apply Hin|]. rewrite Hout by done.
  rewrite nth_lookup. by destruct (replicate _ _ !! i) as [x|] eqn:Hx; [apply lookup_replicate in Hx as [-> _]|].
Qed.

(** The probability of the first [r] ranks. *)
Definition mass (p : list f64) (ranks : list nat) (r : nat) : f64 :=
  foldl (fun acc index => f64_add acc (nth index p f64_zero)) f64_zero (take r ranks).

Lemma keep_loop_spec bound p ranks cumulative keep r :
  (0 < r)%nat -> (keep + r < keep_loop bound p ranks cumulative keep)%nat ->
  fge (foldl (fun acc index => f64_add acc (nth index p f64_zero)) cumulative (take r ranks)) bound = false.
Proof.
  revert cumulative keep r. induction ranks as [|j ranks IH]; intros cumulative keep r Hr; cbn; [lia|].
  destruct (fge _ bound) eqn:Hc; [lia|]. intros Hk. destruct r as [|[|r]]; [lia|done|].
  cbn [take foldl]. apply (IH _ (S keep)); [lia|]. lia.
Qed.

Lemma nucleus_spec c p ranks :
  NoDup ranks -> Forall weight p -> (forall i, positive p i -> i ∈ ranks) ->
  length (nucleus c p ranks) = length p /\ Forall weight (nucleus c p ranks) /\
  forall i, positive (nucleus c p ranks) i ->
    exists r, ranks !! r = Some i /\
      (flt (topP c) f32_one = true -> r = 0%nat \/ fge (mass p ranks r) (f64_of_f32 (topP c)) = false).
Proof.
  intros Hnd Hw Hp. unfold nucleus. destruct (flt (topP c) f32_one).
  - set (keep := Nat.max 1 _). set (kept := zero_out p (drop keep ranks)).
    assert (Forall weight kept) as Hk by by apply zero_out_weight.
    split; [by rewrite length_fmap; apply length_zero_out|]. split.
    + apply Forall_fmap. eapply Forall_impl; [exact Hk|]. intros x Hx. apply quotient_weight; [done|].
      apply fold_add_weight; [by right|done].
    + intros i Hi%quotients_positive; [|done]. unfold kept, positive in Hi.
      destruct (decide (i ∈ drop keep ranks)) as [Hin|Hni]; [by rewrite zero_out_in in Hi|].
      rewrite zero_out_other in Hi by done. destruct (list_elem_of_lookup_1 _ _ (Hp i Hi)) as [r Hr].
      exists r. split; [done|]. intros _. destruct (decide (r = 0%nat)) as [|Hr0]; [by left|right].
      destruct (decide (r < keep)%nat) as [Hrk|Hrk].
      * apply (keep_loop_spec _ _ _ _ 0); lia.
      * exfalso. apply Hni. apply list_elem_of_lookup. exists (r - keep)%nat. rewrite lookup_drop.
        by replace (keep + (r - keep))%nat with r by lia.
  - split; [done|]. split; [done|]. intros i Hi. destruct (list_elem_of_lookup_1 _ _ (Hp i Hi)) as [r Hr].
    by exists r.
Qed.

Lemma keep_loop_bounds bound p ranks cumulative keep :
  (keep <= keep_loop bound p ranks cumulative keep <= keep + length ranks)%nat /\
  (keep_loop bound p ranks cumulative keep = (keep + length ranks)%nat \/
   fge (foldl (fun acc index => f64_add acc (nth index p f64_zero)) cumulative
     (take (keep_loop bound p ranks cumulative keep - keep) ranks)) bound = true).
Proof.
  revert cumulative keep. induction ranks as [|j ranks IH]; intros cumulative keep; cbn [keep_loop length]; [lia|].
  destruct (fge _ bound) eqn:Hc.
  - split; [lia|right]. by replace (S keep - keep)%nat with 1%nat by lia.
  - destruct (IH (f64_add cumulative (nth j p f64_zero)) (S keep)) as [Hb Hr]. split; [lia|]. destruct Hr as [->|Hr]; [left; lia|right].
    replace (_ - keep)%nat with (S (keep_loop bound p ranks (f64_add cumulative (nth j p f64_zero)) (S keep) - S keep)) by lia. exact Hr.
Qed.

(** How many ranks are kept: the fewest, and at least one, whose probabilities reach [topP]. *)
Record kept_count (bound : f64) (q : list f64) (ranks : list nat) (keep : nat) : Prop := KeptCount {
  kc_range : (1 <= keep <= length ranks)%nat;
  kc_short : forall r, (0 < r < keep)%nat -> fge (mass q ranks r) bound = false;
  kc_reached : keep = length ranks \/ fge (mass q ranks keep) bound = true;
}.

(** The probabilities of the kept ranks divided by their sum, and of the others. *)
Definition kept_probability (q : list f64) (ranks : list nat) (keep : nat) (i : nat) : f64 :=
  if decide (i ∈ take keep ranks) then nth i q f64_zero else f64_zero.
Definition renormalized (p : list f64) : list f64 := (fun x => f64_div x (foldl f64_add f64_zero p)) <$> p.

Lemma nucleus_exact c q ranks :
  NoDup ranks -> (0 < length ranks)%nat -> (forall i, (i < length q)%nat -> i ∉ ranks -> nth i q f64_zero = f64_zero) ->
  if flt (topP c) f32_one
  then exists keep, kept_count (f64_of_f32 (topP c)) q ranks keep /\
    nucleus c q ranks = renormalized (kept_probability q ranks keep <$> seq 0 (length q))
  else nucleus c q ranks = q.
Proof.
  intros Hnd Hne Hq. unfold nucleus. destruct (flt (topP c) f32_one); [|done]. set (bound := f64_of_f32 (topP c)).
  destruct (keep_loop_bounds bound q ranks f64_zero 0) as [Hb Hr]. set (n := keep_loop bound q ranks f64_zero 0) in *.
  exists (Nat.max 1 n). split.
  - constructor; [lia| |].
    + intros r Hr'. apply (keep_loop_spec _ _ _ _ 0); fold n; lia.
    + destruct Hr as [Hr|Hr]; [left; lia|right]. destruct (decide (n = 0%nat)) as [Hn|Hn].
      * exfalso. destruct ranks as [|j ranks]; [cbn in Hne; lia|]. subst n. cbn [keep_loop] in Hn.
        clear Hr. destruct (fge _ bound); [done|]. destruct (keep_loop_bounds bound q ranks (f64_add f64_zero (nth j q f64_zero)) 1) as [? _]. lia.
      * rewrite Nat.sub_0_r in Hr. by replace (Nat.max 1 n) with n by lia.
  - unfold renormalized. set (kept := zero_out q (drop (Nat.max 1 n) ranks)).
    assert (kept = kept_probability q ranks (Nat.max 1 n) <$> seq 0 (length q)) as ->; [|done].
    apply nth_list_eq; [by apply length_zero_out|]. intros i Hi. unfold kept, kept_probability.
    destruct (decide (i ∈ take (Nat.max 1 n) ranks)) as [Hin|Hni].
    + apply zero_out_other. intros Hd. rewrite <- (take_drop (Nat.max 1 n) ranks) in Hnd. apply NoDup_app in Hnd as (_ & Hx & _). by apply (Hx i).
    + destruct (decide (i ∈ drop (Nat.max 1 n) ranks)) as [Hd|Hnd']; [by apply zero_out_in|]. rewrite zero_out_other by done.
      apply Hq; [done|]. rewrite <- (take_drop (Nat.max 1 n) ranks), elem_of_app. tauto.
Qed.

(** ** The choice *)

Lemma select_loop_spec all p u cumulative last index :
  flt u f64_zero = false -> flt u cumulative = false -> weight cumulative -> Forall weight all ->
  drop index all = p -> positive all last \/ (forall i, (i < index)%nat -> ~ positive all i) ->
  let t := select_loop u cumulative last index p in
  positive all t \/ (t = last /\ forall i, ~ positive all i).
Proof.
  intros Hu. revert cumulative last index. induction p as [|x p IH]; intros cumulative last index Hc Hw Hall Hd Hl; cbn.
  - destruct Hl as [|Hl]; [by left|right]. split; [done|]. intros i Hi. apply (Hl i); [|done].
    apply positive_lt in Hi. assert (length (drop index all) = 0%nat) as H by by rewrite Hd.
    rewrite length_drop in H. lia.
  - assert (all !! index = Some x) as Hx.
    { pose proof (lookup_drop all index 0) as H. rewrite Hd, Nat.add_0_r in H. by symmetry. }
    pose proof (nth_lookup_Some all index f64_zero x Hx) as Hnth.
    assert (weight x) as Hwx by (rewrite <- Hnth; by apply weight_nth).
    destruct (flt u (f64_add cumulative x)) eqn:Hsel.
    { left. unfold positive. rewrite Hnth. apply not_false_iff_true. intros Hp.
      destruct Hwx as [Hn|Hn].
      - assert (f64_add cumulative x = S754_nan) as Heq by (destruct x; try done; by destruct cumulative).
        rewrite Heq in Hsel. by destruct u.
      - rewrite (signed_positive x Hn Hp) in Hsel. destruct Hw as [Hw|Hw].
        + destruct cumulative; try done. by destruct u.
        + rewrite f64_add_zero in Hsel by done. congruence. }
    destruct (fgt x f64_zero) eqn:Hp.
    + assert (positive all index) as Hpi by by unfold positive; rewrite Hnth.
      edestruct (IH (f64_add cumulative x) index (S index)) as [H|[-> _]]; [done| |done| |by left|by left|by left].
      * by apply (fold_add_weight [x]); [|constructor].
      * rewrite <- Nat.add_1_r, <- drop_drop, Hd. done.
    + apply IH; [done| |done| |].
      * by apply (fold_add_weight [x]); [|constructor].
      * rewrite <- Nat.add_1_r, <- drop_drop, Hd. done.
      * destruct Hl as [|Hl]; [by left|right]. intros i Hi. destruct (decide (i = index)) as [->|].
        -- unfold positive. rewrite Hnth. congruence.
        -- apply Hl. lia.
Qed.

(** The probability of the first [n] tokens, in the order of the vocabulary. *)
Definition prefix (p : list f64) (n : nat) : f64 := foldl f64_add f64_zero (take n p).

(** The last token before [n] with a positive probability, or token 0 if there is none. *)
Definition last_positive (p : list f64) (n last : nat) : Prop :=
  (positive p last /\ (last < n)%nat /\ forall j, (j < n)%nat -> positive p j -> (j <= last)%nat) \/
  (last = 0%nat /\ forall j, (j < n)%nat -> ~ positive p j).

(** What a draw chooses: the token whose share of the cumulated probabilities it falls into,
    or the last one of positive probability when they round to less than the draw. *)
Definition chosen (p : list f64) (u : f64) (t : nat) : Prop :=
  ((t < length p)%nat /\ flt u (prefix p (S t)) = true /\ forall j, (j < t)%nat -> flt u (prefix p (S j)) = false) \/
  ((forall j, (j < length p)%nat -> flt u (prefix p (S j)) = false) /\ last_positive p (length p) t).

Lemma prefix_S p n x : p !! n = Some x -> prefix p (S n) = f64_add (prefix p n) x.
Proof. intros Hx. unfold prefix. by rewrite (take_S_r _ _ _ Hx), foldl_app. Qed.

Lemma last_positive_S p n last x :
  p !! n = Some x -> last_positive p n last -> last_positive p (S n) (if fgt x f64_zero then n else last).
Proof.
  intros Hx Hl. pose proof (nth_lookup_Some p n f64_zero x Hx) as Hnth. destruct (fgt x f64_zero) eqn:Hp.
  - left. split; [by unfold positive; rewrite Hnth|]. split; lia.
  - assert (~ positive p n) as Hn by (unfold positive; rewrite Hnth; congruence).
    destruct Hl as [(H1 & H2 & H3)|[-> H]]; [left|right].
    + split; [done|]. split; [lia|]. intros j Hj Hpj. destruct (decide (j = n)) as [->|]; [done|]. apply H3; [lia|done].
    + split; [done|]. intros j Hj. destruct (decide (j = n)) as [->|]; [done|]. apply H. lia.
Qed.

Lemma select_loop_chosen all p u last index :
  drop index all = p -> (index <= length all)%nat -> (forall j, (j < index)%nat -> flt u (prefix all (S j)) = false) ->
  last_positive all index last -> chosen all u (select_loop u (prefix all index) last index p).
Proof.
  revert last index. induction p as [|x p IH]; intros last index Hd Hi Hu Hl; cbn.
  - assert (length (drop index all) = 0%nat) as H by by rewrite Hd. rewrite length_drop in H.
    right. by replace (length all) with index by lia.
  - assert (all !! index = Some x) as Hx.
    { pose proof (lookup_drop all index 0) as H. rewrite Hd, Nat.add_0_r in H. by symmetry. }
    pose proof (lookup_lt_Some _ _ _ Hx). rewrite <- (prefix_S _ _ _ Hx). destruct (flt u (prefix all (S index))) eqn:Hsel.
    { left. done. }
    apply IH; [by rewrite <- Nat.add_1_r, <- drop_drop, Hd|lia| |by apply last_positive_S].
    intros j Hj. destruct (decide (j = index)) as [->|]; [done|]. apply Hu. lia.
Qed.

Definition engine_ok (s : Sampler) : Prop := Forall (fun word => 0 <= word) (random_ s).

Lemma nth_nonneg l i : Forall (fun w => 0 <= w) l -> 0 <= nth i l 0.
Proof.
  intros Hl. destruct (nth_in_or_default i l 0) as [Hin| ->]; [|done].
  rewrite List.Forall_forall in Hl. by apply Hl.
Qed.

Lemma wrap64_nonneg z : 0 <= wrap64 z.
Proof. pose proof (wrap64_u64 z) as []. done. Qed.

Lemma tempered_nonneg z : 0 <= z -> 0 <= Mt19937_64.tempered z.
Proof.
  intros Hz. unfold Mt19937_64.tempered. cbv zeta.
  repeat first
    [ rewrite Z.lxor_nonneg; split; intros _
    | rewrite Z.land_nonneg; right; done
    | rewrite Z.shiftr_nonneg | done ].
Qed.

Lemma next_ok state word state' :
  Forall (fun w => 0 <= w) state -> Mt19937_64.next state = (word, state') ->
  0 <= word /\ Forall (fun w => 0 <= w) state'.
Proof.
  intros Hs. unfold Mt19937_64.next. set (y := Z.lor _ _). set (x := Z.lxor _ _). intros [= <- <-].
  assert (0 <= x) as Hx.
  { unfold x. rewrite Z.lxor_nonneg. split; intros _; [destruct (Z.odd y); done|].
    rewrite Z.lxor_nonneg. split; intros _; [|by apply nth_nonneg].
    apply Z.shiftr_nonneg. unfold y. rewrite Z.lor_nonneg, !Z.land_nonneg. split; left; by apply nth_nonneg. }
  split; [by apply tempered_nonneg|]. apply Forall_app. split; [by apply Forall_drop|by constructor].
Qed.

Lemma draw_spec s :
  engine_ok s -> exists u s', draw s = (Ok u, s') /\ engine_ok s' /\ config_ s' = config_ s /\ flt u f64_zero = false.
Proof.
  intros Hs. unfold draw. destruct (Mt19937_64.next (random_ s)) as [word state] eqn:Hn.
  destruct (next_ok _ _ _ Hs Hn) as [Hw Hst]. eexists _, _. split_and!; [done|done|done|].
  destruct (f64_div_nonneg (f64_of_Z (Z.shiftr word 11)) (f64_of_Z 9007199254740992)) as [H|H].
  - by apply f64_of_Z_signed, Z.shiftr_nonneg.
  - by apply f64_of_Z_signed.
  - by destruct (f64_div _ _).
  - by destruct (f64_div _ _) as [[]|[]| |[]].
Qed.

Lemma newSampler_ok c : engine_ok (newSampler c).
Proof.
  unfold engine_ok, newSampler. cbn. unfold Mt19937_64.seeded. constructor; [apply wrap64_nonneg|].
  generalize 1. generalize (wrap64 (seed c)). induction (Mt19937_64.n - 1)%nat as [|k IH]; intros x i; [constructor|].
  cbn [Mt19937_64.seed_loop]. constructor; [apply wrap64_nonneg|apply IH].
Qed.

Lemma argmax_spec logits :
  (0 < length logits)%nat -> Forall (fun x => isfinite x = true) logits ->
  (argmax logits < length logits)%nat /\
  forall j, (j < length logits)%nat ->
    flt (logit logits (argmax logits)) (logit logits j) = false /\
    ((j < argmax logits)%nat -> flt (logit logits j) (logit logits (argmax logits)) = true).
Proof.
  intros Hn Hf. unfold argmax. destruct (scan_min _ _) as [m|] eqn:Hm; cbn.
  - destruct (scan_min_first _ (fun i => is_nan (logit logits i) = false) _ m
      (fgt_strict_weak (logit logits)) ltac:(apply Forall_forall; intros; by apply logit_finite) Hm)
      as (l1 & l2 & Hl & H1 & H2).
    assert (m = length l1) as ->.
    { assert (seq 0 (length logits) !! length l1 = Some m) as H by by rewrite Hl, list_lookup_middle.
      apply lookup_seq in H. lia. }
    assert (length l1 < length logits)%nat as Hlt.
    { rewrite <- (length_seq (length logits) 0), Hl, length_app. cbn. lia. }
    split; [done|]. intros j Hj.
    assert (seq 0 (length logits) !! j = Some j) as Hjl by by apply lookup_seq.
    rewrite Hl in Hjl. rewrite Forall_forall in H1, H2.
    destruct (Nat.lt_trichotomy j (length l1)) as [Hlt'|[->|Hgt]].
    + rewrite lookup_app_l in Hjl by done. apply list_elem_of_lookup_2, H1 in Hjl. split; [|done].
      by apply (proj1 (fgt_strict_weak (logit logits))); [by apply logit_finite..|].
    + split; [|lia]. apply not_true_iff_false. intros H.
      pose proof (proj1 (fgt_strict_weak (logit logits)) (length l1) (length l1)
        (logit_finite _ _ Hf) (logit_finite _ _ Hf) H) as H'. unfold fgt in H'. congruence.
    + rewrite lookup_app_r in Hjl by lia. destruct (j - length l1)%nat eqn:Hd; [lia|]. cbn in Hjl.
      apply list_elem_of_lookup_2, H2 in Hjl. split; [done|lia].
  - apply scan_min_None in Hm. apply (f_equal length) in Hm. rewrite length_seq in Hm. cbn in Hm. lia.
Qed.

Lemma check_finite_true logits : check_finite logits = Ok tt -> Forall (fun x => isfinite x = true) logits.
Proof.
  unfold check_finite. destruct (existsb _ _) eqn:He; [done|]. intros _. apply List.Forall_forall.
  intros x Hx. apply not_false_iff_true. intros Hf. apply not_true_iff_false in He. apply He.
  apply existsb_exists. exists x. by rewrite Hf.
Qed.

Lemma validate_cases c n :
  sampling_validate c n = Ok tt \/ exists e, sampling_validate c n = Throw e /\ kind_of e = InvalidArgument.
Proof. unfold sampling_validate. destruct (_ || _); [right; by eexists|by left]. Qed.

Lemma validate_nonempty c (logits : list f32) :
  sampling_validate c (Z.of_nat (length logits)) = Ok tt -> (0 < length logits)%nat.
Proof. unfold sampling_validate. destruct logits; [done|cbn; lia]. Qed.

(** The tokens a stochastic sampler may choose: the first [topK] of the ranking, cut
    where the probabilities before them reach [topP]. *)
Definition in_nucleus (c : SamplingConfig) (logits : list f32) (i : nat) : Prop :=
  exists q r, softmax exp c logits (take (retained_count c logits) (ranking logits)) = Ok q /\
    ranking logits !! r = Some i /\ (r < retained_count c logits)%nat /\
    (flt (topP c) f32_one = true ->
     r = 0%nat \/ fge (mass q (ranking logits) r) (f64_of_f32 (topP c)) = false).

Lemma probabilities_spec c logits :
  match probabilities exp logits c with
  | Ok p => length p = length logits /\ Forall weight p /\ Forall (fun x => isfinite x = true) logits /\
            forall i, positive p i -> in_nucleus c logits i
  | Throw e => kind_of e = InvalidArgument \/ kind_of e = RuntimeError
  | Diverge => False
  end.
Proof.
  unfold probabilities. destruct (validate_cases c (Z.of_nat (length logits))) as [->|(e & -> & He)]; cbn; [|by left].
  destruct (check_finite logits) as [[]|e|] eqn:Hf; cbn.
  - set (ranks := take _ _). destruct (softmax exp c logits ranks) as [q|e|] eqn:Hq; cbn.
    + destruct (softmax_spec _ _ _ _ Hq) as (Hl & Hw & Hp).
      destruct (nucleus_spec c q ranks) as (Hl' & Hw' & Hp'); [|done..|].
      { eapply sublist_NoDup; [apply (ranking_nodup logits)|apply sublist_take]. }
      split; [by rewrite Hl'|]. split; [done|]. split; [by apply check_finite_true|].
      intros i Hi. destruct (Hp' i Hi) as (r & Hr & Hm). exists q, r. unfold ranks in Hr.
      apply lookup_take_Some in Hr as [Hr Hrk]. split_and!; [done..|]. intros Ht.
      destruct (Hm Ht) as [|H]; [by left|right]. unfold mass, ranks in H.
      rewrite take_take, Nat.min_l in H by lia. done.
    + unfold softmax in Hq. destruct (foldl _ _ _) as [values total].
      destruct (negb (isfinite total) || fle total f64_zero); [|done]. injection Hq as <-. by right.
    + unfold softmax in Hq. destruct (foldl _ _ _) as [values total].
      by destruct (negb (isfinite total) || fle total f64_zero).
  - unfold check_finite in Hf. destruct (existsb _ _); [|done]. injection Hf as <-. by left.
  - unfold check_finite in Hf. by destruct (existsb _ _).
Qed.

(** The distribution the sampler draws from: the softmax of the first [topK] ranks and, for
    a [topP] below one, its kept ranks renormalized. *)
Definition distribution (c : SamplingConfig) (logits : list f32) (p : list f64) : Prop :=
  let ranks := take (retained_count c logits) (ranking logits) in
  let q := softmax_of c logits ranks <$> seq 0 (length logits) in
  isfinite (softmax_total c logits ranks) = true /\ fle (softmax_total c logits ranks) f64_zero = false /\
  if flt (topP c) f32_one
  then exists keep, kept_count (f64_of_f32 (topP c)) q ranks keep /\
    p = renormalized (kept_probability q ranks keep <$> seq 0 (length logits))
  else p = q.

Lemma probabilities_exact c logits p : probabilities exp logits c = Ok p -> distribution c logits p.
Proof.
  unfold probabilities. destruct (sampling_validate c (Z.of_nat (length logits))) as [[]|e|] eqn:Hv; [|done..]. cbn.
  destruct (check_finite logits) as [[]|e|]; [|done..]. cbn. unfold distribution. set (ranks := take _ _).
  destruct (softmax exp c logits ranks) as [q|e|] eqn:Hq; [|done..]. cbn. intros [= <-].
  assert (forall i, i ∈ ranks -> (i < length logits)%nat) as Hin.
  { intros i Hi. apply list_elem_of_lookup_1 in Hi as [r [Hr _]%lookup_take_Some]. by eapply ranking_lookup_lt. }
  destruct (softmax_exact c logits ranks q Hin Hq) as (Hf & Hle & ->). split; [done|]. split; [done|].
  pose proof (nucleus_exact c (softmax_of c logits ranks <$> seq 0 (length logits)) ranks) as Hn.
  rewrite length_fmap, length_seq in Hn. apply Hn.
  - eapply sublist_NoDup; [apply (ranking_nodup logits)|apply sublist_take].
  - destruct ranks; [done|cbn; lia].
  - intros i Hi Hni. rewrite nth_lookup, list_lookup_fmap, (proj2 (lookup_seq 0 (length logits) i i)) by lia. cbn.
    unfold softmax_of. rewrite decide_False by done. by destruct (softmax_total c logits ranks) as [[]|[]| |[]].
Qed.

(** The part of the contract a client relies on: the range of the token. *)
Lemma select_loop_range u p cumulative last index :
  (select_loop u cumulative last index p = last \/ select_loop u cumulative last index p < index + length p)%nat.
Proof.
  revert cumulative last index. induction p as [|x p IH]; intros cumulative last index; cbn; [by left|].
  destruct (flt u _); [right; lia|]. destruct (IH (f64_add cumulative x) (if fgt x f64_zero then index else last) (S index)) as [H|H].
  - rewrite H. destruct (fgt x f64_zero); [right; lia|by left].
  - right. lia.
Qed.

Lemma sample_range logits s :
  engine_ok s ->
  match sample exp logits s with
  | (Ok t, s') => 0 <= t < Z.of_nat (length logits) /\ engine_ok s' /\ config_ s' = config_ s
  | (Throw e, s') => s' = s /\ (kind_of e = InvalidArgument \/ kind_of e = RuntimeError)
  | (Diverge, _) => False
  end.
Proof.
  intros Hs. unfold sample, st_bind, gets, lift.
  destruct (validate_cases (config_ s) (Z.of_nat (length logits))) as [Hv|(e & Hv & He)]; rewrite Hv; [|by auto].
  pose proof (validate_nonempty _ _ Hv) as Hn.
  destruct (Z.ltb_spec u32_max (Z.of_nat (length logits))) as [|Hu]; cbn [throw_if]; [by auto|].
  assert (forall i, (i < length logits)%nat -> 0 <= wrap32 (Z.of_nat i) < Z.of_nat (length logits)) as Hw.
  { intros i Hi. rewrite wrap32_small by (unfold is_u32; lia). lia. }
  destruct (strategy (config_ s)).
  - destruct (check_finite logits) as [[]|e|] eqn:Hf.
    2:{ unfold check_finite in Hf. destruct (existsb _ _); [|done]. injection Hf as <-. auto. }
    2:{ unfold check_finite in Hf. by destruct (existsb _ _). }
    destruct (argmax_spec logits Hn (check_finite_true _ Hf)) as [Ha _]. by split; [apply Hw|].
  - pose proof (probabilities_spec (config_ s) logits) as Hp.
    destruct (probabilities exp logits (config_ s)) as [p|e|]; [|by auto|done]. destruct Hp as [Hl _].
    destruct (draw_spec s Hs) as (u & s' & -> & Hs' & Hc & _). split; [|done]. apply Hw.
    destruct (select_loop_range u p f64_zero 0 0) as [->|]; lia.
Qed.

(** C28: What the sampler returns.  It always ends: refused inputs and a softmax that
    cannot be normalised throw and leave the engine where it was; otherwise the token
    is one of the vocabulary.  A greedy token is the first of the largest logits.  A
    stochastic one is drawn from exactly the distribution asked for: the softmax of the
    [topK] largest scaled logits, of which a [topP] below one keeps the fewest ranks (and
    at least one) that reach it, divided by the sum of what is kept.  It is the token
    whose share of the cumulated probabilities the draw falls into, or, when they round to
    less than the draw, the last token of positive probability.  A token outside the
    nucleus, with [topK] tokens ranked above it or [topP] of the mass before it, has no
    positive probability, and the token drawn has one whenever some token has. *)
Theorem sample_from_nucleus logits s (Hs : engine_ok s) :
  let c := config_ s in
  match sample exp logits s with
  | (Ok t, s') =>
      engine_ok s' /\ config_ s' = c /\ Forall (fun x => isfinite x = true) logits /\
      exists i, t = Z.of_nat i /\ (i < length logits)%nat /\
      match strategy c with
      | Greedy => s' = s /\ forall j, (j < length logits)%nat ->
          flt (logit logits i) (logit logits j) = false /\
          ((j < i)%nat -> flt (logit logits j) (logit logits i) = true)
      | Stochastic => s' = snd (draw s) /\ exists p,
          probabilities exp logits c = Ok p /\ length p = length logits /\
          distribution c logits p /\ (exists u, fst (draw s) = Ok u /\ chosen p u i) /\
          ((exists j, positive p j) -> positive p i) /\
          forall j, positive p j -> in_nucleus c logits j /\
            (length (filter (fun k => greater logits k j = true) (seq 0 (length logits)))
               < retained_count c logits)%nat
      end
  | (Throw e, s') => s' = s /\ (kind_of e = InvalidArgument \/ kind_of e = RuntimeError)
  | (Diverge, _) => False
  end.
Proof.
  cbv zeta. unfold sample. cbn [st_bind gets]. destruct (validate_cases (config_ s) (Z.of_nat (length logits))) as [Hv|(e & Hv & He)];
    unfold st_bind, gets, lift; rewrite Hv; [|by eauto].
  pose proof (validate_nonempty _ _ Hv) as Hn.
  destruct (Z.ltb_spec u32_max (Z.of_nat (length logits))) as [|Hu]; cbn [throw_if]; [by eauto|].
  assert (forall i, (i < length logits)%nat -> wrap32 (Z.of_nat i) = Z.of_nat i) as Hw.
  { intros i Hi. apply wrap32_small. unfold is_u32. lia. }
  destruct (strategy (config_ s)) eqn:Hst.
  - destruct (check_finite logits) as [[]|e|] eqn:Hf.
    + apply check_finite_true in Hf. destruct (argmax_spec logits Hn Hf) as [Ha Hm]. cbn.
      split_and!; [done..|]. exists (argmax logits). by rewrite Hw.
    + unfold check_finite in Hf. destruct (existsb _ _); [|done]. injection Hf as <-. by eauto.
    + unfold check_finite in Hf. by destruct (existsb _ _).
  - pose proof (probabilities_spec (config_ s) logits) as Hp.
    destruct (probabilities exp logits (config_ s)) as [p|e|] eqn:Hpr; [|by eauto|done].
    destruct Hp as (Hl & Hwp & Hf & Hnuc). destruct (draw_spec s Hs) as (u & s' & Hd & Hs' & Hc & Hu0).
    rewrite Hd. cbn. split_and!; [done..|]. set (t := select_loop u f64_zero 0 0 p).
    assert (chosen p u t) as Hch.
    { apply (select_loop_chosen p p u 0 0); [done|lia| |right; split; [done|]]; intros j Hj; lia. }
    assert ((t < length p)%nat /\ ((exists j, positive p j) -> positive p t)) as [Htl Htp].
    { destruct (select_loop_spec p p u f64_zero 0 0 Hu0 Hu0 (or_intror eq_refl) Hwp eq_refl ltac:(right; lia))
        as [Ht|[Ht Hnone]]; fold t in Ht; [split; [by apply positive_lt|done]|].
      rewrite Ht. split; [lia|]. by intros [j Hj%Hnone]. }
    exists t. rewrite Hw by lia. split_and!; [done|lia|done|]. exists p.
    split_and!; [done|done|exact (probabilities_exact _ _ _ Hpr)|by exists u|done|]. intros j Hj. split; [by apply Hnuc|].
    destruct (Hnuc j Hj) as (q & r & _ & Hr & Hrk & _). pose proof (ranking_count logits r j Hf Hr). lia.
Qed.
End contract.

(** Witness: a rough exponential and four logits. *)
Definition sample_exp (x : f64) : f64 := SFabs (f64_add f64_one (f64_div x (f64_of_Z 4))).
Definition sample_logits : list f32 := f32_of_Z <$> [1; 3; 2; 3].
Definition sample_config : SamplingConfig := mkSampling Stochastic f32_one 2 (f32_div (f32_of_Z 9) (f32_of_Z 10)) 42.

Lemma sample_exp_range x : is_nan (sample_exp x) = true \/ signed false (sample_exp x).
Proof. unfold sample_exp. destruct (f64_add _ _); cbn; auto. Qed.

Lemma sample_chosen : fst (sample sample_exp sample_logits (newSampler sample_config)) = Ok 3.
Proof. vm_compute. reflexivity. Qed.

Lemma sample_positive : exists p, probabilities sample_exp sample_logits sample_config = Ok p /\ positive p 1.
Proof. eexists. split; vm_compute; reflexivity. Qed.

Lemma sample_from_nucleus_witness :
  engine_ok (newSampler sample_config) /\
  exists p, probabilities sample_exp sample_logits sample_config = Ok p /\
    distribution sample_exp sample_config sample_logits p /\ positive p 3 /\
    forall j, positive p j -> in_nucleus sample_exp sample_config sample_logits j.
Proof.
  split; [apply newSampler_ok|].
  pose proof (sample_from_nucleus sample_exp sample_exp_range sample_logits (newSampler sample_config)
    (newSampler_ok sample_config)) as H.
  cbv zeta in H. pose proof sample_chosen as Hc.
  destruct (sample sample_exp sample_logits (newSampler sample_config)) as [r s']. cbn [fst] in Hc. subst r.
  destruct H as (_ & _ & _ & i & Hi & _ & _ & p & Hp & _ & Hdist & _ & Hpos & Hnuc).
  apply (Nat2Z.inj 3) in Hi. subst i.
  exists p. split; [exact Hp|]. split; [exact Hdist|]. split; [|intros j Hj; apply (Hnuc j Hj)].
  destruct sample_positive as (p' & Hp' & Hj). change (config_ (newSampler sample_config)) with sample_config in Hp.
  rewrite Hp in Hp'. injection Hp' as <-. apply Hpos. by exists 1%nat.
Defined.
