(* ===== verification/Router.v ===== *)
(** * Routing tokens to experts

    [src/router/CpuRouterBackend.cpp], [Router.cpp], [RouterConfig.cpp],
    [RouterDecision.hpp] and [src/experts/ExpertBatch.cpp]: the scores of a token,
    their softmax, the selection of the [topK] best experts, and the grouping of a
    batch by expert.  [std::exp] on [float] is a parameter. *)

From S2P Require Import Prelude Float Tiers Tensor KVCache.
From Stdlib Require Import SpecFloat.

(** ** Configuration and decisions *)

Inductive RoutingNormalization : Type := NoNormalization | Softmax.
#[global] Instance RoutingNormalization_eq_dec : EqDecision RoutingNormalization.
Proof. solve_decision. Defined.

Record RouterConfig : Type := mkRouterConfig {
  expertCount : Z;
  topK : Z;
  normalization : RoutingNormalization;
  renormalizeSelected : bool;
}.

Definition config_validate (c : RouterConfig) : result unit :=
  (throw_if (expertCount c =? 0) (Exn InvalidArgument "router requires experts") ;;?
   throw_if (u32_max <? expertCount c)
     (Exn InvalidArgument "router expert count exceeds runtime IDs") ;;?
   throw_if ((topK c =? 0) || (expertCount c <? topK c))
     (Exn InvalidArgument "router top-k must be within expert count"))%res.

Record RouterDecision : Type := mkDecision {
  rd_layerId : Z;
  selectedExpertIds : list Z;
  routingScores : list f32;
}.
Definition decision_valid (d : RouterDecision) : bool :=
  negb (length (selectedExpertIds d) =? 0)%nat &&
  (length (selectedExpertIds d) =? length (routingScores d))%nat.

Record ExpertTokenGroup : Type := mkGroup {
  eg_expertId : Z;
  eg_tokenIndices : list Z;
  eg_routingScores : list f32;
}.

Record BatchRouterDecision : Type := mkBatch {
  br_layerId : Z;
  br_tokens : list RouterDecision;
  br_expertGroups : list ExpertTokenGroup;
}.
Definition batch_valid (b : BatchRouterDecision) : bool :=
  negb (length (br_tokens b) =? 0)%nat &&
  forallb (fun token => decision_valid token && (rd_layerId token =? br_layerId b)) (br_tokens b) &&
  forallb (fun group => negb (length (eg_tokenIndices group) =? 0)%nat &&
             (length (eg_tokenIndices group) =? length (eg_routingScores group))%nat) (br_expertGroups b).

(** [ExpertBatch] *)
Record ExpertBatch : Type := mkExpertBatch {
  eb_layerId : Z;
  eb_expertId : Z;
  eb_tokenIndices : list Z;
  eb_routingWeights : list f32;
}.

Fixpoint batch_loop (tokenCount : Z) (seen : gset Z) (l : list (Z * f32)) : result unit :=
  match l with
  | [] => Ok tt
  | (token, weight) :: l =>
      (throw_if ((tokenCount <=? token) || negb (isfinite weight) || bool_decide (token ∈ seen))
         (Exn InvalidArgument "expert batch contains an invalid token assignment") ;;?
       batch_loop tokenCount ({[token]} ∪ seen) l)%res
  end.
Definition expertBatch_validate (tokenCount : Z) (b : ExpertBatch) : result unit :=
  (throw_if ((tokenCount =? 0) || (length (eb_tokenIndices b) =? 0)%nat ||
             negb (length (eb_tokenIndices b) =? length (eb_routingWeights b))%nat)
     (Exn InvalidArgument "expert batch metadata is incomplete") ;;?
   batch_loop tokenCount ∅ (zip (eb_tokenIndices b) (eb_routingWeights b)))%res.

(** ** One token *)

Section cpu_router.
Variable expf : f32 -> f32.

(** The score of an expert, accumulated in [double]. *)
Definition dot (hidden weights : list f32) (hiddenSize experts expert : nat) : f64 :=
  foldl (fun score index =>
    f64_add score (f64_mul (f64_of_f32 (nth index hidden f32_zero))
                           (f64_of_f32 (nth (index * experts + expert) weights f32_zero))))
    f64_zero (seq 0 hiddenSize).

Fixpoint score_loop (hidden weights : list f32) (hiddenSize experts : nat) (l : list nat) : result (list f32) :=
  match l with
  | [] => Ok []
  | expert :: l =>
      let score := dot hidden weights hiddenSize experts expert in
      (throw_if (negb (isfinite score)) (Exn RuntimeError "router produced a non-finite score") ;;?
       scores <-? score_loop hidden weights hiddenSize experts l ;;
       Ok (f32_of_f64 score :: scores))%res
  end.

(** [*std::max_element] *)
Definition largest (scores : list f32) : f32 :=
  default f32_zero (scan_min (fun x b => fgt x b) scores).

Definition narrow_quotient (total : f64) (score : f32) : f32 := f32_of_f64 (f64_div (f64_of_f32 score) total).

Definition softmax_scores (scores : list f32) : result (list f32) :=
  let maximum := largest scores in
  let scores := (fun score => expf (f32_sub score maximum)) <$> scores in
  let denominator := foldl (fun acc score => f64_add acc (f64_of_f32 score)) f64_zero scores in
  (throw_if (negb (isfinite denominator) || fle denominator f64_zero)
     (Exn RuntimeError "router softmax normalization failed") ;;?
   Ok (narrow_quotient denominator <$> scores))%res.

Definition expert_scores (c : RouterConfig) (hidden weights : list f32) (hiddenSize : nat) : result (list f32) :=
  let experts := Z.to_nat (expertCount c) in
  (scores <-? score_loop hidden weights hiddenSize experts (seq 0 experts) ;;
   match normalization c with Softmax => softmax_scores scores | NoNormalization => Ok scores end)%res.

Definition score_at (scores : list f32) (expert : Z) : f32 := nth (Z.to_nat expert) scores f32_zero.

(** The comparison of the selection. *)
Definition preferred (scores : list f32) (left right : Z) : bool :=
  if feq (score_at scores left) (score_at scores right) then left <? right
  else fgt (score_at scores left) (score_at scores right).

Definition iota (n : nat) : list Z := Z.of_nat <$> seq 0 n.

Definition select_experts (c : RouterConfig) (scores : list f32) : list Z :=
  take (Z.to_nat (topK c)) (stable_sort (preferred scores) (iota (Z.to_nat (expertCount c)))).

Definition renormalized (c : RouterConfig) (scores : list f32) : result (list f32) :=
  if renormalizeSelected c then
    let sum := foldl (fun acc score => f64_add acc (f64_of_f32 score)) f64_zero scores in
    (throw_if (negb (isfinite sum) || feq sum f64_zero)
       (Exn RuntimeError "selected router scores cannot be renormalized") ;;?
     Ok (narrow_quotient sum <$> scores))%res
  else Ok scores.

Definition routeToken (layerId : Z) (hidden weights : list f32) (hiddenSize : nat) (c : RouterConfig)
    : result RouterDecision :=
  (scores <-? expert_scores c hidden weights hiddenSize ;;
   let selected := select_experts c scores in
   final <-? renormalized c (score_at scores <$> selected) ;;
   Ok (mkDecision layerId selected final))%res.

(** ** A batch, grouped by expert *)

(** The position of each expert's group, and the groups. *)
Definition groups_state : Type := gmap Z nat * list ExpertTokenGroup.

Definition add_assignment (token : Z) (g : groups_state) (a : Z * f32) : groups_state :=
  let '(positions, groups) := g in
  let '(expert, score) := a in
  let '(positions, groups, position) :=
    match positions !! expert with
    | Some position => (positions, groups, position)
    | None => (<[expert := length groups]> positions, groups ++ [mkGroup expert [] []], length groups)
    end in
  (positions, alter (fun group => mkGroup (eg_expertId group) (eg_tokenIndices group ++ [token])
                                    (eg_routingScores group ++ [score])) position groups).

Fixpoint token_loop (layerId : Z) (hidden weights : list f32) (hiddenSize : nat) (c : RouterConfig)
    (tokens : list nat) (g : groups_state) : result (list RouterDecision * groups_state) :=
  match tokens with
  | [] => Ok ([], g)
  | token :: tokens =>
      (decision <-? routeToken layerId (drop (token * hiddenSize) hidden) weights hiddenSize c ;;
       let g := foldl (add_assignment (Z.of_nat token)) g
                  (zip (selectedExpertIds decision) (routingScores decision)) in
       rest <-? token_loop layerId hidden weights hiddenSize c tokens g ;;
       Ok (decision :: fst rest, snd rest))%res
  end.

Definition by_expert (left right : ExpertTokenGroup) : bool := eg_expertId left <? eg_expertId right.

Definition route_rows (layerId : Z) (hidden weights : list f32) (tokenCount hiddenSize : nat) (c : RouterConfig)
    : result BatchRouterDecision :=
  (r <-? token_loop layerId hidden weights hiddenSize c (seq 0 tokenCount) (∅, []) ;;
   Ok (mkBatch layerId (fst r) (stable_sort by_expert (snd (snd r)))))%res.

(** ** The backend's methods *)

Variable alive : gset Z.
Variable mem : Z -> Z.

Definition floats (v : TensorView) : list f32 := f32_of_bits <$> contents mem v.

Definition validateInputs (hiddenStates routerWeights : TensorView) (c : RouterConfig) : result unit :=
  (config_validate c ;;?
   throw_if (negb (view_valid alive hiddenStates) || negb (view_valid alive routerWeights) ||
             negb (bool_decide (device_ hiddenStates = cpu)) || negb (bool_decide (device_ routerWeights = cpu)) ||
             negb (bool_decide (dtype_ hiddenStates = FP32)) || negb (bool_decide (dtype_ routerWeights = FP32)) ||
             negb (view_isContiguous hiddenStates) || negb (view_isContiguous routerWeights) ||
             negb (rank (shape_ hiddenStates) =? 2)%nat || negb (rank (shape_ routerWeights) =? 2)%nat)
     (Exn InvalidArgument "CPU router requires contiguous rank-2 CPU FP32 tensors") ;;?
   throw_if (negb (dim hiddenStates 1 =? dim routerWeights 0) || negb (dim routerWeights 1 =? expertCount c))
     (Exn InvalidArgument "router tensor dimensions do not match configuration"))%res.

Definition cpu_route (layerId : Z) (hiddenState routerWeights : TensorView) (c : RouterConfig)
    : result RouterDecision :=
  (throw_if (negb (view_valid alive hiddenState) ||
             (negb (rank (shape_ hiddenState) =? 1)%nat && negb (rank (shape_ hiddenState) =? 2)%nat))
     (Exn InvalidArgument "CPU router hidden state must have rank one or two") ;;?
   hiddenState <-? (if (rank (shape_ hiddenState) =? 1)%nat
                    then shape <-? contiguousShape [1; dim hiddenState 0] ;; view_reshape alive hiddenState shape
                    else Ok hiddenState) ;;
   validateInputs hiddenState routerWeights c ;;?
   throw_if (negb (dim hiddenState 0 =? 1))
     (Exn InvalidArgument "single-token route received multiple tokens") ;;?
   routeToken layerId (floats hiddenState) (floats routerWeights) (Z.to_nat (dim hiddenState 1)) c)%res.

Definition cpu_routeBatch (layerId : Z) (hiddenStates routerWeights : TensorView) (c : RouterConfig)
    : result BatchRouterDecision :=
  (validateInputs hiddenStates routerWeights c ;;?
   route_rows layerId (floats hiddenStates) (floats routerWeights)
     (Z.to_nat (dim hiddenStates 0)) (Z.to_nat (dim hiddenStates 1)) c)%res.
End cpu_router.

(** ** The router over a backend *)

Class RouterBackend (B : Type) : Type := {
  backend_device : B -> Device;
  backend_available : B -> bool;
  backend_route : B -> Z -> TensorView -> TensorView -> RouterConfig -> result RouterDecision;
  backend_routeBatch : B -> Z -> TensorView -> TensorView -> RouterConfig -> result BatchRouterDecision;
}.

(** The CPU backend has no state; what its views read is the memory it runs on. *)
Record CpuRouterBackend : Type := mkCpuRouter {
  cr_expf : f32 -> f32;
  cr_alive : gset Z;
  cr_memory : Z -> Z;
}.

#[global] Instance cpuRouterBackend : RouterBackend CpuRouterBackend := {
  backend_device _ := cpu;
  backend_available _ := true;
  backend_route b := cpu_route (cr_expf b) (cr_alive b) (cr_memory b);
  backend_routeBatch b := cpu_routeBatch (cr_expf b) (cr_alive b) (cr_memory b);
}.

Section router.
Context {B : Type} `{!RouterBackend B}.

Record Router : Type := mkRouter { ro_config : RouterConfig; ro_backend : B }.

Definition newRouter (c : RouterConfig) (backend : option B) : result Router :=
  (config_validate c ;;?
   match backend with
   | Some b => throw_if (negb (backend_available b)) (Exn InvalidArgument "router requires an available backend") ;;?
               Ok (mkRouter c b)
   | None => Throw (Exn InvalidArgument "router requires an available backend")
   end)%res.

Definition check_device (r : Router) (hidden weights : TensorView) : result unit :=
  throw_if (negb (bool_decide (device_ hidden = backend_device (ro_backend r))) ||
            negb (bool_decide (device_ weights = backend_device (ro_backend r))))
    (Exn InvalidArgument "router tensors do not match router backend device").

Definition route (r : Router) (layerId : Z) (hidden weights : TensorView) : result RouterDecision :=
  (check_device r hidden weights ;;? backend_route (ro_backend r) layerId hidden weights (ro_config r))%res.
Definition routeBatch (r : Router) (layerId : Z) (hidden weights : TensorView) : result BatchRouterDecision :=
  (check_device r hidden weights ;;? backend_routeBatch (ro_backend r) layerId hidden weights (ro_config r))%res.
End router.

(** ** The selection *)

Section selection.
Variable expf : f32 -> f32.

Lemma score_loop_spec hidden weights hiddenSize experts l :
  match score_loop hidden weights hiddenSize experts l with
  | Ok scores => length scores = length l /\ Forall (fun x => is_nan x = false) scores
  | Throw e => kind_of e = RuntimeError
  | Diverge => False
  end.
Proof.
  induction l as [|expert l IH]; cbn; [done|].
  destruct (isfinite (dot hidden weights hiddenSize experts expert)) eqn:Hf; cbn; [|done].
  destruct (score_loop _ _ _ _ l) as [scores|e|]; [|done..]. destruct IH as [Hl Hn]. cbn.
  split; [by rewrite Hl|]. constructor; [|done]. by apply f32_of_f64_number, isfinite_not_nan.
Qed.

Lemma fold_add_finite (l : list f32) acc :
  isfinite (foldl (fun acc score => f64_add acc (f64_of_f32 score)) acc l) = true ->
  isfinite acc = true /\ Forall (fun x => isfinite (f64_of_f32 x) = true) l.
Proof.
  revert acc. induction l as [|x l IH]; intros acc Hf; [done|]. cbn in Hf.
  apply IH in Hf as [Ha Hl]. apply f64_add_finite in Ha as [Ha Hx]. split; [done|]. by constructor.
Qed.

Lemma narrow_quotients_number total scores :
  isfinite total = true -> feq total f64_zero = false ->
  isfinite (foldl (fun acc score => f64_add acc (f64_of_f32 score)) f64_zero scores) = true ->
  Forall (fun x => is_nan x = false) (narrow_quotient total <$> scores).
Proof.
  intros Ht H0 Hf. apply fold_add_finite in Hf as [_ Hf]. apply Forall_fmap.
  eapply Forall_impl; [exact Hf|]. intros x Hx. by apply f32_of_f64_number, f64_div_number.
Qed.

Lemma softmax_scores_spec scores :
  match softmax_scores expf scores with
  | Ok scores' => length scores' = length scores /\ Forall (fun x => is_nan x = false) scores'
  | Throw e => kind_of e = RuntimeError
  | Diverge => False
  end.
Proof.
  unfold softmax_scores. set (exps := _ <$> scores). set (denominator := foldl _ _ exps).
  destruct (isfinite denominator) eqn:Hf; [|done]. destruct (fle denominator f64_zero) eqn:Hle; [done|]. cbn.
  split; [unfold exps; by rewrite !length_fmap|]. apply narrow_quotients_number; [done| |done].
  rewrite fle_flt_or_feq in Hle. by apply orb_false_iff in Hle as [_ Hle].
Qed.

Lemma expert_scores_spec c hidden weights hiddenSize :
  match expert_scores expf c hidden weights hiddenSize with
  | Ok scores => length scores = Z.to_nat (expertCount c) /\ Forall (fun x => is_nan x = false) scores
  | Throw e => kind_of e = RuntimeError
  | Diverge => False
  end.
Proof.
  unfold expert_scores. set (experts := Z.to_nat _).
  pose proof (score_loop_spec hidden weights hiddenSize experts (seq 0 experts)) as H.
  destruct (score_loop _ _ _ _ _) as [scores|e|]; [|done..]. rewrite length_seq in H. cbn.
  destruct (normalization c); [done|]. pose proof (softmax_scores_spec scores) as H'.
  destruct (softmax_scores expf scores); [|done..]. destruct H, H'. split; [congruence|done].
Qed.

Lemma score_at_number scores e :
  Forall (fun x => is_nan x = false) scores -> is_nan (score_at scores e) = false.
Proof.
  intros Hn. unfold score_at. destruct (nth_in_or_default (Z.to_nat e) scores f32_zero) as [Hin| ->]; [|done].
  rewrite List.Forall_forall in Hn. by apply Hn.
Qed.

(** With no NaN among them the scores, ties broken by the identifier, order the experts. *)
Lemma preferred_strict_total scores :
  strict_total (preferred scores) (fun e => is_nan (score_at scores e) = false).
Proof.
  assert (forall x y, is_nan (score_at scores x) = false -> is_nan (score_at scores y) = false ->
    preferred scores x y = true <->
    lex3 (fkey (score_at scores y)) (fkey (score_at scores x)) \/
    (fkey (score_at scores x) = fkey (score_at scores y) /\ x < y)) as Hs.
  { intros x y Hx Hy. unfold preferred, fgt. destruct (feq _ _) eqn:He.
    - apply feq_fkey in He; [|done..]. rewrite Z.ltb_lt, He. unfold lex3. destruct (fkey (score_at scores y)) as [[a b] c].
      split; [by right|]. intros [?|[_ ?]]; lia.
    - rewrite flt_fkey by done. apply not_true_iff_false in He. rewrite feq_fkey in He by done. tauto. }
  split_and!.
  - intros x y z Hx Hy Hz. rewrite !Hs by done. unfold lex3.
    destruct (fkey (score_at scores x)) as [[a b] c], (fkey (score_at scores y)) as [[a' b'] c'],
      (fkey (score_at scores z)) as [[a'' b''] c''].
    intros [?|[[= ???] ?]] [?|[[= ???] ?]]; try (left; lia). right. split; [congruence|lia].
  - intros x Hx. apply not_true_iff_false. rewrite Hs by done. unfold lex3. destruct (fkey _) as [[a b] c]. lia.
  - intros x y Hx Hy. rewrite !Hs by done. unfold lex3.
    destruct (fkey (score_at scores x)) as [[a b] c], (fkey (score_at scores y)) as [[a' b'] c'].
    destruct (decide (a = a')), (decide (b = b')), (decide (c = c')); subst; try lia.
    destruct (Z.lt_total x y) as [?|[?|?]]; auto.
Qed.

Lemma iota_nodup n : NoDup (iota n).
Proof. apply NoDup_fmap_2; [intros ???; lia|apply NoDup_seq]. Qed.

Lemma elem_of_iota n e : e ∈ iota n <-> 0 <= e < Z.of_nat n.
Proof.
  unfold iota. rewrite list_elem_of_fmap. setoid_rewrite elem_of_seq. split; [intros (i & -> & ?); lia|].
  intros He. exists (Z.to_nat e). lia.
Qed.

(** What the selection is, among the experts [0..expertCount). *)
Record best_experts (c : RouterConfig) (scores : list f32) (selected : list Z) : Prop := Best {
  be_length : length selected = Z.to_nat (topK c);
  be_nodup : NoDup selected;
  be_range e : e ∈ selected -> 0 <= e < expertCount c;
  be_sorted : StronglySorted (fun left right => preferred scores right left = false) selected;
  be_best e e' : e ∈ selected -> 0 <= e' < expertCount c -> e' ∉ selected -> preferred scores e e' = true;
}.

Lemma select_experts_spec c scores :
  1 <= topK c <= expertCount c -> Forall (fun x => is_nan x = false) scores ->
  best_experts c scores (select_experts c scores).
Proof.
  intros Hk Hn. unfold select_experts. set (l := stable_sort _ _).
  assert (l ≡ₚ iota (Z.to_nat (expertCount c))) as Hp by apply stable_sort_perm.
  assert (NoDup l) as Hnd by (rewrite Hp; apply iota_nodup).
  assert (StronglySorted (not_after (preferred scores)) l) as Hs.
  { apply (stable_sort_sorted _ (fun e => is_nan (score_at scores e) = false)).
    - apply strict_total_weak, preferred_strict_total.
    - apply Forall_forall. intros. by apply score_at_number. }
  assert (forall e, e ∈ l <-> 0 <= e < expertCount c) as Hin.
  { intros e. rewrite Hp, elem_of_iota. lia. }
  assert (length l = Z.to_nat (expertCount c)) as Hl.
  { rewrite Hp. unfold iota. by rewrite length_fmap, length_seq. }
  pose proof (take_drop (Z.to_nat (topK c)) l) as Htd. constructor.
  - rewrite length_take, Hl. lia.
  - rewrite <- Htd in Hnd. by apply NoDup_app in Hnd as [? _].
  - intros e He. apply Hin. rewrite <- Htd. apply elem_of_app. by left.
  - rewrite <- Htd in Hs. by apply StronglySorted_app in Hs as (_ & Hs & _).
  - intros e e' He He' Hne. apply Hin in He'. rewrite <- Htd, elem_of_app in He'.
    destruct He' as [?|He']; [done|]. pose proof (sorted_prefix _ _ _ _ _ Hs He He') as Hb.
    destruct (proj2 (proj2 (preferred_strict_total scores)) e e') as [->|[?|?]];
      [by apply score_at_number..|done|done|congruence].
Qed.

Lemma renormalized_spec c scores :
  match renormalized c scores with
  | Ok scores' => length scores' = length scores
  | Throw e => kind_of e = RuntimeError
  | Diverge => False
  end.
Proof.
  unfold renormalized. destruct (renormalizeSelected c); [|done].
  destruct (negb _ || _); cbn; [done|]. by rewrite length_fmap.
Qed.

Lemma config_validate_bounds c :
  is_u64 (expertCount c) -> is_u64 (topK c) -> config_validate c = Ok tt -> 1 <= topK c <= expertCount c.
Proof.
  unfold config_validate, is_u64. intros ? ? H. destruct (Z.eqb_spec (expertCount c) 0); [done|].
  destruct (u32_max <? expertCount c); [done|]. cbn in H.
  destruct (Z.eqb_spec (topK c) 0); [done|]. destruct (Z.ltb_spec (expertCount c) (topK c)); [done|]. lia.
Qed.

Lemma routeToken_spec layerId hidden weights hiddenSize c :
  1 <= topK c <= expertCount c ->
  match routeToken expf layerId hidden weights hiddenSize c with
  | Ok d => exists scores, expert_scores expf c hidden weights hiddenSize = Ok scores /\
      rd_layerId d = layerId /\ decision_valid d = true /\
      length (routingScores d) = length (selectedExpertIds d) /\
      best_experts c scores (selectedExpertIds d) /\
      renormalized c (score_at scores <$> selectedExpertIds d) = Ok (routingScores d)
  | Throw e => kind_of e = RuntimeError
  | Diverge => False
  end.
Proof.
  intros Hk. unfold routeToken. pose proof (expert_scores_spec c hidden weights hiddenSize) as H.
  destruct (expert_scores expf c hidden weights hiddenSize) as [scores|e|]; [|done..]. destruct H as [_ Hn]. cbn.
  pose proof (select_experts_spec c scores Hk Hn) as Hb. set (selected := select_experts c scores) in *.
  pose proof (renormalized_spec c (score_at scores <$> selected)) as Hr.
  destruct (renormalized c _) as [final|e|] eqn:Hf; [|done..]. cbn. rewrite length_fmap in Hr.
  exists scores. split_and!; [done|done| |done|done|done]. unfold decision_valid. cbn.
  rewrite Hr, Nat.eqb_refl, andb_true_r. apply negb_true_iff, Nat.eqb_neq. rewrite (be_length _ _ _ Hb). lia.
Qed.
End selection.

(** ** The grouping *)

(** The assignments of a batch, in the order they are made: token, expert and score. *)
Fixpoint assignments (token : nat) (tokens : list RouterDecision) : list (Z * Z * f32) :=
  match tokens with
  | [] => []
  | d :: tokens =>
      ((fun a : Z * f32 => (Z.of_nat token, a.1, a.2)) <$> zip (selectedExpertIds d) (routingScores d)) ++
      assignments (S token) tokens
  end.

(** Those of one expert. *)
Definition members (expert : Z) (l : list (Z * Z * f32)) : list (Z * f32) :=
  omap (fun a : Z * Z * f32 => if decide (a.1.2 = expert) then Some (a.1.1, a.2) else None) l.

Lemma members_app expert l l' : members expert (l ++ l') = members expert l ++ members expert l'.
Proof. apply omap_app. Qed.

Lemma members_cons expert token e (score : f32) l :
  members expert ((token, e, score) :: l) =
    if decide (e = expert) then (token, score) :: members expert l else members expert l.
Proof. unfold members. cbn. by destruct (decide _). Qed.

Definition holds_group (l : list (Z * Z * f32)) (group : ExpertTokenGroup) : Prop :=
  length (eg_tokenIndices group) = length (eg_routingScores group) /\
  zip (eg_tokenIndices group) (eg_routingScores group) = members (eg_expertId group) l.

Record groups_ok (l : list (Z * Z * f32)) (g : groups_state) : Prop := GroupsOk {
  go_group i group : snd g !! i = Some group ->
    fst g !! eg_expertId group = Some i /\ holds_group l group /\ members (eg_expertId group) l <> [];
  go_position e i : fst g !! e = Some i -> exists group, snd g !! i = Some group /\ eg_expertId group = e;
  go_absent e : fst g !! e = None -> members e l = [];
}.

Lemma holds_group_snoc l group token e score :
  holds_group l group ->
  holds_group (l ++ [(token, e, score)])
    (if decide (eg_expertId group = e)
     then mkGroup (eg_expertId group) (eg_tokenIndices group ++ [token]) (eg_routingScores group ++ [score])
     else group).
Proof.
  intros [Hl Hz]. unfold holds_group, members in *. destruct (decide (eg_expertId group = e)) as [He|He]; cbn;
    rewrite omap_app; cbn; rewrite ?decide_True, ?decide_False by congruence.
  - rewrite !length_app, Hl. split; [done|]. rewrite zip_with_app by done. by rewrite Hz.
  - by rewrite app_nil_r.
Qed.

Lemma members_snoc e' l token e score :
  members e' (l ++ [(token, e, score)]) = members e' l ++ (if decide (e = e') then [(token, score)] else []).
Proof. rewrite members_app. cbn. by destruct (decide (e = e')). Qed.

(** A group, after an assignment was added to it or to another. *)
Lemma go_group_snoc l (positions : gmap Z nat) (i : nat) group token e score :
  positions !! eg_expertId group = Some i /\ holds_group l group /\ members (eg_expertId group) l <> [] ->
  let group' := if decide (eg_expertId group = e)
    then mkGroup (eg_expertId group) (eg_tokenIndices group ++ [token]) (eg_routingScores group ++ [score])
    else group in
  positions !! eg_expertId group' = Some i /\ holds_group (l ++ [(token, e, score)]) group' /\
  members (eg_expertId group') (l ++ [(token, e, score)]) <> [].
Proof.
  intros (Hp & Hh & Hn). cbv zeta. split; [by destruct (decide _)|]. split; [by apply holds_group_snoc|].
  rewrite members_snoc. destruct (decide (eg_expertId group = e)); cbn; by destruct (members _ l).
Qed.

Lemma add_assignment_ok l g token e score :
  groups_ok l g -> groups_ok (l ++ [(token, e, score)]) (add_assignment token g (e, score)).
Proof.
  destruct g as [positions groups]. intros [Hg Hp Ha]. cbn [fst snd] in *. unfold add_assignment.
  destruct (positions !! e) as [i0|] eqn:He.
  - destruct (Hp e i0 He) as (g0 & Hg0 & Hid). constructor; cbn [fst snd].
    + intros i group Hi. destruct (decide (i = i0)) as [->|Hne].
      * rewrite list_lookup_alter_eq, Hg0 in Hi. injection Hi as <-.
        pose proof (go_group_snoc l positions i0 g0 token e score (Hg _ _ Hg0)) as Hs.
        by rewrite decide_True in Hs by done.
      * rewrite list_lookup_alter_ne in Hi by done.
        pose proof (go_group_snoc l positions i group token e score (Hg _ _ Hi)) as Hs.
        rewrite decide_False in Hs; [done|]. intros Heq. destruct (Hg _ _ Hi) as [Hpos _]. congruence.
    + intros e' i Hi. destruct (Hp e' i Hi) as (group & Hgr & Hid'). destruct (decide (i = i0)) as [->|Hne].
      * eexists. rewrite list_lookup_alter_eq, Hgr. done.
      * exists group. by rewrite list_lookup_alter_ne.
    + intros e' Hn. rewrite members_snoc, (Ha e' Hn). by rewrite decide_False by congruence.
  - rewrite alter_app_r_alt, Nat.sub_diag by done. cbn. constructor; cbn [fst snd].
    + intros i group [[Hlt Hi]|[-> <-]]%lookup_snoc_Some.
      * destruct (Hg _ _ Hi) as (Hpos & _). assert (eg_expertId group <> e) as Hne by congruence.
        pose proof (go_group_snoc l positions i group token e score (Hg _ _ Hi)) as Hs.
        rewrite decide_False in Hs by done. by rewrite lookup_insert_ne.
      * cbn. rewrite lookup_insert_eq, members_snoc, decide_True by done. unfold holds_group. cbn.
        by rewrite members_snoc, decide_True, (Ha e He) by done.
    + intros e' i Hi. destruct (decide (e' = e)) as [->|Hne].
      * rewrite lookup_insert_eq in Hi. injection Hi as <-. eexists. by rewrite list_lookup_middle.
      * rewrite lookup_insert_ne in Hi by done. destruct (Hp e' i Hi) as (group & Hgr & Hid').
        exists group. split; [|done]. by apply lookup_app_l_Some.
    + intros e' [Hn Hne]%lookup_insert_None. rewrite members_snoc, (Ha e' Hn). by rewrite decide_False.
Qed.

Lemma add_assignments_ok l g token pairs :
  groups_ok l g ->
  groups_ok (l ++ ((fun a : Z * f32 => (token, a.1, a.2)) <$> pairs)) (foldl (add_assignment token) g pairs).
Proof.
  revert l g. induction pairs as [|[e score] pairs IH]; intros l g Hg; cbn; [by rewrite app_nil_r|].
  rewrite cons_middle, app_assoc. apply IH. by apply add_assignment_ok.
Qed.

(** Every assignment is in one group. *)
Definition assigned (groups : list ExpertTokenGroup) : nat :=
  sum_list_with (fun group => length (eg_tokenIndices group)) groups.

Lemma add_assignment_assigned l g token a :
  groups_ok l g -> assigned (snd (add_assignment token g a)) = S (assigned (snd g)).
Proof.
  destruct g as [positions groups], a as [e score]. intros Hg. unfold add_assignment.
  assert (forall update i (gs : list ExpertTokenGroup) g0, gs !! i = Some g0 ->
    length (eg_tokenIndices (update g0)) = S (length (eg_tokenIndices g0)) ->
    assigned (alter update i gs) = S (assigned gs)) as Hsum.
  { intros update i gs. revert i. unfold assigned. induction gs as [|g gs IH]; intros [|i] g0 Hi Hu; try done; cbn in *.
    - injection Hi as ->. lia.
    - rewrite (IH i g0) by done. lia. }
  destruct (positions !! e) as [i|] eqn:He; cbn [snd].
  - destruct (go_position _ _ Hg e i He) as (g0 & Hg0 & _). cbn in Hg0. apply (Hsum _ _ _ g0); [done|].
    cbn. rewrite length_app. cbn. lia.
  - erewrite Hsum; [|by rewrite list_lookup_middle|done].
    unfold assigned. rewrite sum_list_with_app. cbn. lia.
Qed.

Lemma add_assignments_assigned l g token pairs :
  groups_ok l g -> assigned (snd (foldl (add_assignment token) g pairs)) = (assigned (snd g) + length pairs)%nat.
Proof.
  revert l g. induction pairs as [|[e score] pairs IH]; intros l g Hg; cbn [foldl length]; [lia|].
  rewrite (IH (l ++ [(token, e, score)])) by by apply add_assignment_ok.
  rewrite (add_assignment_assigned l) by done. lia.
Qed.

(** Two groups never share an expert. *)
Lemma groups_nodup l g : groups_ok l g -> NoDup (eg_expertId <$> snd g).
Proof.
  intros Hg. apply NoDup_alt. intros i j e Hi Hj. rewrite !list_lookup_fmap in Hi, Hj.
  destruct (snd g !! i) as [gi|] eqn:Hgi; [|done]. destruct (snd g !! j) as [gj|] eqn:Hgj; [|done].
  injection Hi as <-. injection Hj as Heq.
  destruct (go_group _ _ Hg _ _ Hgi) as [H1 _]. destruct (go_group _ _ Hg _ _ Hgj) as [H2 _]. congruence.
Qed.

Lemma by_expert_strict_weak : strict_weak by_expert (fun _ => True).
Proof. unfold by_expert. split; intros *; rewrite ?Z.ltb_lt, ?Z.ltb_ge; lia. Qed.

Lemma sorted_groups_increasing groups :
  NoDup (eg_expertId <$> groups) -> StronglySorted Z.lt (eg_expertId <$> stable_sort by_expert groups).
Proof.
  intros Hnd. pose proof (stable_sort_perm by_expert groups) as Hp.
  pose proof (stable_sort_sorted by_expert _ groups by_expert_strict_weak ltac:(by apply Forall_true)) as Hs.
  rewrite <- Hp in Hnd. clear Hp. induction Hs as [|g gs Hs IH Hg]; cbn in *; [constructor|].
  apply NoDup_cons in Hnd as [Hni Hnd]. constructor; [by apply IH|]. apply Forall_fmap, Forall_forall.
  intros g' Hg'. rewrite Forall_forall in Hg. specialize (Hg g' Hg'). unfold not_after, by_expert in Hg.
  apply Z.ltb_ge in Hg. cbn. destruct (decide (eg_expertId g = eg_expertId g')) as [Heq|]; [|lia].
  exfalso. apply Hni. rewrite Heq. by apply list_elem_of_fmap_2.
Qed.

(** An expert is assigned a token once at most. *)
Lemma members_decision e token d :
  NoDup (selectedExpertIds d) ->
  let l := members e ((fun a : Z * f32 => (token, a.1, a.2)) <$> zip (selectedExpertIds d) (routingScores d)) in
  (length l <= 1)%nat /\ Forall (fun p => p.1 = token) l.
Proof.
  cbv zeta. generalize (routingScores d). induction (selectedExpertIds d) as [|x xs IH]; intros ss Hnd; [split; [cbn; lia|constructor]|].
  apply NoDup_cons in Hnd as [Hx Hnd]. destruct ss as [|s ss]; [split; [cbn; lia|constructor]|].
  cbn [zip zip_with fmap list_fmap fst snd]. rewrite members_cons. fold (zip xs ss).
  destruct (IH ss Hnd) as [Hl Hf]. destruct (decide (x = e)) as [->|]; [|done].
  assert (members e ((fun a : Z * f32 => (token, a.1, a.2)) <$> zip xs ss) = []) as ->; [|by repeat constructor].
  clear -Hx. revert ss. induction xs as [|y ys IH]; intros [|s ss]; try done.
  apply not_elem_of_cons in Hx as [Hne Hx]. cbn [zip zip_with fmap list_fmap fst snd].
  rewrite members_cons, decide_False by done. by apply IH.
Qed.

Lemma members_sorted e start tokens :
  Forall (fun d => NoDup (selectedExpertIds d)) tokens ->
  NoDup (members e (assignments start tokens)).*1 /\
  Forall (fun t => Z.of_nat start <= t < Z.of_nat (start + length tokens)) (members e (assignments start tokens)).*1.
Proof.
  revert start. induction tokens as [|d tokens IH]; intros start Hnd; [split; constructor|].
  apply Forall_cons in Hnd as [Hd Hnd]. destruct (IH (S start) Hnd) as [H1 H2].
  destruct (members_decision e (Z.of_nat start) d Hd) as [Hl Hf]. cbn [assignments].
  rewrite members_app, fmap_app. set (l := members e (_ <$> _)) in *.
  assert (Forall (fun t => t = Z.of_nat start) l.*1) as Hf' by by apply Forall_fmap.
  rewrite Forall_forall in Hf', H2. split.
  - apply NoDup_app. split_and!; [|intros t Ht%Hf' Ht'%H2; lia|done].
    destruct l as [|? [|? ?]]; cbn in *; [constructor|apply NoDup_singleton|lia].
  - apply Forall_forall. intros t [Ht%Hf'|Ht%H2]%elem_of_app; cbn [length]; lia.
Qed.

Lemma members_scores (P : f32 -> Prop) e start tokens :
  Forall (fun d => Forall P (routingScores d)) tokens -> Forall P (members e (assignments start tokens)).*2.
Proof.
  revert start. induction tokens as [|d tokens IH]; intros start HP; [constructor|].
  apply Forall_cons in HP as [Hd HP]. cbn [assignments]. rewrite members_app, fmap_app. apply Forall_app.
  split; [|by apply IH]. clear -Hd. revert Hd. generalize (routingScores d).
  induction (selectedExpertIds d) as [|x xs IHx]; intros [|s ss] Hs; try constructor.
  apply Forall_cons in Hs as [Hs Hss]. cbn [zip zip_with fmap list_fmap fst snd]. rewrite members_cons.
  destruct (decide (x = e)); [cbn; constructor; [done|]|]; by apply IHx.
Qed.

(** A batch is accepted exactly when its scores are finite. *)
Definition accepted_if_finite (scores : list f32) (r : result unit) : Prop :=
  match r with
  | Ok _ => Forall (fun w => isfinite w = true) scores
  | Throw e => kind_of e = InvalidArgument /\ ~ Forall (fun w => isfinite w = true) scores
  | Diverge => False
  end.

Lemma batch_loop_exact tokenCount seen l :
  NoDup l.*1 -> Forall (fun t => t < tokenCount /\ t ∉ seen) l.*1 -> accepted_if_finite l.*2 (batch_loop tokenCount seen l).
Proof.
  revert seen. induction l as [|[t w] l IH]; intros seen Hnd Ht; [by apply Forall_nil|]. cbn in *.
  apply NoDup_cons in Hnd as [Hni Hnd]. apply Forall_cons in Ht as [[Hlt Hns] Ht].
  destruct (Z.leb_spec tokenCount t); [lia|]. rewrite bool_decide_eq_false_2 by done. rewrite orb_false_r. cbn [orb].
  destruct (isfinite w) eqn:Hw; cbn [negb throw_if res_bind accepted_if_finite].
  - assert (accepted_if_finite l.*2 (batch_loop tokenCount ({[t]} ∪ seen) l)) as Hb.
    { apply IH; [done|]. rewrite Forall_forall in Ht |- *. intros t' Ht'. destruct (Ht t' Ht').
      split; [done|]. rewrite elem_of_union, elem_of_singleton. intros [->|]; done. }
    destruct (batch_loop _ _ _) as [u|e|]; cbn in *; [by constructor| |done].
    split; [apply Hb|]. intros [_ Hl]%Forall_cons. by apply Hb.
  - split; [done|]. intros [Hf _]%Forall_cons. congruence.
Qed.

Section batches.
Variable expf : f32 -> f32.

Lemma length_assignments start tokens :
  Forall (fun d => length (routingScores d) = length (selectedExpertIds d)) tokens ->
  length (assignments start tokens) = sum_list_with (fun d => length (selectedExpertIds d)) tokens.
Proof.
  intros Hl. revert start. induction Hl as [|d tokens Hd Hl IH]; intros start; [done|].
  cbn [assignments sum_list_with]. rewrite length_app, length_fmap, length_zip_with, IH. lia.
Qed.

Lemma token_loop_spec layerId hidden weights hiddenSize c start n l g :
  1 <= topK c <= expertCount c -> groups_ok l g ->
  match token_loop expf layerId hidden weights hiddenSize c (seq start n) g with
  | Ok (ds, g') => length ds = n /\ groups_ok (l ++ assignments start ds) g' /\
      assigned (snd g') = (assigned (snd g) + sum_list_with (fun d => length (selectedExpertIds d)) ds)%nat /\
      forall i d, ds !! i = Some d ->
        routeToken expf layerId (drop ((start + i) * hiddenSize) hidden) weights hiddenSize c = Ok d
  | Throw e => kind_of e = RuntimeError
  | Diverge => False
  end.
Proof.
  intros Hk. revert start l g. induction n as [|n IH]; intros start l g Hg.
  { cbn. rewrite app_nil_r. split_and!; [done|done|lia|done]. }
  cbn [seq token_loop]. pose proof (routeToken_spec expf layerId (drop (start * hiddenSize) hidden) weights hiddenSize c Hk) as Hr.
  destruct (routeToken _ _ _ _ _ _) as [d|e|] eqn:Hd; [|done..]. cbn [res_bind].
  destruct Hr as (_ & _ & _ & _ & Hl & _).
  pose proof (add_assignments_ok l g (Z.of_nat start) (zip (selectedExpertIds d) (routingScores d)) Hg) as Hg'.
  pose proof (add_assignments_assigned l g (Z.of_nat start) (zip (selectedExpertIds d) (routingScores d)) Hg) as Ha'.
  rewrite length_zip_with in Ha'. set (g1 := foldl _ _ _) in *. specialize (IH (S start) _ g1 Hg').
  destruct (token_loop _ _ _ _ _ _ _ _) as [[ds g2]|e|]; [|done..]. cbn. destruct IH as (Hlen & Hok & Ha & Hds).
  split_and!; [by rewrite Hlen|by rewrite app_assoc|lia|].
  intros [|i] d'; cbn; [intros [= <-]; by rewrite Nat.add_0_r|]. intros Hi. rewrite Nat.add_succ_r. by apply Hds.
Qed.

(** A batch, as the runtime checks and uses it. *)
Record batch_exact (layerId : Z) (b : BatchRouterDecision) : Prop := BatchExact {
  bx_valid : batch_valid b = true;
  bx_increasing : StronglySorted Z.lt (eg_expertId <$> br_expertGroups b);
  bx_members : Forall (holds_group (assignments 0 (br_tokens b))) (br_expertGroups b);
  bx_selected e : e ∈ eg_expertId <$> br_expertGroups b <-> members e (assignments 0 (br_tokens b)) <> [];
  bx_total : assigned (br_expertGroups b) =
    sum_list_with (fun d => length (selectedExpertIds d)) (br_tokens b);
  bx_batches group : group ∈ br_expertGroups b ->
    accepted_if_finite (eg_routingScores group)
      (expertBatch_validate (Z.of_nat (length (br_tokens b)))
        (mkExpertBatch layerId (eg_expertId group) (eg_tokenIndices group) (eg_routingScores group)));
}.

Lemma holds_group_split l group :
  holds_group l group ->
  eg_tokenIndices group = (members (eg_expertId group) l).*1 /\
  eg_routingScores group = (members (eg_expertId group) l).*2.
Proof. intros [Hl <-]. by rewrite fst_zip, snd_zip by lia. Qed.

Lemma batch_exact_validates layerId b group :
  batch_exact layerId b -> group ∈ br_expertGroups b ->
  Forall (fun d => Forall (fun w => isfinite w = true) (routingScores d)) (br_tokens b) ->
  expertBatch_validate (Z.of_nat (length (br_tokens b)))
    (mkExpertBatch layerId (eg_expertId group) (eg_tokenIndices group) (eg_routingScores group)) = Ok tt.
Proof.
  intros Hx Hin Hfin. pose proof (bx_batches _ _ Hx group Hin) as Hb.
  pose proof (bx_members _ _ Hx) as Hm. rewrite Forall_forall in Hm.
  destruct (expertBatch_validate _ _) as [[]|e|]; [done| |done]. destruct Hb as [_ Hn]. exfalso. apply Hn.
  rewrite (proj2 (holds_group_split _ _ (Hm group Hin))). by apply members_scores.
Qed.

Lemma route_rows_exact layerId hidden weights tokenCount hiddenSize c :
  1 <= topK c <= expertCount c -> (0 < tokenCount)%nat ->
  match route_rows expf layerId hidden weights tokenCount hiddenSize c with
  | Ok b => br_layerId b = layerId /\ length (br_tokens b) = tokenCount /\
      (forall i d, br_tokens b !! i = Some d ->
         routeToken expf layerId (drop (i * hiddenSize) hidden) weights hiddenSize c = Ok d) /\
      batch_exact layerId b
  | Throw e => kind_of e = RuntimeError
  | Diverge => False
  end.
Proof.
  intros Hk Hn. unfold route_rows. assert (groups_ok [] (∅, [])) as Hg0 by (constructor; done).
  pose proof (token_loop_spec layerId hidden weights hiddenSize c 0 tokenCount [] (∅, []) Hk Hg0) as H.
  destruct (token_loop _ _ _ _ _ _ _ _) as [[ds g]|e|]; [|done..]. cbn [res_bind fst snd br_tokens br_layerId] in *.
  destruct H as (Hlen & Hg & Ha & Hds). cbn in Ha. split_and!; [done|done|done|].
  pose proof (stable_sort_perm by_expert (snd g)) as Hp. set (groups := stable_sort by_expert (snd g)) in *.
  assert (Forall (fun group => holds_group (assignments 0 ds) group /\ members (eg_expertId group) (assignments 0 ds) <> [])
    groups) as Hh.
  { apply Forall_forall. intros group Hgr. rewrite Hp in Hgr. apply list_elem_of_lookup_1 in Hgr as [i Hi].
    by destruct (go_group _ _ Hg _ _ Hi) as (_ & ? & ?). }
  assert (Forall (fun d => decision_valid d = true /\ rd_layerId d = layerId /\ NoDup (selectedExpertIds d)) ds) as Hd.
  { apply Forall_forall. intros d [i Hi]%list_elem_of_lookup_1.
    pose proof (routeToken_spec expf layerId (drop ((0 + i) * hiddenSize) hidden) weights hiddenSize c Hk) as Hr.
    rewrite (Hds i d Hi) in Hr. destruct Hr as (? & _ & ? & ? & _ & [] & _). done. }
  constructor; cbn [br_tokens br_expertGroups br_layerId].
  - unfold batch_valid. cbn. rewrite !andb_true_iff, !forallb_forall. split_and!.
    + apply negb_true_iff, Nat.eqb_neq. lia.
    + intros d Hin. rewrite List.Forall_forall in Hd. destruct (Hd d Hin) as (-> & -> & _).
      by rewrite Z.eqb_refl.
    + intros group Hin. rewrite List.Forall_forall in Hh. destruct (Hh group Hin) as [Hhg Hne].
      destruct (holds_group_split _ _ Hhg) as [Ht _]. destruct Hhg as [-> _] in Ht |- *.
      rewrite <- (proj1 (proj1 (Hh group Hin))), Nat.eqb_refl, andb_true_r, Ht, length_fmap.
      apply negb_true_iff, Nat.eqb_neq. by destruct (members _ _).
  - apply sorted_groups_increasing. by eapply groups_nodup.
  - eapply Forall_impl; [exact Hh|]. by intros ? [? _].
  - intros e. rewrite Hp. split.
    + intros (group & -> & Hin)%list_elem_of_fmap. rewrite <- Hp in Hin.
      rewrite Forall_forall in Hh. by apply Hh.
    + intros Hne. destruct (fst g !! e) as [i|] eqn:Hi.
      * destruct (go_position _ _ Hg e i Hi) as (group & Hgr & <-). apply list_elem_of_fmap_2. by eapply list_elem_of_lookup_2.
      * by apply (go_absent _ _ Hg) in Hi.
  - rewrite <- Ha. unfold assigned. by rewrite Hp.
  - intros group Hin. rewrite Forall_forall in Hh. destruct (Hh group Hin) as [Hhg Hne].
    destruct (holds_group_split _ _ Hhg) as [Ht Hs]. unfold expertBatch_validate. cbn.
    destruct (members_sorted (eg_expertId group) 0 ds) as [Hnd Hr].
    { eapply Forall_impl; [exact Hd|]. by intros ? (_ & _ & ?). }
    rewrite (proj2 Hhg), (proj1 Hhg), Nat.eqb_refl. rewrite Hs, length_fmap.
    destruct (members (eg_expertId group) (assignments 0 ds)) as [|p ps] eqn:Hm; [done|]. rewrite <- Hm in *.
    rewrite Hm at 2. cbn [length Nat.eqb negb orb].
    destruct (Z.eqb_spec (Z.of_nat (length ds)) 0); [lia|]. cbn [throw_if res_bind orb]. apply batch_loop_exact; [done|].
    eapply Forall_impl; [exact Hr|]. cbn. intros t ?. split; [lia|set_solver].
Qed.
End batches.

(** C27: The selection of the router.  On every input it ends with a decision or a
    [std::runtime_error]; a decision selects [topK] distinct experts of the
    configured ones, best first, such that every expert left out has a lower score, or
    an equal one and a larger identifier; no score is a NaN, so the order the selection
    is given is one. *)
Theorem route_top_k expf layerId hidden weights hiddenSize c
    (Hu : is_u64 (expertCount c) /\ is_u64 (topK c)) (Hv : config_validate c = Ok tt) :
  match routeToken expf layerId hidden weights hiddenSize c with
  | Ok d => exists scores,
      expert_scores expf c hidden weights hiddenSize = Ok scores /\
      length scores = Z.to_nat (expertCount c) /\ Forall (fun x => is_nan x = false) scores /\
      rd_layerId d = layerId /\ decision_valid d = true /\
      best_experts c scores (selectedExpertIds d) /\
      renormalized c (score_at scores <$> selectedExpertIds d) = Ok (routingScores d)
  | Throw e => kind_of e = RuntimeError
  | Diverge => False
  end.
Proof.
  pose proof (config_validate_bounds c (proj1 Hu) (proj2 Hu) Hv) as Hk.
  pose proof (routeToken_spec expf layerId hidden weights hiddenSize c Hk) as Hr.
  destruct (routeToken _ _ _ _ _ _) as [d|e|]; [|done..].
  destruct Hr as (scores & Hs & Hl & Hd & _ & Hb & Hn). exists scores.
  pose proof (expert_scores_spec expf c hidden weights hiddenSize) as He. rewrite Hs in He. destruct He. done.
Qed.

Lemma config_validate_cases c :
  config_validate c = Ok tt \/ exists e, config_validate c = Throw e /\ kind_of e = InvalidArgument.
Proof.
  unfold config_validate, throw_if.
  destruct (expertCount c =? 0); [by right; eexists|]. destruct (u32_max <? expertCount c); [by right; eexists|].
  destruct ((topK c =? 0) || (expertCount c <? topK c)); [by right; eexists|by left].
Qed.

Lemma validateInputs_Ok alive hidden weights c :
  match validateInputs alive hidden weights c with
  | Ok _ => config_validate c = Ok tt /\ rank (shape_ hidden) = 2%nat
  | Throw e => kind_of e = InvalidArgument
  | Diverge => False
  end.
Proof.
  unfold validateInputs. destruct (config_validate_cases c) as [->|(e & -> & ?)]; [|done]. cbn [res_bind].
  set (before := orb _ (negb (view_isContiguous weights))). clearbody before.
  destruct before; [done|]. cbn [orb].
  destruct (Nat.eqb_spec (rank (shape_ hidden)) 2) as [Hr|]; [|done]. cbn [negb orb].
  destruct (_ =? _)%nat; [|done]. cbn [negb throw_if res_bind]. by destruct (_ || _).
Qed.

(** C26: A routed batch.  Over the CPU backend the router returns, for every row of the
    hidden states, the decision of that row, and groups them exactly: a group for each
    expert some token selected, in increasing order of the experts, with the tokens that
    selected it and the scores they gave it, in the order of the tokens; the groups hold
    every assignment and the batch is valid.  The runtime's check of a group as an expert
    batch succeeds exactly when its scores are finite: without normalization a finite
    double may round to an infinite score, and such a group is refused. *)
Theorem batch_groups_exact (r : @Router CpuRouterBackend) layerId hiddenStates routerWeights b
    (Hu : is_u64 (expertCount (ro_config r)) /\ is_u64 (topK (ro_config r))) (Hw : view_wf b hiddenStates) :
  match routeBatch r layerId hiddenStates routerWeights with
  | Ok batch =>
      br_layerId batch = layerId /\ Z.of_nat (length (br_tokens batch)) = dim hiddenStates 0 /\
      (forall i d, br_tokens batch !! i = Some d ->
         routeToken (cr_expf (ro_backend r)) layerId
           (drop (i * Z.to_nat (dim hiddenStates 1)) (floats (cr_memory (ro_backend r)) hiddenStates))
           (floats (cr_memory (ro_backend r)) routerWeights) (Z.to_nat (dim hiddenStates 1)) (ro_config r) = Ok d) /\
      batch_exact layerId batch
  | Throw e => kind_of e = InvalidArgument \/ kind_of e = RuntimeError
  | Diverge => False
  end.
Proof.
  unfold routeBatch, check_device. destruct (negb _ || negb _); cbn; [by left|]. unfold cpu_routeBatch.
  pose proof (validateInputs_Ok (cr_alive (ro_backend r)) hiddenStates routerWeights (ro_config r)) as Hv.
  destruct (validateInputs _ _ _ _); [|by left|done]. cbn. destruct Hv as [Hv Hr].
  pose proof (config_validate_bounds _ (proj1 Hu) (proj2 Hu) Hv) as Hk.
  assert (1 <= dim hiddenStates 0) as Hd.
  { pose proof (sw_dims _ (vw_shape _ _ Hw)) as Hds. unfold dim, rank in *.
    destruct (dimensions (shape_ hiddenStates)) as [|d ds]; [done|]. by apply Forall_cons in Hds as [? _]. }
  pose proof (route_rows_exact (cr_expf (ro_backend r)) layerId (floats (cr_memory (ro_backend r)) hiddenStates)
    (floats (cr_memory (ro_backend r)) routerWeights) (Z.to_nat (dim hiddenStates 0)) (Z.to_nat (dim hiddenStates 1))
    (ro_config r) Hk ltac:(lia)) as H.
  destruct (route_rows _ _ _ _ _ _ _); [|by right|done]. destruct H as (? & Hl & ? & ?). split_and!; [done| |done|done].
  lia.
Qed.

(** Witness: two tokens of two values over three experts, the two best of each. *)
Definition routing_expf (x : f32) : f32 := SFabs (f32_add (f32_of_Z 1) (f32_div x (f32_of_Z 4))).
Definition routing_config : RouterConfig := mkRouterConfig 3 2 Softmax true.
Definition routing_hidden : TensorView := mkView (mkShape [2; 2] [2; 1] 4 4) FP32 cpu 4096 0 16 16 (Some 1).
Definition routing_weights : TensorView := mkView (mkShape [2; 3] [3; 1] 6 6) FP32 cpu 8192 0 24 24 (Some 2).
Definition routing_storage : DeviceBuffer := mkBuffer 1 4096 16 (Some (CPU, 0)).

(** Every word is one, but the second value of the second token and the weight of its
    last expert, which are two. *)
Definition routing_memory (address : Z) : Z :=
  if (address =? 4108) || (address =? 8212) then 1073741824 else 1065353216.
Definition routing_backend : CpuRouterBackend := mkCpuRouter routing_expf {[1; 2]} routing_memory.
Definition routing_router : @Router CpuRouterBackend := mkRouter routing_config routing_backend.

Lemma routing_config_valid : (is_u64 (expertCount routing_config) /\ is_u64 (topK routing_config)) /\
  config_validate routing_config = Ok tt.
Proof. unfold is_u64, u64_max. cbn. split; [lia|reflexivity]. Qed.

Lemma routing_view_wf : view_wf routing_storage routing_hidden.
Proof.
  apply view_on_wf, (on_host _ {[1]} (mkShape [2; 2] [2; 1] 4 4) FP32 false); [|vm_compute; reflexivity].
  apply (contiguousShape_wf [2; 2]); [apply small_u64|]; vm_compute; reflexivity.
Qed.

Lemma routing_token :
  (d <-? routeToken routing_expf 0 [(f32_of_Z 1); (f32_of_Z 1)] (f32_of_Z <$> [1; 2; 2; 1; 1; 1]) 2 routing_config ;;
   Ok (selectedExpertIds d))%res = Ok [1; 2].
Proof. vm_compute. reflexivity. Qed.

Lemma routing_groups :
  (b <-? routeBatch routing_router 0 routing_hidden routing_weights ;;
   Ok ((fun g => (eg_expertId g, eg_tokenIndices g)) <$> br_expertGroups b))%res = Ok [(0, [0; 1]); (2, [0; 1])].
Proof. vm_compute. reflexivity. Qed.

Lemma route_top_k_witness :
  config_validate routing_config = Ok tt /\
  exists scores, best_experts routing_config scores [1; 2].
Proof.
  split; [apply routing_config_valid|].
  pose proof (route_top_k routing_expf 0 [f32_of_Z 1; f32_of_Z 1] (f32_of_Z <$> [1; 2; 2; 1; 1; 1]) 2 routing_config
    (proj1 routing_config_valid) (proj2 routing_config_valid)) as H. pose proof routing_token as Ht.
  destruct (routeToken _ _ _ _ _ _) as [d|e|]; [|discriminate..]. injection Ht as Hs.
  destruct H as (scores & _ & _ & _ & _ & _ & Hb & _). exists scores. by rewrite Hs in Hb.
Defined.

Lemma batch_groups_exact_witness :
  view_wf routing_storage routing_hidden /\
  exists batch, routeBatch routing_router 0 routing_hidden routing_weights = Ok batch /\
    length (br_tokens batch) = 2%nat /\ batch_exact 0 batch.
Proof.
  split; [exact routing_view_wf|].
  pose proof (batch_groups_exact routing_router 0 routing_hidden routing_weights routing_storage
    (proj1 routing_config_valid) routing_view_wf) as H. pose proof routing_groups as Hg.
  destruct (routeBatch _ _ _ _) as [batch|e|]; [|discriminate..].
  destruct H as (_ & Hl & _ & Hb). exists batch. split; [done|]. split; [|done]. apply Nat2Z.inj, Hl.
Defined.

(** Without normalization a finite score that no [float] holds is routed as infinite, and
    the runtime refuses the batch. *)
Definition huge : f32 := f32_of_bits 2130706432.
Definition raw_config : RouterConfig := mkRouterConfig 2 1 NoNormalization false.

Lemma infinite_score_refused :
  exists b, route_rows routing_expf 0 [huge] [huge; f32_of_Z 1] 1 1 raw_config = Ok b /\ batch_valid b = true /\
    (eg_routingScores <$> br_expertGroups b) = [[S754_infinity false]] /\
    expertBatch_validate 1 (mkExpertBatch 0 0 [0] [S754_infinity false]) =
      Throw (Exn InvalidArgument "expert batch contains an invalid token assignment").
Proof. eexists. repeat split; vm_compute; reflexivity. Qed.
