(* ===== verification/Session.v ===== *)
(** * An inference session

    [src/runtime/generation/]: the token state machine [GenerationState], the result of
    a forward pass [ForwardState], the session over a cache of [KVCacheManager], and the
    [Decoder] that advances it.  The model is an implementation of the interface
    [GenerationModel]: its operations are arguments, its promises a class of laws.  The
    counters of [ExecutionMetadata] are not part of the state. *)

From S2P Require Import Prelude Float Tiers Tensor KVCache CudaKVCache KVCacheManager Router.

(** ** The token state machine *)

Inductive GenerationStopReason : Type := NoStop | MaximumTokens | StopToken.
#[global] Instance GenerationStopReason_eq_dec : EqDecision GenerationStopReason.
Proof. solve_decision. Defined.

Record GenerationState : Type := mkGeneration {
  maximumNewTokens_ : Z;
  stopTokenIds_ : gset Z;
  promptTokens_ : list Z;
  generatedTokens_ : list Z;
  currentTokenPosition_ : Z;
  active_ : bool;
  stopReason_ : GenerationStopReason;
}.

Definition newGenerationState (maximumNewTokens : Z) (stopTokenIds : list Z) : result GenerationState :=
  (throw_if (maximumNewTokens =? 0) (Exn InvalidArgument "generation requires at least one output token") ;;?
   Ok (mkGeneration maximumNewTokens (list_to_set stopTokenIds) [] [] 0 false NoStop))%res.

Definition finished (g : GenerationState) : bool := negb (bool_decide (stopReason_ g = NoStop)).

Definition begin (promptTokens : list Z) : ST GenerationState unit :=
  (g <- st_get ;;
   lift (throw_if (active_ g || (length promptTokens =? 0)%nat)
     (Exn LogicError "generation state requires one nonempty prompt")) ;;;
   modify (fun g => mkGeneration (maximumNewTokens_ g) (stopTokenIds_ g) promptTokens [] 0 true NoStop))%st.

Definition advancePosition (tokenCount : Z) : ST GenerationState unit :=
  (g <- st_get ;;
   lift (throw_if (negb (active_ g) || finished g || (tokenCount =? 0) ||
                   (u64_max - currentTokenPosition_ g <? tokenCount))
     (Exn LogicError "generation token position cannot advance")) ;;;
   modify (fun g => mkGeneration (maximumNewTokens_ g) (stopTokenIds_ g) (promptTokens_ g) (generatedTokens_ g)
     (wrap64 (currentTokenPosition_ g + tokenCount)) (active_ g) (stopReason_ g)))%st.

Definition finish (reason : GenerationStopReason) : ST GenerationState unit :=
  (g <- st_get ;;
   lift (throw_if (negb (active_ g) || finished g || bool_decide (reason = NoStop))
     (Exn LogicError "generation stop reason is invalid")) ;;;
   modify (fun g => mkGeneration (maximumNewTokens_ g) (stopTokenIds_ g) (promptTokens_ g) (generatedTokens_ g)
     (currentTokenPosition_ g) (active_ g) reason))%st.

Definition push_generated (tokenId : Z) (g : GenerationState) : GenerationState :=
  mkGeneration (maximumNewTokens_ g) (stopTokenIds_ g) (promptTokens_ g) (generatedTokens_ g ++ [tokenId])
    (currentTokenPosition_ g) (active_ g) (stopReason_ g).

Definition appendGenerated (tokenId : Z) : ST GenerationState bool :=
  (g <- st_get ;;
   lift (throw_if (negb (active_ g) || finished g ||
                   (maximumNewTokens_ g <=? Z.of_nat (length (generatedTokens_ g))))
     (Exn LogicError "generation state cannot accept another token")) ;;;
   modify (push_generated tokenId) ;;;
   g <- st_get ;;
   (if bool_decide (tokenId ∈ stopTokenIds_ g) then finish StopToken
    else if Z.of_nat (length (generatedTokens_ g)) =? maximumNewTokens_ g then finish MaximumTokens
    else ret tt) ;;;
   gets finished)%st.

(** ** The result of a forward pass *)

Record ForwardPass : Type := mkPass {
  fp_hiddenStates : Tensor;
  fp_logits : Tensor;
  fp_finalLayer : Z;
  fp_routing : list RouterDecision;
}.

Record ForwardState : Type := mkForward {
  hiddenStates_ : Tensor;
  logits_ : Tensor;
  currentLayer_ : Z;
  tokenPosition_ : Z;
  attention_ : Z * Z;   (* inputTokenCount, cachedTokenCount *)
  routing_ : list RouterDecision;
}.

(** [Tensor()] *)
Definition emptyTensor : Tensor := mkTensor scalarShape FP32 cpu 0 0 0 None.
Definition emptyForward : ForwardState := mkForward emptyTensor emptyTensor 0 0 (0, 0) [].

(** [dimensions()[i]] *)
Definition tensor_dim (t : Tensor) (i : nat) : Z := nth i (dimensions (te_shape t)) 0.
Definition tensor_rank (t : Tensor) : nat := rank (te_shape t).

Definition forward_update (pass : ForwardPass) (tokenPosition cachedTokenCount : Z) : ST ForwardState unit :=
  (lift (throw_if
     (negb (tensor_valid (fp_hiddenStates pass)) || negb (tensor_valid (fp_logits pass)) ||
      negb (tensor_rank (fp_hiddenStates pass) =? 2)%nat || negb (tensor_rank (fp_logits pass) =? 2)%nat ||
      negb (tensor_dim (fp_hiddenStates pass) 0 =? tensor_dim (fp_logits pass) 0) ||
      negb (Z.of_nat (length (fp_routing pass)) =? tensor_dim (fp_hiddenStates pass) 0) ||
      (u64_max - tokenPosition <? tensor_dim (fp_hiddenStates pass) 0))
     (Exn InvalidArgument "forward pass state is inconsistent")) ;;;
   lift (throw_if (existsb (fun decision => negb (decision_valid decision) ||
                                            negb (rd_layerId decision =? fp_finalLayer pass)) (fp_routing pass))
     (Exn InvalidArgument "forward pass routing metadata is invalid")) ;;;
   modify (fun _ => mkForward (fp_hiddenStates pass) (fp_logits pass) (fp_finalLayer pass) tokenPosition
     (tensor_dim (fp_hiddenStates pass) 0, cachedTokenCount) (fp_routing pass)))%st.

Definition forward_valid (f : ForwardState) : bool := tensor_valid (hiddenStates_ f) && tensor_valid (logits_ f).

(** ** The model *)

Record InferenceContext : Type := mkContext {
  batchSize : Z;
  sequencePosition : Z;
  hiddenDimension_ : Z;
  layerIndex : Z;
  routingDecisions : list RouterDecision;
}.

(** A model of state [M] over caches [C]; the forward pass also writes the context and
    the cache it is given.  [materializeHost] gives the elements of the host tensor. *)
Class GenerationModel (M C : Type) : Type := {
  vocabularySize : M -> Z;
  hiddenDimension : M -> Z;
  layerCount : M -> Z;
  keyValueHeads : M -> Z;
  headDimension : M -> Z;
  model_device : M -> Device;
  materializeHost : M -> TensorView -> result (list f32);
  forward : list Z -> ST (M * C * InferenceContext) ForwardPass;
}.

(** What the runtime relies on: a forward pass ends, keeps the cache one its manager
    accounts for, keeps the vocabulary, and gives tensors whose shapes are
    well-formed; the copy of a view has its elements.  [history] is what the model has
    been fed, positions and tokens. *)
Class GenerationModelLaws (M C : Type) `{!GenerationModel M C} (ok : C -> Prop) : Type := {
  model_ok : M -> Prop;
  model_error : exn -> Prop;
  history : M -> list (Z * list Z);
  forward_ok m c ctx tokens :
    model_ok m -> ok c ->
    match forward tokens (m, c, ctx) with
    | (Ok pass, (m', c', ctx')) =>
        model_ok m' /\ ok c' /\ vocabularySize m' = vocabularySize m /\ layerCount m' = layerCount m /\
        shape_wf (te_shape (fp_logits pass)) /\ sequencePosition ctx' = sequencePosition ctx /\
        history m' = history m ++ [(sequencePosition ctx, tokens)]
    | (Throw e, (m', c', _)) => model_ok m' /\ ok c' /\ model_error e
    | (Diverge, _) => False
    end;
  materializeHost_ok m v :
    model_ok m -> shape_wf (shape_ v) ->
    match materializeHost m v with
    | Ok values => Z.of_nat (length values) = elementCount (shape_ v)
    | Throw e => model_error e
    | Diverge => False
    end;
}.

(** ** The session

    Its cache is the object the manager's table holds: it is read and written there.
    The constants of the manager ([layerCount_] and so on) are a record of their own. *)

Record CacheGeometry : Type := mkGeometry {
  cg_layerCount : Z;
  cg_maximumSequenceLength : Z;
  cg_keyValueHeads : Z;
  cg_headDimension : Z;
  cg_device : Device;
}.

Record InferenceSession : Type := mkSession {
  id_ : Z;
  generationState_ : GenerationState;
  forwardState_ : ForwardState;
}.

Section session.
Context {M C : Type} `{!KVCacheBase C} `{!GenerationModel M C}.

(** The model, the manager and one session over them. *)
Record Run : Type := mkRun {
  ru_manager : KVCacheManager C;
  ru_model : M;
  ru_session : InferenceSession;
}.

Definition set_manager (m : KVCacheManager C) (s : Run) : Run := mkRun m (ru_model s) (ru_session s).
Definition set_session (se : InferenceSession) (s : Run) : Run := mkRun (ru_manager s) (ru_model s) se.
Definition generation (s : Run) : GenerationState := generationState_ (ru_session s).
Definition set_generation (g : GenerationState) (s : Run) : Run :=
  set_session (mkSession (id_ (ru_session s)) g (forwardState_ (ru_session s))) s.
Definition set_forward (f : ForwardState) (s : Run) : Run :=
  set_session (mkSession (id_ (ru_session s)) (generationState_ (ru_session s)) f) s.

Definition on_manager {A} (m : ST (KVCacheManager C) A) : ST Run A := zoom ru_manager set_manager m.
Definition on_generation {A} (m : ST GenerationState A) : ST Run A := zoom generation set_generation m.
Definition on_forward {A} (m : ST ForwardState A) : ST Run A :=
  zoom (fun s => forwardState_ (ru_session s)) set_forward m.

(** [session.kvCache()] *)
Definition kvCache : ST Run C :=
  (s <- st_get ;;
   match km_sessions (ru_manager s) !! id_ (ru_session s) with
   | Some cache => ret cache
   | None => throw (Exn UndefinedBehaviour "the session's cache")
   end)%st.

(** The constructor: a session whose construction fails has reserved nothing. *)
Definition newSession (geometry : CacheGeometry) (model : M) (maximumNewTokens : Z) (stopTokenIds : list Z)
    (device : Device) : ST (KVCacheManager C) InferenceSession :=
  (generationState <- lift (newGenerationState maximumNewTokens stopTokenIds) ;;
   lift (throw_if
     (negb (layerCount model =? cg_layerCount geometry) ||
      negb (keyValueHeads model =? cg_keyValueHeads geometry) ||
      negb (headDimension model =? cg_headDimension geometry) ||
      negb (bool_decide (model_device model = device)) ||
      negb (bool_decide (model_device model = cg_device geometry)) ||
      (cg_maximumSequenceLength geometry <? maximumNewTokens))
     (Exn InvalidArgument "inference session model and KV cache manager are incompatible")) ;;;
   allocation <- allocateSession ;;
   ret (mkSession (fst (fst allocation)) generationState emptyForward))%st.

(** The destructor *)
Definition destroySession (session : InferenceSession) : ST (KVCacheManager C) unit :=
  if id_ session =? 0 then ret tt
  else try_catch (fun _ => true) (releaseSession (id_ session)) (fun _ => ret tt).

(** ** The decoder *)

Definition call_forward (context : InferenceContext) (tokenIds : list Z) : ST Run (ForwardPass * InferenceContext) :=
  (cache <- kvCache ;;
   fun s => let '(r, (model, cache, context)) := forward tokenIds (ru_model s, cache, context) in
            let s' := mkRun (set_sessions (insert (id_ (ru_session s)) cache) (ru_manager s)) model (ru_session s) in
            (res_bind r (fun pass => Ok (pass, context)), s'))%st.

Fixpoint check_layers (expectedTokens : Z) (layers : list nat) : ST Run unit :=
  match layers with
  | [] => ret tt
  | layer :: layers =>
      (cache <- kvCache ;;
       tokens <- lift (tokenCount (Z.of_nat layer) cache) ;;
       lift (throw_if (negb (tokens =? expectedTokens))
         (Exn RuntimeError "model forward did not advance every KV cache layer")) ;;;
       check_layers expectedTokens layers)%st
  end.

Definition execute (tokenIds : list Z) : ST Run unit :=
  (s <- st_get ;;
   let count := Z.of_nat (length tokenIds) in
   let position := currentTokenPosition_ (generation s) in
   lift (throw_if (u64_max - count <? position)
     (Exn OverflowError "generation sequence position overflows")) ;;;
   pass <- call_forward (mkContext count position (hiddenDimension (ru_model s)) 0 []) tokenIds ;;
   s <- st_get ;;
   let expectedTokens := wrap64 (position + count) in
   check_layers expectedTokens (seq 0 (Z.to_nat (layerCount (ru_model s)))) ;;;
   on_forward (forward_update (fst pass) (sequencePosition (snd pass)) expectedTokens) ;;;
   on_generation (advancePosition count))%st.

Definition prefill (promptTokens : list Z) : ST Run unit :=
  (s <- st_get ;;
   lift (throw_if (active_ (generation s)) (Exn LogicError "inference session is already active")) ;;;
   cache <- kvCache ;;
   lift (throw_if ((length promptTokens =? 0)%nat ||
                   (maximumSequenceLength cache <? Z.of_nat (length promptTokens)))
     (Exn InvalidArgument "prefill prompt exceeds KV cache capacity")) ;;;
   on_generation (begin promptTokens) ;;;
   execute promptTokens)%st.

Definition decode (tokenId : Z) : ST Run unit :=
  (s <- st_get ;;
   cache <- kvCache ;;
   lift (throw_if (negb (active_ (generation s)) || finished (generation s) ||
                   (maximumSequenceLength cache <=? currentTokenPosition_ (generation s)))
     (Exn LogicError "inference session cannot decode another token")) ;;;
   execute [tokenId])%st.
End session.
Arguments Run : clear implicits.

(** What the session relies on of its cache: its capacity, and a count for each layer. *)
Class SessionCacheLaws (C : Type) `{!KVCacheBase C} (ok : C -> Prop) (layers sequence : Z) : Prop := {
  maximumSequenceLength_ok c : ok c -> maximumSequenceLength c = sequence;
  tokenCount_ok c layer : ok c -> 0 <= layer < layers -> exists n, tokenCount layer c = Ok n;
}.

(** ** The token state machine on its own *)

Definition moved (g : GenerationState) (count : Z) : GenerationState :=
  mkGeneration (maximumNewTokens_ g) (stopTokenIds_ g) (promptTokens_ g) (generatedTokens_ g)
    (currentTokenPosition_ g + count) (active_ g) (stopReason_ g).
Definition stopped (g : GenerationState) (reason : GenerationStopReason) : GenerationState :=
  mkGeneration (maximumNewTokens_ g) (stopTokenIds_ g) (promptTokens_ g) (generatedTokens_ g)
    (currentTokenPosition_ g) (active_ g) reason.

(** The reason to stop after a token, the number of tokens being known. *)
Definition stop_after (g : GenerationState) (token : Z) : GenerationStopReason :=
  if bool_decide (token ∈ stopTokenIds_ g) then StopToken
  else if Z.of_nat (length (generatedTokens_ g)) + 1 =? maximumNewTokens_ g then MaximumTokens else NoStop.

(** Under way: the prompt was taken and no stop was reached. *)
Definition running (g : GenerationState) : Prop := active_ g = true /\ stopReason_ g = NoStop.

Lemma running_finished g : running g -> finished g = false.
Proof. intros [_ H]. unfold finished. by rewrite H. Qed.

Lemma wp_advancePosition g count :
  running g -> 1 <= count -> 0 <= currentTokenPosition_ g -> currentTokenPosition_ g + count <= u64_max ->
  wp (advancePosition count) g (fun _ g' => g' = moved g count) (fun _ _ => False).
Proof.
  intros Hg H1 H0 Hm. unfold advancePosition. wp_step. wp_step. wp_step. rewrite (running_finished g Hg), (proj1 Hg). wp_step.
  - cbn in H. apply orb_true_iff in H as [H|H]; [apply Z.eqb_eq in H|apply Z.ltb_lt in H]; lia.
  - wp_steps. unfold moved. by rewrite wrap64_small by (unfold is_u64; lia).
Qed.

Lemma wp_appendGenerated g token :
  running g -> Z.of_nat (length (generatedTokens_ g)) < maximumNewTokens_ g ->
  wp (appendGenerated token) g
    (fun stop g' => g' = stopped (push_generated token g) (stop_after g token) /\
                    stop = negb (bool_decide (stop_after g token = NoStop)))
    (fun _ _ => False).
Proof.
  intros Hg Hlen. unfold appendGenerated. wp_step. wp_step. wp_step. rewrite (running_finished g Hg), (proj1 Hg). wp_step.
  { apply Z.leb_le in H. lia. }
  wp_steps. cbn [push_generated stopTokenIds_ generatedTokens_ maximumNewTokens_].
  rewrite length_app, Nat2Z.inj_add. change (Z.of_nat (length [token])) with 1. unfold stop_after.
  assert (forall reason, reason <> NoStop -> wp (finish reason) (push_generated token g)
     (fun _ g' => g' = stopped (push_generated token g) reason) (fun _ _ => False)) as Hfin.
  { intros reason Hr. unfold finish. wp_step. wp_step. wp_step.
    unfold finished in *. cbn [push_generated active_ stopReason_]. rewrite (proj1 Hg), (proj2 Hg), (bool_decide_eq_false_2 (reason = NoStop)) by done.
    wp_step; [done|]. by wp_steps. }
  case_bool_decide; [|destruct (_ =? _)].
  - eapply wp_mono; [by apply Hfin| |done]. cbn. intros ? ? ->. by wp_steps.
  - eapply wp_mono; [by apply Hfin| |done]. cbn. intros ? ? ->. by wp_steps.
  - wp_steps. destruct Hg as [_ Hs]. unfold finished, stopped. destruct g; cbn in *. by subst.
Qed.

(** ** A session within its manager *)

Section laws.
Context {M C : Type} `{!KVCacheBase C} `{!GenerationModel M C}.
Context (bytes layers sequence : Z) `{!KVCacheLaws C bytes} `{!GenerationModelLaws M C cache_ok}
  `{!SessionCacheLaws C cache_ok layers sequence}.
Implicit Types s : Run M C.

(** The exceptions a caller may see: those of the model, and the refusals of the runtime;
    none of its internal checks for a misused session. *)
Definition caller_error (e : exn) : Prop :=
  model_error e \/ kind_of e = InvalidArgument \/ kind_of e = RuntimeError \/ kind_of e = OverflowError.

(** The session [id] was added to the manager's [sessions], and nothing else. *)
Record session_at (sessions : gmap Z C) (id : Z) (s : Run M C) : Prop := SessionAt {
  sa_manager : manager_inv bytes (ru_manager s);
  sa_id : id_ (ru_session s) = id;
  sa_fresh : sessions !! id = None;
  sa_cache : exists c, cache_ok c /\ km_sessions (ru_manager s) = <[id := c]> sessions;
  sa_model : model_ok (ru_model s);
}.

(** The model's constants, and the logits of the last pass. *)
Definition same_constants (m m' : M) : Prop :=
  vocabularySize m' = vocabularySize m /\ layerCount m' = layerCount m.

Lemma session_at_generation sessions id s g :
  session_at sessions id s -> session_at sessions id (set_generation g s).
Proof. by intros []. Qed.

Lemma session_at_forward sessions id s f :
  session_at sessions id s -> session_at sessions id (set_forward f s).
Proof. by intros []. Qed.

Lemma wp_kvCache sessions id s :
  session_at sessions id s ->
  wp kvCache s (fun c s' => s' = s /\ cache_ok c /\ km_sessions (ru_manager s) !! id = Some c) (fun _ _ => False).
Proof.
  intros []. destruct sa_cache0 as (c & Hc & Hm). unfold kvCache. wp_step. wp_step.
  rewrite sa_id0, Hm, lookup_insert_eq. by wp_steps.
Qed.

Lemma wp_call_forward sessions id s ctx tokens :
  session_at sessions id s ->
  wp (call_forward ctx tokens) s
    (fun r s' => session_at sessions id s' /\ ru_session s' = ru_session s /\
       same_constants (ru_model s) (ru_model s') /\ shape_wf (te_shape (fp_logits (fst r))) /\
       sequencePosition (snd r) = sequencePosition ctx /\
       history (ru_model s') = history (ru_model s) ++ [(sequencePosition ctx, tokens)])
    (fun e s' => session_at sessions id s' /\ model_error e).
Proof.
  intros Hs. unfold call_forward. wp_step. eapply wp_mono; [by eapply wp_kvCache| |done].
  cbn. intros c s1 (-> & Hc & Hl). pose proof (forward_ok (ru_model s) c ctx tokens (sa_model _ _ _ Hs) Hc) as Hf.
  unfold wp. destruct (forward tokens (ru_model s, c, ctx)) as [r [[m' c'] ctx']].
  assert (model_ok m' -> cache_ok c' ->
    session_at sessions id
      (mkRun (set_sessions (insert (id_ (ru_session s)) c') (ru_manager s)) m' (ru_session s))) as Hstep.
  { destruct Hs as [Hi Hid Hfr (c0 & _ & Hm) _]. intros Hm' Hc'. rewrite Hid. constructor; cbn; try done.
    - by apply (manager_step_inv bytes (ru_manager s)); [by eapply ms_client|].
    - exists c'. by rewrite Hm, insert_insert_eq. }
  destruct r as [pass|e|]; cbn; [|by destruct Hf as (? & ? & ?); auto|done].
  destruct Hf as (? & ? & ? & ? & ? & ? & ?). unfold same_constants. cbn. auto 10.
Qed.

Lemma wp_check_layers sessions id s expected ls :
  session_at sessions id s -> Forall (fun l => 0 <= Z.of_nat l < layers) ls ->
  wp (check_layers expected ls) s (fun _ s' => s' = s) (fun e s' => s' = s /\ kind_of e = RuntimeError).
Proof.
  intros Hs. induction 1 as [|l ls Hl Hls IH]; cbn [check_layers]; [by wp_steps|].
  wp_step. eapply wp_mono; [by eapply wp_kvCache| |done]. cbn. intros c s1 (-> & Hc & _).
  destruct (tokenCount_ok c (Z.of_nat l) Hc Hl) as [n Hn]. wp_step. apply wp_lift. rewrite Hn.
  wp_step. by wp_step.
Qed.

Lemma wp_forward_update pass position cached f :
  wp (forward_update pass position cached) f
    (fun _ f' => logits_ f' = fp_logits pass /\ forward_valid f' = true /\ tensor_rank (logits_ f') = 2%nat)
    (fun e f' => f' = f /\ kind_of e = InvalidArgument).
Proof.
  unfold forward_update. wp_step. wp_step; [done|]. wp_step. wp_step; [done|]. wp_steps. cbn.
  unfold forward_valid. cbn. rewrite !orb_false_iff, !negb_false_iff in H.
  destruct H as ((((((Hh & Hl) & _) & Hr) & _) & _) & _). rewrite Hh, Hl. split_and!; [done..|]. by apply Nat.eqb_eq.
Qed.

(** A pass over [tokens]: the position moves by them, the model was fed them there. *)
Lemma wp_execute sessions id s tokens :
  let g := generation s in
  session_at sessions id s -> layerCount (ru_model s) = layers ->
  running g -> tokens <> [] -> 0 <= currentTokenPosition_ g ->
  currentTokenPosition_ g + Z.of_nat (length tokens) <= u64_max ->
  wp (execute tokens) s
    (fun _ s' => session_at sessions id s' /\ same_constants (ru_model s) (ru_model s') /\
       generation s' = moved g (Z.of_nat (length tokens)) /\
       forward_valid (forwardState_ (ru_session s')) = true /\
       tensor_rank (logits_ (forwardState_ (ru_session s'))) = 2%nat /\
       shape_wf (te_shape (logits_ (forwardState_ (ru_session s')))) /\
       history (ru_model s') = history (ru_model s) ++ [(currentTokenPosition_ g, tokens)])
    (fun e s' => session_at sessions id s' /\ caller_error e).
Proof.
  intros g Hs Hlayers Hg Hne H0 Hm. assert (1 <= Z.of_nat (length tokens)) by (destruct tokens; [done|cbn; lia]).
  unfold execute. wp_step. wp_step. wp_step. fold g. wp_step; [apply Z.ltb_lt in H1; lia|].
  wp_step. eapply wp_mono; [by eapply wp_call_forward| |].
  2:{ cbn. intros e s' [? ?]. split; [done|by left]. }
  cbn. intros [pass ctx] s1 (Hs1 & Hse & Hco & Hw & Hp & Hh). cbn in *.
  wp_step. wp_step. wp_step. eapply wp_mono; [eapply wp_check_layers; [exact Hs1|]| |].
  { apply Forall_forall. intros l Hl%elem_of_seq. destruct Hco as [_ Hlc]. lia. }
  2:{ cbn. intros e s' [-> ?]. split; [done|]. unfold caller_error. auto. }
  cbn. intros _ s2 ->. wp_step. apply wp_zoom. eapply wp_mono; [apply wp_forward_update| |].
  2:{ cbn. intros e f [-> ?]. split; [by apply session_at_forward|]. unfold caller_error. auto. }
  cbn. intros _ f (Hl & Hv & Hr). apply wp_zoom.
  assert (generation (set_forward f s1) = g) as -> by (unfold generation; cbn; by rewrite Hse).
  eapply wp_mono; [by apply wp_advancePosition| |done].
  cbn. intros _ g' ->. split_and!; try done.
  - by apply session_at_generation, session_at_forward.
  - rewrite Hl. done.
Qed.

(** The life of a session: what the constructor adds the destructor takes away. *)
Lemma wp_newSession geometry model maximumNewTokens stopTokenIds device m :
  manager_inv bytes m ->
  wp (newSession geometry model maximumNewTokens stopTokenIds device) m
    (fun se m' => manager_inv bytes m' /\ 1 <= id_ se /\ km_sessions m !! id_ se = None /\
       (exists c, cache_ok c /\ km_sessions m' = <[id_ se := c]> (km_sessions m)) /\
       generationState_ se = mkGeneration maximumNewTokens (list_to_set stopTokenIds) [] [] 0 false NoStop /\
       layerCount model = cg_layerCount geometry)
    (fun e m' => m' = m /\ (kind_of e = InvalidArgument \/ kind_of e = RuntimeError \/ kind_of e = OverflowError)).
Proof.
  intros Hm. unfold newSession, newGenerationState. wp_step. apply wp_lift.
  destruct (maximumNewTokens =? 0); cbn [throw_if res_bind]; [by auto|]. wp_step. wp_step; [by auto|].
  rewrite !orb_false_iff, !negb_false_iff in H. destruct H as (((((Hl & _) & _) & _) & _) & _). apply Z.eqb_eq in Hl.
  wp_step. eapply wp_mono; [by apply wp_allocateSession| |].
  - cbn [fst]. intros [[id c] reserved] m' (Hm' & Hnone & Hse & _ & _ & Hc & Hid). wp_step. cbn. split_and!; try done. by exists c.
  - cbn. intros e m' [-> [[? _]|[? _]]]; auto.
Qed.

Lemma wp_destroySession sessions se c m :
  manager_inv bytes m -> 1 <= id_ se -> sessions !! id_ se = None -> km_sessions m = <[id_ se := c]> sessions ->
  wp (destroySession se) m
    (fun _ m' => manager_inv bytes m' /\ km_sessions m' = sessions) (fun _ _ => False).
Proof.
  intros Hm Hid Hnone Hse. unfold destroySession. destruct (Z.eqb_spec (id_ se) 0); [lia|].
  apply wp_try. eapply wp_mono; [by apply wp_releaseSession| |].
  - cbn. intros _ m' (? & _ & -> & _). rewrite Hse, delete_insert_id by done. done.
  - cbn. intros e m' (-> & Hn & _). by rewrite Hse, lookup_insert_eq in Hn.
Qed.
End laws.

(** Both caches of the manager keep the session's laws. *)
Lemma hostCache_session layers sequence heads dimension :
  @SessionCacheLaws KVCache (hostCache layers sequence heads dimension)
    (host_ok layers sequence heads dimension) layers sequence.
Proof.
  split.
  - by intros c (_ & _ & ? & _).
  - intros c layer (_ & Hl & _) Hlayer. cbn. unfold kv_tokenCount, kv_layer.
    destruct (lookup_lt_is_Some_2 (layers_ c) (Z.to_nat layer) ltac:(lia)) as [l ->]. cbn. by eexists.
Qed.

Lemma deviceCache_session layers sequence heads dimension :
  @SessionCacheLaws CudaKVCache (deviceCache layers sequence heads dimension)
    (device_ok layers sequence heads dimension) layers sequence.
Proof.
  split.
  - intros d (h & Hrel & _ & _ & <- & _). apply Hrel.
  - intros d layer (h & Hrel & _ & Hl & _) Hlayer. cbn. unfold cuda_tokenCount, cuda_layer.
    pose proof (Forall2_length _ _ _ (cr_layers _ _ Hrel)).
    destruct (lookup_lt_is_Some_2 (cu_layers d) (Z.to_nat layer) ltac:(lia)) as [l ->]. cbn. by eexists.
Qed.
