(* ===== verification/Generation.v ===== *)
(** * Generating text

    [src/generation/Generator.cpp]: the prompt is encoded, fed to the model through a
    session of the cache manager, and tokens are sampled until a stop token or the
    limit; the session is released however the call ends.  Durations are not modelled. *)

From S2P Require Import Prelude Float Tiers Tensor KVCache KVCacheManager Sampling Session.

(** ** The tokenizer and the data *)

Class Tokenizer (T : Type) : Type := {
  encode : T -> string -> result (list Z);
  detokenize : T -> list Z -> result string;
  tokenizer_vocabularySize : T -> Z;
}.

Record GenerationConfig : Type := mkGenerationConfig {
  maximumNewTokens : Z;
  sampling : SamplingConfig;
  stopTokenIds : list Z;
  inference_device : Device;
}.

Record GenerationMetrics : Type := mkMetrics { decodeSteps : Z; peakKVCacheBytes : Z }.

Record GenerationResult : Type := mkGenerationResult {
  text : string;
  promptTokens : list Z;
  generatedTokens : list Z;
  stopReason : GenerationStopReason;
  metrics : GenerationMetrics;
}.

Section generator.
Context {T M C : Type} `{!KVCacheBase C} `{!GenerationModel M C} `{!Tokenizer T}.
Variable exp : f64 -> f64.

(** The constructor *)
Definition newGenerator (tokenizer : option T) (model : option M) (manager : option (KVCacheManager C)) : result T :=
  match tokenizer, model, manager with
  | Some t, Some m, Some _ =>
      (throw_if (negb (tokenizer_vocabularySize t =? vocabularySize m))
         (Exn InvalidArgument "generator tokenizer, model, and cache manager are incompatible") ;;?
       Ok t)%res
  | _, _, _ => Throw (Exn InvalidArgument "generator tokenizer, model, and cache manager are incompatible")
  end.

(** Reading past the host tensor is undefined. *)
Definition lastTokenLogits (model : M) (state : ForwardState) (vocabulary : Z) : result (list f32) :=
  let logits := logits_ state in
  (throw_if (negb (forward_valid state) || negb (bool_decide (te_dtype logits = FP32)) ||
             negb (shape_isContiguous (te_shape logits)) || negb (tensor_rank logits =? 2)%nat ||
             negb (tensor_dim logits 1 =? vocabulary))
     (Exn RuntimeError "generation model returned incompatible logits") ;;?
   host <-? materializeHost model (viewOf false logits) ;;
   let tokenCount := tensor_dim logits 0 in
   throw_if ((tokenCount =? 0) || (Z.of_nat (length host) <? tokenCount * vocabulary))
     (Exn UndefinedBehaviour "logits are read past their end") ;;?
   Ok (take (Z.to_nat vocabulary) (drop (Z.to_nat ((tokenCount - 1) * vocabulary)) host)))%res.

(** The loop of [generate]; the sampler is a local of the call. *)
Fixpoint generate_loop (fuel : nat) (sampler : Sampler) (m : GenerationMetrics) : ST (Run M C) GenerationMetrics :=
  match fuel with
  | O => diverge
  | S fuel =>
      (s <- st_get ;;
       if finished (generation s) then ret m else
       logits <- lift (lastTokenLogits (ru_model s) (forwardState_ (ru_session s)) (vocabularySize (ru_model s))) ;;
       let '(sampled, sampler) := sample exp logits sampler in
       token <- lift sampled ;;
       stop <- on_generation (appendGenerated token) ;;
       if (stop : bool) then ret m else
       decode token ;;;
       statistics <- on_manager manager_stats ;;
       generate_loop fuel sampler
         (mkMetrics (wrap64 (decodeSteps m + 1)) (Z.max (peakKVCacheBytes m) (st_committedBytes statistics))))%st
  end.

(** What [generate] does with its session. *)
Definition generate_body (tokenizer : T) (config : GenerationConfig) (prompt : list Z) : ST (Run M C) GenerationResult :=
  (prefill prompt ;;;
   statistics <- on_manager manager_stats ;;
   m <- generate_loop (Z.to_nat (maximumNewTokens config)) (newSampler (sampling config))
          (mkMetrics 0 (st_committedBytes statistics)) ;;
   g <- gets generation ;;
   text <- lift (detokenize tokenizer (generatedTokens_ g)) ;;
   ret (mkGenerationResult text prompt (generatedTokens_ g) (stopReason_ g) m))%st.

(** The model and the manager the generator shares. *)
Record World : Type := mkWorld { w_manager : KVCacheManager C; w_model : M }.

(** A block that holds a session: the destructor runs however it is left. *)
Definition with_session {A} (session : InferenceSession) (body : ST (Run M C) A) : ST World A :=
  fun w => let '(r, s) := body (mkRun (w_manager w) (w_model w) session) in
           (r, mkWorld (snd (destroySession (ru_session s) (ru_manager s))) (ru_model s)).

Definition generate (tokenizer : T) (geometry : CacheGeometry) (prompt : string) (config : GenerationConfig)
    : ST World GenerationResult :=
  (w <- st_get ;;
   let vocabulary := vocabularySize (w_model w) in
   lift (sampling_validate (sampling config) vocabulary) ;;;
   lift (throw_if (maximumNewTokens config =? 0)
     (Exn InvalidArgument "generation requires at least one new token")) ;;;
   lift (throw_if (existsb (fun token => vocabulary <=? token) (stopTokenIds config))
     (Exn InvalidArgument "generation stop token exceeds vocabulary")) ;;;
   promptTokens <- lift (encode tokenizer prompt) ;;
   let length := Z.of_nat (length promptTokens) in
   lift (throw_if ((length =? 0) || (cg_maximumSequenceLength geometry <? length) ||
                   (wrap64 (cg_maximumSequenceLength geometry - length) <? wrap64 (maximumNewTokens config - 1)))
     (Exn InvalidArgument "prompt and requested output exceed the bounded KV cache sequence")) ;;;
   session <- zoom w_manager (fun m w => mkWorld m (w_model w))
     (newSession geometry (w_model w) (maximumNewTokens config) (stopTokenIds config) (inference_device config)) ;;
   with_session session (generate_body tokenizer config promptTokens))%st.
End generator.
Arguments World : clear implicits.

(** ** The contract *)

Section contract.
Context {T M C : Type} `{!KVCacheBase C} `{!GenerationModel M C} `{!Tokenizer T}.
Variable exp : f64 -> f64.
Hypothesis exp_range : forall x, is_nan (exp x) = true \/ signed false (exp x).
Context (bytes layers sequence : Z) `{!KVCacheLaws C bytes} `{!GenerationModelLaws M C cache_ok}
  `{!SessionCacheLaws C cache_ok layers sequence}.

Lemma lastTokenLogits_ok model state vocabulary :
  model_ok model -> shape_wf (te_shape (logits_ state)) ->
  match lastTokenLogits model state vocabulary with
  | Ok logits => Z.of_nat (length logits) = vocabulary
  | Throw e => caller_error bytes e
  | Diverge => False
  end.
Proof.
  intros Hm Hw. unfold lastTokenLogits. destruct (negb (tensor_rank _ =? 2)%nat) eqn:Hr.
  { rewrite orb_true_r. unfold caller_error; cbn. auto. }
  destruct (_ || _) eqn:Hc; [unfold caller_error; cbn; auto|]. cbn [throw_if res_bind].
  rewrite !orb_false_iff, !negb_false_iff in Hc. destruct Hc as [_ Hv%Z.eqb_eq].
  apply negb_false_iff, Nat.eqb_eq in Hr. unfold tensor_rank, rank, tensor_dim in *.
  pose proof (materializeHost_ok model (viewOf false (logits_ state)) Hm Hw) as Hh. cbn [viewOf shape_] in Hh.
  destruct (materializeHost _ _) as [host|e|]; [|by left|done]. cbn [res_bind].
  pose proof (sw_dims _ Hw) as Hd. destruct (sw_count _ Hw) as [Hcount _]. rewrite Hcount in Hh.
  destruct (dimensions (te_shape (logits_ state))) as [|n [|v [|]]]; try discriminate Hr. cbn [nth product foldl foldr] in *.
  apply Forall_cons in Hd as [Hn [Hv1 _]%Forall_cons].
  subst v. assert (Z.of_nat (length host) = n * vocabulary) as Hl by (unfold product in Hh; cbn in Hh; lia).
  destruct (Z.eqb_spec n 0); [lia|]. rewrite Hl, Z.ltb_irrefl. cbn [orb throw_if res_bind].
  rewrite length_take, length_drop. assert ((n - 1) * vocabulary = n * vocabulary - vocabulary) by lia. nia.
Qed.

(** What the model is fed after the prompt: a token at a time, each at its position. *)
Definition steps (prompt generated : list Z) : list (Z * list Z) :=
  imap (fun i t => (Z.of_nat (length prompt + i), [t])) generated.

Lemma steps_app prompt g t :
  steps prompt (g ++ [t]) = steps prompt g ++ [(Z.of_nat (length prompt) + Z.of_nat (length g), [t])].
Proof. unfold steps. rewrite imap_app. cbn. do 4 f_equal. lia. Qed.

Section run.
Variables (config : GenerationConfig) (prompt : list Z) (sessions : gmap Z C) (id vocabulary : Z)
  (fed : list (Z * list Z)).
Notation maximum := (maximumNewTokens config).
Notation stops := (list_to_set (stopTokenIds config) : gset Z).
Hypotheses (Hprompt : prompt <> [])
  (Hfit : Z.of_nat (length prompt) + maximum - 1 <= sequence) (Hsequence : sequence <= u64_max).

(** Between two tokens: those generated so far, none of them a stop token, are fed to
    the model but for the last one sampled. *)
Definition state_of (generated : list Z) (position : Z) : GenerationState :=
  mkGeneration maximum stops prompt generated position true NoStop.

Record at_head (g : list Z) (s : Run M C) : Prop := AtHead {
  ah_session : session_at bytes sessions id s;
  ah_state : generation s = state_of g (Z.of_nat (length prompt) + Z.of_nat (length g));
  ah_constants : vocabularySize (ru_model s) = vocabulary /\ layerCount (ru_model s) = layers;
  ah_logits : shape_wf (te_shape (logits_ (forwardState_ (ru_session s))));
  ah_history : history (ru_model s) = fed ++ [(0, prompt)] ++ steps prompt g;
  ah_tokens : Forall (fun t => 0 <= t < vocabulary /\ t ∉ stops) g;
  ah_length : Z.of_nat (length g) < maximum;
}.

(** The end: the last token stopped the loop. *)
Record at_end (s : Run M C) (m : GenerationMetrics) : Prop := AtEnd {
  ae_session : session_at bytes sessions id s;
  ae_tokens : exists g last reason,
    generation s = stopped (state_of (g ++ [last]) (Z.of_nat (length prompt) + Z.of_nat (length g))) reason /\
    Forall (fun t => 0 <= t < vocabulary /\ t ∉ stops) g /\ 0 <= last < vocabulary /\
    Z.of_nat (length g) < maximum /\
    history (ru_model s) = fed ++ [(0, prompt)] ++ steps prompt g /\ decodeSteps m = Z.of_nat (length g) /\
    reason = (if decide (last ∈ stops) then StopToken else MaximumTokens) /\
    (last ∉ stops -> Z.of_nat (length g) + 1 = maximum);
  ae_peak : peakKVCacheBytes m <= Z.of_nat (S (size sessions)) * bytes;
}.

Definition outcome_error (e : exn) (s : Run M C) : Prop := session_at bytes sessions id s /\ caller_error bytes e.

Lemma session_at_manager m s :
  session_at bytes sessions id s -> manager_inv bytes m -> km_sessions m = km_sessions (ru_manager s) ->
  session_at bytes sessions id (set_manager m s).
Proof. intros [] Hm Hse. constructor; cbn; try done. by rewrite Hse. Qed.

Lemma wp_statistics s :
  session_at bytes sessions id s ->
  wp (on_manager manager_stats) s
    (fun st s' => exists m, s' = set_manager m s /\ session_at bytes sessions id s' /\
       st_committedBytes st <= Z.of_nat (S (size sessions)) * bytes)
    (fun _ _ => False).
Proof.
  intros Hs. apply wp_zoom. eapply wp_mono; [apply (wp_manager_stats bytes), Hs| |done].
  cbn. intros st m (Hm & Hse & Hn & Hr & _ & Hc & _). exists m. split; [done|].
  split; [by apply session_at_manager|]. destruct (sa_cache _ _ _ _ Hs) as (c & _ & Hc').
  rewrite Hc', map_size_insert_None in Hn by apply Hs. lia.
Qed.

Lemma wp_decode g t s :
  session_at bytes sessions id s -> generation s = state_of (g ++ [t]) (Z.of_nat (length prompt) + Z.of_nat (length g)) ->
  layerCount (ru_model s) = layers -> Z.of_nat (length g) + 1 < maximum ->
  wp (decode t) s
    (fun _ s' => session_at bytes sessions id s' /\
       generation s' = state_of (g ++ [t]) (Z.of_nat (length prompt) + Z.of_nat (length (g ++ [t]))) /\
       same_constants (ru_model s) (ru_model s') /\ shape_wf (te_shape (logits_ (forwardState_ (ru_session s')))) /\
       history (ru_model s') = history (ru_model s) ++ [(Z.of_nat (length prompt) + Z.of_nat (length g), [t])])
    outcome_error.
Proof.
  intros Hs Hg Hl Hlen. unfold decode. wp_step. wp_step. wp_step. eapply wp_mono; [by eapply wp_kvCache| |done].
  intros c s1 (-> & Hc & _). cbn beta. rewrite Hg, (maximumSequenceLength_ok c Hc). wp_step. wp_step.
  { cbn in H. apply Z.leb_le in H. lia. }
  pose proof (wp_execute bytes layers sequence sessions id s [t] Hs Hl) as He. cbv zeta in He. rewrite Hg in He.
  cbn [length state_of currentTokenPosition_] in He.
  eapply wp_mono; [apply He; try done; lia| |by intros e s' ?].
  intros _ s' (? & ? & Hgen & _ & _ & ? & ?). cbn beta. rewrite Hgen, length_app. unfold moved, state_of. cbn.
  split_and!; [done| |done..]. f_equal; lia.
Qed.

(** A token is sampled and appended: the loop stops there, or goes on. *)
Lemma wp_append g t s :
  at_head g s -> 0 <= t < vocabulary ->
  wp (on_generation (appendGenerated t)) s
    (fun stop s' => session_at bytes sessions id s' /\ ru_model s' = ru_model s /\
       let position := Z.of_nat (length prompt) + Z.of_nat (length g) in
       if stop : bool then
         generation s' = stopped (state_of (g ++ [t]) position)
           (if decide (t ∈ stops) then StopToken else MaximumTokens) /\
         (t ∉ stops -> Z.of_nat (length g) + 1 = maximum)
       else generation s' = state_of (g ++ [t]) position /\ t ∉ stops /\ Z.of_nat (length g) + 1 < maximum)
    (fun _ _ => False).
Proof.
  intros [] Ht. apply wp_zoom. eapply wp_mono; [apply wp_appendGenerated; rewrite ah_state0; [done|exact ah_length0]| |done].
  intros stop s' [-> ->]. cbn beta. split; [by apply session_at_generation|]. split; [done|]. cbv zeta.
  unfold stop_after. rewrite ah_state0. cbn [stopTokenIds_ state_of maximumNewTokens_ generatedTokens_].
  destruct (decide (t ∈ stops)) as [Hin|Hin].
  { rewrite (bool_decide_eq_true_2 (t ∈ stops)), bool_decide_eq_false_2 by done. done. }
  rewrite (bool_decide_eq_false_2 (t ∈ stops)) by done.
  destruct (Z.eqb_spec (Z.of_nat (length g) + 1) maximum) as [Hm|Hm].
  - rewrite bool_decide_eq_false_2 by done. done.
  - rewrite bool_decide_eq_true_2 by done. split; [done|]. split; [done|]. lia.
Qed.

Lemma wp_generate_loop fuel g sampler m s :
  at_head g s -> engine_ok sampler -> decodeSteps m = Z.of_nat (length g) ->
  peakKVCacheBytes m <= Z.of_nat (S (size sessions)) * bytes ->
  maximum - Z.of_nat (length g) <= Z.of_nat fuel ->
  wp (generate_loop exp fuel sampler m) s (fun m' s' => at_end s' m') outcome_error.
Proof.
  revert g sampler m s. induction fuel as [|fuel IH]; intros g sampler m s Hs He Hd Hp Hf;
    pose proof (ah_length _ _ Hs); [lia|]. cbn [generate_loop]. wp_step. wp_step.
  pose proof Hs as []. rewrite ah_state0. cbn [finished state_of stopReason_]. change (finished _) with false. cbn iota.
  wp_step. apply wp_lift.
  pose proof (lastTokenLogits_ok (ru_model s) (forwardState_ (ru_session s)) (vocabularySize (ru_model s))
    (sa_model _ _ _ _ ah_session0) ah_logits0) as Hl.
  destruct (lastTokenLogits _ _ _) as [logits|e|]; [|by split|done].
  pose proof (sample_range exp exp_range logits sampler He) as Hsample.
  destruct (sample exp logits sampler) as [sampled sampler']. wp_step. apply wp_lift.
  destruct sampled as [t|e|]; [|destruct Hsample as [_ [?|?]]; split; unfold caller_error; auto|done].
  destruct Hsample as (Ht & He' & _). rewrite Hl, (proj1 ah_constants0) in Ht.
  wp_step. eapply wp_mono; [by apply (wp_append g t)| |done]. cbv beta zeta.
  intros stop s1 (Hs1 & Hm1 & Hstop). destruct stop.
  - wp_step. destruct Hstop as [Hg Hmax]. constructor; [done| |done]. exists g, t. eexists. rewrite Hm1. done.
  - destruct Hstop as (Hg & Hns & Hlt). wp_step.
    eapply wp_mono; [apply (wp_decode g t); [done|done|rewrite Hm1; apply ah_constants0|done]| |done]. cbv beta.
    intros _ s2 (Hs2 & Hg2 & [Hv2 Hl2] & Hw2 & Hh2). rewrite Hm1 in *. wp_step.
    eapply wp_mono; [by apply wp_statistics| |done]. intros st s3 (mm & -> & Hs3 & Hst). cbn beta.
    apply (IH (g ++ [t])); cbn [decodeSteps peakKVCacheBytes]; rewrite ?length_app, ?Nat2Z.inj_add; cbn [length]; try lia; [|done|].
    + constructor; [done|exact Hg2|by cbn; rewrite Hv2, Hl2|exact Hw2| | |].
      * change (ru_model (set_manager mm s2)) with (ru_model s2).
        rewrite Hh2, ah_history0, steps_app, <- !(assoc_L (++)). done.
      * apply Forall_app. split; [done|]. by apply Forall_singleton.
      * rewrite length_app. cbn. lia.
    + rewrite Hd, wrap64_small; [done|]. unfold is_u64. lia.
Qed.

Lemma wp_prefill s :
  session_at bytes sessions id s -> layerCount (ru_model s) = layers -> vocabularySize (ru_model s) = vocabulary ->
  0 < maximum -> history (ru_model s) = fed ->
  generation s = mkGeneration maximum stops [] [] 0 false NoStop ->
  wp (prefill prompt) s (fun _ s' => at_head [] s') outcome_error.
Proof.
  intros Hs Hl Hv Hm Hh Hg. assert (1 <= Z.of_nat (length prompt)) by (destruct prompt; [done|cbn; lia]).
  unfold prefill. wp_step. wp_step. wp_step. rewrite Hg. wp_step; [done|]. wp_step.
  eapply wp_mono; [by eapply wp_kvCache| |done]. intros c s1 (-> & Hc & _). cbn beta.
  wp_step. rewrite (maximumSequenceLength_ok c Hc). wp_step.
  { apply orb_true_iff in H1 as [H1|H1]; [apply Nat.eqb_eq in H1|apply Z.ltb_lt in H1]; lia. }
  wp_step. apply wp_zoom. rewrite Hg. unfold begin. wp_step. wp_step. wp_step. wp_step.
  { cbn in H2. apply Nat.eqb_eq in H2. lia. }
  wp_steps. cbn [maximumNewTokens_ stopTokenIds_]. fold (state_of [] 0).
  pose proof (wp_execute bytes layers sequence sessions id (set_generation (state_of [] 0) s) prompt
    ltac:(by apply session_at_generation) Hl) as He. cbv zeta in He. cbn [generation set_generation] in He.
  eapply wp_mono; [apply He; try done; cbn; lia| |by intros e s' ?].
  intros _ s' (? & [Hv' Hl'] & Hgen & _ & _ & ? & Hh'). constructor; [done| | |done| |constructor|done].
  - rewrite Hgen. unfold moved, state_of. cbn. f_equal. lia.
  - by rewrite Hv', Hl'.
  - rewrite Hh'. cbn. by rewrite Hh.
Qed.

(** What a generation that succeeded returns. *)
Record generated (tokenizer : T) (h : list (Z * list Z)) (r : GenerationResult) : Prop := Generated {
  gd_prompt : promptTokens r = prompt;
  gd_count : 1 <= Z.of_nat (length (generatedTokens r)) <= maximum;
  gd_vocabulary : Forall (fun t => 0 <= t < vocabulary) (generatedTokens r);
  gd_stop : exists earlier last, generatedTokens r = earlier ++ [last] /\ Forall (fun t => t ∉ stops) earlier /\
    stopReason r = (if decide (last ∈ stops) then StopToken else MaximumTokens) /\
    (last ∉ stops -> Z.of_nat (length (generatedTokens r)) = maximum) /\
    h = fed ++ [(0, prompt)] ++ steps prompt earlier;
  gd_steps : decodeSteps (metrics r) = Z.of_nat (length (generatedTokens r)) - 1;
  gd_text : detokenize tokenizer (generatedTokens r) = Ok (text r);
  gd_peak : peakKVCacheBytes (metrics r) <= Z.of_nat (S (size sessions)) * bytes;
}.

Lemma wp_generate_body tokenizer s :
  (forall ts, detokenize tokenizer ts <> Diverge) ->
  session_at bytes sessions id s -> layerCount (ru_model s) = layers -> vocabularySize (ru_model s) = vocabulary ->
  0 < maximum -> history (ru_model s) = fed ->
  generation s = mkGeneration maximum stops [] [] 0 false NoStop ->
  wp (generate_body exp tokenizer config prompt) s
    (fun r s' => session_at bytes sessions id s' /\ generated tokenizer (history (ru_model s')) r)
    (fun e s' => session_at bytes sessions id s' /\
       (caller_error bytes e \/ exists ts, detokenize tokenizer ts = Throw e)).
Proof.
  intros Ht Hs Hl Hv Hm Hh Hg. unfold generate_body. wp_step.
  eapply wp_mono; [by apply wp_prefill| |by intros e s' [? ?]; auto]. intros ? s1 Hs1. cbn beta. wp_step.
  eapply wp_mono; [apply wp_statistics, Hs1| |done]. intros st s2 (mm & -> & Hs2 & Hst). cbn beta. wp_step.
  eapply wp_mono; [apply (wp_generate_loop _ []); cbn; [|apply newSampler_ok|done|done|lia]| |by intros e s' [? ?]; auto].
  { by destruct Hs1. }
  intros m s3 [Hs3 (g & last & reason & Hgen & Hgt & Hlast & Hlen & Hhist & Hsteps & -> & Hmax) Hpeak].
  cbn beta. wp_step. wp_step. wp_step. apply wp_lift. rewrite Hgen. cbn [stopped state_of generatedTokens_ stopReason_].
  destruct (detokenize tokenizer (g ++ [last])) as [txt|e|] eqn:Htxt; [|by eauto 6|by edestruct Ht].
  wp_step. split; [done|]. assert (Z.of_nat (length (g ++ [last])) = Z.of_nat (length g) + 1) as Hl1 by (rewrite length_app; cbn; lia).
  constructor; cbn; rewrite ?Hl1; try done; try lia.
  - apply Forall_app. split; [|by apply Forall_singleton]. eapply Forall_impl; [exact Hgt|]. by intros t [? _].
  - exists g, last. split_and!; [done| |done..]. eapply Forall_impl; [exact Hgt|]. by intros t [_ ?].
Qed.
End run.

(** C8: A generation call.  Over any model and cache that keep their promises it
    ends, and however it ends its session is gone and the manager's sessions are what
    they were.  It returns between one and the maximal number of tokens of the
    vocabulary, with the stop token that ended them or the limit they reached and no
    stop token before; the model was fed the prompt at position zero and then every
    token but the last at the next position; the cache bytes reported are within the
    reservations.  The exceptions are those of the model and the tokenizer and the
    documented refusals: no internal check of the session fails. *)
Theorem generation_contract (tokenizer : T) geometry prompt config (w : World M C)
    (Htokenizer : forall s ts, encode tokenizer s <> Diverge /\ detokenize tokenizer ts <> Diverge)
    (Hgeometry : cg_layerCount geometry = layers /\ cg_maximumSequenceLength geometry = sequence /\ is_u64 sequence)
    (Hmaximum : is_u64 (maximumNewTokens config))
    (Hmanager : manager_inv bytes (w_manager w)) (Hmodel : model_ok (w_model w)) :
  match generate exp tokenizer geometry prompt config w with
  | (r, w') =>
      manager_inv bytes (w_manager w') /\ km_sessions (w_manager w') = km_sessions (w_manager w) /\
      model_ok (w_model w') /\
      match r with
      | Ok r => exists tokens, encode tokenizer prompt = Ok tokens /\ tokens <> [] /\
          Z.of_nat (length tokens) + maximumNewTokens config - 1 <= sequence /\
          generated config tokens (km_sessions (w_manager w)) (vocabularySize (w_model w)) (history (w_model w))
            tokenizer (history (w_model w')) r
      | Throw e => caller_error bytes e \/ encode tokenizer prompt = Throw e \/
                   exists ts, detokenize tokenizer ts = Throw e
      | Diverge => False
      end
  end.
Proof.
  assert (wp (generate exp tokenizer geometry prompt config) w
    (fun r w' => manager_inv bytes (w_manager w') /\ km_sessions (w_manager w') = km_sessions (w_manager w) /\
       model_ok (w_model w') /\ exists tokens, encode tokenizer prompt = Ok tokens /\ tokens <> [] /\
       Z.of_nat (length tokens) + maximumNewTokens config - 1 <= sequence /\
       generated config tokens (km_sessions (w_manager w)) (vocabularySize (w_model w)) (history (w_model w))
         tokenizer (history (w_model w')) r)
    (fun e w' => manager_inv bytes (w_manager w') /\ km_sessions (w_manager w') = km_sessions (w_manager w) /\
       model_ok (w_model w') /\ (caller_error bytes e \/ encode tokenizer prompt = Throw e \/
                   exists ts, detokenize tokenizer ts = Throw e))) as H.
  2:{ unfold wp in H. destruct (generate _ _ _ _ _ _) as [[r|e|] w']; [|done..]. tauto. }
  destruct Hgeometry as (Hgl & Hgs & Hsu). assert (forall e, kind_of e = InvalidArgument -> caller_error bytes e) as Herr
    by (unfold caller_error; auto).
  unfold generate. wp_step. wp_step. wp_step. apply wp_lift.
  destruct (validate_cases (sampling config) (vocabularySize (w_model w))) as [->|(e & -> & He)]; [|by auto 6].
  wp_step. wp_step; [by auto 6|]. apply Z.eqb_neq in H. wp_step. wp_step; [by auto 6|]. wp_step. apply wp_lift.
  destruct (encode tokenizer prompt) as [tokens|e|] eqn:Hen; [|by auto 7|by edestruct (Htokenizer prompt [])].
  rewrite Hgs. wp_step. wp_step; [by auto 6|]. rewrite !orb_false_iff in H1. destruct H1 as ((H1 & H2) & H3).
  apply Z.eqb_neq in H1. apply Z.ltb_ge in H2, H3. unfold is_u64 in *. rewrite !wrap64_small in H3 by (unfold is_u64; lia).
  assert (tokens <> []) as Hne by (by intros ->). wp_step. apply wp_zoom.
  eapply wp_mono; [by apply (wp_newSession bytes)| |].
  2:{ cbn. intros e m [-> He]. unfold caller_error. tauto. }
  intros se m (Hm & Hid & Hnone & (c & Hc & Hse) & Hgen & Hlayers). cbn beta.
  set (s := mkRun m (w_model w) se).
  assert (session_at bytes (km_sessions (w_manager w)) (id_ se) s) as Hs by (constructor; cbn; eauto).
  pose proof (wp_generate_body config tokens (km_sessions (w_manager w)) (id_ se) (vocabularySize (w_model w))
    (history (w_model w)) Hne ltac:(lia) ltac:(lia) tokenizer s (fun ts => proj2 (Htokenizer prompt ts)) Hs
    ltac:(cbn; congruence) eq_refl ltac:(lia) eq_refl Hgen) as Hb.
  assert (forall s', session_at bytes (km_sessions (w_manager w)) (id_ se) s' ->
    manager_inv bytes (snd (destroySession (ru_session s') (ru_manager s'))) /\
    km_sessions (snd (destroySession (ru_session s') (ru_manager s'))) = km_sessions (w_manager w) /\
    model_ok (ru_model s')) as Hdestroy.
  { intros s' [Hi Hid' Hfr (c' & _ & Hse') Hmo]. subst.
    pose proof (wp_destroySession bytes (km_sessions (w_manager w)) (ru_session s') c' (ru_manager s') Hi) as Hd.
    rewrite Hid' in Hd. specialize (Hd Hid Hfr Hse'). unfold wp in Hd.
    destruct (destroySession _ _) as [[] m']; [|done..]. by destruct Hd. }
  unfold wp, with_session in *. cbn [w_manager w_model]. fold s.
  destruct (generate_body _ _ _ _ _) as [[r|e|] s']; [| |done]; cbn.
  - destruct Hb as [Hs' Hr]. destruct (Hdestroy s' Hs') as (? & ? & ?). split_and!; [done..|]. exists tokens. split_and!; [done..|lia|done].
  - destruct Hb as [Hs' He]. destruct (Hdestroy s' Hs') as (? & ? & ?). split_and!; [done..|]. tauto.
Qed.
End contract.

(** Witness: a model of three tokens over the host cache of two layers; its logits are
    largest at the number of the passes it made. *)
Record SampleModel : Type := mkSampleModel { sm_fed : list (Z * list Z) }.

Definition sample_buffer : DeviceBuffer := mkBuffer 1 4096 4096 (Some (CPU, 0)).
Definition sample_mem (address : Z) : Z := address.

Definition sample_tensor (s : Shape) : Tensor := mkTensor s FP32 cpu 8192 4096 4096 (Some 2).

Definition sample_shapes (count : Z) : result (Shape * Shape * TensorView) :=
  (throw_if ((count <? 1) || (100 <? count)) (Exn InvalidArgument "sample model") ;;?
   hidden <-? contiguousShape [count; 2] ;;
   logits <-? contiguousShape [count; 3] ;;
   rows <-? contiguousShape [count; 1; 2] ;;
   view <-? view_fromHostBuffer {[1]} rows FP32 (Some sample_buffer) false ;;
   Ok (hidden, logits, view))%res.

Definition sample_forward (tokens : list Z) : ST (SampleModel * KVCache * InferenceContext) ForwardPass :=
  fun '(m, c, ctx) =>
    match sample_shapes (Z.of_nat (length tokens)) with
    | Ok (hidden, logits, view) =>
        let position := sequencePosition ctx in
        match (kv_append {[1]} sample_mem 0 position view view ;;; kv_append {[1]} sample_mem 1 position view view)%st c with
        | (Ok _, c) => (Ok (mkPass (sample_tensor hidden) (sample_tensor logits) 1
                              (replicate (length tokens) (Router.mkDecision 1 [0] [f32_of_Z 1]))),
                        (mkSampleModel (sm_fed m ++ [(position, tokens)]), c, ctx))
        | (_, c) => (Throw (Exn InvalidArgument "sample model"), (m, c, ctx))
        end
    | _ => (Throw (Exn InvalidArgument "sample model"), (m, c, ctx))
    end.

Definition sample_values (m : SampleModel) (v : TensorView) : result (list f32) :=
  Ok ((fun i => f32_of_Z (if (i mod 3 =? length (sm_fed m) mod 3)%nat then 1 else 0)) <$>
      seq 0 (Z.to_nat (elementCount (shape_ v)))).

#[local] Instance sample_model : GenerationModel SampleModel KVCache := {
  vocabularySize _ := 3;
  hiddenDimension _ := 2;
  layerCount _ := 2;
  keyValueHeads _ := 1;
  headDimension _ := 2;
  model_device _ := cpu;
  materializeHost := sample_values;
  forward := sample_forward;
}.

Lemma sample_shapes_ok count hidden logits view :
  sample_shapes count = Ok (hidden, logits, view) -> shape_wf logits /\ view_wf sample_buffer view.
Proof.
  unfold sample_shapes. destruct (_ || _) eqn:Hc; [done|]. apply orb_false_iff in Hc as [H1%Z.ltb_ge H2%Z.ltb_ge].
  assert (forall l, Forall is_u64 l -> Forall is_u64 (count :: l)) as Hu
    by (intros l Hl; constructor; [unfold is_u64, u64_max; lia|done]).
  assert (Forall is_u64 [2] /\ Forall is_u64 [3] /\ Forall is_u64 [1; 2]) as (H2' & H3 & H12)
    by (split_and!; apply small_u64; reflexivity).
  cbn [throw_if res_bind]. destruct (contiguousShape [count; 2]); [|done..]. cbn [res_bind].
  destruct (contiguousShape [count; 3]) as [s3| |] eqn:Hs3; [|done..]. cbn [res_bind].
  destruct (contiguousShape [count; 1; 2]) as [s| |] eqn:Hs; [|done..]. cbn [res_bind].
  destruct (view_fromHostBuffer _ _ _ _ _) as [v| |] eqn:Hv; [|done..]. intros [= <- <- <-]. split.
  - exact (contiguousShape_wf _ _ (Hu _ H3) Hs3).
  - apply view_on_wf. eapply (on_host _ {[1]} s FP32 false); [exact (contiguousShape_wf _ _ (Hu _ H12) Hs)|exact Hv].
Qed.

Lemma appended_host_ok layer first v c r c' :
  0 <= layer -> view_wf sample_buffer v -> host_ok 2 4 1 2 c ->
  kv_append {[1]} sample_mem layer first v v c = (r, c') -> r <> Diverge /\ host_ok 2 4 1 2 c'.
Proof.
  intros Hl Hv [Hc Hd] Ha. pose proof (wp_kv_append {[1]} sample_mem c layer first v v _ _ Hc Hl Hv Hv) as H.
  unfold wp in H. rewrite Ha in H. destruct r as [|e|]; [|by destruct H as (_ & -> & _)|done].
  destruct H as (_ & Hw & l & _ & ->). split; [done|]. split; [done|]. cbn. by rewrite length_insert.
Qed.

Lemma sample_forward_ok m c ctx tokens :
  host_ok 2 4 1 2 c ->
  match sample_forward tokens (m, c, ctx) with
  | (Ok pass, (m', c', ctx')) => host_ok 2 4 1 2 c' /\ shape_wf (te_shape (fp_logits pass)) /\ ctx' = ctx /\
      sm_fed m' = sm_fed m ++ [(sequencePosition ctx, tokens)]
  | (Throw e, (m', c', ctx')) => host_ok 2 4 1 2 c' /\ kind_of e = InvalidArgument
  | (Diverge, _) => False
  end.
Proof.
  intros Hc. unfold sample_forward. destruct (sample_shapes _) as [[[hidden logits] v]|e|] eqn:Hs; [|done..].
  apply sample_shapes_ok in Hs as [Hl Hv]. unfold st_bind.
  destruct (kv_append {[1]} sample_mem 0 (sequencePosition ctx) v v c) as [r c1] eqn:H1.
  destruct (appended_host_ok 0 (sequencePosition ctx) v c r c1 ltac:(lia) Hv Hc H1) as [Hr Hc1].
  destruct r as [|e|]; [|done..].
  destruct (kv_append {[1]} sample_mem 1 (sequencePosition ctx) v v c1) as [r c2] eqn:H2.
  destruct (appended_host_ok 1 (sequencePosition ctx) v c1 r c2 ltac:(lia) Hv Hc1 H2) as [Hr2 Hc2].
  by destruct r as [|e|].
Qed.

#[local] Instance sample_cache_base : KVCacheBase KVCache := hostCache 2 4 1 2.
#[local] Instance sample_cache_laws : KVCacheLaws KVCache 192 := KVCacheManager.sample_laws.
#[local] Instance sample_cache_session : SessionCacheLaws KVCache cache_ok 2 4 := hostCache_session 2 4 1 2.

#[local] Instance sample_model_laws : GenerationModelLaws SampleModel KVCache cache_ok.
Proof.
  refine {| model_ok _ := True; model_error e := kind_of e = InvalidArgument; history := sm_fed |}.
  - intros m c ctx tokens _ Hc. pose proof (sample_forward_ok m c ctx tokens Hc) as H. cbn [forward sample_model].
    destruct (sample_forward tokens (m, c, ctx)) as [[pass|e|] [[m' c'] ctx']]; [|by destruct H|done].
    destruct H as (? & ? & -> & ?). done.
  - intros m v _ Hv. cbn. rewrite length_fmap, length_seq. pose proof (sw_count _ Hv) as [-> _].
    rewrite Z2Nat.id; [done|]. pose proof (product_pos _ (sw_dims _ Hv)). lia.
Defined.

(** A tokenizer that reads every character as token zero. *)
#[local] Instance sample_tokenizer : Tokenizer unit := {
  encode _ prompt := Ok (replicate (String.length prompt) 0);
  detokenize _ tokens := Ok (String.concat " " (pretty <$> tokens))%string;
  tokenizer_vocabularySize _ := 3;
}.

Definition sample_generation : GenerationConfig :=
  mkGenerationConfig 3 (mkSampling Greedy f32_one 0 f32_one 0) [2] cpu.
Definition sample_geometry : CacheGeometry := mkGeometry 2 4 1 2 cpu.
Definition sample_world : World SampleModel KVCache := mkWorld KVCacheManager.sample_manager (mkSampleModel []).

Lemma sample_generated :
  (r <-? fst (generate sample_exp tt sample_geometry "ab" sample_generation sample_world) ;;
   Ok (generatedTokens r, stopReason r, text r))%res = Ok ([1; 2], StopToken, "1 2"%string).
Proof. vm_compute. reflexivity. Qed.

Lemma generation_contract_witness :
  manager_inv 192 (w_manager sample_world) /\
  exists r w', generate sample_exp tt sample_geometry "ab" sample_generation sample_world = (Ok r, w') /\
    km_sessions (w_manager w') = ∅ /\ sm_fed (w_model w') = [(0, [0; 0]); (2, [1])].
Proof.
  split; [exact KVCacheManager.sample_manager_inv|].
  pose proof (generation_contract sample_exp sample_exp_range 192 2 4 tt sample_geometry "ab" sample_generation sample_world
    ltac:(done) ltac:(unfold is_u64, u64_max; cbn; lia) ltac:(unfold is_u64, u64_max; cbn; lia)
    KVCacheManager.sample_manager_inv I) as H.
  pose proof sample_generated as Hg.
  destruct (generate _ _ _ _ _ _) as [[r|e|] w']; [|discriminate..]. cbn [fst res_bind] in Hg.
  destruct H as (_ & Hs & _ & tokens & [= <-] & _ & _ & Hr). exists r, w'. split; [done|]. split; [exact Hs|].
  injection Hg as Hgt _ _. destruct (gd_stop _ _ _ _ _ _ _ _ _ Hr) as (earlier & last & He & _ & _ & _ & Hh).
  rewrite Hgt in He. destruct earlier as [|t [|t' earlier]]; try discriminate He.
  - injection He as <- _. exact Hh.
  - injection He as _ _ He. by destruct earlier.
Defined.
