(* ===== verification/MemoryPool.v ===== *)
(** * The device memory pool

    [src/backend/cuda/CudaMemoryPool.cpp]: blocks are cut to a multiple of 256 bytes,
    kept when released and handed out again to the first request they fit.  The
    backend's allocator is an interface; the calls that free a block after the pool's
    lock was dropped are steps of their own. *)

From S2P Require Import Prelude.

(** ** The backend *)

Class DeviceAllocator (B : Type) : Type := {
  (** [backend->allocate(size)]: a pointer or an exception *)
  device_allocate : Z -> B -> result Z * B;
  (** [backend->free(pointer)] *)
  device_free : Z -> B -> B;
  (** the blocks allocated and not freed, with their sizes *)
  device_live : B -> gmap Z Z;
}.

(** What an allocator promises: a non-null pointer no live block has, blocks that
    together fit the address space, and no effect besides. *)
Class DeviceAllocatorLaws (B : Type) `{DeviceAllocator B} : Type := {
  device_ok : B -> Prop;
  device_allocate_spec size b :
    device_ok b -> 0 < size ->
    match device_allocate size b with
    | (Ok p, b') => device_ok b' /\ p <> 0 /\ device_live b !! p = None /\
                    device_live b' = <[p := size]> (device_live b)
    | (Throw _, b') => device_ok b' /\ device_live b' = device_live b
    | (Diverge, _) => False
    end;
  device_free_spec p b :
    device_ok b -> device_ok (device_free p b) /\ device_live (device_free p b) = delete p (device_live b);
  device_bound b : device_ok b -> map_sum id (device_live b) <= u64_max;
}.

(** ** The pool *)

Definition kAlignment : Z := 256.

Definition alignedSize (size : Z) : result Z :=
  (throw_if (size =? 0) (Exn InvalidArgument "memory-pool allocation must be nonzero") ;;?
   throw_if (u64_max - (kAlignment - 1) <? size)
     (Exn OverflowError "memory-pool allocation size overflow") ;;?
   Ok (wrap64 (wrap64 (size + kAlignment - 1) / kAlignment * kAlignment)))%res.

Record CudaMemoryPoolStats : Type := mkPoolStats {
  allocatedBytes : Z;
  activeBytes : Z;
  freeBytes : Z;
  peakUsageBytes : Z;
  allocationCount : Z;
  reuseCount : Z;
}.

(** [CudaBuffer::State]; [freeBlocks], a multimap, is the list of its entries
    (capacity, pointer) in the order of the keys. *)
Record State (B : Type) : Type := mkState {
  backend : B;
  maximumCachedBytes : Z;
  freeBlocks : list (Z * Z);
  activeBlocks : gmap Z Z;
  statistics : CudaMemoryPoolStats;
  accepting : bool;
}.
Arguments mkState {B}. Arguments backend {B}. Arguments maximumCachedBytes {B}.
Arguments freeBlocks {B}. Arguments activeBlocks {B}. Arguments statistics {B}. Arguments accepting {B}.

Definition set_backend {B} (b : B) (s : State B) : State B :=
  mkState b (maximumCachedBytes s) (freeBlocks s) (activeBlocks s) (statistics s) (accepting s).
Definition set_freeBlocks {B} (l : list (Z * Z)) (s : State B) : State B :=
  mkState (backend s) (maximumCachedBytes s) l (activeBlocks s) (statistics s) (accepting s).
Definition set_activeBlocks {B} (m : gmap Z Z) (s : State B) : State B :=
  mkState (backend s) (maximumCachedBytes s) (freeBlocks s) m (statistics s) (accepting s).
Definition set_statistics {B} (f : CudaMemoryPoolStats -> CudaMemoryPoolStats) (s : State B) : State B :=
  mkState (backend s) (maximumCachedBytes s) (freeBlocks s) (activeBlocks s) (f (statistics s)) (accepting s).
Definition set_accepting {B} (b : bool) (s : State B) : State B :=
  mkState (backend s) (maximumCachedBytes s) (freeBlocks s) (activeBlocks s) (statistics s) b.

Definition add_allocated (d : Z) (t : CudaMemoryPoolStats) : CudaMemoryPoolStats :=
  mkPoolStats (wrap64 (allocatedBytes t + d)) (activeBytes t) (freeBytes t) (peakUsageBytes t)
    (allocationCount t) (reuseCount t).
Definition add_active (d : Z) (t : CudaMemoryPoolStats) : CudaMemoryPoolStats :=
  mkPoolStats (allocatedBytes t) (wrap64 (activeBytes t + d)) (freeBytes t) (peakUsageBytes t)
    (allocationCount t) (reuseCount t).
Definition add_free (d : Z) (t : CudaMemoryPoolStats) : CudaMemoryPoolStats :=
  mkPoolStats (allocatedBytes t) (activeBytes t) (wrap64 (freeBytes t + d)) (peakUsageBytes t)
    (allocationCount t) (reuseCount t).
Definition add_counts (allocations reuses : Z) (t : CudaMemoryPoolStats) : CudaMemoryPoolStats :=
  mkPoolStats (allocatedBytes t) (activeBytes t) (freeBytes t) (peakUsageBytes t)
    (wrap64 (allocationCount t + allocations)) (wrap64 (reuseCount t + reuses)).
Definition update_peak (t : CudaMemoryPoolStats) : CudaMemoryPoolStats :=
  mkPoolStats (allocatedBytes t) (activeBytes t) (freeBytes t)
    (Z.max (peakUsageBytes t) (activeBytes t)) (allocationCount t) (reuseCount t).

(** [freeBlocks.lower_bound(capacity)], erased: the block found and the others. *)
Fixpoint take_fitting (capacity : Z) (blocks : list (Z * Z)) : option ((Z * Z) * list (Z * Z)) :=
  match blocks with
  | [] => None
  | block :: blocks =>
      if capacity <=? fst block then Some (block, blocks)
      else match take_fitting capacity blocks with
           | Some (found, rest) => Some (found, block :: rest)
           | None => None
           end
  end.

(** [freeBlocks.emplace(capacity, pointer)]: behind the entries of an equal key. *)
Fixpoint emplace_block (capacity pointer : Z) (blocks : list (Z * Z)) : list (Z * Z) :=
  match blocks with
  | [] => [(capacity, pointer)]
  | block :: rest =>
      if capacity <? fst block then (capacity, pointer) :: block :: rest
      else block :: emplace_block capacity pointer rest
  end.

Section pool.
Context {B : Type} `{!DeviceAllocator B}.

(** [acquire], under the lock. *)
Definition acquire (requested : Z) : ST (State B) (Z * Z) :=
  (capacity <- lift (alignedSize requested) ;;
   s <- st_get ;;
   lift (throw_if (negb (accepting s)) (Exn RuntimeError "CUDA memory pool is shut down")) ;;;
   ' (pointer, actualCapacity, wasReused) <-
     match take_fitting capacity (freeBlocks s) with
     | Some ((actualCapacity, pointer), rest) =>
         modify (set_freeBlocks rest) ;;;
         modify (set_statistics (add_free (- actualCapacity))) ;;;
         modify (set_statistics (add_counts 0 1)) ;;;
         ret (pointer, actualCapacity, true)
     | None =>
         pointer <- (fun s => let '(r, b) := device_allocate capacity (backend s) in (r, set_backend b s)) ;;
         modify (set_statistics (add_allocated capacity)) ;;;
         modify (set_statistics (add_counts 1 0)) ;;;
         ret (pointer, capacity, false)
     end ;;
   s <- st_get ;;
   (if bool_decide (is_Some (activeBlocks s !! pointer)) then
      modify (fun s => set_backend (device_free pointer (backend s)) s) ;;;
      modify (set_statistics (add_allocated (- actualCapacity))) ;;;
      (if wasReused : bool then modify (set_statistics (add_counts 0 (-1)))
       else modify (set_statistics (add_counts (-1) 0))) ;;;
      throw (Exn LogicError "memory-pool pointer is already active")
    else modify (set_activeBlocks (<[pointer := actualCapacity]> (activeBlocks s)))) ;;;
   modify (set_statistics (add_active actualCapacity)) ;;;
   modify (set_statistics update_peak) ;;;
   ret (pointer, actualCapacity))%st.

(** The locked part of [release]: the state it leaves, and the pointer to free once the
    lock is dropped. *)
Definition release_locked (pointer : Z) (s : State B) : State B * option Z :=
  if pointer =? 0 then (s, None)
  else match activeBlocks s !! pointer with
       | None => (s, None)
       | Some capacity =>
           let s := set_statistics (add_active (- capacity))
                      (set_activeBlocks (delete pointer (activeBlocks s)) s) in
           let free := freeBytes (statistics s) in
           if accepting s && (free <=? maximumCachedBytes s) &&
              (capacity <=? maximumCachedBytes s - free)
           then (set_statistics (add_free capacity)
                   (set_freeBlocks (emplace_block capacity pointer (freeBlocks s)) s), None)
           else (set_statistics (add_allocated (- capacity)) s, Some pointer)
       end.

Definition free_pointer (pointer : option Z) (s : State B) : State B :=
  match pointer with Some p => set_backend (device_free p (backend s)) s | None => s end.

Definition release (pointer : Z) (s : State B) : State B :=
  let '(s, doomed) := release_locked pointer s in free_pointer doomed s.

(** The locked part of one iteration of [drainFreeBlocks]. *)
Definition drain_locked (s : State B) : option (State B * Z) :=
  match freeBlocks s with
  | [] => None
  | (capacity, pointer) :: rest =>
      Some (set_freeBlocks rest
              (set_statistics (add_free (- capacity))
                (set_statistics (add_allocated (- capacity)) s)), pointer)
  end.

Fixpoint drain_loop (fuel : nat) (s : State B) : State B :=
  match fuel with
  | O => s
  | S fuel =>
      match drain_locked s with
      | None => s
      | Some (s, pointer) => drain_loop fuel (free_pointer (Some pointer) s)
      end
  end.
(** Alone, the loop runs once for each block and once more. *)
Definition drainFreeBlocks (s : State B) : State B := drain_loop (S (length (freeBlocks s))) s.

Definition trim (s : State B) : State B := drainFreeBlocks s.
Definition shutdown (s : State B) : State B := drainFreeBlocks (set_accepting false s).
Definition stats (s : State B) : CudaMemoryPoolStats := statistics s.

(** The constructor. *)
Definition newPool (b : option B) (available : bool) (maximumCached : Z) : result (State B) :=
  match b with
  | Some b =>
      (throw_if (negb available) (Exn InvalidArgument "CudaMemoryPool requires an available backend") ;;?
       Ok (mkState b maximumCached [] ∅ (mkPoolStats 0 0 0 0 0 0) true))%res
  | None => Throw (Exn InvalidArgument "CudaMemoryPool requires an available backend")
  end.

(** ** Buffers *)

Record CudaBuffer : Type := mkCudaBuffer { bf_data : Z; bf_size : Z; bf_capacity : Z }.
Definition emptyBuffer : CudaBuffer := mkCudaBuffer 0 0 0.

(** [CudaMemoryPool::allocate] *)
Definition pool_allocate (sizeBytes : Z) : ST (State B) CudaBuffer :=
  (' (pointer, capacity) <- acquire sizeBytes ;;
   ret (mkCudaBuffer pointer sizeBytes capacity))%st.

(** [allocateDeviceBuffer]: a [DeviceBuffer] that releases into the pool; its
    constructor gives an incomplete ownership back and throws. *)
Definition allocateDeviceBuffer (sizeBytes : Z) : ST (State B) CudaBuffer :=
  (' (pointer, capacity) <- acquire sizeBytes ;;
   if (pointer =? 0) || (sizeBytes =? 0) then
     modify (release pointer) ;;;
     throw (Exn InvalidArgument "adopted DeviceBuffer ownership is incomplete")
   else ret (mkCudaBuffer pointer sizeBytes capacity))%st.

(** ** The system: a pool, its buffers, and blocks on their way back to the backend *)

Record PoolSystem : Type := mkPoolSystem {
  pool_ : State B;
  buffers_ : gmap Z CudaBuffer;
  doomed_ : gmap Z Z;
}.

Definition doom (pointer : option Z) (capacity : Z) (doomed : gmap Z Z) : gmap Z Z :=
  match pointer with Some p => <[p := capacity]> doomed | None => doomed end.

(** [reset()] of the buffer in a slot, up to the free. *)
Definition reset_slot (slot : Z) (b : CudaBuffer) (y : PoolSystem) : PoolSystem :=
  let '(s, d) := release_locked (bf_data b) (pool_ y) in
  mkPoolSystem s (<[slot := emptyBuffer]> (buffers_ y)) (doom d (bf_capacity b) (doomed_ y)).

Definition set_buffers (f : gmap Z CudaBuffer -> gmap Z CudaBuffer) (y : PoolSystem) : PoolSystem :=
  mkPoolSystem (pool_ y) (f (buffers_ y)) (doomed_ y).

Inductive pool_step : PoolSystem -> PoolSystem -> Prop :=
  | ps_allocate y slot n b s :
      buffers_ y !! slot = None -> is_u64 n -> pool_allocate n (pool_ y) = (Ok b, s) ->
      pool_step y (mkPoolSystem s (<[slot := b]> (buffers_ y)) (doomed_ y))
  | ps_allocate_device y slot n b s :
      buffers_ y !! slot = None -> is_u64 n -> allocateDeviceBuffer n (pool_ y) = (Ok b, s) ->
      pool_step y (mkPoolSystem s (<[slot := b]> (buffers_ y)) (doomed_ y))
  | ps_refused y n e s :
      is_u64 n -> pool_allocate n (pool_ y) = (Throw e, s) ->
      pool_step y (mkPoolSystem s (buffers_ y) (doomed_ y))
  | ps_reset y slot b :
      buffers_ y !! slot = Some b -> pool_step y (reset_slot slot b y)
  | ps_destroy y slot b :
      buffers_ y !! slot = Some b -> pool_step y (set_buffers (delete slot) (reset_slot slot b y))
  (** [target = std::move(source)] *)
  | ps_move y source target b old :
      source <> target -> buffers_ y !! source = Some b -> buffers_ y !! target = Some old ->
      pool_step y (set_buffers (fun m => <[source := emptyBuffer]> (<[target := b]> m)) (reset_slot target old y))
  (** one iteration of a [trim] or a [shutdown] *)
  | ps_drain y s p capacity rest :
      freeBlocks (pool_ y) = (capacity, p) :: rest -> drain_locked (pool_ y) = Some (s, p) ->
      pool_step y (mkPoolSystem s (buffers_ y) (<[p := capacity]> (doomed_ y)))
  | ps_close y :
      pool_step y (mkPoolSystem (set_accepting false (pool_ y)) (buffers_ y) (doomed_ y))
  (** the free that follows a release or an iteration *)
  | ps_free y p c :
      doomed_ y !! p = Some c ->
      pool_step y (mkPoolSystem (free_pointer (Some p) (pool_ y)) (buffers_ y) (delete p (doomed_ y))).

(** ** Free lists *)

Definition free_map (l : list (Z * Z)) : gmap Z Z := list_to_map (prod_swap <$> l).
#[local] Arguments free_map : simpl never.
#[local] Arguments map_sum : simpl never.

Lemma free_map_cons c p l : free_map ((c, p) :: l) = <[p := c]> (free_map l).
Proof. reflexivity. Qed.

Lemma swap_keys (l : list (Z * Z)) : (prod_swap <$> l).*1 = l.*2.
Proof. rewrite <- list_fmap_compose. by apply list_fmap_ext; intros ? [] _. Qed.

Lemma free_map_none l p : p ∉ l.*2 -> free_map l !! p = None.
Proof. intros H. apply not_elem_of_list_to_map. by rewrite swap_keys. Qed.

Lemma free_map_perm l l' : NoDup l.*2 -> l ≡ₚ l' -> free_map l = free_map l'.
Proof. intros H Hp. apply list_to_map_proper; [by rewrite swap_keys|by rewrite Hp]. Qed.

Lemma take_fitting_spec c l :
  match take_fitting c l with
  | Some (f, rest) => exists l1 l2, l = l1 ++ f :: l2 /\ rest = l1 ++ l2 /\ c <= fst f /\
                        Forall (fun b => fst b < c) l1
  | None => Forall (fun b => fst b < c) l
  end.
Proof.
  induction l as [|b l IH]; cbn; [constructor|]. destruct (Z.leb_spec c (fst b)).
  - exists [], l. split_and!; [done..|constructor].
  - destruct (take_fitting c l) as [[f rest]|]; [|by constructor].
    destruct IH as (l1 & l2 & -> & -> & Hc & Hl). exists (b :: l1), l2. split_and!; [done..|by constructor].
Qed.

Lemma emplace_block_perm c p l : emplace_block c p l ≡ₚ (c, p) :: l.
Proof.
  induction l as [|b l IH]; cbn; [done|]. destruct (c <? fst b); [done|].
  rewrite IH. apply Permutation_swap.
Qed.

Definition block_le (a b : Z * Z) : Prop := fst a <= fst b.

Lemma emplace_block_sorted c p l : StronglySorted block_le l -> StronglySorted block_le (emplace_block c p l).
Proof.
  induction 1 as [|b l Hs IH Hall]; cbn; [repeat constructor|]. destruct (Z.ltb_spec c (fst b)) as [Hlt|Hge].
  - constructor; [by constructor|]. constructor; [unfold block_le; cbn; lia|].
    eapply Forall_impl; [exact Hall|]. unfold block_le. cbn. lia.
  - constructor; [done|]. rewrite emplace_block_perm. constructor; [unfold block_le; cbn; lia|done].
Qed.

Lemma sorted_remove l1 f l2 : StronglySorted block_le (l1 ++ f :: l2) -> StronglySorted block_le (l1 ++ l2).
Proof.
  induction l1 as [|b l1 IH]; cbn; intros H; apply StronglySorted_inv in H as [Hs Hall]; [done|].
  constructor; [by apply IH|]. apply Forall_app in Hall as [H1 H2%Forall_cons]. apply Forall_app. naive_solver.
Qed.

(** The block taken is the smallest that fits. *)
Lemma best_fit c l f rest b :
  StronglySorted block_le l -> take_fitting c l = Some (f, rest) -> b ∈ l -> c <= fst b -> fst f <= fst b.
Proof.
  intros Hs Ht Hb Hc. pose proof (take_fitting_spec c l) as H. rewrite Ht in H.
  destruct H as (l1 & l2 & -> & _ & _ & Hl1). apply elem_of_app in Hb as [Hb|[->|Hb]%elem_of_cons].
  - rewrite Forall_forall in Hl1. specialize (Hl1 b Hb). lia.
  - done.
  - clear -Hs Hb. induction l1 as [|a l1 IH]; cbn in Hs; apply StronglySorted_inv in Hs as [Hs Hall]; [|by apply IH].
    rewrite Forall_forall in Hall. by apply Hall.
Qed.

(** ** The invariant of the pool *)

Context `{!DeviceAllocatorLaws B}.

Record core (s : State B) (doomed : gmap Z Z) : Prop := Core {
  co_ok : device_ok (backend s);
  co_nodup : NoDup (freeBlocks s).*2;
  co_sorted : StronglySorted block_le (freeBlocks s);
  co_live : device_live (backend s) = activeBlocks s ∪ (free_map (freeBlocks s) ∪ doomed);
  co_active_free : activeBlocks s ##ₘ free_map (freeBlocks s);
  co_active_doomed : activeBlocks s ##ₘ doomed;
  co_free_doomed : free_map (freeBlocks s) ##ₘ doomed;
  co_activeBytes : activeBytes (statistics s) = map_sum id (activeBlocks s);
  co_freeBytes : freeBytes (statistics s) = map_sum id (free_map (freeBlocks s));
  co_allocatedBytes : allocatedBytes (statistics s) = activeBytes (statistics s) + freeBytes (statistics s);
  co_cache : freeBytes (statistics s) <= maximumCachedBytes s <= u64_max;
  co_peak : activeBytes (statistics s) <= peakUsageBytes (statistics s);
  co_blocks : map_Forall (fun p c => p <> 0 /\ 1 <= c /\ c mod kAlignment = 0) (device_live (backend s));
}.

(** A buffer owns an active block at least as large as what was asked for. *)
Definition buffer_ok (active : gmap Z Z) (b : CudaBuffer) : Prop :=
  bf_data b = 0 \/ active !! bf_data b = Some (bf_capacity b) /\ 1 <= bf_size b <= bf_capacity b.

Record pool_inv (y : PoolSystem) : Prop := PoolInv {
  pi_core : core (pool_ y) (doomed_ y);
  pi_buffers : map_Forall (fun _ b => buffer_ok (activeBlocks (pool_ y)) b) (buffers_ y);
  pi_exclusive : forall i j b c, i <> j -> buffers_ y !! i = Some b -> buffers_ y !! j = Some c ->
    bf_data b = bf_data c -> bf_data b = 0;
  pi_owned : forall p, is_Some (activeBlocks (pool_ y) !! p) ->
    exists slot b, buffers_ y !! slot = Some b /\ bf_data b = p;
}.

Lemma alignedSize_spec n :
  is_u64 n ->
  match alignedSize n with
  | Ok c => 1 <= n <= c /\ c < n + kAlignment /\ c mod kAlignment = 0 /\ c <= u64_max
  | Throw e => n = 0 /\ kind_of e = InvalidArgument \/ u64_max - 255 < n /\ kind_of e = OverflowError
  | Diverge => False
  end.
Proof.
  unfold is_u64, alignedSize, kAlignment. intros Hn. destruct (Z.eqb_spec n 0); [by left|]. cbn [throw_if res_bind].
  change (256 - 1) with 255. destruct (Z.ltb_spec (u64_max - 255) n); cbn [throw_if res_bind]; [by right|].
  rewrite (wrap64_small (n + 256 - 1)) by (unfold is_u64; lia).
  pose proof (Z.mul_div_le (n + 256 - 1) 256). pose proof (Z.mul_succ_div_gt (n + 256 - 1) 256).
  rewrite wrap64_small by (unfold is_u64; lia). rewrite Z.mod_mul by done. lia.
Qed.

Lemma core_nonneg s doomed :
  core s doomed ->
  map_Forall (fun _ c => 0 <= id c) (activeBlocks s) /\ map_Forall (fun _ c => 0 <= id c) (free_map (freeBlocks s)) /\
  map_Forall (fun _ c => 0 <= id c) doomed.
Proof.
  intros []. rewrite co_live0 in co_blocks0.
  apply map_Forall_union in co_blocks0 as [H1 H2]; [|by apply map_disjoint_union_r_2].
  apply map_Forall_union in H2 as [H2 H3]; [|done].
  split_and!; (eapply map_Forall_impl; [eassumption|]); cbn; lia.
Qed.

Lemma core_sums s doomed :
  core s doomed ->
  0 <= map_sum id (activeBlocks s) /\ 0 <= map_sum id (free_map (freeBlocks s)) /\ 0 <= map_sum id doomed /\
  map_sum id (activeBlocks s) + map_sum id (free_map (freeBlocks s)) + map_sum id doomed <= u64_max.
Proof.
  intros Hc. destruct (core_nonneg _ _ Hc) as (H1 & H2 & H3). destruct Hc.
  pose proof (device_bound (backend s) co_ok0) as Hb. rewrite co_live0 in Hb.
  rewrite !map_sum_union in Hb by (done || by apply map_disjoint_union_r_2).
  split_and!; [by apply map_sum_nonneg..|lia].
Qed.

(** The free list without the block taken from it. *)
Lemma free_map_take l1 c p l2 :
  NoDup (l1 ++ (c, p) :: l2).*2 ->
  free_map (l1 ++ (c, p) :: l2) = <[p := c]> (free_map (l1 ++ l2)) /\ free_map (l1 ++ l2) !! p = None /\
  NoDup (l1 ++ l2).*2.
Proof.
  intros Hnd. assert (l1 ++ (c, p) :: l2 ≡ₚ (c, p) :: l1 ++ l2) as Hp by (symmetry; apply Permutation_middle).
  rewrite (free_map_perm _ _ Hnd Hp). rewrite Hp in Hnd. cbn in Hnd. apply NoDup_cons in Hnd as [Hn Hnd].
  split_and!; [done|by apply free_map_none|done].
Qed.

(** A cached block becomes an active one. *)
Lemma core_reuse s doomed c p l1 l2 :
  core s doomed -> freeBlocks s = l1 ++ (c, p) :: l2 ->
  core (set_statistics update_peak (set_statistics (add_active c)
         (set_activeBlocks (<[p := c]> (activeBlocks s))
           (set_statistics (add_counts 0 1) (set_statistics (add_free (- c)) (set_freeBlocks (l1 ++ l2) s)))))) doomed /\
  activeBlocks s !! p = None /\ p <> 0 /\ c mod kAlignment = 0.
Proof.
  intros Hc Hl. pose proof (core_sums _ _ Hc) as Hs. destruct (core_nonneg _ _ Hc) as (_ & Hnn & _).
  destruct Hc. rewrite Hl in *.
  destruct (free_map_take _ _ _ _ co_nodup0) as (Hf & Hn & Hnd). rewrite Hf in *.
  apply map_disjoint_insert_r in co_active_free0 as [Ha Hd1]. apply map_disjoint_insert_l in co_free_doomed0 as [Hdm Hd2].
  assert (device_live (backend s) !! p = Some c) as Hlive.
  { rewrite co_live0. rewrite lookup_union_r by done. rewrite <- insert_union_l. apply lookup_insert_eq. }
  pose proof (co_blocks0 _ _ Hlive) as (Hp0 & Hpc & Hpm).
  apply map_Forall_insert in Hnn as [_ Hnn%map_sum_nonneg]; [|done].
  rewrite map_sum_insert in co_freeBytes0, Hs by done. change (id c) with c in *.
  split; [|done]. constructor; cbn.
  - done.
  - done.
  - by eapply sorted_remove.
  - rewrite co_live0, <- (insert_union_l (free_map _)), <- (insert_union_l (activeBlocks s)).
    symmetry. by apply insert_union_r.
  - by apply map_disjoint_insert_l_2.
  - by apply map_disjoint_insert_l_2.
  - done.
  - rewrite map_sum_insert by done. change (id c) with c. rewrite co_activeBytes0, wrap64_small by (unfold is_u64; lia). lia.
  - rewrite co_freeBytes0, wrap64_small by (unfold is_u64; lia). lia.
  - rewrite co_activeBytes0, co_freeBytes0, co_allocatedBytes0, !wrap64_small by (unfold is_u64; lia).
    rewrite co_activeBytes0, co_freeBytes0. lia.
  - rewrite co_freeBytes0, wrap64_small by (unfold is_u64; lia). rewrite co_freeBytes0 in co_cache0. lia.
  - lia.
  - done.
Qed.

(** A fresh block becomes an active one. *)
Lemma core_fresh s doomed c p b :
  core s doomed -> device_ok b -> 1 <= c -> c mod kAlignment = 0 -> p <> 0 -> device_live (backend s) !! p = None ->
  device_live b = <[p := c]> (device_live (backend s)) ->
  core (set_statistics update_peak (set_statistics (add_active c)
         (set_activeBlocks (<[p := c]> (activeBlocks s))
           (set_statistics (add_counts 1 0) (set_statistics (add_allocated c) (set_backend b s)))))) doomed /\
  activeBlocks s !! p = None.
Proof.
  intros Hc Hok Hc1 Hcm Hp Hnone Hb. pose proof (core_sums _ _ Hc) as Hs. pose proof (device_bound b Hok) as Hbound.
  rewrite Hb, map_sum_insert in Hbound by done. destruct Hc. rewrite co_live0 in Hnone, Hb, Hbound.
  rewrite !map_sum_union in Hbound by (done || by apply map_disjoint_union_r_2). change (id c) with c in *.
  apply lookup_union_None in Hnone as [Ha Hn]. apply lookup_union_None in Hn as [Hf Hd].
  split; [|done]. constructor; cbn.
  - done.
  - done.
  - done.
  - by rewrite Hb, insert_union_l.
  - by apply map_disjoint_insert_l_2.
  - by apply map_disjoint_insert_l_2.
  - done.
  - rewrite map_sum_insert by done. change (id c) with c. rewrite co_activeBytes0, wrap64_small by (unfold is_u64; lia). lia.
  - done.
  - rewrite co_allocatedBytes0, co_activeBytes0, co_freeBytes0, !wrap64_small by (unfold is_u64; lia). lia.
  - done.
  - lia.
  - rewrite Hb. apply map_Forall_insert_2; [lia|]. by rewrite <- co_live0.
Qed.

(** [acquire], on every branch. *)
Lemma wp_acquire n s doomed :
  is_u64 n -> core s doomed ->
  wp (acquire n) s
    (fun '(p, c) s' => core s' doomed /\ p <> 0 /\ activeBlocks s !! p = None /\
       activeBlocks s' = <[p := c]> (activeBlocks s) /\ 1 <= n <= c /\ c mod kAlignment = 0 /\ accepting s = true /\
       exists a, alignedSize n = Ok a /\
         match take_fitting a (freeBlocks s) with
         | Some (block, rest) => (c, p) = block /\ freeBlocks s' = rest /\ backend s' = backend s
         | None => c = a /\ freeBlocks s' = freeBlocks s /\ device_live (backend s) !! p = None
         end)
    (fun e s' => core s' doomed /\ activeBlocks s' = activeBlocks s /\ freeBlocks s' = freeBlocks s /\
       statistics s' = statistics s /\ device_live (backend s') = device_live (backend s) /\
       (n = 0 \/ u64_max - 255 < n \/ accepting s = false \/
        exists c, alignedSize n = Ok c /\ fst (device_allocate c (backend s)) = Throw e)).
Proof.
  intros Hn Hc. pose proof (alignedSize_spec n Hn) as Ha. unfold acquire. wp_step. apply wp_lift.
  destruct (alignedSize n) as [a|e|] eqn:Heq; [|split_and!; try done; tauto|done].
  destruct Ha as (Han & Hac & Ham & Hau). wp_step. wp_step. wp_step. wp_step.
  { apply negb_true_iff in H. split_and!; try done. auto. }
  apply negb_false_iff in H. wp_step. pose proof (take_fitting_spec a (freeBlocks s)) as Ht.
  destruct (take_fitting a (freeBlocks s)) as [[[c p] rest]|] eqn:Htake.
  - destruct Ht as (l1 & l2 & Hl & -> & Hge & Hless). cbn in Hge.
    destruct (core_reuse s doomed c p l1 l2 Hc Hl) as (Hcore & Hnone & Hp & Hcm).
    wp_steps. cbn. rewrite Hnone. wp_steps. split_and!; try done; try lia.
    exists a. by rewrite Htake.
  - wp_step. unfold wp at 1. pose proof (device_allocate_spec a (backend s) (co_ok _ _ Hc) ltac:(lia)) as Hd.
    destruct (device_allocate a (backend s)) as [[p|e|] b] eqn:Hb; [| |done].
    + destruct Hd as (Hok & Hp & Hnone & Hlive).
      destruct (core_fresh s doomed a p b Hc Hok ltac:(lia) Ham Hp Hnone Hlive) as (Hcore & Hact).
      wp_steps. cbn. rewrite Hact. wp_steps. split_and!; try done; try lia.
      exists a. by rewrite Htake.
    + destruct Hd as [Hok Hd]. split_and!; try done; [|right; right; right; exists a; by rewrite Hb].
      destruct Hc. constructor; cbn; rewrite ?Hd; done.
Qed.

(** [release]: a buffer's block is cached when there is room and the pool still accepts,
    and is on its way back to the backend otherwise. *)
Lemma release_locked_spec s doomed p c :
  core s doomed -> activeBlocks s !! p = Some c ->
  let '(s', d) := release_locked p s in
  core s' (doom d c doomed) /\ activeBlocks s' = delete p (activeBlocks s) /\ accepting s' = accepting s /\
  backend s' = backend s /\ (d = None \/ d = Some p) /\
  (d = None <-> accepting s = true /\ freeBytes (statistics s) + c <= maximumCachedBytes s) /\
  (d = None -> freeBlocks s' = emplace_block c p (freeBlocks s)) /\ (d = Some p -> freeBlocks s' = freeBlocks s).
Proof.
  intros Hc Hp. pose proof (core_sums _ _ Hc) as Hs. destruct (core_nonneg _ _ Hc) as (Hna & Hnf & Hnd).
  destruct Hc. unfold release_locked.
  assert (device_live (backend s) !! p = Some c) as Hlive by (rewrite co_live0; by apply lookup_union_Some_l).
  destruct (co_blocks0 _ _ Hlive) as (Hp0 & Hc1 & Hcm). rewrite (proj2 (Z.eqb_neq _ _) Hp0), Hp.
  pose proof (map_disjoint_Some_l _ _ _ _ co_active_free0 Hp) as Hfree.
  pose proof (map_disjoint_Some_l _ _ _ _ co_active_doomed0 Hp) as Hdoom.
  assert (p ∉ (freeBlocks s).*2) as Hnin.
  { rewrite <- swap_keys. by apply not_elem_of_list_to_map. }
  pose proof (map_sum_delete id _ _ _ Hp) as Hdel. change (id c) with c in Hdel.
  assert (map_Forall (fun _ c => 0 <= id c) (delete p (activeBlocks s))) as Hrest by (by apply map_Forall_delete).
  apply map_sum_nonneg in Hrest. set (rest := delete p (activeBlocks s)) in *.
  assert (activeBlocks s = <[p := c]> rest) as Hact by (subst rest; by rewrite insert_delete_id).
  assert (rest !! p = None) as Hrp by apply lookup_delete_eq.
  assert (rest ##ₘ free_map (freeBlocks s)) as Hd1 by (by apply map_disjoint_delete_l).
  assert (rest ##ₘ doomed) as Hd2 by (by apply map_disjoint_delete_l).
  cbn [set_statistics set_activeBlocks add_active statistics accepting maximumCachedBytes freeBytes freeBlocks].
  assert (wrap64 (activeBytes (statistics s) + - c) = map_sum id rest) as Hab.
  { rewrite co_activeBytes0, wrap64_small by (unfold is_u64; lia). lia. }
  destruct (accepting s && (freeBytes (statistics s) <=? maximumCachedBytes s) &&
            (c <=? maximumCachedBytes s - freeBytes (statistics s))) eqn:Hcache; cbn [doom].
  - rewrite !andb_true_iff, !Z.leb_le in Hcache. destruct Hcache as [[Hacc Hle1] Hle2].
    pose proof (emplace_block_perm c p (freeBlocks s)) as Hperm.
    assert (NoDup (emplace_block c p (freeBlocks s)).*2) as Hnodup by (rewrite Hperm; cbn; by constructor).
    assert (free_map (emplace_block c p (freeBlocks s)) = <[p := c]> (free_map (freeBlocks s))) as Hfm.
    { rewrite <- free_map_cons. by apply free_map_perm. }
    assert (wrap64 (freeBytes (statistics s) + c) = c + map_sum id (free_map (freeBlocks s))) as Hfb.
    { rewrite co_freeBytes0, wrap64_small by (unfold is_u64; lia). lia. }
    split; [|split_and!; try done; [by left|split; [intros _; split; [done|lia]|done]]].
    constructor; cbn; rewrite ?Hfm, ?Hab, ?Hfb.
    + done.
    + done.
    + by apply emplace_block_sorted.
    + rewrite co_live0, Hact, <- insert_union_l, <- (insert_union_l (free_map _)). by apply insert_union_r.
    + by apply map_disjoint_insert_r_2.
    + done.
    + by apply map_disjoint_insert_l_2.
    + done.
    + rewrite map_sum_insert by done. done.
    + lia.
    + lia.
    + lia.
    + done.
  - split; [|split_and!; try done; [by right|split; [done|intros [Hacc Hle]]]].
    + constructor; cbn; rewrite ?Hab; try done.
      * rewrite co_live0, Hact, <- insert_union_l.
        rewrite <- (insert_union_r (free_map _) doomed) by done. by apply insert_union_r.
      * by apply map_disjoint_insert_r_2.
      * by apply map_disjoint_insert_r_2.
      * rewrite co_allocatedBytes0, co_freeBytes0, co_activeBytes0, wrap64_small by (unfold is_u64; lia). lia.
      * lia.
    + exfalso. rewrite Hacc, !andb_false_iff, !Z.leb_gt in Hcache. lia.
Qed.

Lemma release_nothing s : release_locked 0 s = (s, None).
Proof. reflexivity. Qed.

Lemma drain_spec s doomed c p rest :
  core s doomed -> freeBlocks s = (c, p) :: rest ->
  exists s', drain_locked s = Some (s', p) /\ core s' (<[p := c]> doomed) /\ freeBlocks s' = rest /\
    activeBlocks s' = activeBlocks s /\ backend s' = backend s /\ accepting s' = accepting s.
Proof.
  intros Hc Hl. unfold drain_locked. rewrite Hl. eexists. split; [done|]. split; [|done].
  pose proof (core_sums _ _ Hc) as Hs. destruct (core_nonneg _ _ Hc) as (_ & Hnn & _).
  destruct Hc. rewrite Hl in *. rewrite free_map_cons in *. cbn in co_nodup0.
  apply NoDup_cons in co_nodup0 as [Hn Hnd]. pose proof (free_map_none _ _ Hn) as Hfn.
  apply map_Forall_insert in Hnn as [Hc0 Hnn%map_sum_nonneg]; [|done].
  rewrite map_sum_insert in co_freeBytes0, Hs by done. change (id c) with c in *.
  apply map_disjoint_insert_r in co_active_free0 as [Ha Hd1]. apply map_disjoint_insert_l in co_free_doomed0 as [Hdm Hd2].
  apply StronglySorted_inv in co_sorted0 as [Hsort _].
  constructor; cbn; try done.
  - rewrite co_live0, <- insert_union_l, (insert_union_r (free_map rest)) by done. done.
  - by apply map_disjoint_insert_r_2.
  - by apply map_disjoint_insert_r_2.
  - rewrite co_freeBytes0, wrap64_small by (unfold is_u64; lia). lia.
  - rewrite co_allocatedBytes0, co_activeBytes0, co_freeBytes0, !wrap64_small by (unfold is_u64; lia). lia.
  - rewrite co_freeBytes0, wrap64_small by (unfold is_u64; lia). lia.
Qed.

Lemma free_spec s doomed p c :
  core s doomed -> doomed !! p = Some c ->
  core (free_pointer (Some p) s) (delete p doomed).
Proof.
  intros [] Hp. pose proof (map_disjoint_Some_r _ _ _ _ co_active_doomed0 Hp) as Ha.
  pose proof (map_disjoint_Some_r _ _ _ _ co_free_doomed0 Hp) as Hf.
  destruct (device_free_spec p (backend s) co_ok0) as [Hok Hlive].
  constructor; cbn; rewrite ?Hlive; try done.
  - by rewrite co_live0, !delete_union, (delete_id (activeBlocks s)), (delete_id (free_map _)) by done.
  - by apply map_disjoint_delete_r.
  - by apply map_disjoint_delete_r.
  - by apply map_Forall_delete.
Qed.

Lemma close_core s doomed : core s doomed -> core (set_accepting false s) doomed.
Proof. intros []. by constructor. Qed.

(** ** Every step keeps the invariant *)

Lemma inv_new y slot b s :
  pool_inv y -> buffers_ y !! slot = None -> core s (doomed_ y) -> bf_data b <> 0 ->
  activeBlocks (pool_ y) !! bf_data b = None ->
  activeBlocks s = <[bf_data b := bf_capacity b]> (activeBlocks (pool_ y)) -> 1 <= bf_size b <= bf_capacity b ->
  pool_inv (mkPoolSystem s (<[slot := b]> (buffers_ y)) (doomed_ y)).
Proof.
  intros [] Hslot Hcore Hnz Hnone Hact Hsize.
  assert (forall i c, buffers_ y !! i = Some c -> bf_data c <> bf_data b) as Hfresh.
  { intros i c Hi Heq. destruct (pi_buffers0 _ _ Hi) as [Hz|[Ha _]]; congruence. }
  constructor; cbn.
  - done.
  - apply map_Forall_insert_2; [right; by rewrite Hact, lookup_insert_eq|].
    intros i c Hi. destruct (pi_buffers0 _ _ Hi) as [Hz|[Ha Hs]]; [by left|right].
    split; [|done]. rewrite Hact, lookup_insert_ne; [done|]. intros ?. by apply (Hfresh i c).
  - intros i j c d Hij Hi Hj Heq.
    apply lookup_insert_Some in Hi as [[-> ->]|[Hi1 Hi]]; apply lookup_insert_Some in Hj as [[-> ->]|[Hj1 Hj]].
    + done.
    + exfalso. by apply (Hfresh j d).
    + exfalso. by apply (Hfresh i c).
    + by apply (pi_exclusive0 i j c d).
  - intros p [c Hp]. rewrite Hact in Hp. apply lookup_insert_Some in Hp as [[<- _]|[_ Hp]].
    + exists slot, b. split; [apply lookup_insert_eq|done].
    + destruct (pi_owned0 p) as (i & c' & Hi & Hc); [by eexists|]. exists i, c'.
      rewrite lookup_insert_ne by congruence. done.
Qed.

Lemma inv_reset y slot b :
  pool_inv y -> buffers_ y !! slot = Some b ->
  pool_inv (reset_slot slot b y) /\ buffers_ (reset_slot slot b y) = <[slot := emptyBuffer]> (buffers_ y).
Proof.
  intros [] Hb. unfold reset_slot. destruct (pi_buffers0 _ _ Hb) as [Hz|[Ha Hs]].
  - rewrite Hz, release_nothing. cbn. split; [|done]. constructor; cbn.
    + done.
    + apply map_Forall_insert_2; [by left|done].
    + intros i j c d Hij Hi Hj Heq.
      apply lookup_insert_Some in Hi as [[-> <-]|[Hi1 Hi]]; [done|].
      apply lookup_insert_Some in Hj as [[-> <-]|[Hj1 Hj]]; [done|]. by apply (pi_exclusive0 i j c d).
    + intros p Hp. destruct (pi_owned0 p Hp) as (i & c & Hi & Hc). destruct (decide (i = slot)) as [->|Hne].
      * assert (c = b) as -> by congruence. exists slot, emptyBuffer. rewrite lookup_insert_eq. split; [done|].
        cbn. congruence.
      * exists i, c. by rewrite lookup_insert_ne.
  - pose proof (release_locked_spec _ _ _ _ pi_core0 Ha) as Hr.
    destruct (release_locked (bf_data b) (pool_ y)) as [s d]. destruct Hr as (Hcore & Hact & _). cbn.
    assert (bf_data b <> 0) as Hnz.
    { assert (device_live (backend (pool_ y)) !! bf_data b = Some (bf_capacity b)) as Hl.
      { rewrite (co_live _ _ pi_core0). by apply lookup_union_Some_l. }
      by destruct (co_blocks _ _ pi_core0 _ _ Hl). }
    split; [|done]. constructor; cbn.
    + done.
    + intros i c Hi. apply lookup_insert_Some in Hi as [[-> <-]|[Hne Hi]]; [by left|].
      destruct (pi_buffers0 _ _ Hi) as [Hz|[Hc Hcs]]; [by left|right]. split; [|done].
      rewrite Hact, lookup_delete_ne; [done|]. intros Heq. by apply Hnz, (pi_exclusive0 slot i b c).
    + intros i j c e Hij Hi Hj Heq.
      apply lookup_insert_Some in Hi as [[-> <-]|[Hi1 Hi]]; [done|].
      apply lookup_insert_Some in Hj as [[-> <-]|[Hj1 Hj]]; [done|]. by apply (pi_exclusive0 i j c e).
    + rewrite Hact. intros p [Hpne Hp]%lookup_delete_is_Some. destruct (pi_owned0 p Hp) as (i & c & Hi & Hc).
      assert (i <> slot) by (intros ->; congruence). exists i, c. by rewrite lookup_insert_ne.
Qed.

Lemma active_nonzero s doomed p : core s doomed -> is_Some (activeBlocks s !! p) -> p <> 0.
Proof.
  intros Hc [q Hp]. assert (device_live (backend s) !! p = Some q) as Hl.
  { rewrite (co_live _ _ Hc). by apply lookup_union_Some_l. }
  by destruct (co_blocks _ _ Hc _ _ Hl).
Qed.

Lemma inv_destroy y slot b :
  pool_inv y -> buffers_ y !! slot = Some b -> pool_inv (set_buffers (delete slot) (reset_slot slot b y)).
Proof.
  intros Hinv Hb. destruct (inv_reset _ _ _ Hinv Hb) as [[] Hbuf]. unfold set_buffers.
  constructor; cbn; rewrite Hbuf in *.
  - done.
  - by apply map_Forall_delete.
  - intros i j c d Hij Hi Hj. apply lookup_delete_Some in Hi as [_ Hi]. apply lookup_delete_Some in Hj as [_ Hj].
    by apply (pi_exclusive0 i j).
  - intros p Hp. destruct (pi_owned0 p Hp) as (i & c & Hi & Hc). exists i, c. split; [|done].
    rewrite lookup_delete_ne; [done|]. intros <-. rewrite lookup_insert_eq in Hi. injection Hi as <-.
    by apply (active_nonzero _ _ p pi_core0 Hp).
Qed.

Lemma inv_move y i j b old :
  pool_inv y -> i <> j -> buffers_ y !! i = Some b -> buffers_ y !! j = Some old ->
  pool_inv (set_buffers (fun m => <[i := emptyBuffer]> (<[j := b]> m)) (reset_slot j old y)).
Proof.
  intros Hinv Hij Hi Hj. destruct (inv_reset _ _ _ Hinv Hj) as [[] Hbuf]. unfold set_buffers.
  constructor; cbn; rewrite Hbuf in *; rewrite ?insert_insert_eq.
  - done.
  - intros k c Hk.
    apply lookup_insert_Some in Hk as [[<- <-]|[Hk1 Hk]]; [by left|].
    apply lookup_insert_Some in Hk as [[<- <-]|[Hk2 Hk]].
    * apply (pi_buffers0 i). by rewrite lookup_insert_ne.
    * apply (pi_buffers0 k). by rewrite lookup_insert_ne.
  - intros k l c d Hkl Hk Hl Heq.
    apply lookup_insert_Some in Hk as [[<- <-]|[Hk1 Hk]]; [done|].
    apply lookup_insert_Some in Hl as [[<- <-]|[Hl1 Hl]]; [done|].
    apply lookup_insert_Some in Hk as [[<- <-]|[Hk2 Hk]]; apply lookup_insert_Some in Hl as [[<- <-]|[Hl2 Hl]].
    * done.
    * apply (pi_exclusive0 i l b d); [done|by rewrite lookup_insert_ne|by rewrite lookup_insert_ne|done].
    * rewrite Heq. apply (pi_exclusive0 i k b c); [done|by rewrite lookup_insert_ne|by rewrite lookup_insert_ne|done].
    * apply (pi_exclusive0 k l c d); [done|by rewrite lookup_insert_ne|by rewrite lookup_insert_ne|done].
  - intros p Hp. destruct (pi_owned0 p Hp) as (k & c & Hk & Hc).
    apply lookup_insert_Some in Hk as [[<- <-]|[Hk1 Hk]].
    { by destruct (active_nonzero _ _ p pi_core0 Hp). }
    destruct (decide (k = i)) as [->|Hki].
    * exists j, c. rewrite lookup_insert_ne, lookup_insert_eq by done. split; [congruence|done].
    * exists k, c. by rewrite !lookup_insert_ne.
Qed.

Lemma pool_step_inv y y' : pool_step y y' -> pool_inv y -> pool_inv y'.
Proof.
  intros [y1 slot n b s Hslot Hn Ha|y1 slot n b s Hslot Hn Ha|y1 n e s Hn Ha|y1 slot b Hb|y1 slot b Hb
         |y1 i j b old Hij Hi Hj|y1 s p c rest Hl Hd|y1|y1 p c Hp] Hinv; pose proof (pi_core _ Hinv) as Hcore.
  - unfold pool_allocate, st_bind in Ha. pose proof (wp_acquire n _ _ Hn Hcore) as H. unfold wp in H.
    destruct (acquire n (pool_ y1)) as [[[p c]| |] s1]; cbn in Ha; [|done|done]. injection Ha as <- <-.
    destruct H as (H1 & H2 & H3 & H4 & H5 & _). apply inv_new; done.
  - unfold allocateDeviceBuffer, st_bind in Ha. pose proof (wp_acquire n _ _ Hn Hcore) as H. unfold wp in H.
    destruct (acquire n (pool_ y1)) as [[[p c]| |] s1]; cbn in Ha; [|done|done].
    destruct H as (H1 & H2 & H3 & H4 & H5 & _). destruct ((p =? 0) || (n =? 0)); [done|]. injection Ha as <- <-.
    apply inv_new; done.
  - unfold pool_allocate, st_bind in Ha. pose proof (wp_acquire n _ _ Hn Hcore) as H. unfold wp in H.
    destruct (acquire n (pool_ y1)) as [[[p c]|e'|] s1]; cbn in Ha; [done| |done]. injection Ha as <- <-.
    destruct H as (H1 & H2 & _). destruct Hinv. constructor; cbn; rewrite ?H2; done.
  - by apply inv_reset.
  - by apply inv_destroy.
  - by apply inv_move.
  - destruct (drain_spec _ _ _ _ _ Hcore Hl) as (s' & Hd' & H1 & _ & H2 & _). rewrite Hd in Hd'. injection Hd' as <-.
    destruct Hinv. constructor; cbn; rewrite ?H2; done.
  - destruct Hinv. constructor; cbn; try done. by apply close_core.
  - destruct Hinv. constructor; cbn; try done. by eapply free_spec.
Qed.

(** ** The life of a pool *)

Definition fresh_system (b : B) (maximumCached : Z) : PoolSystem :=
  mkPoolSystem (mkState b maximumCached [] ∅ (mkPoolStats 0 0 0 0 0 0) true) ∅ ∅.

Lemma fresh_inv b maximumCached :
  device_ok b -> device_live b = ∅ -> is_u64 maximumCached -> pool_inv (fresh_system b maximumCached).
Proof.
  intros Hok Hb Hm. unfold is_u64 in Hm. constructor; cbn.
  - constructor; cbn; rewrite ?Hb; try done; try constructor.
  - apply map_Forall_empty.
  - intros i j b' c _ Hi. by rewrite lookup_empty in Hi.
  - intros p. rewrite lookup_empty. by intros [? ?].
Qed.

(** A closed and drained pool stays so. *)
Lemma drained_step y y' :
  pool_inv y -> pool_step y y' ->
  accepting (pool_ y) = false /\ freeBlocks (pool_ y) = [] ->
  accepting (pool_ y') = false /\ freeBlocks (pool_ y') = [].
Proof.
  intros Hinv Hstep [Ha Hf]. pose proof (pi_core _ Hinv) as Hcore.
  assert (forall slot b, buffers_ y !! slot = Some b ->
    accepting (pool_ (reset_slot slot b y)) = false /\ freeBlocks (pool_ (reset_slot slot b y)) = []) as Hreset.
  { intros slot b Hb. unfold reset_slot. destruct (pi_buffers _ Hinv _ _ Hb) as [->|[Hact _]]; [by rewrite release_nothing|].
    pose proof (release_locked_spec _ _ _ _ Hcore Hact) as H. destruct (release_locked _ _) as [s d].
    destruct H as (_ & _ & Hacc & _ & [->| ->] & Hiff & _ & Hfree); cbn.
    - destruct Hiff as [Hiff _]. destruct (Hiff eq_refl). congruence.
    - rewrite Hacc, Hfree by done. done. }
  assert (forall n s r, is_u64 n -> acquire n (pool_ y) = (r, s) ->
    match r with Ok _ => False | _ => accepting s = false /\ freeBlocks s = [] end) as Hacq.
  { intros n s r Hn Hr. unfold acquire, st_bind, lift, st_get in Hr.
    destruct (alignedSize n); cbn in Hr; [|by injection Hr as <- <-|by injection Hr as <- <-].
    rewrite Ha in Hr. cbn in Hr. by injection Hr as <- <-. }
  destruct Hstep as [y1 slot n b s Hslot Hn Hal|y1 slot n b s Hslot Hn Hal|y1 n e s Hn Hal|y1 slot b Hb|y1 slot b Hb
         |y1 i j b old Hij Hi Hj|y1 s p c rest Hl Hd|y1|y1 p c Hp]; cbn; auto.
  - unfold pool_allocate, st_bind in Hal. destruct (acquire n (pool_ y1)) as [[[]| |] s1] eqn:Hr; [|done|done].
    by apply (Hacq n) in Hr.
  - unfold allocateDeviceBuffer, st_bind in Hal. destruct (acquire n (pool_ y1)) as [[[]| |] s1] eqn:Hr; [|done|done].
    by apply (Hacq n) in Hr.
  - unfold pool_allocate, st_bind in Hal. destruct (acquire n (pool_ y1)) as [[[]| |] s1] eqn:Hr; [done| |done].
    injection Hal as <- <-. by apply (Hacq n) in Hr.
  - congruence.
Qed.

(** A [trim] run alone is a sequence of steps that ends with nothing cached. *)
Lemma drain_run fuel y :
  pool_inv y -> (length (freeBlocks (pool_ y)) < fuel)%nat ->
  exists y', rtc pool_step y y' /\ pool_ y' = drain_loop fuel (pool_ y) /\
    freeBlocks (pool_ y') = [] /\ buffers_ y' = buffers_ y /\ doomed_ y' = doomed_ y /\
    accepting (pool_ y') = accepting (pool_ y).
Proof.
  revert y. induction fuel as [|fuel IH]; intros y Hinv Hf; [lia|]. cbn [drain_loop].
  destruct (freeBlocks (pool_ y)) as [|[c p] rest] eqn:Hl.
  - unfold drain_locked. rewrite Hl. by exists y.
  - destruct (drain_spec _ _ _ _ _ (pi_core _ Hinv) Hl) as (s & Hd & Hcore & Hrest & _ & _ & Hacc). rewrite Hd.
    assert (doomed_ y !! p = None) as Hnone.
    { pose proof (co_free_doomed _ _ (pi_core _ Hinv)) as H. rewrite Hl, free_map_cons in H.
      by apply map_disjoint_insert_l in H as [? _]. }
    set (y1 := mkPoolSystem s (buffers_ y) (<[p := c]> (doomed_ y))).
    assert (pool_step y y1) as S1 by (by eapply ps_drain).
    set (y2 := mkPoolSystem (free_pointer (Some p) s) (buffers_ y) (doomed_ y)).
    assert (pool_step y1 y2) as S2.
    { pose proof (ps_free y1 p c (lookup_insert_eq _ _ _)) as H. cbn in H. by rewrite delete_insert_id in H. }
    assert (pool_inv y2) as Hinv2 by (eapply pool_step_inv, pool_step_inv; done).
    destruct (IH y2 Hinv2) as (y' & Hrun & H1 & H2 & H3 & H4 & H5).
    { cbn. rewrite Hrest. cbn in Hf. lia. }
    exists y'. split_and!; try done; [|by rewrite H5].
    eapply rtc_l; [exact S1|]. by eapply rtc_l.
Qed.

(** C24: In every reachable state of a pool and its buffers - allocations, resets, moves,
    destructions, trims and shutdowns interleaved step by step with the frees that
    follow them - the counters of allocated, active and free bytes are exact, the cache is within its limit, every block of
    the backend is owned by exactly one of a buffer, the cache and a pending free, and
    two buffers never share one. *)
Theorem pool_accounting b maximumCached y
    (Hok : device_ok b) (Hempty : device_live b = ∅) (Hmax : is_u64 maximumCached)
    (Hrun : rtc pool_step (fresh_system b maximumCached) y) :
  let s := pool_ y in
  activeBytes (statistics s) = map_sum id (activeBlocks s) /\
  freeBytes (statistics s) = map_sum id (free_map (freeBlocks s)) /\
  allocatedBytes (statistics s) + map_sum id (doomed_ y) = map_sum id (device_live (backend s)) /\
  allocatedBytes (statistics s) = activeBytes (statistics s) + freeBytes (statistics s) /\
  freeBytes (statistics s) <= maximumCachedBytes s /\
  (forall p c, device_live (backend s) !! p = Some c <->
     activeBlocks s !! p = Some c \/ free_map (freeBlocks s) !! p = Some c \/ doomed_ y !! p = Some c) /\
  (forall p, is_Some (activeBlocks s !! p) <-> p <> 0 /\ exists slot d, buffers_ y !! slot = Some d /\ bf_data d = p) /\
  (forall i j d e, i <> j -> buffers_ y !! i = Some d -> buffers_ y !! j = Some e -> bf_data d <> 0 ->
     bf_data d <> bf_data e /\ bf_size d <= bf_capacity d /\
     device_live (backend s) !! bf_data d = Some (bf_capacity d)).
Proof.
  assert (pool_inv y) as Hinv.
  { eapply rtc_preserves; [exact pool_step_inv|exact Hrun|by apply fresh_inv]. }
  pose proof (pi_core _ Hinv) as Hcore. cbv zeta. split_and!; try apply Hcore.
  - destruct Hcore. rewrite co_live0, !map_sum_union by (done || by apply map_disjoint_union_r_2).
    rewrite co_allocatedBytes0, co_activeBytes0, co_freeBytes0. lia.
  - intros p c. rewrite (co_live _ _ Hcore), lookup_union_Some, lookup_union_Some;
      [done|apply Hcore|apply map_disjoint_union_r_2; apply Hcore].
  - intros p. split.
    + intros Hp. split; [by eapply active_nonzero|]. by apply Hinv.
    + intros (Hp & slot & d & Hd & <-). destruct (pi_buffers _ Hinv _ _ Hd) as [?|[Ha _]]; [done|by eexists].
  - intros i j d e Hij Hi Hj Hnz. destruct (pi_buffers _ Hinv _ _ Hi) as [?|[Ha Hs]]; [done|].
    split_and!; [|lia|rewrite (co_live _ _ Hcore); by apply lookup_union_Some_l].
    intros Heq. by apply Hnz, (pi_exclusive _ Hinv i j d e).
Qed.

(** Shutting a pool down, in any reachable state, ends with nothing cached; from then
    on, whatever its buffers do, no allocation succeeds and no block is cached again;
    and once every buffer has been reset and the pending frees are done the backend
    holds no block of the pool: nothing leaks. *)
Theorem shutdown_returns_everything b maximumCached y
    (Hok : device_ok b) (Hempty : device_live b = ∅) (Hmax : is_u64 maximumCached)
    (Hrun : rtc pool_step (fresh_system b maximumCached) y) :
  exists y1, rtc pool_step y y1 /\ pool_ y1 = shutdown (pool_ y) /\
    buffers_ y1 = buffers_ y /\ freeBlocks (pool_ y1) = [] /\ accepting (pool_ y1) = false /\
    forall y2, rtc pool_step y1 y2 ->
      freeBlocks (pool_ y2) = [] /\ accepting (pool_ y2) = false /\
      (forall n, is_u64 n -> exists e s, pool_allocate n (pool_ y2) = (Throw e, s)) /\
      (map_Forall (fun _ d => bf_data d = 0) (buffers_ y2) -> doomed_ y2 = ∅ ->
         device_live (backend (pool_ y2)) = ∅ /\ allocatedBytes (statistics (pool_ y2)) = 0).
Proof.
  assert (pool_inv y) as Hinv.
  { eapply rtc_preserves; [exact pool_step_inv|exact Hrun|by apply fresh_inv]. }
  assert (pool_inv (mkPoolSystem (set_accepting false (pool_ y)) (buffers_ y) (doomed_ y))) as Hinv0
    by (eapply pool_step_inv; [apply ps_close|done]).
  destruct (drain_run (S (length (freeBlocks (pool_ y)))) _ Hinv0 ltac:(cbn; lia)) as (y1 & Hr1 & Hp1 & Hf1 & Hb1 & Hd1 & Ha1).
  assert (pool_inv y1) as Hinv1 by (eapply rtc_preserves; [exact pool_step_inv|exact Hr1|exact Hinv0]).
  exists y1. split_and!; try done; [eapply rtc_l; [apply ps_close|exact Hr1]|]. intros y2 Hr2.
  assert (pool_inv y2 /\ accepting (pool_ y2) = false /\ freeBlocks (pool_ y2) = []) as (Hinv2 & Ha2 & Hf2).
  { eapply (rtc_preserves pool_step
      (fun y => pool_inv y /\ accepting (pool_ y) = false /\ freeBlocks (pool_ y) = [])); [|exact Hr2|done].
    intros u v Huv (Hi & Hd). split; [by eapply pool_step_inv|by eapply drained_step]. }
  split_and!; [done..| |].
  - intros n Hn. pose proof (wp_acquire n _ _ Hn (pi_core _ Hinv2)) as H. unfold wp in H. unfold pool_allocate, st_bind.
    destruct (acquire n (pool_ y2)) as [[[p c]|e|] s]; [|by exists e, s|done].
    destruct H as (_ & _ & _ & _ & _ & _ & Hacc & _). congruence.
  - intros Hz Hd2. pose proof (pi_core _ Hinv2) as []. 
    assert (activeBlocks (pool_ y2) = ∅) as Hact.
    { apply map_empty. intros p. destruct (activeBlocks (pool_ y2) !! p) eqn:Hp; [|done]. exfalso.
      destruct (pi_owned _ Hinv2 p ltac:(by eexists)) as (slot & d & Hs & Hd).
      apply (active_nonzero _ _ p (pi_core _ Hinv2)); [by eexists|]. rewrite <- Hd. by apply (Hz slot). }
    rewrite Hact, Hf2, Hd2 in *. unfold free_map in *. cbn in co_live0. rewrite !(left_id_L ∅ (∪)) in co_live0.
    split; [done|]. rewrite co_allocatedBytes0, co_activeBytes0, co_freeBytes0. cbn. by rewrite map_sum_empty.
Qed.

(** Cached blocks are cut to the alignment, so one that holds the request holds its
    rounded size. *)
Lemma free_aligned s doomed block : core s doomed -> block ∈ freeBlocks s -> fst block mod kAlignment = 0.
Proof.
  intros Hc Hin. destruct block as [c p]. apply list_elem_of_split in Hin as (l1 & l2 & Hl).
  pose proof (core_reuse s doomed c p l1 l2 Hc Hl). tauto.
Qed.

Lemma rounded_least n a c :
  a < n + kAlignment -> a mod kAlignment = 0 -> c mod kAlignment = 0 -> n <= c -> a <= c.
Proof.
  unfold kAlignment. intros. pose proof (Z.div_mod a 256). pose proof (Z.div_mod c 256). lia.
Qed.

(** An allocation that succeeds hands out a block at least as large as asked, cut to
    the alignment: the smallest cached block that fits, if one does, and a fresh block
    of the rounded size otherwise; one that fails changes neither the blocks nor the
    counters. *)
Theorem pool_allocate_best_fit n s doomed
    (Hn : is_u64 n) (Hcore : core s doomed) :
  match pool_allocate n s with
  | (Ok d, s') =>
      core s' doomed /\ bf_size d = n /\ n <= bf_capacity d /\ bf_capacity d mod kAlignment = 0 /\
      activeBlocks s !! bf_data d = None /\ activeBlocks s' = <[bf_data d := bf_capacity d]> (activeBlocks s) /\
      (forall block, block ∈ freeBlocks s -> n <= fst block ->
         (bf_capacity d, bf_data d) ∈ freeBlocks s /\ bf_capacity d <= fst block /\ backend s' = backend s) /\
      ((forall block, block ∈ freeBlocks s -> fst block < n) ->
         bf_capacity d < n + kAlignment /\ device_live (backend s) !! bf_data d = None)
  | (Throw e, s') =>
      activeBlocks s' = activeBlocks s /\ freeBlocks s' = freeBlocks s /\ statistics s' = statistics s /\
      device_live (backend s') = device_live (backend s)
  | (Diverge, _) => False
  end.
Proof.
  pose proof (wp_acquire n s doomed Hn Hcore) as H. pose proof (alignedSize_spec n Hn) as Ha.
  unfold wp in H. unfold pool_allocate, st_bind.
  destruct (acquire n s) as [[[p c]|e|] s']; cbn; [|tauto|done].
  destruct H as (H1 & H2 & H3 & H4 & H5 & H6 & H7 & a & Heq & H8). rewrite Heq in Ha.
  pose proof (take_fitting_spec a (freeBlocks s)) as Ht. split_and!; try done; [lia| |].
  - intros block Hin Hb.
    assert (a <= fst block) as Hab by (pose proof (free_aligned _ _ _ Hcore Hin); apply (rounded_least n); tauto).
    destruct (take_fitting a (freeBlocks s)) as [[f rest]|] eqn:Htake.
    + destruct H8 as (<- & _ & ->). split_and!; [|by apply (best_fit a _ _ rest block (co_sorted _ _ Hcore) Htake)|done].
      destruct Ht as (l1 & l2 & -> & _). set_solver.
    + rewrite Forall_forall in Ht. specialize (Ht block Hin). lia.
  - intros Hsmall. destruct (take_fitting a (freeBlocks s)) as [[f rest]|] eqn:Htake.
    + exfalso. destruct Ht as (l1 & l2 & Hl & _ & Hle & _). specialize (Hsmall f). rewrite Hl in Hsmall.
      assert (fst f < n) by (apply Hsmall; set_solver). lia.
    + destruct H8 as (-> & _ & ?). split; [lia|done].
Qed.
End pool.
Arguments PoolSystem B : clear implicits.

(** ** A concrete allocator, for the witnesses: addresses only grow *)

Record Bump : Type := mkBump { bu_next : Z; bu_blocks : gmap Z Z }.

Definition bump_budget : Z := 65536.

#[local] Instance bump_allocator : DeviceAllocator Bump := {
  device_allocate size b :=
    if bump_budget <? map_sum id (bu_blocks b) + size
    then (Throw (Exn RuntimeError "cudaErrorMemoryAllocation"), b)
    else (Ok (bu_next b), mkBump (bu_next b + size) (<[bu_next b := size]> (bu_blocks b)));
  device_free p b := mkBump (bu_next b) (delete p (bu_blocks b));
  device_live := bu_blocks;
}.

Definition bump_ok (b : Bump) : Prop :=
  4096 <= bu_next b /\ map_Forall (fun p c => p < bu_next b /\ 0 <= id c) (bu_blocks b) /\
  map_sum id (bu_blocks b) <= bump_budget.

#[local] Instance bump_laws : DeviceAllocatorLaws Bump.
Proof.
  refine {| device_ok := bump_ok |}.
  - intros size b (Hn & Hb & Hs) Hsize. cbn. destruct (Z.ltb_spec bump_budget (map_sum id (bu_blocks b) + size)); [done|].
    assert (bu_blocks b !! bu_next b = None) as Hnone.
    { destruct (bu_blocks b !! bu_next b) eqn:Hl; [|done]. destruct (Hb _ _ Hl). lia. }
    split_and!; [|lia|done|done]. split_and!; cbn; [lia| |].
    + apply map_Forall_insert_2; [cbn; lia|]. eapply map_Forall_impl; [exact Hb|]. cbn. lia.
    + rewrite map_sum_insert by done. unfold id at 1. lia.
  - intros p b (Hn & Hb & Hs). cbn. split; [|done]. split_and!; cbn; [done|by apply map_Forall_delete|].
    destruct (bu_blocks b !! p) as [c|] eqn:Hl; [|by rewrite delete_id].
    rewrite (map_sum_delete id _ _ _ Hl) in Hs. destruct (Hb _ _ Hl). unfold id at 1 in Hs. cbn in *. lia.
  - intros b (_ & _ & Hs). unfold bump_budget, u64_max in *. cbn. lia.
Defined.

Definition empty_bump : Bump := mkBump 4096 ∅.
Lemma empty_bump_ok : bump_ok empty_bump.
Proof. split_and!; cbn; [lia|apply map_Forall_empty|]. rewrite map_sum_empty. done. Qed.

Lemma sample_device_ok : device_ok empty_bump.
Proof. exact empty_bump_ok. Qed.

Definition sample_pool : PoolSystem Bump := fresh_system empty_bump 1024.

(** One allocation of 300 bytes: a block of 512. *)
Definition sample_allocated_pool : State Bump :=
  mkState (mkBump 4608 {[4096 := 512]}) 1024 [] {[4096 := 512]} (mkPoolStats 512 512 0 512 1 0) true.
Definition sample_pool_after : PoolSystem Bump :=
  mkPoolSystem sample_allocated_pool {[1 := mkCudaBuffer 4096 300 512]} ∅.

Lemma sample_pool_allocates :
  pool_allocate 300 (pool_ sample_pool) = (Ok (mkCudaBuffer 4096 300 512), sample_allocated_pool).
Proof. vm_compute. reflexivity. Qed.

Lemma sample_pool_run : rtc pool_step sample_pool sample_pool_after.
Proof.
  apply rtc_once. apply (ps_allocate sample_pool 1 300); [apply lookup_empty| |apply sample_pool_allocates].
  unfold is_u64, u64_max. lia.
Qed.

Lemma u64_1024 : is_u64 1024 /\ is_u64 300.
Proof. unfold is_u64, u64_max. lia. Qed.

Lemma sample_pool_core : core (pool_ sample_pool) ∅.
Proof. apply (pi_core sample_pool), fresh_inv; [apply empty_bump_ok|reflexivity|apply u64_1024]. Qed.

Lemma pool_accounting_witness :
  rtc pool_step sample_pool sample_pool_after /\
  activeBytes (statistics (pool_ sample_pool_after)) = map_sum id (activeBlocks (pool_ sample_pool_after)).
Proof.
  split; [exact sample_pool_run|].
  exact (proj1 (pool_accounting empty_bump 1024 sample_pool_after sample_device_ok eq_refl
    (proj1 u64_1024) sample_pool_run)).
Defined.

Lemma shutdown_returns_everything_witness :
  rtc pool_step sample_pool sample_pool_after /\
  exists y1, rtc pool_step sample_pool_after y1 /\ freeBlocks (pool_ y1) = [] /\ accepting (pool_ y1) = false.
Proof.
  split; [exact sample_pool_run|].
  destruct (shutdown_returns_everything empty_bump 1024 sample_pool_after sample_device_ok eq_refl
    (proj1 u64_1024) sample_pool_run) as (y1 & H1 & _ & _ & H2 & H3 & _).
  exists y1. split; [exact H1|]. split; [exact H2|exact H3].
Defined.

Lemma pool_allocate_best_fit_witness :
  is_u64 300 /\ core (pool_ sample_pool) ∅ /\ core sample_allocated_pool ∅.
Proof.
  split; [exact (proj2 u64_1024)|]. split; [exact sample_pool_core|].
  pose proof (pool_allocate_best_fit 300 (pool_ sample_pool) ∅ (proj2 u64_1024) sample_pool_core) as H.
  rewrite sample_pool_allocates in H. exact (proj1 H).
Defined.
