(* ===== verification/Prediction.v ===== *)
(** * The statistics of past routing decisions

    [src/prediction/ExpertHistory.cpp] and [TransitionDatabase.cpp]: how often each
    expert was selected, how often one followed another in its stream, which were
    selected together, decayed counts and a window of recent selections.  [std::pow] is
    a parameter; the order in which a hash table is walked is one too. *)

From S2P Require Import Prelude Float Router.

(** ** Keys *)

Record ExpertSelection : Type := mkSelection { es_layerId : Z; es_expertId : Z }.
#[global] Instance ExpertSelection_eq_dec : EqDecision ExpertSelection.
Proof. solve_decision. Defined.
#[global] Instance ExpertSelection_countable : Countable ExpertSelection :=
  inj_countable' (fun x => (es_layerId x, es_expertId x)) (fun '(l, e) => mkSelection l e) ltac:(by intros []).

Record ExpertTransition : Type := mkTransition { from : ExpertSelection; to : ExpertSelection }.
#[global] Instance ExpertTransition_eq_dec : EqDecision ExpertTransition.
Proof. solve_decision. Defined.
#[global] Instance ExpertTransition_countable : Countable ExpertTransition :=
  inj_countable' (fun x => (from x, to x)) (fun '(a, b) => mkTransition a b) ltac:(by intros []).

Record ExpertCooccurrence : Type := mkPair { first : ExpertSelection; second : ExpertSelection }.
#[global] Instance ExpertCooccurrence_eq_dec : EqDecision ExpertCooccurrence.
Proof. solve_decision. Defined.
#[global] Instance ExpertCooccurrence_countable : Countable ExpertCooccurrence :=
  inj_countable' (fun x => (first x, second x)) (fun '(a, b) => mkPair a b) ltac:(by intros []).

Definition less (left right : ExpertSelection) : bool :=
  (es_layerId left <? es_layerId right) ||
  ((es_layerId left =? es_layerId right) && (es_expertId left <? es_expertId right)).

Definition orderedPair (a b : ExpertSelection) : ExpertCooccurrence :=
  if less b a then mkPair b a else mkPair a b.

(** [{decision.layerId, expert}] for each selected expert *)
Definition selections (d : RouterDecision) : list ExpertSelection :=
  mkSelection (rd_layerId d) <$> selectedExpertIds d.

(** [++counts[key]]: a missing entry is created with zero. *)
Definition bump {K} `{Countable K} (counts : gmap K Z) (key : K) : gmap K Z :=
  <[key := wrap64 (default 0 (counts !! key) + 1)]> counts.

(** The pairs a nested loop visits: [left] outer, [right] inner. *)
Definition crossed (previous current : list ExpertSelection) : list ExpertTransition :=
  concat ((fun f => mkTransition f <$> current) <$> previous).

(** The pairs with [left < right]. *)
Fixpoint pairs (l : list ExpertSelection) : list ExpertCooccurrence :=
  match l with
  | [] => []
  | a :: l => (orderedPair a <$> l) ++ pairs l
  end.

(** ** [ExpertHistory] *)

Record ExpertHistory : Type := mkHistory {
  hi_decisions : Z;
  hi_frequencies : gmap ExpertSelection Z;
  hi_transitions : gmap ExpertTransition Z;
  hi_previous : list ExpertSelection;
}.
Definition newHistory : ExpertHistory := mkHistory 0 ∅ ∅ [].

Definition history_record (d : RouterDecision) : ST ExpertHistory unit :=
  (lift (throw_if (negb (decision_valid d)) (Exn InvalidArgument "cannot record invalid routing decision")) ;;;
   modify (fun h =>
     let current := selections d in
     mkHistory (wrap64 (hi_decisions h + 1)) (foldl bump (hi_frequencies h) current)
       (foldl bump (hi_transitions h) (crossed (hi_previous h) current)) current))%st.

Definition history_frequency (layerId expertId : Z) (h : ExpertHistory) : Z :=
  default 0 (hi_frequencies h !! mkSelection layerId expertId).
Definition history_transitionCount (f t : ExpertSelection) (h : ExpertHistory) : Z :=
  default 0 (hi_transitions h !! mkTransition f t).

(** ** [TransitionDatabase] *)

Record DecayedCounter : Type := mkDecayed { value : f64; lastObservation : Z }.

Record TransitionDatabase : Type := mkDatabase {
  recentWindow_ : Z;
  decayFactor_ : f64;
  observations_ : Z;
  frequency_ : gmap ExpertSelection Z;
  transitions_ : gmap ExpertTransition Z;
  decayedFrequency_ : gmap ExpertSelection DecayedCounter;
  decayedTransitions_ : gmap ExpertTransition DecayedCounter;
  cooccurrence_ : gmap ExpertCooccurrence Z;
  previousByStream_ : gmap Z (list ExpertSelection);
  recent_ : list (list ExpertSelection);
}.

Definition newDatabase (recentWindow : Z) (decayFactor : f64) : result TransitionDatabase :=
  (throw_if ((recentWindow =? 0) || negb (isfinite decayFactor) || fle decayFactor f64_zero ||
             fgt decayFactor f64_one)
     (Exn InvalidArgument "invalid transition database configuration") ;;?
   Ok (mkDatabase recentWindow decayFactor 0 ∅ ∅ ∅ ∅ ∅ ∅ []))%res.

Section database.
Variable pow : f64 -> f64 -> f64.

Definition decayedValue (db : TransitionDatabase) (c : DecayedCounter) : f64 :=
  f64_mul (value c) (pow (decayFactor_ db) (f64_of_Z (wrap64 (observations_ db - lastObservation c)))).

(** [increment(counters[key])] *)
Definition increment {K} `{Countable K} (db : TransitionDatabase) (counters : gmap K DecayedCounter) (key : K)
    : gmap K DecayedCounter :=
  <[key := mkDecayed (f64_add (decayedValue db (default (mkDecayed f64_zero 0) (counters !! key))) f64_one)
             (observations_ db)]> counters.

(** [while (recent.size() > window) recent.pop_front();] *)
Definition bounded (window : Z) (recent : list (list ExpertSelection)) : list (list ExpertSelection) :=
  drop (length recent - Z.to_nat window) recent.

Definition record_selections (current : list ExpertSelection) (streamId : Z) (db : TransitionDatabase)
    : TransitionDatabase :=
  let transitions := crossed (default [] (previousByStream_ db !! streamId)) current in
  mkDatabase (recentWindow_ db) (decayFactor_ db) (wrap64 (observations_ db + 1))
    (foldl bump (frequency_ db) current) (foldl bump (transitions_ db) transitions)
    (foldl (increment db) (decayedFrequency_ db) current)
    (foldl (increment db) (decayedTransitions_ db) transitions)
    (foldl bump (cooccurrence_ db) (pairs current))
    (<[streamId := current]> (previousByStream_ db))
    (bounded (recentWindow_ db) (recent_ db ++ [current])).

Definition record (d : RouterDecision) (streamId : Z) : ST TransitionDatabase unit :=
  (lift (throw_if (negb (decision_valid d)) (Exn InvalidArgument "cannot record invalid routing decision")) ;;;
   modify (record_selections (selections d) streamId))%st.

Definition endStream (streamId : Z) (db : TransitionDatabase) : TransitionDatabase :=
  mkDatabase (recentWindow_ db) (decayFactor_ db) (observations_ db) (frequency_ db) (transitions_ db)
    (decayedFrequency_ db) (decayedTransitions_ db) (cooccurrence_ db)
    (delete streamId (previousByStream_ db)) (recent_ db).

Definition frequency (expert : ExpertSelection) (db : TransitionDatabase) : Z := default 0 (frequency_ db !! expert).
Definition transitionCount (f t : ExpertSelection) (db : TransitionDatabase) : Z :=
  default 0 (transitions_ db !! mkTransition f t).
Definition cooccurrenceCount (a b : ExpertSelection) (db : TransitionDatabase) : Z :=
  if decide (a = b) then 0 else default 0 (cooccurrence_ db !! orderedPair a b).
Definition previousSelections (streamId : Z) (db : TransitionDatabase) : list ExpertSelection :=
  default [] (previousByStream_ db !! streamId).

(** A walk of the hash table of frequencies. *)
Variable walk : gmap ExpertSelection Z -> list (ExpertSelection * Z).

Definition by_id (left right : ExpertSelection) : bool := es_expertId left <? es_expertId right.

Definition expertsInLayer (layerId : Z) (db : TransitionDatabase) : list ExpertSelection :=
  stable_sort by_id (filter (fun expert => es_layerId expert = layerId) (walk (frequency_ db)).*1).

(** *** [predictionStatistics] *)

Record PredictionCandidateStatistics : Type := mkCandidate {
  pc_expert : ExpertSelection;
  pc_frequency : Z;
  pc_incomingBySource : list Z;
  pc_cooccurrence : gmap Z Z;
  pc_decayedFrequency : f64;
  pc_windowFrequency : Z;
  pc_decayedIncomingBySource : list f64;
}.

Record PredictionStatistics : Type := mkStatistics {
  ps_layerFrequency : Z;
  ps_outgoingBySource : list Z;
  ps_candidates : list PredictionCandidateStatistics;
  ps_decayedLayerFrequency : f64;
  ps_windowLayerFrequency : Z;
}.

(** The first loop: a candidate for each expert of the layer, in the order of the walk. *)
Definition new_candidate (db : TransitionDatabase) (sources : nat) (entry : ExpertSelection * Z)
    : PredictionCandidateStatistics :=
  mkCandidate (fst entry) (snd entry) (replicate sources 0) ∅
    (match decayedFrequency_ db !! fst entry with Some c => decayedValue db c | None => f64_zero end)
    0 (replicate sources f64_zero).

Definition in_window (selection : ExpertSelection) (c : PredictionCandidateStatistics) : PredictionCandidateStatistics :=
  mkCandidate (pc_expert c) (pc_frequency c) (pc_incomingBySource c) (pc_cooccurrence c) (pc_decayedFrequency c)
    (wrap64 (pc_windowFrequency c + 1)) (pc_decayedIncomingBySource c).

(** The window loop: [std::find_if] and [++windowFrequency]. *)
Definition count_recent (layer : Z) (r : list PredictionCandidateStatistics * Z) (selection : ExpertSelection)
    : list PredictionCandidateStatistics * Z :=
  if es_layerId selection =? layer then
    let '(candidates, total) := r in
    (match list_find (fun c => pc_expert c = selection) candidates with
     | Some (i, _) => alter (in_window selection) i candidates
     | None => candidates
     end, wrap64 (total + 1))
  else r.

(** The loop over sources, for one candidate. *)
Definition incoming (db : TransitionDatabase) (sources : list ExpertSelection) (c : PredictionCandidateStatistics)
    : PredictionCandidateStatistics :=
  mkCandidate (pc_expert c) (pc_frequency c)
    ((fun source => default 0 (transitions_ db !! mkTransition source (pc_expert c))) <$> sources)
    (pc_cooccurrence c) (pc_decayedFrequency c) (pc_windowFrequency c)
    ((fun source => match decayedTransitions_ db !! mkTransition source (pc_expert c) with
                    | Some counter => decayedValue db counter
                    | None => f64_zero
                    end) <$> sources).

Definition outgoing (db : TransitionDatabase) (candidates : list PredictionCandidateStatistics) (source : ExpertSelection) : Z :=
  foldl (fun total c => wrap64 (total + default 0 (transitions_ db !! mkTransition source (pc_expert c)))) 0 candidates.

(** The last loop: [emplace] keeps the first value of a key. *)
Definition add_peer (db : TransitionDatabase) (c : PredictionCandidateStatistics) (peers : gmap Z Z)
    (peer : PredictionCandidateStatistics) : gmap Z Z :=
  if decide (pc_expert c = pc_expert peer) then peers
  else match cooccurrence_ db !! orderedPair (pc_expert c) (pc_expert peer), peers !! es_expertId (pc_expert peer) with
       | Some count, None => <[es_expertId (pc_expert peer) := count]> peers
       | _, _ => peers
       end.

Definition with_peers (db : TransitionDatabase) (candidates : list PredictionCandidateStatistics)
    (c : PredictionCandidateStatistics) : PredictionCandidateStatistics :=
  mkCandidate (pc_expert c) (pc_frequency c) (pc_incomingBySource c) (foldl (add_peer db c) (pc_cooccurrence c) candidates)
    (pc_decayedFrequency c) (pc_windowFrequency c) (pc_decayedIncomingBySource c).

Definition by_candidate (left right : PredictionCandidateStatistics) : bool := by_id (pc_expert left) (pc_expert right).

Definition predictionStatistics (targetLayer : Z) (sources : list ExpertSelection) (db : TransitionDatabase)
    : PredictionStatistics :=
  let entries := filter (fun entry => es_layerId (fst entry) = targetLayer) (walk (frequency_ db)) in
  let candidates := new_candidate db (length sources) <$> entries in
  let layerFrequency := foldl (fun total c => wrap64 (total + pc_frequency c)) 0 candidates in
  let decayedLayerFrequency := foldl (fun total c => f64_add total (pc_decayedFrequency c)) f64_zero candidates in
  let '(candidates, window) := foldl (count_recent targetLayer) (candidates, 0) (concat (recent_ db)) in
  let candidates := stable_sort by_candidate candidates in
  let out := outgoing db candidates <$> sources in
  let candidates := incoming db sources <$> candidates in
  mkStatistics layerFrequency out (with_peers db candidates <$> candidates) decayedLayerFrequency window.
End database.

(** ** What the counts are: the trace of the calls *)

Inductive event : Type := Recorded (d : RouterDecision) (streamId : Z) | Ended (streamId : Z).

(** What an accepted call adds. *)
Definition observed_by (e : event) : option (Z * list ExpertSelection) :=
  match e with
  | Recorded d s => if decision_valid d then Some (s, selections d) else None
  | Ended _ => None
  end.
Definition observed (evs : list event) : list (list ExpertSelection) := (omap observed_by evs).*2.

(** The last selections of a stream since it ended. *)
Definition last_step (streamId : Z) (l : list ExpertSelection) (e : event) : list ExpertSelection :=
  match e with
  | Recorded d s => if decide (s = streamId) then (if decision_valid d then selections d else l) else l
  | Ended s => if decide (s = streamId) then [] else l
  end.
Definition last_of (streamId : Z) (evs : list event) : list ExpertSelection := foldl (last_step streamId) [] evs.

(** The transitions of a trace: each selection after each of the last ones of its stream. *)
Fixpoint followed (before evs : list event) : list ExpertTransition :=
  match evs with
  | [] => []
  | e :: evs =>
      (match observed_by e with Some (s, current) => crossed (last_of s before) current | None => [] end) ++
      followed (before ++ [e]) evs
  end.

(** How often an element occurs. *)
Definition occurrences {K} `{EqDecision K} (x : K) (l : list K) : Z := Z.of_nat (length (filter (x =.) l)).

Lemma occurrences_app {K} `{EqDecision K} (x : K) l l' : occurrences x (l ++ l') = occurrences x l + occurrences x l'.
Proof. unfold occurrences. rewrite filter_app, length_app. lia. Qed.

Lemma occurrences_in {K} `{EqDecision K} (x : K) l : x ∈ l <-> occurrences x l <> 0.
Proof.
  unfold occurrences. split.
  - intros Hx. assert (x ∈ filter (x =.) l) as H by (by apply list_elem_of_filter). destruct (filter _ _); [set_solver|done].
  - intros H. destruct (filter (x =.) l) as [|y l'] eqn:Hf; [done|].
    assert (y ∈ filter (x =.) l) as [-> ?]%list_elem_of_filter by (rewrite Hf; left). done.
Qed.

Lemma occurrences_single {K} `{EqDecision K} (x y : K) : occurrences x [y] = if decide (x = y) then 1 else 0.
Proof. unfold occurrences. rewrite filter_cons. by destruct (decide _). Qed.

Section counts.
Context {K : Type} `{Countable K}.

(** A table of counts modulo the width, and the keys it has. *)
Definition counts_of (m : gmap K Z) (l : list K) : Prop :=
  forall x, default 0 (m !! x) = wrap64 (occurrences x l) /\ (is_Some (m !! x) <-> x ∈ l).

Lemma wrap64_add_l a b : wrap64 (wrap64 a + b) = wrap64 (a + b).
Proof. unfold wrap64. by rewrite Zplus_mod_idemp_l. Qed.

Lemma counts_of_empty : counts_of ∅ [].
Proof. intros x. rewrite lookup_empty. split; [done|]. split; [by intros []|set_solver]. Qed.

Lemma counts_of_bump m l x : counts_of m l -> counts_of (bump m x) (l ++ [x]).
Proof.
  intros Hm y. unfold bump. rewrite occurrences_app, occurrences_single. destruct (Hm y) as [Hy Hd]. destruct (decide (y = x)) as [->|Hne].
  - rewrite lookup_insert_eq. cbn [default from_option id]. rewrite Hy, wrap64_add_l.
    split; [done|]. split; [set_solver|by eexists].
  - rewrite lookup_insert_ne by done. rewrite Z.add_0_r. split; [done|]. set_solver.
Qed.

Lemma counts_of_bumps m l l' : counts_of m l -> counts_of (foldl bump m l') (l ++ l').
Proof.
  revert m l. induction l' as [|x l' IH]; intros m l Hm; cbn; [by rewrite app_nil_r|].
  rewrite (cons_middle x l l'), (assoc_L (++)). by apply IH, counts_of_bump.
Qed.
End counts.

Section trace.
Variable pow : f64 -> f64 -> f64.

Definition apply_event (db : TransitionDatabase) (e : event) : TransitionDatabase :=
  match e with
  | Recorded d s => snd (record pow d s db)
  | Ended s => endStream s db
  end.
Definition run (db : TransitionDatabase) (evs : list event) : TransitionDatabase := foldl apply_event db evs.

(** The database is the summary of its trace. *)
Record summarises (window : Z) (db : TransitionDatabase) (evs : list event) : Prop := Summarises {
  su_window : recentWindow_ db = window;
  su_observations : observations_ db = wrap64 (Z.of_nat (length (observed evs)));
  su_frequency : counts_of (frequency_ db) (concat (observed evs));
  su_transitions : counts_of (transitions_ db) (followed [] evs);
  su_cooccurrence : counts_of (cooccurrence_ db) (concat (pairs <$> observed evs));
  su_previous s : default [] (previousByStream_ db !! s) = last_of s evs;
  su_recent : recent_ db = bounded window (observed evs);
}.

Lemma last_of_snoc s evs e : last_of s (evs ++ [e]) = last_step s (last_of s evs) e.
Proof. unfold last_of. by rewrite foldl_app. Qed.

Lemma followed_snoc before evs e :
  followed before (evs ++ [e]) = followed before evs ++
    match observed_by e with Some (s, current) => crossed (last_of s (before ++ evs)) current | None => [] end.
Proof.
  revert before. induction evs as [|e' evs IH]; intros before; cbn; [by rewrite !app_nil_r|].
  rewrite IH, <- !(assoc_L (++)). done.
Qed.

Lemma observed_snoc evs e :
  observed (evs ++ [e]) = observed evs ++ match observed_by e with Some (_, current) => [current] | None => [] end.
Proof.
  unfold observed. rewrite omap_app, fmap_app. f_equal. cbn. by destruct (observed_by e) as [[]|].
Qed.

Lemma bounded_snoc window l x : 0 < window -> bounded window (bounded window l ++ [x]) = bounded window (l ++ [x]).
Proof.
  intros Hw. unfold bounded. set (n := Z.to_nat window). assert (0 < n)%nat by lia.
  rewrite !length_app, !length_drop. cbn [length].
  destruct (decide (length l < n)%nat).
  - replace (length l - n)%nat with 0%nat by lia. cbn [drop]. f_equal. lia.
  - replace (length l - (length l - n) + 1 - n)%nat with 1%nat by lia.
    rewrite <- drop_app_le by lia. rewrite drop_drop. f_equal. lia.
Qed.

Lemma summarises_record window db evs d s :
  0 < window -> summarises window db evs -> decision_valid d = true ->
  summarises window (record_selections pow (selections d) s db) (evs ++ [Recorded d s]).
Proof.
  intros Hw [] Hd. constructor; cbn; rewrite ?observed_snoc, ?followed_snoc; cbn [observed_by]; rewrite ?Hd.
  - done.
  - rewrite su_observations0, wrap64_add_l, length_app. cbn. f_equal. lia.
  - rewrite concat_app. cbn. rewrite app_nil_r. by apply counts_of_bumps.
  - rewrite su_previous0. by apply counts_of_bumps.
  - rewrite fmap_app, concat_app. cbn. rewrite app_nil_r. by apply counts_of_bumps.
  - intros s'. rewrite last_of_snoc. cbn. rewrite Hd. destruct (decide (s = s')) as [->|Hne].
    + by rewrite lookup_insert_eq.
    + by rewrite lookup_insert_ne.
  - rewrite su_recent0, su_window0. by apply bounded_snoc.
Qed.

Lemma summarises_end window db evs s : summarises window db evs -> summarises window (endStream s db) (evs ++ [Ended s]).
Proof.
  intros []. constructor; cbn; rewrite ?observed_snoc, ?followed_snoc; cbn [observed_by]; rewrite ?app_nil_r; try done.
  intros s'. rewrite last_of_snoc. cbn. destruct (decide (s = s')) as [->|Hne].
  - by rewrite lookup_delete_eq.
  - by rewrite lookup_delete_ne.
Qed.

Lemma summarises_event window db evs e :
  0 < window -> summarises window db evs -> summarises window (apply_event db e) (evs ++ [e]).
Proof.
  intros Hw Hs. destruct e as [d s|s]; [|by apply summarises_end].
  unfold apply_event, record, st_bind, lift. destruct (decision_valid d) eqn:Hd; cbn; [by apply summarises_record|].
  destruct Hs. constructor; rewrite ?observed_snoc, ?followed_snoc; cbn [observed_by]; rewrite ?Hd, ?app_nil_r; try done.
  intros s'. rewrite last_of_snoc. cbn. rewrite Hd. by destruct (decide (s = s')).
Qed.

Lemma summarises_run window db before evs :
  0 < window -> summarises window db before -> summarises window (run db evs) (before ++ evs).
Proof.
  intros Hw. revert db before. induction evs as [|e evs IH]; intros db before Hs; cbn; [by rewrite app_nil_r|].
  rewrite (cons_middle e before evs), (assoc_L (++)). by apply IH, summarises_event.
Qed.

Lemma newDatabase_summarises window decay db :
  is_u64 window -> newDatabase window decay = Ok db -> 0 < window /\ summarises window db [].
Proof.
  unfold newDatabase, is_u64. intros Hw H. destruct (_ || _) eqn:Hc in H; [done|]. injection H as <-.
  rewrite !orb_false_iff in Hc. destruct Hc as (((Hz & _) & _) & _). apply Z.eqb_neq in Hz.
  split; [lia|]. constructor; cbn; try done; apply counts_of_empty.
Qed.

Lemma orderedPair_comm a b : orderedPair a b = orderedPair b a.
Proof.
  destruct a as [l e], b as [l' e']. unfold orderedPair, less. cbn.
  destruct (Z.ltb_spec l' l), (Z.ltb_spec l l'), (Z.eqb_spec l' l), (Z.eqb_spec l l'), (Z.ltb_spec e' e), (Z.ltb_spec e e');
    cbn; try lia; try done; f_equal; f_equal; lia.
Qed.

(** C30: The counts of the transition database are those of its trace.  After any calls,
    refused records and ended streams included, each count is the number of occurrences
    in the trace modulo 2^64: selections, transitions from the last selections of the
    same stream since it ended, unordered pairs selected together; the window holds the
    last selections, as many as it may. *)
Theorem database_counts window decay db0 evs (Hwindow : is_u64 window) (Hnew : newDatabase window decay = Ok db0) :
  let db := run db0 evs in
  (forall x, frequency x db = wrap64 (occurrences x (concat (observed evs)))) /\
  (forall f t, transitionCount f t db = wrap64 (occurrences (mkTransition f t) (followed [] evs))) /\
  (forall a b, cooccurrenceCount a b db = cooccurrenceCount b a db /\
     cooccurrenceCount a b db =
       if decide (a = b) then 0 else wrap64 (occurrences (orderedPair a b) (concat (pairs <$> observed evs)))) /\
  (forall s, previousSelections s db = last_of s evs) /\
  observations_ db = wrap64 (Z.of_nat (length (observed evs))) /\
  recent_ db = drop (length (observed evs) - Z.to_nat window) (observed evs) /\
  Z.of_nat (length (recent_ db)) <= window.
Proof.
  destruct (newDatabase_summarises window decay db0 Hwindow Hnew) as [Hw H0].
  pose proof (summarises_run window db0 [] evs Hw H0) as []. cbn [app] in *. cbv zeta. split_and!.
  - intros x. apply (proj1 (su_frequency0 x)).
  - intros f t. apply (proj1 (su_transitions0 (mkTransition f t))).
  - intros a b. unfold cooccurrenceCount. rewrite (orderedPair_comm b a).
    destruct (decide (a = b)) as [->|Hne]; [by rewrite decide_True|]. rewrite decide_False by congruence.
    split; [done|]. apply (proj1 (su_cooccurrence0 (orderedPair a b))).
  - exact su_previous0.
  - done.
  - done.
  - rewrite su_recent0. unfold bounded. rewrite length_drop. lia.
Qed.
End trace.

(** ** The statistics of a layer *)

Section statistics.
Variables (pow : f64 -> f64 -> f64) (walk : gmap ExpertSelection Z -> list (ExpertSelection * Z)).
Hypothesis walk_perm : forall m, walk m ≡ₚ map_to_list m.

(** A sum of counters. *)
Definition sum_of {A} (f : A -> Z) (l : list A) : Z := foldr (fun x acc => f x + acc) 0 l.

Lemma fold_wrap {A} (f : A -> Z) l acc :
  foldl (fun total x => wrap64 (total + f x)) (wrap64 acc) l = wrap64 (acc + sum_of f l).
Proof.
  revert acc. induction l as [|x l IH]; intros acc; cbn [foldl]; [unfold sum_of; cbn; f_equal; lia|].
  rewrite wrap64_add_l, IH. f_equal. unfold sum_of. cbn. lia.
Qed.

Lemma sum_of_perm {A} (f : A -> Z) l l' : l ≡ₚ l' -> sum_of f l = sum_of f l'.
Proof. unfold sum_of. induction 1; cbn; lia. Qed.

(** *** The window *)

Definition windowed (seen : list ExpertSelection) (c : PredictionCandidateStatistics) : PredictionCandidateStatistics :=
  mkCandidate (pc_expert c) (pc_frequency c) (pc_incomingBySource c) (pc_cooccurrence c) (pc_decayedFrequency c)
    (wrap64 (occurrences (pc_expert c) seen)) (pc_decayedIncomingBySource c).

Lemma windowed_other seen x c : pc_expert c <> x -> windowed (seen ++ [x]) c = windowed seen c.
Proof.
  intros Hne. unfold windowed. rewrite occurrences_app, occurrences_single.
  by rewrite decide_False, Z.add_0_r.
Qed.

Lemma windowed_same seen x c : pc_expert c = x -> windowed (seen ++ [x]) c = in_window x (windowed seen c).
Proof.
  intros <-. unfold windowed, in_window. cbn. rewrite occurrences_app, occurrences_single.
  by rewrite decide_True, wrap64_add_l.
Qed.

Lemma windowed_step x seen base :
  NoDup (pc_expert <$> base) ->
  match list_find (fun c => pc_expert c = x) (windowed seen <$> base) with
  | Some (i, _) => alter (in_window x) i (windowed seen <$> base)
  | None => windowed seen <$> base
  end = windowed (seen ++ [x]) <$> base.
Proof.
  intros Hnd. induction base as [|c base IH]; [done|]. cbn in Hnd. apply NoDup_cons in Hnd as [Hni Hnd]. specialize (IH Hnd).
  cbn [fmap list_fmap list_find]. destruct (decide (pc_expert (windowed seen c) = x)) as [He|Hne].
  - cbn in He. cbn [alter list_alter]. rewrite (windowed_same seen x c He). f_equal. apply list_fmap_ext. intros i c' Hc'.
    symmetry. apply windowed_other. intros Heq. apply Hni. rewrite He, <- Heq.
    apply list_elem_of_fmap_2. by eapply list_elem_of_lookup_2.
  - rewrite (windowed_other seen x c) by done. fold (fmap (windowed seen) base) in *.
    destruct (list_find _ (windowed seen <$> base)) as [[i c']|]; cbn; by rewrite <- IH.
Qed.

Definition layer_count (layer : Z) (l : list ExpertSelection) : Z :=
  Z.of_nat (length (filter (fun x => es_layerId x = layer) l)).

Lemma layer_count_snoc layer l x :
  layer_count layer (l ++ [x]) = layer_count layer l + (if es_layerId x =? layer then 1 else 0).
Proof.
  unfold layer_count. rewrite filter_app, length_app, filter_cons, filter_nil.
  destruct (decide (es_layerId x = layer)) as [He|Hne].
  - rewrite He, Z.eqb_refl. cbn. lia.
  - destruct (Z.eqb_spec (es_layerId x) layer); [done|]. cbn. lia.
Qed.

Lemma count_recent_spec layer base l :
  NoDup (pc_expert <$> base) -> Forall (fun c => es_layerId (pc_expert c) = layer) base ->
  forall seen,
  foldl (count_recent layer) (windowed seen <$> base, wrap64 (layer_count layer seen)) l =
  (windowed (seen ++ l) <$> base, wrap64 (layer_count layer (seen ++ l))).
Proof.
  intros Hnd Hl. induction l as [|x l IH]; intros seen; cbn [foldl]; [by rewrite app_nil_r|].
  rewrite (cons_middle x seen l), (assoc_L (++)), <- IH. f_equal. unfold count_recent.
  rewrite layer_count_snoc. destruct (Z.eqb_spec (es_layerId x) layer) as [He|Hne].
  - f_equal; [by apply windowed_step|]. apply wrap64_add_l.
  - rewrite Z.add_0_r. f_equal.
    apply list_fmap_ext. intros i c Hc. symmetry. apply windowed_other.
    rewrite Forall_forall in Hl. intros <-. apply Hne, Hl. by eapply list_elem_of_lookup_2.
Qed.

(** *** The candidates *)

Definition sorted_experts (l : list ExpertSelection) : Prop := StronglySorted Z.lt (es_expertId <$> l).

Lemma by_id_weak P : strict_weak by_id P.
Proof. unfold by_id. split; intros; rewrite ?Z.ltb_lt, ?Z.ltb_ge in *; lia. Qed.

Lemma layer_entries layer db :
  let entries := filter (fun entry => es_layerId (fst entry) = layer) (walk (frequency_ db)) in
  NoDup entries.*1 /\ (forall e, e ∈ entries.*1 <-> es_layerId e = layer /\ is_Some (frequency_ db !! e)) /\
  entries = (fun e => (e, frequency e db)) <$> entries.*1.
Proof.
  cbv zeta. set (P := fun entry : ExpertSelection * Z => es_layerId (fst entry) = layer).
  assert (forall entry, entry ∈ filter P (walk (frequency_ db)) <->
    es_layerId (fst entry) = layer /\ frequency_ db !! fst entry = Some (snd entry)) as Hin.
  { intros [e n]. rewrite list_elem_of_filter, walk_perm, elem_of_map_to_list. done. }
  split_and!.
  - assert (NoDup (walk (frequency_ db)).*1) as Hnd by (rewrite walk_perm; apply NoDup_fst_map_to_list).
    revert Hnd. generalize (walk (frequency_ db)). intros l. induction l as [|[e n] l IH]; intros Hnd; [done|].
    cbn in Hnd. apply NoDup_cons in Hnd as [Hni Hnd]. rewrite filter_cons. destruct (decide _); [|by apply IH].
    cbn. constructor; [|by apply IH]. intros (x & -> & [_ Hx]%list_elem_of_filter)%list_elem_of_fmap.
    apply Hni. by apply list_elem_of_fmap_2.
  - intros e. rewrite list_elem_of_fmap. split.
    + intros (entry & -> & [? ?]%Hin). eauto.
    + intros [He [n Hn]]. exists (e, n). split; [done|]. by apply Hin.
  - apply list_eq. intros i. rewrite !list_lookup_fmap.
    destruct (filter P _ !! i) as [[e n]|] eqn:Hi; [|done]. cbn. f_equal. f_equal.
    apply list_elem_of_lookup_2, Hin in Hi as [_ Hf]. unfold frequency. cbn in Hf. by rewrite Hf.
Qed.

Lemma experts_of_entries layer db :
  (filter (fun entry => es_layerId (fst entry) = layer) (walk (frequency_ db))).*1 =
  filter (fun e => es_layerId e = layer) (walk (frequency_ db)).*1.
Proof.
  induction (walk (frequency_ db)) as [|[e n] l IH]; [done|]. rewrite fmap_cons, !filter_cons. cbn [fst].
  destruct (decide _); [|done]. cbn. by rewrite IH.
Qed.

Lemma expertsInLayer_exact layer db :
  sorted_experts (expertsInLayer walk layer db) /\
  forall e, e ∈ expertsInLayer walk layer db <-> es_layerId e = layer /\ is_Some (frequency_ db !! e).
Proof.
  unfold expertsInLayer. rewrite <- experts_of_entries. destruct (layer_entries layer db) as (Hnd & Hin & _).
  set (es := (filter _ _).*1) in *. split; [|intros e; by rewrite stable_sort_perm].
  assert (NoDup (stable_sort by_id es)) as Hnd' by by rewrite stable_sort_perm.
  assert (Forall (fun e => es_layerId e = layer) (stable_sort by_id es)) as Hl.
  { apply Forall_forall. intros e He. rewrite stable_sort_perm in He. by apply Hin. }
  pose proof (stable_sort_sorted by_id (fun _ => True) es (by_id_weak _) ltac:(by apply Forall_true)) as Hs.
  unfold sorted_experts. induction Hs as [|x l Hs IH Hx]; cbn; [constructor|].
  apply NoDup_cons in Hnd' as [Hni Hnd']. apply Forall_cons in Hl as [Hxl Hl]. constructor; [by apply IH|].
  apply Forall_fmap, Forall_forall. intros y Hy. cbn. rewrite Forall_forall in Hx, Hl.
  specialize (Hx y Hy). specialize (Hl y Hy). unfold not_after, by_id in Hx. apply Z.ltb_ge in Hx.
  destruct (decide (es_expertId x = es_expertId y)) as [He|]; [|lia].
  destruct x, y; cbn in *. subst. done.
Qed.

(** *** The peers *)

Definition peer_id (c : PredictionCandidateStatistics) : Z := es_expertId (pc_expert c).

Lemma add_peer_other db c peers p id : id <> peer_id p -> add_peer db c peers p !! id = peers !! id.
Proof.
  intros Hne. unfold add_peer. destruct (decide _); [done|].
  destruct (cooccurrence_ db !! _), (peers !! es_expertId (pc_expert p)); try done. by apply lookup_insert_ne.
Qed.

Lemma add_peer_same db c peers p :
  pc_expert p <> pc_expert c -> peers !! peer_id p = None ->
  add_peer db c peers p !! peer_id p = cooccurrence_ db !! orderedPair (pc_expert c) (pc_expert p).
Proof.
  intros Hne Hn. unfold add_peer. rewrite decide_False by congruence. unfold peer_id in *. rewrite Hn.
  destruct (cooccurrence_ db !! _); [apply lookup_insert_eq|done].
Qed.

Lemma peers_spec db c l peers :
  NoDup (peer_id <$> l) -> (forall p, p ∈ l -> peers !! peer_id p = None) ->
  (forall p, p ∈ l -> pc_expert p <> pc_expert c ->
     foldl (add_peer db c) peers l !! peer_id p = cooccurrence_ db !! orderedPair (pc_expert c) (pc_expert p)) /\
  (forall id, (forall p, p ∈ l -> pc_expert p <> pc_expert c -> peer_id p <> id) ->
     foldl (add_peer db c) peers l !! id = peers !! id).
Proof.
  revert peers. induction l as [|q l IH]; intros peers Hnd Hn; [split; [set_solver|done]|].
  cbn in Hnd. apply NoDup_cons in Hnd as [Hni Hnd]. cbn [foldl].
  assert (forall p, p ∈ l -> peer_id p <> peer_id q) as Hq.
  { intros p Hp He. apply Hni. rewrite <- He. by apply list_elem_of_fmap_2. }
  destruct (IH (add_peer db c peers q) Hnd) as [IH1 IH2].
  { intros p Hp. rewrite add_peer_other by by apply Hq. apply Hn. by right. }
  split.
  - intros p [->|Hp]%elem_of_cons Hne; [|by apply IH1].
    rewrite IH2 by (intros p' Hp' _; by apply Hq). apply add_peer_same; [done|]. apply Hn. by left.
  - intros id Hid. rewrite IH2 by (intros p Hp; apply Hid; by right).
    destruct (decide (pc_expert q = pc_expert c)) as [He|Hne].
    + unfold add_peer. by rewrite decide_True.
    + apply add_peer_other. intros ->. by apply (Hid q); [left|..].
Qed.

(** *** The whole *)

(** The statistics of one candidate, read off the counts. *)
Record candidate_exact (db : TransitionDatabase) (sources experts : list ExpertSelection) (e : ExpertSelection)
    (c : PredictionCandidateStatistics) : Prop := CandidateExact {
  ce_expert : pc_expert c = e;
  ce_frequency : pc_frequency c = frequency e db;
  ce_incoming : pc_incomingBySource c = (fun s => transitionCount s e db) <$> sources;
  ce_decayed : pc_decayedIncomingBySource c =
    (fun s => match decayedTransitions_ db !! mkTransition s e with
              | Some counter => decayedValue pow db counter
              | None => f64_zero
              end) <$> sources;
  ce_window : pc_windowFrequency c = wrap64 (occurrences e (concat (recent_ db)));
  ce_peers peer : peer ∈ experts -> peer <> e ->
    pc_cooccurrence c !! es_expertId peer = cooccurrence_ db !! orderedPair e peer;
  ce_only_peers id : is_Some (pc_cooccurrence c !! id) -> exists peer, peer ∈ experts /\ peer <> e /\ es_expertId peer = id;
}.

Definition base_candidate (db : TransitionDatabase) (sources : nat) (e : ExpertSelection) : PredictionCandidateStatistics :=
  new_candidate pow db sources (e, frequency e db).

Definition final_candidates (layer : Z) (sources : list ExpertSelection) (db : TransitionDatabase)
    : list PredictionCandidateStatistics :=
  (fun e => incoming pow db sources (windowed (concat (recent_ db)) (base_candidate db (length sources) e))) <$>
    expertsInLayer walk layer db.

Lemma predictionStatistics_normal layer sources db :
  let experts := expertsInLayer walk layer db in
  predictionStatistics pow walk layer sources db =
  mkStatistics (wrap64 (sum_of (fun e => frequency e db) experts))
    ((fun s => wrap64 (sum_of (fun e => transitionCount s e db) experts)) <$> sources)
    (with_peers db (final_candidates layer sources db) <$> final_candidates layer sources db)
    (ps_decayedLayerFrequency (predictionStatistics pow walk layer sources db))
    (wrap64 (layer_count layer (concat (recent_ db)))).
Proof.
  cbv zeta. unfold predictionStatistics. destruct (layer_entries layer db) as (Hnd & Hin & He).
  pose proof (experts_of_entries layer db) as Hx. set (entries := filter _ (walk (frequency_ db))) in *.
  set (es := entries.*1) in *. rewrite He.
  assert (forall l, (new_candidate pow db (length sources) <$> ((fun e => (e, frequency e db)) <$> l)) =
    windowed [] <$> (base_candidate db (length sources) <$> l)) as Hbase
    by (intros l; rewrite <- !list_fmap_compose; by apply list_fmap_ext).
  rewrite !Hbase. set (base := base_candidate db (length sources) <$> es).
  assert (pc_expert <$> base = es) as Hexp by (unfold base; rewrite <- list_fmap_compose; apply list_fmap_id).
  change (windowed [] <$> base, 0) with (windowed [] <$> base, wrap64 (layer_count layer [])).
  rewrite count_recent_spec.
  2:{ by rewrite Hexp. }
  2:{ apply Forall_forall. intros c Hc. apply Hin. rewrite <- Hexp. by apply list_elem_of_fmap_2. }
  cbn [app ps_decayedLayerFrequency].
  assert (stable_sort by_candidate (windowed (concat (recent_ db)) <$> base) =
    (fun e => windowed (concat (recent_ db)) (base_candidate db (length sources) e)) <$> expertsInLayer walk layer db) as Hsort.
  { unfold base. rewrite <- list_fmap_compose, (stable_sort_fmap _ by_id) by done. unfold expertsInLayer. by rewrite <- Hx. }
  rewrite Hsort. f_equal.
  - change 0 with (wrap64 0). rewrite fold_wrap. f_equal. unfold base. rewrite <- list_fmap_compose.
    assert (forall l, sum_of pc_frequency ((windowed [] ∘ base_candidate db (length sources)) <$> l) =
      sum_of (fun e => frequency e db) l) as -> by (intros l; induction l as [|x l IH]; [done|]; unfold sum_of in *; cbn in *; by rewrite IH).
    rewrite Z.add_0_l. apply sum_of_perm. unfold expertsInLayer. by rewrite stable_sort_perm, <- Hx.
  - apply list_fmap_ext. intros i s _. unfold outgoing. change 0 with (wrap64 0). rewrite fold_wrap, Z.add_0_l. f_equal.
    generalize (expertsInLayer walk layer db). intros l. induction l as [|x l IH]; [done|]. unfold sum_of in *. cbn. by rewrite IH.
  - unfold final_candidates. by rewrite <- (list_fmap_compose _ (incoming pow db sources)).
Qed.

Lemma sorted_experts_nodup l : sorted_experts l -> NoDup (es_expertId <$> l).
Proof.
  unfold sorted_experts. induction l as [|x l IH]; [constructor|]. intros [Hs Hx]%StronglySorted_inv.
  specialize (IH Hs). cbn. constructor; [|done].
  rewrite Forall_forall in Hx. intros Hin. specialize (Hx _ Hin). lia.
Qed.

Lemma final_candidate_exact layer sources db i e :
  expertsInLayer walk layer db !! i = Some e ->
  exists c, (with_peers db (final_candidates layer sources db) <$> final_candidates layer sources db) !! i = Some c /\
    candidate_exact db sources (expertsInLayer walk layer db) e c.
Proof.
  intros Hi. set (experts := expertsInLayer walk layer db) in *.
  set (final := fun e => incoming pow db sources (windowed (concat (recent_ db)) (base_candidate db (length sources) e))).
  change (final_candidates layer sources db) with (final <$> experts).
  rewrite !list_lookup_fmap, Hi. eexists. split; [done|].
  assert (forall e, peer_id (final e) = es_expertId e) as Hid by done.
  assert (NoDup (peer_id <$> (final <$> experts))) as Hnd.
  { rewrite <- list_fmap_compose. apply sorted_experts_nodup, expertsInLayer_exact. }
  destruct (peers_spec db (final e) (final <$> experts) ∅ Hnd ltac:(intros; apply lookup_empty)) as [H1 H2].
  constructor; try done.
  - intros peer Hp Hne. apply (H1 (final peer)); [by apply list_elem_of_fmap_2|done].
  - intros id Hsome. cbn in Hsome.
    destruct (decide (Exists (fun peer => peer <> e /\ es_expertId peer = id) experts)) as [Hex|Hno].
    { apply Exists_exists in Hex as (peer & ? & ? & ?). eauto. }
    exfalso. pose proof (H2 id) as Hn. rewrite lookup_empty in Hn. destruct Hsome as [n Hs].
    rewrite Hs in Hn. assert (Some n = None) as Habs; [|done]. apply Hn.
    intros p (peer & -> & Hp)%list_elem_of_fmap Hne He. apply Hno, Exists_exists. exists peer. split; [done|]. split; [|done].
    intros ->. by apply Hne.
Qed.
End statistics.

Lemma expertsInLayer_walk (walk walk' : gmap ExpertSelection Z -> list (ExpertSelection * Z)) layer db :
  (forall m, walk m ≡ₚ map_to_list m) -> (forall m, walk' m ≡ₚ map_to_list m) -> expertsInLayer walk' layer db = expertsInLayer walk layer db.
Proof.
  intros walk_perm Hw. unfold expertsInLayer. apply (stable_sort_canonical by_id (fun _ => True)).
  - apply by_id_weak.
  - by apply Forall_true.
  - intros [l e] [l' e'] [Hl _]%list_elem_of_filter [Hl' _]%list_elem_of_filter H1%Z.ltb_ge H2%Z.ltb_ge. cbn in *.
    assert (e = e') by lia. congruence.
  - by rewrite Hw, walk_perm.
Qed.

(** The statistics a prediction is made from.  The candidates are the experts the
    layer was seen to select, in increasing order; each carries exactly its counts:
    selections, transitions from each source, occurrences in the window, and for every
    other candidate the count of their pair, where there is one.  The totals are the
    sums over the candidates; and all but the decayed total, a sum of floating-point
    numbers, do not depend on the order in which the hash table is walked. *)
Theorem prediction_statistics pow walk window evs layer sources db
    (Hwalk : forall m, walk m ≡ₚ map_to_list m) (Hdb : summarises window db evs) :
  let st := predictionStatistics pow walk layer sources db in
  let experts := expertsInLayer walk layer db in
  sorted_experts experts /\
  (forall e, e ∈ experts <-> es_layerId e = layer /\ e ∈ concat (observed evs)) /\
  Forall2 (candidate_exact pow db sources experts) experts (ps_candidates st) /\
  ps_layerFrequency st = wrap64 (sum_of (fun e => frequency e db) experts) /\
  ps_outgoingBySource st = (fun s => wrap64 (sum_of (fun e => transitionCount s e db) experts)) <$> sources /\
  ps_windowLayerFrequency st = wrap64 (layer_count layer (concat (recent_ db))) /\
  forall walk', (forall m, walk' m ≡ₚ map_to_list m) ->
    let st' := predictionStatistics pow walk' layer sources db in
    ps_candidates st' = ps_candidates st /\ ps_layerFrequency st' = ps_layerFrequency st /\
    ps_outgoingBySource st' = ps_outgoingBySource st /\ ps_windowLayerFrequency st' = ps_windowLayerFrequency st.
Proof.
  cbv zeta. destruct (expertsInLayer_exact walk Hwalk layer db) as [Hsorted Hin].
  pose proof (predictionStatistics_normal pow walk Hwalk layer sources db) as Hn. cbv zeta in Hn. rewrite Hn.
  cbn [ps_candidates ps_layerFrequency ps_outgoingBySource ps_windowLayerFrequency].
  split_and!; try done.
  - intros e. rewrite Hin. by rewrite (proj2 (su_frequency _ _ _ Hdb e)).
  - apply Forall2_same_length_lookup_2; [unfold final_candidates; by rewrite !length_fmap|]. intros i e c He Hc.
    destruct (final_candidate_exact pow walk Hwalk layer sources db i e He) as (c' & Hc' & Hex). simplify_eq. done.
  - intros walk' Hwalk'. rewrite (predictionStatistics_normal pow walk' Hwalk' layer sources db). cbn.
    unfold final_candidates. by rewrite (expertsInLayer_walk walk walk' layer db Hwalk Hwalk').
Qed.

(** Witness: three decisions of one stream, a window of two. *)
Definition sample_pow (base age : f64) : f64 := f64_one.
Definition sample_decision (layer : Z) (experts : list Z) : RouterDecision :=
  mkDecision layer experts (f32_of_Z <$> experts).
Definition sample_trace : list event :=
  [Recorded (sample_decision 0 [1; 2]) 7; Recorded (sample_decision 1 [3; 4]) 7;
   Recorded (sample_decision 5 []) 7; Recorded (sample_decision 0 [2; 1]) 7].
Definition sample_database : TransitionDatabase := mkDatabase 2 f64_one 0 ∅ ∅ ∅ ∅ ∅ ∅ [].

Lemma sample_database_new : is_u64 2 /\ newDatabase 2 f64_one = Ok sample_database.
Proof. unfold is_u64, u64_max. split; [lia|reflexivity]. Qed.

Lemma sample_counts :
  transitionCount (mkSelection 0 1) (mkSelection 1 4) (run sample_pow sample_database sample_trace) = 1 /\
  cooccurrenceCount (mkSelection 0 2) (mkSelection 0 1) (run sample_pow sample_database sample_trace) = 2.
Proof. vm_compute. split; reflexivity. Qed.

Lemma database_counts_witness :
  newDatabase 2 f64_one = Ok sample_database /\
  cooccurrenceCount (mkSelection 0 2) (mkSelection 0 1) (run sample_pow sample_database sample_trace) = 2 /\
  recent_ (run sample_pow sample_database sample_trace) =
    [[mkSelection 1 3; mkSelection 1 4]; [mkSelection 0 2; mkSelection 0 1]].
Proof.
  destruct (database_counts sample_pow 2 f64_one sample_database sample_trace (proj1 sample_database_new)
    (proj2 sample_database_new)) as (_ & _ & Hc & _ & _ & Hr & _).
  split; [exact (proj2 sample_database_new)|]. split; [exact (proj2 sample_counts)|]. exact Hr.
Defined.

Lemma sample_summary : summarises 2 (run sample_pow sample_database sample_trace) sample_trace.
Proof.
  destruct (newDatabase_summarises 2 f64_one sample_database (proj1 sample_database_new) (proj2 sample_database_new)) as [Hw H].
  exact (summarises_run sample_pow 2 sample_database [] sample_trace Hw H).
Qed.

Lemma prediction_statistics_witness :
  summarises 2 (run sample_pow sample_database sample_trace) sample_trace /\
  let st := predictionStatistics sample_pow map_to_list 0 [mkSelection 1 3] (run sample_pow sample_database sample_trace) in
  ps_windowLayerFrequency st = 2 /\ ps_layerFrequency st = 4.
Proof.
  split; [exact sample_summary|]. cbv zeta.
  destruct (prediction_statistics sample_pow map_to_list 2 sample_trace 0 [mkSelection 1 3]
    (run sample_pow sample_database sample_trace) ltac:(done) sample_summary) as (_ & _ & _ & -> & _ & -> & _).
  vm_compute. split; reflexivity.
Defined.
