(* ===== verification/Predictor.v ===== *)
(** * Predicting and prefetching experts

    [src/prediction/ExpertPredictor.cpp]: candidates of the next layer are scored from
    the statistics of the transition database, the best are prefetched through the
    scheduler, and the quality of earlier predictions is accounted when their layer is
    routed.  [std::pow], [std::log1p], [std::log] and the order in which hash tables
    are walked are parameters. *)

From S2P Require Import Prelude Float Tiers Router Prediction.
From S2P Require Import ExpertState Scheduler SchedulerInvariant SchedulerProperties.

Record ExpertPrediction : Type := mkExpertPrediction {
  ep_expertId : Z;
  ep_probability : f64;
  ep_confidence : f64;
  ep_expectedLayer : Z;
}.

Record AdaptivePredictionConfig : Type := mkAdaptive {
  maximumPredictions : Z;
  minimumConfidence : f64;
  minimumPrefetchConfidence : f64;
}.

Record PredictionQuality : Type := mkQuality {
  opportunities : Z;
  predictions : Z;
  top1Correct : Z;
  topKCovered : Z;
  usefulPredictions : Z;
  wastedPredictions : Z;
  suppressedPrefetches : Z;
}.

Definition quotient_of (numerator denominator : Z) : f64 :=
  if denominator =? 0 then f64_zero else f64_div (f64_of_Z numerator) (f64_of_Z denominator).
Definition top1Accuracy (q : PredictionQuality) : f64 := quotient_of (top1Correct q) (opportunities q).
Definition topKCoverage (q : PredictionQuality) : f64 := quotient_of (topKCovered q) (opportunities q).
Definition prefetchUsefulness (q : PredictionQuality) : f64 := quotient_of (usefulPredictions q) (predictions q).

(** The predictor; [pd_skipped] is the counter of the profiler, if one is attached. *)
Record ExpertPredictor : Type := mkPredictor {
  pd_config : AdaptivePredictionConfig;
  pd_quality : PredictionQuality;
  pd_pending : gmap Z (list ExpertPrediction);
  pd_skipped : option Z;
}.

Definition newPredictor (database : bool) (c : AdaptivePredictionConfig) (profiler : option Z) : result ExpertPredictor :=
  (throw_if (negb database || (maximumPredictions c =? 0) ||
             negb (isfinite (minimumConfidence c)) || negb (isfinite (minimumPrefetchConfidence c)) ||
             flt (minimumConfidence c) f64_zero || fgt (minimumConfidence c) f64_one ||
             flt (minimumPrefetchConfidence c) f64_zero || fgt (minimumPrefetchConfidence c) f64_one)
     (Exn InvalidArgument "invalid expert predictor configuration") ;;?
   Ok (mkPredictor c (mkQuality 0 0 0 0 0 0 0) ∅ profiler))%res.

Section predictor.
Variables (pow : f64 -> f64 -> f64) (log1p log : f64 -> f64).
Variable walk : gmap ExpertSelection Z -> list (ExpertSelection * Z).
Variable walk_peers : gmap Z Z -> list (Z * Z).

Definition ratio (numerator denominator : f64) : f64 :=
  if fle denominator f64_zero then f64_zero else f64_div numerator denominator.

Definition contains (experts : list Z) (candidate : Z) : bool := bool_decide (candidate ∈ experts).

(** The sum over the peers of their decayed transitions from a source. *)
Definition outgoing_from (candidates : list PredictionCandidateStatistics) (source : nat) : f64 :=
  foldl (fun total peer => f64_add total (nth source (pc_decayedIncomingBySource peer) f64_zero)) f64_zero candidates.

(** The transition probability and the sources that support the candidate. *)
Definition transition_step (candidates : list PredictionCandidateStatistics) (c : PredictionCandidateStatistics)
    (acc : f64 * Z) (source : nat) : f64 * Z :=
  let out := outgoing_from candidates source in
  let incoming := nth source (pc_decayedIncomingBySource c) f64_zero in
  if fgt out f64_zero
  then (f64_add (fst acc) (f64_div incoming out), if fgt incoming f64_zero then snd acc + 1 else snd acc)
  else acc.

Record CandidateScore : Type := mkScore { cs_expertId : Z; cs_raw : f64; cs_confidence : f64 }.

Definition cooccurrence_ratio (c : PredictionCandidateStatistics) : f64 :=
  foldl (fun best peer => fmax best (ratio (f64_of_Z (snd peer)) (f64_of_Z (pc_frequency c)))) f64_zero
    (walk_peers (pc_cooccurrence c)).

Definition score_candidate (statistics : PredictionStatistics) (recentExperts : list Z) (sources : nat)
    (c : PredictionCandidateStatistics) : CandidateScore :=
  let '(transition, supported) :=
    foldl (transition_step (ps_candidates statistics) c) (f64_zero, 0) (seq 0 sources) in
  let transition := f64_div transition (f64_of_Z (Z.of_nat sources)) in
  let popularity := ratio (pc_decayedFrequency c) (ps_decayedLayerFrequency statistics) in
  let windowPopularity := ratio (f64_of_Z (pc_windowFrequency c)) (f64_of_Z (ps_windowLayerFrequency statistics)) in
  let locality := if contains recentExperts (es_expertId (pc_expert c)) then f64_one else f64_zero in
  let raw := fmax f64_zero
    (f64_add (f64_add (f64_add (f64_add (f64_mul (f64_lit 50 100) transition)
                                        (f64_mul (f64_lit 20 100) windowPopularity))
                               (f64_mul (f64_lit 15 100) popularity))
                      (f64_mul (f64_lit 5 100) locality))
             (f64_mul (f64_lit 10 100) (cooccurrence_ratio c))) in
  let evidence := fmin f64_one (f64_div (log1p (f64_of_Z (pc_frequency c))) (log (f64_of_Z 9))) in
  let agreement := f64_div (f64_of_Z supported) (f64_of_Z (Z.of_nat sources)) in
  let confidence := fclamp (f64_add (f64_mul (f64_lit 65 100) evidence) (f64_mul (f64_lit 35 100) agreement))
                      f64_zero f64_one in
  mkScore (es_expertId (pc_expert c)) raw confidence.

Definition total_raw (scores : list CandidateScore) : f64 :=
  foldl (fun total s => f64_add total (cs_raw s)) f64_zero scores.

(** A score as a prediction. *)
Definition prediction_of (layer : Z) (scores : list CandidateScore) (s : CandidateScore) : ExpertPrediction :=
  let total := total_raw scores in
  mkExpertPrediction (cs_expertId s)
    (if fgt total f64_zero then f64_div (cs_raw s) total
     else f64_div f64_one (f64_of_Z (Z.of_nat (length scores))))
    (cs_confidence s) layer.

(** The comparison of the final sort. *)
Definition better (left right : ExpertPrediction) : bool :=
  if fne (ep_probability left) (ep_probability right) then fgt (ep_probability left) (ep_probability right)
  else if fne (ep_confidence left) (ep_confidence right) then fgt (ep_confidence left) (ep_confidence right)
  else ep_expertId left <? ep_expertId right.

(** The sources of a prediction: the recent experts, or else what stream 0 saw last. *)
Definition sources_of (db : TransitionDatabase) (currentLayer : Z) (recentExperts : list Z) : list ExpertSelection :=
  match mkSelection currentLayer <$> recentExperts with
  | [] => previousSelections 0 db
  | sources => sources
  end.

Definition scores_of (db : TransitionDatabase) (currentLayer : Z) (recentExperts : list Z) : list CandidateScore :=
  let sources := sources_of db currentLayer recentExperts in
  let statistics := predictionStatistics pow walk (wrap32 (currentLayer + 1)) sources db in
  score_candidate statistics recentExperts (length sources) <$> ps_candidates statistics.

(** Those with enough confidence, before the sort. *)
Definition confident (c : AdaptivePredictionConfig) (layer : Z) (scores : list CandidateScore) : list ExpertPrediction :=
  prediction_of layer scores <$> filter (fun s => fge (cs_confidence s) (minimumConfidence c) = true) scores.

Definition predictDetailed (c : AdaptivePredictionConfig) (db : TransitionDatabase) (currentLayer : Z)
    (recentExperts : list Z) : list ExpertPrediction :=
  if currentLayer =? u32_max then []
  else if bool_decide (sources_of db currentLayer recentExperts = []) then []
  else let scores := scores_of db currentLayer recentExperts in
       take (Z.to_nat (maximumPredictions c))
         (stable_sort better (confident c (wrap32 (currentLayer + 1)) scores)).

Definition to_request (p : ExpertPrediction) : PredictedExpertRequest :=
  mkPrediction (ep_expectedLayer p) (ep_expertId p) (ep_confidence p) (ep_probability p).
Definition predict (c : AdaptivePredictionConfig) (db : TransitionDatabase) (currentLayer : Z) (recentExperts : list Z)
    : list PredictedExpertRequest := to_request <$> predictDetailed c db currentLayer recentExperts.

Definition shouldPrefetch (c : AdaptivePredictionConfig) (p : ExpertPrediction) : bool :=
  fge (ep_confidence p) (minimumPrefetchConfidence c) && fgt (ep_probability p) f64_zero.

(** ** Observing a decision and prefetching *)

(** The predictor and the objects the call touches; [pf_observed] are the calls of the
    observer. *)
Record Prefetching : Type := mkPrefetching {
  pf_predictor : ExpertPredictor;
  pf_database : TransitionDatabase;
  pf_history : ExpertHistory;
  pf_scheduler : Scheduler;
  pf_observed : list ExpertPrediction;
}.

Definition set_predictor (f : ExpertPredictor -> ExpertPredictor) (s : Prefetching) : Prefetching :=
  mkPrefetching (f (pf_predictor s)) (pf_database s) (pf_history s) (pf_scheduler s) (pf_observed s).
Definition set_database (db : TransitionDatabase) (s : Prefetching) : Prefetching :=
  mkPrefetching (pf_predictor s) db (pf_history s) (pf_scheduler s) (pf_observed s).
Definition set_history (h : ExpertHistory) (s : Prefetching) : Prefetching :=
  mkPrefetching (pf_predictor s) (pf_database s) h (pf_scheduler s) (pf_observed s).
Definition set_scheduler (sc : Scheduler) (s : Prefetching) : Prefetching :=
  mkPrefetching (pf_predictor s) (pf_database s) (pf_history s) sc (pf_observed s).
Definition add_observed (p : ExpertPrediction) (s : Prefetching) : Prefetching :=
  mkPrefetching (pf_predictor s) (pf_database s) (pf_history s) (pf_scheduler s) (pf_observed s ++ [p]).

(** One earlier prediction, judged by the experts the layer selected. *)
Definition judge (selected : list Z) (acc : PredictionQuality * bool) (p : ExpertPrediction) : PredictionQuality * bool :=
  let '(q, covered) := acc in
  if contains selected (ep_expertId p)
  then (mkQuality (opportunities q) (predictions q) (top1Correct q) (topKCovered q)
          (wrap64 (usefulPredictions q + 1)) (wastedPredictions q) (suppressedPrefetches q), true)
  else (mkQuality (opportunities q) (predictions q) (top1Correct q) (topKCovered q)
          (usefulPredictions q) (wrap64 (wastedPredictions q + 1)) (suppressedPrefetches q), covered).

Definition add_opportunity (top1 : bool) (q : PredictionQuality) : PredictionQuality :=
  mkQuality (wrap64 (opportunities q + 1)) (predictions q)
    (if top1 then wrap64 (top1Correct q + 1) else top1Correct q) (topKCovered q)
    (usefulPredictions q) (wastedPredictions q) (suppressedPrefetches q).
Definition add_covered (covered : bool) (q : PredictionQuality) : PredictionQuality :=
  mkQuality (opportunities q) (predictions q) (top1Correct q)
    (if covered then wrap64 (topKCovered q + 1) else topKCovered q)
    (usefulPredictions q) (wastedPredictions q) (suppressedPrefetches q).
Definition add_predictions (n : Z) (q : PredictionQuality) : PredictionQuality :=
  mkQuality (opportunities q) (wrap64 (predictions q + n)) (top1Correct q) (topKCovered q)
    (usefulPredictions q) (wastedPredictions q) (suppressedPrefetches q).
Definition add_suppressed (q : PredictionQuality) : PredictionQuality :=
  mkQuality (opportunities q) (predictions q) (top1Correct q) (topKCovered q)
    (usefulPredictions q) (wastedPredictions q) (wrap64 (suppressedPrefetches q + 1)).

(** The accounting of the pending predictions of the stream. *)
Definition account (d : RouterDecision) (streamId : Z) (p : ExpertPredictor) : ExpertPredictor :=
  match pd_pending p !! streamId with
  | Some ((front :: _) as predicted) =>
      if ep_expectedLayer front =? rd_layerId d then
        let q := add_opportunity (contains (selectedExpertIds d) (ep_expertId front)) (pd_quality p) in
        let '(q, covered) := foldl (judge (selectedExpertIds d)) (q, false) predicted in
        mkPredictor (pd_config p) (add_covered covered q) (delete streamId (pd_pending p)) (pd_skipped p)
      else p
  | _ => p
  end.

Definition add_pending (streamId : Z) (l : list ExpertPrediction) (p : ExpertPredictor) : ExpertPredictor :=
  mkPredictor (pd_config p) (add_predictions (Z.of_nat (length l)) (pd_quality p))
    (<[streamId := l]> (pd_pending p)) (pd_skipped p).
Definition suppress (p : ExpertPredictor) : ExpertPredictor :=
  mkPredictor (pd_config p) (add_suppressed (pd_quality p)) (pd_pending p)
    ((fun n => wrap64 (n + 1)) <$> pd_skipped p).

(** The loop over the predictions; an expert the runtime does not know is skipped. *)
Fixpoint prefetch_loop (observer : bool) (l : list ExpertPrediction) (handles : list ScheduleHandle)
    : ST Prefetching (list ScheduleHandle) :=
  match l with
  | [] => ret handles
  | p :: l =>
      ((if observer then modify (add_observed p) else ret tt) ;;;
       s <- st_get ;;
       if negb (shouldPrefetch (pd_config (pf_predictor s)) p)
       then modify (set_predictor suppress) ;;; prefetch_loop observer l handles
       else
         handle <- try_catch is_out_of_range
                     (h <- zoom pf_scheduler set_scheduler (prefetch (to_request p) None) ;; ret (Some h))
                     (fun _ => ret None) ;;
         prefetch_loop observer l (handles ++ option_list handle))%st
  end.

Definition observeAndPrefetch (d : RouterDecision) (streamId : Z) (observer : bool)
    : ST Prefetching (list ScheduleHandle) :=
  (lift (throw_if (negb (decision_valid d)) (Exn InvalidArgument "cannot observe invalid decision")) ;;;
   modify (set_predictor (account d streamId)) ;;;
   zoom pf_history set_history (history_record d) ;;;
   zoom pf_database set_database (record pow d streamId) ;;;
   s <- st_get ;;
   let predicted := predictDetailed (pd_config (pf_predictor s)) (pf_database s) (rd_layerId d) (selectedExpertIds d) in
   modify (set_predictor (add_pending streamId predicted)) ;;;
   prefetch_loop observer predicted [])%st.
End predictor.

(** ** The order of the predictions *)

(** Orders by several keys, the first that differs decides. *)
Fixpoint zlex (x y : list Z) : Prop :=
  match x, y with
  | a :: x, b :: y => a < b \/ (a = b /\ zlex x y)
  | _, _ => False
  end.

Lemma zlex_asym x y : zlex x y -> ~ zlex y x.
Proof.
  revert y. induction x as [|a x IH]; intros [|b y]; cbn; try tauto. intros [?|[-> H]] [?|[? H']]; try lia. by apply (IH y).
Qed.

Lemma zlex_negative x y z : length x = length y -> length y = length z -> ~ zlex y x -> ~ zlex z y -> ~ zlex z x.
Proof.
  revert y z. induction x as [|a x IH]; intros [|b y] [|c z] Hxy Hyz; cbn in *; try done.
  intros H1 H2 [Hlt|[-> H]].
  - destruct (decide (b < a)); [tauto|]. destruct (decide (c < b)); [tauto|]. lia.
  - destruct (decide (b < a)); [tauto|]. destruct (decide (a < b)); [tauto|]. assert (b = a) as -> by lia.
    revert H. apply (IH y); [lia|lia|tauto|tauto].
Qed.

Lemma strict_weak_by_key {A} (before : A -> A -> bool) (key : A -> list Z) (P : A -> Prop) n :
  (forall x, length (key x) = n) -> (forall x y, P x -> P y -> before x y = true <-> zlex (key x) (key y)) ->
  strict_weak before P.
Proof.
  intros Hn Hk. split.
  - intros x y Hx Hy. rewrite <- not_true_iff_false, !Hk by done. apply zlex_asym.
  - intros x y z Hx Hy Hz. rewrite <- !not_true_iff_false, !Hk by done. apply zlex_negative; by rewrite !Hn.
Qed.

(** A float's key, larger first. *)
Definition descending (x : f64) : list Z := let '(a, b, c) := fkey x in [- a; - b; - c].

Definition number (p : ExpertPrediction) : Prop :=
  is_nan (ep_probability p) = false /\ is_nan (ep_confidence p) = false.

Definition prediction_key (p : ExpertPrediction) : list Z :=
  descending (ep_probability p) ++ descending (ep_confidence p) ++ [ep_expertId p].

Lemma zlex_descending x y l l' :
  is_nan x = false -> is_nan y = false ->
  zlex (descending x ++ l) (descending y ++ l') <-> fgt x y = true \/ (feq x y = true /\ zlex l l').
Proof.
  intros Hx Hy. unfold fgt. rewrite flt_fkey, feq_fkey by done. unfold descending, lex3.
  destruct (fkey x) as [[a b] c], (fkey y) as [[a' b'] c']. cbn.
  split.
  - intros [?|[? [?|[? [?|[? H]]]]]]; [left; lia..|]. right. split; [|done]. f_equal; [f_equal|]; lia.
  - intros [?|[[= -> -> ->] H]]; [lia|]. right. split; [done|]. right. split; [done|]. right. done.
Qed.

Lemma better_weak : strict_weak better number.
Proof.
  apply (strict_weak_by_key _ prediction_key _ 7).
  - intros p. unfold prediction_key, descending. by destruct (fkey (ep_probability p)) as [[? ?] ?], (fkey (ep_confidence p)) as [[? ?] ?].
  - intros x y [Hx Hx'] [Hy Hy']. unfold prediction_key. rewrite !zlex_descending by done. unfold better, fne.
    destruct (feq (ep_probability x) (ep_probability y)) eqn:H1; cbn [negb].
    + assert (fgt (ep_probability x) (ep_probability y) <> true) as Hn.
      { unfold fgt. rewrite flt_fkey by done. apply feq_fkey in H1; [|done..]. rewrite H1. unfold lex3.
        destruct (fkey (ep_probability y)) as [[a b] c]. lia. }
      destruct (feq (ep_confidence x) (ep_confidence y)) eqn:H2; cbn [negb].
      * assert (fgt (ep_confidence x) (ep_confidence y) <> true) as Hn'.
        { unfold fgt. rewrite flt_fkey by done. apply feq_fkey in H2; [|done..]. rewrite H2. unfold lex3.
          destruct (fkey (ep_confidence y)) as [[a b] c]. lia. }
        cbn. rewrite Z.ltb_lt. intuition lia.
      * intuition congruence.
    + intuition congruence.
Qed.

(** ** The predictions *)

Section predictions.
Variables (pow : f64 -> f64 -> f64) (log1p log : f64 -> f64).
Variable walk : gmap ExpertSelection Z -> list (ExpertSelection * Z).
Variable walk_peers : gmap Z Z -> list (Z * Z).
Hypothesis walk_perm : forall m, walk m ≡ₚ map_to_list m.

Notation scores_of := (scores_of pow log1p log walk walk_peers).
Notation predictDetailed := (predictDetailed pow log1p log walk walk_peers).

Lemma fmax_zero x : signed false (fmax f64_zero x).
Proof. unfold fmax. by destruct x as [[]|[]| |[] m e]. Qed.

Lemma total_raw_finite scores :
  isfinite (total_raw scores) = true -> Forall (fun s => isfinite (cs_raw s) = true) scores.
Proof.
  unfold total_raw. generalize f64_zero. induction scores as [|s scores IH]; intros acc Hf; [constructor|]. cbn in Hf.
  assert (forall l a, isfinite (foldl (fun total s => f64_add total (cs_raw s)) a l) = true -> isfinite a = true) as Hacc.
  { intros l. induction l as [|x l IHl]; intros a Ha; [done|]. cbn in Ha. apply IHl in Ha. by apply f64_add_finite in Ha as [? _]. }
  constructor; [|by eapply IH]. apply Hacc in Hf. by apply f64_add_finite in Hf as [_ ?].
Qed.

Lemma prediction_number layer scores s :
  isfinite (total_raw scores) = true -> s ∈ scores -> is_nan (cs_confidence s) = false ->
  number (prediction_of layer scores s).
Proof.
  intros Hf Hs Hc. split; [|exact Hc]. cbn [ep_probability prediction_of]. destruct (fgt (total_raw scores) f64_zero) eqn:Hg.
  - apply f64_div_number; [|done|].
    + pose proof (total_raw_finite scores Hf) as Hall. rewrite Forall_forall in Hall. by apply Hall.
    + unfold fgt in Hg. apply not_true_iff_false. intros He. apply feq_fkey in He; [|by apply isfinite_not_nan|done].
      apply flt_fkey in Hg; [|done|by apply isfinite_not_nan]. rewrite He in Hg. unfold lex3 in Hg. cbn in Hg. lia.
  - pose proof (f64_of_Z_signed (Z.of_nat (length scores)) ltac:(lia)) as Hn.
    destruct (f64_of_Z _) as [[]|[]| |[] m e]; try done. by apply f64_div_number.
Qed.

(** The candidates are distinct experts of the next layer. *)
Lemma score_ids db layer recent :
  cs_expertId <$> scores_of db layer recent = es_expertId <$> expertsInLayer walk (wrap32 (layer + 1)) db.
Proof.
  unfold Predictor.scores_of. cbv zeta. set (sources := sources_of db layer recent).
  pose proof (predictionStatistics_normal pow walk walk_perm (wrap32 (layer + 1)) sources db) as Hn. cbv zeta in Hn.
  rewrite Hn. cbn [ps_candidates]. set (final := final_candidates _ _ _ _ _). rewrite <- !list_fmap_compose.
  assert (forall st, (cs_expertId ∘ (score_candidate log1p log walk_peers st recent (length sources) ∘ with_peers db final)) <$> final =
    (es_expertId ∘ pc_expert) <$> final) as Hid.
  { intros st. apply list_fmap_ext. intros i c _. cbn. unfold score_candidate. by destruct (foldl _ _ _). }
  etransitivity; [apply Hid|]. unfold final, final_candidates. rewrite <- list_fmap_compose. by apply list_fmap_ext.
Qed.

(** What a prediction is: the best of the confident candidates of the next layer. *)
Record best_predictions (c : AdaptivePredictionConfig) (db : TransitionDatabase) (layer : Z) (recent : list Z)
    (l : list ExpertPrediction) : Prop := BestPredictions {
  bp_length : Z.of_nat (length l) <= maximumPredictions c;
  bp_layer p : p ∈ l -> ep_expectedLayer p = layer + 1 /\
    fge (ep_confidence p) (minimumConfidence c) = true /\
    mkSelection (layer + 1) (ep_expertId p) ∈ expertsInLayer walk (layer + 1) db;
  bp_nodup : NoDup (ep_expertId <$> l);
  bp_sorted : StronglySorted (fun left right => better right left = false) l;
  bp_best p p' : p ∈ l -> p' ∈ confident c (layer + 1) (scores_of db layer recent) -> p' ∉ l ->
    better p' p = false /\ Z.of_nat (length l) = maximumPredictions c;
}.

Lemma sublist_filter_fmap {A B} (f : A -> B) (P : A -> Prop) `{!forall x, Decision (P x)} l :
  NoDup (f <$> l) -> NoDup (f <$> filter P l).
Proof. intros Hl. eapply sublist_NoDup; [exact Hl|]. by apply fmap_sublist, sublist_filter. Qed.

(** C31: A prediction is the best that the statistics support, when the total of the
    candidates' scores is finite and so is the configured minimum confidence.  Unless the layer is the
    last a 32-bit number can name or nothing is known of the past, the predictions are
    distinct experts the database has seen in the next layer, each confident enough, at
    most as many as configured, from the most to the least probable; a confident expert
    is left out only for a full list of experts none of which it is better than. *)
Theorem predictDetailed_best c db layer recent :
  is_u32 layer -> 0 <= maximumPredictions c -> isfinite (minimumConfidence c) = true ->
  isfinite (total_raw (scores_of db layer recent)) = true ->
  let l := predictDetailed c db layer recent in
  (l = [] /\ (layer = u32_max \/ sources_of db layer recent = [])) \/ (layer < u32_max /\ best_predictions c db layer recent l).
Proof.
  intros Hl Hm Hc Hf. cbv zeta. unfold Predictor.predictDetailed. unfold is_u32 in Hl.
  destruct (Z.eqb_spec layer u32_max); [by left; auto|].
  case_bool_decide; [by left; auto|]. right. split; [lia|]. cbv zeta.
  assert (wrap32 (layer + 1) = layer + 1) as Hw by (apply wrap32_small; unfold is_u32; lia).
  pose proof (score_ids db layer recent) as Hids. rewrite Hw in *. set (scores := scores_of db layer recent) in *.
  set (cands := confident c (layer + 1) scores). set (sorted := stable_sort better cands).
  assert (sorted ≡ₚ cands) as Hp by apply stable_sort_perm.
  destruct (expertsInLayer_exact walk walk_perm (layer + 1) db) as [Hse Hin].
  assert (forall p, p ∈ cands -> exists s, s ∈ scores /\ p = prediction_of (layer + 1) scores s /\
    fge (cs_confidence s) (minimumConfidence c) = true) as Hcands.
  { intros p (s & -> & [? ?]%list_elem_of_filter)%list_elem_of_fmap. eauto. }
  assert (NoDup (ep_expertId <$> cands)) as Hnd.
  { unfold cands, confident. rewrite <- list_fmap_compose.
    change (ep_expertId ∘ prediction_of (layer + 1) scores) with cs_expertId.
    apply sublist_filter_fmap. rewrite Hids. by apply sorted_experts_nodup. }
  assert (Forall number cands) as Hnum.
  { apply Forall_forall. intros p (s & Hs & -> & Hge)%Hcands. apply prediction_number; [done..|].
    unfold fge in Hge. destruct (cs_confidence s); try done. by destruct (minimumConfidence c). }
  assert (StronglySorted (not_after better) sorted) as Hsorted by (by apply (stable_sort_sorted better number); [apply better_weak|]).
  pose proof (take_drop (Z.to_nat (maximumPredictions c)) sorted) as Htd. constructor.
  - rewrite length_take. lia.
  - intros p Hpi. assert (p ∈ cands) as (s & Hs & -> & Hge)%Hcands.
    { rewrite <- Hp, <- Htd. apply elem_of_app. by left. }
    split; [done|]. split; [done|]. cbn. apply (list_elem_of_fmap_2 cs_expertId) in Hs. rewrite Hids in Hs.
    apply list_elem_of_fmap in Hs as ([ly e] & -> & He). cbn. pose proof (proj1 (proj1 (Hin _) He)) as Hly. cbn in Hly.
    by subst ly.
  - eapply sublist_NoDup; [|apply fmap_sublist, (sublist_take sorted)]. by rewrite Hp.
  - rewrite <- Htd in Hsorted. by apply StronglySorted_app in Hsorted as (_ & Hs & _).
  - intros p p' Hpi Hp' Hni. assert (p' ∈ drop (Z.to_nat (maximumPredictions c)) sorted) as Hd.
    { assert (p' ∈ sorted) as Hs by (by rewrite Hp). rewrite <- Htd, elem_of_app in Hs. by destruct Hs. }
    split; [by eapply (sorted_prefix better)|]. rewrite length_take.
    apply list_elem_of_lookup_1 in Hd as [i Hi]. apply lookup_lt_Some in Hi. rewrite length_drop in Hi. lia.
Qed.
End predictions.

(** ** The accounting *)

(** The predictions that wait for their layer. *)
Definition how_many (l : list ExpertPrediction) : Z := Z.of_nat (length l).
Definition waiting (p : ExpertPredictor) : Z := map_sum how_many (pd_pending p).

(** Every prediction is judged useful, judged wasted, waiting, or was dropped; a covered
    opportunity had a useful prediction, and so had one whose first was right. *)
Record quality_inv (p : ExpertPredictor) : Prop := QualityInv {
  qi_top : 0 <= top1Correct (pd_quality p) <= topKCovered (pd_quality p) /\
           topKCovered (pd_quality p) <= opportunities (pd_quality p);
  qi_useful : topKCovered (pd_quality p) <= usefulPredictions (pd_quality p) /\ 0 <= wastedPredictions (pd_quality p);
  qi_judged : opportunities (pd_quality p) <= usefulPredictions (pd_quality p) + wastedPredictions (pd_quality p);
  qi_sum : usefulPredictions (pd_quality p) + wastedPredictions (pd_quality p) + waiting p <= predictions (pd_quality p);
  qi_suppressed : 0 <= suppressedPrefetches (pd_quality p) <= predictions (pd_quality p);
  qi_limit : predictions (pd_quality p) <= u64_max;
}.

Lemma waiting_nonneg p : 0 <= waiting p.
Proof. apply map_sum_nonneg. intros k l _. unfold how_many. lia. Qed.

(** The counters of the judged predictions. *)
Definition useful_in (selected : list Z) (l : list ExpertPrediction) : Z :=
  Z.of_nat (length (filter (fun p => contains selected (ep_expertId p) = true) l)).

Lemma useful_in_cons selected p l :
  useful_in selected (p :: l) = (if contains selected (ep_expertId p) then 1 else 0) + useful_in selected l.
Proof.
  unfold useful_in. rewrite filter_cons. destruct (contains selected (ep_expertId p)) eqn:Hc.
  - rewrite decide_True by done. cbn. lia.
  - rewrite decide_False by done. lia.
Qed.

Lemma useful_in_bound selected l : 0 <= useful_in selected l <= Z.of_nat (length l).
Proof. unfold useful_in. pose proof (length_filter (fun p => contains selected (ep_expertId p) = true) l). lia. Qed.

Lemma judge_spec selected l q covered :
  0 <= usefulPredictions q -> 0 <= wastedPredictions q ->
  usefulPredictions q + wastedPredictions q + Z.of_nat (length l) <= u64_max ->
  foldl (judge selected) (q, covered) l =
  (mkQuality (opportunities q) (predictions q) (top1Correct q) (topKCovered q)
     (usefulPredictions q + useful_in selected l)
     (wastedPredictions q + (Z.of_nat (length l) - useful_in selected l)) (suppressedPrefetches q),
   covered || (0 <? useful_in selected l)).
Proof.
  revert q covered. induction l as [|p l IH]; intros q covered Hu Hw Hm.
  { destruct q; cbn. unfold useful_in. cbn. rewrite !Z.add_0_r, orb_false_r. done. }
  cbn [foldl judge]. pose proof (useful_in_bound selected l). rewrite useful_in_cons. cbn [length] in *.
  destruct (contains selected (ep_expertId p)).
  - rewrite wrap64_small by (unfold is_u64; lia). rewrite IH by (cbn; lia). cbn.
    f_equal; [f_equal; lia|]. destruct (Z.ltb_spec 0 (1 + useful_in selected l)); [by rewrite orb_true_r|lia].
  - rewrite wrap64_small by (unfold is_u64; lia). rewrite IH by (cbn; lia). cbn. f_equal. f_equal; lia.
Qed.

Lemma account_inv d streamId p : quality_inv p -> quality_inv (account d streamId p).
Proof.
  intros Hq. unfold account. destruct (pd_pending p !! streamId) as [[|front l]|] eqn:Hp; [done| |done].
  destruct (ep_expectedLayer front =? rd_layerId d); [|done]. pose proof (waiting_nonneg p) as Hwn. destruct Hq.
  set (selected := selectedExpertIds d) in *. set (top1 := contains selected (ep_expertId front)).
  assert (waiting p = Z.of_nat (length (front :: l)) + map_sum how_many (delete streamId (pd_pending p)))
    as Hw by (apply (map_sum_delete how_many), Hp).
  assert (0 <= map_sum how_many (delete streamId (pd_pending p))) as Hdn by (apply map_sum_nonneg; intros k x _; unfold how_many; lia).
  rewrite judge_spec by (cbn [add_opportunity usefulPredictions wastedPredictions]; lia).
  pose proof (useful_in_bound selected (front :: l)) as Hb. pose proof (useful_in_cons selected front l) as Hc.
  pose proof (useful_in_bound selected l). fold top1 in Hc. set (n := useful_in selected (front :: l)) in *.
  assert (forall b : bool, (if b then wrap64 (topKCovered (pd_quality p) + 1) else topKCovered (pd_quality p)) =
    topKCovered (pd_quality p) + if b then 1 else 0) as Hk.
  { intros []; [|lia]. apply wrap64_small. unfold is_u64. cbn [length] in *. lia. }
  assert ((if top1 then wrap64 (top1Correct (pd_quality p) + 1) else top1Correct (pd_quality p)) =
    top1Correct (pd_quality p) + if top1 then 1 else 0) as Ht.
  { destruct top1; [|lia]. apply wrap64_small. unfold is_u64. cbn [length] in *. lia. }
  assert (wrap64 (opportunities (pd_quality p) + 1) = opportunities (pd_quality p) + 1) as Ho.
  { apply wrap64_small. unfold is_u64. cbn [length] in *. lia. }
  cbn [length orb] in *.
  constructor; unfold waiting; cbn; rewrite ?Hk, ?Ht, ?Ho;
    destruct (Z.ltb_spec 0 n), top1; lia.
Qed.

Lemma add_pending_inv streamId l p :
  quality_inv p -> predictions (pd_quality p) + Z.of_nat (length l) <= u64_max ->
  quality_inv (add_pending streamId l p) /\
  suppressedPrefetches (pd_quality (add_pending streamId l p)) + Z.of_nat (length l) <= predictions (pd_quality (add_pending streamId l p)).
Proof.
  intros [] Hm. assert (wrap64 (predictions (pd_quality p) + Z.of_nat (length l)) = predictions (pd_quality p) + Z.of_nat (length l)) as Hw.
  { apply wrap64_small. unfold is_u64. lia. }
  assert (waiting (add_pending streamId l p) <= waiting p + Z.of_nat (length l)) as Hwait.
  { unfold waiting. cbn. destruct (pd_pending p !! streamId) as [old|] eqn:Hp.
    - rewrite (map_sum_update _ _ _ old) by done. unfold how_many. lia.
    - rewrite map_sum_insert by done. unfold how_many. lia. }
  split; [|cbn; rewrite Hw; lia]. constructor; cbn; rewrite ?Hw; lia.
Qed.

Lemma suppress_inv p :
  quality_inv p -> suppressedPrefetches (pd_quality p) < predictions (pd_quality p) ->
  quality_inv (suppress p) /\ suppressedPrefetches (pd_quality (suppress p)) = suppressedPrefetches (pd_quality p) + 1 /\
  predictions (pd_quality (suppress p)) = predictions (pd_quality p).
Proof.
  intros [] Hm. assert (wrap64 (suppressedPrefetches (pd_quality p) + 1) = suppressedPrefetches (pd_quality p) + 1) as Hw.
  { apply wrap64_small. unfold is_u64. lia. }
  split; [|cbn; by rewrite Hw]. constructor; unfold waiting in *; cbn; rewrite ?Hw; lia.
Qed.

(** ** The call *)

Section call.
Variables (pow : f64 -> f64 -> f64) (log1p log : f64 -> f64).
Variable walk : gmap ExpertSelection Z -> list (ExpertSelection * Z).
Variable walk_peers : gmap Z Z -> list (Z * Z).
Variable h : gmap Z Phase.
Notation observeAndPrefetch := (observeAndPrefetch pow log1p log walk walk_peers).

(** The scheduler's invariant holds and its promises are kept. *)
Definition scheduler_kept (s s' : Prefetching) : Prop := leaves h (pf_scheduler s) (pf_scheduler s').

(** What the loop of prefetches changes. *)
Record loop_step (s s' : Prefetching) : Prop := LoopStep {
  ls_database : pf_database s' = pf_database s;
  ls_history : pf_history s' = pf_history s;
  ls_config : pd_config (pf_predictor s') = pd_config (pf_predictor s);
  ls_pending : pd_pending (pf_predictor s') = pd_pending (pf_predictor s);
  ls_quality : quality_inv (pf_predictor s');
  ls_scheduler : scheduler_kept s s';
}.

(** The predictions handed to the scheduler one after the other: it answers each with a
    handle, or knows no such expert. *)
Inductive handed : list ExpertPrediction -> Scheduler -> list ScheduleHandle -> Scheduler -> Prop :=
  | handed_none s : handed [] s [] s
  | handed_known p l s handle s1 handles s2 :
      prefetch (to_request p) None s = (Ok handle, s1) ->
      is_Some (states_ s !! pack_key (ep_expectedLayer p) (ep_expertId p)) ->
      handed l s1 handles s2 -> handed (p :: l) s (handle :: handles) s2
  | handed_unknown p l s e s1 handles s2 :
      prefetch (to_request p) None s = (Throw e, s1) -> is_out_of_range e = true ->
      states_ s !! pack_key (ep_expectedLayer p) (ep_expertId p) = None ->
      handed l s1 handles s2 -> handed (p :: l) s handles s2.

(** The scheduler refused one of them with another exception. *)
Definition refused_one (l : list ExpertPrediction) (s : Scheduler) (e : exn) (s' : Scheduler) : Prop :=
  exists l1 p l2 handles s1, l = l1 ++ p :: l2 /\ handed l1 s handles s1 /\
    prefetch (to_request p) None s1 = (Throw e, s') /\ is_out_of_range e = false.

Lemma wp_prefetch s p :
  sys_inv (mkSystem (pf_scheduler s) h) -> seq_room (pf_scheduler s) ->
  is_u32 (ep_expectedLayer p) -> is_u32 (ep_expertId p) ->
  let known := states_ (pf_scheduler s) !! pack_key (ep_expectedLayer p) (ep_expertId p) in
  wp (zoom pf_scheduler set_scheduler (prefetch (to_request p) None)) s
    (fun handle s' => exists sc, s' = set_scheduler sc s /\ leaves h (pf_scheduler s) sc /\ sequence_after (pf_scheduler s) sc /\
       prefetch (to_request p) None (pf_scheduler s) = (Ok handle, sc) /\ is_Some known)
    (fun e s' => exists sc, s' = set_scheduler sc s /\ leaves h (pf_scheduler s) sc /\ sequence_after (pf_scheduler s) sc /\
       prefetch (to_request p) None (pf_scheduler s) = (Throw e, sc) /\ (is_out_of_range e = true -> known = None)).
Proof.
  intros Hy Hroom Hl He known. apply wp_zoom. unfold prefetch. wp_step. wp_step. cbn [st_bind st_get].
  set (r := prefetch_request _ _). assert (request_wf r) as Hwf by (by split).
  pose proof (schedule_known r None (pf_scheduler s) h Hy) as Hkn. unfold wp in Hkn.
  pose proof (schedule_keeps r None (pf_scheduler s) h Hy Hwf Hroom) as Hk. unfold keeps in Hk.
  pose proof (schedule_sequence r None (pf_scheduler s) h Hy Hroom) as Hs.
  unfold wp in *. unfold st_bind, st_get. fold r. destruct (schedule r None (pf_scheduler s)) as [[a|e|] sc]; [eauto 10..|done].
Qed.

Definition worthy (c : AdaptivePredictionConfig) (l : list ExpertPrediction) : list ExpertPrediction :=
  filter (fun p => shouldPrefetch c p = true) l.

Lemma worthy_cons c p l : worthy c (p :: l) = (if shouldPrefetch c p then [p] else []) ++ worthy c l.
Proof.
  unfold worthy. rewrite filter_cons. destruct (shouldPrefetch c p) eqn:Hp.
  - by rewrite decide_True.
  - by rewrite decide_False.
Qed.

Lemma worthy_length c l : (length (worthy c l) <= length l)%nat.
Proof. apply length_filter. Qed.

Lemma handed_failed p l s handle s1 e s' :
  handed [p] s handle s1 -> refused_one l s1 e s' -> refused_one (p :: l) s e s'.
Proof.
  intros Hp (l1 & x & l2 & hs & sc & -> & Hl & Hx & He). inversion Hp as [|? ? ? ? ? ? ? Ha Hk Hn|? ? ? ? ? ? ? Ha Ho Hk Hn]; subst;
    inversion Hn; subst; exists (p :: l1), x, l2; eexists _, sc; (split; [done|]); (split; [|done]);
    [by eapply handed_known|by eapply handed_unknown].
Qed.

Lemma handed_cons p l s handle s1 handles s' :
  handed [p] s handle s1 -> handed l s1 handles s' -> handed (p :: l) s (handle ++ handles) s'.
Proof.
  intros Hp Hl. inversion Hp as [|? ? ? ? ? ? ? Ha Hk Hn|? ? ? ? ? ? ? Ha Ho Hk Hn]; subst; inversion Hn; subst;
    [by eapply handed_known|by eapply handed_unknown].
Qed.

(** The whole loop: predictions that are not worth it are counted, the others asked for. *)
Definition loop_ready (l : list ExpertPrediction) (s : Prefetching) : Prop :=
  quality_inv (pf_predictor s) /\
  suppressedPrefetches (pd_quality (pf_predictor s)) + Z.of_nat (length l) <= predictions (pd_quality (pf_predictor s)) /\
  sys_inv (mkSystem (pf_scheduler s) h) /\ nextSequence_ (pf_scheduler s) + Z.of_nat (length l) <= u64_max /\
  Forall (fun p => is_u32 (ep_expectedLayer p) /\ is_u32 (ep_expertId p)) l.

Definition loop_end (observer : bool) (l : list ExpertPrediction) (handles handles' : list ScheduleHandle)
    (s s' : Prefetching) : Prop :=
  let w := length (worthy (pd_config (pf_predictor s)) l) in
  suppressedPrefetches (pd_quality (pf_predictor s')) =
    suppressedPrefetches (pd_quality (pf_predictor s)) + Z.of_nat (length l - w) /\
  (exists handed_out, handles' = handles ++ handed_out /\
     handed (worthy (pd_config (pf_predictor s)) l) (pf_scheduler s) handed_out (pf_scheduler s')) /\
  pf_observed s' = pf_observed s ++ (if observer then l else []).

Lemma loop_step_trans s1 s2 s3 :
  pf_database s2 = pf_database s1 -> pf_history s2 = pf_history s1 ->
  pd_config (pf_predictor s2) = pd_config (pf_predictor s1) -> pd_pending (pf_predictor s2) = pd_pending (pf_predictor s1) ->
  kept (pf_scheduler s1) (pf_scheduler s2) ->
  predictions (pd_quality (pf_predictor s2)) = predictions (pd_quality (pf_predictor s1)) ->
  loop_step s2 s3 -> loop_step s1 s3.
Proof.
  intros H1 H2 H3 H4 H5 H6 []. constructor; try congruence. by eapply leaves_trans.
Qed.

(** What a loop that throws leaves. *)
Definition loop_failed (l : list ExpertPrediction) (s : Prefetching) (e : exn) (s' : Prefetching) : Prop :=
  loop_step s s' /\ predictions (pd_quality (pf_predictor s')) = predictions (pd_quality (pf_predictor s)) /\
  refused_one (worthy (pd_config (pf_predictor s)) l) (pf_scheduler s) e (pf_scheduler s').
Definition loop_done (observer : bool) (l : list ExpertPrediction) (handles : list ScheduleHandle) (s : Prefetching)
    (handles' : list ScheduleHandle) (s' : Prefetching) : Prop :=
  loop_step s s' /\ predictions (pd_quality (pf_predictor s')) = predictions (pd_quality (pf_predictor s)) /\
  loop_end observer l handles handles' s s'.

Lemma wp_prefetch_loop observer l handles s :
  loop_ready l s -> wp (prefetch_loop observer l handles) s (loop_done observer l handles s) (loop_failed l s).
Proof.
  revert handles s. induction l as [|p l IH]; intros handles s (Hq & Hsu & Hy & Hn & Hl); cbn [prefetch_loop].
  { wp_step. split; [|split; [done|]].
    - constructor; try done. split; [done|]. apply kept_refl.
    - unfold loop_end. cbn. rewrite Z.add_0_r. split; [done|]. split; [|destruct observer; by rewrite app_nil_r].
      exists []. rewrite app_nil_r. split; [done|]. apply handed_none. }
  apply Forall_cons in Hl as [[Hly He] Hl]. cbn [length] in Hsu, Hn.
  set (s0 := if observer then add_observed p s else s).
  assert (pf_predictor s0 = pf_predictor s /\ pf_database s0 = pf_database s /\ pf_history s0 = pf_history s /\
    pf_scheduler s0 = pf_scheduler s /\ pf_observed s0 = pf_observed s ++ (if observer then [p] else [])) as (E1 & E2 & E3 & E4 & E5)
    by (unfold s0; destruct observer; cbn; by rewrite ?app_nil_r).
  pose proof (worthy_length (pd_config (pf_predictor s)) l) as Hwl.
  wp_step. apply (wp_mono _ _ (fun _ s1 => s1 = s0) _ (fun _ _ => False)); [by destruct observer; wp_steps| |done].
  intros u s1 ->. clear u. wp_step. wp_step. rewrite E1.
  destruct (shouldPrefetch (pd_config (pf_predictor s)) p) eqn:Hsp; cbn [negb].
  - wp_step. apply wp_try. wp_step.
    assert (seq_room (pf_scheduler s0)) as Hroom by (unfold seq_room; rewrite E4; lia).
    assert (sys_inv (mkSystem (pf_scheduler s0) h)) as Hy0 by by rewrite E4.
    assert (forall sc handle, leaves h (pf_scheduler s0) sc -> sequence_after (pf_scheduler s0) sc -> handed [p] (pf_scheduler s) handle sc ->
      wp (prefetch_loop observer l (handles ++ handle)) (set_scheduler sc s0) (loop_done observer (p :: l) handles s) (loop_failed (p :: l) s)) as Hrest.
    { intros sc handle [Hsc Hkept] Hseq Hh. unfold sequence_after in Hseq. rewrite E4 in *.
      assert (forall s', loop_step (set_scheduler sc s0) s' -> loop_step s s') as Htrans.
      { intros s' Hs'. apply (loop_step_trans s (set_scheduler sc s0)); cbn [set_scheduler pf_predictor pf_database pf_history pf_scheduler];
          rewrite ?E1; done. }
      eapply wp_mono; [apply IH|..]; cbn beta.
      - split_and!; cbn; rewrite ?E1; try done; lia.
      - intros handles' s' (Hs' & Hp & Hend). split; [by apply Htrans|]. cbn in Hp. rewrite E1 in Hp. split; [done|].
        unfold loop_end in *. cbn [set_scheduler pf_predictor pf_observed pf_scheduler] in Hend. rewrite E1, E5 in Hend.
        destruct Hend as (H1 & (hs & -> & H2) & H3). rewrite worthy_cons, Hsp. cbn [length app].
        split; [rewrite H1; lia|]. split; [|rewrite H3; destruct observer; by rewrite <- ?(assoc_L (++)), ?app_nil_r].
        exists (handle ++ hs). rewrite (assoc_L (++)). split; [done|]. by eapply handed_cons.
      - intros e s' (Hs' & Hp & Hf). split; [by apply Htrans|]. cbn in Hp, Hf. rewrite E1 in Hp, Hf. split; [done|].
        rewrite worthy_cons, Hsp. by eapply handed_failed. }
    eapply wp_mono; [by apply (wp_prefetch s0 p)|..]; cbn beta.
    + intros handle s1 (sc & -> & Hle & Hseq & Ha & Hkn). rewrite E4 in Ha, Hkn. wp_step. apply Hrest; [done..|].
      eapply handed_known; [done..|apply handed_none].
    + intros e s1 (sc & -> & Hle & Hseq & Ha & Hkn). rewrite E4 in Ha, Hkn. destruct (is_out_of_range e) eqn:Hoor.
      * wp_step. cbn [option_list]. apply Hrest; [done..|]. eapply handed_unknown; [done|done|by apply Hkn|apply handed_none].
      * split; [|split; [cbn; by rewrite E1|]]; [constructor; cbn; rewrite ?E1; try done; unfold scheduler_kept; by rewrite E4 in Hle|].
        rewrite worthy_cons, Hsp. exists [], p, (worthy (pd_config (pf_predictor s)) l), []. eexists. split; [done|]. by split; [apply handed_none|].
  - wp_step. wp_step. destruct (suppress_inv (pf_predictor s) Hq ltac:(lia)) as (Hq' & Hsu' & Hp').
    assert (forall s', loop_step (set_predictor suppress s0) s' -> loop_step s s') as Htrans.
    { intros s' Hs'. apply (loop_step_trans s (set_predictor suppress s0)); cbn [set_predictor pf_predictor pf_database pf_history pf_scheduler];
        rewrite ?E1, ?E4; try done. apply kept_refl. }
    eapply wp_mono; [apply IH|..]; cbn beta.
    + split_and!; cbn [set_predictor pf_predictor pf_scheduler]; rewrite ?E1, ?E4; try done; lia.
    + intros handles' s' (Hs' & Hp & Hend). cbn [set_predictor pf_predictor] in Hp. rewrite E1, Hp' in Hp.
      split; [by apply Htrans|]. split; [done|].
      unfold loop_end in *. cbn [set_predictor pf_predictor pf_observed pf_scheduler] in Hend. rewrite E1, E4, E5, Hsu' in Hend.
      change (pd_config (suppress (pf_predictor s))) with (pd_config (pf_predictor s)) in Hend.
      destruct Hend as (H1 & H2 & H3). rewrite worthy_cons, Hsp. cbn [length app].
      split; [rewrite H1; lia|]. split; [done|]. rewrite H3. destruct observer; by rewrite <- ?(assoc_L (++)), ?app_nil_r.
    + intros e s' (Hs' & Hp & Hf). cbn [set_predictor pf_predictor pf_scheduler] in Hp, Hf. rewrite E1, Hp' in Hp. rewrite E1, E4 in Hf.
      split; [by apply Htrans|]. split; [done|]. by rewrite worthy_cons, Hsp.
Qed.

(** The experts the database has seen have 32-bit identifiers. *)
Definition known_u32 (db : TransitionDatabase) : Prop :=
  forall e, is_Some (frequency_ db !! e) -> is_u32 (Prediction.es_expertId e).

Lemma bumps_keys {K} `{Countable K} (l : list K) (m : gmap K Z) x : is_Some (foldl bump m l !! x) -> is_Some (m !! x) \/ x ∈ l.
Proof.
  revert m. induction l as [|y l IH]; intros m Hs; [by left|]. cbn in Hs. destruct (IH _ Hs) as [Hm|Hx]; [|right; by right].
  unfold bump in Hm. apply lookup_insert_is_Some in Hm as [<-|[_ Hm]]; [right; by left|by left].
Qed.

Lemma record_known d streamId db :
  known_u32 db -> Forall is_u32 (selectedExpertIds d) -> known_u32 (record_selections pow (selections d) streamId db).
Proof.
  intros Hk Hd e He. cbn in He. destruct (bumps_keys _ _ _ He) as [Hm|Hin]; [by apply Hk|].
  unfold selections in Hin. apply list_elem_of_fmap in Hin as (i & -> & Hi). rewrite Forall_forall in Hd. by apply Hd.
Qed.

Hypothesis walk_perm : forall m, walk m ≡ₚ map_to_list m.
Notation predictDetailed := (predictDetailed pow log1p log walk walk_peers).

Lemma predicted_u32 c db layer recent :
  known_u32 db -> 0 <= maximumPredictions c ->
  Forall (fun p => is_u32 (ep_expectedLayer p) /\ is_u32 (ep_expertId p)) (predictDetailed c db layer recent) /\
  Z.of_nat (length (predictDetailed c db layer recent)) <= maximumPredictions c.
Proof.
  intros Hk Hm. unfold Predictor.predictDetailed. destruct (layer =? u32_max); [by split|].
  case_bool_decide; [by split|]. cbv zeta. rewrite length_take. split; [|lia]. apply Forall_take, Forall_forall.
  intros p Hp. rewrite stable_sort_perm in Hp. unfold confident in Hp.
  apply list_elem_of_fmap in Hp as (s & -> & [_ Hs]%list_elem_of_filter). cbn. split; [apply wrap32_u32|].
  apply (list_elem_of_fmap_2 cs_expertId) in Hs. rewrite (score_ids pow log1p log walk walk_peers walk_perm) in Hs.
  apply list_elem_of_fmap in Hs as (e & -> & He). apply Hk. by apply (expertsInLayer_exact walk walk_perm) in He as [_ ?].
Qed.

(** Judging the past leaves the configuration and the totals of predictions alone. *)
Lemma account_counters d streamId p :
  quality_inv p ->
  pd_config (account d streamId p) = pd_config p /\
  predictions (pd_quality (account d streamId p)) = predictions (pd_quality p) /\
  suppressedPrefetches (pd_quality (account d streamId p)) = suppressedPrefetches (pd_quality p).
Proof.
  intros Hq. unfold account. destruct (pd_pending p !! streamId) as [[|front l]|] eqn:Hp; try done.
  destruct (ep_expectedLayer front =? rd_layerId d); [|done].
  assert (Z.of_nat (length (front :: l)) <= waiting p) as Hlen.
  { unfold waiting. rewrite (map_sum_delete how_many _ _ _ Hp). unfold how_many at 1.
    enough (0 <= map_sum how_many (delete streamId (pd_pending p))) by lia.
    apply map_sum_nonneg. intros k x _. unfold how_many. lia. }
  destruct Hq. rewrite judge_spec by (cbn [add_opportunity usefulPredictions wastedPredictions]; lia). done.
Qed.

(** C29: Observing a decision.  The call always ends, and keeps the accounting of the
    predictor exact: a covered opportunity had a useful prediction, top-one hits are
    covered opportunities, and useful, wasted and waiting predictions together never
    exceed those made.  A valid decision is recorded in both statistics, and the
    predictions made from them wait for their layer.  When the call returns, those not
    worth a prefetch were counted as suppressed, and every other one was handed to the
    scheduler, in order: the handles returned are its answers, one for each expert it
    knows, and an expert that was never registered is no error.  It throws only what the
    scheduler throws for one of them, after handing over those before it.  The
    scheduler's invariant holds afterwards and no promise it made was changed. *)
Theorem observe_accounting d streamId observer s
    (Hquality : quality_inv (pf_predictor s)) (Hscheduler : sys_inv (mkSystem (pf_scheduler s) h))
    (Hknown : known_u32 (pf_database s)) (Hd : Forall is_u32 (selectedExpertIds d))
    (Hconfig : 0 <= maximumPredictions (pd_config (pf_predictor s)))
    (Hroom : predictions (pd_quality (pf_predictor s)) + maximumPredictions (pd_config (pf_predictor s)) <= u64_max)
    (Hsequence : nextSequence_ (pf_scheduler s) + maximumPredictions (pd_config (pf_predictor s)) <= u64_max) :
  match observeAndPrefetch d streamId observer s with
  | (r, s') =>
      quality_inv (pf_predictor s') /\ scheduler_kept s s' /\ known_u32 (pf_database s') /\
      if decision_valid d then
        let c := pd_config (pf_predictor s) in
        let l := predictDetailed c (pf_database s') (rd_layerId d) (selectedExpertIds d) in
        pf_database s' = record_selections pow (selections d) streamId (pf_database s) /\
        (history_record d (pf_history s)).2 = pf_history s' /\
        pd_pending (pf_predictor s') !! streamId = Some l /\
        predictions (pd_quality (pf_predictor s')) = predictions (pd_quality (pf_predictor s)) + Z.of_nat (length l) /\
        match r with
        | Ok handles =>
            suppressedPrefetches (pd_quality (pf_predictor s')) =
              suppressedPrefetches (pd_quality (pf_predictor s)) + Z.of_nat (length l - length (worthy c l)) /\
            handed (worthy c l) (pf_scheduler s) handles (pf_scheduler s') /\
            pf_observed s' = pf_observed s ++ (if observer then l else [])
        | Throw e => refused_one (worthy c l) (pf_scheduler s) e (pf_scheduler s')
        | Diverge => False
        end
      else r = Throw (Exn InvalidArgument "cannot observe invalid decision") /\ s' = s
  end.
Proof.
  unfold Predictor.observeAndPrefetch, history_record, record, zoom, st_bind, lift, modify, st_get.
  destruct (decision_valid d) eqn:Hv; cbn -[prefetch_loop account add_pending];
    [|by split_and!; [|split; [|apply kept_refl]|..]].
  pose proof (account_inv d streamId (pf_predictor s) Hquality) as Hq1.
  destruct (account_counters d streamId (pf_predictor s) Hquality) as (Ec & Ep & Es).
  rewrite Ec. set (db := record_selections _ _ _ _). set (c := pd_config (pf_predictor s)) in *.
  assert (known_u32 db) as Hk' by by apply record_known.
  destruct (predicted_u32 c db (rd_layerId d) (selectedExpertIds d) Hk' Hconfig) as [Hl Hlen].
  set (l := predictDetailed c db _ _) in *.
  destruct (add_pending_inv streamId l _ Hq1 ltac:(rewrite Ep; lia)) as [Hq2 Hs2].
  set (p2 := add_pending streamId l _) in *.
  match goal with |- context [prefetch_loop observer l [] ?s2] => set (s2' := s2) end.
  assert (predictions (pd_quality p2) = predictions (pd_quality (pf_predictor s)) + Z.of_nat (length l)) as Epp.
  { unfold p2. cbn. rewrite Ep. apply wrap64_small. destruct Hquality. unfold is_u64. lia. }
  pose proof (wp_prefetch_loop observer l [] s2') as Hloop. unfold wp, loop_done, loop_failed in Hloop.
  assert (nextSequence_ (pf_scheduler s) + Z.of_nat (length l) <= u64_max) as Hseq by lia.
  assert (loop_ready l s2') as Hready by (split_and!; [exact Hq2|exact Hs2|exact Hscheduler|exact Hseq|exact Hl]).
  specialize (Hloop Hready). change (pf_predictor s2') with p2 in Hloop.
  assert (forall s3, loop_step s2' s3 -> predictions (pd_quality (pf_predictor s3)) = predictions (pd_quality p2) ->
    quality_inv (pf_predictor s3) /\ scheduler_kept s s3 /\ pf_database s3 = db /\
    pf_history s3 = pf_history s2' /\ pd_pending (pf_predictor s3) !! streamId = Some l) as Hsteps.
  { intros s3 [H1 H2 _ H4 H5 H6] Hp. split_and!; try done. rewrite H4. apply lookup_insert_eq. }
  destruct (prefetch_loop observer l [] s2') as [[handles|e|] s3]; [| |done].
  - destruct Hloop as (Hst & Hp & H1 & (hs & -> & H2) & H3). destruct (Hsteps s3 Hst Hp) as (? & ? & -> & -> & ?). fold l.
    change (pd_config (pf_predictor s2')) with (pd_config (account d streamId (pf_predictor s))) in H1, H2.
    rewrite Ec in H1, H2. split_and!; try done; [congruence|]. rewrite H1. cbn. by rewrite Es.
  - destruct Hloop as (Hst & Hp & Hf). destruct (Hsteps s3 Hst Hp) as (? & ? & -> & -> & ?). fold l.
    change (pd_config p2) with (pd_config (account d streamId (pf_predictor s))) in Hf. rewrite Ec in Hf.
    split_and!; try done; congruence.
Qed.
End call.

(** Witnesses: three decisions of one stream were seen, expert 3 of layer 1 is
    registered with the scheduler and expert 4 is not. *)
Definition sample_prediction : AdaptivePredictionConfig := mkAdaptive 2 f64_zero f64_zero.
Definition sample_predictor : ExpertPredictor := mkPredictor sample_prediction (mkQuality 0 0 0 0 0 0 0) ∅ None.
Definition sample_registered : Scheduler := snd (registerExpert 1 3 Nvme 0 sample0).
Definition sample_seen : TransitionDatabase := run sample_pow sample_database sample_trace.
Definition sample_prefetching : Prefetching := mkPrefetching sample_predictor sample_seen newHistory sample_registered [].
Definition sample_ln (x : f64) : f64 := x.
Definition sample_best : Z -> list Z -> list ExpertPrediction :=
  predictDetailed sample_pow sample_ln sample_ln map_to_list map_to_list sample_prediction sample_seen.
Notation sample_scores := (scores_of sample_pow sample_ln sample_ln map_to_list map_to_list sample_seen).
Notation sample_observe :=
  (observeAndPrefetch sample_pow sample_ln sample_ln map_to_list map_to_list (sample_decision 0 [1; 2]) 7 true sample_prefetching).

Lemma sample_best_facts :
  isfinite (total_raw (sample_scores 0 [2; 1])) = true /\ (ep_expertId <$> sample_best 0 [2; 1]) = [3; 4].
Proof. vm_compute. split; reflexivity. Qed.

Lemma predictDetailed_best_witness :
  (ep_expertId <$> sample_best 0 [2; 1]) = [3; 4] /\
  best_predictions sample_pow sample_ln sample_ln map_to_list map_to_list sample_prediction sample_seen 0 [2; 1] (sample_best 0 [2; 1]).
Proof.
  pose proof sample_best_facts as [Hf He]. split; [exact He|].
  destruct (predictDetailed_best sample_pow sample_ln sample_ln map_to_list map_to_list (fun m => reflexivity _)
    sample_prediction sample_seen 0 [2; 1] ltac:(unfold is_u32, u32_max; lia) ltac:(cbn; lia) eq_refl Hf) as [[Hn _]|[_ H]].
  - unfold sample_best in He. rewrite Hn in He. discriminate He.
  - exact H.
Defined.

Definition event_u32 (e : event) : Prop :=
  match e with Recorded d _ => Forall is_u32 (selectedExpertIds d) | Ended _ => True end.

Lemma run_known pow db evs : known_u32 db -> Forall event_u32 evs -> known_u32 (run pow db evs).
Proof.
  revert db. induction evs as [|e evs IH]; intros db Hk He; [done|]. apply Forall_cons in He as [He Hes].
  apply IH; [|done]. destruct e as [d streamId|streamId]; [|exact Hk]. cbn. unfold record, st_bind, lift, modify.
  destruct (decision_valid d); cbn -[record_selections]; [|done]. by apply record_known.
Qed.

Lemma sample_prefetching_ready :
  quality_inv sample_predictor /\ sys_inv (mkSystem sample_registered ∅) /\ known_u32 sample_seen /\
  Forall is_u32 (selectedExpertIds (sample_decision 0 [1; 2])).
Proof.
  assert (is_u32 1 /\ is_u32 3) as [H1 H3] by (unfold is_u32, u32_max; lia). split_and!.
  - constructor; vm_compute; split_and?; discriminate.
  - exact (reachable_inv _ (reachable_step _ _ sample0_reachable (sys_register _ _ 1 3 Nvme 0 H1 H3))).
  - apply run_known; [intros ? [? Hx]; discriminate Hx|]. unfold is_u32, u32_max.
    repeat (apply Forall_cons; split); try apply Forall_nil; cbn; rewrite ?Forall_cons, ?Forall_nil; split_and?; try done; lia.
  - cbn. unfold is_u32, u32_max. rewrite !Forall_cons, Forall_nil. lia.
Qed.

Lemma sample_observed :
  (sample_observe.1 = Ok [HTask 0] /\ length (pf_observed sample_observe.2) = 2%nat) /\
  predictions (pd_quality (pf_predictor sample_observe.2)) = 2.
Proof. vm_compute. repeat split. Qed.

Lemma observe_accounting_witness :
  sample_observe.1 = Ok [HTask 0] /\ predictions (pd_quality (pf_predictor sample_observe.2)) = 2 /\
  quality_inv (pf_predictor sample_observe.2) /\ scheduler_kept ∅ sample_prefetching sample_observe.2.
Proof.
  pose proof sample_prefetching_ready as (Hq & Hy & Hk & Hd). split; [exact (proj1 (proj1 sample_observed))|].
  split; [exact (proj2 sample_observed)|].
  pose proof (observe_accounting sample_pow sample_ln sample_ln map_to_list map_to_list ∅ (fun m => reflexivity _)
    (sample_decision 0 [1; 2]) 7 true sample_prefetching Hq Hy Hk Hd
    ltac:(vm_compute; discriminate) ltac:(vm_compute; discriminate) ltac:(vm_compute; discriminate)) as H.
  destruct sample_observe as [r s']. destruct H as (H1 & H2 & _). split; [exact H1|exact H2].
Defined.
