(* ===== verification/Decimal.v ===== *)
(** * Numbers as decimal text

    What the manifest code uses of the standard library's conversions: the default
    formatting of a floating-point number by a stream ([printf]'s [%g] at the stream's
    precision), [std::from_chars] into a [double], and the accessors of
    [src/models/metadata/JsonValue.cpp] and [src/models/ModelManifest.cpp] built on them. *)

From Stdlib Require Import String Ascii SpecFloat.
From S2P Require Import Prelude Float Json JsonGrammar.

#[local] Open Scope Z_scope.

(** ** Writing *)

Definition digit_char (d : Z) : ascii := char_of (48 + d).

(** [count] digits of [value], leading zeros included. *)
Fixpoint fixed_digits (count : nat) (value : Z) : text :=
  match count with
  | O => []
  | S count => app (fixed_digits count (value / 10)) [digit_char (value mod 10)]
  end.

(** The digits without the zeros at the end. *)
Fixpoint strip_zeros (l : text) : text :=
  match l with
  | [] => []
  | c :: l => match strip_zeros l with
              | [] => if is_char "0"%char c then [] else [c]
              | l => c :: l
              end
  end.
Definition fraction_text (l : text) : text :=
  match strip_zeros l with [] => [] | l => "."%char :: l end.

(** The positive number [n/d]: its decimal exponent, and [n/d * 10^k] rounded to an
    integer, ties to even. *)
Fixpoint exponent_from (fuel : nat) (x n d : Z) : Z :=
  match fuel with
  | O => x
  | S fuel =>
      if (if 0 <=? x then d * 10 ^ x <=? n else d <=? n * 10 ^ (- x)) then x
      else exponent_from fuel (x - 1) n d
  end.
Definition decimal_exponent (n d : Z) : Z :=
  exponent_from 8 ((Z.log2 n - Z.log2 d) * 30103 / 100000 + 2) n d.
Definition divide_even (n d : Z) : Z :=
  let q := n / d in
  match 2 * (n mod d) ?= d with
  | Lt => q
  | Gt => q + 1
  | Eq => if Z.even q then q else q + 1
  end.
Definition scaled (n d k : Z) : Z :=
  if 0 <=? k then divide_even (n * 10 ^ k) d else divide_even n (d * 10 ^ (- k)).

(** [%e] with [precision] significant digits: [digits] in [10^(precision-1), 10^precision). *)
Definition scientific (precision digits x : Z) : text :=
  let unit := 10 ^ (precision - 1) in
  app (txt (pretty (digits / unit)))
    (app (fraction_text (fixed_digits (Z.to_nat (precision - 1)) (digits mod unit)))
      ("e"%char :: (if x <? 0 then "-"%char else "+"%char) ::
         (if Z.abs x <? 10 then "0"%char :: txt (pretty (Z.abs x)) else txt (pretty (Z.abs x))))).

(** [%f] with the decimals that leave [precision] significant digits. *)
Definition positional (precision digits x : Z) : text :=
  let decimals := precision - 1 - x in
  let unit := 10 ^ decimals in
  app (txt (pretty (digits / unit))) (fraction_text (fixed_digits (Z.to_nat decimals) (digits mod unit))).

Definition general (precision n d : Z) : text :=
  let x := decimal_exponent n d in
  let digits := scaled n d (precision - 1 - x) in
  let '(digits, x) := if digits =? 10 ^ precision then (10 ^ (precision - 1), x + 1) else (digits, x) in
  if (-4 <=? x) && (x <? precision) then positional precision digits x else scientific precision digits x.

(** [output << x]: a [float] is converted to [double], exactly. *)
Definition write_float (precision : Z) (x : f32) : text :=
  match x with
  | S754_zero s => if s then txt "-0" else txt "0"
  | S754_infinity s => if s then txt "-inf" else txt "inf"
  | S754_nan => txt "nan"
  | S754_finite s m e =>
      let digits := if 0 <=? e then general precision (Zpos m * 2 ^ e) 1
                    else general precision (Zpos m) (2 ^ (- e)) in
      if s then "-"%char :: digits else digits
  end.

(** ** Reading *)

(** The decimal [value * 10^exponent], correctly rounded; [None] is
    [std::errc::result_out_of_range]. *)
Definition nearest_f64 (negative : bool) (value exponent : Z) : option f64 :=
  match value with
  | Zpos p =>
      let x := if 0 <=? exponent then binary_normalize 53 1024 (value * 10 ^ exponent) 0 false
               else SFdiv 53 1024 (S754_finite false p 0) (S754_finite false (Z.to_pos (10 ^ (- exponent))) 0) in
      match x with
      | S754_finite _ m e => Some (S754_finite negative m e)
      | _ => None
      end
  | _ => Some (S754_zero negative)
  end.

Definition lower (c : ascii) : ascii :=
  if (65 <=? code c) && (code c <=? 90) then char_of (code c + 32) else c.
Definition is_word (c : ascii) : bool :=
  is_digit c || is_char "_"%char c || let l := code (lower c) in (97 <=? l) && (l <=? 122).

(** [inf], [infinity], [nan] and [nan(...)], in either case. *)
Definition special (negative : bool) (l : text) : option f64 :=
  let w := lower <$> l in
  if bool_decide (w = txt "inf") || bool_decide (w = txt "infinity") then Some (S754_infinity negative)
  else if bool_decide (w = txt "nan") then Some S754_nan
  else if bool_decide (take 4 w = txt "nan(") && bool_decide (drop (length w - 1) w = txt ")") &&
          forallb is_word (take (length w - 5) (drop 4 w)) then Some S754_nan
  else None.

(** The exponent, when it is the rest of the text. *)
Definition scan_exponent (l : text) : option Z :=
  match l with
  | [] => Some 0
  | e :: l =>
      if is_exponent e then
        match l with
        | [] => None
        | s :: ds =>
            if is_sign s then
              match ds with
              | [] => None
              | _ => (if is_char "-"%char s then Z.opp else id) <$> decimal 0 ds
              end
            else decimal 0 l
        end
      else None
  end.

Definition scan_number (negative : bool) (l : text) : option f64 :=
  let whole := prefix_length is_digit l in
  let rest := drop whole l in
  let '(parts, rest) :=
    match rest with
    | c :: r => if is_char "."%char c then let n := prefix_length is_digit r in (take n r, drop n r) else ([], rest)
    | [] => ([], [])
    end in
  let digits := app (take whole l) parts in
  match digits with
  | [] => special negative l
  | _ =>
      match decimal 0 digits, scan_exponent rest with
      | Some value, Some exponent => nearest_f64 negative value (exponent - Z.of_nat (length parts))
      | _, _ => None
      end
  end.

(** [std::from_chars] into a [double], accepted when it consumes the whole text. *)
Definition from_chars_f64 (t : string) : option f64 :=
  match txt t with
  | c :: l => if is_char "-"%char c then scan_number true l else scan_number false (c :: l)
  | [] => None
  end.

(** ** Accessors *)

Definition asDouble (v : JsonValue) : result f64 :=
  let parsed t := match from_chars_f64 t with
                  | Some x => Ok x
                  | None => Throw (Exn MetadataError "JSON value is not a double")
                  end in
  match v with
  | JString t => parsed t
  | JNumber t => parsed t
  | _ => wrong_type "a number"
  end.

Definition asSize (v : JsonValue) (field : string) : result Z :=
  match v with
  | JString t =>
      match from_chars_u64 t with
      | Some n => Ok n
      | None => Throw (Exn MetadataError (field ++ " is not an unsigned integer"))
      end
  | _ => asUInt64 v
  end.

Definition asId (v : JsonValue) (field : string) : result Z :=
  (number <-? asUInt64 v ;;
   throw_if (u32_max <? number) (Exn MetadataError (field ++ " exceeds uint32_t")) ;;?
   Ok number)%res.

(** [std::trunc(number) == number], and the conversion of such a number. *)
Definition integral (x : f64) : option Z :=
  match x with
  | S754_zero _ => Some 0
  | S754_finite s m e =>
      let z := if 0 <=? e then Zpos m * 2 ^ e else Zpos m / 2 ^ (- e) in
      if (0 <=? e) || (Zpos m mod 2 ^ (- e) =? 0) then Some (if s then - z else z) else None
  | _ => None
  end.

Definition asInt32 (v : JsonValue) (field : string) : result Z :=
  (number <-? asDouble v ;;
   match integral number with
   | Some z =>
       if (z <? -2147483648) || (2147483647 <? z)
       then Throw (Exn MetadataError (field ++ " is not a signed 32-bit integer"))
       else Ok z
   | None => Throw (Exn MetadataError (field ++ " is not a signed 32-bit integer"))
   end)%res.

(** ** What is written is a number of the grammar *)

Lemma digit_char_digit d : 0 <= d < 10 -> is_digit (digit_char d) = true.
Proof.
  intros Hd. assert (d ∈ [0; 1; 2; 3; 4; 5; 6; 7; 8; 9]) as Hin.
  { rewrite !elem_of_cons. lia. }
  repeat (apply elem_of_cons in Hin as [->|Hin]; [reflexivity|]). by apply elem_of_nil in Hin.
Qed.

Lemma fixed_digits_digits n v : digits (fixed_digits n v).
Proof.
  revert v. induction n as [|n IH]; intros v; cbn; [constructor|]. apply Forall_app. split; [apply IH|].
  constructor; [|constructor]. apply digit_char_digit, Z.mod_pos_bound. lia.
Qed.

Lemma strip_zeros_digits l : digits l -> digits (strip_zeros l).
Proof.
  induction 1 as [|c l Hc _ IH]; cbn; [constructor|]. destruct (strip_zeros l).
  - destruct (is_char _ c); by repeat constructor.
  - by constructor.
Qed.

Lemma fraction_text_fraction l : digits l -> Fraction (fraction_text l).
Proof.
  intros H%strip_zeros_digits. unfold fraction_text. destruct (strip_zeros l); [constructor|]. by constructor.
Qed.

Lemma pretty_integer (n : Z) : 0 <= n -> Integer (txt (pretty n)).
Proof.
  intros Hn. rewrite pretty_nonneg by done. case_decide as Hz; [constructor|].
  destruct (pretty_digits (Z.to_N n) "") as (d & ds & -> & Hd & Hds); [lia|]. cbn. rewrite app_nil_r. by constructor.
Qed.

Lemma integer_digits i : Integer i -> digits i /\ i <> [].
Proof.
  intros [|d ds Hd Hds]; (split; [|done]); constructor; try done. unfold is_digit. lia.
Qed.

Lemma divide_even_nonneg n d : 0 <= n -> 0 < d -> 0 <= divide_even n d.
Proof.
  intros Hn Hd. pose proof (Z.div_pos n d Hn Hd). unfold divide_even.
  destruct (2 * (n mod d) ?= d); [destruct (Z.even (n / d))|..]; lia.
Qed.

Lemma scaled_nonneg n d k : 0 <= n -> 0 < d -> 0 <= scaled n d k.
Proof.
  intros Hn Hd. unfold scaled. destruct (Z.leb_spec 0 k); apply divide_even_nonneg; try done.
  - pose proof (Z.pow_nonneg 10 k). lia.
  - apply Z.mul_pos_pos; [done|]. apply Z.pow_pos_nonneg; lia.
Qed.

Lemma exponent_text x :
  Exponent ("e"%char :: (if x <? 0 then "-"%char else "+"%char) ::
    (if Z.abs x <? 10 then "0"%char :: txt (pretty (Z.abs x)) else txt (pretty (Z.abs x)))).
Proof.
  destruct (integer_digits _ (pretty_integer (Z.abs x) ltac:(lia))) as [Hd Hn].
  apply X_signed; [done|by destruct (x <? 0)|..]; destruct (Z.abs x <? 10); try done. by constructor.
Qed.

Lemma general_number p n d : 0 <= n -> 0 < d -> exists i f e, general p n d = app i (app f e) /\ Integer i /\ Fraction f /\ Exponent e.
Proof.
  intros Hn Hd. unfold general. set (x0 := decimal_exponent n d). pose proof (scaled_nonneg n d (p - 1 - x0) Hn Hd) as Hs.
  assert (exists digits x, 0 <= digits /\
    (if scaled n d (p - 1 - x0) =? 10 ^ p then (10 ^ (p - 1), x0 + 1) else (scaled n d (p - 1 - x0), x0)) = (digits, x))
    as (digits & x & Hdig & ->).
  { destruct (_ =? _); do 2 eexists; (split; [|reflexivity]); [|done]. apply Z.pow_nonneg. lia. }
  assert (forall unit, 0 <= unit -> 0 <= digits / unit) as Hq.
  { intros u Hu. destruct (Z.eq_dec u 0) as [->|]; [by rewrite Zdiv_0_r|]. apply Z.div_pos; lia. }
  destruct (_ && _); unfold positional, scientific.
  - exists (txt (pretty (digits / 10 ^ (p - 1 - x)))), (fraction_text (fixed_digits (Z.to_nat (p - 1 - x)) (digits mod 10 ^ (p - 1 - x)))), [].
    rewrite app_nil_r. split; [done|]. split; [apply pretty_integer, Hq, Z.pow_nonneg; lia|].
    split; [apply fraction_text_fraction, fixed_digits_digits|constructor].
  - do 3 eexists. split; [reflexivity|]. split; [apply pretty_integer, Hq, Z.pow_nonneg; lia|].
    split; [apply fraction_text_fraction, fixed_digits_digits|apply exponent_text].
Qed.

Lemma write_float_number p x : isfinite x = true -> Number (write_float p x).
Proof.
  destruct x as [s|s| |s m e]; try done; intros _; cbn [write_float].
  { destruct s; [apply (N_number ["-"%char] ["0"%char] [] [])|apply (N_number [] ["0"%char] [] [])]; constructor. }
  assert (exists i f e', (if 0 <=? e then general p (Zpos m * 2 ^ e) 1 else general p (Zpos m) (2 ^ (- e))) =
    app i (app f e') /\ Integer i /\ Fraction f /\ Exponent e') as (i & f & e' & -> & Hi & Hf & He).
  { destruct (Z.leb_spec 0 e); apply general_number; lia. }
  destruct s; [apply (N_number ["-"%char])|apply (N_number [])]; done || constructor.
Qed.

(** ** What is written is read back *)

(** Whether a float survives being written with [precision] digits, read as a [double]
    and narrowed. *)
Definition survives (precision : Z) (x : f32) : bool :=
  match from_chars_f64 (string_of_list_ascii (write_float precision x)) with
  | Some y => bool_decide (f32_of_f64 y = x)
  | None => false
  end.

Lemma survives_read precision x :
  survives precision x = true ->
  exists y, asDouble (JNumber (string_of_list_ascii (write_float precision x))) = Ok y /\
            asDouble (JString (string_of_list_ascii (write_float precision x))) = Ok y /\ f32_of_f64 y = x.
Proof.
  unfold survives, asDouble. destruct (from_chars_f64 _) as [y|]; [|done]. intros ?%bool_decide_eq_true. eauto.
Qed.

Definition small_integers : list Z := seqZ (-128) 256.
Lemma small_integers_read :
  forallb (fun z => match asInt32 (JNumber (pretty z)) "" with Ok n => n =? z | _ => false end) small_integers = true.
Proof. vm_compute. reflexivity. Qed.

Lemma asInt32_field v f g z : asInt32 v f = Ok z -> asInt32 v g = Ok z.
Proof.
  unfold asInt32. destruct (asDouble v) as [x|e|]; cbn; [|done..]. destruct (integral x) as [n|]; [|done].
  by destruct ((n <? _) || _).
Qed.

Lemma asInt32_pretty (z : Z) field : -128 <= z <= 127 -> asInt32 (JNumber (pretty z)) field = Ok z.
Proof.
  intros Hz. pose proof small_integers_read as H. rewrite forallb_forall in H.
  specialize (H z ltac:(apply list_elem_of_In, elem_of_seqZ; lia)).
  destruct (asInt32 (JNumber (pretty z)) "") as [n|e|] eqn:He; [|done..]. apply Z.eqb_eq in H as ->.
  by eapply asInt32_field.
Qed.

Lemma pretty_Z_number (z : Z) : Number (txt (pretty z)).
Proof.
  destruct (Z.le_gt_cases 0 z); [by apply pretty_number|]. destruct z as [|p|p]; [done|lia|].
  change (txt (pretty (Zneg p))) with (app ["-"%char] (txt (pretty (Zpos p)))).
  rewrite <- (app_nil_r (txt (pretty (Zpos p)))). apply (N_number ["-"%char] _ [] []); [constructor|apply pretty_integer; lia|constructor..].
Qed.

Lemma asSize_pretty (n : Z) field : is_u64 n -> asSize (JNumber (pretty n)) field = Ok n /\ asSize (JString (pretty n)) field = Ok n.
Proof. intros H. unfold asSize, asUInt64. by rewrite from_chars_pretty. Qed.
Lemma asUInt64_pretty (n : Z) : is_u64 n -> asUInt64 (JNumber (pretty n)) = Ok n.
Proof. intros H. unfold asUInt64. by rewrite from_chars_pretty. Qed.
Lemma asId_pretty (n : Z) field : is_u32 n -> asId (JNumber (pretty n)) field = Ok n.
Proof.
  intros H. unfold asId. rewrite asUInt64_pretty by (unfold is_u32, is_u64, u32_max, u64_max in *; lia). cbn.
  unfold is_u32 in H. by rewrite (proj2 (Z.ltb_ge u32_max n)) by lia.
Qed.
