(* ===== verification/Quantization.v ===== *)
(** * Quantization policies

    [src/tensor/quantization/Quantization.hpp] and [Quantization.cpp]. *)

From Stdlib Require Import SpecFloat.
From S2P Require Import Prelude Float Tensor.

Inductive QuantizedDType : Type := QINT8 | Q4 | Q8.

#[global] Instance QuantizedDType_eq_dec : EqDecision QuantizedDType.
Proof. solve_decision. Defined.

Record QuantizationParameters : Type := mkQuantization { scale : f32; zeroPoint : Z }.

Definition storageSizeBytes (s : Shape) (d : QuantizedDType) : result Z :=
  (throw_if (negb (shape_isContiguous s))
     (Exn InvalidArgument "packed quantized tensors require contiguous shapes") ;;?
   match d with
   | QINT8 | Q8 => Ok (elementCount s)
   | Q4 => Ok (elementCount s / 2 + elementCount s mod 2)
   end)%res.

Definition validateParameters (d : QuantizedDType) (p : QuantizationParameters) : result unit :=
  (throw_if (negb (isfinite (scale p)) || fle (scale p) f32_zero)
     (Exn InvalidArgument "quantization scale must be finite and positive") ;;?
   match d with
   | QINT8 | Q8 =>
       throw_if ((zeroPoint p <? -128) || (127 <? zeroPoint p))
         (Exn InvalidArgument "8-bit zero point is outside [-128, 127]")
   | Q4 =>
       throw_if ((zeroPoint p <? -8) || (7 <? zeroPoint p))
         (Exn InvalidArgument "Q4 zero point is outside [-8, 7]")
   end)%res.

Lemma validateParameters_int8 p u :
  validateParameters QINT8 p = Ok u ->
  isfinite (scale p) = true /\ fle (scale p) f32_zero = false /\ -128 <= zeroPoint p <= 127.
Proof.
  unfold validateParameters. destruct (isfinite (scale p)); [|done]. destruct (fle _ _); [done|]. cbn [negb orb throw_if res_bind].
  destruct (Z.ltb_spec (zeroPoint p) (-128)); [done|]. destruct (Z.ltb_spec 127 (zeroPoint p)); [done|]. lia.
Qed.
