(* ===== verification/Manifest.v ===== *)
(** * The model manifest

    [src/models/ModelManifest.hpp] and [ModelManifest.cpp]: the description of a
    converted model, and its validation; with the configuration types of
    [src/models/ModelConfig.hpp] and [src/models/runtime/ModelArchitecture.cpp].  A
    POSIX path is the text of its generic form. *)

From Stdlib Require Import String Ascii.
From stdpp Require Import strings.
From S2P Require Import Prelude Float Tiers Tensor Router Quantization.

#[local] Open Scope Z_scope.

(** ** Data *)

Inductive ModelArchitecture : Type := QWEN_MOE | DEEPSEEK_MOE | GLM_MOE | KIMI_MOE | MIXTRAL_MOE | UNKNOWN.
Definition architecture_toString (a : ModelArchitecture) : string :=
  match a with
  | QWEN_MOE => "QWEN_MOE" | DEEPSEEK_MOE => "DEEPSEEK_MOE" | GLM_MOE => "GLM_MOE"
  | KIMI_MOE => "KIMI_MOE" | MIXTRAL_MOE => "MIXTRAL_MOE" | UNKNOWN => "UNKNOWN"
  end.

Record ModelCapabilities : Type := mkCapabilities {
  routedExperts : bool;
  configurableTopK : bool;
  normalizedRouting : bool;
  gatedExpertMlp : bool;
  sharedExperts : bool;
  quantizedExpertWeights : bool;
}.
Record ModelConfig : Type := mkModelConfig {
  mc_modelName : string;
  mc_layerCount : Z;
  mc_expertCount : Z;
  mc_hiddenSize : Z;
  mc_intermediateSize : Z;
  mc_capabilities : ModelCapabilities;
}.

Module runtime.
(** The only normalization is RMSNorm; the record keeps its epsilon. *)
Record NormalizationConfiguration : Type := mkNormalization { epsilon : f32 }.

Record ModelArchitecture : Type := mkArchitecture {
  layerCount : Z;
  hiddenDimension : Z;
  attentionHeads : Z;
  keyValueHeads : Z;
  headDimension : Z;
  projectionHeadDimension : Z;
  expertCount : Z;
  topK : Z;
  vocabularySize : Z;
  tiedEmbeddings : bool;
  ropeTheta : f32;
  inputNormalization : NormalizationConfiguration;
  postAttentionNormalization : NormalizationConfiguration;
  finalNormalization : NormalizationConfiguration;
}.

Definition normalization_validate (n : NormalizationConfiguration) : result unit :=
  throw_if (negb (isfinite (epsilon n)) || fle (epsilon n) f32_zero)
    (Exn InvalidArgument "normalization kind or epsilon is invalid").

Definition validate (a : ModelArchitecture) : result unit :=
  (throw_if ((layerCount a =? 0) || (hiddenDimension a =? 0) || (attentionHeads a =? 0) ||
             (keyValueHeads a =? 0) || (headDimension a =? 0) || negb (headDimension a mod 2 =? 0) ||
             (expertCount a =? 0) || (topK a =? 0) || (expertCount a <? topK a) ||
             negb (attentionHeads a mod keyValueHeads a =? 0) ||
             (u64_max / headDimension a <? attentionHeads a) ||
             negb (isfinite (ropeTheta a)) || fle (ropeTheta a) f32_zero)
     (Exn InvalidArgument "model architecture dimensions are invalid") ;;?
   normalization_validate (inputNormalization a) ;;?
   normalization_validate (postAttentionNormalization a) ;;?
   normalization_validate (finalNormalization a))%res.
End runtime.

Inductive TensorLayout : Type := InputOutput | OutputInput.
Definition layout_toString (l : TensorLayout) : string :=
  match l with InputOutput => "INPUT_OUTPUT" | OutputInput => "OUTPUT_INPUT" end.

Record ManifestTensor : Type := mkManifestTensor {
  mt_name : string;
  mt_sourceFile : string;
  mt_offset : Z;
  mt_size : Z;
  mt_dtype : DType;
  mt_shape : Shape;
  mt_quantization : option QuantizationParameters;
}.
Record ProjectionLocation : Type := mkProjection {
  pl_tensorName : string;
  pl_offset : Z;
  pl_size : Z;
  pl_shape : Shape;
  pl_layout : TensorLayout;
}.
Record ManifestExpertMapping : Type := mkMapping {
  me_layerId : Z;
  me_expertId : Z;
  me_gate : ProjectionLocation;
  me_up : ProjectionLocation;
  me_down : ProjectionLocation;
}.
Record ManifestRouterTensor : Type := mkRouterTensor { mr_layerId : Z; mr_tensorName : string }.
Record ManifestRouter : Type := mkManifestRouter {
  ro_config : RouterConfig;
  ro_tensors : list ManifestRouterTensor;
  ro_layout : TensorLayout;
}.
Record ManifestTensorBinding : Type := mkBinding { mb_tensorName : string; mb_layout : TensorLayout }.
Record ManifestLayerMapping : Type := mkLayer {
  ml_layerId : Z;
  ml_queryProjection : ManifestTensorBinding;
  ml_keyProjection : ManifestTensorBinding;
  ml_valueProjection : ManifestTensorBinding;
  ml_outputProjection : ManifestTensorBinding;
  ml_inputNormTensor : string;
  ml_postAttentionNormTensor : string;
  ml_routerTensor : string;
  ml_queryNormTensor : string;
  ml_keyNormTensor : string;
}.
Record ManifestModelIO : Type := mkModelIO {
  io_tokenEmbeddingTensor : string;
  io_finalNormTensor : string;
  io_lmHead : ManifestTensorBinding;
  io_tiedEmbeddings : bool;
}.
Record ModelManifest : Type := mkManifest {
  mm_schema : string;
  mm_modelName : string;
  mm_architecture : ModelArchitecture;
  mm_sourceArchitecture : string;
  mm_parameterCount : Z;
  mm_config : ModelConfig;
  mm_runtimeArchitecture : option runtime.ModelArchitecture;
  mm_router : ManifestRouter;
  mm_tensors : list ManifestTensor;
  mm_experts : list ManifestExpertMapping;
  mm_layers : list ManifestLayerMapping;
  mm_modelIO : option ManifestModelIO;
}.

Definition schemaVersion : string := "hypermoe.model-manifest.v3".
Definition legacySchemaVersion : string := "hypermoe.model-manifest.v2".

(** ** Helpers *)

Notation invalid message := (Exn InvalidArgument message).
Definition is_empty (s : string) : bool := String.eqb s EmptyString.

Definition slash : ascii := "/"%char.
Fixpoint path_components (component : list ascii) (l : list ascii) : list (list ascii) :=
  match l with
  | [] => [component]
  | c :: l => if Ascii.eqb c slash then component :: path_components [] l
              else path_components (component ++ [c])%list l
  end.
Definition is_absolute (path : string) : bool :=
  match list_ascii_of_string path with c :: _ => Ascii.eqb c slash | [] => false end.
Definition climbs (path : string) : bool :=
  existsb (fun c => bool_decide (c = list_ascii_of_string "..")) (path_components [] (list_ascii_of_string path)).

Definition validatePath (path : string) : result unit :=
  (throw_if (is_empty path || is_absolute path)
     (invalid "manifest tensor source path must be relative") ;;?
   throw_if (climbs path)
     (invalid "manifest tensor source path escapes artifact root"))%res.

Definition manifest_requiredBytes (s : Shape) (d : DType) : result Z :=
  requiredBytes "manifest tensor size overflow" s d.

(** [manifest.findTensor], [findExpert] and [findLayer] *)
Definition findTensor (name : string) (m : ModelManifest) : option ManifestTensor :=
  list_find (fun t => mt_name t = name) (mm_tensors m) ≫= fun p => Some p.2.
Definition findExpert (layerId expertId : Z) (m : ModelManifest) : option ManifestExpertMapping :=
  list_find (fun e => me_layerId e = layerId /\ me_expertId e = expertId) (mm_experts m) ≫= fun p => Some p.2.
Definition findLayer (layerId : Z) (m : ModelManifest) : option ManifestLayerMapping :=
  list_find (fun l => ml_layerId l = layerId) (mm_layers m) ≫= fun p => Some p.2.

(** ** Validation *)

Section validation.
(** The order in which a hash table of counters is walked. *)
Variable walk : gmap Z Z -> list (Z * Z).

Definition validate_configuration (m : ModelManifest) : result unit :=
  let config := mm_config m in
  let router := mm_router m in
  (throw_if (negb (String.eqb (mm_schema m) schemaVersion) && negb (String.eqb (mm_schema m) legacySchemaVersion))
     (invalid "unsupported manifest schema") ;;?
   throw_if (is_empty (mm_modelName m) || is_empty (mm_sourceArchitecture m))
     (invalid "manifest model identity is incomplete") ;;?
   throw_if ((mc_layerCount config =? 0) || (mc_expertCount config =? 0) ||
             (mc_hiddenSize config =? 0) || (mc_intermediateSize config =? 0))
     (invalid "manifest model dimensions must be nonzero") ;;?
   config_validate (ro_config router) ;;?
   throw_if (negb (expertCount (ro_config router) =? mc_expertCount config))
     (invalid "manifest router expert count disagrees with model") ;;?
   match mm_runtimeArchitecture m with
   | None => Ok tt
   | Some a =>
       runtime.validate a ;;?
       throw_if (negb (runtime.layerCount a =? mc_layerCount config) ||
                 negb (runtime.hiddenDimension a =? mc_hiddenSize config) ||
                 negb (runtime.expertCount a =? mc_expertCount config) ||
                 negb (runtime.topK a =? topK (ro_config router)))
         (invalid "manifest runtime architecture disagrees with model configuration")
   end ;;?
   throw_if (bool_decide (mm_tensors m = []) || bool_decide (mm_experts m = []) ||
             bool_decide (ro_tensors router = []))
     (invalid "manifest must contain router and expert tensors"))%res.

Definition validate_tensor (t : ManifestTensor) : result unit :=
  (throw_if (is_empty (mt_name t) || (mt_size t =? 0))
     (invalid "manifest tensor identity or size is invalid") ;;?
   validatePath (mt_sourceFile t) ;;?
   throw_if (u64_max - mt_size t <? mt_offset t)
     (Exn OverflowError "manifest tensor byte range overflows") ;;?
   bytes <-? manifest_requiredBytes (mt_shape t) (mt_dtype t) ;;
   throw_if (negb (bytes =? mt_size t))
     (invalid "manifest tensor shape does not match byte size") ;;?
   match mt_dtype t, mt_quantization t with
   | INT8, None => Throw (invalid "INT8 manifest tensor is missing quantization metadata")
   | INT8, Some p => validateParameters QINT8 p
   | _, Some _ => Throw (invalid "non-INT8 manifest tensor has quantization metadata")
   | _, None => Ok tt
   end)%res.

Fixpoint validate_tensors (byName : gmap string ManifestTensor) (l : list ManifestTensor)
    : result (gmap string ManifestTensor) :=
  match l with
  | [] => Ok byName
  | t :: l =>
      (validate_tensor t ;;?
       match byName !! mt_name t with
       | Some _ => Throw (invalid "duplicate manifest tensor name")
       | None => validate_tensors (<[mt_name t := t]> byName) l
       end)%res
  end.

(** The router tensors; the result is the set of their layers. *)
Fixpoint validate_router (m : ModelManifest) (byName : gmap string ManifestTensor) (layers : gset Z)
    (l : list ManifestRouterTensor) : result (gset Z) :=
  let config := mm_config m in
  match l with
  | [] => Ok layers
  | t :: l =>
      (throw_if ((mc_layerCount config <=? mr_layerId t) || bool_decide (mr_layerId t ∈ layers))
         (invalid "manifest router layer is invalid or duplicated") ;;?
       match byName !! mr_tensorName t with
       | None => Throw (invalid "manifest router references an unknown tensor")
       | Some found =>
           expected <-? match ro_layout (mm_router m) with
                        | OutputInput => contiguousShape [mc_expertCount config; mc_hiddenSize config]
                        | InputOutput => contiguousShape [mc_hiddenSize config; mc_expertCount config]
                        end ;;
           throw_if (negb (bool_decide (mt_shape found = expected)))
             (invalid "manifest router tensor shape is incompatible") ;;?
           validate_router m byName ({[mr_layerId t]} ∪ layers) l
       end)%res
  end.

Definition expected_projection (config : ModelConfig) (layout : TensorLayout) (down : bool) : result Shape :=
  match layout with
  | OutputInput =>
      if down then contiguousShape [mc_hiddenSize config; mc_intermediateSize config]
      else contiguousShape [mc_intermediateSize config; mc_hiddenSize config]
  | InputOutput =>
      if down then contiguousShape [mc_intermediateSize config; mc_hiddenSize config]
      else contiguousShape [mc_hiddenSize config; mc_intermediateSize config]
  end.

Definition validateProjection (config : ModelConfig) (byName : gmap string ManifestTensor)
    (p : ProjectionLocation) (down : bool) : result unit :=
  match byName !! pl_tensorName p with
  | None => Throw (invalid "expert projection references an unknown tensor")
  | Some source =>
      (throw_if ((pl_size p =? 0) || (pl_offset p <? mt_offset source) ||
                 (u64_max - pl_size p <? pl_offset p) ||
                 (wrap64 (mt_offset source + mt_size source) <? wrap64 (pl_offset p + pl_size p)))
         (invalid "expert projection range escapes source tensor") ;;?
       bytes <-? manifest_requiredBytes (pl_shape p) (mt_dtype source) ;;
       throw_if (negb (bytes =? pl_size p))
         (invalid "expert projection shape does not match its bytes") ;;?
       expected <-? expected_projection config (pl_layout p) down ;;
       throw_if (negb (bool_decide (pl_shape p = expected)))
         (invalid "expert projection shape and layout are incompatible"))%res
  end.

(** What the loop over the experts has seen: their identities, how many each layer
    has, and whether any is quantized. *)
Record ExpertTally : Type := mkTally {
  identities : gset (Z * Z);
  expertsPerLayer : gmap Z Z;
  hasQuantizedExperts : bool;
}.

Definition one_dtype (byName : gmap string ManifestTensor) (e : ManifestExpertMapping) : option DType :=
  match byName !! pl_tensorName (me_gate e), byName !! pl_tensorName (me_up e), byName !! pl_tensorName (me_down e) with
  | Some g, Some u, Some d =>
      if bool_decide (mt_dtype g = mt_dtype u) && bool_decide (mt_dtype g = mt_dtype d) then Some (mt_dtype g) else None
  | _, _, _ => None
  end.

Fixpoint validate_experts (config : ModelConfig) (byName : gmap string ManifestTensor) (tally : ExpertTally)
    (l : list ManifestExpertMapping) : result ExpertTally :=
  match l with
  | [] => Ok tally
  | e :: l =>
      (throw_if ((mc_layerCount config <=? me_layerId e) || (mc_expertCount config <=? me_expertId e))
         (invalid "manifest expert identity is outside model bounds") ;;?
       throw_if (bool_decide ((me_layerId e, me_expertId e) ∈ identities tally))
         (invalid "duplicate manifest expert mapping") ;;?
       match one_dtype byName e with
       | None => Throw (invalid "expert projections must use one storage dtype")
       | Some d =>
           validateProjection config byName (me_gate e) false ;;?
           validateProjection config byName (me_up e) false ;;?
           validateProjection config byName (me_down e) true ;;?
           validate_experts config byName
             (mkTally ({[(me_layerId e, me_expertId e)]} ∪ identities tally)
                (<[me_layerId e := wrap64 (default 0 (expertsPerLayer tally !! me_layerId e) + 1)]> (expertsPerLayer tally))
                (hasQuantizedExperts tally || bool_decide (d = INT8))) l
       end)%res
  end.

Fixpoint validate_counts (config : ModelConfig) (routerLayers : gset Z) (l : list (Z * Z)) : result unit :=
  match l with
  | [] => Ok tt
  | (layer, count) :: l =>
      (throw_if (negb (count =? mc_expertCount config))
         (invalid "manifest MoE layer does not contain the declared expert count") ;;?
       throw_if (negb (bool_decide (layer ∈ routerLayers)))
         (invalid "manifest MoE layer has no router tensor") ;;?
       validate_counts config routerLayers l)%res
  end.

Definition validateBinding (byName : gmap string ManifestTensor) (b : ManifestTensorBinding) (input output : Z)
    : result unit :=
  (inputOutputShape <-? contiguousShape [input; output] ;;
   match byName !! mb_tensorName b with
   | None => Throw (invalid "transformer layer references an unknown projection tensor")
   | Some found =>
       expected <-? match mb_layout b with
                    | InputOutput => Ok inputOutputShape
                    | OutputInput => contiguousShape [output; input]
                    end ;;
       throw_if (negb (bool_decide (mt_shape found = expected)))
         (invalid "transformer projection shape and layout are incompatible")
   end)%res.

(** A pair of tensors that must exist and be vectors of one width. *)
Definition two_vectors (byName : gmap string ManifestTensor) (left right : string) (width : Z) (message : string)
    : result unit :=
  match byName !! left, byName !! right with
  | Some a, Some b =>
      (expected <-? contiguousShape [width] ;;
       throw_if (negb (bool_decide (mt_shape a = expected)) || negb (bool_decide (mt_shape b = expected)))
         (invalid message))%res
  | _, _ => Throw (invalid message)
  end.

Fixpoint validate_layers (m : ModelManifest) (a : runtime.ModelArchitecture) (byName : gmap string ManifestTensor)
    (mapped : gset Z) (l : list ManifestLayerMapping) : result unit :=
  let queryWidth := wrap64 (runtime.attentionHeads a * runtime.projectionHeadDimension a) in
  let keyValueWidth := wrap64 (runtime.keyValueHeads a * runtime.projectionHeadDimension a) in
  match l with
  | [] => Ok tt
  | layer :: l =>
      (throw_if ((runtime.layerCount a <=? ml_layerId layer) || bool_decide (ml_layerId layer ∈ mapped))
         (invalid "transformer layer mapping is invalid or duplicated") ;;?
       validateBinding byName (ml_queryProjection layer) (runtime.hiddenDimension a) queryWidth ;;?
       validateBinding byName (ml_keyProjection layer) (runtime.hiddenDimension a) keyValueWidth ;;?
       validateBinding byName (ml_valueProjection layer) (runtime.hiddenDimension a) keyValueWidth ;;?
       validateBinding byName (ml_outputProjection layer) queryWidth (runtime.hiddenDimension a) ;;?
       throw_if (negb (Bool.eqb (is_empty (ml_queryNormTensor layer)) (is_empty (ml_keyNormTensor layer))))
         (invalid "transformer Q/K normalization mappings must form a pair") ;;?
       (if is_empty (ml_queryNormTensor layer) then Ok tt
        else two_vectors byName (ml_queryNormTensor layer) (ml_keyNormTensor layer) (runtime.projectionHeadDimension a)
               "transformer Q/K normalization mapping is incompatible") ;;?
       two_vectors byName (ml_inputNormTensor layer) (ml_postAttentionNormTensor layer) (runtime.hiddenDimension a)
         "transformer normalization mapping is incompatible" ;;?
       throw_if (negb (existsb (fun t => (mr_layerId t =? ml_layerId layer) &&
                                         String.eqb (mr_tensorName t) (ml_routerTensor layer))
                         (ro_tensors (mm_router m))))
         (invalid "transformer layer router mapping disagrees with router manifest") ;;?
       validate_layers m a byName ({[ml_layerId layer]} ∪ mapped) l)%res
  end.

Definition validate_modelIO (m : ModelManifest) (byName : gmap string ManifestTensor) (io : ManifestModelIO)
    : result unit :=
  match mm_runtimeArchitecture m with
  | None => Throw (invalid "manifest model I/O configuration is incomplete")
  | Some a =>
      (throw_if ((runtime.vocabularySize a =? 0) || is_empty (io_tokenEmbeddingTensor io) ||
                 is_empty (io_finalNormTensor io) || is_empty (mb_tensorName (io_lmHead io)) ||
                 negb (Bool.eqb (io_tiedEmbeddings io) (runtime.tiedEmbeddings a)))
         (invalid "manifest model I/O configuration is incomplete") ;;?
       embeddingShape <-? contiguousShape [runtime.vocabularySize a; runtime.hiddenDimension a] ;;
       lmHeadShape <-? match mb_layout (io_lmHead io) with
                       | InputOutput => contiguousShape [runtime.hiddenDimension a; runtime.vocabularySize a]
                       | OutputInput => Ok embeddingShape
                       end ;;
       match byName !! io_tokenEmbeddingTensor io, byName !! io_finalNormTensor io,
             byName !! mb_tensorName (io_lmHead io) with
       | Some embedding, Some finalNorm, Some lmHead =>
           throw_if (negb (bool_decide (mt_shape embedding = embeddingShape)))
             (invalid "manifest model I/O tensor shape is incompatible") ;;?
           normShape <-? contiguousShape [runtime.hiddenDimension a] ;;
           throw_if (negb (bool_decide (mt_shape finalNorm = normShape)) ||
                     negb (bool_decide (mt_shape lmHead = lmHeadShape)))
             (invalid "manifest model I/O tensor shape is incompatible")
       | _, _, _ => Throw (invalid "manifest model I/O tensor shape is incompatible")
       end ;;?
       throw_if (io_tiedEmbeddings io &&
                 (negb (String.eqb (io_tokenEmbeddingTensor io) (mb_tensorName (io_lmHead io))) ||
                  match mb_layout (io_lmHead io) with OutputInput => false | InputOutput => true end))
         (invalid "tied embeddings must share one vocabulary-by-hidden tensor"))%res
  end.

Definition validate (m : ModelManifest) : result unit :=
  (validate_configuration m ;;?
   byName <-? validate_tensors ∅ (mm_tensors m) ;;
   routerLayers <-? validate_router m byName ∅ (ro_tensors (mm_router m)) ;;
   tally <-? validate_experts (mm_config m) byName (mkTally ∅ ∅ false) (mm_experts m) ;;
   validate_counts (mm_config m) routerLayers (walk (expertsPerLayer tally)) ;;?
   throw_if (negb (bool_decide (set_Forall (fun layer => is_Some (expertsPerLayer tally !! layer)) routerLayers)))
     (invalid "manifest router layer has no expert mappings") ;;?
   throw_if (negb (Bool.eqb (quantizedExpertWeights (mc_capabilities (mm_config m))) (hasQuantizedExperts tally)))
     (invalid "manifest quantized expert capability disagrees with expert tensors") ;;?
   match mm_layers m with
   | [] => Ok tt
   | layers =>
       match mm_runtimeArchitecture m with
       | None => Throw (invalid "manifest runtime architecture must map every transformer layer")
       | Some a =>
           throw_if (negb (Z.of_nat (length layers) =? runtime.layerCount a))
             (invalid "manifest runtime architecture must map every transformer layer") ;;?
           validate_layers m a byName ∅ layers
       end
   end ;;?
   match mm_modelIO m with None => Ok tt | Some io => validate_modelIO m byName io end)%res.

(** [ModelArchitecture::fromManifest]; the defaults are those of the struct. *)
Definition default_normalization : runtime.NormalizationConfiguration :=
  runtime.mkNormalization (f32_of_f64 (f64_lit 1 1000000)).
Definition fromManifest (m : ModelManifest) : result runtime.ModelArchitecture :=
  (validate m ;;?
   let config := mm_config m in
   let a := match mm_runtimeArchitecture m with
            | Some a => a
            | None =>
                runtime.mkArchitecture (mc_layerCount config) (mc_hiddenSize config) 1 1 (mc_hiddenSize config) 0
                  (mc_expertCount config) (topK (ro_config (mm_router m))) 0 false (f32_of_Z 10000)
                  default_normalization default_normalization default_normalization
            end in
   runtime.validate a ;;?
   throw_if (negb (runtime.layerCount a =? mc_layerCount config) ||
             negb (runtime.hiddenDimension a =? mc_hiddenSize config) ||
             negb (runtime.expertCount a =? mc_expertCount config) ||
             negb (runtime.topK a =? topK (ro_config (mm_router m))))
     (invalid "runtime architecture disagrees with manifest model dimensions") ;;?
   Ok a)%res.
End validation.

(** ** What a validated manifest is *)

(** The values the C++ types can hold. *)
Record manifest_typed (m : ModelManifest) : Prop := ManifestTyped {
  ty_tensors : Forall (fun t => is_u64 (mt_offset t) /\ is_u64 (mt_size t) /\ shape_wf (mt_shape t)) (mm_tensors m);
  ty_experts : Forall (fun e => is_u32 (me_layerId e) /\ is_u32 (me_expertId e) /\
    Forall (fun p => is_u64 (pl_offset p) /\ is_u64 (pl_size p)) [me_gate e; me_up e; me_down e]) (mm_experts m);
  ty_config : Forall is_u64 [mc_layerCount (mm_config m); mc_expertCount (mm_config m);
    mc_hiddenSize (mm_config m); mc_intermediateSize (mm_config m)];
}.

Record tensor_ok (t : ManifestTensor) : Prop := TensorOk {
  to_name : mt_name t <> EmptyString;
  to_path : is_absolute (mt_sourceFile t) = false /\ climbs (mt_sourceFile t) = false;
  to_bytes : mt_size t = storageElementCount (mt_shape t) * dtype_sizeOf (mt_dtype t);
  to_range : 0 < mt_size t /\ mt_offset t + mt_size t <= u64_max;
  to_quantized : is_Some (mt_quantization t) <-> mt_dtype t = INT8;
}.

Definition named (m : ModelManifest) (name : string) (t : ManifestTensor) : Prop := t ∈ mm_tensors m /\ mt_name t = name.

(** A projection of an expert: a matrix of the right shape inside its tensor. *)
Definition projection_dims (config : ModelConfig) (layout : TensorLayout) (down : bool) : list Z :=
  let hidden := mc_hiddenSize config in
  let intermediate := mc_intermediateSize config in
  match layout, down with
  | OutputInput, true | InputOutput, false => [hidden; intermediate]
  | OutputInput, false | InputOutput, true => [intermediate; hidden]
  end.
Record projection_ok (m : ModelManifest) (t : ManifestTensor) (p : ProjectionLocation) (down : bool) : Prop := ProjectionOk {
  po_named : named m (pl_tensorName p) t;
  po_inside : mt_offset t <= pl_offset p /\ pl_offset p + pl_size p <= mt_offset t + mt_size t;
  po_dims : dimensions (pl_shape p) = projection_dims (mm_config m) (pl_layout p) down;
  po_size : pl_size p = product (dimensions (pl_shape p)) * dtype_sizeOf (mt_dtype t);
}.
Definition expert_ok (m : ModelManifest) (e : ManifestExpertMapping) : Prop :=
  me_layerId e < mc_layerCount (mm_config m) /\ me_expertId e < mc_expertCount (mm_config m) /\
  exists g u d, projection_ok m g (me_gate e) false /\ projection_ok m u (me_up e) false /\
    projection_ok m d (me_down e) true /\ mt_dtype u = mt_dtype g /\ mt_dtype d = mt_dtype g.

Definition identity_of (e : ManifestExpertMapping) : Z * Z := (me_layerId e, me_expertId e).

Record manifest_wf (m : ModelManifest) : Prop := ManifestWf {
  mw_tensors : Forall tensor_ok (mm_tensors m);
  mw_names : NoDup (mt_name <$> mm_tensors m);
  mw_routers : NoDup (mr_layerId <$> ro_tensors (mm_router m)) /\
    Forall (fun r => mr_layerId r < mc_layerCount (mm_config m) /\
      exists t, named m (mr_tensorName r) t /\
        dimensions (mt_shape t) = match ro_layout (mm_router m) with
                                  | OutputInput => [mc_expertCount (mm_config m); mc_hiddenSize (mm_config m)]
                                  | InputOutput => [mc_hiddenSize (mm_config m); mc_expertCount (mm_config m)]
                                  end) (ro_tensors (mm_router m));
  mw_experts : Forall (expert_ok m) (mm_experts m);
  mw_identities : NoDup (identity_of <$> mm_experts m);
  (** A layer is routed exactly when it has experts, and then it has them all. *)
  mw_layers layer : (exists e, e ∈ mm_experts m /\ me_layerId e = layer) <-> layer ∈ mr_layerId <$> ro_tensors (mm_router m);
  mw_complete layer expert :
    layer ∈ mr_layerId <$> ro_tensors (mm_router m) -> 0 <= expert < mc_expertCount (mm_config m) ->
    exists e, e ∈ mm_experts m /\ identity_of e = (layer, expert);
}.

Lemma bind_ok {A B} (m : result A) (k : A -> result B) b :
  res_bind m k = Ok b -> exists a, m = Ok a /\ k a = Ok b.
Proof. destruct m; try done. eauto. Qed.

Lemma shape_dims dims s : contiguousShape dims = Ok s -> dimensions s = dims.
Proof. unfold contiguousShape. intros (count & _ & Hs)%bind_ok. by simplify_eq. Qed.

Ltac checks :=
  repeat match goal with
    | H : res_bind _ _ = Ok _ |- _ =>
        let x := fresh "x" in let Hx := fresh "Hx" in apply bind_ok in H as (x & Hx & H)
    | H : throw_if _ _ = Ok _ |- _ => apply throw_if_ok in H
    | H : negb _ = false |- _ => apply negb_false_iff in H
    | H : _ || _ = false |- _ => apply orb_false_iff in H as [? ?]
    | H : bool_decide _ = true |- _ => apply bool_decide_eq_true in H
    | H : bool_decide _ = false |- _ => apply bool_decide_eq_false in H
    | H : (_ =? _) = true |- _ => apply Z.eqb_eq in H
    | H : (_ =? _) = false |- _ => apply Z.eqb_neq in H
    | H : (_ <? _) = false |- _ => apply Z.ltb_ge in H
    | H : (_ <=? _) = false |- _ => apply Z.leb_gt in H
    end.

Lemma validate_tensor_ok t u :
  is_u64 (mt_offset t) -> is_u64 (mt_size t) -> shape_wf (mt_shape t) -> validate_tensor t = Ok u -> tensor_ok t.
Proof.
  intros Ho Hz Hs H. unfold validate_tensor, validatePath, manifest_requiredBytes in H. checks.
  match goal with Hx : requiredBytes _ _ _ = Ok _ |- _ => apply requiredBytes_spec in Hx; [|done] end.
  unfold is_empty, is_u64 in *. constructor.
  - by apply String.eqb_neq.
  - done.
  - lia.
  - lia.
  - destruct (mt_dtype t), (mt_quantization t); done.
Qed.

Lemma validate_tensors_spec l : forall byName byName',
  Forall (fun t => is_u64 (mt_offset t) /\ is_u64 (mt_size t) /\ shape_wf (mt_shape t)) l ->
  validate_tensors byName l = Ok byName' ->
  Forall tensor_ok l /\ NoDup (mt_name <$> l) /\ (forall t, t ∈ l -> byName !! mt_name t = None) /\
  (forall name t, byName' !! name = Some t <-> byName !! name = Some t \/ (t ∈ l /\ mt_name t = name)).
Proof.
  induction l as [|t l IH]; intros byName byName' Ht H; cbn in H.
  { simplify_eq. split_and!; [done|constructor|by intros ? ?%not_elem_of_nil|]. intros. rewrite elem_of_nil. tauto. }
  apply Forall_cons in Ht as [(Ho & Hz & Hs) Hl]. apply bind_ok in H as (u & Hv & H).
  apply validate_tensor_ok in Hv; [|done..]. destruct (byName !! mt_name t) eqn:Hn; [done|].
  apply IH in H as (H1 & H2 & H3 & H4); [|done].
  assert (mt_name t ∉ mt_name <$> l) as Hni.
  { intros (t' & Heq & Ht')%list_elem_of_fmap. specialize (H3 _ Ht'). rewrite <- Heq, lookup_insert_eq in H3. done. }
  split_and!.
  - by constructor.
  - cbn. by constructor.
  - intros t' [->|Ht']%elem_of_cons; [done|]. specialize (H3 _ Ht'). by apply lookup_insert_None in H3 as [? _].
  - intros name t'. rewrite H4, elem_of_cons. split.
    + intros [[[<- <-]|[? ?]]%lookup_insert_Some|[? ?]]; tauto.
    + intros [Hb|[[->|Ht'] <-]]; [left; rewrite lookup_insert_ne; [done|congruence]|left; apply lookup_insert_eq|by right].
Qed.

Section specification.
Variable m : ModelManifest.
Hypothesis Hm : manifest_typed m.
Variable byName : gmap string ManifestTensor.
Hypothesis Hnames : forall name t, byName !! name = Some t <-> named m name t.

Lemma validate_router_spec l : forall layers layers',
  validate_router m byName layers l = Ok layers' ->
  layers' = list_to_set (mr_layerId <$> l) ∪ layers /\ NoDup (mr_layerId <$> l) /\
  (forall r, r ∈ l -> mr_layerId r ∉ layers) /\
  Forall (fun r => mr_layerId r < mc_layerCount (mm_config m) /\
    exists t, named m (mr_tensorName r) t /\
      dimensions (mt_shape t) = match ro_layout (mm_router m) with
                                | OutputInput => [mc_expertCount (mm_config m); mc_hiddenSize (mm_config m)]
                                | InputOutput => [mc_hiddenSize (mm_config m); mc_expertCount (mm_config m)]
                                end) l.
Proof.
  induction l as [|r l IH]; intros layers layers' H; cbn in H.
  { simplify_eq. split_and!; [set_solver|constructor|by intros ? ?%not_elem_of_nil|done]. }
  apply bind_ok in H as (? & Hc & H). checks.
  destruct (byName !! mr_tensorName r) as [t|] eqn:Ht; [|done]. checks. apply Hnames in Ht.
  apply IH in H as (-> & Hnd & Hnew & Hall). split_and!.
  - cbn. set_solver.
  - cbn. constructor; [|done]. intros (r' & Heq & Hr')%list_elem_of_fmap. apply (Hnew _ Hr'). set_solver.
  - intros r' [->|Hr']%elem_of_cons; [done|]. specialize (Hnew _ Hr'). set_solver.
  - constructor; [|done]. split; [done|]. exists t. split; [done|].
    match goal with H : mt_shape t = _ |- _ => rewrite H end. by destruct (ro_layout _); apply shape_dims.
Qed.

Lemma validateProjection_spec p down u :
  is_u64 (pl_offset p) -> is_u64 (pl_size p) -> validateProjection (mm_config m) byName p down = Ok u ->
  exists t, byName !! pl_tensorName p = Some t /\ (tensor_ok t -> projection_ok m t p down).
Proof.
  intros Ho Hz H. unfold validateProjection in H. destruct (byName !! pl_tensorName p) as [t|] eqn:Ht; [|done].
  apply Hnames in Ht as Hnamed. unfold manifest_requiredBytes, expected_projection in H. checks.
  exists t. split; [done|]. intros [_ _ _ Hr _]. unfold is_u64 in *.
  assert (0 <= mt_offset t) as Hot.
  { pose proof (ty_tensors m Hm) as Hall. rewrite Forall_forall in Hall. destruct (Hall t (proj1 Hnamed)) as ([? ?] & _). done. }
  rewrite !wrap64_small in * by (unfold is_u64; lia).
  assert (forall a b s, is_u64 a -> is_u64 b -> contiguousShape [a; b] = Ok s ->
    shape_wf s /\ dimensions s = [a; b] /\ storageElementCount s = product (dimensions s)) as Hshape.
  { intros a b s Ha Hb Hs. pose proof (contiguousShape_spec [a; b] ltac:(by rewrite !Forall_cons)) as Hsp.
    rewrite Hs in Hsp. destruct Hsp as (? & -> & _ & -> & ->). done. }
  pose proof (ty_config m Hm) as Hcfg. rewrite !Forall_cons in Hcfg. destruct Hcfg as (_ & _ & Hh & Hi & _).
  assert (shape_wf (pl_shape p) /\ dimensions (pl_shape p) = projection_dims (mm_config m) (pl_layout p) down /\
    storageElementCount (pl_shape p) = product (dimensions (pl_shape p))) as (Hwf & Hd & Hst).
  { match goal with H : pl_shape p = _ |- _ => rewrite H end.
    unfold projection_dims. destruct (pl_layout p), down; (eapply Hshape; [..|eassumption]; done). }
  match goal with Hx : requiredBytes _ _ _ = Ok _ |- _ => apply requiredBytes_spec in Hx; [|done] end.
  constructor; [done|lia|done|]. rewrite <- Hst. lia.
Qed.

Definition in_layer (layer : Z) (l : list ManifestExpertMapping) : list ManifestExpertMapping :=
  filter (fun e => me_layerId e = layer) l.
Lemma in_layer_cons layer e l :
  in_layer layer (e :: l) = if decide (me_layerId e = layer) then e :: in_layer layer l else in_layer layer l.
Proof. done. Qed.
Definition typed_expert (e : ManifestExpertMapping) : Prop :=
  Forall (fun p => is_u64 (pl_offset p) /\ is_u64 (pl_size p)) [me_gate e; me_up e; me_down e].

Lemma one_dtype_spec e d :
  one_dtype byName e = Some d ->
  exists g u w, byName !! pl_tensorName (me_gate e) = Some g /\ byName !! pl_tensorName (me_up e) = Some u /\
    byName !! pl_tensorName (me_down e) = Some w /\ mt_dtype g = d /\ mt_dtype u = d /\ mt_dtype w = d.
Proof.
  unfold one_dtype. destruct (byName !! _) as [g|]; [|done]. destruct (byName !! _) as [u|]; [|done].
  destruct (byName !! _) as [w|]; [|done]. repeat case_bool_decide; try done. intros [= <-]. exists g, u, w. by split_and!.
Qed.

Lemma validate_experts_spec (Htensors : Forall tensor_ok (mm_tensors m)) l : forall tally tally',
  Forall typed_expert l -> validate_experts (mm_config m) byName tally l = Ok tally' ->
  Forall (expert_ok m) l /\ NoDup (identity_of <$> l) /\
  (forall e, e ∈ l -> identity_of e ∉ identities tally) /\
  (forall layer, is_Some (expertsPerLayer tally' !! layer) <->
     is_Some (expertsPerLayer tally !! layer) \/ exists e, e ∈ l /\ me_layerId e = layer) /\
  (forall layer, wrap64 (default 0 (expertsPerLayer tally' !! layer)) =
     wrap64 (default 0 (expertsPerLayer tally !! layer) + Z.of_nat (length (in_layer layer l)))).
Proof.
  induction l as [|e l IH]; intros tally tally' Hl H; cbn in H.
  { simplify_eq. split_and!; [done|constructor|by intros ? ?%not_elem_of_nil| |].
    - intros layer. split; [by left|]. intros [?|(e & []%not_elem_of_nil & _)]. done.
    - intros layer. cbn. by rewrite Z.add_0_r. }
  apply Forall_cons in Hl as [He Hl]. checks. destruct (one_dtype byName e) as [d|] eqn:Hd; [|done]. checks.
  apply IH in H as (A1 & A2 & A3 & A4 & A5); [|done]. cbn [identities expertsPerLayer] in *.
  apply one_dtype_spec in Hd as (g & u & w & Hg & Hu & Hw & Dg & Du & Dw).
  unfold typed_expert in He. rewrite !Forall_cons in He. destruct He as ([Og Zg] & [Ou Zu] & [Ow Zw] & _).
  repeat match goal with Hp : validateProjection _ _ _ _ = Ok _ |- _ =>
    apply validateProjection_spec in Hp as (? & ? & ?); [|done..] end.
  rewrite Forall_forall in Htensors.
  assert (forall n t, byName !! n = Some t -> tensor_ok t) as Hok by (intros n t Ht%Hnames; apply Htensors, Ht).
  simplify_eq. split_and!.
  - constructor; [|done]. split; [done|]. split; [done|]. exists g, u, w. split_and!; eauto; congruence.
  - cbn. constructor; [|done]. intros (e' & Heq & He')%list_elem_of_fmap. apply (A3 _ He'). rewrite <- Heq. set_solver.
  - intros e' [->|He']%elem_of_cons; [done|]. specialize (A3 _ He'). set_solver.
  - intros layer. rewrite A4, lookup_insert_is_Some. setoid_rewrite elem_of_cons. split.
    + intros [[<-|[_ ?]]|(e' & ? & ?)]; eauto 6.
    + intros [?|(e' & [->|?] & <-)]; [|by left; left|by eauto]. left.
      destruct (decide (me_layerId e = layer)); [by left|by right].
  - intros layer. rewrite A5, in_layer_cons, lookup_insert.
    destruct (decide (me_layerId e = layer)) as [<-|]; [|done]. cbn [default from_option id length].
    rewrite Nat2Z.inj_succ. unfold wrap64. rewrite Zplus_mod_idemp_l. f_equal. lia.
Qed.
End specification.

Lemma validate_counts_spec config routers l u :
  validate_counts config routers l = Ok u ->
  Forall (fun p => p.2 = mc_expertCount config /\ p.1 ∈ routers) l.
Proof.
  induction l as [|[layer count] l IH]; [done|]. cbn. intros H. checks. constructor; [done|by apply IH].
Qed.

(** A layer with as many experts as there are identifiers has every one. *)
Lemma full_layer layer n (l : list ManifestExpertMapping) expert :
  NoDup (identity_of <$> l) -> Forall (fun e => 0 <= me_expertId e < n) l -> n <= u32_max ->
  wrap64 (Z.of_nat (length (in_layer layer l))) = n -> 0 <= expert < n ->
  exists e, e ∈ l /\ identity_of e = (layer, expert).
Proof.
  intros Hnd Hl Hn Hc He. set (ids := me_expertId <$> in_layer layer l).
  assert (NoDup ids) as Hids.
  { assert (forall k : list ManifestExpertMapping, NoDup (identity_of <$> k) ->
      NoDup (me_expertId <$> in_layer layer k)) as Hgen; [|by apply Hgen].
    intros k. induction k as [|e k IH]; [constructor|]. rewrite fmap_cons, NoDup_cons. intros [Hni Hk].
    rewrite in_layer_cons. case_decide as Hdec; [|by apply IH]. rewrite fmap_cons. constructor; [|by apply IH].
    intros (e' & Heq & [Hl' Hin]%list_elem_of_filter)%list_elem_of_fmap. apply Hni, list_elem_of_fmap.
    exists e'. split; [|done]. unfold identity_of. congruence. }
  assert (ids ⊆+ seqZ 0 n) as Hsub.
  { apply NoDup_submseteq; [done|]. intros x (e & -> & [_ Hin]%list_elem_of_filter)%list_elem_of_fmap.
    rewrite Forall_forall in Hl. specialize (Hl _ Hin). apply elem_of_seqZ. lia. }
  pose proof (submseteq_length _ _ Hsub) as Hlen. rewrite length_seqZ in Hlen.
  assert (length ids = length (in_layer layer l)) as Hli by apply length_fmap.
  rewrite wrap64_small in Hc by (unfold is_u64, u64_max, u32_max in *; lia).
  assert (expert ∈ ids) as (e & -> & [Hlay Hin]%list_elem_of_filter)%list_elem_of_fmap.
  { rewrite (submseteq_length_Permutation _ _ Hsub); [apply elem_of_seqZ; lia|]. rewrite length_seqZ. lia. }
  exists e. split; [done|]. unfold identity_of. by rewrite Hlay.
Qed.

(** C10: A manifest that passes validation describes a whole model: its tensors have
    distinct names, relative paths and byte ranges that fit their shapes and no 64-bit
    overflow; every projection of every expert is a matrix of the right shape lying
    inside its tensor; a layer is routed exactly when it has experts, through a router
    matrix of the right shape, and then it has exactly one mapping for every expert of
    the model. *)
Theorem validated_manifest (walk : gmap Z Z -> list (Z * Z)) m
    (Hwalk : forall c, walk c ≡ₚ map_to_list c) (Hm : manifest_typed m) (Hv : validate walk m = Ok tt) :
  manifest_wf m.
Proof.
  unfold validate in Hv. apply bind_ok in Hv as ([] & Hconf & Hv). apply bind_ok in Hv as (byName & Ht & Hv).
  apply bind_ok in Hv as (routers & Hr & Hv). apply bind_ok in Hv as (tally & Hx & Hv).
  apply bind_ok in Hv as ([] & Hc & Hv). apply bind_ok in Hv as ([] & Hset & _). checks.
  apply validate_tensors_spec in Ht as (Htok & Hnames & _ & Hby); [|apply Hm].
  assert (forall name t, byName !! name = Some t <-> named m name t) as Hlook.
  { intros name t. rewrite Hby, lookup_empty. unfold named. naive_solver. }
  apply (validate_router_spec m Hm byName Hlook) in Hr as (-> & Hrnd & _ & Hrok). rewrite (right_id_L ∅ (∪)) in *.
  pose proof (ty_experts m Hm) as Hte. apply (validate_experts_spec m Hm byName Hlook Htok) in Hx as
    (Heok & Hend & _ & Hsome & Hcount); [|eapply Forall_impl; [exact Hte|]; by intros e (? & ? & ?)].
  cbn [expertsPerLayer] in *.
  assert (forall layer, is_Some (expertsPerLayer tally !! layer) <-> exists e, e ∈ mm_experts m /\ me_layerId e = layer) as Hlay.
  { intros layer. rewrite Hsome, lookup_empty, is_Some_alt. naive_solver. }
  apply validate_counts_spec in Hc. rewrite Forall_forall in Hc.
  assert (forall layer c, expertsPerLayer tally !! layer = Some c -> c = mc_expertCount (mm_config m) /\
    layer ∈ mr_layerId <$> ro_tensors (mm_router m)) as Hcounts.
  { intros layer c Hl. destruct (Hc (layer, c)) as [H1 H2]; [by rewrite Hwalk, elem_of_map_to_list|].
    split; [done|]. by apply elem_of_list_to_set in H2. }
  assert (forall layer, (exists e, e ∈ mm_experts m /\ me_layerId e = layer) <->
    layer ∈ mr_layerId <$> ro_tensors (mm_router m)) as Hlayers.
  { intros layer. rewrite <- Hlay. split; [intros [c ?]; by eapply Hcounts|]. intros Hin.
    by apply Hset, elem_of_list_to_set. }
  constructor; try done. intros layer expert Hin Hex. apply Hlayers in Hin as Hin'. apply Hlay in Hin' as [c Hl].
  apply (full_layer layer (mc_expertCount (mm_config m))); [done| | |..|done].
  - apply Forall_forall. intros e He. rewrite Forall_forall in Heok, Hte. destruct (Heok _ He) as (_ & ? & _).
    destruct (Hte _ He) as (_ & [? _] & _). lia.
  - unfold validate_configuration, config_validate in Hconf. checks. lia.
  - specialize (Hcount layer). rewrite Hl, lookup_empty, Z.add_0_l in Hcount. cbn in Hcount.
    rewrite <- Hcount. destruct (Hcounts _ _ Hl) as [-> _]. apply wrap64_small.
    pose proof (ty_config m Hm) as Hcfg. rewrite !Forall_cons in Hcfg. apply Hcfg.
Qed.
