(* ===== verification/ManifestJson.v ===== *)
(** * The manifest file

    [ModelManifest::toJson] and [load] of [src/models/ModelManifest.cpp], over the JSON
    reader, and what survives being saved and loaded. *)

From Stdlib Require Import String Ascii.
From stdpp Require Import strings pretty.
From S2P Require Import Prelude Float Tiers Json JsonGrammar Decimal Tensor Router Quantization Manifest.

#[local] Open Scope Z_scope.

(** ** Writing *)

(** A literal of the source, with an apostrophe for each escaped quotation mark. *)
Definition js (s : string) : text := (fun c => if Ascii.eqb c "'"%char then quote else c) <$> txt s.
Definition nl : text := ["010"%char].
Definition number (n : Z) : text := txt (pretty n).
Definition bool_text (b : bool) : text := if b then js "true" else js "false".

(** [for (index ...) { if (index != 0) output << ','; write }] *)
Fixpoint commas {A} (write : A -> text) (l : list A) : text :=
  match l with
  | [] => []
  | [x] => write x
  | x :: l => write x ++ js "," ++ commas write l
  end.
(** [for (index ...) { write; output << (index + 1 == size ? newline : comma and newline); }] *)
Fixpoint lines {A} (write : A -> text) (l : list A) : text :=
  match l with
  | [] => []
  | [x] => write x ++ nl
  | x :: l => write x ++ js "," ++ nl ++ lines write l
  end.

Definition writeShape (s : Shape) : text := js "[" ++ commas number (dimensions s) ++ js "]".

Definition writeProjection (p : ProjectionLocation) : text :=
  js "{'tensor':'" ++ escapeJson (pl_tensorName p) ++ js "','offset':" ++ number (pl_offset p) ++
  js ",'size':" ++ number (pl_size p) ++ js ",'shape':" ++ writeShape (pl_shape p) ++
  js ",'layout':'" ++ txt (layout_toString (pl_layout p)) ++ js "'}".

Definition writeBinding (b : ManifestTensorBinding) : text :=
  js "{'tensor':'" ++ escapeJson (mb_tensorName b) ++ js "','layout':'" ++ txt (layout_toString (mb_layout b)) ++ js "'}".

Definition write_capabilities (c : ModelCapabilities) : text :=
  js "{'routed_experts':" ++ bool_text (routedExperts c) ++
  js ",'configurable_top_k':" ++ bool_text (configurableTopK c) ++
  js ",'normalized_routing':" ++ bool_text (normalizedRouting c) ++
  js ",'gated_expert_mlp':" ++ bool_text (gatedExpertMlp c) ++
  js ",'shared_experts':" ++ bool_text (sharedExperts c) ++
  js ",'quantized_expert_weights':" ++ bool_text (quantizedExpertWeights c) ++ js "}".

(** The stream's default precision is six digits. *)
Definition write_runtime (a : runtime.ModelArchitecture) : text :=
  js "{'attention_heads':" ++ number (runtime.attentionHeads a) ++
  js ",'key_value_heads':'" ++ number (runtime.keyValueHeads a) ++
  js "','head_dimension':'" ++ number (runtime.headDimension a) ++
  js "','projection_head_dimension':'" ++ number (runtime.projectionHeadDimension a) ++
  js "','vocabulary_size':'" ++ number (runtime.vocabularySize a) ++
  js "','tied_embeddings':'" ++ bool_text (runtime.tiedEmbeddings a) ++
  js "','rope_theta':'" ++ write_float 6 (runtime.ropeTheta a) ++
  js "','input_norm_epsilon':'" ++ write_float 6 (runtime.epsilon (runtime.inputNormalization a)) ++
  js "','post_attention_norm_epsilon':'" ++ write_float 6 (runtime.epsilon (runtime.postAttentionNormalization a)) ++
  js "','final_norm_epsilon':'" ++ write_float 6 (runtime.epsilon (runtime.finalNormalization a)) ++ js "'}".

Definition write_modelIO (io : ManifestModelIO) : text :=
  js "{'token_embedding':'" ++ escapeJson (io_tokenEmbeddingTensor io) ++
  js "','final_norm':'" ++ escapeJson (io_finalNormTensor io) ++
  js "','lm_head':" ++ writeBinding (io_lmHead io) ++
  js ",'tied_embeddings':" ++ bool_text (io_tiedEmbeddings io) ++ js "}".

Definition normalization_toString (n : RoutingNormalization) : string :=
  match n with NoNormalization => "NONE" | Softmax => "SOFTMAX" end.
Definition write_routerTensor (t : ManifestRouterTensor) : text :=
  js "{'layer_id':" ++ number (mr_layerId t) ++ js ",'tensor':'" ++ escapeJson (mr_tensorName t) ++ js "'}".
Definition write_router (r : ManifestRouter) : text :=
  js "{'expert_count':" ++ number (expertCount (ro_config r)) ++
  js ",'top_k':" ++ number (topK (ro_config r)) ++
  js ",'normalization':'" ++ txt (normalization_toString (normalization (ro_config r))) ++
  js "','renormalize_selected':" ++ bool_text (renormalizeSelected (ro_config r)) ++
  js ",'layout':'" ++ txt (layout_toString (ro_layout r)) ++ js "','tensors':[" ++
  commas write_routerTensor (ro_tensors r) ++ js "]}".

(** [std::numeric_limits<float>::max_digits10] is nine. *)
Definition write_quantization (p : QuantizationParameters) : text :=
  js "{'scheme':'PER_TENSOR_AFFINE_INT8'" ++ js ",'scale':" ++ write_float 9 (scale p) ++
  js ",'zero_point':" ++ number (zeroPoint p) ++ js "}".
Definition write_tensor (t : ManifestTensor) : text :=
  js "    {'name':'" ++ escapeJson (mt_name t) ++ js "','source_file':'" ++ escapeJson (mt_sourceFile t) ++
  js "','offset':" ++ number (mt_offset t) ++ js ",'size':" ++ number (mt_size t) ++
  js ",'dtype':'" ++ txt (dtype_toString (mt_dtype t)) ++ js "','shape':" ++ writeShape (mt_shape t) ++
  match mt_quantization t with
  | Some p => js ",'quantization':" ++ write_quantization p
  | None => []
  end ++ js "}".

Definition write_expert (e : ManifestExpertMapping) : text :=
  js "    {'layer_id':" ++ number (me_layerId e) ++ js ",'expert_id':" ++ number (me_expertId e) ++
  js ",'gate':" ++ writeProjection (me_gate e) ++ js ",'up':" ++ writeProjection (me_up e) ++
  js ",'down':" ++ writeProjection (me_down e) ++ js "}".

Definition write_layer (l : ManifestLayerMapping) : text :=
  js "    {'layer_id':" ++ number (ml_layerId l) ++ js ",'q_proj':" ++ writeBinding (ml_queryProjection l) ++
  js ",'k_proj':" ++ writeBinding (ml_keyProjection l) ++ js ",'v_proj':" ++ writeBinding (ml_valueProjection l) ++
  js ",'o_proj':" ++ writeBinding (ml_outputProjection l) ++
  js ",'q_norm':'" ++ escapeJson (ml_queryNormTensor l) ++ js "','k_norm':'" ++ escapeJson (ml_keyNormTensor l) ++
  js "','input_norm':'" ++ escapeJson (ml_inputNormTensor l) ++
  js "','post_attention_norm':'" ++ escapeJson (ml_postAttentionNormTensor l) ++
  js "','router':'" ++ escapeJson (ml_routerTensor l) ++ js "'}".

Definition manifest_text (m : ModelManifest) : text :=
  let config := mm_config m in
  js "{" ++ nl ++ js "  'schema': '" ++ txt (mm_schema m) ++ js "'," ++ nl ++
  js "  'model_name': '" ++ escapeJson (mm_modelName m) ++ js "'," ++ nl ++
  js "  'architecture': '" ++ txt (architecture_toString (mm_architecture m)) ++ js "'," ++ nl ++
  js "  'source_architecture': '" ++ escapeJson (mm_sourceArchitecture m) ++
  js "'," ++ nl ++ js "  'layer_count': " ++ number (mc_layerCount config) ++
  js "," ++ nl ++ js "  'parameter_count': " ++ number (mm_parameterCount m) ++
  js "," ++ nl ++ js "  'expert_count': " ++ number (mc_expertCount config) ++
  js "," ++ nl ++ js "  'hidden_size': " ++ number (mc_hiddenSize config) ++
  js "," ++ nl ++ js "  'intermediate_size': " ++ number (mc_intermediateSize config) ++ js "," ++ nl ++
  js "  'capabilities': " ++ write_capabilities (mc_capabilities config) ++ js "," ++ nl ++
  match mm_runtimeArchitecture m with
  | Some a => js "  'runtime_architecture': " ++ write_runtime a ++ js "," ++ nl
  | None => []
  end ++
  match mm_modelIO m with
  | Some io => js "  'model_io': " ++ write_modelIO io ++ js "," ++ nl
  | None => []
  end ++
  js "  'router': " ++ write_router (mm_router m) ++ js "," ++ nl ++
  js "  'tensors': [" ++ nl ++ lines write_tensor (mm_tensors m) ++
  js "  ]," ++ nl ++ js "  'experts': [" ++ nl ++ lines write_expert (mm_experts m) ++
  js "  ]," ++ nl ++ js "  'layers': [" ++ nl ++ lines write_layer (mm_layers m) ++
  js "  ]" ++ nl ++ js "}" ++ nl.

Definition toJson (walk : gmap Z Z -> list (Z * Z)) (m : ModelManifest) : result text :=
  (validate walk m ;;? Ok (manifest_text m))%res.

(** ** Reading *)

Definition metadata_error {A} (message : string) : result A := Throw (Exn MetadataError message).

Definition parseQuantization (v : JsonValue) : result QuantizationParameters :=
  (scheme <-? (w <-? require "scheme" v ;; asString w) ;;
   if String.eqb scheme "PER_TENSOR_AFFINE_INT8" then
     s <-? (w <-? require "scale" v ;; asDouble w) ;;
     z <-? (w <-? require "zero_point" v ;; asInt32 w "zero_point") ;;
     let p := mkQuantization (f32_of_f64 s) z in
     validateParameters QINT8 p ;;? Ok p
   else metadata_error "unsupported manifest quantization scheme")%res.

Fixpoint each {A} (f : JsonValue -> result A) (l : list JsonValue) : result (list A) :=
  match l with
  | [] => Ok []
  | v :: l => (x <-? f v ;; xs <-? each f l ;; Ok (x :: xs))%res
  end.

Definition parseShape (v : JsonValue) : result Shape :=
  (l <-? asArray v ;;
   dims <-? each (fun d => asSize d "shape dimension") l ;;
   match dims with
   | [] => metadata_error "tensor shape cannot be empty"
   | _ => contiguousShape dims
   end)%res.

Definition parseDType (value : string) : result DType :=
  if String.eqb value "FP32" then Ok FP32
  else if String.eqb value "FP16" then Ok FP16
  else if String.eqb value "BF16" then Ok BF16
  else if String.eqb value "INT8" then Ok INT8
  else metadata_error ("unsupported manifest dtype: " ++ value)%string.

Definition parseLayout (value : string) : result TensorLayout :=
  if String.eqb value "INPUT_OUTPUT" then Ok InputOutput
  else if String.eqb value "OUTPUT_INPUT" then Ok OutputInput
  else metadata_error ("unsupported tensor layout: " ++ value)%string.

Definition parseArchitecture (value : string) : result ModelArchitecture :=
  if String.eqb value "QWEN_MOE" then Ok QWEN_MOE
  else if String.eqb value "DEEPSEEK_MOE" then Ok DEEPSEEK_MOE
  else if String.eqb value "GLM_MOE" then Ok GLM_MOE
  else if String.eqb value "KIMI_MOE" then Ok KIMI_MOE
  else if String.eqb value "MIXTRAL_MOE" then Ok MIXTRAL_MOE
  else if String.eqb value "UNKNOWN" then Ok UNKNOWN
  else metadata_error "unsupported manifest architecture enum".

Definition string_at (key : string) (v : JsonValue) : result string := (w <-? require key v ;; asString w)%res.
Definition u64_at (key : string) (v : JsonValue) : result Z := (w <-? require key v ;; asUInt64 w)%res.
Definition bool_at (key : string) (v : JsonValue) : result bool := (w <-? require key v ;; asBool w)%res.
Definition size_at (key field : string) (v : JsonValue) : result Z := (w <-? require key v ;; asSize w field)%res.
Definition id_at (key field : string) (v : JsonValue) : result Z := (w <-? require key v ;; asId w field)%res.
Definition float_at (key : string) (v : JsonValue) : result f32 :=
  (w <-? require key v ;; x <-? asDouble w ;; Ok (f32_of_f64 x))%res.
Definition array_at (key : string) (v : JsonValue) : result (list JsonValue) := (w <-? require key v ;; asArray w)%res.
(** [if (const auto* found = v.find(key)) result = read( *found);] *)
Definition optional_at {A} (key : string) (read : JsonValue -> result A) (default : A) (v : JsonValue) : result A :=
  match find key v with Some w => read w | None => Ok default end.

Definition parseProjection (v : JsonValue) : result ProjectionLocation :=
  (name <-? string_at "tensor" v ;;
   offset <-? u64_at "offset" v ;;
   size <-? u64_at "size" v ;;
   shape <-? (w <-? require "shape" v ;; parseShape w) ;;
   layout <-? (w <-? string_at "layout" v ;; parseLayout w) ;;
   Ok (mkProjection name offset size shape layout))%res.

Definition parseBinding (v : JsonValue) : result ManifestTensorBinding :=
  (name <-? string_at "tensor" v ;;
   layout <-? (w <-? string_at "layout" v ;; parseLayout w) ;;
   Ok (mkBinding name layout))%res.

Definition parse_capabilities (v : JsonValue) : result ModelCapabilities :=
  (a <-? bool_at "routed_experts" v ;;
   b <-? bool_at "configurable_top_k" v ;;
   c <-? bool_at "normalized_routing" v ;;
   d <-? bool_at "gated_expert_mlp" v ;;
   e <-? bool_at "shared_experts" v ;;
   f <-? bool_at "quantized_expert_weights" v ;;
   Ok (mkCapabilities a b c d e f))%res.

Definition parse_normalization (value : string) : result RoutingNormalization :=
  if String.eqb value "SOFTMAX" then Ok Softmax
  else if String.eqb value "NONE" then Ok NoNormalization
  else metadata_error "unsupported router normalization".

Definition parse_router (v : JsonValue) : result (RouterConfig * TensorLayout) :=
  (experts <-? size_at "expert_count" "router expert_count" v ;;
   top <-? size_at "top_k" "router top_k" v ;;
   n <-? (w <-? string_at "normalization" v ;; parse_normalization w) ;;
   renormalize <-? bool_at "renormalize_selected" v ;;
   layout <-? (w <-? string_at "layout" v ;; parseLayout w) ;;
   Ok (mkRouterConfig experts top n renormalize, layout))%res.

Definition parse_runtime (config : ModelConfig) (router : RouterConfig) (v : JsonValue)
    : result runtime.ModelArchitecture :=
  (heads <-? size_at "attention_heads" "attention_heads" v ;;
   keyValueHeads <-? size_at "key_value_heads" "key_value_heads" v ;;
   dimension <-? size_at "head_dimension" "head_dimension" v ;;
   projection <-? optional_at "projection_head_dimension" (fun w => asSize w "projection_head_dimension") dimension v ;;
   vocabulary <-? optional_at "vocabulary_size" (fun w => asSize w "vocabulary_size") 0 v ;;
   tied <-? optional_at "tied_embeddings" asBool false v ;;
   theta <-? float_at "rope_theta" v ;;
   input <-? float_at "input_norm_epsilon" v ;;
   post <-? float_at "post_attention_norm_epsilon" v ;;
   final <-? optional_at "final_norm_epsilon" (fun w => x <-? asDouble w ;; Ok (f32_of_f64 x))
               (runtime.epsilon default_normalization) v ;;
   Ok (runtime.mkArchitecture (mc_layerCount config) (mc_hiddenSize config) heads keyValueHeads dimension projection
         (mc_expertCount config) (topK router) vocabulary tied theta
         (runtime.mkNormalization input) (runtime.mkNormalization post) (runtime.mkNormalization final)))%res.

Definition parse_modelIO (v : JsonValue) : result ManifestModelIO :=
  (embedding <-? string_at "token_embedding" v ;;
   norm <-? string_at "final_norm" v ;;
   head <-? (w <-? require "lm_head" v ;; parseBinding w) ;;
   tied <-? bool_at "tied_embeddings" v ;;
   Ok (mkModelIO embedding norm head tied))%res.

Definition parse_routerTensor (v : JsonValue) : result ManifestRouterTensor :=
  (layer <-? id_at "layer_id" "router layer_id" v ;;
   name <-? string_at "tensor" v ;;
   Ok (mkRouterTensor layer name))%res.

Definition some_of {A} (read : JsonValue -> result A) (v : JsonValue) : result (option A) :=
  (x <-? read v ;; Ok (Some x))%res.

Definition parse_tensor (v : JsonValue) : result ManifestTensor :=
  (name <-? string_at "name" v ;;
   source <-? string_at "source_file" v ;;
   offset <-? u64_at "offset" v ;;
   size <-? u64_at "size" v ;;
   dtype <-? (w <-? string_at "dtype" v ;; parseDType w) ;;
   shape <-? (w <-? require "shape" v ;; parseShape w) ;;
   quantization <-? optional_at "quantization" (some_of parseQuantization) None v ;;
   Ok (mkManifestTensor name source offset size dtype shape quantization))%res.

Definition parse_expert (v : JsonValue) : result ManifestExpertMapping :=
  (layer <-? id_at "layer_id" "layer_id" v ;;
   expert <-? id_at "expert_id" "expert_id" v ;;
   gate <-? (w <-? require "gate" v ;; parseProjection w) ;;
   up <-? (w <-? require "up" v ;; parseProjection w) ;;
   down <-? (w <-? require "down" v ;; parseProjection w) ;;
   Ok (mkMapping layer expert gate up down))%res.

Definition parse_layer (v : JsonValue) : result ManifestLayerMapping :=
  (layer <-? id_at "layer_id" "layer_id" v ;;
   q <-? (w <-? require "q_proj" v ;; parseBinding w) ;;
   k <-? (w <-? require "k_proj" v ;; parseBinding w) ;;
   u <-? (w <-? require "v_proj" v ;; parseBinding w) ;;
   o <-? (w <-? require "o_proj" v ;; parseBinding w) ;;
   queryNorm <-? optional_at "q_norm" asString EmptyString v ;;
   keyNorm <-? optional_at "k_norm" asString EmptyString v ;;
   inputNorm <-? string_at "input_norm" v ;;
   postNorm <-? string_at "post_attention_norm" v ;;
   router <-? string_at "router" v ;;
   Ok (mkLayer layer q k u o inputNorm postNorm router queryNorm keyNorm))%res.

(** [load], from the parsed file on, without the final validation. *)
Definition read_manifest (root : JsonValue) : result ModelManifest :=
  (schema <-? string_at "schema" root ;;
   modelName <-? string_at "model_name" root ;;
   architecture <-? (w <-? string_at "architecture" root ;; parseArchitecture w) ;;
   source <-? string_at "source_architecture" root ;;
   parameters <-? optional_at "parameter_count" asUInt64 0 root ;;
   layerCount <-? size_at "layer_count" "layer_count" root ;;
   expertCount <-? size_at "expert_count" "expert_count" root ;;
   hidden <-? size_at "hidden_size" "hidden_size" root ;;
   intermediate <-? size_at "intermediate_size" "intermediate_size" root ;;
   capabilities <-? (w <-? require "capabilities" root ;; parse_capabilities w) ;;
   let config := mkModelConfig modelName layerCount expertCount hidden intermediate capabilities in
   routerValue <-? require "router" root ;;
   router <-? parse_router routerValue ;;
   runtimeArchitecture <-? optional_at "runtime_architecture" (some_of (parse_runtime config router.1)) None root ;;
   modelIO <-? optional_at "model_io" (some_of parse_modelIO) None root ;;
   routerTensors <-? (w <-? array_at "tensors" routerValue ;; each parse_routerTensor w) ;;
   tensors <-? (w <-? array_at "tensors" root ;; each parse_tensor w) ;;
   experts <-? (w <-? array_at "experts" root ;; each parse_expert w) ;;
   layers <-? optional_at "layers" (fun w => l <-? asArray w ;; each parse_layer l) [] root ;;
   Ok (mkManifest schema modelName architecture source parameters config runtimeArchitecture
         (mkManifestRouter router.1 routerTensors router.2) tensors experts layers modelIO))%res.

Definition maximumBytes : Z := 64 * 1024 * 1024.

(** [parseJsonFile] and [load], on the contents of the file. *)
Definition parseJsonFile (contents : string) : result JsonValue :=
  (throw_if (maximumBytes <? Z.of_nat (String.length contents))
     (Exn MetadataError "model manifest exceeds size limit") ;;?
   parseJson contents)%res.

Definition load (walk : gmap Z Z -> list (Z * Z)) (contents : string) : result ModelManifest :=
  (root <-? parseJsonFile contents ;;
   m <-? read_manifest root ;;
   validate walk m ;;?
   Ok m)%res.
