(* ===== verification/ManifestRoundtrip.v ===== *)
(** * A saved manifest loads

    The text [ModelManifest::toJson] writes is a document of the JSON grammar, and what
    [load] reads from it is the manifest that was saved. *)

From Stdlib Require Import String Ascii.
From stdpp Require Import strings pretty.
From S2P Require Import Prelude Float Tiers Json JsonGrammar Decimal Tensor Router Quantization Manifest ManifestJson.

#[local] Open Scope Z_scope.

(** ** The text is a document of the grammar *)

(** A member of an object, with the white space around it. *)
Record Segment : Type := Seg {
  sg_before : text;
  sg_key : string;
  sg_after : text;
  sg_value : text;
  sg_json : JsonValue;
  sg_behind : text;
}.
Definition seg_text (s : Segment) : text :=
  sg_before s ++ (quote :: txt (sg_key s) ++ [quote]) ++ [] ++ ":"%char :: sg_after s ++ sg_value s.
Definition seg_member (s : Segment) : string * JsonValue := (sg_key s, sg_json s).

(** The members of an object, or the elements of an array, separated by commas. *)
Fixpoint separated (l : list text) : text :=
  match l with
  | [] => []
  | [t] => t
  | t :: l => t ++ ","%char :: separated l
  end.

Definition object_text (l : list Segment) : text :=
  "{"%char :: separated ((fun s => seg_text s ++ sg_behind s) <$> l) ++ ["}"%char].
Definition object_json (l : list Segment) : JsonValue := JObject (object_of (seg_member <$> l)).

Definition plain (c : ascii) : bool := (32 <=? code c) && negb (is_char quote c) && negb (is_char backslash c).
Lemma plain_chars t : forallb plain t = true -> Chars t t.
Proof.
  induction t as [|c t IH]; cbn; [constructor|]. unfold plain, is_char. intros [Hc Ht]%andb_true_iff.
  apply andb_true_iff in Hc as [[Hc Hq]%andb_true_iff Hb]. apply C_plain; [lia| | |by apply IH].
  - intros ->. done.
  - intros ->. done.
Qed.

Record seg_ok (d : Z) (s : Segment) : Prop := SegOk {
  sk_spaces : forallb is_space (sg_before s ++ sg_after s ++ sg_behind s) = true;
  sk_key : forallb plain (txt (sg_key s)) = true;
  sk_value : Value d (sg_value s) (sg_json s);
}.

Lemma spaces_check w : forallb is_space w = true -> spaces w.
Proof. intros H. apply Forall_forall. intros x Hx. rewrite forallb_forall in H. by apply H, list_elem_of_In. Qed.

Lemma seg_spaces d s : seg_ok d s -> spaces (sg_before s) /\ spaces (sg_after s) /\ spaces (sg_behind s).
Proof. intros [H _ _]. apply spaces_check in H. unfold spaces in *. by rewrite !Forall_app in H. Qed.

Lemma seg_grammar d s : seg_ok d s -> Member d (seg_text s) (sg_key s) (sg_json s).
Proof.
  intros Hs. destruct (seg_spaces d s Hs) as (Hb & Ha & _). destruct Hs as [_ Hk Hv]. unfold seg_text.
  apply Mem; [done| |constructor|done|done]. pose proof (L_string _ _ (plain_chars _ Hk)) as HL. by rewrite txt_of in HL.
Qed.

Lemma separated_members d l : l <> [] -> Forall (seg_ok d) l ->
  Members d (separated ((fun s => seg_text s ++ sg_behind s) <$> l)) (seg_member <$> l).
Proof.
  intros Hl Hall. induction Hall as [|s l Hs Hall IH]; [done|]. pose proof (seg_spaces d s Hs) as (_ & _ & Hb).
  destruct l as [|s' l].
  - cbn. apply M_last; [by apply seg_grammar|done].
  - change (separated _) with ((seg_text s ++ sg_behind s) ++ ","%char ::
      separated ((fun s => seg_text s ++ sg_behind s) <$> (s' :: l))).
    rewrite <- app_assoc. apply M_more; [by apply seg_grammar|done|by apply IH].
Qed.

Lemma object_value d l :
  d <= 128 -> l <> [] -> bool_decide (NoDup (sg_key <$> l)) = true -> Forall (seg_ok (d + 1)) l ->
  Value d (object_text l) (object_json l).
Proof.
  intros Hd Hl Hnd%bool_decide_eq_true Hall. apply V_object; [done|by apply separated_members|].
  rewrite <- list_fmap_compose. exact Hnd.
Qed.

(** Elements, each between the same white space. *)
Lemma separated_elements {A} d w w' (write : A -> text) (json : A -> JsonValue) l :
  l <> [] -> spaces w -> spaces w' -> Forall (fun x => Value d (write x) (json x)) l ->
  Elements d (separated ((fun x => w ++ write x ++ w') <$> l)) (json <$> l).
Proof.
  intros Hl Hw Hw' Hall. induction Hall as [|x l Hx Hall IH]; [done|]. destruct l as [|y l].
  - cbn. by apply E_last.
  - change (separated _) with ((w ++ write x ++ w') ++ ","%char :: separated ((fun x => w ++ write x ++ w') <$> (y :: l))).
    rewrite <- !app_assoc. apply E_more; try done. by apply IH.
Qed.

Lemma string_value d s : d <= 128 -> Value d (quote :: escapeJson s ++ [quote]) (JString s).
Proof.
  intros Hd. apply V_string; [done|]. pose proof (L_string _ _ (escapeJson_chars s)) as H. by rewrite txt_of in H.
Qed.
Lemma plain_value d t : d <= 128 -> forallb plain t = true -> Value d (quote :: t ++ [quote]) (JString (string_of_list_ascii t)).
Proof. intros Hd Ht. apply V_string; [done|]. by apply L_string, plain_chars. Qed.
Lemma number_value d t : d <= 128 -> Number t -> Value d t (JNumber (string_of_list_ascii t)).
Proof. by apply V_number. Qed.
Lemma bool_value d b : d <= 128 -> Value d (bool_text b) (JBool b).
Proof. intros. destruct b; [apply V_true|apply V_false]; done. Qed.

Definition quoted (t : text) : text := quote :: t ++ [quote].
(** A member written [,"key":value]. *)
Definition member (key : string) (value : text) (json : JsonValue) : Segment := Seg [] key [] value json [].
Definition string_member (key s : string) : Segment := member key (quoted (escapeJson s)) (JString s).
Definition word_member (key s : string) : Segment := member key (quoted (txt s)) (JString s).
Definition number_member (key : string) (n : Z) : Segment := member key (number n) (JNumber (pretty n)).
Definition quoted_number (key : string) (n : Z) : Segment := member key (quoted (number n)) (JString (pretty n)).
Definition bool_member (key : string) (b : bool) : Segment := member key (bool_text b) (JBool b).

(** An array written without white space. *)
Definition array_text (l : list text) : text := "["%char :: separated l ++ ["]"%char].

Lemma commas_separated {A} (write : A -> text) l : commas write l = separated (write <$> l).
Proof. induction l as [|x l IH]; [done|]. destruct l; [done|]. cbn in *. by rewrite IH. Qed.

Lemma array_value {A} d (write : A -> text) (json : A -> JsonValue) l :
  d <= 128 -> Forall (fun x => Value (d + 1) (write x) (json x)) l ->
  Value d (js "[" ++ commas write l ++ js "]") (JArray (json <$> l)).
Proof.
  intros Hd Hl. rewrite commas_separated. destruct l as [|x l]; [by apply (V_empty_array d []); [|constructor]|].
  apply V_array; [done|].
  replace (write <$> x :: l) with ((fun y => [] ++ write y ++ []) <$> x :: l)
    by (apply list_fmap_ext; intros; cbn; by rewrite app_nil_r).
  apply separated_elements; [done|constructor..|done].
Qed.

(** The same on lines of their own. *)
Lemma lines_elements {A} d (before : text) (write full : A -> text) (json : A -> JsonValue) l :
  l <> [] -> spaces before -> (forall x, full x = before ++ write x) ->
  Forall (fun x => Value d (write x) (json x)) l -> Elements d (nl ++ lines full l ++ js "  ") (json <$> l).
Proof.
  intros Hl Hb Hf Hall. assert (spaces (nl ++ before)) as Hw by (apply Forall_app; split; [by apply spaces_check|done]).
  induction Hall as [|x l Hx Hall IH]; [done|]. destruct l as [|y l].
  - cbn [lines]. rewrite Hf, <- !app_assoc. rewrite (app_assoc nl before). apply E_last; [done..|by apply spaces_check].
  - change (lines full (x :: y :: l)) with (full x ++ js "," ++ nl ++ lines full (y :: l)).
    rewrite Hf, <- !app_assoc. rewrite (app_assoc nl before). apply (E_more _ (nl ++ before) _ []); [done..|constructor|].
    by apply IH.
Qed.

Lemma lines_value {A} d (before : text) (write full : A -> text) (json : A -> JsonValue) l :
  d <= 128 -> forallb is_space before = true -> (forall x, full x = before ++ write x) ->
  Forall (fun x => Value (d + 1) (write x) (json x)) l ->
  Value d (js "[" ++ nl ++ lines full l ++ js "  ]") (JArray (json <$> l)).
Proof.
  intros Hd Hb%spaces_check Hf Hl. 
  replace (js "[" ++ nl ++ lines full l ++ js "  ]") with ("["%char :: (nl ++ lines full l ++ js "  ") ++ ["]"%char])
    by (cbn; by rewrite <- !app_assoc).
  destruct (decide (l = [])) as [->|Hn].
  - apply (V_empty_array d (nl ++ js "  ")); [done|by apply spaces_check].
  - apply V_array; [done|]. by apply (lines_elements _ before write).
Qed.

(** Dispose of the checks on the keys and white space of a written object. *)
Ltac object := apply object_value; [lia|done|vm_compute; reflexivity|repeat (apply Forall_cons; split); try apply Forall_nil_2];
  try (split; [vm_compute; reflexivity..|]).
Ltac same_text := unfold object_text; cbn; unfold quoted; repeat (progress (cbn; rewrite <- ?app_assoc, ?app_nil_r)); reflexivity.

Definition shape_json (s : Shape) : JsonValue := JArray ((fun n => JNumber (pretty n)) <$> dimensions s).
Lemma number_text n : 0 <= n -> forall d, d <= 128 -> Value d (number n) (JNumber (pretty n)).
Proof.
  intros Hn d Hd. pose proof (V_number d _ Hd (pretty_number n Hn)) as H. by rewrite txt_of in H.
Qed.
Lemma writeShape_value d s : d <= 127 -> Forall (fun n => 0 <= n) (dimensions s) -> Value d (writeShape s) (shape_json s).
Proof.
  intros Hd Hs. apply array_value; [lia|]. eapply Forall_impl; [exact Hs|]. intros n Hn. apply number_text; [exact Hn|lia].
Qed.

Definition binding_segments (b : ManifestTensorBinding) : list Segment :=
  [string_member "tensor" (mb_tensorName b); word_member "layout" (layout_toString (mb_layout b))].
Lemma writeBinding_text b : writeBinding b = object_text (binding_segments b).
Proof. unfold binding_segments. same_text. Qed.
Lemma word_value d s : d <= 128 -> forallb plain (txt s) = true -> Value d (quoted (txt s)) (JString s).
Proof. intros Hd Hs. pose proof (plain_value d _ Hd Hs) as H. by rewrite txt_of in H. Qed.
Lemma writeBinding_value d b : d <= 127 -> Value d (writeBinding b) (object_json (binding_segments b)).
Proof.
  intros Hd. rewrite writeBinding_text. object; cbn [sg_value sg_json].
  - apply string_value. lia.
  - apply word_value; [lia|]. by destruct (mb_layout b).
Qed.

Definition projection_segments (p : ProjectionLocation) : list Segment :=
  [string_member "tensor" (pl_tensorName p); number_member "offset" (pl_offset p); number_member "size" (pl_size p);
   member "shape" (writeShape (pl_shape p)) (shape_json (pl_shape p));
   word_member "layout" (layout_toString (pl_layout p))].
Lemma writeProjection_text p : writeProjection p = object_text (projection_segments p).
Proof. unfold projection_segments. same_text. Qed.

Definition capability_segments (c : ModelCapabilities) : list Segment :=
  [bool_member "routed_experts" (routedExperts c); bool_member "configurable_top_k" (configurableTopK c);
   bool_member "normalized_routing" (normalizedRouting c); bool_member "gated_expert_mlp" (gatedExpertMlp c);
   bool_member "shared_experts" (sharedExperts c); bool_member "quantized_expert_weights" (quantizedExpertWeights c)].
Lemma write_capabilities_text c : write_capabilities c = object_text (capability_segments c).
Proof. unfold capability_segments. same_text. Qed.

Definition quoted_float (key : string) (x : f32) : Segment :=
  member key (quoted (write_float 6 x)) (JString (string_of_list_ascii (write_float 6 x))).
Definition quoted_bool (key : string) (b : bool) : Segment :=
  member key (quoted (bool_text b)) (JString (string_of_list_ascii (bool_text b))).
Definition runtime_segments (a : runtime.ModelArchitecture) : list Segment :=
  [number_member "attention_heads" (runtime.attentionHeads a); quoted_number "key_value_heads" (runtime.keyValueHeads a);
   quoted_number "head_dimension" (runtime.headDimension a);
   quoted_number "projection_head_dimension" (runtime.projectionHeadDimension a);
   quoted_number "vocabulary_size" (runtime.vocabularySize a); quoted_bool "tied_embeddings" (runtime.tiedEmbeddings a);
   quoted_float "rope_theta" (runtime.ropeTheta a);
   quoted_float "input_norm_epsilon" (runtime.epsilon (runtime.inputNormalization a));
   quoted_float "post_attention_norm_epsilon" (runtime.epsilon (runtime.postAttentionNormalization a));
   quoted_float "final_norm_epsilon" (runtime.epsilon (runtime.finalNormalization a))].
Lemma write_runtime_text a : write_runtime a = object_text (runtime_segments a).
Proof. unfold runtime_segments. same_text. Qed.

Definition modelIO_segments (io : ManifestModelIO) : list Segment :=
  [string_member "token_embedding" (io_tokenEmbeddingTensor io); string_member "final_norm" (io_finalNormTensor io);
   member "lm_head" (writeBinding (io_lmHead io)) (object_json (binding_segments (io_lmHead io)));
   bool_member "tied_embeddings" (io_tiedEmbeddings io)].
Lemma write_modelIO_text io : write_modelIO io = object_text (modelIO_segments io).
Proof. unfold modelIO_segments. same_text. Qed.

Definition routerTensor_segments (t : ManifestRouterTensor) : list Segment :=
  [number_member "layer_id" (mr_layerId t); string_member "tensor" (mr_tensorName t)].
Lemma write_routerTensor_text t : write_routerTensor t = object_text (routerTensor_segments t).
Proof. unfold routerTensor_segments. same_text. Qed.
Definition routerTensor_json (t : ManifestRouterTensor) : JsonValue := object_json (routerTensor_segments t).

Definition router_segments (r : ManifestRouter) : list Segment :=
  [number_member "expert_count" (expertCount (ro_config r)); number_member "top_k" (topK (ro_config r));
   word_member "normalization" (normalization_toString (normalization (ro_config r)));
   bool_member "renormalize_selected" (renormalizeSelected (ro_config r));
   word_member "layout" (layout_toString (ro_layout r));
   member "tensors" (js "[" ++ commas write_routerTensor (ro_tensors r) ++ js "]") (JArray (routerTensor_json <$> ro_tensors r))].
Lemma write_router_text r : write_router r = object_text (router_segments r).
Proof. unfold router_segments. same_text. Qed.

Definition quantization_segments (p : QuantizationParameters) : list Segment :=
  [word_member "scheme" "PER_TENSOR_AFFINE_INT8";
   member "scale" (write_float 9 (scale p)) (JNumber (string_of_list_ascii (write_float 9 (scale p))));
   number_member "zero_point" (zeroPoint p)].
Lemma write_quantization_text p : write_quantization p = object_text (quantization_segments p).
Proof. unfold quantization_segments. same_text. Qed.

Definition tensor_segments (t : ManifestTensor) : list Segment :=
  [string_member "name" (mt_name t); string_member "source_file" (mt_sourceFile t);
   number_member "offset" (mt_offset t); number_member "size" (mt_size t);
   word_member "dtype" (dtype_toString (mt_dtype t)); member "shape" (writeShape (mt_shape t)) (shape_json (mt_shape t))] ++
  match mt_quantization t with
  | Some p => [member "quantization" (write_quantization p) (object_json (quantization_segments p))]
  | None => []
  end.
Lemma write_tensor_text t : write_tensor t = js "    " ++ object_text (tensor_segments t).
Proof. unfold write_tensor, tensor_segments. destruct (mt_quantization t); same_text. Qed.

Definition expert_segments (e : ManifestExpertMapping) : list Segment :=
  [number_member "layer_id" (me_layerId e); number_member "expert_id" (me_expertId e);
   member "gate" (writeProjection (me_gate e)) (object_json (projection_segments (me_gate e)));
   member "up" (writeProjection (me_up e)) (object_json (projection_segments (me_up e)));
   member "down" (writeProjection (me_down e)) (object_json (projection_segments (me_down e)))].
Lemma write_expert_text e : write_expert e = js "    " ++ object_text (expert_segments e).
Proof. unfold expert_segments. same_text. Qed.

Definition binding_member (key : string) (b : ManifestTensorBinding) : Segment :=
  member key (writeBinding b) (object_json (binding_segments b)).
Definition layer_segments (l : ManifestLayerMapping) : list Segment :=
  [number_member "layer_id" (ml_layerId l); binding_member "q_proj" (ml_queryProjection l);
   binding_member "k_proj" (ml_keyProjection l); binding_member "v_proj" (ml_valueProjection l);
   binding_member "o_proj" (ml_outputProjection l); string_member "q_norm" (ml_queryNormTensor l);
   string_member "k_norm" (ml_keyNormTensor l); string_member "input_norm" (ml_inputNormTensor l);
   string_member "post_attention_norm" (ml_postAttentionNormTensor l); string_member "router" (ml_routerTensor l)].
Lemma write_layer_text l : write_layer l = js "    " ++ object_text (layer_segments l).
Proof. unfold layer_segments. same_text. Qed.

(** A member on a line of its own, and the last one. *)
Definition line (key : string) (value : text) (json : JsonValue) : Segment :=
  Seg (nl ++ js "  ") key (js " ") value json [].
Definition last_line (key : string) (value : text) (json : JsonValue) : Segment :=
  Seg (nl ++ js "  ") key (js " ") value json nl.
Definition tensor_json (t : ManifestTensor) : JsonValue := object_json (tensor_segments t).
Definition expert_json (e : ManifestExpertMapping) : JsonValue := object_json (expert_segments e).
Definition layer_json (l : ManifestLayerMapping) : JsonValue := object_json (layer_segments l).
Definition manifest_segments (m : ModelManifest) : list Segment :=
  let config := mm_config m in
  [line "schema" (quoted (txt (mm_schema m))) (JString (mm_schema m));
   line "model_name" (quoted (escapeJson (mm_modelName m))) (JString (mm_modelName m));
   line "architecture" (quoted (txt (architecture_toString (mm_architecture m)))) (JString (architecture_toString (mm_architecture m)));
   line "source_architecture" (quoted (escapeJson (mm_sourceArchitecture m))) (JString (mm_sourceArchitecture m));
   line "layer_count" (number (mc_layerCount config)) (JNumber (pretty (mc_layerCount config)));
   line "parameter_count" (number (mm_parameterCount m)) (JNumber (pretty (mm_parameterCount m)));
   line "expert_count" (number (mc_expertCount config)) (JNumber (pretty (mc_expertCount config)));
   line "hidden_size" (number (mc_hiddenSize config)) (JNumber (pretty (mc_hiddenSize config)));
   line "intermediate_size" (number (mc_intermediateSize config)) (JNumber (pretty (mc_intermediateSize config)));
   line "capabilities" (write_capabilities (mc_capabilities config)) (object_json (capability_segments (mc_capabilities config)))] ++
  match mm_runtimeArchitecture m with
  | Some a => [line "runtime_architecture" (write_runtime a) (object_json (runtime_segments a))]
  | None => []
  end ++
  match mm_modelIO m with
  | Some io => [line "model_io" (write_modelIO io) (object_json (modelIO_segments io))]
  | None => []
  end ++
  [line "router" (write_router (mm_router m)) (object_json (router_segments (mm_router m)));
   line "tensors" (js "[" ++ nl ++ lines write_tensor (mm_tensors m) ++ js "  ]") (JArray (tensor_json <$> mm_tensors m));
   line "experts" (js "[" ++ nl ++ lines write_expert (mm_experts m) ++ js "  ]") (JArray (expert_json <$> mm_experts m));
   last_line "layers" (js "[" ++ nl ++ lines write_layer (mm_layers m) ++ js "  ]") (JArray (layer_json <$> mm_layers m))].
Lemma manifest_text_object m : manifest_text m = object_text (manifest_segments m) ++ nl.
Proof.
  unfold manifest_text, manifest_segments. generalize (write_capabilities (mc_capabilities (mm_config m))) (write_router (mm_router m))
    (lines write_tensor (mm_tensors m)) (lines write_expert (mm_experts m)) (lines write_layer (mm_layers m)).
  intros. destruct (mm_runtimeArchitecture m) as [a|], (mm_modelIO m) as [io|];
    try generalize (write_runtime a); try generalize (write_modelIO io); intros; same_text.
Qed.

(** ** What is written is read back *)

(** The shape is the contiguous one of its dimensions, of which there is one at least. *)
Definition plain_shape (s : Shape) : Prop :=
  contiguousShape (dimensions s) = Ok s /\ dimensions s <> [] /\ Forall is_u64 (dimensions s).

Record projection_writable (p : ProjectionLocation) : Prop := ProjectionWritable {
  pw_ints : is_u64 (pl_offset p) /\ is_u64 (pl_size p);
  pw_shape : plain_shape (pl_shape p);
}.
Record tensor_writable (t : ManifestTensor) : Prop := TensorWritable {
  tw_ints : is_u64 (mt_offset t) /\ is_u64 (mt_size t);
  tw_shape : plain_shape (mt_shape t);
  tw_quantization : from_option (fun p => survives 9 (scale p) = true) True (mt_quantization t);
}.
Record expert_writable (e : ManifestExpertMapping) : Prop := ExpertWritable {
  ew_ids : is_u32 (me_layerId e) /\ is_u32 (me_expertId e);
  ew_projections : projection_writable (me_gate e) /\ projection_writable (me_up e) /\ projection_writable (me_down e);
}.
Record runtime_writable (a : runtime.ModelArchitecture) : Prop := RuntimeWritable {
  rw_ints : Forall is_u64 [runtime.attentionHeads a; runtime.keyValueHeads a; runtime.headDimension a;
    runtime.projectionHeadDimension a; runtime.vocabularySize a];
  rw_floats : forallb (survives 6) [runtime.ropeTheta a; runtime.epsilon (runtime.inputNormalization a);
    runtime.epsilon (runtime.postAttentionNormalization a); runtime.epsilon (runtime.finalNormalization a)] = true;
}.

(** The manifests a file can hold: the values are those of the C++ types, the shapes
    are contiguous, the model's name is that of its configuration, and each float has
    the digits the stream writes. *)
Record writable (m : ModelManifest) : Prop := Writable {
  wr_name : mc_modelName (mm_config m) = mm_modelName m;
  wr_ints : Forall is_u64 [mm_parameterCount m; mc_layerCount (mm_config m); mc_expertCount (mm_config m);
    mc_hiddenSize (mm_config m); mc_intermediateSize (mm_config m);
    expertCount (ro_config (mm_router m)); topK (ro_config (mm_router m))];
  wr_runtime : from_option runtime_writable True (mm_runtimeArchitecture m);
  wr_routers : Forall (fun t => is_u32 (mr_layerId t)) (ro_tensors (mm_router m));
  wr_tensors : Forall tensor_writable (mm_tensors m);
  wr_experts : Forall expert_writable (mm_experts m);
  wr_layers : Forall (fun l => is_u32 (ml_layerId l)) (mm_layers m);
}.

Lemma u32_nonneg n : is_u32 n -> 0 <= n.
Proof. by intros [? _]. Qed.
Lemma u64_nonneg n : is_u64 n -> 0 <= n.
Proof. by intros [? _]. Qed.
#[local] Hint Resolve u32_nonneg u64_nonneg : core.

Lemma plain_shape_value d s : d <= 127 -> plain_shape s -> Value d (writeShape s) (shape_json s).
Proof. intros Hd (_ & _ & Hs). apply writeShape_value; [done|]. eapply Forall_impl; [exact Hs|]. by intros n [? _]. Qed.

Ltac leaf :=
  cbn [sg_value sg_json string_member word_member number_member quoted_number bool_member member line last_line binding_member];
  first [ apply string_value; lia | apply number_text; [by auto|lia] | apply bool_value; lia
        | apply plain_shape_value; [lia|by auto] | apply writeBinding_value; lia | idtac ].

Lemma writeProjection_value d p : d <= 126 -> projection_writable p -> Value d (writeProjection p) (object_json (projection_segments p)).
Proof.
  intros Hd [[Ho Hs] Hsh]. rewrite writeProjection_text. object; leaf. apply word_value; [lia|]. by destruct (pl_layout p).
Qed.

Lemma write_capabilities_value d c : d <= 127 -> Value d (write_capabilities c) (object_json (capability_segments c)).
Proof. intros Hd. rewrite write_capabilities_text. object; leaf. Qed.

Lemma write_modelIO_value d io : d <= 126 -> Value d (write_modelIO io) (object_json (modelIO_segments io)).
Proof. intros Hd. rewrite write_modelIO_text. object; leaf. Qed.

Lemma write_routerTensor_value d t : d <= 127 -> is_u32 (mr_layerId t) -> Value d (write_routerTensor t) (routerTensor_json t).
Proof. intros Hd Hl. rewrite write_routerTensor_text. object; leaf. Qed.

Lemma write_router_value d r :
  d <= 125 -> is_u64 (expertCount (ro_config r)) -> is_u64 (topK (ro_config r)) ->
  Forall (fun t => is_u32 (mr_layerId t)) (ro_tensors r) -> Value d (write_router r) (object_json (router_segments r)).
Proof.
  intros Hd He Hk Ht. rewrite write_router_text. object; leaf.
  - apply word_value; [lia|]. by destruct (normalization (ro_config r)).
  - apply word_value; [lia|]. by destruct (ro_layout r).
  - apply array_value; [lia|]. eapply Forall_impl; [exact Ht|]. intros t Hl. apply write_routerTensor_value; [lia|exact Hl].
Qed.

(** Digits, signs, points and exponents need no escaping. *)
Lemma digits_plain w : digits w -> forallb plain w = true.
Proof.
  intros Hw. apply forallb_forall. intros c Hc. unfold digits in Hw. rewrite Forall_forall in Hw.
  specialize (Hw c ltac:(by apply list_elem_of_In)).
  assert (implb (is_digit c) (plain c) = true) as H; [|by rewrite Hw in H].
  clear. revert c. apply ascii_forall. vm_compute. reflexivity.
Qed.

Lemma number_plain t : Number t -> forallb plain t = true.
Proof.
  intros [m i f e Hm Hi Hf He]. rewrite !forallb_app. repeat (apply andb_true_iff; split).
  - by destruct Hm.
  - apply digits_plain. by apply integer_digits in Hi as [? _].
  - destruct Hf as [|ds Hds _]; [done|]. cbn. by apply digits_plain in Hds.
  - assert (forall c, implb (is_exponent c || is_sign c) (plain c) = true) as Hp by (apply ascii_forall; vm_compute; reflexivity).
    destruct He as [|x ds Hx Hds _|x s ds Hx Hs Hds _]; [done|..]; cbn; apply digits_plain in Hds as ->;
      pose proof (Hp x) as Hpx; rewrite Hx in Hpx; cbn in Hpx; rewrite Hpx; [done|].
    pose proof (Hp s) as Hps. rewrite Hs, orb_true_r in Hps. cbn in Hps. by rewrite Hps.
Qed.

Lemma quoted_number_value d n : d <= 128 -> 0 <= n -> Value d (quoted (number n)) (JString (pretty n)).
Proof. intros Hd Hn. apply word_value; [done|]. by apply number_plain, pretty_number. Qed.
Lemma quoted_float_value d x :
  d <= 128 -> isfinite x = true -> Value d (quoted (write_float 6 x)) (JString (string_of_list_ascii (write_float 6 x))).
Proof. intros Hd Hx. apply plain_value; [done|]. by apply number_plain, write_float_number. Qed.

Lemma runtime_validate_floats a u : runtime.validate a = Ok u ->
  Forall (fun x => isfinite x = true) [runtime.ropeTheta a; runtime.epsilon (runtime.inputNormalization a);
    runtime.epsilon (runtime.postAttentionNormalization a); runtime.epsilon (runtime.finalNormalization a)].
Proof. unfold runtime.validate, runtime.normalization_validate. intros H. checks. by repeat constructor. Qed.

Lemma write_runtime_value d a u :
  d <= 127 -> runtime_writable a -> runtime.validate a = Ok u -> Value d (write_runtime a) (object_json (runtime_segments a)).
Proof.
  intros Hd [Hi _] Hv%runtime_validate_floats. rewrite !Forall_cons in Hi. rewrite !Forall_cons in Hv.
  destruct Hi as (H1 & H2 & H3 & H4 & H5 & _), Hv as (F1 & F2 & F3 & F4 & _).
  rewrite write_runtime_text. object; leaf; cbn [sg_value sg_json quoted_float quoted_bool member];
    first [apply quoted_number_value; [lia|by auto]|apply quoted_float_value; [lia|done]|idtac].
  apply plain_value; [lia|]. by destruct (runtime.tiedEmbeddings a).
Qed.

Lemma write_tensor_value d t u :
  d <= 126 -> tensor_writable t -> validate_tensor t = Ok u -> Value d (object_text (tensor_segments t)) (tensor_json t).
Proof.
  intros Hd [[Ho Hs] Hsh Hq] Hv. apply object_value; [lia|done|unfold tensor_segments; by destruct (mt_quantization t)|].
  unfold tensor_segments. apply Forall_app. split.
  - repeat (apply Forall_cons; split); try apply Forall_nil_2; (split; [vm_compute; reflexivity..|]); leaf.
    apply word_value; [lia|]. by destruct (mt_dtype t).
  - destruct (mt_quantization t) as [p|] eqn:Hp; [|done]. repeat (apply Forall_cons; split); [|done].
    split; [vm_compute; reflexivity..|]. cbn [sg_value sg_json member].
    assert (isfinite (scale p) = true) as Hf.
    { unfold validate_tensor in Hv. rewrite Hp in Hv. checks. destruct (mt_dtype t); try done.
      by apply validateParameters_int8 in Hv as [? _]. }
    rewrite write_quantization_text. object; leaf.
    + apply word_value; [lia|done].
    + apply number_value; [lia|]. by apply write_float_number.
    + pose proof (number_value (d + 1 + 1) _ ltac:(lia) (pretty_Z_number (zeroPoint p))) as H. by rewrite txt_of in H.
Qed.

Lemma write_expert_value d e : d <= 125 -> expert_writable e -> Value d (object_text (expert_segments e)) (expert_json e).
Proof. intros Hd [[Hl He] (Hg & Hu & Hw)]. object; leaf; by apply writeProjection_value; [lia|]. Qed.

Lemma write_layer_value d l : d <= 126 -> is_u32 (ml_layerId l) -> Value d (object_text (layer_segments l)) (layer_json l).
Proof. intros Hd Hl. object; leaf. Qed.

Lemma bind_assoc {A B C} (m : result A) (k : A -> result B) (l : B -> result C) :
  res_bind (res_bind m k) l = res_bind m (fun x => res_bind (k x) l).
Proof. by destruct m. Qed.

(** Look up the next field of an object whose keys are known. *)
Ltac fetch :=
  unfold string_at, u64_at, bool_at, size_at, id_at, float_at, array_at, optional_at;
  repeat first
    [ match goal with |- context [require ?k (object_json ?l)] =>
        let r := eval hnf in (require k (object_json l)) in change (require k (object_json l)) with r end
    | match goal with |- context [find ?k (object_json ?l)] =>
        let r := eval hnf in (find k (object_json l)) in change (find k (object_json l)) with r end ];
  cbn [sg_json string_member word_member number_member quoted_number quoted_float quoted_bool bool_member member line last_line
       binding_member res_bind asString asArray].


Lemma asSize_number (n : Z) field : is_u64 n -> asSize (JNumber (pretty n)) field = Ok n.
Proof. intros. by apply asSize_pretty. Qed.
Lemma asSize_string (n : Z) field : is_u64 n -> asSize (JString (pretty n)) field = Ok n.
Proof. intros. by apply asSize_pretty. Qed.

Lemma layout_back l : parseLayout (layout_toString l) = Ok l.
Proof. by destruct l. Qed.
Lemma dtype_back d : parseDType (dtype_toString d) = Ok d.
Proof. by destruct d. Qed.
Lemma architecture_back a : parseArchitecture (architecture_toString a) = Ok a.
Proof. by destruct a. Qed.
Lemma normalization_back n : parse_normalization (normalization_toString n) = Ok n.
Proof. by destruct n. Qed.

Lemma each_back {A} (f : JsonValue -> result A) (json : A -> JsonValue) l :
  Forall (fun x => f (json x) = Ok x) l -> each f (json <$> l) = Ok l.
Proof. induction 1 as [|x l Hx _ IH]; [done|]. cbn. by rewrite Hx, IH. Qed.

Lemma shape_back s : plain_shape s -> parseShape (shape_json s) = Ok s.
Proof.
  intros (Hs & Hn & Hd). unfold parseShape, shape_json. cbn [asArray res_bind].
  rewrite (each_back _ (fun n => JNumber (pretty n))).
  - cbn. by destruct (dimensions s).
  - eapply Forall_impl; [exact Hd|]. intros n Hu. by apply asSize_pretty.
Qed.

Lemma binding_back b : parseBinding (object_json (binding_segments b)) = Ok b.
Proof. unfold parseBinding. fetch. rewrite layout_back. by destruct b. Qed.

Lemma projection_back p : projection_writable p -> parseProjection (object_json (projection_segments p)) = Ok p.
Proof.
  intros [[Ho Hs] Hsh]. unfold parseProjection. fetch. rewrite !asUInt64_pretty by done. cbn [res_bind].
  rewrite shape_back, layout_back by done. by destruct p.
Qed.

Lemma capabilities_back c : parse_capabilities (object_json (capability_segments c)) = Ok c.
Proof. unfold parse_capabilities. fetch. cbn [asBool res_bind]. by destruct c. Qed.

Lemma routerTensor_back t : is_u32 (mr_layerId t) -> parse_routerTensor (routerTensor_json t) = Ok t.
Proof. intros Ht. unfold parse_routerTensor, routerTensor_json. fetch. rewrite asId_pretty by done. by destruct t. Qed.

Lemma modelIO_back io : parse_modelIO (object_json (modelIO_segments io)) = Ok io.
Proof. unfold parse_modelIO. fetch. rewrite binding_back. cbn [asBool res_bind]. by destruct io. Qed.

Lemma router_back r : is_u64 (expertCount (ro_config r)) -> is_u64 (topK (ro_config r)) ->
  parse_router (object_json (router_segments r)) = Ok (ro_config r, ro_layout r).
Proof.
  intros He Hk. unfold parse_router. fetch. rewrite !asSize_number by done. cbn [res_bind].
  rewrite normalization_back. cbn [asBool res_bind]. rewrite layout_back. by destruct r as [[] ? ?].
Qed.

Lemma bool_text_back b : asBool (JString (string_of_list_ascii (bool_text b))) = Ok b.
Proof. by destruct b. Qed.

Lemma string_float_back x precision : survives precision x = true ->
  exists y, asDouble (JString (string_of_list_ascii (write_float precision x))) = Ok y /\ f32_of_f64 y = x.
Proof. intros (y & _ & H & <-)%survives_read. eauto. Qed.

Lemma runtime_back config router a :
  runtime_writable a -> runtime.layerCount a = mc_layerCount config -> runtime.hiddenDimension a = mc_hiddenSize config ->
  runtime.expertCount a = mc_expertCount config -> runtime.topK a = topK router ->
  parse_runtime config router (object_json (runtime_segments a)) = Ok a.
Proof.
  intros [Hi Hf] H1 H2 H3 H4. rewrite !Forall_cons in Hi. destruct Hi as (I1 & I2 & I3 & I4 & I5 & _).
  cbn in Hf. rewrite !andb_true_iff in Hf. destruct Hf as (F1 & F2 & F3 & F4 & _).
  unfold parse_runtime. fetch. rewrite !asSize_number, !asSize_string by done. cbn [res_bind].
  
  apply string_float_back in F1 as (y1 & E1 & F1), F2 as (y2 & E2 & F2), F3 as (y3 & E3 & F3), F4 as (y4 & E4 & F4).
  rewrite bool_text_back, E1, E2, E3, E4. cbn [res_bind]. rewrite F1, F2, F3, F4.
  rewrite <- H1, <- H2, <- H3, <- H4. destruct a as [???????????[][][]]. reflexivity.
Qed.

Lemma quantization_back p : survives 9 (scale p) = true -> validateParameters QINT8 p = Ok tt ->
  parseQuantization (object_json (quantization_segments p)) = Ok p.
Proof.
  intros (y & E & _ & F)%survives_read Hv. unfold parseQuantization. fetch. cbn [String.eqb Ascii.eqb Bool.eqb].
  rewrite E. cbn [res_bind]. rewrite asInt32_pretty by (by apply validateParameters_int8 in Hv as (_ & _ & ?)). cbn [res_bind].
  rewrite F. replace (mkQuantization (scale p) (zeroPoint p)) with p by (by destruct p). by rewrite Hv.
Qed.

Lemma tensor_back t : tensor_writable t -> validate_tensor t = Ok tt -> parse_tensor (tensor_json t) = Ok t.
Proof.
  intros [[Ho Hs] Hsh Hq] Hv. unfold parse_tensor, tensor_json, tensor_segments. destruct (mt_quantization t) as [p|] eqn:Hp.
  - assert (validateParameters QINT8 p = Ok tt) as Hval.
    { unfold validate_tensor in Hv. rewrite Hp in Hv. checks. by destruct (mt_dtype t). }
    cbn [app]. fetch. rewrite !asUInt64_pretty by done. cbn [res_bind]. rewrite dtype_back, shape_back by done. cbn [res_bind].
    unfold some_of. rewrite quantization_back by done. cbn [res_bind]. rewrite <- Hp. by destruct t.
  - cbn [app]. fetch. rewrite !asUInt64_pretty by done. cbn [res_bind]. rewrite dtype_back, shape_back by done. cbn [res_bind].
    rewrite <- Hp. by destruct t.
Qed.

Lemma expert_back e : expert_writable e -> parse_expert (expert_json e) = Ok e.
Proof.
  intros [[Hl He] (Hg & Hu & Hw)]. unfold parse_expert, expert_json. fetch. rewrite !asId_pretty by done. cbn [res_bind].
  rewrite !projection_back by done. by destruct e.
Qed.

Lemma layer_back l : is_u32 (ml_layerId l) -> parse_layer (layer_json l) = Ok l.
Proof.
  intros Hl. unfold parse_layer, layer_json. fetch. rewrite asId_pretty by done. cbn [res_bind].
  rewrite !binding_back. cbn [res_bind]. by destruct l.
Qed.

Definition manifest_json (m : ModelManifest) : JsonValue := object_json (manifest_segments m).

Lemma validate_parts walk m : validate walk m = Ok tt ->
  validate_configuration m = Ok tt /\ Forall (fun t => validate_tensor t = Ok tt) (mm_tensors m).
Proof.
  unfold validate. intros ([] & Hc & H)%bind_ok. split; [done|]. apply bind_ok in H as (byName & Ht & _). revert Ht.
  generalize (∅ : gmap string ManifestTensor). generalize (mm_tensors m). clear. intros l.
  induction l as [|t l IH]; intros names H; [constructor|]. cbn in H. apply bind_ok in H as ([] & Ht & H).
  constructor; [done|]. destruct (names !! mt_name t); [done|]. by eapply IH.
Qed.

Lemma manifest_back walk m : writable m -> validate walk m = Ok tt -> read_manifest (manifest_json m) = Ok m.
Proof.
  intros [Hname Hi Hr Hro Ht He Hl] (Hc & Hvt)%validate_parts. rewrite !Forall_cons in Hi. destruct Hi as (I1 & I2 & I3 & I4 & I5 & I6 & I7 & _).
  assert (each parse_tensor (tensor_json <$> mm_tensors m) = Ok (mm_tensors m)) as Et.
  { apply each_back. eapply Forall_impl; [apply Forall_and; split; [exact Ht|exact Hvt]|]. intros t [? ?]. by apply tensor_back. }
  assert (each parse_expert (expert_json <$> mm_experts m) = Ok (mm_experts m)) as Ee.
  { apply each_back. eapply Forall_impl; [exact He|]. intros. by apply expert_back. }
  assert (each parse_layer (layer_json <$> mm_layers m) = Ok (mm_layers m)) as El.
  { apply each_back. eapply Forall_impl; [exact Hl|]. intros. by apply layer_back. }
  assert (each parse_routerTensor (routerTensor_json <$> ro_tensors (mm_router m)) = Ok (ro_tensors (mm_router m))) as Er.
  { apply each_back. eapply Forall_impl; [exact Hro|]. intros. by apply routerTensor_back. }
  assert (forall config, config = mm_config m ->
    from_option (fun a => parse_runtime config (ro_config (mm_router m)) (object_json (runtime_segments a)) = Ok a) True
      (mm_runtimeArchitecture m)) as Ea.
  { intros ? ->. destruct (mm_runtimeArchitecture m) as [a|] eqn:Ha; [|done]. cbn. unfold validate_configuration in Hc.
    rewrite Ha in Hc. checks. by apply runtime_back. }
  assert (mkModelConfig (mm_modelName m) (mc_layerCount (mm_config m)) (mc_expertCount (mm_config m)) (mc_hiddenSize (mm_config m))
    (mc_intermediateSize (mm_config m)) (mc_capabilities (mm_config m)) = mm_config m) as Econfig.
  { rewrite <- Hname. by destruct (mm_config m). }
  unfold read_manifest, manifest_json, manifest_segments.
  destruct (mm_runtimeArchitecture m) as [a|] eqn:Ha, (mm_modelIO m) as [io|] eqn:Hio; cbn [app]; fetch;
    rewrite architecture_back; cbn [res_bind]; rewrite asUInt64_pretty by done; cbn [res_bind];
    rewrite !asSize_number by done; cbn [res_bind]; rewrite capabilities_back; cbn [res_bind];
    rewrite router_back by done; cbn [res_bind fst snd]; rewrite Econfig; unfold some_of;
    cbn [from_option] in Ea; rewrite ?(Ea _ eq_refl), ?modelIO_back; cbn [res_bind];
    fetch; rewrite Er; cbn [res_bind]; rewrite Et, Ee, El; cbn [res_bind]; rewrite <- Ha, <- Hio;
    by destruct m as [???????[] ????].
Qed.

Lemma manifest_value walk m : writable m -> validate walk m = Ok tt -> Value 0 (object_text (manifest_segments m)) (manifest_json m).
Proof.
  intros [_ Hi Hr Hro Ht He Hl] (Hc & Hvt)%validate_parts. rewrite !Forall_cons in Hi. destruct Hi as (I1 & I2 & I3 & I4 & I5 & I6 & I7 & _).
  apply object_value; [lia|done|unfold manifest_segments; by destruct (mm_runtimeArchitecture m), (mm_modelIO m)|].
  unfold manifest_segments. rewrite !Forall_app. split; [|split; [|split]].
  - repeat (apply Forall_cons; split); try apply Forall_nil_2; (split; [vm_compute; reflexivity..|]); leaf.
    + apply word_value; [lia|]. unfold validate_configuration in Hc. apply bind_ok in Hc as (? & Hs & _). apply throw_if_ok in Hs.
      apply andb_false_iff in Hs as [->%negb_false_iff%String.eqb_eq| ->%negb_false_iff%String.eqb_eq]; done.
    + apply word_value; [lia|]. by destruct (mm_architecture m).
    + apply write_capabilities_value. lia.
  - destruct (mm_runtimeArchitecture m) as [a|] eqn:Ha; [|done]. cbn in Hr. apply Forall_cons; split; [|done].
    split; [vm_compute; reflexivity..|]. leaf. unfold validate_configuration in Hc. rewrite Ha in Hc. checks.
    by eapply write_runtime_value; [lia|..].
  - destruct (mm_modelIO m) as [io|]; [|done]. apply Forall_cons; split; [|done]. split; [vm_compute; reflexivity..|]. leaf.
    apply write_modelIO_value. lia.
  - repeat (apply Forall_cons; split); try apply Forall_nil_2; (split; [vm_compute; reflexivity..|]); leaf.
    + by apply write_router_value; [lia|..].
    + apply (lines_value _ (js "    ") (fun t => object_text (tensor_segments t))); [lia|done|apply write_tensor_text|].
      eapply Forall_impl; [apply Forall_and; split; [exact Ht|exact Hvt]|]. intros t [? ?]. by eapply write_tensor_value; [lia|..].
    + apply (lines_value _ (js "    ") (fun e => object_text (expert_segments e))); [lia|done|apply write_expert_text|].
      eapply Forall_impl; [exact He|]. intros e Hw. apply write_expert_value; [lia|exact Hw].
    + apply (lines_value _ (js "    ") (fun l => object_text (layer_segments l))); [lia|done|apply write_layer_text|].
      eapply Forall_impl; [exact Hl|]. intros l Hw. apply write_layer_value; [lia|exact Hw].
Qed.

(** C9: A manifest that validates and can be written is read back from the bytes
    [toJson] writes, field for field: names are escaped, integers are in decimal, and
    each float has the digits the stream writes (six for the runtime parameters, nine
    for a quantization scale); a file of at most the size the reader accepts loads. *)
Theorem manifest_roundtrip walk m t
    (Hm : writable m) (Ht : toJson walk m = Ok t) (Hsize : Z.of_nat (length t) <= maximumBytes) :
  parseJson (string_of_list_ascii t) = Ok (manifest_json m) /\
  load walk (string_of_list_ascii t) = Ok m.
Proof.
  unfold toJson in Ht. apply bind_ok in Ht as ([] & Hv & [= <-]).
  assert (parseJson (string_of_list_ascii (manifest_text m)) = Ok (manifest_json m)) as Hp.
  { apply parseJson_complete. rewrite of_txt, manifest_text_object.
    apply (D_doc [] _ nl); [constructor|by eapply manifest_value|by apply spaces_check]. }
  split; [done|]. unfold load, parseJsonFile.
  assert (String.length (string_of_list_ascii (manifest_text m)) = length (manifest_text m)) as ->.
  { clear. induction (manifest_text m) as [|c l IH]; cbn; congruence. }
  rewrite (proj2 (Z.ltb_ge _ _)) by done. cbn [throw_if res_bind]. rewrite Hp. cbn [res_bind].
  rewrite (manifest_back walk m) by done. cbn [res_bind]. by rewrite Hv.
Qed.

(** Witness: a model of one layer and one quantized expert. *)
Definition sample_matrix (a b : Z) : Shape := mkShape [a; b] [b; 1] (a * b) (a * b).
Definition sample_vector (a : Z) : Shape := mkShape [a] [1] a a.
Definition sample_scale : QuantizationParameters := mkQuantization (f32_of_f64 (f64_lit 1 127)) (-3).
Definition weight (name : string) (offset : Z) (s : Shape) : ManifestTensor :=
  mkManifestTensor name "model/a.safetensors" offset (4 * elementCount s) FP32 s None.
Definition packed (name : string) (offset : Z) : ManifestTensor :=
  mkManifestTensor name "b.safetensors" offset 4 INT8 (sample_matrix 2 2) (Some sample_scale).
Definition in_packed (name : string) (offset : Z) : ProjectionLocation :=
  mkProjection name offset 4 (sample_matrix 2 2) OutputInput.
Definition bound (name : string) : ManifestTensorBinding := mkBinding name OutputInput.
Definition sample_norm : runtime.NormalizationConfiguration := runtime.mkNormalization (f32_of_f64 (f64_lit 1 1000000)).
Definition sample_runtime (theta : f32) : runtime.ModelArchitecture :=
  runtime.mkArchitecture 1 2 1 1 2 2 1 1 3 false theta sample_norm sample_norm sample_norm.
Definition sample_name : string := string_of_list_ascii (js "tiny 'model'").
Definition sample_manifest (theta : f32) : ModelManifest :=
  mkManifest schemaVersion sample_name QWEN_MOE "Qwen3Moe" 42
    (mkModelConfig sample_name 1 1 2 2 (mkCapabilities true true true true false true))
    (Some (sample_runtime theta))
    (mkManifestRouter (mkRouterConfig 1 1 Softmax true) [mkRouterTensor 0 "router"] OutputInput)
    [weight "router" 0 (sample_matrix 1 2); weight "q" 8 (sample_matrix 2 2); weight "norm" 24 (sample_vector 2);
     weight "vocab" 32 (sample_matrix 3 2); packed "gate" 0; packed "up" 4; packed "down" 8]
    [mkMapping 0 0 (in_packed "gate" 0) (in_packed "up" 4) (in_packed "down" 8)]
    [mkLayer 0 (bound "q") (bound "q") (bound "q") (bound "q") "norm" "norm" "router" EmptyString EmptyString]
    (Some (mkModelIO "vocab" "norm" (bound "vocab") false)).
Definition sample_theta : f32 := f32_of_Z 10000.
Definition text_of (r : result text) : text := match r with Ok t => t | _ => [] end.

Ltac in_range := repeat apply Forall_cons_2; try apply Forall_nil_2; unfold is_u32, is_u64, u32_max, u64_max; cbn; try lia.

Lemma sample_plain a b : is_u64 a -> is_u64 b -> contiguousShape [a; b] = Ok (sample_matrix a b) -> plain_shape (sample_matrix a b).
Proof. intros Ha Hb Hs. split; [exact Hs|]. split; [done|]. cbn. by rewrite !Forall_cons. Qed.

Lemma sample_projection_writable name offset : is_u64 offset -> projection_writable (in_packed name offset).
Proof.
  intros Ho. split; [split; [done|in_range; lia]|]. apply sample_plain; [in_range; lia..|reflexivity].
Qed.

Lemma sample_writable : writable (sample_manifest sample_theta).
Proof.
  split; [done|by in_range| | |  | |by in_range].
  - split; [by in_range|vm_compute; reflexivity].
  - by in_range.
  - repeat apply Forall_cons_2; try apply Forall_nil_2; (split; [split; in_range; lia| |vm_compute; try exact I; reflexivity]);
      first [apply sample_plain; [in_range; lia..|reflexivity] | (split; [reflexivity|split; [done|by in_range]])].
  - apply Forall_cons_2; [|apply Forall_nil_2]. split; [split; in_range; lia|].
    split_and!; apply sample_projection_writable; in_range; lia.
Qed.

Lemma sample_written : toJson map_to_list (sample_manifest sample_theta) = Ok (manifest_text (sample_manifest sample_theta)) /\
  Z.of_nat (length (manifest_text (sample_manifest sample_theta))) <= maximumBytes.
Proof. vm_compute. split; [reflexivity|discriminate]. Qed.

Lemma manifest_roundtrip_witness :
  writable (sample_manifest sample_theta) /\
  load map_to_list (string_of_list_ascii (manifest_text (sample_manifest sample_theta))) = Ok (sample_manifest sample_theta).
Proof.
  split; [exact sample_writable|].
  exact (proj2 (manifest_roundtrip map_to_list (sample_manifest sample_theta) _ sample_writable
    (proj1 sample_written) (proj2 sample_written))).
Defined.

(** The six digits of the stream do not carry every value: 1234567 comes back as 1234570. *)
Definition loaded_theta (r : result ModelManifest) : option f32 :=
  match r with Ok m => runtime.ropeTheta <$> mm_runtimeArchitecture m | _ => None end.
Lemma rope_theta_loses_digits :
  validate map_to_list (sample_manifest (f32_of_Z 1234567)) = Ok tt /\
  loaded_theta (load map_to_list (string_of_list_ascii (manifest_text (sample_manifest (f32_of_Z 1234567))))) = Some (f32_of_Z 1234570).
Proof. vm_compute. split; reflexivity. Qed.

Lemma sample_matrix_wf a b : is_u64 a -> is_u64 b -> contiguousShape [a; b] = Ok (sample_matrix a b) -> shape_wf (sample_matrix a b).
Proof.
  intros Ha Hb Hs. pose proof (contiguousShape_spec [a; b] ltac:(by rewrite !Forall_cons)) as H. rewrite Hs in H. apply H.
Qed.
Lemma sample_vector_wf : shape_wf (sample_vector 2).
Proof.
  pose proof (contiguousShape_spec [2] ltac:(by in_range)) as H.
  rewrite (eq_refl : contiguousShape [2] = Ok (sample_vector 2)) in H. apply H.
Qed.

Lemma sample_typed : manifest_typed (sample_manifest sample_theta).
Proof.
  split.
  - repeat apply Forall_cons_2; try apply Forall_nil_2; (split; [by in_range|split; [by in_range|]]);
      try (apply sample_matrix_wf; [by in_range..|reflexivity]).
    exact sample_vector_wf.
  - apply Forall_cons_2; [|apply Forall_nil_2]. split; [by in_range|]. split; [by in_range|].
    repeat apply Forall_cons_2; try apply Forall_nil_2; split; by in_range.
  - by in_range.
Qed.

Lemma sample_valid : validate map_to_list (sample_manifest sample_theta) = Ok tt.
Proof. vm_compute. reflexivity. Qed.

Lemma validated_manifest_witness :
  validate map_to_list (sample_manifest sample_theta) = Ok tt /\
  exists e, e ∈ mm_experts (sample_manifest sample_theta) /\ identity_of e = (0, 0).
Proof.
  split; [exact sample_valid|].
  apply (mw_complete _ (validated_manifest map_to_list (sample_manifest sample_theta) (fun c => reflexivity _) sample_typed sample_valid)).
  - apply elem_of_cons. left. reflexivity.
  - cbn. lia.
Defined.
