(* ===== verification/SafeTensors.v ===== *)
(** * SafeTensors files and shards

    [src/importer/SafeTensors.cpp] and [SafeTensorShardManager.cpp]: the tensors a
    checkpoint declares and the bytes read from them.  A file is its contents; an
    artifact is a file or a directory without symbolic links, whose regular files are
    known by their normal paths relative to it. *)

From Stdlib Require Import String Ascii.
From stdpp Require Import strings.
From S2P Require Import Prelude Tiers Json JsonGrammar Tensor Manifest ManifestJson.

#[local] Open Scope Z_scope.

(** ** Paths *)

Definition components (path : string) : list (list ascii) := path_components [] (list_ascii_of_string path).

Definition safeRelative (path : string) : bool := negb (is_empty path || is_absolute path) && negb (climbs path).

(** [lexically_normal] of a path without [..]. *)
Definition lexically_normal (path : string) : string :=
  let l := filter (fun c => c <> [] /\ c <> ["."%char]) (components path) in
  string_of_list_ascii
    match l with
    | [] => ["."%char]
    | c :: l => foldl (fun acc c => acc ++ slash :: c) c l
    end.

(** The text from the last point of the last component on, unless it starts there. *)
Fixpoint last_point (l : list ascii) : option (list ascii) :=
  match l with
  | [] => None
  | c :: l => match last_point l with
              | Some e => Some e
              | None => if Ascii.eqb c "."%char then Some (c :: l) else None
              end
  end.
Definition extension (path : string) : string :=
  match list.last (components path) with
  | Some ((_ :: (_ :: _ as rest)) as name) =>
      if bool_decide (name = [".";"."]%char) then EmptyString
      else match last_point rest with Some e => string_of_list_ascii e | None => EmptyString end
  | _ => EmptyString
  end.

(** [operator<] on paths compares the components one by one. *)
Fixpoint text_less (a b : list ascii) : bool :=
  match a, b with
  | _, [] => false
  | [], _ :: _ => true
  | x :: a, y :: b => (code x <? code y) || ((code x =? code y) && text_less a b)
  end.
Fixpoint components_less (a b : list (list ascii)) : bool :=
  match a, b with
  | _, [] => false
  | [], _ :: _ => true
  | x :: a, y :: b => text_less x y || (bool_decide (x = y) && components_less a b)
  end.
Definition path_less (a b : string) : bool := components_less (components a) (components b).
Definition string_less (a b : string) : bool := text_less (list_ascii_of_string a) (list_ascii_of_string b).

(** ** One file *)

Definition maximumHeaderBytes : Z := 100 * 1024 * 1024.

Definition parseSafeTensorDType (value : string) : result DType :=
  if String.eqb value "F32" then Ok FP32
  else if String.eqb value "F16" then Ok FP16
  else if String.eqb value "BF16" then Ok BF16
  else if String.eqb value "I8" then Ok INT8
  else metadata_error ("SafeTensors dtype is not yet supported by HyperMoE: " ++ value)%string.

Definition littleEndian64 (bytes : text) : Z :=
  snd (foldl (fun '(index, value) c => (index + 1, Z.lor value (Z.shiftl (code c) (index * 8)))) (0, 0) bytes).

Fixpoint parse_dimensions (l : list JsonValue) : result (list Z) :=
  match l with
  | [] => Ok []
  | d :: l =>
      (n <-? asUInt64 d ;;
       throw_if (n =? 0) (Exn MetadataError "invalid SafeTensors shape") ;;?
       dims <-? parse_dimensions l ;;
       Ok (n :: dims))%res
  end.

(** One entry of the header. *)
Definition inspect_entry (relative : string) (headerSize fileSize : Z) (name : string) (value : JsonValue)
    : result ManifestTensor :=
  (shape <-? (w <-? require "shape" value ;; asArray w) ;;
   dimensions <-? parse_dimensions shape ;;
   throw_if (bool_decide (dimensions = []))
     (Exn MetadataError "scalar SafeTensors are not supported") ;;?
   offsets <-? (w <-? require "data_offsets" value ;; asArray w) ;;
   match offsets with
   | [first; second] =>
       start <-? asUInt64 first ;;
       end_ <-? asUInt64 second ;;
       throw_if (end_ <=? start) (Exn MetadataError "SafeTensors range is empty or reversed") ;;?
       let dataBase := wrap64 (8 + headerSize) in
       throw_if ((wrap64 (u64_max - dataBase) <? start) || (wrap64 (fileSize - dataBase) <? end_))
         (Exn MetadataError "SafeTensors range exceeds file") ;;?
       let offset := wrap64 (dataBase + start) in
       let size := wrap64 (end_ - start) in
       dtype <-? (w <-? string_at "dtype" value ;; parseSafeTensorDType w) ;;
       shape <-? contiguousShape dimensions ;;
       throw_if ((u64_max / dtype_sizeOf dtype <? storageElementCount shape) ||
                 negb (wrap64 (storageElementCount shape * dtype_sizeOf dtype) =? size))
         (Exn MetadataError "SafeTensors shape, dtype, and byte range disagree") ;;?
       Ok (mkManifestTensor name (lexically_normal relative) offset size dtype shape None)
   | _ => Throw (Exn MetadataError "SafeTensors range needs two offsets")
   end)%res.

Fixpoint inspect_entries (relative : string) (headerSize fileSize : Z) (l : list (string * JsonValue))
    : result (list ManifestTensor) :=
  match l with
  | [] => Ok []
  | (name, value) :: l =>
      if String.eqb name "__metadata__" then inspect_entries relative headerSize fileSize l
      else (t <-? inspect_entry relative headerSize fileSize name value ;;
            ts <-? inspect_entries relative headerSize fileSize l ;;
            Ok (t :: ts))%res
  end.

Definition by_offset (left right : ManifestTensor) : bool := mt_offset left <? mt_offset right.
Fixpoint overlap (l : list ManifestTensor) : bool :=
  match l with
  | a :: ((b :: _) as rest) => (mt_offset b <? wrap64 (mt_offset a + mt_size a)) || overlap rest
  | _ => false
  end.

(** [inspectFile] of a file that was resolved to a path relative to the artifact. *)
Definition inspectFile (relative : string) (contents : text) : result (list ManifestTensor) :=
  let fileSize := Z.of_nat (length contents) in
  (throw_if (negb (safeRelative relative))
     (Exn MetadataError "SafeTensors file escapes artifact root") ;;?
   throw_if (fileSize <? 8) (Exn MetadataError "invalid SafeTensors file size") ;;?
   let headerSize := littleEndian64 (take 8 contents) in
   throw_if ((headerSize =? 0) || (maximumHeaderBytes <? headerSize) || (fileSize - 8 <? headerSize))
     (Exn MetadataError "invalid SafeTensors header length") ;;?
   root <-? parseJson (string_of_list_ascii (take (Z.to_nat headerSize) (drop 8 contents))) ;;
   object <-? asObject root ;;
   tensors <-? inspect_entries relative headerSize fileSize object ;;
   throw_if (overlap (stable_sort by_offset tensors))
     (Exn MetadataError "SafeTensors tensor byte ranges overlap") ;;?
   Ok tensors)%res.

(** ** The shards of an artifact *)

Record SafeTensorShard : Type := mkShard { sh_relativePath : string; sh_fileSize : Z; sh_tensorCount : Z }.

Inductive Artifact : Type :=
  | SingleFile (name : string) (contents : text)
  | Directory (entries : gmap string text).
Definition file_at (artifact : Artifact) (path : string) : option text :=
  match artifact with
  | SingleFile name contents => if String.eqb path name then Some contents else None
  | Directory entries => entries !! lexically_normal path
  end.

Record SafeTensorShardManager : Type := mkShards {
  shards_ : list SafeTensorShard;
  tensors_ : list ManifestTensor;
  lookup_ : gmap string nat;
}.

Definition index_file : string := "model.safetensors.index.json".
Definition suffix : string := ".safetensors".

(** The weights an index declares, and its shards. *)
Fixpoint read_index (weights : list (string * string)) (shards : gset string) (l : list (string * JsonValue))
    : result (list (string * string) * gset string) :=
  match l with
  | [] => Ok (weights, shards)
  | (name, value) :: l =>
      (declared <-? asString value ;;
       throw_if (is_empty name || negb (safeRelative declared) || negb (String.eqb (extension declared) suffix))
         (Exn MetadataError "SafeTensors shard index mapping is unsafe") ;;?
       read_index (weights ++ [(name, lexically_normal declared)]) ({[lexically_normal declared]} ∪ shards) l)%res
  end.

(** A loop over files that adds tensors under names not seen before. *)
Fixpoint emplace_tensors (found : gmap string nat) (tensors : list ManifestTensor) (l : list ManifestTensor)
    : result (gmap string nat * list ManifestTensor) :=
  match l with
  | [] => Ok (found, tensors)
  | t :: l =>
      match found !! mt_name t with
      | Some _ => metadata_error "duplicate tensor name across SafeTensors shards"
      | None => emplace_tensors (<[mt_name t := length tensors]> found) (tensors ++ [t]) l
      end
  end.

Fixpoint inspect_files (artifact : Artifact) (m : SafeTensorShardManager) (l : list string)
    : result SafeTensorShardManager :=
  match l with
  | [] => Ok m
  | file :: l =>
      match file_at artifact file with
      | None => metadata_error "cannot resolve SafeTensors file"
      | Some contents =>
          (shardTensors <-? inspectFile file contents ;;
           added <-? emplace_tensors (lookup_ m) (tensors_ m) shardTensors ;;
           inspect_files artifact
             (mkShards (shards_ m ++ [mkShard (lexically_normal file) (Z.of_nat (length contents)) (Z.of_nat (length shardTensors))])
                added.2 added.1) l)%res
      end
  end.

Definition find (name : string) (m : SafeTensorShardManager) : option ManifestTensor :=
  lookup_ m !! name ≫= fun index => tensors_ m !! index.

Definition by_name (left right : ManifestTensor) : bool := string_less (mt_name left) (mt_name right).

(** The lookup table after the final sort: [emplace] keeps the first of a name. *)
Definition index_tensors (l : list ManifestTensor) : gmap string nat :=
  snd (foldl (fun '(index, found) t =>
         (S index, match found !! mt_name t with Some _ => found | None => <[mt_name t := index]> found end))
       (O, ∅) l).

Definition check_declared (weights : list (string * string)) (m : SafeTensorShardManager) : result unit :=
  if bool_decide (weights = []) then Ok tt
  else (throw_if (negb (length weights =? length (tensors_ m))%nat)
          (Exn MetadataError "SafeTensors shard index tensor count mismatch") ;;?
        throw_if (existsb (fun '(name, declared) =>
                    match find name m with Some t => negb (String.eqb (mt_sourceFile t) declared) | None => true end) weights)
          (Exn MetadataError "SafeTensors shard index mapping is inconsistent"))%res.

Definition top_level (path : string) : bool := (length (components path) =? 1)%nat.

(** The files to inspect, in the order the directory is walked, and what the index
    declares. *)
Definition list_files (walk : gmap string text -> list (string * text)) (artifact : Artifact)
    : result (list string * list (string * string)) :=
  match artifact with
  | SingleFile name _ =>
      (throw_if (negb (String.eqb (extension name) suffix)) (Exn MetadataError "artifact file is not SafeTensors") ;;?
       Ok ([name], []))%res
  | Directory entries =>
      match entries !! index_file with
      | Some contents =>
          (root <-? parseJsonFile (string_of_list_ascii contents) ;;
           object <-? (w <-? require "weight_map" root ;; asObject w) ;;
           declared <-? read_index [] ∅ object ;;
           throw_if (bool_decide (declared.1 = [])) (Exn MetadataError "SafeTensors shard index has no tensors") ;;?
           Ok (elements declared.2, declared.1))%res
      | None =>
          Ok (filter (fun path => top_level path && String.eqb (extension path) suffix = true) (walk entries).*1, [])
      end
  end.

Definition newShards (walk : gmap string text -> list (string * text)) (artifact : Artifact)
    : result SafeTensorShardManager :=
  (listed <-? list_files walk artifact ;;
   throw_if (bool_decide (listed.1 = [])) (Exn MetadataError "no SafeTensors shards found") ;;?
   m <-? inspect_files artifact (mkShards [] [] ∅) (stable_sort path_less listed.1) ;;
   check_declared listed.2 m ;;?
   let sorted := stable_sort by_name (tensors_ m) in
   Ok (mkShards (shards_ m) sorted (index_tensors sorted)))%res.

Definition i64_max : Z := 9223372036854775807.

Definition readRange (artifact : Artifact) (name : string) (relativeOffset size : Z) (m : SafeTensorShardManager)
    : result text :=
  match find name m with
  | None => metadata_error "unknown SafeTensors tensor"
  | Some t =>
      (throw_if ((size =? 0) || (mt_size t <? relativeOffset) || (wrap64 (mt_size t - relativeOffset) <? size) ||
                 (u64_max - relativeOffset <? mt_offset t) || (i64_max <? size))
         (Exn MetadataError "SafeTensors range request is invalid") ;;?
       let absolute := wrap64 (mt_offset t + relativeOffset) in
       throw_if (i64_max <? absolute) (Exn MetadataError "SafeTensors range is not addressable") ;;?
       match file_at artifact (mt_sourceFile t) with
       | Some contents =>
           throw_if (Z.of_nat (length contents) <? absolute + size)
             (Exn MetadataError "SafeTensors range read is truncated") ;;?
           Ok (take (Z.to_nat size) (drop (Z.to_nat absolute) contents))
       | None => metadata_error "SafeTensors range read is truncated"
       end)%res
  end.

Definition readTensor (artifact : Artifact) (name : string) (m : SafeTensorShardManager) : result text :=
  match find name m with
  | None => metadata_error "unknown SafeTensors tensor"
  | Some t => readRange artifact name 0 (mt_size t) m
  end.

(** ** Errors *)

(** What reading a checkpoint may throw. *)
Definition load_error (e : exn) : Prop :=
  kind_of e = MetadataError \/ kind_of e = InvalidArgument \/ kind_of e = OverflowError.
Definition loads {A} (r : result A) : Prop :=
  match r with Ok _ => True | Throw e => load_error e | Diverge => False end.

Lemma loads_bind {A B} (m : result A) (k : A -> result B) : loads m -> (forall a, m = Ok a -> loads (k a)) -> loads (res_bind m k).
Proof. destruct m; cbn; auto. Qed.
Lemma loads_throw_if c message : loads (throw_if c (Exn MetadataError message)).
Proof. destruct c; cbn; [by left|done]. Qed.
Lemma loads_metadata {A} message : loads (metadata_error message : result A).
Proof. by left. Qed.
Lemma loads_throw {A} message : loads (Throw (Exn MetadataError message) : result A).
Proof. by left. Qed.
Lemma loads_asUInt64 v : loads (asUInt64 v).
Proof. unfold asUInt64. destruct v; cbn; try (by left); destruct (from_chars_u64 _); cbn; first [done|by left]. Qed.
Lemma loads_asString v : loads (asString v).
Proof. destruct v; cbn; first [done|by left]. Qed.
Lemma loads_asArray v : loads (asArray v).
Proof. destruct v; cbn; first [done|by left]. Qed.
Lemma loads_asObject v : loads (asObject v).
Proof. destruct v; cbn; first [done|by left]. Qed.
Lemma loads_require k v : loads (require k v).
Proof. unfold require. apply loads_bind; [apply loads_asObject|]. intros o _. destruct (find_key k o); cbn; first [done|by left]. Qed.
Lemma loads_contiguousShape dims : loads (contiguousShape dims).
Proof.
  unfold contiguousShape. apply loads_bind; [|by intros]. unfold validateAndCount. generalize 1.
  induction dims as [|d dims IH]; intros n; cbn; [done|]. destruct (d =? 0); cbn; [right; by left|].
  destruct (_ <? n); cbn; [right; by right|]. apply IH.
Qed.
Lemma loads_parseJson s : loads (parseJson s).
Proof. destruct (parseJson_sound s) as [(v & -> & _)|(e & -> & He)]; [done|by left]. Qed.
Lemma loads_parseJsonFile s : loads (parseJsonFile s).
Proof. unfold parseJsonFile. apply loads_bind; [apply loads_throw_if|]. intros _ _. apply loads_parseJson. Qed.
Lemma loads_dtype s : loads (parseSafeTensorDType s).
Proof. unfold parseSafeTensorDType. repeat (destruct (String.eqb s _); [done|]). by left. Qed.

Create HintDb loads.
#[local] Hint Resolve loads_throw_if loads_throw loads_metadata loads_asUInt64 loads_asString loads_asArray loads_asObject loads_require
  loads_contiguousShape loads_parseJson loads_parseJsonFile loads_dtype : loads.
Ltac loads := repeat first [ solve [auto with loads] | apply loads_bind; [|intros ? ?] | exact I ].

Lemma loads_parse_dimensions l : loads (parse_dimensions l).
Proof. induction l; cbn; loads. Qed.
#[local] Hint Resolve loads_parse_dimensions : loads.

Lemma loads_inspect_entry relative h n name v : loads (inspect_entry relative h n name v).
Proof.
  unfold inspect_entry, string_at. loads.
  match goal with |- context [match ?l with _ => _ end] => destruct l as [|x [|y [|? ?]]] end; loads.
Qed.
#[local] Hint Resolve loads_inspect_entry : loads.

Lemma loads_inspect_entries relative h n l : loads (inspect_entries relative h n l).
Proof. induction l as [|[name v] l IH]; cbn; [done|]. destruct (String.eqb _ _); loads. Qed.
#[local] Hint Resolve loads_inspect_entries : loads.

Lemma loads_inspectFile relative contents : loads (inspectFile relative contents).
Proof. unfold inspectFile. loads. Qed.

(** ** What inspection establishes *)

Record tensor_in (headerSize fileSize : Z) (t : ManifestTensor) : Prop := TensorIn {
  ti_range : 8 + headerSize <= mt_offset t /\ 0 < mt_size t /\ mt_offset t + mt_size t <= fileSize;
  ti_shape : shape_wf (mt_shape t) /\ dimensions (mt_shape t) <> [];
  ti_size : mt_size t = product (dimensions (mt_shape t)) * dtype_sizeOf (mt_dtype t);
}.

Lemma decimal_nonneg l v n : 0 <= v -> decimal v l = Some n -> 0 <= n.
Proof.
  revert v. induction l as [|c l IH]; intros v Hv H; cbn in H; [by simplify_eq|]. destruct (is_digit c) eqn:Hc; [|done].
  apply IH in H; [done|]. unfold is_digit in Hc. lia.
Qed.
Lemma asUInt64_range v n : asUInt64 v = Ok n -> is_u64 n.
Proof.
  assert (forall t, match from_chars_u64 t with Some n => Ok n
    | None => Throw (Exn MetadataError "JSON value is not an unsigned 64-bit integer") end = Ok n -> is_u64 n) as H.
  { intros t. unfold from_chars_u64. destruct (txt t) as [|c l]; [done|]. destruct (decimal 0 (c :: l)) as [k|] eqn:Hd; [|done].
    destruct (Z.leb_spec k u64_max); [|done]. intros [= <-]. split; [by eapply decimal_nonneg; [|exact Hd]|done]. }
  unfold asUInt64. destruct v; try done; apply H.
Qed.

Lemma parse_dimensions_range l dims : parse_dimensions l = Ok dims -> Forall is_u64 dims.
Proof.
  revert dims. induction l as [|d l IH]; intros dims H; cbn in H; [by simplify_eq|]. checks. simplify_eq.
  constructor; [by eapply asUInt64_range|by apply IH].
Qed.

Lemma inspect_entry_spec relative h n name v t :
  0 <= h -> 8 + h <= n -> n <= u64_max -> inspect_entry relative h n name v = Ok t ->
  mt_name t = name /\ mt_sourceFile t = lexically_normal relative /\ tensor_in h n t.
Proof.
  intros Hh Hn Hmax H. unfold inspect_entry in H. checks.
  match type of H with context [match ?l with _ => _ end] => destruct l as [|x1' [|x2' [|? ?]]] end; try done. checks.
  match goal with Hd : parse_dimensions _ = Ok _ |- _ => apply parse_dimensions_range in Hd end.
  repeat match goal with Hd : asUInt64 _ = Ok _ |- _ => apply asUInt64_range in Hd; unfold is_u64 in Hd end.
  match goal with Hd : contiguousShape ?d = Ok ?s, Hr : Forall is_u64 ?d |- _ =>
    pose proof (contiguousShape_spec d Hr) as Hs; rewrite Hd in Hs; destruct Hs as (Hwf & Hdims & _ & Hst & Hel) end.
  injection H as <-. cbn [mt_name mt_sourceFile]. split; [done|]. split; [done|].
  rewrite !(wrap64_small (8 + h)) in * by (unfold is_u64; lia).
  rewrite !(wrap64_small (u64_max - _)), !(wrap64_small (n - _)) in * by (unfold is_u64; lia).
  rewrite !(wrap64_small (8 + h + _)), !(wrap64_small (_ - _)) in * by (unfold is_u64; lia).
  rewrite bytes_exact in * by (try apply Z.ltb_ge; try done; destruct Hwf; lia).
  constructor; cbn; [lia|by rewrite Hdims|]. rewrite Hdims. lia.
Qed.

Lemma inspect_entries_spec relative h n l ts :
  0 <= h -> 8 + h <= n -> n <= u64_max -> inspect_entries relative h n l = Ok ts ->
  Forall (fun t => mt_sourceFile t = lexically_normal relative /\ tensor_in h n t) ts /\ (mt_name <$> ts) `sublist_of` l.*1.
Proof.
  intros Hh Hn Hmax. revert ts. induction l as [|[name v] l IH]; intros ts H; cbn in H; [by simplify_eq|].
  destruct (String.eqb name _).
  - destruct (IH _ H) as [? ?]. split; [done|]. by apply sublist_cons.
  - checks. simplify_eq. match goal with Ht : inspect_entry _ _ _ _ _ = Ok _ |- _ => apply inspect_entry_spec in Ht as (Hname & ? & ?); [|done..] end.
    destruct (IH _ ltac:(eassumption)) as [? ?]. split; [by constructor|]. cbn. rewrite Hname. by apply sublist_skip.
Qed.

Definition ends_before (t u : ManifestTensor) : Prop := mt_offset t + mt_size t <= mt_offset u.
Definition disjoint_ranges (t u : ManifestTensor) : Prop := ends_before t u \/ ends_before u t.

Lemma by_offset_weak : strict_weak by_offset (fun _ => True).
Proof. unfold by_offset. split; intros; rewrite ?Z.ltb_lt, ?Z.ltb_ge in *; lia. Qed.

Lemma overlap_sorted h n l :
  n <= u64_max -> Forall (tensor_in h n) l -> 0 <= h -> StronglySorted (not_after by_offset) l -> overlap l = false ->
  StronglySorted ends_before l.
Proof.
  intros Hn Hl Hh Hs. induction Hs as [|a l Hs IH Ha]; intros Ho; [constructor|].
  apply Forall_cons in Hl as [[Hta _ _] Hl]. destruct l as [|b l]; [by repeat constructor|].
  cbn [overlap] in Ho. apply orb_false_iff in Ho as [Hb%Z.ltb_ge Ho]. rewrite wrap64_small in Hb by (unfold is_u64; lia).
  constructor; [by apply IH|]. apply Forall_forall. intros c Hc. apply elem_of_cons in Hc as [->|Hc]; [done|].
  inversion Hs as [|? ? _ Hbl]; subst. rewrite Forall_forall in Hbl. specialize (Hbl _ Hc).
  unfold not_after, by_offset in Hbl. apply Z.ltb_ge in Hbl. unfold ends_before. lia.
Qed.

Lemma sorted_pairs {A} (R : A -> A -> Prop) l x y : StronglySorted R l -> x ∈ l -> y ∈ l -> x <> y -> R x y \/ R y x.
Proof.
  induction 1 as [|z l Hs IH Hz]; [by intros ?%not_elem_of_nil|]. rewrite Forall_forall in Hz.
  intros [->|Hx]%elem_of_cons [->|Hy]%elem_of_cons Hne; [done|left; by apply Hz|right; by apply Hz|by apply IH].
Qed.

(** A tensor of a file: its bytes are in the data section of the file. *)
Definition tensor_of (relative : string) (contents : text) (t : ManifestTensor) : Prop :=
  mt_sourceFile t = lexically_normal relative /\ exists h, 0 < h /\ tensor_in h (Z.of_nat (length contents)) t.

Lemma littleEndian64_nonneg l : 0 <= littleEndian64 l.
Proof.
  unfold littleEndian64. assert (forall i v, 0 <= i -> 0 <= v ->
    0 <= snd (foldl (fun '(index, value) c => (index + 1, Z.lor value (Z.shiftl (code c) (index * 8)))) (i, v) l)) as H; [|by apply H].
  induction l as [|c l IH]; intros i v Hi Hv; [done|]. cbn [foldl]. apply IH; [lia|].
  apply Z.lor_nonneg. split; [done|]. apply Z.shiftl_nonneg. unfold code. lia.
Qed.

Lemma inspectFile_spec relative contents ts :
  Z.of_nat (length contents) <= u64_max -> inspectFile relative contents = Ok ts ->
  safeRelative relative = true /\ Forall (tensor_of relative contents) ts /\
  (forall t u, t ∈ ts -> u ∈ ts -> t <> u -> disjoint_ranges t u).
Proof.
  intros Hn H. unfold inspectFile in H. checks. simplify_eq. pose proof (littleEndian64_nonneg (take 8 contents)) as Hh.
  match goal with He : inspect_entries _ _ _ _ = Ok _ |- _ => apply inspect_entries_spec in He as [Hall _]; [|lia..] end.
  split; [done|]. split.
  - eapply Forall_impl; [exact Hall|]. intros t [Hs Ht]. split; [done|]. eexists. split; [|exact Ht]. lia.
  - intros t u Ht Hu Hne. pose proof (stable_sort_sorted by_offset _ ts by_offset_weak ltac:(by apply Forall_true)) as Hs.
    apply (overlap_sorted (littleEndian64 (take 8 contents)) (Z.of_nat (length contents))) in Hs; [|done| |lia|done].
    + by apply (sorted_pairs ends_before (stable_sort by_offset ts)); rewrite ?stable_sort_perm.
    + rewrite stable_sort_perm. eapply Forall_impl; [exact Hall|]. by intros t' [_ ?].
Qed.

(** ** Lookup tables *)

Definition lookup_exact (found : gmap string nat) (l : list ManifestTensor) : Prop :=
  forall name i, found !! name = Some i <-> exists t, l !! i = Some t /\ mt_name t = name.

Lemma lookup_exact_snoc found l t :
  lookup_exact found l -> found !! mt_name t = None -> lookup_exact (<[mt_name t := length l]> found) (l ++ [t]).
Proof.
  intros Hl Hn name i. rewrite lookup_insert_Some. split.
  - intros [[<- <-]|[Hne Hi]]; [exists t; split; [apply list_lookup_middle; done|done]|].
    apply Hl in Hi as (u & Hi & Hu). exists u. split; [by apply lookup_app_l_Some|done].
  - intros (u & [Hi|[Hlen Hi]]%lookup_app_Some & Hu).
    + right. split; [|apply Hl; eauto]. intros Heq. assert (found !! name = Some i) as Hf by (apply Hl; eauto). congruence.
    + apply list_lookup_singleton_Some in Hi as [Hz ->]. left. split; [done|lia].
Qed.

Lemma lookup_exact_unique found l i j t u :
  lookup_exact found l -> l !! i = Some t -> l !! j = Some u -> mt_name t = mt_name u -> i = j.
Proof.
  intros Hl Hi Hj Heq. assert (found !! mt_name t = Some i) as H1 by (apply Hl; eauto).
  assert (found !! mt_name t = Some j) as H2 by (apply Hl; rewrite Heq; eauto). congruence.
Qed.
Lemma lookup_exact_nodup found l : lookup_exact found l -> NoDup (mt_name <$> l).
Proof.
  intros Hl. apply NoDup_alt. intros i j name Hi Hj. rewrite list_lookup_fmap in Hi, Hj.
  apply fmap_Some in Hi as (t & Hi & ->), Hj as (u & Hj & Heq). by eapply lookup_exact_unique.
Qed.

Lemma emplace_tensors_spec l : forall found tensors,
  lookup_exact found tensors ->
  match emplace_tensors found tensors l with
  | Ok (found', tensors') => tensors' = tensors ++ l /\ lookup_exact found' tensors'
  | Throw e => load_error e
  | Diverge => False
  end.
Proof.
  induction l as [|t l IH]; intros found tensors Hf; cbn; [by rewrite app_nil_r|].
  destruct (found !! mt_name t) eqn:Ht; [by left|]. specialize (IH _ _ (lookup_exact_snoc _ _ _ Hf Ht)).
  rewrite <- (assoc_L (++)) in IH. exact IH.
Qed.

Lemma index_tensors_spec l : NoDup (mt_name <$> l) -> lookup_exact (index_tensors l) l.
Proof.
  intros Hnd. unfold index_tensors. set (step := fun '(index, found) t => _).
  enough (fst (foldl step (O, ∅) l) = length l /\ lookup_exact (snd (foldl step (O, ∅) l)) l) as [_ H] by exact H.
  induction l as [|t l IH] using rev_ind.
  { split; [done|]. intros name i. cbn. rewrite lookup_empty. split; [done|]. intros (t & Ht & _). by rewrite lookup_nil in Ht. }
  rewrite fmap_app in Hnd. apply NoDup_app in Hnd as (Hl & Hni & _). destruct (IH Hl) as [Hlen Hx].
  rewrite foldl_app. cbn [foldl]. destruct (foldl step (O, ∅) l) as [k found]. cbn [fst snd] in *. subst k. cbn [step].
  destruct (found !! mt_name t) as [i|] eqn:Ht.
  { apply Hx in Ht as (u & Hi & Hu). exfalso. apply (Hni (mt_name t)); [|cbn; set_solver].
    apply list_elem_of_fmap. exists u. split; [done|]. by eapply list_elem_of_lookup_2. }
  cbn [fst snd]. rewrite length_app. cbn. split; [lia|]. by apply lookup_exact_snoc.
Qed.

Lemma find_exact m name t :
  lookup_exact (lookup_ m) (tensors_ m) -> find name m = Some t <-> t ∈ tensors_ m /\ mt_name t = name.
Proof.
  intros Hl. unfold find. split.
  - intros (i & Hi & Ht)%bind_Some. apply Hl in Hi as (u & Hu & <-). simplify_eq. split; [|done]. by eapply list_elem_of_lookup_2.
  - intros [[i Hi]%list_elem_of_lookup_1 Hn]. apply bind_Some. exists i. split; [|done]. apply Hl. eauto.
Qed.

(** ** Paths *)

Lemma components_no_slash l acc : slash ∉ acc -> Forall (fun c => slash ∉ c) (path_components acc l).
Proof.
  revert acc. induction l as [|c l IH]; intros acc Ha; cbn; [by constructor|]. destruct (Ascii.eqb_spec c slash) as [->|Hc].
  - constructor; [done|]. apply IH. apply not_elem_of_nil.
  - apply IH. rewrite elem_of_app, list_elem_of_singleton. naive_solver.
Qed.

Lemma components_plain c rest acc : slash ∉ c ->
  path_components acc (c ++ rest) = match rest with
                                    | [] => [acc ++ c]
                                    | _ => path_components (acc ++ c) rest
                                    end.
Proof.
  revert acc. induction c as [|x c IH]; intros acc Hc; cbn.
  - rewrite app_nil_r. by destruct rest.
  - apply not_elem_of_cons in Hc as [Hx Hc]. destruct (Ascii.eqb_spec x slash) as [->|_]; [done|].
    rewrite IH by done. by rewrite <- (assoc_L (++)).
Qed.

Lemma components_joined l : forall c, Forall (fun c => slash ∉ c) (c :: l) ->
  path_components [] (foldl (fun acc c => acc ++ slash :: c) c l) = c :: l.
Proof.
  assert (forall l c, foldl (fun acc c => acc ++ slash :: c) c l = c ++ concat ((slash ::.) <$> l)) as Hj.
  { clear. induction l as [|d l IH]; intros c; cbn; [by rewrite app_nil_r|]. by rewrite IH, <- (assoc_L (++)). }
  induction l as [|d l IH]; intros c [Hc Hl]%Forall_cons.
  - cbn. rewrite <- (app_nil_r c) at 1. by rewrite components_plain.
  - specialize (IH d Hl). rewrite Hj in IH |- *. rewrite components_plain by done. cbn. by rewrite IH.
Qed.

Lemma lexically_normal_idem p : lexically_normal (lexically_normal p) = lexically_normal p.
Proof.
  pose proof (components_no_slash (list_ascii_of_string p) [] ltac:(apply not_elem_of_nil)) as Hs.
  fold (components p) in Hs. set (P := fun c => c <> [] /\ c <> ["."%char]).
  assert (Forall (fun c => slash ∉ c) (filter P (components p))) as Hf.
  { rewrite Forall_forall in Hs |- *. intros c [_ Hc]%list_elem_of_filter. by apply Hs. }
  assert (Forall P (filter P (components p))) as HP.
  { apply Forall_forall. by intros c [? _]%list_elem_of_filter. }
  unfold lexically_normal. fold P. destruct (filter P (components p)) as [|c l]; [reflexivity|].
  unfold components. rewrite list_ascii_of_string_of_list_ascii, components_joined by done.
  assert (filter P (c :: l) = c :: l) as ->; [|done]. clear -HP. induction HP as [|x k Hx _ IH]; [done|].
  rewrite filter_cons_True by done. by rewrite IH.
Qed.

(** ** The constructor *)

(** An artifact as the file system presents it: regular files known by their normal
    paths, none longer than a file can be. *)
Definition artifact_wf (artifact : Artifact) : Prop :=
  match artifact with
  | SingleFile name contents => lexically_normal name = name /\ Z.of_nat (length contents) <= i64_max
  | Directory entries => map_Forall (fun path contents =>
      lexically_normal path = path /\ Z.of_nat (length contents) <= i64_max) entries
  end.

Lemma file_at_normal artifact path contents :
  artifact_wf artifact -> file_at artifact path = Some contents ->
  file_at artifact (lexically_normal path) = Some contents /\ Z.of_nat (length contents) <= i64_max.
Proof.
  destruct artifact as [name c|entries]; cbn.
  - intros [Hn Hc]. destruct (String.eqb_spec path name) as [->|]; [|done]. intros [= <-].
    rewrite Hn, String.eqb_refl. done.
  - intros Hwf H. rewrite lexically_normal_idem. split; [done|]. by eapply Hwf in H as [_ ?].
Qed.

(** A tensor of an artifact, and the tensors found so far. *)
Definition found_in (artifact : Artifact) (t : ManifestTensor) : Prop :=
  exists contents, file_at artifact (mt_sourceFile t) = Some contents /\
    tensor_of (mt_sourceFile t) contents t /\ Z.of_nat (length contents) <= i64_max.
Definition apart (l : list ManifestTensor) : Prop :=
  forall t u, t ∈ l -> u ∈ l -> t <> u -> mt_sourceFile t = mt_sourceFile u -> disjoint_ranges t u.
Record collected (artifact : Artifact) (done_ : list string) (m : SafeTensorShardManager) : Prop := Collected {
  co_lookup : lookup_exact (lookup_ m) (tensors_ m);
  co_found : Forall (found_in artifact) (tensors_ m);
  co_files : Forall (fun t => mt_sourceFile t ∈ lexically_normal <$> done_) (tensors_ m);
  co_apart : apart (tensors_ m);
  co_shards : sh_relativePath <$> shards_ m = lexically_normal <$> done_;
  co_count : sum_list_with (fun s => Z.to_nat (sh_tensorCount s)) (shards_ m) = length (tensors_ m);
}.

Lemma apart_app l ts path :
  apart l -> Forall (fun t => mt_sourceFile t <> path) l -> Forall (fun t => mt_sourceFile t = path) ts ->
  (forall t u, t ∈ ts -> u ∈ ts -> t <> u -> disjoint_ranges t u) -> apart (l ++ ts).
Proof.
  intros Hl Hn He Hts t u. rewrite Forall_forall in Hn, He. rewrite !elem_of_app. intros [Ht|Ht] [Hu|Hu] Hne Heq.
  - by apply Hl.
  - destruct (Hn _ Ht). rewrite Heq. by apply He.
  - destruct (Hn _ Hu). rewrite <- Heq. by apply He.
  - by apply Hts.
Qed.

Lemma inspect_files_spec artifact l : forall done_ m,
  artifact_wf artifact -> collected artifact done_ m -> NoDup (lexically_normal <$> done_ ++ l) ->
  match inspect_files artifact m l with
  | Ok m' => collected artifact (done_ ++ l) m'
  | Throw e => load_error e
  | Diverge => False
  end.
Proof.
  induction l as [|file l IH]; intros done_ m Hwf Hm Hnd; cbn; [by rewrite app_nil_r|].
  destruct (file_at artifact file) as [contents|] eqn:Hat; [|by left]. destruct (file_at_normal _ _ _ Hwf Hat) as [Hnorm Hlen].
  pose proof (loads_inspectFile file contents) as Hl. destruct (inspectFile file contents) as [ts|e|] eqn:Hts; cbn; [|done|done].
  apply inspectFile_spec in Hts as (_ & Hall & Hdis); [|unfold i64_max, u64_max in *; lia].
  destruct Hm as [Hlk Hf Hfi Hap Hsh Hco]. pose proof (emplace_tensors_spec ts _ _ Hlk) as He.
  destruct (emplace_tensors _ _ ts) as [[found' tensors']|e|]; cbn; [|done|done]. destruct He as [-> Hlk'].
  replace (done_ ++ file :: l) with ((done_ ++ [file]) ++ l) in * by (by rewrite <- (assoc_L (++))).
  apply IH; [done| |done]. rewrite Forall_forall in Hall. constructor; cbn.
  - done.
  - apply Forall_app. split; [done|]. apply Forall_forall. intros t Ht. destruct (Hall _ Ht) as [Hs (h & Hh & Hin)].
    exists contents. rewrite Hs. split; [done|]. split; [|done]. split; [by rewrite lexically_normal_idem|]. eauto.
  - apply Forall_app. split; [eapply Forall_impl; [exact Hfi|]; intros t; rewrite fmap_app; set_solver|].
    apply Forall_forall. intros t Ht. destruct (Hall _ Ht) as [-> _]. rewrite fmap_app. set_solver.
  - apply (apart_app _ _ (lexically_normal file)); [done| |apply Forall_forall; intros t Ht; by destruct (Hall _ Ht)|done].
    eapply Forall_impl; [exact Hfi|]. cbn. intros t Ht Heq. rewrite !fmap_app in Hnd. apply NoDup_app in Hnd as [Hnd _].
    apply NoDup_app in Hnd as (_ & Hd & _). apply (Hd _ Ht). rewrite Heq. cbn. set_solver.
  - rewrite !fmap_app, Hsh. done.
  - rewrite sum_list_with_app, length_app, Hco. cbn. lia.
Qed.

Lemma normal_nodup l : Forall (fun p => lexically_normal p = p) l -> NoDup l -> NoDup (lexically_normal <$> l).
Proof. intros Hn. assert (lexically_normal <$> l = l) as ->; [|done]. induction Hn as [|p l Hp _ IH]; cbn; congruence. Qed.

Lemma read_index_spec l : forall weights shards,
  set_Forall (fun p => lexically_normal p = p) shards ->
  match read_index weights shards l with
  | Ok (_, shards') => set_Forall (fun p => lexically_normal p = p) shards'
  | Throw e => load_error e
  | Diverge => False
  end.
Proof.
  induction l as [|[name v] l IH]; intros weights shards Hs; cbn; [done|].
  pose proof (loads_asString v) as Hv. destruct (asString v) as [declared|e|]; cbn; [|done|done].
  destruct (_ || _); cbn; [by left|]. apply IH. intros p Hp. apply elem_of_union in Hp as [->%elem_of_singleton|Hp]; [|by apply Hs].
  apply lexically_normal_idem.
Qed.

Lemma list_files_spec walk artifact :
  (forall entries, walk entries ≡ₚ map_to_list entries) -> artifact_wf artifact ->
  match list_files walk artifact with
  | Ok listed => NoDup (lexically_normal <$> listed.1)
  | Throw e => load_error e
  | Diverge => False
  end.
Proof.
  intros Hw Hwf. destruct artifact as [name c|entries]; cbn [list_files].
  - destruct (negb _); cbn; [by left|]. apply NoDup_singleton.
  - destruct (entries !! index_file) as [contents|].
    + match goal with |- match res_bind ?m ?k with _ => _ end => assert (loads m) as Hm by loads; destruct m as [root|e|]; cbn [res_bind]; [|done|done] end.
      match goal with |- match res_bind ?m ?k with _ => _ end => assert (loads m) as Ho by loads; destruct m as [object|e|]; cbn [res_bind]; [|done|done] end.
      pose proof (read_index_spec object [] ∅ (set_Forall_empty _)) as Hr. destruct (read_index [] ∅ object) as [[weights shards]|e|]; cbn [res_bind fst snd]; [|done|done].
      destruct (bool_decide _); cbn; [by left|]. apply normal_nodup; [|apply NoDup_elements].
      apply Forall_forall. intros p Hp%elem_of_elements. by apply Hr.
    + assert (NoDup (walk entries).*1) as Hnd by (rewrite Hw; apply NoDup_fst_map_to_list).
      apply normal_nodup; [|by apply NoDup_filter]. apply Forall_forall. intros p [_ Hp]%list_elem_of_filter.
      rewrite Hw in Hp. apply list_elem_of_fmap in Hp as ([p' c] & -> & Hp%elem_of_map_to_list). by apply Hwf in Hp as [? _].
Qed.

Lemma collected_empty artifact : collected artifact [] (mkShards [] [] ∅).
Proof.
  constructor; cbn.
  - intros name i. rewrite lookup_empty. split; [done|]. intros (t & Ht & _). by rewrite lookup_nil in Ht.
  - constructor.
  - constructor.
  - intros t u Ht. by apply not_elem_of_nil in Ht.
  - done.
  - done.
Qed.

(** What an opened artifact gives: the tensors by name, each in the data of its shard,
    with the size its shape says and apart from the other tensors of the shard. *)
Record opened (artifact : Artifact) (declared : list (string * string)) (m : SafeTensorShardManager) : Prop := Opened {
  op_names : NoDup (mt_name <$> tensors_ m);
  op_sorted : StronglySorted (not_after by_name) (tensors_ m);
  op_find : forall name t, find name m = Some t <-> t ∈ tensors_ m /\ mt_name t = name;
  op_found : Forall (found_in artifact) (tensors_ m);
  op_apart : apart (tensors_ m);
  op_shards : NoDup (sh_relativePath <$> shards_ m) /\
    Forall (fun t => mt_sourceFile t ∈ sh_relativePath <$> shards_ m) (tensors_ m);
  op_count : sum_list_with (fun s => Z.to_nat (sh_tensorCount s)) (shards_ m) = length (tensors_ m);
  op_declared : declared <> [] -> length declared = length (tensors_ m) /\
    forall name shard, (name, shard) ∈ declared -> exists t, find name m = Some t /\ mt_sourceFile t = shard;
}.

Lemma check_declared_spec weights m :
  match check_declared weights m with
  | Ok _ => weights <> [] -> length weights = length (tensors_ m) /\
      forall name shard, (name, shard) ∈ weights -> exists t, find name m = Some t /\ mt_sourceFile t = shard
  | Throw e => load_error e
  | Diverge => False
  end.
Proof.
  unfold check_declared. destruct (bool_decide_reflect (weights = [])); [done|].
  destruct (Nat.eqb_spec (length weights) (length (tensors_ m))) as [Hl|]; cbn; [|by left].
  destruct (existsb _ weights) eqn:He; cbn; [by left|]. intros _. split; [done|]. intros name shard Hin.
  assert (~ existsb (fun '(name, declared) => match find name m with Some t => negb (String.eqb (mt_sourceFile t) declared) | None => true end)
    weights = true) as Hno by (by rewrite He). destruct (find name m) as [t|] eqn:Hf.
  - exists t. split; [done|]. destruct (String.eqb_spec (mt_sourceFile t) shard) as [|Hne]; [done|]. destruct Hno.
    apply existsb_exists. exists (name, shard). split; [by apply list_elem_of_In|]. rewrite Hf. by apply String.eqb_neq in Hne as ->.
  - destruct Hno. apply existsb_exists. exists (name, shard). split; [by apply list_elem_of_In|]. by rewrite Hf.
Qed.

Lemma by_name_weak : strict_weak by_name (fun _ => True).
Proof.
  unfold by_name, string_less.
  assert (forall a b, text_less a b = true -> text_less b a = false) as Has.
  { induction a as [|x a IH]; intros [|y b]; cbn; try done.
    destruct (Z.ltb_spec (code x) (code y)), (Z.eqb_spec (code x) (code y)), (Z.ltb_spec (code y) (code x)), (Z.eqb_spec (code y) (code x)); cbn; try lia; auto. }
  assert (forall a b c, text_less a b = false -> text_less b c = false -> text_less a c = false) as Htr.
  { induction a as [|x a IH]; intros [|y b] [|z c]; cbn; try done.
    destruct (Z.ltb_spec (code x) (code y)), (Z.eqb_spec (code x) (code y)), (Z.ltb_spec (code y) (code z)), (Z.eqb_spec (code y) (code z)),
      (Z.ltb_spec (code x) (code z)), (Z.eqb_spec (code x) (code z)); cbn; try lia; try done. apply IH. }
  split; intros; [by apply Has|by eapply Htr].
Qed.

Lemma opened_sorted artifact files declared m :
  collected artifact files m -> NoDup (lexically_normal <$> files) ->
  (declared <> [] -> length declared = length (tensors_ m) /\
    forall name shard, (name, shard) ∈ declared -> exists t, find name m = Some t /\ mt_sourceFile t = shard) ->
  opened artifact declared (mkShards (shards_ m) (stable_sort by_name (tensors_ m)) (index_tensors (stable_sort by_name (tensors_ m)))).
Proof.
  intros [Hlk Hf Hfi Hap Hsh Hco] Hnd Hd. pose proof (stable_sort_perm by_name (tensors_ m)) as Hp.
  assert (NoDup (mt_name <$> stable_sort by_name (tensors_ m))) as Hn by (rewrite Hp; by eapply lookup_exact_nodup).
  pose proof (index_tensors_spec _ Hn) as Hx. constructor; cbn [shards_ tensors_ lookup_].
  - done.
  - apply (stable_sort_sorted by_name _ _ by_name_weak). by apply Forall_true.
  - intros name t. by apply find_exact.
  - by rewrite Hp.
  - intros t u. rewrite Hp. apply Hap.
  - rewrite Hsh, Hp. done.
  - by rewrite Hp.
  - intros Hne. destruct (Hd Hne) as [Hl Hin]. rewrite Hp. split; [done|]. intros name shard Hns.
    destruct (Hin _ _ Hns) as (t & Ht & Hs). exists t. split; [|done]. apply find_exact; [done|].
    apply find_exact in Ht; [|done]. cbn. by rewrite Hp.
Qed.

Lemma newShards_opened walk artifact :
  (forall entries, walk entries ≡ₚ map_to_list entries) -> artifact_wf artifact ->
  match newShards walk artifact with
  | Ok m => exists files declared, list_files walk artifact = Ok (files, declared) /\ opened artifact declared m
  | Throw e => load_error e
  | Diverge => False
  end.
Proof.
  intros Hw Hwf. unfold newShards. pose proof (list_files_spec walk artifact Hw Hwf) as Hl.
  destruct (list_files walk artifact) as [[files declared]|e|]; cbn [res_bind]; [|done|done]. cbn [fst snd] in *.
  destruct (bool_decide _); cbn; [by left|].
  assert (NoDup (lexically_normal <$> [] ++ stable_sort path_less files)) as Hnd by (cbn; by rewrite stable_sort_perm).
  pose proof (inspect_files_spec artifact _ [] _ Hwf (collected_empty artifact) Hnd) as Hi.
  destruct (inspect_files _ _ _) as [m|e|]; cbn [res_bind]; [|done|done].
  pose proof (check_declared_spec declared m) as Hc. destruct (check_declared declared m); cbn [res_bind]; [|done|done].
  exists files, declared. split; [done|]. by eapply opened_sorted.
Qed.

(** ** Reading *)

Definition tensor_bytes (contents : text) (t : ManifestTensor) : text :=
  take (Z.to_nat (mt_size t)) (drop (Z.to_nat (mt_offset t)) contents).

Lemma found_range artifact t :
  found_in artifact t -> exists contents, file_at artifact (mt_sourceFile t) = Some contents /\
    0 <= mt_offset t /\ 0 < mt_size t /\ mt_offset t + mt_size t <= Z.of_nat (length contents) /\ Z.of_nat (length contents) <= i64_max.
Proof. intros (contents & Hat & (_ & h & Hh & [Hr _ _]) & Hlen). exists contents. split; [done|]. lia. Qed.

Lemma slice_of_slice {A} (l : list A) o n i k :
  (i + k <= n)%nat -> take k (drop i (take n (drop o l))) = take k (drop (o + i) l).
Proof.
  intros Hle. rewrite List.skipn_firstn_comm, drop_drop, take_take. f_equal. lia.
Qed.

Lemma readRange_exact artifact m name t contents relativeOffset size :
  find name m = Some t -> file_at artifact (mt_sourceFile t) = Some contents ->
  0 <= mt_offset t -> 0 < mt_size t -> mt_offset t + mt_size t <= Z.of_nat (length contents) -> Z.of_nat (length contents) <= i64_max ->
  is_u64 relativeOffset -> is_u64 size ->
  if (0 <? size) && (relativeOffset + size <=? mt_size t)
  then readRange artifact name relativeOffset size m =
         Ok (take (Z.to_nat size) (drop (Z.to_nat relativeOffset) (tensor_bytes contents t)))
  else exists e, readRange artifact name relativeOffset size m = Throw e /\ kind_of e = MetadataError.
Proof.
  intros Hf Hat Ho Hs Hend Hlen Hr Hz. unfold readRange, is_u64, i64_max, u64_max in *. rewrite Hf, Hat. unfold throw_if.
  destruct ((0 <? size) && (relativeOffset + size <=? mt_size t)) eqn:Hc.
  - assert (0 < size /\ relativeOffset + size <= mt_size t) as [H1 H2] by lia.
    rewrite (wrap64_small (mt_size t - _)), (wrap64_small (mt_offset t + _)) by (unfold is_u64, u64_max; lia).
    repeat match goal with |- context [if ?b then Throw _ else _] => replace b with false by lia end. cbn [res_bind].
    repeat match goal with |- context [if ?b then Throw _ else _] => replace b with false by lia end. cbn [res_bind].
    f_equal. unfold tensor_bytes. rewrite slice_of_slice by lia. do 2 f_equal. lia.
  - destruct (Z.eqb_spec size 0), (Z.ltb_spec (mt_size t) relativeOffset); cbn [orb]; try (eexists; split; [reflexivity|done]).
    rewrite (wrap64_small (mt_size t - _)) by (unfold is_u64, u64_max; lia).
    replace (mt_size t - relativeOffset <? size) with true by lia. cbn. eexists; split; [reflexivity|done].
Qed.

(** C11: Opening a checkpoint always ends: with an error of the importer's kinds or with a
    shard manager in which tensor names are distinct and sorted, [find] is exact, every
    tensor has a well-formed shape, the size its shape and type say and a byte range in the
    data section of an existing shard, the ranges of two tensors of a shard do not overlap,
    the shards' tensor counts add up, and what an index declares is what the shards hold. *)
Theorem opened_artifact walk artifact :
  (forall entries, walk entries ≡ₚ map_to_list entries) -> artifact_wf artifact ->
  match newShards walk artifact with
  | Ok m => exists files declared, list_files walk artifact = Ok (files, declared) /\ opened artifact declared m
  | Throw e => load_error e
  | Diverge => False
  end.
Proof. apply newShards_opened. Qed.

(** C12: Reads of an opened checkpoint return the tensor's bytes and nothing else: a tensor is
    read as its range of its shard, a range of it as that part of those bytes, and a range
    that is empty or passes the end of the tensor, or an unknown name, is a metadata error. *)
Theorem reads_exact walk artifact m name relativeOffset size :
  (forall entries, walk entries ≡ₚ map_to_list entries) -> artifact_wf artifact -> newShards walk artifact = Ok m ->
  is_u64 relativeOffset -> is_u64 size ->
  match find name m with
  | Some t => exists contents, file_at artifact (mt_sourceFile t) = Some contents /\
      Z.of_nat (length (tensor_bytes contents t)) = product (dimensions (mt_shape t)) * dtype_sizeOf (mt_dtype t) /\
      readTensor artifact name m = Ok (tensor_bytes contents t) /\
      if (0 <? size) && (relativeOffset + size <=? mt_size t)
      then readRange artifact name relativeOffset size m =
             Ok (take (Z.to_nat size) (drop (Z.to_nat relativeOffset) (tensor_bytes contents t)))
      else exists e, readRange artifact name relativeOffset size m = Throw e /\ kind_of e = MetadataError
  | None => (exists e, readTensor artifact name m = Throw e /\ kind_of e = MetadataError) /\
            exists e, readRange artifact name relativeOffset size m = Throw e /\ kind_of e = MetadataError
  end.
Proof.
  intros Hw Hwf Hm Hr Hz. pose proof (newShards_opened walk artifact Hw Hwf) as Ho. rewrite Hm in Ho.
  destruct Ho as (_ & declared & _ & Ho). unfold readTensor. destruct (find name m) as [t|] eqn:Hf.
  2:{ unfold readRange. rewrite Hf. split; eexists; (split; [reflexivity|done]). }
  pose proof (proj1 (op_find _ _ _ Ho _ _) Hf) as [Ht _]. pose proof (op_found _ _ _ Ho) as Hin. rewrite Forall_forall in Hin.
  pose proof (Hin _ Ht) as Hin'. destruct (found_range _ _ Hin') as (contents & Hat & H0 & H1 & H2 & H3).
  exists contents. split; [done|]. split; [|split].
  - destruct Hin' as (c' & Hat' & (_ & h & _ & [_ _ Hsz]) & _). rewrite <- Hsz.
    unfold tensor_bytes. rewrite length_take, length_drop. lia.
  - pose proof (readRange_exact artifact m name t contents 0 (mt_size t) Hf Hat H0 H1 H2 H3) as Hx.
    replace ((0 <? mt_size t) && (0 + mt_size t <=? mt_size t)) with true in Hx by lia.
    rewrite Hx by (unfold is_u64, i64_max, u64_max in *; lia). f_equal. cbn [Z.to_nat]. rewrite drop_0.
    apply take_ge. unfold tensor_bytes. rewrite length_take. lia.
  - by apply readRange_exact.
Qed.

(** A directory of one shard: two tensors of two bytes each. *)
Definition example_header : text := js
  "{'b':{'dtype':'I8','shape':[2],'data_offsets':[2,4]},'a':{'dtype':'F16','shape':[1,1],'data_offsets':[0,2]}}".
Definition example_shard : text :=
  ascii_of_nat (length example_header) :: repeat Ascii.zero 7 ++ example_header ++
  ["w";"x";"y";"z"]%char.
Definition example_artifact : Artifact := Directory {[ "model.safetensors" := example_shard ]}.


Lemma example_wf : artifact_wf example_artifact.
Proof. intros path c [<- <-]%lookup_singleton_Some. split; [vm_compute; reflexivity|vm_compute; discriminate]. Qed.

Lemma opened_artifact_witness :
  exists m, newShards map_to_list example_artifact = Ok m /\ mt_name <$> tensors_ m = ["a"; "b"] /\
    opened example_artifact [] m.
Proof.
  pose proof (opened_artifact map_to_list example_artifact (fun _ => Permutation_refl _) example_wf) as H.
  destruct (newShards map_to_list example_artifact) as [m| |] eqn:Hm; [|vm_compute in Hm; discriminate Hm..].
  destruct H as (files & declared & Hl & Ho). assert (declared = []) as -> by (vm_compute in Hl; congruence).
  exists m. split; [reflexivity|]. split; [|exact Ho]. vm_compute in Hm. by injection Hm as <-.
Defined.

Lemma reads_exact_witness :
  exists m, newShards map_to_list example_artifact = Ok m /\
    readTensor example_artifact "a" m = Ok ["w";"x"]%char /\ readRange example_artifact "b" 1 1 m = Ok ["z"]%char.
Proof.
  destruct (newShards map_to_list example_artifact) as [m| |] eqn:Hm; [|vm_compute in Hm; discriminate Hm..].
  exists m. split; [reflexivity|].
  pose proof (reads_exact map_to_list example_artifact m "a" 1 1 (fun _ => Permutation_refl _) example_wf Hm
    ltac:(unfold is_u64; vm_compute; split; discriminate) ltac:(unfold is_u64; vm_compute; split; discriminate)) as Ha.
  pose proof (reads_exact map_to_list example_artifact m "b" 1 1 (fun _ => Permutation_refl _) example_wf Hm
    ltac:(unfold is_u64; vm_compute; split; discriminate) ltac:(unfold is_u64; vm_compute; split; discriminate)) as Hb.
  vm_compute in Hm. injection Hm as <-. destruct Ha as (ca & Hca & _ & Ha & _), Hb as (cb & Hcb & _ & _ & Hb).
  vm_compute in Hca. injection Hca as <-. vm_compute in Hcb. injection Hcb as <-. split; [rewrite Ha|rewrite Hb]; vm_compute; reflexivity.
Defined.
