(* ===== verification/ExpertBudget.v ===== *)
(** * The device budget for experts

    [src/models/runtime/ExpertDeviceBudget.cpp]: how much device memory the experts may
    take, from a memory snapshot and the reservations of the other consumers. *)

From S2P Require Import Prelude.

#[local] Open Scope Z_scope.

Definition defaultMaximumCachedBytes : Z := 512 * 1024 * 1024.

Record ExpertDeviceReservations : Type := mkReservations {
  kvCacheBytes : Z;
  workspaceBytes : Z;
  stagingPoolBytes : Z;
  safetyBytes : Z;
}.
Definition default_reservations : ExpertDeviceReservations :=
  mkReservations (256 * 1024 * 1024) (512 * 1024 * 1024) defaultMaximumCachedBytes (512 * 1024 * 1024).

Record MemoryInfo : Type := mkMemoryInfo { totalBytes : Z; freeBytes : Z; allocatedBytes : Z }.

Record ExpertDeviceBudgetPlan : Type := mkPlan {
  pl_automatic : bool;
  pl_configuredBytes : Z;
  pl_effectiveBytes : Z;
  pl_totalDeviceBytes : Z;
  pl_freeDeviceBytesAfterStatic : Z;
  pl_staticTensorBytes : Z;
  pl_reservations : ExpertDeviceReservations;
  pl_transferAllowanceBytes : Z;
  pl_reservedBytes : Z;
}.

Definition checkedAdd (left right : Z) : result Z :=
  (throw_if (wrap64 (u64_max - left) <? right)
     (Exn OverflowError "expert device reservation accounting overflows") ;;?
   Ok (wrap64 (left + right)))%res.

(** The reserved and the effective bytes. *)
Definition budget_bytes (configuredBytes : Z) (automatic : bool) (available : Z) (r : ExpertDeviceReservations)
    (transferAllowanceBytes : Z) : result (Z * Z) :=
  (if automatic then
     throw_if ((workspaceBytes r =? 0) || (safetyBytes r =? 0) || (stagingPoolBytes r <? defaultMaximumCachedBytes))
       (Exn InvalidArgument "automatic expert budget requires workspace, safety, and the 512MiB transfer pool reservation") ;;?
     right <-? (pool <-? checkedAdd (stagingPoolBytes r) (safetyBytes r) ;; checkedAdd pool transferAllowanceBytes) ;;
     left <-? checkedAdd (kvCacheBytes r) (workspaceBytes r) ;;
     reserved <-? checkedAdd left right ;;
     throw_if (available <=? reserved) (Exn InvalidArgument "GPU headroom reservations leave no memory for experts") ;;?
     Ok (reserved, wrap64 (wrap64 (available - reserved) / 256 * 256))
   else
     throw_if (available <? configuredBytes)
       (Exn InvalidArgument "expert VRAM budget exceeds free device memory after static tensor loading") ;;?
     Ok (0, configuredBytes))%res.

Definition planExpertDeviceBudget (configuredBytes : Z) (automatic : bool) (memory : MemoryInfo) (staticTensorBytes : Z)
    (reservations : ExpertDeviceReservations) (largestExpertBytes transferAllowanceBytes : Z) : result ExpertDeviceBudgetPlan :=
  (throw_if ((configuredBytes =? 0) || (largestExpertBytes =? 0) || (totalBytes memory =? 0) ||
             (totalBytes memory <? freeBytes memory) || (totalBytes memory <? staticTensorBytes) ||
             (u64_max <? totalBytes memory))
     (Exn InvalidArgument "invalid GPU memory snapshot or expert device budget") ;;?
   let available := Z.min (freeBytes memory) (wrap64 (totalBytes memory - staticTensorBytes)) in
   budget <-? budget_bytes configuredBytes automatic available reservations transferAllowanceBytes ;;
   throw_if (budget.2 <? largestExpertBytes)
     (Exn InvalidArgument "safe expert device budget cannot hold the largest indexed expert") ;;?
   Ok (mkPlan automatic configuredBytes budget.2 (totalBytes memory) (freeBytes memory) staticTensorBytes reservations
         transferAllowanceBytes budget.1))%res.

(** ** What a plan guarantees *)

Definition reserved_total (r : ExpertDeviceReservations) (transferAllowanceBytes : Z) : Z :=
  kvCacheBytes r + workspaceBytes r + stagingPoolBytes r + safetyBytes r + transferAllowanceBytes.
Record reservations_u64 (r : ExpertDeviceReservations) : Prop := ReservationsU64 {
  ru_kv : is_u64 (kvCacheBytes r);
  ru_workspace : is_u64 (workspaceBytes r);
  ru_staging : is_u64 (stagingPoolBytes r);
  ru_safety : is_u64 (safetyBytes r);
}.

Lemma checkedAdd_spec a b : is_u64 a -> is_u64 b ->
  (a + b <= u64_max /\ checkedAdd a b = Ok (a + b)) \/
  (u64_max < a + b /\ exists e, checkedAdd a b = Throw e /\ kind_of e = OverflowError).
Proof.
  unfold is_u64. intros Ha Hb. unfold checkedAdd. rewrite wrap64_small by (unfold is_u64; lia).
  destruct (Z.ltb_spec (u64_max - a) b); cbn.
  - right. split; [lia|]. eexists. split; [reflexivity|done].
  - left. split; [lia|]. rewrite wrap64_small; [done|unfold is_u64; lia].
Qed.

(** What an automatic budget needs of the available memory. *)
Record automatic_fits (available : Z) (r : ExpertDeviceReservations) (transfer : Z) : Prop := AutomaticFits {
  af_parts : 0 < workspaceBytes r /\ 0 < safetyBytes r /\ defaultMaximumCachedBytes <= stagingPoolBytes r;
  af_room : reserved_total r transfer < available;
}.

Lemma automatic_spec configured available r transfer : is_u64 available -> reservations_u64 r -> is_u64 transfer ->
  match budget_bytes configured true available r transfer with
  | Ok (reserved, effective) => automatic_fits available r transfer /\ reserved = reserved_total r transfer /\
      effective = (available - reserved) / 256 * 256
  | Throw e => ~ automatic_fits available r transfer /\
      (kind_of e = InvalidArgument \/ kind_of e = OverflowError /\ u64_max < reserved_total r transfer)
  | Diverge => False
  end.
Proof.
  intros Ha [Hk Hw Hp Hs] Ht. unfold is_u64, budget_bytes, reserved_total in *.
  destruct (_ || _) eqn:Hc; cbn [throw_if res_bind].
  { split; [intros [Hf _]; unfold is_u64 in *; lia|by left]. }
  destruct (checkedAdd_spec (stagingPoolBytes r) (safetyBytes r)) as [[H1 ->]|(H1 & e & -> & He)]; [done..| |]; cbn [res_bind].
  2:{ split; [intros [_ Hf]; unfold reserved_total in Hf; lia|right; split; [done|lia]]. }
  destruct (checkedAdd_spec (stagingPoolBytes r + safetyBytes r) transfer) as [[H2 ->]|(H2 & e & -> & He)]; [unfold is_u64; lia|done|..]; cbn [res_bind].
  2:{ split; [intros [_ Hf]; unfold reserved_total in Hf; lia|right; split; [done|lia]]. }
  destruct (checkedAdd_spec (kvCacheBytes r) (workspaceBytes r)) as [[H3 ->]|(H3 & e & -> & He)]; [done..| |]; cbn [res_bind].
  2:{ split; [intros [_ Hf]; unfold reserved_total in Hf; lia|right; split; [done|lia]]. }
  destruct (checkedAdd_spec (kvCacheBytes r + workspaceBytes r) (stagingPoolBytes r + safetyBytes r + transfer))
    as [[H4 ->]|(H4 & e & -> & He)]; [unfold is_u64; lia..| |]; cbn [res_bind].
  2:{ split; [intros [_ Hf]; unfold reserved_total in Hf; lia|right; split; [done|lia]]. }
  destruct (Z.leb_spec available (kvCacheBytes r + workspaceBytes r + (stagingPoolBytes r + safetyBytes r + transfer))); cbn [throw_if res_bind].
  { split; [intros [_ Hf]; unfold reserved_total in Hf; lia|by left]. }
  split; [constructor; unfold reserved_total; lia|]. split; [lia|]. set (d := available - _).
  assert (0 <= d <= u64_max) as Hd by (subst d; lia). rewrite (wrap64_small d) by done.
  apply wrap64_small. unfold is_u64. pose proof (Z.mul_div_le d 256). pose proof (Z.div_pos d 256). lia.
Qed.

(** The inputs [planExpertDeviceBudget] accepts. *)
Record snapshot_ok (configured : Z) (memory : MemoryInfo) (static largest : Z) : Prop := SnapshotOk {
  so_configured : 0 < configured <= u64_max;
  so_largest : 0 < largest;
  so_memory : 0 < totalBytes memory <= u64_max /\ 0 <= freeBytes memory <= totalBytes memory;
  so_static : 0 <= static <= totalBytes memory;
}.

(** C39: A plan never promises more than there is: automatic plans leave every reservation
    free, give the experts a multiple of 256 bytes and waste less than 256; manual plans
    give exactly the configured bytes; the largest expert fits. A plan is refused exactly
    when the snapshot is invalid, the reservations do not fit or the largest expert does
    not, never by a wrapped-around sum. *)
Theorem plan_safe configured (automatic : bool) memory static r largest transfer :
  is_u64 configured -> is_u64 (totalBytes memory) -> is_u64 (freeBytes memory) -> is_u64 static ->
  reservations_u64 r -> is_u64 largest -> is_u64 transfer ->
  let available := Z.min (freeBytes memory) (totalBytes memory - static) in
  let budget := if automatic then (available - reserved_total r transfer) / 256 * 256 else configured in
  let accepted := snapshot_ok configured memory static largest /\
    (if automatic then automatic_fits available r transfer else configured <= available) /\ largest <= budget in
  match planExpertDeviceBudget configured automatic memory static r largest transfer with
  | Ok plan => accepted /\ pl_effectiveBytes plan = budget /\ largest <= pl_effectiveBytes plan /\
      pl_reservedBytes plan = (if automatic then reserved_total r transfer else 0) /\
      pl_reservedBytes plan + pl_effectiveBytes plan <= available /\
      (automatic = true -> available - (pl_reservedBytes plan + pl_effectiveBytes plan) < 256 /\ pl_effectiveBytes plan mod 256 = 0)
  | Throw e => ~ accepted /\ (kind_of e = InvalidArgument \/ kind_of e = OverflowError)
  | Diverge => False
  end.
Proof.
  intros Hc Htot Hfree Hst Hr Hl Ht available budget accepted. unfold is_u64 in *. unfold planExpertDeviceBudget.
  destruct (_ || _) eqn:Hv; cbn [throw_if res_bind].
  { split; [intros [[? ? ? ?] _]; lia|by left]. }
  assert (snapshot_ok configured memory static largest) as Hok by (constructor; lia).
  rewrite (wrap64_small (totalBytes memory - static)) by (unfold is_u64; lia). fold available.
  assert (is_u64 available) as Ha by (unfold available, is_u64; lia).
  destruct automatic.
  - pose proof (automatic_spec configured available r transfer Ha Hr Ht) as Hb.
    destruct (budget_bytes configured true available r transfer) as [[reserved effective]|e|]; cbn [res_bind fst snd]; [|split; [intros (_ & ? & _); by apply Hb|tauto]|done].
    destruct Hb as (Hfit & -> & ->). destruct (Z.ltb_spec ((available - reserved_total r transfer) / 256 * 256) largest) as [Hlt|Hge]; cbn; [split; [intros (_ & _ & ?); unfold budget in *; lia|by left]|].
    split; [done|]. split; [done|]. split; [done|]. split; [done|].
    destruct Hfit as [_ Hroom]. unfold budget. pose proof (Z.mul_div_le (available - reserved_total r transfer) 256).
    pose proof (Z.mod_pos_bound (available - reserved_total r transfer) 256).
    pose proof (Z.div_mod (available - reserved_total r transfer) 256). split; [lia|]. intros _. split; [lia|].
    apply Z.mod_mul. lia.
  - cbn. destruct (Z.ltb_spec available configured); cbn; [split; [intros (_ & ? & _); lia|by left]|].
    destruct (Z.ltb_spec configured largest); cbn; [split; [intros (_ & _ & ?); unfold budget in *; lia|by left]|].
    unfold budget. split; [done|]. split; [done|]. split; [done|]. split; [done|]. split; [lia|]. done.
Qed.

Lemma plan_safe_witness :
  exists plan, planExpertDeviceBudget 1 true (mkMemoryInfo 25769803776 20000000000 0) 4000000000 default_reservations 1000000 0 = Ok plan /\
    pl_effectiveBytes plan mod 256 = 0 /\ pl_reservedBytes plan + pl_effectiveBytes plan <= 20000000000.
Proof.
  pose proof (plan_safe 1 true (mkMemoryInfo 25769803776 20000000000 0) 4000000000 default_reservations 1000000 0
    ltac:(vm_compute; split; discriminate) ltac:(vm_compute; split; discriminate) ltac:(vm_compute; split; discriminate)
    ltac:(vm_compute; split; discriminate) ltac:(constructor; vm_compute; split; discriminate)
    ltac:(vm_compute; split; discriminate) ltac:(vm_compute; split; discriminate)) as H.
  cbn zeta in H. destruct (planExpertDeviceBudget _ _ _ _ _ _ _) as [plan|e|] eqn:Hp; [|vm_compute in Hp; discriminate Hp..].
  exists plan. split; [reflexivity|]. destruct H as (_ & _ & _ & _ & Hle & Hw). split; [by apply Hw|exact Hle].
Defined.
