(* ===== verification/MemoryPressure.v ===== *)
(** * The memory pressure controller

    [src/memory/MemoryPressureController.cpp]: keeps the tiers below their limits by a
    safety margin.  The memory it samples is the expert manager's. *)

From S2P Require Import Prelude Float Tiers MemoryManager CachePolicy.
From S2P Require Import Bytes ExpertIndex ExpertStore Transfer ExpertManager Residency.
From S2P Require Import ManagerMethods Registration ManagerSystem ManagerProperties.

#[local] Open Scope Z_scope.

Record MemoryPressureConfig : Type := mkPressureConfig {
  vramSafetyMarginBytes : Z;
  ramSafetyMarginBytes : Z;
  storageQueueHighWatermark : Z;
}.
Record MemoryPressureReport : Type := mkReport {
  rp_vramPressure : bool;
  rp_ramPressure : bool;
  rp_storageQueuePressure : bool;
  rp_vramExpertsMoved : Z;
  rp_ramExpertsMoved : Z;
  rp_storageQueueDepth : Z;
}.
Record MemoryPressureStats : Type := mkPressureStats {
  ps_polls : Z;
  ps_vramPressureEvents : Z;
  ps_ramPressureEvents : Z;
  ps_storageQueuePressureEvents : Z;
}.

Section controller.
Context {P T : Type} `{HP : CachePolicy P} `{HT : !TransferService T}.
Notation EM := (ExpertManager P T).

Record MemoryPressureController : Type := mkController {
  experts_mp : EM;
  transfers_mp : TransferManager;
  config_mp : MemoryPressureConfig;
  stats_mp : MemoryPressureStats;
}.

Definition set_experts (s : EM) (c : MemoryPressureController) : MemoryPressureController :=
  mkController s (transfers_mp c) (config_mp c) (stats_mp c).
Definition set_stats (f : MemoryPressureStats -> MemoryPressureStats) (c : MemoryPressureController) : MemoryPressureController :=
  mkController (experts_mp c) (transfers_mp c) (config_mp c) (f (stats_mp c)).

Definition count_poll (s : MemoryPressureStats) : MemoryPressureStats :=
  mkPressureStats (wrap64 (ps_polls s + 1)) (ps_vramPressureEvents s) (ps_ramPressureEvents s) (ps_storageQueuePressureEvents s).
Definition count_vram (s : MemoryPressureStats) : MemoryPressureStats :=
  mkPressureStats (ps_polls s) (wrap64 (ps_vramPressureEvents s + 1)) (ps_ramPressureEvents s) (ps_storageQueuePressureEvents s).
Definition count_ram (s : MemoryPressureStats) : MemoryPressureStats :=
  mkPressureStats (ps_polls s) (ps_vramPressureEvents s) (wrap64 (ps_ramPressureEvents s + 1)) (ps_storageQueuePressureEvents s).
Definition count_queue (s : MemoryPressureStats) : MemoryPressureStats :=
  mkPressureStats (ps_polls s) (ps_vramPressureEvents s) (ps_ramPressureEvents s) (wrap64 (ps_storageQueuePressureEvents s + 1)).

(** The limit of a tier less its margin. *)
Definition target (u : TierUsage) (margin : Z) : Z := if margin <? limitBytes u then wrap64 (limitBytes u - margin) else 0.

(** Eviction from a tier that is above its target. *)
Definition relieve (tier : MemoryTier) (pressure : bool) (bytes : Z)
    (count : MemoryPressureStats -> MemoryPressureStats) : ST MemoryPressureController Z :=
  (if pressure then modify (set_stats count) ;;; zoom experts_mp set_experts (evictUntilWithin tier bytes) else ret 0)%st.

Definition poll : ST MemoryPressureController MemoryPressureReport :=
  (modify (set_stats count_poll) ;;;
   config <- gets config_mp ;;
   initial <- gets (fun c => snapshot (memory_ (experts_mp c))) ;;
   let vramTarget := target initial.1 (vramSafetyMarginBytes config) in
   let ramTarget := target initial.2 (ramSafetyMarginBytes config) in
   let vramPressure := vramTarget <? usedBytes initial.1 in
   vramMoved <- relieve Vram vramPressure vramTarget count_vram ;;
   again <- gets (fun c => snapshot (memory_ (experts_mp c))) ;;
   let ramPressure := ramTarget <? usedBytes again.2 in
   ramMoved <- relieve Ram ramPressure ramTarget count_ram ;;
   depth <- gets (fun c => Z.of_nat (pending (transfers_mp c))) ;;
   let queuePressure := storageQueueHighWatermark config <=? depth in
   (if queuePressure then modify (set_stats count_queue) else ret tt) ;;;
   ret (mkReport vramPressure ramPressure queuePressure vramMoved ramMoved depth))%st.
End controller.
#[global] Arguments MemoryPressureController P T : clear implicits.

(** ** What a poll leaves *)

Section poll.
Context {P T : Type} `{HP : CachePolicy P} `{HL : !CachePolicyLaws P}.
Context `{HT : !TransferService T} `{HTL : !TransferServiceLaws T}.
Notation EM := (ExpertManager P T).
Notation Controller := (MemoryPressureController P T).

(** Only unleased experts move, and only down. *)
Definition moved_down (s s' : EM) : Prop :=
  (forall k, experts_ s !! k = None -> experts_ s' !! k = None) /\
  forall k m, experts_ s !! k = Some m -> exists m', experts_ s' !! k = Some m' /\
    (m' = m \/ (leases s m = 0 /\ lower (location m) (location m'))).

Lemma lower_resident v (m m' : ManagedExpert) :
  0 <= sizeBytes m -> sizeBytes m' = sizeBytes m -> lower (location m) (location m') ->
  v = true -> resident_bytes v m' <= resident_bytes v m.
Proof. intros Hs He Hl ->. unfold resident_bytes, in_pool. rewrite He. destruct (location m), (location m'); cbn in *; try done; lia. Qed.

(** Evicting from the RAM leaves what was reached in the VRAM. *)
Lemma vram_kept maximum (s s' : EM) :
  em_inv s -> em_inv s' -> frame ∅ None s s' -> foreign true s' = foreign true s ->
  evicted_within Vram maximum s -> evicted_within Vram maximum s'.
Proof.
  intros Hs Hs' Hf Hfor [Hle|Hall].
  - left. assert (resident true s' <= resident true s) as Hr.
    { apply map_sum_le.
      - intros k. apply (frame_dom _ _ _ _ k Hf).
      - intros k m m' Hk Hk'. destruct (fr_entry _ _ _ _ Hf k m Hk) as (m2 & Hk2 & Hstep).
        assert (m2 = m') as -> by congruence. destruct Hstep as [->|(_ & Hrel & [?|[_ Hlow]])]; [lia|done|].
        apply lower_resident; [|by apply relocation_keeps|done|done].
        pose proof (en_size _ _ _ (ei_entries s Hs k m Hk)). lia. }
    change (usageFor (memory_ s) Vram) with (vram_ (memory_ s)) in Hle. change (usageFor (memory_ s') Vram) with (vram_ (memory_ s')).
    unfold foreign, used in Hfor. lia.
  - right. intros k m' Hk' Hl.
    destruct (experts_ s !! k) as [m|] eqn:Hk; [|by rewrite (fr_none _ _ _ _ Hf k Hk) in Hk'].
    destruct (fr_entry _ _ _ _ Hf k m Hk) as (m2 & Hk2 & Hstep). assert (m2 = m') as -> by congruence.
    destruct Hstep as [->|(_ & _ & [?|[_ Hlow]])]; [|done|].
    + rewrite (leases_static s s' m m (fr_static _ _ _ _ Hf) (relocation_refl m)). by apply (Hall k).
    + rewrite Hl in Hlow. by destruct (location m).
Qed.

Lemma settled_down (s s' : EM) : settled_err ∅ s s' -> moved_down s s'.
Proof.
  intros (_ & Hf & _). split; [apply Hf|]. intros k m Hk. destruct (fr_entry _ _ _ _ Hf k m Hk) as (m' & Hk' & Hstep).
  exists m'. split; [done|]. destruct Hstep as [->|(? & _ & [?|[_ ?]])]; [by left|done|by right].
Qed.

(** What a poll reports and leaves when it returns. *)
Record polled (c : Controller) (r : MemoryPressureReport) (c' : Controller) : Prop := Polled {
  po_config : config_mp c' = config_mp c /\ transfers_mp c' = transfers_mp c;
  po_inv : em_inv (experts_mp c') /\ id_budget (experts_mp c') <= id_budget (experts_mp c);
  po_moved : settled ∅ (experts_mp c) (experts_mp c');
  po_vram : let m := memory_ (experts_mp c) in
    let bound := target (vram_ m) (vramSafetyMarginBytes (config_mp c)) in
    rp_vramPressure r = (bound <? usedBytes (vram_ m)) /\
    (rp_vramPressure r = false -> rp_vramExpertsMoved r = 0) /\
    evicted_within Vram bound (experts_mp c');
  po_ram : let bound := target (ram_ (memory_ (experts_mp c))) (ramSafetyMarginBytes (config_mp c)) in
    (exists s1, settled ∅ (experts_mp c) s1 /\ (rp_vramPressure r = false -> s1 = experts_mp c) /\
       rp_ramPressure r = (bound <? usedBytes (ram_ (memory_ s1)))) /\
    (rp_ramPressure r = false -> rp_ramExpertsMoved r = 0) /\ evicted_within Ram bound (experts_mp c');
  po_queue : rp_storageQueueDepth r = Z.of_nat (pending (transfers_mp c)) /\
    rp_storageQueuePressure r = (storageQueueHighWatermark (config_mp c) <=? rp_storageQueueDepth r);
  po_stats : stats_mp c' =
    (if rp_storageQueuePressure r then count_queue else id)
      ((if rp_ramPressure r then count_ram else id)
        ((if rp_vramPressure r then count_vram else id) (count_poll (stats_mp c))));
}.

(** What a poll leaves when an eviction from the VRAM throws. *)
Record poll_failed (c : Controller) (e : exn) (c' : Controller) : Prop := PollFailed {
  pf_service : transfers_ (experts_mp c) <> None;
  pf_error : is_runtime_error e = false;
  pf_vram : target (vram_ (memory_ (experts_mp c))) (vramSafetyMarginBytes (config_mp c)) < usedBytes (vram_ (memory_ (experts_mp c)));
  pf_config : config_mp c' = config_mp c /\ transfers_mp c' = transfers_mp c;
  pf_inv : settled_err ∅ (experts_mp c) (experts_mp c');
  pf_stats : stats_mp c' = count_vram (count_poll (stats_mp c));
}.

Lemma relieve_spec tier pressure bound count (c : Controller) :
  em_inv (experts_mp c) -> id_space (experts_mp c) -> tier <> Nvme ->
  (pressure = false -> evicted_within tier bound (experts_mp c)) ->
  let left s' := mkController s' (transfers_mp c) (config_mp c) ((if pressure then count else id) (stats_mp c)) in
  wp (relieve tier pressure bound count) c
    (fun moved c' => exists s', c' = left s' /\
       settled ∅ (experts_mp c) s' /\ evicted_within tier bound s' /\
       (tier <> Vram -> foreign true s' = foreign true (experts_mp c)) /\ (pressure = false -> moved = 0 /\ s' = experts_mp c))
    (fun e c' => exists s', c' = left s' /\ settled_err ∅ (experts_mp c) s' /\ pressure = true /\
       tier = Vram /\ transfers_ (experts_mp c) <> None /\ is_runtime_error e = false).
Proof.
  intros Hs Hr Ht Hp left. unfold relieve, left. destruct pressure.
  - wp_step. wp_step. apply wp_zoom. eapply wp_mono; [apply evict_spec; done|..].
    + intros n s' (_ & Hset & Hw & Hfor). exists s'. split_and!; try done. intros. by apply Hfor.
    + intros e s' [Hset [[? _]|?]]; [done|]. by exists s'.
  - wp_step. exists (experts_mp c). split; [by destruct c|]. split_and!; [by apply settled_refl|by apply Hp|done..].
Qed.

Lemma poll_spec (c : Controller) :
  em_inv (experts_mp c) -> id_space (experts_mp c) ->
  wp poll c (fun r c' => polled c r c') (fun e c' => poll_failed c e c').
Proof.
  intros Hs Hr. unfold poll. do 6 wp_step. set (m := memory_ (experts_mp c)).
  set (bv := target (vram_ m) (vramSafetyMarginBytes (config_mp c))). set (br := target (ram_ m) (ramSafetyMarginBytes (config_mp c))).
  wp_step. eapply wp_mono; [apply relieve_spec; try done|..].
  - intros Hp%Z.ltb_ge. by left.
  - cbn [fst snd snapshot]. intros moved c1 (s1 & -> & Hset1 & Hw1 & _ & Hz1). cbn [transfers_mp config_mp stats_mp experts_mp] in *.
    pose proof Hset1 as (Hs1 & Hf1 & Hb1). cbn in Hs1, Hf1, Hb1.
    wp_step. wp_step. wp_step. eapply wp_mono; [apply relieve_spec; try done|..].
    + cbn. unfold id_space in *. lia.
    + intros Hp%Z.ltb_ge. by left.
    + intros moved2 c2 (s2 & -> & Hset2 & Hw2 & Hfor & Hz2). cbn [transfers_mp config_mp stats_mp experts_mp] in *.
      pose proof Hset2 as (Hs2 & Hf2 & Hb2). wp_step. wp_step. wp_step.
      assert (evicted_within Vram bv s2) as Hv2 by (apply (vram_kept bv s1 s2); try done; by apply Hfor).
      unfold wp, st_bind, modify, ret. cbn [config_mp set_stats transfers_mp].
      destruct (storageQueueHighWatermark (config_mp c) <=? Z.of_nat (pending (transfers_mp c))) eqn:Hq; cbn.
      all: constructor; cbn; try done; [split; [done|unfold id_space in *; lia]|by eapply settled_trans|..].
      all: first [split; [done|]; split; [intros Hz; by apply Hz1|done] | idtac].
      all: split; [|split; [intros Hz; by apply Hz2|done]]; exists s1; split; [done|]; split; [intros Hz; by apply Hz1|done].
    + intros e c2 (s2 & _ & _ & _ & ? & _). done.
  - cbn [fst snd snapshot]. intros e c1 (s1 & -> & Hset & Hp%Z.ltb_lt & _ & Htr & He). rewrite (proj2 (Z.ltb_lt _ _) Hp). by split.
Qed.

(** C38: Whatever the configuration, a poll that returns leaves the memory it watches
    within the limit less the margin in VRAM and in RAM (the VRAM demotions it made into
    the RAM included), unless everything still in the tier is under a lease; the report
    says exactly which tiers were above their target and whether the transfer queue
    reached its watermark, and each is counted once.  A poll throws only when the VRAM was
    above its target, a transfer service is configured and a demotion out of the VRAM
    failed with something other than a runtime error; the poll and the VRAM event are then
    counted already, and the experts moved before the failure stay moved.  Either way the
    manager stays consistent, only unleased experts move, and only down. *)
Theorem poll_relieves (c : Controller) :
  em_inv (experts_mp c) -> id_space (experts_mp c) ->
  match poll c with
  | (Ok r, c') => polled c r c' /\ moved_down (experts_mp c) (experts_mp c')
  | (Throw e, c') => poll_failed c e c' /\ em_inv (experts_mp c') /\ moved_down (experts_mp c) (experts_mp c')
  | (Diverge, _) => False
  end.
Proof.
  intros Hs Hr. destruct (wp_result _ _ _ _ (poll_spec c Hs Hr)) as [(r & c' & -> & Hp)|(e & c' & -> & Hp)].
  - split; [done|]. apply settled_down, settled_settled_err, Hp.
  - split; [done|]. split; [apply Hp|]. by apply settled_down, Hp.
Qed.
End poll.

#[local] Existing Instance Lru.policy.
#[local] Existing Instance Lru.laws.

(** Two experts in 100 bytes of VRAM, one of them requested: a margin of 95 bytes moves it. *)
Definition pressed : MemoryPressureController Lru.state InlineService :=
  mkController (manager (reached registered2)) (newTransferManager 0) (mkPressureConfig 95 0 64) (mkPressureStats 0 0 0 0).

Lemma poll_relieves_witness :
  exists r c', poll pressed = (Ok r, c') /\ polled pressed r c' /\ rp_vramExpertsMoved r = 1 /\
    usedBytes (vram_ (memory_ (experts_mp c'))) = 0 /\ ps_vramPressureEvents (stats_mp c') = 1.
Proof.
  destruct registered2_inv as [Hs Hr].
  pose proof (poll_relieves pressed Hs Hr) as H. destruct (poll pressed) as [[r|e|] c'] eqn:Hrun; vm_compute in Hrun; [|discriminate..].
  exists r, c'. split; [reflexivity|]. split; [exact (proj1 H)|]. injection Hrun as <- <-.
  split; [reflexivity|]. split; vm_compute; reflexivity.
Defined.
