(* ===== verification/FloatBits.v ===== *)
(** * Floats and their bits

    A [float] in memory is a word: [std::bit_cast] both ways, and the proof that what the
    arithmetic gives is always a [float], so that what is stored is read back. *)

From S2P Require Import Prelude Float.
From Stdlib Require Import SpecFloat.

#[local] Open Scope Z_scope.

(** The word of a [float]; a NaN is stored as the quiet one. *)
Definition bits_of_f32 (x : f32) : Z :=
  match x with
  | S754_zero s => if s then 2147483648 else 0
  | S754_infinity s => (if s then 2147483648 else 0) + 2139095040
  | S754_nan => 2143289344
  | S754_finite s m e =>
      (if s then 2147483648 else 0) +
      (if Z.pos m <? 8388608 then Z.pos m else (e + 150) * 8388608 + (Z.pos m - 8388608))
  end.

(** A value of a format. *)
Definition valid32 (x : f32) : Prop := valid_binary 24 128 x = true.
Definition valid64 (x : f64) : Prop := valid_binary 53 1024 x = true.

(** ** Rounding gives values of the format *)

Section rounding.
Variables prec emax : Z.
Hypothesis prec_pos : 0 < prec.
Notation valid := (valid_binary prec emax).
Notation fexp := (fexp prec emax).
Notation emin := (emin prec emax).

Lemma Zdigits2_log2 m : 0 < m -> Zdigits2 m = Z.log2 m + 1.
Proof.
  destruct m as [|p|]; [lia| |lia]. intros _. cbn [Zdigits2]. induction p as [p IH|p IH|]; [..|done].
  - cbn [digits2_pos]. rewrite Pos2Z.inj_succ, IH. rewrite (Pos2Z.inj_xI p), Z.log2_succ_double by lia. lia.
  - cbn [digits2_pos]. rewrite Pos2Z.inj_succ, IH. rewrite (Pos2Z.inj_xO p), Z.log2_double by lia. lia.
Qed.
Lemma Zdigits2_nonneg m : 0 <= m -> 0 <= Zdigits2 m.
Proof. by destruct m. Qed.
Lemma Zdigits2_le m n : 0 <= m <= n -> Zdigits2 m <= Zdigits2 n.
Proof.
  intros H. destruct (Z.eq_dec m 0) as [->|Hm]; [apply Zdigits2_nonneg; lia|].
  rewrite !Zdigits2_log2 by lia. pose proof (Z.log2_le_mono m n). lia.
Qed.
Lemma Zdigits2_shift m k : 0 < m -> 0 <= k -> Zdigits2 (m * 2 ^ k) = Zdigits2 m + k.
Proof. intros Hm Hk. rewrite !Zdigits2_log2 by nia. rewrite Z.log2_mul_pow2 by lia. lia. Qed.

(** A mantissa with enough digits for its exponent. *)
Definition enough (m e : Z) : Prop := e <= fexp (Zdigits2 m + e).

Lemma iter_pos_iter {A} (f : A -> A) n : forall x, iter_pos f n x = Nat.iter (Pos.to_nat n) f x.
Proof.
  induction n as [n IH|n IH|]; intros x; cbn [iter_pos]; [..|done]; rewrite !IH.
  - rewrite Pos2Nat.inj_xI. replace (S (2 * Pos.to_nat n)) with (Pos.to_nat n + (Pos.to_nat n + 1))%nat by lia.
    rewrite !Nat.iter_add. done.
  - rewrite Pos2Nat.inj_xO. replace (2 * Pos.to_nat n)%nat with (Pos.to_nat n + Pos.to_nat n)%nat by lia. by rewrite Nat.iter_add.
Qed.

Lemma shr_1_half r : 0 <= shr_m r -> shr_m (shr_1 r) = shr_m r / 2.
Proof.
  destruct r as [m g s]. cbn [shr_m]. intros Hm. destruct m as [|[p|p|]|]; cbn [shr_1 shr_m]; try done; try lia.
  - rewrite Pos2Z.inj_xI, Z.add_comm, Z.mul_comm, Z.div_add by lia. done.
  - rewrite Pos2Z.inj_xO, Z.mul_comm, Z.div_mul by lia. done.
Qed.

Lemma iter_pos_shr_1 n r : 0 <= shr_m r -> shr_m (iter_pos shr_1 n r) = shr_m r / 2 ^ Z.pos n.
Proof.
  intros Hr. rewrite iter_pos_iter, <- (positive_nat_Z n). generalize (Pos.to_nat n). intros k.
  induction k as [|k IH]; [change (2 ^ Z.of_nat 0) with 1; by rewrite Z.div_1_r|].
  assert (0 <= shr_m (Nat.iter k shr_1 r)) by (rewrite IH; apply Z.div_pos; lia).
  change (Nat.iter (S k) shr_1 r) with (shr_1 (Nat.iter k shr_1 r)). rewrite shr_1_half, IH by done.
  rewrite Z.div_div by lia. f_equal. rewrite Nat2Z.inj_succ, Z.pow_succ_r by lia. lia.
Qed.

Lemma shr_record_m m l : shr_m (shr_record_of_loc m l) = m.
Proof. by destruct l as [|[]]. Qed.

(** Aligning a mantissa that has enough digits makes it canonical. *)
Lemma shr_fexp_spec m e l r e' : 0 <= m -> enough m e -> shr_fexp prec emax m e l = (r, e') ->
  e' = fexp (Zdigits2 m + e) /\ e <= e' /\ shr_m r = m / 2 ^ (e' - e) /\
  (0 < shr_m r -> fexp (Zdigits2 (shr_m r) + e') = e').
Proof.
  intros Hm He. unfold shr_fexp, shr. unfold enough in He. set (k := fexp (Zdigits2 m + e) - e).
  assert (forall r' , shr_m r' = m / 2 ^ k -> 0 <= k ->
    0 < shr_m r' -> fexp (Zdigits2 (shr_m r') + (e + k)) = e + k) as Hc.
  { intros r' Hr' Hk. intros Hpos. rewrite Hr' in Hpos |- *. assert (0 < m) as Hm'.
    { destruct (Z.eq_dec m 0) as [->|]; [|lia]. rewrite Z.div_0_l in Hpos by lia. lia. }
    assert (2 ^ k <= m) as Hle by (destruct (Z.le_gt_cases (2 ^ k) m); [done|]; rewrite Z.div_small in Hpos by lia; lia).
    assert (Zdigits2 (m / 2 ^ k) = Zdigits2 m - k) as ->.
    { rewrite !Zdigits2_log2 by lia. rewrite <- Z.shiftr_div_pow2, Z.log2_shiftr by lia.
      assert (k <= Z.log2 m); [|lia]. rewrite <- (Z.log2_pow2 k) by lia. by apply Z.log2_le_mono. }
    replace (Zdigits2 m - k + (e + k)) with (Zdigits2 m + e) by lia. subst k. lia. }
  destruct k as [|p|p] eqn:Hk.
  - intros [= <- <-]. rewrite shr_record_m. subst k. split; [lia|]. split; [lia|]. rewrite Z.sub_diag, Z.div_1_r.
    split; [done|]. intros _. replace e with (fexp (Zdigits2 m + e)) at 2 by lia. lia.
  - intros [= <- <-]. rewrite iter_pos_shr_1 by (by rewrite shr_record_m). rewrite shr_record_m. split; [lia|]. split; [lia|].
    replace (e + Z.pos p - e) with (Z.pos p) by lia. split; [done|]. intros Hpos.
    apply (Hc (Build_shr_record (m / 2 ^ Z.pos p) false false)); cbn; [done|lia|done].
  - lia.
Qed.

Lemma round_nearest_even_range m l : 0 <= m -> round_nearest_even m l = m \/ round_nearest_even m l = m + 1.
Proof. destruct l as [|[]]; cbn; auto. destruct (Z.even m); auto. Qed.

Lemma binary_round_aux_valid s m e l : 0 <= m -> enough m e -> valid (binary_round_aux prec emax s m e l) = true.
Proof.
  intros Hm He. unfold binary_round_aux. destruct (shr_fexp prec emax m e l) as [r1 e1] eqn:H1.
  apply shr_fexp_spec in H1 as (He1 & Hle & Hr1 & Hc1); [|done..].
  assert (0 <= shr_m r1) as Hn1 by (rewrite Hr1; apply Z.div_pos; lia).
  set (m2 := round_nearest_even _ _).
  assert (shr_m r1 <= m2 <= shr_m r1 + 1) as Hm2 by (destruct (round_nearest_even_range (shr_m r1) (loc_of_shr_record r1) Hn1); subst m2; lia).
  assert (m2 = 0 \/ enough m2 e1) as He2.
  { destruct (Z.eq_dec (shr_m r1) 0) as [Hz|Hz].
    - destruct (Z.eq_dec m2 0) as [|Hne]; [by left|]. right. assert (m2 = 1) as -> by lia. unfold enough. cbn [Zdigits2 digits2_pos].
      rewrite Hz in Hr1. symmetry in Hr1. apply Z.div_small_iff in Hr1; [|lia]. assert (m < 2 ^ (e1 - e)) as Hlt by lia.
      unfold fexp in *. destruct (Z.le_gt_cases e1 emin) as [|Hgt]; [lia|]. exfalso.
      assert (Zdigits2 m + e - prec = e1) as Heq by lia.
      destruct (Z.eq_dec m 0) as [->|Hm0]; [cbn [Zdigits2] in *; lia|].
      rewrite Zdigits2_log2 in Heq by lia. apply Z.log2_lt_pow2 in Hlt; lia.
    - right. unfold enough. assert (fexp (Zdigits2 (shr_m r1) + e1) = e1) as Hf by (apply Hc1; lia).
      pose proof (Zdigits2_le (shr_m r1) m2 ltac:(lia)). unfold fexp in *. lia. }
  destruct (shr_fexp prec emax m2 e1 loc_Exact) as [r2 e2] eqn:H2. destruct He2 as [Hz|He2].
  { rewrite Hz in H2. unfold shr_fexp, shr in H2. assert (shr_m r2 = 0) as ->; [|done].
    destruct (_ - e1); injection H2 as <- <-; [done| |done]. rewrite iter_pos_shr_1 by done. cbn. apply Z.div_0_l. lia. }
  apply shr_fexp_spec in H2 as (_ & _ & Hr2 & Hc2); [|lia|done].
  destruct (shr_m r2) as [|p|p] eqn:Hp; [done| |done]. destruct (Z.leb_spec e2 (emax - prec)); [|done].
  cbn [valid_binary]. unfold bounded, canonical_mantissa. apply andb_true_iff. split; [|lia]. apply Z.eqb_eq.
  apply Hc2. lia.
Qed.

Lemma pos_iter_xO d m : Z.pos (Pos.iter xO m d) = Z.pos m * 2 ^ Z.pos d.
Proof.
  rewrite Pos2Nat.inj_iter, <- (positive_nat_Z d). induction (Pos.to_nat d) as [|k IH]; [cbn; lia|].
  cbn [nat_rect]. rewrite Pos2Z.inj_xO, IH, Nat2Z.inj_succ, Z.pow_succ_r by lia. lia.
Qed.

Lemma binary_round_valid s m e : valid (binary_round prec emax s m e) = true.
Proof.
  unfold binary_round, shl_align. set (f := fexp _). destruct (f - e) as [|d|d] eqn:Hd.
  - apply binary_round_aux_valid; [lia|]. unfold enough. cbn [Zdigits2]. fold f. lia.
  - apply binary_round_aux_valid; [lia|]. unfold enough. cbn [Zdigits2]. fold f. lia.
  - apply binary_round_aux_valid; [lia|]. unfold enough. rewrite pos_iter_xO, Zdigits2_shift by lia.
    cbn [Zdigits2]. replace (Z.pos (digits2_pos m) + Z.pos d + f) with (Z.pos (digits2_pos m) + e) by lia. fold f. lia.
Qed.

Lemma binary_normalize_valid m e z : valid (binary_normalize prec emax m e z) = true.
Proof. destruct m; [done|..]; apply binary_round_valid. Qed.

Lemma SFadd_valid x y : valid x = true -> valid y = true -> valid (SFadd prec emax x y) = true.
Proof.
  destruct x as [[]|[]| |sx mx ex], y as [[]|[]| |sy my ey]; try done. intros _ _. apply binary_normalize_valid.
Qed.
Lemma SFsub_valid x y : valid x = true -> valid y = true -> valid (SFsub prec emax x y) = true.
Proof.
  destruct x as [[]|[]| |sx mx ex], y as [[]|[]| |sy my ey]; try done. intros _ _. apply binary_normalize_valid.
Qed.

Lemma canonical_digits m e : bounded prec emax m e = true -> Zdigits2 (Z.pos m) = prec \/ e = emin.
Proof.
  unfold bounded, canonical_mantissa. intros [H%Z.eqb_eq _]%andb_true_iff. unfold fexp in H. cbn [Zdigits2]. lia.
Qed.

Hypothesis emin_neg : emin <= 0.

Lemma SFmul_valid x y : valid x = true -> valid y = true -> valid (SFmul prec emax x y) = true.
Proof.
  destruct x as [sx|sx| |sx mx ex], y as [sy|sy| |sy my ey]; try done. cbn [valid_binary SFmul]. intros Hx Hy.
  apply binary_round_aux_valid; [lia|]. unfold enough, fexp.
  apply canonical_digits in Hx, Hy. assert (Zdigits2 (Z.pos mx) <= Zdigits2 (Z.pos (mx * my))) by (apply Zdigits2_le; rewrite Pos2Z.inj_mul; nia).
  assert (Zdigits2 (Z.pos my) <= Zdigits2 (Z.pos (mx * my))) by (apply Zdigits2_le; rewrite Pos2Z.inj_mul; nia). lia.
Qed.

Lemma SFdiv_valid x y : valid x = true -> valid y = true -> valid (SFdiv prec emax x y) = true.
Proof.
  destruct x as [sx|sx| |sx mx ex], y as [sy|sy| |sy my ey]; try done. cbn [valid_binary SFdiv]. intros _ _.
  unfold SFdiv_core_binary. set (e' := Z.min _ _). assert (e' <= ex - ey) as Hle by (unfold e'; lia). set (m' := match _ with Z0 => _ | Zpos _ => _ | Zneg _ => _ end).
  assert (m' = Z.pos mx * 2 ^ (ex - ey - e')) as Hm'.
  { subst m'. destruct (ex - ey - e') as [|p|p] eqn:Hs; [cbn; lia|by rewrite Z.shiftl_mul_pow2|lia]. }
  clearbody m'. destruct (Z.div_eucl m' (Z.pos my)) as [q r] eqn:Hq.
  pose proof (Z_div_mod m' (Z.pos my) ltac:(lia)) as Hr. rewrite Hq in Hr. destruct Hr as [Hdm Hr].
  assert (0 <= ex - ey - e') as Hs by (subst e'; lia).
  assert (0 < m') as Hpos by (rewrite Hm'; pose proof (Z.pow_pos_nonneg 2 (ex - ey - e')); lia).
  assert (0 <= q) as Hq0 by nia. apply binary_round_aux_valid; [done|]. unfold enough.
  assert (Zdigits2 m' = Zdigits2 (Z.pos mx) + (ex - ey - e')) as Hd by (rewrite Hm'; apply Zdigits2_shift; lia).
  assert (Zdigits2 m' - Zdigits2 (Z.pos my) <= Zdigits2 q) as Hdq.
  { destruct (Z.eq_dec q 0) as [->|Hne].
    - pose proof (Zdigits2_le m' (Z.pos my) ltac:(nia)). change (Zdigits2 0) with 0. lia.
    - rewrite (Zdigits2_log2 m'), (Zdigits2_log2 q), (Zdigits2_log2 (Z.pos my)) by lia.
      enough (Z.log2 m' < Z.log2 (Z.pos my) + 1 + (Z.log2 q + 1)) by lia.
      apply Z.log2_lt_pow2; [done|]. rewrite Z.pow_add_r by (pose proof (Z.log2_nonneg (Z.pos my)); pose proof (Z.log2_nonneg q); lia).
      pose proof (Z.log2_spec (Z.pos my) ltac:(lia)) as [_ H1]. pose proof (Z.log2_spec q ltac:(lia)) as [_ H2].
      rewrite <- Z.add_1_r in H1, H2. nia. }
  assert (e' <= fexp (Zdigits2 (Z.pos mx) + ex - (Zdigits2 (Z.pos my) + ey))) as He' by (subst e'; lia). unfold fexp in *. lia.
Qed.
End rounding.

(** ** The operations of [float] and [double] *)

Lemma f32_add_valid x y : valid32 x -> valid32 y -> valid32 (f32_add x y).
Proof. apply SFadd_valid. lia. Qed.
Lemma f32_sub_valid x y : valid32 x -> valid32 y -> valid32 (f32_sub x y).
Proof. apply SFsub_valid. lia. Qed.
Lemma f32_mul_valid x y : valid32 x -> valid32 y -> valid32 (f32_mul x y).
Proof. by apply SFmul_valid. Qed.
Lemma f32_div_valid x y : valid32 x -> valid32 y -> valid32 (f32_div x y).
Proof. by apply SFdiv_valid. Qed.
Lemma f32_of_Z_valid n : valid32 (f32_of_Z n).
Proof. apply binary_normalize_valid. lia. Qed.
Lemma f32_of_f64_valid x : valid32 (f32_of_f64 x).
Proof. destruct x; try done. apply binary_round_valid. lia. Qed.
Lemma f64_of_f32_valid x : valid64 (f64_of_f32 x).
Proof. destruct x; try done. apply binary_round_valid. lia. Qed.
Lemma f32_zero_valid : valid32 f32_zero.
Proof. done. Qed.
#[export] Hint Resolve f32_add_valid f32_sub_valid f32_mul_valid f32_div_valid f32_of_Z_valid f32_of_f64_valid f32_zero_valid : valid.

(** ** Bits *)

Ltac divlia := Z.div_mod_to_equations; lia.

(** The fields of a word. *)
Lemma word_fields (s : bool) (e f : Z) : 0 <= e < 256 -> 0 <= f < 8388608 ->
  let w := (if s then 2147483648 else 0) + e * 8388608 + f in
  Z.odd (Z.shiftr w 31) = s /\ Z.land (Z.shiftr w 23) 255 = e /\ Z.land w 8388607 = f.
Proof.
  intros He Hf w. change 255 with (Z.ones 8). change 8388607 with (Z.ones 23).
  rewrite !Z.land_ones, !Z.shiftr_div_pow2 by lia. change (2 ^ 31) with 2147483648. change (2 ^ 23) with 8388608. change (2 ^ 8) with 256.
  split; [|split].
  - assert (w / 2147483648 = if s then 1 else 0) as ->; [|by destruct s]. unfold w. destruct s; cbv iota; divlia.
  - unfold w. destruct s; cbv iota; divlia.
  - unfold w. destruct s; cbv iota; divlia.
Qed.

Lemma f32_bounded m e : bounded 24 128 m e = true ->
  (Z.pos m < 8388608 /\ e = -149) \/ (8388608 <= Z.pos m < 16777216 /\ -149 <= e <= 104).
Proof.
  unfold bounded, canonical_mantissa, fexp, emin. intros [H1%Z.eqb_eq H2%Z.leb_le]%andb_true_iff.
  change (Z.pos (digits2_pos m)) with (Zdigits2 (Z.pos m)) in H1. rewrite Zdigits2_log2 in H1 by lia.
  pose proof (Z.log2_spec (Z.pos m) ltac:(lia)) as [Hl Hu]. destruct (Z.lt_ge_cases (Z.pos m) 8388608) as [Hm|Hm].
  - left. split; [done|]. assert (Z.log2 (Z.pos m) < 23) by (apply Z.log2_lt_pow2; lia). lia.
  - right. assert (23 <= Z.log2 (Z.pos m)) by (apply Z.log2_le_pow2; lia).
    assert (Z.pos m < 16777216); [|lia]. change 16777216 with (2 ^ 24). apply Z.log2_lt_pow2; lia.
Qed.

Lemma bits_of_f32_word x : valid32 x -> is_u32 (bits_of_f32 x).
Proof.
  unfold valid32, is_u32, u32_max. destruct x as [[]|[]| |s m e]; cbn [valid_binary bits_of_f32]; try lia.
  intros H%f32_bounded. destruct (Z.ltb_spec (Z.pos m) 8388608), s; lia.
Qed.

(** What is stored is read back. *)
Lemma f32_of_bits_of x : valid32 x -> f32_of_bits (bits_of_f32 x) = x.
Proof.
  unfold valid32. destruct x as [[]|[]| |s m e]; try done. cbn [valid_binary bits_of_f32]. intros H%f32_bounded.
  unfold f32_of_bits. destruct (Z.ltb_spec (Z.pos m) 8388608) as [Hm|Hm].
  - destruct H as [[_ ->]|[? _]]; [|lia]. destruct (word_fields s 0 (Z.pos m)) as (H1 & H2 & H3); [lia..|].
    rewrite Z.add_0_r in H1, H2, H3. rewrite H1, H2, H3. done.
  - destruct H as [[? _]|[Hu He]]; [lia|]. destruct (word_fields s (e + 150) (Z.pos m - 8388608)) as (H1 & H2 & H3); [lia..|].
    rewrite <- Z.add_assoc in H1, H2, H3. rewrite H1, H2, H3.
    destruct (Z.eqb_spec (e + 150) 255); [lia|]. destruct (Z.eqb_spec (e + 150) 0); [lia|].
    replace (Z.pos m - 8388608 + 8388608) with (Z.pos m) by lia. f_equal. lia.
Qed.

(** Every word is a [float]. *)
Lemma f32_of_bits_valid w : valid32 (f32_of_bits w).
Proof.
  unfold valid32, f32_of_bits. set (e := Z.land (Z.shiftr w 23) 255). set (f := Z.land w 8388607).
  assert (0 <= e < 256) as He by (unfold e; change 255 with (Z.ones 8); rewrite Z.land_ones by lia; apply Z.mod_pos_bound; lia).
  assert (0 <= f < 8388608) as Hf by (unfold f; change 8388607 with (Z.ones 23); rewrite Z.land_ones by lia; apply Z.mod_pos_bound; lia).
  destruct (Z.eqb_spec e 255); [by destruct (f =? 0)|].
  assert (forall m k, (Z.pos m < 8388608 /\ k = -149 \/ 8388608 <= Z.pos m < 16777216 /\ -149 <= k <= 104) ->
    bounded 24 128 m k = true) as Hb.
  { intros m k Hm. unfold bounded, canonical_mantissa, fexp, emin. change (Z.pos (digits2_pos m)) with (Zdigits2 (Z.pos m)).
    rewrite Zdigits2_log2 by lia. apply andb_true_iff. rewrite Z.eqb_eq, Z.leb_le. destruct Hm as [[Hm ->]|[Hm Hk]].
    - assert (Z.log2 (Z.pos m) < 23) by (apply Z.log2_lt_pow2; lia). lia.
    - assert (23 <= Z.log2 (Z.pos m)) by (apply Z.log2_le_pow2; lia). assert (Z.log2 (Z.pos m) < 24) by (apply Z.log2_lt_pow2; lia). lia. }
  destruct (Z.eqb_spec e 0).
  - destruct f as [|m|m] eqn:Hfm; try done. apply Hb. lia.
  - destruct (f + 8388608) as [|m|m] eqn:Hfm; try done. apply Hb. lia.
Qed.
#[export] Hint Resolve f32_of_bits_valid : valid.

(** A word that is not a NaN is stored as it was. *)
Lemma bits_of_f32_of_bits w : is_u32 w -> is_nan (f32_of_bits w) = false -> bits_of_f32 (f32_of_bits w) = w.
Proof.
  unfold is_u32, u32_max. intros Hw. unfold f32_of_bits. set (s := Z.odd (Z.shiftr w 31)).
  set (e := Z.land (Z.shiftr w 23) 255). set (f := Z.land w 8388607).
  assert (0 <= e < 256) as He by (unfold e; change 255 with (Z.ones 8); rewrite Z.land_ones by lia; apply Z.mod_pos_bound; lia).
  assert (0 <= f < 8388608) as Hf by (unfold f; change 8388607 with (Z.ones 23); rewrite Z.land_ones by lia; apply Z.mod_pos_bound; lia).
  assert (w = (if s then 2147483648 else 0) + e * 8388608 + f) as Heq.
  { assert ((if s then 2147483648 else 0) = w / 2147483648 * 2147483648) as ->.
    { unfold s. rewrite Z.shiftr_div_pow2 by lia. change (2 ^ 31) with 2147483648.
      assert (w / 2147483648 = 0 \/ w / 2147483648 = 1) as [->| ->] by divlia; done. }
    unfold e, f. change 255 with (Z.ones 8). change 8388607 with (Z.ones 23). rewrite !Z.land_ones, Z.shiftr_div_pow2 by lia.
    change (2 ^ 23) with 8388608. change (2 ^ 8) with 256. divlia. }
  clearbody s e f. destruct (Z.eqb_spec e 255).
  - destruct (Z.eqb_spec f 0); [|done]. intros _. cbn. lia.
  - destruct (Z.eqb_spec e 0).
    + destruct f as [|m|m] eqn:Hfm; [|..|lia]; intros _; cbn [bits_of_f32]; [lia|]. destruct (Z.ltb_spec (Z.pos m) 8388608); lia.
    + destruct (f + 8388608) as [|m|m] eqn:Hfm; try lia. intros _. cbn [bits_of_f32]. destruct (Z.ltb_spec (Z.pos m) 8388608); lia.
Qed.
