(* ===== verification/Int8Quantization.v ===== *)
(** * Quantizing to INT8

    [quantizeInt8] and [dequantizeInt8] of [src/tensor/quantization/Quantization.cpp]: the
    scale of a row of floats, its bytes, and the error the quantizer reports. *)

From Stdlib Require Import SpecFloat.
From S2P Require Import Prelude Float FloatBits Tensor Quantization.

#[local] Open Scope Z_scope.

Record Int8QuantizationResult : Type := mkInt8 {
  iq_bytes : list Z;
  iq_parameters : QuantizationParameters;
  iq_maximumAbsoluteError : f32;
}.

(** ** What the code uses of the standard library *)

(** [std::round]: to the nearest integer, halves away from zero. *)
Definition round_magnitude (m : positive) (e : Z) : Z :=
  if 0 <=? e then Z.pos m * 2 ^ e else (Z.pos m + 2 ^ (- e - 1)) / 2 ^ (- e).
Definition f32_round (x : f32) : f32 :=
  match x with
  | S754_finite s m e => binary_normalize 24 128 (if s then - round_magnitude m e else round_magnitude m e) 0 s
  | _ => x
  end.
(** A cast to an integer type: the fraction is dropped. *)
Definition truncated (x : f32) : Z :=
  match x with
  | S754_finite s m e =>
      let n := if 0 <=? e then Z.pos m * 2 ^ e else Z.pos m / 2 ^ (- e) in
      if s then - n else n
  | _ => 0
  end.

Definition byte_of_int8 (q : Z) : Z := q mod 256.
Definition int8_of_byte (b : Z) : Z := if b <? 128 then b else b - 256.

Definition f127 : f32 := Eval vm_compute in f32_of_Z 127.
Definition minus_f127 : f32 := Eval vm_compute in f32_of_Z (-127).

(** ** The quantizer *)

Definition maximum_magnitude (values : list f32) : result f32 :=
  foldl (fun maximum value =>
    maximum <-? maximum ;;
    throw_if (negb (isfinite value)) (Exn InvalidArgument "INT8 quantization source must contain finite values") ;;?
    Ok (fmax maximum (SFabs value)))%res (Ok f32_zero) values.

Definition quantized (s : f32) (value : f32) : Z := truncated (fclamp (f32_round (f32_div value s)) minus_f127 f127).
Definition reconstructed (p : QuantizationParameters) (q : Z) : f32 := f32_mul (f32_of_Z (q - zeroPoint p)) (scale p).

Definition quantize_value (p : QuantizationParameters) (r : list Z * f32) (value : f32) : list Z * f32 :=
  let q := quantized (scale p) value in
  (r.1 ++ [byte_of_int8 q], fmax r.2 (SFabs (f32_sub value (reconstructed p q)))).

Definition quantizeInt8 (values : list f32) : result Int8QuantizationResult :=
  (throw_if (match values with [] => true | _ => false end) (Exn InvalidArgument "INT8 quantization source cannot be empty") ;;?
   maximumMagnitude <-? maximum_magnitude values ;;
   let p := mkQuantization (if feq maximumMagnitude f32_zero then f32_of_Z 1 else f32_div maximumMagnitude f127) 0 in
   validateParameters QINT8 p ;;?
   let r := foldl (quantize_value p) ([], f32_zero) values in
   Ok (mkInt8 r.1 p r.2))%res.

Definition dequantizeInt8 (values : list Z) (p : QuantizationParameters) : result (list f32) :=
  (throw_if (match values with [] => true | _ => false end) (Exn InvalidArgument "INT8 dequantization source cannot be empty") ;;?
   validateParameters QINT8 p ;;?
   Ok ((fun b => reconstructed p (int8_of_byte b)) <$> values))%res.

(** ** Facts of the arithmetic *)

Lemma f32_div_number x y : isfinite x = true -> isfinite y = true -> fle y f32_zero = false -> is_nan (f32_div x y) = false.
Proof.
  unfold f32_div, SFdiv. destruct x as [| | |sx mx ex], y as [| | |sy my ey]; try done.
  intros _ _ _. destruct (SFdiv_core_binary _ _ _ _ _ _) as [[q e] l] eqn:Hq.
  eapply signed_not_nan, binary_round_aux_signed. by eapply SFdiv_core_nonneg; [| |exact Hq].
Qed.

Lemma f32_mul_number x y : isfinite x = true -> isfinite y = true -> is_nan (f32_mul x y) = false.
Proof.
  unfold f32_mul, SFmul. destruct x as [| | |sx mx ex], y as [| | |sy my ey]; try done.
  intros _ _. eapply signed_not_nan, binary_round_aux_signed. lia.
Qed.

Lemma f32_sub_number x y : isfinite x = true -> is_nan y = false -> is_nan (f32_sub x y) = false.
Proof.
  unfold f32_sub, SFsub. destruct x as [[]| | |sx mx ex], y as [[]| | |sy my ey]; try done; intros _ _; apply binary_normalize_number.
Qed.

Lemma SFabs_nan x : is_nan (SFabs x) = is_nan x.
Proof. by destruct x. Qed.

Lemma f32_round_number x : is_nan x = false -> is_nan (f32_round x) = false.
Proof. destruct x; try done. intros _. apply binary_normalize_number. Qed.

Lemma f32_round_valid x : valid32 x -> valid32 (f32_round x).
Proof. destruct x; try done. intros _. by apply binary_normalize_valid. Qed.

Lemma fclamp_valid v lo hi : valid32 v -> valid32 lo -> valid32 hi -> valid32 (fclamp v lo hi).
Proof. unfold fclamp. by repeat case_match. Qed.

(** An integer between -127 and 127. *)
Lemma truncated_range x : valid32 x -> is_nan x = false -> fle minus_f127 x = true -> fle x f127 = true -> -127 <= truncated x <= 127.
Proof.
  intros Hv Hn. rewrite !fle_fkey by done. destruct x as [s|s| |s m e]; [cbn; lia|cbn; lia|done|]. apply f32_bounded in Hv.
  intros H1 H2. assert (e < -17 \/ e = -17 /\ Z.pos m <= 16646144) as He by (destruct s; cbn [fkey lex3 minus_f127 f127] in H1, H2;
    try (assert (forall a b c d, (1, a, b) = (1, c, d) -> a = c /\ b = d) as Hp by (intros * [=]; done)); naive_solver lia).
  cbn [truncated]. replace (0 <=? e) with false by lia. assert (0 <= Z.pos m / 2 ^ (- e) <= 127) as Hq; [|destruct s; lia].
  split; [apply Z.div_pos; [lia|apply Z.pow_pos_nonneg; lia]|]. apply Z.lt_succ_r, Z.div_lt_upper_bound; [apply Z.pow_pos_nonneg; lia|].
  destruct He as [He|[-> Hm]]; [|change (2 ^ (- -17)) with 131072; lia].
  pose proof (Z.pow_le_mono_r 2 18 (- e) ltac:(lia) ltac:(lia)) as Hp. change (2 ^ 18) with 262144 in Hp. lia.
Qed.

(** ** Greatest elements *)

Lemma fle_refl x : is_nan x = false -> fle x x = true.
Proof. intros. rewrite fle_fkey by done. by right. Qed.

Lemma fle_trans x y z : is_nan x = false -> is_nan y = false -> is_nan z = false ->
  fle x y = true -> fle y z = true -> fle x z = true.
Proof.
  intros Hx Hy Hz. rewrite !fle_fkey by done. unfold lex3.
  destruct (fkey x) as [[a b] c], (fkey y) as [[a' b'] c'], (fkey z) as [[a'' b''] c'']. intros [H1|[= -> -> ->]] [H2|[= -> -> ->]]; auto. left. lia.
Qed.

Lemma fmax_spec a b : is_nan a = false -> is_nan b = false ->
  is_nan (fmax a b) = false /\ fle a (fmax a b) = true /\ fle b (fmax a b) = true.
Proof.
  intros Ha Hb. unfold fmax. destruct (flt a b) eqn:H.
  - rewrite (fle_refl b) by done. rewrite fle_flt_or_feq, H. done.
  - rewrite (fle_refl a) by done. split; [done|]. split; [done|]. apply not_true_iff_false in H. rewrite flt_fkey in H by done. rewrite fle_fkey by done.
    revert H. unfold lex3. destruct (fkey a) as [[p q] r], (fkey b) as [[p' q'] r'].
    destruct (decide (p = p')), (decide (q = q')), (decide (r = r')); subst; auto; intros; left; lia.
Qed.

(** A running maximum is above everything it has seen, and is one of them. *)
Lemma running_maximum l a : is_nan a = false -> Forall (fun x => is_nan x = false) l ->
  is_nan (foldl fmax a l) = false /\ fle a (foldl fmax a l) = true /\
  Forall (fun x => fle x (foldl fmax a l) = true) l /\ (foldl fmax a l = a \/ foldl fmax a l ∈ l).
Proof.
  intros Ha Hl. revert a Ha. induction Hl as [|x l Hx Hl IH]; intros a Ha; cbn.
  - split; [done|]. split; [by apply fle_refl|]. split; [apply Forall_nil_2|by left].
  - destruct (fmax_spec a x Ha Hx) as (Hm & Hma & Hmx). destruct (IH (fmax a x) Hm) as (Hn & Hle & Hall & Hin).
    split; [done|]. split; [by apply (fle_trans a (fmax a x))|]. split; [apply Forall_cons_2; [by apply (fle_trans x (fmax a x))|done]|].
    destruct Hin as [->|Hin]; [|right; by right]. unfold fmax. destruct (flt a x); [right; by left|by left].
Qed.

Lemma maximum_magnitude_spec l a :
  foldl (fun maximum value =>
    maximum <-? maximum ;;
    throw_if (negb (isfinite value)) (Exn InvalidArgument "INT8 quantization source must contain finite values") ;;?
    Ok (fmax maximum (SFabs value)))%res (Ok a) l =
  if decide (Forall (fun x => isfinite x = true) l) then Ok (foldl fmax a (SFabs <$> l))
  else Throw (Exn InvalidArgument "INT8 quantization source must contain finite values").
Proof.
  revert a. induction l as [|x l IH]; intros a; [by rewrite decide_True by apply Forall_nil_2|].
  cbn [foldl res_bind]. destruct (isfinite x) eqn:Hx; cbn [negb throw_if res_bind].
  - rewrite IH. destruct (decide (Forall _ l)) as [Hl|Hl].
    + by rewrite decide_True by (apply Forall_cons_2; done).
    + rewrite decide_False; [done|]. by intros [_ ?]%Forall_cons.
  - rewrite decide_False by (intros [? _]%Forall_cons; congruence).
    clear. induction l as [|y l IH]; [done|exact IH].
Qed.

Lemma quantize_fold p l bytes err :
  foldl (quantize_value p) (bytes, err) l =
  (bytes ++ (byte_of_int8 ∘ quantized (scale p) <$> l),
   foldl fmax err ((fun v => SFabs (f32_sub v (reconstructed p (quantized (scale p) v)))) <$> l)).
Proof.
  revert bytes err. induction l as [|v l IH]; intros bytes err; cbn [foldl fmap list_fmap]; [by rewrite app_nil_r|].
  unfold quantize_value at 2. cbn [fst snd]. rewrite IH. by rewrite <- app_assoc.
Qed.

Lemma int8_byte q : -128 <= q <= 127 -> int8_of_byte (byte_of_int8 q) = q /\ 0 <= byte_of_int8 q < 256.
Proof. intros. unfold int8_of_byte, byte_of_int8. assert (q mod 256 = if q <? 0 then q + 256 else q) as -> by (case_match; divlia). repeat case_match; lia. Qed.

Lemma quantized_range s v : valid32 s -> valid32 v -> isfinite s = true -> fle s f32_zero = false -> isfinite v = true ->
  -127 <= quantized s v <= 127.
Proof.
  intros Hs Hv Fs Ps Fv. unfold quantized. set (r := f32_round (f32_div v s)).
  assert (is_nan r = false) as Hn by (apply f32_round_number; by apply f32_div_number).
  destruct (fclamp_bounds r minus_f127 f127 Hn eq_refl eq_refl eq_refl) as [H1 H2].
  apply truncated_range; try done.
  - apply fclamp_valid; try done. apply f32_round_valid. auto with valid.
  - revert H1. unfold fclamp. repeat case_match; done.
Qed.

(** ** What the quantizer promises *)

(** The scale the quantizer chooses for a row. *)
Definition chosen_scale (values : list f32) : f32 :=
  let m := foldl fmax f32_zero (SFabs <$> values) in if feq m f32_zero then f32_of_Z 1 else f32_div m f127.
Definition quantizable (values : list f32) : Prop :=
  values <> [] /\ Forall (fun v => isfinite v = true) values /\
  isfinite (chosen_scale values) = true /\ fle (chosen_scale values) f32_zero = false.

(** The bytes restore the row up to the error that is reported. *)
Record restores (values : list f32) (r : Int8QuantizationResult) (restored : list f32) : Prop := Restores {
  rs_length : length restored = length values /\ length (iq_bytes r) = length values;
  rs_bytes : Forall (fun b => 0 <= b < 256 /\ -127 <= int8_of_byte b <= 127) (iq_bytes r);
  rs_parameters : iq_parameters r = mkQuantization (chosen_scale values) 0;
  rs_error : Forall (fun e => fle e (iq_maximumAbsoluteError r) = true) (zip_with (fun v d => SFabs (f32_sub v d)) values restored);
  rs_attained : iq_maximumAbsoluteError r = f32_zero \/
    iq_maximumAbsoluteError r ∈ zip_with (fun v d => SFabs (f32_sub v d)) values restored;
}.

Lemma small_integer_finite n : -256 <= n <= 256 -> isfinite (f32_of_Z n) = true.
Proof.
  intros Hn. assert (forallb (fun n => isfinite (f32_of_Z n)) (seqZ (-256) 513) = true) as H by (vm_compute; reflexivity).
  rewrite forallb_forall in H. apply H, list_elem_of_In, elem_of_seqZ. lia.
Qed.

Lemma error_number p v : valid32 (scale p) -> valid32 v -> isfinite (scale p) = true -> fle (scale p) f32_zero = false -> zeroPoint p = 0 ->
  isfinite v = true -> is_nan (SFabs (f32_sub v (reconstructed p (quantized (scale p) v)))) = false.
Proof.
  intros Vs Vv Fs Ps Hz Fv. rewrite SFabs_nan. apply f32_sub_number; [done|]. apply f32_mul_number; [|done].
  apply small_integer_finite. pose proof (quantized_range (scale p) v Vs Vv Fs Ps Fv). lia.
Qed.

Lemma chosen_scale_valid values : Forall valid32 values -> valid32 (chosen_scale values).
Proof.
  intros Hv. unfold chosen_scale. assert (valid32 (foldl fmax f32_zero (SFabs <$> values))) as Hm; [|case_match; auto with valid].
  assert (forall a, valid32 a -> valid32 (foldl fmax a (SFabs <$> values))) as H; [|by apply H].
  induction Hv as [|x l Hx Hl IH]; intros a Ha; [done|]. cbn. apply IH. unfold fmax. case_match; [|done]. by destruct x.
Qed.

(** C17: Quantizing a row to INT8 and dequantizing it restores the row within exactly the
    error the quantizer reports: there is a byte per value, each between -127 and 127, the
    zero point is 0, no value is off by more than the reported error and, unless the report
    is zero, one is off by exactly that. A row is refused exactly when it is empty, holds an
    infinity or a NaN, or its largest magnitude over 127 is no positive float. *)
Theorem quantize_restores values : Forall valid32 values ->
  match quantizeInt8 values with
  | Ok r => quantizable values /\ exists restored, dequantizeInt8 (iq_bytes r) (iq_parameters r) = Ok restored /\ restores values r restored
  | Throw e => kind_of e = InvalidArgument /\ ~ quantizable values
  | Diverge => False
  end.
Proof.
  intros Hv. unfold quantizeInt8. destruct values as [|v0 l0] eqn:Hne; [split; [done|by intros [? _]]|]. rewrite <- Hne in *. cbn [throw_if res_bind].
  assert (values <> []) as Hne' by (by rewrite Hne). clear Hne v0 l0.
  unfold maximum_magnitude. rewrite maximum_magnitude_spec. destruct (decide (Forall _ values)) as [Hf|Hf]; cbn [res_bind]; [|split; [done|by intros (_ & ? & _)]].
  fold (chosen_scale values). set (s := chosen_scale values). set (p := mkQuantization s 0).
  assert (valid32 s) as Hs by (by apply chosen_scale_valid).
  assert (validateParameters QINT8 p = if negb (isfinite s) || fle s f32_zero
    then Throw (Exn InvalidArgument "quantization scale must be finite and positive") else Ok tt) as Hval
    by (unfold validateParameters; cbn [scale zeroPoint p]; by destruct (negb (isfinite s) || fle s f32_zero)).
  rewrite Hval. destruct (negb (isfinite s) || fle s f32_zero) eqn:Hp; cbn [res_bind].
  { split; [done|]. intros (_ & _ & Hsf & Hsp). change (isfinite s = true) in Hsf. change (fle s f32_zero = false) in Hsp. by rewrite Hsf, Hsp in Hp. }
  apply orb_false_iff in Hp as [Fs%negb_false_iff Ps]. split; [done|]. rewrite quantize_fold. cbn [fst snd iq_bytes iq_parameters app].
  assert (Forall (fun v => -127 <= quantized s v <= 127) values) as Hq.
  { rewrite Forall_forall in Hv, Hf |- *. intros v Hin. apply quantized_range; auto. }
  exists ((fun v => reconstructed p (quantized s v)) <$> values). split.
  { unfold dequantizeInt8. destruct (byte_of_int8 ∘ quantized (scale p) <$> values) as [|b0 l0] eqn:Hb; [by apply fmap_nil_inv in Hb|].
    rewrite <- Hb. cbn [throw_if res_bind]. rewrite Hval. cbn [res_bind]. f_equal. rewrite <- list_fmap_compose. apply list_fmap_ext.
    intros i v Hi. eapply Forall_lookup in Hq; [|exact Hi]. cbn. by rewrite (proj1 (int8_byte (quantized s v) ltac:(lia))). }
  assert (zip_with (fun v d => SFabs (f32_sub v d)) values ((fun v => reconstructed p (quantized s v)) <$> values) =
    (fun v => SFabs (f32_sub v (reconstructed p (quantized s v)))) <$> values) as Herr.
  { clearbody p. clearbody s. clear. induction values as [|v l IH]; [done|]. cbn. by rewrite IH. }
  destruct (running_maximum ((fun v => SFabs (f32_sub v (reconstructed p (quantized s v)))) <$> values) f32_zero) as (_ & _ & Hall & Hin); [done| |].
  { apply Forall_fmap. rewrite Forall_forall in Hv, Hf |- *. intros v Hv'. apply (error_number p); auto. }
  constructor; cbn [iq_bytes iq_parameters iq_maximumAbsoluteError]; [by rewrite !length_fmap| |done|by rewrite Herr|by rewrite Herr].
  apply Forall_fmap. eapply Forall_impl; [exact Hq|]. intros v Hr. cbv beta in Hr. destruct (int8_byte (quantized s v)) as [Hb Hu]; [lia|]. unfold compose. cbn [scale p]. by rewrite Hb.
Qed.

(** 1, -2 and 0: the bytes 64, -127 and 0 of a scale of 2/127. *)
Definition sample_row : list f32 := f32_of_Z <$> [1; -2; 0].
Lemma quantize_restores_witness : exists r restored, quantizeInt8 sample_row = Ok r /\ iq_bytes r = [64; 129; 0] /\
  dequantizeInt8 (iq_bytes r) (iq_parameters r) = Ok restored /\ restores sample_row r restored.
Proof.
  assert (Forall valid32 sample_row) as Hv by (repeat apply Forall_cons_2; try apply Forall_nil_2; apply f32_of_Z_valid).
  pose proof (quantize_restores sample_row Hv) as H. assert (exists r, quantizeInt8 sample_row = Ok r /\ iq_bytes r = [64; 129; 0]) as (r & Hr & Hb)
    by (eexists; split; vm_compute; reflexivity).
  rewrite Hr in H. destruct H as (_ & restored & H1 & H2). exists r, restored. by split_and!.
Defined.

(** Two ends of the range of floats. A row of the least positive float has no scale: the
    quotient by 127 is zero. A row of the greatest is quantized with a scale that restores
    an infinity, which is also the reported error. *)
Lemma least_float_refused :
  quantizeInt8 [f32_of_bits 1] = Throw (Exn InvalidArgument "quantization scale must be finite and positive").
Proof. vm_compute. reflexivity. Qed.
Lemma greatest_float_overflows : exists r, quantizeInt8 [f32_of_bits 2139095039] = Ok r /\ iq_maximumAbsoluteError r = S754_infinity false /\
  dequantizeInt8 (iq_bytes r) (iq_parameters r) = Ok [S754_infinity false].
Proof. eexists. split; [|split]; vm_compute; reflexivity. Qed.
