(* ===== verification/HostMemory.v ===== *)
(** * Host memory and the CPU backend

    [src/backend/CpuBackend.cpp] and the [DeviceBuffer] of [src/backend/Backend.cpp] over
    the memory of the process: the words floats are in, the storage that is allocated,
    and the buffers that own it.  [operator new] is a parameter. *)

From S2P Require Import Prelude Float FloatBits Tiers Tensor KVCache.

#[local] Open Scope Z_scope.

(** ** The memory of the process *)

(** The word at each address that is a multiple of four, the storage that is allocated
    (to anybody) with its size, the owners of tensor storage that are alive, and the
    backend's own table and counters. *)
Record Host : Type := mkHost {
  words : Z -> Z;
  live : gmap Z Z;
  owners : gset Z;
  nextOwner : Z;
  allocations : gmap Z Z;
  allocatedBytes : Z;
  peakAllocatedBytes : Z;
  hostToDeviceBytes : Z;
  deviceToHostBytes : Z;
  synchronizationCount : Z;
}.

Definition set_words (f : (Z -> Z) -> Z -> Z) (h : Host) : Host :=
  mkHost (f (words h)) (live h) (owners h) (nextOwner h) (allocations h) (allocatedBytes h) (peakAllocatedBytes h)
    (hostToDeviceBytes h) (deviceToHostBytes h) (synchronizationCount h).

Definition byte_at (mem : Z -> Z) (a : Z) : Z := Z.land (Z.shiftr (mem (a - a mod 4)) (8 * (a mod 4))) 255.
(** A [float] read and written through a pointer. *)
Definition load (mem : Z -> Z) (p : Z) (i : nat) : f32 := f32_of_bits (mem (p + 4 * Z.of_nat i)).
Definition store (p : Z) (i : nat) (x : f32) (mem : Z -> Z) : Z -> Z :=
  fun a => if a =? p + 4 * Z.of_nat i then bits_of_f32 x else mem a.
(** An [int8_t] read through a pointer. *)
Definition load_int8 (mem : Z -> Z) (p : Z) (i : nat) : Z :=
  let b := byte_at mem (p + Z.of_nat i) in if b <? 128 then b else b - 256.
(** [memmove], byte by byte. *)
Definition word_of_bytes (b : Z -> Z) : Z := b 0 + 256 * b 1 + 65536 * b 2 + 16777216 * b 3.
Definition moved_byte (destination source count : Z) (mem : Z -> Z) (x : Z) : Z :=
  byte_at mem (if (destination <=? x) && (x <? destination + count) then source + (x - destination) else x).
Definition memmove (destination source count : Z) (mem : Z -> Z) : Z -> Z :=
  fun a => word_of_bytes (fun i => moved_byte destination source count mem (a + i)).

(** [::operator new(size, align_val_t{64})]: where the block is put, if anywhere. *)
Class HostAllocator : Type := {
  operator_new : gmap Z Z -> Z -> option Z;
}.
Class HostAllocatorLaws `{HostAllocator} : Prop := {
  operator_new_fresh storage size p :
    0 < size -> operator_new storage size = Some p ->
    0 < p /\ p mod 64 = 0 /\ p + size <= u64_max /\
    forall q n, storage !! q = Some n -> p + size <= q \/ q + n <= p;
}.

(** ** The backend *)

Section backend.
Context `{HA : HostAllocator}.

Definition note_allocated (p size : Z) (h : Host) : Host :=
  let allocated := wrap64 (allocatedBytes h + size) in
  mkHost (words h) (<[p := size]> (live h)) (owners h) (nextOwner h) (<[p := size]> (allocations h)) allocated
    (Z.max (peakAllocatedBytes h) allocated) (hostToDeviceBytes h) (deviceToHostBytes h) (synchronizationCount h).

Definition cpu_allocate (sizeBytes : Z) : ST Host Z :=
  (lift (throw_if (sizeBytes =? 0) (Exn InvalidArgument "CPU allocation size must be nonzero")) ;;;
   h <- st_get ;;
   match operator_new (live h) sizeBytes with
   | None => throw (Exn BadAlloc "std::bad_alloc")
   | Some p => modify (note_allocated p sizeBytes) ;;; ret p
   end)%st.

Definition cpu_free (p : Z) (h : Host) : Host :=
  if p =? 0 then h
  else match allocations h !! p with
       | None => h
       | Some size =>
           mkHost (words h) (delete p (live h)) (owners h) (nextOwner h) (delete p (allocations h))
             (wrap64 (allocatedBytes h - size)) (peakAllocatedBytes h) (hostToDeviceBytes h) (deviceToHostBytes h)
             (synchronizationCount h)
       end.

(** [CpuBackend::copy] *)
Definition cpu_copy (destination source sizeBytes : Z) (toDevice : bool) : ST Host unit :=
  (if sizeBytes =? 0 then ret tt
   else
     lift (throw_if ((destination =? 0) || (source =? 0)) (Exn InvalidArgument "CPU copy received a null pointer")) ;;;
     modify (fun h => mkHost (memmove destination source sizeBytes (words h)) (live h) (owners h) (nextOwner h)
       (allocations h) (allocatedBytes h) (peakAllocatedBytes h)
       (if toDevice then wrap64 (hostToDeviceBytes h + sizeBytes) else hostToDeviceBytes h)
       (if toDevice then deviceToHostBytes h else wrap64 (deviceToHostBytes h + sizeBytes))
       (synchronizationCount h)))%st.

Definition cpu_synchronize : ST Host unit :=
  modify (fun h => mkHost (words h) (live h) (owners h) (nextOwner h) (allocations h) (allocatedBytes h) (peakAllocatedBytes h)
    (hostToDeviceBytes h) (deviceToHostBytes h) (wrap64 (synchronizationCount h + 1))).

(** [std::make_shared<DeviceBuffer>(backend_, sizeBytes)]: the buffer and its identity. *)
Definition new_owner (h : Host) : Host :=
  mkHost (words h) (live h) ({[nextOwner h]} ∪ owners h) (nextOwner h + 1) (allocations h) (allocatedBytes h)
    (peakAllocatedBytes h) (hostToDeviceBytes h) (deviceToHostBytes h) (synchronizationCount h).
Definition make_buffer (sizeBytes : Z) : ST Host DeviceBuffer :=
  (lift (throw_if (sizeBytes =? 0) (Exn InvalidArgument "DeviceBuffer size must be nonzero")) ;;;
   p <- cpu_allocate sizeBytes ;;
   h <- st_get ;;
   modify new_owner ;;;
   ret (mkBuffer (nextOwner h) p sizeBytes (Some (CPU, 0))))%st.

(** The last reference to a buffer goes: [~DeviceBuffer]. *)
Definition drop_owner (owner : Z) (h : Host) : Host :=
  mkHost (words h) (live h) (owners h ∖ {[owner]}) (nextOwner h) (allocations h) (allocatedBytes h)
    (peakAllocatedBytes h) (hostToDeviceBytes h) (deviceToHostBytes h) (synchronizationCount h).
Definition drop_buffer (b : DeviceBuffer) (h : Host) : Host := drop_owner (bu_owner b) (cpu_free (bu_data b) h).
End backend.

(** [m], then a destructor however [m] ends. *)
Definition finally {S A} (m : ST S A) (destructor : S -> S) : ST S A :=
  fun s => let '(r, s') := m s in (r, destructor s').

(** ** Loops over the elements of an output *)

(** [for (k : ks) output[k] = value(k);] where a value is computed from the memory the
    loop has reached. *)
Definition fill (p : Z) (value : (Z -> Z) -> nat -> f32) (ks : list nat) (mem : Z -> Z) : Z -> Z :=
  foldl (fun mem k => store p k (value mem k) mem) mem ks.

Definition cell (p : Z) (k : nat) : Z := p + 4 * Z.of_nat k.

(** A memory where the cells [ks] of [p] hold [value]. *)
Definition filled (p : Z) (value : nat -> f32) (n : nat) (mem : Z -> Z) : Z -> Z :=
  fun a => let k := Z.to_nat ((a - p) / 4) in
           if bool_decide (p <= a /\ (a - p) mod 4 = 0 /\ (k < n)%nat) then bits_of_f32 (value k) else mem a.

Lemma cell_inj p j k : cell p j = cell p k -> j = k.
Proof. unfold cell. lia. Qed.

Lemma filled_cell p value n mem k : (k < n)%nat -> filled p value n mem (cell p k) = bits_of_f32 (value k).
Proof.
  intros Hk. unfold filled, cell. replace (p + 4 * Z.of_nat k - p) with (Z.of_nat k * 4) by lia.
  rewrite Z.div_mul, Z.mod_mul, Nat2Z.id by lia. rewrite bool_decide_eq_true_2 by lia. done.
Qed.

Lemma filled_other p value n mem a : (forall k, (k < n)%nat -> a <> cell p k) -> filled p value n mem a = mem a.
Proof.
  intros Ha. unfold filled. destruct (bool_decide_reflect (p <= a /\ (a - p) mod 4 = 0 /\ (Z.to_nat ((a - p) / 4) < n)%nat)) as [(H1 & H2 & H3)|]; [|done].
  destruct (Ha _ H3). unfold cell. rewrite Z2Nat.id by (apply Z.div_pos; lia). pose proof (Z.div_mod (a - p) 4). lia.
Qed.

Lemma cell_decides p n a : (exists k, (k < n)%nat /\ a = cell p k) \/ forall k, (k < n)%nat -> a <> cell p k.
Proof.
  induction n as [|n [(k & Hk & ->)|IH]]; [right; lia|left; exists k; split; [lia|done]|].
  destruct (Z.eq_dec a (cell p n)) as [->|Hne]; [left; exists n; split; [lia|done]|].
  right. intros k Hk. destruct (decide (k = n)) as [->|]; [done|]. apply IH. lia.
Qed.

(** A loop whose values do not depend on the cells it has already written leaves every
    cell with the value the initial memory gives. *)
Lemma fill_filled p value n mem :
  (forall k mem', (k < n)%nat -> (forall a, (forall j, (j < n)%nat -> j <> k -> a <> cell p j) -> mem' a = mem a) ->
     value mem' k = value mem k) ->
  forall a, fill p value (seq 0 n) mem a = filled p (value mem) n mem a.
Proof.
  intros Hv. unfold fill.
  assert (forall i, (i <= n)%nat -> forall a, foldl (fun mem k => store p k (value mem k) mem) mem (seq 0 i) a = filled p (value mem) i mem a) as H; [|by apply H].
  induction i as [|i IH]; intros Hi a.
  { cbn. by rewrite filled_other by lia. }
  rewrite seq_S, foldl_app. cbn [foldl]. rewrite Nat.add_0_l. set (m1 := foldl _ mem (seq 0 i)).
  assert (forall a, m1 a = filled p (value mem) i mem a) as Hm1 by (apply IH; lia).
  rewrite (Hv i m1); [|lia|]. 2:{ intros b Hb. rewrite Hm1. apply filled_other. intros k Hk. apply Hb; lia. }
  unfold store. fold (cell p i). destruct (Z.eqb_spec a (cell p i)) as [->|Hne]; [by rewrite filled_cell by lia|].
  rewrite Hm1. destruct (cell_decides p i a) as [(k & Hk & ->)|Hno].
  - by rewrite !filled_cell by lia.
  - rewrite !filled_other; [done| |done]. intros k Hk. destruct (decide (k = i)) as [->|]; [done|]. apply Hno. lia.
Qed.

(** ** Words *)

Definition words_ok (mem : Z -> Z) : Prop := forall a, is_u32 (mem a).

Lemma byte_at_spec mem a : byte_at mem a = mem (a - a mod 4) / 2 ^ (8 * (a mod 4)) mod 256.
Proof.
  unfold byte_at. change 255 with (Z.ones 8). rewrite Z.land_ones by lia.
  pose proof (Z.mod_pos_bound a 4). rewrite Z.shiftr_div_pow2 by lia. done.
Qed.
Lemma byte_at_range mem a : 0 <= byte_at mem a < 256.
Proof. rewrite byte_at_spec. apply Z.mod_pos_bound. lia. Qed.

Lemma word_bytes mem a : a mod 4 = 0 -> is_u32 (mem a) -> word_of_bytes (fun i => byte_at mem (a + i)) = mem a.
Proof.
  unfold is_u32, u32_max, word_of_bytes. intros Ha Hm. rewrite !byte_at_spec.
  assert (forall i, 0 <= i < 4 -> (a + i) mod 4 = i /\ a + i - (a + i) mod 4 = a) as Hi.
  { intros i Hi. pose proof (Z.div_mod a 4 ltac:(lia)). assert ((a + i) mod 4 = i) as ->; [|lia].
    replace (a + i) with (i + a / 4 * 4) by lia. rewrite Z.mod_add by lia. by apply Z.mod_small. }
  destruct (Hi 0) as [H0 E0], (Hi 1) as [H1 E1], (Hi 2) as [H2 E2], (Hi 3) as [H3 E3]; try lia.
  rewrite E0, E1, E2, E3, H0, H1, H2, H3. generalize dependent (mem a). intros w Hw.
  change (2 ^ (8 * 0)) with 1. change (2 ^ (8 * 1)) with 256. change (2 ^ (8 * 2)) with 65536. change (2 ^ (8 * 3)) with 16777216.
  divlia.
Qed.

Lemma word_of_bytes_u32 b : (forall i, 0 <= b i < 256) -> is_u32 (word_of_bytes b).
Proof. intros H. unfold word_of_bytes, is_u32, u32_max. pose proof (H 0); pose proof (H 1); pose proof (H 2); pose proof (H 3). lia. Qed.

Lemma memmove_ok destination source count mem : words_ok (memmove destination source count mem).
Proof. intros a. apply word_of_bytes_u32. intros i. apply byte_at_range. Qed.

(** Copies of aligned words, and words outside of the destination. *)
Lemma memmove_word destination source n mem k :
  words_ok mem -> destination mod 4 = 0 -> source mod 4 = 0 -> (k < n)%nat ->
  memmove destination source (4 * Z.of_nat n) mem (cell destination k) = mem (cell source k).
Proof.
  intros Hm Hd Hs Hk. rewrite <- (word_bytes mem (cell source k)); [|unfold cell; rewrite Z.mul_comm, Z.mod_add; [done|lia]|apply Hm].
  unfold memmove, word_of_bytes, moved_byte. unfold cell.
  repeat match goal with |- context [if ?c then _ else _] => replace c with true by lia end.
  repeat match goal with |- context [source + (destination + ?x + ?i - destination)] =>
    replace (source + (destination + x + i - destination)) with (source + x + i) by lia end. done.
Qed.
Lemma memmove_other destination source count mem a :
  words_ok mem -> a mod 4 = 0 -> a + 4 <= destination \/ destination + count <= a ->
  memmove destination source count mem a = mem a.
Proof.
  intros Hm Ha Hout. rewrite <- (word_bytes mem a Ha (Hm a)). unfold memmove, word_of_bytes, moved_byte.
  repeat match goal with |- context [if ?c then _ else _] => replace c with false by lia end. done.
Qed.

Lemma filled_ok p value n mem : words_ok mem -> (forall k, (k < n)%nat -> valid32 (value k)) -> words_ok (filled p value n mem).
Proof.
  intros Hm Hv a. destruct (cell_decides p n a) as [(k & Hk & ->)|Hno].
  - rewrite filled_cell by done. by apply bits_of_f32_word, Hv.
  - rewrite filled_other by done. apply Hm.
Qed.

(** ** The memory's invariant and what allocation does to it *)

Definition storage_apart (p n q m : Z) : Prop := p + n <= q \/ q + m <= p.

Record host_wf (h : Host) : Prop := HostWf {
  hw_words : words_ok (words h);
  hw_owners : forall o, o ∈ owners h -> o < nextOwner h;
  hw_range : map_Forall (fun p n => 0 < p /\ 0 < n /\ p + n <= u64_max) (live h);
  hw_apart : forall p q n m, live h !! p = Some n -> live h !! q = Some m -> p <> q -> storage_apart p n q m;
  hw_table : allocations h ⊆ live h;
  hw_bytes : allocatedBytes h = wrap64 (map_sum id (allocations h));
}.

(** Storage of [size] bytes at [p] with an owner is new in [h']. *)
Record acquired (h : Host) (b : DeviceBuffer) (h' : Host) : Prop := Acquired {
  aq_words : words h' = words h;
  aq_live : live h' = <[bu_data b := bu_size b]> (live h);
  aq_fresh : forall q m, live h !! q = Some m -> storage_apart (bu_data b) (bu_size b) q m;
  aq_owners : owners h' = {[bu_owner b]} ∪ owners h /\ bu_owner b ∉ owners h;
  aq_next : nextOwner h' = nextOwner h + 1;
  aq_table : allocations h' = <[bu_data b := bu_size b]> (allocations h);
  aq_bytes : allocatedBytes h' = wrap64 (allocatedBytes h + bu_size b);
  aq_data : 0 < bu_data b /\ bu_data b mod 64 = 0 /\ bu_data b + bu_size b <= u64_max;
  aq_backend : bu_backend b = Some (CPU, 0);
  aq_counts : hostToDeviceBytes h' = hostToDeviceBytes h /\ deviceToHostBytes h' = deviceToHostBytes h /\
    synchronizationCount h' = synchronizationCount h;
}.

Section allocation.
Context `{HA : HostAllocator} `{HL : !HostAllocatorLaws}.

Lemma fresh_address h p size : host_wf h -> 0 < size -> operator_new (live h) size = Some p -> live h !! p = None /\ allocations h !! p = None.
Proof.
  intros Hwf Hs Hp. destruct (operator_new_fresh _ _ _ Hs Hp) as (_ & _ & _ & Hd).
  assert (live h !! p = None) as Hn.
  { destruct (live h !! p) as [n|] eqn:Hl; [|done]. destruct (hw_range h Hwf _ _ Hl) as (_ & ? & _). destruct (Hd _ _ Hl); lia. }
  split; [done|]. by eapply lookup_weaken_None; [|apply hw_table].
Qed.

Lemma make_buffer_spec size h : host_wf h -> 0 < size ->
  wp (make_buffer size) h
    (fun b h' => host_wf h' /\ acquired h b h' /\ bu_size b = size)
    (fun e h' => h' = h /\ kind_of e = BadAlloc).
Proof.
  intros Hwf Hs. unfold make_buffer, cpu_allocate. repeat (wp_step; try lia).
  destruct (operator_new (live h) size) as [p|] eqn:Hp; [|by wp_step]. wp_steps. cbn [nextOwner note_allocated].
  destruct (fresh_address h p size Hwf Hs Hp) as [Hl Ha]. destruct (operator_new_fresh _ _ _ Hs Hp) as (Hpos & H64 & Hmax & Hd).
  assert (nextOwner h ∉ owners h) as Ho by (intros Hin; pose proof (hw_owners h Hwf _ Hin); lia).
  split; [|split; [|done]]; [|constructor; cbn; try done; naive_solver].
  destruct Hwf as [Hw Hown Hr Hap Ht Hb]. constructor; cbn.
  - done.
  - intros o [->%elem_of_singleton|Hin]%elem_of_union; [lia|]. pose proof (Hown _ Hin). lia.
  - apply map_Forall_insert; [done|]. split; [lia|done].
  - intros q r n m Hq Hr' Hne. rewrite lookup_insert_Some in Hq, Hr'. unfold storage_apart in *.
    destruct Hq as [[<- <-]|[Hq1 Hq]], Hr' as [[<- <-]|[Hr1 Hr']]; [done|by apply Hd| |by eapply Hap].
    destruct (Hd _ _ Hq); lia.
  - by apply insert_mono.
  - rewrite Hb, map_sum_insert by done. unfold id at 2. unfold wrap64. rewrite Zplus_mod_idemp_l. f_equal. lia.
Qed.

(** Dropping the buffer that was acquired last gives everything back. *)
Record released (h : Host) (b : DeviceBuffer) (h' : Host) : Prop := Released {
  re_words : words h' = words h;
  re_live : live h' = delete (bu_data b) (live h);
  re_owners : owners h' = owners h ∖ {[bu_owner b]};
  re_next : nextOwner h' = nextOwner h;
  re_table : allocations h' = delete (bu_data b) (allocations h);
  re_bytes : allocatedBytes h' = wrap64 (allocatedBytes h - bu_size b);
  re_counts : hostToDeviceBytes h' = hostToDeviceBytes h /\ deviceToHostBytes h' = deviceToHostBytes h /\
    synchronizationCount h' = synchronizationCount h;
}.

Lemma drop_buffer_spec b h : host_wf h -> allocations h !! bu_data b = Some (bu_size b) ->
  host_wf (drop_buffer b h) /\ released h b (drop_buffer b h).
Proof.
  intros Hwf Ha. assert (live h !! bu_data b = Some (bu_size b)) as Hl by (by eapply lookup_weaken; [|apply hw_table]).
  destruct (hw_range h Hwf _ _ Hl) as (H0 & _ & _). unfold drop_buffer, cpu_free.
  destruct (Z.eqb_spec (bu_data b) 0); [lia|]. rewrite Ha. split; [|by constructor].
  destruct Hwf as [Hw Hown Hr Hap Ht Hb]. constructor; cbn.
  - done.
  - intros o [Hin _]%elem_of_difference. by apply Hown.
  - by apply map_Forall_delete.
  - intros p q n' m Hp Hq. apply lookup_delete_Some in Hp as [_ Hp], Hq as [_ Hq]. by apply Hap.
  - by apply delete_mono.
  - rewrite Hb, (map_sum_delete id (allocations h) _ _ Ha). unfold id at 1. unfold wrap64. rewrite Zminus_mod_idemp_l. f_equal. lia.
Qed.
End allocation.

(** What a loop over the cells of an output leaves. *)
Record written (p : Z) (n : nat) (value : nat -> f32) (mem mem' : Z -> Z) : Prop := Written {
  wn_ok : words_ok mem';
  wn_cells : forall k, (k < n)%nat -> load mem' p k = value k;
  wn_other : forall a, (forall k, (k < n)%nat -> a <> cell p k) -> mem' a = mem a;
}.

Lemma fill_written p value n mem :
  words_ok mem -> (forall k, (k < n)%nat -> valid32 (value mem k)) ->
  (forall k mem', (k < n)%nat -> (forall a, (forall j, (j < n)%nat -> j <> k -> a <> cell p j) -> mem' a = mem a) ->
     value mem' k = value mem k) ->
  written p n (value mem) mem (fill p value (seq 0 n) mem).
Proof.
  intros Hm Hv Hi. pose proof (fill_filled p value n mem Hi) as Hf. constructor.
  - intros a. rewrite Hf. by apply filled_ok.
  - intros k Hk. unfold load. fold (cell p k). rewrite Hf, filled_cell by done. by apply f32_of_bits_of, Hv.
  - intros a Ha. rewrite Hf. by apply filled_other.
Qed.

(** ** An allocator: blocks above everything else *)

Definition storage_top (storage : gmap Z Z) : Z := map_fold (fun p n top => Z.max top (p + n)) 0 storage.
Definition bump_new (storage : gmap Z Z) (size : Z) : option Z :=
  let p := (storage_top storage / 64 + 1) * 64 in if p + size <=? u64_max then Some p else None.
#[export] Instance bumpAllocator : HostAllocator | 100 := { operator_new := bump_new }.

Lemma storage_top_spec storage : 0 <= storage_top storage /\ forall q n, storage !! q = Some n -> q + n <= storage_top storage.
Proof.
  unfold storage_top. apply (map_fold_weak_ind (fun top m => 0 <= top /\ forall q n, m !! q = Some n -> q + n <= top)).
  - split; [lia|]. intros q n H. by rewrite lookup_empty in H.
  - intros i x m r Hi [Hr IH]. split; [lia|]. intros q n. rewrite lookup_insert_Some. intros [[<- <-]|[_ Hq]]; [lia|]. specialize (IH _ _ Hq). lia.
Qed.

#[export] Instance bumpAllocatorLaws : @HostAllocatorLaws bumpAllocator.
Proof.
  constructor. intros storage size p Hs. cbn. unfold bump_new. destruct (Z.leb_spec ((storage_top storage / 64 + 1) * 64 + size) u64_max); [|done].
  intros [= <-]. destruct (storage_top_spec storage) as [H0 Htop]. pose proof (Z.div_pos (storage_top storage) 64 H0 ltac:(lia)).
  pose proof (Z.mod_pos_bound (storage_top storage) 64 ltac:(lia)). pose proof (Z.div_mod (storage_top storage) 64 ltac:(lia)).
  split; [lia|]. split; [by rewrite Z.mod_mul|]. split; [done|]. intros q n Hq. right. specialize (Htop _ _ Hq). lia.
Qed.
