(* ===== verification/CpuTensorBackend.v ===== *)
(** * The CPU tensor backend

    [src/tensor/backend/CpuTensorBackend.cpp]: tensors on the host memory, and the
    operations on them, loop by loop.  Profiling is not modelled. *)

From S2P Require Import Prelude Float FloatBits Tiers Tensor KVCache Quantization HostMemory.

#[local] Open Scope Z_scope.

Definition tensorStorageBytes (s : Shape) (d : DType) : result Z :=
  requiredBytes "tensor allocation byte size overflow" s d.

(** ** What the operations ask of their views *)

Section checks.
Variable alive : gset Z.

Definition validateCpuContiguous (tensor : TensorView) (operation : string) : result unit :=
  throw_if (negb (view_valid alive tensor) || negb (bool_decide (type (device_ tensor) = CPU)) || negb (view_isContiguous tensor))
    (Exn InvalidArgument (operation ++ " requires a contiguous CPU tensor")).

Definition pin (tensor : TensorView) (operation : string) : result unit :=
  throw_if (expired alive (lifetime_ tensor)) (Exn InvalidArgument (operation ++ " received expired tensor storage")).

Definition validateElementwise (left right output : TensorView) (operation : string) : result unit :=
  (validateCpuContiguous left operation ;;?
   validateCpuContiguous right operation ;;?
   validateCpuContiguous output operation ;;?
   throw_if (negb (bool_decide (dtype_ left = FP32)) || negb (bool_decide (dtype_ right = FP32)) ||
             negb (bool_decide (dtype_ output = FP32)) || negb (bool_decide (shape_ left = shape_ right)) ||
             negb (bool_decide (shape_ left = shape_ output)) || negb (view_writable alive output))
     (Exn InvalidArgument (operation ++ " requires equal-shape FP32 tensors")))%res.

(** The checks of the two products; [weights] is the element type of the right operand. *)
Definition validateMatmul (left right output : TensorView) (weights : DType) (operation : string)
    (validate : result unit) (types dimensions : string) : result unit :=
  (pin left operation ;;? pin right operation ;;? pin output operation ;;?
   validateCpuContiguous left operation ;;?
   validateCpuContiguous right operation ;;?
   validateCpuContiguous output operation ;;?
   validate ;;?
   throw_if (negb (bool_decide (dtype_ left = FP32)) || negb (bool_decide (dtype_ right = weights)) ||
             negb (bool_decide (dtype_ output = FP32)) || negb (rank (shape_ left) =? 2)%nat ||
             negb (rank (shape_ right) =? 2)%nat || negb (rank (shape_ output) =? 2)%nat || negb (view_writable alive output))
     (Exn InvalidArgument types) ;;?
   throw_if (negb (dim right 0 =? dim left 1) || negb (dim output 0 =? dim left 0) || negb (dim output 1 =? dim right 1))
     (Exn InvalidArgument dimensions) ;;?
   throw_if ((view_data alive left =? view_data alive output) || (view_data alive right =? view_data alive output))
     (Exn InvalidArgument (operation ++ " output cannot alias an input")))%res.
End checks.

(** ** The loops *)

(** The sum of a cell: [weight] reads an element of the right operand as a float. *)
Definition product_cell (mem : Z -> Z) (left : Z) (weight : (Z -> Z) -> nat -> f32) (inner columns row column : nat) : f32 :=
  foldl (fun sum index => f32_add sum (f32_mul (load mem left (row * inner + index)) (weight mem (index * columns + column)%nat)))
    f32_zero (seq 0 inner).
Definition product_loop (left output : Z) (weight : (Z -> Z) -> nat -> f32) (rows inner columns : nat) (mem : Z -> Z) : Z -> Z :=
  foldl (fun mem row =>
    foldl (fun mem column => store output (row * columns + column) (product_cell mem left weight inner columns row column) mem)
      mem (seq 0 columns))
    mem (seq 0 rows).

Definition float_weight (right : Z) (mem : Z -> Z) (index : nat) : f32 := load mem right index.
Definition int8_weight (right : Z) (parameters : QuantizationParameters) (mem : Z -> Z) (index : nat) : f32 :=
  f32_mul (f32_of_Z (load_int8 mem right index - zeroPoint parameters)) (scale parameters).

Definition elementwise_loop (op : f32 -> f32 -> f32) (left right output : Z) (n : nat) (mem : Z -> Z) : Z -> Z :=
  fill output (fun mem index => op (load mem left index) (load mem right index)) (seq 0 n) mem.

(** ** The operations *)

Definition count (v : TensorView) : nat := Z.to_nat (elementCount (shape_ v)).
Definition dims (v : TensorView) (i : nat) : nat := Z.to_nat (dim v i).

Section operations.
Context `{HA : HostAllocator}.

Definition allocateTensor (s : Shape) (d : DType) : ST Host Tensor :=
  (size <- lift (tensorStorageBytes s d) ;;
   b <- make_buffer size ;;
   match tensor_fromDeviceBuffer s d cpu (Some b) with
   | Ok t => ret t
   | Throw e => modify (drop_buffer b) ;;; throw e
   | Diverge => diverge
   end)%st.

Definition copyTensor (source destination : TensorView) : ST Host unit :=
  (h <- st_get ;;
   lift (pin (owners h) source "CPU tensor copy" ;;? pin (owners h) destination "CPU tensor copy" ;;?
         validateCpuContiguous (owners h) source "CPU tensor copy" ;;?
         validateCpuContiguous (owners h) destination "CPU tensor copy" ;;?
         throw_if (negb (bool_decide (dtype_ source = dtype_ destination)) ||
                   negb (bool_decide (shape_ source = shape_ destination)) || negb (view_writable (owners h) destination))
           (Exn InvalidArgument "CPU tensor copy metadata mismatch"))%res ;;;
   modify (set_words (memmove (mutableData_ destination) (data_ source) (bytes_ source))))%st.

Definition matmul (left right output : TensorView) : ST Host unit :=
  (h <- st_get ;;
   lift (validateMatmul (owners h) left right output FP32 "CPU matmul" (Ok tt)
     "CPU matmul requires contiguous rank-2 FP32 tensors" "CPU matmul dimensions are incompatible") ;;;
   modify (set_words (product_loop (data_ left) (mutableData_ output) (float_weight (data_ right))
     (dims left 0) (dims left 1) (dims right 1))))%st.

Definition matmulInt8Weights (left right : TensorView) (parameters : QuantizationParameters) (output : TensorView) : ST Host unit :=
  (h <- st_get ;;
   lift (validateMatmul (owners h) left right output INT8 "CPU INT8 weight matmul" (validateParameters QINT8 parameters)
     "CPU INT8 weight matmul requires FP32 input/output and rank-2 INT8 weights"
     "CPU INT8 weight matmul dimensions are incompatible") ;;;
   modify (set_words (product_loop (data_ left) (mutableData_ output) (int8_weight (data_ right) parameters)
     (dims left 0) (dims left 1) (dims right 1))))%st.

Definition elementwise (operation : string) (op : f32 -> f32 -> f32) (left right output : TensorView) : ST Host unit :=
  (h <- st_get ;;
   lift (pin (owners h) left operation ;;? pin (owners h) right operation ;;? pin (owners h) output operation ;;?
         validateElementwise (owners h) left right output operation)%res ;;;
   modify (set_words (elementwise_loop op (data_ left) (data_ right) (mutableData_ output) (count left))))%st.
Definition add : TensorView -> TensorView -> TensorView -> ST Host unit := elementwise "CPU add" f32_add.
Definition mul : TensorView -> TensorView -> TensorView -> ST Host unit := elementwise "CPU multiply" f32_mul.
Definition synchronize : ST Host unit := cpu_synchronize.
End operations.

(** A tensor that lives while [body] runs. *)
Definition with_tensor {A} `{HA : HostAllocator} (s : Shape) (d : DType) (body : Tensor -> ST Host A) : ST Host A :=
  (t <- allocateTensor s d ;;
   finally (body t) (drop_buffer (mkBuffer (default 0 (te_owner t)) (te_data t) (te_storageBytes t) (Some (CPU, 0)))))%st.

(** ** Views of live storage *)

(** The view is of a buffer that is alive, inside storage that is allocated. *)
Definition placed (h : Host) (v : TensorView) : Prop :=
  exists b base n, view_wf b v /\ bu_owner b ∈ owners h /\ live h !! base = Some n /\
    base <= bu_data b /\ bu_data b + bu_size b <= base + n.

Definition disjoint (v w : TensorView) : Prop := data_ v + bytes_ v <= data_ w \/ data_ w + bytes_ w <= data_ v.

(** The elements of a view. *)
Definition values (mem : Z -> Z) (v : TensorView) : list f32 := load mem (data_ v) <$> seq 0 (count v).

(** What the views that pass the checks are. *)
Record usable (h : Host) (v : TensorView) : Prop := Usable {
  us_placed : placed h v;
  us_device : type (device_ v) = CPU;
  us_contiguous : view_isContiguous v = true;
  us_bytes : bytes_ v = Z.of_nat (count v) * dtype_sizeOf (dtype_ v) /\ (0 < count v)%nat;
  us_aligned : data_ v mod dtype_sizeOf (dtype_ v) = 0;
  us_storage : exists base n, live h !! base = Some n /\ 0 < base <= data_ v /\ data_ v + bytes_ v <= base + n <= u64_max;
}.

Lemma placed_alive h v : placed h v -> expired (owners h) (lifetime_ v) = false.
Proof. intros (b & _ & _ & Hw & Ho & _). rewrite (vw_owner _ _ Hw). cbn. by rewrite bool_decide_eq_true_2. Qed.

Lemma placed_data h v : host_wf h -> placed h v -> 0 < data_ v /\ view_data (owners h) v = data_ v.
Proof.
  intros Hwf Hp. unfold view_data. rewrite (placed_alive _ _ Hp). split; [|done].
  destruct Hp as (b & base & n & Hw & _ & Hl & ? & _). pose proof (vw_base _ _ Hw). destruct (hw_range h Hwf _ _ Hl). lia.
Qed.

Lemma usable_intro h v : host_wf h -> placed h v -> view_valid (owners h) v = true -> type (device_ v) = CPU ->
  view_isContiguous v = true -> usable h v.
Proof.
  intros Hwf Hp Hv Hd Hc. assert (bytes_ v = Z.of_nat (count v) * dtype_sizeOf (dtype_ v) /\ (0 < count v)%nat) as Hb.
  { destruct Hp as (b & _ & _ & Hw & _). unfold count. rewrite (vw_bytes _ _ Hw). pose proof (vw_shape _ _ Hw) as Hs. destruct (sw_count _ Hs) as [Hn _].
    pose proof (product_pos _ (sw_dims _ Hs)). rewrite Z2Nat.id by lia. split; [done|]. lia. }
  constructor; try done.
  - destruct Hp as (b & _ & _ & Hw & _). apply (vw_aligned _ _ Hw).
  - destruct Hp as (b & base & n & Hw & _ & Hl & H1 & H2). destruct (hw_range h Hwf _ _ Hl) as (? & ? & ?).
    pose proof (view_bytes_in_storage b v Hw Hc). destruct Hw. exists base, n. split; [done|]. lia.
Qed.

Lemma writable_data h v : host_wf h -> placed h v -> view_writable (owners h) v = true -> mutableData_ v = data_ v.
Proof.
  intros Hwf Hp Hw. destruct Hp as (b & _ & _ & Hv & _). unfold view_writable in Hw.
  destruct (vw_mutable _ _ Hv) as [H|H]; [|done]. rewrite H in Hw. done.
Qed.

Lemma placed_words h v mem : placed h v -> placed (set_words mem h) v.
Proof. done. Qed.

(** ** Loads from disjoint views *)

Lemma load_apart v w mem mem' i :
  (i < count v)%nat -> bytes_ v = 4 * Z.of_nat (count v) -> bytes_ w = 4 * Z.of_nat (count w) -> disjoint v w ->
  (forall a, (forall k, (k < count w)%nat -> a <> cell (data_ w) k) -> mem' a = mem a) ->
  load mem' (data_ v) i = load mem (data_ v) i.
Proof.
  intros Hi Hv Hw Hd Hm. unfold load. rewrite Hm; [done|]. intros k Hk. unfold cell. unfold disjoint in Hd. lia.
Qed.

Lemma load_int8_apart v w mem mem' i :
  (i < count v)%nat -> bytes_ v = Z.of_nat (count v) -> bytes_ w = 4 * Z.of_nat (count w) -> data_ w mod 4 = 0 -> disjoint v w ->
  (forall a, (forall k, (k < count w)%nat -> a <> cell (data_ w) k) -> mem' a = mem a) ->
  load_int8 mem' (data_ v) i = load_int8 mem (data_ v) i.
Proof.
  intros Hi Hv Hw Ha Hd Hm. unfold load_int8, byte_at. rewrite Hm; [done|]. intros k Hk. unfold cell.
  unfold disjoint in Hd. set (x := data_ v + Z.of_nat i). pose proof (Z.mod_pos_bound x 4 ltac:(lia)).
  assert (forall q, x - x mod 4 = data_ w + 4 * q -> x = data_ w + 4 * q + x mod 4) by lia. subst x. lia.
Qed.

Lemma values_apart v w mem mem' :
  bytes_ v = 4 * Z.of_nat (count v) -> bytes_ w = 4 * Z.of_nat (count w) -> disjoint v w ->
  (forall a, (forall k, (k < count w)%nat -> a <> cell (data_ w) k) -> mem' a = mem a) ->
  values mem' v = values mem v.
Proof.
  intros Hv Hw Hd Hm. apply list_fmap_ext. intros i k [? Hi]%lookup_seq. apply (load_apart v w); [lia|done..].
Qed.

Lemma values_length mem v : length (values mem v) = count v.
Proof. unfold values. by rewrite length_fmap, length_seq. Qed.

Lemma values_lookup mem v k : (k < count v)%nat -> nth k (values mem v) f32_zero = load mem (data_ v) k.
Proof.
  intros Hk. unfold values. rewrite (nth_indep _ _ (load mem (data_ v) 0)) by (by rewrite length_fmap, length_seq).
  rewrite (map_nth (load mem (data_ v))). by rewrite seq_nth.
Qed.

(** ** The products *)

(** Entry [k] of the row-major product of a [rows * inner] and an [inner * columns]
    matrix, summed from left to right. *)
Definition product_entry (left right : nat -> f32) (inner columns k : nat) : f32 :=
  foldl (fun sum index => f32_add sum (f32_mul (left (k / columns * inner + index)%nat) (right (index * columns + k mod columns)%nat)))
    f32_zero (seq 0 inner).
Definition matrix_product (rows inner columns : nat) (left right : list f32) : list f32 :=
  product_entry (fun i => nth i left f32_zero) (fun i => nth i right f32_zero) inner columns <$> seq 0 (rows * columns).

Lemma foldl_ext_in {A B} (f g : A -> B -> A) l : forall a, (forall a b, b ∈ l -> f a b = g a b) -> foldl f a l = foldl g a l.
Proof.
  induction l as [|b l IH]; intros a H; [done|]. cbn. rewrite (H a b) by (by left). apply IH. intros. apply H. by right.
Qed.

(** Two nested loops are one over the cells of the matrix. *)
Lemma nested_loop {A} (g : nat -> nat -> A -> A) columns rows a : (0 < columns)%nat ->
  foldl (fun a row => foldl (fun a column => g row column a) a (seq 0 columns)) a (seq 0 rows) =
  foldl (fun a k => g (k / columns)%nat (k mod columns)%nat a) a (seq 0 (rows * columns)).
Proof.
  intros Hc. induction rows as [|rows IH]; [done|]. rewrite seq_S, foldl_app, IH. cbn [foldl].
  replace (S rows * columns)%nat with (rows * columns + columns)%nat by lia. rewrite seq_app, foldl_app, !Nat.add_0_l.
  replace (seq (rows * columns) columns) with (Nat.add (rows * columns) <$> seq 0 columns) by (rewrite fmap_add_seq; f_equal; lia).
  rewrite foldl_fmap. apply foldl_ext_in.
  intros m j [_ Hj]%elem_of_seq. rewrite Nat.div_add_l, Nat.div_small, Nat.add_0_r by lia.
  rewrite Nat.add_comm, Nat.Div0.mod_add, Nat.mod_small by lia. done.
Qed.

Lemma product_loop_fill left output weight rows inner columns mem : (0 < columns)%nat ->
  product_loop left output weight rows inner columns mem =
  fill output (fun mem k => product_cell mem left weight inner columns (k / columns) (k mod columns)) (seq 0 (rows * columns)) mem.
Proof.
  intros Hc. unfold product_loop, fill.
  rewrite (nested_loop (fun row column mem => store output (row * columns + column) (product_cell mem left weight inner columns row column) mem))
    by done.
  apply foldl_ext_in. intros m k _. rewrite (Nat.mul_comm (k / columns)), <- Nat.Div0.div_mod. done.
Qed.

Lemma product_sum_valid (term : nat -> f32 * f32) l a : valid32 a -> (forall i, i ∈ l -> valid32 (term i).1 /\ valid32 (term i).2) ->
  valid32 (foldl (fun sum i => f32_add sum (f32_mul (term i).1 (term i).2)) a l).
Proof.
  revert a. induction l as [|i l IH]; intros a Ha Ht; [done|]. cbn. apply IH; [|intros; apply Ht; by right].
  destruct (Ht i ltac:(by left)). auto with valid.
Qed.

Lemma usable_valid h v : host_wf h -> usable h v -> view_valid (owners h) v = true.
Proof.
  intros Hwf [Hp _ _ [Hb Hc] _ _]. destruct (placed_data h v Hwf Hp) as [Hd _]. unfold view_valid. rewrite (placed_alive h v Hp).
  pose proof (dtype_sizeOf_pos (dtype_ v)). replace (data_ v =? 0) with false by lia. replace (bytes_ v =? 0) with false by nia. done.
Qed.

Lemma cpu_contiguous_spec h v operation : host_wf h -> placed h v ->
  (validateCpuContiguous (owners h) v operation = Ok tt /\ usable h v) \/
  (exists e, validateCpuContiguous (owners h) v operation = Throw e /\ kind_of e = InvalidArgument /\ ~ usable h v).
Proof.
  intros Hwf Hp. unfold validateCpuContiguous. destruct (_ || _) eqn:Hc; cbn [throw_if].
  - right. eexists. split; [reflexivity|]. split; [done|]. intros Hu. pose proof (usable_valid _ _ Hwf Hu) as Hv. destruct Hu as [_ Hd Hg _ _ _].
    rewrite Hv, Hg, bool_decide_eq_true_2 in Hc by done. done.
  - left. split; [done|]. apply orb_false_iff in Hc as [[H1 H2]%orb_false_iff H3]. apply negb_false_iff in H1, H2, H3.
    apply bool_decide_eq_true in H2. by apply usable_intro.
Qed.

Lemma pin_placed h v operation : placed h v -> pin (owners h) v operation = Ok tt.
Proof. intros Hp. unfold pin. by rewrite (placed_alive h v Hp). Qed.

(** A view the products accept for an operand. *)
Definition matrix (h : Host) (d : DType) (v : TensorView) : Prop :=
  usable h v /\ dtype_ v = d /\ rank (shape_ v) = 2%nat.

Record product_fits (h : Host) (weights : DType) (left right output : TensorView) : Prop := ProductFits {
  pf_left : matrix h FP32 left;
  pf_right : matrix h weights right;
  pf_output : matrix h FP32 output /\ view_writable (owners h) output = true;
  pf_dims : dim right 0 = dim left 1 /\ dim output 0 = dim left 0 /\ dim output 1 = dim right 1;
  pf_alias : data_ left <> data_ output /\ data_ right <> data_ output;
}.

Lemma validateMatmul_spec h left right output weights operation validate types dimensions :
  host_wf h -> placed h left -> placed h right -> placed h output ->
  (validate = Ok tt \/ exists e, validate = Throw e /\ kind_of e = InvalidArgument) ->
  (validateMatmul (owners h) left right output weights operation validate types dimensions = Ok tt /\
     product_fits h weights left right output /\ validate = Ok tt) \/
  (exists e, validateMatmul (owners h) left right output weights operation validate types dimensions = Throw e /\
     kind_of e = InvalidArgument /\ ~ (product_fits h weights left right output /\ validate = Ok tt)).
Proof.
  intros Hwf Hl Hr Ho Hval. unfold validateMatmul. rewrite !pin_placed by done. cbn [res_bind].
  destruct (cpu_contiguous_spec h left operation Hwf Hl) as [[-> Hul]|(e & -> & He & Hn)]; cbn [res_bind].
  2:{ right. exists e. split; [done|]. split; [done|]. by intros [[[? _] _ _ _ _] _]. }
  destruct (cpu_contiguous_spec h right operation Hwf Hr) as [[-> Hur]|(e & -> & He & Hn)]; cbn [res_bind].
  2:{ right. exists e. split; [done|]. split; [done|]. by intros [[_ [? _] _ _ _] _]. }
  destruct (cpu_contiguous_spec h output operation Hwf Ho) as [[-> Huo]|(e & -> & He & Hn)]; cbn [res_bind].
  2:{ right. exists e. split; [done|]. split; [done|]. by intros [[_ _ [[? _] _] _ _] _]. }
  destruct Hval as [->|(e & -> & He)]; cbn [res_bind].
  2:{ right. exists e. split; [done|]. split; [done|]. by intros [_ ?]. }
  destruct (_ || _) eqn:Ht; cbn [throw_if res_bind].
  { right. eexists. split; [reflexivity|]. split; [done|]. intros [[[_ [H1 H2]] [_ [H3 H4]] [[_ [H5 H6]] H7] _ _] _].
    rewrite H1, H3, H5, H2, H4, H6, H7, !bool_decide_eq_true_2 in Ht by done. done. }
  match goal with |- context [throw_if ?c _] => destruct c eqn:Hd end; cbn [throw_if res_bind].
  { right. eexists. split; [reflexivity|]. split; [done|]. intros [[_ _ _ (H1 & H2 & H3) _] _].
    rewrite H1, H2, H3, !Z.eqb_refl in Hd. done. }
  destruct (placed_data h left Hwf Hl) as [_ El], (placed_data h right Hwf Hr) as [_ Er], (placed_data h output Hwf Ho) as [_ Eo].
  rewrite El, Er, Eo. match goal with |- context [throw_if ?c _] => destruct c eqn:Ha end; cbn [throw_if].
  { right. eexists. split; [reflexivity|]. split; [done|]. intros [[_ _ _ _ [H1 H2]] _]. lia. }
  left. split; [done|]. split; [|done]. repeat (apply orb_false_iff in Ht as [Ht ?]). repeat (apply orb_false_iff in Hd as [Hd ?]).
  repeat match goal with H : negb _ = false |- _ => apply negb_false_iff in H end.
  repeat match goal with H : bool_decide _ = true |- _ => apply bool_decide_eq_true in H end.
  repeat match goal with H : (_ =? _)%nat = true |- _ => apply Nat.eqb_eq in H end.
  constructor; try done; lia.
Qed.

Lemma count_matrix h d v : matrix h d v -> count v = (dims v 0 * dims v 1)%nat.
Proof.
  intros ([Hp _ _ _ _ _] & _ & Hr). destruct Hp as (b & _ & _ & Hw & _). pose proof (vw_shape _ _ Hw) as Hs.
  unfold count, dims, dim. destruct (sw_count _ Hs) as [-> _]. pose proof (sw_dims _ Hs) as Hd. unfold rank in Hr.
  destruct (dimensions (shape_ v)) as [|a [|b' [|]]]; try done. unfold product. cbn.
  apply Forall_cons in Hd as [? [? _]%Forall_cons]. rewrite Z.mul_1_r, Z2Nat.inj_mul by lia. done.
Qed.

Lemma matrix_dims h d v i : matrix h d v -> (i < 2)%nat -> 1 <= dim v i <= u64_max.
Proof.
  intros ([Hp _ _ _ _ _] & _ & Hr) Hi. destruct Hp as (b & _ & _ & Hw & _). pose proof (vw_shape _ _ Hw) as Hs.
  destruct (sw_count _ Hs) as [Hn Hmax]. pose proof (sw_dims _ Hs) as Hd. rewrite Hn in Hmax. unfold dim, rank in *.
  destruct (dimensions (shape_ v)) as [|a [|b' [|]]]; try done. apply Forall_cons in Hd as [? [? _]%Forall_cons].
  unfold product in Hmax. cbn in Hmax. destruct i as [|[|]]; cbn; [nia|nia|lia].
Qed.

Lemma count_positive h v : usable h v -> (0 < count v)%nat.
Proof. intros [_ _ _ [_ ?] _ _]. done. Qed.

(** The memory after a loop that wrote an output. *)
Record output_written (h : Host) (output : TensorView) (value : nat -> f32) (h' : Host) : Prop := OutputWritten {
  ow_host : h' = set_words (fun _ => words h') h;
  ow_wf : host_wf h';
  ow_written : written (data_ output) (count output) value (words h) (words h');
}.

Lemma output_written_intro h output value f :
  host_wf h -> written (data_ output) (count output) value (words h) (f (words h)) -> output_written h output value (set_words f h).
Proof. intros Hwf Hw. constructor; [done| |done]. destruct Hwf. constructor; cbn; try done. apply Hw. Qed.

Lemma values_written h output value h' : output_written h output value h' -> values (words h') output = value <$> seq 0 (count output).
Proof. intros [_ _ Hw]. apply list_fmap_ext. intros i k [-> Hk]%lookup_seq. by apply Hw. Qed.

(** A product over disjoint operands; [right_at] is what the weights are. *)
Lemma product_written h left right output weight (right_at : nat -> f32) d :
  host_wf h -> matrix h FP32 left -> matrix h d right -> matrix h FP32 output ->
  dim right 0 = dim left 1 -> dim output 0 = dim left 0 -> dim output 1 = dim right 1 -> disjoint left output ->
  (forall mem' k, (k < count right)%nat ->
     (forall a, (forall j, (j < count output)%nat -> a <> cell (data_ output) j) -> mem' a = words h a) -> weight mem' k = right_at k) ->
  (forall k, valid32 (right_at k)) ->
  output_written h output
    (product_entry (fun i => load (words h) (data_ left) i) right_at (dims left 1) (dims right 1))
    (set_words (product_loop (data_ left) (data_ output) weight (dims left 0) (dims left 1) (dims right 1)) h).
Proof.
  intros Hwf Hl Hr Ho H1 H2 H3 Hdis Hw Hv. apply output_written_intro; [done|].
  assert (dims right 0 = dims left 1 /\ dims output 0 = dims left 0 /\ dims output 1 = dims right 1) as (E1 & E2 & E3)
    by (unfold dims; rewrite H1, H2, H3; done).
  pose proof (count_matrix _ _ _ Hl) as Cl. pose proof (count_matrix _ _ _ Hr) as Cr. pose proof (count_matrix _ _ _ Ho) as Co.
  pose proof (count_positive _ _ (proj1 Ho)) as Po. rewrite product_loop_fill by nia.
  replace (dims left 0 * dims right 1)%nat with (count output) by (rewrite Co, E2, E3; done).
  assert (forall k mem', (k < count output)%nat ->
    (forall a, (forall j, (j < count output)%nat -> j <> k -> a <> cell (data_ output) j) -> mem' a = words h a) ->
    product_cell mem' (data_ left) weight (dims left 1) (dims right 1) (k / dims right 1) (k mod dims right 1) =
    product_entry (fun i => load (words h) (data_ left) i) right_at (dims left 1) (dims right 1) k) as Hcell.
  { intros k mem' Hk Hm. unfold product_cell, product_entry. apply foldl_ext_in. intros sum i [_ Hi]%elem_of_seq.
    assert (k / dims right 1 < dims left 0)%nat as Hrow by (apply Nat.Div0.div_lt_upper_bound; nia).
    pose proof (Nat.mod_upper_bound k (dims right 1) ltac:(nia)) as Hcol.
    assert (forall a, (forall j, (j < count output)%nat -> a <> cell (data_ output) j) -> mem' a = words h a) as Hm' by (intros; apply Hm; auto).
    f_equal. f_equal; [|apply Hw; [rewrite Cr, E1; nia|done]].
    destruct Hl as ([_ _ _ [Bl _] _ _] & Dl & _), Ho as ([_ _ _ [Bo _] _ _] & Do & _). rewrite Dl in Bl. rewrite Do in Bo. cbn in Bl, Bo.
    apply (load_apart left output); try done; try lia. rewrite Cl. nia. }
  assert (forall k, (k < count output)%nat -> product_cell (words h) (data_ left) weight (dims left 1) (dims right 1) (k / dims right 1) (k mod dims right 1) =
    product_entry (fun i => load (words h) (data_ left) i) right_at (dims left 1) (dims right 1) k) as Hcell0 by (intros; by apply Hcell).
  destruct (fill_written (data_ output) (fun mem k => product_cell mem (data_ left) weight (dims left 1) (dims right 1) (k / dims right 1) (k mod dims right 1))
    (count output) (words h)) as [Hok Hcells Hother].
  - apply Hwf.
  - intros k Hk. rewrite Hcell0 by done. unfold product_entry.
    apply (product_sum_valid (fun i => (load (words h) (data_ left) (k / dims right 1 * dims left 1 + i)%nat, right_at (i * dims right 1 + k mod dims right 1)%nat)));
      [done|]. intros i _. cbn. unfold load. auto with valid.
  - intros k mem' Hk Hm. rewrite (Hcell k mem' Hk Hm). by rewrite Hcell0.
  - constructor; [done| |done]. intros k Hk. rewrite Hcells by done. by apply Hcell0.
Qed.

(** The weights an INT8 matrix stands for. *)
Definition dequantized (parameters : QuantizationParameters) (mem : Z -> Z) (v : TensorView) : list f32 :=
  int8_weight (data_ v) parameters mem <$> seq 0 (count v).

Lemma int8_weight_valid right parameters mem index : valid32 (scale parameters) -> valid32 (int8_weight right parameters mem index).
Proof. intros. unfold int8_weight. auto with valid. Qed.
#[export] Hint Resolve int8_weight_valid : valid.

Lemma dequantized_lookup parameters mem v k : (k < count v)%nat ->
  nth k (dequantized parameters mem v) f32_zero = int8_weight (data_ v) parameters mem k.
Proof.
  intros Hk. unfold dequantized. rewrite (nth_indep _ _ (int8_weight (data_ v) parameters mem 0)) by (by rewrite length_fmap, length_seq).
  rewrite (map_nth (int8_weight (data_ v) parameters mem)). by rewrite seq_nth.
Qed.

Lemma nth_valid l k : Forall valid32 l -> valid32 (nth k l f32_zero).
Proof. revert k. induction l as [|x l IH]; intros [|k] Hl; try done; apply Forall_cons in Hl as [? ?]; [done|by apply IH]. Qed.
Lemma values_valid mem v : Forall valid32 (values mem v).
Proof. apply Forall_fmap, Forall_true. intros. unfold load. cbn. auto with valid. Qed.
Lemma dequantized_valid parameters mem v : valid32 (scale parameters) -> Forall valid32 (dequantized parameters mem v).
Proof. intros. apply Forall_fmap, Forall_true. intros. cbn. auto with valid. Qed.

(** The cells of a product are the entries of the reference product of the operands. *)
Lemma product_values h left right output weights_list right_at d h' :
  matrix h FP32 left -> matrix h d right -> matrix h FP32 output ->
  dim right 0 = dim left 1 -> dim output 0 = dim left 0 -> dim output 1 = dim right 1 ->
  (forall k, (k < count right)%nat -> nth k weights_list f32_zero = right_at k) ->
  output_written h output (product_entry (fun i => load (words h) (data_ left) i) right_at (dims left 1) (dims right 1)) h' ->
  values (words h') output = matrix_product (dims left 0) (dims left 1) (dims right 1) (values (words h) left) weights_list.
Proof.
  intros Hl Hr Ho H1 H2 H3 Hw Hout. rewrite (values_written _ _ _ _ Hout). unfold matrix_product.
  assert (dims right 0 = dims left 1 /\ dims output 0 = dims left 0 /\ dims output 1 = dims right 1) as (E1 & E2 & E3)
    by (unfold dims; rewrite H1, H2, H3; done).
  pose proof (count_matrix _ _ _ Hl) as Cl. pose proof (count_matrix _ _ _ Hr) as Cr. pose proof (count_matrix _ _ _ Ho) as Co.
  rewrite Co, E2, E3. apply list_fmap_ext. intros j k [-> Hk]%lookup_seq. cbn. unfold product_entry. apply foldl_ext_in.
  intros sum i [_ Hi]%elem_of_seq. assert (0 < dims right 1)%nat by nia.
  assert (j / dims right 1 < dims left 0)%nat by (apply Nat.Div0.div_lt_upper_bound; nia).
  pose proof (Nat.mod_upper_bound j (dims right 1) ltac:(nia)).
  rewrite values_lookup by (rewrite Cl; nia). rewrite Hw by (rewrite Cr, E1; nia). done.
Qed.

Lemma float_agrees h right output mem' k :
  matrix h FP32 right -> matrix h FP32 output -> disjoint right output -> (k < count right)%nat ->
  (forall a, (forall j, (j < count output)%nat -> a <> cell (data_ output) j) -> mem' a = words h a) ->
  float_weight (data_ right) mem' k = nth k (values (words h) right) f32_zero.
Proof.
  intros ([_ _ _ [Br _] _ _] & Dr & _) ([_ _ _ [Bo _] _ _] & Do & _) Hd Hk Hm. rewrite Dr in Br. rewrite Do in Bo. cbn in Br, Bo.
  rewrite values_lookup by done. unfold float_weight. apply (load_apart right output); try done; lia.
Qed.
Lemma int8_agrees h right output parameters mem' k :
  matrix h INT8 right -> matrix h FP32 output -> disjoint right output -> (k < count right)%nat ->
  (forall a, (forall j, (j < count output)%nat -> a <> cell (data_ output) j) -> mem' a = words h a) ->
  int8_weight (data_ right) parameters mem' k = nth k (dequantized parameters (words h) right) f32_zero.
Proof.
  intros ([_ _ _ [Br _] _ _] & Dr & _) ([_ _ _ [Bo _] Ao _] & Do & _) Hd Hk Hm. rewrite Dr in Br. rewrite Do in Bo, Ao. cbn in Br, Bo, Ao.
  rewrite dequantized_lookup by done. unfold int8_weight. rewrite (load_int8_apart right output (words h)); try done; lia.
Qed.

(** A product whose operands are apart from the output, as one step. *)
Lemma product_exact h left right output weight weights_list d :
  host_wf h -> product_fits h d left right output -> placed h output -> disjoint left output ->
  (forall mem' k, (k < count right)%nat ->
     (forall a, (forall j, (j < count output)%nat -> a <> cell (data_ output) j) -> mem' a = words h a) ->
     weight mem' k = nth k weights_list f32_zero) ->
  Forall valid32 weights_list ->
  let h' := set_words (product_loop (data_ left) (mutableData_ output) weight (dims left 0) (dims left 1) (dims right 1)) h in
  exists value, output_written h output value h' /\
    values (words h') output = matrix_product (dims left 0) (dims left 1) (dims right 1) (values (words h) left) weights_list.
Proof.
  intros Hwf [Ml Mr [Mo Hwr] (D1 & D2 & D3) _] Ho Hdis Hw Hv. rewrite (writable_data h output Hwf Ho Hwr). cbv zeta.
  pose proof (product_written h left right output weight (fun i => nth i weights_list f32_zero) d Hwf Ml Mr Mo D1 D2 D3 Hdis Hw
    (fun k => nth_valid weights_list k Hv)) as Hout.
  eexists. split; [exact Hout|]. by eapply product_values.
Qed.

Section specs.
Context `{HA : HostAllocator}.

(** A refusal: an invalid argument, and nothing happened. *)
Definition refused (h : Host) (e : exn) (h' : Host) : Prop := kind_of e = InvalidArgument /\ h' = h.

Lemma matmul_spec left right output h :
  host_wf h -> placed h left -> placed h right -> placed h output -> disjoint left output -> disjoint right output ->
  wp (matmul left right output) h
    (fun _ h' => product_fits h FP32 left right output /\ exists value, output_written h output value h' /\
       values (words h') output =
         matrix_product (dims left 0) (dims left 1) (dims right 1) (values (words h) left) (values (words h) right))
    (fun e h' => refused h e h' /\ ~ product_fits h FP32 left right output).
Proof.
  intros Hwf Hl Hr Ho Hdl Hdr. unfold matmul. wp_step. wp_step. wp_step. apply wp_lift.
  destruct (validateMatmul_spec h left right output FP32 "CPU matmul" (Ok tt) "CPU matmul requires contiguous rank-2 FP32 tensors"
    "CPU matmul dimensions are incompatible" Hwf Hl Hr Ho (or_introl eq_refl)) as [(-> & Hf & _)|(e & -> & He & Hn)].
  2:{ split; [done|]. intros Hf. by apply Hn. }
  wp_step. split; [done|]. eapply product_exact; try done; [|apply values_valid].
  intros mem' k Hk Hm. apply (float_agrees h right output); [apply Hf|apply Hf|done..].
Qed.

Lemma validateParameters_cases d p : validateParameters d p = Ok tt \/ exists e, validateParameters d p = Throw e /\ kind_of e = InvalidArgument.
Proof.
  unfold validateParameters. destruct (_ || _); cbn; [right; by eexists|].
  destruct d; (destruct (_ || _); cbn; [right; by eexists|by left]).
Qed.

Lemma matmulInt8_spec left right parameters output h :
  host_wf h -> placed h left -> placed h right -> placed h output -> disjoint left output -> disjoint right output ->
  valid32 (scale parameters) ->
  wp (matmulInt8Weights left right parameters output) h
    (fun _ h' => (product_fits h INT8 left right output /\ validateParameters QINT8 parameters = Ok tt) /\
       exists value, output_written h output value h' /\
       values (words h') output =
         matrix_product (dims left 0) (dims left 1) (dims right 1) (values (words h) left) (dequantized parameters (words h) right))
    (fun e h' => refused h e h' /\ ~ (product_fits h INT8 left right output /\ validateParameters QINT8 parameters = Ok tt)).
Proof.
  intros Hwf Hl Hr Ho Hdl Hdr Hsc. unfold matmulInt8Weights. wp_step. wp_step. wp_step. apply wp_lift.
  destruct (validateMatmul_spec h left right output INT8 "CPU INT8 weight matmul" (validateParameters QINT8 parameters)
    "CPU INT8 weight matmul requires FP32 input/output and rank-2 INT8 weights" "CPU INT8 weight matmul dimensions are incompatible"
    Hwf Hl Hr Ho (validateParameters_cases QINT8 parameters)) as [(-> & Hf & Hval)|(e & -> & He & Hn)]; [|done].
  wp_step. split; [done|]. eapply product_exact; try done; [|by apply dequantized_valid].
  intros mem' k Hk Hm. apply (int8_agrees h right output); [apply Hf|apply Hf|done..].
Qed.

(** ** Elementwise operations *)

Record elementwise_fits (h : Host) (left right output : TensorView) : Prop := ElementwiseFits {
  ef_usable : usable h left /\ usable h right /\ usable h output;
  ef_dtype : dtype_ left = FP32 /\ dtype_ right = FP32 /\ dtype_ output = FP32;
  ef_shape : shape_ left = shape_ right /\ shape_ left = shape_ output;
  ef_writable : view_writable (owners h) output = true;
}.

(** An operand is the output itself or apart from it. *)
Definition in_place_or_apart (v output : TensorView) : Prop := data_ v = data_ output \/ disjoint v output.

Lemma load_in_place v output mem mem' k :
  bytes_ v = 4 * Z.of_nat (count v) -> bytes_ output = 4 * Z.of_nat (count output) -> count v = count output ->
  in_place_or_apart v output -> (k < count v)%nat ->
  (forall a, (forall j, (j < count output)%nat -> j <> k -> a <> cell (data_ output) j) -> mem' a = mem a) ->
  load mem' (data_ v) k = load mem (data_ v) k.
Proof.
  intros Bv Bo Hc [Heq|Hd] Hk Hm.
  - unfold load. rewrite Hm; [done|]. intros j Hj Hne. unfold cell. lia.
  - apply (load_apart v output); try done. intros a Ha. apply Hm. auto.
Qed.

Definition map2 (op : f32 -> f32 -> f32) (l l' : list f32) : list f32 := zip_with op l l'.

Lemma elementwise_spec operation op left right output h :
  host_wf h -> placed h left -> placed h right -> placed h output ->
  in_place_or_apart left output -> in_place_or_apart right output ->
  (forall x y, valid32 x -> valid32 y -> valid32 (op x y)) ->
  wp (elementwise operation op left right output) h
    (fun _ h' => elementwise_fits h left right output /\ exists value, output_written h output value h' /\
       values (words h') output = map2 op (values (words h) left) (values (words h) right))
    (fun e h' => refused h e h' /\ ~ elementwise_fits h left right output).
Proof.
  intros Hwf Hl Hr Ho Hpl Hpr Hop. unfold elementwise. wp_step. wp_step. wp_step. apply wp_lift.
  rewrite !pin_placed by done. cbn [res_bind]. unfold validateElementwise.
  destruct (cpu_contiguous_spec h left operation Hwf Hl) as [[-> Hul]|(e & -> & He & Hn)]; cbn [res_bind].
  2:{ split; [done|]. intros [[? _] _ _ _]. done. }
  destruct (cpu_contiguous_spec h right operation Hwf Hr) as [[-> Hur]|(e & -> & He & Hn)]; cbn [res_bind].
  2:{ split; [done|]. intros [(_ & ? & _) _ _ _]. done. }
  destruct (cpu_contiguous_spec h output operation Hwf Ho) as [[-> Huo]|(e & -> & He & Hn)]; cbn [res_bind].
  2:{ split; [done|]. intros [(_ & _ & ?) _ _ _]. done. }
  match goal with |- context [throw_if ?c _] => destruct c eqn:Hc end; cbn [throw_if].
  { split; [done|]. intros [_ (H1 & H2 & H3) [H4 H5] H6]. rewrite H6, !bool_decide_eq_true_2 in Hc by done. done. }
  repeat (apply orb_false_iff in Hc as [Hc ?]).
  repeat match goal with H : negb _ = false |- _ => apply negb_false_iff in H end.
  repeat match goal with H : bool_decide _ = true |- _ => apply bool_decide_eq_true in H end.
  wp_step. split; [by constructor|]. rewrite (writable_data h output Hwf Ho) by done.
  assert (count left = count output /\ count right = count output) as [Cl Cr] by (unfold count; split; congruence).
  assert (forall v, usable h v -> dtype_ v = FP32 -> bytes_ v = 4 * Z.of_nat (count v)) as Hb.
  { intros v [_ _ _ [Bv _] _ _] Dv. rewrite Dv in Bv. cbn in Bv. lia. }
  set (value := fun k => op (load (words h) (data_ left) k) (load (words h) (data_ right) k)). exists value.
  assert (output_written h output value (set_words (elementwise_loop op (data_ left) (data_ right) (data_ output) (count left)) h)) as Hw.
  { apply output_written_intro; [done|]. rewrite Cl.
    unfold elementwise_loop.
    apply (fill_written (data_ output) (fun mem k => op (load mem (data_ left) k) (load mem (data_ right) k)) (count output) (words h)); [apply Hwf|..].
    - intros k Hk. apply Hop; apply f32_of_bits_valid.
    - intros k mem' Hk Hm. f_equal; apply (load_in_place _ output); auto; lia. }
  split; [done|]. rewrite (values_written _ _ _ _ Hw). unfold map2, values, value. rewrite Cl, Cr.
  rewrite zip_with_fmap_l, zip_with_fmap_r. generalize (seq 0 (count output)) as l. intros l.
  induction l as [|k l IH]; [done|]. cbn. by rewrite IH.
Qed.
End specs.

(** ** Copies *)

Section copies.
Context `{HA : HostAllocator}.

Record copy_fits (h : Host) (source destination : TensorView) : Prop := CopyFits {
  cf_usable : usable h source /\ usable h destination;
  cf_metadata : dtype_ source = dtype_ destination /\ shape_ source = shape_ destination;
  cf_writable : view_writable (owners h) destination = true;
}.

(** A copy moves the bytes even when the views overlap; the elements of an FP32 view arrive
    as they were. *)
Lemma copyTensor_spec source destination h :
  host_wf h -> placed h source -> placed h destination -> dtype_ source = FP32 ->
  wp (copyTensor source destination) h
    (fun _ h' => copy_fits h source destination /\ h' = set_words (fun _ => words h') h /\ host_wf h' /\
       values (words h') destination = values (words h) source /\
       forall a, a mod 4 = 0 -> (forall k, (k < count destination)%nat -> a <> cell (data_ destination) k) -> words h' a = words h a)
    (fun e h' => refused h e h' /\ ~ copy_fits h source destination).
Proof.
  intros Hwf Hs Hd Ht. unfold copyTensor. wp_step. wp_step. wp_step. apply wp_lift.
  rewrite !pin_placed by done. cbn [res_bind].
  destruct (cpu_contiguous_spec h source "CPU tensor copy" Hwf Hs) as [[-> Hus]|(e & -> & He & Hn)]; cbn [res_bind].
  2:{ split; [done|]. by intros [[? _] _ _]. }
  destruct (cpu_contiguous_spec h destination "CPU tensor copy" Hwf Hd) as [[-> Hud]|(e & -> & He & Hn)]; cbn [res_bind].
  2:{ split; [done|]. by intros [[_ ?] _ _]. }
  match goal with |- context [throw_if ?c _] => destruct c eqn:Hc end; cbn [throw_if].
  { split; [done|]. intros [_ [H1 H2] H3]. rewrite H3, !bool_decide_eq_true_2 in Hc by done. done. }
  repeat (apply orb_false_iff in Hc as [Hc ?]).
  repeat match goal with H : negb _ = false |- _ => apply negb_false_iff in H end.
  repeat match goal with H : bool_decide _ = true |- _ => apply bool_decide_eq_true in H end.
  wp_step. rewrite (writable_data h destination Hwf Hd) by done.
  pose proof Hus as [_ _ _ [Bs _] As _]. pose proof Hud as [_ _ _ [Bd _] Ad _].
  assert (dtype_ destination = FP32) as Htd by congruence. assert (count destination = count source) as Cd by (unfold count; congruence).
  rewrite Ht in Bs, As. rewrite Htd in Bd, Ad. cbn in Bs, As, Bd, Ad. replace (bytes_ source) with (4 * Z.of_nat (count source)) by lia.
  split; [by constructor|]. split; [done|]. split; [|split].
  - destruct Hwf. constructor; cbn; try done. apply memmove_ok.
  - unfold values. rewrite Cd. apply list_fmap_ext. intros i k [-> Hk]%lookup_seq. cbn. unfold load. f_equal.
    apply memmove_word; [apply Hwf|done|done|lia].
  - intros a Ha Hno. cbn. apply memmove_other; [apply Hwf|done|].
    destruct (Z.le_gt_cases (a + 4) (data_ destination)); [by left|]. right. destruct (Z.le_gt_cases (data_ destination + 4 * Z.of_nat (count source)) a); [done|].
    exfalso. assert (data_ destination <= a) as Hle by (pose proof (Z.div_mod a 4); pose proof (Z.div_mod (data_ destination) 4); lia).
    apply (Hno (Z.to_nat ((a - data_ destination) / 4))); unfold cell; pose proof (Z.div_mod a 4); pose proof (Z.div_mod (data_ destination) 4);
      pose proof (Z.div_mod (a - data_ destination) 4); pose proof (Z.mod_pos_bound (a - data_ destination) 4); try lia.
Qed.
End copies.

(** ** Tensors that live while a function runs *)

(** The storage of [h'] is that of [h]. *)
Record balanced (h h' : Host) : Prop := Balanced {
  ba_wf : host_wf h';
  ba_live : live h' = live h;
  ba_owners : owners h' = owners h;
  ba_next : nextOwner h <= nextOwner h';
  ba_table : allocations h' = allocations h;
  ba_bytes : allocatedBytes h' = allocatedBytes h;
}.

Lemma balanced_refl h : host_wf h -> balanced h h.
Proof. by constructor. Qed.
Lemma balanced_trans h1 h2 h3 : balanced h1 h2 -> balanced h2 h3 -> balanced h1 h3.
Proof. intros [] []. constructor; first [done|congruence|lia]. Qed.
Lemma output_balanced h output value h' : output_written h output value h' -> balanced h h'.
Proof. intros [-> ? _]. by constructor. Qed.
Lemma balanced_placed h h' v : balanced h h' -> placed h v -> placed h' v.
Proof. intros [_ Hl Ho _ _ _] (b & base & n & H). exists b, base, n. by rewrite Hl, Ho. Qed.

(** A tensor of [s] that has just been allocated. *)
Record fresh_tensor (h : Host) (s : Shape) (d : DType) (t : Tensor) (h1 : Host) : Prop := FreshTensor {
  ft_wf : host_wf h1;
  ft_tensor : exists b, acquired h b h1 /\ bu_size b = storageElementCount s * dtype_sizeOf d /\
    t = mkTensor s d cpu (bu_data b) (elementCount s * dtype_sizeOf d) (bu_size b) (Some (bu_owner b));
}.

Definition allocation_error (e : exn) : Prop := kind_of e = BadAlloc \/ kind_of e = OverflowError.

Section tensors.
Context `{HA : HostAllocator} `{HL : !HostAllocatorLaws}.

Lemma fromDeviceBuffer_total s d b : shape_wf s -> shape_isContiguous s = true ->
  storageElementCount s * dtype_sizeOf d <= u64_max -> bu_size b = storageElementCount s * dtype_sizeOf d ->
  0 < bu_data b -> bu_data b mod 64 = 0 -> bu_backend b = Some (CPU, 0) ->
  tensor_fromDeviceBuffer s d cpu (Some b) = Ok (mkTensor s d cpu (bu_data b) (elementCount s * dtype_sizeOf d) (bu_size b) (Some (bu_owner b))).
Proof.
  intros Hs Hc Hmax Hsz H0 H64 Hb. unfold tensor_fromDeviceBuffer. rewrite Hb.
  assert (bu_data b mod alignmentOf d = 0) as Hal.
  { pose proof (Z.div_mod (bu_data b) 64 ltac:(lia)) as Hd. rewrite H64, Z.add_0_r in Hd. rewrite Hd. apply Z.mod_divide; [by destruct d|].
    apply Z.divide_mul_l. destruct d; [exists 16|exists 32|exists 32|exists 64]; done. }
  assert (validateStorageMetadata d cpu (bu_data b) = Ok tt) as Hv by (unfold validateStorageMetadata; cbn; rewrite Hal, andb_false_r; cbn; by rewrite andb_false_r).
  replace (bu_data b =? 0) with false by lia. cbn [throw_if res_bind]. rewrite Hv. cbn.
  unfold fromStorage, logicalBytes, requiredBytes. pose proof (contiguous_count s Hs Hc). pose proof (dtype_sizeOf_pos d).
  destruct (sw_count s Hs) as [Hn _]. pose proof (product_pos _ (sw_dims s Hs)). pose proof (sw_storage s Hs).
  assert (forall n, 0 <= n -> n * dtype_sizeOf d <= u64_max -> (u64_max / dtype_sizeOf d <? n) = false) as Hq
    by (intros n Hn0 Hle; apply Z.ltb_ge, Z.div_le_lower_bound; lia).
  rewrite !Hq by nia. cbn [throw_if res_bind]. rewrite Hv. cbn [res_bind]. replace (bu_data b =? 0) with false by lia. cbn.
  rewrite !wrap64_small by (unfold is_u64; nia). rewrite Hsz, Z.ltb_irrefl. done.
Qed.

Lemma allocateTensor_spec s d h : host_wf h -> shape_wf s -> shape_isContiguous s = true ->
  wp (allocateTensor s d) h (fun t h1 => fresh_tensor h s d t h1) (fun e h1 => allocation_error e /\ h1 = h).
Proof.
  intros Hwf Hs Hc. unfold allocateTensor. wp_step. apply wp_lift. unfold tensorStorageBytes, requiredBytes.
  pose proof (sw_storage s Hs). pose proof (dtype_sizeOf_pos d). destruct (Z.ltb_spec (u64_max / dtype_sizeOf d) (storageElementCount s)) as [|Hle]; cbn [throw_if res_bind].
  { split; [by right|done]. }
  assert (storageElementCount s * dtype_sizeOf d <= u64_max) as Hmax by (pose proof (Z.mul_div_le u64_max (dtype_sizeOf d)); nia).
  rewrite wrap64_small by (unfold is_u64; nia). wp_step. eapply wp_mono; [apply make_buffer_spec; [done|nia]| |].
  - intros b h1 (Hwf1 & Ha & Hsz). destruct (aq_data _ _ _ Ha) as (H0' & H64 & _).
    rewrite fromDeviceBuffer_total by (done || apply (aq_backend _ _ _ Ha)). wp_step. constructor; [done|]. by exists b.
  - intros e h1 [-> He]. split; [by left|done].
Qed.

Lemma fresh_placed h s d t h1 writable : shape_wf s -> shape_isContiguous s = true -> fresh_tensor h s d t h1 ->
  placed h1 (viewOf writable t) /\ data_ (viewOf writable t) = te_data t.
Proof.
  intros Hs Hc [Hwf (b & Ha & Hsz & ->)]. split; [|done]. exists b, (bu_data b), (bu_size b). cbn.
  split; [|split; [rewrite (proj1 (aq_owners _ _ _ Ha)); set_solver|split; [rewrite (aq_live _ _ _ Ha); apply lookup_insert_eq|lia]]].
  constructor; cbn; try done; try lia.
  - destruct (aq_data _ _ _ Ha) as (_ & H64 & _). pose proof (Z.div_mod (bu_data b) 64 ltac:(lia)) as Hd. rewrite H64, Z.add_0_r in Hd. rewrite Hd.
    apply Z.mod_divide; [pose proof (dtype_sizeOf_pos d); lia|]. apply Z.divide_mul_l. destruct d; [exists 16|exists 32|exists 32|exists 64]; done.
  - by destruct writable; [right|left].
Qed.

(** What was placed stays so, apart from the new tensor. *)
Lemma fresh_apart h s d t h1 base n : host_wf h -> fresh_tensor h s d t h1 -> live h !! base = Some n ->
  live h1 !! base = Some n /\ te_data t <> base /\
  storage_apart (te_data t) (storageElementCount s * dtype_sizeOf d) base n.
Proof.
  intros Hwf [Hwf1 (b & Ha & Hsz & ->)] Hl. cbn [te_data]. rewrite <- Hsz. pose proof (aq_fresh _ _ _ Ha _ _ Hl) as Hd.
  assert (bu_data b <> base) as Hne.
  { intros Heq. assert (live h1 !! bu_data b = Some (bu_size b)) as Hb by (rewrite (aq_live _ _ _ Ha); apply lookup_insert_eq).
    destruct (hw_range h1 Hwf1 _ _ Hb) as (_ & Hp & _), (hw_range h Hwf _ _ Hl) as (_ & Hn & _). unfold storage_apart in Hd. lia. }
  split; [|done]. rewrite (aq_live _ _ _ Ha), lookup_insert_ne by done. done.
Qed.

Lemma fresh_keeps h s d t h1 v : host_wf h -> fresh_tensor h s d t h1 -> placed h v -> placed h1 v.
Proof.
  intros Hwf Hf (b & base & n & Hv & Ho & Hl & Hr). exists b, base, n. split; [done|].
  destruct (fresh_apart h s d t h1 base n Hwf Hf Hl) as [Hl1 _]. destruct Hf as [_ (b' & Ha & _)].
  rewrite (proj1 (aq_owners _ _ _ Ha)). split; [set_solver|done].
Qed.

Lemma fresh_disjoint h s d t h1 v writable : host_wf h -> shape_wf s -> shape_isContiguous s = true -> fresh_tensor h s d t h1 ->
  usable h v -> disjoint v (viewOf writable t).
Proof.
  intros Hwf Hs Hc Hf [_ _ _ _ _ (base & n & Hl & Hb & He)]. destruct (fresh_apart h s d t h1 base n Hwf Hf Hl) as (_ & _ & Hd).
  destruct Hf as [_ (b & _ & Hsz & ->)]. pose proof (contiguous_count s Hs Hc). pose proof (dtype_sizeOf_pos d).
  unfold disjoint, storage_apart in *. cbn in *. nia.
Qed.

Lemma fresh_usable h s d t h1 writable : shape_wf s -> shape_isContiguous s = true -> fresh_tensor h s d t h1 ->
  usable h1 (viewOf writable t) /\ view_writable (owners h1) (viewOf true t) = true.
Proof.
  intros Hs Hc Hf. destruct (fresh_placed h s d t h1 writable Hs Hc Hf) as [Hp _]. destruct Hf as [Hwf (b & Ha & Hsz & ->)].
  destruct (aq_data _ _ _ Ha) as (H0 & _ & _). destruct (sw_count s Hs) as [Hn _]. pose proof (product_pos _ (sw_dims s Hs)).
  pose proof (dtype_sizeOf_pos d). assert (expired (owners h1) (Some (bu_owner b)) = false) as Hx.
  { cbn. rewrite (proj1 (aq_owners _ _ _ Ha)). rewrite bool_decide_eq_true_2 by set_solver. done. }
  split.
  - apply usable_intro; try done. unfold view_valid. cbn [viewOf data_ bytes_ lifetime_ te_data te_bytes te_owner]. rewrite Hx.
    replace (bu_data b =? 0) with false by lia. replace (elementCount s * dtype_sizeOf d =? 0) with false by nia. done.
  - unfold view_writable. cbn [viewOf mutableData_ lifetime_ te_data te_owner]. rewrite Hx. replace (bu_data b =? 0) with false by lia. done.
Qed.

(** What could be used still can. *)
Lemma fresh_usable_keeps h s d t h1 v : host_wf h -> fresh_tensor h s d t h1 -> usable h v -> usable h1 v.
Proof.
  intros Hwf Hf [Hp ? ? ? ? (base & n & Hl & Hb)]. constructor; try done; [by eapply fresh_keeps|].
  exists base, n. split; [by eapply fresh_apart|done].
Qed.
Lemma fresh_writable_keeps h s d t h1 v : fresh_tensor h s d t h1 -> view_writable (owners h) v = true -> view_writable (owners h1) v = true.
Proof.
  intros [_ (b & Ha & _)]. unfold view_writable, expired. rewrite (proj1 (aq_owners _ _ _ Ha)).
  destruct (lifetime_ v) as [o|]; [|done]. rewrite !andb_true_iff, !negb_true_iff, !negb_false_iff, !bool_decide_eq_true. set_solver.
Qed.

(** An address of storage that is allocated, and the cells of a fresh tensor. *)
Definition in_storage (h : Host) (a : Z) : Prop := exists p n, live h !! p = Some n /\ p <= a < p + n.
Lemma fresh_storage h s d t h1 a : host_wf h -> fresh_tensor h s d t h1 -> in_storage h a -> in_storage h1 a.
Proof. intros Hwf Hf (p & n & Hl & Ha). exists p, n. split; [by eapply fresh_apart|done]. Qed.
Lemma fresh_cells h s t h1 a k : host_wf h -> shape_wf s -> shape_isContiguous s = true -> fresh_tensor h s FP32 t h1 ->
  in_storage h a -> (k < count (viewOf true t))%nat -> a <> cell (data_ (viewOf true t)) k.
Proof.
  intros Hwf Hs Hc Hf (p & n & Hl & Ha) Hk. destruct (fresh_apart h s FP32 t h1 p n Hwf Hf Hl) as (_ & _ & Hd).
  destruct Hf as [_ (b & _ & Hsz & ->)]. pose proof (contiguous_count s Hs Hc). destruct (sw_count s Hs) as [Hn _]. pose proof (product_pos _ (sw_dims s Hs)).
  unfold storage_apart, count, cell in *. cbn in *. lia.
Qed.

(** Dropping the tensor gives the storage back. *)
Lemma drop_fresh h s d t h1 h2 : host_wf h -> fresh_tensor h s d t h1 -> balanced h1 h2 ->
  let h3 := drop_buffer (mkBuffer (default 0 (te_owner t)) (te_data t) (te_storageBytes t) (Some (CPU, 0))) h2 in
  balanced h h3 /\ words h3 = words h2.
Proof.
  intros Hwf [Hwf1 (b & Ha & Hsz & ->)] [Hwf2 Bl Bo Bn Bt Bb]. cbn [te_owner te_data te_storageBytes default from_option].
  set (b' := mkBuffer _ _ _ _). assert (live h !! bu_data b = None) as Hl.
  { destruct (live h !! bu_data b) as [n|] eqn:Hl; [|done]. pose proof (aq_fresh _ _ _ Ha _ _ Hl) as Hd.
    assert (live h1 !! bu_data b = Some (bu_size b)) as Hb by (rewrite (aq_live _ _ _ Ha); apply lookup_insert_eq).
    destruct (hw_range h1 Hwf1 _ _ Hb) as (_ & Hp & _), (hw_range h Hwf _ _ Hl) as (_ & Hn & _). unfold storage_apart in Hd. lia. }
  assert (allocations h !! bu_data b = None) as Hal by (by eapply lookup_weaken_None; [|apply hw_table]).
  destruct (drop_buffer_spec b' h2 Hwf2) as [Hwf3 [Rw Rl Ro Rn Rt Rb _]].
  { rewrite Bt, (aq_table _ _ _ Ha). apply lookup_insert_eq. }
  split; [|done]. constructor; [done|..].
  - rewrite Rl, Bl, (aq_live _ _ _ Ha). by apply delete_insert_id.
  - rewrite Ro, Bo, (proj1 (aq_owners _ _ _ Ha)). pose proof (proj2 (aq_owners _ _ _ Ha)). cbn. set_solver.
  - rewrite Rn. rewrite (aq_next _ _ _ Ha) in Bn. lia.
  - rewrite Rt, Bt, (aq_table _ _ _ Ha). by apply delete_insert_id.
  - rewrite Rb, Bb, (aq_bytes _ _ _ Ha). cbn. unfold wrap64. rewrite Zminus_mod_idemp_l. replace (allocatedBytes h + bu_size b - bu_size b) with (allocatedBytes h) by lia.
    rewrite (hw_bytes h Hwf). apply Zmod_mod.
Qed.

(** [body] runs with a fresh tensor, which is gone afterwards. *)
Lemma with_tensor_spec {A} s d (body : Tensor -> ST Host A) h (Q : A -> (Z -> Z) -> Prop) (E : exn -> (Z -> Z) -> Prop) :
  host_wf h -> shape_wf s -> shape_isContiguous s = true ->
  (forall e, allocation_error e -> E e (words h)) ->
  (forall t h1, fresh_tensor h s d t h1 -> words h1 = words h ->
     wp (body t) h1 (fun a h2 => balanced h1 h2 /\ Q a (words h2)) (fun e h2 => balanced h1 h2 /\ E e (words h2))) ->
  wp (with_tensor s d body) h (fun a h2 => balanced h h2 /\ Q a (words h2)) (fun e h2 => balanced h h2 /\ E e (words h2)).
Proof.
  intros Hwf Hs Hc He Hb. unfold with_tensor. wp_step. eapply wp_mono; [by apply allocateTensor_spec| |].
  - intros t h1 Hf. assert (words h1 = words h) as Hw by (destruct Hf as [_ (b & Ha & _)]; apply Ha). specialize (Hb t h1 Hf Hw).
    unfold wp, finally in *. destruct (body t h1) as [[a|e|] h2]; [..|done]; destruct Hb as [Hb HQ].
    + destruct (drop_fresh h s d t h1 h2 Hwf Hf Hb) as [? ->]. done.
    + destruct (drop_fresh h s d t h1 h2 Hwf Hf Hb) as [? ->]. done.
  - intros e h1 [Ha ->]. split; [by apply balanced_refl|by apply He].
Qed.
End tensors.

(** ** Outputs that overlap an input *)

Definition slice_owner : Z := 1.
(** Slices of one buffer: two floats at 1024, two at 1028. *)
Definition slice_at (data rows columns : Z) : TensorView :=
  mkView (mkShape [rows; columns] [columns; 1] (rows * columns) (rows * columns)) FP32 cpu data data (4 * rows * columns) (4 * rows * columns) (Some slice_owner).
Definition slices_words (a : Z) : Z := if (1024 <=? a) && (a <? 1056) then 1065353216 else 0.
Definition slices_host : Host := mkHost slices_words {[1024 := 32]} {[slice_owner]} 2 ∅ 0 0 0 0 0.

(** The alias test of [matmul] compares first addresses only: an output that begins inside
    the left operand is accepted, and its second column is computed from the first. *)
Lemma overlapping_output_accepted :
  let left := slice_at 1024 1 2 in let right := slice_at 1036 2 2 in let output := slice_at 1028 1 2 in
  exists h', matmul left right output slices_host = (Ok tt, h') /\
    values (words h') output <> matrix_product 1 2 2 (values slices_words left) (values slices_words right).
Proof. eexists. split; [reflexivity|]. vm_compute. discriminate. Qed.
