(* ===== verification/SampleHost.v ===== *)
(** * A concrete memory

    Five live buffers with a few floats and bytes in them, and matrices and vectors on them:
    the inputs at which the theorems on tensors are instantiated. *)

From S2P Require Import Prelude Float FloatBits Tiers Tensor KVCache HostMemory CpuTensorBackend.

#[local] Open Scope Z_scope.

Definition sample_mlp_words (a : Z) : Z :=
  if a =? 1024 then 1065353216 else if a =? 1028 then 1073741824
  else if a =? 2048 then 33554434
  else if (3072 <=? a) && (a <? 4104) then 1065353216 else 0.
Definition sample_host : Host :=
  mkHost sample_mlp_words {[1024 := 8; 2048 := 4; 3072 := 16; 4096 := 8; 5120 := 4]} {[1; 2; 3; 4; 5]} 6 ∅ 0 0 0 0 0.
Definition sample_matrix (owner data rows columns : Z) (d : DType) (writable : bool) : TensorView :=
  let bytes := rows * columns * dtype_sizeOf d in
  mkView (mkShape [rows; columns] [columns; 1] (rows * columns) (rows * columns)) d cpu data (if writable then data else 0) bytes bytes (Some owner).

Lemma sample_host_wf : host_wf sample_host.
Proof.
  constructor; cbn.
  - intros a. unfold sample_mlp_words, is_u32, u32_max. repeat case_match; lia.
  - intros o Ho. set_unfold in Ho. lia.
  - unfold u64_max. repeat (apply map_Forall_insert_2; [lia|]). apply map_Forall_empty.
  - intros p q n m Hp Hq. repeat setoid_rewrite lookup_insert_Some in Hp. repeat setoid_rewrite lookup_insert_Some in Hq.
    rewrite lookup_empty in Hp, Hq. unfold storage_apart. lia || naive_solver lia.
  - apply map_empty_subseteq.
  - vm_compute. reflexivity.
Qed.

Lemma sample_placed owner data rows columns d writable n : owner ∈ owners sample_host -> live sample_host !! data = Some n ->
  n = rows * columns * dtype_sizeOf d -> 0 < rows -> 0 < columns -> rows * columns <= 4 -> data mod 1024 = 0 ->
  placed sample_host (sample_matrix owner data rows columns d writable).
Proof.
  intros Ho Hl -> Hr Hc Hmax Hd. exists (mkBuffer owner data (rows * columns * dtype_sizeOf d) (Some (CPU, 0))), data, (rows * columns * dtype_sizeOf d).
  cbn. split; [|split; [done|split; [done|lia]]]. constructor; cbn; try done; try lia.
  - constructor; cbn; [done|repeat apply Forall_cons_2; [lia|lia|apply Forall_nil_2]|repeat apply Forall_cons_2; [lia|lia|apply Forall_nil_2]| | |].
    + unfold u64_max. lia.
    + unfold u64_max. nia.
    + intros index Hi. unfold in_shape in Hi. cbn in Hi. inversion Hi as [|i d1 l1 l2 H1 Hi']; subst. inversion Hi' as [|j d2 l3 l4 H2 Hi'']; subst.
      inversion Hi''; subst. cbn. nia.
  - pose proof (Z.div_mod data 1024 ltac:(lia)) as Hdm. rewrite Hd, Z.add_0_r in Hdm. rewrite Hdm. apply Z.mod_divide; [by destruct d|].
    apply Z.divide_mul_l. destruct d; [exists 256|exists 512|exists 512|exists 1024]; done.
  - by destruct writable; [right|left].
Qed.

Definition sample_vector (owner data n : Z) (writable : bool) : TensorView :=
  mkView (mkShape [n] [1] n n) FP32 cpu data (if writable then data else 0) (n * 4) (n * 4) (Some owner).
Lemma sample_vector_placed owner data n writable m : owner ∈ owners sample_host -> live sample_host !! data = Some m ->
  n * 4 <= m -> 0 < n <= 4 -> data mod 1024 = 0 -> placed sample_host (sample_vector owner data n writable).
Proof.
  intros Ho Hl Hm Hn Hd. exists (mkBuffer owner data m (Some (CPU, 0))), data, m.
  cbn. split; [|split; [done|split; [done|lia]]]. constructor; cbn; try done; try lia.
  - constructor; cbn; [done|repeat apply Forall_cons_2; [lia|apply Forall_nil_2]|repeat apply Forall_cons_2; [lia|apply Forall_nil_2]| | |].
    + unfold u64_max. lia.
    + unfold u64_max. lia.
    + intros index Hi. unfold in_shape in Hi. cbn in Hi. inversion Hi as [|i d1 l1 l2 H1 Hi']; subst. inversion Hi'; subst. cbn. lia.
  - pose proof (Z.div_mod data 1024 ltac:(lia)) as Hdm. rewrite Hd, Z.add_0_r in Hdm. rewrite Hdm. apply Z.mod_divide; [done|].
    apply Z.divide_mul_l. by exists 256.
  - by destruct writable; [right|left].
Qed.
