(* ===== verification/NewTensor.v ===== *)
(** * Functions that return a new tensor

    The normalizations, embeddings and conversions of the program check their arguments,
    allocate a CPU tensor and fill it in a loop.  What such a function promises its caller
    is stated here once. *)

From S2P Require Import Prelude Float FloatBits Tiers Tensor KVCache HostMemory CpuTensorBackend.

#[local] Open Scope Z_scope.

(** [std::memcpy] of a vector of floats. *)
Definition store_all (p : Z) (l : list f32) (mem : Z -> Z) : Z -> Z :=
  fill p (fun _ k => nth k l f32_zero) (seq 0 (length l)) mem.

(** [t] was allocated in [h], holds [l], and nothing that was allocated has changed. *)
Record new_tensor (h : Host) (s : Shape) (l : list f32) (t : Tensor) (h' : Host) : Prop := NewTensor {
  nt_fresh : exists h1, fresh_tensor h s FP32 t h1 /\ balanced h1 h';
  nt_values : values (words h') (viewOf true t) = l;
  nt_other : forall a, a mod 4 = 0 -> in_storage h a -> words h' a = words h a;
}.

(** The shape of a matrix, when its size can be represented. *)
Lemma matrix_shape rows columns : 1 <= rows <= u64_max -> 1 <= columns <= u64_max ->
  match contiguousShape [rows; columns] with
  | Ok s => shape_wf s /\ dimensions s = [rows; columns] /\ shape_isContiguous s = true /\ Z.to_nat (elementCount s) = (Z.to_nat rows * Z.to_nat columns)%nat
  | Throw e => kind_of e = OverflowError
  | Diverge => False
  end.
Proof.
  intros Hr Hc. assert (Forall is_u64 [rows; columns]) as Hd by (repeat apply Forall_cons_2; [unfold is_u64; lia..|apply Forall_nil_2]).
  pose proof (contiguousShape_spec _ Hd) as H. pose proof (contiguousShape_overflow [rows; columns]) as Ho.
  destruct (contiguousShape [rows; columns]) as [s|e|]; [|by apply Ho; [repeat apply Forall_cons_2; [lia..|apply Forall_nil_2]|]|done].
  destruct H as (Hs & Hds & Hst & _ & Hn). split; [done|]. split; [done|]. split; [apply isContiguous_spec; [done|]; by rewrite Hst, Hds|].
  rewrite Hn. unfold product. cbn. lia.
Qed.

Section new.
Context `{HA : HostAllocator} `{HL : !HostAllocatorLaws}.

Lemma fresh_count h s d t h1 : fresh_tensor h s d t h1 -> count (viewOf true t) = Z.to_nat (elementCount s).
Proof. by intros [_ (b & _ & _ & ->)]. Qed.
Lemma fresh_words h s d t h1 : fresh_tensor h s d t h1 -> words h1 = words h.
Proof. intros [_ (b & Ha & _)]. apply Ha. Qed.

(** A loop over the cells of a fresh tensor makes a new one. *)
Lemma filled_new h s t h1 h' value :
  host_wf h -> shape_wf s -> shape_isContiguous s = true -> fresh_tensor h s FP32 t h1 ->
  output_written h1 (viewOf true t) value h' -> new_tensor h s (value <$> seq 0 (Z.to_nat (elementCount s))) t h'.
Proof.
  intros Hwf Hs Hc Hf Hw. pose proof (fresh_count _ _ _ _ _ Hf) as Hn. pose proof (values_written _ _ _ _ Hw) as Hv. rewrite Hn in Hv.
  pose proof (output_balanced _ _ _ _ Hw) as Hb. destruct Hw as [He Hwf' Hw].
  constructor; [by exists h1|done|]. intros a _ Ha. rewrite <- (fresh_words _ _ _ _ _ Hf). apply Hw. intros k Hk.
  by apply (fresh_cells h s t h1 a k).
Qed.

Lemma store_all_written h1 t l : host_wf h1 -> length l = count (viewOf true t) -> Forall valid32 l ->
  output_written h1 (viewOf true t) (fun k => nth k l f32_zero) (set_words (store_all (te_data t) l) h1).
Proof.
  intros Hwf Hl Hv. apply output_written_intro; [done|]. unfold store_all. rewrite Hl. change (te_data t) with (data_ (viewOf true t)).
  apply (fill_written (data_ (viewOf true t)) (fun _ k => nth k l f32_zero)); [apply Hwf| |done].
  intros k _. by apply nth_valid.
Qed.

Lemma nth_seq (l : list f32) n : length l = n -> (fun k => nth k l f32_zero) <$> seq 0 n = l.
Proof.
  intros <-. induction l as [|x l IH]; [done|]. cbn [length seq fmap list_fmap nth]. f_equal.
  rewrite <- IH at 2. rewrite <- fmap_S_seq, <- list_fmap_compose. done.
Qed.

(** Allocating a tensor and filling it. *)
Lemma fill_new_spec s (f : Tensor -> (Z -> Z) -> Z -> Z) (value : nat -> f32) h :
  host_wf h -> shape_wf s -> shape_isContiguous s = true ->
  (forall t h1, fresh_tensor h s FP32 t h1 -> output_written h1 (viewOf true t) value (set_words (f t) h1)) ->
  wp (t <- allocateTensor s FP32 ;; modify (set_words (f t)) ;;; ret t)%st h
    (fun t h' => new_tensor h s (value <$> seq 0 (Z.to_nat (elementCount s))) t h')
    (fun e h' => allocation_error e /\ h' = h).
Proof.
  intros Hwf Hs Hc Hf. wp_step. eapply wp_mono; [by apply allocateTensor_spec| |done].
  intros t h1 Ht. wp_step. wp_step. wp_step. by eapply filled_new; [..|apply Hf].
Qed.

Lemma store_new_spec s l h : host_wf h -> shape_wf s -> shape_isContiguous s = true ->
  Forall valid32 l -> length l = Z.to_nat (elementCount s) ->
  wp (t <- allocateTensor s FP32 ;; modify (set_words (store_all (te_data t) l)) ;;; ret t)%st h
    (fun t h' => new_tensor h s l t h') (fun e h' => allocation_error e /\ h' = h).
Proof.
  intros Hwf Hs Hc Hl Hn. rewrite <- (nth_seq l _ Hn). eapply wp_mono; [apply (fill_new_spec s _ (fun k => nth k l f32_zero) h); try done|done|done].
  intros t h1 Ht. rewrite (nth_seq l _ Hn). apply store_all_written; [apply Ht|by rewrite (fresh_count _ _ _ _ _ Ht)|done].
Qed.

(** A view that can be used still can when only words and counters have changed. *)
Lemma balanced_usable h h' v : balanced h h' -> usable h v -> usable h' v.
Proof.
  intros Hb [Hp Hd Hc Hby Ha (base & n & Hl & Hr)]. constructor; try done; [by eapply balanced_placed|]. exists base, n. by rewrite (ba_live _ _ Hb).
Qed.
Lemma balanced_writable h h' v : balanced h h' -> view_writable (owners h) v = true -> view_writable (owners h') v = true.
Proof. intros Hb. by rewrite (ba_owners _ _ Hb). Qed.

(** The new tensor is an operand like any other, and the old ones still are. *)
Lemma new_usable h s l t h' : shape_wf s -> shape_isContiguous s = true -> new_tensor h s l t h' ->
  usable h' (viewOf true t) /\ view_writable (owners h') (viewOf true t) = true.
Proof.
  intros Hs Hc [(h1 & Hf & Hb) _ _]. destruct (fresh_usable h s FP32 t h1 true Hs Hc Hf) as [Hu Hw].
  split; [by eapply balanced_usable|by eapply balanced_writable].
Qed.
Lemma new_keeps h s l t h' v : host_wf h -> new_tensor h s l t h' -> placed h v -> placed h' v.
Proof. intros Hwf [(h1 & Hf & Hb) _ _] Hp. eapply balanced_placed; [done|]. exact (fresh_keeps h s FP32 t h1 v Hwf Hf Hp). Qed.
End new.

(** A tensor that is given back when the rest of the function throws. *)
Definition keeping {A} (t : Tensor) (m : ST Host A) : ST Host A := fun h =>
  match m h with
  | (Throw e, h') => (Throw e, drop_buffer (mkBuffer (default 0 (te_owner t)) (te_data t) (te_storageBytes t) (Some (CPU, 0))) h')
  | r => r
  end.
Lemma wp_keeping {A} t (m : ST Host A) h Q E : wp m h Q (fun _ _ => False) -> wp (keeping t m) h Q E.
Proof. unfold wp, keeping. by destruct (m h) as [[a|e|] h']. Qed.

(** What a function that returns a new tensor promises. *)
Definition returns_new (h : Host) (fits : Prop) (s : Shape) (l : list f32) (r : result Tensor * Host) : Prop :=
  match r with
  | (Ok t, h') => fits /\ new_tensor h s l t h'
  | (Throw e, h') => h' = h /\ (kind_of e = InvalidArgument /\ ~ fits \/ fits /\ allocation_error e)
  | (Diverge, _) => False
  end.
