(* ===== verification/ArrayLoops.v ===== *)
(** * Loops over arrays of floats

    The tensor code writes its results with nested loops over [float*].  Here is, once, what
    such a loop leaves: loops that fill the rows of an output they do not read, and loops
    that update the blocks of an array in place. *)

From S2P Require Import Prelude Float FloatBits Tiers Tensor KVCache HostMemory CpuTensorBackend.

#[local] Open Scope Z_scope.

Definition array (mem : Z -> Z) (p : Z) (n : nat) : list f32 := load mem p <$> seq 0 n.
(** Only the array at [p] has changed. *)
Definition same_outside (p : Z) (n : nat) (mem mem' : Z -> Z) : Prop :=
  forall a, (forall k, (k < n)%nat -> a <> cell p k) -> mem' a = mem a.

Lemma same_outside_refl p n mem : same_outside p n mem mem.
Proof. done. Qed.
Lemma same_outside_trans p n m1 m2 m3 : same_outside p n m1 m2 -> same_outside p n m2 m3 -> same_outside p n m1 m3.
Proof. intros H1 H2 a Ha. by rewrite H2, H1. Qed.
Lemma same_outside_inside p n q m mem mem' :
  (forall k, (k < m)%nat -> exists j, (j < n)%nat /\ cell q k = cell p j) -> same_outside q m mem mem' -> same_outside p n mem mem'.
Proof. intros Hin H a Ha. apply H. intros k Hk ->. destruct (Hin k Hk) as (j & Hj & Heq). by apply (Ha j). Qed.
(** A cell that is not of the array is as it was. *)
Lemma same_outside_load p n mem mem' q i : same_outside p n mem mem' -> (forall k, (k < n)%nat -> cell q i <> cell p k) ->
  load mem' q i = load mem q i.
Proof. intros H Hc. unfold load. fold (cell q i). by rewrite H. Qed.
Lemma same_outside_array p n mem mem' q m : same_outside p n mem mem' ->
  (forall i k, (i < m)%nat -> (k < n)%nat -> cell q i <> cell p k) -> array mem' q m = array mem q m.
Proof. intros H Hc. apply list_fmap_ext. intros j i [-> Hi]%lookup_seq. apply (same_outside_load p n); auto. Qed.

Lemma array_length mem p n : length (array mem p n) = n.
Proof. unfold array. by rewrite length_fmap, length_seq. Qed.
Lemma array_nth mem p n k : (k < n)%nat -> nth k (array mem p n) f32_zero = load mem p k.
Proof.
  intros Hk. unfold array. rewrite (nth_indep _ _ (load mem p 0)) by (by rewrite length_fmap, length_seq). rewrite (map_nth (load mem p)). by rewrite seq_nth.
Qed.
Lemma array_valid mem p n : Forall valid32 (array mem p n).
Proof. apply Forall_fmap, Forall_true. intros. unfold load. cbn. auto with valid. Qed.
Lemma array_lookup mem p n i : (i < n)%nat -> array mem p n !! i = Some (load mem p i).
Proof. intros Hi. unfold array. by rewrite list_lookup_fmap, lookup_seq_lt. Qed.

Lemma store_same p n k x mem : (k < n)%nat -> same_outside p n mem (store p k x mem).
Proof. intros Hk a Ha. unfold store. destruct (Z.eqb_spec a (p + 4 * Z.of_nat k)) as [->|]; [|done]. exfalso. by apply (Ha k). Qed.
Lemma store_ok p k x mem : words_ok mem -> valid32 x -> words_ok (store p k x mem).
Proof. intros Hm Hx a. unfold store. destruct (_ =? _); [by apply bits_of_f32_word|apply Hm]. Qed.
Lemma array_store p n k x mem : valid32 x -> (k < n)%nat -> array (store p k x mem) p n = <[k := x]> (array mem p n).
Proof.
  intros Hx Hk. apply list_eq. intros i. destruct (decide (i < n)%nat) as [Hi|Hi].
  - rewrite array_lookup by done. destruct (decide (i = k)) as [->|Hne].
    + rewrite list_lookup_insert_eq by (by rewrite array_length). unfold load, store. rewrite Z.eqb_refl. by rewrite f32_of_bits_of.
    + rewrite list_lookup_insert_ne, array_lookup by done. unfold load, store. by replace (p + 4 * Z.of_nat i =? p + 4 * Z.of_nat k) with false by lia.
  - rewrite !lookup_ge_None_2; [done|..]; rewrite ?length_insert, array_length; lia.
Qed.

(** ** Rows of an output the loop does not read *)

Section rows.
Variables (out : Z) (rows columns : nat) (mem : Z -> Z).
(** The cell of a row, from the memory when the row began and the memory now. *)
Variable value : (Z -> Z) -> (Z -> Z) -> nat -> nat -> f32.
Variable result : nat -> f32.

Definition row_loop : Z -> Z :=
  foldl (fun m row => foldl (fun m' column => store out (row * columns + column) (value m m' row column) m') m (seq 0 columns)) mem (seq 0 rows).

Lemma row_loop_written : (0 < columns)%nat -> words_ok mem -> (forall k, valid32 (result k)) ->
  (forall m m' row column, (row < rows)%nat -> (column < columns)%nat ->
     same_outside out (rows * columns) mem m -> same_outside out (rows * columns) mem m' -> value m m' row column = result (row * columns + column)%nat) ->
  written out (rows * columns) result mem row_loop.
Proof.
  intros Hc Hm Hv Hval.
  assert (forall ks row m0 m, (row < rows)%nat -> Forall (fun k => k < columns)%nat ks -> same_outside out (rows * columns) mem m0 -> same_outside out (rows * columns) mem m ->
    foldl (fun m' column => store out (row * columns + column) (value m0 m' row column) m') m ks =
    foldl (fun m' column => store out (row * columns + column) (result (row * columns + column)%nat) m') m ks /\
    same_outside out (rows * columns) mem (foldl (fun m' column => store out (row * columns + column) (result (row * columns + column)%nat) m') m ks)) as Hinner.
  { intros ks row m0. induction ks as [|k ks IH]; intros m Hr Hks H0 H1; [done|]. apply Forall_cons in Hks as [Hk Hks]. cbn [foldl]. rewrite Hval by done.
    apply IH; try done. eapply same_outside_trans; [done|]. apply store_same. nia. }
  assert (forall rs m, Forall (fun r => r < rows)%nat rs -> same_outside out (rows * columns) mem m ->
    foldl (fun m row => foldl (fun m' column => store out (row * columns + column) (value m m' row column) m') m (seq 0 columns)) m rs =
    foldl (fun m row => foldl (fun m' column => store out (row * columns + column) (result (row * columns + column)%nat) m') m (seq 0 columns)) m rs) as Houter.
  { induction rs as [|r rs IH]; intros m Hrs Hs; [done|]. apply Forall_cons in Hrs as [Hr Hrs]. cbn [foldl].
    destruct (Hinner (seq 0 columns) r m m Hr) as [-> Hs']; try done; [|by apply IH]. apply Forall_forall. intros k [_ Hk]%elem_of_seq. lia. }
  unfold row_loop. rewrite Houter; [|apply Forall_forall; intros k [_ Hk]%elem_of_seq; lia|done].
  rewrite (nested_loop (fun row column m => store out (row * columns + column) (result (row * columns + column)%nat) m)) by done.
  assert (foldl (fun a k => store out (k / columns * columns + k mod columns) (result (k / columns * columns + k mod columns)%nat) a) mem (seq 0 (rows * columns)) =
    fill out (fun _ => result) (seq 0 (rows * columns)) mem) as ->.
  { apply foldl_ext_in. intros m k _. by rewrite (Nat.mul_comm (k / columns)), <- Nat.Div0.div_mod. }
  by apply (fill_written out (fun _ => result)).
Qed.
End rows.

(** Filling a fresh tensor leaves what could be read before. *)
Lemma fresh_reads `{HA : HostAllocator} `{HL : !HostAllocatorLaws} h s t h1 v m i :
  host_wf h -> shape_wf s -> shape_isContiguous s = true -> fresh_tensor h s FP32 t h1 ->
  usable h v -> dtype_ v = FP32 -> (i < count v)%nat ->
  same_outside (te_data t) (count (viewOf true t)) (words h1) m -> load m (data_ v) i = load (words h) (data_ v) i.
Proof.
  intros Hwf Hs Hc Hf Hu Hd Hi Hm. replace (words h) with (words h1) by (destruct Hf as [_ (b & Ha & _)]; apply Ha).
  pose proof (fresh_disjoint h s FP32 t h1 v true Hwf Hs Hc Hf Hu) as Hdis. pose proof (fresh_usable h s FP32 t h1 true Hs Hc Hf) as [Ht _].
  pose proof (us_bytes _ _ Hu) as [Hb _]. pose proof (us_bytes _ _ Ht) as [Hbt _]. rewrite Hd in Hb. cbn [dtype_sizeOf] in Hb.
  assert (dtype_ (viewOf true t) = FP32) as Hdt by (by destruct Hf as [_ (b & _ & _ & ->)]). rewrite Hdt in Hbt. cbn [dtype_sizeOf] in Hbt.
  by apply (load_apart v (viewOf true t)); [done|lia|lia|done|].
Qed.

(** A rank-1 view of floats. *)
Definition vector (h : Host) (v : TensorView) : Prop := usable h v /\ dtype_ v = FP32 /\ rank (shape_ v) = 1%nat.
Lemma count_vector h v : vector h v -> count v = dims v 0.
Proof.
  intros ([Hp _ _ _ _ _] & _ & Hr). destruct Hp as (b & _ & _ & Hw & _). pose proof (vw_shape _ _ Hw) as Hs.
  unfold count, dims, dim. destruct (sw_count _ Hs) as [-> _]. unfold rank in Hr.
  destruct (dimensions (shape_ v)) as [|a [|]]; try done. unfold product. cbn. by rewrite Z.mul_1_r.
Qed.

(** ** Rows of a matrix *)

(** Row [r] of a matrix. *)
Definition row_of (r columns : nat) (l : list f32) : list f32 := (fun j => nth (r * columns + j) l f32_zero) <$> seq 0 columns.

Lemma nth_seq_map {A} (f : nat -> A) n k d : (k < n)%nat -> nth k (f <$> seq 0 n) d = f k.
Proof.
  intros Hk. rewrite (nth_indep _ _ (f 0%nat)) by (by rewrite length_fmap, length_seq). rewrite (map_nth f). by rewrite seq_nth.
Qed.
Lemma row_of_nth r columns l j : (j < columns)%nat -> nth j (row_of r columns l) f32_zero = nth (r * columns + j) l f32_zero.
Proof. intros Hj. unfold row_of. by rewrite nth_seq_map. Qed.

(** ** Blocks updated in place *)

(** Block [b] of the array at [p]. *)
Definition block_at (p : Z) (width b : nat) : Z := p + 4 * Z.of_nat (b * width).
Lemma block_cell p width b j : cell (block_at p width b) j = cell p (b * width + j).
Proof. unfold block_at, cell. lia. Qed.

Section blocks.
Variables (p : Z) (width count : nat) (step : nat -> (Z -> Z) -> Z -> Z) (update : nat -> list f32 -> list f32) (mem : Z -> Z).
Hypothesis Hwidth : (0 < width)%nat.
(** One step: what it makes of its block depends on its block (as long as nothing outside
    the array has changed), and it changes nothing else. *)
Hypothesis Hstep : forall b m, (b < count)%nat -> words_ok m -> same_outside p (count * width) mem m ->
  words_ok (step b m) /\ same_outside (block_at p width b) width m (step b m) /\
  array (step b m) (block_at p width b) width = update b (array m (block_at p width b) width).

Lemma block_inside b m m' : (b < count)%nat -> same_outside (block_at p width b) width m m' -> same_outside p (count * width) m m'.
Proof.
  intros Hb. apply same_outside_inside. intros k Hk. exists (b * width + k)%nat. split; [nia|]. by rewrite block_cell.
Qed.
Lemma block_other b b' m m' : b <> b' -> same_outside (block_at p width b) width m m' -> array m' (block_at p width b') width = array m (block_at p width b') width.
Proof.
  intros Hne Hs. apply (same_outside_array (block_at p width b) width); [done|]. intros i k Hi Hk. rewrite !block_cell. unfold cell.
  assert (b' * width + i <> b * width + k)%nat by nia. lia.
Qed.

Lemma block_loop : words_ok mem ->
  let mem' := foldl (fun m b => step b m) mem (seq 0 count) in
  words_ok mem' /\ same_outside p (count * width) mem mem' /\
  forall b, (b < count)%nat -> array mem' (block_at p width b) width = update b (array mem (block_at p width b) width).
Proof.
  intros Hm. assert (forall n, (n <= count)%nat -> let m := foldl (fun m b => step b m) mem (seq 0 n) in
    words_ok m /\ same_outside p (count * width) mem m /\
    (forall b, (b < n)%nat -> array m (block_at p width b) width = update b (array mem (block_at p width b) width)) /\
    (forall b, (n <= b)%nat -> array m (block_at p width b) width = array mem (block_at p width b) width)) as H.
  { induction n as [|n IH]; intros Hn; cbv zeta; [split_and!; try done; lia|]. destruct (IH ltac:(lia)) as (Ok1 & So1 & Lo1 & Hi1).
    rewrite seq_S, foldl_app, Nat.add_0_l. cbn [foldl]. set (m := foldl _ mem (seq 0 n)) in *.
    destruct (Hstep n m ltac:(lia) Ok1 So1) as (Ok2 & So2 & Up2). split; [done|]. split; [eapply same_outside_trans; [done|]; by apply block_inside with n; [lia|]|].
    split; intros b Hb.
    - destruct (decide (b = n)) as [->|Hne]; [by rewrite Up2, Hi1 by lia|]. rewrite (block_other n b m) by done. apply Lo1. lia.
    - rewrite (block_other n b m) by (done || lia). apply Hi1. lia. }
  destruct (H count ltac:(lia)) as (H1 & H2 & H3 & _). done.
Qed.
End blocks.

Lemma array_block mem p width b j : (j < width)%nat -> nth j (array mem (block_at p width b) width) f32_zero = load mem p (b * width + j).
Proof. intros Hj. rewrite array_nth by done. unfold load. fold (cell (block_at p width b) j). rewrite block_cell. done. Qed.

Lemma block_load mem p width b j : load mem (block_at p width b) j = load mem p (b * width + j).
Proof. unfold load. fold (cell (block_at p width b) j). by rewrite block_cell. Qed.
Lemma block_store p width b j x mem : store (block_at p width b) j x mem = store p (b * width + j) x mem.
Proof. unfold store, block_at. by replace (p + 4 * Z.of_nat (b * width) + 4 * Z.of_nat j) with (p + 4 * Z.of_nat (b * width + j)) by lia. Qed.
Lemma block_row mem p width count b : (b < count)%nat -> array mem (block_at p width b) width = row_of b width (array mem p (count * width)).
Proof.
  intros Hb. apply list_fmap_ext. intros i j [-> Hj]%lookup_seq. rewrite Nat.add_0_l, array_nth by nia. apply block_load.
Qed.

(** The array after a loop over its blocks. *)
Lemma blocks_updated p width count step update mem : (0 < width)%nat -> words_ok mem ->
  (forall b m, (b < count)%nat -> words_ok m -> same_outside p (count * width) mem m ->
     words_ok (step b m) /\ same_outside (block_at p width b) width m (step b m) /\
     array (step b m) (block_at p width b) width = update b (array m (block_at p width b) width)) ->
  let mem' := foldl (fun m b => step b m) mem (seq 0 count) in
  words_ok mem' /\ same_outside p (count * width) mem mem' /\
  array mem' p (count * width) =
    (fun k => nth (k mod width) (update (k / width)%nat (row_of (k / width) width (array mem p (count * width)))) f32_zero) <$> seq 0 (count * width).
Proof.
  intros Hw Hm Hs. cbv zeta. destruct (block_loop p width count step update mem Hw Hs Hm) as (Hok & Ho & Hb). split; [done|]. split; [done|].
  apply list_fmap_ext. intros k i [-> Hk]%lookup_seq. rewrite Nat.add_0_l.
  assert (k / width < count)%nat as Hd by (apply Nat.Div0.div_lt_upper_bound; lia). pose proof (Nat.mod_upper_bound k width ltac:(lia)) as Hmod.
  rewrite <- block_row, <- Hb, array_block by done. by rewrite (Nat.mul_comm (k / width)), <- Nat.Div0.div_mod.
Qed.

(** ** Loops that may throw *)

Fixpoint fold_st {S A B} (f : A -> B -> ST S A) (a : A) (l : list B) : ST S A :=
  match l with
  | [] => ret a
  | b :: l => (a <- f a b ;; fold_st f a l)%st
  end.

(** An invariant [I i] holds before iteration [i]. *)
Lemma wp_fold_seq {S A} (f : A -> nat -> ST S A) (I : nat -> A -> S -> Prop) E n :
  (forall i a s, (i < n)%nat -> I i a s -> wp (f a i) s (I (Datatypes.S i)) E) ->
  forall a s, I 0%nat a s -> wp (fold_st f a (seq 0 n)) s (I n) E.
Proof.
  intros Hf. assert (forall k m a s, (m + k = n)%nat -> I m a s -> wp (fold_st f a (seq m k)) s (I n) E) as H.
  { induction k as [|k IH]; intros m a s Hm Ha; cbn [seq fold_st].
    - wp_step. by replace n with m by lia.
    - wp_step. eapply wp_mono; [apply Hf; [lia|done]| |done]. intros a' s' Ha'. apply IH; [lia|done]. }
  intros a s Ha. by apply H.
Qed.
(** The same for a loop that cannot. *)
Lemma fold_seq_inv {A} (f : A -> nat -> A) (I : nat -> A -> Prop) n :
  (forall i a, (i < n)%nat -> I i a -> I (S i) (f a i)) -> forall a, I 0%nat a -> I n (foldl f a (seq 0 n)).
Proof.
  intros Hf. assert (forall m, (m <= n)%nat -> forall a, I 0%nat a -> I m (foldl f a (seq 0 m))) as H; [|by apply H].
  induction m as [|m IH]; intros Hm a Ha; [done|]. rewrite seq_S, foldl_app. cbn. apply Hf; [lia|]. apply IH; [lia|done].
Qed.

(** ** Arrays that a computation may change *)

Definition within (r : Z * nat) (a : Z) : Prop := r.1 <= a < r.1 + 4 * Z.of_nat r.2.
Definition touches (rs : list (Z * nat)) (mem mem' : Z -> Z) : Prop := forall a, Forall (fun r => ~ within r a) rs -> mem' a = mem a.

Lemma touches_refl rs mem : touches rs mem mem.
Proof. done. Qed.
Lemma touches_trans rs m1 m2 m3 : touches rs m1 m2 -> touches rs m2 m3 -> touches rs m1 m3.
Proof. intros H1 H2 a Ha. by rewrite H2, H1. Qed.
(** Ranges inside other ranges. *)
Lemma touches_inside rs rs' mem mem' :
  Forall (fun r => exists r', r' ∈ rs' /\ r'.1 <= r.1 /\ r.1 + 4 * Z.of_nat r.2 <= r'.1 + 4 * Z.of_nat r'.2) rs -> touches rs mem mem' -> touches rs' mem mem'.
Proof.
  intros Hi H a Ha. apply H. rewrite Forall_forall in Hi, Ha |- *. intros r Hr. destruct (Hi r Hr) as (r' & Hin & H1 & H2).
  specialize (Ha r' Hin). unfold within in *. lia.
Qed.
Lemma touches_store p i x mem rs : Exists (fun r => within r (cell p i)) rs -> touches rs mem (store p i x mem).
Proof.
  intros (r & Hin & Hr)%Exists_exists a Ha. rewrite Forall_forall in Ha. specialize (Ha r Hin).
  unfold store. fold (cell p i). destruct (Z.eqb_spec a (cell p i)) as [->|]; done.
Qed.
Lemma touches_load rs mem mem' p i : touches rs mem mem' -> Forall (fun r => ~ within r (cell p i)) rs -> load mem' p i = load mem p i.
Proof. intros H Hr. unfold load. fold (cell p i). by rewrite H. Qed.
Lemma load_store p i x mem : valid32 x -> load (store p i x mem) p i = x.
Proof. intros Hx. unfold load, store. by rewrite Z.eqb_refl, f32_of_bits_of. Qed.
Lemma load_store_ne p i q j x mem : cell q j <> cell p i -> load (store p i x mem) q j = load mem q j.
Proof. intros Hne. unfold load, store. fold (cell p i) (cell q j). by replace (cell q j =? cell p i) with false by lia. Qed.
Definition apart (r s : Z * nat) : Prop := r.1 + 4 * Z.of_nat r.2 <= s.1 \/ s.1 + 4 * Z.of_nat s.2 <= r.1.
(** The part of the array at [p] that begins at index [i]. *)
Definition part (p : Z) (i n : nat) : Z * nat := (cell p i, n).
Lemma part_cell p i n k : (i <= k < i + n)%nat -> within (part p i n) (cell p k).
Proof. unfold within, part, cell. cbn. lia. Qed.
Lemma apart_cell r s a : apart r s -> within r a -> ~ within s a.
Proof. unfold apart, within. lia. Qed.
Lemma apart_sym r s : apart r s -> apart s r.
Proof. unfold apart. lia. Qed.
Lemma apart_part p n q m i k j l : apart (p, n) (q, m) -> (i + k <= n)%nat -> (j + l <= m)%nat -> apart (part p i k) (part q j l).
Proof. unfold apart, part, cell. cbn. lia. Qed.
Lemma part_disjoint p i k j l : (i + k <= j \/ j + l <= i)%nat -> apart (part p i k) (part p j l).
Proof. unfold apart, part, cell. cbn. lia. Qed.
