(* ===== verification/Ownership.v ===== *)
(** * Tensors a function owns

    Functions of the runtime hold several CPU tensors at a time, give some back in the
    middle, return others and release all of them when they throw.  [grows h ts h'] says that
    the storage of [h'] is that of [h] with the tensors [ts] added: what such a function
    holds on the way, and in the end. *)

From stdpp Require Import gmap.
From S2P Require Import Prelude Float FloatBits Tiers Tensor KVCache HostMemory CpuTensorBackend NewTensor ArrayLoops.

#[local] Open Scope Z_scope.

(** The destructor of a tensor. *)
Definition buffer_of (t : Tensor) : DeviceBuffer := mkBuffer (default 0 (te_owner t)) (te_data t) (te_storageBytes t) (Some (CPU, 0)).
Definition drop_tensor (t : Tensor) : Host -> Host := drop_buffer (buffer_of t).
(** A tensor that goes out of scope when [m] ends, one way or the other. *)
Definition scoped {A} (t : Tensor) (m : ST Host A) : ST Host A := finally m (drop_tensor t).

Definition owner_of (t : Tensor) : Z := default 0 (te_owner t).
Definition blocks (ts : list Tensor) : gmap Z Z := list_to_map ((fun t => (te_data t, te_storageBytes t)) <$> ts).

(** A tensor of its own buffer, new since [h]. *)
Record owned (h : Host) (t : Tensor) : Prop := Owned {
  od_tensor : exists s d p o, shape_wf s /\ shape_isContiguous s = true /\
    t = mkTensor s d cpu p (elementCount s * dtype_sizeOf d) (storageElementCount s * dtype_sizeOf d) (Some o);
  od_data : 0 < te_data t /\ te_data t mod 64 = 0;
  od_new : live h !! te_data t = None /\ allocations h !! te_data t = None /\ owner_of t ∉ owners h;
}.

Record grows (h : Host) (ts : list Tensor) (h' : Host) : Prop := Grows {
  gr_wf : host_wf h';
  gr_live : live h' = blocks ts ∪ live h;
  gr_owners : owners h' = list_to_set (owner_of <$> ts) ∪ owners h;
  gr_table : allocations h' = blocks ts ∪ allocations h;
  gr_next : nextOwner h <= nextOwner h';
  gr_owned : Forall (owned h) ts;
  gr_data : NoDup (te_data <$> ts);
  gr_ids : NoDup (owner_of <$> ts);
}.

Lemma grows_refl h : host_wf h -> grows h [] h.
Proof. intros Hwf. constructor; cbn; rewrite ?map_empty_union, ?union_empty_l_L; try done; constructor. Qed.

Lemma grows_balanced h ts h1 h2 : grows h ts h1 -> balanced h1 h2 -> grows h ts h2.
Proof. intros [] []. constructor; try done; [congruence..|lia]. Qed.

Lemma blocks_cons t ts : blocks (t :: ts) = <[te_data t := te_storageBytes t]> (blocks ts).
Proof. done. Qed.
Lemma blocks_lookup ts p n : NoDup (te_data <$> ts) -> blocks ts !! p = Some n <-> exists t, t ∈ ts /\ te_data t = p /\ te_storageBytes t = n.
Proof.
  intros Hnd. unfold blocks. rewrite <- elem_of_list_to_map by (rewrite <- list_fmap_compose; exact Hnd).
  rewrite list_elem_of_fmap. split; [intros (t & [= -> ->] & Ht); by exists t|intros (t & Ht & <- & <-); by exists t].
Qed.

Lemma grows_none h : host_wf h -> forall h', grows h [] h' -> balanced h h'.
Proof.
  intros Hwf h' [Hwf' Hl Ho Ht Hn _ _ _]. unfold blocks in *. cbn in Hl, Ho, Ht. rewrite map_empty_union in Hl, Ht. rewrite union_empty_l_L in Ho. constructor; try done.
  by rewrite (hw_bytes _ Hwf'), (hw_bytes _ Hwf), Ht.
Qed.

(** The block of one of the tensors. *)
Lemma grows_block h ts h' t : grows h ts h' -> t ∈ ts -> live h' !! te_data t = Some (te_storageBytes t) /\ allocations h' !! te_data t = Some (te_storageBytes t).
Proof.
  intros [_ Hl _ Ht _ _ Hd _] Hin. assert (blocks ts !! te_data t = Some (te_storageBytes t)) as Hb by (apply blocks_lookup; [done|by exists t]).
  rewrite Hl, Ht. split; by apply lookup_union_Some_l.
Qed.

(** What [h] had is still there. *)
Lemma grows_apart h ts h' : grows h ts h' -> blocks ts ##ₘ live h.
Proof.
  intros [_ _ _ _ _ Ho Hd _]. apply map_disjoint_spec. intros p n m Hn Hm. apply blocks_lookup in Hn as (t & Ht & <- & _); [|done].
  rewrite Forall_forall in Ho. destruct (od_new _ _ (Ho t Ht)) as [Hnone _]. congruence.
Qed.
Lemma grows_live h ts h' p n : grows h ts h' -> live h !! p = Some n -> live h' !! p = Some n.
Proof. intros Hg Hl. rewrite (gr_live _ _ _ Hg). apply lookup_union_Some_r; [by eapply grows_apart|done]. Qed.
Lemma grows_placed h ts h' v : grows h ts h' -> placed h v -> placed h' v.
Proof.
  intros Hg (b & base & n & Hv & Ho & Hl & Hr). exists b, base, n. split; [done|]. split; [rewrite (gr_owners _ _ _ Hg); set_solver|].
  split; [by eapply grows_live|done].
Qed.
Lemma grows_usable h ts h' v : grows h ts h' -> usable h v -> usable h' v.
Proof.
  intros Hg [Hp ? ? ? ? (base & n & Hl & Hb)]. constructor; try done; [by eapply grows_placed|].
  exists base, n. split; [by eapply grows_live|done].
Qed.
Lemma grows_matrix h ts h' d v : grows h ts h' -> matrix h d v -> matrix h' d v.
Proof. intros Hg (Hu & Ht & Hr). split; [by eapply grows_usable|done]. Qed.
Lemma grows_expired h ts h' v : grows h ts h' -> placed h v -> expired (owners h') (lifetime_ v) = false.
Proof. intros Hg Hp. by eapply placed_alive, grows_placed. Qed.
Lemma grows_storage h ts h' a : grows h ts h' -> in_storage h a -> in_storage h' a.
Proof. intros Hg (p & n & Hl & Ha). exists p, n. split; [by eapply grows_live|done]. Qed.

(** Adding and dropping a tensor. *)
Lemma grows_fresh h ts h1 s d t h2 : grows h ts h1 -> shape_wf s -> shape_isContiguous s = true -> fresh_tensor h1 s d t h2 -> grows h (t :: ts) h2.
Proof.
  intros [Hwf Hl Ho Ht Hn Hf Hd Hi] Hs Hc [Hwf2 (b & Ha & Hsz & ->)].
  assert (live h1 !! bu_data b = None) as Hnone.
  { destruct (live h1 !! bu_data b) as [n|] eqn:Hb; [|done]. pose proof (aq_fresh _ _ _ Ha _ _ Hb) as Hap.
    assert (live h2 !! bu_data b = Some (bu_size b)) as Hb2 by (rewrite (aq_live _ _ _ Ha); apply lookup_insert_eq).
    destruct (hw_range h2 Hwf2 _ _ Hb2) as (_ & Hp & _), (hw_range h1 Hwf _ _ Hb) as (_ & Hq & _). unfold storage_apart in Hap. lia. }
  assert (forall t, t ∈ ts -> te_data t <> bu_data b /\ owner_of t <> bu_owner b) as Hne.
  { intros t Hin. split.
    - intros Heq. assert (blocks ts !! te_data t = Some (te_storageBytes t)) as Hb by (apply blocks_lookup; [done|by exists t]).
      rewrite Heq in Hb. rewrite Hl, (lookup_union_Some_l _ _ _ _ Hb) in Hnone. done.
    - intros Heq. apply (proj2 (aq_owners _ _ _ Ha)). rewrite <- Heq, Ho. apply elem_of_union_l, elem_of_list_to_set, list_elem_of_fmap_2. done. }
  destruct (aq_data _ _ _ Ha) as (H0 & H64 & _).
  assert (bu_owner b ∉ owners h) as Hnew by (intros Hin; apply (proj2 (aq_owners _ _ _ Ha)); rewrite Ho; by apply elem_of_union_r).
  constructor; try done.
  - rewrite (aq_live _ _ _ Ha), Hl, blocks_cons. cbn [te_data te_storageBytes]. by rewrite insert_union_l.
  - rewrite (proj1 (aq_owners _ _ _ Ha)), Ho, fmap_cons, list_to_set_cons. by rewrite union_assoc_L.
  - rewrite (aq_table _ _ _ Ha), Ht, blocks_cons. cbn [te_data te_storageBytes]. by rewrite insert_union_l.
  - rewrite (aq_next _ _ _ Ha). lia.
  - apply Forall_cons_2; [|done]. constructor; [exists s, d, (bu_data b), (bu_owner b); by rewrite Hsz|done|]. cbn [te_data].
    assert (allocations h1 !! bu_data b = None) as Hna by (by eapply lookup_weaken_None; [|apply Hwf]).
    rewrite Hl in Hnone. rewrite Ht in Hna. apply lookup_union_None in Hnone as [_ ?], Hna as [_ ?]. by split_and!.
  - cbn. apply NoDup_cons. split; [|done]. intros (t & Heq & Hin)%list_elem_of_fmap. by destruct (Hne t Hin).
  - cbn. apply NoDup_cons. split; [|done]. intros (t & Heq & Hin)%list_elem_of_fmap. by destruct (Hne t Hin).
Qed.

Lemma blocks_perm ts ts' : NoDup (te_data <$> ts) -> ts ≡ₚ ts' -> blocks ts = blocks ts'.
Proof.
  intros Hnd Hp. apply map_eq. intros p. apply option_eq. intros n.
  assert (NoDup (te_data <$> ts')) as Hnd' by (by rewrite <- Hp). rewrite !blocks_lookup by done. setoid_rewrite Hp. done.
Qed.
Lemma grows_perm h ts ts' h' : grows h ts h' -> ts ≡ₚ ts' -> grows h ts' h'.
Proof.
  intros [Hwf Hl Ho Ht Hn Hf Hd Hi] Hp. pose proof (blocks_perm ts ts' Hd Hp) as Hb.
  constructor; try done; [congruence| |congruence|by rewrite <- Hp..]. rewrite Ho. f_equal. apply leibniz_equiv. intros o.
  rewrite !elem_of_list_to_set. by rewrite Hp.
Qed.

Lemma grows_drop h t ts h1 : grows h (t :: ts) h1 -> grows h ts (drop_tensor t h1) /\ words (drop_tensor t h1) = words h1.
Proof.
  intros Hg. pose proof (grows_block h _ h1 t Hg ltac:(by left)) as [_ Ha]. pose proof (grows_apart _ _ _ Hg) as Hap.
  destruct Hg as [Hwf Hl Ho Ht Hn Hf Hd Hi]. apply Forall_cons in Hf as [Hf1 Hf]. cbn in Hd, Hi. apply NoDup_cons in Hd as [Hd1 Hd]. apply NoDup_cons in Hi as [Hi1 Hi].
  destruct (drop_buffer_spec (buffer_of t) h1 Hwf Ha) as [Hwf2 [Rw Rl Ro Rn Rt Rb _]]. split; [|done].
  assert (blocks ts !! te_data t = None) as Hnb.
  { destruct (blocks ts !! te_data t) eqn:Hb; [|done]. apply blocks_lookup in Hb as (t' & Hin & Heq & _); [|done].
    exfalso. apply Hd1. rewrite <- Heq. by apply list_elem_of_fmap_2. }
  destruct (od_new _ _ Hf1) as (Hnone & Hna & Hno). rewrite blocks_cons in Hl, Ht.
  unfold drop_tensor. constructor; try done.
  - rewrite Rl, Hl. cbn [bu_data buffer_of]. rewrite <- insert_union_l, delete_insert_id; [done|]. by apply lookup_union_None.
  - rewrite Ro, Ho. cbn [bu_owner buffer_of]. fold (owner_of t). cbn. apply leibniz_equiv. intros o.
    assert (owner_of t ∉ (list_to_set (owner_of <$> ts) : gset Z)) by (by rewrite elem_of_list_to_set). set_solver.
  - rewrite Rt, Ht. cbn [bu_data buffer_of]. rewrite <- insert_union_l, delete_insert_id; [done|]. by apply lookup_union_None.
  - rewrite Rn. lia.
Qed.

(** ** The owned tensors as operands *)

Lemma owned_storage h t : owned h t -> te_bytes t <= te_storageBytes t /\ te_bytes t = Z.of_nat (count (viewOf true t)) * dtype_sizeOf (te_dtype t) /\
  (0 < count (viewOf true t))%nat /\ te_device t = cpu /\ shape_wf (te_shape t) /\ shape_isContiguous (te_shape t) = true /\ te_owner t = Some (owner_of t).
Proof.
  intros [(s & d & p & o & Hs & Hc & ->) _ _]. cbn. pose proof (contiguous_count s Hs Hc) as Hn. destruct (sw_count s Hs) as [Hp _].
  pose proof (product_pos _ (sw_dims s Hs)). pose proof (dtype_sizeOf_pos d). unfold count. cbn. split_and!; try done; [nia|rewrite Z2Nat.id by lia; done|lia].
Qed.

Lemma owned_bytes h t : owned h t -> te_dtype t = FP32 -> bytes_ (viewOf true t) = 4 * Z.of_nat (count (viewOf true t)).
Proof. intros Ho Ht. destruct (owned_storage h t Ho) as (_ & Hb & _). rewrite Ht in Hb. cbn [dtype_sizeOf] in Hb. cbn [viewOf bytes_]. lia. Qed.

Lemma aligned_type p d : p mod 64 = 0 -> p mod dtype_sizeOf d = 0.
Proof.
  intros H64. pose proof (Z.div_mod p 64 ltac:(lia)) as Hd. rewrite H64, Z.add_0_r in Hd. rewrite Hd.
  apply Z.mod_divide; [pose proof (dtype_sizeOf_pos d); lia|]. apply Z.divide_mul_l. destruct d; [exists 16|exists 32|exists 32|exists 64]; done.
Qed.

Section owned_views.
Context (h : Host) (ts : list Tensor) (h' : Host) (Hg : grows h ts h').

Lemma owned_in t : t ∈ ts -> owned h t.
Proof. intros Hin. pose proof (gr_owned _ _ _ Hg) as Ho. rewrite Forall_forall in Ho. by apply Ho. Qed.

Lemma owned_alive t writable : t ∈ ts -> expired (owners h') (lifetime_ (viewOf writable t)) = false.
Proof.
  intros Hin. destruct (owned_storage h t (owned_in t Hin)) as (_ & _ & _ & _ & _ & _ & Ho). cbn. rewrite Ho. cbn.
  rewrite bool_decide_eq_true_2; [done|]. rewrite (gr_owners _ _ _ Hg). apply elem_of_union_l, elem_of_list_to_set, list_elem_of_fmap_2, Hin.
Qed.

Lemma owned_placed t writable : t ∈ ts -> placed h' (viewOf writable t).
Proof.
  intros Hin. destruct (grows_block _ _ _ t Hg Hin) as [Hl _]. pose proof (owned_in t Hin) as Ho.
  assert (owner_of t ∈ owners h') as How by (rewrite (gr_owners _ _ _ Hg); apply elem_of_union_l, elem_of_list_to_set, list_elem_of_fmap_2, Hin).
  destruct Ho as [(s & d & p & o & Hs & Hc & ->) [H0 H64] _]. cbn [te_data te_storageBytes] in *.
  destruct (sw_count s Hs) as [Hn _]. pose proof (product_pos _ (sw_dims s Hs)). pose proof (dtype_sizeOf_pos d). pose proof (contiguous_count s Hs Hc).
  exists (mkBuffer o p (storageElementCount s * dtype_sizeOf d) (Some (CPU, 0))), p, (storageElementCount s * dtype_sizeOf d).
  split; [|split; [done|split; [done|cbn; lia]]]. constructor; cbn; try done; try lia.
  - by apply aligned_type.
  - by destruct writable; [right|left].
Qed.

Lemma owned_usable t writable : t ∈ ts -> usable h' (viewOf writable t).
Proof.
  intros Hin. destruct (owned_storage h t (owned_in t Hin)) as (_ & Hb & Hc & Hd & _ & Hcon & _). pose proof (od_data _ _ (owned_in t Hin)) as [H0 _].
  apply usable_intro; [apply Hg|by apply owned_placed| |cbn; by rewrite Hd|done].
  unfold view_valid. rewrite owned_alive by done. cbn [viewOf data_ bytes_]. pose proof (dtype_sizeOf_pos (te_dtype t)).
  replace (te_data t =? 0) with false by lia. replace (te_bytes t =? 0) with false by nia. done.
Qed.

Lemma owned_writable t : t ∈ ts -> view_writable (owners h') (viewOf true t) = true.
Proof.
  intros Hin. pose proof (od_data _ _ (owned_in t Hin)) as [H0 _]. unfold view_writable. rewrite owned_alive by done. cbn [viewOf mutableData_].
  by replace (te_data t =? 0) with false by lia.
Qed.

Lemma owned_disjoint v t writable : usable h v -> t ∈ ts -> disjoint v (viewOf writable t).
Proof.
  intros [_ _ _ _ _ (base & n & Hl & Hb & He)] Hin. destruct (grows_block _ _ _ t Hg Hin) as [Ht _]. pose proof (owned_in t Hin) as Ho.
  destruct (owned_storage h t Ho) as (Hsz & _). destruct (od_new _ _ Ho) as (Hnone & _).
  assert (base <> te_data t) as Hne by (intros ->; congruence).
  pose proof (hw_apart _ (gr_wf _ _ _ Hg) _ _ _ _ (grows_live _ _ _ _ _ Hg Hl) Ht Hne) as Hap.
  unfold disjoint, storage_apart in *. cbn. lia.
Qed.

Lemma owned_apart t t' writable : t ∈ ts -> t' ∈ ts -> te_data t <> te_data t' -> disjoint (viewOf writable t) (viewOf writable t').
Proof.
  intros H1 H2 Hne. destruct (grows_block _ _ _ t Hg H1) as [L1 _], (grows_block _ _ _ t' Hg H2) as [L2 _].
  destruct (owned_storage h t (owned_in t H1)) as (S1 & _), (owned_storage h t' (owned_in t' H2)) as (S2 & _).
  pose proof (hw_apart _ (gr_wf _ _ _ Hg) _ _ _ _ L1 L2 Hne) as Hap. unfold disjoint, storage_apart in *. cbn. lia.
Qed.

Lemma owned_cells t a k : t ∈ ts -> te_dtype t = FP32 -> in_storage h a -> (k < count (viewOf true t))%nat -> a <> cell (te_data t) k.
Proof.
  intros Hin Ht (p & n & Hl & Ha) Hk. destruct (grows_block _ _ _ t Hg Hin) as [L1 _]. pose proof (owned_in t Hin) as Ho.
  destruct (owned_storage h t Ho) as (S1 & _). pose proof (owned_bytes h t Ho Ht) as Hb. cbn [viewOf bytes_] in Hb.
  destruct (od_new _ _ Ho) as (Hnone & _). assert (p <> te_data t) as Hne by (intros ->; congruence).
  pose proof (hw_apart _ (gr_wf _ _ _ Hg) _ _ _ _ (grows_live _ _ _ _ _ Hg Hl) L1 Hne) as Hap. unfold storage_apart, cell in *. lia.
Qed.
End owned_views.

(** ** Writing to an owned tensor *)

(** Of what is allocated, only words of [t] have changed. *)
Record wrote (t : Tensor) (h h' : Host) : Prop := Wrote {
  wr_balanced : balanced h h';
  wr_other : forall a, a mod 4 = 0 -> in_storage h a -> (forall k, (k < count (viewOf true t))%nat -> a <> cell (te_data t) k) -> words h' a = words h a;
}.
Lemma output_wrote h t value h' : output_written h (viewOf true t) value h' -> wrote t h h'.
Proof. intros Ho. constructor; [by eapply output_balanced|]. intros a _ _ Ha. destruct Ho as [_ _ Hw]. by apply Hw. Qed.
Lemma wrote_refl t h : host_wf h -> wrote t h h.
Proof. intros Hwf. constructor; [by apply balanced_refl|done]. Qed.
(** What was allocated in [h] holds what it held. *)
Definition keeps (h h' : Host) : Prop := forall a, a mod 4 = 0 -> in_storage h a -> words h' a = words h a.
Lemma keeps_words h h1 h2 : words h2 = words h1 -> keeps h h1 -> keeps h h2.
Proof. intros Hw Hk a Ha Hi. rewrite Hw. by apply Hk. Qed.

(** Of what is allocated, only words of the tensors [ws] have changed. *)
Record wrote_all (ws : list Tensor) (h h' : Host) : Prop := WroteAll {
  wa_balanced : balanced h h';
  wa_other : forall a, a mod 4 = 0 -> in_storage h a ->
    Forall (fun t => forall k, (k < count (viewOf true t))%nat -> a <> cell (te_data t) k) ws -> words h' a = words h a;
}.
Lemma wrote_one t h h' : wrote t h h' -> wrote_all [t] h h'.
Proof. intros [Hb Hw]. constructor; [done|]. intros a Ha Hi [Hno _]%Forall_cons. by apply Hw. Qed.

Section written_views.
Context (h : Host) (ts : list Tensor) (h1 h2 : Host) (Hg : grows h ts h1) (ws : list Tensor) (Hin : ws ⊆ ts).
Context (Ht : Forall (fun t => te_dtype t = FP32) ws) (Hw : wrote_all ws h1 h2).

Lemma wrote_all_grows : grows h ts h2.
Proof. eapply grows_balanced; [done|apply Hw]. Qed.
Lemma wrote_all_keeps : keeps h h1 -> keeps h h2.
Proof.
  intros Hk a Ha Hi. rewrite (wa_other _ _ _ Hw); [by apply Hk|done|by eapply grows_storage|]. rewrite Forall_forall in Ht |- *. intros t Hm k Hlt.
  apply (owned_cells h ts h1 Hg t a k); auto.
Qed.
Lemma wrote_all_values t' : t' ∈ ts -> Forall (fun t => te_data t' <> te_data t) ws -> te_dtype t' = FP32 ->
  values (words h2) (viewOf true t') = values (words h1) (viewOf true t').
Proof.
  intros Hin' Hne Ht'. apply list_fmap_ext. intros i k [-> Hk]%lookup_seq. rewrite Nat.add_0_l. unfold load. f_equal.
  apply (wa_other _ _ _ Hw).
  - cbn [viewOf data_]. pose proof (od_data _ _ (owned_in _ _ _ Hg _ Hin')) as [_ H64]. pose proof (aligned_type _ FP32 H64) as H4. cbn [dtype_sizeOf] in H4.
    by rewrite Z.mul_comm, Z.mod_add by lia.
  - destruct (grows_block _ _ _ t' Hg Hin') as [Hl _]. exists (te_data t'), (te_storageBytes t'). split; [done|].
    pose proof (owned_bytes h _ (owned_in _ _ _ Hg _ Hin') Ht') as Hb. destruct (owned_storage h _ (owned_in _ _ _ Hg _ Hin')) as (Hle & _).
    cbn [viewOf data_ bytes_] in *. lia.
  - rewrite Forall_forall in Ht, Hne |- *. intros t Hm j Hj. pose proof (Hin t Hm) as Hit.
    pose proof (owned_apart _ _ _ Hg t' t true Hin' Hit (Hne t Hm)) as Hd. pose proof (owned_bytes h _ (owned_in _ _ _ Hg _ Hin') Ht').
    pose proof (owned_bytes h _ (owned_in _ _ _ Hg _ Hit) (Ht t Hm)). unfold disjoint, cell in *. cbn [viewOf data_ bytes_] in *. lia.
Qed.
End written_views.

Section written_view.
Context (h : Host) (ts : list Tensor) (h1 h2 : Host) (Hg : grows h ts h1) (t : Tensor) (Hin : t ∈ ts) (Ht : te_dtype t = FP32) (Hw : wrote t h1 h2).

Lemma wrote_grows : grows h ts h2.
Proof. eapply grows_balanced; [done|apply Hw]. Qed.
Lemma wrote_keeps : keeps h h1 -> keeps h h2.
Proof. apply (wrote_all_keeps h ts h1 h2 Hg [t]); [set_solver|by constructor|by apply wrote_one]. Qed.
Lemma wrote_values t' : t' ∈ ts -> te_data t' <> te_data t -> te_dtype t' = FP32 -> values (words h2) (viewOf true t') = values (words h1) (viewOf true t').
Proof. intros Hin' Hne. apply (wrote_all_values h ts h1 h2 Hg [t]); [set_solver|by constructor|by apply wrote_one|done|by constructor]. Qed.
End written_view.

(** Storage at word boundaries, as every allocation of the program is. *)
Definition storage_aligned (h : Host) : Prop := map_Forall (fun p _ => p mod 4 = 0) (live h).

Section kept_views.
Context (h h' : Host) (Ha : storage_aligned h) (Hk : keeps h h') (v : TensorView) (Hu : usable h v).

Lemma kept_word a : data_ v <= a < data_ v + bytes_ v -> words h' (a - a mod 4) = words h (a - a mod 4).
Proof.
  intros Hr. destruct (us_storage _ _ Hu) as (base & n & Hl & Hb & He). pose proof (Ha _ _ Hl) as H4. cbv beta in H4.
  pose proof (Z.div_mod a 4 ltac:(lia)). pose proof (Z.mod_pos_bound a 4 ltac:(lia)). pose proof (Z.div_mod base 4 ltac:(lia)).
  apply Hk; [replace (a - a mod 4) with (a / 4 * 4) by lia; apply Z.mod_mul; lia|]. exists base, n. split; [done|]. lia.
Qed.
Lemma kept_byte a : data_ v <= a < data_ v + bytes_ v -> byte_at (words h') a = byte_at (words h) a.
Proof. intros Hr. unfold byte_at. by rewrite kept_word. Qed.
Lemma kept_values : dtype_ v = FP32 -> values (words h') v = values (words h) v.
Proof.
  intros Hd. apply list_fmap_ext. intros i k [-> Hi]%lookup_seq. rewrite Nat.add_0_l. unfold load. f_equal.
  destruct (us_bytes _ _ Hu) as [Hb _]. pose proof (us_aligned _ _ Hu) as H4. rewrite Hd in Hb, H4. cbn [dtype_sizeOf] in Hb, H4.
  pose proof (kept_word (data_ v + 4 * Z.of_nat i) ltac:(lia)) as Hw.
  replace ((data_ v + 4 * Z.of_nat i) mod 4) with 0 in Hw by (rewrite (Z.mul_comm 4), Z.mod_add by lia; done). by rewrite Z.sub_0_r in Hw.
Qed.
Lemma kept_dequantized p : dtype_ v = INT8 -> dequantized p (words h') v = dequantized p (words h) v.
Proof.
  intros Hd. apply list_fmap_ext. intros i k [-> Hi]%lookup_seq. rewrite Nat.add_0_l. unfold int8_weight, load_int8.
  destruct (us_bytes _ _ Hu) as [Hb _]. rewrite Hd in Hb. cbn [dtype_sizeOf] in Hb. rewrite kept_byte by lia. done.
Qed.
End kept_views.

(** ** Scopes *)

Lemma wp_scoped {A} t (m : ST Host A) h Q E :
  wp m h (fun a h1 => Q a (drop_tensor t h1)) (fun e h1 => E e (drop_tensor t h1)) -> wp (scoped t m) h Q E.
Proof. unfold wp, scoped, finally. by destruct (m h) as [[a|e|] h1]. Qed.
Lemma wp_kept {A} t (m : ST Host A) h Q E : wp m h Q (fun e h1 => E e (drop_tensor t h1)) -> wp (keeping t m) h Q E.
Proof. unfold wp, keeping. by destruct (m h) as [[a|e|] h1]. Qed.

Lemma set_words_balanced h f : host_wf h -> words_ok (f (words h)) -> balanced h (set_words f h).
Proof. intros Hwf Hok. constructor; try done. destruct Hwf. by constructor. Qed.

(** The owned floats hold what they held. *)
Definition undisturbed (ts : list Tensor) (h1 h2 : Host) : Prop :=
  forall t, t ∈ ts -> te_dtype t = FP32 -> values (words h2) (viewOf true t) = values (words h1) (viewOf true t).
Lemma undisturbed_words ts h1 h2 : words h2 = words h1 -> undisturbed ts h1 h2.
Proof. intros Hw t _ _. by rewrite Hw. Qed.
Lemma undisturbed_trans ts h1 h2 h3 : undisturbed ts h1 h2 -> undisturbed ts h2 h3 -> undisturbed ts h1 h3.
Proof. intros H1 H2 t Hin Ht. by rewrite H2, H1. Qed.
Lemma undisturbed_sub ts ts' h1 h2 : ts' ⊆ ts -> undisturbed ts h1 h2 -> undisturbed ts' h1 h2.
Proof. intros Hs Hu t Hin. apply Hu. by apply Hs. Qed.

Lemma grows_distinct h t ts h' t' : grows h (t :: ts) h' -> t' ∈ ts -> te_data t' <> te_data t.
Proof.
  intros Hg Hin Heq. pose proof (gr_data _ _ _ Hg) as Hd. cbn in Hd. apply NoDup_cons in Hd as [Hn _]. apply Hn. rewrite <- Heq. by apply list_elem_of_fmap_2.
Qed.
Lemma wrote_undisturbed h t ts h1 h2 : grows h (t :: ts) h1 -> te_dtype t = FP32 -> wrote t h1 h2 -> undisturbed ts h1 h2.
Proof.
  intros Hg Ht Hw t' Hin Ht'. apply (wrote_values h (t :: ts) h1 h2 Hg t ltac:(by left) Ht Hw t'); [by right| |done]. by eapply grows_distinct.
Qed.
Lemma wrote_cells h1 h2 t f : host_wf h1 -> words_ok (f (words h1)) -> h2 = set_words f h1 ->
  (forall a, a mod 4 = 0 -> (forall k, (k < count (viewOf true t))%nat -> a <> cell (te_data t) k) -> f (words h1) a = words h1 a) -> wrote t h1 h2.
Proof. intros Hwf Hok -> Ho. constructor; [by apply set_words_balanced|]. intros a Ha _ Hno. by apply Ho. Qed.

Lemma zero_fill h h1 ts t : grows h ts h1 -> t ∈ ts -> te_dtype t = FP32 ->
  let h2 := set_words (fill (te_data t) (fun _ _ => f32_zero) (seq 0 (count (viewOf true t)))) h1 in
  wrote t h1 h2 /\ values (words h2) (viewOf true t) = (fun _ => f32_zero) <$> seq 0 (count (viewOf true t)).
Proof.
  intros Hg Hin Ht. cbv zeta. set (h2 := set_words _ h1).
  assert (output_written h1 (viewOf true t) (fun _ => f32_zero) h2) as Hw.
  { apply output_written_intro; [apply Hg|]. apply (fill_written (data_ (viewOf true t)) (fun _ _ => f32_zero)); [apply Hg|by intros|done]. }
  split; [by eapply output_wrote|]. exact (values_written _ _ _ _ Hw).
Qed.

(** Updates of the floats of several tensors. *)
Definition floats_of (t : Tensor) : Z * nat := (te_data t, count (viewOf true t)).
Lemma own_touches h ts h1 ws mem' : grows h ts h1 -> ws ⊆ ts -> words_ok mem' -> touches (floats_of <$> ws) (words h1) mem' ->
  wrote_all ws h1 (set_words (fun _ => mem') h1).
Proof.
  intros Hg Hin Hok Ht. constructor; [by apply set_words_balanced; [apply Hg|]|]. intros a Ha _ Hno. apply Ht. rewrite Forall_fmap. rewrite Forall_forall in Hno |- *.
  intros t Hm Hw. unfold within, floats_of in Hw. cbn [compose fst snd] in Hw. pose proof (od_data _ _ (owned_in _ _ _ Hg t (Hin t Hm))) as [_ H64].
  pose proof (aligned_type _ FP32 H64) as H4. cbn [dtype_sizeOf] in H4. apply (Hno t Hm (Z.to_nat ((a - te_data t) / 4))); [|unfold cell];
    pose proof (Z.div_mod a 4 ltac:(lia)); pose proof (Z.div_mod (te_data t) 4 ltac:(lia)); assert ((a - te_data t) / 4 = a / 4 - te_data t / 4) as -> by (symmetry; apply Z.div_unique_exact; lia); lia.
Qed.

Section steps.
Context `{HA : HostAllocator} `{HL : !HostAllocatorLaws}.

Lemma own_alloc h ts h1 s d : grows h ts h1 -> shape_wf s -> shape_isContiguous s = true ->
  wp (allocateTensor s d) h1
    (fun t h2 => grows h (t :: ts) h2 /\ words h2 = words h1 /\ te_shape t = s /\ te_dtype t = d /\ te_device t = cpu)
    (fun e h2 => allocation_error e /\ h2 = h1).
Proof.
  intros Hg Hs Hc. eapply wp_mono; [by apply allocateTensor_spec; [apply Hg|..]| |done]. intros t h2 Hf. split; [by eapply grows_fresh|].
  split; [by eapply fresh_words|]. by destruct Hf as [_ (b & _ & _ & ->)].
Qed.

Lemma own_copy h ts h1 v t : grows h ts h1 -> t ∈ ts -> te_dtype t = FP32 -> usable h1 v -> dtype_ v = FP32 -> shape_ v = te_shape t ->
  wp (copyTensor v (viewOf true t)) h1
    (fun _ h2 => wrote t h1 h2 /\ values (words h2) (viewOf true t) = values (words h1) v)
    (fun _ _ => False).
Proof.
  intros Hg Hin Ht Hu Hd Hs. pose proof (owned_usable _ _ _ Hg t true Hin) as Hut.
  eapply wp_mono; [apply copyTensor_spec; [apply Hg|apply Hu|apply Hut|done]| |].
  - intros _ h2 (_ & -> & Hwf & Hv & Ho). split; [|done]. constructor; [by constructor|]. intros a Ha _ Hno. by apply Ho.
  - intros e h2 [_ Hn]. apply Hn. constructor; [done|by split; [rewrite Hd|]|by apply (owned_writable _ _ _ Hg)].
Qed.

(** The product of two matrices, to an owned tensor. *)
Lemma own_matmul h ts h1 left right t : grows h ts h1 -> t ∈ ts -> te_dtype t = FP32 -> rank (te_shape t) = 2%nat ->
  matrix h1 FP32 left -> matrix h1 FP32 right -> disjoint left (viewOf true t) -> disjoint right (viewOf true t) ->
  dim right 0 = dim left 1 -> dim (viewOf true t) 0 = dim left 0 -> dim (viewOf true t) 1 = dim right 1 ->
  wp (matmul left right (viewOf true t)) h1
    (fun _ h2 => wrote t h1 h2 /\
       values (words h2) (viewOf true t) = matrix_product (dims left 0) (dims left 1) (dims right 1) (values (words h1) left) (values (words h1) right))
    (fun _ _ => False).
Proof.
  intros Hg Hin Ht Hr Ml Mr Dl Dr E1 E2 E3. pose proof (owned_usable _ _ _ Hg t true Hin) as Ut. pose proof Ml as (Ul & Tl & _). pose proof Mr as (Ur & Tr & _).
  eapply wp_mono; [apply matmul_spec; [apply Hg|apply Ul|apply Ur|apply Ut|done|done]| |].
  - intros _ h2 (_ & value & Hw & Hv). split; [|done]. by eapply output_wrote.
  - intros e h2 [_ Hn]. apply Hn. constructor; [done|done|split; [by split|by apply (owned_writable _ _ _ Hg)]|done|].
    destruct (us_bytes _ _ Ul) as [Bl Cl], (us_bytes _ _ Ur) as [Br Cr], (us_bytes _ _ Ut) as [Bt Ct].
    assert (dtype_ (viewOf true t) = FP32) as Tt by done. rewrite Tl in Bl. rewrite Tr in Br. rewrite Tt in Bt. cbn [dtype_sizeOf] in *.
    unfold disjoint in Dl, Dr. split; intros Heq; rewrite Heq in *; lia.
Qed.

Lemma own_synchronize h ts h1 E : grows h ts h1 -> wp synchronize h1 (fun _ h2 => grows h ts h2 /\ words h2 = words h1) E.
Proof.
  intros Hg. unfold synchronize, cpu_synchronize. wp_step. split; [|done]. eapply grows_balanced; [exact Hg|].
  pose proof (gr_wf _ _ _ Hg) as Hwf. constructor; try done. destruct Hwf. by constructor.
Qed.

(** Dropping a tensor that is not the last one. *)
Lemma own_drop h t t' ts h1 : grows h (t' :: t :: ts) h1 -> grows h (t' :: ts) (drop_tensor t h1) /\ words (drop_tensor t h1) = words h1.
Proof. intros Hg. apply grows_drop. eapply grows_perm; [done|]. constructor. Qed.
End steps.
