(* ===== verification/Norm.v ===== *)
(** * RMS normalization

    [src/transformer/norm/RMSNorm.cpp] and [src/transformer/output/FinalNorm.cpp], which
    delegates to it, on the CPU tensor backend. *)

From Stdlib Require Import SpecFloat.
From S2P Require Import Prelude Float FloatBits Tiers Tensor KVCache HostMemory CpuTensorBackend SampleHost NewTensor ArrayLoops.

#[local] Open Scope Z_scope.

Definition f64_sqrt : f64 -> f64 := SFsqrt 53 1024.

Record RMSNorm : Type := mkRMSNorm { hiddenDimension_ : Z; epsilon_ : f32 }.

Definition newRMSNorm (hiddenDimension : Z) (epsilon : f32) : result RMSNorm :=
  (throw_if ((hiddenDimension =? 0) || negb (isfinite epsilon) || fle epsilon f32_zero)
     (Exn InvalidArgument "RMSNorm configuration is invalid") ;;?
   Ok (mkRMSNorm hiddenDimension epsilon))%res.

(** The sum of the squares of [n] floats at index [first], and what a row is scaled by. *)
Definition square_sum (x : nat -> f32) (first n : nat) : f64 :=
  foldl (fun sum i => let value := f64_of_f32 (x (first + i)%nat) in f64_add sum (f64_mul value value)) f64_zero (seq 0 n).
Definition inverse_rms (n : Z) (epsilon : f32) (squareSum : f64) : f64 :=
  f64_div f64_one (f64_sqrt (f64_add (f64_div squareSum (f64_of_Z n)) (f64_of_f32 epsilon))).
Definition scaled (x : f32) (inverseRms : f64) (scale : f32) : f32 :=
  f32_of_f64 (f64_mul (f64_mul (f64_of_f32 x) inverseRms) (f64_of_f32 scale)).

Section norm.
Context `{HA : HostAllocator}.

Definition norm_execute (n : RMSNorm) (input weight : TensorView) : ST Host Tensor :=
  (h <- st_get ;;
   lift (throw_if (expired (owners h) (lifetime_ input) || expired (owners h) (lifetime_ weight) ||
                   negb (view_valid (owners h) input) || negb (view_valid (owners h) weight) ||
                   negb (bool_decide (device_ input = cpu)) || negb (bool_decide (device_ weight = cpu)) ||
                   negb (bool_decide (dtype_ input = FP32)) || negb (bool_decide (dtype_ weight = FP32)) ||
                   negb (view_isContiguous input) || negb (view_isContiguous weight) ||
                   negb (rank (shape_ input) =? 2)%nat || negb (rank (shape_ weight) =? 1)%nat ||
                   negb (dim input 1 =? hiddenDimension_ n) || negb (dim weight 0 =? hiddenDimension_ n))
     (Exn InvalidArgument "RMSNorm requires compatible contiguous backend FP32 tensors"))%res ;;;
   output <- allocateTensor (shape_ input) FP32 ;;
   let hidden := Z.to_nat (hiddenDimension_ n) in
   modify (set_words (fun mem =>
     row_loop (te_data output) (dims input 0) hidden mem (fun m m' token i =>
       let inverseRms := inverse_rms (hiddenDimension_ n) (epsilon_ n) (square_sum (load m (data_ input)) (token * hidden) hidden) in
       scaled (load m' (data_ input) (token * hidden + i)) inverseRms (load m' (data_ weight) i)))) ;;;
   ret output)%st.

(** [FinalNorm] *)
Definition newFinalNorm (hiddenDimension : Z) (epsilon : f32) : result RMSNorm := newRMSNorm hiddenDimension epsilon.
Definition final_norm_execute (n : RMSNorm) (hiddenStates weights : TensorView) : ST Host Tensor := norm_execute n hiddenStates weights.
End norm.

(** ** The normalization of a matrix *)

(** Row by row, [x / sqrt(mean(x^2) + epsilon) * weight]. *)
Definition rms_normalized (hidden : nat) (epsilon : f32) (x weight : list f32) (k : nat) : f32 :=
  let row := (k / hidden)%nat in
  scaled (nth k x f32_zero) (inverse_rms (Z.of_nat hidden) epsilon (square_sum (fun i => nth i x f32_zero) (row * hidden) hidden))
    (nth (k mod hidden) weight f32_zero).

Lemma scaled_valid x i s : valid32 (scaled x i s).
Proof. apply f32_of_f64_valid. Qed.
#[export] Hint Resolve scaled_valid : valid.

Lemma square_sum_ext x y first n : (forall i, (i < n)%nat -> x (first + i)%nat = y (first + i)%nat) -> square_sum x first n = square_sum y first n.
Proof. intros H. apply foldl_ext_in. intros s i [_ Hi]%elem_of_seq. by rewrite H by lia. Qed.

Record norm_fits (h : Host) (n : RMSNorm) (input weight : TensorView) : Prop := NormFits {
  nf_input : matrix h FP32 input /\ device_ input = cpu;
  nf_weight : vector h weight /\ device_ weight = cpu;
  nf_hidden : dim input 1 = hiddenDimension_ n /\ dim weight 0 = hiddenDimension_ n;
}.

Section proofs.
Context `{HA : HostAllocator} `{HL : !HostAllocatorLaws}.

Lemma norm_check_spec h n input weight : host_wf h -> placed h input -> placed h weight ->
  (expired (owners h) (lifetime_ input) || expired (owners h) (lifetime_ weight) ||
   negb (view_valid (owners h) input) || negb (view_valid (owners h) weight) ||
   negb (bool_decide (device_ input = cpu)) || negb (bool_decide (device_ weight = cpu)) ||
   negb (bool_decide (dtype_ input = FP32)) || negb (bool_decide (dtype_ weight = FP32)) ||
   negb (view_isContiguous input) || negb (view_isContiguous weight) ||
   negb (rank (shape_ input) =? 2)%nat || negb (rank (shape_ weight) =? 1)%nat ||
   negb (dim input 1 =? hiddenDimension_ n) || negb (dim weight 0 =? hiddenDimension_ n)) = false <-> norm_fits h n input weight.
Proof.
  intros Hwf Hi Hw. rewrite (placed_alive h input Hi), (placed_alive h weight Hw). rewrite !orb_false_iff, !negb_false_iff, !bool_decide_eq_true, !Nat.eqb_eq, !Z.eqb_eq.
  split.
  - intros ((((((((((((( _ & _) & Vi) & Vw) & Di) & Dw) & Ti) & Tw) & Ci) & Cw) & Ri) & Rw) & E1) & E2).
    assert (usable h input) as Ui by (apply usable_intro; try done; by rewrite Di).
    assert (usable h weight) as Uw by (apply usable_intro; try done; by rewrite Dw). done.
  - intros [[(Ui & Ti & Ri) Di] [(Uw & Tw & Rw) Dw] [E1 E2]]. rewrite (usable_valid h input Hwf Ui), (usable_valid h weight Hwf Uw).
    split_and!; try done; [apply (us_contiguous _ _ Ui)|apply (us_contiguous _ _ Uw)].
Qed.

(** C19: RMS normalization returns a new tensor of the input's shape that holds, row by row,
    the input over the root of its mean square plus epsilon, times the weights, each value
    rounded as the source rounds it; nothing that was allocated changes. It is refused
    exactly when the operands are not a float matrix and a float vector of the hidden
    dimension on the CPU, fails otherwise only for lack of memory, and a failed call changes
    nothing. *)
Theorem rms_norm_exact h n input weight :
  host_wf h -> placed h input -> placed h weight ->
  returns_new h (norm_fits h n input weight) (shape_ input)
    (rms_normalized (Z.to_nat (hiddenDimension_ n)) (epsilon_ n) (values (words h) input) (values (words h) weight) <$> seq 0 (count input))
    (norm_execute n input weight h).
Proof.
  intros Hwf Pi Pw. set (l := _ <$> seq 0 (count input)).
  assert (wp (norm_execute n input weight) h (fun t h' => norm_fits h n input weight /\ new_tensor h (shape_ input) l t h')
    (fun e h' => h' = h /\ (kind_of e = InvalidArgument /\ ~ norm_fits h n input weight \/ norm_fits h n input weight /\ allocation_error e))) as H; [|exact H].
  unfold norm_execute. wp_step. wp_step. wp_step. apply wp_lift. pose proof (norm_check_spec h n input weight Hwf Pi Pw) as Hcheck.
  match goal with |- context [throw_if ?c _] => destruct c eqn:Hc end; cbn [throw_if].
  { split; [done|]. left. split; [done|]. intros Hf%Hcheck. congruence. }
  assert (norm_fits h n input weight) as Hf by (by apply Hcheck). clear Hcheck Hc. pose proof Hf as [[Mi _] [Vw _] [E1 E2]]. pose proof Mi as (Ui & Ti & _). pose proof Vw as (Uw & Tw & _).
  assert (shape_wf (shape_ input)) as Hs by (destruct Pi as (b & _ & _ & Hw & _); apply (vw_shape _ _ Hw)).
  pose proof (us_contiguous _ _ Ui) as Hcon. set (hidden := Z.to_nat (hiddenDimension_ n)).
  assert (dims input 1 = hidden /\ dims weight 0 = hidden) as [D1 D2] by (unfold dims; by rewrite E1, E2).
  pose proof (count_matrix _ _ _ Mi) as Ci. pose proof (count_vector _ _ Vw) as Cw. rewrite D1 in Ci. rewrite D2 in Cw.
  pose proof (matrix_dims _ _ _ 1%nat Mi ltac:(lia)) as Hpos. rewrite E1 in Hpos.
  eapply wp_mono; [apply (fill_new_spec (shape_ input) _ (rms_normalized hidden (epsilon_ n) (values (words h) input) (values (words h) weight)) h Hwf Hs Hcon)| |].
  - intros t h1 Ht. pose proof (fresh_count _ _ _ _ _ Ht) as Hn. fold (count input) in Hn. apply output_written_intro; [apply Ht|].
    rewrite Hn, Ci. change (data_ (viewOf true t)) with (te_data t). apply row_loop_written; [lia|apply Ht| |].
    + intros k. unfold rms_normalized. apply scaled_valid.
    + intros m m' row column Hr Hcol Hm Hm'. rewrite <- Ci, <- Hn in Hm, Hm'. cbv zeta.
      assert (forall m i, same_outside (te_data t) (count (viewOf true t)) (words h1) m -> (i < dims input 0 * hidden)%nat ->
        load m (data_ input) i = nth i (values (words h) input) f32_zero) as Hin.
      { intros m0 i H0 Hi. rewrite values_lookup by lia. apply (fresh_reads h (shape_ input) t h1 input m0 i); try done. lia. }
      assert (load m' (data_ weight) column = nth column (values (words h) weight) f32_zero) as Hwt.
      { rewrite values_lookup by lia. apply (fresh_reads h (shape_ input) t h1 weight m' column); try done. lia. }
      rewrite (Hin m') by (done || nia). rewrite Hwt. unfold rms_normalized. rewrite Nat.div_add_l, (Nat.div_small column hidden), Nat.add_0_r by lia.
      rewrite (Nat.add_comm (row * hidden) column), Nat.Div0.mod_add, (Nat.mod_small column) by lia. rewrite (Nat.add_comm column). f_equal.
      f_equal; [unfold hidden; lia|]. apply square_sum_ext. intros i Hi. apply Hin; [done|nia].
  - intros t h' Hnew. split; [done|]. unfold l. exact Hnew.
  - intros e h' [He ->]. split; [done|]. by right.
Qed.
End proofs.

(** The row [1; 2] with unit weights: [0.63245547; 1.2649109]. *)
Definition sample_norm : RMSNorm := mkRMSNorm 2 (f32_of_bits 897988541).
Lemma rms_norm_exact_witness :
  exists t h', norm_execute sample_norm (sample_matrix 1 1024 1 2 FP32 false) (sample_vector 4 4096 2 false) sample_host = (Ok t, h') /\
    values (words h') (viewOf true t) = f32_of_bits <$> [1059186841; 1067575449].
Proof.
  pose proof (rms_norm_exact sample_host sample_norm (sample_matrix 1 1024 1 2 FP32 false) (sample_vector 4 4096 2 false) sample_host_wf
    ltac:(by eapply (sample_placed 1)) ltac:(by eapply (sample_vector_placed 4))) as H. unfold returns_new in H.
  assert (exists t, fst (norm_execute sample_norm (sample_matrix 1 1024 1 2 FP32 false) (sample_vector 4 4096 2 false) sample_host) = Ok t) as [t Ht]
    by (eexists; vm_compute; reflexivity).
  destruct (norm_execute _ _ _ _) as [r h']. cbn [fst] in Ht. subst r. destruct H as [_ H]. exists t, h'. split; [done|].
  rewrite (nt_values _ _ _ _ _ H). vm_compute. reflexivity.
Defined.
