(* ===== verification/Embedding.v ===== *)
(** * Token embeddings

    [src/transformer/embedding/Embedding.cpp] on the CPU tensor backend. *)

From S2P Require Import Prelude Float FloatBits Tiers Tensor KVCache HostMemory CpuTensorBackend SampleHost NewTensor ArrayLoops.

#[local] Open Scope Z_scope.

Record Embedding : Type := mkEmbedding { vocabularySize_ : Z; embeddingDimension_ : Z }.

Definition newEmbedding (vocabularySize hiddenDimension : Z) : result Embedding :=
  (throw_if ((vocabularySize =? 0) || (hiddenDimension =? 0))
     (Exn InvalidArgument "embedding requires an available backend and nonzero dimensions") ;;?
   Ok (mkEmbedding vocabularySize hiddenDimension))%res.

(** The [memcpy] of each token's row. *)
Definition copy_rows (table destination : Z) (hidden : Z) (tokenIds : list Z) (mem : Z -> Z) : Z -> Z :=
  foldl (fun mem token => memmove (destination + 4 * (Z.of_nat token * hidden)) (table + 4 * (nth token tokenIds 0 * hidden)) (hidden * 4) mem)
    mem (seq 0 (length tokenIds)).

Section embedding.
Context `{HA : HostAllocator}.

Definition embedding_execute (e : Embedding) (tokenIds : list Z) (weights : TensorView) : ST Host Tensor :=
  (h <- st_get ;;
   let requires := Exn InvalidArgument "embedding requires a contiguous vocabulary-by-hidden FP32 tensor" in
   lift (throw_if (expired (owners h) (lifetime_ weights) || (match tokenIds with [] => true | _ => false end) ||
                   negb (view_valid (owners h) weights) || negb (view_isContiguous weights) ||
                   negb (bool_decide (device_ weights = cpu)) || negb (bool_decide (dtype_ weights = FP32))) requires)%res ;;;
   expected <- lift (contiguousShape [vocabularySize_ e; embeddingDimension_ e]) ;;
   lift (throw_if (negb (bool_decide (shape_ weights = expected))) requires)%res ;;;
   lift (throw_if (negb (forallb (fun tokenId => tokenId <? vocabularySize_ e) tokenIds))
           (Exn OutOfRange "token ID exceeds embedding vocabulary"))%res ;;;
   shape <- lift (contiguousShape [Z.of_nat (length tokenIds); embeddingDimension_ e]) ;;
   output <- allocateTensor shape FP32 ;;
   modify (set_words (copy_rows (data_ weights) (te_data output) (embeddingDimension_ e) tokenIds)) ;;;
   ret output)%st.
End embedding.

(** ** The rows of the table *)

Definition embedded (hidden : nat) (tokenIds : list Z) (table : list f32) : list f32 :=
  (fun k => nth (Z.to_nat (nth (k / hidden) tokenIds 0%Z) * hidden + k mod hidden) table f32_zero) <$> seq 0 (length tokenIds * hidden).

(** The rows copied so far. *)
Lemma copy_rows_spec table destination (hidden : nat) tokenIds vocabulary mem :
  (0 < hidden)%nat -> words_ok mem -> table mod 4 = 0 -> destination mod 4 = 0 ->
  Forall (fun id => 0 <= id < Z.of_nat vocabulary) tokenIds ->
  table + 4 * Z.of_nat (vocabulary * hidden) <= destination \/ destination + 4 * Z.of_nat (length tokenIds * hidden) <= table ->
  let mem' := copy_rows table destination (Z.of_nat hidden) tokenIds mem in
  words_ok mem' /\
  (forall k, (k < length tokenIds * hidden)%nat ->
     mem' (cell destination k) = mem (cell table (Z.to_nat (nth (k / hidden) tokenIds 0) * hidden + k mod hidden))) /\
  (forall a, a mod 4 = 0 -> (forall k, (k < length tokenIds * hidden)%nat -> a <> cell destination k) -> mem' a = mem a).
Proof.
  intros Hh Hm Ht Hd Hids Hap. unfold copy_rows.
  assert (forall n, (n <= length tokenIds)%nat ->
    let m := foldl (fun mem token => memmove (destination + 4 * (Z.of_nat token * Z.of_nat hidden)) (table + 4 * (nth token tokenIds 0 * Z.of_nat hidden)) (Z.of_nat hidden * 4) mem) mem (seq 0 n) in
    words_ok m /\ (forall k, (k < n * hidden)%nat -> m (cell destination k) = mem (cell table (Z.to_nat (nth (k / hidden) tokenIds 0) * hidden + k mod hidden))) /\
    (forall a, a mod 4 = 0 -> (forall k, (k < n * hidden)%nat -> a <> cell destination k) -> m a = mem a)) as H; [|by apply H].
  induction n as [|n IH]; intros Hn; [split; [done|split; [intros k Hk; lia|done]]|].
  destruct (IH ltac:(lia)) as (Hm1 & Hc1 & Ho1). rewrite seq_S, foldl_app. cbn [foldl]. rewrite Nat.add_0_l. set (m1 := foldl _ mem (seq 0 n)) in *.
  set (id := nth n tokenIds 0). assert (0 <= id < Z.of_nat vocabulary) as Hid by (eapply (proj1 (Forall_forall _ _)) in Hids; [exact Hids|]; apply list_elem_of_In, nth_In; lia).
  set (d := destination + 4 * (Z.of_nat n * Z.of_nat hidden)). set (s := table + 4 * (id * Z.of_nat hidden)).
  assert (d mod 4 = 0 /\ s mod 4 = 0) as [Hd4 Hs4] by (unfold d, s; rewrite !(Z.mul_comm 4), !Z.mod_add by lia; done).
  replace (Z.of_nat hidden * 4) with (4 * Z.of_nat hidden) by lia. split; [apply memmove_ok|]. split.
  - intros k Hk. destruct (decide (k < n * hidden)%nat) as [Hlt|Hge].
    + rewrite memmove_other; [by apply Hc1|done|unfold cell; rewrite (Z.mul_comm 4), Z.mod_add by lia; done|left; unfold cell, d; nia].
    + assert (k / hidden = n /\ k mod hidden = k - n * hidden)%nat as [-> ->].
      { assert (k / hidden = n)%nat as Hq by (symmetry; apply (Nat.div_unique k hidden n (k - n * hidden)); nia). split; [done|].
        pose proof (Nat.div_mod_eq k hidden). rewrite Hq in *. nia. }
      fold id. replace (cell destination k) with (cell d (k - n * hidden)) by (unfold cell, d; nia). rewrite memmove_word by (done || lia).
      assert (cell s (k - n * hidden) = cell table (Z.to_nat id * hidden + (k - n * hidden))) as -> by (unfold cell, s; nia).
      apply Ho1; [unfold cell; rewrite (Z.mul_comm 4), Z.mod_add by lia; done|]. intros j Hj. unfold cell.
      assert (Z.to_nat id * hidden + (k - n * hidden) < vocabulary * hidden)%nat by nia. nia.
  - intros a Ha Hno. rewrite memmove_other; [apply Ho1; [done|]; intros k Hk; apply Hno; nia|done|done|].
    destruct (cell_decides d hidden a) as [(k & Hk & ->)|Hout].
    + exfalso. apply (Hno (n * hidden + k)%nat); [nia|]. unfold cell, d. nia.
    + destruct (Z.le_gt_cases (a + 4) d) as [|H1]; [by left|]. right. destruct (Z.le_gt_cases (d + 4 * Z.of_nat hidden) a) as [|H2]; [done|]. exfalso.
      pose proof (Z.div_mod a 4 ltac:(lia)). pose proof (Z.div_mod d 4 ltac:(lia)). apply (Hout (Z.to_nat (a / 4 - d / 4))); [lia|]. unfold cell. lia.
Qed.

Record embedding_fits (h : Host) (e : Embedding) (tokenIds : list Z) (weights : TensorView) : Prop := EmbeddingFits {
  ef_tokens : tokenIds <> [] /\ Forall (fun id => id < vocabularySize_ e) tokenIds;
  ef_table : matrix h FP32 weights /\ device_ weights = cpu;
  ef_shape : contiguousShape [vocabularySize_ e; embeddingDimension_ e] = Ok (shape_ weights);
}.

Section proofs.
Context `{HA : HostAllocator} `{HL : !HostAllocatorLaws}.

(** C20: Embedding a sequence of tokens returns a new tensor with one row per token, the
    token's row of the table, bit for bit; nothing that was allocated changes. It is refused
    exactly when there is no token, a token is not of the vocabulary or the table is not the
    contiguous float matrix the embedding was configured for, fails otherwise only for lack
    of memory, and a failed call changes nothing. *)
Theorem embedding_rows h e tokenIds weights :
  host_wf h -> placed h weights -> Forall (fun id => 0 <= id) tokenIds -> is_u64 (Z.of_nat (length tokenIds)) ->
  1 <= vocabularySize_ e <= u64_max -> 1 <= embeddingDimension_ e <= u64_max ->
  match embedding_execute e tokenIds weights h with
  | (Ok t, h') => embedding_fits h e tokenIds weights /\ exists s,
      dimensions s = [Z.of_nat (length tokenIds); embeddingDimension_ e] /\
      new_tensor h s (embedded (Z.to_nat (embeddingDimension_ e)) tokenIds (values (words h) weights)) t h'
  | (Throw x, h') => h' = h /\
      ((kind_of x = InvalidArgument \/ kind_of x = OutOfRange \/ kind_of x = OverflowError) /\ ~ embedding_fits h e tokenIds weights \/
       embedding_fits h e tokenIds weights /\ allocation_error x)
  | (Diverge, _) => False
  end.
Proof.
  intros Hwf Hp Hpos Hlen Hvoc Hdim.
  assert (wp (embedding_execute e tokenIds weights) h
    (fun t h' => embedding_fits h e tokenIds weights /\ exists s, dimensions s = [Z.of_nat (length tokenIds); embeddingDimension_ e] /\
       new_tensor h s (embedded (Z.to_nat (embeddingDimension_ e)) tokenIds (values (words h) weights)) t h')
    (fun x h' => h' = h /\ ((kind_of x = InvalidArgument \/ kind_of x = OutOfRange \/ kind_of x = OverflowError) /\ ~ embedding_fits h e tokenIds weights \/
       embedding_fits h e tokenIds weights /\ allocation_error x))) as H; [|exact H].
  unfold embedding_execute. wp_step. wp_step. cbv zeta. wp_step. apply wp_lift. rewrite (placed_alive h weights Hp). cbn [orb].
  destruct (_ || _) eqn:Hc; cbn [throw_if].
  { split; [done|]. left. split; [by left|]. intros [[Hne _] [(Hu & Ht & _) Hd] _]. rewrite (usable_valid h weights Hwf Hu), (us_contiguous _ _ Hu) in Hc.
    rewrite !bool_decide_eq_true_2 in Hc by done. by destruct tokenIds. }
  rewrite !orb_false_iff, !negb_false_iff, !bool_decide_eq_true in Hc. destruct Hc as ((((Hne & Hv) & Hg) & Hd) & Ht).
  assert (usable h weights) as Hu by (apply usable_intro; try done; by rewrite Hd).
  wp_step. apply wp_lift. pose proof (matrix_shape _ _ Hvoc Hdim) as Hexp.
  destruct (contiguousShape [vocabularySize_ e; embeddingDimension_ e]) as [s0|x|] eqn:Hs0; [|split; [done|]; left|done].
  2:{ split; [by right; right|]. intros [_ _ ?]. congruence. }
  wp_step. apply wp_lift. destruct (bool_decide (shape_ weights = s0)) eqn:Hsh; cbn [negb throw_if].
  2:{ apply bool_decide_eq_false in Hsh. split; [done|]. left. split; [by left|]. intros [_ _ ?]. congruence. }
  apply bool_decide_eq_true in Hsh. subst s0. destruct Hexp as (_ & Hds & _ & _).
  wp_step. apply wp_lift. destruct (forallb (fun tokenId => tokenId <? vocabularySize_ e) tokenIds) eqn:Hall; cbn [negb throw_if].
  2:{ split; [done|]. left. split; [by right; left|]. intros [[_ Hf] _ _]. apply not_true_iff_false in Hall. apply Hall, forallb_forall.
      intros id Hin%list_elem_of_In. rewrite Forall_forall in Hf. apply Z.ltb_lt. by apply Hf. }
  assert (matrix h FP32 weights) as Mw by (split; [done|]; split; [done|]; unfold rank; by rewrite Hds).
  assert (Forall (fun id => id < vocabularySize_ e) tokenIds) as Hids.
  { apply Forall_forall. intros id Hin%list_elem_of_In. rewrite forallb_forall in Hall. by apply Z.ltb_lt, Hall. }
  assert (embedding_fits h e tokenIds weights) as Hfits by (constructor; [split; [by intros ->|done]|done|done]).
  assert (1 <= length tokenIds)%nat as Hn1 by (destruct tokenIds; [done|cbn; lia]).
  wp_step. apply wp_lift. pose proof (matrix_shape (Z.of_nat (length tokenIds)) (embeddingDimension_ e) ltac:(unfold is_u64 in Hlen; lia) Hdim) as Hexp'.
  destruct (contiguousShape [Z.of_nat (length tokenIds); embeddingDimension_ e]) as [s|x|]; [|split; [done|]; right; split; [done|]; by right|done].
  destruct Hexp' as (Hs & Hsd & Hcon & Hcount).
  wp_step. eapply wp_mono; [by apply allocateTensor_spec| |by intros x h' [? ->]; split; [done|]; right].
  intros t h1 Hf. wp_step. wp_step. wp_step. split; [done|]. exists s. split; [done|].
  set (hidden := Z.to_nat (embeddingDimension_ e)). set (vocabulary := Z.to_nat (vocabularySize_ e)).
  assert (embeddingDimension_ e = Z.of_nat hidden /\ vocabularySize_ e = Z.of_nat vocabulary) as [Eh Ev] by (unfold hidden, vocabulary; lia).
  assert (count weights = vocabulary * hidden)%nat as Cw by (rewrite (count_matrix _ _ _ Mw); unfold dims, dim; rewrite Hds; cbn; unfold hidden, vocabulary; done).
  assert (Z.to_nat (elementCount s) = length tokenIds * hidden)%nat as Cs by (rewrite Hcount, Nat2Z.id; done).
  pose proof (fresh_count _ _ _ _ _ Hf) as Ct. pose proof (fresh_words _ _ _ _ _ Hf) as Hw1.
  pose proof (fresh_disjoint h s FP32 t h1 weights true Hwf Hs Hcon Hf Hu) as Hdis. pose proof (fresh_usable h s FP32 t h1 true Hs Hcon Hf) as [Htu _].
  pose proof (us_bytes _ _ Hu) as [Bw _]. pose proof (us_bytes _ _ Htu) as [Bt _]. pose proof (us_aligned _ _ Hu) as Aw. pose proof (us_aligned _ _ Htu) as At.
  assert (dtype_ (viewOf true t) = FP32) as Tt by (by destruct Hf as [_ (b & _ & _ & ->)]). rewrite Ht in Bw, Aw. rewrite Tt in Bt, At. cbn [dtype_sizeOf] in Bw, Aw, Bt, At.
  destruct (copy_rows_spec (data_ weights) (te_data t) hidden tokenIds vocabulary (words h1)) as (Hok & Hcells & Hother); [lia|apply Hf|done|done| | |].
  { apply Forall_forall. intros id Hin. rewrite Forall_forall in Hids, Hpos. specialize (Hids id Hin). specialize (Hpos id Hin). lia. }
  { unfold disjoint in Hdis. change (data_ (viewOf true t)) with (te_data t) in Hdis. lia. }
  rewrite <- Eh in Hok, Hcells, Hother. constructor.
  - exists h1. split; [done|]. destruct Hf as [Hwf1 _]. constructor; [by destruct Hwf1|done..].
  - unfold values at 1. unfold embedded. rewrite Ct, Cs. apply list_fmap_ext. intros i k [-> Hk]%lookup_seq. rewrite Nat.add_0_l. cbn [set_words words].
    change (data_ (viewOf true t)) with (te_data t). unfold load. fold (cell (te_data t) i). rewrite Hcells by done. rewrite Hw1.
    assert (i / hidden < length tokenIds)%nat as Hi by (apply Nat.Div0.div_lt_upper_bound; lia).
    pose proof (Nat.mod_upper_bound i hidden ltac:(lia)). set (id := nth (i / hidden) tokenIds 0).
    assert (0 <= id < vocabularySize_ e) as Hid by (rewrite Forall_forall in Hids, Hpos; split; [apply Hpos|apply Hids]; apply list_elem_of_In, nth_In; lia).
    rewrite values_lookup by (rewrite Cw; nia). done.
  - intros a Ha Hin. rewrite <- Hw1. apply Hother; [done|]. intros k Hk. apply (fresh_cells h s t h1 a k); try done. by rewrite Ct, Cs.
Qed.
End proofs.

(** Tokens 1, 0 and 1 of a vocabulary of two. *)
Lemma embedding_rows_witness :
  exists t h', embedding_execute (mkEmbedding 2 1) [1; 0; 1] (sample_matrix 1 1024 2 1 FP32 false) sample_host = (Ok t, h') /\
    values (words h') (viewOf true t) = f32_of_Z <$> [2; 1; 2].
Proof.
  pose proof (embedding_rows sample_host (mkEmbedding 2 1) [1; 0; 1] (sample_matrix 1 1024 2 1 FP32 false) sample_host_wf
    ltac:(by eapply (sample_placed 1)) ltac:(repeat apply Forall_cons_2; [lia..|apply Forall_nil_2]) ltac:(unfold is_u64, u64_max; cbn; lia)
    ltac:(unfold u64_max; cbn; lia) ltac:(unfold u64_max; cbn; lia)) as H.
  assert (exists t, fst (embedding_execute (mkEmbedding 2 1) [1; 0; 1] (sample_matrix 1 1024 2 1 FP32 false) sample_host) = Ok t) as [t Ht]
    by (eexists; vm_compute; reflexivity).
  destruct (embedding_execute _ _ _ _) as [r h']. cbn [fst] in Ht. subst r. destruct H as (_ & s & _ & H). exists t, h'. split; [done|].
  rewrite (nt_values _ _ _ _ _ H). vm_compute. reflexivity.
Defined.
