(* ===== verification/LMHead.v ===== *)
(** * The language-model head

    [src/transformer/output/LMHead.cpp] on the CPU tensor backend: logits from hidden states,
    with the weights in either layout. *)

From Stdlib Require Import SpecFloat.
From S2P Require Import Prelude Float FloatBits Tiers Tensor KVCache Manifest HostMemory CpuTensorBackend SampleHost NewTensor ArrayLoops.

#[local] Open Scope Z_scope.

Record LMHead : Type := mkLMHead {
  headHidden_ : Z;
  headVocabulary_ : Z;
  weightLayout_ : TensorLayout;
  tiedEmbeddings_ : bool;
}.

Definition newLMHead (hiddenDimension vocabularySize : Z) (weightLayout : TensorLayout) (tiedEmbeddings : bool) : result LMHead :=
  (throw_if ((hiddenDimension =? 0) || (vocabularySize =? 0) ||
             (tiedEmbeddings && negb (match weightLayout with OutputInput => true | InputOutput => false end)))
     (Exn InvalidArgument "LM head configuration is invalid") ;;?
   Ok (mkLMHead hiddenDimension vocabularySize weightLayout tiedEmbeddings))%res.

Definition expected_weights (l : LMHead) : list Z :=
  match weightLayout_ l with InputOutput => [headHidden_ l; headVocabulary_ l] | OutputInput => [headVocabulary_ l; headHidden_ l] end.

(** One logit of the loop that reads the weights by rows: a sum in double precision. *)
Definition logit (x w : nat -> f32) (hidden token vocabulary : nat) : f32 :=
  f32_of_f64 (foldl (fun value feature =>
    f64_add value (f64_mul (f64_of_f32 (x (token * hidden + feature)%nat)) (f64_of_f32 (w (vocabulary * hidden + feature)%nat))))
    f64_zero (seq 0 hidden)).

Section head.
Context `{HA : HostAllocator}.

Definition head_execute (l : LMHead) (hiddenStates weights : TensorView) : ST Host Tensor :=
  (expectedWeights <- lift (contiguousShape (expected_weights l)) ;;
   h <- st_get ;;
   lift (throw_if (expired (owners h) (lifetime_ hiddenStates) || expired (owners h) (lifetime_ weights) ||
                   negb (view_valid (owners h) hiddenStates) || negb (view_valid (owners h) weights) ||
                   negb (view_isContiguous hiddenStates) || negb (view_isContiguous weights) ||
                   negb (bool_decide (device_ hiddenStates = cpu)) || negb (bool_decide (device_ weights = cpu)) ||
                   negb (bool_decide (dtype_ hiddenStates = FP32)) || negb (bool_decide (dtype_ weights = FP32)) ||
                   negb (rank (shape_ hiddenStates) =? 2)%nat || negb (dim hiddenStates 1 =? headHidden_ l) ||
                   negb (bool_decide (shape_ weights = expectedWeights)))
     (Exn InvalidArgument "LM head requires compatible contiguous backend FP32 tensors"))%res ;;;
   shape <- lift (contiguousShape [dim hiddenStates 0; headVocabulary_ l]) ;;
   logits <- allocateTensor shape FP32 ;;
   match weightLayout_ l with
   | InputOutput => keeping logits (matmul hiddenStates weights (viewOf true logits) ;;; synchronize)
   | OutputInput =>
       let hidden := Z.to_nat (headHidden_ l) in
       modify (set_words (fun mem =>
         row_loop (te_data logits) (dims hiddenStates 0) (Z.to_nat (headVocabulary_ l)) mem (fun _ m token vocabulary =>
           logit (load m (data_ hiddenStates)) (load m (data_ weights)) hidden token vocabulary)))
   end ;;;
   ret logits)%st.
End head.

(** ** The logits *)

(** Logit [k] of the batch, row-major: the inner product of a hidden state and the weights
    of a token, in single precision when the weights are a matrix product's right operand,
    in double precision when they are the rows of an embedding table. *)
Definition logits_of (layout : TensorLayout) (hidden vocabulary : nat) (x w : list f32) (k : nat) : f32 :=
  match layout with
  | InputOutput => product_entry (fun i => nth i x f32_zero) (fun i => nth i w f32_zero) hidden vocabulary k
  | OutputInput => logit (fun i => nth i x f32_zero) (fun i => nth i w f32_zero) hidden (k / vocabulary) (k mod vocabulary)
  end.

Record head_fits (h : Host) (l : LMHead) (hiddenStates weights : TensorView) : Prop := HeadFits {
  hf_states : matrix h FP32 hiddenStates /\ device_ hiddenStates = cpu;
  hf_weights : matrix h FP32 weights /\ device_ weights = cpu;
  hf_hidden : dim hiddenStates 1 = headHidden_ l;
  hf_shape : contiguousShape (expected_weights l) = Ok (shape_ weights);
}.

Lemma logit_ext x y w v hidden token vocabulary :
  (forall i, (i < hidden)%nat -> x (token * hidden + i)%nat = y (token * hidden + i)%nat /\ w (vocabulary * hidden + i)%nat = v (vocabulary * hidden + i)%nat) ->
  logit x w hidden token vocabulary = logit y v hidden token vocabulary.
Proof. intros H. unfold logit. f_equal. apply foldl_ext_in. intros s i [_ Hi]%elem_of_seq. by destruct (H i ltac:(lia)) as [-> ->]. Qed.

Section proofs.
Context `{HA : HostAllocator} `{HL : !HostAllocatorLaws}.

Lemma head_check_spec h l states weights s0 : host_wf h -> placed h states -> placed h weights ->
  contiguousShape (expected_weights l) = Ok s0 -> rank s0 = 2%nat ->
  (expired (owners h) (lifetime_ states) || expired (owners h) (lifetime_ weights) ||
   negb (view_valid (owners h) states) || negb (view_valid (owners h) weights) ||
   negb (view_isContiguous states) || negb (view_isContiguous weights) ||
   negb (bool_decide (device_ states = cpu)) || negb (bool_decide (device_ weights = cpu)) ||
   negb (bool_decide (dtype_ states = FP32)) || negb (bool_decide (dtype_ weights = FP32)) ||
   negb (rank (shape_ states) =? 2)%nat || negb (dim states 1 =? headHidden_ l) ||
   negb (bool_decide (shape_ weights = s0))) = false <-> head_fits h l states weights.
Proof.
  intros Hwf Hs Hw He Hr. rewrite (placed_alive h states Hs), (placed_alive h weights Hw).
  rewrite !orb_false_iff, !negb_false_iff, !bool_decide_eq_true, !Nat.eqb_eq, !Z.eqb_eq. split.
  - intros (((((((((((( _ & _) & Vs) & Vw) & Cs) & Cw) & Ds) & Dw) & Ts) & Tw) & Rs) & E1) & E2).
    assert (usable h states) as Us by (apply usable_intro; try done; by rewrite Ds).
    assert (usable h weights) as Uw by (apply usable_intro; try done; by rewrite Dw).
    constructor; [done| |done|by rewrite E2]. split; [|done]. split; [done|]. split; [done|]. by rewrite E2.
  - intros [[(Us & Ts & Rs) Ds] [(Uw & Tw & Rw) Dw] E1 E2]. rewrite (usable_valid h states Hwf Us), (usable_valid h weights Hwf Uw).
    split_and!; try done; [apply (us_contiguous _ _ Us)|apply (us_contiguous _ _ Uw)|congruence].
Qed.

(** The matrix product into the new tensor goes through. *)
Lemma product_into_new h s t h1 states weights : host_wf h -> shape_wf s -> shape_isContiguous s = true -> fresh_tensor h s FP32 t h1 ->
  matrix h FP32 states -> matrix h FP32 weights -> dim weights 0 = dim states 1 -> dimensions s = [dim states 0; dim weights 1] ->
  wp (matmul states weights (viewOf true t) ;;; synchronize)%st h1
    (fun _ h' => new_tensor h s (matrix_product (dims states 0) (dims states 1) (dims weights 1) (values (words h) states) (values (words h) weights)) t h')
    (fun _ _ => False).
Proof.
  intros Hwf Hs Hc Hf Ms Mw D1 Hds. pose proof (fresh_usable h s FP32 t h1 true Hs Hc Hf) as [Ut Wt].
  pose proof (fresh_words _ _ _ _ _ Hf) as Hw1. pose proof Ms as (Us & Ts & Rs). pose proof Mw as (Uw & Tw & Rw).
  pose proof (fresh_disjoint h s FP32 t h1 states true Hwf Hs Hc Hf Us) as Ds. pose proof (fresh_disjoint h s FP32 t h1 weights true Hwf Hs Hc Hf Uw) as Dw.
  pose proof (fresh_usable_keeps h s FP32 t h1 states Hwf Hf Us) as Us1. pose proof (fresh_usable_keeps h s FP32 t h1 weights Hwf Hf Uw) as Uw1.
  assert (shape_ (viewOf true t) = s /\ dtype_ (viewOf true t) = FP32) as [St Tt] by (by destruct Hf as [_ (b & _ & _ & ->)]).
  assert (product_fits h1 FP32 states weights (viewOf true t)) as Hfits.
  { pose proof (us_bytes _ _ Us) as [Bs Ps]. pose proof (us_bytes _ _ Uw) as [Bw Pw]. pose proof (us_bytes _ _ Ut) as [Bt Pt].
    constructor; [done|done|split; [|done]; split; [done|]; split; [done|]; unfold rank; by rewrite St, Hds| |].
    - unfold dim at 3 5. rewrite St, Hds. done.
    - rewrite Ts in Bs. rewrite Tw in Bw. rewrite Tt in Bt. cbn [dtype_sizeOf] in Bs, Bw, Bt. unfold disjoint in Ds, Dw. lia. }
  wp_step. eapply wp_mono; [apply matmul_spec; [apply Hf|apply Us1|apply Uw1|apply Ut|done|done]| |by intros e h' [_ ?]].
  intros _ h2 (_ & value & Hout & Hval). apply wp_modify. pose proof (output_balanced _ _ _ _ Hout) as [Hwf2 B1 B2 B3 B4 B5]. destruct Hout as [_ _ Hw].
  constructor; [exists h1; split; [done|]; constructor; cbn; [by destruct Hwf2|done..]| |].
  - cbn [words]. by rewrite Hval, Hw1.
  - intros a _ Ha. cbn [words]. rewrite <- Hw1. apply Hw. intros k Hk. by apply (fresh_cells h s t h1 a k).
Qed.

(** C21: The language-model head returns a new tensor with the logits of every hidden state
    (for either layout of the weights, rounded as the source rounds them) and changes nothing
    that was allocated. It is refused exactly when the operands are not float matrices on
    the CPU of the configured dimensions, fails otherwise only for lack of memory, and a
    failed call changes nothing. *)
Theorem head_logits h l states weights :
  host_wf h -> placed h states -> placed h weights -> 1 <= headHidden_ l <= u64_max -> 1 <= headVocabulary_ l <= u64_max ->
  match head_execute l states weights h with
  | (Ok t, h') => head_fits h l states weights /\ exists s,
      dimensions s = [dim states 0; headVocabulary_ l] /\
      new_tensor h s (logits_of (weightLayout_ l) (Z.to_nat (headHidden_ l)) (Z.to_nat (headVocabulary_ l)) (values (words h) states) (values (words h) weights)
        <$> seq 0 (dims states 0 * Z.to_nat (headVocabulary_ l))) t h'
  | (Throw e, h') => h' = h /\
      ((kind_of e = InvalidArgument \/ kind_of e = OverflowError) /\ ~ head_fits h l states weights \/ head_fits h l states weights /\ allocation_error e)
  | (Diverge, _) => False
  end.
Proof.
  intros Hwf Ps Pw Hh Hv. set (l0 := _ <$> seq 0 _).
  assert (wp (head_execute l states weights) h
    (fun t h' => head_fits h l states weights /\ exists s, dimensions s = [dim states 0; headVocabulary_ l] /\ new_tensor h s l0 t h')
    (fun e h' => h' = h /\ ((kind_of e = InvalidArgument \/ kind_of e = OverflowError) /\ ~ head_fits h l states weights \/
       head_fits h l states weights /\ allocation_error e))) as H; [|exact H].
  unfold head_execute. wp_step. apply wp_lift.
  assert (match contiguousShape (expected_weights l) with
          | Ok s => rank s = 2%nat /\ dimensions s = expected_weights l | Throw e => kind_of e = OverflowError | Diverge => False end) as Hexp.
  { unfold expected_weights. destruct (weightLayout_ l); [pose proof (matrix_shape _ _ Hh Hv) as H|pose proof (matrix_shape _ _ Hv Hh) as H];
      (destruct (contiguousShape _); [|done|done]); unfold rank; by destruct H as (_ & -> & _ & _). }
  destruct (contiguousShape (expected_weights l)) as [s0|x|] eqn:Hs0; [|split; [done|]; left|done].
  2:{ split; [by right|]. intros [_ _ _ ?]. congruence. }
  destruct Hexp as [Hr0 Hd0]. wp_step. wp_step. wp_step. apply wp_lift. pose proof (head_check_spec h l states weights s0 Hwf Ps Pw Hs0 Hr0) as Hcheck.
  match goal with |- context [throw_if ?c _] => destruct c eqn:Hc end; cbn [throw_if].
  { split; [done|]. left. split; [by left|]. intros Hf%Hcheck. congruence. }
  assert (head_fits h l states weights) as Hf by (by apply Hcheck). clear Hcheck Hc. pose proof Hf as [[Ms _] [Mw _] E1 E2]. rewrite Hs0 in E2. injection E2 as ->.
  wp_step. apply wp_lift. pose proof (matrix_dims _ _ _ 0%nat Ms ltac:(lia)) as Ht. pose proof (matrix_shape _ _ Ht Hv) as Hshape.
  destruct (contiguousShape [dim states 0; headVocabulary_ l]) as [s|x|]; [|split; [done|]; right; split; [done|]; by right|done].
  destruct Hshape as (Hs & Hds & Hcon & Hn). wp_step. eapply wp_mono; [by apply allocateTensor_spec| |by intros x h' [? ->]; split; [done|]; right].
  intros t h1 Hnew. wp_step. fold (dims states 0) in Hn.
  pose proof (count_matrix _ _ _ Ms) as Cs. pose proof (count_matrix _ _ _ Mw) as Cw. unfold expected_weights in Hd0.
  assert (dims states 1 = Z.to_nat (headHidden_ l)) as D1 by (unfold dims; by rewrite E1). rewrite D1 in Cs.
  destruct (weightLayout_ l) eqn:Hlayout.
  - assert (dim weights 0 = headHidden_ l /\ dim weights 1 = headVocabulary_ l) as [F0 F1] by (unfold dim; rewrite Hd0; done).
    apply wp_keeping. eapply wp_mono; [apply (product_into_new h s t h1 states weights); try done; congruence| |done].
    intros [] h' H. wp_step. split; [done|]. exists s. split; [done|]. cbv beta in H. unfold l0, logits_of, matrix_product in *.
    assert (dims weights 1 = Z.to_nat (headVocabulary_ l)) as D2 by (unfold dims; by rewrite F1). by rewrite D1, D2 in H.
  - assert (dim weights 0 = headVocabulary_ l /\ dim weights 1 = headHidden_ l) as [F0 F1] by (unfold dim; rewrite Hd0; done).
    unfold dims in Cw. rewrite F0, F1 in Cw. wp_step. wp_step. split; [done|]. exists s. split; [done|]. unfold l0. rewrite <- Hn.
    eapply filled_new; try done. pose proof (fresh_count _ _ _ _ _ Hnew) as Hcount. rewrite Hn in Hcount.
    apply output_written_intro; [apply Hnew|]. rewrite Hcount. change (data_ (viewOf true t)) with (te_data t).
    apply row_loop_written; [lia|apply Hnew|intros k; apply f32_of_f64_valid|].
    intros m m' row column Hr Hcol _ Hm. rewrite <- Hcount in Hm. unfold logits_of.
    rewrite Nat.div_add_l, (Nat.div_small column), Nat.add_0_r by lia. rewrite (Nat.add_comm _ column), Nat.Div0.mod_add, (Nat.mod_small column) by lia.
    assert (forall v i, usable h v -> dtype_ v = FP32 -> (i < count v)%nat -> load m' (data_ v) i = nth i (values (words h) v) f32_zero) as Hin.
    { intros v i Hu Hd Hi. rewrite values_lookup by done. by apply (fresh_reads h s t h1 v m' i). }
    apply logit_ext. intros i Hi. split; apply Hin; first [apply Ms|apply Mw|nia].
Qed.
End proofs.

(** A hidden state [1; 2] and the rows of a table of two tokens. *)
Definition sample_head : LMHead := mkLMHead 2 2 OutputInput true.
Lemma head_logits_witness :
  exists t h', head_execute sample_head (sample_matrix 1 1024 1 2 FP32 false) (sample_matrix 3 3072 2 2 FP32 false) sample_host = (Ok t, h') /\
    values (words h') (viewOf true t) = f32_of_Z <$> [3; 3].
Proof.
  pose proof (head_logits sample_host sample_head (sample_matrix 1 1024 1 2 FP32 false) (sample_matrix 3 3072 2 2 FP32 false) sample_host_wf
    ltac:(by eapply (sample_placed 1)) ltac:(by eapply (sample_placed 3)) ltac:(unfold u64_max; cbn; lia) ltac:(unfold u64_max; cbn; lia)) as H.
  assert (exists t, fst (head_execute sample_head (sample_matrix 1 1024 1 2 FP32 false) (sample_matrix 3 3072 2 2 FP32 false) sample_host) = Ok t) as [t Ht]
    by (eexists; vm_compute; reflexivity).
  destruct (head_execute _ _ _ _) as [r h']. cbn [fst] in Ht. subst r. destruct H as (_ & s & _ & H). exists t, h'. split; [done|].
  rewrite (nt_values _ _ _ _ _ H). vm_compute. reflexivity.
Defined.
