(* ===== verification/Precision.v ===== *)
(** * Converting stored weights to floats

    [src/tensor/precision/DTypeConverter.cpp]: half-precision and bfloat16 weights as
    [float]s, exactly, and the conversion of a CPU tensor. *)

From Stdlib Require Import SpecFloat.
From S2P Require Import Prelude Float FloatBits Tiers Tensor KVCache HostMemory CpuTensorBackend NewTensor.

#[local] Open Scope Z_scope.

Record PrecisionExecutionPlan : Type := mkExecutionPlan {
  storageDType : DType;
  executionDType : DType;
  executionDevice : Device;
  conversionRequired : bool;
  nativeExecution : bool;
}.

(** [std::copysign] of a positive value and a sign, and [std::ldexp]. *)
Definition copysign (x : f32) (negative : bool) : f32 := if negative then SFopp (SFabs x) else SFabs x.
Definition ldexp (x : f32) (n : Z) : f32 := SFldexp 24 128 x n.

Definition fp16ToFloat (value : Z) : f32 :=
  let negative := negb (Z.land value 32768 =? 0) in
  let sign := if negative then f32_of_Z (-1) else f32_of_Z 1 in
  let exponent := Z.land (Z.shiftr value 10) 31 in
  let fraction := Z.land value 1023 in
  if exponent =? 0 then
    if fraction =? 0 then copysign f32_zero negative else f32_mul sign (ldexp (f32_of_Z fraction) (-24))
  else if exponent =? 31 then
    if fraction =? 0 then copysign (S754_infinity false) negative
    else f32_of_bits (if negative then 4290772992 else 2143289344)
  else f32_mul sign (ldexp (f32_add (f32_of_Z 1) (f32_div (f32_of_Z fraction) (f32_of_Z 1024))) (exponent - 15)).

Definition bf16ToFloat (value : Z) : f32 := f32_of_bits (wrap32 (Z.shiftl value 16)).

Definition selectExecutionPlan (storageType : DType) (device : Device) : result PrecisionExecutionPlan :=
  (throw_if ((ordinal device <? 0) || (bool_decide (type device = CPU) && negb (ordinal device =? 0)))
     (Exn InvalidArgument "precision plan execution device is invalid") ;;?
   match storageType with
   | FP32 => Ok (mkExecutionPlan storageType FP32 device false true)
   | FP16 | BF16 => Ok (mkExecutionPlan storageType FP32 device true false)
   | INT8 => Throw (Exn InvalidArgument "INT8 execution requires an explicit quantization policy")
   end)%res.

(** The unsigned integers in a sequence of bytes. *)
Definition byte_in (source : list Z) (offset : nat) : Z := nth offset source 0.
Definition word_in (source : list Z) (offset : nat) : Z :=
  Z.lor (Z.lor (byte_in source offset) (Z.shiftl (byte_in source (offset + 1)) 8))
    (Z.lor (Z.shiftl (byte_in source (offset + 2)) 16) (Z.shiftl (byte_in source (offset + 3)) 24)).
Definition half_in (source : list Z) (offset : nat) : Z :=
  Z.lor (byte_in source offset) (Z.shiftl (byte_in source (offset + 1)) 8).

Definition toFp32 (source : list Z) (sourceType : DType) : result (list f32) :=
  (let width := dtype_sizeOf sourceType in
   throw_if ((width =? 0) || (match source with [] => true | _ => false end) || negb (Z.of_nat (length source) mod width =? 0))
     (Exn InvalidArgument "dtype conversion source range is invalid") ;;?
   throw_if (bool_decide (sourceType = INT8))
     (Exn InvalidArgument "INT8 conversion requires quantization policy metadata") ;;?
   let n := Z.to_nat (Z.of_nat (length source) / width) in
   Ok (match sourceType with
       | FP32 => (fun index => f32_of_bits (word_in source (index * 4))) <$> seq 0 n
       | FP16 => (fun index => fp16ToFloat (half_in source (index * 2))) <$> seq 0 n
       | _ => (fun index => bf16ToFloat (half_in source (index * 2))) <$> seq 0 n
       end))%res.

(** The bytes of a view. *)
Definition bytes_of (mem : Z -> Z) (v : TensorView) : list Z := (fun i => byte_at mem (data_ v + Z.of_nat i)) <$> seq 0 (Z.to_nat (bytes_ v)).
Definition toFp32Tensor `{HA : HostAllocator} (source : TensorView) : ST Host Tensor :=
  (h <- st_get ;;
   lift (throw_if (expired (owners h) (lifetime_ source) || negb (view_valid (owners h) source) || negb (view_isContiguous source))
           (Exn InvalidArgument "reference dtype conversion requires a live contiguous tensor"))%res ;;;
   plan <- lift (selectExecutionPlan (dtype_ source) cpu) ;;
   lift (throw_if (bool_decide (type (device_ source) = CUDA) && negb (bool_decide (device_ source = cpu)))
           (Exn InvalidArgument "CUDA dtype conversion requires its source backend as destination backend"))%res ;;;
   values <- lift (toFp32 (bytes_of (words h) source) (dtype_ source)) ;;
   lift (throw_if (negb (Z.of_nat (length values) =? elementCount (shape_ source)))
           (Exn InvalidArgument "dtype conversion shape does not match storage"))%res ;;;
   output <- allocateTensor (shape_ source) (executionDType plan) ;;
   modify (set_words (store_all (te_data output) values)) ;;;
   ret output)%st.

(** ** The numbers half precision and bfloat16 stand for *)

(** [x] is the number [(-1)^negative * m * 2^e]. *)
Definition denotes (x : f32) (negative : bool) (m e : Z) : Prop :=
  match x with
  | S754_zero s => s = negative /\ m = 0
  | S754_finite s m' e' => s = negative /\ -149 <= e' /\ -149 <= e /\ Z.pos m' * 2 ^ (e' + 149) = m * 2 ^ (e + 149)
  | _ => False
  end.

(** A format of [fraction] bits below [exponent] bits below a sign. *)
Definition encodes (fraction exponent bias word : Z) (x : f32) : Prop :=
  let negative := Z.testbit word (fraction + exponent) in
  let biased := Z.land (Z.shiftr word fraction) (2 ^ exponent - 1) in
  let bits := Z.land word (2 ^ fraction - 1) in
  if biased =? 2 ^ exponent - 1 then x = (if bits =? 0 then S754_infinity negative else S754_nan)
  else denotes x negative (if biased =? 0 then bits else 2 ^ fraction + bits) (Z.max biased 1 - bias - fraction).

(** ** Roundings that lose nothing *)

Lemma shr_1_double m : shr_1 (Build_shr_record (2 * m) false false) = Build_shr_record m false false.
Proof. by destruct m. Qed.

Lemma iter_shr_shifted k m : SpecFloat.iter_pos shr_1 k (Build_shr_record (m * 2 ^ Z.pos k) false false) = Build_shr_record m false false.
Proof.
  rewrite iter_pos_iter, <- (positive_nat_Z k). generalize (Pos.to_nat k). intros n. revert m.
  induction n as [|n IH]; intros m; [cbn; by rewrite Z.mul_1_r|]. rewrite Nat.iter_succ_r, Nat2Z.inj_succ, Z.pow_succ_r by lia.
  replace (m * (2 * 2 ^ Z.of_nat n)) with (2 * (m * 2 ^ Z.of_nat n)) by lia. by rewrite shr_1_double, IH.
Qed.

Lemma shr_fexp_exact m e k : bounded 24 128 m e = true -> 0 <= k ->
  shr_fexp 24 128 (Z.pos m * 2 ^ k) (e - k) loc_Exact = (Build_shr_record (Z.pos m) false false, e).
Proof.
  intros Hb Hk. unfold bounded, canonical_mantissa in Hb. apply andb_true_iff in Hb as [Hc%Z.eqb_eq _].
  change (Z.pos (digits2_pos m)) with (Zdigits2 (Z.pos m)) in Hc. unfold shr_fexp. rewrite (Zdigits2_shift 24) by lia.
  replace (Zdigits2 (Z.pos m) + k + (e - k)) with (Zdigits2 (Z.pos m) + e) by lia. rewrite Hc. replace (e - (e - k)) with k by lia.
  unfold shr. cbn [shr_record_of_loc]. destruct k as [|k|k]; [by rewrite Z.mul_1_r, Z.sub_0_r| |lia].
  rewrite iter_shr_shifted. by rewrite Z.sub_add.
Qed.

Lemma binary_round_aux_exact s m e k : bounded 24 128 m e = true -> 0 <= k ->
  binary_round_aux 24 128 s (Z.pos m * 2 ^ k) (e - k) loc_Exact = S754_finite s m e.
Proof.
  intros Hb Hk. unfold binary_round_aux. rewrite shr_fexp_exact by done. cbn [shr_m loc_of_shr_record round_nearest_even].
  pose proof (shr_fexp_exact m e 0 Hb ltac:(lia)) as H0. rewrite Z.mul_1_r, Z.sub_0_r in H0. rewrite H0. cbn [shr_m].
  apply andb_true_iff in Hb as [_ Hle]. by rewrite Hle.
Qed.

Lemma ldexp_exact s m e n : bounded 24 128 m (e + n) = true -> ldexp (S754_finite s m e) n = S754_finite s m (e + n).
Proof.
  intros Hb. unfold ldexp, SFldexp, binary_round, shl_align. pose proof Hb as [Hc _]%andb_true_iff. apply Z.eqb_eq in Hc. rewrite Hc, Z.sub_diag.
  pose proof (binary_round_aux_exact s m (e + n) 0 Hb ltac:(lia)) as H. by rewrite Z.mul_1_r, Z.sub_0_r in H.
Qed.

(** Multiplying by a sign. *)
Lemma f32_mul_sign (negative : bool) s m e : bounded 24 128 m e = true ->
  f32_mul (if negative then f32_of_Z (-1) else f32_of_Z 1) (S754_finite s m e) = S754_finite (xorb negative s) m e.
Proof.
  intros Hb. assert ((if negative then f32_of_Z (-1) else f32_of_Z 1) = S754_finite negative 8388608 (-23)) as -> by (by destruct negative).
  unfold f32_mul, SFmul. pose proof (binary_round_aux_exact (xorb negative s) m e 23 Hb ltac:(lia)) as H.
  replace (Z.pos (8388608 * m)) with (Z.pos m * 2 ^ 23) by (change (2 ^ 23) with 8388608; lia). by replace (-23 + e) with (e - 23) by lia.
Qed.

Lemma f32_bounded_iff m e : 8388608 <= Z.pos m < 16777216 -> -149 <= e <= 104 -> bounded 24 128 m e = true.
Proof.
  intros Hm He. unfold bounded, canonical_mantissa, fexp, emin. change (Z.pos (digits2_pos m)) with (Zdigits2 (Z.pos m)).
  rewrite Zdigits2_log2 by lia. assert (Z.log2 (Z.pos m) = 23) as -> by (apply Z.log2_unique; [lia|]; change (2 ^ 23) with 8388608; change (2 ^ Z.succ 23) with 16777216; lia).
  apply andb_true_iff. split; [apply Z.eqb_eq; lia|apply Z.leb_le; lia].
Qed.

(** The two kinds of fractions, before they are scaled. *)
Lemma significand f : 0 <= f < 1024 -> exists m, Z.pos m = (1024 + f) * 8192 /\
  f32_add (f32_of_Z 1) (f32_div (f32_of_Z f) (f32_of_Z 1024)) = S754_finite false m (-23).
Proof.
  intros Hf. exists (Z.to_pos ((1024 + f) * 8192)). split; [lia|].
  assert (forallb (fun f => bool_decide (f32_add (f32_of_Z 1) (f32_div (f32_of_Z f) (f32_of_Z 1024)) =
    S754_finite false (Z.to_pos ((1024 + f) * 8192)) (-23))) (seqZ 0 1024) = true) as H by (vm_compute; reflexivity).
  rewrite forallb_forall in H. apply (bool_decide_unpack _), Is_true_true, H, list_elem_of_In, elem_of_seqZ. lia.
Qed.

Definition scaled_integer (f : Z) (x : f32) : bool :=
  match x with
  | S754_finite false m e => (8388608 <=? Z.pos m) && (Z.pos m <? 16777216) && (-23 <=? e) && (e <=? 0) && (Z.pos m * 2 ^ (e + 23) =? f * 8388608)
  | _ => false
  end.
Lemma subnormal f : 0 < f < 1024 -> scaled_integer f (f32_of_Z f) = true.
Proof.
  intros Hf. assert (forallb (fun f => scaled_integer f (f32_of_Z f)) (seqZ 1 1023) = true) as H by (vm_compute; reflexivity).
  rewrite forallb_forall in H. apply H, list_elem_of_In, elem_of_seqZ. lia.
Qed.

(** ** The conversions are exact *)

Lemma half_fields v : 0 <= v < 65536 ->
  exists (s : bool) e f, v = (if s then 32768 else 0) + e * 1024 + f /\ 0 <= e < 32 /\ 0 <= f < 1024 /\
    negb (Z.land v 32768 =? 0) = s /\ Z.testbit v 15 = s /\ Z.land (Z.shiftr v 10) 31 = e /\ Z.land v 1023 = f.
Proof.
  intros Hv. exists (Z.testbit v 15), (v / 1024 mod 32), (v mod 1024).
  assert (Z.testbit v 15 = (32768 <=? v)) as Ht.
  { rewrite Z.testbit_odd, Z.shiftr_div_pow2 by lia. change (2 ^ 15) with 32768. destruct (Z.leb_spec 32768 v).
    - by replace (v / 32768) with 1 by divlia.
    - by replace (v / 32768) with 0 by divlia. }
  assert (Z.land v 32768 = if 32768 <=? v then 32768 else 0) as Hl.
  { apply Z.bits_inj'. intros i Hi. rewrite Z.land_spec. change 32768 with (2 ^ 15) at 1. rewrite Z.pow2_bits_eqb by lia.
    destruct (Z.eqb_spec 15 i) as [<-|Hne]; [rewrite Ht, andb_true_r; by destruct (32768 <=? v)|]. rewrite andb_false_r.
    destruct (32768 <=? v); [|by rewrite Z.bits_0]. change 32768 with (2 ^ 15). rewrite Z.pow2_bits_eqb by lia. by destruct (Z.eqb_spec 15 i). }
  rewrite Hl, Ht. change 31 with (Z.ones 5). change 1023 with (Z.ones 10). rewrite !Z.land_ones, Z.shiftr_div_pow2 by lia.
  change (2 ^ 10) with 1024. change (2 ^ 5) with 32. split; [|split; [|split]]; [destruct (Z.leb_spec 32768 v); divlia|divlia|divlia|].
  split; [|done]. by destruct (32768 <=? v).
Qed.

Lemma fp16_encodes v : 0 <= v < 65536 -> encodes 10 5 15 v (fp16ToFloat v) /\ valid32 (fp16ToFloat v).
Proof.
  intros Hv. destruct (half_fields v Hv) as (s & e & f & _ & He & Hf & Hs & Ht & Hel & Hfl).
  unfold encodes, fp16ToFloat. change (10 + 5) with 15. change (2 ^ 5 - 1) with 31. change (2 ^ 10 - 1) with 1023. change (2 ^ 10) with 1024.
  rewrite Hs, Ht, Hel, Hfl. destruct (Z.eqb_spec e 31) as [->|Hne].
  { cbn [Z.eqb Pos.eqb]. destruct (f =? 0); destruct s; done. }
  destruct (Z.eqb_spec e 0) as [->|H0].
  - destruct (Z.eqb_spec f 0) as [->|Hf0]; [by destruct s|]. pose proof (subnormal f ltac:(lia)) as Hsub.
    destruct (f32_of_Z f) as [| | |[] m e]; try done. cbn [scaled_integer] in Hsub. rewrite !andb_true_iff in Hsub.
    destruct Hsub as [[[[H1%Z.leb_le H2%Z.ltb_lt] H3%Z.leb_le] H4%Z.leb_le] H5%Z.eqb_eq].
    assert (bounded 24 128 m (e + -24) = true) as Hb by (apply f32_bounded_iff; lia).
    rewrite ldexp_exact, f32_mul_sign by done. split; [|exact Hb]. cbn [denotes]. split; [by destruct s|].
    split; [lia|]. split; [lia|]. replace (e + -24 + 149) with (e + 23 + 102) by lia. rewrite Z.pow_add_r, Z.mul_assoc, H5 by lia.
    change (Z.max 0 1 - 15 - 10 + 149) with (23 + 102). rewrite (Z.pow_add_r 2 23 102) by lia. change (2 ^ 23) with 8388608. lia.
  - destruct (significand f Hf) as (m & Hm & ->). assert (bounded 24 128 m (-23 + (e - 15)) = true) as Hb by (apply f32_bounded_iff; lia).
    rewrite ldexp_exact, f32_mul_sign by done. split; [|exact Hb]. cbn [denotes]. split; [by destruct s|].
    split; [lia|]. split; [lia|]. rewrite Hm. replace (Z.max e 1 - 15 - 10 + 149) with (13 + (-23 + (e - 15) + 149)) by lia.
    rewrite (Z.pow_add_r 2 13) by lia. change (2 ^ 13) with 8192. lia.
Qed.

Lemma bf16_encodes v : 0 <= v < 65536 -> encodes 7 8 127 v (bf16ToFloat v) /\ valid32 (bf16ToFloat v).
Proof.
  intros Hv. split; [|apply f32_of_bits_valid]. unfold encodes, bf16ToFloat. set (s := Z.testbit v (7 + 8)).
  change (2 ^ 8 - 1) with (Z.ones 8). change (2 ^ 7 - 1) with (Z.ones 7). rewrite !Z.land_ones, !Z.shiftr_div_pow2, Z.shiftl_mul_pow2 by lia.
  change (Z.ones 8) with 255. change (2 ^ 7) with 128. change (2 ^ 8) with 256. change (2 ^ 16) with 65536.
  assert (s = (32768 <=? v)) as Hs.
  { unfold s. change (7 + 8) with 15. rewrite Z.testbit_odd, Z.shiftr_div_pow2 by lia. change (2 ^ 15) with 32768. destruct (Z.leb_spec 32768 v).
    - by replace (v / 32768) with 1 by divlia.
    - by replace (v / 32768) with 0 by divlia. }
  clearbody s. set (e := v / 128 mod 256). set (f := v mod 128). assert (0 <= e < 256 /\ 0 <= f < 128) as [He Hf] by (unfold e, f; divlia).
  assert (wrap32 (v * 65536) = (if s then 2147483648 else 0) + e * 8388608 + f * 65536) as ->.
  { unfold wrap32. rewrite Z.mod_small by lia. rewrite Hs. unfold e, f. destruct (Z.leb_spec 32768 v); divlia. }
  destruct (word_fields s e (f * 65536) He ltac:(lia)) as (H1 & H2 & H3). unfold f32_of_bits. rewrite H1, H2, H3. clearbody e f.
  destruct (Z.eqb_spec e 255) as [_|Hne].
  { by destruct (Z.eqb_spec (f * 65536) 0), (Z.eqb_spec f 0); try lia. }
  destruct (Z.eqb_spec e 0) as [->|H0].
  - destruct (f * 65536) as [|p|p] eqn:Hp; [cbn; split; [done|lia]| |lia]. cbn [denotes]. split; [done|]. split; [lia|]. split; [lia|].
    change (-149 + 149) with 0. change (Z.max 0 1 - 127 - 7 + 149) with 16. rewrite <- Hp. change (2 ^ 16) with 65536. lia.
  - destruct (f * 65536 + 8388608) as [|p|p] eqn:Hp; [lia| |lia]. cbn [denotes]. split; [done|]. split; [lia|]. split; [lia|].
    rewrite <- Hp. replace (Z.max e 1 - 127 - 7 + 149) with (16 + (e - 150 + 149)) by lia. rewrite (Z.pow_add_r 2 16) by lia. change (2 ^ 16) with 65536. lia.
Qed.

(** ** The elements of a stored tensor *)

Definition half_at (mem : Z -> Z) (a : Z) : Z := byte_at mem a + 256 * byte_at mem (a + 1).
(** Element [i] of a view as a [float]. *)
Definition element (mem : Z -> Z) (v : TensorView) (i : nat) : f32 :=
  match dtype_ v with
  | FP32 => load mem (data_ v) i
  | FP16 => fp16ToFloat (half_at mem (data_ v + 2 * Z.of_nat i))
  | _ => bf16ToFloat (half_at mem (data_ v + 2 * Z.of_nat i))
  end.
Definition elements (mem : Z -> Z) (v : TensorView) : list f32 := element mem v <$> seq 0 (count v).

Lemma half_at_range mem a : 0 <= half_at mem a < 65536.
Proof. unfold half_at. pose proof (byte_at_range mem a). pose proof (byte_at_range mem (a + 1)). lia. Qed.

Lemma element_valid mem v i : valid32 (element mem v i).
Proof.
  unfold element. destruct (dtype_ v).
  - apply f32_of_bits_valid.
  - exact (proj2 (fp16_encodes _ (half_at_range _ _))).
  - exact (proj2 (bf16_encodes _ (half_at_range _ _))).
  - exact (proj2 (bf16_encodes _ (half_at_range _ _))).
Qed.

Lemma byte_in_bytes mem v i : Z.of_nat i < bytes_ v -> byte_in (bytes_of mem v) i = byte_at mem (data_ v + Z.of_nat i).
Proof.
  intros Hi. unfold byte_in, bytes_of. rewrite (nth_indep _ _ (byte_at mem (data_ v + Z.of_nat 0))) by (rewrite length_fmap, length_seq; lia).
  rewrite (map_nth (fun i => byte_at mem (data_ v + Z.of_nat i))). rewrite seq_nth by lia. done.
Qed.

Lemma half_in_bytes mem v i : Z.of_nat i + 1 < bytes_ v -> half_in (bytes_of mem v) i = half_at mem (data_ v + Z.of_nat i).
Proof.
  intros Hi. unfold half_in, half_at. rewrite !byte_in_bytes by lia. rewrite (lor_add_disjoint 8); [|lia|apply byte_at_range].
  rewrite Nat2Z.inj_add, Z.add_assoc. change (Z.of_nat 1) with 1. change (2 ^ 8) with 256. lia.
Qed.

Lemma word_in_bytes mem v i : words_ok mem -> Z.of_nat i + 3 < bytes_ v -> (data_ v + Z.of_nat i) mod 4 = 0 ->
  word_in (bytes_of mem v) i = mem (data_ v + Z.of_nat i).
Proof.
  intros Hm Hi Ha. rewrite <- (word_bytes mem (data_ v + Z.of_nat i) Ha (Hm _)). unfold word_in, word_of_bytes. rewrite !byte_in_bytes by lia.
  rewrite !Nat2Z.inj_add, !Z.add_assoc. change (Z.of_nat 1) with 1. change (Z.of_nat 2) with 2. change (Z.of_nat 3) with 3. rewrite Z.add_0_r.
  set (a := data_ v + Z.of_nat i). pose proof (byte_at_range mem a). pose proof (byte_at_range mem (a + 1)).
  pose proof (byte_at_range mem (a + 2)). pose proof (byte_at_range mem (a + 3)).
  rewrite (lor_add_disjoint 8) by lia. replace (Z.lor (Z.shiftl (byte_at mem (a + 2)) 16) (Z.shiftl (byte_at mem (a + 3)) 24))
    with (Z.shiftl (byte_at mem (a + 2) + 256 * byte_at mem (a + 3)) 16).
  - rewrite (lor_add_disjoint 16) by lia. change (2 ^ 8) with 256. change (2 ^ 16) with 65536. lia.
  - replace (byte_at mem (a + 2) + 256 * byte_at mem (a + 3)) with (Z.lor (byte_at mem (a + 2)) (Z.shiftl (byte_at mem (a + 3)) 8)).
    + by rewrite Z.shiftl_lor, Z.shiftl_shiftl by lia.
    + rewrite (lor_add_disjoint 8) by lia. change (2 ^ 8) with 256. lia.
Qed.

(** Converting the bytes of a view gives its elements. *)
Lemma toFp32_elements h v : host_wf h -> usable h v -> dtype_ v <> INT8 -> toFp32 (bytes_of (words h) v) (dtype_ v) = Ok (elements (words h) v).
Proof.
  intros Hwf Hu Hd. pose proof Hu as [_ _ _ [Hb Hc] Ha _]. unfold toFp32. set (l := bytes_of (words h) v).
  assert (Z.of_nat (length l) = bytes_ v) as Hl by (unfold l, bytes_of; rewrite length_fmap, length_seq; pose proof (dtype_sizeOf_pos (dtype_ v)); nia).
  assert (l <> []) as Hne by (intros Hnil; rewrite Hnil in Hl; cbn in Hl; pose proof (dtype_sizeOf_pos (dtype_ v)); nia).
  pose proof (dtype_sizeOf_pos (dtype_ v)). rewrite Hl, Hb, Z.mod_mul, Z.div_mul, Nat2Z.id by lia.
  replace (dtype_sizeOf (dtype_ v) =? 0) with false by lia. replace (match l with [] => true | _ => false end) with false by (by destruct l).
  rewrite bool_decide_eq_false_2 by done. cbn [orb negb Z.eqb throw_if res_bind]. f_equal. unfold elements, element.
  destruct (dtype_ v) eqn:Ht; try done; cbn [dtype_sizeOf] in Hb, Ha.
  - apply list_fmap_ext. intros i k [-> Hk]%lookup_seq. rewrite Nat.add_0_l. unfold load, l. f_equal.
    rewrite word_in_bytes; [f_equal; lia|apply Hwf|lia|]. rewrite Nat2Z.inj_mul. change (Z.of_nat 4) with 4. rewrite Z.mod_add; [done|lia].
  - apply list_fmap_ext. intros i k [-> Hk]%lookup_seq. rewrite Nat.add_0_l. unfold l. rewrite half_in_bytes by lia. do 2 f_equal. lia.
  - apply list_fmap_ext. intros i k [-> Hk]%lookup_seq. rewrite Nat.add_0_l. unfold l. rewrite half_in_bytes by lia. do 2 f_equal. lia.
Qed.

(** ** The conversion of a tensor *)

Definition convertible (h : Host) (v : TensorView) : Prop := usable h v /\ dtype_ v <> INT8.

(** As long as the owner of the view is alive, the view is inside its buffer.  Of a view
    whose owner is gone nothing is known: its storage may be free, or another tensor's. *)
Definition placed_while_alive (h : Host) (v : TensorView) : Prop :=
  expired (owners h) (lifetime_ v) = false -> placed h v.

Lemma dead_not_convertible h v : expired (owners h) (lifetime_ v) = true -> ~ convertible h v.
Proof. intros Hd [[Hp _ _ _ _ _] _]. by rewrite (placed_alive h v Hp) in Hd. Qed.

Lemma elements_valid mem v : Forall valid32 (elements mem v).
Proof. apply Forall_fmap, Forall_true. intros i. apply element_valid. Qed.

Section conversion.
Context `{HA : HostAllocator} `{HL : !HostAllocatorLaws}.

Lemma toFp32Tensor_spec h source : host_wf h -> placed h source ->
  wp (toFp32Tensor source) h (fun t h' => convertible h source /\ new_tensor h (shape_ source) (elements (words h) source) t h')
    (fun e h' => h' = h /\ (kind_of e = InvalidArgument /\ ~ convertible h source \/ convertible h source /\ allocation_error e)).
Proof.
  intros Hwf Hp.
  unfold toFp32Tensor. wp_step. wp_step. wp_step. apply wp_lift. destruct (_ || _) eqn:Hc; cbn [throw_if].
  { split; [done|]. left. split; [done|]. intros [Hu _]. pose proof (usable_valid h source Hwf Hu) as Hv. destruct Hu as [_ _ Hg _ _ _].
    by rewrite Hv, Hg, (placed_alive h source Hp) in Hc. }
  apply orb_false_iff in Hc as [[_ Hv%negb_false_iff]%orb_false_iff Hg%negb_false_iff]. wp_step. apply wp_lift.
  destruct (decide (dtype_ source = INT8)) as [Hd|Hd].
  { rewrite Hd. split; [done|]. left. by split; [|intros [_ ?]]. }
  assert (exists c n, selectExecutionPlan (dtype_ source) cpu = Ok (mkExecutionPlan (dtype_ source) FP32 cpu c n)) as (c & n & ->)
    by (destruct (dtype_ source); [by do 2 eexists|by do 2 eexists|by do 2 eexists|done]).
  wp_step. apply wp_lift. destruct (device_ source) as [[] o] eqn:Hdev; cbn [type bool_decide decide].
  2:{ rewrite (bool_decide_eq_false_2 (mkDevice CUDA o = cpu)) by done. cbn. split; [done|]. left. split; [done|]. intros [[_ Ht _ _ _ _] _]. by rewrite Hdev in Ht. }
  rewrite bool_decide_eq_false_2 by done. cbn [andb throw_if]. assert (usable h source) as Hu by (apply usable_intro; try done; by rewrite Hdev).
  wp_step. apply wp_lift. rewrite toFp32_elements by done. wp_step. apply wp_lift.
  assert (length (elements (words h) source) = Z.to_nat (elementCount (shape_ source))) as Hl by (unfold elements; by rewrite length_fmap, length_seq).
  assert (shape_wf (shape_ source)) as Hs by (destruct Hp as (b & _ & _ & Hw & _); apply (vw_shape _ _ Hw)).
  destruct (sw_count _ Hs) as [Hn _]. pose proof (product_pos _ (sw_dims _ Hs)). rewrite Hl, Z2Nat.id, Z.eqb_refl by lia. cbn [negb throw_if executionDType].
  eapply wp_mono; [apply (store_new_spec (shape_ source) (elements (words h) source) h Hwf Hs Hg (elements_valid _ _) Hl)|by intros|].
  intros e h' [He ->]. split; [done|]. by right.
Qed.

(** A source whose owner is gone. *)
Lemma toFp32Tensor_dead h source : expired (owners h) (lifetime_ source) = true ->
  toFp32Tensor source h = (Throw (Exn InvalidArgument "reference dtype conversion requires a live contiguous tensor"), h).
Proof. intros Hd. unfold toFp32Tensor. cbn. by rewrite Hd. Qed.

(** C18: Converting a stored tensor allocates a float tensor of its shape whose elements
    are exactly the numbers the stored half-precision, bfloat16 or float words stand for
    (infinities stay infinities, NaNs stay NaNs), and changes nothing that was allocated. It
    is refused exactly when the source is not a live contiguous CPU tensor or holds INT8 (a
    view whose owner is gone is refused without its storage being looked at), fails
    otherwise only for lack of memory, and a failed call changes nothing. *)
Theorem stored_weights_convert h source :
  host_wf h -> placed_while_alive h source ->
  (forall v, 0 <= v < 65536 -> encodes 10 5 15 v (fp16ToFloat v) /\ encodes 7 8 127 v (bf16ToFloat v)) /\
  match toFp32Tensor source h with
  | (Ok t, h') => convertible h source /\ new_tensor h (shape_ source) (elements (words h) source) t h'
  | (Throw e, h') => h' = h /\ (kind_of e = InvalidArgument /\ ~ convertible h source \/ convertible h source /\ allocation_error e)
  | (Diverge, _) => False
  end.
Proof.
  intros Hwf Hp. split; [intros v Hv; split; [by apply fp16_encodes|by apply bf16_encodes]|].
  destruct (expired (owners h) (lifetime_ source)) eqn:Hd; [|exact (toFp32Tensor_spec h source Hwf (Hp Hd))].
  rewrite (toFp32Tensor_dead h source Hd). split; [done|]. left. split; [done|]. by apply dead_not_convertible.
Qed.
End conversion.

(** ** A stored matrix *)

Definition sample_half_words (a : Z) : Z := if a =? 4096 then 3221240832 else 0.
(** The halves 1.0 (0x3c00) and -2.0 (0xc000) at 4096. *)
Definition sample_store : Host := mkHost sample_half_words {[4096 := 64]} {[1]} 2 ∅ 0 0 0 0 0.
Definition sample_halves : TensorView := mkView (mkShape [2] [1] 2 2) FP16 cpu 4096 0 4 4 (Some 1).

Lemma sample_store_wf : host_wf sample_store.
Proof.
  constructor; cbn.
  - intros a. unfold sample_half_words, is_u32, u32_max. case_match; lia.
  - intros o Ho. set_unfold in Ho. lia.
  - unfold u64_max. apply map_Forall_insert_2; [lia|]. apply map_Forall_empty.
  - intros p q n m Hp Hq. rewrite lookup_singleton_Some in Hp, Hq. unfold storage_apart. lia.
  - apply map_empty_subseteq.
  - reflexivity.
Qed.

Lemma sample_halves_placed : placed sample_store sample_halves.
Proof.
  exists (mkBuffer 1 4096 4 (Some (CPU, 0))), 4096, 64. split; [|split; [|split; [done|cbn; lia]]]; [|cbn; set_solver].
  constructor; cbn; try done; try lia.
  constructor; cbn; [done|repeat apply Forall_cons_2; [lia|apply Forall_nil_2]|repeat apply Forall_cons_2; [lia|apply Forall_nil_2]| | |];
    unfold u64_max; try (cbn; lia). intros index Hi. unfold in_shape in Hi. cbn in Hi. inversion Hi as [|i d l1 l2 H1 Hi']; subst. inversion Hi'; subst. cbn. lia.
Qed.

(** The same bytes once the tensor that owned them is destroyed. *)
Definition dead_halves : TensorView := mkView (mkShape [2] [1] 2 2) FP16 cpu 4096 0 4 4 (Some 0).

Lemma stored_weights_convert_witness :
  (exists t h', toFp32Tensor sample_halves sample_store = (Ok t, h') /\
    new_tensor sample_store (shape_ sample_halves) [f32_of_Z 1; f32_of_Z (-2)] t h') /\
  exists e, toFp32Tensor dead_halves sample_store = (Throw e, sample_store) /\ kind_of e = InvalidArgument.
Proof.
  split.
  - pose proof (proj2 (stored_weights_convert sample_store sample_halves sample_store_wf (fun _ => sample_halves_placed))) as H.
    assert (elements (words sample_store) sample_halves = [f32_of_Z 1; f32_of_Z (-2)]) as He by (vm_compute; reflexivity).
    assert (exists t, fst (toFp32Tensor sample_halves sample_store) = Ok t) as [t Ht] by (eexists; vm_compute; reflexivity).
    destruct (toFp32Tensor sample_halves sample_store) as [r h'] eqn:Hr. cbn in Ht. subst r. destruct H as [_ H]. rewrite He in H. by exists t, h'.
  - assert (expired (owners sample_store) (lifetime_ dead_halves) = true) as Hd by (vm_compute; reflexivity).
    assert (placed_while_alive sample_store dead_halves) as Hp by (intros Ha; congruence).
    pose proof (proj2 (stored_weights_convert sample_store dead_halves sample_store_wf Hp)) as H.
    destruct H as [_ [[Hk _]|[Hc _]]]; [|exfalso; by apply (dead_not_convertible _ _ Hd)].
    eexists. split; [exact (toFp32Tensor_dead _ _ Hd)|exact Hk].
Defined.
