(* ===== verification/ExpertMlp.v ===== *)
(** * Activations and the expert MLP on the CPU

    [src/tensor/activation/Activation.cpp] and [src/experts/ExpertExecutor.cpp] over the
    CPU tensor backend.  [std::exp] and [std::erf] on floats are parameters; profiling and
    the CUDA paths are not modelled. *)

From S2P Require Import Prelude Float FloatBits Tiers Tensor KVCache Quantization HostMemory CpuTensorBackend SampleHost.

#[local] Open Scope Z_scope.

Inductive ActivationType : Type := SiLU | GELU.
Definition activation_toString (type : ActivationType) : string :=
  match type with SiLU => "SiLU" | GELU => "GELU" end.

Record ExpertMlpWeights : Type := mkMlpWeights {
  gateProjection : TensorView;
  upProjection : TensorView;
  downProjection : TensorView;
  gateQuantization : option QuantizationParameters;
  upQuantization : option QuantizationParameters;
  downQuantization : option QuantizationParameters;
}.

(** [0.70710678118654752440F] *)
Definition inverseSqrtTwo : f32 := Eval vm_compute in f32_of_bits 1060439283.
Definition half : f32 := Eval vm_compute in f32_of_bits 1056964608.
Definition one : f32 := Eval vm_compute in f32_of_bits 1065353216.

Section mlp.
Variables expf erff : f32 -> f32.

Definition silu (value : f32) : f32 := f32_div value (f32_add one (expf (SpecFloat.SFopp value))).
Definition gelu (value : f32) : f32 := f32_mul (f32_mul half value) (f32_add one (erff (f32_mul value inverseSqrtTwo))).
Definition activate (type : ActivationType) : f32 -> f32 := match type with SiLU => silu | GELU => gelu end.

Definition validate_activation (alive : gset Z) (input output : TensorView) (expectedDevice : Device) : result unit :=
  throw_if (negb (view_valid alive input) || negb (view_valid alive output) || negb (bool_decide (device_ input = expectedDevice)) ||
            negb (bool_decide (device_ output = expectedDevice)) || negb (bool_decide (dtype_ input = FP32)) ||
            negb (bool_decide (dtype_ output = FP32)) || negb (bool_decide (shape_ input = shape_ output)) ||
            negb (view_isContiguous input) || negb (view_isContiguous output) || negb (view_writable alive output))
    (Exn InvalidArgument "activation requires equal contiguous writable-output FP32 tensors").

Definition applyCpu (type : ActivationType) (input output : Z) (n : nat) (mem : Z -> Z) : Z -> Z :=
  fill output (fun mem index => activate type (load mem input index)) (seq 0 n) mem.

(** [activation::apply] on the CPU backend. *)
Definition apply_activation (type : ActivationType) (input output : TensorView) : ST Host unit :=
  (h <- st_get ;;
   lift (throw_if (expired (owners h) (lifetime_ input) || expired (owners h) (lifetime_ output))
     (Exn InvalidArgument "activation received expired tensor storage")) ;;;
   lift (validate_activation (owners h) input output cpu) ;;;
   modify (set_words (applyCpu type (data_ input) (mutableData_ output) (count input))))%st.

(** ** The executor *)

Section execute.
Context `{HA : HostAllocator}.

Definition validActivation (alive : gset Z) (view : TensorView) : bool :=
  view_valid alive view && bool_decide (device_ view = cpu) && view_isContiguous view &&
  bool_decide (dtype_ view = FP32) && (rank (shape_ view) =? 2)%nat.

Definition validWeight (alive : gset Z) (view : TensorView) (quantization : option QuantizationParameters) : result bool :=
  if negb (view_valid alive view) || negb (bool_decide (device_ view = cpu)) || negb (view_isContiguous view) ||
     negb (rank (shape_ view) =? 2)%nat then Ok false
  else if bool_decide (dtype_ view = FP32) then Ok (negb (bool_decide (is_Some quantization)))
  else match dtype_ view, quantization with
       | INT8, Some q => (validateParameters QINT8 q ;;? Ok true)%res
       | _, _ => Ok false
       end.

(** [a() && b()] of checks that may throw. *)
Definition and_then (a b : result bool) : result bool := (x <-? a ;; if x then b else Ok false)%res.

Definition mlp_check (alive : gset Z) (input : TensorView) (w : ExpertMlpWeights) (output : TensorView) : result unit :=
  (throw_if (expired alive (lifetime_ input) || expired alive (lifetime_ (gateProjection w)) ||
             expired alive (lifetime_ (upProjection w)) || expired alive (lifetime_ (downProjection w)) ||
             expired alive (lifetime_ output))
     (Exn InvalidArgument "expert MLP received expired tensor storage") ;;?
   valid <-? and_then (Ok (validActivation alive input))
     (and_then (validWeight alive (gateProjection w) (gateQuantization w))
       (and_then (validWeight alive (upProjection w) (upQuantization w))
         (and_then (validWeight alive (downProjection w) (downQuantization w))
           (Ok (validActivation alive output && view_writable alive output))))) ;;
   throw_if (negb valid)
     (Exn InvalidArgument "expert MLP requires FP32 activations and FP32 or metadata-backed INT8 weights on one backend") ;;?
   throw_if (negb (bool_decide (dimensions (shape_ (gateProjection w)) = dimensions (shape_ (upProjection w)))) ||
             negb (dim input 1 =? dim (gateProjection w) 0) || negb (dim (gateProjection w) 1 =? dim (downProjection w) 0) ||
             negb (dim input 0 =? dim output 0) || negb (dim (downProjection w) 1 =? dim output 1))
     (Exn InvalidArgument "expert MLP projection dimensions are incompatible"))%res.

Definition project (source weight : TensorView) (quantization : option QuantizationParameters) (destination : TensorView) : ST Host unit :=
  match dtype_ weight, quantization with
  | INT8, Some q => matmulInt8Weights source weight q destination
  | INT8, None => throw (Exn UndefinedBehaviour "dereference of an empty optional")
  | _, _ => matmul source weight destination
  end.

Definition execute (activation : ActivationType) (input : TensorView) (w : ExpertMlpWeights) (output : TensorView) : ST Host unit :=
  (h <- st_get ;;
   lift (mlp_check (owners h) input w output) ;;;
   intermediateShape <- lift (contiguousShape [dim input 0; dim (gateProjection w) 1]) ;;
   with_tensor intermediateShape FP32 (fun gate =>
   with_tensor intermediateShape FP32 (fun up =>
   with_tensor intermediateShape FP32 (fun activated =>
   with_tensor intermediateShape FP32 (fun gated =>
     project input (gateProjection w) (gateQuantization w) (viewOf true gate) ;;;
     project input (upProjection w) (upQuantization w) (viewOf true up) ;;;
     apply_activation activation (viewOf true gate) (viewOf true activated) ;;;
     mul (viewOf true activated) (viewOf true up) (viewOf true gated) ;;;
     project (viewOf true gated) (downProjection w) (downQuantization w) output)))))%st.
End execute.

(** ** The reference *)

(** The weights a view stands for. *)
Definition weights_of (quantization : option QuantizationParameters) (mem : Z -> Z) (v : TensorView) : list f32 :=
  match quantization with Some q => dequantized q mem v | None => values mem v end.

(** The MLP of an expert on matrices: [(act (x gate) * (x up)) down]. *)
Definition mlp_reference (type : ActivationType) (tokens hidden intermediate width : nat) (x gate up down : list f32) : list f32 :=
  matrix_product tokens intermediate width
    (map2 f32_mul (activate type <$> matrix_product tokens hidden intermediate x gate) (matrix_product tokens hidden intermediate x up))
    down.

(** ** Steps *)

Lemma written_usable h output value h' v : output_written h output value h' -> usable h v -> usable h' v.
Proof. intros [-> _ _] []. by constructor. Qed.
Lemma written_matrix h output value h' d v : output_written h output value h' -> matrix h d v -> matrix h' d v.
Proof. intros Hw (Hu & ? & ?). split; [by eapply written_usable|done]. Qed.
Lemma written_writable h output value h' v : output_written h output value h' -> view_writable (owners h') v = view_writable (owners h) v.
Proof. by intros [-> _ _]. Qed.

Lemma matrix_bytes h v : matrix h FP32 v -> bytes_ v = 4 * Z.of_nat (count v).
Proof. intros ([_ _ _ [Hb _] _ _] & Hd & _). rewrite Hd in Hb. cbn in Hb. lia. Qed.

Lemma written_values h output value h' v :
  output_written h output value h' -> matrix h FP32 output -> matrix h FP32 v -> disjoint v output ->
  values (words h') v = values (words h) v.
Proof.
  intros [_ _ [_ _ Hw]] Ho Hv Hd. apply (values_apart v output); [by eapply matrix_bytes|by eapply matrix_bytes|done|done].
Qed.

(** A weight matrix and its quantization fit together. *)
Definition weight_ok (v : TensorView) (q : option QuantizationParameters) : Prop :=
  match q with
  | None => dtype_ v = FP32
  | Some p => dtype_ v = INT8 /\ validateParameters QINT8 p = Ok tt /\ valid32 (scale p)
  end.

Lemma written_weights h output value h' v q d :
  output_written h output value h' -> matrix h FP32 output -> matrix h d v -> weight_ok v q -> disjoint v output ->
  weights_of q (words h') v = weights_of q (words h) v.
Proof.
  intros Hout Ho Hv Hq Hd. destruct q as [p|]; cbn in *.
  - destruct Hq as (Hdt & _ & _), Hout as [_ _ [_ _ Hw]]. pose proof (matrix_bytes _ _ Ho) as Bo.
    destruct Hv as ([_ _ _ [Bv _] _ _] & _ & _), Ho as ([_ _ _ _ Ao _] & Do & _). rewrite Hdt in Bv. rewrite Do in Ao. cbn in Bv, Ao.
    apply list_fmap_ext. intros i k [-> Hk]%lookup_seq. unfold int8_weight. rewrite (load_int8_apart v output (words h)); try done; lia.
  - eapply written_values; [done..| |done]. destruct Hv as (? & ? & ?). done.
Qed.

Section steps.
Context `{HA : HostAllocator}.

Lemma project_spec h source weight q destination :
  host_wf h -> weight_ok weight q -> product_fits h (dtype_ weight) source weight destination ->
  disjoint source destination -> disjoint weight destination ->
  wp (project source weight q destination) h
    (fun _ h' => exists value, output_written h destination value h' /\
       values (words h') destination =
         matrix_product (dims source 0) (dims source 1) (dims weight 1) (values (words h) source) (weights_of q (words h) weight))
    (fun _ _ => False).
Proof.
  intros Hwf Hq Hf Hds Hdw. pose proof Hf as [(Us & _) (Uw & _) [(Ud & _) _] _ _]. unfold project. destruct q as [p|].
  - destruct Hq as (Hdt & Hval & Hsc). rewrite Hdt in *. eapply wp_mono; [apply matmulInt8_spec; try done; first [apply Us|apply Uw|apply Ud]|..].
    + intros _ h' (_ & H). exact H.
    + intros e h' [_ Hn]. by apply Hn.
  - cbn in Hq. rewrite Hq in *. eapply wp_mono; [apply matmul_spec; try done; first [apply Us|apply Uw|apply Ud]|..].
    + intros _ h' (_ & H). exact H.
    + intros e h' [_ Hn]. by apply Hn.
Qed.

Lemma activation_spec type input output h :
  (forall x, valid32 x -> valid32 (expf x)) -> (forall x, valid32 x -> valid32 (erff x)) ->
  host_wf h -> matrix h FP32 input -> matrix h FP32 output -> device_ input = cpu -> device_ output = cpu ->
  shape_ input = shape_ output -> view_writable (owners h) output = true -> in_place_or_apart input output ->
  wp (apply_activation type input output) h
    (fun _ h' => exists value, output_written h output value h' /\ values (words h') output = activate type <$> values (words h) input)
    (fun _ _ => False).
Proof.
  intros He Hr Hwf Mi Mo Di Do Hs Hwr Hp. unfold apply_activation. wp_step. wp_step. wp_step.
  pose proof Mi as (Ui & Ti & _). pose proof Mo as (Uo & To & _).
  rewrite (placed_alive h input), (placed_alive h output) by (apply Ui || apply Uo). wp_step; [done|]. wp_step. apply wp_lift.
  unfold validate_activation. rewrite (usable_valid h input), (usable_valid h output) by done.
  rewrite (us_contiguous _ _ Ui), (us_contiguous _ _ Uo), Hwr, !bool_decide_eq_true_2 by done. cbn [negb orb throw_if].
  wp_step. rewrite (writable_data h output Hwf (us_placed _ _ Uo) Hwr).
  assert (forall x, valid32 x -> valid32 (activate type x)) as Hact.
  { intros x Hx. assert (valid32 (SpecFloat.SFopp x)) by (destruct x; done). assert (valid32 one) by done. assert (valid32 half) by done.
    assert (valid32 inverseSqrtTwo) by done. destruct type; cbn [activate]; unfold silu, gelu; auto 10 with valid. }
  set (value := fun k => activate type (load (words h) (data_ input) k)). exists value.
  assert (count input = count output) as Hc by (unfold count; congruence).
  assert (output_written h output value (set_words (applyCpu type (data_ input) (data_ output) (count input)) h)) as Hw.
  { apply output_written_intro; [done|]. rewrite Hc. unfold applyCpu.
    apply (fill_written (data_ output) (fun mem k => activate type (load mem (data_ input) k)) (count output) (words h)); [apply Hwf|..].
    - intros k Hk. apply Hact, f32_of_bits_valid.
    - intros k mem' Hk Hm. f_equal. apply (load_in_place _ output); [by eapply matrix_bytes|by eapply matrix_bytes|done|done|lia|done]. }
  split; [done|]. rewrite (values_written _ _ _ _ Hw). unfold values, value. rewrite Hc, <- list_fmap_compose. done.
Qed.

Lemma disjoint_sym v w : disjoint v w -> disjoint w v.
Proof. unfold disjoint. tauto. Qed.
Lemma disjoint_data h d v w : matrix h d v -> matrix h FP32 w -> disjoint v w -> data_ v <> data_ w.
Proof.
  intros ([_ _ _ [Bv Cv] _ _] & _ & _) Mw Hd. pose proof (matrix_bytes _ _ Mw) as Bw. destruct Mw as ([_ _ _ [_ Cw] _ _] & _ & _).
  pose proof (dtype_sizeOf_pos (dtype_ v)). unfold disjoint in Hd. nia.
Qed.

(** A temporary matrix next to what the computation reads and writes. *)
Record temporary (h : Host) (I G U D O t1 t : TensorView) : Prop := Temporary {
  tp_matrix : matrix h FP32 t;
  tp_writable : view_writable (owners h) t = true;
  tp_device : device_ t = cpu;
  tp_shape : shape_ t = shape_ t1;
  tp_apart : disjoint I t /\ disjoint G t /\ disjoint U t /\ disjoint D t /\ disjoint t O;
}.

Lemma written_temporary h o value h' I G U D O t1 t : output_written h o value h' -> temporary h I G U D O t1 t -> temporary h' I G U D O t1 t.
Proof. intros Hw []. constructor; try done; [by eapply written_matrix|]. by rewrite (written_writable _ _ _ _ _ Hw). Qed.

Lemma fits_intro h d left right output :
  matrix h FP32 left -> matrix h d right -> matrix h FP32 output -> view_writable (owners h) output = true ->
  dim right 0 = dim left 1 -> dim output 0 = dim left 0 -> dim output 1 = dim right 1 ->
  disjoint left output -> disjoint right output -> product_fits h d left right output.
Proof.
  intros. constructor; [done..|split; [done|done]|by split|]. split; by eapply disjoint_data.
Qed.

(** The computations between the allocations and the end, over matrices that are apart
    from each other. *)
Lemma body_spec type h I G U D O t1 t2 t3 t4 qg qu qd :
  (forall x, valid32 x -> valid32 (expf x)) -> (forall x, valid32 x -> valid32 (erff x)) -> host_wf h ->
  matrix h FP32 I -> matrix h (dtype_ G) G -> matrix h (dtype_ U) U -> matrix h (dtype_ D) D -> matrix h FP32 O ->
  weight_ok G qg -> weight_ok U qu -> weight_ok D qd -> view_writable (owners h) O = true ->
  dim I 1 = dim G 0 -> dim U 0 = dim G 0 -> dim U 1 = dim G 1 -> dim G 1 = dim D 0 -> dim I 0 = dim O 0 -> dim D 1 = dim O 1 ->
  Forall (temporary h I G U D O t1) [t1; t2; t3; t4] ->
  dim t1 0 = dim I 0 -> dim t1 1 = dim G 1 ->
  disjoint t1 t2 -> disjoint t1 t3 -> disjoint t1 t4 -> disjoint t2 t3 -> disjoint t2 t4 -> disjoint t3 t4 -> disjoint D O ->
  wp (project I G qg t1 ;;; project I U qu t2 ;;; apply_activation type t1 t3 ;;; mul t3 t2 t4 ;;; project t4 D qd O)%st h
    (fun _ h' => balanced h h' /\
       values (words h') O = mlp_reference type (dims I 0) (dims I 1) (dims G 1) (dims D 1)
         (values (words h) I) (weights_of qg (words h) G) (weights_of qu (words h) U) (weights_of qd (words h) D) /\
       forall a, (forall v, v ∈ [t1; t2; t3; t4; O] -> forall k, (k < count v)%nat -> a <> cell (data_ v) k) -> words h' a = words h a)
    (fun _ _ => False).
Proof.
  intros He Hr Hwf MI MG MU MD MO QG QU QD WO E1 E2 E3 E4 E5 E6 HT T0 T1 D12 D13 D14 D23 D24 D34 DDO.
  apply Forall_cons in HT as [P1 [P2 [P3 [P4 _]%Forall_cons]%Forall_cons]%Forall_cons].
  assert (forall t, temporary h I G U D O t1 t -> dim t 0 = dim I 0 /\ dim t 1 = dim G 1) as Hdim.
  { intros t [_ _ _ Hs _]. unfold dim. rewrite Hs. done. }
  (* gate *)
  wp_step. eapply wp_mono; [apply project_spec; [done|done| |apply P1|apply P1]| |done].
  { apply fits_intro; [done|done|apply P1|apply P1|by rewrite E1|apply Hdim, P1|apply Hdim, P1|apply P1|apply P1]. }
  intros _ h1 (v1 & W1 & V1). pose proof (ow_wf _ _ _ _ W1) as Hwf1.
  pose proof (written_temporary _ _ _ _ _ _ _ _ _ _ _ W1 P2) as P2'. 
  (* up *)
  wp_step. eapply wp_mono; [apply project_spec; [done|done| |apply P2|apply P2]| |done].
  { apply fits_intro; [by eapply written_matrix|by eapply written_matrix|apply P2'|apply P2'|by rewrite E2|apply Hdim, P2|
      rewrite E3; apply Hdim, P2|apply P2|apply P2]. }
  intros _ h2 (v2 & W2 & V2). pose proof (ow_wf _ _ _ _ W2) as Hwf2.
  assert (forall t, temporary h I G U D O t1 t -> temporary h2 I G U D O t1 t) as K2 by (intros t Ht; by eapply written_temporary, written_temporary).
  (* activation *)
  wp_step. eapply wp_mono; [apply (activation_spec type t1 t3 h2 He Hr Hwf2); [apply K2, P1|apply K2, P3|apply P1|apply P3|
    symmetry; apply P3|apply K2, P3|by right]| |done].
  intros _ h3 (v3 & W3 & V3). pose proof (ow_wf _ _ _ _ W3) as Hwf3.
  assert (forall t, temporary h I G U D O t1 t -> temporary h3 I G U D O t1 t) as K3 by (intros t Ht; eapply written_temporary; [done|by apply K2]).
  (* product with up *)
  wp_step. eapply wp_mono; [apply (elementwise_spec "CPU multiply" f32_mul t3 t2 t4 h3 Hwf3);
    [apply (K3 t3 P3)|apply (K3 t2 P2)|apply (K3 t4 P4)|by right|by right|apply f32_mul_valid]| |].
  2:{ intros e h4 [_ Hn]. apply Hn. pose proof (K3 _ P2) as [M2 _ _ S2 _]. pose proof (K3 _ P3) as [M3 _ _ S3 _]. pose proof (K3 _ P4) as [M4 Wr4 _ S4 _].
    constructor; [split; [apply M3|split; [apply M2|apply M4]]|split; [apply M3|split; [apply M2|apply M4]]|split; congruence|done]. }
  intros _ h4 (_ & v4 & W4 & V4). pose proof (ow_wf _ _ _ _ W4) as Hwf4.
  assert (forall t, temporary h I G U D O t1 t -> temporary h4 I G U D O t1 t) as K4 by (intros t Ht; eapply written_temporary; [done|by apply K3]).
  assert (forall d v, matrix h d v -> matrix h4 d v) as M4 by (intros d v Hv; by do 4 (eapply written_matrix; [done|])).
  (* down *)
  eapply wp_mono; [apply project_spec; [done|done| |apply P4|done]| |done].
  { apply fits_intro; [apply (K4 t4 P4)|by apply M4|by apply M4| |rewrite (proj2 (Hdim t4 P4)); done|rewrite (proj1 (Hdim t4 P4)); done|done|apply P4|done].
    by rewrite (written_writable _ _ _ _ _ W4), (written_writable _ _ _ _ _ W3), (written_writable _ _ _ _ _ W2), (written_writable _ _ _ _ _ W1). }
  intros _ h5 (v5 & W5 & V5). split; [|split].
  - do 4 (eapply balanced_trans; [by eapply output_balanced|]). by eapply output_balanced.
  - assert (values (words h4) t4 = map2 f32_mul (activate type <$> values (words h1) t1) (values (words h2) t2)) as R4.
    { rewrite V4, V3. f_equal.
      - f_equal. eapply written_values; [exact W2|apply P2'|eapply written_matrix; [exact W1|apply P1]|done].
      - eapply written_values; [exact W3|apply (K2 t3 P3)|apply (K2 t2 P2)|done]. }
    assert (weights_of qd (words h4) D = weights_of qd (words h) D) as RD.
    { erewrite (written_weights h3 t4 _ h4); [|exact W4|apply (K3 t4 P4)|by do 3 (eapply written_matrix; [done|])|done|apply P4].
      erewrite (written_weights h2 t3 _ h3); [|exact W3|apply (K2 t3 P3)|by do 2 (eapply written_matrix; [done|])|done|apply P3].
      erewrite (written_weights h1 t2 _ h2); [|exact W2|apply P2'|by eapply written_matrix|done|apply P2].
      eapply written_weights; [exact W1|apply P1|done|done|apply P1]. }
    rewrite V5, R4, RD, V1, V2. unfold mlp_reference.
    assert (dims t4 0 = dims I 0 /\ dims t4 1 = dims G 1 /\ dims U 1 = dims G 1) as (-> & -> & ->)
      by (unfold dims; rewrite (proj1 (Hdim t4 P4)), (proj2 (Hdim t4 P4)), E3; done).
    rewrite (written_values _ _ _ _ I W1 (tp_matrix _ _ _ _ _ _ _ _ P1) MI) by apply P1.
    by rewrite (written_weights _ _ _ _ U qu _ W1 (tp_matrix _ _ _ _ _ _ _ _ P1) MU) by (done || apply P1).
  - intros a Ha.
    rewrite (wn_other _ _ _ _ _ (ow_written _ _ _ _ W5)), (wn_other _ _ _ _ _ (ow_written _ _ _ _ W4)), (wn_other _ _ _ _ _ (ow_written _ _ _ _ W3)),
      (wn_other _ _ _ _ _ (ow_written _ _ _ _ W2)), (wn_other _ _ _ _ _ (ow_written _ _ _ _ W1)); [done|apply Ha; set_solver..].
Qed.

(** ** The checks *)

Record activation_fits (h : Host) (v : TensorView) : Prop := ActivationFits { af_matrix : matrix h FP32 v; af_device : device_ v = cpu }.
Definition quantization_fits (v : TensorView) (q : option QuantizationParameters) : Prop :=
  match q with None => dtype_ v = FP32 | Some p => dtype_ v = INT8 /\ validateParameters QINT8 p = Ok tt end.
Record weight_fits (h : Host) (v : TensorView) (q : option QuantizationParameters) : Prop := WeightFits {
  wf_matrix : matrix h (dtype_ v) v;
  wf_device : device_ v = cpu;
  wf_quantization : quantization_fits v q;
}.
Record mlp_fits (h : Host) (input : TensorView) (w : ExpertMlpWeights) (output : TensorView) : Prop := MlpFits {
  mf_input : activation_fits h input;
  mf_gate : weight_fits h (gateProjection w) (gateQuantization w);
  mf_up : weight_fits h (upProjection w) (upQuantization w);
  mf_down : weight_fits h (downProjection w) (downQuantization w);
  mf_output : activation_fits h output /\ view_writable (owners h) output = true;
  mf_dims : dimensions (shape_ (gateProjection w)) = dimensions (shape_ (upProjection w)) /\
    dim input 1 = dim (gateProjection w) 0 /\ dim (gateProjection w) 1 = dim (downProjection w) 0 /\
    dim input 0 = dim output 0 /\ dim (downProjection w) 1 = dim output 1;
}.

Lemma validActivation_spec h v : host_wf h -> placed h v -> validActivation (owners h) v = true <-> activation_fits h v.
Proof.
  intros Hwf Hp. unfold validActivation. rewrite !andb_true_iff, !bool_decide_eq_true, Nat.eqb_eq. split.
  - intros ((((Hv & Hd) & Hc) & Ht) & Hr). constructor; [|done]. split; [|done]. apply usable_intro; try done. by rewrite Hd.
  - intros [(Hu & Ht & Hr) Hd]. rewrite (usable_valid h v Hwf Hu), (us_contiguous _ _ Hu). done.
Qed.

(** The outcome of a check that may throw. *)
Definition decides (r : result bool) (P : Prop) : Prop :=
  match r with Ok b => b = true <-> P | Throw e => kind_of e = InvalidArgument /\ ~ P | Diverge => False end.

Lemma decides_bool (b : bool) P : (b = true <-> P) -> decides (Ok b) P.
Proof. done. Qed.
Lemma decides_and a b P Q : decides a P -> decides b Q -> decides (and_then a b) (P /\ Q).
Proof.
  destruct a as [[]|e|]; cbn; try done.
  - destruct b as [[]|e|]; cbn; tauto.
  - intros HP _. split; [done|]. intros [? _]. by apply HP.
  - tauto.
Qed.

Lemma validWeight_spec h v q : host_wf h -> placed h v -> decides (validWeight (owners h) v q) (weight_fits h v q).
Proof.
  intros Hwf Hp. unfold validWeight. match goal with |- context [if ?c then _ else _] => destruct c eqn:Hc end.
  { cbn. split; [done|]. intros [(Hu & _ & Hr) Hd _].
    rewrite (usable_valid h v Hwf Hu), (us_contiguous _ _ Hu), Hd, Hr in Hc. rewrite bool_decide_eq_true_2 in Hc by done. done. }
  repeat (apply orb_false_iff in Hc as [Hc ?]). repeat match goal with H : negb _ = false |- _ => apply negb_false_iff in H end.
  repeat match goal with H : bool_decide _ = true |- _ => apply bool_decide_eq_true in H end.
  repeat match goal with H : (_ =? _)%nat = true |- _ => apply Nat.eqb_eq in H end.
  assert (matrix h (dtype_ v) v /\ device_ v = cpu) as [Hm Hd].
  { split; [|done]. split; [|done]. apply usable_intro; try done. by match goal with H : device_ v = cpu |- _ => rewrite H end. }
  destruct (bool_decide_reflect (dtype_ v = FP32)) as [Ht|Ht].
  - cbn. rewrite negb_true_iff, bool_decide_eq_false. split.
    + intros Hq. constructor; [done..|]. destruct q; [destruct Hq; by eexists|done].
    + intros [_ _ Hq] [p ->]. cbn in Hq. destruct Hq as [Hq _]. congruence.
  - destruct q as [p|].
    + assert (dtype_ v = INT8 -> decides (validateParameters QINT8 p ;;? Ok true)%res (weight_fits h v (Some p))) as Hi.
      { intros Hdt. destruct (validateParameters_cases QINT8 p) as [Hv|(e & Hv & He)]; rewrite Hv; cbn.
        - split; [|done]. intros _. by constructor.
        - split; [done|]. intros [_ _ [_ Hx]]. congruence. }
      destruct (dtype_ v) eqn:Hdt; try done; try (apply Hi; done); cbn; (split; [done|]); intros [_ _ [Hx _]]; congruence.
    + destruct (dtype_ v) eqn:Hdt; try done; cbn; (split; [done|]); intros [_ _ Hx]; cbn in Hx; congruence.
Qed.

Lemma mlp_check_spec h input w output :
  host_wf h -> placed h input -> placed h (gateProjection w) -> placed h (upProjection w) -> placed h (downProjection w) -> placed h output ->
  (mlp_check (owners h) input w output = Ok tt /\ mlp_fits h input w output) \/
  (exists e, mlp_check (owners h) input w output = Throw e /\ kind_of e = InvalidArgument /\ ~ mlp_fits h input w output).
Proof.
  intros Hwf PI PG PU PD PO. unfold mlp_check. rewrite !placed_alive by done. cbn [orb throw_if res_bind].
  assert (validActivation (owners h) output && view_writable (owners h) output = true <->
    activation_fits h output /\ view_writable (owners h) output = true) as HO by (by rewrite andb_true_iff, validActivation_spec).
  pose proof (decides_and _ _ _ _ (decides_bool _ _ (validActivation_spec h input Hwf PI))
    (decides_and _ _ _ _ (validWeight_spec h (gateProjection w) (gateQuantization w) Hwf PG)
      (decides_and _ _ _ _ (validWeight_spec h (upProjection w) (upQuantization w) Hwf PU)
        (decides_and _ _ _ _ (validWeight_spec h (downProjection w) (downQuantization w) Hwf PD)
          (decides_bool (validActivation (owners h) output && view_writable (owners h) output)
            (activation_fits h output /\ view_writable (owners h) output = true) HO))))) as Hd.
  destruct (and_then _ _) as [valid|e|]; cbn [decides res_bind] in Hd |- *; [|right; exists e|done].
  2:{ destruct Hd as [He Hn]. split; [done|]. split; [done|]. intros [? ? ? ? ? _]. by apply Hn. }
  destruct valid; cbn [negb throw_if res_bind].
  2:{ right. eexists. split; [reflexivity|]. split; [done|]. intros [? ? ? ? ? _]. destruct Hd as [_ Hd]. discriminate Hd. done. }
  destruct Hd as [Hd _]. destruct (Hd eq_refl) as (FI & FG & FU & FD & FO).
  match goal with |- context [throw_if ?c _] => destruct c eqn:Hc end; cbn [throw_if].
  { right. eexists. split; [reflexivity|]. split; [done|]. intros [_ _ _ _ _ (H1 & H2 & H3 & H4 & H5)].
    rewrite bool_decide_eq_true_2, H2, H3, H4, H5, !Z.eqb_refl in Hc by done. done. }
  left. split; [done|]. repeat (apply orb_false_iff in Hc as [Hc ?]).
  repeat match goal with H : negb _ = false |- _ => apply negb_false_iff in H end. apply bool_decide_eq_true in Hc.
  constructor; try done. split; [done|]. lia.
Qed.

(** ** The whole call *)

Context `{HL : !HostAllocatorLaws}.

Definition scales_valid (w : ExpertMlpWeights) : Prop :=
  Forall (fun q => match q with Some p => valid32 (scale p) | None => True end) [gateQuantization w; upQuantization w; downQuantization w].

(** What a returned call leaves. *)
Definition mlp_done (type : ActivationType) (h : Host) (input : TensorView) (w : ExpertMlpWeights) (output : TensorView) (mem : Z -> Z) : Prop :=
  values mem output = mlp_reference type (dims input 0) (dims input 1) (dims (gateProjection w) 1) (dims (downProjection w) 1)
    (values (words h) input) (weights_of (gateQuantization w) (words h) (gateProjection w))
    (weights_of (upQuantization w) (words h) (upProjection w)) (weights_of (downQuantization w) (words h) (downProjection w)) /\
  forall a, in_storage h a -> (forall k, (k < count output)%nat -> a <> cell (data_ output) k) -> mem a = words h a.

(** The views of the call in a later memory of the same contents. *)
Record stage (h0 h : Host) (s : Shape) (input : TensorView) (w : ExpertMlpWeights) (output : TensorView) (ts : list TensorView) : Prop := Stage {
  sg_wf : host_wf h;
  sg_words : words h = words h0;
  sg_storage : forall a, in_storage h0 a -> in_storage h a;
  sg_views : Forall (usable h) [input; gateProjection w; upProjection w; downProjection w; output];
  sg_writable : view_writable (owners h) output = true;
  sg_tensors : Forall (fun t => (usable h t /\ view_writable (owners h) t = true /\ device_ t = cpu /\ shape_ t = s /\ dtype_ t = FP32) /\
    Forall (fun v => disjoint v t) [input; gateProjection w; upProjection w; downProjection w; output] /\
    forall a k, in_storage h0 a -> (k < count t)%nat -> a <> cell (data_ t) k) ts;
  sg_apart : ForallOrdPairs (fun t u => disjoint u t) ts;
}.

Lemma stage_extend h0 h s input w output ts t h1 :
  shape_wf s -> shape_isContiguous s = true -> stage h0 h s input w output ts -> fresh_tensor h s FP32 t h1 -> words h1 = words h ->
  stage h0 h1 s input w output (viewOf true t :: ts).
Proof.
  intros Hs Hc [Hwf Hw Hst Hv Hwr Hts Hap] Hf Heq. pose proof Hf as [Hwf1 (b & Ha & Hsz & Ht)].
  destruct (fresh_usable h s FP32 t h1 true Hs Hc Hf) as [Hu Hwt]. constructor.
  - done.
  - congruence.
  - intros a Hin. eapply fresh_storage; [exact Hwf|exact Hf|]. by apply Hst.
  - eapply Forall_impl; [exact Hv|]. intros v. exact (fresh_usable_keeps h s FP32 t h1 v Hwf Hf).
  - exact (fresh_writable_keeps h s FP32 t h1 output Hf Hwr).
  - apply Forall_cons_2.
    + split; [split; [done|split; [done|by rewrite Ht]]|]. split.
      * eapply Forall_impl; [exact Hv|]. intros v Hvu. exact (fresh_disjoint h s FP32 t h1 v true Hwf Hs Hc Hf Hvu).
      * intros a k Hin Hk. exact (fresh_cells h s t h1 a k Hwf Hs Hc Hf (Hst a Hin) Hk).
    + eapply Forall_impl; [exact Hts|]. intros u ((Uu & Wu & Du) & Hdis & Hcell). split; [|done].
      split; [exact (fresh_usable_keeps h s FP32 t h1 u Hwf Hf Uu)|]. split; [exact (fresh_writable_keeps h s FP32 t h1 u Hf Wu)|done].
  - constructor; [|done]. eapply Forall_impl; [exact Hts|]. intros u ((Uu & _) & _). exact (fresh_disjoint h s FP32 t h1 u true Hwf Hs Hc Hf Uu).
Qed.

Lemma with_tensor_stage {A} h0 h s input w output ts (body : Tensor -> ST Host A) (Q : A -> (Z -> Z) -> Prop) (E : exn -> (Z -> Z) -> Prop) :
  shape_wf s -> shape_isContiguous s = true -> stage h0 h s input w output ts ->
  (forall e, allocation_error e -> E e (words h0)) ->
  (forall t h1, stage h0 h1 s input w output (viewOf true t :: ts) ->
     wp (body t) h1 (fun a h2 => balanced h1 h2 /\ Q a (words h2)) (fun e h2 => balanced h1 h2 /\ E e (words h2))) ->
  wp (with_tensor s FP32 body) h (fun a h2 => balanced h h2 /\ Q a (words h2)) (fun e h2 => balanced h h2 /\ E e (words h2)).
Proof.
  intros Hs Hc Hst He Hb. apply with_tensor_spec; [apply Hst|done|done|rewrite (sg_words _ _ _ _ _ _ _ Hst); exact He|].
  intros t h1 Hf Hw. apply Hb. by eapply stage_extend.
Qed.

Lemma weight_ok_of v q : quantization_fits v q -> match q with Some p => valid32 (scale p) | None => True end -> weight_ok v q.
Proof. destruct q; cbn; tauto. Qed.

(** The computations once the four temporaries are there. *)
Lemma staged_body type h0 h s input w output t1 t2 t3 t4 :
  (forall x, valid32 x -> valid32 (expf x)) -> (forall x, valid32 x -> valid32 (erff x)) ->
  mlp_fits h0 input w output -> scales_valid w -> disjoint (downProjection w) output ->
  stage h0 h s input w output [t4; t3; t2; t1] -> dimensions s = [dim input 0; dim (gateProjection w) 1] ->
  wp (project input (gateProjection w) (gateQuantization w) t1 ;;; project input (upProjection w) (upQuantization w) t2 ;;;
      apply_activation type t1 t3 ;;; mul t3 t2 t4 ;;; project t4 (downProjection w) (downQuantization w) output)%st h
    (fun _ h' => balanced h h' /\ mlp_done type h0 input w output (words h')) (fun _ _ => False).
Proof.
  intros He Hr Hf Hsc Hdis [Hwf Hw Hin HV HWo HT HAp] Hds.
  destruct Hf as [[MI DI] [MG DG QG] [MU DU QU] [MD DD QD] [[MO DO] WO] (Hdim & E1 & E4 & E5 & E6)].
  apply Forall_cons in HV as [UI [UG [UU [UD [UO _]%Forall_cons]%Forall_cons]%Forall_cons]%Forall_cons].
  apply Forall_cons in HT as [T4 [T3 [T2 [T1 _]%Forall_cons]%Forall_cons]%Forall_cons].
  apply Forall_cons in Hsc as [SG [SU [SD _]%Forall_cons]%Forall_cons].
  assert (forall t, (usable h t /\ view_writable (owners h) t = true /\ device_ t = cpu /\ shape_ t = s /\ dtype_ t = FP32) /\
    Forall (fun v => disjoint v t) [input; gateProjection w; upProjection w; downProjection w; output] /\
    (forall a k, in_storage h0 a -> (k < count t)%nat -> a <> cell (data_ t) k) ->
    temporary h input (gateProjection w) (upProjection w) (downProjection w) output t1 t) as Htemp.
  { intros t ((Ut & Wt & Dt & St & Ft) & Hd & _).
    apply Forall_cons in Hd as [? [? [? [? [? _]%Forall_cons]%Forall_cons]%Forall_cons]%Forall_cons].
    constructor; [|done|done|destruct T1 as ((_ & _ & _ & S1 & _) & _); congruence|split_and!; try done; by apply disjoint_sym].
    split; [done|]. split; [done|]. unfold rank. by rewrite St, Hds. }
  inversion HAp as [|? ? A4 HA3]; subst. inversion HA3 as [|? ? A3 HA2]; subst. inversion HA2 as [|? ? A2 _]; subst. clear HAp HA2 HA3.
  apply Forall_cons in A4 as [D43 [D42 [D41 _]%Forall_cons]%Forall_cons]. apply Forall_cons in A3 as [D32 [D31 _]%Forall_cons].
  apply Forall_cons in A2 as [D21 _].
  assert (dim t1 0 = dim input 0 /\ dim t1 1 = dim (gateProjection w) 1) as [E10 E11].
  { destruct T1 as ((_ & _ & _ & S1 & _) & _). unfold dim. rewrite S1, Hds. done. }
  assert (dim (upProjection w) 0 = dim (gateProjection w) 0 /\ dim (upProjection w) 1 = dim (gateProjection w) 1) as [EU0 EU1] by (unfold dim; rewrite Hdim; done).
  assert (forall d v, usable h v -> matrix h0 d v -> matrix h d v) as Hm by (intros d v Hv (_ & ? & ?); done).
  eapply wp_mono; [apply (body_spec type h input (gateProjection w) (upProjection w) (downProjection w) output t1 t2 t3 t4); try done;
    try (by apply Hm); try (by apply weight_ok_of); by repeat apply Forall_cons_2; [..|apply Forall_nil_2]; apply Htemp| |done].
  intros _ h' (Hb & Hval & Hother). split; [done|]. split; [by rewrite Hval, Hw|].
  intros a Ha Hno. rewrite Hother; [by rewrite Hw|]. intros v Hv k Hk.
  rewrite !elem_of_cons in Hv. destruct Hv as [->|[->|[->|[->|[->|[]%not_elem_of_nil]]]]];
    [by apply T1|by apply T2|by apply T3|by apply T4|by apply Hno].
Qed.

Lemma execute_spec type h input w output :
  (forall x, valid32 x -> valid32 (expf x)) -> (forall x, valid32 x -> valid32 (erff x)) -> host_wf h ->
  placed h input -> placed h (gateProjection w) -> placed h (upProjection w) -> placed h (downProjection w) -> placed h output ->
  scales_valid w -> disjoint (downProjection w) output ->
  wp (execute type input w output) h
    (fun _ h' => balanced h h' /\ mlp_fits h input w output /\ mlp_done type h input w output (words h'))
    (fun e h' => balanced h h' /\ words h' = words h /\
       (kind_of e = InvalidArgument /\ ~ mlp_fits h input w output \/ mlp_fits h input w output /\ allocation_error e)).
Proof.
  intros He Hr Hwf PI PG PU PD PO Hsc Hdis. unfold execute. wp_step. wp_step. wp_step. apply wp_lift.
  destruct (mlp_check_spec h input w output Hwf PI PG PU PD PO) as [[-> Hf]|(e & -> & Hke & Hn)].
  2:{ split; [by apply balanced_refl|]. split; [done|]. by left. }
  wp_step. apply wp_lift. pose proof Hf as [[MI DI] [MG DG QG] [MU DU QU] [MD DD QD] [[MO DO] WO] (Hdim & E1 & E4 & E5 & E6)].
  assert (Forall (fun d => 1 <= d <= u64_max) [dim input 0; dim (gateProjection w) 1]) as Hu.
  { apply Forall_cons_2; [by eapply matrix_dims, Nat.lt_0_2|]. apply Forall_cons_2; [by eapply matrix_dims, Nat.lt_1_2|]. apply Forall_nil_2. }
  pose proof (contiguousShape_spec [dim input 0; dim (gateProjection w) 1]) as Hshape. 
  pose proof (contiguousShape_overflow [dim input 0; dim (gateProjection w) 1]) as Hover. destruct (contiguousShape _) as [s|e|].
  3:{ apply Hshape. eapply Forall_impl; [exact Hu|]. unfold is_u64. intros ? [? ?]; lia. }
  2:{ split; [by apply balanced_refl|]. split; [done|]. right. split; [done|]. right. apply Hover; [|done]. eapply Forall_impl; [exact Hu|]. intros ? [? ?]; lia. }
  destruct Hshape as (Hs & Hds & Hss & _). { eapply Forall_impl; [exact Hu|]. unfold is_u64. intros ? [? ?]; lia. }
  assert (shape_isContiguous s = true) as Hc by (apply isContiguous_spec; [done|]; by rewrite Hss, Hds).
  assert (stage h h s input w output []) as S0.
  { constructor; try done; [|constructor]. repeat apply Forall_cons_2; [apply MI|apply MG|apply MU|apply MD|apply MO|apply Forall_nil_2]. }
  pose (Q := fun (_ : unit) m => mlp_done type h input w output m). pose (E := fun e m => allocation_error e /\ m = words h).
  assert (forall e, allocation_error e -> E e (words h)) as HE by done.
  eapply wp_mono; [apply (with_tensor_stage h h s input w output [] _ Q E Hs Hc S0 HE)| |].
  2:{ intros a h' [? ?]. done. }
  2:{ intros e h' (? & ? & ?). split; [done|]. split; [done|]. by right. }
  intros t1 h1 S1. apply (with_tensor_stage h h1 s input w output _ _ Q E Hs Hc S1 HE). intros t2 h2 S2.
  apply (with_tensor_stage h h2 s input w output _ _ Q E Hs Hc S2 HE). intros t3 h3 S3.
  apply (with_tensor_stage h h3 s input w output _ _ Q E Hs Hc S3 HE). intros t4 h4 S4.
  eapply wp_mono; [by eapply staged_body|done|done].
Qed.

(** C13: For an output disjoint from the storage of the down projection (an overlap is
    accepted and computes something else, see [overlapping_output_accepted]), running an
    expert computes [down((act(x gate)) * (x up))]: on return the output
    matrix is the reference MLP of the matrices the views hold (INT8 weights dequantized with
    their parameters), nothing else that was allocated has changed and every temporary is
    released, even when the output shares storage with the input. The call is refused exactly
    when types, devices, shapes or quantization metadata do not fit, fails otherwise only for
    lack of memory, and then has written nothing. *)
Theorem expert_mlp_exact type h input w output :
  (forall x, valid32 x -> valid32 (expf x)) -> (forall x, valid32 x -> valid32 (erff x)) -> host_wf h ->
  placed h input -> placed h (gateProjection w) -> placed h (upProjection w) -> placed h (downProjection w) -> placed h output ->
  scales_valid w -> disjoint (downProjection w) output ->
  match execute type input w output h with
  | (Ok _, h') => balanced h h' /\ mlp_fits h input w output /\ mlp_done type h input w output (words h')
  | (Throw e, h') => balanced h h' /\ words h' = words h /\
      (kind_of e = InvalidArgument /\ ~ mlp_fits h input w output \/ mlp_fits h input w output /\ allocation_error e)
  | (Diverge, _) => False
  end.
Proof. intros. by apply execute_spec. Qed.
End steps.
End mlp.

(** ** An expert of two hidden and two intermediate features *)

Definition sample_input : TensorView := sample_matrix 1 1024 1 2 FP32 false.
Definition sample_output : TensorView := sample_matrix 5 5120 1 1 FP32 true.
Definition sample_weights : ExpertMlpWeights :=
  mkMlpWeights (sample_matrix 2 2048 2 2 INT8 false) (sample_matrix 3 3072 2 2 FP32 false) (sample_matrix 4 4096 2 1 FP32 false)
    (Some (mkQuantization half 0)) None None.
Definition sample_expf (x : f32) : f32 := f32_add one (f32_mul x x).

Lemma expert_mlp_exact_witness :
  exists h', execute sample_expf id SiLU sample_input sample_weights sample_output sample_host = (Ok tt, h') /\
    balanced sample_host h' /\ mlp_done sample_expf id SiLU sample_host sample_input sample_weights sample_output (words h') /\
    values (words h') sample_output = [f32_of_bits 1073741824].
Proof.
  assert (forall x, valid32 x -> valid32 (sample_expf x)) as He by (intros; unfold sample_expf; auto with valid).
  pose proof (expert_mlp_exact sample_expf id SiLU sample_host sample_input sample_weights sample_output He (fun x H => H) sample_host_wf
    ltac:(by eapply (sample_placed 1)) ltac:(by eapply (sample_placed 2)) ltac:(by eapply (sample_placed 3))
    ltac:(by eapply (sample_placed 4)) ltac:(by eapply (sample_placed 5))
    ltac:(repeat apply Forall_cons_2; [done|done|done|apply Forall_nil_2]) ltac:(by left)) as H.
  assert (fst (execute sample_expf id SiLU sample_input sample_weights sample_output sample_host) = Ok tt) as Hok by (vm_compute; reflexivity).
  assert (values (words (snd (execute sample_expf id SiLU sample_input sample_weights sample_output sample_host))) sample_output = [f32_of_bits 1073741824]) as Hv
    by (vm_compute; reflexivity).
  destruct (execute _ _ _ _ _ _ _) as [r h']. cbn in Hok, Hv. subst r. destruct H as (Hb & _ & Hd). exists h'. by split_and!.
Defined.
