(* ===== verification/WeightMap.v ===== *)
(** * The weights of the experts

    [src/models/ExpertWeightMap.cpp]: where the three projections of each expert are in its
    payload, and the views of a payload the expert MLP runs on. *)

From S2P Require Import Prelude Float FloatBits Tiers Tensor KVCache Quantization HostMemory CpuTensorBackend SampleHost ExpertMlp.

#[local] Open Scope Z_scope.

Record TensorMetadata : Type := mkTensorMetadata {
  tmd_name : string;
  tmd_shape : Shape;
  tmd_dtype : DType;
  tmd_quantizedDType : option QuantizedDType;
  tmd_offset : Z;
  tmd_size : Z;
  tmd_layerId : Z;
  tmd_expertId : option Z;
  tmd_quantizationParameters : option QuantizationParameters;
}.

Definition isQuantized (t : TensorMetadata) : bool :=
  bool_decide (is_Some (tmd_quantizedDType t)) || bool_decide (is_Some (tmd_quantizationParameters t)).

Inductive ExpertWeightType : Type := GATE | UP | DOWN.

Record ExpertWeightBinding : Type := mkWeightBinding {
  bn_layerId : Z;
  bn_expertId : Z;
  bn_gateProjection : option TensorMetadata;
  bn_upProjection : option TensorMetadata;
  bn_downProjection : option TensorMetadata;
}.

(** The default binding of [operator[]]. *)
Definition emptyBinding : ExpertWeightBinding := mkWeightBinding 0 0 None None None.
Definition complete (b : ExpertWeightBinding) : bool :=
  bool_decide (is_Some (bn_gateProjection b)) && bool_decide (is_Some (bn_upProjection b)) && bool_decide (is_Some (bn_downProjection b)).

(** [mappings_] *)
Notation ExpertWeightMap := (gmap Z ExpertWeightBinding).

Definition projection (type : ExpertWeightType) (b : ExpertWeightBinding) : option TensorMetadata :=
  match type with GATE => bn_gateProjection b | UP => bn_upProjection b | DOWN => bn_downProjection b end.
Definition set_projection (type : ExpertWeightType) (t : TensorMetadata) (b : ExpertWeightBinding) : ExpertWeightBinding :=
  match type with
  | GATE => mkWeightBinding (bn_layerId b) (bn_expertId b) (Some t) (bn_upProjection b) (bn_downProjection b)
  | UP => mkWeightBinding (bn_layerId b) (bn_expertId b) (bn_gateProjection b) (Some t) (bn_downProjection b)
  | DOWN => mkWeightBinding (bn_layerId b) (bn_expertId b) (bn_gateProjection b) (bn_upProjection b) (Some t)
  end.

Definition weight_add (layerId expertId : Z) (type : ExpertWeightType) (t : TensorMetadata) : ST ExpertWeightMap unit :=
  (match tmd_expertId t with
   | None => throw (Exn InvalidArgument "expert weight identity does not match mapping key")
   | Some e =>
       if negb (tmd_layerId t =? layerId) || negb (e =? expertId)
       then throw (Exn InvalidArgument "expert weight identity does not match mapping key")
       else
         m <- st_get ;;
         let found := default emptyBinding (m !! pack_key layerId expertId) in
         let binding := mkWeightBinding layerId expertId (bn_gateProjection found) (bn_upProjection found) (bn_downProjection found) in
         modify <[pack_key layerId expertId := binding]> ;;;
         if bool_decide (is_Some (projection type binding)) then throw (Exn InvalidArgument "duplicate expert projection")
         else modify <[pack_key layerId expertId := set_projection type t binding]>
   end)%st.

Definition weight_find (layerId expertId : Z) (m : ExpertWeightMap) : option ExpertWeightBinding := m !! pack_key layerId expertId.

Definition weight_require (layerId expertId : Z) (m : ExpertWeightMap) : result ExpertWeightBinding :=
  match weight_find layerId expertId m with
  | None => Throw (Exn OutOfRange "expert weight mapping not found")
  | Some b => (throw_if (negb (complete b)) (Exn LogicError "expert weight mapping is incomplete") ;;? Ok b)%res
  end.

Definition binding_before (left right : ExpertWeightBinding) : bool :=
  if negb (bn_layerId left =? bn_layerId right) then bn_layerId left <? bn_layerId right else bn_expertId left <? bn_expertId right.
(** The bindings in the order the hash table is walked, sorted. *)
Definition weight_entries (walk : ExpertWeightMap -> list ExpertWeightBinding) (m : ExpertWeightMap) : list ExpertWeightBinding :=
  stable_sort binding_before (walk m).

Definition check_quantization (t : TensorMetadata) : result unit :=
  (if bool_decide (tmd_dtype t = INT8) then
     match tmd_quantizationParameters t with
     | Some p =>
         throw_if (negb (bool_decide (tmd_quantizedDType t = Some QINT8)))
           (Exn InvalidArgument "INT8 expert projection is missing quantization metadata") ;;?
         validateParameters QINT8 p
     | None => Throw (Exn InvalidArgument "INT8 expert projection is missing quantization metadata")
     end
   else throw_if (isQuantized t) (Exn InvalidArgument "quantization metadata does not match expert projection dtype"))%res.

(** The view of one projection. *)
Definition projection_view (alive : gset Z) (expertPayload : TensorView) (payloadFileOffset : Z) (t : TensorMetadata) : result TensorView :=
  (check_quantization t ;;?
   throw_if (tmd_offset t <? payloadFileOffset) (Exn InvalidArgument "tensor offset precedes expert payload") ;;?
   let relative := wrap64 (tmd_offset t - payloadFileOffset) in
   throw_if (u64_max <? relative) (Exn OverflowError "tensor offset exceeds addressable memory") ;;?
   let elementBytes := dtype_sizeOf (tmd_dtype t) in
   throw_if ((elementBytes =? 0) || (u64_max / elementBytes <? storageElementCount (tmd_shape t)) ||
             negb (wrap64 (storageElementCount (tmd_shape t) * elementBytes) =? tmd_size t))
     (Exn InvalidArgument "tensor metadata size does not match shape and dtype") ;;?
   sliceBytes alive expertPayload relative (tmd_shape t) (tmd_dtype t))%res.

Definition createViews (alive : gset Z) (layerId expertId : Z) (expertPayload : TensorView) (payloadFileOffset : Z) (m : ExpertWeightMap)
    : result ExpertMlpWeights :=
  (b <-? weight_require layerId expertId m ;;
   match bn_gateProjection b, bn_upProjection b, bn_downProjection b with
   | Some gate, Some up, Some down =>
       g <-? projection_view alive expertPayload payloadFileOffset gate ;;
       u <-? projection_view alive expertPayload payloadFileOffset up ;;
       d <-? projection_view alive expertPayload payloadFileOffset down ;;
       Ok (mkMlpWeights g u d (tmd_quantizationParameters gate) (tmd_quantizationParameters up) (tmd_quantizationParameters down))
   | _, _, _ => Throw (Exn LogicError "expert weight mapping is incomplete")
   end)%res.

(** ** The map after a list of additions *)

#[global] Instance ExpertWeightType_eq_dec : EqDecision ExpertWeightType.
Proof. solve_decision. Defined.

Record Weight : Type := mkWeight { wt_layer : Z; wt_expert : Z; wt_type : ExpertWeightType; wt_tensor : TensorMetadata }.
Definition weight_key (w : Weight) : Z * Z * ExpertWeightType := (wt_layer w, wt_expert w, wt_type w).

Fixpoint add_all (l : list Weight) : ST ExpertWeightMap unit :=
  match l with
  | [] => ret tt
  | w :: l => (weight_add (wt_layer w) (wt_expert w) (wt_type w) (wt_tensor w) ;;; add_all l)%st
  end.

Definition named (w : Weight) : Prop := tmd_layerId (wt_tensor w) = wt_layer w /\ tmd_expertId (wt_tensor w) = Some (wt_expert w).
Definition ids_u32 (w : Weight) : Prop := is_u32 (wt_layer w) /\ is_u32 (wt_expert w).

Definition weight_of (m : ExpertWeightMap) (layer expert : Z) (type : ExpertWeightType) : option TensorMetadata :=
  m !! pack_key layer expert ≫= projection type.

(** The map holds exactly the weights of [l]. *)
Record holds (m : ExpertWeightMap) (l : list Weight) : Prop := Holds {
  ho_keys : map_Forall (fun k b => is_u32 (bn_layerId b) /\ is_u32 (bn_expertId b) /\ k = pack_key (bn_layerId b) (bn_expertId b)) m;
  ho_weights : forall layer expert type t, is_u32 layer -> is_u32 expert ->
    weight_of m layer expert type = Some t <-> mkWeight layer expert type t ∈ l;
  ho_experts : forall layer expert, is_u32 layer -> is_u32 expert ->
    is_Some (m !! pack_key layer expert) <-> exists w, w ∈ l /\ wt_layer w = layer /\ wt_expert w = expert;
}.

Lemma holds_nothing : holds ∅ [].
Proof.
  constructor; [apply map_Forall_empty|..]; unfold weight_of; setoid_rewrite lookup_empty; cbn.
  - intros. split; [done|by intros ?%not_elem_of_nil].
  - intros. split; [by intros []|by intros (w & []%not_elem_of_nil & _)].
Qed.

Lemma projection_set type t b type' :
  projection type' (set_projection type t b) = if decide (type' = type) then Some t else projection type' b.
Proof. by destruct type, type'. Qed.

Lemma weight_add_spec m l w : holds m l -> ids_u32 w ->
  wp (weight_add (wt_layer w) (wt_expert w) (wt_type w) (wt_tensor w)) m
    (fun _ m' => named w /\ weight_key w ∉ weight_key <$> l /\ holds m' (w :: l))
    (fun e m' => kind_of e = InvalidArgument /\ ~ (named w /\ weight_key w ∉ weight_key <$> l)).
Proof.
  intros [Hk Hw He] [Hl Hx]. destruct w as [layer expert type t]. cbn [wt_layer wt_expert wt_type wt_tensor] in *. unfold weight_add.
  destruct (tmd_expertId t) as [e|] eqn:Hte; [|wp_step; split; [done|]; intros [[_ H] _]; cbn in H; congruence].
  destruct (negb (tmd_layerId t =? layer) || negb (e =? expert)) eqn:Hn.
  { wp_step. split; [done|]. intros [[H1 H2] _]. cbn in H1, H2. rewrite H1, Z.eqb_refl in Hn. assert (e = expert) as -> by congruence. by rewrite Z.eqb_refl in Hn. }
  apply orb_false_iff in Hn as [Hn1%negb_false_iff%Z.eqb_eq Hn2%negb_false_iff%Z.eqb_eq]. subst e layer. set (layer := tmd_layerId t) in *.
  do 4 wp_step. set (k := pack_key layer expert). set (found := default emptyBinding (m !! k)).
  set (b := mkWeightBinding layer expert (bn_gateProjection found) (bn_upProjection found) (bn_downProjection found)).
  assert (forall ty, projection ty b = weight_of m layer expert ty) as Hpb.
  { intros ty. unfold weight_of, b, found. fold k. destruct (m !! k) as [b0|]; [by destruct ty|by destruct ty]. }
  destruct (bool_decide (is_Some (projection type b))) eqn:Hd.
  { apply bool_decide_eq_true in Hd as [t' Ht']. wp_step. split; [done|]. intros [_ Hnin]. apply Hnin.
    rewrite Hpb, Hw in Ht' by done. apply list_elem_of_fmap. by exists (mkWeight layer expert type t'). }
  apply bool_decide_eq_false in Hd. wp_step. split; [by split|]. split.
  { intros ([la ea ta tt'] & [= -> -> ->] & Hin)%list_elem_of_fmap. apply Hd. rewrite Hpb. exists tt'. by apply Hw. }
  rewrite insert_insert_eq. constructor.
  - apply map_Forall_insert_2; [|done]. by destruct type.
  - intros la ea ty t' Hla Hea. unfold weight_of. destruct (decide (la = layer /\ ea = expert)) as [[-> ->]|Hne].
    + fold k. rewrite lookup_insert_eq. cbn [mbind option_bind]. rewrite projection_set, elem_of_cons. destruct (decide (ty = type)) as [->|Hty].
      * split; [intros [= ->]; by left|]. intros [[= ->]|Hin]; [done|]. exfalso. apply Hd. rewrite Hpb. exists t'. by apply Hw.
      * rewrite Hpb, Hw by done. split; [by right|]. intros [[= -> _]|Hin]; done.
    + rewrite lookup_insert_ne by (intros Heq; apply pack_key_inj in Heq; intuition). rewrite elem_of_cons. fold (weight_of m la ea ty). rewrite Hw by done.
      split; [by right|]. intros [[= -> -> _ _]|Hin]; [tauto|done].
  - intros la ea Hla Hea. destruct (decide (la = layer /\ ea = expert)) as [[-> ->]|Hne].
    + fold k. rewrite lookup_insert_eq. split; [|done]. intros _. eexists. split; [by left|done].
    + rewrite lookup_insert_ne by (intros Heq; apply pack_key_inj in Heq; intuition). rewrite He by done. split.
      * intros (w & Hin & ? & ?). exists w. split; [by right|done].
      * intros (w & [->|Hin]%elem_of_cons & H1 & H2); [cbn in H1, H2; subst; tauto|by exists w].
Qed.

Lemma add_all_spec l : forall m seen, Forall ids_u32 l -> holds m seen ->
  wp (add_all l) m
    (fun _ m' => Forall named l /\ NoDup (weight_key <$> l) /\ (forall w, w ∈ l -> weight_key w ∉ weight_key <$> seen) /\ holds m' (reverse l ++ seen))
    (fun e m' => kind_of e = InvalidArgument /\
       ~ (Forall named l /\ NoDup (weight_key <$> l) /\ forall w, w ∈ l -> weight_key w ∉ weight_key <$> seen)).
Proof.
  induction l as [|w l IH]; intros m seen Hids Hh; cbn [add_all].
  { wp_step. split; [apply Forall_nil_2|]. split; [constructor|]. split; [by intros w []%not_elem_of_nil|done]. }
  apply Forall_cons in Hids as [Hw Hids]. wp_step. eapply wp_mono; [by apply weight_add_spec| |].
  - intros _ m1 (Hn & Hnin & Hh1). eapply wp_mono; [by apply IH| |].
    + intros _ m2 (H1 & H2 & H3 & H4). assert (weight_key w ∉ weight_key <$> l) as Hwl.
      { intros (w' & Heq & Hin)%list_elem_of_fmap. apply (H3 w' Hin). rewrite <- Heq. cbn. by left. }
      split; [by apply Forall_cons_2|]. split; [by constructor|]. split.
      * intros w' [->|Hin]%elem_of_cons; [done|]. intros Hs. apply (H3 w' Hin). cbn. by right.
      * rewrite reverse_cons, <- app_assoc. done.
    + intros e m2 [He Hno]. split; [done|]. intros ([_ H1]%Forall_cons & [Hwl H2]%NoDup_cons & H3). apply Hno. split; [done|]. split; [done|].
      intros w' Hin. cbn. intros [Heq|Hs]%elem_of_cons; [|by apply (H3 w'); [right|]]. apply Hwl. rewrite <- Heq. by apply list_elem_of_fmap_2.
  - intros e m1 [He Hno]. split; [done|]. intros ([H1 _]%Forall_cons & _ & H3). apply Hno. split; [done|]. apply H3. by left.
Qed.

Lemma binding_before_weak : strict_weak binding_before (fun _ => True).
Proof.
  unfold binding_before. split.
  - intros x y _ _. destruct (Z.eqb_spec (bn_layerId x) (bn_layerId y)), (Z.eqb_spec (bn_layerId y) (bn_layerId x)); cbn [negb]; lia.
  - intros x y z _ _ _. destruct (Z.eqb_spec (bn_layerId y) (bn_layerId x)), (Z.eqb_spec (bn_layerId z) (bn_layerId y)),
      (Z.eqb_spec (bn_layerId z) (bn_layerId x)); cbn [negb]; lia.
Qed.

Definition binding_ids (b : ExpertWeightBinding) : Z * Z := (bn_layerId b, bn_expertId b).

Lemma sorted_distinct l : StronglySorted (not_after binding_before) l -> NoDup (binding_ids <$> l) ->
  StronglySorted (fun b c => binding_before b c = true) l.
Proof.
  induction 1 as [|b l Hl IH Hall]; intros Hnd; [constructor|]. cbn in Hnd. apply NoDup_cons in Hnd as [Hnin Hnd]. constructor; [by apply IH|].
  rewrite Forall_forall in Hall |- *. intros c Hc. specialize (Hall c Hc). unfold not_after, binding_before in *.
  assert (binding_ids b <> binding_ids c) as Hne by (intros Heq; apply Hnin; rewrite Heq; by apply list_elem_of_fmap_2).
  unfold binding_ids in Hne. destruct (Z.eqb_spec (bn_layerId b) (bn_layerId c)) as [E|], (Z.eqb_spec (bn_layerId c) (bn_layerId b)); cbn [negb] in *; try lia.
  rewrite E in Hne. assert (bn_expertId b <> bn_expertId c) by congruence. lia.
Qed.

Lemma binding_projections m l layer expert b : holds m l -> is_u32 layer -> is_u32 expert -> m !! pack_key layer expert = Some b ->
  binding_ids b = (layer, expert) /\ forall type t, projection type b = Some t <-> mkWeight layer expert type t ∈ l.
Proof.
  intros [Hk Hw _] Hl He Hb. destruct (Hk _ _ Hb) as (_ & He' & Heq). apply pack_key_inj in Heq as [E1 E2]; [|done..].
  split; [unfold binding_ids; congruence|]. intros type t. rewrite <- Hw by done. unfold weight_of. by rewrite Hb.
Qed.

Lemma require_spec m l layer expert : holds m l -> is_u32 layer -> is_u32 expert ->
  match weight_require layer expert m with
  | Ok b => exists g u d, b = mkWeightBinding layer expert (Some g) (Some u) (Some d) /\
      mkWeight layer expert GATE g ∈ l /\ mkWeight layer expert UP u ∈ l /\ mkWeight layer expert DOWN d ∈ l
  | Throw _ => exists type, forall t, mkWeight layer expert type t ∉ l
  | Diverge => False
  end.
Proof.
  intros Hh Hl He. unfold weight_require, weight_find. destruct (m !! pack_key layer expert) as [b|] eqn:Hb.
  - destruct (binding_projections m l layer expert b Hh Hl He Hb) as [Hids Hp]. destruct b as [la ea [g|] [u|] [d|]]; unfold complete; cbn [bn_gateProjection bn_upProjection bn_downProjection];
      rewrite ?bool_decide_eq_true_2, ?bool_decide_eq_false_2 by (done || by intros []); cbn [andb negb throw_if res_bind].
    1:{ injection Hids as -> ->. exists g, u, d. split; [done|]. split; [by apply (Hp GATE)|]. split; [by apply (Hp UP)|by apply (Hp DOWN)]. }
    all: first [exists GATE; intros t Hin; by apply Hp in Hin | exists UP; intros t Hin; by apply Hp in Hin | exists DOWN; intros t Hin; by apply Hp in Hin].
  - exists GATE. intros t Hin. destruct (ho_experts _ _ Hh layer expert Hl He) as [_ H]. rewrite Hb in H. destruct H as [? ?]; [|done]. by eexists.
Qed.

(** C22: The weight map holds exactly the projections that were added: a list of additions
    succeeds if and only if every tensor names its own layer and expert and no projection
    comes twice; then an expert is found with its three tensors if and only if all three
    were added, and the entries are the experts of the list, each once, by layer and
    expert, in whatever order the hash table is walked. *)
Theorem weights_found l walk :
  Forall ids_u32 l -> (forall m : ExpertWeightMap, walk m ≡ₚ (map_to_list m).*2) ->
  let consistent := Forall named l /\ NoDup (weight_key <$> l) in
  match add_all l ∅ with
  | (Ok _, m) => consistent /\
      (forall layer expert, is_u32 layer -> is_u32 expert ->
         match weight_require layer expert m with
         | Ok b => exists g u d, b = mkWeightBinding layer expert (Some g) (Some u) (Some d) /\
             mkWeight layer expert GATE g ∈ l /\ mkWeight layer expert UP u ∈ l /\ mkWeight layer expert DOWN d ∈ l
         | Throw _ => exists type, forall t, mkWeight layer expert type t ∉ l
         | Diverge => False
         end) /\
      StronglySorted (fun b c => binding_before b c = true) (weight_entries walk m) /\
      (forall layer expert, is_u32 layer -> is_u32 expert ->
         (layer, expert) ∈ binding_ids <$> weight_entries walk m <-> exists w, w ∈ l /\ wt_layer w = layer /\ wt_expert w = expert)
  | (Throw e, _) => kind_of e = InvalidArgument /\ ~ consistent
  | (Diverge, _) => False
  end.
Proof.
  intros Hids Hwalk consistent. pose proof (add_all_spec l ∅ [] Hids holds_nothing) as H. unfold wp in H.
  assert (forall w, w ∈ l -> weight_key w ∉ weight_key <$> []) as Hnone by (intros w _ []%not_elem_of_nil).
  destruct (add_all l ∅) as [[[]|e|] m]; [|split; [apply H|]; intros [? ?]; by apply H|done].
  destruct H as (Hn & Hd & _ & Hh). rewrite app_nil_r in Hh. split; [by split|].
  assert (holds m l) as Hm by (destruct Hh as [H1 H2 H3]; constructor; [done|..]; intros; rewrite ?H2, ?H3 by done; setoid_rewrite elem_of_reverse; done).
  split; [intros; by apply require_spec|].
  assert (weight_entries walk m ≡ₚ (map_to_list m).*2) as Hperm by (unfold weight_entries; by rewrite stable_sort_perm, Hwalk).
  assert (NoDup (binding_ids <$> (map_to_list m).*2)) as Hdist.
  { rewrite <- list_fmap_compose. apply NoDup_fmap_2_strong; [|apply NoDup_map_to_list]. intros [k b] [k' b'] Hb%elem_of_map_to_list Hb'%elem_of_map_to_list Heq.
    destruct (ho_keys _ _ Hm _ _ Hb) as (_ & _ & ->), (ho_keys _ _ Hm _ _ Hb') as (_ & _ & ->). cbn in Heq. injection Heq as E1 E2.
    cbn in Hb, Hb'. rewrite E1, E2 in *. rewrite Hb in Hb'. by injection Hb' as ->. }
  split.
  - apply sorted_distinct; [apply (stable_sort_sorted binding_before (fun _ => True)); [apply binding_before_weak|by apply Forall_true]|].
    by rewrite Hperm.
  - intros layer expert Hl He. rewrite Hperm, <- (ho_experts _ _ Hm) by done. rewrite list_elem_of_fmap. split.
    + intros (b & Heq & ([k b'] & -> & Hin%elem_of_map_to_list)%list_elem_of_fmap). destruct (ho_keys _ _ Hm _ _ Hin) as (_ & _ & ->).
      injection Heq as -> ->. by eexists.
    + intros [b Hb]. exists b. destruct (binding_projections _ _ _ _ _ Hm Hl He Hb) as [<- _]. split; [done|].
      apply list_elem_of_fmap. exists (pack_key layer expert, b). split; [done|]. by apply elem_of_map_to_list.
Qed.

(** ** The views of a payload *)

Definition bytes_needed (s : Shape) (d : DType) : Z := storageElementCount s * dtype_sizeOf d.
Record slice_fits (v : TensorView) (offset : Z) (s : Shape) (d : DType) : Prop := SliceFits {
  sf_aligned : offset mod dtype_sizeOf d = 0 /\ (data_ v + offset) mod dtype_sizeOf d = 0;
  sf_room : offset + bytes_needed s d <= storageBytes_ v;
  sf_bytes : elementCount s * dtype_sizeOf d <= u64_max;
}.
(** The view of [s] at [offset] in [v]. *)
Definition slice_view (v : TensorView) (offset : Z) (s : Shape) (d : DType) : TensorView :=
  mkView s d cpu (data_ v + offset) (if mutableData_ v =? 0 then 0 else mutableData_ v + offset)
    (elementCount s * dtype_sizeOf d) (bytes_needed s d) (lifetime_ v).

Lemma count_bound n d : 0 <= n -> (u64_max / dtype_sizeOf d <? n) = (u64_max <? n * dtype_sizeOf d).
Proof. intros Hn. unfold u64_max. destruct d; cbn [dtype_sizeOf]; destruct (Z.ltb_spec (18446744073709551615 / 1) n) || idtac; apply eq_true_iff_eq; rewrite !Z.ltb_lt; divlia. Qed.

Lemma placed_valid h v : host_wf h -> placed h v -> view_valid (owners h) v = true.
Proof.
  intros Hwf Hp. destruct (placed_data h v Hwf Hp) as [Hd _]. unfold view_valid. rewrite (placed_alive h v Hp).
  destruct Hp as (b & _ & _ & Hw & _). rewrite (vw_bytes _ _ Hw). pose proof (sw_count _ (vw_shape _ _ Hw)) as [Hn _].
  pose proof (product_pos _ (sw_dims _ (vw_shape _ _ Hw))). pose proof (dtype_sizeOf_pos (dtype_ v)).
  replace (data_ v =? 0) with false by lia. replace (elementCount (shape_ v) * dtype_sizeOf (dtype_ v) =? 0) with false by nia. done.
Qed.

Lemma sliceBytes_spec h v offset s d : host_wf h -> placed h v -> device_ v = cpu -> shape_wf s -> is_u64 offset ->
  match sliceBytes (owners h) v offset s d with
  | Ok v' => slice_fits v offset s d /\ v' = slice_view v offset s d /\ placed h v'
  | Throw _ => ~ slice_fits v offset s d
  | Diverge => False
  end.
Proof.
  intros Hwf Hp Hdev Hs Ho. destruct (placed_data h v Hwf Hp) as [Hd _]. pose proof (placed_valid h v Hwf Hp) as Hv. pose proof (placed_alive h v Hp) as Hal.
  pose proof (sw_storage _ Hs) as Hst. destruct (sw_count _ Hs) as [Hn _]. pose proof (product_pos _ (sw_dims _ Hs)) as Hpos. pose proof (dtype_sizeOf_pos d) as Hsz.
  unfold sliceBytes. rewrite Hv. cbn [negb throw_if res_bind]. destruct (Z.eqb_spec (offset mod dtype_sizeOf d) 0) as [Ha|Ha]; cbn [negb throw_if res_bind]; [|by intros [[? _] _ _]].
  destruct (Z.ltb_spec (storageBytes_ v) offset) as [Hb|Hb]; cbn [throw_if res_bind]; [intros [_ ? _]; unfold bytes_needed in *; nia|].
  unfold requiredBytes. rewrite count_bound by lia. destruct (Z.ltb_spec u64_max (storageElementCount s * dtype_sizeOf d)) as [Hr|Hr]; cbn [throw_if res_bind].
  { intros [_ Hroom _]. unfold bytes_needed in Hroom. destruct Hp as (b & base & n & Hw & _ & Hl & H1 & H2). destruct (hw_range h Hwf _ _ Hl) as (? & ? & ?).
    pose proof (vw_end _ _ Hw). pose proof (vw_base _ _ Hw). unfold is_u64 in Ho. lia. }
  rewrite wrap64_small by (unfold is_u64; nia). fold (bytes_needed s d). destruct (Z.ltb_spec (storageBytes_ v - offset) (bytes_needed s d)) as [Hq|Hq]; cbn [throw_if res_bind]; [intros [_ ? _]; lia|].
  unfold makeView, logicalBytes. rewrite count_bound by lia. destruct (Z.ltb_spec u64_max (elementCount s * dtype_sizeOf d)) as [He|He]; cbn [throw_if res_bind]; [intros [_ _ ?]; lia|].
  rewrite Hdev. cbn [view_validateDevice cpu ordinal type Z.ltb Z.compare Z.eqb bool_decide negb andb throw_if res_bind].
  unfold view_validateDevice. cbn. rewrite Hal. unfold is_u64 in Ho. replace (data_ v + offset =? 0) with false by lia. cbn [orb throw_if res_bind]. rewrite alignmentOf_size.
  replace (dtype_sizeOf d =? 0) with false by lia. destruct (Z.eqb_spec ((data_ v + offset) mod dtype_sizeOf d) 0) as [Hm|Hm]; cbn [orb negb throw_if res_bind]; [|by intros [[_ ?] _ _]].
  unfold requiredBytes. rewrite count_bound by lia. fold (bytes_needed s d). replace (u64_max <? bytes_needed s d) with false by (unfold bytes_needed; lia). cbn [throw_if res_bind].
  rewrite (wrap64_small (bytes_needed s d)), Z.ltb_irrefl by (unfold is_u64, bytes_needed; nia). cbn [throw_if res_bind]. rewrite wrap64_small by (unfold is_u64; nia).
  rewrite andb_false_r. cbn [throw_if res_bind]. split; [constructor; [done|lia|done]|]. split; [done|]. destruct Hp as (b & base & n & Hw & Hb' & Hl & H1 & H2). exists b, base, n. split; [|done]. destruct Hw.
  constructor; cbn; try done; try lia. destruct (Z.eqb_spec (mutableData_ v) 0) as [|Hmu]; [by left|right]. destruct vw_mutable; lia.
Qed.

Definition quantization_stored (t : TensorMetadata) : Prop :=
  match tmd_dtype t with
  | INT8 => tmd_quantizedDType t = Some QINT8 /\ exists p, tmd_quantizationParameters t = Some p /\ validateParameters QINT8 p = Ok tt
  | _ => isQuantized t = false
  end.
Record projection_fits (payload : TensorView) (payloadFileOffset : Z) (t : TensorMetadata) : Prop := ProjectionFits {
  pj_quantization : quantization_stored t;
  pj_offset : payloadFileOffset <= tmd_offset t;
  pj_size : tmd_size t = bytes_needed (tmd_shape t) (tmd_dtype t);
  pj_slice : slice_fits payload (tmd_offset t - payloadFileOffset) (tmd_shape t) (tmd_dtype t);
}.
Record metadata_wf (t : TensorMetadata) : Prop := MetadataWf {
  mw_shape : shape_wf (tmd_shape t);
  mw_offset : is_u64 (tmd_offset t);
  mw_size : is_u64 (tmd_size t);
}.

(** What the view of a projection is. *)
Record projected (h : Host) (payload : TensorView) (payloadFileOffset : Z) (t : TensorMetadata) (v : TensorView)
    (q : option QuantizationParameters) : Prop := Projected {
  pr_fits : projection_fits payload payloadFileOffset t;
  pr_view : v = slice_view payload (tmd_offset t - payloadFileOffset) (tmd_shape t) (tmd_dtype t);
  pr_inside : data_ payload <= data_ v /\ data_ v + storageBytes_ v <= data_ payload + storageBytes_ payload;
  pr_placed : placed h v;
  pr_parameters : q = tmd_quantizationParameters t;
  pr_executable : tmd_dtype t = FP32 \/ tmd_dtype t = INT8 -> quantization_fits v q;
}.

Lemma check_quantization_spec t :
  (check_quantization t = Ok tt /\ quantization_stored t) \/ (exists e, check_quantization t = Throw e /\ ~ quantization_stored t).
Proof.
  unfold check_quantization, quantization_stored. destruct (tmd_dtype t); cbn [bool_decide decide].
  4:{ destruct (tmd_quantizationParameters t) as [p|]; [|right; eexists; split; [done|]; by intros (_ & p & ? & _)].
    rewrite bool_decide_eq_true_2 by done. destruct (bool_decide (tmd_quantizedDType t = Some QINT8)) eqn:Hd; cbn [negb throw_if res_bind].
    - apply bool_decide_eq_true in Hd. destruct (validateParameters_cases QINT8 p) as [Hv|(e & Hv & _)]; rewrite Hv; [left; split; [done|]; split; [done|]; by exists p|].
      right. exists e. split; [done|]. intros (_ & p' & [= <-] & Hok). congruence.
    - apply bool_decide_eq_false in Hd. right. eexists. split; [done|]. by intros [? _]. }
  all: rewrite bool_decide_eq_false_2 by done; destruct (isQuantized t); cbn [throw_if]; [right; by eexists|by left].
Qed.

Lemma projection_view_spec h payload off t : host_wf h -> placed h payload -> device_ payload = cpu -> is_u64 off -> metadata_wf t ->
  match projection_view (owners h) payload off t with
  | Ok v => projected h payload off t v (tmd_quantizationParameters t)
  | Throw _ => ~ projection_fits payload off t
  | Diverge => False
  end.
Proof.
  intros Hwf Hp Hd Ho [Hs Hto Hts]. unfold projection_view. destruct (check_quantization_spec t) as [[-> Hq]|(e & -> & Hq)]; cbn [res_bind]; [|by intros []].
  pose proof (sw_storage _ Hs). pose proof (dtype_sizeOf_pos (tmd_dtype t)). unfold is_u64 in Ho, Hto, Hts.
  destruct (Z.ltb_spec (tmd_offset t) off) as [Hlt|Hlt]; cbn [throw_if res_bind]; [intros [_ ? _ _]; lia|].
  rewrite wrap64_small by (unfold is_u64; lia). replace (u64_max <? tmd_offset t - off) with false by lia. cbn [throw_if res_bind].
  replace (dtype_sizeOf (tmd_dtype t) =? 0) with false by lia. rewrite count_bound by lia.
  destruct (Z.ltb_spec u64_max (storageElementCount (tmd_shape t) * dtype_sizeOf (tmd_dtype t))) as [Hb|Hb]; cbn [orb throw_if res_bind].
  { intros [_ _ Hsz _]. unfold bytes_needed in Hsz. lia. }
  rewrite wrap64_small by (unfold is_u64; nia). fold (bytes_needed (tmd_shape t) (tmd_dtype t)).
  destruct (Z.eqb_spec (bytes_needed (tmd_shape t) (tmd_dtype t)) (tmd_size t)) as [Hsz|Hsz]; cbn [negb throw_if res_bind]; [|intros [_ _ ? _]; congruence].
  pose proof (sliceBytes_spec h payload (tmd_offset t - off) (tmd_shape t) (tmd_dtype t) Hwf Hp Hd Hs ltac:(unfold is_u64; lia)) as Hsl.
  destruct (sliceBytes _ _ _ _ _) as [v|e|]; [|by intros [? ? ? ?]|done]. destruct Hsl as (Hsf & -> & Hv).
  constructor; [by constructor|done| |done|done|].
  - destruct Hsf as [_ Hroom _]. cbn. lia.
  - unfold quantization_stored in Hq. unfold quantization_fits. cbn [slice_view dtype_]. intros [Ht|Ht]; rewrite Ht in Hq |- *.
    + unfold isQuantized in Hq. apply orb_false_iff in Hq as [_ Hq%bool_decide_eq_false]. destruct (tmd_quantizationParameters t); [|done]. by destruct Hq.
    + destruct Hq as (_ & p & -> & ?). done.
Qed.

(** C16: The views an expert runs on lie inside its payload: each is the slice of the payload
    at the offset of its projection in the file, with the projection's shape and type, backed
    by the payload's owner, and its quantization parameters are what the executor asks for.
    The call is refused exactly when a projection is missing, is not where the payload is,
    disagrees with its recorded size or type, or would leave the payload. *)
Theorem payload_views h payload off layer expert (m : ExpertWeightMap) :
  host_wf h -> placed h payload -> device_ payload = cpu -> is_u64 off ->
  map_Forall (fun _ b => forall type t, projection type b = Some t -> metadata_wf t) m ->
  match createViews (owners h) layer expert payload off m with
  | Ok w => exists b g u d, weight_require layer expert m = Ok b /\
      bn_gateProjection b = Some g /\ bn_upProjection b = Some u /\ bn_downProjection b = Some d /\
      projected h payload off g (gateProjection w) (gateQuantization w) /\
      projected h payload off u (upProjection w) (upQuantization w) /\
      projected h payload off d (downProjection w) (downQuantization w)
  | Throw _ => forall b, weight_require layer expert m = Ok b -> exists type t, projection type b = Some t /\ ~ projection_fits payload off t
  | Diverge => False
  end.
Proof.
  intros Hwf Hp Hd Ho Hm. unfold createViews. destruct (weight_require layer expert m) as [b|e|] eqn:Hb; cbn [res_bind]; [|done|].
  2:{ unfold weight_require in Hb. destruct (weight_find layer expert m) as [b|]; [|done]. by destruct (complete b). }
  assert (m !! pack_key layer expert = Some b /\ complete b = true) as [Hl Hc].
  { unfold weight_require, weight_find in Hb. destruct (m !! pack_key layer expert) as [b'|]; [|done]. destruct (complete b') eqn:Hc; [|done]. by injection Hb as ->. }
  specialize (Hm _ _ Hl). cbv beta in Hm. unfold complete in Hc. rewrite !andb_true_iff, !bool_decide_eq_true in Hc. destruct Hc as [[[g Hg] [u Hu]] [d Hdn]].
  rewrite Hg, Hu, Hdn.
  pose proof (projection_view_spec h payload off g Hwf Hp Hd Ho (Hm GATE g Hg)) as Sg. destruct (projection_view (owners h) payload off g) as [vg|e|]; cbn [res_bind];
    [|intros ? [= <-]; by exists GATE, g|done].
  pose proof (projection_view_spec h payload off u Hwf Hp Hd Ho (Hm UP u Hu)) as Su. destruct (projection_view (owners h) payload off u) as [vu|e|]; cbn [res_bind];
    [|intros ? [= <-]; by exists UP, u|done].
  pose proof (projection_view_spec h payload off d Hwf Hp Hd Ho (Hm DOWN d Hdn)) as Sd. destruct (projection_view (owners h) payload off d) as [vd|e|]; cbn [res_bind];
    [|intros ? [= <-]; by exists DOWN, d|done].
  by exists b, g, u, d.
Qed.

(** ** An expert of three projections *)

Definition sample_projection (offset size : Z) (columns : Z) (d : DType) (q : option QuantizationParameters) : TensorMetadata :=
  mkTensorMetadata "w" (mkShape [1; columns] [columns; 1] columns columns) d ((fun _ => QINT8) <$> q) offset size 2 (Some 7) q.
Definition sample_weight_list : list Weight :=
  [mkWeight 2 7 DOWN (sample_projection 108 4 4 INT8 (Some (mkQuantization half 0)));
   mkWeight 2 7 GATE (sample_projection 100 4 1 FP32 None); mkWeight 2 7 UP (sample_projection 104 4 1 FP32 None)].
Definition sample_weight_map : ExpertWeightMap := snd (add_all sample_weight_list ∅).
Definition walk_in_order (m : ExpertWeightMap) : list ExpertWeightBinding := (map_to_list m).*2.

Lemma weights_found_witness :
  fst (add_all sample_weight_list ∅) = Ok tt /\
  (2, 7) ∈ binding_ids <$> weight_entries walk_in_order sample_weight_map.
Proof.
  assert (Forall ids_u32 sample_weight_list) as Hids.
  { repeat apply Forall_cons_2; try apply Forall_nil_2; unfold ids_u32, is_u32, u32_max; cbn; lia. }
  pose proof (weights_found sample_weight_list walk_in_order Hids ltac:(done)) as H. unfold sample_weight_map.
  assert (fst (add_all sample_weight_list ∅) = Ok tt) as Hok by (vm_compute; reflexivity).
  destruct (add_all sample_weight_list ∅) as [r m]. cbn [fst snd] in *. subst r. split; [done|].
  destruct H as (_ & _ & _ & H). apply H; [unfold is_u32, u32_max; lia..|]. eexists. split; [by left|done].
Defined.

Lemma sample_projection_wf offset size columns d q : 0 < columns <= 4 -> is_u64 offset -> is_u64 size ->
  metadata_wf (sample_projection offset size columns d q).
Proof.
  intros Hc Ho Hs. constructor; [|done|done]. cbn.
  constructor; cbn; [done|repeat apply Forall_cons_2; [lia|lia|apply Forall_nil_2]|repeat apply Forall_cons_2; [lia|lia|apply Forall_nil_2]| | |].
  - unfold u64_max. lia.
  - unfold u64_max. lia.
  - intros index Hi. unfold in_shape in Hi. cbn in Hi. inversion Hi as [|i d1 l1 l2 H1 Hi']; subst. inversion Hi' as [|j d2 l3 l4 H2 Hi'']; subst.
    inversion Hi''; subst. cbn. nia.
Qed.

Lemma payload_views_witness : exists w g, createViews (owners sample_host) 2 7 (sample_matrix 3 3072 2 2 FP32 false) 100 sample_weight_map = Ok w /\
  projected sample_host (sample_matrix 3 3072 2 2 FP32 false) 100 g (gateProjection w) (gateQuantization w) /\ data_ (downProjection w) = 3080.
Proof.
  assert (map_Forall (fun _ b => forall type t, projection type b = Some t -> metadata_wf t) sample_weight_map) as Hm.
  { unfold sample_weight_map. assert (snd (add_all sample_weight_list ∅) = {[ pack_key 2 7 := mkWeightBinding 2 7
      (Some (sample_projection 100 4 1 FP32 None)) (Some (sample_projection 104 4 1 FP32 None)) (Some (sample_projection 108 4 4 INT8 (Some (mkQuantization half 0)))) ]}) as ->
      by (vm_compute; reflexivity).
    apply map_Forall_insert_2; [|apply map_Forall_empty]. intros [] t [= <-]; apply sample_projection_wf; unfold is_u64, u64_max; lia. }
  pose proof (payload_views sample_host (sample_matrix 3 3072 2 2 FP32 false) 100 2 7 sample_weight_map sample_host_wf
    ltac:(by eapply (sample_placed 3)) eq_refl ltac:(unfold is_u64, u64_max; lia) Hm) as H.
  assert (exists w, createViews (owners sample_host) 2 7 (sample_matrix 3 3072 2 2 FP32 false) 100 sample_weight_map = Ok w /\ data_ (downProjection w) = 3080) as (w & Hw & Hd)
    by (eexists; split; vm_compute; reflexivity).
  rewrite Hw in H. destruct H as (b & g & u & d & _ & _ & _ & _ & Hg & _). exists w, g. exact (conj Hw (conj Hg Hd)).
Defined.
