(* ===== verification/MoERuntime.v ===== *)
(** * Running the experts of a batch

    The computation of [src/core/runtime/MoERuntime.cpp] on the CPU tensor backend: from the
    router's decision to the combined output, with the experts' payloads where their leases
    say they are.  Bringing the experts there (scheduling, residency) is the business of the
    scheduler and the expert manager, which have models of their own. *)

From stdpp Require Import gmap.
From S2P Require Import Prelude Float FloatBits Tiers Tensor KVCache Quantization Router HostMemory CpuTensorBackend SampleHost NewTensor ArrayLoops Ownership Embedding Precision ExpertMlp WeightMap.

#[local] Open Scope Z_scope.

(** ** The batches *)

Fixpoint validated (tokenCount : Z) (l : list ExpertBatch) : result unit :=
  match l with
  | [] => Ok tt
  | b :: l => (expertBatch_validate tokenCount b ;;? validated tokenCount l)%res
  end.
Fixpoint assignment_count (n : Z) (tokens : list RouterDecision) : result Z :=
  match tokens with
  | [] => Ok n
  | d :: tokens =>
      let k := Z.of_nat (length (selectedExpertIds d)) in
      (throw_if (u64_max - k <? n) (Exn OverflowError "router assignment count overflow") ;;?
       assignment_count (wrap64 (n + k)) tokens)%res
  end.
Definition expert_batches (layerId : Z) (decision : BatchRouterDecision) : result (list ExpertBatch) :=
  (let batches := (fun group => mkExpertBatch layerId (eg_expertId group) (eg_tokenIndices group) (eg_routingScores group)) <$> br_expertGroups decision in
   validated (Z.of_nat (length (br_tokens decision))) batches ;;?
   throw_if (match batches with [] => true | _ => false end) (Exn RuntimeError "router produced no expert batches") ;;?
   expectedAssignments <-? assignment_count 0 (br_tokens decision) ;;
   throw_if (negb (foldl (fun n b => wrap64 (n + Z.of_nat (length (eb_tokenIndices b)))) 0 batches =? expectedAssignments))
     (Exn RuntimeError "router expert groups omit token assignments") ;;?
   Ok batches)%res.

(** ** The loops over the rows *)

(** The rows of the tokens of a batch, and their outputs added to the combined rows. *)
Definition gather_rows (hidden groupInput inputWidth : Z) (tokenIndices : list Z) (mem : Z -> Z) : Z -> Z :=
  copy_rows hidden groupInput inputWidth tokenIndices mem.
Definition scatter_add (combined expert : Z) (outputWidth : nat) (tokenIndices : list Z) (routingWeights : list f32) (mem : Z -> Z) : Z -> Z :=
  foldl (fun mem row =>
    let token := Z.to_nat (nth row tokenIndices 0) in
    let weight := nth row routingWeights f32_zero in
    foldl (fun mem hidden =>
      store combined (token * outputWidth + hidden)
        (f32_add (load mem combined (token * outputWidth + hidden)) (f32_mul weight (load mem expert (row * outputWidth + hidden)))) mem)
      mem (seq 0 outputWidth))
    mem (seq 0 (length tokenIndices)).

Section runtime.
Variables expf erff : f32 -> f32.
Context `{HA : HostAllocator}.

(** An operand of the executor, converted when it is stored in half precision. *)
Definition prepared {A} (source : TensorView) (body : TensorView -> ST Host A) : ST Host A :=
  match dtype_ source with
  | FP32 | INT8 => body source
  | _ => (owner <- toFp32Tensor source ;; scoped owner (body (viewOf true owner)))%st
  end.

Definition gathered (hostHidden : Tensor) (inputWidth : Z) (batch : ExpertBatch) : ST Host Tensor :=
  (shape <- lift (contiguousShape [Z.of_nat (length (eb_tokenIndices batch)); inputWidth]) ;;
   hostExpertInput <- allocateTensor shape FP32 ;;
   scoped hostExpertInput (
     modify (set_words (gather_rows (te_data hostHidden) (te_data hostExpertInput) inputWidth (eb_tokenIndices batch))) ;;;
     expertInput <- allocateTensor (te_shape hostExpertInput) FP32 ;;
     keeping expertInput (copyTensor (viewOf true hostExpertInput) (viewOf true expertInput)) ;;;
     ret expertInput))%st.

Definition combine (hostCombined expertOutput : Tensor) (outputWidth : Z) (batch : ExpertBatch) : ST Host unit :=
  (hostExpertOutput <- allocateTensor (te_shape expertOutput) FP32 ;;
   scoped hostExpertOutput (
     copyTensor (viewOf true expertOutput) (viewOf true hostExpertOutput) ;;;
     modify (set_words (scatter_add (te_data hostCombined) (te_data hostExpertOutput) (Z.to_nat outputWidth)
       (eb_tokenIndices batch) (eb_routingWeights batch)))))%st.

(** One expert: its output tensor is kept, everything else is given back. *)
Definition run_expert (activation : ActivationType) (hostHidden hostCombined : Tensor) (inputWidth outputWidth : Z)
    (weights : ExpertMlpWeights) (batch : ExpertBatch) : ST Host Tensor :=
  prepared (gateProjection weights) (fun gate =>
  prepared (upProjection weights) (fun up =>
  prepared (downProjection weights) (fun down =>
    (expertInput <- gathered hostHidden inputWidth batch ;;
     scoped expertInput (
       shape <- lift (contiguousShape [Z.of_nat (length (eb_tokenIndices batch)); outputWidth]) ;;
       expertOutput <- allocateTensor shape FP32 ;;
       keeping expertOutput (
         execute expf erff activation (viewOf true expertInput)
           (mkMlpWeights gate up down (gateQuantization weights) (upQuantization weights) (downQuantization weights)) (viewOf true expertOutput) ;;;
         combine hostCombined expertOutput outputWidth batch) ;;;
       ret expertOutput))%st))).

(** [lease]: the view of an expert's leased payload and the offset of the payload in its file. *)
Fixpoint run_batches (activation : ActivationType) (m : ExpertWeightMap) (lease : Z -> TensorView * Z) (hostHidden hostCombined : Tensor)
    (inputWidth outputWidth : Z) (batches : list ExpertBatch) : ST Host (list Tensor) :=
  match batches with
  | [] => ret []
  | batch :: batches =>
      (h <- st_get ;;
       weights <- lift (createViews (owners h) (eb_layerId batch) (eb_expertId batch) (lease (eb_expertId batch)).1 (lease (eb_expertId batch)).2 m) ;;
       expertOutput <- run_expert activation hostHidden hostCombined inputWidth outputWidth weights batch ;;
       keeping expertOutput (
         expertOutputs <- run_batches activation m lease hostHidden hostCombined inputWidth outputWidth batches ;;
         ret (expertOutput :: expertOutputs)))%st
  end.

Definition keeping_all {A} (ts : list Tensor) (m : ST Host A) : ST Host A := foldr keeping m ts.

(** [executeBatch] from the decision to the result: the combined output and the experts'. *)
Definition execute_experts (activation : ActivationType) (m : ExpertWeightMap) (lease : Z -> TensorView * Z) (layerId : Z)
    (hiddenStates : TensorView) (decision : BatchRouterDecision) : ST Host (Tensor * list Tensor) :=
  (h <- st_get ;;
   lift (throw_if (negb (view_valid (owners h) hiddenStates) || negb (rank (shape_ hiddenStates) =? 2)%nat ||
                   negb (bool_decide (dtype_ hiddenStates = FP32)) || negb (bool_decide (device_ hiddenStates = cpu)))
     (Exn InvalidArgument "MoE runtime requires rank-2 FP32 hidden states on its tensor backend"))%res ;;;
   lift (throw_if (negb (batch_valid decision) || negb (Z.of_nat (length (br_tokens decision)) =? dim hiddenStates 0))
     (Exn RuntimeError "router returned an invalid batch decision"))%res ;;;
   batches <- lift (expert_batches layerId decision) ;;
   binding <- lift (weight_require layerId (match batches with b :: _ => eb_expertId b | [] => 0 end) m) ;;
   downShape <- lift (match bn_downProjection binding with Some t => Ok (dimensions (tmd_shape t)) | None => Throw (Exn UndefinedBehaviour "empty optional") end) ;;
   lift (throw_if (negb (length downShape =? 2)%nat) (Exn InvalidArgument "expert down projection must be rank two"))%res ;;;
   let outputWidth := nth 1 downShape 0 in
   outputShape <- lift (contiguousShape [dim hiddenStates 0; outputWidth]) ;;
   output <- allocateTensor outputShape FP32 ;;
   expertOutputs <- keeping output (
     hostHidden <- allocateTensor (shape_ hiddenStates) FP32 ;;
     scoped hostHidden (
       copyTensor hiddenStates (viewOf true hostHidden) ;;;
       hostCombined <- allocateTensor outputShape FP32 ;;
       scoped hostCombined (
         modify (set_words (fill (te_data hostCombined) (fun _ _ => f32_zero) (seq 0 (count (viewOf true hostCombined))))) ;;;
         expertOutputs <- run_batches activation m lease hostHidden hostCombined (dim hiddenStates 1) outputWidth batches ;;
         keeping_all expertOutputs (copyTensor (viewOf true hostCombined) (viewOf true output) ;;; synchronize) ;;;
         ret expertOutputs))) ;;
   ret (output, expertOutputs))%st.
End runtime.

(** ** Rows of the matrices *)

Lemma product_row rows inner columns x w r : (r < rows)%nat -> (0 < columns)%nat ->
  row_of r columns (matrix_product rows inner columns x w) = matrix_product 1 inner columns (row_of r inner x) w.
Proof.
  intros Hr Hc. unfold row_of at 1, matrix_product. rewrite Nat.mul_1_l. apply list_fmap_ext. intros i j [-> Hj]%lookup_seq. rewrite Nat.add_0_l.
  rewrite nth_seq_map by nia. unfold product_entry. rewrite Nat.div_add_l, (Nat.div_small i), Nat.add_0_r by lia.
  rewrite (Nat.add_comm (r * columns)), Nat.Div0.mod_add, (Nat.mod_small i) by lia.
  apply foldl_ext_in. intros s k [_ Hk]%elem_of_seq. by rewrite Nat.mul_0_l, Nat.add_0_l, row_of_nth by lia.
Qed.

Lemma activated_row (f : f32 -> f32) rows columns l r : length l = (rows * columns)%nat -> (r < rows)%nat ->
  row_of r columns (f <$> l) = f <$> row_of r columns l.
Proof.
  intros Hl Hr. unfold row_of. rewrite <- list_fmap_compose. apply list_fmap_ext. intros i j [-> Hj]%lookup_seq. rewrite Nat.add_0_l. cbn.
  rewrite (nth_indep _ _ (f f32_zero)) by (rewrite length_fmap; nia). apply (map_nth f).
Qed.
Lemma map2_nth op l l' k : (k < length l)%nat -> (k < length l')%nat -> nth k (map2 op l l') f32_zero = op (nth k l f32_zero) (nth k l' f32_zero).
Proof.
  revert l' k. induction l as [|x l IH]; intros [|y l'] k H1 H2; cbn in *; try lia. destruct k as [|k]; [done|]. apply IH; lia.
Qed.
Lemma map2_row op rows columns l l' r : length l = (rows * columns)%nat -> length l' = (rows * columns)%nat -> (r < rows)%nat ->
  row_of r columns (map2 op l l') = map2 op (row_of r columns l) (row_of r columns l').
Proof.
  intros Hl Hl' Hr. unfold row_of at 1. apply list_eq. intros i. destruct (decide (i < columns)%nat) as [Hi|Hi].
  - rewrite list_lookup_fmap, lookup_seq_lt by done. cbn. rewrite map2_nth by (rewrite ?Hl, ?Hl'; nia).
    unfold map2. rewrite lookup_zip_with. unfold row_of. rewrite !list_lookup_fmap, lookup_seq_lt by done. done.
  - rewrite !lookup_ge_None_2; [done|..]; unfold map2, row_of; rewrite ?length_zip_with, ?length_fmap, ?length_seq; lia.
Qed.
Lemma product_length rows inner columns x w : length (matrix_product rows inner columns x w) = (rows * columns)%nat.
Proof. unfold matrix_product. by rewrite length_fmap, length_seq. Qed.

(** An expert treats the rows of its input one by one. *)
Lemma mlp_row expf erff type rows hidden intermediate width x gate up down r :
  (r < rows)%nat -> (0 < intermediate)%nat -> (0 < width)%nat ->
  row_of r width (mlp_reference expf erff type rows hidden intermediate width x gate up down) =
  mlp_reference expf erff type 1 hidden intermediate width (row_of r hidden x) gate up down.
Proof.
  intros Hr Hi Hw. unfold mlp_reference. rewrite product_row by done. f_equal.
  rewrite (map2_row _ rows) by (rewrite ?length_fmap, ?product_length; done).
  rewrite (activated_row _ rows), !product_row by (rewrite ?product_length; done). done.
Qed.

(** The gathered rows. *)
Lemma embedded_row hidden tokens x r : (0 < hidden)%nat -> (r < length tokens)%nat ->
  row_of r hidden (embedded hidden tokens x) = row_of (Z.to_nat (nth r tokens 0)) hidden x.
Proof.
  intros Hh Hr. unfold row_of. apply list_fmap_ext. intros i j [-> Hj]%lookup_seq. rewrite Nat.add_0_l. unfold embedded. rewrite nth_seq_map by nia.
  rewrite Nat.div_add_l, (Nat.div_small i), Nat.add_0_r by lia. by rewrite (Nat.add_comm (r * hidden)), Nat.Div0.mod_add, (Nat.mod_small i) by lia.
Qed.

(** ** What scattering does to a list *)

Definition scatter_row (outputs : list f32) (row base width : nat) (weight : f32) (acc : list f32) : list f32 :=
  foldl (fun acc j => <[(base + j)%nat := f32_add (nth (base + j) acc f32_zero) (f32_mul weight (nth (row * width + j) outputs f32_zero))]> acc) acc (seq 0 width).
Definition scattered (outputs : list f32) (width : nat) (tokens : list Z) (weights : list f32) (acc : list f32) : list f32 :=
  foldl (fun acc row => scatter_row outputs row (Z.to_nat (nth row tokens 0) * width) width (nth row weights f32_zero) acc) acc (seq 0 (length tokens)).

Lemma nth_insert (l : list f32) i k x : (i < length l)%nat -> nth k (<[i := x]> l) f32_zero = if decide (k = i) then x else nth k l f32_zero.
Proof.
  intros Hi. rewrite !nth_lookup. destruct (decide (k = i)) as [->|Hne]; [by rewrite list_lookup_insert_eq|by rewrite list_lookup_insert_ne].
Qed.

Lemma scatter_row_spec outputs row base width weight acc : (base + width <= length acc)%nat ->
  length (scatter_row outputs row base width weight acc) = length acc /\
  forall k, nth k (scatter_row outputs row base width weight acc) f32_zero =
    if decide (base <= k < base + width)%nat then f32_add (nth k acc f32_zero) (f32_mul weight (nth (row * width + (k - base)) outputs f32_zero)) else nth k acc f32_zero.
Proof.
  intros Hlen. unfold scatter_row. assert (forall n, (n <= width)%nat ->
    let l := foldl (fun acc j => <[(base + j)%nat := f32_add (nth (base + j) acc f32_zero) (f32_mul weight (nth (row * width + j) outputs f32_zero))]> acc) acc (seq 0 n) in
    length l = length acc /\ forall k, nth k l f32_zero =
      if decide (base <= k < base + n)%nat then f32_add (nth k acc f32_zero) (f32_mul weight (nth (row * width + (k - base)) outputs f32_zero)) else nth k acc f32_zero) as H; [|by apply H].
  induction n as [|n IH]; intros Hn; cbv zeta; [split; [done|]; intros k; by rewrite decide_False by lia|].
  destruct (IH ltac:(lia)) as [Hl Hk]. rewrite seq_S, foldl_app, Nat.add_0_l. cbn [foldl]. set (l := foldl _ acc (seq 0 n)) in *.
  split; [by rewrite length_insert|]. intros k. rewrite nth_insert by lia. destruct (decide (k = base + n)%nat) as [->|Hne].
  - rewrite decide_True by lia. rewrite Hk, decide_False by lia. by replace (base + n - base)%nat with n by lia.
  - rewrite Hk. destruct (decide (base <= k < base + n)%nat); [by rewrite decide_True by lia|by rewrite decide_False by lia].
Qed.

(** Cell by cell: the rows of a token are added in the order of the batch. *)
Lemma scattered_spec outputs width tokens weights acc count : length acc = (count * width)%nat -> (0 < width)%nat ->
  Forall (fun t => 0 <= t < Z.of_nat count) tokens ->
  length (scattered outputs width tokens weights acc) = length acc /\
  forall t j, (j < width)%nat -> nth (t * width + j) (scattered outputs width tokens weights acc) f32_zero =
    foldl (fun v row => if decide (Z.to_nat (nth row tokens 0) = t) then f32_add v (f32_mul (nth row weights f32_zero) (nth (row * width + j) outputs f32_zero)) else v)
      (nth (t * width + j) acc f32_zero) (seq 0 (length tokens)).
Proof.
  intros Hlen Hw Ht. unfold scattered. assert (forall n, (n <= length tokens)%nat ->
    let l := foldl (fun acc row => scatter_row outputs row (Z.to_nat (nth row tokens 0) * width) width (nth row weights f32_zero) acc) acc (seq 0 n) in
    length l = length acc /\ forall t j, (j < width)%nat -> nth (t * width + j) l f32_zero =
      foldl (fun v row => if decide (Z.to_nat (nth row tokens 0) = t) then f32_add v (f32_mul (nth row weights f32_zero) (nth (row * width + j) outputs f32_zero)) else v)
        (nth (t * width + j) acc f32_zero) (seq 0 n)) as H; [|by apply H].
  induction n as [|n IH]; intros Hn; cbv zeta; [done|]. destruct (IH ltac:(lia)) as [Hl Hk].
  rewrite seq_S, foldl_app, Nat.add_0_l. cbn [foldl]. set (l := foldl _ acc (seq 0 n)) in *.
  assert (0 <= nth n tokens 0 < Z.of_nat count) as Hin by (rewrite Forall_forall in Ht; apply Ht, list_elem_of_In, nth_In; lia).
  destruct (scatter_row_spec outputs n (Z.to_nat (nth n tokens 0) * width) width (nth n weights f32_zero) l ltac:(nia)) as [Hl' Hk'].
  split; [by rewrite Hl'|]. intros t j Hj. rewrite Hk', foldl_app. cbn [foldl]. rewrite <- Hk by done. destruct (decide (Z.to_nat (nth n tokens 0) = t)) as [<-|Hne].
  - rewrite decide_True by nia. by replace (n * width + (Z.to_nat (nth n tokens 0%Z) * width + j - Z.to_nat (nth n tokens 0%Z) * width))%nat with (n * width + j)%nat by lia.
  - rewrite decide_False by nia. done.
Qed.

Lemma foldl_rel {A B C} (R : A -> B -> Prop) (f : A -> C -> A) (g : B -> C -> B) l : forall a b,
  (forall a b x, x ∈ l -> R a b -> R (f a x) (g b x)) -> R a b -> R (foldl f a l) (foldl g b l).
Proof.
  induction l as [|x l IH]; intros a b Hs Hr; [done|]. cbn. apply IH; [|apply Hs; [by left|done]]. intros. apply Hs; [by right|done].
Qed.

(** The loop over the memory does that to the combined rows, and to nothing else. *)
Lemma scatter_add_spec combined expert width tokens weights count mem :
  words_ok mem -> (0 < width)%nat -> Forall (fun t => 0 <= t < Z.of_nat count) tokens -> Forall valid32 weights ->
  (forall i k, (i < length tokens * width)%nat -> (k < count * width)%nat -> cell expert i <> cell combined k) ->
  let mem' := scatter_add combined expert width tokens weights mem in
  words_ok mem' /\ same_outside combined (count * width) mem mem' /\
  array mem' combined (count * width) = scattered (array mem expert (length tokens * width)) width tokens weights (array mem combined (count * width)).
Proof.
  intros Hm Hw Ht Hv Hd. cbv zeta. unfold scatter_add, scattered, scatter_row.
  set (R := fun (m : Z -> Z) (l : list f32) => words_ok m /\ same_outside combined (count * width) mem m /\ array m combined (count * width) = l).
  apply (foldl_rel R); [|done]. intros m l row [_ Hrow]%elem_of_seq HR. apply (foldl_rel R); [|done]. clear m l HR. intros m l j [_ Hj]%elem_of_seq (Ok & So & <-).
  assert (0 <= nth row tokens 0 < Z.of_nat count) as Hin by (rewrite Forall_forall in Ht; apply Ht, list_elem_of_In, nth_In; lia).
  set (i := (Z.to_nat (nth row tokens 0%Z) * width + j)%nat). assert (i < count * width)%nat as Hi by (unfold i; nia).
  rewrite array_nth by done. rewrite array_nth by nia.
  rewrite (same_outside_load combined (count * width) mem m expert (row * width + j) So) by (intros k Hk; apply Hd; [nia|done]).
  set (x := f32_add _ _). assert (valid32 x) as Hx.
  { apply f32_add_valid; [unfold load; auto with valid|]. apply f32_mul_valid; [by apply nth_valid|unfold load; auto with valid]. }
  split; [by apply store_ok|]. split; [|by apply array_store]. eapply same_outside_trans; [done|]. by apply store_same.
Qed.

(** ** The steps of one expert *)

(** A function that holds [ts] throws for lack of memory, with what was allocated before as
    it was. *)
Definition failed (h : Host) (ts : list Tensor) (e : exn) (h' : Host) : Prop := grows h ts h' /\ keeps h h' /\ allocation_error e.

Lemma failed_drop h t ts e h' : failed h (t :: ts) e h' -> failed h ts e (drop_tensor t h').
Proof. intros (Hg & Hk & He). destruct (grows_drop _ _ _ _ Hg) as [Hg' Hw]. split; [done|]. split; [by eapply keeps_words|done]. Qed.

Lemma count_dims (t : Tensor) h rows columns : owned h t -> dimensions (te_shape t) = [rows; columns] ->
  1 <= rows -> 1 <= columns -> count (viewOf true t) = (Z.to_nat rows * Z.to_nat columns)%nat.
Proof.
  intros Ho Hd Hr Hc. destruct (owned_storage h t Ho) as (_ & _ & _ & _ & Hs & _). destruct (sw_count _ Hs) as [Hn _].
  unfold count. cbn [viewOf shape_]. rewrite Hn, Hd. unfold product. cbn. lia.
Qed.

(** A weight matrix as it is stored, and the floats it stands for. *)
Record stored_weight (h : Host) (v : TensorView) (q : option QuantizationParameters) : Prop := StoredWeight {
  st_matrix : matrix h (dtype_ v) v;
  st_device : device_ v = cpu;
  st_quantization : match dtype_ v with INT8 => exists p, q = Some p /\ validateParameters QINT8 p = Ok tt /\ valid32 (scale p) | _ => q = None end;
}.
Definition stored_values (mem : Z -> Z) (v : TensorView) (q : option QuantizationParameters) : list f32 :=
  match dtype_ v with INT8 => weights_of q mem v | _ => elements mem v end.

(** What the executor is given for a stored weight: the stored view itself, or a converted
    tensor that is held. *)
Definition operand (h : Host) (ts : list Tensor) (h1 : Host) (v : TensorView) (q : option QuantizationParameters) (v' : TensorView) : Prop :=
  (v' = v /\ (dtype_ v = FP32 \/ dtype_ v = INT8)) \/
  (exists t, t ∈ ts /\ v' = viewOf true t /\ te_dtype t = FP32 /\ te_device t = cpu /\ te_shape t = shape_ v /\ q = None /\
     values (words h1) (viewOf true t) = stored_values (words h) v q).

Lemma operand_step h ts h1 ts' h2 v q v' : operand h ts h1 v q v' -> ts ⊆ ts' -> undisturbed ts h1 h2 -> operand h ts' h2 v q v'.
Proof.
  intros [?|(t & Hin & ? & Ht & ? & ? & ? & Hv)] Hs Hu; [by left|]. right. exists t. split_and!; try done; [by apply Hs|]. by rewrite (Hu t Hin Ht).
Qed.

Lemma operand_shape h ts h1 v q v' : operand h ts h1 v q v' -> shape_ v' = shape_ v.
Proof. by intros [[-> _]|(t & _ & -> & _ & _ & ? & _)]. Qed.

Lemma operand_fits h ts h1 v q v' : storage_aligned h -> grows h ts h1 -> keeps h h1 -> stored_weight h v q -> operand h ts h1 v q v' ->
  weight_fits h1 v' q /\ match q with Some p => valid32 (scale p) | None => True end /\ weights_of q (words h1) v' = stored_values (words h) v q.
Proof.
  intros Ha Hg Hk [Mv Dv Qv] [[-> Hd]|(t & Hin & -> & Ht & Hdev & Hsh & -> & Hv)].
  - pose proof Mv as (Uv & _). unfold stored_values. destruct Hd as [Hd|Hd]; rewrite Hd in Qv |- *.
    + rewrite Qv. split; [|split; [done|]].
      * constructor; [by eapply grows_matrix|done|done].
      * cbn. rewrite (kept_values h h1 Ha Hk v Uv Hd). apply list_fmap_ext. intros i k _. unfold element. by rewrite Hd.
    + destruct Qv as (p & -> & Hp & Hsc). split; [|split; [done|]].
      * constructor; [by eapply grows_matrix|done|done].
      * cbn. by apply kept_dequantized.
  - split; [|done]. constructor; [|done|done]. destruct Mv as (_ & _ & Hr). split; [by eapply owned_usable|]. split; [done|]. by cbn; rewrite Hsh.
Qed.

Lemma operand_disjoint h ts h1 v q v' t ts' : grows h ts h1 -> usable h v -> operand h ts' h1 v q v' -> ts' ⊆ ts -> t ∈ ts ->
  (forall t', t' ∈ ts' -> te_data t' <> te_data t) -> disjoint v' (viewOf true t).
Proof.
  intros Hg Hu [[-> _]|(t' & Hin & -> & _)] Hs Ht Hne; [by eapply owned_disjoint|]. eapply owned_apart; [exact Hg|by apply Hs|done|by apply Hne].
Qed.

(** The weights of an expert of the layer's dimensions. *)
Record weights_fit (h : Host) (inputWidth outputWidth : Z) (w : ExpertMlpWeights) : Prop := WeightsFit {
  wt_gate : stored_weight h (gateProjection w) (gateQuantization w);
  wt_up : stored_weight h (upProjection w) (upQuantization w);
  wt_down : stored_weight h (downProjection w) (downQuantization w);
  wt_dims : dimensions (shape_ (gateProjection w)) = dimensions (shape_ (upProjection w)) /\
    dim (gateProjection w) 0 = inputWidth /\ dim (gateProjection w) 1 = dim (downProjection w) 0 /\ dim (downProjection w) 1 = outputWidth;
}.

(** The MLP of the expert on [tokens] rows. *)
Definition expert_on (expf erff : f32 -> f32) (activation : ActivationType) (mem : Z -> Z) (w : ExpertMlpWeights) (tokens : nat) (x : list f32) : list f32 :=
  mlp_reference expf erff activation tokens (dims (gateProjection w) 0) (dims (gateProjection w) 1) (dims (downProjection w) 1) x
    (stored_values mem (gateProjection w) (gateQuantization w)) (stored_values mem (upProjection w) (upQuantization w))
    (stored_values mem (downProjection w) (downQuantization w)).

(** The views of an expert depend on the owners only through the payload's. *)
Lemma createViews_alive alive alive' layer expert payload off m :
  expired alive (lifetime_ payload) = expired alive' (lifetime_ payload) ->
  createViews alive layer expert payload off m = createViews alive' layer expert payload off m.
Proof.
  intros He. assert (forall o s d, sliceBytes alive payload o s d = sliceBytes alive' payload o s d) as Hs by (intros; unfold sliceBytes, view_valid, makeView; by rewrite He).
  assert (forall o t, projection_view alive payload o t = projection_view alive' payload o t) as Hv by (intros; unfold projection_view; by rewrite Hs).
  unfold createViews. destruct (weight_require layer expert m) as [b|e|]; cbn [res_bind]; [|reflexivity|reflexivity].
  destruct (bn_gateProjection b) as [g|]; [|reflexivity]. destruct (bn_upProjection b) as [u|]; [|reflexivity].
  destruct (bn_downProjection b) as [d|]; [|reflexivity]. by rewrite !Hv.
Qed.

Section steps.
Context `{HA : HostAllocator} `{HL : !HostAllocatorLaws}.
Variables (h : Host) (hostHidden : Tensor) (tokenCount inputWidth : Z).
Hypothesis Hwidth : 1 <= inputWidth <= u64_max.
Hypothesis Hcount : 1 <= tokenCount.
Hypothesis Hhidden : te_dtype hostHidden = FP32 /\ dimensions (te_shape hostHidden) = [tokenCount; inputWidth].

Lemma gathered_spec ts h1 batch : grows h ts h1 -> keeps h h1 -> hostHidden ∈ ts ->
  Forall (fun t => 0 <= t < tokenCount) (eb_tokenIndices batch) -> 1 <= Z.of_nat (length (eb_tokenIndices batch)) <= u64_max ->
  wp (gathered hostHidden inputWidth batch) h1
    (fun t h2 => grows h (t :: ts) h2 /\ keeps h h2 /\ undisturbed ts h1 h2 /\ te_dtype t = FP32 /\ te_device t = cpu /\
       dimensions (te_shape t) = [Z.of_nat (length (eb_tokenIndices batch)); inputWidth] /\
       values (words h2) (viewOf true t) = embedded (Z.to_nat inputWidth) (eb_tokenIndices batch) (values (words h1) (viewOf true hostHidden)))
    (failed h ts).
Proof.
  intros Hg Hk Hin Htok Hlen. unfold gathered. wp_step. apply wp_lift. pose proof (matrix_shape _ _ Hlen Hwidth) as Hshape.
  destruct (contiguousShape _) as [s|e|]; [|split; [done|]; split; [done|]; by right|done]. destruct Hshape as (Hs & Hds & Hc & Hn).
  wp_step. eapply wp_mono; [by eapply own_alloc| |intros e h2 [? ->]; done].
  intros a h2 (G2 & W2 & Sa & Ta & _). cbv beta. apply wp_scoped. wp_step. wp_step.
  set (n := length (eb_tokenIndices batch)) in *. set (width := Z.to_nat inputWidth) in *. assert (inputWidth = Z.of_nat width) as Ew by (unfold width; lia).
  pose proof (owned_in _ _ _ G2 a ltac:(by left)) as Oa. pose proof (owned_in _ _ _ G2 hostHidden ltac:(by right)) as Oh.
  destruct Hhidden as [Th Dh]. pose proof (count_dims _ _ _ _ Oh Dh Hcount ltac:(lia)) as Ch. fold width in Ch.
  assert (count (viewOf true a) = n * width)%nat as Ca by (rewrite (count_dims _ h (Z.of_nat n) inputWidth Oa); [unfold width; lia|by rewrite Sa|lia|lia]).
  pose proof (od_data _ _ Oa) as [_ A64]. pose proof (od_data _ _ Oh) as [_ H64]. pose proof (aligned_type _ FP32 A64) as A4. pose proof (aligned_type _ FP32 H64) as H4.
  pose proof (owned_apart _ _ _ G2 hostHidden a true ltac:(by right) ltac:(by left) ltac:(by eapply grows_distinct)) as Hap.
  pose proof (owned_bytes _ _ Oa Ta) as Ba. pose proof (owned_bytes _ _ Oh Th) as Bh. unfold disjoint in Hap. cbn [viewOf data_ bytes_] in Hap, Ba, Bh.
  destruct (copy_rows_spec (te_data hostHidden) (te_data a) width (eb_tokenIndices batch) (Z.to_nat tokenCount) (words h2)) as (Hok & Hcells & Hother);
    [unfold width; lia|apply G2|exact H4|exact A4|eapply Forall_impl; [exact Htok|]; cbn; lia|fold n; lia|].
  fold n in Hcells, Hother. rewrite <- Ew in Hok, Hcells, Hother.
  set (h3 := set_words _ h2).
  assert (wrote a h2 h3) as Hw3 by (eapply wrote_cells; [apply G2|exact Hok|done|]; intros x Hx Hno; apply Hother; [done|]; rewrite <- Ca; exact Hno).
  pose proof (wrote_grows _ _ _ _ G2 _ Hw3) as G3. assert (keeps h h3) as K3 by (eapply wrote_keeps; [exact G2|by left|done|done|by eapply keeps_words]).
  pose proof (wrote_undisturbed _ _ _ _ _ G2 Ta Hw3) as U3.
  assert (values (words h3) (viewOf true a) = embedded width (eb_tokenIndices batch) (values (words h1) (viewOf true hostHidden))) as V3.
  { unfold values at 1, embedded. rewrite Ca. fold n. apply list_fmap_ext. intros i k [-> Hi]%lookup_seq. rewrite Nat.add_0_l. cbn [viewOf data_ set_words words h3].
    unfold load. fold (cell (te_data a) i). rewrite Hcells by done.
    assert (i / width < n)%nat as Hrow by (apply Nat.Div0.div_lt_upper_bound; lia). pose proof (Nat.mod_upper_bound i width ltac:(lia)).
    assert (0 <= nth (i / width) (eb_tokenIndices batch) 0 < tokenCount) as Hid by (rewrite Forall_forall in Htok; apply Htok, list_elem_of_In, nth_In; done).
    rewrite values_lookup by (rewrite Ch; nia). by rewrite W2. }
  wp_step. rewrite Sa. eapply wp_mono; [by eapply (own_alloc h (a :: ts) h3)| |].
  2:{ intros e h4 [? ->]. by apply failed_drop. }
  intros b h4 (G4 & W4 & Sb & Tb & Db). wp_step. apply wp_kept.
  pose proof (owned_usable _ _ _ G4 a true ltac:(by right; left)) as Ua.
  eapply wp_mono; [apply (own_copy h (b :: a :: ts) h4 (viewOf true a) b G4); [by left|done|done|done|cbn; congruence]| |done].
  intros [] h5 (Hw5 & V5). wp_step. pose proof (wrote_grows _ _ _ _ G4 _ Hw5) as G5. destruct (own_drop _ _ _ _ _ G5) as [G6 W6].
  split; [done|]. split; [|split; [|split; [done|split; [done|split; [by rewrite Sb|]]]]].
  - eapply keeps_words; [exact W6|]. eapply wrote_keeps; [exact G4|by left|done|done|]. by eapply keeps_words.
  - eapply undisturbed_trans; [by apply undisturbed_words|]. eapply undisturbed_trans; [exact U3|]. eapply undisturbed_trans; [by apply undisturbed_words|].
    eapply undisturbed_trans; [|by apply undisturbed_words; exact W6]. eapply undisturbed_sub; [|eapply (wrote_undisturbed _ _ (a :: ts)); [exact G4|done|done]]. set_solver.
  - rewrite W6, V5, W4. exact V3.
Qed.

(** Everything but [hostCombined] holds what it held. *)
Definition spared (t0 : Tensor) (ts : list Tensor) (h1 h2 : Host) : Prop :=
  forall t, t ∈ ts -> te_dtype t = FP32 -> te_data t <> te_data t0 -> values (words h2) (viewOf true t) = values (words h1) (viewOf true t).
Lemma undisturbed_spared t0 ts h1 h2 : undisturbed ts h1 h2 -> spared t0 ts h1 h2.
Proof. intros Hu t Hin Ht _. by apply Hu. Qed.
Lemma spared_trans t0 ts h1 h2 h3 : spared t0 ts h1 h2 -> spared t0 ts h2 h3 -> spared t0 ts h1 h3.
Proof. intros H1 H2 t Hin Ht Hne. by rewrite H2, H1. Qed.
Lemma spared_sub t0 ts ts' h1 h2 : ts' ⊆ ts -> spared t0 ts h1 h2 -> spared t0 ts' h1 h2.
Proof. intros Hs Hu t Hin. apply Hu. by apply Hs. Qed.

Lemma values_array mem t : values mem (viewOf true t) = array mem (te_data t) (count (viewOf true t)).
Proof. done. Qed.

Variables (hostCombined : Tensor) (outputWidth : Z).
Hypothesis Hout : 1 <= outputWidth.
Hypothesis Hcombined : te_dtype hostCombined = FP32 /\ dimensions (te_shape hostCombined) = [tokenCount; outputWidth].

Lemma combine_spec ts h1 expertOutput batch : grows h ts h1 -> keeps h h1 -> hostCombined ∈ ts -> expertOutput ∈ ts -> te_data expertOutput <> te_data hostCombined ->
  te_dtype expertOutput = FP32 -> dimensions (te_shape expertOutput) = [Z.of_nat (length (eb_tokenIndices batch)); outputWidth] ->
  Forall (fun t => 0 <= t < tokenCount) (eb_tokenIndices batch) -> 1 <= Z.of_nat (length (eb_tokenIndices batch)) -> Forall valid32 (eb_routingWeights batch) ->
  wp (combine hostCombined expertOutput outputWidth batch) h1
    (fun _ h2 => grows h ts h2 /\ keeps h h2 /\ spared hostCombined ts h1 h2 /\
       values (words h2) (viewOf true hostCombined) =
         scattered (values (words h1) (viewOf true expertOutput)) (Z.to_nat outputWidth) (eb_tokenIndices batch) (eb_routingWeights batch)
           (values (words h1) (viewOf true hostCombined)))
    (failed h ts).
Proof.
  intros Hg Hk Hc He Hne Te De Htok Hlen Hv. unfold combine. wp_step.
  pose proof (owned_in _ _ _ Hg _ He) as Oe. pose proof (owned_in _ _ _ Hg _ Hc) as Oc. destruct (owned_storage _ _ Oe) as (_ & _ & _ & _ & Hs & Hcon & _).
  eapply wp_mono; [by apply (own_alloc h ts h1 (te_shape expertOutput) FP32)| |intros e h2 [? ->]; done].
  intros a h2 (G2 & W2 & Sa & Ta & _). cbv beta. apply wp_scoped. wp_step.
  pose proof (owned_usable _ _ _ G2 expertOutput true ltac:(by right)) as Ue.
  eapply wp_mono; [apply (own_copy h (a :: ts) h2 (viewOf true expertOutput) a G2); [by left|done|done|done|by rewrite Sa]| |done].
  intros [] h3 (Hw3 & V3). wp_step. pose proof (wrote_grows _ _ _ _ G2 _ Hw3) as G3. pose proof (wrote_undisturbed _ _ _ _ _ G2 Ta Hw3) as U3.
  assert (keeps h h3) as K3 by (eapply wrote_keeps; [exact G2|by left|done|done|by eapply keeps_words]).
  set (n := length (eb_tokenIndices batch)) in *. set (width := Z.to_nat outputWidth) in *. destruct Hcombined as [Tc Dc].
  pose proof (owned_in _ _ _ G3 a ltac:(by left)) as Oa.
  assert (count (viewOf true a) = n * width)%nat as Ca by (rewrite (count_dims _ h (Z.of_nat n) outputWidth Oa); [unfold width; lia|by rewrite Sa|lia|lia]).
  pose proof (count_dims _ _ _ _ Oc Dc Hcount Hout) as Cc. fold width in Cc.
  pose proof (owned_apart _ _ _ G3 hostCombined a true ltac:(by right) ltac:(by left) ltac:(by eapply grows_distinct)) as Hap.
  pose proof (owned_bytes _ _ Oa Ta) as Ba. pose proof (owned_bytes _ _ Oc Tc) as Bc. unfold disjoint in Hap. cbn [viewOf data_ bytes_] in Hap, Ba, Bc.
  destruct (scatter_add_spec (te_data hostCombined) (te_data a) width (eb_tokenIndices batch) (eb_routingWeights batch) (Z.to_nat tokenCount) (words h3))
    as (Hok & Hso & Harr); [apply G3|unfold width; lia|eapply Forall_impl; [exact Htok|]; cbn; lia|done| |].
  { intros i k Hi Hk'. fold n in Hi. unfold cell. lia. }
  fold n in Harr. set (h4 := set_words _ h3).
  assert (wrote hostCombined h3 h4) as Hw4 by (eapply wrote_cells; [apply G3|exact Hok|done|]; intros x Hx Hno; apply Hso; rewrite <- Cc; exact Hno).
  pose proof (wrote_grows _ _ _ _ G3 _ Hw4) as G4. destruct (grows_drop _ _ _ _ G4) as [G5 W5].
  split; [done|]. split; [|split].
  - eapply keeps_words; [exact W5|]. apply (wrote_keeps h _ h3 h4 G3 hostCombined); [by right|done..].
  - intros t Hin Ht Hd. rewrite W5. rewrite (wrote_values h (a :: ts) h3 h4 G3 hostCombined ltac:(by right) Tc Hw4 t ltac:(by right) Hd Ht). rewrite (U3 t Hin Ht). by rewrite W2.
  - rewrite W5. rewrite !values_array. rewrite Cc. cbn [h4 set_words words]. rewrite Harr. f_equal.
    + rewrite <- Ca. rewrite <- values_array. rewrite V3. rewrite W2. rewrite <- values_array. done.
    + rewrite <- Cc, <- !values_array. rewrite (U3 hostCombined Hc Tc). by rewrite W2.
Qed.

(** ** One expert *)

Hypothesis Haligned : storage_aligned h.
Hypothesis Hhost : host_wf h.

(** The output tensor is held, and the combined rows are [combined]. *)
Record expert_done (ts : list Tensor) (h1 : Host) (combined : list f32) (out : Tensor) (h2 : Host) : Prop := ExpertDone {
  xd_grows : grows h (out :: ts) h2;
  xd_keeps : keeps h h2;
  xd_spared : spared hostCombined ts h1 h2;
  xd_combined : values (words h2) (viewOf true hostCombined) = combined;
}.

(** Running with a prepared operand. *)
Lemma prepared_spec ts h1 v q combined (body : TensorView -> ST Host Tensor) :
  grows h ts h1 -> keeps h h1 -> stored_weight h v q ->
  (forall v' ts' h2, grows h ts' h2 -> keeps h h2 -> ts ⊆ ts' -> undisturbed ts h1 h2 -> operand h ts' h2 v q v' ->
     wp (body v') h2 (expert_done ts' h2 combined) (failed h ts')) ->
  wp (prepared v body) h1 (expert_done ts h1 combined) (failed h ts).
Proof.
  intros Hg Hk Hst Hbody. unfold prepared.
  assert (dtype_ v <> FP32 -> dtype_ v <> INT8 ->
    wp (owner <- toFp32Tensor v ;; scoped owner (body (viewOf true owner)))%st h1 (expert_done ts h1 combined) (failed h ts)) as Hconv.
  { intros H1 H2. destruct Hst as [Mv Dv Qv]. pose proof Mv as (Uv & _ & Rv). pose proof (grows_usable _ _ _ _ Hg Uv) as Uv1. wp_step.
    eapply wp_mono; [apply toFp32Tensor_spec; [apply Hg|apply Uv1]| |].
    2:{ intros e h2 [-> [[_ Hn]|[_ He]]]; [by destruct Hn|]. done. }
    intros t h2 (_ & Hnew). cbv beta. apply wp_scoped.
    assert (shape_wf (shape_ v)) as Hs by (destruct (us_placed _ _ Uv) as (b & _ & _ & Hw & _); apply (vw_shape _ _ Hw)).
    pose proof Hnew as [(h1' & Hf & Hb) Hvals Hother]. assert (grows h (t :: ts) h2) as G2 by (eapply grows_balanced; [by eapply grows_fresh; [..|apply (us_contiguous _ _ Uv)|]|done]).
    assert (te_dtype t = FP32 /\ te_device t = cpu /\ te_shape t = shape_ v) as (Tt & Dt & St) by (by destruct Hf as [_ (b & _ & _ & ->)]).
    assert (keeps h h2) as K2.
    { intros a Ha Hin. rewrite Hother by (done || by eapply grows_storage). by apply Hk. }
    assert (undisturbed ts h1 h2) as U2.
    { intros t' Hin' Ht'. apply list_fmap_ext. intros i k [-> Hi]%lookup_seq. rewrite Nat.add_0_l. unfold load. f_equal.
      pose proof (owned_in _ _ _ Hg _ Hin') as Ho. pose proof (od_data _ _ Ho) as [_ H64]. pose proof (aligned_type _ FP32 H64) as H4. cbn [dtype_sizeOf] in H4.
      apply Hother; [cbn [viewOf data_]; by rewrite Z.mul_comm, Z.mod_add by lia|].
      destruct (grows_block _ _ _ t' Hg Hin') as [Hl _]. exists (te_data t'), (te_storageBytes t'). split; [done|].
      pose proof (owned_bytes h _ Ho Ht') as Hbt. destruct (owned_storage h _ Ho) as (Hle & _). cbn [viewOf data_ bytes_] in *. lia. }
    assert (elements (words h1) v = elements (words h) v) as Hel.
    { apply list_fmap_ext. intros i k [-> Hi]%lookup_seq. rewrite Nat.add_0_l. pose proof (us_bytes _ _ Uv) as [Bv _]. unfold element, half_at.
      destruct (dtype_ v) eqn:Hd; try done; cbn [dtype_sizeOf] in Bv; by rewrite !(kept_byte h h1 Haligned Hk v Uv) by lia. }
    assert (operand h (t :: ts) h2 v q (viewOf true t)) as Hop.
    { right. exists t. split_and!; try done; [by left| |].
      - destruct (dtype_ v); [exact Qv|exact Qv|exact Qv|done].
      - rewrite Hvals, Hel. unfold stored_values. by destruct (dtype_ v). }
    eapply wp_mono; [by apply (Hbody (viewOf true t) (t :: ts) h2 G2 K2); [set_solver|..]| |by intros e h3; apply failed_drop].
    intros out h3 [G3 K3 S3 C3]. destruct (own_drop _ _ _ _ _ G3) as [G4 W4]. constructor; [done|by eapply keeps_words| |by rewrite W4].
    intros t' Hin' Ht' Hne. rewrite W4, (S3 t') by (done || by right). by apply U2. }
  destruct (dtype_ v) eqn:Hd; [|by apply Hconv|by apply Hconv|].
  all: apply (Hbody v ts h1 Hg Hk); [done|by apply undisturbed_words|left; split; [done|]; rewrite Hd; by auto].
Qed.

Variables (expf erff : f32 -> f32) (activation : ActivationType).
Hypothesis Hexpf : forall x, valid32 x -> valid32 (expf x).
Hypothesis Herff : forall x, valid32 x -> valid32 (erff x).

(** A batch the runtime accepted. *)
Record batch_fits (batch : ExpertBatch) : Prop := BatchFits {
  bf_tokens : Forall (fun t => 0 <= t < tokenCount) (eb_tokenIndices batch);
  bf_length : 1 <= Z.of_nat (length (eb_tokenIndices batch)) <= u64_max;
  bf_weights : Forall valid32 (eb_routingWeights batch);
}.

(** What the combined rows become. *)
Definition combined_after (w : ExpertMlpWeights) (batch : ExpertBatch) (x combined : list f32) : list f32 :=
  scattered (expert_on expf erff activation (words h) w (length (eb_tokenIndices batch)) (embedded (Z.to_nat inputWidth) (eb_tokenIndices batch) x))
    (Z.to_nat outputWidth) (eb_tokenIndices batch) (eb_routingWeights batch) combined.

Lemma expert_body ts h1 w gate up down batch x combined :
  grows h ts h1 -> keeps h h1 -> hostHidden ∈ ts -> hostCombined ∈ ts -> weights_fit h inputWidth outputWidth w -> batch_fits batch ->
  operand h ts h1 (gateProjection w) (gateQuantization w) gate -> operand h ts h1 (upProjection w) (upQuantization w) up ->
  operand h ts h1 (downProjection w) (downQuantization w) down ->
  values (words h1) (viewOf true hostHidden) = x -> values (words h1) (viewOf true hostCombined) = combined ->
  wp (expertInput <- gathered hostHidden inputWidth batch ;;
      scoped expertInput (
        shape <- lift (contiguousShape [Z.of_nat (length (eb_tokenIndices batch)); outputWidth]) ;;
        expertOutput <- allocateTensor shape FP32 ;;
        keeping expertOutput (
          execute expf erff activation (viewOf true expertInput)
            (mkMlpWeights gate up down (gateQuantization w) (upQuantization w) (downQuantization w)) (viewOf true expertOutput) ;;;
          combine hostCombined expertOutput outputWidth batch) ;;;
        ret expertOutput))%st h1
    (expert_done ts h1 (combined_after w batch x combined)) (failed h ts).
Proof.
  intros Hg Hk Hh Hc [Sg Su Sd (Edims & E0 & E1 & E2)] [Btok Blen Bw] Og Ou Od Vx Vc. pose proof (st_matrix _ _ _ Sg) as Mg. pose proof (st_matrix _ _ _ Sd) as Md.
  wp_step. eapply wp_mono; [by apply gathered_spec|cbv beta|done]. intros a h2 (G2 & K2 & U2 & Ta & Da & Sa & Va). apply wp_scoped.
  wp_step. apply wp_lift. pose proof (matrix_dims _ _ _ 1%nat Md ltac:(lia)) as Hw. rewrite E2 in Hw. pose proof (matrix_shape _ _ Blen Hw) as Hshape.
  destruct (contiguousShape _) as [s|e|]; [|by apply failed_drop; split; [done|]; split; [done|]; right|done]. destruct Hshape as (Hs & Hds & Hcon & _).
  wp_step. eapply wp_mono; [by eapply (own_alloc h (a :: ts))| |intros e h3 [? ->]; by apply failed_drop]. cbv beta.
  intros o h3 (G3 & W3 & So & To & Do). wp_step. apply wp_kept. wp_step.
  assert (undisturbed ts h1 h3) as U3 by (eapply undisturbed_trans; [exact U2|by apply undisturbed_words]).
  assert (keeps h h3) as K3 by (by eapply keeps_words). assert (ts ⊆ o :: a :: ts) as Hsub by set_solver.
  pose proof (operand_step _ _ _ _ _ _ _ _ Og Hsub U3) as Og3. pose proof (operand_step _ _ _ _ _ _ _ _ Ou Hsub U3) as Ou3. pose proof (operand_step _ _ _ _ _ _ _ _ Od Hsub U3) as Od3.
  destruct (operand_fits _ _ _ _ _ _ Haligned G3 K3 Sg Og3) as (Fg & Cg & Wg). destruct (operand_fits _ _ _ _ _ _ Haligned G3 K3 Su Ou3) as (Fu & Cu & Wu).
  destruct (operand_fits _ _ _ _ _ _ Haligned G3 K3 Sd Od3) as (Fd & Cd & Wd).
  pose proof (operand_shape _ _ _ _ _ _ Og) as Xg. pose proof (operand_shape _ _ _ _ _ _ Ou) as Xu. pose proof (operand_shape _ _ _ _ _ _ Od) as Xd.
  pose proof (owned_usable _ _ _ G3 a true ltac:(by right; left)) as Ua. pose proof (owned_usable _ _ _ G3 o true ltac:(by left)) as Uo.
  assert (disjoint down (viewOf true o)) as Ddo.
  { eapply (operand_disjoint _ (o :: a :: ts) _ _ _ _ _ ts); [exact G3|apply Md| |done|by left|intros t' Hin; apply (grows_distinct _ _ _ _ _ G3); by right].
    eapply operand_step; [exact Od|done|exact U3]. }
  assert (mlp_fits h3 (viewOf true a) (mkMlpWeights gate up down (gateQuantization w) (upQuantization w) (downQuantization w)) (viewOf true o)) as Hfits.
  { assert (forall t writable, usable h3 (viewOf writable t) -> te_dtype t = FP32 -> te_device t = cpu -> rank (te_shape t) = 2%nat -> activation_fits h3 (viewOf writable t)) as Hact by done.
    constructor; cbn [gateProjection upProjection downProjection gateQuantization upQuantization downQuantization]; try done.
    - apply Hact; [done..|]. unfold rank. by rewrite Sa.
    - split; [apply Hact; [done..|]; unfold rank; by rewrite So, Hds|]. apply (owned_writable _ _ _ G3). by left.
    - unfold dim in *. cbn [viewOf shape_]. rewrite Xg, Xu, Xd, Sa, So, Hds. cbn. split_and!; try done; by rewrite E0. }
  eapply wp_mono; [apply (execute_spec expf erff activation h3 (viewOf true a) _ (viewOf true o)); try done; [apply G3|apply Ua|apply Fg|apply Fu|apply Fd|apply Uo|]| |].
  { repeat apply Forall_cons_2; [exact Cg|exact Cu|exact Cd|apply Forall_nil_2]. }
  2:{ intros e h4 (Hb & Hw4 & [[_ Hn]|[_ He]]); [by destruct Hn|]. apply failed_drop, failed_drop. split; [by eapply grows_balanced|]. split; [by eapply keeps_words|done]. }
  intros [] h4 (Hb4 & _ & V4 & O4). cbn [gateProjection upProjection downProjection gateQuantization upQuantization downQuantization] in V4.
  assert (wrote o h3 h4) as Hwr by (constructor; [done|]; intros y _ Hin Hno; by apply O4).
  pose proof (wrote_grows _ _ _ _ G3 _ Hwr) as G4. pose proof (wrote_undisturbed _ _ _ _ _ G3 To Hwr) as U4.
  assert (keeps h h4) as K4 by (apply (wrote_keeps h _ h3 h4 G3 o); [by left|done..]).
  eapply wp_mono; [apply (combine_spec (o :: a :: ts) h4 o batch); try done| |].
  { by right; right. }
  { by left. }
  { intros Heq. eapply (grows_distinct _ _ _ _ hostCombined G4); [by right|]. done. }
  { by rewrite So. }
  { lia. }
  2:{ intros e h5 Hf. by apply failed_drop, failed_drop. }
  intros [] h5 (G5 & K5 & S5 & V5). wp_step. destruct (own_drop _ _ _ _ _ G5) as [G6 W6].
  constructor; [done|by eapply keeps_words| |].
  - intros t Hin Ht Hne. rewrite W6, (S5 t) by (done || by right; right). rewrite (U4 t) by (done || by right). by apply U3.
  - rewrite W6, V5. unfold combined_after. f_equal.
    + rewrite V4, Wg, Wu, Wd. unfold expert_on. rewrite W3, Va, Vx. unfold dims, dim. cbn [viewOf shape_]. rewrite Sa, Xg, Xd. cbn.
      fold (dim (gateProjection w) 0). rewrite E0, Nat2Z.id. done.
    + rewrite (U4 hostCombined) by (by right || apply Hcombined). rewrite (U3 hostCombined) by (done || apply Hcombined). done.
Qed.

Lemma run_expert_spec ts h1 w batch x combined :
  grows h ts h1 -> keeps h h1 -> hostHidden ∈ ts -> hostCombined ∈ ts -> weights_fit h inputWidth outputWidth w -> batch_fits batch ->
  values (words h1) (viewOf true hostHidden) = x -> values (words h1) (viewOf true hostCombined) = combined ->
  wp (run_expert expf erff activation hostHidden hostCombined inputWidth outputWidth w batch) h1
    (expert_done ts h1 (combined_after w batch x combined)) (failed h ts).
Proof.
  intros Hg Hk Hh Hc Hw Hb Vx Vc. unfold run_expert. apply (prepared_spec _ _ _ (gateQuantization w)); [done|done|apply Hw|]. intros gate t1 h2 G2 K2 S2 U2 O2.
  apply (prepared_spec _ _ _ (upQuantization w)); [done|done|apply Hw|]. intros up t2 h3 G3 K3 S3 U3 O3. apply (prepared_spec _ _ _ (downQuantization w)); [done|done|apply Hw|]. intros down t3 h4 G4 K4 S4 U4 O4.
  destruct Hhidden as [Th _], Hcombined as [Tc _].
  apply expert_body; try done; [by apply S4, S3, S2|by apply S4, S3, S2| | | |].
  - eapply operand_step; [exact O2|by etrans|]. eapply undisturbed_trans; [exact U3|]. by eapply undisturbed_sub.
  - by eapply operand_step.
  - rewrite (U4 hostHidden), (U3 hostHidden), (U2 hostHidden); [done|..]; auto.
  - rewrite (U4 hostCombined), (U3 hostCombined), (U2 hostCombined); [done|..]; auto.
Qed.

(** ** All experts *)

Variables (m : ExpertWeightMap) (lease : Z -> TensorView * Z) (weights : Z -> ExpertMlpWeights).

(** The payload of an expert of the batch is leased, and its views are [weights]. *)
Record expert_leased (layerId expert : Z) : Prop := ExpertLeased {
  el_placed : placed h (lease expert).1;
  el_views : createViews (owners h) layerId expert (lease expert).1 (lease expert).2 m = Ok (weights expert);
  el_fits : weights_fit h inputWidth outputWidth (weights expert);
}.

Record batches_done (ts : list Tensor) (h1 : Host) (combined : list f32) (outs : list Tensor) (h2 : Host) : Prop := BatchesDone {
  bd_grows : grows h (outs ++ ts) h2;
  bd_keeps : keeps h h2;
  bd_combined : values (words h2) (viewOf true hostCombined) = combined;
}.

Lemma run_batches_spec batches : forall ts h1 x combined,
  grows h ts h1 -> keeps h h1 -> hostHidden ∈ ts -> hostCombined ∈ ts -> te_data hostHidden <> te_data hostCombined ->
  Forall (fun b => batch_fits b /\ expert_leased (eb_layerId b) (eb_expertId b)) batches ->
  values (words h1) (viewOf true hostHidden) = x -> values (words h1) (viewOf true hostCombined) = combined ->
  wp (run_batches expf erff activation m lease hostHidden hostCombined inputWidth outputWidth batches) h1
    (batches_done ts h1 (foldl (fun c b => combined_after (weights (eb_expertId b)) b x c) combined batches)) (failed h ts).
Proof.
  induction batches as [|b batches IH]; intros ts h1 x combined Hg Hk Hh Hc Hne Hf Vx Vc; cbn [run_batches foldl]; [by wp_step|].
  apply Forall_cons in Hf as [[Hb [Hp Hv Hw]] Hf]. wp_step. wp_step. wp_step. apply wp_lift.
  rewrite (createViews_alive (owners h1) (owners h)), Hv by (by rewrite (placed_alive h), (grows_expired _ _ _ _ Hg)).
  wp_step. eapply wp_mono; [by apply run_expert_spec|cbv beta|done]. intros out h2 [G2 K2 S2 C2]. apply wp_kept. wp_step.
  assert (values (words h2) (viewOf true hostHidden) = x) as Vx2 by (rewrite (S2 hostHidden Hh (proj1 Hhidden) Hne); done).
  eapply wp_mono; [apply (IH (out :: ts) h2 x); [done|done|by right|by right|done|done|done|done]| |by intros e h3; apply failed_drop].
  intros outs h3 [G3 K3 C3]. wp_step. constructor; [|done|by rewrite C3]. eapply grows_perm; [done|]. cbn. symmetry. apply Permutation_middle.
Qed.
End steps.

(** ** From the groups to the tokens *)

(** What a token gets: the outputs of its experts weighted by their scores, in the order of
    [experts]. *)
Definition token_output (d : RouterDecision) (experts : list Z) (output : Z -> list f32) (j : nat) : f32 :=
  foldl (fun v e =>
    foldl (fun v (a : Z * f32) => if decide (a.1 = e) then f32_add v (f32_mul a.2 (nth j (output e) f32_zero)) else v) v
      (zip (selectedExpertIds d) (routingScores d))) f32_zero experts.

(** The assignments of one token to one expert. *)
Lemma members_token {V} (F : V -> f32 -> V) e t ds : forall start v, (start <= t)%nat ->
  foldl (fun v (p : Z * f32) => if decide (Z.to_nat p.1 = t) then F v p.2 else v) v (members e (assignments start ds)) =
  match ds !! (t - start)%nat with
  | Some d => foldl (fun v (a : Z * f32) => if decide (a.1 = e) then F v a.2 else v) v (zip (selectedExpertIds d) (routingScores d))
  | None => v
  end.
Proof.
  induction ds as [|d ds IH]; intros start v Ht; [done|]. cbn [assignments]. rewrite members_app, foldl_app.
  assert (forall (l : list (Z * f32)) v, foldl (fun v (p : Z * f32) => if decide (Z.to_nat p.1 = t) then F v p.2 else v) v
    (members e ((fun a : Z * f32 => (Z.of_nat start, a.1, a.2)) <$> l)) =
    if decide (start = t) then foldl (fun v (a : Z * f32) => if decide (a.1 = e) then F v a.2 else v) v l else v) as Hhead.
  { clear IH v. induction l as [|[e' s] l IHl]; intros v; [by destruct (decide (start = t))|]. cbn [fmap list_fmap]. rewrite members_cons. cbn [foldl fst snd].
    destruct (decide (e' = e)); [|apply IHl]. cbn [foldl fst snd]. rewrite Nat2Z.id, IHl. by destruct (decide (start = t)). }
  rewrite Hhead. destruct (decide (start = t)) as [->|Hne].
  - rewrite Nat.sub_diag. cbn [lookup list_lookup]. set (w := foldl _ v _). clearbody w. clear Hhead IH.
    assert (forall ds s v, (t < s)%nat -> foldl (fun v (p : Z * f32) => if decide (Z.to_nat p.1 = t) then F v p.2 else v) v (members e (assignments s ds)) = v) as H; [|apply H; lia].
    clear. induction ds as [|d ds IH]; intros s v Hs; [done|]. cbn [assignments]. rewrite members_app, foldl_app.
    assert (foldl (fun v (p : Z * f32) => if decide (Z.to_nat p.1 = t) then F v p.2 else v) v
      (members e ((fun a : Z * f32 => (Z.of_nat s, a.1, a.2)) <$> zip (selectedExpertIds d) (routingScores d))) = v) as ->; [|apply IH; lia].
    generalize (zip (selectedExpertIds d) (routingScores d)) as l. induction l as [|[e' x] l IHl]; [done|]. cbn [fmap list_fmap]. rewrite members_cons. cbn [fst snd].
    destruct (decide (e' = e)); [|done]. cbn [foldl fst snd]. by rewrite Nat2Z.id, decide_False by lia.
  - rewrite IH by lia. by replace (t - start)%nat with (S (t - S start)) by lia.
Qed.

Lemma groups_token {V} (F : Z -> V -> f32 -> V) ds t d groups v : ds !! t = Some d -> Forall (holds_group (assignments 0 ds)) groups ->
  foldl (fun v group => foldl (fun v (p : Z * f32) => if decide (Z.to_nat p.1 = t) then F (eg_expertId group) v p.2 else v) v
    (zip (eg_tokenIndices group) (eg_routingScores group))) v groups =
  foldl (fun v e => foldl (fun v (a : Z * f32) => if decide (a.1 = e) then F e v a.2 else v) v (zip (selectedExpertIds d) (routingScores d))) v (eg_expertId <$> groups).
Proof.
  intros Hd. revert v. induction groups as [|group groups IH]; intros v Hh; [done|]. apply Forall_cons in Hh as [[_ Hz] Hh]. cbn [fmap list_fmap foldl].
  rewrite Hz, members_token by lia. rewrite Nat.sub_0_r, Hd. by apply IH.
Qed.

Lemma foldl_rows {V} (F : V -> f32 -> V) t (tokens : list Z) : forall (weights : list f32) v, length tokens = length weights ->
  foldl (fun v row => if decide (Z.to_nat (nth row tokens 0) = t) then F v (nth row weights f32_zero) else v) v (seq 0 (length tokens)) =
  foldl (fun v (p : Z * f32) => if decide (Z.to_nat p.1 = t) then F v p.2 else v) v (zip tokens weights).
Proof.
  induction tokens as [|a tokens IH]; intros [|w weights] v Hl; try done. cbn [length seq foldl zip zip_with fst snd nth].
  rewrite <- fmap_S_seq, foldl_fmap. apply IH. by injection Hl.
Qed.

(** A decision the runtime can execute: grouped exactly, no expert twice for a token, and
    numbers for scores. *)
Record routed (layerId : Z) (decision : BatchRouterDecision) : Prop := Routed {
  rt_exact : batch_exact layerId decision;
  rt_distinct : Forall (fun d => NoDup (selectedExpertIds d)) (br_tokens decision);
  rt_scores : Forall (fun d => Forall (fun s => isfinite s = true) (routingScores d)) (br_tokens decision) /\
    Forall (fun d => Forall valid32 (routingScores d)) (br_tokens decision);
}.

Definition batch_of (layerId : Z) (group : ExpertTokenGroup) : ExpertBatch :=
  mkExpertBatch layerId (eg_expertId group) (eg_tokenIndices group) (eg_routingScores group).

Lemma members_length e ds : Forall (fun d => NoDup (selectedExpertIds d)) ds -> (length (members e (assignments 0 ds)) <= length ds)%nat.
Proof.
  intros Hd. destruct (members_sorted e 0 ds Hd) as [Hnd Hr]. rewrite <- (length_fmap fst).
  assert ((members e (assignments 0 ds)).*1 ⊆+ seqZ 0 (Z.of_nat (length ds))) as Hs.
  { apply NoDup_submseteq; [done|]. intros t Ht. rewrite Forall_forall in Hr. apply elem_of_seqZ. specialize (Hr t Ht). cbn in Hr. lia. }
  apply submseteq_length in Hs. rewrite length_seqZ in Hs. lia.
Qed.

Lemma group_fits layerId decision tokenCount group : routed layerId decision -> Z.of_nat (length (br_tokens decision)) = tokenCount -> 1 <= tokenCount <= u64_max ->
  group ∈ br_expertGroups decision -> batch_fits tokenCount (batch_of layerId group) /\ length (eg_tokenIndices group) = length (eg_routingScores group).
Proof.
  intros [Hx Hd [_ Hv]] Hl Hn Hin. pose proof (bx_members _ _ Hx) as Hh. rewrite Forall_forall in Hh. specialize (Hh _ Hin).
  destruct (holds_group_split _ _ Hh) as [Ht Hs]. destruct (members_sorted (eg_expertId group) 0 _ Hd) as [_ Hr]. split; [|by destruct Hh].
  constructor; cbn [batch_of eb_tokenIndices eb_routingWeights].
  - rewrite Ht. eapply Forall_impl; [exact Hr|]. cbn. lia.
  - rewrite Ht, length_fmap. pose proof (members_length (eg_expertId group) _ Hd).
    assert (members (eg_expertId group) (assignments 0 (br_tokens decision)) <> []) as Hne by (apply (bx_selected _ _ Hx), list_elem_of_fmap_2, Hin).
    destruct (members _ _); [done|]. cbn [length] in *. lia.
  - rewrite Hs. by apply members_scores.
Qed.

(** ** The batches are made *)

Lemma validated_ok n l : Forall (fun b => expertBatch_validate n b = Ok tt) l -> validated n l = Ok tt.
Proof. induction 1 as [|b l Hb _ IH]; [done|]. cbn. by rewrite Hb. Qed.

Lemma assignment_count_spec tokens : forall n, 0 <= n ->
  match assignment_count n tokens with
  | Ok k => k = n + Z.of_nat (sum_list_with (fun d => length (selectedExpertIds d)) tokens) /\ (k <= u64_max \/ k = n)
  | Throw e => kind_of e = OverflowError
  | Diverge => False
  end.
Proof.
  induction tokens as [|d tokens IH]; intros n Hn; cbn [assignment_count sum_list_with]; [lia|].
  destruct (Z.ltb_spec (u64_max - Z.of_nat (length (selectedExpertIds d))) n); cbn [throw_if res_bind]; [done|].
  rewrite wrap64_small by (unfold is_u64; lia). specialize (IH (n + Z.of_nat (length (selectedExpertIds d))) ltac:(lia)).
  destruct (assignment_count _ tokens); [|done|done]. lia.
Qed.

Lemma batch_total layerId groups : forall n, 0 <= n -> n + Z.of_nat (assigned groups) <= u64_max ->
  foldl (fun n b => wrap64 (n + Z.of_nat (length (eb_tokenIndices b)))) n (batch_of layerId <$> groups) = n + Z.of_nat (assigned groups).
Proof.
  induction groups as [|g groups IH]; intros n Hn Hm; unfold assigned in *; cbn [fmap list_fmap foldl sum_list_with] in *; [lia|]. cbn [batch_of eb_tokenIndices].
  rewrite wrap64_small by (unfold is_u64; lia). rewrite IH by lia. lia.
Qed.

Lemma groups_nonempty layerId decision : batch_exact layerId decision -> br_expertGroups decision <> [].
Proof.
  intros Hx Hnil. pose proof (bx_valid _ _ Hx) as Hv. pose proof (bx_total _ _ Hx) as Ht. rewrite Hnil in Ht. unfold assigned in Ht. cbn in Ht.
  unfold batch_valid in Hv. apply andb_true_iff in Hv as [[Hne Hd]%andb_true_iff _]. destruct (br_tokens decision) as [|d ds]; [done|].
  cbn [forallb sum_list_with] in *. apply andb_true_iff in Hd as [[Hd _]%andb_true_iff _]. unfold decision_valid in Hd. apply andb_true_iff in Hd as [Hd _].
  apply negb_true_iff, Nat.eqb_neq in Hd. lia.
Qed.

Lemma expert_batches_spec layerId decision : routed layerId decision ->
  match expert_batches layerId decision with
  | Ok batches => batches = batch_of layerId <$> br_expertGroups decision
  | Throw e => kind_of e = OverflowError
  | Diverge => False
  end.
Proof.
  intros [Hx Hd [Hf _]]. unfold expert_batches. fold (batch_of layerId). set (batches := _ <$> br_expertGroups decision).
  assert (batches = batch_of layerId <$> br_expertGroups decision) as Hb by done.
  rewrite validated_ok; cbn [res_bind].
  2:{ rewrite Hb. apply Forall_fmap, Forall_forall. intros group Hin. by apply batch_exact_validates. }
  replace (match batches with [] => true | _ => false end) with false by (pose proof (groups_nonempty _ _ Hx); rewrite Hb; by destruct (br_expertGroups decision)).
  cbn [throw_if res_bind]. pose proof (assignment_count_spec (br_tokens decision) 0 ltac:(lia)) as Hc.
  destruct (assignment_count 0 (br_tokens decision)) as [n|e|]; cbn [res_bind]; [|done|done]. destruct Hc as [-> Hn].
  pose proof (bx_total _ _ Hx) as Ht. rewrite Hb, batch_total by (unfold u64_max in *; lia). rewrite Ht, Z.eqb_refl. done.
Qed.

(** ** The combined rows are the tokens' outputs *)

Section mixture.
Variables (h : Host) (inputWidth outputWidth tokenCount : Z) (expf erff : f32 -> f32) (activation : ActivationType).
Variables (weights : Z -> ExpertMlpWeights) (x : list f32).
Hypothesis Hin : 1 <= inputWidth.
Hypothesis Hout : 1 <= outputWidth.
Hypothesis Hcount : 1 <= tokenCount.
Let hidden := Z.to_nat inputWidth.
Let width := Z.to_nat outputWidth.

(** The output of an expert for token [t]. *)
Definition expert_output (t : nat) (expert : Z) : list f32 :=
  expert_on expf erff activation (words h) (weights expert) 1 (row_of t hidden x).

Lemma combined_cell layerId group c :
  weights_fit h inputWidth outputWidth (weights (eg_expertId group)) -> batch_fits tokenCount (batch_of layerId group) ->
  length (eg_tokenIndices group) = length (eg_routingScores group) -> length c = (Z.to_nat tokenCount * width)%nat ->
  let c' := combined_after h inputWidth outputWidth expf erff activation (weights (eg_expertId group)) (batch_of layerId group) x c in
  length c' = length c /\
  forall t j, (j < width)%nat -> nth (t * width + j) c' f32_zero =
    foldl (fun v (p : Z * f32) => if decide (Z.to_nat p.1 = t) then f32_add v (f32_mul p.2 (nth j (expert_output t (eg_expertId group)) f32_zero)) else v)
      (nth (t * width + j) c f32_zero) (zip (eg_tokenIndices group) (eg_routingScores group)).
Proof.
  intros [Sg _ Sd (_ & E0 & E1 & E2)] [Htok Hlen _] Hl Hc. cbv zeta. unfold combined_after. cbn [batch_of eb_tokenIndices eb_routingWeights] in *. fold hidden width.
  destruct (scattered_spec (expert_on expf erff activation (words h) (weights (eg_expertId group)) (length (eg_tokenIndices group)) (embedded hidden (eg_tokenIndices group) x))
    width (eg_tokenIndices group) (eg_routingScores group) c (Z.to_nat tokenCount)) as [Hl' Hk]; [done|unfold width; lia|eapply Forall_impl; [exact Htok|]; cbn; lia|].
  split; [done|]. intros t j Hj. rewrite Hk by done. rewrite <- (foldl_rows (fun v s => f32_add v (f32_mul s (nth j (expert_output t (eg_expertId group)) f32_zero)))) by done.
  apply foldl_ext_in. intros v row [_ Hrow]%elem_of_seq. destruct (decide (Z.to_nat (nth row (eg_tokenIndices group) 0) = t)) as [<-|]; [|done]. do 2 f_equal.
  assert (dims (gateProjection (weights (eg_expertId group))) 0 = hidden /\ dims (downProjection (weights (eg_expertId group))) 1 = width) as [D0 D1]
    by (unfold dims; by rewrite E0, E2).
  pose proof (matrix_dims _ _ _ 1%nat (st_matrix _ _ _ Sg) ltac:(lia)) as Hi.
  unfold expert_output, expert_on. rewrite D0, D1.
  rewrite <- (embedded_row hidden (eg_tokenIndices group)) by (unfold hidden; lia).
  rewrite <- (mlp_row _ _ _ (length (eg_tokenIndices group))) by (unfold dims, width; lia).
  by rewrite row_of_nth.
Qed.

Lemma combined_cells layerId groups : forall c,
  Forall (fun group => weights_fit h inputWidth outputWidth (weights (eg_expertId group)) /\ batch_fits tokenCount (batch_of layerId group) /\
    length (eg_tokenIndices group) = length (eg_routingScores group)) groups ->
  length c = (Z.to_nat tokenCount * width)%nat ->
  let c' := foldl (fun c b => combined_after h inputWidth outputWidth expf erff activation (weights (eb_expertId b)) b x c) c (batch_of layerId <$> groups) in
  length c' = length c /\
  forall t j, (j < width)%nat -> nth (t * width + j) c' f32_zero =
    foldl (fun v group => foldl (fun v (p : Z * f32) => if decide (Z.to_nat p.1 = t) then f32_add v (f32_mul p.2 (nth j (expert_output t (eg_expertId group)) f32_zero)) else v)
      v (zip (eg_tokenIndices group) (eg_routingScores group))) (nth (t * width + j) c f32_zero) groups.
Proof.
  induction groups as [|group groups IH]; intros c Hf Hc; [done|]. apply Forall_cons in Hf as [(Hw & Hb & Hl) Hf]. cbn [fmap list_fmap foldl].
  destruct (combined_cell layerId group c Hw Hb Hl Hc) as [Hl1 Hk1]. cbv zeta in Hl1, Hk1. change (eb_expertId (batch_of layerId group)) with (eg_expertId group).
  set (c1 := combined_after _ _ _ _ _ _ _ _ _ c) in *. destruct (IH c1 Hf ltac:(congruence)) as [Hl2 Hk2]. split; [congruence|].
  intros t j Hj. rewrite Hk2 by done. by rewrite Hk1.
Qed.

(** Token by token: the mixture of the experts its decision names. *)
Definition mixture (decision : BatchRouterDecision) : list f32 :=
  (fun k => match br_tokens decision !! (k / width)%nat with
            | Some d => token_output d (eg_expertId <$> br_expertGroups decision) (expert_output (k / width)) (k mod width)
            | None => f32_zero
            end) <$> seq 0 (Z.to_nat tokenCount * width).

Lemma combined_mixture layerId decision zeros : routed layerId decision -> Z.of_nat (length (br_tokens decision)) = tokenCount -> tokenCount <= u64_max ->
  Forall (fun e => weights_fit h inputWidth outputWidth (weights e)) (eg_expertId <$> br_expertGroups decision) ->
  length zeros = (Z.to_nat tokenCount * width)%nat -> (forall k, nth k zeros f32_zero = f32_zero) ->
  foldl (fun c b => combined_after h inputWidth outputWidth expf erff activation (weights (eb_expertId b)) b x c) zeros (batch_of layerId <$> br_expertGroups decision) =
  mixture decision.
Proof.
  intros Hr Hl Hm Hw Hz H0. pose proof (rt_exact _ _ Hr) as Hx.
  destruct (combined_cells layerId (br_expertGroups decision) zeros) as [Hlen Hk]; [|done|].
  { apply Forall_forall. intros group Hing. rewrite Forall_fmap, Forall_forall in Hw. split; [by apply Hw|]. by eapply group_fits. }
  cbv zeta in Hlen, Hk. set (c := foldl _ zeros _) in *. rewrite <- (nth_seq c _ (eq_trans Hlen Hz)). unfold mixture.
  apply list_fmap_ext. intros i k [-> Hi]%lookup_seq. rewrite Nat.add_0_l. assert (0 < width)%nat as Hwd by (unfold width; lia).
  pose proof (Nat.div_mod_eq i width) as Hdm. rewrite (Nat.mul_comm width) in Hdm. rewrite Hdm at 1. rewrite Hk by (apply Nat.mod_upper_bound; lia). rewrite H0.
  assert (i / width < length (br_tokens decision))%nat as Ht by (apply Nat.Div0.div_lt_upper_bound; lia).
  destruct (lookup_lt_is_Some_2 (br_tokens decision) (i / width) Ht) as [d Hd]. rewrite Hd. unfold token_output.
  exact (groups_token (fun e v s => f32_add v (f32_mul s (nth (i mod width) (expert_output (i / width) e) f32_zero))) _ _ _ _ _ Hd (bx_members _ _ Hx)).
Qed.
End mixture.

Lemma projection_shape alive payload off t v : projection_view alive payload off t = Ok v -> shape_ v = tmd_shape t.
Proof.
  unfold projection_view, sliceBytes, makeView. intros H.
  repeat match type of H with
  | res_bind ?r _ = Ok _ => let E := fresh in destruct r eqn:E; cbn [res_bind] in H; [|done|done]
  end. by injection H as <-.
Qed.
Lemma createViews_down alive layer expert payload off m w : createViews alive layer expert payload off m = Ok w ->
  exists b d, weight_require layer expert m = Ok b /\ bn_downProjection b = Some d /\ shape_ (downProjection w) = tmd_shape d.
Proof.
  unfold createViews. destruct (weight_require layer expert m) as [b|e|]; cbn [res_bind]; [|done|done]. intros H.
  destruct (bn_gateProjection b) as [g|]; [|done]. destruct (bn_upProjection b) as [u|]; [|done]. destruct (bn_downProjection b) as [d|] eqn:Hd; [|done].
  destruct (projection_view alive payload off g); cbn [res_bind] in H; [|done|done]. destruct (projection_view alive payload off u); cbn [res_bind] in H; [|done|done].
  destruct (projection_view alive payload off d) as [v|e|] eqn:Hv; cbn [res_bind] in H; [|done|done]. injection H as <-. cbn [downProjection].
  exists b, d. split; [done|]. split; [done|]. by eapply projection_shape.
Qed.

(** ** The whole layer *)

Lemma wp_keeping_all {A} ts (m : ST Host A) h Q E : wp m h Q (fun _ _ => False) -> wp (keeping_all ts m) h Q E.
Proof.
  intros Hm. assert (wp (keeping_all ts m) h Q (fun _ _ => False)) as H; [|by eapply wp_mono; [exact H|done|done]].
  induction ts as [|t ts IH]; [exact Hm|]. cbn [keeping_all foldr]. apply wp_keeping. exact IH.
Qed.

Section layer.
Context `{HA : HostAllocator} `{HL : !HostAllocatorLaws}.
Variables (expf erff : f32 -> f32) (activation : ActivationType).
Hypothesis Hexpf : forall x, valid32 x -> valid32 (expf x).
Hypothesis Herff : forall x, valid32 x -> valid32 (erff x).

(** What a returned layer is: the output and the experts' outputs are held, what was
    allocated is as it was, and the output holds the mixture. *)
Record layer_done (h : Host) (weights : Z -> ExpertMlpWeights) (inputWidth outputWidth : Z) (hiddenStates : TensorView)
    (decision : BatchRouterDecision) (r : Tensor * list Tensor) (h' : Host) : Prop := LayerDone {
  ld_grows : grows h (r.1 :: r.2) h';
  ld_keeps : keeps h h';
  ld_output : values (words h') (viewOf true r.1) =
    mixture h inputWidth outputWidth (dim hiddenStates 0) expf erff activation weights (values (words h) hiddenStates) decision;
}.

Section call.
Variables (h : Host) (m : ExpertWeightMap) (lease : Z -> TensorView * Z) (weights : Z -> ExpertMlpWeights) (layerId : Z).
Variables (hiddenStates : TensorView) (decision : BatchRouterDecision) (outputWidth : Z).
Hypothesis Hwf : host_wf h.
Hypothesis Hal : storage_aligned h.
Hypothesis Mh : matrix h FP32 hiddenStates.
Hypothesis Dh : device_ hiddenStates = cpu.
Hypothesis Hr : routed layerId decision.
Hypothesis Hlen : Z.of_nat (length (br_tokens decision)) = dim hiddenStates 0.
Hypothesis Hl : Forall (expert_leased h (dim hiddenStates 1) outputWidth m lease weights layerId) (eg_expertId <$> br_expertGroups decision).
Let T := dim hiddenStates 0.
Let inputWidth := dim hiddenStates 1.

Lemma layer_dims : 1 <= T <= u64_max /\ 1 <= inputWidth <= u64_max /\ 1 <= outputWidth <= u64_max /\ dimensions (shape_ hiddenStates) = [T; inputWidth].
Proof.
  split; [by apply (matrix_dims _ _ _ 0%nat Mh); lia|]. split; [by apply (matrix_dims _ _ _ 1%nat Mh); lia|]. split.
  - pose proof (groups_nonempty _ _ (rt_exact _ _ Hr)). destruct (br_expertGroups decision) as [|g gs]; [done|]. apply Forall_cons in Hl as [[_ _ [_ _ Sd (_ & _ & _ & E2)]] _].
    pose proof (matrix_dims _ _ _ 1%nat (st_matrix _ _ _ Sd) ltac:(lia)) as Ho. by rewrite E2 in Ho.
  - destruct Mh as (_ & _ & Rh). unfold T, inputWidth, rank, dim in *. destruct (dimensions (shape_ hiddenStates)) as [|? [|? []]]; done.
Qed.

Definition batches : list ExpertBatch := batch_of layerId <$> br_expertGroups decision.

(** The loop over the experts, and the copy to the output. *)
Lemma layer_loop h5 output hostHidden hostCombined :
  grows h [hostCombined; hostHidden; output] h5 -> keeps h h5 ->
  te_dtype output = FP32 -> te_dtype hostHidden = FP32 -> te_dtype hostCombined = FP32 ->
  te_shape hostHidden = shape_ hiddenStates -> dimensions (te_shape hostCombined) = [T; outputWidth] -> te_shape output = te_shape hostCombined ->
  values (words h5) (viewOf true hostHidden) = values (words h) hiddenStates ->
  values (words h5) (viewOf true hostCombined) = (fun _ => f32_zero) <$> seq 0 (count (viewOf true hostCombined)) ->
  wp (expertOutputs <- run_batches expf erff activation m lease hostHidden hostCombined inputWidth outputWidth batches ;;
      keeping_all expertOutputs (copyTensor (viewOf true hostCombined) (viewOf true output) ;;; synchronize) ;;;
      ret expertOutputs)%st h5
    (fun outs h8 => grows h (hostCombined :: hostHidden :: output :: outs) h8 /\ keeps h h8 /\
       values (words h8) (viewOf true output) = mixture h inputWidth outputWidth T expf erff activation weights (values (words h) hiddenStates) decision)
    (failed h [hostCombined; hostHidden; output]).
Proof.
  intros G5 K5 T1 T2 T4 S2 S4 S1 X5 V5. destruct layer_dims as (Ht & Hi & Ho & Hdh).
  assert (te_data hostHidden <> te_data hostCombined) as Hne by (eapply grows_distinct; [exact G5|by left]).
  wp_step. eapply wp_mono; [apply (run_batches_spec h hostHidden T inputWidth Hi ltac:(lia) ltac:(by rewrite S2) hostCombined outputWidth ltac:(lia)
    (conj T4 S4) Hal Hwf expf erff activation Hexpf Herff m lease weights batches [hostCombined; hostHidden; output] h5 (values (words h) hiddenStates) ((fun _ => f32_zero) <$> seq 0 (count (viewOf true hostCombined))) G5 K5);
    [by right; left|by left|done| |exact X5|exact V5]| |done].
  { apply Forall_fmap, Forall_forall. intros gr Hin. cbn. split; [by eapply group_fits|]. rewrite Forall_fmap, Forall_forall in Hl. by apply (Hl gr Hin). }
  intros outs h6 [G6 K6 V6]. assert (hostCombined ∈ outs ++ [hostCombined; hostHidden; output] /\ output ∈ outs ++ [hostCombined; hostHidden; output]) as [Hc6 Ho6] by set_solver.
  wp_step. apply wp_keeping_all. wp_step.
  eapply wp_mono; [apply (own_copy h _ h6 (viewOf true hostCombined) output G6 Ho6 T1); [by apply (owned_usable _ _ _ G6)|done|cbn; congruence]| |done].
  intros [] h7 (Hw7 & V7). apply wp_modify. wp_step. set (h8 := mkHost _ _ _ _ _ _ _ _ _ _).
  assert (balanced h7 h8) as B8 by (pose proof (wr_balanced _ _ _ Hw7) as [Hwf7 _ _ _ _ _]; constructor; [by destruct Hwf7|done..]).
  pose proof (grows_balanced _ _ _ _ (wrote_grows _ _ _ _ G6 _ Hw7) B8) as G8.
  split; [eapply grows_perm; [exact G8|]; by rewrite Permutation_app_comm|]. split.
  - eapply keeps_words; [reflexivity|]. by apply (wrote_keeps h _ h6 h7 G6 output).
  - change (words h8) with (words h7). rewrite V7, V6. apply combined_mixture; try done; try lia.
    + eapply Forall_impl; [exact Hl|]. by intros e [_ _ ?].
    + rewrite length_fmap, length_seq. apply (count_dims hostCombined h); [by apply (owned_in _ _ _ G5); left|done|lia|lia].
    + intros k. generalize (seq 0 (count (viewOf true hostCombined))) as l. induction k as [|k IH]; intros [|? l]; try done. apply IH.
Qed.

(** The temporaries of the call. *)
Lemma layer_body h1 output s : grows h [output] h1 -> words h1 = words h -> te_dtype output = FP32 -> te_shape output = s ->
  shape_wf s -> shape_isContiguous s = true -> dimensions s = [T; outputWidth] ->
  wp (hostHidden <- allocateTensor (shape_ hiddenStates) FP32 ;;
      scoped hostHidden (
        copyTensor hiddenStates (viewOf true hostHidden) ;;;
        hostCombined <- allocateTensor s FP32 ;;
        scoped hostCombined (
          modify (set_words (fill (te_data hostCombined) (fun _ _ => f32_zero) (seq 0 (count (viewOf true hostCombined))))) ;;;
          expertOutputs <- run_batches expf erff activation m lease hostHidden hostCombined inputWidth outputWidth batches ;;
          keeping_all expertOutputs (copyTensor (viewOf true hostCombined) (viewOf true output) ;;; synchronize) ;;;
          ret expertOutputs)))%st h1
    (fun outs h8 => layer_done h weights inputWidth outputWidth hiddenStates decision (output, outs) h8) (failed h [output]).
Proof.
  intros G1 W1 T1 S1 Hs Hcon Hds. pose proof Mh as (Uh & Th & _). assert (keeps h h1) as K1 by (by eapply keeps_words).
  assert (shape_wf (shape_ hiddenStates)) as Hsh by (destruct (us_placed _ _ Uh) as (b' & _ & _ & Hw & _); apply (vw_shape _ _ Hw)).
  wp_step. eapply wp_mono; [by apply (own_alloc h [output] h1 (shape_ hiddenStates) FP32); [..|apply (us_contiguous _ _ Uh)]| |intros e h2 [? ->]; done].
  intros hostHidden h2 (G2 & W2 & S2 & T2 & _). cbv beta. apply wp_scoped. wp_step. assert (keeps h h2) as K2 by (by eapply keeps_words).
  eapply wp_mono; [apply (own_copy h [hostHidden; output] h2 hiddenStates hostHidden G2); [by left|done|by eapply grows_usable|done|done]| |done].
  intros [] h3 (Hw3 & V3). pose proof (wrote_grows _ _ _ _ G2 _ Hw3) as G3. assert (keeps h h3) as K3 by (apply (wrote_keeps h _ h2 h3 G2 hostHidden); [by left|done..]).
  wp_step. eapply wp_mono; [by apply (own_alloc h [hostHidden; output] h3 s FP32)| |intros e h4 [? ->]; by apply failed_drop].
  intros hostCombined h4 (G4 & W4 & S4 & T4 & _). cbv beta. apply wp_scoped. wp_step. wp_step.
  destruct (zero_fill h h4 _ hostCombined G4 ltac:(by left) T4) as [Hw5 V5]. set (h5 := set_words _ h4) in *.
  pose proof (wrote_grows _ _ _ _ G4 _ Hw5) as G5. assert (keeps h h5) as K5 by (apply (wrote_keeps h _ h4 h5 G4 hostCombined); [by left|done|done|by eapply keeps_words]).
  assert (values (words h5) (viewOf true hostHidden) = values (words h) hiddenStates) as X5.
  { rewrite (wrote_undisturbed _ _ _ _ _ G4 T4 Hw5 hostHidden ltac:(by left) T2), W4, V3, W2, W1. done. }
  eapply wp_mono; [apply (layer_loop h5 output hostHidden hostCombined G5 K5 T1 T2 T4 S2); [by rewrite S4|congruence|exact X5|exact V5]| |].
  2:{ intros e h6 Hf. by apply failed_drop, failed_drop. }
  intros outs h8 (G8 & K8 & V8). destruct (grows_drop _ _ _ _ G8) as [G9 W9]. destruct (grows_drop _ _ _ _ G9) as [G10 W10].
  constructor; cbn [fst snd]; [done|apply (keeps_words h h8); [by rewrite W10, W9|done]|]. by rewrite W10, W9.
Qed.

Lemma execute_experts_spec : wp (execute_experts expf erff activation m lease layerId hiddenStates decision) h
    (layer_done h weights inputWidth outputWidth hiddenStates decision) (failed h []).
Proof.
  pose proof Mh as (Uh & Th & Rh). pose proof (rt_exact _ _ Hr) as Hx. destruct layer_dims as (Ht & Hi & Ho & Hdh).
  pose proof (grows_refl h Hwf) as G0. assert (forall e, kind_of e = OverflowError -> failed h [] e h) as Fov by (intros e He; split; [done|]; split; [done|by right]).
  unfold execute_experts. wp_step. wp_step. wp_step. apply wp_lift. rewrite (usable_valid h hiddenStates Hwf Uh), Rh, Th, Dh, !bool_decide_eq_true_2 by done. cbn [negb orb Nat.eqb throw_if].
  wp_step. apply wp_lift. rewrite (bx_valid _ _ Hx), Hlen, Z.eqb_refl. cbn [negb orb throw_if].
  wp_step. apply wp_lift. pose proof (expert_batches_spec layerId decision Hr) as Hb. destruct (expert_batches layerId decision) as [l|e|]; [|by apply Fov|done]. fold batches in Hb.
  assert (expert_leased h inputWidth outputWidth m lease weights layerId (match l with b :: _ => eb_expertId b | [] => 0 end)) as [_ Hviews [_ _ Sd (_ & _ & _ & E2)]].
  { rewrite Hb. unfold batches. pose proof (groups_nonempty _ _ Hx). destruct (br_expertGroups decision) as [|g gs]; [done|]. by apply Forall_cons in Hl as [? _]. }
  set (first := match l with b :: _ => eb_expertId b | [] => 0 end) in *. subst l.
  destruct (createViews_down _ _ _ _ _ _ _ Hviews) as (b & d & Hreq & Hdown & Hshape). wp_step. apply wp_lift. rewrite Hreq. wp_step. apply wp_lift. rewrite Hdown. wp_step. apply wp_lift.
  assert (length (dimensions (tmd_shape d)) = 2%nat /\ nth 1 (dimensions (tmd_shape d)) 0 = outputWidth) as [Hrank ->].
  { rewrite <- Hshape. destruct (st_matrix _ _ _ Sd) as (_ & _ & Hrk). split; [exact Hrk|exact E2]. }
  rewrite Hrank. cbn [Nat.eqb negb throw_if]. wp_step. apply wp_lift. pose proof (matrix_shape _ _ Ht Ho) as Hs. fold T inputWidth.
  destruct (contiguousShape _) as [s|e|]; [|by apply Fov|done]. destruct Hs as (Hs & Hds & Hcon & _).
  wp_step. eapply wp_mono; [by apply (own_alloc h [] h s FP32)| |intros e h1 [? ->]; done]. intros output h1 (G1 & W1 & S1 & T1 & _).
  wp_step. apply wp_kept. eapply wp_mono; [by apply (layer_body h1 output s)| |intros e h2; apply failed_drop]. intros outs h2 Hd. by wp_step.
Qed.
End call.

(** C14: Executing the experts of a routed batch computes the mixture of experts token by
    token: although the runtime gathers the tokens of an expert, runs it once on all of them
    and scatters the results, each row of the output is the sum, over the experts in
    increasing order, of the scores the token's own decision gave times the expert's MLP of
    that token alone (half-precision weights converted, INT8 weights dequantized). The output
    and the experts' outputs are new tensors, every temporary is released, nothing that was
    allocated changes; with the experts leased it fails only for lack of memory, and then
    everything is released. *)
Theorem moe_mixture h m lease weights layerId hiddenStates decision outputWidth :
  host_wf h -> storage_aligned h -> matrix h FP32 hiddenStates -> device_ hiddenStates = cpu ->
  routed layerId decision -> Z.of_nat (length (br_tokens decision)) = dim hiddenStates 0 ->
  Forall (expert_leased h (dim hiddenStates 1) outputWidth m lease weights layerId) (eg_expertId <$> br_expertGroups decision) ->
  match execute_experts expf erff activation m lease layerId hiddenStates decision h with
  | (Ok r, h') => layer_done h weights (dim hiddenStates 1) outputWidth hiddenStates decision r h'
  | (Throw e, h') => balanced h h' /\ keeps h h' /\ allocation_error e
  | (Diverge, _) => False
  end.
Proof.
  intros Hwf Hal Mh Dh Hr Hlen Hl. pose proof (execute_experts_spec h m lease weights layerId hiddenStates decision outputWidth Hwf Hal Mh Dh Hr Hlen Hl) as H.
  unfold wp in H. destruct (execute_experts _ _ _ _ _ _ _ _ h) as [[r|e|] h']; [done| |done]. destruct H as (Hg & Hk & He). split; [by apply grows_none|done].
Qed.
End layer.

(** ** Two tokens and two experts *)

Definition moe_projection (expert offset : Z) : TensorMetadata := mkTensorMetadata "w" (mkShape [1; 1] [1; 1] 1 1) FP32 None offset 4 0 (Some expert) None.
Definition moe_binding (expert : Z) : ExpertWeightBinding :=
  mkWeightBinding 0 expert (Some (moe_projection expert 100)) (Some (moe_projection expert 104)) (Some (moe_projection expert 108)).
Definition moe_map : ExpertWeightMap := {[pack_key 0 0 := moe_binding 0; pack_key 0 1 := moe_binding 1]}.
Definition moe_payload : TensorView := sample_matrix 3 3072 2 2 FP32 false.
Definition moe_lease (expert : Z) : TensorView * Z := (moe_payload, 100).
Definition moe_weight (expert offset : Z) : TensorView := slice_view moe_payload offset (mkShape [1; 1] [1; 1] 1 1) FP32.
Definition moe_weights (expert : Z) : ExpertMlpWeights := mkMlpWeights (moe_weight expert 0) (moe_weight expert 4) (moe_weight expert 8) None None None.
Definition moe_decision : BatchRouterDecision :=
  mkBatch 0 [mkDecision 0 [1; 0] [half; half]; mkDecision 0 [0] [one]] [mkGroup 0 [0; 1] [half; one]; mkGroup 1 [0] [half]].
Definition moe_hidden : TensorView := sample_matrix 1 1024 2 1 FP32 false.

Lemma sample_aligned : storage_aligned sample_host.
Proof. unfold storage_aligned. cbn [sample_host live]. repeat (apply map_Forall_insert_2; [done|]). apply map_Forall_empty. Qed.

Lemma moe_routed : routed 0 moe_decision.
Proof.
  constructor.
  - constructor.
    + vm_compute. reflexivity.
    + repeat constructor.
    + repeat constructor.
    + intros e. cbn. rewrite !elem_of_cons, elem_of_nil. unfold members. cbn.
      destruct (decide (1 = e)) as [<-|]; [split; [done|by auto]|]. destruct (decide (0 = e)) as [<-|]; [split; [done|by auto]|]. cbn. naive_solver.
    + reflexivity.
    + intros group Hin. cbn in Hin. rewrite !elem_of_cons, elem_of_nil in Hin. destruct Hin as [->|[->|[]]]; vm_compute; by repeat constructor.
  - repeat constructor; set_solver.
  - split; repeat constructor.
Qed.

Lemma moe_leased `{HA : HostAllocator} expert : expert = 0 \/ expert = 1 -> expert_leased sample_host 1 1 moe_map moe_lease moe_weights 0 expert.
Proof.
  intros He. assert (placed sample_host moe_payload) as Hp by (by eapply (sample_placed 3)).
  assert (forall offset, offset = 0 \/ offset = 4 \/ offset = 8 -> stored_weight sample_host (moe_weight expert offset) None) as Hw.
  { intros offset Ho. pose proof (projection_view_spec sample_host moe_payload 100 (moe_projection expert (100 + offset)) sample_host_wf Hp eq_refl ltac:(unfold is_u64, u64_max; lia)) as H.
    assert (projection_view (owners sample_host) moe_payload 100 (moe_projection expert (100 + offset)) = Ok (moe_weight expert offset)) as Hv
      by (destruct Ho as [->|[->| ->]]; vm_compute; reflexivity).
    rewrite Hv in H. destruct H as [_ _ _ Hpl _ _].
    { constructor; cbn; [|unfold is_u64, u64_max; lia..]. exact (proj1 (matrix_shape 1 1 ltac:(unfold u64_max; lia) ltac:(unfold u64_max; lia))). }
    constructor; [|done|done]. split; [|done]. apply usable_intro; [apply sample_host_wf|done| |done|done]. destruct Ho as [->|[->| ->]]; vm_compute; reflexivity. }
  constructor; [done|destruct He as [->| ->]; vm_compute; reflexivity|]. constructor; [by apply Hw; auto..|done].
Qed.

Lemma moe_mixture_witness :
  exists r h', execute_experts sample_expf id SiLU moe_map moe_lease 0 moe_hidden moe_decision sample_host = (Ok r, h') /\
    values (words h') (viewOf true r.1) = f32_of_bits <$> [1051372203; 1059760811].
Proof.
  assert (forall x, valid32 x -> valid32 (sample_expf x)) as He by (intros; unfold sample_expf; auto with valid).
  assert (placed sample_host moe_hidden) as Hp by (by eapply (sample_placed 1)).
  assert (matrix sample_host FP32 moe_hidden) as Hm.
  { split; [|done]. apply usable_intro; [apply sample_host_wf|done|vm_compute; reflexivity|done|done]. }
  pose proof (moe_mixture sample_expf id SiLU He (fun x H => H) sample_host moe_map moe_lease moe_weights 0 moe_hidden moe_decision 1 sample_host_wf sample_aligned Hm eq_refl
    moe_routed eq_refl ltac:(apply Forall_cons_2; [by apply moe_leased; left|apply Forall_cons_2; [by apply moe_leased; right|apply Forall_nil_2]])) as H.
  assert (exists r, fst (execute_experts sample_expf id SiLU moe_map moe_lease 0 moe_hidden moe_decision sample_host) = Ok r) as [r Hr]
    by (eexists; vm_compute; reflexivity).
  destruct (execute_experts _ _ _ _ _ _ _ _ _) as [q h']. cbn [fst] in Hr. subst q. exists r, h'. split; [done|].
  rewrite (ld_output _ _ _ _ _ _ _ _ _ _ _ H). vm_compute. reflexivity.
Defined.
