(* ===== verification/Rope.v ===== *)
(** * Rotary position embedding

    [src/transformer/position/RoPE.cpp]: the pairs of an array of heads are rotated in
    place. *)

From S2P Require Import Prelude Float FloatBits Tiers Tensor KVCache HostMemory CpuTensorBackend ArrayLoops.

#[local] Open Scope Z_scope.

Record RoPE : Type := mkRoPE { theta_ : f32 }.

Definition newRoPE (theta : f32) : result RoPE :=
  (throw_if (negb (isfinite theta) || fle theta f32_zero) (Exn InvalidArgument "RoPE theta must be positive and finite") ;;?
   Ok (mkRoPE theta))%res.

Section rope.
(** [std::pow], [std::cos] and [std::sin] on [double]. *)
Variables (pow : f64 -> f64 -> f64) (cos sin : f64 -> f64).

(** Cosine and sine of the angle of a pair. *)
Definition rotation (theta : f32) (position : Z) (headDimension dimension : nat) : f32 * f32 :=
  let exponent := f64_div (f64_of_Z (Z.of_nat dimension)) (f64_of_Z (Z.of_nat headDimension)) in
  let angle := f64_div (f64_of_Z position) (pow (f64_of_f32 theta) exponent) in
  (f32_of_f64 (cos angle), f32_of_f64 (sin angle)).

Definition rotate (values : Z) (index : nat) (r : f32 * f32) (mem : Z -> Z) : Z -> Z :=
  let first := load mem values index in
  let second := load mem values (index + 1) in
  store values (index + 1) (f32_add (f32_mul first r.2) (f32_mul second r.1))
    (store values index (f32_sub (f32_mul first r.1) (f32_mul second r.2)) mem).

(** [headDimension] is even. *)
Definition rope_loop (theta : f32) (values : Z) (tokenCount headCount headDimension : nat) (positionOffset : Z) (mem : Z -> Z) : Z -> Z :=
  foldl (fun mem token =>
    let position := wrap64 (positionOffset + Z.of_nat token) in
    foldl (fun mem head =>
      let base := ((token * headCount + head) * headDimension)%nat in
      foldl (fun mem pair => rotate values (base + 2 * pair) (rotation theta position headDimension (2 * pair)) mem)
        mem (seq 0 (headDimension / 2)))
      mem (seq 0 headCount))
    mem (seq 0 tokenCount).

Definition rope_apply (r : RoPE) (values size tokenCount headCount headDimension positionOffset : Z) : ST Host unit :=
  (lift (throw_if ((tokenCount =? 0) || (headCount =? 0) || (headDimension =? 0) || negb (headDimension mod 2 =? 0) ||
                   (u64_max / headDimension <? headCount) || (u64_max / (headCount * headDimension) <? tokenCount) ||
                   negb (size =? tokenCount * headCount * headDimension) || (u64_max - tokenCount <? positionOffset))
     (Exn InvalidArgument "RoPE tensor dimensions are invalid")) ;;;
   modify (set_words (rope_loop (theta_ r) values (Z.to_nat tokenCount) (Z.to_nat headCount) (Z.to_nat headDimension) positionOffset)))%st.

(** ** What it computes *)

(** Every pair of a head is rotated by the angle of its position and its dimension. *)
Definition rotate_pair (l : list f32) (r : f32 * f32) : list f32 :=
  let first := nth 0 l f32_zero in
  let second := nth 1 l f32_zero in
  [f32_sub (f32_mul first r.1) (f32_mul second r.2); f32_add (f32_mul first r.2) (f32_mul second r.1)].
Definition rotated (theta : f32) (positionOffset : Z) (headCount headDimension : nat) (l : list f32) (k : nat) : f32 :=
  let token := (k / (headCount * headDimension))%nat in
  let dimension := (k mod headDimension)%nat in
  nth (k mod 2) (rotate_pair (row_of (k / 2) 2 l) (rotation theta (positionOffset + Z.of_nat token) headDimension (2 * (dimension / 2)))) f32_zero.

(** The rotation of pair [b] of the array. *)
Definition pair_rotation (theta : f32) (positionOffset : Z) (headCount half b : nat) : f32 * f32 :=
  rotation theta (positionOffset + Z.of_nat (b / half / headCount)) (2 * half) (2 * (b mod half)).

Lemma rope_loop_pairs theta values tokens heads half offset mem : (0 < heads)%nat -> (0 < half)%nat ->
  0 <= offset -> offset + Z.of_nat tokens <= u64_max ->
  rope_loop theta values tokens heads (2 * half) offset mem =
  foldl (fun m b => rotate values (b * 2) (pair_rotation theta offset heads half b) m) mem (seq 0 (tokens * heads * half)).
Proof.
  intros Hh Hd Ho Hmax. unfold rope_loop. rewrite (Nat.mul_comm 2 half), Nat.div_mul by done.
  transitivity (foldl (fun mem token => foldl (fun mem k => rotate values ((token * (heads * half) + k) * 2)
      (rotation theta (offset + Z.of_nat token) (2 * half) (2 * (k mod half))) mem) mem (seq 0 (heads * half))) mem (seq 0 tokens)).
  - apply foldl_ext_in. intros m token [_ Ht]%elem_of_seq. rewrite wrap64_small by (unfold is_u64; lia). rewrite (nested_loop
      (fun head pair mem => rotate values ((token * heads + head) * (half * 2) + 2 * pair) (rotation theta (offset + Z.of_nat token) (half * 2) (2 * pair)) mem)) by done.
    apply foldl_ext_in. intros m' k [_ Hk]%elem_of_seq. f_equal; [|by rewrite (Nat.mul_comm half 2)].
    pose proof (Nat.div_mod_eq k half). lia.
  - rewrite (nested_loop (fun token k mem => rotate values ((token * (heads * half) + k) * 2) (rotation theta (offset + Z.of_nat token) (2 * half) (2 * (k mod half))) mem)) by lia.
    rewrite Nat.mul_assoc. apply foldl_ext_in. intros m k [_ Hk]%elem_of_seq. unfold pair_rotation. f_equal.
    + pose proof (Nat.div_mod_eq k (heads * half)). lia.
    + rewrite (Nat.mul_comm heads half), Nat.Div0.mod_mul_r, (Nat.mul_comm half (_ mod _)), Nat.Div0.mod_add, Nat.Div0.mod_mod.
      by rewrite Nat.Div0.div_div.
Qed.

Lemma rotation_valid theta p n d : valid32 (rotation theta p n d).1 /\ valid32 (rotation theta p n d).2.
Proof. unfold rotation. cbn. split; apply f32_of_f64_valid. Qed.

Lemma rotate_block values b r mem : rotate values (b * 2) r mem = rotate (block_at values 2 b) 0 r mem.
Proof.
  unfold rotate. rewrite !(block_load _ _ 2 b), !(block_store values 2 b). by rewrite Nat.add_0_r, Nat.add_0_l.
Qed.

(** Rotating a pair changes its two cells. *)
Lemma rotate_step values b r mem : words_ok mem -> valid32 r.1 -> valid32 r.2 ->
  words_ok (rotate values (b * 2) r mem) /\ same_outside (block_at values 2 b) 2 mem (rotate values (b * 2) r mem) /\
  array (rotate values (b * 2) r mem) (block_at values 2 b) 2 = rotate_pair (array mem (block_at values 2 b) 2) r.
Proof.
  intros Hm H1 H2. rewrite rotate_block. unfold rotate. cbn [Nat.add].
  set (p := block_at values 2 b). set (first := load mem p 0). set (second := load mem p 1).
  assert (valid32 first /\ valid32 second) as [V1 V2] by (unfold first, second, load; auto with valid).
  split; [repeat (apply store_ok; [|by auto with valid]); done|]. split.
  - eapply same_outside_trans; apply store_same; lia.
  - rewrite !array_store by (lia || auto with valid). done.
Qed.

Lemma rope_loop_spec theta values tokens heads half offset mem : (0 < heads)%nat -> (0 < half)%nat ->
  0 <= offset -> offset + Z.of_nat tokens <= u64_max -> words_ok mem ->
  let n := (tokens * heads * (2 * half))%nat in
  let mem' := rope_loop theta values tokens heads (2 * half) offset mem in
  words_ok mem' /\ same_outside values n mem mem' /\
  array mem' values n = rotated theta offset heads (2 * half) (array mem values n) <$> seq 0 n.
Proof.
  intros Hh Hd Ho Hmax Hm. cbv zeta. rewrite rope_loop_pairs by done. replace (tokens * heads * (2 * half))%nat with (tokens * heads * half * 2)%nat by lia.
  destruct (blocks_updated values 2 (tokens * heads * half) (fun b => rotate values (b * 2) (pair_rotation theta offset heads half b))
    (fun b l => rotate_pair l (pair_rotation theta offset heads half b)) mem ltac:(lia) Hm) as (Hok & Hs & Ha).
  { intros b m _ Hok _. apply rotate_step; [done|apply rotation_valid..]. }
  split; [done|]. split; [done|]. rewrite Ha. apply list_fmap_ext. intros i k [-> Hk]%lookup_seq. rewrite Nat.add_0_l. unfold rotated, pair_rotation.
  assert (i mod (2 * half) / 2 = (i / 2) mod half)%nat as ->.
  { rewrite Nat.Div0.mod_mul_r, (Nat.mul_comm 2 ((i / 2) mod half)), Nat.div_add, (Nat.div_small (i mod 2)) by (lia || (apply Nat.mod_upper_bound; lia)). done. }
  assert (i / 2 / half / heads = i / (heads * (2 * half)))%nat as ->; [|done]. rewrite !Nat.Div0.div_div. f_equal. lia.
Qed.

Lemma rope_apply_spec r values size tokenCount headCount headDimension positionOffset h :
  host_wf h -> 0 <= tokenCount -> 0 <= headCount -> 0 <= headDimension -> 0 <= positionOffset -> is_u64 size ->
  let fits := 1 <= tokenCount /\ 1 <= headCount /\ 1 <= headDimension /\ headDimension mod 2 = 0 /\
    size = tokenCount * headCount * headDimension /\ positionOffset + tokenCount <= u64_max in
  wp (rope_apply r values size tokenCount headCount headDimension positionOffset) h
    (fun _ h' => fits /\ exists mem', h' = set_words (fun _ => mem') h /\ words_ok mem' /\ same_outside values (Z.to_nat size) (words h) mem' /\
       array mem' values (Z.to_nat size) =
         rotated (theta_ r) positionOffset (Z.to_nat headCount) (Z.to_nat headDimension) (array (words h) values (Z.to_nat size)) <$> seq 0 (Z.to_nat size))
    (fun e h' => ~ fits /\ h' = h /\ kind_of e = InvalidArgument).
Proof.
  intros Hwf Ht Hh Hd Hp Hsz fits. unfold rope_apply. wp_step. wp_step.
  { split; [|done]. intros (F1 & F2 & F3 & F4 & F5 & F6). unfold is_u64 in Hsz.
    replace (tokenCount =? 0) with false in H by lia. replace (headCount =? 0) with false in H by lia. replace (headDimension =? 0) with false in H by lia.
    rewrite F4, F5, !Z.eqb_refl in H. cbn [orb negb] in H. rewrite !mul_overflows in H by nia.
    destruct (Z.ltb_spec u64_max (headCount * headDimension)); [nia|]. destruct (Z.ltb_spec u64_max (tokenCount * (headCount * headDimension))); [nia|]. cbn in H. lia. }
  rewrite !orb_false_iff, !negb_false_iff, !Z.eqb_neq, !Z.eqb_eq, !Z.ltb_ge in H. destruct H as (((((((F1 & F2) & F3) & F4) & _) & _) & F5) & F6).
  wp_steps. split; [unfold fits; lia|]. exists (rope_loop (theta_ r) values (Z.to_nat tokenCount) (Z.to_nat headCount) (Z.to_nat headDimension) positionOffset (words h)).
  split; [done|]. pose proof (Z.div_mod headDimension 2 ltac:(lia)) as Hhalf. rewrite F4, Z.add_0_r in Hhalf. set (half := Z.to_nat (headDimension / 2)).
  assert (Z.to_nat headDimension = (2 * half)%nat) as E1 by (unfold half; lia).
  assert (Z.to_nat size = (Z.to_nat tokenCount * Z.to_nat headCount * (2 * half))%nat) as E2 by (rewrite F5, <- E1; lia).
  rewrite E1, E2. apply rope_loop_spec; try lia. apply Hwf.
Qed.
End rope.
