(* ===== verification/Attention.v ===== *)
(** * Attention on the CPU

    [src/transformer/attention/CpuAttention.cpp]: projections, normalization of the heads,
    rotary positions, the key/value cache and the softmax over the cached tokens. The loops
    over the heads are related to their lists here, the whole function in
    [AttentionProperties]. *)

From Stdlib Require Import SpecFloat.
From S2P Require Import Prelude Float FloatBits Tiers Tensor KVCache HostMemory CpuTensorBackend NewTensor ArrayLoops Norm Rope.

#[local] Open Scope Z_scope.

Record AttentionWeights : Type := mkAttentionWeights {
  query : TensorView;
  key : TensorView;
  value : TensorView;
  output : TensorView;
  queryNorm : TensorView;
  keyNorm : TensorView;
}.

Record AttentionResult : Type := mkAttentionResult {
  ar_query : Tensor;
  ar_key : Tensor;
  ar_value : Tensor;
  ar_scores : Tensor;
  ar_probabilities : Tensor;
  ar_context : Tensor;
  ar_output : Tensor;
}.

(** The pointer to the cache is part of the state the function works on. *)
Record AttentionConfiguration : Type := mkAttentionConfiguration {
  headCount : Z;
  keyValueHeadCount : Z;
  headDimension : Z;
  projectionHeadDimension : Z;
  causal : bool;
  rotaryEmbedding : bool;
  ropeTheta : f32;
  queryKeyNormEpsilon : f32;
  layerIndex : Z;
  positionOffset : Z;
}.
Definition set_headDimension (n : Z) (c : AttentionConfiguration) : AttentionConfiguration :=
  mkAttentionConfiguration (headCount c) (keyValueHeadCount c) n (projectionHeadDimension c) (causal c) (rotaryEmbedding c)
    (ropeTheta c) (queryKeyNormEpsilon c) (layerIndex c) (positionOffset c).

Definition f32_minus_infinity : f32 := S754_infinity true.

(** ** The checks *)

Definition validateMatrix (alive : gset Z) (v : TensorView) (name : string) : result unit :=
  throw_if (negb (view_valid alive v) || negb (bool_decide (device_ v = cpu)) || negb (bool_decide (dtype_ v = FP32)) ||
            negb (view_isContiguous v) || negb (rank (shape_ v) =? 2)%nat)
    (Exn InvalidArgument (name ++ " must be a contiguous CPU FP32 matrix")).

Definition checkedWidth (heads dimension : Z) : result Z :=
  (throw_if ((heads =? 0) || (dimension =? 0) || (u64_max / dimension <? heads))
     (Exn InvalidArgument "attention head dimensions are invalid") ;;?
   Ok (wrap64 (heads * dimension)))%res.

(** The configuration used, with the widths of the query and of the keys and values. *)
Definition checked_configuration (alive : gset Z) (hiddenStates : TensorView) (w : AttentionWeights) (requested : AttentionConfiguration) :
    result (AttentionConfiguration * Z * Z) :=
  (throw_if (expired alive (lifetime_ hiddenStates) || expired alive (lifetime_ (query w)) || expired alive (lifetime_ (key w)) ||
             expired alive (lifetime_ (value w)) || expired alive (lifetime_ (output w)))
     (Exn InvalidArgument "attention received expired tensor storage") ;;?
   validateMatrix alive hiddenStates "hidden states" ;;?
   validateMatrix alive (query w) "query projection" ;;?
   validateMatrix alive (key w) "key projection" ;;?
   validateMatrix alive (value w) "value projection" ;;?
   validateMatrix alive (output w) "output projection" ;;?
   configuration <-? (if headDimension requested =? 0
     then throw_if ((headCount requested =? 0) || negb (dim (query w) 1 mod headCount requested =? 0))
            (Exn InvalidArgument "query width cannot infer attention head size") ;;?
          Ok (set_headDimension (dim (query w) 1 / headCount requested) requested)
     else Ok requested) ;;
   queryWidth <-? checkedWidth (headCount configuration) (projectionHeadDimension configuration) ;;
   keyValueWidth <-? checkedWidth (keyValueHeadCount configuration) (projectionHeadDimension configuration) ;;
   throw_if (negb (headCount configuration mod keyValueHeadCount configuration =? 0) ||
             negb (dim (query w) 0 =? dim hiddenStates 1) || negb (dim (key w) 0 =? dim hiddenStates 1) ||
             negb (dim (value w) 0 =? dim hiddenStates 1) || negb (dim (query w) 1 =? queryWidth) ||
             negb (dim (key w) 1 =? keyValueWidth) || negb (dim (value w) 1 =? keyValueWidth) ||
             negb (dim (output w) 0 =? queryWidth) || negb (dim (output w) 1 =? dim hiddenStates 1))
     (Exn InvalidArgument "attention projection dimensions are incompatible") ;;?
   throw_if (negb (isfinite (ropeTheta configuration)) || fle (ropeTheta configuration) f32_zero ||
             (u64_max <? positionOffset configuration) || (u64_max - dim hiddenStates 0 <? positionOffset configuration))
     (Exn InvalidArgument "attention position configuration is invalid") ;;?
   Ok (configuration, queryWidth, keyValueWidth))%res.

(** ** Normalization of the heads *)

Definition head_norm_loop (values scale : Z) (tokenCount heads dimension : nat) (epsilon : f32) (mem : Z -> Z) : Z -> Z :=
  foldl (fun mem token =>
    foldl (fun mem head =>
      let base := ((token * heads + head) * dimension)%nat in
      let inverseRms := inverse_rms (Z.of_nat dimension) epsilon (square_sum (load mem values) base dimension) in
      foldl (fun mem feature => store values (base + feature) (scaled (load mem values (base + feature)) inverseRms (load mem scale feature)) mem)
        mem (seq 0 dimension))
      mem (seq 0 heads))
    mem (seq 0 tokenCount).

Definition applyHeadRmsNorm (values : Tensor) (weight : TensorView) (tokenCount heads dimension : Z) (epsilon : f32) : ST Host unit :=
  (h <- st_get ;;
   lift (throw_if (negb (view_valid (owners h) weight) || negb (bool_decide (device_ weight = cpu)) ||
                   negb (bool_decide (dtype_ weight = FP32)) || negb (view_isContiguous weight))
     (Exn InvalidArgument "attention Q/K normalization is incompatible")) ;;;
   s <- lift (contiguousShape [dimension]) ;;
   lift (throw_if (negb (bool_decide (shape_ weight = s)) || negb (isfinite epsilon) || fle epsilon f32_zero)
     (Exn InvalidArgument "attention Q/K normalization is incompatible")) ;;;
   modify (set_words (head_norm_loop (te_data values) (data_ weight) (Z.to_nat tokenCount) (Z.to_nat heads) (Z.to_nat dimension) epsilon)))%st.

(** ** The loops over the heads *)

Section heads.
(** [std::exp] on [float]. *)
Variable expf : f32 -> f32.
Variables (c : AttentionConfiguration) (tokenCount queryWidth : nat) (cached : KVCacheSnapshot).

Definition keyTokenCount : nat := length (sn_positions cached).
Definition headSize : nat := Z.to_nat (headDimension c).
Definition keyValueHead (head : nat) : nat := Z.to_nat (Z.of_nat head / (headCount c / keyValueHeadCount c)).
Definition scoreIndex (head row column : nat) : nat := (head * tokenCount + row) * keyTokenCount + column.
Definition queryIndex (head row feature : nat) : nat := row * queryWidth + head * headSize + feature.
Definition keyIndex (head column feature : nat) : nat :=
  (column * Z.to_nat (keyValueHeadCount c) + keyValueHead head) * headSize + feature.

Definition masked (row column : nat) : bool :=
  causal c && (wrap64 (positionOffset c + Z.of_nat row) <? nth column (sn_positions cached) 0).
Definition cached_float (l : list Z) (i : nat) : f32 := f32_of_bits (nth i l 0).

(** The product of a query row, read through [q], and a cached key, scaled. *)
Definition score (q : nat -> f32) (head row column : nat) : f32 :=
  let dot := foldl (fun dot feature => f64_add dot (f64_mul (f64_of_f32 (q (queryIndex head row feature)))
                      (f64_of_f32 (cached_float (sn_keys cached) (keyIndex head column feature))))) f64_zero (seq 0 headSize) in
  f32_of_f64 (f64_mul dot (f64_div f64_one (f64_sqrt (f64_of_Z (headDimension c))))).

Variables (q scores probabilities context : Z).

Definition score_row (head row : nat) : ST (Z -> Z) f32 :=
  fold_st (fun maximum column =>
    if masked row column then modify (store scores (scoreIndex head row column) f32_minus_infinity) ;;; ret maximum
    else (mem <- st_get ;;
          let s := score (load mem q) head row column in
          lift (throw_if (negb (isfinite s)) (Exn RuntimeError "attention produced a non-finite score")) ;;;
          modify (store scores (scoreIndex head row column) s) ;;;
          ret (fmax maximum s)))%st
    f32_minus_infinity (seq 0 keyTokenCount).

Definition exponential (maximum s : f32) : f32 := if isfinite s then expf (f32_sub s maximum) else f32_zero.
Definition exponential_row (maximum : f32) (head row : nat) : ST (Z -> Z) f64 :=
  fold_st (fun denominator column =>
    (mem <- st_get ;;
     let probability := exponential maximum (load mem scores (scoreIndex head row column)) in
     modify (store probabilities (scoreIndex head row column) probability) ;;;
     ret (f64_add denominator (f64_of_f32 probability)))%st)
    f64_zero (seq 0 keyTokenCount).

Definition context_row (denominator : f64) (head row : nat) (mem : Z -> Z) : Z -> Z :=
  foldl (fun mem column =>
    let probability := f32_of_f64 (f64_div (f64_of_f32 (load mem probabilities (scoreIndex head row column))) denominator) in
    foldl (fun mem feature =>
      store context (queryIndex head row feature)
        (f32_add (load mem context (queryIndex head row feature))
                 (f32_mul probability (cached_float (sn_values cached) (keyIndex head column feature)))) mem)
      (store probabilities (scoreIndex head row column) probability mem) (seq 0 headSize))
    mem (seq 0 keyTokenCount).

Definition normalizes (denominator : f64) : bool := isfinite denominator && negb (fle denominator f64_zero).

Definition attend_row (head row : nat) : ST (Z -> Z) unit :=
  (maximum <- score_row head row ;;
   denominator <- exponential_row maximum head row ;;
   lift (throw_if (negb (normalizes denominator)) (Exn RuntimeError "attention softmax normalization failed")) ;;;
   modify (context_row denominator head row))%st.

Definition attend : ST (Z -> Z) unit :=
  fold_st (fun _ head => fold_st (fun _ row => attend_row head row) tt (seq 0 tokenCount)) tt (seq 0 (Z.to_nat (headCount c))).
End heads.

(** ** What a row computes *)

Section reference.
Variable expf : f32 -> f32.
Variables (c : AttentionConfiguration) (tokenCount queryWidth : nat) (cached : KVCacheSnapshot) (qf : nat -> f32).
Notation masked := (masked c cached).
Notation score := (score c queryWidth cached qf).
Notation K := (keyTokenCount cached).

(** The scores of a row, its largest one, its weights before and after normalization, and
    the mixture of the cached values. *)
Definition row_score (head row column : nat) : f32 := if masked row column then f32_minus_infinity else score head row column.
Definition row_scored (head row : nat) : bool := forallb (fun column => masked row column || isfinite (score head row column)) (seq 0 K).
Definition row_maximum (head row n : nat) : f32 :=
  foldl (fun maximum column => if masked row column then maximum else fmax maximum (score head row column)) f32_minus_infinity (seq 0 n).
Definition row_exponential (head row column : nat) : f32 := exponential expf (row_maximum head row K) (row_score head row column).
Definition row_denominator (head row n : nat) : f64 :=
  foldl (fun denominator column => f64_add denominator (f64_of_f32 (row_exponential head row column))) f64_zero (seq 0 n).
Definition row_probability (head row column : nat) : f32 :=
  f32_of_f64 (f64_div (f64_of_f32 (row_exponential head row column)) (row_denominator head row K)).
Definition row_context (head row feature n : nat) : f32 :=
  foldl (fun v column => f32_add v (f32_mul (row_probability head row column) (cached_float (sn_values cached) (keyIndex c head column feature))))
    f32_zero (seq 0 n).
(** The row does not throw. *)
Definition row_defined (head row : nat) : bool := row_scored head row && normalizes (row_denominator head row K).
End reference.

Lemma foldl_seq_S {A} (f : A -> nat -> A) a n : foldl f a (seq 0 (S n)) = f (foldl f a (seq 0 n)) n.
Proof. by rewrite seq_S, foldl_app. Qed.

Lemma f32_minus_infinity_valid : valid32 f32_minus_infinity.
Proof. done. Qed.
Lemma fmax_valid x y : valid32 x -> valid32 y -> valid32 (fmax x y).
Proof. unfold fmax. by destruct (flt x y). Qed.
#[export] Hint Resolve f32_minus_infinity_valid fmax_valid : valid.

Section row.
Variable expf : f32 -> f32.
Hypothesis Hexpf : forall x, valid32 x -> valid32 (expf x).
Variables (c : AttentionConfiguration) (tokenCount queryWidth : nat) (cached : KVCacheSnapshot).
Variables (q scores probabilities context : Z) (qf : nat -> f32) (head row : nat).
Notation K := (keyTokenCount cached).
Notation hd := (headSize c).
Notation si := (scoreIndex tokenCount cached head row).
Notation qi := (queryIndex c queryWidth head row).
Definition scores_part : Z * nat := part scores (si 0) K.
Definition probabilities_part : Z * nat := part probabilities (si 0) K.
Definition context_part : Z * nat := part context (qi 0) hd.
Hypothesis Hq : apart (part q (qi 0) hd) scores_part.
Hypothesis Hsp : apart scores_part probabilities_part.
Hypothesis Hpc : apart probabilities_part context_part.

Lemma scoreIndex_0 column : si column = (si 0 + column)%nat.
Proof. unfold scoreIndex. lia. Qed.
Lemma queryIndex_0 feature : qi feature = (qi 0 + feature)%nat.
Proof. unfold queryIndex. lia. Qed.
Lemma score_cell p column : (column < K)%nat -> within (part p (si 0) K) (cell p (si column)).
Proof. intros Hc. apply part_cell. rewrite (scoreIndex_0 column). lia. Qed.
Lemma query_cell p feature : (feature < hd)%nat -> within (part p (qi 0) hd) (cell p (qi feature)).
Proof. intros Hc. apply part_cell. rewrite (queryIndex_0 feature). lia. Qed.
Lemma score_cell_ne p i j : i <> j -> cell p (si i) <> cell p (si j).
Proof. rewrite (scoreIndex_0 i), (scoreIndex_0 j). unfold cell. lia. Qed.

Lemma score_ext mem : (forall feature, (feature < hd)%nat -> load mem q (qi feature) = qf (qi feature)) ->
  forall column, score c queryWidth cached (load mem q) head row column = score c queryWidth cached qf head row column.
Proof.
  intros H column. unfold score. cbv zeta. f_equal. f_equal. apply foldl_ext_in. intros d f [_ Hf]%elem_of_seq. by rewrite H.
Qed.

Lemma row_scored_false column : (column < K)%nat -> masked c cached row column = false -> isfinite (score c queryWidth cached qf head row column) = false ->
  row_scored c queryWidth cached qf head row = false.
Proof.
  intros Hc Hm Hs. unfold row_scored. apply not_true_iff_false. rewrite forallb_forall. intros H. specialize (H column ltac:(apply in_seq; lia)).
  by rewrite Hm, Hs in H.
Qed.

Lemma score_row_spec mem : words_ok mem -> (forall feature, (feature < hd)%nat -> load mem q (qi feature) = qf (qi feature)) ->
  wp (score_row c tokenCount queryWidth cached q scores head row) mem
    (fun maximum mem' => row_scored c queryWidth cached qf head row = true /\ maximum = row_maximum c queryWidth cached qf head row K /\
       words_ok mem' /\ touches [scores_part] mem mem' /\
       forall column, (column < K)%nat -> load mem' scores (si column) = row_score c queryWidth cached qf head row column)
    (fun e mem' => row_scored c queryWidth cached qf head row = false /\ kind_of e = RuntimeError /\ words_ok mem' /\ touches [scores_part] mem mem').
Proof.
  intros Hm Hqf. eapply wp_mono; [eapply (wp_fold_seq _ (fun n maximum mem' =>
      forallb (fun column => masked c cached row column || isfinite (score c queryWidth cached qf head row column)) (seq 0 n) = true /\
      maximum = row_maximum c queryWidth cached qf head row n /\ words_ok mem' /\ touches [scores_part] mem mem' /\
      forall column, (column < n)%nat -> load mem' scores (si column) = row_score c queryWidth cached qf head row column))| |].
  4:{ intros e mem' H. exact H. } 3:{ intros maximum mem' H. exact H. } 2:{ split_and!; try done. lia. }
  cbv beta. intros i maximum mem' Hi (Hf & -> & Hok & Ht & Hl). unfold row_maximum. rewrite foldl_seq_S, seq_S, forallb_app, Hf, Nat.add_0_l. cbn [forallb andb].
  assert (forall x column, valid32 x -> (column < S i)%nat -> load (store scores (si i) x mem') scores (si column) =
    if decide (column = i) then x else row_score c queryWidth cached qf head row column) as Hst.
  { intros x column Hx Hc. destruct (decide (column = i)) as [->|Hne]; [by apply load_store|]. rewrite load_store_ne by (by apply score_cell_ne). apply Hl. lia. }
  assert (forall x, touches [scores_part] mem (store scores (si i) x mem')) as Hto.
  { intros x. eapply touches_trans; [exact Ht|]. apply touches_store. left. by apply score_cell. }
  destruct (masked c cached row i) eqn:Hmask.
  - wp_steps. split; [done|]. split; [done|]. split; [apply store_ok; auto with valid|]. split; [done|].
    intros column Hc. rewrite Hst by (done || auto with valid). destruct (decide (column = i)) as [->|]; [|done]. unfold row_score. by rewrite Hmask.
  - wp_step. wp_step. rewrite (score_ext mem').
    2:{ intros f Hfe. rewrite (touches_load _ _ _ _ _ Ht); [by apply Hqf|]. repeat constructor. eapply apart_cell; [exact Hq|]. by apply query_cell. }
    wp_step. wp_step; [apply negb_true_iff in H; split; [by apply (row_scored_false i)|done]|]. apply negb_false_iff in H.
    wp_steps. rewrite H. split; [done|]. split; [done|].
    split; [apply store_ok; [done|unfold score; auto with valid]|]. split; [done|].
    intros column Hc. rewrite Hst by (done || (unfold score; auto with valid)). destruct (decide (column = i)) as [->|]; [|done]. unfold row_score. by rewrite Hmask.
Qed.

Lemma row_maximum_valid n : valid32 (row_maximum c queryWidth cached qf head row n).
Proof.
  unfold row_maximum. apply (fold_seq_inv _ (fun _ x => valid32 x)); [|auto with valid]. intros i a _ Ha.
  destruct (masked c cached row i); [done|]. apply fmax_valid; [done|]. unfold score. auto with valid.
Qed.
Lemma row_score_valid column : valid32 (row_score c queryWidth cached qf head row column).
Proof. unfold row_score, score. destruct (masked c cached row column); auto with valid. Qed.
Lemma row_exponential_valid column : valid32 (row_exponential expf c queryWidth cached qf head row column).
Proof.
  unfold row_exponential, exponential. destruct (isfinite _); [|auto with valid]. apply Hexpf, f32_sub_valid; [apply row_score_valid|apply row_maximum_valid].
Qed.

Lemma exponential_row_spec mem : words_ok mem ->
  (forall column, (column < K)%nat -> load mem scores (si column) = row_score c queryWidth cached qf head row column) ->
  wp (exponential_row expf tokenCount cached scores probabilities (row_maximum c queryWidth cached qf head row K) head row) mem
    (fun denominator mem' => denominator = row_denominator expf c queryWidth cached qf head row K /\
       words_ok mem' /\ touches [probabilities_part] mem mem' /\
       forall column, (column < K)%nat -> load mem' probabilities (si column) = row_exponential expf c queryWidth cached qf head row column)
    (fun _ _ => False).
Proof.
  intros Hm Hs. eapply wp_mono; [eapply (wp_fold_seq _ (fun n denominator mem' => denominator = row_denominator expf c queryWidth cached qf head row n /\
       words_ok mem' /\ touches [probabilities_part] mem mem' /\
       forall column, (column < n)%nat -> load mem' probabilities (si column) = row_exponential expf c queryWidth cached qf head row column))| |].
  4:{ intros e mem' H. exact H. } 3:{ intros denominator mem' H. exact H. } 2:{ split_and!; try done. lia. }
  cbv beta. intros i denominator mem' Hi (-> & Hok & Ht & Hl). wp_steps. cbv zeta.
  rewrite (touches_load _ _ _ scores (si i) Ht), Hs by (done || (repeat constructor; eapply apart_cell; [exact Hsp|]; by apply score_cell)).
  fold (row_exponential expf c queryWidth cached qf head row i). pose proof (row_exponential_valid i) as Hv.
  split; [unfold row_denominator; by rewrite foldl_seq_S|]. split; [by apply store_ok|]. split.
  - eapply touches_trans; [exact Ht|]. apply touches_store. left. by apply score_cell.
  - intros column Hc. destruct (decide (column = i)) as [->|Hne]; [by apply load_store|]. rewrite load_store_ne by (by apply score_cell_ne). apply Hl. lia.
Qed.

Lemma row_probability_valid column : valid32 (row_probability expf c queryWidth cached qf head row column).
Proof. unfold row_probability. auto with valid. Qed.
Lemma cached_float_valid l i : valid32 (cached_float l i).
Proof. unfold cached_float. auto with valid. Qed.
Lemma row_context_valid feature n : valid32 (row_context expf c queryWidth cached qf head row feature n).
Proof.
  unfold row_context. apply (fold_seq_inv _ (fun _ x => valid32 x)); [|auto with valid]. intros i a _ Ha.
  apply f32_add_valid; [done|]. apply f32_mul_valid; [apply row_probability_valid|apply cached_float_valid].
Qed.
Lemma query_cell_ne p i j : i <> j -> cell p (qi i) <> cell p (qi j).
Proof. rewrite (queryIndex_0 i), (queryIndex_0 j). unfold cell. lia. Qed.

(** One column: its probability is stored and its value added to every feature. *)
Lemma context_column i mem : (i < K)%nat -> words_ok mem ->
  load mem probabilities (si i) = row_exponential expf c queryWidth cached qf head row i ->
  (forall feature, (feature < hd)%nat -> load mem context (qi feature) = row_context expf c queryWidth cached qf head row feature i) ->
  let probability := f32_of_f64 (f64_div (f64_of_f32 (load mem probabilities (si i))) (row_denominator expf c queryWidth cached qf head row K)) in
  let mem' := foldl (fun mem feature => store context (qi feature)
    (f32_add (load mem context (qi feature)) (f32_mul probability (cached_float (sn_values cached) (keyIndex c head i feature)))) mem)
    (store probabilities (si i) probability mem) (seq 0 hd) in
  words_ok mem' /\ touches [part probabilities (si i) 1; context_part] mem mem' /\
  load mem' probabilities (si i) = row_probability expf c queryWidth cached qf head row i /\
  forall feature, (feature < hd)%nat -> load mem' context (qi feature) = row_context expf c queryWidth cached qf head row feature (S i).
Proof.
  intros Hi Hm Hp Hc. cbv zeta. rewrite Hp. fold (row_probability expf c queryWidth cached qf head row i). pose proof (row_probability_valid i) as Hv.
  set (mem1 := store probabilities (si i) _ mem). set (mem' := foldl _ mem1 _).
  assert (forall feature, (feature < hd)%nat -> cell context (qi feature) <> cell probabilities (si i)) as Hne.
  { intros feature Hf Heq. eapply (apart_cell _ _ (cell probabilities (si i)) Hpc); [by apply score_cell|]. rewrite <- Heq. by apply query_cell. }
  assert (words_ok mem' /\ touches [context_part] mem1 mem' /\ (forall feature, (feature < hd)%nat -> load mem' context (qi feature) =
      if (feature <? hd)%nat then row_context expf c queryWidth cached qf head row feature (S i) else row_context expf c queryWidth cached qf head row feature i)) as (Hok & Ht & Hl).
  { unfold mem'. apply (fold_seq_inv _ (fun (n : nat) m => words_ok m /\ touches [context_part] mem1 m /\ (forall feature, (feature < hd)%nat -> load m context (qi feature) =
      if (feature <? n)%nat then row_context expf c queryWidth cached qf head row feature (S i) else row_context expf c queryWidth cached qf head row feature i))).
    - intros j m Hj (Hok & Ht & Hl). rewrite Hl, Nat.ltb_irrefl by done.
      assert (f32_add (row_context expf c queryWidth cached qf head row j i) (f32_mul (row_probability expf c queryWidth cached qf head row i)
        (cached_float (sn_values cached) (keyIndex c head i j))) = row_context expf c queryWidth cached qf head row j (S i)) as -> by (unfold row_context; by rewrite foldl_seq_S).
      pose proof (row_context_valid j (S i)) as Hvc. split; [by apply store_ok|]. split.
      + eapply touches_trans; [exact Ht|]. apply touches_store. left. by apply query_cell.
      + intros feature Hf. destruct (decide (feature = j)) as [->|Hd]; [rewrite (proj2 (Nat.ltb_lt j (S j))) by lia; by apply load_store|].
        rewrite load_store_ne by (by apply query_cell_ne). rewrite Hl by done. destruct (Nat.ltb_spec feature j), (Nat.ltb_spec feature (S j)); done || lia.
    - split; [by apply store_ok|]. split; [done|]. intros feature Hf. change (feature <? 0)%nat with false. cbv iota. unfold mem1. rewrite load_store_ne by (by apply Hne). by apply Hc. }
  split; [done|]. split; [|split].
  - apply (touches_trans _ mem mem1); [apply touches_store; left; apply part_cell; lia|]. eapply touches_inside; [|exact Ht].
    constructor; [|constructor]. exists context_part. split; [by right; left|lia].
  - rewrite (touches_load _ _ _ _ _ Ht); [by apply load_store|]. repeat constructor. eapply apart_cell; [exact Hpc|]. by apply score_cell.
  - intros feature Hf. rewrite Hl, (proj2 (Nat.ltb_lt feature hd)) by done. done.
Qed.

(** After [n] columns. *)
Definition mixed (mem : Z -> Z) (n : nat) (m : Z -> Z) : Prop :=
  words_ok m /\ touches [probabilities_part; context_part] mem m /\
  (forall column, (column < K)%nat -> load m probabilities (si column) =
     if (column <? n)%nat then row_probability expf c queryWidth cached qf head row column else row_exponential expf c queryWidth cached qf head row column) /\
  (forall feature, (feature < hd)%nat -> load m context (qi feature) = row_context expf c queryWidth cached qf head row feature n).

Lemma context_row_spec mem : words_ok mem ->
  (forall column, (column < K)%nat -> load mem probabilities (si column) = row_exponential expf c queryWidth cached qf head row column) ->
  (forall feature, (feature < hd)%nat -> load mem context (qi feature) = f32_zero) ->
  mixed mem K (context_row c tokenCount queryWidth cached probabilities context (row_denominator expf c queryWidth cached qf head row K) head row mem).
Proof.
  intros Hm Hp Hc. unfold context_row. apply (fold_seq_inv _ (mixed mem)); [|done].
  intros i m Hi (Hok & Ht & Hpr & Hcx).
  destruct (context_column i m Hi Hok) as (Hok' & Ht' & Hpi & Hcf); [by rewrite Hpr, Nat.ltb_irrefl|done|].
  split; [exact Hok'|]. split; [|split; [|exact Hcf]].
  - eapply touches_trans; [exact Ht|]. eapply touches_inside; [|exact Ht']. constructor; [|constructor; [|done]].
    + exists probabilities_part. split; [by left|]. unfold probabilities_part, part, cell. cbn [fst snd]. rewrite (scoreIndex_0 i). lia.
    + exists context_part. split; [by right; left|lia].
  - intros column Hcol. destruct (decide (column = i)) as [->|Hne]; [by rewrite (proj2 (Nat.ltb_lt i (S i))) by lia|].
    rewrite (touches_load _ _ _ _ _ Ht').
    2:{ constructor; [|constructor; [|done]]; [|eapply apart_cell; [exact Hpc|]; by apply score_cell].
        unfold within, part, cell. cbn [fst snd]. rewrite (scoreIndex_0 i), (scoreIndex_0 column). lia. }
    rewrite Hpr by done. destruct (Nat.ltb_spec column i), (Nat.ltb_spec column (S i)); done || lia.
Qed.

(** A row: defined, with its scores, probabilities and context; or the exception. *)
Lemma attend_row_spec mem : words_ok mem -> (forall feature, (feature < hd)%nat -> load mem q (qi feature) = qf (qi feature)) ->
  (forall feature, (feature < hd)%nat -> load mem context (qi feature) = f32_zero) -> apart scores_part context_part ->
  wp (attend_row expf c tokenCount queryWidth cached q scores probabilities context head row) mem
    (fun _ mem' => row_defined expf c queryWidth cached qf head row = true /\ words_ok mem' /\
       touches [scores_part; probabilities_part; context_part] mem mem' /\
       (forall column, (column < K)%nat -> load mem' scores (si column) = row_score c queryWidth cached qf head row column) /\
       (forall column, (column < K)%nat -> load mem' probabilities (si column) = row_probability expf c queryWidth cached qf head row column) /\
       (forall feature, (feature < hd)%nat -> load mem' context (qi feature) = row_context expf c queryWidth cached qf head row feature K))
    (fun e mem' => row_defined expf c queryWidth cached qf head row = false /\ kind_of e = RuntimeError /\ words_ok mem' /\
       touches [scores_part; probabilities_part; context_part] mem mem').
Proof.
  intros Hm Hqf Hcx Hsc. unfold attend_row, row_defined. wp_step. eapply wp_mono; [by apply score_row_spec| |].
  2:{ intros e m1 (-> & He & Hok & Ht). split; [done|]. split; [done|]. split; [done|]. eapply touches_inside; [|exact Ht].
      repeat constructor. exists scores_part. split; [by left|lia]. }
  cbv beta. intros maximum m1 (-> & -> & Hok1 & T1 & S1). wp_step. eapply wp_mono; [by apply exponential_row_spec| |done].
  cbv beta. intros denominator m2 (-> & Hok2 & T2 & P2).
  assert (touches [scores_part; probabilities_part; context_part] mem m2) as T12.
  { eapply touches_trans; [eapply touches_inside; [|exact T1]|eapply touches_inside; [|exact T2]]; (constructor; [|constructor]).
    - exists scores_part. split; [by left|lia].
    - exists probabilities_part. split; [by right; left|lia]. }
  wp_step. wp_step; [apply negb_true_iff in H; by rewrite H|]. apply negb_false_iff in H. wp_step.
  destruct (context_row_spec m2 Hok2 P2) as (Hok3 & T3 & P3 & C3).
  { intros feature Hf. rewrite (touches_load _ _ _ _ _ T2), (touches_load _ _ _ _ _ T1); [by apply Hcx|..]; (constructor; [|constructor]);
      (eapply apart_cell; [apply apart_sym|by apply query_cell]); done. }
  split; [by rewrite H|]. split; [done|]. split; [|split; [|split; [|done]]].
  - eapply touches_trans; [exact T12|]. eapply touches_inside; [|exact T3]. constructor; [|constructor; [|constructor]].
    + exists probabilities_part. split; [by right; left|lia].
    + exists context_part. split; [by right; right; left|lia].
  - intros column Hcol. rewrite (touches_load _ _ _ _ _ T3), (touches_load _ _ _ _ _ T2); [by apply S1|..]; repeat constructor;
      (eapply apart_cell; [|by apply score_cell]); done.
  - intros column Hcol. by rewrite P3, (proj2 (Nat.ltb_lt column K)).
Qed.
End row.

(** ** All rows of all heads *)

Section rows.
Variable expf : f32 -> f32.
Hypothesis Hexpf : forall x, valid32 x -> valid32 (expf x).
Variables (c : AttentionConfiguration) (tokenCount queryWidth : nat) (cached : KVCacheSnapshot).
Variables (q scores probabilities context : Z) (qf : nat -> f32).
Notation K := (keyTokenCount cached).
Notation hd := (headSize c).
Notation H := (Z.to_nat (headCount c)).
Notation T := tokenCount.
Hypothesis Hwidth : queryWidth = (H * hd)%nat.
Definition scores_array : Z * nat := (scores, (H * T * K)%nat).
Definition probabilities_array : Z * nat := (probabilities, (H * T * K)%nat).
Definition context_array : Z * nat := (context, (T * queryWidth)%nat).
Hypothesis Hqs : apart (q, (T * queryWidth)%nat) scores_array.
Hypothesis Hqp : apart (q, (T * queryWidth)%nat) probabilities_array.
Hypothesis Hqc : apart (q, (T * queryWidth)%nat) context_array.
Hypothesis Hsp : apart scores_array probabilities_array.
Hypothesis Hsc : apart scores_array context_array.
Hypothesis Hpc : apart probabilities_array context_array.

Lemma row_in_scores head row : (head < H)%nat -> (row < T)%nat -> (scoreIndex T cached head row 0 + K <= H * T * K)%nat.
Proof. intros Hh Hr. unfold scoreIndex. rewrite Nat.add_0_r. assert (head * T + row + 1 <= H * T)%nat by nia. nia. Qed.
Lemma row_in_context head row : (head < H)%nat -> (row < T)%nat -> (queryIndex c queryWidth head row 0 + hd <= T * queryWidth)%nat.
Proof. intros Hh Hr. unfold queryIndex. rewrite Nat.add_0_r, Hwidth. assert (head * hd + hd <= H * hd)%nat by nia. nia. Qed.

Lemma rows_apart p head row head' row' : (row < T)%nat -> (row' < T)%nat -> (head, row) <> (head', row') ->
  apart (part p (scoreIndex T cached head row 0) K) (part p (scoreIndex T cached head' row' 0) K).
Proof.
  intros Hr Hr' Hne. apply part_disjoint. unfold scoreIndex. rewrite !Nat.add_0_r.
  assert (head * T + row + 1 <= head' * T + row' \/ head' * T + row' + 1 <= head * T + row)%nat as Hu; [|nia].
  destruct (decide (head = head')) as [<-|]; [|nia]. destruct (decide (row = row')) as [<-|]; [done|]. lia.
Qed.
Lemma contexts_apart p head row head' row' : (head < H)%nat -> (head' < H)%nat -> (head, row) <> (head', row') ->
  apart (part p (queryIndex c queryWidth head row 0) hd) (part p (queryIndex c queryWidth head' row' 0) hd).
Proof.
  intros Hr Hr' Hne. apply part_disjoint. unfold queryIndex. rewrite !Nat.add_0_r, Hwidth.
  assert (row * H + head + 1 <= row' * H + head' \/ row' * H + head' + 1 <= row * H + head)%nat as Hu; [|nia].
  destruct (decide (row = row')) as [<-|]; [|nia]. destruct (decide (head = head')) as [<-|]; [done|]. lia.
Qed.

(** The rows before [n], in the order of the loops, are computed. *)
Record attended (mem : Z -> Z) (n : nat) (m : Z -> Z) : Prop := Attended {
  at_defined : forall head row, (row < T)%nat -> (head * T + row < n)%nat -> row_defined expf c queryWidth cached qf head row = true;
  at_ok : words_ok m;
  at_touches : touches [scores_array; probabilities_array; context_array] mem m;
  at_scores : forall head row column, (row < T)%nat -> (head * T + row < n)%nat -> (column < K)%nat ->
    load m scores (scoreIndex T cached head row column) = row_score c queryWidth cached qf head row column;
  at_probabilities : forall head row column, (row < T)%nat -> (head * T + row < n)%nat -> (column < K)%nat ->
    load m probabilities (scoreIndex T cached head row column) = row_probability expf c queryWidth cached qf head row column;
  at_context : forall head row feature, (row < T)%nat -> (head * T + row < n)%nat -> (feature < hd)%nat ->
    load m context (queryIndex c queryWidth head row feature) = row_context expf c queryWidth cached qf head row feature K;
  at_zero : forall head row feature, (head < H)%nat -> (row < T)%nat -> (n <= head * T + row)%nat -> (feature < hd)%nat ->
    load m context (queryIndex c queryWidth head row feature) = f32_zero;
}.
(** Some row throws. *)
Definition unattended (mem : Z -> Z) (e : exn) (m : Z -> Z) : Prop :=
  (exists head row, (head < H)%nat /\ (row < T)%nat /\ row_defined expf c queryWidth cached qf head row = false) /\
  kind_of e = RuntimeError /\ words_ok m /\ touches [scores_array; probabilities_array; context_array] mem m.

Section step.
Variables (head row : nat).
Hypotheses (Hh : (head < H)%nat) (Hr : (row < T)%nat).
Notation SP := (scores_part tokenCount cached scores head row).
Notation PP := (probabilities_part tokenCount cached probabilities head row).
Notation CP := (context_part c queryWidth context head row).

Lemma step_touches m m' : touches [SP; PP; CP] m m' -> touches [scores_array; probabilities_array; context_array] m m'.
Proof.
  apply touches_inside. pose proof (row_in_scores head row Hh Hr). pose proof (row_in_context head row Hh Hr).
  unfold scores_part, probabilities_part, context_part, part, cell. constructor; [|constructor; [|constructor; [|constructor]]].
  - exists scores_array. split; [by left|]. cbn [fst snd scores_array]. lia.
  - exists probabilities_array. split; [by right; left|]. cbn [fst snd probabilities_array]. lia.
  - exists context_array. split; [by right; right; left|]. cbn [fst snd context_array]. lia.
Qed.

(** The cells of another row are left alone. *)
Lemma other_score m m' head' row' column p : touches [SP; PP; CP] m m' -> p = scores \/ p = probabilities ->
  (head' < H)%nat -> (row' < T)%nat -> (head', row') <> (head, row) -> (column < K)%nat ->
  load m' p (scoreIndex T cached head' row' column) = load m p (scoreIndex T cached head' row' column).
Proof.
  intros Ht Hp Hh' Hr' Hne Hc. pose proof (row_in_scores head row Hh Hr). pose proof (row_in_context head row Hh Hr). pose proof (row_in_scores head' row' Hh' Hr').
  pose proof (rows_apart p head' row' head row Hr' Hr Hne) as Hself.
  apply (touches_load _ _ _ _ _ Ht). assert (within (part p (scoreIndex T cached head' row' 0) K) (cell p (scoreIndex T cached head' row' column))) as Hw by (by apply score_cell).
  destruct Hp as [->| ->]; (constructor; [|constructor; [|constructor; [|constructor]]]); (eapply apart_cell; [|exact Hw]); try exact Hself;
    (eapply apart_part; [|eassumption..]); by first [exact Hsp|exact Hsc|exact Hpc|apply apart_sym; exact Hsp].
Qed.
Lemma other_context m m' head' row' feature : touches [SP; PP; CP] m m' ->
  (head' < H)%nat -> (row' < T)%nat -> (head', row') <> (head, row) -> (feature < hd)%nat ->
  load m' context (queryIndex c queryWidth head' row' feature) = load m context (queryIndex c queryWidth head' row' feature).
Proof.
  intros Ht Hh' Hr' Hne Hf. pose proof (row_in_scores head row Hh Hr). pose proof (row_in_context head row Hh Hr). pose proof (row_in_context head' row' Hh' Hr').
  apply (touches_load _ _ _ _ _ Ht). assert (within (part context (queryIndex c queryWidth head' row' 0) hd) (cell context (queryIndex c queryWidth head' row' feature))) as Hw by (by apply query_cell).
  constructor; [|constructor; [|constructor; [|constructor]]]; (eapply apart_cell; [|exact Hw]).
  - eapply apart_part; [apply apart_sym; exact Hsc|eassumption..].
  - eapply apart_part; [apply apart_sym; exact Hpc|eassumption..].
  - by apply contexts_apart.
Qed.

Lemma attended_step mem m : (forall i, (i < T * queryWidth)%nat -> load mem q i = qf i) -> attended mem (head * T + row) m ->
  wp (attend_row expf c T queryWidth cached q scores probabilities context head row) m (fun _ => attended mem (head * T + S row)) (unattended mem).
Proof.
  intros Hqf [Hd Hok Ht Hs Hp Hc Hz]. pose proof (row_in_scores head row Hh Hr) as Hrs. pose proof (row_in_context head row Hh Hr) as Hrc.
  eapply wp_mono; [apply (attend_row_spec expf Hexpf c T queryWidth cached q scores probabilities context qf head row)| |].
  1: eapply apart_part; [exact Hqs|done..]. 1: eapply apart_part; [exact Hsp|done..]. 1: eapply apart_part; [exact Hpc|done..].
  1: done. 3: eapply apart_part; [exact Hsc|done..].
  - intros feature Hf. rewrite (queryIndex_0 c queryWidth head row feature). rewrite (touches_load _ _ _ _ _ Ht); [apply Hqf; lia|].
    constructor; [|constructor; [|constructor; [|constructor]]]; (eapply (apart_cell (q, (T * queryWidth)%nat)); [done|]); unfold within, cell; cbn [fst snd]; lia.
  - intros feature Hf. by apply Hz.
  - intros _ m' (Hdef & Hok' & Ht' & Hs' & Hp' & Hc').
    assert (forall head' row', (row' < T)%nat -> (head' * T + row' < head * T + S row)%nat -> (head', row') = (head, row) \/ (head', row') <> (head, row) /\ (head' < H)%nat /\ (head' * T + row' < head * T + row)%nat) as Hcase.
    { intros head' row' Hr' Hlt. destruct (decide ((head', row') = (head, row))) as [->|Hne]; [by left|]. right. split; [done|].
      destruct (decide (head' = head)) as [->|]; [|split; nia]. destruct (decide (row' = row)) as [->|]; [done|]. split; [done|]. lia. }
    constructor.
    + intros head' row' Hr' Hlt. destruct (Hcase head' row' Hr' Hlt) as [[= -> ->]|(_ & _ & ?)]; [done|by apply Hd].
    + done.
    + eapply touches_trans; [exact Ht|]. by apply step_touches.
    + intros head' row' column Hr' Hlt Hcol. destruct (Hcase head' row' Hr' Hlt) as [[= -> ->]|(Hne & Hh' & ?)]; [by apply Hs'|].
      rewrite (other_score m m') by (done || by left). by apply Hs.
    + intros head' row' column Hr' Hlt Hcol. destruct (Hcase head' row' Hr' Hlt) as [[= -> ->]|(Hne & Hh' & ?)]; [by apply Hp'|].
      rewrite (other_score m m') by (done || by right). by apply Hp.
    + intros head' row' feature Hr' Hlt Hf. destruct (Hcase head' row' Hr' Hlt) as [[= -> ->]|(Hne & Hh' & ?)]; [by apply Hc'|].
      rewrite (other_context m m') by done. by apply Hc.
    + intros head' row' feature Hh' Hr' Hge Hf. rewrite (other_context m m'); try done; [apply Hz; try done; lia|]. intros [= -> ->]. lia.
  - intros e m' (Hdef & He & Hok' & Ht'). split; [by exists head, row|]. split; [done|]. split; [done|]. eapply touches_trans; [exact Ht|]. by apply step_touches.
Qed.
End step.

Lemma attend_spec mem : words_ok mem -> (forall i, (i < T * queryWidth)%nat -> load mem q i = qf i) ->
  (forall i, (i < T * queryWidth)%nat -> load mem context i = f32_zero) ->
  wp (attend expf c T queryWidth cached q scores probabilities context) mem (fun _ => attended mem (H * T)) (unattended mem).
Proof.
  intros Hm Hqf Hz. unfold attend. eapply (wp_fold_seq _ (fun head _ => attended mem (head * T))).
  - intros head [] m Hh Ha. eapply wp_mono; [eapply (wp_fold_seq _ (fun row _ => attended mem (head * T + row)) (unattended mem))| |done].
    + intros row [] m' Hr Ha'. by apply attended_step.
    + by rewrite Nat.add_0_r.
    + intros [] m' Ha'. by replace (S head * T)%nat with (head * T + T)%nat by lia.
  - constructor; try done; [intros; lia..|]. intros head row feature Hh Hr _ Hf. apply Hz.
    pose proof (row_in_context head row Hh Hr). rewrite (queryIndex_0 c queryWidth head row feature). lia.
Qed.
End rows.

(** ** The results as arrays *)

Section arrays.
Variable expf : f32 -> f32.
Variables (c : AttentionConfiguration) (tokenCount queryWidth : nat) (cached : KVCacheSnapshot) (qf : nat -> f32).
Notation K := (keyTokenCount cached).
Notation hd := (headSize c).
Notation H := (Z.to_nat (headCount c)).
Notation T := tokenCount.
Hypothesis Hwidth : queryWidth = (H * hd)%nat.

Definition all_scores : list f32 := (fun k => row_score c queryWidth cached qf (k / K / T) ((k / K) mod T) (k mod K)) <$> seq 0 (H * T * K).
Definition all_probabilities : list f32 := (fun k => row_probability expf c queryWidth cached qf (k / K / T) ((k / K) mod T) (k mod K)) <$> seq 0 (H * T * K).
Definition all_contexts : list f32 :=
  (fun k => row_context expf c queryWidth cached qf ((k / hd) mod H) (k / hd / H) (k mod hd) K) <$> seq 0 (T * queryWidth).

Lemma score_index k : (0 < K)%nat -> (0 < T)%nat -> k = scoreIndex T cached (k / K / T) ((k / K) mod T) (k mod K).
Proof. intros HK HT. unfold scoreIndex. rewrite (Nat.mul_comm (k / K / T)), <- Nat.Div0.div_mod, (Nat.mul_comm (k / K)), <- Nat.Div0.div_mod. done. Qed.
Lemma context_index k : k = queryIndex c queryWidth ((k / hd) mod H) (k / hd / H) (k mod hd).
Proof.
  unfold queryIndex. rewrite Hwidth, Nat.mul_assoc, <- Nat.mul_add_distr_r, (Nat.mul_comm (k / hd / H)), <- Nat.Div0.div_mod, (Nat.mul_comm (k / hd)), <- Nat.Div0.div_mod. done.
Qed.

Lemma attended_arrays scores probabilities context mem m : (0 < T)%nat ->
  attended expf c T queryWidth cached scores probabilities context qf mem (H * T) m ->
  array m scores (H * T * K) = all_scores /\ array m probabilities (H * T * K) = all_probabilities /\ array m context (T * queryWidth) = all_contexts.
Proof.
  intros HT [_ _ _ Hs Hp Hc _].
  assert (forall k, (k < H * T * K)%nat -> ((k / K) mod T < T /\ k / K / T * T + (k / K) mod T < H * T /\ k mod K < K)%nat) as Hk.
  { intros k Hk. split; [apply Nat.mod_upper_bound; lia|]. split; [|apply Nat.mod_upper_bound; lia].
    rewrite (Nat.mul_comm (k / K / T)), <- Nat.Div0.div_mod. apply Nat.Div0.div_lt_upper_bound. lia. }
  split; [|split]; apply list_fmap_ext; intros i k [-> Hi]%lookup_seq; rewrite Nat.add_0_l.
  - destruct (Hk i Hi) as (H1 & H2 & H3). rewrite (score_index i) at 1 by lia. by apply Hs.
  - destruct (Hk i Hi) as (H1 & H2 & H3). rewrite (score_index i) at 1 by lia. by apply Hp.
  - rewrite (context_index i) at 1. rewrite Hwidth in Hi.
    assert ((i / hd) mod H < H)%nat as Hhead by (apply Nat.mod_upper_bound; lia).
    assert (i / hd / H < T)%nat as Hrow by (rewrite Nat.Div0.div_div; apply Nat.Div0.div_lt_upper_bound; lia).
    apply Hc; [done|nia|apply Nat.mod_upper_bound; lia].
Qed.
End arrays.

(** ** The normalization of the heads *)

Definition normalized_row (dimension : nat) (epsilon : f32) (weight : nat -> f32) (row : list f32) : list f32 :=
  (fun j => scaled (nth j row f32_zero) (inverse_rms (Z.of_nat dimension) epsilon (square_sum (fun i => nth i row f32_zero) 0 dimension)) (weight j)) <$> seq 0 dimension.
Definition heads_normalized (dimension : nat) (epsilon : f32) (weight : nat -> f32) (l : list f32) : list f32 :=
  (fun k => nth (k mod dimension) (normalized_row dimension epsilon weight (row_of (k / dimension) dimension l)) f32_zero) <$> seq 0 (length l).

Lemma head_norm_step values scale dimension epsilon weight b m : (forall j, (j < dimension)%nat -> load m scale j = weight j) -> words_ok m ->
  (forall j k, (j < dimension)%nat -> (k < dimension)%nat -> cell scale j <> cell values (b * dimension + k)) ->
  let base := (b * dimension)%nat in
  let inverseRms := inverse_rms (Z.of_nat dimension) epsilon (square_sum (load m values) base dimension) in
  let m' := foldl (fun mem feature => store values (base + feature) (scaled (load mem values (base + feature)) inverseRms (load mem scale feature)) mem) m (seq 0 dimension) in
  words_ok m' /\ same_outside (block_at values dimension b) dimension m m' /\
  array m' (block_at values dimension b) dimension = normalized_row dimension epsilon weight (array m (block_at values dimension b) dimension).
Proof.
  intros Hsc Hm Hne base inverseRms. cbv zeta. set (row := array m (block_at values dimension b) dimension).
  assert (inverseRms = inverse_rms (Z.of_nat dimension) epsilon (square_sum (fun i => nth i row f32_zero) 0 dimension)) as Hinv.
  { unfold inverseRms. f_equal. unfold square_sum. apply foldl_ext_in. intros s i [_ Hi]%elem_of_seq. cbv zeta. unfold row. rewrite array_block by lia. done. }
  set (Inv := fun (n : nat) (m' : Z -> Z) => words_ok m' /\ same_outside (block_at values dimension b) dimension m m' /\
    forall j, (j < dimension)%nat -> load m' values (base + j) = if (j <? n)%nat then scaled (nth j row f32_zero) inverseRms (weight j) else nth j row f32_zero).
  assert (Inv dimension (foldl (fun mem feature => store values (base + feature) (scaled (load mem values (base + feature)) inverseRms (load mem scale feature)) mem) m (seq 0 dimension))) as (Hok & Ho & Hl).
  { apply (fold_seq_inv _ Inv).
    - intros i m' Hi (Hok & Ho & Hl). split; [apply store_ok; auto with valid|]. split.
      + eapply same_outside_trans; [exact Ho|]. unfold base. rewrite <- (block_store values dimension b). by apply store_same.
      + intros j Hj. destruct (decide (j = i)) as [->|Hd].
        * rewrite load_store by auto with valid. rewrite Hl, Nat.ltb_irrefl, (proj2 (Nat.ltb_lt i (S i))) by lia.
          rewrite (same_outside_load _ _ _ _ scale i Ho), Hsc by (done || (intros k Hk; rewrite block_cell; by apply Hne)). done.
        * rewrite load_store_ne by (unfold cell; lia). rewrite Hl by done. destruct (Nat.ltb_spec j i), (Nat.ltb_spec j (S i)); done || lia.
    - split; [done|]. split; [done|]. intros j Hj. change (j <? 0)%nat with false. cbv iota. unfold row. by rewrite array_block. }
  split; [done|]. split; [done|]. apply list_fmap_ext. intros i j [-> Hj]%lookup_seq. rewrite Nat.add_0_l, block_load. fold base. by rewrite Hl, (proj2 (Nat.ltb_lt i dimension)), Hinv.
Qed.

Lemma head_norm_spec values scale tokens heads dimension epsilon weight mem : (0 < heads)%nat -> (0 < dimension)%nat -> words_ok mem ->
  (forall j, (j < dimension)%nat -> load mem scale j = weight j) ->
  (forall j k, (j < dimension)%nat -> (k < tokens * heads * dimension)%nat -> cell scale j <> cell values k) ->
  let n := (tokens * heads * dimension)%nat in
  let mem' := head_norm_loop values scale tokens heads dimension epsilon mem in
  words_ok mem' /\ same_outside values n mem mem' /\ array mem' values n = heads_normalized dimension epsilon weight (array mem values n).
Proof.
  intros Hh Hd Hm Hsc Hne. cbv zeta. unfold head_norm_loop.
  set (step := fun (b : nat) (m : Z -> Z) => foldl (fun mem feature => store values (b * dimension + feature)
    (scaled (load mem values (b * dimension + feature)) (inverse_rms (Z.of_nat dimension) epsilon (square_sum (load m values) (b * dimension) dimension))
      (load mem scale feature)) mem) m (seq 0 dimension)).
  change (foldl _ mem (seq 0 tokens)) with (foldl (fun mem token => foldl (fun mem head => step (token * heads + head)%nat mem) mem (seq 0 heads)) mem (seq 0 tokens)).
  rewrite (nested_loop (fun token head mem => step (token * heads + head)%nat mem)) by done.
  assert (foldl (fun a k => step (k / heads * heads + k mod heads)%nat a) mem (seq 0 (tokens * heads)) = foldl (fun m b => step b m) mem (seq 0 (tokens * heads))) as ->.
  { apply foldl_ext_in. intros m k _. by rewrite (Nat.mul_comm (k / heads)), <- Nat.Div0.div_mod. }
  destruct (blocks_updated values dimension (tokens * heads) step (fun _ => normalized_row dimension epsilon weight) mem Hd Hm) as (Hok & Ho & Ha).
  { intros b m Hb Hok Ho. apply head_norm_step; [|done|].
    - intros j Hj. rewrite (same_outside_load _ _ _ _ scale j Ho); [by apply Hsc|]. intros k Hk. by apply Hne.
    - intros j k Hj Hk. apply Hne; [done|]. nia. }
  split; [done|]. split; [done|]. rewrite Ha. unfold heads_normalized. by rewrite array_length.
Qed.
