(* ===== verification/CpuAttention.v ===== *)
(** * Attention, from the hidden states to the output

    [CpuAttention::execute]: the projections, the cache and the loops of [Attention] put
    together on the host memory, with every tensor given back when it throws. *)

From S2P Require Import Prelude Float FloatBits Tiers Tensor KVCache HostMemory CpuTensorBackend SampleHost NewTensor ArrayLoops Ownership Norm Rope Attention.

#[local] Open Scope Z_scope.

(** The memory and the cache the configuration points to, if any. *)
Notation AttentionState := (Host * option KVCache)%type.

Definition on_host {A} (m : ST Host A) : ST AttentionState A := zoom fst (fun h s => (h, s.2)) m.
Definition on_words {A} (m : ST (Z -> Z) A) : ST Host A := zoom words (fun mem => set_words (fun _ => mem)) m.
Definition on_cache {A} (m : ST KVCache A) : ST AttentionState A := fun s =>
  match s.2 with
  | Some c => let (r, c') := m c in (r, (s.1, Some c'))
  | None => (Throw (Exn UndefinedBehaviour "null pointer"), s)
  end.
(** A tensor that is given back when the rest throws. *)
Definition holding {A} (t : Tensor) (m : ST AttentionState A) : ST AttentionState A := fun s =>
  match m s with
  | (Throw e, s') => (Throw e, (drop_tensor t s'.1, s'.2))
  | r => r
  end.

Section attention.
Context `{HA : HostAllocator}.
Variables (expf : f32 -> f32) (pow : f64 -> f64 -> f64) (cos sin : f64 -> f64).

Definition allocateShape (dims : list Z) : ST Host Tensor := (s <- lift (contiguousShape dims) ;; allocateTensor s FP32)%st.

Definition normalize_heads (w : AttentionWeights) (c : AttentionConfiguration) (tokenCount : Z) (query key : Tensor) : ST Host unit :=
  (h <- st_get ;;
   let hasQuery := view_valid (owners h) (queryNorm w) in
   let hasKey := view_valid (owners h) (keyNorm w) in
   lift (throw_if (negb (Bool.eqb hasQuery hasKey)) (Exn InvalidArgument "attention requires both query and key normalization weights")) ;;;
   if hasQuery then
     lift (throw_if (expired (owners h) (lifetime_ (queryNorm w)) || expired (owners h) (lifetime_ (keyNorm w)))
       (Exn InvalidArgument "attention received expired Q/K normalization storage")) ;;;
     applyHeadRmsNorm query (queryNorm w) tokenCount (headCount c) (projectionHeadDimension c) (queryKeyNormEpsilon c) ;;;
     applyHeadRmsNorm key (keyNorm w) tokenCount (keyValueHeadCount c) (projectionHeadDimension c) (queryKeyNormEpsilon c)
   else ret tt)%st.

Definition rotate_heads (c : AttentionConfiguration) (tokenCount : Z) (query key : Tensor) : ST Host unit :=
  if rotaryEmbedding c then
    (rope <- lift (newRoPE (ropeTheta c)) ;;
     rope_apply pow cos sin rope (te_data query) (elementCount (te_shape query)) tokenCount (headCount c) (headDimension c) (positionOffset c) ;;;
     rope_apply pow cos sin rope (te_data key) (elementCount (te_shape key)) tokenCount (keyValueHeadCount c) (headDimension c) (positionOffset c))%st
  else ret tt.

(** The floats of a tensor, as words. *)
Definition float_words (mem : Z -> Z) (t : Tensor) : list Z := (fun i => mem (cell (te_data t) i)) <$> seq 0 (Z.to_nat (elementCount (te_shape t))).

Definition attention_cache (c : AttentionConfiguration) (tokenCount : Z) (key value : Tensor) : ST AttentionState KVCacheSnapshot :=
  (s <- st_get ;;
   match s.2 with
   | Some cache =>
       lift (throw_if (negb (keyValueHeads_ cache =? keyValueHeadCount c) || negb (headDimension_ cache =? headDimension c))
         (Exn InvalidArgument "attention and KV cache dimensions disagree")) ;;;
       shape <- lift (contiguousShape [tokenCount; keyValueHeadCount c; headDimension c]) ;;
       keyView <- lift (tensor_reshape key shape) ;;
       valueView <- lift (tensor_reshape value shape) ;;
       on_cache (kv_append (owners s.1) (words s.1) (layerIndex c) (positionOffset c) (viewOf true keyView) (viewOf true valueView)) ;;;
       on_cache (cache <- st_get ;; lift (kv_snapshot (layerIndex c) cache))
   | None =>
       ret (mkSnapshot (positions_from (positionOffset c) tokenCount) (float_words (words s.1) key) (float_words (words s.1) value)
         (keyValueHeadCount c) (headDimension c))
   end)%st.

(** Scores, probabilities, context and output. *)
Definition attend_cached (w : AttentionWeights) (c : AttentionConfiguration) (tokenCount queryWidth hidden : Z) (query : Tensor) (cached : KVCacheSnapshot) :
    ST Host (Tensor * Tensor * Tensor * Tensor) :=
  (scores <- allocateShape [headCount c; tokenCount; Z.of_nat (keyTokenCount cached)] ;;
   keeping scores (
     probabilities <- allocateTensor (te_shape scores) FP32 ;;
     keeping probabilities (
       context <- allocateShape [tokenCount; queryWidth] ;;
       keeping context (
         result <- allocateShape [tokenCount; hidden] ;;
         keeping result (
           modify (set_words (fill (te_data context) (fun _ _ => f32_zero) (seq 0 (Z.to_nat (elementCount (te_shape context)))))) ;;;
           on_words (attend expf c (Z.to_nat tokenCount) (Z.to_nat queryWidth) cached (te_data query) (te_data scores) (te_data probabilities) (te_data context)) ;;;
           matmul (viewOf true context) (output w) (viewOf true result) ;;;
           synchronize ;;;
           ret (scores, probabilities, context, result))))))%st.

Definition attention_execute (hiddenStates : TensorView) (w : AttentionWeights) (requested : AttentionConfiguration) : ST AttentionState AttentionResult :=
  (s <- st_get ;;
   ' (c, queryWidth, keyValueWidth) <- lift (checked_configuration (owners s.1) hiddenStates w requested) ;;
   let tokenCount := dim hiddenStates 0 in
   q <- on_host (allocateShape [tokenCount; queryWidth]) ;;
   holding q (
     k <- on_host (allocateShape [tokenCount; keyValueWidth]) ;;
     holding k (
       v <- on_host (allocateShape [tokenCount; keyValueWidth]) ;;
       holding v (
         on_host (matmul hiddenStates (query w) (viewOf true q) ;;;
                  matmul hiddenStates (key w) (viewOf true k) ;;;
                  matmul hiddenStates (value w) (viewOf true v) ;;;
                  normalize_heads w c tokenCount q k ;;;
                  rotate_heads c tokenCount q k) ;;;
         cached <- attention_cache c tokenCount k v ;;
         ' (scores, probabilities, context, result) <- on_host (attend_cached w c tokenCount queryWidth (dim hiddenStates 1) q cached) ;;
         ret (mkAttentionResult q k v scores probabilities context result)))))%st.
End attention.

(** ** The reference *)

Definition effective (requested : AttentionConfiguration) : AttentionConfiguration := set_headDimension (projectionHeadDimension requested) requested.

Record attention_fits (h : Host) (hiddenStates : TensorView) (w : AttentionWeights) (requested : AttentionConfiguration) : Prop := AttentionFits {
  af_matrices : Forall (fun v => matrix h FP32 v /\ device_ v = cpu) [hiddenStates; query w; key w; value w; output w];
  af_heads : is_u64 (headCount requested) /\ 1 <= headCount requested /\ is_u64 (keyValueHeadCount requested) /\ 1 <= keyValueHeadCount requested /\
    headCount requested mod keyValueHeadCount requested = 0 /\ is_u64 (projectionHeadDimension requested) /\ 1 <= projectionHeadDimension requested;
  af_dimension : headDimension requested = 0 \/ headDimension requested = projectionHeadDimension requested;
  af_query : dim (query w) 0 = dim hiddenStates 1 /\ dim (query w) 1 = headCount requested * projectionHeadDimension requested;
  af_key : dim (key w) 0 = dim hiddenStates 1 /\ dim (key w) 1 = keyValueHeadCount requested * projectionHeadDimension requested;
  af_value : dim (value w) 0 = dim hiddenStates 1 /\ dim (value w) 1 = keyValueHeadCount requested * projectionHeadDimension requested;
  af_output : dim (output w) 0 = headCount requested * projectionHeadDimension requested /\ dim (output w) 1 = dim hiddenStates 1;
  af_theta : isfinite (ropeTheta requested) = true /\ fle (ropeTheta requested) f32_zero = false;
  af_positions : 0 <= positionOffset requested /\ positionOffset requested + dim hiddenStates 0 <= u64_max;
  af_rotary : rotaryEmbedding requested = true -> projectionHeadDimension requested mod 2 = 0;
}.

(** The optional weights of the query and key normalization. *)
Definition head_norm_fits (h : Host) (v : TensorView) (c : AttentionConfiguration) : Prop :=
  vector h v /\ device_ v = cpu /\ contiguousShape [projectionHeadDimension c] = Ok (shape_ v) /\
  isfinite (queryKeyNormEpsilon c) = true /\ fle (queryKeyNormEpsilon c) f32_zero = false.
Definition norms_fit (h : Host) (w : AttentionWeights) (c : AttentionConfiguration) : Prop :=
  (data_ (queryNorm w) = 0 /\ data_ (keyNorm w) = 0) \/
  (head_norm_fits h (queryNorm w) c /\ head_norm_fits h (keyNorm w) c).

Section reference.
Variables (pow : f64 -> f64 -> f64) (cos sin : f64 -> f64).
Variables (h : Host) (hiddenStates : TensorView) (w : AttentionWeights) (c : AttentionConfiguration).

Definition projection_values (v : TensorView) : list f32 :=
  matrix_product (dims hiddenStates 0) (dims hiddenStates 1) (dims v 1) (values (words h) hiddenStates) (values (words h) v).
Definition head_values (norm : TensorView) (heads : Z) (l : list f32) : list f32 :=
  let l := if view_valid (owners h) norm
           then heads_normalized (Z.to_nat (projectionHeadDimension c)) (queryKeyNormEpsilon c) (fun j => nth j (values (words h) norm) f32_zero) l else l in
  if rotaryEmbedding c then rotated pow cos sin (ropeTheta c) (positionOffset c) (Z.to_nat heads) (Z.to_nat (headDimension c)) l <$> seq 0 (length l) else l.
Definition query_values : list f32 := head_values (queryNorm w) (headCount c) (projection_values (query w)).
Definition key_values : list f32 := head_values (keyNorm w) (keyValueHeadCount c) (projection_values (key w)).
Definition value_values : list f32 := projection_values (value w).
End reference.

(** ** The checks *)

Lemma checkedWidth_ok heads dimension : 1 <= heads -> 1 <= dimension -> heads * dimension <= u64_max ->
  checkedWidth heads dimension = Ok (heads * dimension).
Proof.
  intros Hh Hd Hm. unfold checkedWidth. rewrite mul_overflows by lia. replace (heads =? 0) with false by lia. replace (dimension =? 0) with false by lia.
  replace (u64_max <? heads * dimension) with false by lia. cbn. by rewrite wrap64_small by (unfold is_u64; nia).
Qed.

Lemma validateMatrix_ok h v name : host_wf h -> matrix h FP32 v -> device_ v = cpu -> validateMatrix (owners h) v name = Ok tt.
Proof.
  intros Hwf (Hu & Ht & Hr) Hd. unfold validateMatrix. rewrite (usable_valid h v Hwf Hu), Hd, Ht, (us_contiguous _ _ Hu), Hr, !bool_decide_eq_true_2 by done. done.
Qed.

Lemma checked_configuration_ok h hiddenStates w requested : host_wf h -> attention_fits h hiddenStates w requested ->
  checked_configuration (owners h) hiddenStates w requested =
  Ok (effective requested, headCount requested * projectionHeadDimension requested, keyValueHeadCount requested * projectionHeadDimension requested).
Proof.
  intros Hwf [Hm (_ & Hh & _ & Hkv & Hmod & _ & Hp) Hd [Q0 Q1] [K0 K1] [V0 V1] [O0 O1] [Th1 Th2] [Po1 Po2] _].
  repeat apply Forall_cons in Hm as [[? ?] Hm]. unfold checked_configuration.
  assert (forall v, matrix h FP32 v -> expired (owners h) (lifetime_ v) = false) as Hal by (intros v (Hu & _); by eapply placed_alive, us_placed).
  rewrite !Hal, !(validateMatrix_ok h) by done. cbn [orb throw_if res_bind].
  pose proof (matrix_dims h FP32 (query w) 1%nat ltac:(done) ltac:(lia)). pose proof (matrix_dims h FP32 (key w) 1%nat ltac:(done) ltac:(lia)).
  pose proof (matrix_dims h FP32 hiddenStates 0%nat ltac:(done) ltac:(lia)).
  assert ((if headDimension requested =? 0
     then (throw_if ((headCount requested =? 0) || negb (dim (query w) 1 mod headCount requested =? 0))
            (Exn InvalidArgument "query width cannot infer attention head size") ;;?
          Ok (set_headDimension (dim (query w) 1 / headCount requested) requested))%res
     else Ok requested) = Ok (effective requested)) as ->.
  { unfold effective. destruct Hd as [Hd|Hd]; rewrite Hd.
    - rewrite Q1, Z.mul_comm, Z.mod_mul, Z.div_mul by lia. replace (headCount requested =? 0) with false by lia. done.
    - replace (projectionHeadDimension requested =? 0) with false by lia. f_equal. destruct requested. cbn in *. by subst. }
  cbn [res_bind effective set_headDimension headCount keyValueHeadCount projectionHeadDimension positionOffset ropeTheta].
  rewrite !checkedWidth_ok by lia. cbn [res_bind]. rewrite Hmod, Q0, Q1, K0, K1, V0, V1, O0, O1, !Z.eqb_refl, Th1, Th2. cbn [negb orb throw_if res_bind].
  replace (u64_max <? positionOffset requested) with false by lia. replace (u64_max - dim hiddenStates 0 <? positionOffset requested) with false by lia. done.
Qed.

(** ** The steps on owned tensors *)

Lemma count_product h t : owned h t -> count (viewOf true t) = Z.to_nat (product (dimensions (te_shape t))).
Proof. intros Ho. destruct (owned_storage h t Ho) as (_ & _ & _ & _ & Hs & _). destruct (sw_count _ Hs) as [Hn _]. unfold count. cbn [viewOf shape_]. by rewrite Hn. Qed.

(** Updates of the floats of one tensor. *)
Lemma own_update h1 t mem' : host_wf h1 -> words_ok mem' -> same_outside (te_data t) (count (viewOf true t)) (words h1) mem' ->
  wrote t h1 (set_words (fun _ => mem') h1).
Proof. intros Hwf Hok Ho. eapply (wrote_cells h1 _ t (fun _ => mem')); [done|done|done|]. intros a _ Hno. by apply Ho. Qed.

Section steps.
Context `{HA : HostAllocator} `{HL : !HostAllocatorLaws}.
Variables (h : Host).
Hypothesis Hal : storage_aligned h.

Lemma own_allocateShape ts h1 dims : grows h ts h1 -> Forall (fun d => 1 <= d <= u64_max) dims ->
  wp (allocateShape dims) h1
    (fun t h2 => grows h (t :: ts) h2 /\ words h2 = words h1 /\ dimensions (te_shape t) = dims /\ te_dtype t = FP32)
    (fun e h2 => allocation_error e /\ h2 = h1).
Proof.
  intros Hg Hd. unfold allocateShape. wp_step. apply wp_lift. pose proof (contiguousShape_spec dims) as Hs. pose proof (contiguousShape_overflow dims) as Ho.
  destruct (contiguousShape dims) as [s|e|].
  - destruct Hs as (Hs & Hds & Hst & _); [eapply Forall_impl; [exact Hd|]; unfold is_u64; cbn; lia|].
    eapply wp_mono; [apply (own_alloc h ts h1 s FP32 Hg Hs); apply isContiguous_spec; [done|]; by rewrite Hst, Hds| |done].
    intros t h2 (G2 & W2 & S2 & T2 & _). by rewrite S2.
  - split; [|done]. right. apply (Ho e); [|done]. eapply Forall_impl; [exact Hd|]. cbn. lia.
  - apply Hs. eapply Forall_impl; [exact Hd|]. unfold is_u64. cbn. lia.
Qed.

Section one.
Variables (ts : list Tensor) (h1 : Host) (t : Tensor) (tokens heads : Z).
Hypotheses (Hg : grows h ts h1) (Hk : keeps h h1) (Hin : t ∈ ts) (Ht : te_dtype t = FP32) (Htok : 1 <= tokens) (Hheads : 1 <= heads).

Lemma own_head_norm c weight : 1 <= projectionHeadDimension c <= u64_max -> head_norm_fits h weight c ->
  dimensions (te_shape t) = [tokens; heads * projectionHeadDimension c] ->
  wp (applyHeadRmsNorm t weight tokens heads (projectionHeadDimension c) (queryKeyNormEpsilon c)) h1
    (fun _ h2 => wrote t h1 h2 /\ values (words h2) (viewOf true t) =
       heads_normalized (Z.to_nat (projectionHeadDimension c)) (queryKeyNormEpsilon c) (fun j => nth j (values (words h) weight) f32_zero) (values (words h1) (viewOf true t)))
    (fun _ _ => False).
Proof.
  intros Hp (Vw & Dw & Hs & He1 & He2) Hds. pose proof Vw as (Uw & Tw & _). pose proof (grows_usable _ _ _ _ Hg Uw) as Uw1.
  unfold applyHeadRmsNorm. wp_step. wp_step. wp_step. apply wp_lift. rewrite (usable_valid h1 weight (gr_wf _ _ _ Hg) Uw1), Dw, Tw, (us_contiguous _ _ Uw), !bool_decide_eq_true_2 by done.
  cbn [negb orb throw_if]. wp_step. apply wp_lift. rewrite Hs. wp_step. apply wp_lift. rewrite bool_decide_eq_true_2, He1, He2 by done. cbn [negb orb throw_if].
  set (dimension := Z.to_nat (projectionHeadDimension c)).
  assert (count (viewOf true t) = Z.to_nat tokens * Z.to_nat heads * dimension)%nat as Hc.
  { rewrite (count_product h t (owned_in _ _ _ Hg t Hin)), Hds. unfold product, dimension. cbn. lia. }
  assert (count weight = dimension) as Cw.
  { unfold count. pose proof (contiguousShape_spec [projectionHeadDimension c]) as Hspec. rewrite Hs in Hspec.
    destruct Hspec as (_ & _ & _ & _ & ->); [repeat constructor; unfold is_u64; lia|]. unfold product, dimension. cbn. by rewrite Z.mul_1_r. }
  assert (forall j, (j < dimension)%nat -> load (words h1) (data_ weight) j = nth j (values (words h) weight) f32_zero) as Hread.
  { intros j Hj. rewrite <- (kept_values h h1 Hal Hk weight Uw Tw), values_lookup by lia. done. }
  destruct (head_norm_spec (te_data t) (data_ weight) (Z.to_nat tokens) (Z.to_nat heads) dimension (queryKeyNormEpsilon c)
    (fun j => nth j (values (words h) weight) f32_zero) (words h1)) as (Hok & Ho & Ha); [lia|unfold dimension; lia|apply Hg|done| |].
  { intros j k Hj Hk'. pose proof (owned_disjoint _ _ _ Hg weight t true Uw Hin) as Hd. destruct (us_bytes _ _ Uw) as [Bw _]. rewrite Tw in Bw. cbn [dtype_sizeOf] in Bw.
    pose proof (owned_bytes h t (owned_in _ _ _ Hg t Hin) Ht) as Bt. unfold disjoint, cell in *. cbn [viewOf data_ bytes_] in *. lia. }
  wp_step. split.
  - apply (own_update h1 t); [apply Hg|done|by rewrite Hc].
  - unfold values. rewrite Hc. exact Ha.
Qed.

Lemma own_rope pow cos sin c rope : 1 <= headDimension c -> headDimension c mod 2 = 0 -> dimensions (te_shape t) = [tokens; heads * headDimension c] ->
  0 <= positionOffset c -> positionOffset c + tokens <= u64_max -> theta_ rope = ropeTheta c ->
  wp (rope_apply pow cos sin rope (te_data t) (elementCount (te_shape t)) tokens heads (headDimension c) (positionOffset c)) h1
    (fun _ h2 => wrote t h1 h2 /\ values (words h2) (viewOf true t) =
       rotated pow cos sin (ropeTheta c) (positionOffset c) (Z.to_nat heads) (Z.to_nat (headDimension c)) (values (words h1) (viewOf true t)) <$>
         seq 0 (length (values (words h1) (viewOf true t))))
    (fun _ _ => False).
Proof.
  intros Hd Heven Hds Hp1 Hp2 Hth. destruct (owned_storage h t (owned_in _ _ _ Hg t Hin)) as (_ & _ & _ & _ & Hs & _). destruct (sw_count _ Hs) as [Hn Hmax].
  rewrite Hds in Hn. unfold product in Hn. cbn in Hn.
  eapply wp_mono; [apply (rope_apply_spec pow cos sin rope (te_data t) (elementCount (te_shape t)) tokens heads (headDimension c) (positionOffset c) h1)| |].
  1: apply Hg. 1-4: lia. 1: unfold is_u64; nia.
  - intros _ h2 (_ & m' & -> & Hok & Ho & Ha). assert (count (viewOf true t) = Z.to_nat (elementCount (te_shape t))) as Hc by done.
    split; [apply own_update; [apply Hg|done|by rewrite Hc]|]. rewrite values_length, Hc. rewrite <- Hth. exact Ha.
  - intros e h2 (Hno & _). apply Hno. split_and!; try done; lia.
Qed.
End one.
End steps.

(** ** Queries, keys and values *)

Section projected.
Context `{HA : HostAllocator} `{HL : !HostAllocatorLaws}.
Variables (pow : f64 -> f64 -> f64) (cos sin : f64 -> f64).
Variables (h : Host) (hiddenStates : TensorView) (w : AttentionWeights) (requested : AttentionConfiguration) (q k v : Tensor).
Hypotheses (Hwf : host_wf h) (Hal : storage_aligned h) (Hf : attention_fits h hiddenStates w requested) (Hn : norms_fit h w requested).
Notation c := (effective requested).
Notation T := (dim hiddenStates 0).
Notation P := (projectionHeadDimension requested).
Hypothesis Types : te_dtype q = FP32 /\ te_dtype k = FP32 /\ te_dtype v = FP32.
Hypothesis Dims : dimensions (te_shape q) = [T; headCount requested * P] /\ dimensions (te_shape k) = [T; keyValueHeadCount requested * P] /\
  dimensions (te_shape v) = [T; keyValueHeadCount requested * P].

(** The three tensors are held, with these contents. *)
Record holds3 (h1 : Host) (lq lk lv : list f32) : Prop := Holds3 {
  h3_grows : grows h [v; k; q] h1;
  h3_keeps : keeps h h1;
  h3_query : values (words h1) (viewOf true q) = lq;
  h3_key : values (words h1) (viewOf true k) = lk;
  h3_value : values (words h1) (viewOf true v) = lv;
}.

Lemma holds3_distinct h1 lq lk lv : holds3 h1 lq lk lv -> te_data q <> te_data k /\ te_data q <> te_data v /\ te_data k <> te_data v.
Proof.
  intros [Hg _ _ _ _]. pose proof (gr_data _ _ _ Hg) as Hd. cbn in Hd. rewrite !NoDup_cons in Hd. destruct Hd as (H1 & H2 & _). set_solver.
Qed.
Lemma holds3_query h1 h2 lq lk lv x : holds3 h1 lq lk lv -> wrote q h1 h2 /\ values (words h2) (viewOf true q) = x -> holds3 h2 x lk lv.
Proof.
  intros Hh [Hw Hx]. destruct (holds3_distinct _ _ _ _ Hh) as (N1 & N2 & N3). destruct Hh as [Hg Hk <- <- <-]. destruct Types as (T1 & T2 & T3).
  constructor; [by eapply wrote_grows|eapply (wrote_keeps h _ h1 h2 Hg q); [set_solver|done..]|done| |]; apply (wrote_values h _ h1 h2 Hg q); set_solver.
Qed.
Lemma holds3_key h1 h2 lq lk lv x : holds3 h1 lq lk lv -> wrote k h1 h2 /\ values (words h2) (viewOf true k) = x -> holds3 h2 lq x lv.
Proof.
  intros Hh [Hw Hx]. destruct (holds3_distinct _ _ _ _ Hh) as (N1 & N2 & N3). destruct Hh as [Hg Hk <- <- <-]. destruct Types as (T1 & T2 & T3).
  constructor; [by eapply wrote_grows|eapply (wrote_keeps h _ h1 h2 Hg k); [set_solver|done..]| |done|]; apply (wrote_values h _ h1 h2 Hg k); set_solver.
Qed.
Lemma holds3_value h1 h2 lq lk lv x : holds3 h1 lq lk lv -> wrote v h1 h2 /\ values (words h2) (viewOf true v) = x -> holds3 h2 lq lk x.
Proof.
  intros Hh [Hw Hx]. destruct (holds3_distinct _ _ _ _ Hh) as (N1 & N2 & N3). destruct Hh as [Hg Hk <- <- <-]. destruct Types as (T1 & T2 & T3).
  constructor; [by eapply wrote_grows|eapply (wrote_keeps h _ h1 h2 Hg v); [set_solver|done..]| | |done]; apply (wrote_values h _ h1 h2 Hg v); set_solver.
Qed.

(** One projection. *)
Lemma projection_step h1 lq lk lv wv t : holds3 h1 lq lk lv -> t ∈ [v; k; q] -> matrix h FP32 wv -> dim wv 0 = dim hiddenStates 1 ->
  dimensions (te_shape t) = [T; dim wv 1] ->
  wp (matmul hiddenStates wv (viewOf true t)) h1 (fun _ h2 => wrote t h1 h2 /\ values (words h2) (viewOf true t) = projection_values h hiddenStates wv) (fun _ _ => False).
Proof.
  intros [Hg Hk _ _ _] Hin Mw E0 Hds. pose proof (af_matrices _ _ _ _ Hf) as Hm. apply Forall_cons in Hm as [[Mh _] _].
  pose proof Mh as (Uh & Th & _). pose proof Mw as (Uw & Tw & _).
  assert (te_dtype t = FP32) as Tt by (destruct Types as (? & ? & ?); set_solver).
  eapply wp_mono; [apply (own_matmul h [v; k; q] h1 hiddenStates wv t Hg Hin Tt)| |done].
  - unfold rank. by rewrite Hds.
  - by eapply grows_matrix.
  - by eapply grows_matrix.
  - by eapply owned_disjoint.
  - by eapply owned_disjoint.
  - done.
  - unfold dim. cbn [viewOf shape_]. by rewrite Hds.
  - unfold dim. cbn [viewOf shape_]. by rewrite Hds.
  - intros _ h2 [Hw Hv]. split; [done|]. rewrite Hv. unfold projection_values. by rewrite !(kept_values h h1 Hal Hk) by done.
Qed.

Lemma normalize_heads_spec h1 lq lk lv : holds3 h1 lq lk lv ->
  wp (normalize_heads w c T q k) h1
    (fun _ h2 => holds3 h2
       (if view_valid (owners h) (queryNorm w) then heads_normalized (Z.to_nat P) (queryKeyNormEpsilon requested) (fun j => nth j (values (words h) (queryNorm w)) f32_zero) lq else lq)
       (if view_valid (owners h) (keyNorm w) then heads_normalized (Z.to_nat P) (queryKeyNormEpsilon requested) (fun j => nth j (values (words h) (keyNorm w)) f32_zero) lk else lk) lv)
    (fun _ _ => False).
Proof.
  intros Hh. pose proof Hh as [Hg Hk _ _ _]. destruct Hf as [Hm (Hu1 & H1 & Hu2 & H2 & _ & Hu3 & H3) _ _ _ _ _ _ _ _]. unfold is_u64 in *.
  apply Forall_cons in Hm as [[Mh _] _]. pose proof (matrix_dims h FP32 hiddenStates 0%nat Mh ltac:(lia)) as HT. destruct Types as (T1 & T2 & T3), Dims as (D1 & D2 & D3).
  unfold normalize_heads. wp_step. wp_step. wp_step. apply wp_lift. destruct Hn as [[Q0 K0]|[Fq Fk]].
  - assert (forall s v, data_ v = 0 -> view_valid s v = false) as Hv by (intros s x Hx; unfold view_valid; by rewrite Hx). rewrite !Hv by done. cbn [Bool.eqb negb throw_if]. by wp_step.
  - pose proof Fq as ([Uq _] & _). pose proof Fk as ([Uk _] & _).
    rewrite !(usable_valid h), !(usable_valid h1) by (done || apply Hg || by eapply grows_usable). cbn [Bool.eqb negb throw_if].
    wp_step. apply wp_lift. rewrite !(grows_expired h _ h1) by (apply Hg || apply us_placed; done). cbn [orb throw_if]. wp_step.
    eapply wp_mono; [apply (own_head_norm h Hal [v; k; q] h1 q T (headCount requested) Hg Hk); try done; [set_solver|lia..|set_solver]| |done].
    intros [] h2 Hq. pose proof (holds3_query _ _ _ _ _ _ Hh Hq) as Hh2. rewrite (h3_query _ _ _ _ Hh) in Hh2. pose proof Hh2 as [Hg2 Hk2 _ _ _].
    eapply wp_mono; [apply (own_head_norm h Hal [v; k; q] h2 k T (keyValueHeadCount requested) Hg2 Hk2); try done; [set_solver|lia..|set_solver]| |done].
    intros [] h3 Hk3. pose proof (holds3_key _ _ _ _ _ _ Hh2 Hk3) as Hh3. by rewrite (h3_key _ _ _ _ Hh2) in Hh3.
Qed.

Lemma rotate_heads_spec h1 lq lk lv : holds3 h1 lq lk lv ->
  wp (rotate_heads pow cos sin c T q k) h1
    (fun _ h2 => holds3 h2
       (if rotaryEmbedding requested then rotated pow cos sin (ropeTheta requested) (positionOffset requested) (Z.to_nat (headCount requested)) (Z.to_nat P) lq <$> seq 0 (length lq) else lq)
       (if rotaryEmbedding requested then rotated pow cos sin (ropeTheta requested) (positionOffset requested) (Z.to_nat (keyValueHeadCount requested)) (Z.to_nat P) lk <$> seq 0 (length lk) else lk) lv)
    (fun _ _ => False).
Proof.
  intros Hh. pose proof Hh as [Hg Hk _ _ _]. destruct Hf as [Hm (Hu1 & H1 & Hu2 & H2 & _ & Hu3 & H3) _ _ _ _ _ [Th1 Th2] [Po1 Po2] Hrot]. unfold is_u64 in *.
  apply Forall_cons in Hm as [[Mh _] _]. pose proof (matrix_dims h FP32 hiddenStates 0%nat Mh ltac:(lia)) as HT. destruct Types as (T1 & T2 & T3), Dims as (D1 & D2 & D3).
  unfold rotate_heads. cbn [effective set_headDimension rotaryEmbedding ropeTheta]. destruct (rotaryEmbedding requested); [|by wp_step].
  wp_step. apply wp_lift. unfold newRoPE. rewrite Th1, Th2. cbn [negb orb throw_if res_bind]. wp_step.
  eapply wp_mono; [apply (own_rope h [v; k; q] h1 q T (headCount requested) Hg); first [done|by apply Hrot|set_solver|lia]| |done].
  intros [] h2 Hq. pose proof (holds3_query _ _ _ _ _ _ Hh Hq) as Hh2. rewrite (h3_query _ _ _ _ Hh) in Hh2. pose proof Hh2 as [Hg2 Hk2 _ _ _].
  eapply wp_mono; [apply (own_rope h [v; k; q] h2 k T (keyValueHeadCount requested) Hg2); first [done|by apply Hrot|set_solver|lia]| |done].
  intros [] h3 Hk3. pose proof (holds3_key _ _ _ _ _ _ Hh2 Hk3) as Hh3. by rewrite (h3_key _ _ _ _ Hh2) in Hh3.
Qed.

Lemma projections_spec h1 : grows h [v; k; q] h1 -> keeps h h1 ->
  wp (matmul hiddenStates (query w) (viewOf true q) ;;; matmul hiddenStates (key w) (viewOf true k) ;;; matmul hiddenStates (value w) (viewOf true v) ;;;
      normalize_heads w c T q k ;;; rotate_heads pow cos sin c T q k)%st h1
    (fun _ h2 => holds3 h2 (query_values pow cos sin h hiddenStates w c) (key_values pow cos sin h hiddenStates w c) (value_values h hiddenStates w))
    (fun _ _ => False).
Proof.
  intros Hg Hk. pose proof Hf as [Hm _ _ [Q0 Q1] [K0 K1] [V0 V1] _ _ _ _]. repeat apply Forall_cons in Hm as [[? _] Hm]. destruct Dims as (D1 & D2 & D3).
  assert (holds3 h1 (values (words h1) (viewOf true q)) (values (words h1) (viewOf true k)) (values (words h1) (viewOf true v))) as S1 by done.
  wp_step. eapply wp_mono; [apply (projection_step _ _ _ _ (query w) q S1); try done; [set_solver|by rewrite Q1]| |done].
  intros [] h2 S2%(holds3_query _ _ _ _ _ _ S1). wp_step.
  eapply wp_mono; [apply (projection_step _ _ _ _ (key w) k S2); try done; [set_solver|by rewrite K1]| |done].
  intros [] h3 S3%(holds3_key _ _ _ _ _ _ S2). wp_step.
  eapply wp_mono; [apply (projection_step _ _ _ _ (value w) v S3); try done; [set_solver|by rewrite V1]| |done].
  intros [] h4 S4%(holds3_value _ _ _ _ _ _ S3). wp_step.
  eapply wp_mono; [by apply normalize_heads_spec| |done]. intros [] h5 S5. eapply wp_mono; [by apply rotate_heads_spec| |done]. intros [] h6 S6. exact S6.
Qed.
End projected.

(** ** The cache *)

Definition cache_fits (c : AttentionConfiguration) (tokenCount : Z) (cache : option KVCache) : Prop :=
  match cache with
  | None => True
  | Some old => cache_wf old /\ keyValueHeads_ old = keyValueHeadCount c /\ headDimension_ old = headDimension c /\ 0 <= layerIndex c /\
      exists l, layers_ old !! Z.to_nat (layerIndex c) = Some l /\ positionOffset c = Z.of_nat (length (positions l)) /\
        positionOffset c + tokenCount <= maximumSequenceLength_ old
  end.

(** What the attention sees, and the cache afterwards: the new keys and values follow those
    of the layer. *)
Definition cached_as (c : AttentionConfiguration) (tokenCount : Z) (newKeys newValues : list f32) (cache : option KVCache)
    (cached : KVCacheSnapshot) (cache' : option KVCache) : Prop :=
  match cache with
  | None => cache' = None /\ sn_positions cached = (fun i => positionOffset c + Z.of_nat i) <$> seq 0 (Z.to_nat tokenCount) /\
      f32_of_bits <$> sn_keys cached = newKeys /\ f32_of_bits <$> sn_values cached = newValues
  | Some old => exists l ks vs, layers_ old !! Z.to_nat (layerIndex c) = Some l /\ f32_of_bits <$> ks = newKeys /\ f32_of_bits <$> vs = newValues /\
      sn_positions cached = Z.of_nat <$> seq 0 (length (positions l) + Z.to_nat tokenCount) /\
      sn_keys cached = keys l ++ ks /\ sn_values cached = KVCache.values l ++ vs /\
      cache' = Some (set_layers (insert (Z.to_nat (layerIndex c)) (mkLayer (sn_positions cached) (sn_keys cached) (sn_values cached))) old)
  end.

(** A tensor of another shape on the same storage. *)
Definition reshaped (t : Tensor) (s : Shape) : Tensor := mkTensor s (te_dtype t) (te_device t) (te_data t) (te_bytes t) (te_storageBytes t) (te_owner t).

Lemma tensor_reshape_ok h t s : owned h t -> te_storageBytes t <= u64_max -> shape_wf s -> shape_isContiguous s = true ->
  storageElementCount s = elementCount s -> elementCount s = elementCount (te_shape t) ->
  tensor_reshape t s = Ok (reshaped t s) /\ forall b writable, view_wf b (viewOf writable t) -> view_wf b (viewOf writable (reshaped t s)).
Proof.
  intros Ho Hmax Hs Hc Hst He. pose proof (od_data _ _ Ho) as [H0 H64]. destruct Ho as [(s0 & d & p & o & Hs0 & Hc0 & ->) _ _].
  cbn [te_data te_shape te_storageBytes] in *. pose proof (dtype_sizeOf_pos d) as Hd. destruct (sw_count s0 Hs0) as [Hn _]. pose proof (product_pos _ (sw_dims s0 Hs0)).
  pose proof (contiguous_count s0 Hs0 Hc0) as C0. split.
  - assert (validateStorageMetadata d cpu p = Ok tt) as Hv.
    { unfold validateStorageMetadata. rewrite alignmentOf_size, (aligned_type p d H64). rewrite (Z.eqb_refl 0). by destruct (p =? 0). }
    assert ((u64_max / dtype_sizeOf d <? elementCount s0) = false) as Hq by (apply Z.ltb_ge, Z.div_le_lower_bound; nia).
    unfold tensor_reshape, tensor_valid, fromStorage, logicalBytes, requiredBytes. cbn [te_data te_owner te_bytes te_shape te_dtype te_device te_storageBytes]. rewrite Hc, Hc0, Hst, He, Z.eqb_refl, Hq, Hv.
    replace (p =? 0) with false by lia. replace (elementCount s0 * dtype_sizeOf d =? 0) with false by nia. rewrite bool_decide_eq_true_2, bool_decide_eq_false_2 by done. cbn [negb andb orb throw_if res_bind].
    rewrite wrap64_small by (unfold is_u64; nia). replace (storageElementCount s0 * dtype_sizeOf d <? elementCount s0 * dtype_sizeOf d) with false by nia. done.
  - intros b writable [V1 V2 V3 V4 V5 V6 V7 V8]. constructor; try done; cbn in *; [rewrite Hst, He; nia|by rewrite He].
Qed.

Lemma wp_on_cache {A} (m : ST KVCache A) h old (Q : A -> AttentionState -> Prop) E :
  wp m old (fun a c' => Q a (h, Some c')) (fun e c' => E e (h, Some c')) -> wp (on_cache m) (h, Some old) Q E.
Proof. unfold wp, on_cache. cbn [snd fst]. by destruct (m old) as [[a|e|] c']. Qed.

Section cached.
Context `{HA : HostAllocator} `{HL : !HostAllocatorLaws}.
Variables (h : Host) (ts : list Tensor) (h1 : Host) (c : AttentionConfiguration) (tokenCount : Z) (k v : Tensor).
Hypotheses (Hg : grows h ts h1) (Hk : k ∈ ts) (Hv : v ∈ ts) (Htypes : te_dtype k = FP32 /\ te_dtype v = FP32).
Hypotheses (Htok : 1 <= tokenCount) (Hheads : 1 <= keyValueHeadCount c) (Hdim : 1 <= headDimension c).
Hypotheses (Dk : dimensions (te_shape k) = [tokenCount; keyValueHeadCount c * headDimension c]).
Hypotheses (Dv : dimensions (te_shape v) = [tokenCount; keyValueHeadCount c * headDimension c]).

Lemma float_words_values t : f32_of_bits <$> float_words (words h1) t = values (words h1) (viewOf true t).
Proof. unfold float_words, values. rewrite <- list_fmap_compose. done. Qed.

Lemma positions_from_offset first n : 0 <= first -> 0 <= n -> first + n <= u64_max -> positions_from first n = (fun i => first + Z.of_nat i) <$> seq 0 (Z.to_nat n).
Proof.
  intros Hf Hn Hmax. apply list_fmap_ext. intros i j [-> Hj]%lookup_seq. rewrite Nat.add_0_l. apply wrap64_small. unfold is_u64. lia.
Qed.

(** The shape the cache is given. *)
Lemma cache_shape : exists s, contiguousShape [tokenCount; keyValueHeadCount c; headDimension c] = Ok s /\
  dimensions s = [tokenCount; keyValueHeadCount c; headDimension c] /\ shape_isContiguous s = true /\
  forall t, t ∈ ts -> te_dtype t = FP32 -> dimensions (te_shape t) = [tokenCount; keyValueHeadCount c * headDimension c] ->
    tensor_reshape t s = Ok (reshaped t s) /\ exists b, view_wf b (viewOf true (reshaped t s)).
Proof.
  destruct (owned_storage h k (owned_in _ _ _ Hg k Hk)) as (_ & _ & _ & _ & Hs & _). destruct (sw_count _ Hs) as [Hn Hmax]. rewrite Dk in Hn. unfold product in Hn. cbn in Hn.
  pose proof (contiguousShape_spec [tokenCount; keyValueHeadCount c; headDimension c]) as Hspec.
  set (width := keyValueHeadCount c * headDimension c) in *. assert (keyValueHeadCount c <= width /\ headDimension c <= width) as [W1 W2] by (unfold width; nia).
  assert (tokenCount <= tokenCount * width /\ width <= tokenCount * width) as [W3 W4] by nia.
  assert (Forall is_u64 [tokenCount; keyValueHeadCount c; headDimension c]) as Hu by (repeat apply Forall_cons_2; [unfold is_u64; lia..|apply Forall_nil_2]).
  assert (Forall (fun d => 1 <= d) [tokenCount; keyValueHeadCount c; headDimension c]) as H1 by (repeat apply Forall_cons_2; [lia..|apply Forall_nil_2]).
  destruct (contiguousShape _) as [s|e|]; [|exfalso; specialize (Hspec Hu H1); unfold product, width in *; cbn in Hspec; lia|by destruct (Hspec Hu)].
  destruct (Hspec Hu) as (Hs' & Hds & Hst & Hse & Hp). assert (shape_isContiguous s = true) as Hc by (apply isContiguous_spec; [done|]; by rewrite Hst, Hds).
  exists s. split; [done|]. split; [done|]. split; [done|]. intros t Hin Ht Hdt.
  destruct (owned_storage h t (owned_in _ _ _ Hg t Hin)) as (_ & _ & _ & _ & Hst' & _). destruct (sw_count _ Hst') as [Hn' _].
  destruct (grows_block _ _ _ t Hg Hin) as [Hl _]. destruct (hw_range _ (gr_wf _ _ _ Hg) _ _ Hl) as (? & ? & ?).
  destruct (tensor_reshape_ok h t s (owned_in _ _ _ Hg t Hin)) as [Hr Hw]; try done; [lia|rewrite Hp, Hn', Hdt; unfold product, width; cbn; lia|].
  split; [done|]. destruct (owned_placed _ _ _ Hg t true Hin) as (b & _ & _ & Hb & _). exists b. by apply Hw.
Qed.

Lemma attention_cache_spec cache : cache_fits c tokenCount cache -> 0 <= positionOffset c -> positionOffset c + tokenCount <= u64_max ->
  wp (attention_cache c tokenCount k v) (h1, cache)
    (fun cached s => s.1 = h1 /\ cached_as c tokenCount (values (words h1) (viewOf true k)) (values (words h1) (viewOf true v)) cache cached s.2)
    (fun _ _ => False).
Proof.
  intros Hf Hp0 Hp1. unfold attention_cache. wp_step. wp_step. cbn [snd]. destruct Htypes as [Tk Tv]. destruct cache as [old|].
  2:{ wp_step. split; [done|]. split; [done|]. cbn [fst sn_positions sn_keys sn_values]. rewrite positions_from_offset, !float_words_values by lia. done. }
  destruct Hf as (Hwf & E1 & E2 & Hl0 & l & Hl & Hp & Hm). wp_step. apply wp_lift. rewrite E1, E2, !Z.eqb_refl. cbn [negb orb throw_if].
  destruct cache_shape as (s & -> & Hds & Hcs & Hr). destruct (Hr k Hk Tk Dk) as [Rk [bk Wk]]. destruct (Hr v Hv Tv Dv) as [Rv [bv Wv]].
  wp_step. apply wp_lift. wp_step. apply wp_lift. rewrite Rk. wp_step. apply wp_lift. rewrite Rv. wp_step. cbn [fst].
  assert (forall t, t ∈ ts -> view_valid (owners h1) (viewOf true (reshaped t s)) = true /\ expired (owners h1) (lifetime_ (viewOf true (reshaped t s))) = false /\ te_device t = cpu) as Hval.
  { intros t Hin. split; [|split].
    - apply (usable_valid h1 (viewOf true t) (gr_wf _ _ _ Hg)). by eapply owned_usable.
    - by apply (owned_alive h ts h1 Hg t true).
    - by destruct (owned_storage h t (owned_in _ _ _ Hg t Hin)) as (_ & _ & _ & ? & _). }
  destruct (Hval k Hk) as (V1 & X1 & C1), (Hval v Hv) as (V2 & X2 & C2).
  assert (accepts (owners h1) old (layerIndex c) (positionOffset c) (viewOf true (reshaped k s)) (viewOf true (reshaped v s))) as Hacc.
  { split; [done|]. split; [done|]. split; [done|]. split; [done|]. split.
    - unfold views_match. rewrite V1, V2. cbn [viewOf dtype_ shape_ reshaped te_dtype te_shape]. unfold view_isContiguous, rank. cbn [viewOf shape_ reshaped te_shape].
      rewrite Tk, Tv, Hcs, Hds, !bool_decide_eq_true_2 by done. done.
    - unfold dim. cbn [viewOf shape_ reshaped te_shape]. rewrite Hds. cbn [nth]. split; [done|]. split; [done|]. exists l. by rewrite Hp in Hm |- *. }
  apply wp_on_cache. eapply wp_mono; [apply (wp_kv_append (owners h1) (words h1) old (layerIndex c) (positionOffset c) _ _ bk bv Hwf Hl0 Wk Wv)| |].
  2:{ intros e c' [Hno _]. by apply Hno. }
  intros [] c' (_ & _ & l' & Hl' & ->). rewrite Hl in Hl'. injection Hl' as <-. apply wp_on_cache. wp_step. wp_step. apply wp_lift.
  unfold kv_snapshot, kv_layer. cbn [set_layers layers_]. rewrite list_lookup_insert_eq by (by eapply lookup_lt_Some). cbn [res_bind]. split; [done|].
  exists l, (contents (words h1) (viewOf true (reshaped k s))), (contents (words h1) (viewOf true (reshaped v s))).
  assert (forall t, t ∈ ts -> te_dtype t = FP32 -> f32_of_bits <$> contents (words h1) (viewOf true (reshaped t s)) = values (words h1) (viewOf true t)) as Hcont.
  { intros t Hin Ht. unfold contents, values. pose proof (owned_bytes h t (owned_in _ _ _ Hg t Hin) Ht) as Hb. cbn [viewOf bytes_ reshaped te_bytes data_ te_data] in *.
    rewrite Hb, Z.mul_comm, Z.div_mul, Nat2Z.id by lia. rewrite <- list_fmap_compose. done. }
  split; [done|]. split; [by apply Hcont|]. split; [by apply Hcont|]. unfold appended. cbn [sn_positions sn_keys sn_values positions keys KVCache.values].
  unfold dim. cbn [viewOf shape_ reshaped te_shape]. rewrite Hds. done.
Qed.
End cached.

(** Membership in a list that is written out. *)
Ltac listed := first [assumption | left | right; listed].
Ltac listed_side := first [done | listed | by apply not_eq_sym].

(** ** Scores, probabilities, context and output *)

Lemma wp_on_words {A} (m : ST (Z -> Z) A) h (Q : A -> Host -> Prop) E :
  wp m (words h) (fun a mem => Q a (set_words (fun _ => mem) h)) (fun e mem => E e (set_words (fun _ => mem) h)) -> wp (on_words m) h Q E.
Proof. unfold wp, on_words, zoom. by destruct (m (words h)) as [[a|e|] mem]. Qed.

(** No row throws. *)
Definition rows_defined (expf : f32 -> f32) (c : AttentionConfiguration) (tokenCount queryWidth : nat) (cached : KVCacheSnapshot) (qf : nat -> f32) : Prop :=
  forall head row, (head < Z.to_nat (headCount c))%nat -> (row < tokenCount)%nat -> row_defined expf c queryWidth cached qf head row = true.

(** The function throws: for lack of memory, or because a row has no finite scores or no
    weights that can be normalized. *)
Definition attention_failed (defined : Prop) (e : exn) : Prop := allocation_error e \/ kind_of e = RuntimeError /\ ~ defined.

Section attended.
Context `{HA : HostAllocator} `{HL : !HostAllocatorLaws}.
Variable expf : f32 -> f32.
Hypothesis Hexpf : forall x, valid32 x -> valid32 (expf x).
Variables (h : Host) (ts : list Tensor) (h1 : Host) (w : AttentionWeights) (c : AttentionConfiguration) (tokenCount queryWidth hidden : Z) (q : Tensor) (cached : KVCacheSnapshot).
Hypotheses (Hal : storage_aligned h) (Hg : grows h ts h1) (Hk : keeps h h1) (Hq : q ∈ ts) (Tq : te_dtype q = FP32).
Hypotheses (Htok : 1 <= tokenCount <= u64_max) (Hheads : 1 <= headCount c <= u64_max) (Hdim : 1 <= headDimension c) (Hhid : 1 <= hidden <= u64_max).
Hypotheses (Hwidth : queryWidth = headCount c * headDimension c) (Hwmax : queryWidth <= u64_max).
Hypotheses (Dq : dimensions (te_shape q) = [tokenCount; queryWidth]).
Hypotheses (Hkeys : (0 < keyTokenCount cached)%nat) (Hkmax : Z.of_nat (keyTokenCount cached) <= u64_max).
Hypotheses (Mo : matrix h FP32 (output w)) (Do : dim (output w) 0 = queryWidth /\ dim (output w) 1 = hidden).
Notation T := (Z.to_nat tokenCount).
Notation W := (Z.to_nat queryWidth).
Notation H := (Z.to_nat (headCount c)).
Notation K := (keyTokenCount cached).
Notation qf := (fun i => nth i (values (words h1) (viewOf true q)) f32_zero).
Notation rows_defined := (rows_defined expf c T W cached qf).

Record attend_done (scores probabilities context result : Tensor) (h2 : Host) : Prop := AttendDone {
  dn_grows : grows h (result :: context :: probabilities :: scores :: ts) h2;
  dn_keeps : keeps h h2;
  dn_spared : undisturbed ts h1 h2;
  dn_defined : rows_defined;
  dn_scores : values (words h2) (viewOf true scores) = all_scores c T W cached qf;
  dn_probabilities : values (words h2) (viewOf true probabilities) = all_probabilities expf c T W cached qf;
  dn_context : values (words h2) (viewOf true context) = all_contexts expf c T W cached qf;
  dn_output : values (words h2) (viewOf true result) =
    matrix_product T W (Z.to_nat hidden) (all_contexts expf c T W cached qf) (values (words h) (output w));
  dn_shapes : dimensions (te_shape result) = [tokenCount; hidden] /\ te_dtype result = FP32;
}.

Section loops.
Variables (scores probabilities context result : Tensor) (h2 : Host).
Notation ts' := (result :: context :: probabilities :: scores :: ts).
Hypotheses (G2 : grows h ts' h2) (K2 : keeps h h2) (U2 : undisturbed ts h1 h2).
Hypotheses (Types : te_dtype scores = FP32 /\ te_dtype probabilities = FP32 /\ te_dtype context = FP32 /\ te_dtype result = FP32).
Hypotheses (Ds : dimensions (te_shape scores) = [headCount c; tokenCount; Z.of_nat K]) (Dp : te_shape probabilities = te_shape scores).
Hypotheses (Dc : dimensions (te_shape context) = [tokenCount; queryWidth]) (Dr : dimensions (te_shape result) = [tokenCount; hidden]).

Lemma loop_counts : count (viewOf true q) = (T * W)%nat /\ count (viewOf true context) = (T * W)%nat /\
  count (viewOf true scores) = (H * T * K)%nat /\ count (viewOf true probabilities) = (H * T * K)%nat /\ W = (H * headSize c)%nat.
Proof.
  pose proof (count_product h q (owned_in _ _ _ Hg q Hq)) as Cq. pose proof (count_product h context (owned_in _ _ _ G2 context ltac:(set_solver))) as Cc.
  pose proof (count_product h scores (owned_in _ _ _ G2 scores ltac:(set_solver))) as Cs. pose proof (count_product h probabilities (owned_in _ _ _ G2 probabilities ltac:(set_solver))) as Cp.
  rewrite Dq in Cq. rewrite Dc in Cc. rewrite Dp in Cp. rewrite Ds in Cs, Cp. unfold product in *. cbn in Cq, Cc, Cs, Cp.
  unfold headSize. rewrite Cq, Cc, Cs, Cp, Hwidth. split_and!; lia.
Qed.

(** The arrays of two of the tensors do not overlap. *)
Lemma tensors_apart t t' : t ∈ ts' -> t' ∈ ts' -> te_data t <> te_data t' -> te_dtype t = FP32 -> te_dtype t' = FP32 -> apart (floats_of t) (floats_of t').
Proof.
  intros H1 H2 Hne T1 T2. pose proof (owned_apart _ _ _ G2 t t' true H1 H2 Hne) as Hd. pose proof (owned_bytes h t (owned_in _ _ _ G2 t H1) T1) as B1.
  pose proof (owned_bytes h t' (owned_in _ _ _ G2 t' H2) T2) as B2. unfold disjoint, apart, floats_of in *. cbn [viewOf data_ bytes_ fst snd] in *. lia.
Qed.

Lemma loops_distinct : te_data q <> te_data scores /\ te_data q <> te_data probabilities /\ te_data q <> te_data context /\ te_data q <> te_data result /\
  te_data scores <> te_data probabilities /\ te_data scores <> te_data context /\ te_data probabilities <> te_data context /\ te_data context <> te_data result /\
  te_data scores <> te_data result /\ te_data probabilities <> te_data result.
Proof.
  pose proof (gr_data _ _ _ G2) as Hd. cbn in Hd. rewrite !NoDup_cons in Hd. destruct Hd as (H1 & H2 & H3 & H4 & _).
  assert (te_data q ∈ te_data <$> ts) as Hin by (by apply list_elem_of_fmap_2). set_solver.
Qed.
(** The tensors the loops write. *)
Lemma written_listed : [scores; probabilities; context] ⊆ ts'.
Proof. intros t Hin. rewrite !elem_of_cons, elem_of_nil in Hin. destruct Hin as [->|[->|[->|[]]]]; listed. Qed.
Lemma written_types : Forall (fun t => te_dtype t = FP32) [scores; probabilities; context].
Proof. destruct Types as (? & ? & ? & _). by repeat constructor. Qed.
Lemma old_distinct t : t ∈ ts -> Forall (fun t' => te_data t <> te_data t') [scores; probabilities; context].
Proof.
  intros Hin. pose proof (gr_data _ _ _ G2) as Hd. cbn in Hd. rewrite !NoDup_cons in Hd. destruct Hd as (H1 & H2 & H3 & H4 & _).
  assert (te_data t ∈ te_data <$> ts) as Hd by (by apply list_elem_of_fmap_2). repeat constructor; intros Heq; rewrite Heq in Hd.
  - by apply H4.
  - apply H3. by right.
  - apply H2. by do 2 right.
Qed.

(** The loops over the zeroed context, and the output projection. *)
Lemma loops_spec :
  wp (modify (set_words (fill (te_data context) (fun _ _ => f32_zero) (seq 0 (Z.to_nat (elementCount (te_shape context)))))) ;;;
      on_words (attend expf c T W cached (te_data q) (te_data scores) (te_data probabilities) (te_data context)) ;;;
      matmul (viewOf true context) (output w) (viewOf true result) ;;;
      synchronize ;;;
      ret (scores, probabilities, context, result))%st h2
    (fun r h3 => r = (scores, probabilities, context, result) /\ attend_done scores probabilities context result h3)
    (fun e h3 => grows h ts' h3 /\ keeps h h3 /\ kind_of e = RuntimeError /\ ~ rows_defined).
Proof.
  destruct loop_counts as (Cq & Cc & Cs & Cp & CW), Types as (Ts & Tp & Tc & Tr), loops_distinct as (N1 & N2 & N3 & N4 & N5 & N6 & N7 & N8 & N9 & N10).
  wp_step. wp_step. destruct (zero_fill h h2 ts' context G2 ltac:(listed) Tc) as [Hw3 V3].
  change (count (viewOf true context)) with (Z.to_nat (elementCount (te_shape context))) in Hw3, V3 at 1. set (h3 := set_words _ h2) in *.
  pose proof (wrote_grows _ _ _ _ G2 _ Hw3) as G3. assert (keeps h h3) as K3 by (apply (wrote_keeps h ts' h2 h3 G2 context); [listed|done..]).
  assert (values (words h3) (viewOf true q) = values (words h1) (viewOf true q)) as Vq.
  { rewrite (wrote_values h ts' h2 h3 G2 context ltac:(listed) Tc Hw3 q) by listed_side. by apply U2. }
  wp_step. apply wp_on_words.
  assert (forall t, t ∈ ts' -> te_dtype t = FP32 -> te_data q <> te_data t -> apart (te_data q, (T * W)%nat) (floats_of t)) as Aq.
  { intros t Hin Ht Hne. pose proof (tensors_apart q t ltac:(listed) Hin Hne Tq Ht) as Ha. unfold floats_of at 1 in Ha. by rewrite Cq in Ha. }
  assert (scores_array c T cached (te_data scores) = floats_of scores /\ probabilities_array c T cached (te_data probabilities) = floats_of probabilities /\
    context_array T W (te_data context) = floats_of context) as (As & Ap & Ac).
  { unfold scores_array, probabilities_array, context_array, floats_of. by rewrite Cs, Cp, Cc. }
  eapply wp_mono; [apply (attend_spec expf Hexpf c T W cached (te_data q) (te_data scores) (te_data probabilities) (te_data context) qf CW)| |].
  1: rewrite As; apply Aq; listed_side. 1: rewrite Ap; apply Aq; listed_side. 1: rewrite Ac; apply Aq; listed_side.
  1: rewrite As, Ap; apply tensors_apart; listed_side. 1: rewrite As, Ac; apply tensors_apart; listed_side. 1: rewrite Ap, Ac; apply tensors_apart; listed_side.
  1: apply G3.
  { intros i Hi. rewrite <- Vq, values_lookup by (by rewrite Cq). done. }
  { intros i Hi. assert (nth i (values (words h3) (viewOf true context)) f32_zero = f32_zero) as <-; [|by rewrite values_lookup by (by rewrite Cc)].
    rewrite V3. generalize (seq 0 (count (viewOf true context))) as l. clear. induction i as [|i IH]; intros [|? l]; try done. apply IH. }
  - intros [] m Ha. pose proof (at_touches _ _ _ _ _ _ _ _ _ _ _ _ Ha) as Htm. rewrite As, Ap, Ac in Htm.
    destruct (attended_arrays expf c T W cached qf CW (te_data scores) (te_data probabilities) (te_data context) (words h3) m ltac:(lia) Ha) as (Vs & Vp & Vc).
    assert (wrote_all [scores; probabilities; context] h3 (set_words (fun _ => m) h3)) as Hw4 by (apply (own_touches h ts' h3 _ m G3 written_listed); [apply Ha|exact Htm]).
    set (h4 := set_words (fun _ => m) h3) in *. pose proof (wrote_all_grows _ _ _ _ G3 _ Hw4) as G4.
    pose proof (wrote_all_keeps h ts' h3 h4 G3 _ written_listed written_types Hw4 K3) as K4.
    assert (undisturbed ts h3 h4) as U4.
    { intros t Hin Ht. apply (wrote_all_values h ts' h3 h4 G3 _ written_listed written_types Hw4); [do 4 right; done| |done]. by apply old_distinct. }
    wp_step. pose proof (owned_usable _ _ _ G4 context true ltac:(listed)) as Uc. pose proof Mo as (Uo & To & _).
    eapply wp_mono; [apply (own_matmul h ts' h4 (viewOf true context) (output w) result G4); [listed|done| |..]| |done].
    + unfold rank. by rewrite Dr.
    + split; [done|]. split; [done|]. unfold rank. cbn [viewOf shape_]. by rewrite Dc.
    + by eapply grows_matrix.
    + apply (owned_apart _ _ _ G4); [listed|listed|done].
    + apply (owned_disjoint _ _ _ G4); [done|listed].
    + unfold dim at 2. cbn [viewOf shape_]. rewrite Dc. apply Do.
    + unfold dim. cbn [viewOf shape_]. by rewrite Dr, Dc.
    + unfold dim at 1. cbn [viewOf shape_]. rewrite Dr. symmetry. apply Do.
    + intros _ h5 [Hw5 V5]. pose proof (wrote_grows _ _ _ _ G4 _ Hw5) as G5. assert (undisturbed (context :: probabilities :: scores :: ts) h4 h5) as U5 by (by eapply wrote_undisturbed).
      assert (values (words h5) (viewOf true scores) = all_scores c T W cached qf /\ values (words h5) (viewOf true probabilities) = all_probabilities expf c T W cached qf /\
        values (words h5) (viewOf true context) = all_contexts expf c T W cached qf) as (X1 & X2 & X3).
      { split_and!; (rewrite U5; [|listed|done]); unfold values; rewrite ?Cs, ?Cp, ?Cc; assumption. }
      assert (values (words h4) (viewOf true context) = all_contexts expf c T W cached qf) as X4 by (rewrite <- X3; symmetry; apply U5; [listed|done]).
      rewrite X4, (kept_values h h4 Hal K4 (output w) Uo To) in V5.
      wp_step. eapply wp_mono; [apply (own_synchronize h ts' h5 (fun _ _ => False) G5)| |done]. intros [] h6 [G6 W6]. wp_step.
      split; [done|]. constructor; rewrite ?W6; try done.
      * eapply keeps_words; [exact W6|]. apply (wrote_keeps h ts' h4 h5 G4 result); [listed|done..].
      * intros t Hin Ht. rewrite W6, U5 by (done || (do 3 right; done)). rewrite U4 by done.
        rewrite (wrote_values h ts' h2 h3 G2 context ltac:(listed) Tc Hw3 t); [by apply U2|do 4 right; done| |done].
        pose proof (old_distinct t Hin) as Hd. rewrite !Forall_cons in Hd. apply Hd.
      * intros head row Hh Hr. apply (at_defined _ _ _ _ _ _ _ _ _ _ _ _ Ha); [done|nia].
      * rewrite V5. f_equal; [unfold dims, dim; cbn [viewOf shape_]; by rewrite Dc..|]. unfold dims. by rewrite (proj2 Do).
  - intros e m ((head & row & Hh & Hr & Hno) & He & Hok & Htm). rewrite As, Ap, Ac in Htm.
    assert (wrote_all [scores; probabilities; context] h3 (set_words (fun _ => m) h3)) as Hw4 by (by apply (own_touches h ts' h3 _ m G3 written_listed)).
    split; [by eapply (wrote_all_grows _ _ _ _ G3)|]. split; [by apply (wrote_all_keeps h ts' h3 _ G3 _ written_listed written_types Hw4)|]. split; [done|].
    intros Hd. by rewrite Hd in Hno.
Qed.
End loops.
Definition attend_failed (ts' : list Tensor) (e : exn) (h2 : Host) : Prop := grows h ts' h2 /\ keeps h h2 /\ attention_failed rows_defined e.
Lemma attend_failed_drop t ts' e h2 : attend_failed (t :: ts') e h2 -> attend_failed ts' e (drop_tensor t h2).
Proof. intros (G & K0 & He). destruct (grows_drop _ _ _ _ G) as [G' W']. split; [done|]. split; [by eapply keeps_words|done]. Qed.

Lemma attend_cached_spec :
  wp (attend_cached expf w c tokenCount queryWidth hidden q cached) h1
    (fun r h2 => let '(scores, probabilities, context, result) := r in attend_done scores probabilities context result h2)
    (attend_failed ts).
Proof.
  assert (1 <= queryWidth) as Hw1 by (subst; nia). unfold attend_cached.
  wp_step. eapply wp_mono; [apply (own_allocateShape h ts h1 _ Hg)| |].
  { repeat apply Forall_cons_2; [lia..|apply Forall_nil_2]. }
  2:{ intros e h2 [He ->]. split; [done|]. split; [done|by left]. }
  intros scores h2 (G2 & W2 & D2 & T2). cbv beta. apply wp_kept. wp_step.
  destruct (owned_storage h scores (owned_in _ _ _ G2 scores ltac:(left))) as (_ & _ & _ & _ & Ss & Sc & _).
  eapply wp_mono; [apply (own_alloc h (scores :: ts) h2 (te_shape scores) FP32 G2 Ss Sc)| |].
  2:{ intros e h3 [He ->]. apply attend_failed_drop. split; [done|]. split; [by eapply keeps_words|by left]. }
  intros probabilities h3 (G3 & W3 & D3 & T3 & _). cbv beta. apply wp_kept. wp_step.
  eapply wp_mono; [apply (own_allocateShape h _ h3 _ G3)| |].
  { repeat apply Forall_cons_2; [lia..|apply Forall_nil_2]. }
  2:{ intros e h4 [He ->]. apply attend_failed_drop, attend_failed_drop. split; [done|]. split; [eapply keeps_words; [|exact Hk]; congruence|by left]. }
  intros context h4 (G4 & W4 & D4 & T4). cbv beta. apply wp_kept. wp_step.
  eapply wp_mono; [apply (own_allocateShape h _ h4 _ G4)| |].
  { repeat apply Forall_cons_2; [lia..|apply Forall_nil_2]. }
  2:{ intros e h5 [He ->]. do 3 apply attend_failed_drop. split; [done|]. split; [eapply keeps_words; [|exact Hk]; congruence|by left]. }
  intros result h5 (G5 & W5 & D5 & T5). cbv beta. apply wp_kept.
  assert (words h5 = words h1) as Wall by congruence.
  eapply wp_mono; [apply (loops_spec scores probabilities context result h5 G5)| |].
  - by eapply keeps_words.
  - by apply undisturbed_words.
  - done.
  - done.
  - done.
  - done.
  - done.
  - intros r h6 [-> Hd]. exact Hd.
  - intros e h6 (G6 & K6 & He & Hno). do 4 apply attend_failed_drop. split; [done|]. split; [done|]. by right.
Qed.
End attended.

(** ** The whole function *)

Lemma wp_on_host {A} (m : ST Host A) (s : AttentionState) (Q : A -> AttentionState -> Prop) E :
  wp m s.1 (fun a h => Q a (h, s.2)) (fun e h => E e (h, s.2)) -> wp (on_host m) s Q E.
Proof. unfold wp, on_host, zoom. by destruct (m s.1) as [[a|e|] h]. Qed.
Lemma wp_holding {A} t (m : ST AttentionState A) s (Q : A -> AttentionState -> Prop) E :
  wp m s Q (fun e s' => E e (drop_tensor t s'.1, s'.2)) -> wp (holding t m) s Q E.
Proof. unfold wp, holding. by destruct (m s) as [[a|e|] s']. Qed.

Section whole.
Context `{HA : HostAllocator} `{HL : !HostAllocatorLaws}.
Variables (expf : f32 -> f32) (pow : f64 -> f64 -> f64) (cos sin : f64 -> f64).
Hypothesis Hexpf : forall x, valid32 x -> valid32 (expf x).
Variables (h : Host) (cache : option KVCache) (hiddenStates : TensorView) (w : AttentionWeights) (requested : AttentionConfiguration).
Notation c := (effective requested).
Notation T := (dim hiddenStates 0).
Notation D := (dim hiddenStates 1).
Notation W := (headCount requested * projectionHeadDimension requested).
Notation qv := (query_values pow cos sin h hiddenStates w c).
Notation qf := (fun i => nth i qv f32_zero).

(** What a call returns, with the keys and values [cached] it attended to. *)
Record attention_result (r : AttentionResult) (cached : KVCacheSnapshot) (s : AttentionState) : Prop := AttentionOf {
  as_grows : grows h [ar_output r; ar_context r; ar_probabilities r; ar_scores r; ar_value r; ar_key r; ar_query r] s.1;
  as_keeps : keeps h s.1;
  as_query : values (words s.1) (viewOf true (ar_query r)) = qv;
  as_key : values (words s.1) (viewOf true (ar_key r)) = key_values pow cos sin h hiddenStates w c;
  as_value : values (words s.1) (viewOf true (ar_value r)) = value_values h hiddenStates w;
  as_cached : cached_as c T (key_values pow cos sin h hiddenStates w c) (value_values h hiddenStates w) cache cached s.2;
  as_defined : rows_defined expf c (Z.to_nat T) (Z.to_nat W) cached qf;
  as_scores : values (words s.1) (viewOf true (ar_scores r)) = all_scores c (Z.to_nat T) (Z.to_nat W) cached qf;
  as_probabilities : values (words s.1) (viewOf true (ar_probabilities r)) = all_probabilities expf c (Z.to_nat T) (Z.to_nat W) cached qf;
  as_context : values (words s.1) (viewOf true (ar_context r)) = all_contexts expf c (Z.to_nat T) (Z.to_nat W) cached qf;
  as_output : values (words s.1) (viewOf true (ar_output r)) =
    matrix_product (Z.to_nat T) (Z.to_nat W) (Z.to_nat D) (all_contexts expf c (Z.to_nat T) (Z.to_nat W) cached qf) (values (words h) (output w));
  as_shape : dimensions (te_shape (ar_output r)) = [T; D] /\ te_dtype (ar_output r) = FP32;
}.
(** How it can fail: before the cache is extended, or after. *)
Definition attention_throws (ts : list Tensor) (e : exn) (s : AttentionState) : Prop :=
  grows h ts s.1 /\ keeps h s.1 /\
  (allocation_error e /\ s.2 = cache \/
   exists cached, cached_as c T (key_values pow cos sin h hiddenStates w c) (value_values h hiddenStates w) cache cached s.2 /\
     attention_failed (rows_defined expf c (Z.to_nat T) (Z.to_nat W) cached qf) e).

Lemma attention_throws_drop t ts e h1 cache1 : attention_throws (t :: ts) e (h1, cache1) -> attention_throws ts e (drop_tensor t h1, cache1).
Proof. intros (G & K & He). destruct (grows_drop _ _ _ _ G) as [G' W']. split; [done|]. split; [by eapply keeps_words|done]. Qed.

Hypotheses (Hwf : host_wf h) (Hal : storage_aligned h) (Hf : attention_fits h hiddenStates w requested) (Hn : norms_fit h w requested).
Hypothesis Hc : cache_fits c T cache.

Lemma cached_tokens newKeys newValues cached cache' : cached_as c T newKeys newValues cache cached cache' ->
  1 <= T -> positionOffset requested + T <= u64_max -> 0 <= positionOffset requested ->
  (0 < keyTokenCount cached)%nat /\ Z.of_nat (keyTokenCount cached) <= u64_max.
Proof.
  intros Hca H1 H2 H3. unfold keyTokenCount. unfold cached_as, cache_fits in *. destruct cache as [old|].
  - destruct Hca as (l & ks & vs & Hl & _ & _ & -> & _). destruct Hc as (_ & _ & _ & _ & l' & Hl' & Hp & _). cbn [effective set_headDimension layerIndex positionOffset] in *.
    rewrite Hl in Hl'. injection Hl' as <-. rewrite length_fmap, length_seq. lia.
  - destruct Hca as (_ & -> & _). rewrite length_fmap, length_seq. lia.
Qed.

Lemma attention_execute_spec :
  wp (attention_execute expf pow cos sin hiddenStates w requested) (h, cache)
    (fun r s => exists cached, attention_result r cached s) (attention_throws []).
Proof.
  pose proof Hf as [Hm (U1 & H1 & U2 & H2 & _ & U3 & H3) _ [Q0 Q1] [K0 K1] [V0 V1] [O0 O1] _ [Po1 Po2] _]. repeat apply Forall_cons in Hm as [[? _] Hm]. unfold is_u64 in *.
  pose proof (matrix_dims h FP32 hiddenStates 0%nat ltac:(done) ltac:(lia)) as HT. pose proof (matrix_dims h FP32 hiddenStates 1%nat ltac:(done) ltac:(lia)) as HD.
  pose proof (matrix_dims h FP32 (query w) 1%nat ltac:(done) ltac:(lia)) as HW. pose proof (matrix_dims h FP32 (key w) 1%nat ltac:(done) ltac:(lia)) as HKW. rewrite Q1 in HW. rewrite K1 in HKW.
  assert (forall ts h1 e, grows h ts h1 -> words h1 = words h -> allocation_error e -> attention_throws ts e (h1, cache)) as Halloc.
  { intros ts h1 e G E He. split; [done|]. split; [by eapply keeps_words|]. by left. }
  unfold attention_execute. wp_step. wp_step. wp_step. apply wp_lift. cbn [fst]. rewrite (checked_configuration_ok h hiddenStates w requested Hwf Hf). cbv beta iota.
  wp_step. apply wp_on_host. cbn [fst snd]. eapply wp_mono; [apply (own_allocateShape h [] h); [by apply grows_refl|repeat apply Forall_cons_2; [lia..|apply Forall_nil_2]]| |].
  2:{ intros e h1 [He ->]. apply Halloc; [by apply grows_refl|done|done]. }
  intros q h1 (G1 & E1 & D1 & T1). cbv beta. apply wp_holding. wp_step. apply wp_on_host. cbn [fst snd].
  eapply wp_mono; [apply (own_allocateShape h [q] h1 _ G1); repeat apply Forall_cons_2; [lia..|apply Forall_nil_2]| |].
  2:{ intros e h2 [He ->]. cbn [fst snd]. apply attention_throws_drop. by apply Halloc. }
  intros k h2 (G2 & E2 & D2 & T2). cbv beta. apply wp_holding. wp_step. apply wp_on_host. cbn [fst snd].
  eapply wp_mono; [apply (own_allocateShape h [k; q] h2 _ G2); repeat apply Forall_cons_2; [lia..|apply Forall_nil_2]| |].
  2:{ intros e h3 [He ->]. cbn [fst snd]. do 2 apply attention_throws_drop. apply Halloc; [done|congruence|done]. }
  intros v h3 (G3 & E3 & D3 & T3). cbv beta. apply wp_holding. wp_step. apply wp_on_host. cbn [fst snd].
  assert (words h3 = words h) as E by congruence.
  eapply wp_mono; [apply (projections_spec pow cos sin h hiddenStates w requested q k v Hwf Hal Hf Hn); [done|done|done|by eapply keeps_words]| |done].
  intros [] h4 [G4 K4 Vq Vk Vv]. cbv beta. wp_step.
  eapply wp_mono; [apply (attention_cache_spec h [v; k; q] h4 c T k v G4); try done; [listed|listed|lia]| |done].
  intros cached s [E5 Hca]. rewrite Vk, Vv in Hca. destruct s as [h5 cache']. cbn [fst snd] in E5, Hca. subst h5. cbv beta. wp_step. apply wp_on_host. cbn [fst snd].
  destruct (cached_tokens _ _ _ _ Hca) as [Hk1 Hk2]; [lia..|].
  eapply wp_mono; [apply (attend_cached_spec expf Hexpf h [v; k; q] h4 w c T W D q cached Hal G4 K4); first [done|listed|cbn [effective set_headDimension headCount headDimension]; lia]| |].
  - intros [[[scores probabilities] context] result] h6 [G6 K6 U6 Df Vs Vp Vc Vo Ds]. rewrite Vq in Df, Vs, Vp, Vc, Vo. wp_step. exists cached. constructor; cbn [fst snd ar_query ar_key ar_value ar_scores ar_probabilities ar_context ar_output]; try done.
    + rewrite U6; [done|listed|done].
    + rewrite U6; [done|listed|done].
    + rewrite U6; [done|listed|done].
  - intros e h6 (G6 & K6 & He). cbn [fst snd]. do 3 apply attention_throws_drop. split; [done|]. split; [done|]. right. exists cached. split; [done|]. by rewrite Vq in He.
Qed.

(** C15: For operands that fit the configuration ([attention_fits], [norms_fit] and
    [cache_fits]), attention on the CPU computes, for every head and token, the softmax of the scaled
    products of its query with the keys it may see, and the mixture of their values, with
    the roundings of the source; queries and keys are normalized and rotated first when the
    configuration says so, keys and values follow those already in the cache, which is
    extended by exactly them, and the output is the mixtures times the output projection.
    The seven results are new tensors, nothing that was allocated changes. The call fails
    only for lack of memory, or because some row has a score that is not finite or weights
    that cannot be normalized; every tensor is then released. *)
Theorem attention_exact :
  match attention_execute expf pow cos sin hiddenStates w requested (h, cache) with
  | (Ok r, s) => exists cached, attention_result r cached s
  | (Throw e, s) => balanced h s.1 /\ keeps h s.1 /\
      (allocation_error e /\ s.2 = cache \/
       exists cached, cached_as c T (key_values pow cos sin h hiddenStates w c) (value_values h hiddenStates w) cache cached s.2 /\
         (allocation_error e \/ kind_of e = RuntimeError /\ ~ rows_defined expf c (Z.to_nat T) (Z.to_nat W) cached qf))
  | (Diverge, _) => False
  end.
Proof.
  pose proof attention_execute_spec as H. unfold wp in H. destruct (attention_execute _ _ _ _ _ _ _ _) as [[r|e|] s]; [done| |done].
  destruct H as (G & K & He). split; [by apply grows_none|]. done.
Qed.
End whole.

(** ** One token and a cache *)

Definition attention_expf (x : f32) : f32 := f32_of_Z 1.
Definition attention_pow (x y : f64) : f64 := f64_one.
Definition sample_attention : AttentionWeights :=
  let m := sample_matrix 3 3072 2 2 FP32 false in mkAttentionWeights m m m m emptyView emptyView.
Definition sample_attention_configuration : AttentionConfiguration := mkAttentionConfiguration 1 1 0 2 true true (f32_of_Z 10000) (f32_of_Z 1) 1 0.

Lemma sample_operand owner data rows columns : owner ∈ owners sample_host -> live sample_host !! data = Some (rows * columns * 4) -> 0 < rows -> 0 < columns ->
  rows * columns <= 4 -> data mod 1024 = 0 -> view_valid (owners sample_host) (sample_matrix owner data rows columns FP32 false) = true ->
  view_isContiguous (sample_matrix owner data rows columns FP32 false) = true ->
  matrix sample_host FP32 (sample_matrix owner data rows columns FP32 false) /\ device_ (sample_matrix owner data rows columns FP32 false) = cpu.
Proof.
  intros H1 H2 H3 H4 H5 H6 H7 H8. split; [|done]. split; [|done]. apply usable_intro; [apply sample_host_wf| |done|done|done]. by eapply sample_placed.
Qed.

Lemma sample_attention_fits : attention_fits sample_host (sample_matrix 1 1024 1 2 FP32 false) sample_attention sample_attention_configuration.
Proof.
  assert (matrix sample_host FP32 (sample_matrix 3 3072 2 2 FP32 false) /\ device_ (sample_matrix 3 3072 2 2 FP32 false) = cpu) as Hm by (by apply sample_operand).
  constructor; try (unfold is_u64, u64_max; cbn; lia); try done.
  - repeat apply Forall_cons_2; try exact Hm; [by apply sample_operand|apply Forall_nil_2].
Qed.

Lemma sample_storage_aligned : storage_aligned sample_host.
Proof. unfold storage_aligned. cbn [sample_host live]. repeat (apply map_Forall_insert_2; [done|]). apply map_Forall_empty. Qed.

Lemma sample_cache_fits : cache_fits (effective sample_attention_configuration) (dim (sample_matrix 1 1024 1 2 FP32 false) 0) (Some sample_cache).
Proof.
  split; [apply sample_cache_wf|]. split; [reflexivity|]. split; [reflexivity|]. split; [cbn; lia|]. exists emptyLayer. split; [reflexivity|]. split; [reflexivity|]. cbn. lia.
Qed.

Lemma attention_exact_witness :
  exists r s cached, attention_execute attention_expf attention_pow (fun _ => f64_one) (fun _ => f64_zero) (sample_matrix 1 1024 1 2 FP32 false)
      sample_attention sample_attention_configuration (sample_host, Some sample_cache) = (Ok r, s) /\
    attention_result attention_expf attention_pow (fun _ => f64_one) (fun _ => f64_zero) sample_host (Some sample_cache) (sample_matrix 1 1024 1 2 FP32 false)
      sample_attention sample_attention_configuration r cached s /\
    values (words s.1) (viewOf true (ar_output r)) = f32_of_Z <$> [6; 6].
Proof.
  pose proof (attention_exact attention_expf attention_pow (fun _ => f64_one) (fun _ => f64_zero) ltac:(intros; unfold attention_expf; auto with valid)
    sample_host (Some sample_cache) (sample_matrix 1 1024 1 2 FP32 false) sample_attention sample_attention_configuration sample_host_wf sample_storage_aligned sample_attention_fits
    ltac:(by left)) as H.
  specialize (H sample_cache_fits).
  assert (exists r, fst (attention_execute attention_expf attention_pow (fun _ => f64_one) (fun _ => f64_zero) (sample_matrix 1 1024 1 2 FP32 false)
      sample_attention sample_attention_configuration (sample_host, Some sample_cache)) = Ok r /\
    values (words (snd (attention_execute attention_expf attention_pow (fun _ => f64_one) (fun _ => f64_zero) (sample_matrix 1 1024 1 2 FP32 false)
      sample_attention sample_attention_configuration (sample_host, Some sample_cache))).1) (viewOf true (ar_output r)) = f32_of_Z <$> [6; 6]) as (r & Hr & Hv)
    by (eexists; split; [vm_compute; reflexivity|vm_compute; reflexivity]).
  destruct (attention_execute _ _ _ _ _ _ _ _) as [x s]. cbn [fst snd] in Hr, Hv. subst x. destruct H as [cached H]. exists r, s, cached. done.
Defined.

(** A head dimension other than the projections' passes the checks: the last feature of the
    only row of two floats is then read, and its context written, at index three. *)
Lemma wider_heads_accepted :
  let wide := set_headDimension 4 sample_attention_configuration in
  checked_configuration (owners sample_host) (sample_matrix 1 1024 1 2 FP32 false) sample_attention wide = Ok (wide, 2, 2) /\
  queryIndex wide 2 0 0 (headSize wide - 1) = 3%nat.
Proof. vm_compute. done. Qed.

(** Normalization weights whose storage has expired are ignored, although a message for
    that case exists. *)
Definition expired_view : TensorView := mkView (mkShape [2] [1] 2 2) FP32 cpu 4096 0 8 8 (Some 9).
Lemma expired_norms_ignored query key :
  normalize_heads (mkAttentionWeights emptyView emptyView emptyView emptyView expired_view expired_view) sample_attention_configuration 1 query key sample_host =
  (Ok tt, sample_host).
Proof. reflexivity. Qed.
